(* ===== verification/_CoqProject ===== *)
-Q . S2P
Prelude.v
NtEnv.v
Bytes.v
RangeListRef.v
ArbTypes.v
Ordering.v
RangeWalk.v
Entry.v
DefaultSlots.v
Transaction.v
Handler.v
Lifetime.v
ResTranslate.v
ResSlots.v
ResLifetime.v
Resource.v
IrqVectors.v
IrqData.v
IrqLinks.v
IrqArb.v
IrqSearch.v
IrqCommit.v
AcpiEnv.v
PowerRes.v
PowerCaps.v
Wake.v
WakeRace.v
EvalWire.v
EvalCall.v
Ioctl.v
EcPort.v
EcLaws.v
EcQuery.v
EcBoot.v
IrpQueue.v
Button.v
Thermal.v
ThermalRound.v
ThermalZone.v
ThermalReply.v
PdoControl.v
Enum.v
EnumPass.v
