(* ===== verification/Prelude.v ===== *)
(** * uACPI-NT: a verification library for the ACPI driver

    uACPI-NT is an ACPI driver for Windows NT built on the uACPI interpreter.
    This library models the parts of the driver that decide who gets which
    hardware resource, the parts that switch power and arm devices for wake, the
    enumeration of devices, the control calls through which other drivers run
    methods, the embedded controller, and the buttons and thermal zones, and states
    what makes them correct.  It follows the build for Vista and later
    (NTDDI_VERSION >= NTDDI_VISTA) with 64-bit ULONG_PTR; what depends on
    NTDDI_WIN8 or NTDDI_WIN10 takes it as a parameter.  Definitions keep the names
    of the C functions; a C function that reads or writes state takes and returns
    that state.

    ** The program's parts and the files here

    The arbiter library, src/reactos-libs/arbiter:
    - ArbTypes.v: arbiter.h, the resource descriptors, alternatives, allocation
      states, ordering lists and the instance.
    - Ordering.v: ordering.c, the growable ordering lists, the registry policy.
    - RangeWalk.v: range.c, the walk over priorities and windows, conflict
      overriding and sharing, the finder, adding and withdrawing a range.
    - Entry.v: entry.c, the backtracking search.  Its class [ArbiterSlots] is the
      contract between the search and the function slots of an arbiter.
    - DefaultSlots.v: the library's own slots meet the contract.
    - Transaction.v: transaction.c, Test, Retest, Commit, Rollback, Boot and
      QueryConflict.  The class [ArbiterDriver] says what a test needs of an
      arbiter.
    - Handler.v: handler.c, the action handler under the instance's lock, range
      seeding, Start, ReserveRange and ReleaseResources.
    - Lifetime.v: arbiter.c, building and deleting an instance.
    The arbiters of a module device, src/sys/resarb.c: ResTranslate.v (translation,
    scoring, windows), ResSlots.v (the finders and the port slots), ResLifetime.v
    (creation, teardown, the interface query).
    The lists of a device, src/sys/resource.c with the translation call of
    src/sys/reshub.c: Resource.v.
    The interrupt library, src/sys/irqlib.c: IrqVectors.v (trigger bitmaps, the
    vector books of the processors, message runs), IrqData.v (MADT overrides,
    vector resolution, connection data, HAL slots, startup).
    The interrupt arbiter, src/sys/irqarb.c: IrqLinks.v (link devices, routing
    tables, bridges), IrqArb.v (translation, message counts, slots and their
    contract), IrqSearch.v (the arbiter under test), IrqCommit.v (commit,
    bring-up, query).
    Power: AcpiEnv.v (the interpreter as the power code calls it), PowerRes.v
    (src/sys/powerres.c, the power resources and their counts), PowerCaps.v
    (src/sys/power.c, first half, and the capabilities query of src/sys/pdo.c:
    switching a device, the system-to-device map), Wake.v (src/sys/power.c,
    second half, and src/sys/sleep.c: arming a device, the wake masks across a
    sleep), WakeRace.v (the same routines cut at their locks, for the threads
    that may end one wait).
    Control calls, src/sys/ioctl.c: EvalWire.v (method arguments from and to the
    wire), EvalCall.v (an evaluation, from the caller's buffer and back into it),
    Ioctl.v (the other calls of an ACPI device), PdoControl.v (the dispatch over the
    handlers of all device classes, src/drivers included).  Bytes.v holds the reads
    and writes of byte buffers that these and the table walks share.
    Device enumeration, src/sys/enum.c: Enum.v (the walk over the namespace, device
    objects, bus relations), EnumPass.v (what a pass and a bus query do as a whole).
    The embedded controller, src/drivers/ec.c: EcPort.v (transactions at the two
    ports, the address space handler, transfers by IRP), EcLaws.v (what a
    controller does, and what the transactions do with one), EcQuery.v (events,
    from the GPE to the method or the driver, and registration), EcBoot.v
    (bring-up from the ECDT and the namespace, start and removal).
    The device functions: IrpQueue.v (the cancel-safe IRP queue that both use),
    Button.v (src/drivers/button.c, buttons and the lid), Thermal.v
    (src/drivers/thermal.c, the readings, the trip points and the cooling devices),
    ThermalRound.v (the same file: the worker's stores, one by one, and what is true
    of the data between them), ThermalZone.v (requests, the worker, start and stop),
    ThermalReply.v (what the callers' buffers get, and runs spelled out).

    A resource request goes from the lists of Resource.v through the handler into
    a test, which builds a stack of states, searches it with the slots of the
    arbiter, and leaves the solution in the tentative range list; a commit makes
    that list the committed one and, for interrupts, writes the connection data
    that IrqData.v builds.  A power request moves the device's hold on its power
    resources and runs _PSx; a wait-wake request takes the wake resources, enables
    the GPE and stays pended until the event, a cancel or the removal claims it.
    An evaluation call decodes the bytes of its caller into objects, enters the
    interpreter once and serializes what comes back into the same buffer.
    An event of the embedded controller raises its GPE, the handler queues a DPC,
    the DPC a work item, and the worker fetches and dispatches until none is left.
    A press of a button completes a waiting IRP or is latched for the next one.  A
    thermal request is queued with the work it asks for; one worker at a time takes
    the work, evaluates the zone's methods and completes what is queued.  A bus
    query walks the namespace, makes or marks the device of each node and merges the
    present ones into the list it was given.

    ** What the code relies on

    The range list package of the kernel (RtlAddRange and the rest) is the class
    [RtlRangeList] of NtEnv.v with its documented behaviour in [RtlRangeListLaws],
    [RtlPoolSuffices], [RtlExclusiveRanges] and [RtlInvertRanges]; RangeListRef.v
    is an instance that meets all of them, on which the witnesses run.  The
    clock, the pool, the registry, device properties, configuration space and the
    HAL are functions in the world or in arguments.  The interpreter's methods on
    a node are the class [Firmware] of IrqLinks.v; for the power code, whose
    methods keep state, the interpreter is the class [Acpi] of AcpiEnv.v: what a
    call answers is a function of the calls made before it, and the calls are
    recorded.  What the interpreter tells of a node, its children, type, names and IDs,
    is the class [AcpiNames] of Enum.v, and [AcpiTree] says that they form a tree.  The codes of the Windows kit's acpiioct.h, which is not in the tree,
    are the classes [AcpiIoct], [AcpiSignatures] and [AcpiControl]; the layout of
    its structures is the published one.  The ports of the embedded controller are
    the class [EcPorts], what is behind them, by chapter 12 of the ACPI
    specification, the class [EcLaws]: a view of memory, pending events and the
    transaction in progress, which time may change in stated ways between any two
    accesses; [EcPrompt] adds that it answers within the code's timeout.  A small
    controller with scripted events and a chosen delay meets the laws.  The flags
    and codes of the kit's poclass.h are the classes [PoClass] and [ThermalCodes]:
    each flag a bit of its own, the codes all different.

    ** The theorems

    - The search ends, never follows a missing choice, and leaves exactly a
      complete solution; a placement lies in its requirement and meets no other
      (Entry.v, DefaultSlots.v, ResSlots.v, RangeWalk.v).
    - Test, Retest, Commit, Boot and QueryConflict do to the books what they say,
      and the handler refines an abstract pair of books (Transaction.v,
      Handler.v).  Devices that are not on a list keep their ranges.
    - Ordering lists stay sorted, disjoint and bounded; initialization is all or
      nothing and leaks no block (Ordering.v, Lifetime.v, ResLifetime.v).
    - Lists built from _CRS and _PRS hold exactly the descriptors of the
      firmware, within their buffers, and pin what is assigned (Resource.v).
    - Vectors are never given twice, on any processor; connection data agree with
      the HAL slots (IrqVectors.v, IrqData.v).
    - A wired interrupt is routed by the swizzled pin, its link keeps off the SCI,
      a test puts a routed device on its line, a commit keeps the devices' data
      up to date (IrqLinks.v, IrqSearch.v, IrqCommit.v).
    - A power resource is on exactly as its holders say, also when methods fail;
      a device is switched in the order the specification asks; the state map is
      sound (PowerRes.v, PowerCaps.v).  The counts are right as long as nobody
      switches a device twice at once or arms one again before its disarm; what
      happens otherwise is proved too.
    - The wake hardware follows the armed flag, a sleep masks what cannot wake it
      and the resume puts it back; a wait is answered in every case, exactly once
      whatever the threads do (Wake.v, WakeRace.v).
    - A control call is answered exactly once, or left to the queue of its button or
      zone, and reads and writes inside its buffers for any bytes; each of the eight
      input forms calls the method with what it says; arguments are accepted exactly
      when they follow the wire grammar, what is written reads back, and nothing is
      left behind on any path (EvalWire.v, EvalCall.v, Ioctl.v, PdoControl.v).
    - The traffic at the controller's ports keeps to the protocol whatever is
      read there; what is written reads back; no event is lost or handled twice
      however the threads interleave, and none is left while the event path is
      idle, if the controller answers in time and the global lock is given; there is
      one block per node (EcPort.v, EcLaws.v, EcQuery.v, EcBoot.v).
    - A pass over the namespace settles the nodes in reach and no others; a bus query
      lists each present device once, inside the room it has (Enum.v, EnumPass.v).
    - Whatever the threads do, an IRP of a button or of a zone is completed once or
      waits where it can be cancelled, no list is broken, every press is reported by
      its flag, a zone has at most one worker, and what it does comes to an end; what
      is written fits the caller's buffer, and what the worker writes is whole
      (IrpQueue.v, Button.v, ThermalZone.v, ThermalReply.v).  A cooling device ends in
      the state its lists ask for, the platform is told to watch when it should be,
      but for one case (Thermal.v).
    - Behaviour the code should not have is proved where it was found, on
      concrete inputs.

    ** Bounds and fuel

    The search is given one turn per clock read up to the hard deadline; the
    inner walk gets [walk_fuel], two turns per priority of each alternative, and
    the theorems show that it is enough.  The walk over raw resource items and
    over the MADT has the length of the buffer as fuel: each item takes at least
    one byte.  The port finder takes at most 64 turns, the climb over bridges 8,
    the preferred lines of the interrupt walker 4, as in the code.  A message run
    search covers the 256 vectors.  Arguments are read with one level of fuel for
    each of the eight levels of nesting and the one that is refused.  A wait for
    the embedded controller polls 1001 times, 10 ms by the code's count; more fuel
    changes nothing.  A drain has the 256 rounds of the code.  The turns left to the
    threads of a button or a zone are bounded by [button_work] and [zone_work].

    ** Not modelled

    The uACPI interpreter (src/uacpi) is a third-party library kept in the tree.
    Request plumbing (IRP dispatch, device creation) is not modelled yet; see the
    components of the manifest.  Of a sleep, the HAL's wake cache and the wait for
    pending work are left out, and what restores the interrupt links is an
    argument.  Functions that only print (conflict reports, message readback) are
    left out.  The lock of an instance is modelled as a flag: calls of the handler
    do not interleave.  A transaction of the embedded controller is one step, as
    its mutex makes it; what runs under the lock of a button or a zone is one step
    too, except that the I/O manager may take a cancel routine in between, and that a
    zone's readings are copied under its lock word by word while the worker stores
    them.  Words are read and stored whole and in the order of the program. *)
From stdpp Require Import base list numbers option sorting.
From Stdlib Require Import ZArith Lia Permutation.

(** ** Scopes and notations *)

Declare Scope nt_scope.
Delimit Scope nt_scope with nt.
Open Scope Z_scope.

(** ** Machine integers

    A [w]-bit unsigned integer is a [Z] in [0 .. 2^w - 1]; every C operation
    that can wrap is written with the explicit reduction below. *)

Definition ULONGLONG_MAX : Z := 18446744073709551615.
Definition u64 (x : Z) : Z := x mod 18446744073709551616.
Definition u32 (x : Z) : Z := x mod 4294967296.
Definition u16 (x : Z) : Z := x mod 65536.
Definition u8 (x : Z) : Z := x mod 256.

(** Two's complement reading of a 32-bit pattern. *)
Definition s32 (x : Z) : Z :=
  let y := u32 x in if y <? 2147483648 then y else y - 4294967296.

Definition add64 (a b : Z) : Z := u64 (a + b).
Definition sub64 (a b : Z) : Z := u64 (a - b).

Notation "a '+u' b" := (add64 a b) (at level 50, left associativity) : nt_scope.
Notation "a '-u' b" := (sub64 a b) (at level 50, left associativity) : nt_scope.
Open Scope nt_scope.

Definition is_u64 (x : Z) : Prop := 0 <= x <= ULONGLONG_MAX.

(** [Flags & Mask] used as a condition, [Flags |= Mask], [Flags &= ~Mask]. *)
Definition has_flag (f m : Z) : bool := negb (Z.land f m =? 0).
Definition set_flag (f m : Z) : Z := Z.lor f m.
Definition clear_flag (f m : Z) : Z := Z.ldiff f m.

(** ** NTSTATUS *)

Definition NTSTATUS := Z.
Definition STATUS_SUCCESS : NTSTATUS := 0x0.
Definition STATUS_PENDING : NTSTATUS := 0x00000103.
Definition STATUS_DEVICE_BUSY : NTSTATUS := 0x80000011.
Definition STATUS_UNSUCCESSFUL : NTSTATUS := 0xC0000001.
Definition STATUS_NOT_IMPLEMENTED : NTSTATUS := 0xC0000002.
Definition STATUS_INVALID_PARAMETER : NTSTATUS := 0xC000000D.
Definition STATUS_INVALID_DEVICE_REQUEST : NTSTATUS := 0xC0000010.
Definition STATUS_BUFFER_TOO_SMALL : NTSTATUS := 0xC0000023.
Definition STATUS_INSUFFICIENT_RESOURCES : NTSTATUS := 0xC000009A.
Definition STATUS_NOT_SUPPORTED : NTSTATUS := 0xC00000BB.
Definition STATUS_DEVICE_CONFIGURATION_ERROR : NTSTATUS := 0xC0000182.
Definition STATUS_INVALID_DEVICE_STATE : NTSTATUS := 0xC0000184.
Definition STATUS_RANGE_LIST_CONFLICT : NTSTATUS := 0xC0000282.
Definition STATUS_RANGE_NOT_FOUND : NTSTATUS := 0xC000028C.
Definition STATUS_BAD_MCFG_TABLE : NTSTATUS := 0xC0000908.

(** [NT_SUCCESS]: the status is non-negative as a signed 32-bit integer. *)
Definition NT_SUCCESS (s : NTSTATUS) : bool := 0 <=? s32 s.

(** Pointers are identities; [NULL] is 0. *)
Definition PVOID := Z.
Definition NULL : PVOID := 0.

(** ** Tactics *)

(** Splits every [if] and [match] that blocks the goal. *)
Ltac case_goal :=
  match goal with
  | |- context [if ?b then _ else _] => destruct b eqn:?
  | |- context [match ?x with _ => _ end] => destruct x eqn:?
  end.

(** Splits the first [if] or [match] in a hypothesis. *)
Ltac case_hyp H :=
  match type of H with
  | context [if ?b then _ else _] => destruct b eqn:?
  | context [match ?x with _ => _ end] => destruct x eqn:?
  end.

(** Turns boolean comparisons in the context into propositions. *)
Ltac bool_prop :=
  repeat match goal with
  | H : (_ && _) = true |- _ => apply andb_prop in H; destruct H
  | H : (_ || _) = false |- _ => apply orb_false_elim in H; destruct H
  | H : (_ || _) = true |- _ => apply orb_prop in H; destruct H
  | H : negb _ = true |- _ => apply negb_true_iff in H
  | H : negb _ = false |- _ => apply negb_false_iff in H
  | H : (_ <? _) = true |- _ => apply Z.ltb_lt in H
  | H : (_ <? _) = false |- _ => apply Z.ltb_ge in H
  | H : (_ <=? _) = true |- _ => apply Z.leb_le in H
  | H : (_ <=? _) = false |- _ => apply Z.leb_gt in H
  | H : (_ =? _) = true |- _ => apply Z.eqb_eq in H
  | H : (_ =? _) = false |- _ => apply Z.eqb_neq in H
  end.

Ltac zbool := bool_prop; subst; try lia.

(** The same for comparisons of naturals. *)
Ltac nat_prop :=
  repeat match goal with
  | H : (_ <? _)%nat = true |- _ => apply Nat.ltb_lt in H
  | H : (_ <? _)%nat = false |- _ => apply Nat.ltb_ge in H
  | H : (_ =? _)%nat = true |- _ => apply Nat.eqb_eq in H
  | H : (_ =? _)%nat = false |- _ => apply Nat.eqb_neq in H
  end.

(** ** The shared hint database *)

Create HintDb nt discriminated.

Lemma u64_small x : is_u64 x -> u64 x = x.
Proof. unfold is_u64, ULONGLONG_MAX, u64. intros. apply Z.mod_small. lia. Qed.

Lemma u64_range x : is_u64 (u64 x).
Proof.
  unfold is_u64, ULONGLONG_MAX, u64.
  pose proof (Z.mod_pos_bound x 18446744073709551616). lia.
Qed.

Lemma add64_small a b : is_u64 (a + b) -> a +u b = a + b.
Proof. apply u64_small. Qed.

Lemma sub64_small a b : is_u64 (a - b) -> a -u b = a - b.
Proof. apply u64_small. Qed.

Lemma u32_range x : 0 <= u32 x < 4294967296.
Proof. unfold u32. apply Z.mod_pos_bound. lia. Qed.

Lemma u32_small x : 0 <= x < 4294967296 -> u32 x = x.
Proof. intros. apply Z.mod_small. lia. Qed.

Lemma u16_small x : 0 <= x < 65536 -> u16 x = x.
Proof. intros. apply Z.mod_small. lia. Qed.

Lemma u8_range x : 0 <= u8 x < 256.
Proof. unfold u8. apply Z.mod_pos_bound. lia. Qed.

Lemma u8_small x : 0 <= x < 256 -> u8 x = x.
Proof. intros. apply Z.mod_small. lia. Qed.

Lemma sub64_range a b : is_u64 (a -u b).
Proof. apply u64_range. Qed.

Lemma add64_range a b : is_u64 (a +u b).
Proof. apply u64_range. Qed.

#[export] Hint Resolve u64_range sub64_range add64_range : nt.

(** ** Alignment arithmetic *)

(** Rounding down to a multiple of [a]. *)
Definition align_down (x a : Z) : Z := x - x mod a.

Lemma align_down_le x a : 0 < a -> align_down x a <= x.
Proof. unfold align_down. intros. pose proof (Z.mod_pos_bound x a). lia. Qed.

Lemma align_down_gt x a : 0 < a -> x - a < align_down x a.
Proof. unfold align_down. intros. pose proof (Z.mod_pos_bound x a). lia. Qed.

Lemma align_down_aligned x a : 0 < a -> align_down x a mod a = 0.
Proof.
  unfold align_down. intros.
  rewrite Zminus_mod, Zmod_mod, Z.sub_diag. apply Z.mod_0_l. lia.
Qed.

Lemma align_down_nonneg x a : 0 < a -> 0 <= x -> 0 <= align_down x a.
Proof.
  unfold align_down. intros Ha Hx. pose proof (Z.mod_le x a Hx Ha). lia.
Qed.

(** The largest multiple below [x]: any multiple not above [x] is not above it. *)
Lemma align_down_max x a y : 0 < a -> y mod a = 0 -> y <= x -> y <= align_down x a.
Proof.
  unfold align_down. intros Ha Hy Hle.
  pose proof (Z.div_mod y a ltac:(lia)). pose proof (Z.div_mod x a ltac:(lia)).
  pose proof (Z.div_le_mono y x a Ha Hle). nia.
Qed.

(** Two multiples of [a] closer than [a] from below are in order. *)
Lemma aligned_gap a x y : 0 < a -> x mod a = 0 -> y mod a = 0 -> y - a < x -> y <= x.
Proof.
  intros Ha Hx Hy Hlt.
  pose proof (Z.div_mod x a ltac:(lia)). pose proof (Z.div_mod y a ltac:(lia)).
  assert (a * (y / a - 1) < a * (x / a)) as Hm by lia.
  apply Z.mul_lt_mono_pos_l in Hm; [|done]. nia.
Qed.

#[export] Hint Resolve align_down_le align_down_aligned align_down_nonneg : nt.

(** ** Intervals

    Ranges are closed on both sides, as everywhere in the arbiter. *)

Definition in_range (x s e : Z) : Prop := s <= x <= e.
Definition overlaps (s1 e1 s2 e2 : Z) : bool := (s1 <=? e2) && (s2 <=? e1).

Lemma overlaps_spec s1 e1 s2 e2 :
  s1 <= e1 -> s2 <= e2 ->
  overlaps s1 e1 s2 e2 = true <-> exists x, in_range x s1 e1 /\ in_range x s2 e2.
Proof.
  unfold overlaps, in_range. intros H1 H2. rewrite andb_true_iff, !Z.leb_le. split.
  - intros [? ?]. exists (Z.max s1 s2). lia.
  - intros (x & ? & ?). lia.
Qed.

(** ** Lists *)

(** The prefix sums of a list under a weight. *)
Definition list_weight {A} (f : A -> nat) (l : list A) : nat := list_sum (map f l).

Lemma weight_cons {B} (f : B -> nat) x l : list_weight f (x :: l) = (f x + list_weight f l)%nat.
Proof. done. Qed.

Lemma weight_app {B} (f : B -> nat) l k : list_weight f (l ++ k) = (list_weight f l + list_weight f k)%nat.
Proof. unfold list_weight. by rewrite map_app, list_sum_app. Qed.

Lemma weight_perm {B} (f : B -> nat) l k : l ≡ₚ k -> list_weight f l = list_weight f k.
Proof. unfold list_weight. induction 1; simpl; lia. Qed.

Lemma list_weight_alter {A} (f : A -> nat) (g : A -> A) (l : list A) i x :
  l !! i = Some x -> (list_weight f (alter g i l) + f x = list_weight f l + f (g x))%nat.
Proof.
  revert i. induction l as [|z l IH]; intros [|i] H; simplify_eq/=.
  - unfold list_weight. simpl. lia.
  - specialize (IH _ H). unfold list_weight in *. simpl. lia.
Qed.

Lemma list_alter_none {A} (g : A -> A) (l : list A) i : l !! i = None -> alter g i l = l.
Proof.
  revert i. induction l as [|z l IH]; intros [|i] H; try done.
  simpl. f_equal. by apply IH.
Qed.

Lemma list_weight_bound {A} (f : A -> nat) (l : list A) k :
  Forall (fun x => (f x <= k)%nat) l -> (list_weight f l <= k * length l)%nat.
Proof.
  unfold list_weight. induction 1; simpl; lia.
Qed.

Lemma list_weight_lookup {A} (f : A -> nat) (l : list A) i x :
  l !! i = Some x -> (f x <= list_weight f l)%nat.
Proof.
  unfold list_weight. revert i. induction l as [|z l IH]; intros [|i] H; simplify_eq/=.
  - lia.
  - specialize (IH _ H). lia.
Qed.

Lemma filter_none {A} (P : A -> Prop) `{forall x, Decision (P x)} (l : list A) :
  Forall (fun x => ~ P x) l -> filter P l = [].
Proof. induction 1; [done|]. by rewrite filter_cons_False. Qed.

Lemma filter_same {A} (P Q : A -> Prop) `{forall x, Decision (P x)} `{forall x, Decision (Q x)}
  (l : list A) : (forall x, x ∈ l -> P x <-> Q x) -> filter P l = filter Q l.
Proof.
  induction l as [|x l IH]; intros Hl; [done|]. rewrite !filter_cons, IH by (intros; apply Hl; by right).
  destruct (Hl x) as [H1 H2]; [by left|].
  destruct (decide (P x)), (decide (Q x)); naive_solver.
Qed.

Lemma lookup_map_option {A B} (f : A -> B) (l : list A) i : map f l !! i = option_map f (l !! i).
Proof. revert i. induction l as [|x l IH]; intros [|i]; simpl; auto. Qed.

Lemma alter_insert_lookup {A} (f : A -> A) (l : list A) i x :
  l !! i = Some x -> alter f i l = <[i := f x]> l.
Proof.
  revert i. induction l as [|y l IH]; intros [|i] H; simplify_eq/=; [done|]. f_equal. by apply IH.
Qed.

(** Clearing one bit leaves a disjoint one alone. *)
Lemma has_flag_clear f m m' : Z.land m m' = 0 -> has_flag (clear_flag f m) m' = has_flag f m'.
Proof.
  intros Hd. unfold has_flag, clear_flag. do 2 f_equal.
  apply Z.bits_inj'. intros n _. rewrite !Z.land_spec, Z.ldiff_spec.
  apply (f_equal (fun z => Z.testbit z n)) in Hd. rewrite Z.land_spec, Z.bits_0 in Hd.
  destruct (Z.testbit m' n), (Z.testbit m n), (Z.testbit f n); done.
Qed.

Lemma map_alter_same {A B} (g : A -> B) (f : A -> A) (l : list A) i x :
  l !! i = Some x -> g (f x) = g x -> map g (alter f i l) = map g l.
Proof.
  revert i. induction l as [|y l IH]; intros [|i] H Hg; simplify_eq/=; [by rewrite Hg|].
  f_equal. by apply IH.
Qed.

Lemma has_flag_set_same f m : m <> 0 -> has_flag (set_flag f m) m = true.
Proof.
  intros Hm. unfold has_flag, set_flag.
  replace (Z.land (Z.lor f m) m) with m; [by apply negb_true_iff, Z.eqb_neq|].
  apply Z.bits_inj'. intros j Hj. rewrite Z.land_spec, Z.lor_spec.
  by destruct (Z.testbit f j), (Z.testbit m j).
Qed.

Lemma has_flag_set f m m' : Z.land m m' = 0 -> has_flag (set_flag f m) m' = has_flag f m'.
Proof.
  intros Hd. unfold has_flag, set_flag. do 2 f_equal.
  apply Z.bits_inj'. intros n _. rewrite !Z.land_spec, Z.lor_spec.
  apply (f_equal (fun z => Z.testbit z n)) in Hd. rewrite Z.land_spec, Z.bits_0 in Hd.
  destruct (Z.testbit m' n), (Z.testbit m n), (Z.testbit f n); done.
Qed.

Lemma filter_all {A} (P : A -> Prop) `{forall x, Decision (P x)} (l : list A) :
  Forall P l -> filter P l = l.
Proof. induction 1; [done|]. rewrite filter_cons_True by done. by f_equal. Qed.

Lemma length_filter_lt {A} (P : A -> Prop) `{forall x, Decision (P x)} (l : list A) x :
  x ∈ l -> ~ P x -> (length (filter P l) < length l)%nat.
Proof.
  intros Hin Hn. induction Hin as [x l|x y l Hin IH].
  - rewrite filter_cons_False by done. simpl. pose proof (length_filter P l). lia.
  - rewrite filter_cons. destruct (decide (P y)); simpl; specialize (IH Hn); lia.
Qed.

(** ** Loops bounded by a machine word

    A body answers [inl s] to go round again and [inr t] to leave the loop;
    [iterate k] goes round up to [2^k] times.  A loop whose progress is a
    [k]-bit quantity always leaves within that, so nothing but [k] needs to be
    known to run it. *)

Fixpoint iterate {S T} (k : nat) (body : S -> S + T) (s : S) : S + T :=
  match k with
  | O => body s
  | S k => match iterate k body s with
           | inl s => iterate k body s
           | inr t => inr t
           end
  end.

Section Iterate.
Context {S T : Type} (body : S -> S + T).

(** Going round [2^k] times costs at least [2^k]. *)
Lemma iterate_progress (P : S -> Prop) (m : S -> Z) k s s' :
  (forall s s', P s -> body s = inl s' -> P s' /\ m s' < m s) ->
  P s -> iterate k body s = inl s' -> P s' /\ m s' <= m s - 2 ^ Z.of_nat k.
Proof.
  intros Hb. revert s s'. induction k as [|k IH]; cbn [iterate]; intros s s' Hp E.
  - apply Hb in E as [? ?]; [|done]. split; [done|]. simpl. lia.
  - destruct (iterate k body s) as [s1|] eqn:E1; [|done].
    destruct (IH _ _ Hp E1) as [Hp1 H1]. destruct (IH _ _ Hp1 E) as [? ?]. split; [done|].
    rewrite Nat2Z.inj_succ, Z.pow_succ_r by lia. lia.
Qed.

(** A loop whose measure stays non-negative and fits in [k] bits returns. *)
Lemma iterate_returns (P : S -> Prop) (m : S -> Z) k s :
  (forall s s', P s -> body s = inl s' -> P s' /\ m s' < m s) ->
  (forall s, P s -> 0 <= m s) -> P s -> m s < 2 ^ Z.of_nat k ->
  exists t, iterate k body s = inr t.
Proof.
  intros Hb Hm Hp Hlt. destruct (iterate k body s) as [s'|t] eqn:E; [|by exists t].
  destruct (iterate_progress P m k s s' Hb Hp E) as [Hp' ?]. specialize (Hm _ Hp'). lia.
Qed.

Lemma iterate_keeps (P : S -> Prop) k s s' :
  (forall s s', P s -> body s = inl s' -> P s') -> P s -> iterate k body s = inl s' -> P s'.
Proof.
  intros Hb. revert s s'. induction k as [|k IH]; simpl; intros s s' Hp E; [by eapply Hb|].
  destruct (iterate k body s) as [s1|] eqn:E1; [|done]. eauto.
Qed.

(** What holds at every turn holds of the turn that leaves. *)
Lemma iterate_leaves (P : S -> Prop) k s t :
  (forall s s', P s -> body s = inl s' -> P s') ->
  P s -> iterate k body s = inr t -> exists s1, P s1 /\ body s1 = inr t.
Proof.
  intros Hb. revert s. induction k as [|k IH]; simpl; intros s Hp E; [by exists s|].
  destruct (iterate k body s) as [s1|t1] eqn:E1; [|simplify_eq; by eapply IH].
  eapply IH; [|done]. by eapply iterate_keeps.
Qed.
End Iterate.

(** ** Searches of a table *)

(** The index of the first element that satisfies a test. *)
Fixpoint find_index {A} (f : A -> bool) (l : list A) : option nat :=
  match l with
  | [] => None
  | x :: l => if f x then Some 0%nat else option_map S (find_index f l)
  end.

Lemma find_index_some {A} (f : A -> bool) l i :
  find_index f l = Some i -> exists x, l !! i = Some x /\ f x = true.
Proof.
  revert i. induction l as [|x l IH]; intros i; simpl; [done|].
  destruct (f x) eqn:E; [intros [= <-]; by exists x|].
  destruct (find_index f l) as [j|]; [|done]. intros [= <-]. by apply IH.
Qed.

Lemma find_index_none {A} (f : A -> bool) l : find_index f l = None <-> Forall (fun x => f x = false) l.
Proof.
  induction l as [|x l IH]; simpl; [done|]. rewrite Forall_cons.
  destruct (f x) eqn:E; [naive_solver|]. destruct (find_index f l); naive_solver.
Qed.

(** The first index is the only one where the test holds once. *)
Lemma find_index_unique {A} (f : A -> bool) l i x :
  l !! i = Some x -> f x = true -> (forall j y, l !! j = Some y -> f y = true -> j = i) ->
  find_index f l = Some i.
Proof.
  intros Hi Hx Hu. destruct (find_index f l) as [j|] eqn:E.
  - apply find_index_some in E as (y & Hj & Hy). by rewrite (Hu j y Hj Hy).
  - apply find_index_none in E. rewrite Forall_lookup in E. by rewrite (E i x Hi) in Hx.
Qed.

(** Replacing an element the test does not tell from the old one. *)
Lemma find_index_insert {A} (f : A -> bool) l i x y :
  l !! i = Some y -> f x = f y -> find_index f (<[i := x]> l) = find_index f l.
Proof.
  revert i. induction l as [|z l IH]; intros [|i] Hi Hf; simplify_eq/=; [by rewrite Hf|].
  by rewrite (IH i).
Qed.

Lemma find_index_app {A} (f : A -> bool) l k :
  find_index f (l ++ k) =
    match find_index f l with
    | Some i => Some i
    | None => option_map (fun i => (length l + i)%nat) (find_index f k)
    end.
Proof.
  induction l as [|z l IH]; simpl; [by destruct (find_index f k)|].
  destruct (f z); [done|]. rewrite IH. destruct (find_index f l), (find_index f k); done.
Qed.
