(* ===== verification/NtEnv.v ===== *)
(** The NT kernel services the driver calls, seen from the driver.

    Two kinds of service are told apart.  The pool allocator, the interrupt
    clock and the device tree only answer questions, so they are oracles: the
    allocator and the clock are streams read through a [world] that counts the
    reads, the device tree a record of functions.  The RTL range lists hold the
    arbiters' books; they live in the kernel, not in this repository, so they
    are an interface: [RtlRangeList] names the calls the way
    shim-headers/rtlrangelist.h declares them, [RtlRangeListLaws] states what
    the calls are documented to do.  The arbiter's theorems are proved against
    the interface. *)
From stdpp Require Import base list numbers option strings.
From Stdlib Require Import ZArith Lia Permutation.
From S2P Require Import Prelude.

(** ** Pool and clock *)

(** [w_clock n] is the value of the [n]-th read of the interrupt time,
    [w_pool n size] whether the [n]-th pool request, for [size] bytes, is
    granted; [w_live] counts the blocks granted and not yet freed. *)
Record world := mkWorld {
  w_clock : nat -> Z;
  w_pool : nat -> Z -> bool;
  w_reads : nat;
  w_allocs : nat;
  w_live : Z
}.

Definition KeQueryInterruptTime (w : world) : Z * world :=
  (w_clock w (w_reads w),
   mkWorld (w_clock w) (w_pool w) (S (w_reads w)) (w_allocs w) (w_live w)).

(** The returned flag is "the pointer is not NULL". *)
Definition ExAllocatePoolWithTag (size : Z) (w : world) : bool * world :=
  let ok := w_pool w (w_allocs w) size in
  (ok, mkWorld (w_clock w) (w_pool w) (w_reads w) (S (w_allocs w))
         (if ok then w_live w + 1 else w_live w)).

Definition ExFreePoolWithTag (w : world) : world :=
  mkWorld (w_clock w) (w_pool w) (w_reads w) (w_allocs w) (w_live w - 1).

(** ** Device objects

    [dev_enumerator d] is the enumerator name [IoGetDeviceProperty] gives for
    [d] through a 16-character buffer, [None] when the call fails;
    [dev_attached d] the driver objects of the devices attached above [d]. *)
Record device_env := mkDevEnv {
  dev_enumerator : PVOID -> option string;
  dev_attached : PVOID -> list PVOID
}.

(** ** RTL range lists *)

Record RTL_RANGE := mkRange {
  rr_Start : Z;
  rr_End : Z;
  rr_UserData : PVOID;
  rr_Owner : PVOID;
  rr_Attributes : Z;
  rr_Flags : Z
}.

Definition RTL_RANGE_SHARED : Z := 0x01.
Definition RTL_RANGE_CONFLICT : Z := 0x02.
Definition RTL_RANGE_LIST_ADD_IF_CONFLICT : Z := 0x1.
Definition RTL_RANGE_LIST_ADD_SHARED : Z := 0x2.
Definition RTL_RANGE_LIST_SHARED_OK : Z := 0x1.
Definition RTL_RANGE_LIST_NULL_CONFLICT_OK : Z := 0x2.

(** What a conflict callback can write through its context pointer. *)
Definition conflict_slot := option RTL_RANGE.

(** [PRTL_CONFLICT_RANGE_CALLBACK]: TRUE looks past the conflict. *)
Definition conflict_callback := conflict_slot -> RTL_RANGE -> bool * conflict_slot.

Class RtlRangeList := {
  RTL_RANGE_LIST : Type;
  (** the ranges in the order RtlGetFirstRange / RtlGetNextRange yield them *)
  rtl_ranges : RTL_RANGE_LIST -> list RTL_RANGE;
  (** the list RtlInitializeRangeList produces *)
  RtlInitializeRangeList : RTL_RANGE_LIST;
  RtlCopyRangeList : RTL_RANGE_LIST -> RTL_RANGE_LIST -> NTSTATUS * RTL_RANGE_LIST;
  (** list, Start, End, Attributes, Flags, UserData, Owner *)
  RtlAddRange : RTL_RANGE_LIST -> Z -> Z -> Z -> Z -> PVOID -> PVOID ->
                NTSTATUS * RTL_RANGE_LIST;
  (** list, Start, End, Owner *)
  RtlDeleteRange : RTL_RANGE_LIST -> Z -> Z -> PVOID -> NTSTATUS * RTL_RANGE_LIST;
  RtlDeleteOwnersRanges : RTL_RANGE_LIST -> PVOID -> NTSTATUS * RTL_RANGE_LIST;
  (** list, Minimum, Maximum, Length, Alignment, Flags, AttributeAvailableMask,
      Context, Callback: the status, the start on success, the context after *)
  RtlFindRange : RTL_RANGE_LIST -> Z -> Z -> Z -> Z -> Z -> Z ->
                 conflict_slot -> option conflict_callback ->
                 NTSTATUS * Z * conflict_slot;
  (** list, Start, End, Flags, AttributeAvailableMask, Context, Callback *)
  RtlIsRangeAvailable : RTL_RANGE_LIST -> Z -> Z -> Z -> Z ->
                 conflict_slot -> option conflict_callback ->
                 bool * conflict_slot
}.

(** The identity of a range: where it is and whose. *)
Definition rng_key (r : RTL_RANGE) : Z * Z * PVOID := (rr_Start r, rr_End r, rr_Owner r).

(** Everything of a range the arbiter reads but the conflict bit, which the
    kernel maintains. *)
Definition rng_core (r : RTL_RANGE) : Z * Z * PVOID * Z * bool :=
  (rng_key r, rr_Attributes r, has_flag (rr_Flags r) RTL_RANGE_SHARED).

Definition key_Start (k : Z * Z * PVOID) : Z := k.1.1.
Definition key_End (k : Z * Z * PVOID) : Z := k.1.2.
Definition key_Owner (k : Z * Z * PVOID) : PVOID := k.2.
Definition core_Owner (c : Z * Z * PVOID * Z * bool) : PVOID := key_Owner (c.1.1).

Section Lists.
Context `{R : RtlRangeList}.

Definition rl_cores (l : RTL_RANGE_LIST) := map rng_core (rtl_ranges l).
Definition rl_keys (l : RTL_RANGE_LIST) := map rng_key (rtl_ranges l).

(** A recorded range does not stand in the way of a request that names these
    flags, this attribute mask and this callback. *)
Definition looks_past (r : RTL_RANGE) (flags mask : Z) (cb : option conflict_callback) : Prop :=
  has_flag (rr_Attributes r) mask = true \/
  (has_flag flags RTL_RANGE_LIST_SHARED_OK = true /\
   has_flag (rr_Flags r) RTL_RANGE_SHARED = true) \/
  (has_flag flags RTL_RANGE_LIST_NULL_CONFLICT_OK = true /\ rr_Owner r = NULL) \/
  (exists f s, cb = Some f /\ (f s r).1 = true).

Definition rl_available (l : RTL_RANGE_LIST) (s e flags mask : Z)
  (cb : option conflict_callback) : Prop :=
  forall r, r ∈ rtl_ranges l -> overlaps s e (rr_Start r) (rr_End r) = true ->
            looks_past r flags mask cb.

(** The context after a search holds what it held, or what some call of the
    callback on a recorded range left in it. *)
Definition slot_reached (l : RTL_RANGE_LIST) (cb : option conflict_callback)
  (s s' : conflict_slot) : Prop :=
  s' = s \/ exists f s0 r, cb = Some f /\ r ∈ rtl_ranges l /\ s' = (f s0 r).2.
End Lists.

(** Documented behaviour of the range list package. *)
Class RtlRangeListLaws (R : RtlRangeList) := {
  rl_init_ranges : rtl_ranges RtlInitializeRangeList = [];
  rl_copy_ranges : forall dst src s l,
    RtlCopyRangeList dst src = (s, l) -> NT_SUCCESS s = true ->
    rl_cores l = rl_cores src;
  rl_add_ranges : forall l a b attrs flags ud owner s l',
    has_flag flags RTL_RANGE_LIST_ADD_IF_CONFLICT = true ->
    RtlAddRange l a b attrs flags ud owner = (s, l') ->
    if NT_SUCCESS s
    then rl_cores l' ≡ₚ
         ((a, b, owner), attrs, has_flag flags RTL_RANGE_LIST_ADD_SHARED) :: rl_cores l
    else rl_cores l' = rl_cores l;
  rl_delete_ranges : forall l a b owner s l',
    RtlDeleteRange l a b owner = (s, l') ->
    if NT_SUCCESS s
    then exists c, c.1.1 = (a, b, owner) /\ rl_cores l ≡ₚ c :: rl_cores l'
    else rl_cores l' = rl_cores l;
  rl_delete_found : forall l a b owner s l',
    RtlDeleteRange l a b owner = (s, l') ->
    (a, b, owner) ∈ rl_keys l -> NT_SUCCESS s = true;
  rl_delete_owner_ranges : forall l owner s l',
    RtlDeleteOwnersRanges l owner = (s, l') ->
    if NT_SUCCESS s
    then rl_cores l' ≡ₚ filter (fun c => core_Owner c <> owner) (rl_cores l)
    else rl_cores l' = rl_cores l;
  rl_find_start : forall l mn mx len al flags mask slot cb s start slot',
    RtlFindRange l mn mx len al flags mask slot cb = (s, start, slot') ->
    NT_SUCCESS s = true -> 0 < len -> 0 < al ->
    mn <= start /\ start + len - 1 <= mx /\ start mod al = 0 /\
    rl_available l start (start + len - 1) flags mask cb;
  rl_find_slot : forall l mn mx len al flags mask slot cb s start slot',
    RtlFindRange l mn mx len al flags mask slot cb = (s, start, slot') ->
    slot_reached l cb slot slot';
  rl_available_sound : forall l a b flags mask slot cb slot',
    RtlIsRangeAvailable l a b flags mask slot cb = (true, slot') ->
    rl_available l a b flags mask cb
}.

(** The calls whose status the arbiter does not look at fail only for want of
    pool (and RtlAddRange for a range that ends before it starts). *)
Class RtlPoolSuffices (R : RtlRangeList) := {
  rl_add_succeeds : forall l a b attrs flags ud owner,
    has_flag flags RTL_RANGE_LIST_ADD_IF_CONFLICT = true -> a <= b ->
    NT_SUCCESS (RtlAddRange l a b attrs flags ud owner).1 = true;
  rl_delete_owner_succeeds : forall l owner,
    NT_SUCCESS (RtlDeleteOwnersRanges l owner).1 = true
}.

(** Nothing recorded touches [a .. b]. *)
Definition rl_clear `{R : RtlRangeList} (l : RTL_RANGE_LIST) (a b : Z) : Prop :=
  Forall (fun k => overlaps a b (key_Start k) (key_End k) = false) (rl_keys l).

(** A range added without ADD_IF_CONFLICT goes in when nothing is in its way;
    a range nothing touches is available. *)
Class RtlExclusiveRanges (R : RtlRangeList) := {
  rl_add_exclusive : forall l a b attrs flags ud owner s l',
    RtlAddRange l a b attrs flags ud owner = (s, l') ->
    if NT_SUCCESS s
    then rl_cores l' ≡ₚ
         ((a, b, owner), attrs, has_flag flags RTL_RANGE_LIST_ADD_SHARED) :: rl_cores l
    else rl_cores l' = rl_cores l;
  rl_add_exclusive_succeeds : forall l a b attrs flags ud owner,
    a <= b -> rl_clear l a b -> NT_SUCCESS (RtlAddRange l a b attrs flags ud owner).1 = true;
  rl_clear_available : forall l a b flags mask slot cb,
    rl_clear l a b -> (RtlIsRangeAvailable l a b flags mask slot cb).1 = true
}.

(** ** Consequences shared by the components *)

Section Facts.
Context `{R : RtlRangeList} {L : RtlRangeListLaws R}.

Lemma rl_keys_cores l : rl_keys l = map (fun c => c.1.1) (rl_cores l).
Proof. unfold rl_keys, rl_cores. rewrite map_map. reflexivity. Qed.

Lemma rl_keys_of_cores l l' : rl_cores l ≡ₚ rl_cores l' -> rl_keys l ≡ₚ rl_keys l'.
Proof. intros E. rewrite !rl_keys_cores. by apply Permutation_map. Qed.

Lemma rl_add_keys l a b attrs flags ud owner s l' :
  has_flag flags RTL_RANGE_LIST_ADD_IF_CONFLICT = true ->
  RtlAddRange l a b attrs flags ud owner = (s, l') -> NT_SUCCESS s = true ->
  rl_keys l' ≡ₚ (a, b, owner) :: rl_keys l.
Proof.
  intros Hf E Hs. pose proof (rl_add_ranges _ _ _ _ _ _ _ _ _ Hf E) as P.
  rewrite Hs in P. rewrite !rl_keys_cores. by rewrite P.
Qed.

Lemma rl_delete_keys l a b owner s l' :
  RtlDeleteRange l a b owner = (s, l') ->
  (a, b, owner) ∈ rl_keys l -> rl_keys l ≡ₚ (a, b, owner) :: rl_keys l'.
Proof.
  intros E Hin. pose proof (rl_delete_found _ _ _ _ _ _ E Hin) as Hs.
  pose proof (rl_delete_ranges _ _ _ _ _ _ E) as P. rewrite Hs in P.
  destruct P as (c & Hc & P). rewrite !rl_keys_cores, P. simpl. by rewrite Hc.
Qed.

Lemma rl_delete_owner_keys l owner s l' :
  RtlDeleteOwnersRanges l owner = (s, l') -> NT_SUCCESS s = true ->
  rl_keys l' ≡ₚ filter (fun k => key_Owner k <> owner) (rl_keys l).
Proof.
  intros E Hs. pose proof (rl_delete_owner_ranges _ _ _ _ E) as P. rewrite Hs in P.
  rewrite !rl_keys_cores, P. generalize (rl_cores l). intros cs.
  induction cs as [|c cs IH]; [done|]. rewrite filter_cons.
  destruct (decide (core_Owner c <> owner)) as [D|D]; simpl.
  - rewrite filter_cons_True; [|done]. by rewrite IH.
  - rewrite filter_cons_False; [|done]. by rewrite IH.
Qed.

Lemma rl_init_keys : rl_keys RtlInitializeRangeList = [].
Proof. unfold rl_keys. by rewrite rl_init_ranges. Qed.
End Facts.
