(* ===== verification/Bytes.v ===== *)
(** Buffers of bytes, read and written at computed places.

    An access outside a buffer is [Fault], so that staying inside is a theorem of
    the code that does it. *)
From stdpp Require Import base list numbers option.
From Stdlib Require Import ZArith Lia.
From S2P Require Import Prelude.

(** ** Accesses *)

(** A computation that may touch memory outside a buffer. *)
Inductive run (A : Type) :=
| Fault
| Done (a : A).
Arguments Fault {A}.
Arguments Done {A} _.

#[export] Instance run_ret : MRet run := fun _ a => Done a.
#[export] Instance run_bind : MBind run := fun _ _ k m =>
  match m with Fault => Fault | Done a => k a end.

Definition load {A} (Buffer : list A) (Index : Z) : run A :=
  match Buffer !! Z.to_nat Index with Some a => Done a | None => Fault end.

Definition store {A} (Buffer : list A) (Index : nat) (a : A) : run (list A) :=
  if decide (Index < length Buffer)%nat then Done (<[Index := a]> Buffer) else Fault.

(** [for (i = First; i < First + n; i++)]. *)
Fixpoint for_loop {St} (n First : nat) (body : nat -> St -> run St) (s : St) : run St :=
  match n with
  | O => Done s
  | S n => body First s ≫= for_loop n (S First) body
  end.

(** A little-endian field of [n] bytes. *)
Fixpoint load_le (Buffer : list Z) (n : nat) (Offset : Z) : run Z :=
  match n with
  | O => Done 0
  | S n => b ← load Buffer Offset; r ← load_le Buffer n (Offset + 1); Done (b + 256 * r)
  end.

(** ** Bytes *)

Definition is_byte (b : Z) : Prop := 0 <= b < 256.

(** A literal list of bytes. *)
Ltac byte_list :=
  repeat (apply Forall_cons_2; [unfold is_byte in *; lia|]); apply Forall_nil_2.

Lemma bytes_check l : forallb (fun b => (0 <=? b) && (b <? 256)) l = true -> Forall is_byte l.
Proof.
  intros H. apply Forall_forall. intros b Hb. rewrite forallb_forall in H.
  apply H in Hb. unfold is_byte. bool_prop. lia.
Qed.

(** A fact about bytes is checked on all of them. *)
Lemma byte_check (P : Z -> bool) b :
  forallb P (map Z.of_nat (seq 0 256)) = true -> is_byte b -> P b = true.
Proof.
  intros H [Hl Hu]. rewrite forallb_forall in H. apply H, in_map_iff.
  exists (Z.to_nat b). rewrite Z2Nat.id by done. split; [done|]. apply in_seq. lia.
Qed.

Definition le_bytes (l : list Z) : Z := foldr (fun b r => b + 256 * r) 0 l.

(** ** Lemmas on loads *)

Lemma load_drop {A} (buf : list A) o k a :
  0 <= o -> 0 <= k -> drop (Z.to_nat o) buf !! Z.to_nat k = Some a -> load buf (o + k) = Done a.
Proof.
  intros Ho Hk E. rewrite lookup_drop in E. unfold load. rewrite Z2Nat.inj_add by lia. by rewrite E.
Qed.

(** Loads at a literal offset into what follows the cursor. *)
Lemma load_nth {A} (pre rest : list A) (n : nat) a c :
  rest !! n = Some a -> c = Z.of_nat (length pre) + Z.of_nat n -> load (pre ++ rest) c = Done a.
Proof.
  intros H ->. unfold load. rewrite Z2Nat.inj_add, !Nat2Z.id by lia.
  by rewrite lookup_app_r, Nat.add_comm, Nat.add_sub, H by lia.
Qed.

Lemma load_le_nth (pre rest : list Z) n k l c :
  c = Z.of_nat (length pre) + Z.of_nat k -> length l = n -> (forall i, (i < n)%nat -> rest !! (k + i)%nat = l !! i) ->
  load_le (pre ++ rest) n c = Done (le_bytes l).
Proof.
  revert k l c. induction n as [|n IH]; intros k l c Hc Hl H.
  { by apply nil_length_inv in Hl as ->. }
  destruct l as [|b l]; [done|]. simpl.
  rewrite (load_nth pre rest k b c); [|by rewrite <- (Nat.add_0_r k), (H 0%nat) by lia|done].
  simpl. rewrite (IH (S k) l (c + 1)); [done|lia|simpl in Hl; lia|].
  intros i Hi. specialize (H (S i) ltac:(lia)). by rewrite Nat.add_succ_r in H.
Qed.

(** ** Runs of bytes *)

(** [n] elements read in one go, and as many written. *)
Definition load_bytes {A} (Buffer : list A) (n : nat) (Offset : Z) : run (list A) :=
  if decide (Z.to_nat Offset + n <= length Buffer)%nat
  then Done (take n (drop (Z.to_nat Offset) Buffer)) else Fault.

Definition store_bytes {A} (Buffer : list A) (Offset : Z) (l : list A) : run (list A) :=
  if decide (Z.to_nat Offset + length l <= length Buffer)%nat
  then Done (take (Z.to_nat Offset) Buffer ++ l ++ drop (Z.to_nat Offset + length l) Buffer) else Fault.

(** What a C string at [Offset] holds, without its NUL. *)
Fixpoint load_cstring (fuel : nat) (Buffer : list Z) (Offset : Z) : run (list Z) :=
  match fuel with
  | O => Fault
  | S fuel =>
      b ← load Buffer Offset;
      if b =? 0 then Done [] else l ← load_cstring fuel Buffer (Offset + 1); Done (b :: l)
  end.

(** The bytes before the first NUL. *)
Fixpoint until_nul (l : list Z) : list Z :=
  match l with
  | [] => []
  | b :: l => if b =? 0 then [] else b :: until_nul l
  end.

(** A field of [n] bytes, low byte first. *)
Fixpoint le_field (n : nat) (v : Z) : list Z :=
  match n with O => [] | S n => v mod 256 :: le_field n (v / 256) end.

Lemma load_in {A} (l : list A) o a : 0 <= o -> l !! Z.to_nat o = Some a -> load l o = Done a.
Proof. intros _ H. unfold load. by rewrite H. Qed.

Lemma load_le_in Buffer n o :
  0 <= o -> (Z.to_nat o + n <= length Buffer)%nat ->
  load_le Buffer n o = Done (le_bytes (take n (drop (Z.to_nat o) Buffer))).
Proof.
  revert o. induction n as [|n IH]; intros o Ho Hn; [done|].
  destruct (drop (Z.to_nat o) Buffer) as [|b l] eqn:E.
  { apply (f_equal length) in E. rewrite length_drop in E. simpl in E. lia. }
  assert (Buffer !! Z.to_nat o = Some b) as Hb.
  { rewrite <- (Nat.add_0_r (Z.to_nat o)), <- lookup_drop, E. done. }
  simpl. rewrite (load_in _ _ b) by done. simpl. rewrite IH by lia. simpl.
  rewrite (Z2Nat.inj_add o 1) by lia. by rewrite <- drop_drop, E.
Qed.

Lemma le_bytes_field n v : 0 <= v < 256 ^ Z.of_nat n -> le_bytes (le_field n v) = v.
Proof.
  revert v. induction n as [|n IH]; intros v Hv.
  { simpl in *. lia. }
  rewrite Nat2Z.inj_succ, Z.pow_succ_r in Hv by lia. cbn [le_field le_bytes foldr].
  fold (le_bytes (le_field n (v / 256))).
  rewrite IH; [|split; [apply Z.div_pos; lia|apply Z.div_lt_upper_bound; lia] ].
  pose proof (Z.div_mod v 256). lia.
Qed.

Lemma le_field_bytes l : Forall is_byte l -> le_field (length l) (le_bytes l) = l.
Proof.
  induction 1 as [|b l Hb Hl IH]; [done|]. cbn [length le_bytes foldr le_field]. fold (le_bytes l).
  unfold is_byte in Hb.
  rewrite (Z.mul_comm 256), Z_mod_plus_full, Z.div_add, Z.div_small, Z.mod_small by lia.
  by rewrite Z.add_0_l, IH.
Qed.

Lemma length_le_field n v : length (le_field n v) = n.
Proof. revert v. induction n as [|n IH]; intros v; [done|]. simpl. by rewrite IH. Qed.

Lemma le_bytes_range l : Forall is_byte l -> 0 <= le_bytes l < 256 ^ Z.of_nat (length l).
Proof.
  induction 1 as [|b l Hb Hl IH]; [simpl; lia|]. cbn [length le_bytes foldr]. fold (le_bytes l).
  rewrite Nat2Z.inj_succ, Z.pow_succ_r by lia. unfold is_byte in Hb. lia.
Qed.

Lemma until_nul_app l r : Forall (fun b => b <> 0) l -> until_nul (l ++ 0 :: r) = l.
Proof.
  induction 1 as [|b l Hb Hl IH]; [done|]. simpl. destruct (b =? 0) eqn:E; bool_prop; [done|].
  by rewrite IH.
Qed.

Lemma until_nul_split l : 0 ∈ l ->
  exists r, l = until_nul l ++ 0 :: r /\ Forall (fun b => b <> 0) (until_nul l).
Proof.
  induction l as [|b l IH]; intros H; [by apply not_elem_of_nil in H|]. simpl.
  destruct (b =? 0) eqn:E; bool_prop; [subst; by exists l|].
  apply elem_of_cons in H as [H|H]; [done|]. destruct (IH H) as (r & Hr & Hf). exists r.
  rewrite Hr at 1. split; [done|]. by constructor.
Qed.

Lemma load_cstring_in fuel pre l r o :
  o = Z.of_nat (length pre) -> Forall (fun b => b <> 0) l -> (length l < fuel)%nat ->
  load_cstring fuel (pre ++ l ++ 0 :: r) o = Done l.
Proof.
  intros -> Hl. revert fuel pre. induction Hl as [|b l Hb Hl IH]; intros fuel pre Hf.
  - destruct fuel; [simpl in Hf; lia|]. simpl. rewrite (load_nth pre (0 :: r) 0 0) by (done || lia). done.
  - destruct fuel; simpl in Hf; [lia|]. simpl.
    rewrite (load_nth pre (b :: l ++ 0 :: r) 0 b) by (done || lia). simpl.
    destruct (b =? 0) eqn:E; bool_prop; [done|].
    replace (pre ++ b :: l ++ 0 :: r) with ((pre ++ [b]) ++ l ++ 0 :: r) by (by rewrite <- app_assoc).
    replace (Z.of_nat (length pre) + 1) with (Z.of_nat (length (pre ++ [b]))) by (rewrite length_app; simpl; lia).
    rewrite IH by lia. done.
Qed.

(** ** What is left to read

    The [n] elements from [Offset] on; a walk sees only these. *)
Definition view {A} (Buffer : list A) (Offset n : Z) : list A :=
  take (Z.to_nat n) (drop (Z.to_nat Offset) Buffer).

Definition within {A} (Buffer : list A) (Offset n : Z) : Prop :=
  0 <= Offset /\ 0 <= n /\ Offset + n <= Z.of_nat (length Buffer).

Lemma length_view {A} (Buffer : list A) o n :
  within Buffer o n -> Z.of_nat (length (view Buffer o n)) = n.
Proof. unfold within, view. intros H. rewrite length_take, length_drop. lia. Qed.

Lemma view_next {A} (Buffer l r : list A) o n :
  within Buffer o n -> view Buffer o n = l ++ r ->
  view Buffer (o + Z.of_nat (length l)) (n - Z.of_nat (length l)) = r /\
  within Buffer (o + Z.of_nat (length l)) (n - Z.of_nat (length l)).
Proof.
  intros H E. pose proof (length_view _ _ _ H) as Hl. rewrite E, length_app in Hl.
  unfold within in *. split; [|lia]. unfold view in *.
  rewrite Z2Nat.inj_add, Nat2Z.id, <- drop_drop by lia.
  rewrite Z2Nat.inj_sub, Nat2Z.id, <- skipn_firstn_comm, E by lia.
  apply drop_app_length.
Qed.

Lemma view_sub {A} (Buffer a b c : list A) o n :
  within Buffer o n -> view Buffer o n = a ++ b ++ c ->
  view Buffer (o + Z.of_nat (length a)) (Z.of_nat (length b)) = b /\
  within Buffer (o + Z.of_nat (length a)) (Z.of_nat (length b)).
Proof.
  intros H E. destruct (view_next _ _ _ _ _ H E) as [E' H'].
  pose proof (length_view _ _ _ H') as Hl. rewrite E', length_app in Hl.
  unfold within in *. split; [|lia]. unfold view in *.
  apply (f_equal (take (length b))) in E'. rewrite take_take, take_app_length in E'.
  rewrite <- E' at 2. rewrite Nat2Z.id. f_equal. lia.
Qed.

Lemma view_byte (Buffer : list Z) o n : Forall is_byte Buffer -> Forall is_byte (view Buffer o n).
Proof. intros H. by apply Forall_take, Forall_drop. Qed.

Lemma view_split {A} (Buffer : list A) o n :
  within Buffer o n -> exists pre post, Buffer = pre ++ view Buffer o n ++ post /\ Z.of_nat (length pre) = o.
Proof.
  intros H. exists (take (Z.to_nat o) Buffer), (drop (Z.to_nat n) (drop (Z.to_nat o) Buffer)).
  unfold view, within in *. rewrite !take_drop, length_take. split; [done|lia].
Qed.

Lemma load_view {A} (Buffer : list A) o n k a :
  within Buffer o n -> 0 <= k -> view Buffer o n !! Z.to_nat k = Some a -> load Buffer (o + k) = Done a.
Proof.
  intros H Hk E. destruct H as (H & ? & ?). apply load_drop; [done..|].
  unfold view in E. by apply lookup_take_Some in E as [E _].
Qed.

Lemma load_le_view (Buffer a b c : list Z) o n m k :
  within Buffer o n -> view Buffer o n = a ++ b ++ c -> m = length b -> k = Z.of_nat (length a) ->
  load_le Buffer m (o + k) = Done (le_bytes b).
Proof.
  intros H E -> ->. destruct (view_sub _ _ _ _ _ _ H E) as [E' (? & ? & ?)].
  rewrite load_le_in by lia. unfold view in E'. by rewrite Nat2Z.id in E'; rewrite E'.
Qed.

Lemma load_bytes_view {A} (Buffer a b c : list A) o n m k :
  within Buffer o n -> view Buffer o n = a ++ b ++ c -> m = length b -> k = Z.of_nat (length a) ->
  load_bytes Buffer m (o + k) = Done b.
Proof.
  intros H E -> ->. destruct (view_sub _ _ _ _ _ _ H E) as [E' (? & ? & ?)].
  unfold load_bytes. destruct (decide _) as [|Hn]; [|lia]. unfold view in E'. by rewrite Nat2Z.id in E'; rewrite E'.
Qed.

Lemma load_cstring_view (Buffer a t c : list Z) o n k :
  within Buffer o n -> view Buffer o n = a ++ t ++ 0 :: c -> Forall (fun b => b <> 0) t ->
  k = Z.of_nat (length a) -> load_cstring (S (length Buffer)) Buffer (o + k) = Done t.
Proof.
  intros H E Ht ->. destruct (view_split _ _ _ H) as (pre & post & EB & Ho).
  assert (Buffer = (pre ++ a) ++ t ++ 0 :: c ++ post) as EB'.
  { rewrite EB, E at 1. by rewrite <- !app_assoc, <- app_comm_cons. }
  rewrite EB' at 2. apply load_cstring_in; [rewrite length_app; lia|done|].
  rewrite EB', !length_app. lia.
Qed.

(** ** Writing *)

Lemma store_bytes_at {A} (pre old post l : list A) o :
  length old = length l -> o = Z.of_nat (length pre) ->
  store_bytes (pre ++ old ++ post) o l = Done (pre ++ l ++ post).
Proof.
  intros Hl ->. unfold store_bytes. rewrite Nat2Z.id. destruct (decide _) as [|Hn].
  2:{ rewrite !length_app in Hn. lia. }
  by rewrite take_app_length, <- drop_drop, drop_app_length, <- Hl, drop_app_length.
Qed.

Lemma store_bytes_app {A} (Buffer l l' : list A) o :
  0 <= o -> store_bytes Buffer o (l ++ l') = (Buffer ← store_bytes Buffer o l; store_bytes Buffer (o + Z.of_nat (length l)) l').
Proof.
  intros Ho. destruct (decide (Z.to_nat o + length l + length l' <= length Buffer)%nat) as [H|H].
  - rewrite <- (take_drop (Z.to_nat o) Buffer), <- (take_drop (length l) (drop (Z.to_nat o) Buffer)),
      <- (take_drop (length l') (drop (length l) (drop (Z.to_nat o) Buffer))).
    set (a := take _ Buffer). set (x := take _ (drop _ Buffer)). set (y := take (length l') _). set (z := drop (length l') _).
    assert (o = Z.of_nat (length a)) as Ea by (unfold a; rewrite length_take; lia).
    assert (length x = length l) as Ex by (unfold x; rewrite length_take, length_drop; lia).
    assert (length y = length l') as Ey by (unfold y; rewrite length_take, !length_drop; lia).
    rewrite (store_bytes_at a x (y ++ z) l) by done. cbn [mbind run_bind].
    rewrite (app_assoc a l), (store_bytes_at (a ++ l) y z l') by (rewrite ?length_app; lia || done).
    rewrite (app_assoc x y z), (store_bytes_at a (x ++ y) z (l ++ l')) by (rewrite ?length_app; lia || done).
    by rewrite <- !app_assoc.
  - unfold store_bytes. rewrite length_app. destruct (decide _); [lia|].
    destruct (decide _); [|done]. cbn [mbind run_bind].
    destruct (decide _) as [Hd|]; [|done]. rewrite !length_app, length_take, length_drop in Hd. lia.
Qed.

Lemma store_bytes_length {A} (Buffer Buffer' l : list A) o :
  store_bytes Buffer o l = Done Buffer' -> length Buffer' = length Buffer.
Proof.
  unfold store_bytes. destruct (decide _); [|done]. intros [= <-].
  rewrite !length_app, length_take, length_drop. lia.
Qed.

(** ** The entries of a MADT *)

(** An entry of the table is its type and the bytes after the header; the header
    holds the type and the length of the whole. *)
Definition madt_bytes (e : Z * list Z) : list Z := e.1 :: Z.of_nat (length e.2 + 2) :: e.2.

(** No entry starts here: the rest is shorter than a header, or its length is
    less than a header or more than what is left. *)
Definition madt_stops (rest : list Z) : Prop :=
  match rest with
  | _ :: n :: _ => n < 2 \/ Z.of_nat (length rest) < n
  | _ => True
  end.

(** Any bytes are a sequence of entries and a rest in which none starts. *)
Lemma madt_cut rest : Forall is_byte rest ->
  exists es tail, rest = flat_map madt_bytes es ++ tail /\ madt_stops tail.
Proof.
  remember (length rest) as n eqn:Hn. assert (length rest <= n)%nat as Hle by lia. clear Hn.
  revert rest Hle. induction n as [|n IH]; intros rest Hn Hb.
  { destruct rest; [|simpl in Hn; lia]. by exists [], []. }
  destruct rest as [|t [|k p] ]; [by exists [], []|by exists [], [t]|].
  destruct (decide (k < 2 \/ Z.of_nat (length (t :: k :: p)) < k)) as [Hs|Hs].
  { exists [], (t :: k :: p). by split. }
  apply Forall_cons_1 in Hb as [_ Hb]. apply Forall_cons_1 in Hb as [_ Hb]. cbn [length] in *.
  destruct (IH (drop (Z.to_nat k - 2) p)) as (es & tail & E & Ht);
    [rewrite length_drop; lia|by apply Forall_drop|].
  exists ((t, take (Z.to_nat k - 2) p) :: es), tail. split; [|done]. simpl. rewrite <- app_assoc, <- E, take_drop.
  unfold madt_bytes. simpl. rewrite length_take. do 2 f_equal. lia.
Qed.
