(* ===== verification/RangeListRef.v ===== *)
(** A concrete range list package that meets [RtlRangeListLaws].

    The kernel's implementation is not part of the repository; this one keeps
    the ranges in a plain list and always has memory.  It shows that the laws
    can hold together and lets the witnesses of the arbiter's theorems run. *)
From stdpp Require Import base list numbers option.
From Stdlib Require Import ZArith Lia Permutation.
From S2P Require Import Prelude NtEnv.

Module RefList.

Definition t := list RTL_RANGE.

Definition add (l : t) (a b attrs flags : Z) (ud owner : PVOID) : NTSTATUS * t :=
  if b <? a then (STATUS_INVALID_PARAMETER, l)
  else if negb (has_flag flags RTL_RANGE_LIST_ADD_IF_CONFLICT) &&
          existsb (fun r => overlaps a b (rr_Start r) (rr_End r)) l
  then (STATUS_RANGE_LIST_CONFLICT, l)
  else (STATUS_SUCCESS,
        mkRange a b ud owner attrs
          (if has_flag flags RTL_RANGE_LIST_ADD_SHARED then RTL_RANGE_SHARED else 0) :: l).

Definition key_eqb (k1 k2 : Z * Z * PVOID) : bool :=
  (key_Start k1 =? key_Start k2) && (key_End k1 =? key_End k2) &&
  (key_Owner k1 =? key_Owner k2).

Fixpoint delete (l : t) (k : Z * Z * PVOID) : NTSTATUS * t :=
  match l with
  | [] => (STATUS_RANGE_NOT_FOUND, [])
  | r :: l' => if key_eqb (rng_key r) k then (STATUS_SUCCESS, l')
               else let '(s, l'') := delete l' k in (s, r :: l'')
  end.

Definition delete_owner (l : list RTL_RANGE) (owner : PVOID) : list RTL_RANGE :=
  filter (fun r => rr_Owner r <> owner) l.

(** One recorded range judged against a request, the callback last. *)
Definition passes (flags mask : Z) (cb : option conflict_callback)
  (slot : conflict_slot) (r : RTL_RANGE) : bool * conflict_slot :=
  if has_flag (rr_Attributes r) mask then (true, slot)
  else if has_flag flags RTL_RANGE_LIST_SHARED_OK && has_flag (rr_Flags r) RTL_RANGE_SHARED
  then (true, slot)
  else if has_flag flags RTL_RANGE_LIST_NULL_CONFLICT_OK && (rr_Owner r =? NULL)
  then (true, slot)
  else match cb with Some f => f slot r | None => (false, slot) end.

Fixpoint is_available (l : t) (a b flags mask : Z) (slot : conflict_slot)
  (cb : option conflict_callback) : bool * conflict_slot :=
  match l with
  | [] => (true, slot)
  | r :: l' =>
      if overlaps a b (rr_Start r) (rr_End r)
      then let '(ok, slot1) := passes flags mask cb slot r in
           if ok then is_available l' a b flags mask slot1 cb else (false, slot1)
      else is_available l' a b flags mask slot cb
  end.

(** The candidate starts: the top of the window and the place just below each
    recorded range, aligned down. *)
Definition candidates (l : t) (mx len al : Z) : list Z :=
  align_down (mx - len + 1) al :: map (fun r => align_down (rr_Start r - len) al) l.

Fixpoint try_candidates (cs : list Z) (l : t) (mn mx len al flags mask : Z)
  (slot : conflict_slot) (cb : option conflict_callback) : NTSTATUS * Z * conflict_slot :=
  match cs with
  | [] => (STATUS_RANGE_NOT_FOUND, 0, slot)
  | c :: cs' =>
      if (mn <=? c) && (c + len - 1 <=? mx) && (c mod al =? 0) then
        let '(ok, slot1) := is_available l c (c + len - 1) flags mask slot cb in
        if ok then (STATUS_SUCCESS, c, slot1)
        else try_candidates cs' l mn mx len al flags mask slot1 cb
      else try_candidates cs' l mn mx len al flags mask slot cb
  end.

Definition find (l : t) (mn mx len al flags mask : Z) (slot : conflict_slot)
  (cb : option conflict_callback) : NTSTATUS * Z * conflict_slot :=
  try_candidates (candidates l mx len al) l mn mx len al flags mask slot cb.

End RefList.

Definition ref_range_list : RtlRangeList := {|
  RTL_RANGE_LIST := RefList.t;
  rtl_ranges := fun l => l;
  RtlInitializeRangeList := [];
  RtlCopyRangeList := fun _ src => (STATUS_SUCCESS, src);
  RtlAddRange := RefList.add;
  RtlDeleteRange := fun l a b o => RefList.delete l (a, b, o);
  RtlDeleteOwnersRanges := fun l o => (STATUS_SUCCESS, RefList.delete_owner l o);
  RtlFindRange := RefList.find;
  RtlIsRangeAvailable := RefList.is_available
|}.

#[local] Existing Instance ref_range_list.

Module RefFacts.
Import RefList.

Lemma key_eqb_true k1 k2 : key_eqb k1 k2 = true -> k1 = k2.
Proof.
  destruct k1 as [[a b] o], k2 as [[a' b'] o'].
  unfold key_eqb, key_Start, key_End, key_Owner. simpl. intros. bool_prop. by subst.
Qed.

Lemma key_eqb_refl k : key_eqb k k = true.
Proof. destruct k as [[a b] o]. unfold key_eqb. by rewrite !Z.eqb_refl. Qed.

Lemma add_cores l a b attrs flags ud owner s l' :
  add l a b attrs flags ud owner = (s, l') ->
  if NT_SUCCESS s
  then map rng_core l' ≡ₚ
       ((a, b, owner), attrs, has_flag flags RTL_RANGE_LIST_ADD_SHARED) :: map rng_core l
  else map rng_core l' = map rng_core l.
Proof.
  unfold add. destruct (b <? a); [by intros [= <- <-]|].
  destruct (_ && _); intros [= <- <-]; [done|]. simpl.
  unfold rng_core, rng_key. simpl.
  destruct (has_flag flags RTL_RANGE_LIST_ADD_SHARED); reflexivity.
Qed.

Lemma delete_cores l k s l' :
  delete l k = (s, l') ->
  if NT_SUCCESS s
  then exists c, c.1.1 = k /\ map rng_core l ≡ₚ c :: map rng_core l'
  else map rng_core l' = map rng_core l.
Proof.
  revert s l'. induction l as [|r l IH]; simpl; intros s l' E.
  - by simplify_eq.
  - destruct (key_eqb (rng_key r) k) eqn:Ek.
    + injection E as <- <-. apply key_eqb_true in Ek. by exists (rng_core r).
    + destruct (delete l k) as [s1 l1]. injection E as <- <-.
      specialize (IH _ _ eq_refl). destruct (NT_SUCCESS s1); simpl; [|by rewrite IH].
      destruct IH as (c & Hc & P). exists c. split; [done|]. rewrite P. apply Permutation_swap.
Qed.

Lemma delete_found l k s l' :
  delete l k = (s, l') -> k ∈ map rng_key l -> NT_SUCCESS s = true.
Proof.
  revert s l'. induction l as [|r l IH]; simpl; intros s l' E Hin.
  - by apply not_elem_of_nil in Hin.
  - destruct (key_eqb (rng_key r) k) eqn:Ek; [by simplify_eq|].
    destruct (delete l k) as [s1 l1]. injection E as <- <-. eapply IH; [done|].
    apply elem_of_cons in Hin as [->|?]; [|done]. by rewrite key_eqb_refl in Ek.
Qed.

Lemma delete_owner_cores l owner :
  map rng_core (delete_owner l owner) =
  filter (fun c => core_Owner c <> owner) (map rng_core l).
Proof.
  unfold delete_owner. induction l as [|r l IH]; [done|]. simpl. rewrite !filter_cons.
  destruct (decide (rr_Owner r <> owner)) as [D|D];
    destruct (decide (core_Owner (rng_core r) <> owner)) as [D'|D']; try done.
  simpl. f_equal. exact IH.
Qed.

Lemma passes_spec flags mask cb slot r slot' :
  passes flags mask cb slot r = (true, slot') -> looks_past r flags mask cb.
Proof.
  unfold passes, looks_past. intros E.
  destruct (has_flag (rr_Attributes r) mask); [by left|].
  destruct (has_flag flags RTL_RANGE_LIST_SHARED_OK && _) eqn:E1; [zbool; by right; left|].
  destruct (has_flag flags RTL_RANGE_LIST_NULL_CONFLICT_OK && _) eqn:E2.
  { right. right. left. bool_prop. by split. }
  destruct cb as [f|]; [|done]. right. right. right. exists f, slot. by rewrite E.
Qed.

Lemma passes_slot flags mask cb slot r slot' ok :
  passes flags mask cb slot r = (ok, slot') ->
  slot' = slot \/ exists f s0, cb = Some f /\ slot' = (f s0 r).2.
Proof.
  unfold passes. intros E.
  destruct (has_flag (rr_Attributes r) mask); [by simplify_eq; left|].
  destruct (has_flag flags RTL_RANGE_LIST_SHARED_OK && _); [by simplify_eq; left|].
  destruct (has_flag flags RTL_RANGE_LIST_NULL_CONFLICT_OK && _); [by simplify_eq; left|].
  destruct cb as [f|]; [|by simplify_eq; left].
  right. exists f, slot. by rewrite E.
Qed.

Lemma is_available_sound l a b flags mask slot cb slot' :
  is_available l a b flags mask slot cb = (true, slot') ->
  forall r, r ∈ l -> overlaps a b (rr_Start r) (rr_End r) = true ->
            looks_past r flags mask cb.
Proof.
  revert slot. induction l as [|r0 l IH]; simpl; intros slot E r Hin Ho.
  - by apply not_elem_of_nil in Hin.
  - apply elem_of_cons in Hin as [->|Hin].
    + rewrite Ho in E. destruct (passes flags mask cb slot r0) as [ok s1] eqn:Ep.
      destruct ok; [|done]. eauto using passes_spec.
    + destruct (overlaps a b (rr_Start r0) (rr_End r0)); [|eauto].
      destruct (passes flags mask cb slot r0) as [[] s1]; [eauto|done].
Qed.

(** Chaining two searches over parts of one list. *)
Lemma slot_reached_trans (l : t) cb s1 s2 s3 :
  slot_reached l cb s1 s2 -> slot_reached l cb s2 s3 -> slot_reached l cb s1 s3.
Proof. intros [->|?] [->|?]; unfold slot_reached; eauto. Qed.

Lemma is_available_slot (l0 l : t) a b flags mask slot cb ok slot' :
  (forall r, r ∈ l -> r ∈ l0) ->
  is_available l a b flags mask slot cb = (ok, slot') -> slot_reached l0 cb slot slot'.
Proof.
  revert slot. induction l as [|r l IH]; simpl; intros slot Hsub E.
  - simplify_eq. by left.
  - assert (Hl : forall x, x ∈ l -> x ∈ l0) by (intros; apply Hsub; by right).
    destruct (overlaps a b (rr_Start r) (rr_End r)); [|eauto].
    destruct (passes flags mask cb slot r) as [ok1 s1] eqn:Ep.
    assert (slot_reached l0 cb slot s1) as Hs1.
    { apply passes_slot in Ep as [->|(f & s0 & -> & ->)]; [by left|right].
      exists f, s0, r. split_and!; [done| |done]. apply Hsub. by left. }
    destruct ok1; [|by simplify_eq]. eauto using slot_reached_trans.
Qed.

Lemma try_candidates_sound cs l mn mx len al flags mask slot cb s start slot' :
  try_candidates cs l mn mx len al flags mask slot cb = (s, start, slot') ->
  NT_SUCCESS s = true ->
  mn <= start /\ start + len - 1 <= mx /\ start mod al = 0 /\
  rl_available (R := ref_range_list) l start (start + len - 1) flags mask cb.
Proof.
  revert slot. induction cs as [|c cs IH]; simpl; intros slot E Hs; [by simplify_eq|].
  destruct (_ && _) eqn:Ec; [|eauto].
  destruct (is_available l c (c + len - 1) flags mask slot cb) as [ok s1] eqn:Ea.
  destruct ok; [|eauto]. simplify_eq. bool_prop. split_and!; try done.
  intros r Hin Ho. eapply is_available_sound; eauto.
Qed.

Lemma try_candidates_slot cs (l : t) mn mx len al flags mask slot cb s start slot' :
  try_candidates cs l mn mx len al flags mask slot cb = (s, start, slot') ->
  slot_reached l cb slot slot'.
Proof.
  revert slot. induction cs as [|c cs IH]; simpl; intros slot E; [simplify_eq; by left|].
  destruct (_ && _); [|eauto].
  destruct (is_available l c (c + len - 1) flags mask slot cb) as [ok s1] eqn:Ea.
  apply (is_available_slot l) in Ea; [|done].
  destruct ok; [by simplify_eq|]. eauto using slot_reached_trans.
Qed.
End RefFacts.

Lemma ref_range_list_laws : RtlRangeListLaws ref_range_list.
Proof.
  split.
  - done.
  - intros dst src s l [= <- <-] _. done.
  - intros l a b attrs flags ud owner s l' _ E. exact (RefFacts.add_cores _ _ _ _ _ _ _ _ _ E).
  - intros l a b owner s l' E. exact (RefFacts.delete_cores _ _ _ _ E).
  - intros l a b owner s l' E Hin. exact (RefFacts.delete_found _ _ _ _ E Hin).
  - intros l owner s l' [= <- <-]. cbn -[NT_SUCCESS]. unfold rl_cores. simpl.
    by rewrite RefFacts.delete_owner_cores.
  - intros l mn mx len al flags mask slot cb s start slot' E Hs _ _.
    exact (RefFacts.try_candidates_sound (RefList.candidates l mx len al) _ _ _ _ _ _ _ _ _ _ _ _ E Hs).
  - intros l mn mx len al flags mask slot cb s start slot' E.
    exact (RefFacts.try_candidates_slot (RefList.candidates l mx len al) _ _ _ _ _ _ _ _ _ _ _ _ E).
  - intros l a b flags mask slot cb slot' E r Hin Ho. by eapply RefFacts.is_available_sound.
Qed.

Lemma ref_pool_suffices : RtlPoolSuffices ref_range_list.
Proof.
  split; [|done]. intros l a b attrs flags ud owner Hf Hab. simpl. unfold RefList.add.
  destruct (b <? a) eqn:E; [bool_prop; lia|]. by rewrite Hf.
Qed.

Lemma ref_clear_exists l a b :
  rl_clear (R := ref_range_list) l a b ->
  existsb (fun r => overlaps a b (rr_Start r) (rr_End r)) l = false.
Proof.
  unfold rl_clear, rl_keys. simpl. induction l as [|r l IH]; simpl; [done|].
  intros H. inversion H as [|? ? H1 H2]; subst. unfold key_Start, key_End in H1. simpl in H1.
  rewrite H1. by apply IH.
Qed.

Lemma ref_exclusive_ranges : RtlExclusiveRanges ref_range_list.
Proof.
  split.
  - intros l a b attrs flags ud owner s l' E. exact (RefFacts.add_cores _ _ _ _ _ _ _ _ _ E).
  - intros l a b attrs flags ud owner Hab Hc. simpl. unfold RefList.add.
    destruct (b <? a) eqn:E; [bool_prop; lia|]. rewrite (ref_clear_exists _ _ _ Hc).
    by rewrite andb_false_r.
  - intros l a b flags mask slot cb Hc. apply ref_clear_exists in Hc. simpl.
    induction l as [|r l IH]; simpl in *; [done|].
    apply orb_false_elim in Hc as [H1 H2]. rewrite H1. by apply IH.
Qed.
