(* ===== verification/ArbTypes.v ===== *)
(** Data of the arbiter library: reactos-libs/arbiter/arbiter.h and the WDK
    structures it is built on.

    Pointers inside the engine's own structures become indices:
    [st_CurrentAlternative] indexes [st_Alternatives], [st_Entry] indexes the
    arbitration list, so that a write through one is seen through the other.
    The members of a C union are separate fields; the code reads the member its
    [Type] selects.  The callback slots of ARBITER_INSTANCE form a record of
    their own, [ARBITER_CALLBACKS]. *)
From stdpp Require Import base list numbers option.
From Stdlib Require Import ZArith Lia.
From S2P Require Import Prelude NtEnv.

(** ** Resource descriptors (WDK) *)

Definition CmResourceTypeNull : Z := 0.
Definition CmResourceTypePort : Z := 1.
Definition CmResourceTypeInterrupt : Z := 2.
Definition CmResourceTypeMemory : Z := 3.
Definition CmResourceTypeDma : Z := 4.
Definition CmResourceTypeBusNumber : Z := 6.
Definition CmResourceTypeMemoryLarge : Z := 7.
Definition CmResourceTypeConnection : Z := 132.
Definition CmResourceTypeDevicePrivate : Z := 129.

Definition CmResourceShareDeviceExclusive : Z := 1.
Definition CmResourceShareDriverExclusive : Z := 2.
Definition CmResourceShareShared : Z := 3.

Definition IO_RESOURCE_PREFERRED : Z := 0x01.
Definition IO_RESOURCE_ALTERNATIVE : Z := 0x08.
Definition CM_RESOURCE_MEMORY_COMPAT_FOR_INACCESSIBLE_RANGE : Z := 0x0100.

(** [u.Port] and [u.Memory] of IO_RESOURCE_DESCRIPTOR. *)
Record io_window := mkIoWindow {
  iw_Length : Z; iw_Alignment : Z; iw_MinimumAddress : Z; iw_MaximumAddress : Z }.

(** [u.BusNumber]. *)
Record io_bus := mkIoBus { ib_Length : Z; ib_MinBusNumber : Z; ib_MaxBusNumber : Z }.

(** [u.Interrupt]. *)
Record io_interrupt := mkIoInterrupt {
  ii_MinimumVector : Z; ii_MaximumVector : Z; ii_TargetedProcessors : Z }.

(** [u.Connection], the same in both descriptors. *)
Record rs_connection := mkConnection {
  cn_Class : Z; cn_Type : Z; cn_IdLowPart : Z; cn_IdHighPart : Z }.

Definition no_connection : rs_connection := mkConnection 0 0 0 0.

Record IO_RESOURCE_DESCRIPTOR := mkIo {
  io_Option : Z;
  io_Type : Z;
  io_ShareDisposition : Z;
  io_Flags : Z;
  io_Port : io_window;
  io_Memory : io_window;
  io_BusNumber : io_bus;
  io_Interrupt : io_interrupt;
  io_Connection : rs_connection
}.

(** [u.Port], [u.Memory] and [u.BusNumber] of CM_PARTIAL_RESOURCE_DESCRIPTOR. *)
Record cm_window := mkCmWindow { cw_Start : Z; cw_Length : Z }.
Record cm_interrupt := mkCmInterrupt { ci_Level : Z; ci_Vector : Z; ci_Affinity : Z }.

Record CM_PARTIAL_RESOURCE_DESCRIPTOR := mkCm {
  cm_Type : Z;
  cm_ShareDisposition : Z;
  cm_Flags : Z;
  cm_Port : cm_window;
  cm_Memory : cm_window;
  cm_BusNumber : cm_window;
  cm_Interrupt : cm_interrupt;
  cm_Connection : rs_connection
}.

(** ** The arbitration list (WDK) *)

Inductive ARBITER_REQUEST_SOURCE :=
| ArbiterRequestUndefined
| ArbiterRequestLegacyReported
| ArbiterRequestHalReported
| ArbiterRequestLegacyAssigned
| ArbiterRequestPnpDetected
| ArbiterRequestPnpEnumerated.

Inductive ARBITER_RESULT :=
| ArbiterResultUndefined
| ArbiterResultSuccess
| ArbiterResultExternalConflict
| ArbiterResultNullRequest.

#[global] Instance ARBITER_RESULT_eq_dec : EqDecision ARBITER_RESULT.
Proof. solve_decision. Defined.
#[global] Instance ARBITER_REQUEST_SOURCE_eq_dec : EqDecision ARBITER_REQUEST_SOURCE.
Proof. solve_decision. Defined.

Record ARBITER_LIST_ENTRY := mkEntry {
  ent_Alternatives : list IO_RESOURCE_DESCRIPTOR;
  ent_PhysicalDeviceObject : PVOID;
  ent_RequestSource : ARBITER_REQUEST_SOURCE;
  ent_Flags : Z;
  ent_WorkSpace : Z;
  ent_Assignment : option CM_PARTIAL_RESOURCE_DESCRIPTOR;
  ent_SelectedAlternative : option IO_RESOURCE_DESCRIPTOR;
  ent_Result : ARBITER_RESULT
}.

Definition ent_AlternativeCount (e : ARBITER_LIST_ENTRY) : Z :=
  Z.of_nat (length (ent_Alternatives e)).

Definition ent_set_WorkSpace (v : Z) (e : ARBITER_LIST_ENTRY) : ARBITER_LIST_ENTRY :=
  mkEntry (ent_Alternatives e) (ent_PhysicalDeviceObject e) (ent_RequestSource e)
    (ent_Flags e) v (ent_Assignment e) (ent_SelectedAlternative e) (ent_Result e).
Definition ent_set_Assignment (v : option CM_PARTIAL_RESOURCE_DESCRIPTOR)
  (e : ARBITER_LIST_ENTRY) : ARBITER_LIST_ENTRY :=
  mkEntry (ent_Alternatives e) (ent_PhysicalDeviceObject e) (ent_RequestSource e)
    (ent_Flags e) (ent_WorkSpace e) v (ent_SelectedAlternative e) (ent_Result e).
Definition ent_set_SelectedAlternative (v : option IO_RESOURCE_DESCRIPTOR)
  (e : ARBITER_LIST_ENTRY) : ARBITER_LIST_ENTRY :=
  mkEntry (ent_Alternatives e) (ent_PhysicalDeviceObject e) (ent_RequestSource e)
    (ent_Flags e) (ent_WorkSpace e) (ent_Assignment e) v (ent_Result e).
Definition ent_set_Result (v : ARBITER_RESULT) (e : ARBITER_LIST_ENTRY) : ARBITER_LIST_ENTRY :=
  mkEntry (ent_Alternatives e) (ent_PhysicalDeviceObject e) (ent_RequestSource e)
    (ent_Flags e) (ent_WorkSpace e) (ent_Assignment e) (ent_SelectedAlternative e) v.

(** ** arbiter.h constants *)

Definition ARBITER_MAXIMUM_ADDRESS : Z := ULONGLONG_MAX.

Definition ARBITER_PRIORITY_NULL : Z := 0x00000000.
Definition ARBITER_PRIORITY_PREFERRED_RESERVED : Z := 0x7FFFFFFD.
Definition ARBITER_PRIORITY_RESERVED : Z := 0x7FFFFFFE.
Definition ARBITER_PRIORITY_EXHAUSTED : Z := 0x7FFFFFFF.

Definition ARBITER_ALTERNATIVE_FLAG_SHARED : Z := 0x1.
Definition ARBITER_ALTERNATIVE_FLAG_FIXED : Z := 0x2.
Definition ARBITER_ALTERNATIVE_FLAG_BADRANGE : Z := 0x4.
Definition ARBITER_ALTERNATIVE_FLAG_INACCESSIBLE_OK : Z := 0x8.

Definition ARBITER_RANGE_BOOT_ALLOCATED : Z := 0x01.
Definition ARBITER_RANGE_SHARED_DRIVER : Z := 0x02.
Definition ARBITER_RANGE_PORT_ALIAS : Z := 0x10.
Definition ARBITER_RANGE_INACCESSIBLE : Z := 0x40.

Definition ARBITER_STATE_FLAG_BOOT : Z := 0x0004.
Definition ARBITER_STATE_FLAG_NULL_CONFLICT_OK : Z := 0x0008.
Definition ARBITER_STATE_FLAG_WORKSPACE : Z := 0x0010.
Definition ARBITER_STATE_FLAG_MCFG_CONFLICT : Z := 0x0020.
Definition ARBITER_STATE_FLAG_NO_RETRY : Z := 0x0040.

(** ** arbiter.h structures *)

Record ARBITER_ALTERNATIVE := mkAlt {
  alt_Minimum : Z;
  alt_Maximum : Z;
  alt_Length : Z;
  alt_Alignment : Z;
  alt_Priority : Z;
  alt_Flags : Z;
  alt_Descriptor : IO_RESOURCE_DESCRIPTOR
}.

Definition alt_set_Priority (v : Z) (a : ARBITER_ALTERNATIVE) : ARBITER_ALTERNATIVE :=
  mkAlt (alt_Minimum a) (alt_Maximum a) (alt_Length a) (alt_Alignment a) v
    (alt_Flags a) (alt_Descriptor a).

Record ARBITER_ALLOCATION_STATE := mkState {
  st_Start : Z;
  st_End : Z;
  st_CurrentMinimum : Z;
  st_CurrentMaximum : Z;
  st_Entry : option nat;
  st_CurrentAlternative : option nat;
  st_Alternatives : list ARBITER_ALTERNATIVE;
  st_Flags : Z;
  st_RangeAttributes : Z;
  st_RangeAvailableAttributes : Z;
  st_WorkSpace : Z
}.

(** The alternative [CurrentAlternative] points to. *)
Definition st_alt (st : ARBITER_ALLOCATION_STATE) : option ARBITER_ALTERNATIVE :=
  match st_CurrentAlternative st with
  | Some i => st_Alternatives st !! i
  | None => None
  end.

Definition st_set_place (s e : Z) (st : ARBITER_ALLOCATION_STATE) : ARBITER_ALLOCATION_STATE :=
  mkState s e (st_CurrentMinimum st) (st_CurrentMaximum st) (st_Entry st)
    (st_CurrentAlternative st) (st_Alternatives st) (st_Flags st) (st_RangeAttributes st)
    (st_RangeAvailableAttributes st) (st_WorkSpace st).
Definition st_set_window (mn mx : Z) (st : ARBITER_ALLOCATION_STATE) : ARBITER_ALLOCATION_STATE :=
  mkState (st_Start st) (st_End st) mn mx (st_Entry st)
    (st_CurrentAlternative st) (st_Alternatives st) (st_Flags st) (st_RangeAttributes st)
    (st_RangeAvailableAttributes st) (st_WorkSpace st).
Definition st_set_CurrentAlternative (v : option nat) (st : ARBITER_ALLOCATION_STATE)
  : ARBITER_ALLOCATION_STATE :=
  mkState (st_Start st) (st_End st) (st_CurrentMinimum st) (st_CurrentMaximum st) (st_Entry st)
    v (st_Alternatives st) (st_Flags st) (st_RangeAttributes st)
    (st_RangeAvailableAttributes st) (st_WorkSpace st).
Definition st_set_Alternatives (v : list ARBITER_ALTERNATIVE) (st : ARBITER_ALLOCATION_STATE)
  : ARBITER_ALLOCATION_STATE :=
  mkState (st_Start st) (st_End st) (st_CurrentMinimum st) (st_CurrentMaximum st) (st_Entry st)
    (st_CurrentAlternative st) v (st_Flags st) (st_RangeAttributes st)
    (st_RangeAvailableAttributes st) (st_WorkSpace st).
Definition st_set_Flags (v : Z) (st : ARBITER_ALLOCATION_STATE) : ARBITER_ALLOCATION_STATE :=
  mkState (st_Start st) (st_End st) (st_CurrentMinimum st) (st_CurrentMaximum st) (st_Entry st)
    (st_CurrentAlternative st) (st_Alternatives st) v (st_RangeAttributes st)
    (st_RangeAvailableAttributes st) (st_WorkSpace st).
Definition st_set_RangeAttributes (v : Z) (st : ARBITER_ALLOCATION_STATE)
  : ARBITER_ALLOCATION_STATE :=
  mkState (st_Start st) (st_End st) (st_CurrentMinimum st) (st_CurrentMaximum st) (st_Entry st)
    (st_CurrentAlternative st) (st_Alternatives st) (st_Flags st) v
    (st_RangeAvailableAttributes st) (st_WorkSpace st).
Definition st_set_RangeAvailableAttributes (v : Z) (st : ARBITER_ALLOCATION_STATE)
  : ARBITER_ALLOCATION_STATE :=
  mkState (st_Start st) (st_End st) (st_CurrentMinimum st) (st_CurrentMaximum st) (st_Entry st)
    (st_CurrentAlternative st) (st_Alternatives st) (st_Flags st) (st_RangeAttributes st)
    v (st_WorkSpace st).
Definition st_set_WorkSpace (v : Z) (st : ARBITER_ALLOCATION_STATE) : ARBITER_ALLOCATION_STATE :=
  mkState (st_Start st) (st_End st) (st_CurrentMinimum st) (st_CurrentMaximum st) (st_Entry st)
    (st_CurrentAlternative st) (st_Alternatives st) (st_Flags st) (st_RangeAttributes st)
    (st_RangeAvailableAttributes st) v.

(** RtlZeroMemory of a state: also the terminator of an allocation stack. *)
Definition st_zero : ARBITER_ALLOCATION_STATE := mkState 0 0 0 0 None None [] 0 0 0 0.

Record ARBITER_ORDERING := mkOrdering { ord_Start : Z; ord_End : Z }.

(** [ol_Orderings] holds the first [Count] elements of the array, [None] for a
    NULL array pointer. *)
Record ARBITER_ORDERING_LIST := mkOrderingList {
  ol_Count : Z;
  ol_Maximum : Z;
  ol_Orderings : option (list ARBITER_ORDERING)
}.

Definition ol_list (l : ARBITER_ORDERING_LIST) : list ARBITER_ORDERING :=
  default [] (ol_Orderings l).

(** ** The arbiter instance *)

Section Instance_.
Context `{R : RtlRangeList}.

Record ARBITER_INSTANCE := mkArb {
  ar_ResourceType : Z;
  ar_Allocation : RTL_RANGE_LIST;
  ar_PossibleAllocation : RTL_RANGE_LIST;
  ar_OrderingList : ARBITER_ORDERING_LIST;
  ar_ReservedList : ARBITER_ORDERING_LIST;
  ar_AllocationStackMaxSize : Z;
  ar_AllocationStack : list ARBITER_ALLOCATION_STATE;
  ar_Locked : bool;                 (** MutexEvent not signaled *)
  ar_TransactionInProgress : bool;
  ar_TransactionEvent : bool;       (** signaled *)
  ar_ConflictCallbackContext : conflict_slot;
  ar_ConflictCallback : option conflict_callback
}.

Definition ar_set_Allocation (v : RTL_RANGE_LIST) (a : ARBITER_INSTANCE) : ARBITER_INSTANCE :=
  mkArb (ar_ResourceType a) v (ar_PossibleAllocation a) (ar_OrderingList a) (ar_ReservedList a)
    (ar_AllocationStackMaxSize a) (ar_AllocationStack a) (ar_Locked a)
    (ar_TransactionInProgress a) (ar_TransactionEvent a) (ar_ConflictCallbackContext a)
    (ar_ConflictCallback a).
Definition ar_set_PossibleAllocation (v : RTL_RANGE_LIST) (a : ARBITER_INSTANCE)
  : ARBITER_INSTANCE :=
  mkArb (ar_ResourceType a) (ar_Allocation a) v (ar_OrderingList a) (ar_ReservedList a)
    (ar_AllocationStackMaxSize a) (ar_AllocationStack a) (ar_Locked a)
    (ar_TransactionInProgress a) (ar_TransactionEvent a) (ar_ConflictCallbackContext a)
    (ar_ConflictCallback a).
Definition ar_set_OrderingList (v : ARBITER_ORDERING_LIST) (a : ARBITER_INSTANCE)
  : ARBITER_INSTANCE :=
  mkArb (ar_ResourceType a) (ar_Allocation a) (ar_PossibleAllocation a) v (ar_ReservedList a)
    (ar_AllocationStackMaxSize a) (ar_AllocationStack a) (ar_Locked a)
    (ar_TransactionInProgress a) (ar_TransactionEvent a) (ar_ConflictCallbackContext a)
    (ar_ConflictCallback a).
Definition ar_set_ReservedList (v : ARBITER_ORDERING_LIST) (a : ARBITER_INSTANCE)
  : ARBITER_INSTANCE :=
  mkArb (ar_ResourceType a) (ar_Allocation a) (ar_PossibleAllocation a) (ar_OrderingList a) v
    (ar_AllocationStackMaxSize a) (ar_AllocationStack a) (ar_Locked a)
    (ar_TransactionInProgress a) (ar_TransactionEvent a) (ar_ConflictCallbackContext a)
    (ar_ConflictCallback a).
Definition ar_set_stack (mx : Z) (v : list ARBITER_ALLOCATION_STATE) (a : ARBITER_INSTANCE)
  : ARBITER_INSTANCE :=
  mkArb (ar_ResourceType a) (ar_Allocation a) (ar_PossibleAllocation a) (ar_OrderingList a)
    (ar_ReservedList a) mx v (ar_Locked a)
    (ar_TransactionInProgress a) (ar_TransactionEvent a) (ar_ConflictCallbackContext a)
    (ar_ConflictCallback a).
Definition ar_set_Locked (v : bool) (a : ARBITER_INSTANCE) : ARBITER_INSTANCE :=
  mkArb (ar_ResourceType a) (ar_Allocation a) (ar_PossibleAllocation a) (ar_OrderingList a)
    (ar_ReservedList a) (ar_AllocationStackMaxSize a) (ar_AllocationStack a) v
    (ar_TransactionInProgress a) (ar_TransactionEvent a) (ar_ConflictCallbackContext a)
    (ar_ConflictCallback a).
Definition ar_set_transaction (in_progress signaled : bool) (a : ARBITER_INSTANCE)
  : ARBITER_INSTANCE :=
  mkArb (ar_ResourceType a) (ar_Allocation a) (ar_PossibleAllocation a) (ar_OrderingList a)
    (ar_ReservedList a) (ar_AllocationStackMaxSize a) (ar_AllocationStack a) (ar_Locked a)
    in_progress signaled (ar_ConflictCallbackContext a) (ar_ConflictCallback a).
Definition ar_set_slot (v : conflict_slot) (a : ARBITER_INSTANCE) : ARBITER_INSTANCE :=
  mkArb (ar_ResourceType a) (ar_Allocation a) (ar_PossibleAllocation a) (ar_OrderingList a)
    (ar_ReservedList a) (ar_AllocationStackMaxSize a) (ar_AllocationStack a) (ar_Locked a)
    (ar_TransactionInProgress a) (ar_TransactionEvent a) v (ar_ConflictCallback a).
Definition ar_set_callback (cb : option conflict_callback) (slot : conflict_slot)
  (a : ARBITER_INSTANCE) : ARBITER_INSTANCE :=
  mkArb (ar_ResourceType a) (ar_Allocation a) (ar_PossibleAllocation a) (ar_OrderingList a)
    (ar_ReservedList a) (ar_AllocationStackMaxSize a) (ar_AllocationStack a) (ar_Locked a)
    (ar_TransactionInProgress a) (ar_TransactionEvent a) slot cb.

(** The function slots of ARBITER_INSTANCE that the engine calls.  Each takes
    the instance, the arbitration list behind the states' [Entry] pointers and
    a state, and returns what it may have changed. *)
Record ARBITER_CALLBACKS := mkCallbacks {
  (** Minimum, Maximum, Length, Alignment; meaningful on success *)
  UnpackRequirement : IO_RESOURCE_DESCRIPTOR -> NTSTATUS * (Z * Z * Z * Z);
  PackResource : IO_RESOURCE_DESCRIPTOR -> Z -> CM_PARTIAL_RESOURCE_DESCRIPTOR ->
                 NTSTATUS * CM_PARTIAL_RESOURCE_DESCRIPTOR;
  (** Start, Length *)
  UnpackResource : CM_PARTIAL_RESOURCE_DESCRIPTOR -> NTSTATUS * (Z * Z);
  ScoreRequirement : option (IO_RESOURCE_DESCRIPTOR -> Z);
  PreprocessEntry : ARBITER_INSTANCE -> list ARBITER_LIST_ENTRY -> ARBITER_ALLOCATION_STATE ->
                    NTSTATUS * ARBITER_INSTANCE * ARBITER_ALLOCATION_STATE;
  GetNextAllocationRange : ARBITER_INSTANCE -> list ARBITER_LIST_ENTRY ->
                    ARBITER_ALLOCATION_STATE -> bool * ARBITER_ALLOCATION_STATE;
  FindSuitableRange : ARBITER_INSTANCE -> list ARBITER_LIST_ENTRY ->
                    ARBITER_ALLOCATION_STATE ->
                    bool * ARBITER_INSTANCE * ARBITER_ALLOCATION_STATE;
  AddAllocation : ARBITER_INSTANCE -> list ARBITER_LIST_ENTRY -> ARBITER_ALLOCATION_STATE ->
                  ARBITER_INSTANCE;
  BacktrackAllocation : ARBITER_INSTANCE -> list ARBITER_LIST_ENTRY ->
                  ARBITER_ALLOCATION_STATE -> ARBITER_INSTANCE * ARBITER_ALLOCATION_STATE
}.
End Instance_.

(** The entry a state points to, and the device it stands for. *)
Definition st_entry (ents : list ARBITER_LIST_ENTRY) (st : ARBITER_ALLOCATION_STATE)
  : option ARBITER_LIST_ENTRY :=
  match st_Entry st with Some i => ents !! i | None => None end.

(** [ArbState->Entry ? ArbState->Entry->PhysicalDeviceObject : NULL] *)
Definition st_owner (ents : list ARBITER_LIST_ENTRY) (st : ARBITER_ALLOCATION_STATE) : PVOID :=
  match st_entry ents st with Some e => ent_PhysicalDeviceObject e | None => NULL end.
