(* ===== verification/Ordering.v ===== *)
(** Ordering lists: reactos-libs/arbiter/ordering.c.

    An ordering list is a growable array of closed address windows, most
    preferred first.  The file models the array operations with their pool
    requests, the pruning of a reserved window out of every ordering window,
    the registry walk that fills the lists, and the MMCONFIG window table. *)
From stdpp Require Import base list numbers option strings.
From Stdlib Require Import ZArith Lia Permutation.
From S2P Require Import Prelude NtEnv RangeListRef ArbTypes.

Definition ARBITER_ORDERING_GRANULARITY : Z := 16.
Definition ARBITER_ORDERING_LIMIT : Z := 1024.
Definition sizeof_ARBITER_ORDERING : Z := 16.

(** ** The array operations *)

Definition ArbpCreateOrderingList (w : world) : NTSTATUS * ARBITER_ORDERING_LIST * world :=
  let '(ok, w) :=
    ExAllocatePoolWithTag (ARBITER_ORDERING_GRANULARITY * sizeof_ARBITER_ORDERING) w in
  if negb ok then (STATUS_INSUFFICIENT_RESOURCES, mkOrderingList 0 0 None, w)
  else (STATUS_SUCCESS, mkOrderingList 0 ARBITER_ORDERING_GRANULARITY (Some []), w).

Definition ArbiterLibFreeOrderingList (ol : ARBITER_ORDERING_LIST) (w : world)
  : ARBITER_ORDERING_LIST * world :=
  let w := match ol_Orderings ol with Some _ => ExFreePoolWithTag w | None => w end in
  (mkOrderingList 0 0 None, w).

(** The store of one window at index [Count] of an array with room for it. *)
Definition ol_append (ol : ARBITER_ORDERING_LIST) (s e : Z) : ARBITER_ORDERING_LIST :=
  mkOrderingList (u16 (ol_Count ol + 1)) (ol_Maximum ol)
    (Some (take (Z.to_nat (ol_Count ol)) (ol_list ol) ++ [mkOrdering s e])).

Definition ArbiterLibAddOrdering (ol : ARBITER_ORDERING_LIST) (s e : Z) (w : world)
  : NTSTATUS * ARBITER_ORDERING_LIST * world :=
  if e <? s then (STATUS_INVALID_PARAMETER, ol, w)
  else if ol_Count ol =? ol_Maximum ol then
    let NewMaximum := if ol_Maximum ol =? 0 then ARBITER_ORDERING_GRANULARITY
                      else u32 (ol_Maximum ol * 2) in
    if ARBITER_ORDERING_LIMIT <? NewMaximum then (STATUS_INSUFFICIENT_RESOURCES, ol, w)
    else
      let '(ok, w) := ExAllocatePoolWithTag (NewMaximum * sizeof_ARBITER_ORDERING) w in
      if negb ok then (STATUS_INSUFFICIENT_RESOURCES, ol, w)
      else
        let '(copied, w) :=
          match ol_Orderings ol with
          | Some os => (take (Z.to_nat (ol_Count ol)) os, ExFreePoolWithTag w)
          | None => ([], w)
          end in
        let ol := mkOrderingList (ol_Count ol) (u16 NewMaximum) (Some copied) in
        (STATUS_SUCCESS, ol_append ol s e, w)
  else (STATUS_SUCCESS, ol_append ol s e, w).

(** One iteration of the pruning loop, on the window [o]. *)
Definition exclude_window (Pruned : ARBITER_ORDERING_LIST) (o : ARBITER_ORDERING)
  (s e : Z) (w : world) : NTSTATUS * ARBITER_ORDERING_LIST * world :=
  let CurrentStart := ord_Start o in
  let CurrentEnd := ord_End o in
  if (CurrentEnd <? s) || (e <? CurrentStart) then
    ArbiterLibAddOrdering Pruned CurrentStart CurrentEnd w
  else
    let '(Status, Pruned, w) :=
      if CurrentStart <? s then ArbiterLibAddOrdering Pruned CurrentStart (s -u 1) w
      else (STATUS_SUCCESS, Pruned, w) in
    if NT_SUCCESS Status && (e <? CurrentEnd) then
      ArbiterLibAddOrdering Pruned (e +u 1) CurrentEnd w
    else (Status, Pruned, w).

Fixpoint exclude_loop (os : list ARBITER_ORDERING) (Pruned : ARBITER_ORDERING_LIST)
  (s e : Z) (w : world) : NTSTATUS * ARBITER_ORDERING_LIST * world :=
  match os with
  | [] => (STATUS_SUCCESS, Pruned, w)
  | o :: os =>
      let '(Status, Pruned, w) := exclude_window Pruned o s e w in
      if negb (NT_SUCCESS Status) then (Status, Pruned, w)
      else exclude_loop os Pruned s e w
  end.

Definition ArbpExcludeOrderingRange (ol : ARBITER_ORDERING_LIST) (s e : Z) (w : world)
  : NTSTATUS * ARBITER_ORDERING_LIST * world :=
  if e <? s then (STATUS_INVALID_PARAMETER, ol, w)
  else
    let '(Status, Pruned, w) := ArbpCreateOrderingList w in
    if negb (NT_SUCCESS Status) then (Status, ol, w)
    else
      let '(Status, Pruned, w) :=
        exclude_loop (take (Z.to_nat (ol_Count ol)) (ol_list ol)) Pruned s e w in
      if negb (NT_SUCCESS Status) then
        let '(_, w) := ArbiterLibFreeOrderingList Pruned w in (Status, ol, w)
      else
        let '(_, w) := ArbiterLibFreeOrderingList ol w in (STATUS_SUCCESS, Pruned, w).

(** ** Registry policy ranges *)

(** A registry value as ZwQueryValueKey returns it.  A REG_SZ carries its
    characters, a requirements list its stored descriptor count and the
    descriptors the data holds. *)
Inductive reg_payload :=
| REG_SZ (chars : list Ascii.ascii)
| REG_RESOURCE_REQUIREMENTS_LIST (count : Z) (descriptors : list IO_RESOURCE_DESCRIPTOR)
| REG_OTHER.

Record KEY_VALUE_FULL_INFORMATION := mkValue {
  kv_DataOffset : Z; kv_DataLength : Z; kv_Data : reg_payload }.

(** The keys below HKLM\...\Control\Arbiters: [reg_open] is ZwOpenKey on a
    subkey, [reg_probe] the size probe of a value (status and size),
    [reg_query] its read (status, value and result length). *)
Record registry := mkRegistry {
  reg_open : string -> NTSTATUS;
  reg_probe : string -> string -> NTSTATUS * Z;
  reg_query : string -> string -> NTSTATUS * KEY_VALUE_FULL_INFORMATION * Z
}.

Definition STATUS_BUFFER_TOO_SMALL : NTSTATUS := 0xC0000023.
Definition STATUS_BUFFER_OVERFLOW : NTSTATUS := 0x80000005.
Definition sizeof_IO_RESOURCE_REQUIREMENTS_LIST : Z := 72.
Definition offset_Descriptors : Z := 40.
Definition sizeof_IO_RESOURCE_DESCRIPTOR : Z := 32.

(** The path buffer has room for the root and the longest subkey name. *)
Definition ArbpOpenPolicySubkey (reg : registry) (SubkeyName : string) : NTSTATUS :=
  if (String.length "ReservedResources" <? String.length SubkeyName)%nat
  then STATUS_BUFFER_TOO_SMALL
  else reg_open reg SubkeyName.

Definition ArbpReadPolicyValue (reg : registry) (key ValueName : string) (w : world)
  : NTSTATUS * option KEY_VALUE_FULL_INFORMATION * world :=
  let '(Status, Size) := reg_probe reg key ValueName in
  if negb (Status =? STATUS_BUFFER_TOO_SMALL) && negb (Status =? STATUS_BUFFER_OVERFLOW) then
    ((if NT_SUCCESS Status then STATUS_UNSUCCESSFUL else Status), None, w)
  else
    let '(ok, w) := ExAllocatePoolWithTag Size w in
    if negb ok then (STATUS_INSUFFICIENT_RESOURCES, None, w)
    else
      let '(Status, Buffer, ResultLength) := reg_query reg key ValueName in
      let Status :=
        if NT_SUCCESS Status && (ResultLength <? kv_DataOffset Buffer + kv_DataLength Buffer)
        then STATUS_UNSUCCESSFUL else Status in
      if negb (NT_SUCCESS Status) then (Status, None, ExFreePoolWithTag w)
      else (STATUS_SUCCESS, Some Buffer, w).

Definition ArbpDescriptorMatchesArbiter (ResourceType DescriptorType : Z) : bool :=
  (DescriptorType =? u8 ResourceType) ||
  ((DescriptorType =? CmResourceTypeMemoryLarge) && (ResourceType =? CmResourceTypeMemory)).

(** The characters of a REG_SZ before its first NUL. *)
Fixpoint sz_name (chars : list Ascii.ascii) : string :=
  match chars with
  | [] => EmptyString
  | c :: cs => if Ascii.eqb c Ascii.zero then EmptyString else String c (sz_name cs)
  end.

Section RegistryWalk.
Context (UnpackRequirement : IO_RESOURCE_DESCRIPTOR -> NTSTATUS * (Z * Z * Z * Z)).
Context {S_ : Type} (ResourceType : Z)
  (Translate : option (IO_RESOURCE_DESCRIPTOR -> NTSTATUS * IO_RESOURCE_DESCRIPTOR))
  (Callback : S_ -> Z -> Z -> S_).

(** The descriptor loop: [n] is [Index], [left] the stored count still to go. *)
Fixpoint walk_descriptors (ds : list IO_RESOURCE_DESCRIPTOR) (n : Z) (Count DataLength : Z)
  (acc : S_) : S_ :=
  match ds with
  | [] => acc
  | d :: ds =>
      if Count <=? n then acc
      else if DataLength <? offset_Descriptors + sizeof_IO_RESOURCE_DESCRIPTOR * (n + 1) then acc
      else
        let '(Status, Window) :=
          match Translate with Some T => T d | None => (STATUS_SUCCESS, d) end in
        if negb (NT_SUCCESS Status) then acc
        else if negb (ArbpDescriptorMatchesArbiter ResourceType (io_Type Window)) then
          walk_descriptors ds (n + 1) Count DataLength acc
        else
          let '(Status, (Minimum, Maximum, _, _)) := UnpackRequirement Window in
          if negb (NT_SUCCESS Status) then acc
          else walk_descriptors ds (n + 1) Count DataLength (Callback acc Minimum Maximum)
  end.

(** [S_] carries the pool as well, so the walk hands the world to [acc]
    through [get] and [put]. *)
Context (get : S_ -> world) (put : world -> S_ -> S_).

Definition ArbpForEachRegistryRange (reg : registry) (Subkey ValueName : string) (acc : S_)
  : NTSTATUS * S_ :=
  if negb (NT_SUCCESS (ArbpOpenPolicySubkey reg Subkey)) then (STATUS_SUCCESS, acc)
  else
    let '(Status, Value, w) := ArbpReadPolicyValue reg Subkey ValueName (get acc) in
    let '(Value, w) :=
      match Value with
      | Some v =>
          match kv_Data v with
          | REG_SZ chars =>
              if negb (bool_decide (chars = [])) &&
                 Ascii.eqb (List.last chars Ascii.one) Ascii.zero then
                let '(Status2, Target, w) := ArbpReadPolicyValue reg Subkey (sz_name chars) w in
                match Target with
                | Some t => (Some t, ExFreePoolWithTag w)
                | None => (Some v, w)
                end
              else (Some v, w)
          | _ => (Some v, w)
          end
      | None => (None, w)
      end in
    let acc := put w acc in
    let acc :=
      match Value with
      | Some v =>
          match kv_Data v with
          | REG_RESOURCE_REQUIREMENTS_LIST Count ds =>
              if sizeof_IO_RESOURCE_REQUIREMENTS_LIST <=? kv_DataLength v
              then walk_descriptors ds 0 Count (kv_DataLength v) acc else acc
          | _ => acc
          end
      | None => acc
      end in
    let acc := match Value with Some _ => put (ExFreePoolWithTag (get acc)) acc | None => acc end in
    (STATUS_SUCCESS, acc).
End RegistryWalk.

(** ** The MMCONFIG window table *)

Definition ARBP_MAX_MMCONFIG_RANGES : Z := 16.

(** [ArbpMmConfigRanges] up to [ArbpMmConfigRangeCount]. *)
Definition mmconfig_table := list (Z * Z).

Fixpoint ArbiterLibIsConflictWithMmConfigRange (t : mmconfig_table) (s e : Z) : bool :=
  match t with
  | [] => false
  | (rs, re) :: t => if (s <=? re) && (rs <=? e) then true
                     else ArbiterLibIsConflictWithMmConfigRange t s e
  end.

(** ** Range callbacks and the policy entry points *)

Section Policy.
Context `{R : RtlRangeList}.

Definition ArbpAddOrderingCallback (acc : ARBITER_INSTANCE * world) (s e : Z)
  : ARBITER_INSTANCE * world :=
  let '(arb, w) := acc in
  let '(_, ol, w) := ArbiterLibAddOrdering (ar_OrderingList arb) s e w in
  (ar_set_OrderingList ol arb, w).

Definition ArbpAddReservedCallback (acc : ARBITER_INSTANCE * world) (s e : Z)
  : ARBITER_INSTANCE * world :=
  let '(arb, w) := acc in
  let '(Status, rl, w) := ArbiterLibAddOrdering (ar_ReservedList arb) s e w in
  let arb := ar_set_ReservedList rl arb in
  if NT_SUCCESS Status then
    let '(_, ol, w) := ArbpExcludeOrderingRange (ar_OrderingList arb) s e w in
    (ar_set_OrderingList ol arb, w)
  else (arb, w).

Definition ArbpAddRangeCallback (acc : RTL_RANGE_LIST * world) (s e : Z)
  : RTL_RANGE_LIST * world :=
  let '(l, w) := acc in
  ((RtlAddRange l s e ARBITER_RANGE_INACCESSIBLE RTL_RANGE_LIST_ADD_IF_CONFLICT NULL NULL).2, w).

Definition ArbpMmConfigCallback (acc : mmconfig_table * RTL_RANGE_LIST * world) (s e : Z)
  : mmconfig_table * RTL_RANGE_LIST * world :=
  let '(t, l, w) := acc in
  let t := if Z.of_nat (length t) <? ARBP_MAX_MMCONFIG_RANGES then t ++ [(s, e)] else t in
  (t, (RtlAddRange l s e ARBITER_RANGE_BOOT_ALLOCATED RTL_RANGE_LIST_ADD_IF_CONFLICT
         NULL NULL).2, w).

Definition ArbiterLibDefaultAssignmentOrdering
  (unpack : IO_RESOURCE_DESCRIPTOR -> NTSTATUS * (Z * Z * Z * Z))
  (translate : option (IO_RESOURCE_DESCRIPTOR -> NTSTATUS * IO_RESOURCE_DESCRIPTOR))
  (reg : registry) (AllocationOrderName ReservedResourcesName : string)
  (arb : ARBITER_INSTANCE) (w : world) : NTSTATUS * ARBITER_INSTANCE * world :=
  let '(ol, w) := ArbiterLibFreeOrderingList (ar_OrderingList arb) w in
  let '(rl, w) := ArbiterLibFreeOrderingList (ar_ReservedList arb) w in
  let arb := ar_set_ReservedList rl (ar_set_OrderingList ol arb) in
  let '(Status, ol, w) := ArbpCreateOrderingList w in
  let arb := ar_set_OrderingList ol arb in
  if negb (NT_SUCCESS Status) then (Status, arb, w)
  else
    let '(Status, rl, w) := ArbpCreateOrderingList w in
    let arb := ar_set_ReservedList rl arb in
    if negb (NT_SUCCESS Status) then
      let '(ol, w) := ArbiterLibFreeOrderingList (ar_OrderingList arb) w in
      (Status, ar_set_OrderingList ol arb, w)
    else
      let '(_, acc) :=
        ArbpForEachRegistryRange unpack (ar_ResourceType arb) translate
          ArbpAddOrderingCallback snd (fun w acc => (acc.1, w))
          reg "AllocationOrder" AllocationOrderName (arb, w) in
      let '(Status, (arb, w)) :=
        ArbpForEachRegistryRange unpack (ar_ResourceType arb) translate
          ArbpAddReservedCallback snd (fun w acc => (acc.1, w))
          reg "ReservedResources" ReservedResourcesName acc in
      (Status, arb, w).

Definition ArbiterLibAddInaccessibleAllocationRange
  (unpack : IO_RESOURCE_DESCRIPTOR -> NTSTATUS * (Z * Z * Z * Z)) (ResourceType : Z)
  (reg : registry) (OrderingName : string) (l : RTL_RANGE_LIST) (w : world)
  : NTSTATUS * RTL_RANGE_LIST * world :=
  let '(Status, (l, w)) :=
    ArbpForEachRegistryRange unpack ResourceType None
      ArbpAddRangeCallback snd (fun w acc => (acc.1, w))
      reg "InaccessibleRange" OrderingName (l, w) in
  (Status, l, w).

(** The count is reset first: the windows are recorded anew for every read. *)
Definition ArbiterLibAddMmConfigRangeAsBootReserved
  (unpack : IO_RESOURCE_DESCRIPTOR -> NTSTATUS * (Z * Z * Z * Z)) (ResourceType : Z)
  (reg : registry) (t : mmconfig_table) (l : RTL_RANGE_LIST) (w : world)
  : NTSTATUS * mmconfig_table * RTL_RANGE_LIST * world :=
  let t := [] in
  let '(Status, (t, l, w)) :=
    ArbpForEachRegistryRange unpack ResourceType None
      ArbpMmConfigCallback snd (fun w acc => (acc.1, w))
      reg "ReservedResources" "MmConfigRange" (t, l, w) in
  (Status, t, l, w).
End Policy.

(** ** Meaning of an ordering list *)

Definition ord_wf (o : ARBITER_ORDERING) : Prop :=
  is_u64 (ord_Start o) /\ is_u64 (ord_End o) /\ ord_Start o <= ord_End o.

Definition ord_covers (o : ARBITER_ORDERING) (x : Z) : Prop := in_range x (ord_Start o) (ord_End o).

(** The addresses some window of the list holds. *)
Definition covers (ol : ARBITER_ORDERING_LIST) (x : Z) : Prop :=
  exists o, o ∈ ol_list ol /\ ord_covers o x.

(** The pool blocks a list owns. *)
Definition ol_blocks (ol : ARBITER_ORDERING_LIST) : Z :=
  match ol_Orderings ol with Some _ => 1 | None => 0 end.

(** The capacities doubling passes through, from the first allocation to the
    cap. *)
Definition capacities : list Z := [0; 16; 32; 64; 128; 256; 512; 1024].

(** The array invariant: the count is the number of elements, it is within the
    capacity, the capacity is one of those above, the array is NULL only at
    capacity 0, and every window is a non-empty 64-bit range. *)
Record ol_wf (ol : ARBITER_ORDERING_LIST) : Prop := {
  olw_count : ol_Count ol = Z.of_nat (length (ol_list ol));
  olw_max : ol_Count ol <= ol_Maximum ol <= ARBITER_ORDERING_LIMIT;
  olw_cap : In (ol_Maximum ol) capacities;
  olw_null : ol_Orderings ol = None -> ol_Maximum ol = 0;
  olw_windows : Forall ord_wf (ol_list ol)
}.

(** What the hole [s, e] leaves of one window, in address order. *)
Definition hole (s e : Z) (o : ARBITER_ORDERING) : list ARBITER_ORDERING :=
  if (ord_End o <? s) || (e <? ord_Start o) then [o]
  else (if ord_Start o <? s then [mkOrdering (ord_Start o) (s - 1)] else []) ++
       (if e <? ord_End o then [mkOrdering (e + 1) (ord_End o)] else []).

(** ** Lemmas *)

Lemma ol_take_count ol : ol_wf ol -> take (Z.to_nat (ol_Count ol)) (ol_list ol) = ol_list ol.
Proof. intros W. apply take_ge. rewrite (olw_count _ W). lia. Qed.

Lemma covers_list os c m x :
  covers (mkOrderingList c m (Some os)) x <-> Exists (fun o => ord_covers o x) os.
Proof. unfold covers, ol_list. simpl. rewrite Exists_exists. done. Qed.

Lemma covers_Exists ol x : covers ol x <-> Exists (fun o => ord_covers o x) (ol_list ol).
Proof. unfold covers. by rewrite Exists_exists. Qed.

(** Appending to a list with room keeps the invariant. *)
Lemma ol_append_spec ol s e :
  ol_wf ol -> ol_Count ol < ol_Maximum ol -> ord_wf (mkOrdering s e) ->
  ol_wf (ol_append ol s e) /\ ol_list (ol_append ol s e) = ol_list ol ++ [mkOrdering s e].
Proof.
  intros W Hlt Ho. unfold ol_append. rewrite (ol_take_count ol W).
  pose proof (olw_count _ W) as Hc. pose proof (olw_max _ W) as Hm.
  unfold ARBITER_ORDERING_LIMIT in Hm.
  split; [|done]. split; simpl.
  - rewrite u16_small by lia. unfold ol_list. simpl. rewrite length_app. simpl.
    unfold ol_list in Hc. lia.
  - rewrite u16_small by lia. unfold ARBITER_ORDERING_LIMIT. lia.
  - apply (olw_cap _ W).
  - done.
  - unfold ol_list. simpl. apply Forall_app. split; [apply (olw_windows _ W)|]. by constructor.
Qed.

Lemma ol_grow_wf ol NewMaximum :
  ol_wf ol -> ol_Count ol < NewMaximum <= ARBITER_ORDERING_LIMIT -> In NewMaximum capacities ->
  ol_wf (mkOrderingList (ol_Count ol) (u16 NewMaximum) (Some (ol_list ol))).
Proof.
  intros W Hn Hcap. pose proof (olw_count _ W). pose proof (olw_max _ W).
  unfold ARBITER_ORDERING_LIMIT in *.
  split; unfold ol_list; simpl; try done.
  - rewrite u16_small by lia. unfold ARBITER_ORDERING_LIMIT. lia.
  - by rewrite u16_small by lia.
  - apply (olw_windows _ W).
Qed.

Definition next_capacity (m : Z) : Z :=
  if m =? 0 then ARBITER_ORDERING_GRANULARITY else u32 (m * 2).

Lemma next_capacity_spec m :
  In m capacities ->
  m < next_capacity m /\
  (next_capacity m <= ARBITER_ORDERING_LIMIT ->  In (next_capacity m) capacities) /\
  (m < ARBITER_ORDERING_LIMIT -> next_capacity m <= ARBITER_ORDERING_LIMIT).
Proof.
  unfold capacities, ARBITER_ORDERING_LIMIT. simpl.
  intros H. repeat destruct H as [<-|H]; try done.
  all: split_and!; [done | intros Hle; simpl | intros Hlt; try done].
  all: first [exfalso; by apply Hle | repeat (first [by left | right])].
Qed.

(** ArbiterLibAddOrdering in every branch. *)
Record add_outcome (ol ol' : ARBITER_ORDERING_LIST) (s e : Z) (w w' : world) (st : NTSTATUS)
  : Prop := {
  ao_wf : ol_wf ol';
  ao_pool : w_live w' - ol_blocks ol' = w_live w - ol_blocks ol;
  ao_ok : NT_SUCCESS st = true ->
          s <= e /\ ol_list ol' = ol_list ol ++ [mkOrdering s e] /\ ol_Orderings ol' <> None;
  ao_fail : NT_SUCCESS st = false -> ol' = ol
}.

Lemma add_ordering_outcome ol s e w st ol' w' :
  ol_wf ol -> is_u64 s -> is_u64 e ->
  ArbiterLibAddOrdering ol s e w = (st, ol', w') -> add_outcome ol ol' s e w w' st.
Proof.
  intros W Hs He. unfold ArbiterLibAddOrdering.
  pose proof (olw_count _ W) as Hc. pose proof (olw_max _ W) as Hm.
  assert (Hmx : ol_Maximum ol <= 1024) by apply Hm.
  destruct (e <? s) eqn:Ese; [intros [= <- <- <-]; by split|].
  bool_prop. assert (Ho : ord_wf (mkOrdering s e)) by (unfold ord_wf; simpl; auto).
  destruct (ol_Count ol =? ol_Maximum ol) eqn:Ecm; bool_prop.
  - fold (next_capacity (ol_Maximum ol)). set (nm := next_capacity (ol_Maximum ol)).
    destruct (next_capacity_spec _ (olw_cap _ W)) as (Hnm & Hcap & _). fold nm in Hnm, Hcap.
    destruct (ARBITER_ORDERING_LIMIT <? nm) eqn:El; bool_prop; [intros [= <- <- <-]; by split|].
    unfold ExAllocatePoolWithTag. destruct (w_pool w (w_allocs w) _); simpl;
      [|intros [= <- <- <-]; by split].
    pose proof (ol_grow_wf ol nm W ltac:(lia) (Hcap El)) as Wg.
    replace (match ol_Orderings ol with Some os => _ | None => _ end)
      with (ol_list ol, mkWorld (w_clock w) (w_pool w) (w_reads w) (S (w_allocs w))
                          (w_live w + 1 - ol_blocks ol)).
    2:{ unfold ol_blocks. rewrite <- (ol_take_count ol W) at 1. unfold ol_list.
        destruct (ol_Orderings ol); simpl; [done|]. rewrite take_nil. do 2 f_equal. lia. }
    intros [= <- <- <-].
    assert (Hu : u16 nm = nm) by (apply u16_small; unfold ARBITER_ORDERING_LIMIT in El; lia).
    destruct (ol_append_spec _ s e Wg) as [Wa La]; [simpl; rewrite Hu; lia|done|].
    split; try done. change (w_live w + 1 - ol_blocks ol - 1 = w_live w - ol_blocks ol). lia.
  - intros [= <- <- <-]. destruct (ol_append_spec ol s e W ltac:(lia) Ho) as [Wa La].
    split; try done. unfold ol_blocks, ol_append. simpl.
    destruct (ol_Orderings ol) eqn:En; [done|]. apply (olw_null _ W) in En. lia.
Qed.

Lemma create_ordering_spec w st ol w' :
  ArbpCreateOrderingList w = (st, ol, w') ->
  ol_wf ol /\ ol_list ol = [] /\ w_live w' - ol_blocks ol = w_live w /\
  (NT_SUCCESS st = true -> ol_Orderings ol <> None) /\
  (NT_SUCCESS st = false -> st = STATUS_INSUFFICIENT_RESOURCES /\ ol_Orderings ol = None).
Proof.
  unfold ArbpCreateOrderingList, ExAllocatePoolWithTag.
  destruct (w_pool w (w_allocs w) _); simpl; intros [= <- <- <-];
    unfold ol_list, ol_blocks; simpl; (split; [split; unfold ol_list; simpl;
      unfold ARBITER_ORDERING_LIMIT, ARBITER_ORDERING_GRANULARITY, capacities; simpl;
      try done; try lia; auto|]);
    split_and!; try done; lia.
Qed.

(** One window through the pruning loop appends what the hole leaves of it. *)
Record prune_outcome (P P' : ARBITER_ORDERING_LIST) (frags : list ARBITER_ORDERING)
  (w w' : world) (st : NTSTATUS) : Prop := {
  po_wf : ol_wf P';
  po_pool : w_live w' - ol_blocks P' = w_live w - ol_blocks P;
  po_ok : NT_SUCCESS st = true -> ol_list P' = ol_list P ++ frags
}.

Lemma add_prune P s e w st P' w' :
  ol_wf P -> is_u64 s -> is_u64 e ->
  ArbiterLibAddOrdering P s e w = (st, P', w') -> prune_outcome P P' [mkOrdering s e] w w' st.
Proof.
  intros W Hs He E. destruct (add_ordering_outcome _ _ _ _ _ _ _ W Hs He E) as [Wf Pool Ok _].
  split; try done. intros Hok. by destruct (Ok Hok) as (_ & -> & _).
Qed.

Lemma prune_none P w : ol_wf P -> prune_outcome P P [] w w STATUS_SUCCESS.
Proof. intros W. split; try done. intros _. by rewrite app_nil_r. Qed.

Lemma exclude_window_spec P o s e w st P' w' :
  ol_wf P -> ord_wf o -> is_u64 s -> is_u64 e -> s <= e ->
  exclude_window P o s e w = (st, P', w') -> prune_outcome P P' (hole s e o) w w' st.
Proof.
  intros W (Ho1 & Ho2 & Ho3) Hs He Hse. unfold exclude_window, hole.
  destruct o as [cs ce]. simpl in *.
  destruct ((ce <? s) || (e <? cs)) eqn:Eout; [by apply add_prune|]. bool_prop.
  unfold is_u64, ULONGLONG_MAX in *.
  destruct (if cs <? s then _ else _) as [[st1 P1] w1] eqn:E1. intros E2.
  assert (O1 : prune_outcome P P1
            (if cs <? s then [mkOrdering cs (s - 1)] else []) w w1 st1).
  { destruct (cs <? s) eqn:El; bool_prop; [|simplify_eq; by apply prune_none].
    rewrite sub64_small in E1 by (unfold is_u64, ULONGLONG_MAX; lia).
    eapply add_prune; eauto; unfold is_u64, ULONGLONG_MAX; lia. }
  destruct O1 as [W1 L1 S1].
  destruct (NT_SUCCESS st1) eqn:Es1; simpl in E2.
  2:{ simplify_eq. split; [done|done|]. by rewrite Es1. }
  destruct (e <? ce) eqn:Er; bool_prop.
  - rewrite add64_small in E2 by (unfold is_u64, ULONGLONG_MAX; lia).
    eapply add_prune in E2 as [W2 L2 S2]; try (unfold is_u64, ULONGLONG_MAX; lia); [|done].
    split; [done|lia|]. intros Hok. rewrite (S2 Hok), (S1 eq_refl), <- app_assoc. done.
  - simplify_eq. split; [done|done|]. intros _. rewrite (S1 eq_refl). by rewrite app_nil_r.
Qed.

Lemma exclude_loop_spec os P s e w st P' w' :
  ol_wf P -> Forall ord_wf os -> is_u64 s -> is_u64 e -> s <= e ->
  exclude_loop os P s e w = (st, P', w') ->
  prune_outcome P P' (concat (map (hole s e) os)) w w' st.
Proof.
  intros W Hos Hs He Hse. revert P w W.
  induction Hos as [|o os Ho Hos IH]; simpl; intros P w W E.
  - simplify_eq. by apply prune_none.
  - destruct (exclude_window P o s e w) as [[st1 P1] w1] eqn:E1.
    apply exclude_window_spec in E1 as [W1 L1 S1]; auto.
    destruct (NT_SUCCESS st1) eqn:Es1; simpl in E.
    + apply IH in E as [W2 L2 S2]; [|done]. split; [done|lia|].
      intros Hok. by rewrite (S2 Hok), (S1 eq_refl), <- app_assoc.
    + simplify_eq. split; [done|done|]. by rewrite Es1.
Qed.

(** The hole removes exactly the addresses it holds. *)
Lemma hole_covers s e o x :
  s <= e ->
  Exists (fun o => ord_covers o x) (hole s e o) <-> ord_covers o x /\ ~ in_range x s e.
Proof.
  intros Hse. unfold hole, ord_covers, in_range. destruct o as [cs ce]. simpl.
  destruct ((ce <? s) || (e <? cs)) eqn:Eout; bool_prop.
  1, 2: rewrite Exists_cons, Exists_nil; simpl; lia.
  destruct (cs <? s) eqn:El, (e <? ce) eqn:Er; bool_prop; simpl;
      rewrite ?Exists_cons, ?Exists_nil; simpl; lia.
Qed.

Lemma concat_hole_covers s e os x :
  s <= e ->
  Exists (fun o => ord_covers o x) (concat (map (hole s e) os)) <->
  Exists (fun o => ord_covers o x) os /\ ~ in_range x s e.
Proof.
  intros Hse. induction os as [|o os IH]; simpl.
  - rewrite !Exists_nil. tauto.
  - rewrite Exists_app, Exists_cons, IH, hole_covers by done. tauto.
Qed.

(** ** Properties *)

(** ArbpExcludeOrderingRange, every branch at once: on success the list is
    the concatenation of what the hole leaves of each window, in the old
    order; on failure it is the old list; both ways the pool is balanced and
    the array invariant holds. *)
Lemma exclude_range_outcome ol s e w st ol' w' :
  ol_wf ol -> is_u64 s -> is_u64 e ->
  ArbpExcludeOrderingRange ol s e w = (st, ol', w') ->
  ol_wf ol' /\ w_live w' - ol_blocks ol' = w_live w - ol_blocks ol /\
  (NT_SUCCESS st = true ->
   s <= e /\ ol_list ol' = concat (map (hole s e) (ol_list ol))) /\
  (NT_SUCCESS st = false -> ol' = ol).
Proof.
  intros W Hs He. unfold ArbpExcludeOrderingRange.
  destruct (e <? s) eqn:Ese; [intros [= <- <- <-]; by split_and!|]. bool_prop.
  destruct (ArbpCreateOrderingList w) as [[st1 P1] w1] eqn:E1.
  apply create_ordering_spec in E1 as (W1 & L1 & B1 & _ & N1).
  destruct (NT_SUCCESS st1) eqn:Es1; simpl.
  2:{ intros [= <- <- <-]. rewrite Es1. split_and!; try done.
      unfold ol_blocks in B1. destruct (N1 eq_refl) as [_ Hn]. rewrite Hn in B1. lia. }
  rewrite (ol_take_count _ W).
  destruct (exclude_loop (ol_list ol) P1 s e w1) as [[st2 P2] w2] eqn:E2.
  apply exclude_loop_spec in E2 as [W2 B2 S2]; auto; [|apply (olw_windows _ W)].
  destruct (NT_SUCCESS st2) eqn:Es2; simpl; intros [= <- <- <-].
  - split_and!; try done.
    + unfold ol_blocks in *. destruct (ol_Orderings ol), (ol_Orderings P2); simpl; lia.
    + intros _. split; [done|]. by rewrite (S2 eq_refl), L1.
  - rewrite Es2. split_and!; try done.
    unfold ol_blocks in *. destruct (ol_Orderings ol), (ol_Orderings P2); simpl; lia.
Qed.

(** *** Room and pool: when the operations succeed *)

Definition pool_grants (w : world) : Prop := forall n size, w_pool w n size = true.

Lemma add_ordering_pool ol s e w st ol' w' :
  ArbiterLibAddOrdering ol s e w = (st, ol', w') -> w_pool w' = w_pool w.
Proof.
  unfold ArbiterLibAddOrdering, ExAllocatePoolWithTag. intros E.
  repeat case_match; by simplify_eq/=.
Qed.

Lemma pool_grants_eq w w' : w_pool w' = w_pool w -> pool_grants w -> pool_grants w'.
Proof. unfold pool_grants. by intros ->. Qed.

Lemma add_ordering_succeeds ol s e w st ol' w' :
  ol_wf ol -> pool_grants w -> s <= e -> ol_Count ol < ARBITER_ORDERING_LIMIT ->
  ArbiterLibAddOrdering ol s e w = (st, ol', w') -> NT_SUCCESS st = true.
Proof.
  intros W G Hse Hlt. unfold ArbiterLibAddOrdering, ExAllocatePoolWithTag.
  destruct (e <? s) eqn:E; bool_prop; [lia|].
  destruct (ol_Count ol =? ol_Maximum ol) eqn:Ec; bool_prop; [|by intros [= <- <- <-]].
  fold (next_capacity (ol_Maximum ol)). rewrite G. simpl.
  destruct (next_capacity_spec _ (olw_cap _ W)) as (_ & _ & Hle).
  destruct (_ <? next_capacity _) eqn:El; bool_prop; [lia|].
  destruct (ol_Orderings ol); by intros [= <- <- <-].
Qed.

Lemma exclude_window_succeeds P o s e w st P' w' :
  ol_wf P -> ord_wf o -> is_u64 s -> is_u64 e -> s <= e -> pool_grants w ->
  ol_Count P + 2 <= ARBITER_ORDERING_LIMIT ->
  exclude_window P o s e w = (st, P', w') -> NT_SUCCESS st = true /\ pool_grants w'.
Proof.
  intros W Ho Hs He Hse G Hroom E0. destruct Ho as (Ho1 & Ho2 & Ho3). destruct o as [cs ce].
  unfold exclude_window in E0. simpl in *. unfold is_u64, ULONGLONG_MAX in *.
  destruct ((ce <? s) || (e <? cs)) eqn:Eout.
  - split; [refine (add_ordering_succeeds _ _ _ _ _ _ _ W G _ _ E0); lia|].
    eauto using pool_grants_eq, add_ordering_pool.
  - bool_prop. destruct (if cs <? s then _ else _) as [[st1 P1] w1] eqn:E1.
    assert (NT_SUCCESS st1 = true /\ pool_grants w1 /\ ol_wf P1 /\ ol_Count P1 <= ol_Count P + 1)
      as (S1 & G1 & W1 & C1).
    { destruct (cs <? s) eqn:El; bool_prop; [|simplify_eq; split_and!; try done; lia].
      rewrite sub64_small in E1 by (unfold is_u64, ULONGLONG_MAX; lia).
      assert (S1 : NT_SUCCESS st1 = true) by (refine (add_ordering_succeeds _ _ _ _ _ _ _ W G _ _ E1); lia).
      pose proof (pool_grants_eq _ _ (add_ordering_pool _ _ _ _ _ _ _ E1) G).
      apply add_ordering_outcome in E1 as [Wf _ Ok _];
        try (unfold is_u64, ULONGLONG_MAX; lia); [|done].
      split_and!; try done. rewrite (olw_count _ Wf), (olw_count _ W).
      destruct (Ok S1) as (_ & -> & _). rewrite length_app. simpl. lia. }
    rewrite S1 in E0. simpl in E0. destruct (e <? ce) eqn:Er; bool_prop.
    + rewrite add64_small in E0 by (unfold is_u64, ULONGLONG_MAX; lia).
      split; [refine (add_ordering_succeeds _ _ _ _ _ _ _ W1 G1 _ _ E0); lia|].
      eauto using pool_grants_eq, add_ordering_pool.
    + by simplify_eq.
Qed.

Lemma hole_length s e o : (length (hole s e o) <= 2)%nat.
Proof.
  unfold hole. repeat case_goal; simpl; lia.
Qed.

Lemma exclude_loop_succeeds os P s e w st P' w' :
  ol_wf P -> Forall ord_wf os -> is_u64 s -> is_u64 e -> s <= e -> pool_grants w ->
  ol_Count P + 2 * Z.of_nat (length os) <= ARBITER_ORDERING_LIMIT ->
  exclude_loop os P s e w = (st, P', w') -> NT_SUCCESS st = true.
Proof.
  intros W Hos Hs He Hse. revert P w W.
  induction Hos as [|o os Ho Hos IH]; simpl; intros P w W G Hroom E; [by simplify_eq|].
  destruct (exclude_window P o s e w) as [[st1 P1] w1] eqn:E1.
  destruct (exclude_window_succeeds _ _ _ _ _ _ _ _ W Ho Hs He Hse G ltac:(lia) E1) as [S1 G1].
  rewrite S1 in E. simpl in E.
  apply exclude_window_spec in E1 as [W1 _ L1]; auto.
  eapply IH; eauto. rewrite (olw_count _ W1), (L1 S1), length_app.
  rewrite (olw_count _ W) in Hroom. pose proof (hole_length s e o). lia.
Qed.

Lemma exclude_range_succeeds ol s e w st ol' w' :
  ol_wf ol -> is_u64 s -> is_u64 e -> s <= e -> pool_grants w ->
  2 * ol_Count ol <= ARBITER_ORDERING_LIMIT ->
  ArbpExcludeOrderingRange ol s e w = (st, ol', w') -> NT_SUCCESS st = true.
Proof.
  intros W Hs He Hse G Hroom. unfold ArbpExcludeOrderingRange.
  destruct (e <? s) eqn:Ese; bool_prop; [lia|].
  destruct (ArbpCreateOrderingList w) as [[st1 P1] w1] eqn:E1.
  pose proof (create_ordering_spec _ _ _ _ E1) as (W1 & L1 & _).
  unfold ArbpCreateOrderingList, ExAllocatePoolWithTag in E1. rewrite G in E1.
  injection E1 as <- _ <-. simpl. rewrite (ol_take_count _ W).
  destruct (exclude_loop (ol_list ol) P1 s e _) as [[st2 P2] w2] eqn:E2.
  assert (NT_SUCCESS st2 = true) as ->.
  { eapply exclude_loop_succeeds; [| | | | | | |exact E2]; auto; [apply (olw_windows _ W)|].
    rewrite (olw_count _ W1), L1. simpl. rewrite <- (olw_count _ W). lia. }
  simpl. by intros [= <- _ _].
Qed.

(** ArbpExcludeOrderingRange removes exactly the addresses of the range
    [s, e] from the list: on success an address is covered afterwards iff it
    was covered before and lies outside the range; on failure the list is the
    old one.  Either way the array invariant survives and no pool block is
    leaked or freed twice. *)
Theorem exclude_ordering_range_correct ol s e w st ol' w' :
  ol_wf ol -> is_u64 s -> is_u64 e ->
  ArbpExcludeOrderingRange ol s e w = (st, ol', w') ->
  ol_wf ol' /\ w_live w' - ol_blocks ol' = w_live w - ol_blocks ol /\
  (if NT_SUCCESS st
   then forall x, covers ol' x <-> covers ol x /\ ~ in_range x s e
   else ol' = ol).
Proof.
  intros W Hs He E. destruct (exclude_range_outcome _ _ _ _ _ _ _ W Hs He E) as (W' & B & Ok & Ko).
  split_and!; try done. destruct (NT_SUCCESS st); [|auto].
  destruct (Ok eq_refl) as [Hse L]. intros x. rewrite !covers_Exists, L.
  by apply concat_hole_covers.
Qed.

Definition sample_world : world := mkWorld (fun _ => 0) (fun _ _ => true) 0 0 2.
Definition sample_orderings : ARBITER_ORDERING_LIST :=
  mkOrderingList 2 16 (Some [mkOrdering 0x100 0x3FF; mkOrdering 0x1000 0xFFFF]).

Lemma sample_orderings_wf : ol_wf sample_orderings.
Proof.
  split; try done; [simpl; unfold capacities; simpl; tauto|].
  unfold ol_list. simpl. repeat constructor; done.
Qed.

Lemma exclude_ordering_range_correct_witness :
  exists ol', ol_list ol' = [mkOrdering 0x100 0x2F7; mkOrdering 0x300 0x3FF;
                             mkOrdering 0x1000 0xFFFF] /\ ~ covers ol' 0x2F8.
Proof.
  destruct (ArbpExcludeOrderingRange sample_orderings 0x2F8 0x2FF sample_world)
    as [[st ol'] w'] eqn:E.
  pose proof (exclude_ordering_range_correct sample_orderings 0x2F8 0x2FF sample_world st ol' w'
                sample_orderings_wf ltac:(done) ltac:(done) E) as (_ & _ & C).
  exists ol'. vm_compute in E. injection E as <- <- <-. split; [reflexivity|].
  intros Hc. apply C in Hc as [_ Hc]. by apply Hc.
Defined.

(** With pool available, ArbiterLibAddOrdering succeeds exactly when the
    window is not backwards and fewer than 1024 windows are held, so doubling
    reaches the cap and never wraps the 16-bit count. *)
Theorem add_ordering_capacity ol s e w st ol' w' :
  ol_wf ol -> is_u64 s -> is_u64 e -> pool_grants w ->
  ArbiterLibAddOrdering ol s e w = (st, ol', w') ->
  (NT_SUCCESS st = true <-> s <= e /\ ol_Count ol < ARBITER_ORDERING_LIMIT) /\
  (NT_SUCCESS st = true -> ol_list ol' = ol_list ol ++ [mkOrdering s e] /\
                           ol_Count ol' = ol_Count ol + 1).
Proof.
  intros W Hs He G E. pose proof (add_ordering_outcome _ _ _ _ _ _ _ W Hs He E) as [W' _ Ok _].
  assert (Hcount : NT_SUCCESS st = true -> ol_Count ol' = ol_Count ol + 1).
  { intros Hok. rewrite (olw_count _ W'), (olw_count _ W).
    destruct (Ok Hok) as (_ & -> & _). rewrite length_app. simpl. lia. }
  pose proof (olw_max _ W') as Hmax.
  split; [split|].
  - intros Hok. split; [by apply Ok|]. specialize (Hcount Hok). lia.
  - intros [Hse Hlt]. exact (add_ordering_succeeds _ _ _ _ _ _ _ W G Hse Hlt E).
  - intros Hok. split; [by apply Ok|auto].
Qed.

Lemma add_ordering_capacity_witness :
  exists st ol' w', ArbiterLibAddOrdering (mkOrderingList 0 0 None) 5 9 sample_world = (st, ol', w')
    /\ ol_list ol' = [mkOrdering 5 9].
Proof.
  destruct (ArbiterLibAddOrdering (mkOrderingList 0 0 None) 5 9 sample_world)
    as [[st ol'] w'] eqn:E.
  assert (W : ol_wf (mkOrderingList 0 0 None)).
  { split; unfold ol_list; simpl; try done. by left. }
  pose proof (add_ordering_capacity _ 5 9 sample_world st ol' w' W ltac:(done) ltac:(done)
                ltac:(done) E) as [[_ Hok] L].
  exists st, ol', w'. split; [done|]. destruct L as [L _]; [by apply Hok|done].
Defined.

(** *** The registry walk preserves what its callback preserves *)

Section WalkInvariant.
Context (unpack : IO_RESOURCE_DESCRIPTOR -> NTSTATUS * (Z * Z * Z * Z)).
Context {S_ : Type} (rt : Z)
  (translate : option (IO_RESOURCE_DESCRIPTOR -> NTSTATUS * IO_RESOURCE_DESCRIPTOR))
  (cb : S_ -> Z -> Z -> S_) (get : S_ -> world) (put : world -> S_ -> S_).
Context (Inv : S_ -> Prop).
Hypothesis unpack_u64 : forall d st mn mx len al,
  unpack d = (st, (mn, mx, len, al)) -> NT_SUCCESS st = true -> is_u64 mn /\ is_u64 mx.
Hypothesis cb_inv : forall acc s e, Inv acc -> is_u64 s -> is_u64 e -> Inv (cb acc s e).
Hypothesis put_inv : forall acc w, Inv acc -> Inv (put w acc).

Lemma walk_descriptors_inv ds n count len acc :
  Inv acc -> Inv (walk_descriptors unpack rt translate cb ds n count len acc).
Proof using unpack_u64 cb_inv.
  revert n acc. induction ds as [|d ds IH]; simpl; intros n acc HI; [done|].
  destruct (count <=? n); [done|]. destruct (len <? _); [done|].
  destruct (match translate with Some T => T d | None => _ end) as [st1 win].
  destruct (negb (NT_SUCCESS st1)); [done|].
  destruct (negb (ArbpDescriptorMatchesArbiter _ _)); [by apply IH|].
  destruct (unpack win) as [st2 [[[mn mx] l] al]] eqn:Eu.
  destruct (NT_SUCCESS st2) eqn:Es; simpl; [|done].
  destruct (unpack_u64 _ _ _ _ _ _ Eu Es). auto.
Qed.

Lemma foreach_range_inv reg sub val acc st acc' :
  Inv acc ->
  ArbpForEachRegistryRange unpack rt translate cb get put reg sub val acc = (st, acc') ->
  st = STATUS_SUCCESS /\ Inv acc'.
Proof using unpack_u64 cb_inv put_inv.
  intros HI. unfold ArbpForEachRegistryRange.
  destruct (negb _); [by intros [= <- <-]|].
  destruct (ArbpReadPolicyValue reg sub val (get acc)) as [[st1 v] w1].
  destruct (match v with Some _ => _ | None => _ end) as [v2 w2].
  intros [= <- <-]. split; [done|].
  assert (Inv (match v2 with
               | Some v => match kv_Data v with
                 | REG_RESOURCE_REQUIREMENTS_LIST Count ds =>
                   if sizeof_IO_RESOURCE_REQUIREMENTS_LIST <=? kv_DataLength v
                   then walk_descriptors unpack rt translate cb ds 0 Count (kv_DataLength v)
                          (put w2 acc) else put w2 acc
                 | _ => put w2 acc end
               | None => put w2 acc end)) as Hmid.
  { destruct v2 as [v2|]; [|auto]. destruct (kv_Data v2); auto.
    destruct (_ <=? _); auto. by apply walk_descriptors_inv; auto. }
  destruct v2; auto.
Qed.
End WalkInvariant.

(** *** Reserved windows leave the orderings *)

Section PolicyFacts.
Context `{R : RtlRangeList}.

(** Both lists are well formed. *)
Definition policy_wf (arb : ARBITER_INSTANCE) : Prop :=
  ol_wf (ar_OrderingList arb) /\ ol_wf (ar_ReservedList arb).

(** No address of a reserved window is left in an ordering window. *)
Definition reserved_clean (arb : ARBITER_INSTANCE) : Prop :=
  forall x, covers (ar_ReservedList arb) x -> ~ covers (ar_OrderingList arb) x.

Lemma add_ordering_callback_wf arb w s e arb' w' :
  policy_wf arb -> is_u64 s -> is_u64 e ->
  ArbpAddOrderingCallback (arb, w) s e = (arb', w') -> policy_wf arb'.
Proof.
  intros [W1 W2] Hs He. unfold ArbpAddOrderingCallback.
  destruct (ArbiterLibAddOrdering _ s e w) as [[st ol] w1] eqn:E. intros [= <- <-].
  split; [|done]. by destruct (add_ordering_outcome _ _ _ _ _ _ _ W1 Hs He E).
Qed.

Lemma add_reserved_callback_wf arb w s e arb' w' :
  policy_wf arb -> is_u64 s -> is_u64 e ->
  ArbpAddReservedCallback (arb, w) s e = (arb', w') -> policy_wf arb'.
Proof.
  intros [W1 W2] Hs He. unfold ArbpAddReservedCallback.
  destruct (ArbiterLibAddOrdering _ s e w) as [[st rl] w1] eqn:E.
  destruct (add_ordering_outcome _ _ _ _ _ _ _ W2 Hs He E) as [Wr _ _ _].
  destruct (NT_SUCCESS st); [|intros [= <- <-]; by split].
  destruct (ArbpExcludeOrderingRange _ s e w1) as [[st2 ol] w2] eqn:E2. intros [= <- <-].
  split; [|done]. by destruct (exclude_range_outcome _ _ _ _ _ _ _ W1 Hs He E2).
Qed.

(** ArbiterLibDefaultAssignmentOrdering leaves both lists well formed
    whatever the registry holds and whichever pool requests fail: counts match
    the arrays, capacities stay within the cap, every window is a non-empty
    64-bit range.  It fails only when a list cannot be created, and then both
    lists are empty. *)
Theorem default_assignment_ordering_wf unpack translate reg an rn arb w st arb' w' :
  (forall d st mn mx len al,
     unpack d = (st, (mn, mx, len, al)) -> NT_SUCCESS st = true -> is_u64 mn /\ is_u64 mx) ->
  ArbiterLibDefaultAssignmentOrdering unpack translate reg an rn arb w = (st, arb', w') ->
  policy_wf arb' /\
  (NT_SUCCESS st = false ->
   st = STATUS_INSUFFICIENT_RESOURCES /\ ol_list (ar_OrderingList arb') = [] /\
   ol_list (ar_ReservedList arb') = []).
Proof.
  intros Hu. unfold ArbiterLibDefaultAssignmentOrdering.
  destruct (ArbiterLibFreeOrderingList (ar_OrderingList arb) w) as [ol0 w0] eqn:F0.
  injection F0 as <- <-. simpl.
  assert (W0 : ol_wf (mkOrderingList 0 0 None)) by (split; unfold ol_list; simpl; try done; by left).
  destruct (ArbpCreateOrderingList _) as [[st1 ol1] w1] eqn:E1.
  apply create_ordering_spec in E1 as (W1 & L1 & _ & _ & N1).
  destruct (NT_SUCCESS st1) eqn:Es1; simpl.
  2:{ intros [= <- <- <-]. split; [by split|]. intros _. split_and!; try done. by apply N1. }
  destruct (ArbpCreateOrderingList w1) as [[st2 rl2] w2] eqn:E2.
  apply create_ordering_spec in E2 as (W2 & L2 & _ & _ & N2).
  destruct (NT_SUCCESS st2) eqn:Es2; simpl.
  2:{ intros [= <- <- <-]. split; [by split|]. intros _. split_and!; try done. by apply N2. }
  destruct (ArbpForEachRegistryRange _ _ _ ArbpAddOrderingCallback _ _ _ _ _ _)
    as [st3 [arb3 w3]] eqn:E3.
  apply (foreach_range_inv _ _ _ _ _ _ (fun acc => policy_wf acc.1)) in E3 as [-> P3]; auto.
  2:{ intros [a wa] s e Ha Hs He.
      destruct (ArbpAddOrderingCallback (a, wa) s e) as [a' wa'] eqn:Ec.
      by eapply add_ordering_callback_wf in Ec. }
  2:{ by split. }
  destruct (ArbpForEachRegistryRange _ _ _ ArbpAddReservedCallback _ _ _ _ _ _)
    as [st4 [arb4 w4]] eqn:E4.
  apply (foreach_range_inv _ _ _ _ _ _ (fun acc => policy_wf acc.1)) in E4 as [-> P4]; auto.
  2:{ intros [a wa] s e Ha Hs He.
      destruct (ArbpAddReservedCallback (a, wa) s e) as [a' wa'] eqn:Ec.
      by eapply add_reserved_callback_wf in Ec. }
  intros [= <- <- <-]. by split.
Qed.

(** Recording a reserved window keeps reserved and ordering windows
    disjoint: with pool available and room for the fragments, if no reserved
    address was left in an ordering window before the callback, none is after
    it, and the orderings only lose addresses. *)
Theorem add_reserved_callback_clean arb w s e arb' w' :
  policy_wf arb -> is_u64 s -> is_u64 e -> pool_grants w ->
  2 * ol_Count (ar_OrderingList arb) <= ARBITER_ORDERING_LIMIT ->
  reserved_clean arb ->
  ArbpAddReservedCallback (arb, w) s e = (arb', w') ->
  reserved_clean arb' /\
  (forall x, covers (ar_OrderingList arb') x -> covers (ar_OrderingList arb) x).
Proof.
  intros [W1 W2] Hs He G Hroom Hcl. unfold ArbpAddReservedCallback.
  destruct (ArbiterLibAddOrdering _ s e w) as [[st rl] w1] eqn:E.
  pose proof (pool_grants_eq _ _ (add_ordering_pool _ _ _ _ _ _ _ E) G) as G1.
  destruct (add_ordering_outcome _ _ _ _ _ _ _ W2 Hs He E) as [Wr _ Ok Ko].
  destruct (NT_SUCCESS st) eqn:Es.
  2:{ intros [= <- <-]. simpl. rewrite (Ko eq_refl). by split. }
  destruct (Ok eq_refl) as (Hse & Lr & _).
  destruct (ArbpExcludeOrderingRange _ s e w1) as [[st2 ol] w2] eqn:E2. simpl in E2.
  pose proof (exclude_range_succeeds _ _ _ _ _ _ _ W1 Hs He Hse G1 Hroom E2) as S2.
  destruct (exclude_range_outcome _ _ _ _ _ _ _ W1 Hs He E2) as (_ & _ & Ok2 & _).
  destruct (Ok2 S2) as [_ Lo]. intros [= <- <-].
  assert (Ho : forall x, covers ol x <-> covers (ar_OrderingList arb) x /\ ~ in_range x s e).
  { intros x. rewrite !covers_Exists, Lo. by apply concat_hole_covers. }
  split; [|intros x Hx; by apply Ho].
  intros x Hr Hx. simpl in Hr, Hx. apply Ho in Hx as [Hx Hn].
  rewrite covers_Exists, Lr, Exists_app in Hr. destruct Hr as [Hr|Hr].
  - apply (Hcl x); [by rewrite covers_Exists|done].
  - rewrite Exists_cons, Exists_nil in Hr. destruct Hr as [Hr|[]]. done.
Qed.
End PolicyFacts.

(** ** Witnesses *)

#[local] Existing Instance ref_range_list.

Definition sample_unpack (d : IO_RESOURCE_DESCRIPTOR) : NTSTATUS * (Z * Z * Z * Z) :=
  let m := io_Memory d in
  (STATUS_SUCCESS, (u64 (iw_MinimumAddress m), u64 (iw_MaximumAddress m),
                    iw_Length m, iw_Alignment m)).

Definition sample_window (mn mx : Z) : IO_RESOURCE_DESCRIPTOR :=
  let w := mkIoWindow 1 1 mn mx in
  mkIo 0 CmResourceTypeMemory 0 0 w w (mkIoBus 0 0 0) (mkIoInterrupt 0 0 0) no_connection.

(** A policy with one ordering window and one reserved window inside it. *)
Definition sample_registry : registry :=
  mkRegistry (fun _ => STATUS_SUCCESS) (fun _ _ => (STATUS_BUFFER_TOO_SMALL, 100))
    (fun key _ =>
       let d := if String.eqb key "AllocationOrder" then sample_window 0x1000 0xFFFF
                else sample_window 0x2000 0x2FFF in
       (STATUS_SUCCESS, mkValue 28 72 (REG_RESOURCE_REQUIREMENTS_LIST 1 [d]), 100)).

Definition sample_arbiter : ARBITER_INSTANCE :=
  mkArb CmResourceTypeMemory [] [] (mkOrderingList 0 0 None) (mkOrderingList 0 0 None)
    0 [] false false true None None.

Lemma sample_unpack_u64 d st mn mx len al :
  sample_unpack d = (st, (mn, mx, len, al)) -> NT_SUCCESS st = true -> is_u64 mn /\ is_u64 mx.
Proof. intros [= <- <- <- _ _] _. split; apply u64_range. Qed.

Definition sample_policy_run : NTSTATUS * ARBITER_INSTANCE * world :=
  ArbiterLibDefaultAssignmentOrdering sample_unpack None sample_registry "Root" "Root"
    sample_arbiter sample_world.

Lemma default_assignment_ordering_wf_witness :
  sample_policy_run.1.1 = STATUS_SUCCESS /\
  ol_list (ar_OrderingList sample_policy_run.1.2) =
    [mkOrdering 0x1000 0x1FFF; mkOrdering 0x3000 0xFFFF] /\
  policy_wf sample_policy_run.1.2.
Proof.
  split; [vm_compute; reflexivity|]. split; [vm_compute; reflexivity|].
  apply (default_assignment_ordering_wf sample_unpack None sample_registry "Root" "Root"
           sample_arbiter sample_world sample_policy_run.1.1 sample_policy_run.1.2
           sample_policy_run.2 sample_unpack_u64).
  fold sample_policy_run. by destruct sample_policy_run as [[? ?] ?].
Defined.

Definition sample_policy : ARBITER_INSTANCE :=
  ar_set_OrderingList sample_orderings sample_arbiter.

Lemma sample_policy_wf : policy_wf sample_policy.
Proof.
  split; [apply sample_orderings_wf|].
  split; unfold ol_list; simpl; try done. by left.
Qed.

Lemma covers_in ol o x : In o (ol_list ol) -> in_range x (ord_Start o) (ord_End o) -> covers ol x.
Proof. intros Hin Hx. exists o. split; [by apply list_elem_of_In|done]. Qed.

Definition sample_reserve_run : ARBITER_INSTANCE * world :=
  ArbpAddReservedCallback (sample_policy, sample_world) 0x2F8 0x2FF.

Lemma add_reserved_callback_clean_witness :
  reserved_clean sample_reserve_run.1 /\ covers (ar_ReservedList sample_reserve_run.1) 0x2F8.
Proof.
  split.
  - assert (Hc : reserved_clean sample_policy)
      by (intros x (o & Ho & _); by apply not_elem_of_nil in Ho).
    assert (E : sample_reserve_run = (sample_reserve_run.1, sample_reserve_run.2))
      by (by destruct sample_reserve_run).
    assert (G : pool_grants sample_world) by done.
    assert (Hr : 2 * ol_Count (ar_OrderingList sample_policy) <= ARBITER_ORDERING_LIMIT) by done.
    by destruct (add_reserved_callback_clean sample_policy sample_world 0x2F8 0x2FF
             sample_reserve_run.1 sample_reserve_run.2 sample_policy_wf ltac:(done) ltac:(done)
             G Hr Hc E).
  - assert (E : ol_list (ar_ReservedList sample_reserve_run.1) = [mkOrdering 0x2F8 0x2FF])
      by (vm_compute; reflexivity).
    apply (covers_in _ (mkOrdering 0x2F8 0x2FF)); [rewrite E; by left|done].
Defined.

(** A pool that grants one request and then runs dry. *)
Definition starved_world : world := mkWorld (fun _ => 0) (fun n _ => Nat.eqb n 0) 0 0 2.
Definition starved_reserve_run : ARBITER_INSTANCE * world :=
  ArbpAddReservedCallback (sample_policy, starved_world) 0x2F8 0x2FF.

(** The callback drops the status of the pruning step: when the pool
    runs out while the fragments are built, the window is recorded as reserved
    and still stays inside an ordering window. *)
Theorem add_reserved_callback_drops_failure :
  exists w, let arb' := (ArbpAddReservedCallback (sample_policy, w) 0x2F8 0x2FF).1 in
    covers (ar_ReservedList arb') 0x2F8 /\ covers (ar_OrderingList arb') 0x2F8.
Proof.
  exists starved_world. fold starved_reserve_run. split.
  - assert (E : ol_list (ar_ReservedList starved_reserve_run.1) = [mkOrdering 0x2F8 0x2FF])
      by (vm_compute; reflexivity).
    apply (covers_in _ (mkOrdering 0x2F8 0x2FF)); [rewrite E; by left|done].
  - assert (E : ol_list (ar_OrderingList starved_reserve_run.1) = ol_list sample_orderings)
      by (vm_compute; reflexivity).
    apply (covers_in _ (mkOrdering 0x100 0x3FF)); [rewrite E; by left|done].
Qed.
