(* ===== verification/RangeWalk.v ===== *)
(** The range search core: reactos-libs/arbiter/range.c.

    The walker moves a state from one candidate window to the next, the finder
    looks for a free range inside the window, the adder and the backtracker
    write the placement to and remove it from the tentative list.  The walker's
    [for (;;)] is a fuelled loop; [walk_terminates] shows the fuel is enough. *)
From stdpp Require Import base list numbers option strings.
From Stdlib Require Import ZArith Lia Permutation.
From S2P Require Import Prelude NtEnv RangeListRef ArbTypes Ordering.

(** ** Candidate windows *)

(** The windows the array holds, [Orderings[0 .. Count - 1]]. *)
Definition orderings (ol : ARBITER_ORDERING_LIST) : list ARBITER_ORDERING :=
  take (Z.to_nat (ol_Count ol)) (ol_list ol).

(** The scan of ArbpWritePriority from the window at index [idx] on. *)
Fixpoint scan_orderings (os : list ARBITER_ORDERING) (idx : Z) (a : ARBITER_ALTERNATIVE)
  : option Z :=
  match os with
  | [] => None
  | o :: os =>
      if (alt_Maximum a <? ord_Start o) || (ord_End o <? alt_Minimum a)
      then scan_orderings os (idx + 1) a
      else
        let Start := Z.max (alt_Minimum a) (ord_Start o) in
        let RangeEnd := Z.min (alt_Maximum a) (ord_End o) in
        if alt_Length a <=? (RangeEnd -u Start +u 1) then Some idx
        else scan_orderings os (idx + 1) a
  end.

(** The ordering index a priority stands for. *)
Definition priority_index (p : Z) : Z :=
  if p <? 0 then u32 (- (p + 1)) else u32 (p - 1).

Definition alt_preferred (a : ARBITER_ALTERNATIVE) : bool :=
  has_flag (io_Option (alt_Descriptor a)) IO_RESOURCE_PREFERRED.

Definition reserved_priority (a : ARBITER_ALTERNATIVE) : Z :=
  if alt_preferred a then ARBITER_PRIORITY_PREFERRED_RESERVED else ARBITER_PRIORITY_RESERVED.

Definition is_reserved_priority (p : Z) : bool :=
  (p =? ARBITER_PRIORITY_RESERVED) || (p =? ARBITER_PRIORITY_PREFERRED_RESERVED).

(** The outcome of the scan from index [from] written as a priority. *)
Definition write_scan (ol : ARBITER_ORDERING_LIST) (from : Z) (a : ARBITER_ALTERNATIVE)
  : ARBITER_ALTERNATIVE :=
  match scan_orderings (drop (Z.to_nat from) (orderings ol)) from a with
  | Some i => alt_set_Priority (if alt_preferred a then - (i + 1) else i + 1) a
  | None => alt_set_Priority (reserved_priority a) a
  end.

Definition ArbpWritePriority (ol : ARBITER_ORDERING_LIST) (a : ARBITER_ALTERNATIVE)
  : ARBITER_ALTERNATIVE :=
  let p := alt_Priority a in
  if p =? ARBITER_PRIORITY_EXHAUSTED then a
  else if is_reserved_priority p then alt_set_Priority ARBITER_PRIORITY_EXHAUSTED a
  else if p =? ARBITER_PRIORITY_NULL then write_scan ol 0 a
  else if has_flag (alt_Flags a) ARBITER_ALTERNATIVE_FLAG_FIXED then
    alt_set_Priority ARBITER_PRIORITY_EXHAUSTED a
  else if ol_Count ol <=? priority_index p then alt_set_Priority (reserved_priority a) a
  else write_scan ol (priority_index p + 1) a.

(** Advance the alternative last worked on, or seed all on first entry. *)
Definition advance_alternatives (ol : ARBITER_ORDERING_LIST) (cur : option nat)
  (alts : list ARBITER_ALTERNATIVE) : list ARBITER_ALTERNATIVE :=
  match cur with
  | Some i => alter (ArbpWritePriority ol) i alts
  | None => map (fun a => ArbpWritePriority ol (alt_set_Priority ARBITER_PRIORITY_NULL a)) alts
  end.

(** Index of the lowest priority, the first of equals; [i] is the index of the
    head of the list, [best] the best index so far with priority [bp]. *)
Fixpoint lowest_from (alts : list ARBITER_ALTERNATIVE) (i best : nat) (bp : Z) : nat :=
  match alts with
  | [] => best
  | a :: alts => if alt_Priority a <? bp then lowest_from alts (S i) i (alt_Priority a)
                 else lowest_from alts (S i) best bp
  end.

Definition lowest (alts : list ARBITER_ALTERNATIVE) : nat :=
  match alts with
  | [] => 0%nat
  | a :: alts => lowest_from alts 1 0 (alt_Priority a)
  end.

(** Trim a window so that an aligned allocation of the required length fits;
    [None] when none does. *)
Definition trim_window (a : ARBITER_ALTERNATIVE) (mn mx : Z) : option (Z * Z) :=
  if alt_Length a =? 0 then Some (mn, mx)
  else
    let Alignment := if alt_Alignment a =? 0 then 1 else alt_Alignment a in
    let LengthMinusOne := alt_Length a -u 1 in
    let mn := mn +u (Alignment -u 1) in
    let mn := mn -u (mn mod Alignment) in
    if (mx <? mn) || ((mx -u mn) <? LengthMinusOne) then None
    else
      let AlignedMax := mx -u LengthMinusOne in
      let AlignedMax := AlignedMax -u (AlignedMax mod Alignment) in
      if AlignedMax <? mn then None else Some (mn, AlignedMax +u LengthMinusOne).

(** The window an alternative's priority selects, before trimming: [None] when
    the index is past the list. *)
Definition priority_window (ol : ARBITER_ORDERING_LIST) (a : ARBITER_ALTERNATIVE)
  : option (Z * Z) :=
  if is_reserved_priority (alt_Priority a) then Some (alt_Minimum a, alt_Maximum a)
  else
    let Index := priority_index (alt_Priority a) in
    if ol_Count ol <=? Index then None
    else match orderings ol !! Z.to_nat Index with
         | Some o => Some (Z.max (alt_Minimum a) (ord_Start o), Z.min (alt_Maximum a) (ord_End o))
         | None => None
         end.

(** One turn of the walker's loop: a result, or the state to go on with. *)
Definition walk_step (ol : ARBITER_ORDERING_LIST) (st : ARBITER_ALLOCATION_STATE)
  : (bool * ARBITER_ALLOCATION_STATE) + ARBITER_ALLOCATION_STATE :=
  let alts := advance_alternatives ol (st_CurrentAlternative st) (st_Alternatives st) in
  let st := st_set_Alternatives alts st in
  let L := lowest alts in
  match alts !! L with
  | None => inl (false, st)
  | Some Lowest =>
      if alt_Priority Lowest =? ARBITER_PRIORITY_EXHAUSTED then inl (false, st)
      else
        match priority_window ol Lowest with
        | None =>
            inr (st_set_CurrentAlternative (Some L)
                   (st_set_Alternatives
                      (alter (alt_set_Priority ARBITER_PRIORITY_EXHAUSTED) L alts) st))
        | Some (mn, mx) =>
            match trim_window Lowest mn mx with
            | None => inr (st_set_CurrentAlternative (Some L) st)
            | Some (mn, mx) =>
                if negb (mn =? st_CurrentMinimum st) || negb (mx =? st_CurrentMaximum st) ||
                   negb (bool_decide (st_CurrentAlternative st = Some L))
                then inl (true, st_set_CurrentAlternative (Some L) (st_set_window mn mx st))
                else inr (st_set_CurrentAlternative (Some L) st)
            end
        end
  end.

Fixpoint walk (fuel : nat) (ol : ARBITER_ORDERING_LIST) (st : ARBITER_ALLOCATION_STATE)
  : option (bool * ARBITER_ALLOCATION_STATE) :=
  match fuel with
  | O => None
  | S fuel => match walk_step ol st with
              | inl r => Some r
              | inr st => walk fuel ol st
              end
  end.

(** Enough turns: every turn but the first spends one priority of one
    alternative, and an alternative has at most [Count + 3] of them. *)
Definition walk_fuel (ol : ARBITER_ORDERING_LIST) (st : ARBITER_ALLOCATION_STATE) : nat :=
  2 * (S (S (S (length (orderings ol)))) * length (st_Alternatives st)) + 3.

Definition ArbiterLibGetNextAllocationRange (ol : ARBITER_ORDERING_LIST)
  (st : ARBITER_ALLOCATION_STATE) : option (bool * ARBITER_ALLOCATION_STATE) :=
  match st_Alternatives st with
  | [] => Some (false, st)
  | _ => walk (walk_fuel ol st) ol st
  end.

(** ** Sharing a conflicting range *)

Definition ascii_upper (c : Ascii.ascii) : Ascii.ascii :=
  let n := Ascii.nat_of_ascii c in
  if (97 <=? n)%nat && (n <=? 122)%nat then Ascii.ascii_of_nat (n - 32) else c.

Fixpoint string_upper (s : string) : string :=
  match s with
  | EmptyString => EmptyString
  | String c s => String (ascii_upper c) (string_upper s)
  end.

(** [None] when the name cannot be read, else whether it is "ROOT". *)
Definition ArbpReadRootEnumerated (env : device_env) (d : PVOID) : option bool :=
  if d =? NULL then None
  else match dev_enumerator env d with
       | None => None
       | Some name => Some (String.eqb "ROOT" (string_upper name))
       end.

Definition ArbpSharesDriverStack (env : device_env) (a b : PVOID) : bool :=
  existsb (fun da => existsb (fun db => da =? db) (dev_attached env b)) (dev_attached env a).

Section Search.
Context `{R : RtlRangeList}.
Context (env : device_env) (mmconfig : mmconfig_table).

(** [Range] overlaps the window and is not made available by attribute. *)
Definition blocks_window (st : ARBITER_ALLOCATION_STATE) (r : RTL_RANGE) : bool :=
  (rr_Start r <=? st_CurrentMaximum st) && (st_CurrentMinimum st <=? rr_End r) &&
  negb (has_flag (rr_Attributes r) (st_RangeAvailableAttributes st)).

Fixpoint override_loop (rs : list RTL_RANGE) (pdo : PVOID) (st : ARBITER_ALLOCATION_STATE)
  (SelfConflictOnly : bool) : bool * ARBITER_ALLOCATION_STATE :=
  match rs with
  | [] => (SelfConflictOnly, st)
  | r :: rs =>
      if blocks_window st r then
        if negb (rr_Owner r =? pdo) then (false, st)
        else override_loop rs pdo
               (st_set_place (st_CurrentMinimum st) (st_CurrentMaximum st) st) true
      else override_loop rs pdo st SelfConflictOnly
  end.

Definition ArbiterLibOverrideConflict (arb : ARBITER_INSTANCE)
  (ents : list ARBITER_LIST_ENTRY) (st : ARBITER_ALLOCATION_STATE)
  : bool * ARBITER_ALLOCATION_STATE :=
  match st_alt st with
  | None => (false, st)
  | Some a =>
      if negb (has_flag (alt_Flags a) ARBITER_ALTERNATIVE_FLAG_FIXED) then (false, st)
      else if st_owner ents st =? NULL then (false, st)
      else override_loop (rtl_ranges (ar_PossibleAllocation arb)) (st_owner ents st) st false
  end.

(** The walk of ArbpShareDriverExclusive over the tentative ranges. *)
Fixpoint share_loop (rs : list RTL_RANGE) (Requester : PVOID) (share_disposition : Z)
  (st : ARBITER_ALLOCATION_STATE) (RootPathOpen : bool) : bool * ARBITER_ALLOCATION_STATE :=
  match rs with
  | [] => (false, st)
  | r :: rs =>
      if blocks_window st r &&
         ((share_disposition =? CmResourceShareDriverExclusive) ||
          has_flag (rr_Attributes r) ARBITER_RANGE_SHARED_DRIVER) &&
         negb (rr_Owner r =? NULL)
      then
        let '(RootPathOpen, Share) :=
          if RootPathOpen then
            match ArbpReadRootEnumerated env (rr_Owner r) with
            | Some false => (false, false)
            | _ => (true, true)
            end
          else (RootPathOpen, false) in
        let Share := Share || ArbpSharesDriverStack env Requester (rr_Owner r) in
        if Share then
          let st := st_set_place (st_CurrentMinimum st) (st_CurrentMaximum st) st in
          (true, if share_disposition =? CmResourceShareDriverExclusive
                 then st_set_RangeAttributes
                        (set_flag (st_RangeAttributes st) ARBITER_RANGE_SHARED_DRIVER) st
                 else st)
        else share_loop rs Requester share_disposition st RootPathOpen
      else share_loop rs Requester share_disposition st RootPathOpen
  end.

Definition ArbpShareDriverExclusive (arb : ARBITER_INSTANCE) (ents : list ARBITER_LIST_ENTRY)
  (st : ARBITER_ALLOCATION_STATE) : bool * ARBITER_ALLOCATION_STATE :=
  match st_alt st with
  | None => (false, st)
  | Some a =>
      let Requester := st_owner ents st in
      if Requester =? NULL then (false, st)
      else
        let RootPathOpen := default false (ArbpReadRootEnumerated env Requester) in
        share_loop (rtl_ranges (ar_PossibleAllocation arb)) Requester
          (io_ShareDisposition (alt_Descriptor a)) st RootPathOpen
  end.

(** ** Finding, recording and withdrawing a placement *)

Definition legacy_request (ents : list ARBITER_LIST_ENTRY) (st : ARBITER_ALLOCATION_STATE)
  : bool :=
  match st_entry ents st with
  | Some e => bool_decide (ent_RequestSource e = ArbiterRequestLegacyReported) ||
              bool_decide (ent_RequestSource e = ArbiterRequestLegacyAssigned)
  | None => false
  end.

(** The attribute mask and the RtlFindRange flags of a request. *)
Definition find_mask (ents : list ARBITER_LIST_ENTRY) (st : ARBITER_ALLOCATION_STATE)
  (a : ARBITER_ALTERNATIVE) : Z :=
  let m := st_RangeAvailableAttributes st in
  let m := if legacy_request ents st then set_flag m ARBITER_RANGE_BOOT_ALLOCATED else m in
  if has_flag (alt_Flags a) ARBITER_ALTERNATIVE_FLAG_INACCESSIBLE_OK
  then set_flag m ARBITER_RANGE_INACCESSIBLE else m.

Definition find_flags (st : ARBITER_ALLOCATION_STATE) (a : ARBITER_ALTERNATIVE) : Z :=
  let f := if has_flag (st_Flags st) ARBITER_STATE_FLAG_NULL_CONFLICT_OK
           then set_flag 0 RTL_RANGE_LIST_NULL_CONFLICT_OK else 0 in
  if has_flag (alt_Flags a) ARBITER_ALTERNATIVE_FLAG_SHARED
  then set_flag f RTL_RANGE_LIST_SHARED_OK else f.

(** [OverrideConflict] is the instance's slot, [None] for NULL. *)
Definition ArbiterLibFindSuitableRange
  (OverrideConflict : option (ARBITER_INSTANCE -> list ARBITER_LIST_ENTRY ->
     ARBITER_ALLOCATION_STATE -> bool * ARBITER_ALLOCATION_STATE))
  (arb : ARBITER_INSTANCE) (ents : list ARBITER_LIST_ENTRY) (st : ARBITER_ALLOCATION_STATE)
  : bool * ARBITER_INSTANCE * ARBITER_ALLOCATION_STATE :=
  match st_alt st with
  | None => (false, arb, st)
  | Some a =>
      if st_CurrentMaximum st <? st_CurrentMinimum st then (false, arb, st)
      else if alt_Length a =? 0 then
        (true, arb, st_set_place (st_CurrentMinimum st) (st_CurrentMinimum st) st)
      else
        let mask := find_mask ents st a in
        let st := st_set_RangeAvailableAttributes mask st in
        let '(Status, start, slot) :=
          RtlFindRange (ar_PossibleAllocation arb) (st_CurrentMinimum st) (st_CurrentMaximum st)
            (alt_Length a) (Z.max (alt_Alignment a) 1) (find_flags st a) mask
            (ar_ConflictCallbackContext arb) (ar_ConflictCallback arb) in
        let arb := ar_set_slot slot arb in
        if negb (NT_SUCCESS Status) then
          let '(ok, st) := ArbpShareDriverExclusive arb ents st in
          if ok then (true, arb, st)
          else
            let '(ok, st) := match OverrideConflict with
                             | Some f => f arb ents st
                             | None => (false, st)
                             end in
            if ok then (true, arb, st)
            else
              let st := if ArbiterLibIsConflictWithMmConfigRange mmconfig
                             (st_CurrentMinimum st) (st_CurrentMaximum st)
                        then st_set_Flags
                               (set_flag (st_Flags st) ARBITER_STATE_FLAG_MCFG_CONFLICT) st
                        else st in
              (false, arb, st)
        else (true, arb, st_set_place start (start +u alt_Length a -u 1) st)
  end.

Definition ArbiterLibAddAllocation (arb : ARBITER_INSTANCE) (ents : list ARBITER_LIST_ENTRY)
  (st : ARBITER_ALLOCATION_STATE) : ARBITER_INSTANCE :=
  let Flags := RTL_RANGE_LIST_ADD_IF_CONFLICT in
  let Flags := match st_alt st with
               | Some a => if has_flag (alt_Flags a) ARBITER_ALTERNATIVE_FLAG_SHARED
                           then set_flag Flags RTL_RANGE_LIST_ADD_SHARED else Flags
               | None => Flags
               end in
  ar_set_PossibleAllocation
    (RtlAddRange (ar_PossibleAllocation arb) (st_Start st) (st_End st) (st_RangeAttributes st)
       Flags NULL (st_owner ents st)).2 arb.

Definition ArbiterLibBacktrackAllocation (arb : ARBITER_INSTANCE)
  (ents : list ARBITER_LIST_ENTRY) (st : ARBITER_ALLOCATION_STATE)
  : ARBITER_INSTANCE * ARBITER_ALLOCATION_STATE :=
  (ar_set_PossibleAllocation
     (RtlDeleteRange (ar_PossibleAllocation arb) (st_Start st) (st_End st)
        (st_owner ents st)).2 arb, st).
End Search.

(** ** The walker terminates *)

Section WalkMeasure.
Context (ol : ARBITER_ORDERING_LIST) (W : ol_wf ol).

Lemma orderings_eq : orderings ol = ol_list ol.
Proof using W. by apply ol_take_count. Qed.

Lemma orderings_count : ol_Count ol = Z.of_nat (length (orderings ol)).
Proof using W. rewrite orderings_eq. apply (olw_count _ W). Qed.

Lemma orderings_limit : Z.of_nat (length (orderings ol)) <= 1024.
Proof using W.
  rewrite <- orderings_count. pose proof (olw_max _ W). unfold ARBITER_ORDERING_LIMIT in *. lia.
Qed.

(** The passes an alternative has left. *)
Definition rank (a : ARBITER_ALTERNATIVE) : nat :=
  let n := length (orderings ol) in
  let p := alt_Priority a in
  if p =? ARBITER_PRIORITY_EXHAUSTED then 0
  else if is_reserved_priority p then 1
  else if p =? ARBITER_PRIORITY_NULL then n + 3
  else if ol_Count ol <=? priority_index p then 2
  else 2 + (n - Z.to_nat (priority_index p)).

Lemma rank_bound a : (rank a <= length (orderings ol) + 3)%nat.
Proof. unfold rank. repeat case_goal; lia. Qed.

Lemma rank_exhausted a : rank a = 0%nat <-> alt_Priority a = ARBITER_PRIORITY_EXHAUSTED.
Proof. unfold rank. repeat case_goal; bool_prop; split; intros; try done; lia. Qed.

Lemma scan_orderings_range os idx a i :
  scan_orderings os idx a = Some i -> idx <= i < idx + Z.of_nat (length os).
Proof.
  revert idx. induction os as [|o os IH]; simpl; intros idx E; [done|].
  destruct (_ || _); [apply IH in E; lia|].
  destruct (_ <=? _); [simplify_eq; lia|apply IH in E; lia].
Qed.

Lemma priority_index_encode i (pref : bool) :
  0 <= i < 1024 -> priority_index (if pref then - (i + 1) else i + 1) = i.
Proof.
  intros Hi. unfold priority_index. destruct pref.
  - destruct (- (i + 1) <? 0) eqn:E; bool_prop; [|lia]. rewrite u32_small; lia.
  - destruct (i + 1 <? 0) eqn:E; bool_prop; [lia|]. rewrite u32_small; lia.
Qed.

(** An ordinary priority is none of the special ones. *)
Lemma ordinary_priority i (pref : bool) :
  0 <= i < 1024 ->
  let p := if pref then - (i + 1) else i + 1 in
  p <> ARBITER_PRIORITY_EXHAUSTED /\ is_reserved_priority p = false /\
  p <> ARBITER_PRIORITY_NULL.
Proof.
  intros Hi. unfold is_reserved_priority, ARBITER_PRIORITY_EXHAUSTED,
    ARBITER_PRIORITY_RESERVED, ARBITER_PRIORITY_PREFERRED_RESERVED, ARBITER_PRIORITY_NULL.
  simpl. rewrite orb_false_iff, !Z.eqb_neq. destruct pref; lia.
Qed.

Lemma rank_reserved a : rank (alt_set_Priority (reserved_priority a) a) = 1%nat.
Proof. unfold rank, reserved_priority. simpl. by destruct (alt_preferred a). Qed.

(** A scan that starts at [from] leaves at most the passes after [from]. *)
Lemma rank_write_scan from a :
  0 <= from <= Z.of_nat (length (orderings ol)) ->
  (0 < rank (write_scan ol from a) <= 2 + (length (orderings ol) - Z.to_nat from))%nat.
Proof using W.
  intros Hf. unfold write_scan. pose proof orderings_limit as Hlim.
  destruct (scan_orderings _ from a) as [i|] eqn:E; [|rewrite rank_reserved; lia].
  apply scan_orderings_range in E. rewrite length_drop in E.
  assert (Hi : 0 <= i < 1024) by lia.
  destruct (ordinary_priority i (alt_preferred a) Hi) as (N1 & N2 & N3).
  unfold rank. simpl. apply Z.eqb_neq in N1, N3. rewrite N1, N2, N3.
  rewrite priority_index_encode by done.
  destruct (ol_Count ol <=? i) eqn:Ec; bool_prop; [lia|].
  rewrite orderings_count in Ec. lia.
Qed.

Lemma priority_index_nonneg p : 0 <= priority_index p.
Proof. unfold priority_index. destruct (p <? 0); apply u32_range. Qed.

(** Writing a priority spends a pass, unless none is left. *)
Lemma rank_write a :
  (rank a = 0%nat /\ ArbpWritePriority ol a = a) \/
  (rank (ArbpWritePriority ol a) < rank a)%nat.
Proof using W.
  unfold ArbpWritePriority.
  destruct (alt_Priority a =? ARBITER_PRIORITY_EXHAUSTED) eqn:Ex.
  { left. split; [|done]. apply rank_exhausted. by bool_prop. }
  right. assert (Hpos : (0 < rank a)%nat).
  { destruct (rank a) eqn:Er; [|lia]. apply rank_exhausted in Er. bool_prop. done. }
  assert (Hex : rank (alt_set_Priority ARBITER_PRIORITY_EXHAUSTED a) = 0%nat) by done.
  unfold rank at 2. rewrite Ex.
  destruct (is_reserved_priority (alt_Priority a)) eqn:Er; [lia|].
  destruct (alt_Priority a =? ARBITER_PRIORITY_NULL) eqn:En.
  { pose proof (rank_write_scan 0 a ltac:(lia)). lia. }
  destruct (has_flag (alt_Flags a) _); [case_goal; lia|].
  destruct (ol_Count ol <=? priority_index (alt_Priority a)) eqn:Ei; [rewrite rank_reserved; lia|].
  bool_prop. rewrite orderings_count in Ei.
  pose proof (priority_index_nonneg (alt_Priority a)).
  pose proof (rank_write_scan (priority_index (alt_Priority a) + 1) a ltac:(lia)). lia.
Qed.

(** The measure of the loop: the passes left, doubled, and one more turn when
    the current alternative has none to spend. *)
Definition walk_measure (st : ARBITER_ALLOCATION_STATE) : nat :=
  match st_CurrentAlternative st with
  | None => 2 * ((length (orderings ol) + 3) * length (st_Alternatives st)) + 2
  | Some i =>
      2 * list_weight rank (st_Alternatives st) +
      match st_Alternatives st !! i with
      | Some a => if (rank a =? 0)%nat then 1 else 0
      | None => 1
      end
  end.

Lemma walk_measure_fuel st : (walk_measure st < walk_fuel ol st)%nat.
Proof.
  unfold walk_measure, walk_fuel.
  assert (B : (list_weight rank (st_Alternatives st) <=
               (length (orderings ol) + 3) * length (st_Alternatives st))%nat).
  { apply list_weight_bound. apply Forall_forall. intros. apply rank_bound. }
  destruct (st_CurrentAlternative st) as [i|]; [|lia].
  destruct (st_Alternatives st !! i) as [a|]; [destruct (rank a =? 0)%nat|]; lia.
Qed.

Lemma advance_length cur alts : length (advance_alternatives ol cur alts) = length alts.
Proof. destruct cur; simpl; [apply length_alter|apply length_map]. Qed.

Lemma advance_measure st :
  (2 * list_weight rank (advance_alternatives ol (st_CurrentAlternative st) (st_Alternatives st))
   + 1 <= walk_measure st)%nat.
Proof using W.
  unfold walk_measure, advance_alternatives. destruct (st_CurrentAlternative st) as [i|].
  - destruct (st_Alternatives st !! i) as [a|] eqn:Ea.
    + pose proof (list_weight_alter rank (ArbpWritePriority ol) _ _ _ Ea) as Hw.
      destruct (rank_write a) as [[H0 He]|Hlt].
      * rewrite He in Hw. rewrite H0. simpl. lia.
      * destruct (rank a =? 0)%nat; lia.
    + rewrite list_alter_none by done. lia.
  - assert (Hb : Forall (fun a => (rank a <= length (orderings ol) + 3)%nat)
      (map (fun a => ArbpWritePriority ol (alt_set_Priority ARBITER_PRIORITY_NULL a))
         (st_Alternatives st))) by (apply Forall_forall; intros; apply rank_bound).
    apply list_weight_bound in Hb. rewrite length_map in Hb. lia.
Qed.

Lemma walk_measure_current st i a :
  st_CurrentAlternative st = Some i -> st_Alternatives st !! i = Some a ->
  alt_Priority a <> ARBITER_PRIORITY_EXHAUSTED ->
  walk_measure st = (2 * list_weight rank (st_Alternatives st))%nat.
Proof.
  intros Hi Ha Hp. unfold walk_measure. rewrite Hi, Ha.
  destruct (rank a =? 0)%nat eqn:E; [|lia].
  apply Nat.eqb_eq, rank_exhausted in E. done.
Qed.

(** Every turn of the loop lowers the measure, and so does every window found. *)
Lemma walk_step_measure st :
  match walk_step ol st with
  | inl (true, st') => (walk_measure st' < walk_measure st)%nat
  | inl (false, _) => True
  | inr st' => (walk_measure st' < walk_measure st)%nat
  end.
Proof using W.
  pose proof (advance_measure st) as Hadv. unfold walk_step.
  set (alts := advance_alternatives ol _ _) in *.
  destruct (alts !! lowest alts) as [a|] eqn:Ea; [|done].
  destruct (alt_Priority a =? ARBITER_PRIORITY_EXHAUSTED) eqn:Ex; [done|]. bool_prop.
  destruct (priority_window ol a) as [[mn mx]|].
  - destruct (trim_window a mn mx) as [[mn' mx']|]; [case_goal|].
    all: erewrite walk_measure_current; simpl; [lia|done|done|done].
  - unfold walk_measure at 1. simpl. rewrite list_lookup_alter, decide_True by done.
    rewrite Ea. simpl.
    pose proof (list_weight_alter rank (alt_set_Priority ARBITER_PRIORITY_EXHAUSTED) _ _ _ Ea) as Hw.
    assert (rank (alt_set_Priority ARBITER_PRIORITY_EXHAUSTED a) = 0%nat) as H0 by done.
    assert (rank a <> 0%nat) by (rewrite rank_exhausted; done). lia.
Qed.

Lemma walk_enough fuel st :
  (walk_measure st < fuel)%nat ->
  exists b st', walk fuel ol st = Some (b, st') /\
    (b = true -> (walk_measure st' < walk_measure st)%nat).
Proof using W.
  revert st. induction fuel as [|fuel IH]; intros st Hf; [lia|]. simpl.
  pose proof (walk_step_measure st) as Hs. destruct (walk_step ol st) as [[b st']|st1].
  - exists b, st'. split; [done|]. by intros ->.
  - destruct (IH st1 ltac:(lia)) as (b & st' & E & Hm). exists b, st'. split; [done|].
    intros Hb. specialize (Hm Hb). lia.
Qed.
End WalkMeasure.

(** The lowest priority wins, the first alternative among equals. *)
Lemma lowest_from_spec alts i best bp :
  let k := lowest_from alts i best bp in
  (k = best /\ Forall (fun a => bp <= alt_Priority a) alts) \/
  (exists j a, k = (i + j)%nat /\ alts !! j = Some a /\ alt_Priority a < bp /\
     Forall (fun b => alt_Priority a <= alt_Priority b) alts).
Proof.
  revert i best bp. induction alts as [|a alts IH]; simpl; intros i best bp; [by left|].
  destruct (alt_Priority a <? bp) eqn:E; bool_prop.
  - right. destruct (IH (S i) i (alt_Priority a)) as [[-> HF]|(j & b & -> & Hj & Hlt & HF)].
    + exists 0%nat, a. split_and!; try done; try lia. constructor; [lia|done].
    + exists (S j), b. split_and!; try done; try lia. constructor; [lia|done].
  - destruct (IH (S i) best bp) as [[-> HF]|(j & b & -> & Hj & Hlt & HF)].
    + left. split; [done|]. constructor; [lia|done].
    + right. exists (S j), b. split_and!; try done; try lia. constructor; [lia|done].
Qed.

Lemma lowest_spec alts :
  alts <> [] ->
  exists a, alts !! lowest alts = Some a /\
    Forall (fun b => alt_Priority a <= alt_Priority b) alts.
Proof.
  destruct alts as [|a alts]; [done|]. intros _. simpl.
  destruct (lowest_from_spec alts 1 0 (alt_Priority a)) as [[-> HF]|(j & b & -> & Hj & Hlt & HF)].
  - exists a. split; [done|]. constructor; [lia|done].
  - exists b. split; [done|]. constructor; [lia|done].
Qed.

(** ** The window is the right one *)

(** The alignment a placement must have. *)
Definition alt_align (a : ARBITER_ALTERNATIVE) : Z :=
  if alt_Alignment a =? 0 then 1 else alt_Alignment a.

(** A requirement in 64-bit range whose bounds can be rounded up to its
    alignment without leaving the 64-bit space. *)
Definition alt_wf (a : ARBITER_ALTERNATIVE) : Prop :=
  is_u64 (alt_Minimum a) /\ is_u64 (alt_Maximum a) /\ is_u64 (alt_Length a) /\
  0 <= alt_Alignment a /\
  Z.max (alt_Minimum a) (alt_Maximum a) + alt_align a - 1 <= ULONGLONG_MAX.

Lemma alt_align_pos a : 0 <= alt_Alignment a -> 0 < alt_align a.
Proof. unfold alt_align. destruct (_ =? 0) eqn:E; bool_prop; lia. Qed.

Lemma mod_sub_nowrap x a : 0 < a -> is_u64 x -> x -u (x mod a) = align_down x a.
Proof.
  intros Ha Hx. pose proof (align_down_le x a Ha). pose proof (align_down_nonneg x a Ha).
  apply sub64_small. unfold align_down, is_u64 in *. lia.
Qed.

(** A placement of [a] at [s] inside [mn, mx]. *)
Definition placement_in (a : ARBITER_ALTERNATIVE) (mn mx s : Z) : Prop :=
  s mod alt_align a = 0 /\ mn <= s /\ s + alt_Length a - 1 <= mx.

(** Trimming computes the tightest window: its lowest and highest aligned
    placements, with no placement lost. *)
Lemma trim_window_spec a mn mx :
  0 <= alt_Alignment a -> is_u64 (alt_Length a) -> alt_Length a <> 0 ->
  0 <= mn -> is_u64 mx -> mn + alt_align a - 1 <= ULONGLONG_MAX ->
  match trim_window a mn mx with
  | Some (mn', mx') =>
      mn <= mn' /\ mx' <= mx /\ placement_in a mn' mx' mn' /\
      placement_in a mn' mx' (mx' - alt_Length a + 1) /\
      forall s, placement_in a mn mx s -> placement_in a mn' mx' s
  | None => forall s, ~ placement_in a mn mx s
  end.
Proof.
  intros Hal Hlen Hne Hmn Hmx Hw. unfold trim_window, placement_in. fold (alt_align a).
  pose proof (alt_align_pos a Hal) as Hpos. set (A := alt_align a) in *.
  apply Z.eqb_neq in Hne as Hne'. rewrite Hne'. unfold is_u64, ULONGLONG_MAX in *.
  rewrite (sub64_small (alt_Length a) 1), (sub64_small A 1), (add64_small mn)
    by (unfold is_u64, ULONGLONG_MAX; lia).
  rewrite (mod_sub_nowrap (mn + (A - 1))) by (unfold is_u64, ULONGLONG_MAX; lia).
  pose proof (align_down_gt (mn + (A - 1)) A Hpos) as Hgt.
  pose proof (align_down_le (mn + (A - 1)) A Hpos) as Hle.
  pose proof (align_down_aligned (mn + (A - 1)) A Hpos) as Hmod.
  set (mn' := align_down (mn + (A - 1)) A) in *.
  assert (Hlow : forall s, s mod A = 0 -> mn <= s -> mn' <= s).
  { intros s Hs Hge. apply (aligned_gap A); try done. lia. }
  destruct ((mx <? mn') || _) eqn:E1.
  { intros s (Hs & Hge & Hend). specialize (Hlow s Hs Hge).
    apply orb_prop in E1 as [E1|E1]; bool_prop; [lia|].
    rewrite sub64_small in E1 by (unfold is_u64, ULONGLONG_MAX; lia). lia. }
  bool_prop. rewrite (sub64_small mx mn') in * by (unfold is_u64, ULONGLONG_MAX; lia).
  rewrite (sub64_small mx) by (unfold is_u64, ULONGLONG_MAX; lia).
  rewrite mod_sub_nowrap by (unfold is_u64, ULONGLONG_MAX; lia).
  pose proof (align_down_le (mx - (alt_Length a - 1)) A Hpos) as Hale.
  pose proof (align_down_aligned (mx - (alt_Length a - 1)) A Hpos) as Hamod.
  pose proof (align_down_nonneg (mx - (alt_Length a - 1)) A Hpos ltac:(lia)) as Hann.
  assert (Hhigh : forall s, s mod A = 0 -> s + alt_Length a - 1 <= mx ->
                            s <= align_down (mx - (alt_Length a - 1)) A).
  { intros s Hs Hle'. apply align_down_max; [done|done|lia]. }
  set (am := align_down (mx - (alt_Length a - 1)) A) in *.
  destruct (am <? mn') eqn:E2; bool_prop.
  { intros s (Hs & Hge & Hend). specialize (Hlow s Hs Hge). specialize (Hhigh s Hs Hend). lia. }
  rewrite add64_small by (unfold is_u64, ULONGLONG_MAX; lia).
  replace (am + (alt_Length a - 1) - alt_Length a + 1) with am by lia.
  split_and!; try done; try lia.
  intros s (Hs & Hge & Hend). specialize (Hlow s Hs Hge). specialize (Hhigh s Hs Hend).
  split_and!; [done|lia|lia].
Qed.

(** *** The walker's invariant *)

Definition ordinary (p : Z) : Prop :=
  p <> ARBITER_PRIORITY_EXHAUSTED /\ is_reserved_priority p = false /\
  p <> ARBITER_PRIORITY_NULL.

(** A priority is an INT32, and an ordinary one names an ordering window that
    meets the requirement. *)
Definition prio_ok (ol : ARBITER_ORDERING_LIST) (a : ARBITER_ALTERNATIVE) : Prop :=
  alt_Priority a <= ARBITER_PRIORITY_EXHAUSTED /\
  forall o, ordinary (alt_Priority a) ->
    orderings ol !! Z.to_nat (priority_index (alt_Priority a)) = Some o ->
    ord_Start o <= alt_Maximum a /\ alt_Minimum a <= ord_End o.

(** The requirement behind an alternative: everything but its priority. *)
Definition alt_req (a : ARBITER_ALTERNATIVE) : ARBITER_ALTERNATIVE := alt_set_Priority 0 a.

Definition walk_inv (ol : ARBITER_ORDERING_LIST) (st : ARBITER_ALLOCATION_STATE) : Prop :=
  Forall alt_wf (st_Alternatives st) /\
  (st_CurrentAlternative st = None \/ Forall (prio_ok ol) (st_Alternatives st)).

(** What the walker leaves alone. *)
Record walk_frame (st st' : ARBITER_ALLOCATION_STATE) : Prop := {
  wfr_entry : st_Entry st' = st_Entry st;
  wfr_flags : st_Flags st' = st_Flags st;
  wfr_attrs : st_RangeAttributes st' = st_RangeAttributes st;
  wfr_avail : st_RangeAvailableAttributes st' = st_RangeAvailableAttributes st;
  wfr_ws : st_WorkSpace st' = st_WorkSpace st;
  wfr_start : st_Start st' = st_Start st;
  wfr_end : st_End st' = st_End st;
  wfr_reqs : map alt_req (st_Alternatives st') = map alt_req (st_Alternatives st)
}.

Lemma walk_frame_refl st : walk_frame st st.
Proof. by split. Qed.

Lemma walk_frame_trans st1 st2 st3 :
  walk_frame st1 st2 -> walk_frame st2 st3 -> walk_frame st1 st3.
Proof. intros [] []. split; congruence. Qed.

Lemma alt_req_set p a : alt_req (alt_set_Priority p a) = alt_req a.
Proof. done. Qed.

Lemma alt_wf_req a b : alt_req a = alt_req b -> alt_wf a -> alt_wf b.
Proof. destruct a, b. unfold alt_req, alt_wf, alt_align. simpl. intros [= -> -> -> -> -> ->]. done. Qed.

Lemma Forall_alt_wf_reqs alts alts' :
  map alt_req alts' = map alt_req alts -> Forall alt_wf alts -> Forall alt_wf alts'.
Proof.
  intros E H. revert alts' E. induction H as [|a alts Ha H IH]; intros [|b alts'] E; try done.
  simpl in E. assert (E1 : alt_req b = alt_req a) by congruence.
  constructor; [by eapply alt_wf_req|]. apply IH. congruence.
Qed.

Lemma write_scan_req ol from a : alt_req (write_scan ol from a) = alt_req a.
Proof. unfold write_scan. destruct (scan_orderings _ _ _); [|done]. by rewrite alt_req_set. Qed.

Lemma write_priority_req ol a : alt_req (ArbpWritePriority ol a) = alt_req a.
Proof.
  unfold ArbpWritePriority. repeat case_goal; rewrite ?alt_req_set, ?write_scan_req; done.
Qed.

Lemma map_alter_req f i alts :
  (forall a, alt_req (f a) = alt_req a) ->
  map alt_req (alter f i alts) = map alt_req alts.
Proof.
  intros Hf. revert i. induction alts as [|a alts IH]; intros [|i]; simpl; try done.
  - by rewrite Hf.
  - f_equal. apply IH.
Qed.

Lemma advance_reqs ol cur alts :
  map alt_req (advance_alternatives ol cur alts) = map alt_req alts.
Proof.
  destruct cur; simpl; [apply map_alter_req; intros; apply write_priority_req|].
  rewrite map_map. apply map_ext. intros. by rewrite write_priority_req.
Qed.

Lemma scan_orderings_meets os idx a i :
  scan_orderings os idx a = Some i ->
  exists o, os !! Z.to_nat (i - idx) = Some o /\
    ord_Start o <= alt_Maximum a /\ alt_Minimum a <= ord_End o.
Proof.
  revert idx. induction os as [|o os IH]; simpl; intros idx E; [done|].
  assert (Hrec : scan_orderings os (idx + 1) a = Some i ->
    exists o', (o :: os) !! Z.to_nat (i - idx) = Some o' /\
      ord_Start o' <= alt_Maximum a /\ alt_Minimum a <= ord_End o').
  { intros E'. pose proof (scan_orderings_range _ _ _ _ E').
    destruct (IH _ E') as (o' & Ho & Hm). exists o'. split; [|done].
    replace (Z.to_nat (i - idx)) with (S (Z.to_nat (i - (idx + 1)))) by lia. done. }
  destruct (_ || _) eqn:Eo; [auto|]. destruct (_ <=? _); [|auto]. simplify_eq. bool_prop.
  exists o. replace (i - i) with 0 by lia. split_and!; [done|lia|lia].
Qed.

Section WalkCorrect.
Context (ol : ARBITER_ORDERING_LIST) (W : ol_wf ol).

Lemma special_prio_ok p a :
  p = ARBITER_PRIORITY_EXHAUSTED \/ is_reserved_priority p = true ->
  prio_ok ol (alt_set_Priority p a).
Proof.
  intros Hp. split; [|intros o (H1 & H2 & _); simpl in *; destruct Hp; congruence].
  simpl. unfold is_reserved_priority, ARBITER_PRIORITY_EXHAUSTED, ARBITER_PRIORITY_RESERVED,
    ARBITER_PRIORITY_PREFERRED_RESERVED in *. destruct Hp; bool_prop; lia.
Qed.

Lemma reserved_prio_ok a : prio_ok ol (alt_set_Priority (reserved_priority a) a).
Proof. apply special_prio_ok. right. unfold reserved_priority. by destruct (alt_preferred a). Qed.

Lemma write_scan_ok from a : 0 <= from -> prio_ok ol (write_scan ol from a).
Proof using W.
  intros Hf. unfold write_scan. pose proof (orderings_limit ol W) as Hlim.
  destruct (scan_orderings _ from a) as [i|] eqn:E; [|apply reserved_prio_ok].
  pose proof (scan_orderings_range _ _ _ _ E) as Hr. rewrite length_drop in Hr.
  split; [simpl; unfold ARBITER_PRIORITY_EXHAUSTED; destruct (alt_preferred a); lia|].
  intros o _ Ho. simpl in *. rewrite priority_index_encode in Ho by lia.
  destruct (scan_orderings_meets _ _ _ _ E) as (o' & Ho' & Hm).
  rewrite lookup_drop in Ho'.
  replace (Z.to_nat from + Z.to_nat (i - from))%nat with (Z.to_nat i) in Ho' by lia.
  by simplify_eq.
Qed.

Lemma write_priority_ok a : prio_ok ol (ArbpWritePriority ol a).
Proof using W.
  unfold ArbpWritePriority.
  destruct (alt_Priority a =? ARBITER_PRIORITY_EXHAUSTED) eqn:Ex.
  { bool_prop. split; [lia|]. intros o [H _]. done. }
  destruct (is_reserved_priority _); [apply special_prio_ok; by left|].
  destruct (_ =? ARBITER_PRIORITY_NULL); [by apply write_scan_ok|].
  destruct (has_flag _ _); [apply special_prio_ok; by left|].
  destruct (_ <=? _); [apply reserved_prio_ok|].
  apply write_scan_ok. pose proof (priority_index_nonneg (alt_Priority a)). lia.
Qed.

Lemma advance_prio_ok cur alts :
  cur = None \/ Forall (prio_ok ol) alts ->
  Forall (prio_ok ol) (advance_alternatives ol cur alts).
Proof using W.
  intros H. destruct cur as [i|]; simpl.
  - destruct H as [?|H]; [done|]. apply Forall_alter; [done|].
    intros a _ _. apply write_priority_ok.
  - apply Forall_map, Forall_true. intros. apply write_priority_ok.
Qed.

(** The window a priority selects lies in the requirement, starts where it can
    be aligned, and, for an ordinary priority, inside an ordering window. *)
Lemma priority_window_spec a mn mx :
  alt_wf a -> prio_ok ol a -> alt_Priority a <> ARBITER_PRIORITY_EXHAUSTED ->
  priority_window ol a = Some (mn, mx) ->
  alt_Minimum a <= mn /\ mx <= alt_Maximum a /\ 0 <= mn /\ is_u64 mx /\
  mn + alt_align a - 1 <= ULONGLONG_MAX /\
  (is_reserved_priority (alt_Priority a) = true \/
   exists o, o ∈ ol_list ol /\ ord_Start o <= mn /\ mx <= ord_End o).
Proof using W.
  intros (H1 & H2 & H3 & H4 & H5) Hok Hne. unfold priority_window.
  unfold is_u64, ULONGLONG_MAX in *.
  destruct (is_reserved_priority (alt_Priority a)) eqn:Er.
  { intros [= <- <-]. split_and!; first [lia | by left]. }
  destruct (_ <=? _) eqn:Ei; [done|].
  assert (Hnn : alt_Priority a <> ARBITER_PRIORITY_NULL).
  { intros E. rewrite E in Ei. bool_prop. pose proof (olw_max _ W) as Hm.
    change (priority_index ARBITER_PRIORITY_NULL) with 4294967295 in Ei.
    unfold ARBITER_ORDERING_LIMIT in Hm. lia. }
  destruct (orderings ol !! _) as [o|] eqn:Eo; [|done]. intros [= <- <-].
  destruct (proj2 Hok o) as [Hs He]; [done|done|].
  rewrite (orderings_eq ol W) in Eo.
  assert (Ho : ord_wf o) by (eapply Forall_lookup_1; [apply (olw_windows _ W)|done]).
  destruct Ho as (O1 & O2 & O3). unfold is_u64, ULONGLONG_MAX in *.
  split_and!; try lia. right. exists o. split_and!; [|lia|lia]. by eapply list_elem_of_lookup_2.
Qed.

(** What a TRUE answer promises: the window lies in the requirement, both its
    ends carry an aligned placement of the required length, and it is either
    the whole-window pass or inside one ordering window. *)
Definition window_ok (st : ARBITER_ALLOCATION_STATE) : Prop :=
  exists a, st_alt st = Some a /\ alt_Priority a <> ARBITER_PRIORITY_EXHAUSTED /\
    let mn := st_CurrentMinimum st in
    let mx := st_CurrentMaximum st in
    alt_Minimum a <= mn /\ 0 <= mx <= alt_Maximum a /\
    (alt_Length a <> 0 ->
     placement_in a mn mx mn /\ placement_in a mn mx (mx - alt_Length a + 1)) /\
    (is_reserved_priority (alt_Priority a) = true \/
     exists o, o ∈ ol_list ol /\ ord_Start o <= mn /\ mx <= ord_End o).

Lemma walk_step_correct st :
  walk_inv ol st ->
  match walk_step ol st with
  | inl (true, st') => walk_inv ol st' /\ walk_frame st st' /\ window_ok st'
  | inl (false, st') =>
      walk_frame st st' /\
      Forall (fun a => alt_Priority a = ARBITER_PRIORITY_EXHAUSTED) (st_Alternatives st')
  | inr st' => walk_inv ol st' /\ walk_frame st st'
  end.
Proof using W.
  intros [Hwf Hok]. unfold walk_step.
  pose proof (advance_reqs ol (st_CurrentAlternative st) (st_Alternatives st)) as Hreq.
  apply advance_prio_ok in Hok.
  set (alts := advance_alternatives ol _ _) in *.
  assert (Hawf : Forall alt_wf alts) by by eapply Forall_alt_wf_reqs.
  assert (Hfr : forall st', st_Alternatives st' = alts ->
    st' = st_set_Alternatives alts st -> walk_frame st st').
  { intros st' _ ->. by split. }
  destruct (decide (alts = [])) as [->|Hne].
  { split; [by apply Hfr|]. constructor. }
  destruct (lowest_spec alts Hne) as (a & Ea & Hmin). rewrite Ea.
  assert (Ha : alt_wf a) by by eapply Forall_lookup_1.
  assert (Hp : prio_ok ol a) by by eapply Forall_lookup_1.
  destruct (alt_Priority a =? ARBITER_PRIORITY_EXHAUSTED) eqn:Ex; bool_prop.
  { split; [by apply Hfr|]. simpl. apply Forall_forall. intros b Hb.
    rewrite Forall_forall in Hmin, Hok. specialize (Hmin b Hb). destruct (Hok b Hb) as [Hle _]. lia. }
  destruct (priority_window ol a) as [[mn mx]|] eqn:Ew.
  2:{ split.
      - split; simpl.
        + eapply Forall_alt_wf_reqs; [|done]. by apply map_alter_req.
        + right. apply Forall_alter; [done|]. intros b _ _. apply special_prio_ok. by left.
      - split; try done. simpl. rewrite <- Hreq. by apply map_alter_req. }
  assert (Hgo : walk_inv ol (st_set_CurrentAlternative (Some (lowest alts))
                               (st_set_Alternatives alts st)) /\
                walk_frame st (st_set_CurrentAlternative (Some (lowest alts))
                               (st_set_Alternatives alts st))).
  { split; [by split; [|right]|by split]. }
  destruct (trim_window a mn mx) as [[mn' mx']|] eqn:Et; [|done].
  destruct (_ || _); [|done].
  split; [by split; [|right]|]. split; [by split|].
  exists a. unfold st_alt. simpl. split; [done|]. split; [done|].
  apply priority_window_spec in Ew as (W1 & W2 & W3 & W4 & W5 & W6); try done.
  destruct Ha as (A1 & A2 & A3 & A4 & A5).
  destruct (decide (alt_Length a = 0)) as [E0|E0].
  - unfold trim_window in Et. rewrite E0 in Et. simpl in Et. simplify_eq.
    unfold is_u64 in W4. by split_and!; try lia.
  - pose proof (trim_window_spec a mn mx A4 A3 E0 W3 W4 W5) as Ht. rewrite Et in Ht.
    destruct Ht as (T1 & T2 & T3 & T4 & _). unfold placement_in, is_u64 in *.
    split_and!; try lia; try done.
    destruct W6 as [?|(o & Ho & Hs & He)]; [by left|right]. exists o. split_and!; [done|lia|lia].
Qed.

Lemma walk_correct fuel st b st' :
  walk_inv ol st -> walk fuel ol st = Some (b, st') ->
  walk_frame st st' /\
  if b then walk_inv ol st' /\ window_ok st'
  else Forall (fun a => alt_Priority a = ARBITER_PRIORITY_EXHAUSTED) (st_Alternatives st').
Proof using W.
  revert st. induction fuel as [|fuel IH]; simpl; intros st Hi E; [done|].
  pose proof (walk_step_correct st Hi) as Hs.
  destruct (walk_step ol st) as [[b1 st1]|st1].
  - simplify_eq. destruct b; [by destruct Hs as (? & ? & ?)|done].
  - destruct Hs as [Hi1 Hf1]. destruct (IH _ Hi1 E) as [Hf Hb].
    split; [by eapply walk_frame_trans|done].
Qed.
End WalkCorrect.

Lemma get_next_range_terminates_aux ol st :
  ol_wf ol ->
  exists b st', ArbiterLibGetNextAllocationRange ol st = Some (b, st') /\
    (b = true -> (walk_measure ol st' < walk_measure ol st)%nat).
Proof.
  intros W. unfold ArbiterLibGetNextAllocationRange.
  destruct (st_Alternatives st) eqn:E; [by exists false, st|].
  apply walk_enough; [done|]. apply walk_measure_fuel.
Qed.

Lemma get_next_range_outcome ol st b st' :
  ol_wf ol -> walk_inv ol st ->
  ArbiterLibGetNextAllocationRange ol st = Some (b, st') ->
  walk_frame st st' /\
  if b then walk_inv ol st' /\ window_ok ol st'
  else Forall (fun a => alt_Priority a = ARBITER_PRIORITY_EXHAUSTED) (st_Alternatives st').
Proof.
  intros W Hi. unfold ArbiterLibGetNextAllocationRange.
  destruct (st_Alternatives st) as [|a alts] eqn:E.
  - intros [= <- <-]. split; [apply walk_frame_refl|]. rewrite E. constructor.
  - by apply walk_correct.
Qed.

(** ** Properties of the walker *)

(** C34.  ArbiterLibGetNextAllocationRange always returns: its loop ends within
    the fuel the definition gives it, and every TRUE answer strictly lowers
    [walk_measure], so a state can be offered only finitely many windows. *)
Theorem get_next_range_terminates ol st :
  ol_wf ol ->
  exists b st', ArbiterLibGetNextAllocationRange ol st = Some (b, st') /\
    (b = true -> (walk_measure ol st' < walk_measure ol st)%nat).
Proof. apply get_next_range_terminates_aux. Qed.

(** C35.  At the start of a walk over a well-formed ordering list and wherever the walk
    gets, when every alternative's bounds stay within 64 bits rounded up to its
    alignment, a TRUE answer of ArbiterLibGetNextAllocationRange names a
    window that lies inside the requirement of the alternative it selects, whose two
    ends both carry an aligned placement of the required length, and which is
    either the alternative's last, whole-window pass or contained in one
    ordering window; nothing but window, alternative and priorities changes.
    A FALSE answer means every alternative is exhausted.  (An alternative that
    wraps when it is rounded is another matter: [get_next_range_alignment_wraps].) *)
Theorem get_next_range_correct ol st b st' :
  ol_wf ol -> walk_inv ol st ->
  ArbiterLibGetNextAllocationRange ol st = Some (b, st') ->
  walk_frame st st' /\
  if b then walk_inv ol st' /\ window_ok ol st'
  else Forall (fun a => alt_Priority a = ARBITER_PRIORITY_EXHAUSTED) (st_Alternatives st').
Proof. apply get_next_range_outcome. Qed.

(** Whole-window requirements used in the witnesses. *)
Definition sample_alt (mn mx len al : Z) : ARBITER_ALTERNATIVE :=
  mkAlt mn mx len al ARBITER_PRIORITY_NULL 0 (sample_window mn mx).
Definition sample_state (alts : list ARBITER_ALTERNATIVE) : ARBITER_ALLOCATION_STATE :=
  mkState 1 0 0 0 (Some 0%nat) None alts 0 0 0 0.

Lemma get_next_range_terminates_witness :
  exists b st', ArbiterLibGetNextAllocationRange sample_orderings
                  (sample_state [sample_alt 0 0xFFFF 0x20 0x10]) = Some (b, st') /\ b = true.
Proof.
  destruct (get_next_range_terminates sample_orderings
              (sample_state [sample_alt 0 0xFFFF 0x20 0x10]) sample_orderings_wf)
    as (b & st' & E & _).
  exists b, st'. split; [done|]. vm_compute in E. by injection E as <- _.
Defined.

Lemma get_next_range_correct_witness :
  exists st', ArbiterLibGetNextAllocationRange sample_orderings
                (sample_state [sample_alt 0x108 0xFFFF 0x20 0x10]) = Some (true, st') /\
    st_CurrentMinimum st' = 0x110 /\ st_CurrentMaximum st' = 0x3FF /\ window_ok sample_orderings st'.
Proof.
  destruct (ArbiterLibGetNextAllocationRange sample_orderings
              (sample_state [sample_alt 0x108 0xFFFF 0x20 0x10])) as [[b st']|] eqn:E;
    [|by vm_compute in E].
  assert (Hi : walk_inv sample_orderings (sample_state [sample_alt 0x108 0xFFFF 0x20 0x10])).
  { split; [|by left]. repeat constructor; done. }
  pose proof (get_next_range_correct sample_orderings _ b st' sample_orderings_wf Hi E) as [_ Hb].
  assert (Hv : b = true /\ st_CurrentMinimum st' = 0x110 /\ st_CurrentMaximum st' = 0x3FF).
  { vm_compute in E. by injection E as <- <-. }
  destruct Hv as (-> & H1 & H2). exists st'. split_and!; try done. by destruct Hb.
Defined.

(** Rounding the window's lower bound up to the alignment wraps at the
    top of the 64-bit space: a requirement for 0x100 bytes aligned to 0x1000 in
    the last 0x800 bytes has no placement, yet the walker offers it a window
    that starts at address 0 and ends below the requirement's minimum. *)
Theorem get_next_range_alignment_wraps :
  exists st' a,
    ArbiterLibGetNextAllocationRange (mkOrderingList 0 0 None)
      (sample_state [sample_alt 0xFFFFFFFFFFFFF800 ULONGLONG_MAX 0x100 0x1000])
      = Some (true, st') /\
    st_alt st' = Some a /\ st_CurrentMinimum st' = 0 /\
    st_CurrentMaximum st' < alt_Minimum a /\
    forall s, ~ placement_in a (alt_Minimum a) (alt_Maximum a) s.
Proof.
  eexists. eexists. split; [vm_compute; reflexivity|]. split; [vm_compute; reflexivity|].
  split; [done|]. split; [done|].
  intros s (Hm & Hlo & Hhi). unfold alt_align in Hm. simpl in Hm, Hlo, Hhi.
  pose proof (aligned_gap 0x1000 s 0x10000000000000000 ltac:(lia) Hm eq_refl ltac:(lia)). lia.
Qed.

(** ** Properties of the finder *)

Section FindFacts.
Context `{R : RtlRangeList} {L : RtlRangeListLaws R}.
Context (env : device_env) (mmconfig : mmconfig_table).

(** The window and the mask survive a placement, so the same ranges block. *)
Lemma blocks_window_place s e st r : blocks_window (st_set_place s e st) r = blocks_window st r.
Proof. done. Qed.

Lemma override_loop_spec rs pdo st self b st' :
  override_loop rs pdo st self = (b, st') ->
  (b = true <->
   Forall (fun r => blocks_window st r = true -> rr_Owner r = pdo) rs /\
   (self = true \/ Exists (fun r => blocks_window st r = true) rs)).
Proof.
  revert st self. induction rs as [|r rs IH]; simpl; intros st self E.
  - simplify_eq. rewrite Exists_nil. split; [auto using Forall_nil|]. by intros [_ [?|[]]].
  - rewrite Forall_cons, Exists_cons. destruct (blocks_window st r) eqn:Eb.
    + destruct (rr_Owner r =? pdo) eqn:Eo; simpl in E; bool_prop.
      * apply IH in E.
        change (b = true <-> Forall (fun r => blocks_window st r = true -> rr_Owner r = pdo) rs /\
                (true = true \/ Exists (fun r => blocks_window st r = true) rs)) in E.
        rewrite E. split; [intros [HF _]|intros [[_ HF] _]; by split; [|left]].
        split; [by split|right; by left].
      * simplify_eq. split; [done|]. intros [[H _] _]. by specialize (H eq_refl).
    + apply IH in E. rewrite E. split.
      * intros [HF [?|?]]; (split; [by split|]); [by left|right; by right].
      * intros [[_ HF] [?|[?|?]]]; (split; [done|]); [by left|done|by right].
Qed.

(** The state is the old one with the whole window as its placement. *)
Definition takes_window (st st' : ARBITER_ALLOCATION_STATE) : Prop :=
  st_Start st' = st_CurrentMinimum st /\ st_End st' = st_CurrentMaximum st /\
  st_CurrentMinimum st' = st_CurrentMinimum st /\
  st_CurrentMaximum st' = st_CurrentMaximum st /\
  st_Alternatives st' = st_Alternatives st /\
  st_CurrentAlternative st' = st_CurrentAlternative st /\ st_Entry st' = st_Entry st /\
  st_RangeAvailableAttributes st' = st_RangeAvailableAttributes st /\ st_Flags st' = st_Flags st /\
  st_WorkSpace st' = st_WorkSpace st.

Lemma override_loop_place rs pdo st b st' self :
  override_loop rs pdo st self = (b, st') -> b = true ->
  (self = true -> st_Start st = st_CurrentMinimum st /\ st_End st = st_CurrentMaximum st) ->
  takes_window st st'.
Proof.
  revert st self. induction rs as [|r rs IH]; simpl; intros st self E Hb Hself.
  - simplify_eq. destruct (Hself eq_refl). by split_and!.
  - destruct (blocks_window st r); [|by eapply IH].
    destruct (negb _); [by simplify_eq|]. by apply IH in E.
Qed.

(** ArbiterLibOverrideConflict grants a window exactly when the
    requirement is fixed, the device is known, at least one unavailable range
    overlaps the window, and every such range belongs to the device itself. *)
Theorem override_conflict_self_only arb ents st b st' :
  ArbiterLibOverrideConflict arb ents st = (b, st') ->
  (b = true <->
   (exists a, st_alt st = Some a /\
      has_flag (alt_Flags a) ARBITER_ALTERNATIVE_FLAG_FIXED = true) /\
   st_owner ents st <> NULL /\
   Exists (fun r => blocks_window st r = true) (rtl_ranges (ar_PossibleAllocation arb)) /\
   Forall (fun r => blocks_window st r = true -> rr_Owner r = st_owner ents st)
     (rtl_ranges (ar_PossibleAllocation arb))).
Proof.
  unfold ArbiterLibOverrideConflict. destruct (st_alt st) as [a|] eqn:Ea.
  2:{ intros [= <- <-]. split; [done|]. by intros [(? & ? & _) _]. }
  destruct (has_flag (alt_Flags a) _) eqn:Ef; simpl.
  2:{ intros [= <- <-]. split; [done|]. intros [(a' & [= <-] & Hf) _]. congruence. }
  destruct (st_owner ents st =? NULL) eqn:Eo; bool_prop.
  { intros [= <- <-]. split; [done|]. by intros (_ & ? & _). }
  intros E. apply override_loop_spec in E. rewrite E. split.
  - intros [HF [?|HE]]; [done|]. split_and!; eauto.
  - intros (_ & _ & HE & HF). auto.
Qed.

(** Why a conflicting range may be shared with the requester. *)
Definition may_share (Requester : PVOID) (disposition : Z) (r : RTL_RANGE) : Prop :=
  rr_Owner r <> NULL /\
  (disposition = CmResourceShareDriverExclusive \/
   has_flag (rr_Attributes r) ARBITER_RANGE_SHARED_DRIVER = true) /\
  ((ArbpReadRootEnumerated env Requester = Some true /\
    ArbpReadRootEnumerated env (rr_Owner r) <> Some false) \/
   ArbpSharesDriverStack env Requester (rr_Owner r) = true).

Lemma share_loop_spec rs q d st rp st' :
  share_loop env rs q d st rp = (true, st') ->
  (rp = true -> ArbpReadRootEnumerated env q = Some true) ->
  takes_window st st' /\ exists r, r ∈ rs /\ blocks_window st r = true /\ may_share q d r.
Proof.
  revert rp. induction rs as [|r rs IH]; simpl; intros rp E Hrp; [done|].
  assert (Hrec : forall rp', (rp' = true -> ArbpReadRootEnumerated env q = Some true) ->
    share_loop env rs q d st rp' = (true, st') ->
    takes_window st st' /\ exists r0, r0 ∈ r :: rs /\ blocks_window st r0 = true /\ may_share q d r0).
  { intros rp' Hrp' E'. destruct (IH _ E' Hrp') as [Ht (r0 & Hin & Hb)].
    split; [done|]. exists r0. split; [by right|done]. }
  destruct (blocks_window st r && _ && _) eqn:Ec; [|eauto].
  apply andb_prop in Ec as [Ec Eo]. apply andb_prop in Ec as [Eb Ed].
  apply negb_true_iff, Z.eqb_neq in Eo.
  destruct (if rp then _ else _) as [rp2 sh] eqn:Ep.
  assert (Hsh : (rp2 = true -> rp = true) /\
                (sh = true -> rp = true /\ ArbpReadRootEnumerated env (rr_Owner r) <> Some false)).
  { destruct rp; [|by simplify_eq].
    destruct (ArbpReadRootEnumerated env (rr_Owner r)) as [[]|]; by simplify_eq. }
  destruct Hsh as [Hr2 Hs2].
  destruct (sh || ArbpSharesDriverStack env q (rr_Owner r)) eqn:Es; [|eauto].
  assert (Hst : takes_window st st') by
    (destruct (d =? CmResourceShareDriverExclusive); injection E as <-; done).
  split; [done|]. exists r. split; [by left|]. split; [done|]. split; [done|]. split.
  - apply orb_prop in Ed as [Ed|Ed]; bool_prop; auto.
  - apply orb_prop in Es as [Es|Es]; [left|by right].
    destruct (Hs2 Es) as [Hr Hn]. auto.
Qed.

Lemma share_exclusive_takes arb ents st st' :
  ArbpShareDriverExclusive env arb ents st = (true, st') ->
  takes_window st st' /\
  exists a r, st_alt st = Some a /\ r ∈ rtl_ranges (ar_PossibleAllocation arb) /\
    blocks_window st r = true /\
    may_share (st_owner ents st) (io_ShareDisposition (alt_Descriptor a)) r.
Proof.
  unfold ArbpShareDriverExclusive. destruct (st_alt st) as [a|]; [|done].
  destruct (_ =? NULL); [done|]. intros E. apply share_loop_spec in E.
  - destruct E as [Ht (r & Hin & Hb & Hm)]. split; [done|]. by exists a, r.
  - destruct (ArbpReadRootEnumerated env (st_owner ents st)) as [[]|]; by simpl.
Qed.

(** ArbpShareDriverExclusive shares only what it may: a TRUE answer
    means some unavailable, owned range overlaps the window, the request or the
    range is driver-exclusive, and either both devices are root-enumerated (an
    owner whose enumerator cannot be read counts as root) or one driver sits on
    both stacks. *)
Theorem share_driver_exclusive_sound arb ents st st' :
  ArbpShareDriverExclusive env arb ents st = (true, st') ->
  takes_window st st' /\
  exists a r, st_alt st = Some a /\ r ∈ rtl_ranges (ar_PossibleAllocation arb) /\
    blocks_window st r = true /\
    may_share (st_owner ents st) (io_ShareDisposition (alt_Descriptor a)) r.
Proof. apply share_exclusive_takes. Qed.

(** The four ways a window yields a placement. *)
Inductive placed (arb : ARBITER_INSTANCE) (ents : list ARBITER_LIST_ENTRY)
  (st : ARBITER_ALLOCATION_STATE) (a : ARBITER_ALTERNATIVE) : Z -> Z -> Prop :=
| placed_null :
    alt_Length a = 0 -> placed arb ents st a (st_CurrentMinimum st) (st_CurrentMinimum st)
| placed_free s :
    alt_Length a <> 0 -> s mod (Z.max (alt_Alignment a) 1) = 0 ->
    st_CurrentMinimum st <= s -> s + alt_Length a - 1 <= st_CurrentMaximum st ->
    rl_available (ar_PossibleAllocation arb) s (s + alt_Length a - 1)
      (find_flags st a) (find_mask ents st a) (ar_ConflictCallback arb) ->
    placed arb ents st a s (s + alt_Length a - 1)
| placed_shared r :
    alt_Length a <> 0 -> r ∈ rtl_ranges (ar_PossibleAllocation arb) ->
    may_share (st_owner ents st) (io_ShareDisposition (alt_Descriptor a)) r ->
    placed arb ents st a (st_CurrentMinimum st) (st_CurrentMaximum st)
| placed_own :
    alt_Length a <> 0 -> has_flag (alt_Flags a) ARBITER_ALTERNATIVE_FLAG_FIXED = true ->
    Forall (fun r => blocks_window (st_set_RangeAvailableAttributes (find_mask ents st a) st) r
                     = true -> rr_Owner r = st_owner ents st)
      (rtl_ranges (ar_PossibleAllocation arb)) ->
    placed arb ents st a (st_CurrentMinimum st) (st_CurrentMaximum st).

(** What the finder leaves alone: the books but for the callback's slot, and
    the state but for the placement, the masks and the flags. *)
Record find_frame (arb arb' : ARBITER_INSTANCE) (st st' : ARBITER_ALLOCATION_STATE) : Prop := {
  ff_arb : exists slot, arb' = ar_set_slot slot arb;
  ff_min : st_CurrentMinimum st' = st_CurrentMinimum st;
  ff_max : st_CurrentMaximum st' = st_CurrentMaximum st;
  ff_alts : st_Alternatives st' = st_Alternatives st;
  ff_cur : st_CurrentAlternative st' = st_CurrentAlternative st;
  ff_entry : st_Entry st' = st_Entry st;
  ff_ws : st_WorkSpace st' = st_WorkSpace st;
  ff_boot : has_flag (st_Flags st') ARBITER_STATE_FLAG_BOOT = has_flag (st_Flags st) ARBITER_STATE_FLAG_BOOT
}.

Lemma ar_set_slot_same arb : ar_set_slot (ar_ConflictCallbackContext arb) arb = arb.
Proof. by destruct arb. Qed.

Lemma find_frame_id arb st : find_frame arb arb st st.
Proof. split; try done. eexists. symmetry. apply ar_set_slot_same. Qed.

Lemma override_loop_frame rs pdo st self b st' :
  override_loop rs pdo st self = (b, st') ->
  st_CurrentMinimum st' = st_CurrentMinimum st /\ st_CurrentMaximum st' = st_CurrentMaximum st /\
  st_Alternatives st' = st_Alternatives st /\
  st_CurrentAlternative st' = st_CurrentAlternative st /\ st_Entry st' = st_Entry st /\
  st_WorkSpace st' = st_WorkSpace st /\ st_Flags st' = st_Flags st.
Proof.
  revert st self. induction rs as [|r rs IH]; simpl; intros st self E; [by simplify_eq|].
  destruct (blocks_window st r); [|eauto]. destruct (negb _); [by simplify_eq|].
  by apply IH in E.
Qed.

Lemma share_loop_false rs q d st rp st' :
  share_loop env rs q d st rp = (false, st') -> st' = st.
Proof.
  revert rp. induction rs as [|r rs IH]; simpl; intros rp E; [by simplify_eq|].
  destruct (blocks_window st r && _ && _); [|eauto].
  destruct (if rp then _ else _) as [rp2 sh].
  destruct (sh || _); [by simplify_eq|eauto].
Qed.

Lemma share_exclusive_false arb ents st st' :
  ArbpShareDriverExclusive env arb ents st = (false, st') -> st' = st.
Proof.
  unfold ArbpShareDriverExclusive. destruct (st_alt st); [|by intros [= <-]].
  destruct (_ =? NULL); [by intros [= <-]|]. apply share_loop_false.
Qed.

Lemma override_conflict_frame arb ents st b st' :
  ArbiterLibOverrideConflict arb ents st = (b, st') ->
  st_CurrentMinimum st' = st_CurrentMinimum st /\ st_CurrentMaximum st' = st_CurrentMaximum st /\
  st_Alternatives st' = st_Alternatives st /\
  st_CurrentAlternative st' = st_CurrentAlternative st /\ st_Entry st' = st_Entry st /\
  st_WorkSpace st' = st_WorkSpace st /\ st_Flags st' = st_Flags st.
Proof.
  unfold ArbiterLibOverrideConflict. destruct (st_alt st); [|by intros [= _ <-]].
  destruct (negb _); [by intros [= _ <-]|]. destruct (_ =? NULL); [by intros [= _ <-]|].
  apply override_loop_frame.
Qed.

Lemma override_conflict_takes arb ents st st' :
  ArbiterLibOverrideConflict arb ents st = (true, st') -> takes_window st st'.
Proof.
  unfold ArbiterLibOverrideConflict. destruct (st_alt st); [|done].
  destruct (negb _); [done|]. destruct (_ =? NULL); [done|].
  intros E. by apply override_loop_place in E.
Qed.

Lemma override_conflict_own arb ents st st' :
  ArbiterLibOverrideConflict arb ents st = (true, st') ->
  exists a, st_alt st = Some a /\
    has_flag (alt_Flags a) ARBITER_ALTERNATIVE_FLAG_FIXED = true /\
    Forall (fun r => blocks_window st r = true -> rr_Owner r = st_owner ents st)
      (rtl_ranges (ar_PossibleAllocation arb)).
Proof.
  unfold ArbiterLibOverrideConflict. destruct (st_alt st) as [a|] eqn:Ea; [|done].
  destruct (has_flag (alt_Flags a) _) eqn:Ef; simpl; [|done].
  destruct (st_owner ents st =? NULL) eqn:Eo; [done|].
  intros E. apply override_loop_spec in E. destruct E as [E _]. destruct (E eq_refl) as [HF _].
  by exists a.
Qed.

Lemma find_suitable_range_outcome arb ents st b arb' st' :
  (forall a, st_alt st = Some a -> is_u64 (alt_Length a)) ->
  0 <= st_CurrentMinimum st -> is_u64 (st_CurrentMaximum st) ->
  ArbiterLibFindSuitableRange env mmconfig (Some ArbiterLibOverrideConflict) arb ents st
    = (b, arb', st') ->
  find_frame arb arb' st st' /\
  (b = true -> exists a, st_alt st = Some a /\ st_CurrentMinimum st <= st_CurrentMaximum st /\
     placed arb ents st a (st_Start st') (st_End st')).
Proof using L.
  intros Hlen Hmn Hmx. unfold ArbiterLibFindSuitableRange.
  destruct (st_alt st) as [a|] eqn:Ea; [|intros [= <- <- <-]; split; [apply find_frame_id|done]].
  specialize (Hlen a eq_refl).
  destruct (st_CurrentMaximum st <? st_CurrentMinimum st) eqn:Ew;
    [intros [= <- <- <-]; split; [apply find_frame_id|done]|]. bool_prop.
  destruct (alt_Length a =? 0) eqn:El; bool_prop.
  { intros [= <- <- <-]. split.
    - split; try done. eexists. symmetry. apply ar_set_slot_same.
    - intros _. exists a. split_and!; try done. by apply placed_null. }
  set (st1 := st_set_RangeAvailableAttributes (find_mask ents st a) st).
  destruct (RtlFindRange _ _ _ _ _ _ _ _ _) as [[s start] slot] eqn:Ef.
  destruct (NT_SUCCESS s) eqn:Es; simpl.
  { intros [= <- <- <-]. split; [by split; eauto|]. intros _. exists a.
    unfold is_u64, ULONGLONG_MAX in *.
    destruct (rl_find_start _ _ _ _ _ _ _ _ _ _ _ _ Ef Es) as (F1 & F2 & F3 & F4); [lia|lia|].
    simpl in F1, F2.
    assert (start +u alt_Length a -u 1 = start + alt_Length a - 1) as ->.
    { unfold add64, sub64, u64. rewrite Zminus_mod_idemp_l. apply Z.mod_small. lia. }
    split_and!; try done. by apply placed_free. }
  destruct (ArbpShareDriverExclusive env _ ents st1) as [ok2 st2] eqn:E2.
  destruct ok2.
  { intros [= <- <- <-]. apply share_exclusive_takes in E2.
    destruct E2 as [(T1 & T2 & T3 & T4 & T5 & T6 & T7 & _ & T8 & T9) (a' & r & Ha' & Hin & Hb & Hm)].
    split; [by split; eauto; rewrite T8|]. intros _. exists a. split_and!; try done.
    simpl in T1, T2. rewrite T1, T2. unfold st_alt in Ea, Ha'. simpl in Ha'.
    rewrite Ea in Ha'. injection Ha' as <-. by eapply placed_shared. }
  apply share_exclusive_false in E2 as ->.
  destruct (ArbiterLibOverrideConflict _ ents st1) as [ok3 st3] eqn:E3.
  pose proof (override_conflict_frame _ _ _ _ _ E3) as (F1 & F2 & F3 & F4 & F5 & F6 & F7).
  destruct ok3.
  { intros [= <- <- <-]. pose proof (override_conflict_takes _ _ _ _ E3) as (T1 & T2 & _).
    apply override_conflict_own in E3 as (a' & Ha' & Hf & HF).
    split; [by split; eauto; rewrite F7|]. intros _. exists a. split_and!; try done.
    simpl in T1, T2. rewrite T1, T2. unfold st_alt in Ea, Ha'. simpl in Ha'.
    rewrite Ea in Ha'. injection Ha' as <-. by apply placed_own. }
  intros [= <- <- <-]. split; [|done].
  destruct (ArbiterLibIsConflictWithMmConfigRange _ _ _); split; eauto; simpl; [|by rewrite F7].
  by rewrite has_flag_set, F7.
Qed.

(** ArbiterLibFindSuitableRange, used with the default OverrideConflict:
    a TRUE answer places the request inside the current window, and it is one
    of: an empty request; an aligned range of the required length that no
    recorded range stands in the way of; the whole window shared with a
    conflicting range the request may share; the whole window of a fixed
    request all of whose conflicts are the device's own.  The books are not
    changed. *)
Theorem find_suitable_range_sound arb ents st b arb' st' :
  (forall a, st_alt st = Some a -> is_u64 (alt_Length a)) ->
  0 <= st_CurrentMinimum st -> is_u64 (st_CurrentMaximum st) ->
  ArbiterLibFindSuitableRange env mmconfig (Some ArbiterLibOverrideConflict) arb ents st
    = (b, arb', st') ->
  ar_PossibleAllocation arb' = ar_PossibleAllocation arb /\
  ar_Allocation arb' = ar_Allocation arb /\
  (b = true ->
   st_CurrentMinimum st <= st_Start st' <= st_End st' /\
   st_End st' <= st_CurrentMaximum st /\
   exists a, st_alt st = Some a /\ placed arb ents st a (st_Start st') (st_End st')).
Proof using L.
  intros Hlen Hmn Hmx E.
  destruct (find_suitable_range_outcome _ _ _ _ _ _ Hlen Hmn Hmx E) as [[[slot ->]] Hb].
  split_and!; try done. intros Hok. destruct (Hb Hok) as (a & Ha & Hw & Hp).
  specialize (Hlen a Ha). unfold is_u64 in *.
  assert (st_CurrentMinimum st <= st_Start st' <= st_End st' /\ st_End st' <= st_CurrentMaximum st)
    as [? ?] by (inversion Hp; lia).
  split_and!; try lia. by exists a.
Qed.
End FindFacts.

(** *** Witnesses *)

#[local] Existing Instance ref_range_list.

Definition sample_env : device_env :=
  mkDevEnv (fun d => if d =? 7 then Some "Root"%string else None) (fun _ => [3]).

(** Device 7 asks for 0x20 bytes; device 9 holds the top of the window. *)
Definition sample_entry : ARBITER_LIST_ENTRY :=
  mkEntry [sample_window 0x100 0x1FF] 7 ArbiterRequestPnpEnumerated 0 0 None None
    ArbiterResultUndefined.
Definition busy_arbiter (owner : PVOID) (s e : Z) : ARBITER_INSTANCE :=
  ar_set_PossibleAllocation [mkRange s e 0 owner 0 0] sample_arbiter.
Definition window_state (flags : Z) (disposition : Z) : ARBITER_ALLOCATION_STATE :=
  let w := mkIoWindow 1 1 0x100 0x1FF in
  let d := mkIo 0 CmResourceTypeMemory disposition 0 w w (mkIoBus 0 0 0) (mkIoInterrupt 0 0 0) no_connection in
  mkState 1 0 0x100 0x1FF (Some 0%nat) (Some 0%nat)
    [mkAlt 0x100 0x1FF 0x20 0x10 1 flags d] 0 0 0 0.

Definition sample_find_run : bool * ARBITER_INSTANCE * ARBITER_ALLOCATION_STATE :=
  ArbiterLibFindSuitableRange sample_env [] (Some ArbiterLibOverrideConflict)
    (busy_arbiter 9 0x1E8 0x2FF) [sample_entry] (window_state 0 0).

Lemma find_suitable_range_sound_witness :
  sample_find_run.1.1 = true /\
  (st_Start sample_find_run.2, st_End sample_find_run.2) = (0x1C0, 0x1DF) /\
  st_CurrentMinimum (window_state 0 0) <= st_Start sample_find_run.2.
Proof.
  assert (Hb : sample_find_run.1.1 = true) by (vm_compute; reflexivity).
  split; [done|]. split; [vm_compute; reflexivity|].
  assert (E : sample_find_run = (sample_find_run.1.1, sample_find_run.1.2, sample_find_run.2))
    by (by destruct sample_find_run as [[? ?] ?]).
  pose proof (find_suitable_range_sound (L := ref_range_list_laws) sample_env []
                (busy_arbiter 9 0x1E8 0x2FF) [sample_entry] (window_state 0 0) _ _ _
                ltac:(by intros a [= <-]) ltac:(done) ltac:(done) E) as (_ & _ & Hs).
  apply (Hs Hb).
Defined.

Definition sample_override_run : bool * ARBITER_ALLOCATION_STATE :=
  ArbiterLibOverrideConflict (busy_arbiter 7 0x180 0x1FF) [sample_entry]
    (window_state ARBITER_ALTERNATIVE_FLAG_FIXED 0).

Lemma override_conflict_self_only_witness :
  sample_override_run.1 = true /\
  st_owner [sample_entry] (window_state ARBITER_ALTERNATIVE_FLAG_FIXED 0) <> NULL.
Proof.
  assert (Hb : sample_override_run.1 = true) by (vm_compute; reflexivity).
  split; [done|].
  assert (E : sample_override_run = (sample_override_run.1, sample_override_run.2))
    by (by destruct sample_override_run).
  apply (override_conflict_self_only (busy_arbiter 7 0x180 0x1FF) [sample_entry]
           (window_state ARBITER_ALTERNATIVE_FLAG_FIXED 0) _ _ E). done.
Defined.

Definition sample_share_run : bool * ARBITER_ALLOCATION_STATE :=
  ArbpShareDriverExclusive sample_env (busy_arbiter 9 0x180 0x1FF) [sample_entry]
    (window_state 0 CmResourceShareDriverExclusive).

Lemma share_driver_exclusive_sound_witness :
  takes_window (window_state 0 CmResourceShareDriverExclusive) sample_share_run.2 /\
  st_RangeAttributes sample_share_run.2 = ARBITER_RANGE_SHARED_DRIVER.
Proof.
  split; [|vm_compute; reflexivity].
  assert (Hb : sample_share_run.1 = true) by (vm_compute; reflexivity).
  assert (E : sample_share_run = (true, sample_share_run.2))
    by (rewrite <- Hb; by destruct sample_share_run).
  apply (share_driver_exclusive_sound sample_env _ _ _ _ E).
Defined.
