(* ===== verification/Entry.v ===== *)
(** The entry allocation pipeline: reactos-libs/arbiter/entry.c.

    Sorting of the arbitration list and the backtracking search that places a
    whole stack of entries.  The engine calls the instance's slots; what it
    needs of them is the interface [ArbiterSlots], which the library's default
    slots meet ([DefaultSlots]).  The outer loop is fuelled: the hard deadline
    bounds it ([allocate_entry_terminates]). *)
From stdpp Require Import base list numbers option sorting.
From Stdlib Require Import ZArith Lia Permutation.
From S2P Require Import Prelude NtEnv RangeListRef ArbTypes Ordering RangeWalk.

Definition ARBITER_ALLOCATE_DEADLINE : Z := 10 * 1000 * 1000.
Definition ARBITER_ALLOCATE_HARD_DEADLINE : Z := 10 * 1000 * 1000 * 10.

(** ** Sorting *)

(** InsertTailList at the first position whose score is greater. *)
Fixpoint sort_insert (e : ARBITER_LIST_ENTRY) (Sorted : list ARBITER_LIST_ENTRY)
  : list ARBITER_LIST_ENTRY :=
  match Sorted with
  | [] => [e]
  | p :: Sorted' => if ent_WorkSpace e <? ent_WorkSpace p then e :: Sorted
                    else p :: sort_insert e Sorted'
  end.

Definition ArbiterLibSortArbitrationList (ArbitrationList : list ARBITER_LIST_ENTRY)
  : list ARBITER_LIST_ENTRY :=
  fold_left (fun Sorted e => sort_insert e Sorted) ArbitrationList [].

(** ** The engine *)

(** The loop over the stack up to its terminator. *)
Fixpoint ArbpFreeAllocationWorkSpaces (stack : list ARBITER_ALLOCATION_STATE) (w : world)
  : list ARBITER_ALLOCATION_STATE * world :=
  match stack with
  | [] => ([], w)
  | st :: rest =>
      match st_Entry st with
      | None => (stack, w)
      | Some _ =>
          let '(st, w) :=
            if has_flag (st_Flags st) ARBITER_STATE_FLAG_WORKSPACE then
              (st_set_Flags (clear_flag (st_Flags st) ARBITER_STATE_FLAG_WORKSPACE)
                 (st_set_WorkSpace 0 st), ExFreePoolWithTag w)
            else (st, w) in
          let '(rest, w) := ArbpFreeAllocationWorkSpaces rest w in (st :: rest, w)
      end
  end.

Section Engine.
Context `{R : RtlRangeList}.

Definition ArbiterLibPreprocessEntry (arb : ARBITER_INSTANCE) (ents : list ARBITER_LIST_ENTRY)
  (st : ARBITER_ALLOCATION_STATE) : NTSTATUS * ARBITER_INSTANCE * ARBITER_ALLOCATION_STATE :=
  (STATUS_SUCCESS, arb, st).

(** The locals of ArbiterLibAllocateEntry and what they point to; [eg_cur] is
    [Current - ArbState]. *)
Record engine := mkEngine {
  eg_arb : ARBITER_INSTANCE;
  eg_stack : list ARBITER_ALLOCATION_STATE;
  eg_ents : list ARBITER_LIST_ENTRY;
  eg_w : world;
  eg_cur : nat;
  eg_Backtracking : bool;
  eg_McfgConflict : bool
}.

(** How one turn of the outer loop ends.  [Fault] stands for a NULL
    CurrentAlternative being followed, [NoFuel] for an inner loop that did not
    end within its fuel. *)
Inductive turn :=
| Continue (e : engine)
| Return (s : NTSTATUS) (e : engine)
| Fault
| NoFuel.

Context (cbs : ARBITER_CALLBACKS).

(** The inner [for (;;)]: windows until one yields a placement. *)
Fixpoint search_windows (fuel : nat) (RetrySameRange : bool) (arb : ARBITER_INSTANCE)
  (ents : list ARBITER_LIST_ENTRY) (st : ARBITER_ALLOCATION_STATE)
  : option (bool * ARBITER_INSTANCE * ARBITER_ALLOCATION_STATE) :=
  match fuel with
  | O => None
  | S fuel =>
      let '(more, st) := if RetrySameRange then (true, st)
                         else GetNextAllocationRange cbs arb ents st in
      if negb more then Some (false, arb, st)
      else
        let '(ok, arb, st) := FindSuitableRange cbs arb ents st in
        if ok then Some (true, arb, st) else search_windows fuel false arb ents st
  end.

Definition set_result (st : option ARBITER_ALLOCATION_STATE) (r : ARBITER_RESULT)
  (ents : list ARBITER_LIST_ENTRY) : list ARBITER_LIST_ENTRY :=
  match st with
  | Some s => match st_Entry s with Some i => alter (ent_set_Result r) i ents | None => ents end
  | None => ents
  end.

(** Leaving through ArbpFreeAllocationWorkSpaces. *)
Definition leave (s : NTSTATUS) (e : engine) : turn :=
  let '(stack, w) := ArbpFreeAllocationWorkSpaces (eg_stack e) (eg_w e) in
  Return s (mkEngine (eg_arb e) stack (eg_ents e) w (eg_cur e) (eg_Backtracking e)
              (eg_McfgConflict e)).

(** The [Backtrack] label; [st] is [*Current]. *)
Definition backtrack (st : ARBITER_ALLOCATION_STATE) (e : engine) : turn :=
  let mcfg := eg_McfgConflict e || has_flag (st_Flags st) ARBITER_STATE_FLAG_MCFG_CONFLICT in
  match eg_cur e with
  | O =>
      leave (if mcfg then STATUS_BAD_MCFG_TABLE else STATUS_UNSUCCESSFUL)
        (mkEngine (eg_arb e) (eg_stack e)
           (set_result (Some st) ArbiterResultExternalConflict (eg_ents e))
           (eg_w e) 0 (eg_Backtracking e) mcfg)
  | S c => Continue (mkEngine (eg_arb e) (eg_stack e) (eg_ents e) (eg_w e) c true mcfg)
  end.

(** The placement half of a turn: search, then record or backtrack. *)
Definition place (wfuel : nat) (RetrySameRange : bool) (st : ARBITER_ALLOCATION_STATE)
  (e : engine) : turn :=
  match search_windows wfuel RetrySameRange (eg_arb e) (eg_ents e) st with
  | None => NoFuel
  | Some (false, arb, st) =>
      backtrack st (mkEngine arb (<[eg_cur e := st]> (eg_stack e)) (eg_ents e) (eg_w e)
                      (eg_cur e) (eg_Backtracking e) (eg_McfgConflict e))
  | Some (true, arb, st) =>
      match st_alt st with
      | None => Fault
      | Some a =>
          let '(arb, ents) :=
            if negb (alt_Length a =? 0) then (AddAllocation cbs arb (eg_ents e) st, eg_ents e)
            else (arb, set_result (Some st) ArbiterResultNullRequest (eg_ents e)) in
          Continue (mkEngine arb (<[eg_cur e := st]> (eg_stack e)) ents (eg_w e)
                      (S (eg_cur e)) (eg_Backtracking e) (eg_McfgConflict e))
      end
  end.

(** The half of a turn that withdraws the entry's tentative choice. *)
Definition withdraw (wfuel : nat) (Deadline : Z) (st : ARBITER_ALLOCATION_STATE) (e : engine)
  : turn :=
  let stack := alter (st_set_CurrentAlternative None) (S (eg_cur e)) (eg_stack e) in
  let e := mkEngine (eg_arb e) stack (eg_ents e) (eg_w e) (eg_cur e) false (eg_McfgConflict e) in
  match st_alt st with
  | None => backtrack st e
  | Some FailedAlternative =>
      if alt_Length FailedAlternative =? 0 then backtrack st e
      else
        let '(arb, st) := BacktrackAllocation cbs (eg_arb e) (eg_ents e) st in
        if has_flag (st_Flags st) ARBITER_STATE_FLAG_NO_RETRY then
          let st := st_set_Flags (clear_flag (st_Flags st) ARBITER_STATE_FLAG_NO_RETRY) st in
          backtrack st (mkEngine arb (<[eg_cur e := st]> stack) (eg_ents e) (eg_w e)
                          (eg_cur e) false (eg_McfgConflict e))
        else
          let '(retry, st, w) :=
            if (st_CurrentMinimum st <? st_Start st) &&
               negb (has_flag (alt_Flags FailedAlternative) ARBITER_ALTERNATIVE_FLAG_FIXED)
            then
              let '(now, w) := KeQueryInterruptTime (eg_w e) in
              if now <=? Deadline
              then (true, st_set_window (st_CurrentMinimum st) (st_Start st -u 1) st, w)
              else (false, st, w)
            else (false, st, eg_w e) in
          place wfuel retry st
            (mkEngine arb stack (eg_ents e) w (eg_cur e) false (eg_McfgConflict e))
  end.

(** One turn of the outer loop on [Current], whose [Entry] is not NULL. *)
Definition engine_turn (wfuel : nat) (Deadline HardDeadline : Z)
  (st : ARBITER_ALLOCATION_STATE) (e : engine) : turn :=
  let '(now, w) := KeQueryInterruptTime (eg_w e) in
  let e := mkEngine (eg_arb e) (eg_stack e) (eg_ents e) w (eg_cur e) (eg_Backtracking e)
             (eg_McfgConflict e) in
  if HardDeadline <? now then
    leave STATUS_UNSUCCESSFUL
      (mkEngine (eg_arb e) (eg_stack e)
         (set_result (eg_stack e !! 0%nat) ArbiterResultExternalConflict (eg_ents e))
         w (eg_cur e) (eg_Backtracking e) (eg_McfgConflict e))
  else
    let '(Status, arb, st) := PreprocessEntry cbs (eg_arb e) (eg_ents e) st in
    let e := mkEngine arb (<[eg_cur e := st]> (eg_stack e)) (eg_ents e) w (eg_cur e)
               (eg_Backtracking e) (eg_McfgConflict e) in
    if negb (NT_SUCCESS Status) then leave Status e
    else if eg_Backtracking e then withdraw wfuel Deadline st e
    else place wfuel false st e.

(** The report loop's body on the entry behind one state. *)
Definition report_entry (st : ARBITER_ALLOCATION_STATE) (a : ARBITER_ALTERNATIVE)
  (e : ARBITER_LIST_ENTRY) : NTSTATUS * ARBITER_LIST_ENTRY :=
  let e := ent_set_SelectedAlternative (Some (alt_Descriptor a)) e in
  let '(Status, e) :=
    match ent_Assignment e with
    | Some cm =>
        let '(Status, cm) := PackResource cbs (alt_Descriptor a) (st_Start st) cm in
        (Status, ent_set_Assignment (Some cm) e)
    | None => (STATUS_SUCCESS, e)
    end in
  if negb (NT_SUCCESS Status) then (Status, e)
  else (STATUS_SUCCESS, if bool_decide (ent_Result e = ArbiterResultNullRequest) then e
                        else ent_set_Result ArbiterResultSuccess e).

(** The report loop over the complete solution; [None] when a NULL
    CurrentAlternative or a dangling Entry is followed. *)
Fixpoint report_solution (stack : list ARBITER_ALLOCATION_STATE) (ents : list ARBITER_LIST_ENTRY)
  : option (NTSTATUS * list ARBITER_LIST_ENTRY) :=
  match stack with
  | [] => Some (STATUS_SUCCESS, ents)
  | st :: rest =>
      match st_Entry st with
      | None => Some (STATUS_SUCCESS, ents)
      | Some i =>
          match st_alt st, ents !! i with
          | Some a, Some e =>
              let '(Status, e) := report_entry st a e in
              let ents := <[i := e]> ents in
              if negb (NT_SUCCESS Status) then Some (Status, ents) else report_solution rest ents
          | _, _ => None
          end
      end
  end.

Fixpoint engine_loop (fuel wfuel : nat) (Deadline HardDeadline : Z) (e : engine) : turn :=
  match fuel with
  | O => NoFuel
  | S fuel =>
      match eg_stack e !! eg_cur e with
      | None => Fault
      | Some st =>
          match st_Entry st with
          | None =>
              match report_solution (eg_stack e) (eg_ents e) with
              | None => Fault
              | Some (Status, ents) =>
                  leave Status (mkEngine (eg_arb e) (eg_stack e) ents (eg_w e) (eg_cur e)
                                  (eg_Backtracking e) (eg_McfgConflict e))
              end
          | Some _ =>
              match engine_turn wfuel Deadline HardDeadline st e with
              | Continue e => engine_loop fuel wfuel Deadline HardDeadline e
              | r => r
              end
          end
      end
  end.

(** [fuel] bounds the turns of the outer loop, [wfuel] the windows one turn
    looks at. *)
Definition ArbiterLibAllocateEntry (fuel wfuel : nat) (arb : ARBITER_INSTANCE)
  (stack : list ARBITER_ALLOCATION_STATE) (ents : list ARBITER_LIST_ENTRY) (w : world) : turn :=
  let '(t1, w) := KeQueryInterruptTime w in
  let '(t2, w) := KeQueryInterruptTime w in
  engine_loop fuel wfuel (t1 +u ARBITER_ALLOCATE_DEADLINE)
    (t2 +u ARBITER_ALLOCATE_HARD_DEADLINE) (mkEngine arb stack ents w 0 false false).
End Engine.

(** ** The sort is a stable sort *)

Definition ws_le (a b : ARBITER_LIST_ENTRY) : Prop := ent_WorkSpace a <= ent_WorkSpace b.

Lemma sort_insert_perm e l : sort_insert e l ≡ₚ e :: l.
Proof.
  induction l as [|p l IH]; simpl; [done|]. destruct (_ <? _); [done|].
  rewrite IH. apply Permutation_swap.
Qed.

Lemma sort_insert_sorted e l : StronglySorted ws_le l -> StronglySorted ws_le (sort_insert e l).
Proof.
  induction 1 as [|p l Hl IH HF]; simpl; [repeat constructor|].
  destruct (ent_WorkSpace e <? ent_WorkSpace p) eqn:E; bool_prop.
  - constructor; [by constructor|]. constructor; [unfold ws_le; lia|].
    eapply Forall_impl; [done|]. unfold ws_le. simpl. intros. lia.
  - constructor; [done|]. rewrite sort_insert_perm. constructor; [unfold ws_le; lia|done].
Qed.

Definition same_score (k : Z) (e : ARBITER_LIST_ENTRY) : Prop := ent_WorkSpace e = k.
#[local] Instance same_score_dec k e : Decision (same_score k e).
Proof. unfold same_score. apply _. Defined.

(** An entry lands behind every entry of its own score. *)
Lemma sort_insert_stable k e l :
  StronglySorted ws_le l ->
  filter (same_score k) (sort_insert e l) =
  filter (same_score k) l ++ filter (same_score k) [e].
Proof.
  induction 1 as [|p l Hl IH HF]; simpl; [done|].
  destruct (ent_WorkSpace e <? ent_WorkSpace p) eqn:E; bool_prop.
  - destruct (decide (same_score k e)) as [D|D].
    + assert (Hn : filter (same_score k) (p :: l) = []).
      { apply filter_none. unfold same_score, ws_le in *. constructor; [lia|].
        eapply Forall_impl; [done|]. simpl. intros. lia. }
      rewrite Hn. rewrite filter_cons_True by done. by rewrite Hn, filter_cons_True.
    + rewrite filter_cons_False by done. rewrite (filter_cons_False _ e []) by done.
      by rewrite filter_nil, app_nil_r.
  - rewrite !(filter_cons _ p). rewrite IH. by destruct (decide (same_score k p)).
Qed.

Lemma sort_fold l acc :
  StronglySorted ws_le acc ->
  let r := fold_left (fun Sorted e => sort_insert e Sorted) l acc in
  r ≡ₚ acc ++ l /\ StronglySorted ws_le r /\
  forall k, filter (same_score k) r = filter (same_score k) acc ++ filter (same_score k) l.
Proof.
  revert acc. induction l as [|e l IH]; simpl; intros acc Hs.
  - rewrite app_nil_r. split_and!; try done. intros. by rewrite filter_nil, app_nil_r.
  - destruct (IH (sort_insert e acc)) as (Hp & Hso & Hst); [by apply sort_insert_sorted|].
    split_and!; [|done|].
    + rewrite Hp, sort_insert_perm. simpl. by rewrite Permutation_middle.
    + intros k. rewrite Hst, sort_insert_stable by done. rewrite <- app_assoc. f_equal.
      rewrite (filter_cons _ e l), (filter_cons _ e []). by destruct (decide (same_score k e)).
Qed.

(** ArbiterLibSortArbitrationList is a stable sort by constrainedness:
    the result holds the same entries, scores never decrease along it, and
    entries of equal score keep their order. *)
Theorem sort_arbitration_list_stable l :
  ArbiterLibSortArbitrationList l ≡ₚ l /\
  StronglySorted ws_le (ArbiterLibSortArbitrationList l) /\
  forall k, filter (same_score k) (ArbiterLibSortArbitrationList l) = filter (same_score k) l.
Proof. apply (sort_fold l []). constructor. Qed.

(** ** What the engine relies on

    [ArbiterSlots] is the contract between the engine and the slots of an
    arbiter.  [st_inv] holds of every state of the stack, [st_ready] of a state
    PreprocessEntry has seen in this turn, [st_win] of a state
    whose window was set by the walker, [good ents K] of a state placed against
    a tentative list whose ranges are [K] (where and whose, in any order);
    [keys_of] are the ranges AddAllocation records for a placement. *)

(** Two states with the same placement and the same requirement selected. *)
Record same_place (st st' : ARBITER_ALLOCATION_STATE) : Prop := {
  sp_start : st_Start st' = st_Start st;
  sp_end : st_End st' = st_End st;
  sp_entry : st_Entry st' = st_Entry st;
  sp_cur : st_CurrentAlternative st' = st_CurrentAlternative st;
  sp_reqs : map alt_req (st_Alternatives st') = map alt_req (st_Alternatives st);
  sp_null : has_flag (st_Flags st') ARBITER_STATE_FLAG_NULL_CONFLICT_OK =
            has_flag (st_Flags st) ARBITER_STATE_FLAG_NULL_CONFLICT_OK;
  sp_avail : st_RangeAvailableAttributes st' = st_RangeAvailableAttributes st
}.

(** What an entry asks for and on whose behalf: what a placement depends on,
    and what no arbitration writes. *)
Definition request (e : ARBITER_LIST_ENTRY)
  : PVOID * ARBITER_REQUEST_SOURCE * list IO_RESOURCE_DESCRIPTOR * Z :=
  (ent_PhysicalDeviceObject e, ent_RequestSource e, ent_Alternatives e, ent_Flags e).
Definition owners (ents : list ARBITER_LIST_ENTRY) := map request ents.

(** Where a range is and whose. *)
Abbreviation range_key := (Z * Z * PVOID)%type.

Section Slots.
Context `{R : RtlRangeList}.

(** Everything of the instance but the tentative list and the callback slot. *)
Definition same_books (arb arb' : ARBITER_INSTANCE) : Prop :=
  exists p s, arb' = ar_set_slot s (ar_set_PossibleAllocation p arb).

Definition possible (arb : ARBITER_INSTANCE) : list range_key := rl_keys (ar_PossibleAllocation arb).

Class ArbiterSlots (cbs : ARBITER_CALLBACKS) (arb0 : ARBITER_INSTANCE) (wfuel : nat) := {
  st_inv : list ARBITER_LIST_ENTRY -> ARBITER_ALLOCATION_STATE -> Prop;
  st_ready : list ARBITER_LIST_ENTRY -> ARBITER_ALLOCATION_STATE -> Prop;
  st_win : ARBITER_ALLOCATION_STATE -> Prop;
  good : list ARBITER_LIST_ENTRY -> list range_key -> ARBITER_ALLOCATION_STATE -> Prop;
  keys_of : list ARBITER_LIST_ENTRY -> ARBITER_ALLOCATION_STATE -> list range_key;
  measure : ARBITER_ALLOCATION_STATE -> nat;
  sl_bound ents st : st_inv ents st -> (S (measure st) < wfuel)%nat;
  sl_ready_inv ents st : st_ready ents st -> st_inv ents st;
  sl_inv_ext ents ents' st : owners ents' = owners ents -> st_inv ents st -> st_inv ents' st;
  sl_good_perm ents K K' st : K ≡ₚ K' -> good ents K st -> good ents K' st;
  sl_good_ext ents ents' K st st' :
    same_place st st' -> owners ents' = owners ents -> good ents K st -> good ents' K st';
  sl_keys_ext ents ents' st st' :
    same_place st st' -> owners ents' = owners ents -> keys_of ents' st' = keys_of ents st;
  sl_flags ents st :
    st_inv ents st ->
    st_inv ents (st_set_Flags (clear_flag (st_Flags st) ARBITER_STATE_FLAG_NO_RETRY) st);
  sl_unset ents st : st_inv ents st -> st_inv ents (st_set_CurrentAlternative None st);
  sl_win_ws st f v : st_win st -> st_win (st_set_Flags f (st_set_WorkSpace v st));
  sl_retry ents K st :
    st_ready ents st -> st_win st -> good ents K st -> st_CurrentMinimum st < st_Start st ->
    let st' := st_set_window (st_CurrentMinimum st) (st_Start st -u 1) st in
    st_ready ents st' /\ st_win st';
  sl_pre arb ents st s arb' st' :
    st_inv ents st -> PreprocessEntry cbs arb ents st = (s, arb', st') ->
    same_books arb arb' /\ possible arb' = possible arb /\
    st_ready ents st' /\ same_place st st' /\ (st_win st -> st_win st');
  sl_next arb ents st b st' :
    same_books arb0 arb -> st_ready ents st -> GetNextAllocationRange cbs arb ents st = (b, st') ->
    st_ready ents st' /\ st_Entry st' = st_Entry st /\
    (b = true -> st_win st' /\ (measure st' < measure st)%nat);
  sl_find arb ents st b arb' st' :
    same_books arb0 arb -> st_ready ents st -> st_win st ->
    FindSuitableRange cbs arb ents st = (b, arb', st') ->
    same_books arb arb' /\ possible arb' = possible arb /\
    st_ready ents st' /\ st_Entry st' = st_Entry st /\ (measure st' <= measure st)%nat /\
    (b = true -> st_win st' /\ good ents (possible arb) st' /\ is_Some (st_alt st'));
  sl_add arb ents K st :
    same_books arb0 arb -> good ents K st ->
    same_books arb (AddAllocation cbs arb ents st) /\
    possible (AddAllocation cbs arb ents st) ≡ₚ keys_of ents st ++ possible arb;
  sl_back arb ents st arb' st' K :
    same_books arb0 arb -> st_ready ents st -> st_win st -> good ents K st ->
    possible arb ≡ₚ keys_of ents st ++ K ->
    BacktrackAllocation cbs arb ents st = (arb', st') ->
    same_books arb arb' /\ possible arb' ≡ₚ K /\
    st_ready ents st' /\ st_win st' /\ st_Entry st' = st_Entry st /\ good ents K st'
}.
End Slots.

Lemma same_place_refl st : same_place st st.
Proof. by split. Qed.

(** The selected requirement is the same one. *)
Lemma same_place_alt st st' :
  same_place st st' ->
  option_map alt_req (st_alt st') = option_map alt_req (st_alt st).
Proof.
  intros [_ _ _ Hc Hr _ _]. unfold st_alt. rewrite Hc.
  destruct (st_CurrentAlternative st) as [i|]; [|done]. by rewrite <- !lookup_map_option, Hr.
Qed.

Lemma alt_req_fields a b :
  alt_req a = alt_req b ->
  alt_Minimum a = alt_Minimum b /\ alt_Maximum a = alt_Maximum b /\
  alt_Length a = alt_Length b /\ alt_align a = alt_align b /\ alt_Flags a = alt_Flags b /\
  alt_Descriptor a = alt_Descriptor b.
Proof.
  destruct a, b. unfold alt_req, alt_set_Priority, alt_align. simpl.
  intros E. injection E as -> -> -> -> -> ->. by split_and!.
Qed.

(** The ranges a settled state has in the tentative list: none for an empty
    request. *)
Definition placed_keys `{R : RtlRangeList} {cbs arb0 wfuel} {S_ : ArbiterSlots cbs arb0 wfuel}
  (ents : list ARBITER_LIST_ENTRY) (st : ARBITER_ALLOCATION_STATE) : list range_key :=
  match st_alt st with
  | Some a => if alt_Length a =? 0 then [] else keys_of ents st
  | None => []
  end.

Section EngineFacts.
Context `{R : RtlRangeList} {L : RtlRangeListLaws R}.
Context {cbs : ARBITER_CALLBACKS} {arb0 : ARBITER_INSTANCE} {wfuel : nat}
  {S_ : ArbiterSlots cbs arb0 wfuel}.
(** The entry behind each state, the device behind each entry, and what the
    tentative list held before the search. *)
Context (idx : list nat) (pdos : list (PVOID * ARBITER_REQUEST_SOURCE * list IO_RESOURCE_DESCRIPTOR * Z)) (base : list range_key).

Definition settled (ents : list ARBITER_LIST_ENTRY) (K : list range_key)
  (st : ARBITER_ALLOCATION_STATE) : Prop :=
  good ents K st /\ st_win st /\ is_Some (st_alt st).

(** The tentative list after the states of [sts] were placed one by one. *)
Fixpoint recorded (ents : list ARBITER_LIST_ENTRY) (K : list range_key)
  (sts : list ARBITER_ALLOCATION_STATE) : list range_key :=
  match sts with
  | [] => K
  | st :: sts => recorded ents (placed_keys ents st ++ K) sts
  end.

(** Every state is settled against what the states before it recorded. *)
Fixpoint chain (ents : list ARBITER_LIST_ENTRY) (K : list range_key)
  (sts : list ARBITER_ALLOCATION_STATE) : Prop :=
  match sts with
  | [] => True
  | st :: sts => settled ents K st /\ chain ents (placed_keys ents st ++ K) sts
  end.

(** The invariant of the outer loop: the first [n] states are settled, and the
    tentative list holds their placements on top of [base]. *)
Record search_inv (n : nat) (arb : ARBITER_INSTANCE) (stack : list ARBITER_ALLOCATION_STATE)
  (ents : list ARBITER_LIST_ENTRY) : Prop := {
  si_shape : map st_Entry stack = map Some idx ++ [None];
  si_books : same_books arb0 arb;
  si_owners : owners ents = pdos;
  si_inv : Forall (st_inv ents) stack;
  si_chain : chain ents base (take n stack);
  si_keys : possible arb ≡ₚ recorded ents base (take n stack)
}.

Definition engine_inv (e : engine) : Prop :=
  (if eg_Backtracking e then (eg_cur e < length idx)%nat else (eg_cur e <= length idx)%nat) /\
  search_inv (if eg_Backtracking e then S (eg_cur e) else eg_cur e)
    (eg_arb e) (eg_stack e) (eg_ents e).

(** What holds however the search ends. *)
Definition left_ok (e : engine) : Prop :=
  same_books arb0 (eg_arb e) /\ owners (eg_ents e) = pdos.

(** A turn goes on from a good state or returns a failure. *)
Definition turn_ok (t : turn) : Prop :=
  match t with
  | Continue e => engine_inv e
  | Return s e => NT_SUCCESS s = false /\ left_ok e
  | Fault | NoFuel => False
  end.

Lemma same_books_trans arb1 arb2 arb3 :
  same_books arb1 arb2 -> same_books arb2 arb3 -> same_books arb1 arb3.
Proof. intros (p & s & ->) (p' & s' & ->). by exists p', s'. Qed.

Lemma owners_alter f i ents :
  (forall e, request (f e) = request e) -> owners (alter f i ents) = owners ents.
Proof.
  intros Hf. unfold owners. revert i. induction ents as [|e ents IH]; intros [|i]; simpl; try done.
  - by rewrite Hf.
  - f_equal. apply IH.
Qed.

Lemma owners_set_result st r ents : owners (set_result st r ents) = owners ents.
Proof.
  destruct st as [st|]; [|done]. simpl. destruct (st_Entry st); [|done]. by apply owners_alter.
Qed.

Lemma placed_keys_ext ents ents' st st' :
  same_place st st' -> owners ents' = owners ents -> placed_keys ents' st' = placed_keys ents st.
Proof using.
  intros Hp Ho. unfold placed_keys. pose proof (same_place_alt _ _ Hp) as Ha.
  rewrite (sl_keys_ext ents ents' st st' Hp Ho).
  destruct (st_alt st) as [a|], (st_alt st') as [a'|]; try done.
  simpl in Ha. destruct (alt_req_fields a' a) as (_ & _ & -> & _); [congruence|done].
Qed.

Lemma settled_ext ents ents' K st st' :
  same_place st st' -> owners ents' = owners ents -> (st_win st -> st_win st') ->
  settled ents K st -> settled ents' K st'.
Proof using.
  intros Hp Ho Hw (Hg & Hwn & Ha). split_and!; auto; [by eapply sl_good_ext|].
  pose proof (same_place_alt _ _ Hp) as E. destruct (st_alt st'); [done|].
  destruct Ha as [a Ha]. by rewrite Ha in E.
Qed.

Lemma recorded_app ents K l l' : recorded ents K (l ++ l') = recorded ents (recorded ents K l) l'.
Proof. revert K. induction l; simpl; auto. Qed.

Lemma chain_app ents K l l' :
  chain ents K (l ++ l') <-> chain ents K l /\ chain ents (recorded ents K l) l'.
Proof.
  revert K. induction l as [|st l IH]; simpl; intros K; [tauto|]. rewrite IH. tauto.
Qed.

(** The books do not depend on what the search writes to the entries. *)
Lemma recorded_ents ents ents' K l :
  owners ents' = owners ents -> recorded ents' K l = recorded ents K l.
Proof using.
  intros Ho. revert K. induction l as [|st l IH]; simpl; intros K; [done|].
  by rewrite (placed_keys_ext ents ents' st st (same_place_refl st) Ho).
Qed.

Lemma chain_ents ents ents' K l : owners ents' = owners ents -> chain ents K l -> chain ents' K l.
Proof using.
  intros Ho. revert K. induction l as [|st l IH]; simpl; intros K; [done|]. intros [Hs Hc].
  rewrite (placed_keys_ext ents ents' st st (same_place_refl st) Ho). split; [|auto].
  eapply settled_ext; [apply same_place_refl|done|done|done].
Qed.

(** The entry links survive an update that keeps them. *)
Lemma shape_insert stack i st st' :
  stack !! i = Some st -> st_Entry st' = st_Entry st ->
  map st_Entry (<[i := st']> stack) = map st_Entry stack.
Proof.
  intros Hl He. revert i Hl. induction stack as [|s stack IH]; intros [|i] Hl; simplify_eq/=.
  - by rewrite He.
  - f_equal. by apply IH.
Qed.

Lemma search_inv_ents n arb stack ents ents' :
  owners ents' = owners ents -> search_inv n arb stack ents -> search_inv n arb stack ents'.
Proof using.
  intros Ho [A B C D E F]. split; try done; [congruence| |by eapply chain_ents|].
  { eapply Forall_impl; [exact D|]. intros st. by apply sl_inv_ext. }
  by rewrite (recorded_ents ents).
Qed.

(** Writing a state behind the settled prefix. *)
Lemma search_inv_write n arb stack ents i st st' :
  search_inv n arb stack ents -> (n <= i)%nat -> stack !! i = Some st ->
  st_Entry st' = st_Entry st -> st_inv ents st' -> search_inv n arb (<[i := st']> stack) ents.
Proof using.
  intros [A B C D E F] Hn Hl He Hi. split; try done.
  - by rewrite <- A, (shape_insert _ _ _ _ Hl He).
  - by apply Forall_insert.
  - by rewrite take_insert_ge.
  - by rewrite take_insert_ge.
Qed.

(** A new instance with the same books and the same tentative ranges. *)
Lemma search_inv_arb n arb arb' stack ents :
  search_inv n arb stack ents -> same_books arb arb' -> possible arb' ≡ₚ possible arb ->
  search_inv n arb' stack ents.
Proof using.
  intros [A B C D E F] Hb Hk. split; try done; [by eapply same_books_trans|]. by rewrite Hk.
Qed.

(** The last settled state, and the prefix before it. *)
Lemma search_inv_last n arb stack ents st :
  search_inv (S n) arb stack ents -> stack !! n = Some st ->
  settled ents (recorded ents base (take n stack)) st /\
  chain ents base (take n stack) /\
  possible arb ≡ₚ placed_keys ents st ++ recorded ents base (take n stack).
Proof using.
  intros [A B C D E F] Hl. rewrite (take_S_r _ _ _ Hl) in E, F.
  rewrite recorded_app in F. apply chain_app in E as [E1 E2]. simpl in *. tauto.
Qed.

(** Settling the next state. *)
Lemma search_inv_extend n arb arb' stack ents st st0 :
  search_inv n arb stack ents -> stack !! n = Some st0 -> st_Entry st = st_Entry st0 ->
  st_inv ents st -> settled ents (possible arb) st -> same_books arb arb' ->
  possible arb' ≡ₚ placed_keys ents st ++ possible arb ->
  search_inv (S n) arb' (<[n := st]> stack) ents.
Proof using.
  intros HI Hl He Hi (Hg & Hw & Ha) Hb Hk.
  destruct (search_inv_write _ _ _ _ n _ _ HI ltac:(lia) Hl He Hi) as [A B C D E F].
  assert (Hl' : <[n:=st]> stack !! n = Some st).
  { apply list_lookup_insert_eq. by eapply lookup_lt_Some. }
  split; try done; [by eapply same_books_trans| |]; rewrite (take_S_r _ _ _ Hl').
  - apply chain_app. split; [done|]. split; [|done]. split_and!; try done.
    by eapply sl_good_perm.
  - rewrite recorded_app. simpl. by rewrite Hk, F.
Qed.

(** Withdrawing the last settled state. *)
Lemma search_inv_shrink n arb arb' stack ents st :
  search_inv (S n) arb stack ents -> stack !! n = Some st -> same_books arb arb' ->
  possible arb' ≡ₚ recorded ents base (take n stack) -> search_inv n arb' stack ents.
Proof using.
  intros HI Hl Hb Hk. destruct (search_inv_last _ _ _ _ _ HI Hl) as (_ & Hc & _).
  destruct HI as [A B C D E F]. split; try done. by eapply same_books_trans.
Qed.

(** The window search ends, and a hit is a settled placement. *)
Lemma search_windows_ok fuel retry arb ents st :
  same_books arb0 arb -> st_ready ents st -> (retry = true -> st_win st) ->
  (measure st + (if retry then 1 else 0) < fuel)%nat ->
  exists ok arb' st', search_windows cbs fuel retry arb ents st = Some (ok, arb', st') /\
    same_books arb arb' /\ possible arb' = possible arb /\ st_ready ents st' /\
    st_Entry st' = st_Entry st /\ (ok = true -> settled ents (possible arb) st').
Proof using.
  revert retry arb st. induction fuel as [|fuel IH]; intros retry arb st Hb Hi Hw Hf; [lia|].
  assert (Hrefl : same_books arb arb).
  { exists (ar_PossibleAllocation arb), (ar_ConflictCallbackContext arb). by destruct arb. }
  simpl. destruct (if retry then (true, st) else GetNextAllocationRange cbs arb ents st)
    as [more st1] eqn:En.
  assert (H1 : st_ready ents st1 /\ st_Entry st1 = st_Entry st /\
    (more = true -> st_win st1 /\ (measure st1 < fuel)%nat)).
  { destruct retry; [simplify_eq; split_and!; auto; intros _; split; [auto|lia]|].
    destruct (sl_next _ _ _ _ _ Hb Hi En) as (? & ? & Hm). split_and!; auto.
    intros E. destruct (Hm E). split; [done|lia]. }
  destruct H1 as (Hi1 & He1 & Hm1). destruct more; simpl; [|by exists false, arb, st1].
  destruct (Hm1 eq_refl) as [Hw1 Hlt].
  destruct (FindSuitableRange cbs arb ents st1) as [[ok arb2] st2] eqn:Ef.
  destruct (sl_find _ _ _ _ _ _ Hb Hi1 Hw1 Ef) as (Hb2 & Hp2 & Hi2 & He2 & Hm2 & Hok).
  destruct ok.
  - exists true, arb2, st2. split_and!; try done; [congruence|]. intros _. destruct (Hok eq_refl) as (? & ? & ?). by split.
  - destruct (IH false arb2 st2) as (ok & arb3 & st3 & E & A & B & C & D & F); try done;
      [by eapply same_books_trans|lia|].
    exists ok, arb3, st3. rewrite E, Hp2 in *. split_and!; try done; [|congruence..].
    by eapply same_books_trans.
Qed.

Lemma leave_ok s e : NT_SUCCESS s = false -> left_ok e -> turn_ok (leave s e).
Proof using.
  intros Hs Hl. unfold leave. by destruct (ArbpFreeAllocationWorkSpaces _ _) as [stack w].
Qed.

Lemma backtrack_ok st e :
  (eg_cur e <= length idx)%nat ->
  search_inv (eg_cur e) (eg_arb e) (eg_stack e) (eg_ents e) -> turn_ok (backtrack st e).
Proof using.
  intros Hc HI. unfold backtrack. destruct (eg_cur e) as [|c] eqn:Ec.
  - apply leave_ok; [by destruct (_ || _)|]. destruct HI. split; [done|]. simpl.
    destruct (st_Entry st); [|done]. by rewrite owners_alter.
  - split; simpl; [lia|done].
Qed.

Lemma place_ok retry st st0 e :
  (eg_cur e < length idx)%nat -> eg_Backtracking e = false ->
  search_inv (eg_cur e) (eg_arb e) (eg_stack e) (eg_ents e) ->
  eg_stack e !! eg_cur e = Some st0 -> st_Entry st = st_Entry st0 -> st_ready (eg_ents e) st ->
  (retry = true -> st_win st) -> turn_ok (place cbs wfuel retry st e).
Proof using.
  intros Hc Hbt HI Hl He Hi Hw. unfold place.
  pose proof (sl_bound _ st (sl_ready_inv _ _ Hi)) as Hf. pose proof (si_books _ _ _ _ HI) as Hb.
  destruct (search_windows_ok wfuel retry (eg_arb e) (eg_ents e) st)
    as (ok & arb & st' & -> & Hb' & Hp & Hi' & He' & Hok); try done; [destruct retry; lia|].
  pose proof (sl_ready_inv _ _ Hi') as Hinv. destruct ok.
  - destruct (Hok eq_refl) as (Hg & Hw' & [a Ha]). rewrite Ha.
    assert (Hs : settled (eg_ents e) (possible (eg_arb e)) st') by (by split_and!; eauto).
    destruct (alt_Length a =? 0) eqn:E0; simpl.
    + split; simpl; rewrite Hbt; [lia|]. eapply search_inv_ents; [apply (owners_set_result (Some st'))|].
      eapply search_inv_extend; try done; [congruence|]. unfold placed_keys. by rewrite Ha, E0, Hp.
    + destruct (sl_add arb (eg_ents e) _ st' (same_books_trans _ _ _ Hb Hb') Hg) as [Hb2 Hk2].
      split; simpl; rewrite Hbt; [lia|].
      eapply search_inv_extend; try done; [congruence|by eapply same_books_trans|].
      unfold placed_keys. by rewrite Ha, E0, Hk2, Hp.
  - apply backtrack_ok; simpl; [lia|]. eapply search_inv_write; [|done|done|congruence|done].
    eapply search_inv_arb; [done|done|by rewrite Hp].
Qed.

Lemma stack_length n arb stack ents :
  search_inv n arb stack ents -> length stack = S (length idx).
Proof using.
  intros [A _ _ _ _ _]. apply (f_equal length) in A.
  rewrite length_app, !length_map in A. simpl in A. lia.
Qed.

(** [(Current + 1)->CurrentAlternative = NULL] *)
Lemma search_inv_unset n arb stack ents :
  search_inv (S n) arb stack ents -> (n < length idx)%nat ->
  search_inv (S n) arb (alter (st_set_CurrentAlternative None) (S n) stack) ents.
Proof using.
  intros HI Hn. pose proof (stack_length _ _ _ _ HI) as Hlen.
  destruct (lookup_lt_is_Some_2 stack (S n)) as [x Hx]; [lia|].
  rewrite (alter_insert_lookup _ _ _ _ Hx). eapply search_inv_write; try done.
  apply sl_unset. eapply Forall_lookup_1; [apply (si_inv _ _ _ _ HI)|done].
Qed.

Lemma withdraw_ok Deadline st e :
  (eg_cur e < length idx)%nat ->
  search_inv (S (eg_cur e)) (eg_arb e) (eg_stack e) (eg_ents e) ->
  eg_stack e !! eg_cur e = Some st -> st_ready (eg_ents e) st ->
  turn_ok (withdraw cbs wfuel Deadline st e).
Proof using.
  intros Hc HI Hl Hi. unfold withdraw.
  apply search_inv_unset in HI; [|done].
  set (stack := alter _ _ (eg_stack e)) in *.
  assert (Hl' : stack !! eg_cur e = Some st).
  { unfold stack. rewrite list_lookup_alter_ne by lia. done. }
  pose proof (si_books _ _ _ _ HI) as Hb.
  destruct (search_inv_last _ _ _ _ _ HI Hl') as ((Hg & Hw & [a Ha]) & Hch & Hk).
  rewrite Ha. unfold placed_keys in Hk. rewrite Ha in Hk.
  assert (Hrefl : same_books (eg_arb e) (eg_arb e)).
  { exists (ar_PossibleAllocation (eg_arb e)), (ar_ConflictCallbackContext (eg_arb e)).
    by destruct (eg_arb e). }
  destruct (alt_Length a =? 0).
  { apply backtrack_ok; simpl; [lia|]. by eapply search_inv_shrink. }
  simpl. destruct (BacktrackAllocation cbs (eg_arb e) (eg_ents e) st) as [arb st1] eqn:Eb.
  destruct (sl_back _ _ _ _ _ _ Hb Hi Hw Hg Hk Eb) as (Hb1 & Hk1 & Hi1 & Hw1 & He1 & Hg1).
  pose proof (search_inv_shrink _ _ _ _ _ _ HI Hl' Hb1 Hk1) as HI1.
  destruct (has_flag (st_Flags st1) ARBITER_STATE_FLAG_NO_RETRY).
  { apply backtrack_ok; simpl; [lia|].
    eapply search_inv_write; [done|done|done|done|by apply sl_flags, sl_ready_inv]. }
  destruct ((st_CurrentMinimum st1 <? st_Start st1) && _) eqn:Er.
  - apply andb_prop in Er as [Er _]. apply Z.ltb_lt in Er.
    destruct (sl_retry _ _ _ Hi1 Hw1 Hg1 Er) as [Hi2 Hw2]. simpl.
    destruct (_ <=? Deadline); eapply place_ok; try done.
  - eapply place_ok; try done.
Qed.

(** PreprocessEntry at the head of a turn keeps the invariant. *)
Lemma search_inv_preprocess (bt : bool) n arb arb' stack ents st st' s :
  search_inv (if bt then S n else n) arb stack ents -> stack !! n = Some st ->
  PreprocessEntry cbs arb ents st = (s, arb', st') ->
  search_inv (if bt then S n else n) arb' (<[n := st']> stack) ents /\
  st_Entry st' = st_Entry st /\ st_ready ents st'.
Proof using.
  intros HI Hl Ep.
  assert (Hi : st_inv ents st) by (eapply Forall_lookup_1; [apply (si_inv _ _ _ _ HI)|done]).
  destruct (sl_pre _ _ _ _ _ _ Hi Ep) as (Hb & Hk & Hi' & Hp & Hw).
  pose proof (sp_entry _ _ Hp) as He. split_and!; try done.
  pose proof (sl_ready_inv _ _ Hi') as Hinv.
  pose proof (search_inv_arb _ _ _ _ _ HI Hb ltac:(by rewrite Hk)) as HI'.
  destruct bt; [|by eapply search_inv_write].
  destruct (search_inv_last _ _ _ _ _ HI Hl) as (Hs & Hch & Hkk).
  destruct HI' as [A B C D E F].
  assert (Hl' : <[n:=st']> stack !! n = Some st').
  { apply list_lookup_insert_eq. by eapply lookup_lt_Some. }
  split; try done.
  - by rewrite <- A, (shape_insert _ _ _ _ Hl He).
  - by apply Forall_insert.
  - rewrite (take_S_r _ _ _ Hl'), take_insert_ge by done. apply chain_app. split; [done|].
    split; [|done]. by eapply settled_ext.
  - rewrite (take_S_r _ _ _ Hl'), take_insert_ge, recorded_app by done. simpl.
    by rewrite (placed_keys_ext ents ents st st'), Hk, Hkk.
Qed.

Lemma engine_turn_ok Deadline HardDeadline st e i :
  engine_inv e -> eg_stack e !! eg_cur e = Some st -> st_Entry st = Some i ->
  turn_ok (engine_turn cbs wfuel Deadline HardDeadline st e).
Proof using.
  intros [Hc HI] Hl Hent. unfold engine_turn. simpl.
  destruct (HardDeadline <? _).
  { apply leave_ok; [done|]. destruct HI. split; [done|]. simpl. by rewrite owners_set_result. }
  destruct (PreprocessEntry cbs (eg_arb e) (eg_ents e) st) as [[s arb] st'] eqn:Ep.
  destruct (search_inv_preprocess _ _ _ _ _ _ _ _ _ HI Hl Ep) as (HI' & He & Hi').
  assert (Hlt : (eg_cur e < length idx)%nat).
  { destruct (eg_Backtracking e); [done|].
    pose proof (f_equal (fun l => l !! eg_cur e) (si_shape _ _ _ _ HI)) as Hsh. simpl in Hsh.
    rewrite lookup_map_option, Hl in Hsh. simpl in Hsh. rewrite Hent in Hsh.
    destruct (decide (eg_cur e < length idx)%nat); [done|].
    rewrite lookup_app_r, length_map in Hsh by (rewrite length_map; lia).
    by replace (eg_cur e - length idx)%nat with 0%nat in Hsh by lia. }
  assert (Hl' : <[eg_cur e := st']> (eg_stack e) !! eg_cur e = Some st').
  { apply list_lookup_insert_eq. by eapply lookup_lt_Some. }
  destruct (NT_SUCCESS s) eqn:Es; simpl.
  - destruct (eg_Backtracking e) eqn:Ebt; [by apply withdraw_ok|].
    eapply place_ok; try done.
  - apply leave_ok; [done|]. by destruct HI'.
Qed.

(** Freeing the workspaces moves no placement. *)
Lemma free_workspaces_same stack w stack' w' :
  ArbpFreeAllocationWorkSpaces stack w = (stack', w') ->
  Forall2 (fun st st' => same_place st st' /\ (st_win st -> st_win st')) stack stack'.
Proof using.
  assert (Hid : forall l, Forall2 (fun st st' => same_place st st' /\ (st_win st -> st_win st')) l l).
  { intros l. induction l; constructor; [|done]. split; [apply same_place_refl|done]. }
  revert w stack' w'. induction stack as [|st stack IH]; simpl; intros w stack' w' E; [by simplify_eq|].
  destruct (st_Entry st); [|simplify_eq; apply Hid].
  destruct (if has_flag (st_Flags st) ARBITER_STATE_FLAG_WORKSPACE then _ else _) as [st1 w1] eqn:E1.
  destruct (ArbpFreeAllocationWorkSpaces stack w1) as [rest w2] eqn:E2. simplify_eq.
  constructor; [|by eapply IH].
  destruct (has_flag _ _); simplify_eq; [|split; [apply same_place_refl|done]].
  split; [|apply sl_win_ws]. split; try done. simpl. apply has_flag_clear. done.
Qed.

Lemma recorded_same ents K l l' :
  Forall2 (fun st st' => same_place st st' /\ (st_win st -> st_win st')) l l' ->
  recorded ents K l' = recorded ents K l.
Proof using.
  intros HF. revert K. induction HF as [|st st' l l' [Hp _] _ IH]; simpl; intros K; [done|].
  by rewrite (placed_keys_ext ents ents _ _ Hp).
Qed.

Lemma chain_same ents K l l' :
  Forall2 (fun st st' => same_place st st' /\ (st_win st -> st_win st')) l l' ->
  chain ents K l -> chain ents K l'.
Proof using.
  intros HF. revert K. induction HF as [|st st' l l' [Hp Hw] _ IH]; simpl; intros K; [done|].
  intros [Hs Hc]. rewrite (placed_keys_ext ents ents _ _ Hp) by done.
  split; [by eapply settled_ext|by apply IH].
Qed.

(** What the requester of an entry is told. *)
Definition told (st : ARBITER_ALLOCATION_STATE) (en : ARBITER_LIST_ENTRY) : Prop :=
  exists a, st_alt st = Some a /\ ent_SelectedAlternative en = Some (alt_Descriptor a) /\
    (ent_Result en = ArbiterResultSuccess \/ ent_Result en = ArbiterResultNullRequest) /\
    forall cm', ent_Assignment en = Some cm' ->
      exists s cm, PackResource cbs (alt_Descriptor a) (st_Start st) cm = (s, cm') /\
        NT_SUCCESS s = true.

Lemma report_entry_told st a en s en' :
  st_alt st = Some a -> report_entry cbs st a en = (s, en') ->
  request en' = request en /\
  (NT_SUCCESS s = true -> told st en').
Proof using.
  intros Ha. unfold report_entry. simpl.
  destruct (ent_Assignment en) as [cm|] eqn:Ecm.
  - destruct (PackResource cbs (alt_Descriptor a) (st_Start st) cm) as [s1 cm1] eqn:Ep.
    destruct (NT_SUCCESS s1) eqn:Es; simpl; [|intros [= <- <-]; split; [done|congruence]].
    intros [= <- <-]. split; [by destruct (bool_decide _)|]. intros _. exists a.
    destruct (bool_decide_reflect (ent_Result en = ArbiterResultNullRequest)); simpl;
      (split_and!; try done; [by auto|]); intros cm' [= <-]; by exists s1, cm.
  - simpl. intros [= <- <-]. split; [by destruct (bool_decide _)|]. intros _. exists a.
    destruct (bool_decide_reflect (ent_Result en = ArbiterResultNullRequest)); simpl;
      (split_and!; try done; [by auto|]); rewrite Ecm; intros cm' [=].
Qed.

(** Dangling entries apart, the report loop visits every state; the entries of
    distinct states are distinct, so no report overwrites another. *)
Lemma report_solution_ok ids stack ents :
  map st_Entry stack = map Some ids ++ [None] ->
  Forall (fun st => is_Some (st_alt st)) (take (length ids) stack) ->
  NoDup ids -> Forall (fun i => (i < length ents)%nat) ids ->
  exists s ents', report_solution cbs stack ents = Some (s, ents') /\
    owners ents' = owners ents /\
    (forall j, j ∉ ids -> ents' !! j = ents !! j) /\
    (NT_SUCCESS s = true ->
     forall k i st, ids !! k = Some i -> stack !! k = Some st ->
       exists en, ents' !! i = Some en /\ told st en).
Proof using.
  revert stack ents. induction ids as [|i ids IH]; simpl; intros stack ents Hsh Ha Hnd Hlt.
  { destruct stack as [|st [|]]; simplify_eq/=. rewrite H. by exists STATUS_SUCCESS, ents. }
  destruct stack as [|st stack]; [done|]. simpl in *. injection Hsh as Hst Hsh. rewrite Hst.
  apply Forall_cons in Ha as [[a Ha] Has]. apply Forall_cons in Hlt as [Hi Hlt].
  apply NoDup_cons in Hnd as [Hni Hnd]. rewrite Ha.
  destruct (lookup_lt_is_Some_2 _ _ Hi) as [en Hen]. rewrite Hen.
  destruct (report_entry cbs st a en) as [s1 en1] eqn:Er.
  destruct (report_entry_told _ _ _ _ _ Ha Er) as [Hown Htold].
  assert (Hown' : owners (<[i := en1]> ents) = owners ents).
  { rewrite <- (alter_insert_lookup (fun _ => en1) _ _ _ Hen). unfold owners.
    rewrite (map_alter_same _ _ _ _ _ Hen); [done|done]. }
  destruct (NT_SUCCESS s1) eqn:Es; simpl.
  2:{ exists s1, (<[i := en1]> ents). split_and!; try done; [|congruence].
      intros j Hj. apply list_lookup_insert_ne. intros ->. apply Hj. by left. }
  destruct (IH stack (<[i := en1]> ents)) as (s & ents' & E & Ho & Hout & Hin); try done.
  { rewrite length_insert. done. }
  exists s, ents'. split_and!; [done|congruence| |].
  - intros j Hj. rewrite Hout by (intros ?; apply Hj; by right).
    apply list_lookup_insert_ne. intros ->. apply Hj. by left.
  - intros Hs [|k] i' st' Hk Hl; simplify_eq/=; [|by eapply Hin].
    exists en1. rewrite Hout by done. rewrite list_lookup_insert_eq by done. auto.
Qed.

(** A complete solution: every entry has a placement that was found against
    the placements before it, the tentative list holds exactly the placements,
    and every requester is told its own. *)
Record solved (e : engine) : Prop := {
  sv_shape : map st_Entry (eg_stack e) = map Some idx ++ [None];
  sv_chain : chain (eg_ents e) base (take (length idx) (eg_stack e));
  sv_keys : possible (eg_arb e) ≡ₚ recorded (eg_ents e) base (take (length idx) (eg_stack e));
  sv_told : forall k i st, idx !! k = Some i -> eg_stack e !! k = Some st ->
              exists en, eg_ents e !! i = Some en /\ told st en
}.

Lemma told_same st st' en : same_place st st' -> told st en -> told st' en.
Proof.
  intros Hp (a & Ha & Hsel & Hr & Hcm). pose proof (same_place_alt _ _ Hp) as E.
  rewrite Ha in E. destruct (st_alt st') as [a'|] eqn:Ea'; [|done]. simpl in E.
  assert (Hd : alt_Descriptor a' = alt_Descriptor a).
  { apply alt_req_fields. congruence. }
  exists a'. rewrite Hd, (sp_start _ _ Hp). by split_and!.
Qed.

(** Leaving after a report that succeeded. *)
Lemma leave_solved s e :
  solved e -> left_ok e ->
  match leave s e with Return s' e' => s' = s /\ left_ok e' /\ solved e' | _ => False end.
Proof using.
  intros [A B C D] Hl. unfold leave.
  destruct (ArbpFreeAllocationWorkSpaces (eg_stack e) (eg_w e)) as [stack w] eqn:Ef.
  pose proof (free_workspaces_same _ _ _ _ Ef) as HF.
  pose proof (Forall2_take _ _ _ (length idx) HF) as HFt.
  split_and!; try done. split; simpl.
  - rewrite <- A. symmetry. clear -HF. induction HF as [|st st' l l' [Hp _] _ IH]; [done|]. simpl.
    by rewrite IH, (sp_entry _ _ Hp).
  - by eapply chain_same.
  - by rewrite (recorded_same _ _ _ _ HFt).
  - intros k i st' Hk Hl'. destruct (Forall2_lookup_r _ _ _ _ _ HF Hl') as (st & Hl0 & Hp & _).
    destruct (D _ _ _ Hk Hl0) as (en & He & Ht). exists en. split; [done|]. by eapply told_same.
Qed.

Lemma chain_alts ents K l : chain ents K l -> Forall (fun st => is_Some (st_alt st)) l.
Proof using.
  revert K. induction l as [|st l IH]; simpl; intros K; [constructor|].
  intros [(_ & _ & Ha) Hc]. constructor; [done|by eapply IH].
Qed.

(** The state [Current] points at when the outer loop ends. *)
Lemma engine_inv_done e st :
  engine_inv e -> eg_stack e !! eg_cur e = Some st -> st_Entry st = None ->
  search_inv (length idx) (eg_arb e) (eg_stack e) (eg_ents e).
Proof using.
  intros [Hc HI] Hl He.
  pose proof (f_equal (fun l => l !! eg_cur e) (si_shape _ _ _ _ HI)) as Hsh. simpl in Hsh.
  rewrite lookup_map_option, Hl in Hsh. simpl in Hsh. rewrite He in Hsh.
  assert (Hge : (length idx <= eg_cur e)%nat).
  { destruct (decide (eg_cur e < length idx)%nat) as [Hlt|]; [|lia].
    rewrite lookup_app_l, lookup_map_option in Hsh by (rewrite length_map; done).
    by destruct (lookup_lt_is_Some_2 _ _ Hlt) as [x Hx]; rewrite Hx in Hsh. }
  destruct (eg_Backtracking e); [lia|]. by replace (length idx) with (eg_cur e) by lia.
Qed.

Lemma engine_loop_ok fuel Deadline HardDeadline e :
  NoDup idx -> Forall (fun i => (i < length pdos)%nat) idx -> engine_inv e ->
  match engine_loop cbs fuel wfuel Deadline HardDeadline e with
  | Return s e' => left_ok e' /\ (NT_SUCCESS s = true -> solved e')
  | NoFuel => True
  | _ => False
  end.
Proof using.
  intros Hnd Hlt. revert e. induction fuel as [|fuel IH]; intros e HI; [done|].
  cbn [engine_loop].
  pose proof (stack_length _ _ _ _ (proj2 HI)) as Hlen.
  destruct (lookup_lt_is_Some_2 (eg_stack e) (eg_cur e)) as [st Hl].
  { destruct HI as [Hc _]. destruct (eg_Backtracking e); lia. }
  rewrite Hl. destruct (st_Entry st) as [i|] eqn:He.
  { pose proof (engine_turn_ok Deadline HardDeadline st e i HI Hl He) as Ht.
    destruct (engine_turn cbs wfuel Deadline HardDeadline st e); simpl in Ht; try done.
    - by apply IH.
    - destruct Ht as [Hs Hl']. split; [done|]. congruence. }
  destruct (engine_inv_done _ _ HI Hl He) as [A B C D E F].
  destruct (report_solution_ok idx (eg_stack e) (eg_ents e))
    as (s & ents & -> & Ho & _ & Htold); try done; [by eapply chain_alts|..].
  { rewrite <- C in Hlt. unfold owners in Hlt. by rewrite length_map in Hlt. }
  assert (Hleft : left_ok (mkEngine (eg_arb e) (eg_stack e) ents (eg_w e) (eg_cur e)
                             (eg_Backtracking e) (eg_McfgConflict e))) by (split; simpl; congruence).
  destruct (NT_SUCCESS s) eqn:Es.
  - eapply (leave_solved s) in Hleft; [|split; simpl; try done].
    + destruct (leave s _); try done. destruct Hleft as (-> & ? & ?). by split.
    + by eapply chain_ents.
    + by rewrite (recorded_ents (eg_ents e)).
    + by apply Htold.
  - pose proof (leave_ok s _ Es Hleft) as Hq. destruct (leave s _) eqn:El; try done.
    + exfalso. clear -El. unfold leave in El. by destruct (ArbpFreeAllocationWorkSpaces _ _).
    + destruct Hq. split; [done|congruence].
Qed.

(** ** The hard deadline ends the search *)

(** A turn that goes on has read the clock at least [k] more times. *)
Definition turn_reads (w : world) (k : nat) (t : turn) : Prop :=
  match t with
  | Continue e => w_clock (eg_w e) = w_clock w /\ (w_reads w + k <= w_reads (eg_w e))%nat
  | _ => True
  end.

Lemma leave_reads w k s e : turn_reads w k (leave s e).
Proof. unfold leave. by destruct (ArbpFreeAllocationWorkSpaces _ _). Qed.

Lemma backtrack_reads w k st e :
  w_clock (eg_w e) = w_clock w -> (w_reads w + k <= w_reads (eg_w e))%nat ->
  turn_reads w k (backtrack st e).
Proof. intros H1 H2. unfold backtrack. destruct (eg_cur e); [apply leave_reads|done]. Qed.

Lemma place_reads w k retry st e :
  w_clock (eg_w e) = w_clock w -> (w_reads w + k <= w_reads (eg_w e))%nat ->
  turn_reads w k (place cbs wfuel retry st e).
Proof.
  intros H1 H2. unfold place.
  destruct (search_windows cbs wfuel retry (eg_arb e) (eg_ents e) st) as [[[[] arb] st']|]; [| |done].
  - destruct (st_alt st') as [a|]; [|done]. by destruct (negb _).
  - by apply backtrack_reads.
Qed.

Lemma withdraw_reads w k Deadline st e :
  w_clock (eg_w e) = w_clock w -> (w_reads w + k <= w_reads (eg_w e))%nat ->
  turn_reads w k (withdraw cbs wfuel Deadline st e).
Proof.
  intros H1 H2. unfold withdraw. destruct (st_alt st) as [a|]; [|by apply backtrack_reads].
  destruct (alt_Length a =? 0); [by apply backtrack_reads|].
  destruct (BacktrackAllocation _ _ _ _) as [arb st1].
  destruct (has_flag _ _); [by apply backtrack_reads|].
  destruct (_ && _); simpl; [|by apply place_reads].
  destruct (_ <=? Deadline); apply place_reads; simpl; try done; lia.
Qed.

(** A turn past the hard deadline returns; any other one reads the clock. *)
Lemma engine_turn_reads Deadline HardDeadline st e :
  if HardDeadline <? w_clock (eg_w e) (w_reads (eg_w e))
  then exists s e', engine_turn cbs wfuel Deadline HardDeadline st e = Return s e'
  else turn_reads (eg_w e) 1 (engine_turn cbs wfuel Deadline HardDeadline st e).
Proof.
  unfold engine_turn. simpl. destruct (HardDeadline <? _).
  - unfold leave. destruct (ArbpFreeAllocationWorkSpaces _ _). eauto.
  - destruct (PreprocessEntry _ _ _ _) as [[s arb] st'].
    destruct (NT_SUCCESS s); simpl; [|apply leave_reads].
    destruct (eg_Backtracking e); [apply withdraw_reads|apply place_reads]; simpl; try done; lia.
Qed.

Lemma engine_loop_ends N fuel Deadline HardDeadline e :
  NoDup idx -> Forall (fun i => (i < length pdos)%nat) idx -> engine_inv e ->
  (forall n, (N <= n)%nat -> HardDeadline < w_clock (eg_w e) n) ->
  (N - w_reads (eg_w e) < fuel)%nat ->
  exists s e', engine_loop cbs fuel wfuel Deadline HardDeadline e = Return s e' /\
    left_ok e' /\ (NT_SUCCESS s = true -> solved e').
Proof using.
  intros Hnd Hlt HI HN Hf.
  pose proof (engine_loop_ok fuel Deadline HardDeadline e Hnd Hlt HI) as Hok.
  assert (Hne : engine_loop cbs fuel wfuel Deadline HardDeadline e <> NoFuel).
  { clear Hok. revert e HI HN Hf. induction fuel as [|fuel IH]; intros e HI HN Hf; [lia|].
    cbn [engine_loop]. destruct (eg_stack e !! eg_cur e) as [st|] eqn:Hl; [|done].
    destruct (st_Entry st) as [i|] eqn:He.
    - pose proof (engine_turn_ok Deadline HardDeadline st e i HI Hl He) as Ht.
      pose proof (engine_turn_reads Deadline HardDeadline st e) as Hr.
      destruct (HardDeadline <? _) eqn:Ed; [destruct Hr as (s & e' & ->); done|].
      destruct (engine_turn cbs wfuel Deadline HardDeadline st e) as [e'| | |]; try done.
      destruct Hr as [Hc Hr]. apply IH; [done|by rewrite Hc|].
      assert (w_reads (eg_w e) < N)%nat; [|lia].
      destruct (decide (w_reads (eg_w e) < N)%nat); [done|].
      apply Z.ltb_ge in Ed. specialize (HN (w_reads (eg_w e)) ltac:(lia)). lia.
    - destruct (report_solution cbs (eg_stack e) (eg_ents e)) as [[s ents]|]; [|done].
      unfold leave. by destruct (ArbpFreeAllocationWorkSpaces _ _). }
  destruct (engine_loop cbs fuel wfuel Deadline HardDeadline e); try done. eauto.
Qed.
End EngineFacts.

(** The hard deadline of a search that starts in [w]. *)
Definition hard_deadline (w : world) : Z :=
  w_clock w (S (w_reads w)) +u ARBITER_ALLOCATE_HARD_DEADLINE.

Lemma same_books_refl `{R : RtlRangeList} arb : same_books arb arb.
Proof.
  exists (ar_PossibleAllocation arb), (ar_ConflictCallbackContext arb). by destruct arb.
Qed.

Lemma allocate_entry_solved `{R : RtlRangeList} {cbs arb wfuel}
  {S_ : ArbiterSlots cbs arb wfuel} N fuel stack ents w idx :
  map st_Entry stack = map Some idx ++ [None] -> NoDup idx ->
  Forall (fun i => (i < length ents)%nat) idx -> Forall (st_inv ents) stack ->
  (forall n, (N <= n)%nat -> hard_deadline w < w_clock w n) -> (N < fuel)%nat ->
  exists s e, ArbiterLibAllocateEntry cbs fuel wfuel arb stack ents w = Return s e /\
    same_books arb (eg_arb e) /\ owners (eg_ents e) = owners ents /\
    (NT_SUCCESS s = true -> solved idx (possible arb) e).
Proof.
  intros Hsh Hnd Hlt Hi HN Hf. unfold ArbiterLibAllocateEntry. simpl.
  destruct (engine_loop_ends idx (owners ents) (possible arb) N fuel
              (w_clock w (w_reads w) +u ARBITER_ALLOCATE_DEADLINE) (hard_deadline w)
              (mkEngine arb stack ents
                 (mkWorld (w_clock w) (w_pool w) (S (S (w_reads w))) (w_allocs w) (w_live w))
                 0 false false)) as (s & e & E & [Hb Ho] & Hs); simpl; try done; try lia.
  - unfold owners. by rewrite length_map.
  - split; simpl; [lia|]. split; try done. apply same_books_refl.
  - by exists s, e.
Qed.

(** C2.  ArbiterLibAllocateEntry over any slots that meet [ArbiterSlots]
    returns (given a clock that passes the hard deadline by its [N]-th read,
    [N] turns are enough), never follows a NULL CurrentAlternative, and leaves
    every part of the instance alone but the tentative list.  When it succeeds
    the solution is complete: each entry's placement was found against what
    the entries before it had recorded, the tentative list holds what it held
    plus exactly the placements of the stack, with nothing of the choices that
    were withdrawn, and each requester is told the placement of its own state. *)
Theorem allocate_entry_correct `{R : RtlRangeList} {cbs arb wfuel}
  {S_ : ArbiterSlots cbs arb wfuel} N fuel stack ents w idx :
  map st_Entry stack = map Some idx ++ [None] -> NoDup idx ->
  Forall (fun i => (i < length ents)%nat) idx -> Forall (st_inv ents) stack ->
  (forall n, (N <= n)%nat -> hard_deadline w < w_clock w n) -> (N < fuel)%nat ->
  exists s e, ArbiterLibAllocateEntry cbs fuel wfuel arb stack ents w = Return s e /\
    same_books arb (eg_arb e) /\ owners (eg_ents e) = owners ents /\
    (NT_SUCCESS s = true -> solved idx (possible arb) e).
Proof. apply allocate_entry_solved. Qed.
