(* ===== verification/DefaultSlots.v ===== *)
(** The library's own slots meet the engine's contract: what
    reactos-libs/arbiter/arbiter.c leaves in an instance that overrides
    nothing, and what the search guarantees with it. *)
From stdpp Require Import base list numbers option strings.
From Stdlib Require Import ZArith Lia Permutation.
From S2P Require Import Prelude NtEnv RangeListRef ArbTypes Ordering RangeWalk.
From S2P Require Import Entry.

Abbreviation range_core := (Z * Z * PVOID * Z * bool)%type.
Definition core_key (c : range_core) : range_key := c.1.1.
Definition core_Attributes (c : range_core) : Z := c.1.2.
Definition core_shared (c : range_core) : bool := c.2.

(** The slots ArbiterLibInitializeInstance fills in for an arbiter that brings
    only its descriptor translation. *)
Definition ArbiterLibCallbacks `{R : RtlRangeList} (env : device_env) (mmconfig : mmconfig_table)
  (unpack : IO_RESOURCE_DESCRIPTOR -> NTSTATUS * (Z * Z * Z * Z))
  (pack : IO_RESOURCE_DESCRIPTOR -> Z -> CM_PARTIAL_RESOURCE_DESCRIPTOR ->
          NTSTATUS * CM_PARTIAL_RESOURCE_DESCRIPTOR)
  (unpack_resource : CM_PARTIAL_RESOURCE_DESCRIPTOR -> NTSTATUS * (Z * Z))
  (score : option (IO_RESOURCE_DESCRIPTOR -> Z)) : ARBITER_CALLBACKS :=
  mkCallbacks unpack pack unpack_resource score
    ArbiterLibPreprocessEntry
    (fun arb _ st => default (false, st) (ArbiterLibGetNextAllocationRange (ar_OrderingList arb) st))
    (ArbiterLibFindSuitableRange env mmconfig (Some ArbiterLibOverrideConflict))
    ArbiterLibAddAllocation
    ArbiterLibBacktrackAllocation.

(** ** Placements seen from the recorded ranges *)

Section Placements.
Context (env : device_env).
(** The ranges the instance's conflict callback lets a placement join. *)
Context (joins : range_core -> bool).

(** The recorded range does not stand in the way of the request. *)
Definition core_past (flags mask : Z) (c : range_core) : Prop :=
  has_flag (core_Attributes c) mask = true \/
  (has_flag flags RTL_RANGE_LIST_SHARED_OK = true /\ core_shared c = true) \/
  (has_flag flags RTL_RANGE_LIST_NULL_CONFLICT_OK = true /\ key_Owner (core_key c) = NULL) \/
  joins c = true.

(** The devices may share a driver-exclusive range. *)
Definition may_share_with (Requester Owner : PVOID) : Prop :=
  Owner <> NULL /\
  ((ArbpReadRootEnumerated env Requester = Some true /\
    ArbpReadRootEnumerated env Owner <> Some false) \/
   ArbpSharesDriverStack env Requester Owner = true).

Definition meets (s e : Z) (k : range_key) : Prop :=
  overlaps s e (key_Start k) (key_End k) = true.

(** How the placement of [st] came about against the recorded ranges [C]. *)
Inductive placed_against (ents : list ARBITER_LIST_ENTRY) (C : list range_core)
  (st : ARBITER_ALLOCATION_STATE) (a : ARBITER_ALTERNATIVE) : Prop :=
| pa_null : alt_Length a = 0 -> placed_against ents C st a
| pa_free :
    alt_Length a <> 0 -> st_End st = st_Start st + alt_Length a - 1 ->
    Forall (fun c => meets (st_Start st) (st_End st) (core_key c) ->
              core_past (find_flags st a) (st_RangeAvailableAttributes st) c) C ->
    placed_against ents C st a
| pa_shared c :
    alt_Length a <> 0 -> c ∈ C -> may_share_with (st_owner ents st) (key_Owner (core_key c)) ->
    placed_against ents C st a
| pa_own :
    alt_Length a <> 0 -> has_flag (alt_Flags a) ARBITER_ALTERNATIVE_FLAG_FIXED = true ->
    Forall (fun c => meets (st_Start st) (st_End st) (core_key c) ->
              has_flag (core_Attributes c) (st_RangeAvailableAttributes st) = true \/
              key_Owner (core_key c) = st_owner ents st) C ->
    placed_against ents C st a.

(** A placement inside its requirement, aligned, found against ranges whose
    keys are [K]. *)
Definition default_good (ents : list ARBITER_LIST_ENTRY) (K : list range_key)
  (st : ARBITER_ALLOCATION_STATE) : Prop :=
  exists a C, st_alt st = Some a /\ map core_key C ≡ₚ K /\
    alt_Minimum a <= st_Start st <= st_End st /\ st_End st <= alt_Maximum a /\
    (alt_Length a <> 0 -> st_Start st mod alt_align a = 0) /\
    placed_against ents C st a.

Lemma default_good_perm ents K K' st : K ≡ₚ K' -> default_good ents K st -> default_good ents K' st.
Proof. intros HK (a & C & ? & HC & ?). exists a, C. rewrite <- HK. done. Qed.

Lemma st_owner_ext ents ents' st st' :
  owners ents' = owners ents -> st_Entry st' = st_Entry st ->
  st_owner ents' st' = st_owner ents st.
Proof.
  intros Ho He. unfold st_owner, st_entry. rewrite He. destruct (st_Entry st) as [i|]; [|done].
  apply (f_equal (fun l => l !! i)) in Ho. unfold owners in Ho.
  rewrite !lookup_map_option in Ho.
  destruct (ents !! i), (ents' !! i); unfold request in Ho; simpl in Ho; congruence.
Qed.

Lemma placed_against_ext ents ents' C st st' a a' :
  same_place st st' -> owners ents' = owners ents -> alt_req a' = alt_req a ->
  placed_against ents C st a -> placed_against ents' C st' a'.
Proof.
  intros Hp Ho Hreq Hpl. pose proof (st_owner_ext ents ents' st st' Ho (sp_entry _ _ Hp)) as Hown.
  destruct Hp as [P1 P2 P3 P4 P5 P6 P7].
  destruct (alt_req_fields a' a) as (R1 & R2 & R3 & R4 & R5 & _); [done|].
  assert (Hff : find_flags st' a' = find_flags st a) by (unfold find_flags; by rewrite P6, R5).
  destruct Hpl as [|? HE HF|c|? ? HF].
  - apply pa_null. lia.
  - apply pa_free; [lia|congruence|]. by rewrite P1, P2, P7, Hff.
  - eapply pa_shared; [lia|done|by rewrite Hown].
  - apply pa_own; [lia|congruence|]. by rewrite P1, P2, P7, Hown.
Qed.

Lemma default_good_ext ents ents' K st st' :
  same_place st st' -> owners ents' = owners ents ->
  default_good ents K st -> default_good ents' K st'.
Proof.
  intros Hp Ho (a & C & Ha & HC & Hb & Hmx & Hal & Hpl).
  pose proof (same_place_alt _ _ Hp) as E. rewrite Ha in E.
  destruct (st_alt st') as [a'|] eqn:Ea'; [|done]. exists a', C.
  assert (Hreq : alt_req a' = alt_req a) by (simpl in E; congruence).
  destruct (alt_req_fields a' a Hreq) as (R1 & R2 & R3 & R4 & _).
  rewrite (sp_start _ _ Hp), (sp_end _ _ Hp), R1, R2, R3, R4.
  split_and!; try done; try lia. by eapply placed_against_ext.
Qed.
End Placements.

(** An instance without a conflict callback lets nothing be joined. *)
Definition joins_nothing (c : range_core) : bool := false.

Definition callback_joins (cb : option conflict_callback) (joins : range_core -> bool) : Prop :=
  forall f slot r, cb = Some f -> (f slot r).1 = true -> joins (rng_core r) = true.

Lemma no_callback_joins cb joins : cb = None -> callback_joins cb joins.
Proof. by intros -> f slot r [=]. Qed.

(** ** The library's slots, for any conflict callback *)

Section LibrarySlots.
Context `{R : RtlRangeList} {L : RtlRangeListLaws R} {A : RtlPoolSuffices R}.
Context (env : device_env) (mmconfig : mmconfig_table).
Context (unpack : IO_RESOURCE_DESCRIPTOR -> NTSTATUS * (Z * Z * Z * Z))
  (pack : IO_RESOURCE_DESCRIPTOR -> Z -> CM_PARTIAL_RESOURCE_DESCRIPTOR ->
          NTSTATUS * CM_PARTIAL_RESOURCE_DESCRIPTOR)
  (unpack_resource : CM_PARTIAL_RESOURCE_DESCRIPTOR -> NTSTATUS * (Z * Z))
  (score : option (IO_RESOURCE_DESCRIPTOR -> Z)).
Context (arb0 : ARBITER_INSTANCE) (wfuel : nat) (joins : range_core -> bool).
Context (W : ol_wf (ar_OrderingList arb0)) (Hcb : callback_joins (ar_ConflictCallback arb0) joins).
#[local] Abbreviation ol := (ar_OrderingList arb0).
#[local] Abbreviation cbs :=
  (ArbiterLibCallbacks env mmconfig unpack pack unpack_resource score).

Definition default_inv (st : ARBITER_ALLOCATION_STATE) : Prop :=
  walk_inv ol st /\ (walk_fuel ol st < wfuel)%nat.

(** The window is the walker's, or a lower part of it. *)
Definition default_win (st : ARBITER_ALLOCATION_STATE) : Prop :=
  exists a, st_alt st = Some a /\ alt_Minimum a <= st_CurrentMinimum st /\
    0 <= st_CurrentMaximum st <= alt_Maximum a /\
    (alt_Length a <> 0 -> st_CurrentMinimum st mod alt_align a = 0).

Definition default_keys (ents : list ARBITER_LIST_ENTRY) (st : ARBITER_ALLOCATION_STATE)
  : list range_key := [(st_Start st, st_End st, st_owner ents st)].

Lemma books_ordering arb : same_books arb0 arb -> ar_OrderingList arb = ol.
Proof. by intros (p & s & ->). Qed.

Lemma books_callback arb : same_books arb0 arb -> ar_ConflictCallback arb = ar_ConflictCallback arb0.
Proof using. by intros (p & s & ->). Qed.

Lemma st_alt_wf st a : Forall alt_wf (st_Alternatives st) -> st_alt st = Some a -> alt_wf a.
Proof.
  intros Hwf Ha. unfold st_alt in Ha. destruct (st_CurrentAlternative st); [|done].
  by eapply Forall_lookup_1.
Qed.

Lemma inv_alt_wf st a : default_inv st -> st_alt st = Some a -> alt_wf a.
Proof. intros [ [Hwf _] _]. by apply st_alt_wf. Qed.

Lemma default_keys_ext ents ents' st st' :
  same_place st st' -> owners ents' = owners ents -> default_keys ents' st' = default_keys ents st.
Proof using.
  intros Hp Ho. unfold default_keys.
  by rewrite (sp_start _ _ Hp), (sp_end _ _ Hp), (st_owner_ext _ _ _ _ Ho (sp_entry _ _ Hp)).
Qed.

Lemma walk_fuel_reqs st st' :
  map alt_req (st_Alternatives st') = map alt_req (st_Alternatives st) ->
  walk_fuel ol st' = walk_fuel ol st.
Proof.
  intros E. apply (f_equal length) in E. rewrite !length_map in E. unfold walk_fuel. by rewrite E.
Qed.

Lemma default_next arb ents st b st' :
  same_books arb0 arb -> default_inv st -> GetNextAllocationRange cbs arb ents st = (b, st') ->
  default_inv st' /\ st_Entry st' = st_Entry st /\
  (b = true -> default_win st' /\ (walk_measure ol st' < walk_measure ol st)%nat).
Proof using W.
  intros Hb [Hi Hf] E. simpl in E. rewrite (books_ordering _ Hb) in E.
  destruct (get_next_range_terminates_aux ol st W) as (b1 & st1 & E1 & Hm).
  rewrite E1 in E. simpl in E. injection E as -> ->.
  destruct (get_next_range_outcome ol st b st' W Hi E1) as [Hfr Hr].
  pose proof (wfr_reqs _ _ Hfr) as Hreq. pose proof (wfr_entry _ _ Hfr) as He.
  split; [split; [|by rewrite (walk_fuel_reqs _ _ Hreq)]|split; [done|]].
  - destruct b; [by destruct Hr|]. split; [by eapply Forall_alt_wf_reqs; [|apply Hi]|right].
    eapply Forall_impl; [exact Hr|]. intros a Ha. split; [simpl in *; lia|].
    intros o (Hne & _) _. done.
  - intros ->. split; [|by apply Hm]. destruct Hr as [Hi' (a & Ha & _ & W1 & W2 & W3 & _)].
    exists a. split_and!; try done; try lia. intros Hne. by apply W3.
Qed.

Lemma override_loop_avail rs pdo st self b st' :
  override_loop rs pdo st self = (b, st') ->
  st_RangeAvailableAttributes st' = st_RangeAvailableAttributes st.
Proof.
  revert st self. induction rs as [|r rs IH]; simpl; intros st self E; [by simplify_eq|].
  destruct (blocks_window st r); [|eauto]. destruct (negb _); [by simplify_eq|]. by apply IH in E.
Qed.

Lemma override_conflict_avail arb ents st b st' :
  ArbiterLibOverrideConflict arb ents st = (b, st') ->
  st_RangeAvailableAttributes st' = st_RangeAvailableAttributes st.
Proof.
  unfold ArbiterLibOverrideConflict. destruct (st_alt st); [|by intros [= _ <-]].
  destruct (negb _); [by intros [= _ <-]|]. destruct (_ =? NULL); [by intros [= _ <-]|].
  apply override_loop_avail.
Qed.

(** The masks a finder leaves behind are those it searched with. *)
Lemma find_masks arb ents st b arb' st' a :
  st_alt st = Some a -> FindSuitableRange cbs arb ents st = (b, arb', st') ->
  b = true -> alt_Length a <> 0 ->
  st_RangeAvailableAttributes st' = find_mask ents st a /\ st_Flags st' = st_Flags st.
Proof.
  intros Ha E -> Hne. simpl in E. unfold ArbiterLibFindSuitableRange in E. rewrite Ha in E.
  destruct (_ <? _); [done|]. apply Z.eqb_neq in Hne. rewrite Hne in E.
  set (st1 := st_set_RangeAvailableAttributes (find_mask ents st a) st) in *.
  destruct (RtlFindRange _ _ _ _ _ _ _ _ _) as [[s start] slot].
  destruct (NT_SUCCESS s); simpl in E; [by simplify_eq|].
  destruct (ArbpShareDriverExclusive env _ ents st1) as [[] st2] eqn:E2.
  - simplify_eq. apply share_exclusive_takes in E2 as [(_ & _ & T) _].
    destruct T as (_ & _ & _ & _ & _ & T6 & T7). simpl in *. tauto.
  - destruct (ArbiterLibOverrideConflict _ ents st2) as [[] st3] eqn:E3; [|done].
    simplify_eq. apply share_exclusive_false in E2 as ->.
    rewrite (override_conflict_avail _ _ _ _ _ E3).
    apply override_conflict_frame in E3 as (_ & _ & _ & _ & _ & _ & ->). done.
Qed.

(** The finder's outcomes, seen from the recorded ranges. *)
Lemma placed_cores arb ents st st' a :
  callback_joins (ar_ConflictCallback arb) joins ->
  st_alt st' = Some a -> st_Entry st' = st_Entry st ->
  (alt_Length a <> 0 ->
   st_RangeAvailableAttributes st' = find_mask ents st a /\ st_Flags st' = st_Flags st) ->
  placed env arb ents st a (st_Start st') (st_End st') ->
  placed_against env joins ents (rl_cores (ar_PossibleAllocation arb)) st' a.
Proof.
  intros Hc Ha He Hm Hp.
  assert (Hown : st_owner ents st' = st_owner ents st) by (unfold st_owner, st_entry; by rewrite He).
  remember (st_Start st') as s0 eqn:Hs. remember (st_End st') as e0 eqn:Hend.
  destruct Hp as [H0|s Hne Hmod Hlo Hhi Hav|r Hne Hin (Ho & _ & Hsh)|Hne Hfix HF].
  - by apply pa_null.
  - destruct (Hm Hne) as [Hma Hfl]. apply pa_free; [done|lia|].
    apply Forall_forall. intros c Hcin Hmeet. rewrite Hma.
    replace (find_flags st' a) with (find_flags st a) by (unfold find_flags; by rewrite Hfl).
    apply list_elem_of_In, in_map_iff in Hcin as (r & <- & Hr). apply list_elem_of_In in Hr.
    rewrite Hend, Hs in Hav. unfold core_past.
    destruct (Hav r Hr Hmeet) as [?|[?|[?|(f & slot & Ef & Hf)]]]; [tauto|tauto|tauto|].
    do 3 right. by eapply Hc.
  - apply (pa_shared _ _ _ _ _ _ (rng_core r)); [done| |by rewrite Hown].
    apply list_elem_of_In, in_map. by apply list_elem_of_In.
  - destruct (Hm Hne) as [Hma Hfl]. apply pa_own; [done|done|].
    apply Forall_forall. intros c Hcin Hmeet. rewrite Hma, Hown.
    apply list_elem_of_In, in_map_iff in Hcin as (r & <- & Hr). apply list_elem_of_In in Hr.
    rewrite Forall_forall in HF. specialize (HF r Hr).
    destruct (has_flag (core_Attributes (rng_core r)) (find_mask ents st a)) eqn:Ef; [by left|right].
    apply HF. unfold blocks_window, meets, overlaps in *. simpl in *.
    unfold core_Attributes in Ef. simpl in Ef. rewrite <- Hs, <- Hend in Hmeet.
    apply andb_prop in Hmeet as [M1 M2]. unfold key_Start, key_End, core_key in *. simpl in *.
    by rewrite Ef, M1, M2.
Qed.

(** The window lies in the requirement, aligned or not. *)
Definition window_in (st : ARBITER_ALLOCATION_STATE) : Prop :=
  exists a, st_alt st = Some a /\ alt_Minimum a <= st_CurrentMinimum st /\
    0 <= st_CurrentMaximum st <= alt_Maximum a.

(** What a TRUE answer for the window of [st] means for [st']. *)
Definition placed_in_window (ents : list ARBITER_LIST_ENTRY) (C : list range_core)
  (st st' : ARBITER_ALLOCATION_STATE) : Prop :=
  exists a, st_alt st' = Some a /\ st_CurrentMinimum st <= st_Start st' <= st_End st' /\
    st_End st' <= st_CurrentMaximum st /\
    (alt_Length a <> 0 -> st_CurrentMinimum st mod alt_align a = 0 ->
     st_Start st' mod alt_align a = 0) /\
    placed_against env joins ents C st' a.

(** The library's finder on any window of the requirement. *)
Lemma find_in_window arb ents st b arb' st' :
  same_books arb0 arb -> default_inv st -> window_in st ->
  FindSuitableRange cbs arb ents st = (b, arb', st') ->
  find_frame arb arb' st st' /\
  (b = true -> placed_in_window ents (rl_cores (ar_PossibleAllocation arb)) st st').
Proof using L Hcb.
  intros Hb Hi (a & Ha & Hmn & Hmx) E.
  pose proof (inv_alt_wf _ _ Hi Ha) as Hwf. destruct Hwf as (Hw1 & Hw2 & Hw3 & Hw4 & Hw5).
  assert (Hlen : forall a', st_alt st = Some a' -> is_u64 (alt_Length a')) by
    (intros a' Ha'; by simplify_eq).
  unfold is_u64 in Hw1, Hw2.
  destruct (find_suitable_range_outcome env mmconfig arb ents st b arb' st' Hlen) as [Hfr Hok];
    [lia|unfold is_u64; lia|exact E|].
  split; [done|]. destruct Hfr as [ [slot ->] F1 F2 F3 F4 F5 _ _].
  assert (Halt : st_alt st' = st_alt st) by (unfold st_alt; by rewrite F3, F4).
  intros ->. destruct (Hok eq_refl) as (a' & Ha' & Hw & Hp).
  assert (a' = a) as -> by congruence. exists a. split; [congruence|].
  assert (Halign : Z.max (alt_Alignment a) 1 = alt_align a).
  { unfold alt_align. destruct (alt_Alignment a =? 0) eqn:Eq; bool_prop; lia. }
  assert (Hbounds : st_CurrentMinimum st <= st_Start st' <= st_End st' /\
    st_End st' <= st_CurrentMaximum st /\
    (alt_Length a <> 0 -> st_CurrentMinimum st mod alt_align a = 0 ->
     st_Start st' mod alt_align a = 0)).
  { unfold is_u64 in Hw3. clear -Hw Hw3 Halign Hp.
    destruct Hp; rewrite <- ?Halign in *; split_and!; try lia; try done; auto. }
  destruct Hbounds as (B1 & B2 & B3). split_and!; try done; try lia.
  eapply placed_cores; try done; [by rewrite (books_callback arb)|congruence|].
  intros Hne. by eapply find_masks.
Qed.

Lemma default_inv_frame arb arb' st st' :
  find_frame arb arb' st st' -> default_inv st ->
  default_inv st' /\ walk_measure ol st' = walk_measure ol st /\ st_alt st' = st_alt st.
Proof using.
  intros [_ F1 F2 F3 F4 F5 _ _] [[Hi1 Hi2] Hi3]. split_and!.
  - split; [split; [by rewrite F3|by rewrite F3, F4]|]. unfold walk_fuel. by rewrite F3.
  - unfold walk_measure. by rewrite F3, F4.
  - unfold st_alt. by rewrite F3, F4.
Qed.

Lemma find_frame_books arb arb' st st' :
  find_frame arb arb' st st' -> same_books arb arb' /\ possible arb' = possible arb.
Proof using.
  intros [ [slot ->] _ _ _ _ _ _ _]. split; [|done]. exists (ar_PossibleAllocation arb), slot.
  by destruct arb.
Qed.

Lemma default_find arb ents st b arb' st' :
  same_books arb0 arb -> default_inv st -> default_win st ->
  FindSuitableRange cbs arb ents st = (b, arb', st') ->
  same_books arb arb' /\ possible arb' = possible arb /\
  default_inv st' /\ st_Entry st' = st_Entry st /\
  (walk_measure ol st' <= walk_measure ol st)%nat /\
  (b = true -> default_win st' /\ default_good env joins ents (possible arb) st' /\ is_Some (st_alt st')).
Proof using L Hcb.
  intros Hb Hi (a & Ha & Hmn & Hmx & Hal) E.
  destruct (find_in_window arb ents st b arb' st' Hb Hi) as [Hfr Hok]; [by exists a|done|].
  destruct (find_frame_books _ _ _ _ Hfr) as [? ?].
  destruct (default_inv_frame _ _ _ _ Hfr Hi) as (? & Hm & Halt).
  pose proof (ff_entry _ _ _ _ Hfr). split_and!; try done; [lia|].
  intros ->. destruct (Hok eq_refl) as (a' & Ha' & B1 & B2 & B3 & Hp).
  assert (a' = a) as -> by congruence. split_and!; [| |by eexists].
  - exists a. rewrite (ff_min _ _ _ _ Hfr), (ff_max _ _ _ _ Hfr). split_and!; try done; lia.
  - exists a, (rl_cores (ar_PossibleAllocation arb)). split; [done|].
    split; [unfold possible; by rewrite rl_keys_cores|]. split_and!; try done; try lia.
Qed.

Lemma library_adds arb ents st :
  st_Start st <= st_End st ->
  same_books arb (ArbiterLibAddAllocation arb ents st) /\
  possible (ArbiterLibAddAllocation arb ents st) ≡ₚ default_keys ents st ++ possible arb.
Proof using L A.
  intros Hle. unfold ArbiterLibAddAllocation. set (fl := match st_alt st with Some _ => _ | None => _ end).
  assert (Hfl : has_flag fl RTL_RANGE_LIST_ADD_IF_CONFLICT = true).
  { unfold fl. destruct (st_alt st); [by case_match|done]. }
  pose proof (rl_add_succeeds (ar_PossibleAllocation arb) (st_Start st) (st_End st)
                (st_RangeAttributes st) fl NULL (st_owner ents st) Hfl Hle) as Hs.
  destruct (RtlAddRange _ _ _ _ fl _ _) as [s l] eqn:E. simpl in Hs |- *. split.
  - exists l, (ar_ConflictCallbackContext arb). by destruct arb.
  - by apply (rl_add_keys _ _ _ _ _ _ _ _ _ Hfl E).
Qed.

Lemma library_withdraws arb ents st arb' st' K :
  possible arb ≡ₚ default_keys ents st ++ K ->
  ArbiterLibBacktrackAllocation arb ents st = (arb', st') ->
  same_books arb arb' /\ possible arb' ≡ₚ K /\ st' = st.
Proof using L.
  intros HK. unfold ArbiterLibBacktrackAllocation.
  destruct (RtlDeleteRange _ _ _ _) as [s l] eqn:E. intros [= <- <-]. split_and!; [| |done].
  - exists l, (ar_ConflictCallbackContext arb). by destruct arb.
  - assert (Hin : (st_Start st, st_End st, st_owner ents st) ∈ rl_keys (ar_PossibleAllocation arb)).
    { unfold possible in HK. rewrite HK. by left. }
    pose proof (rl_delete_keys _ _ _ _ _ _ E Hin) as HP. unfold possible in *. simpl in *.
    rewrite HP in HK. by apply Permutation_cons_inv in HK.
Qed.
End LibrarySlots.

(** ** The contract is met *)

Section DefaultContract.
Context `{R : RtlRangeList} {L : RtlRangeListLaws R} {A : RtlPoolSuffices R}.
Context (env : device_env) (mmconfig : mmconfig_table).
Context (unpack : IO_RESOURCE_DESCRIPTOR -> NTSTATUS * (Z * Z * Z * Z))
  (pack : IO_RESOURCE_DESCRIPTOR -> Z -> CM_PARTIAL_RESOURCE_DESCRIPTOR ->
          NTSTATUS * CM_PARTIAL_RESOURCE_DESCRIPTOR)
  (unpack_resource : CM_PARTIAL_RESOURCE_DESCRIPTOR -> NTSTATUS * (Z * Z))
  (score : option (IO_RESOURCE_DESCRIPTOR -> Z)).
Context (arb0 : ARBITER_INSTANCE) (wfuel : nat).
Context (W : ol_wf (ar_OrderingList arb0)) (Hcb : ar_ConflictCallback arb0 = None).
#[local] Abbreviation cbs :=
  (ArbiterLibCallbacks env mmconfig unpack pack unpack_resource score).

(** The library's slots are an [ArbiterSlots]. *)
#[global, refine] Instance default_slots : ArbiterSlots cbs arb0 wfuel := {|
  st_inv _ := default_inv arb0 wfuel;
  st_ready _ := default_inv arb0 wfuel;
  st_win := default_win;
  good := default_good env joins_nothing;
  keys_of := default_keys;
  measure := walk_measure (ar_OrderingList arb0)
|}.
Proof using L A W Hcb.
  - intros _ st [_ Hf]. pose proof (walk_measure_fuel (ar_OrderingList arb0) st). lia.
  - done.
  - done.
  - apply default_good_perm.
  - apply default_good_ext.
  - apply default_keys_ext.
  - done.
  - intros _ st [[Hi _] Hf]. split; [|done]. split; [done|by left].
  - done.
  - intros ents K st Hi (a & Ha & Hmn & Hmx & Hal) (a' & C & Ha' & _ & Hs & He & _) Hlt.
    assert (a' = a) as -> by congruence. split; [done|]. exists a.
    pose proof (inv_alt_wf _ _ _ _ Hi Ha) as (Hw1 & Hw2 & _). unfold is_u64, ULONGLONG_MAX in *.
    simpl. rewrite sub64_small by (unfold is_u64, ULONGLONG_MAX; lia).
    split_and!; try done; lia.
  - intros arb ents st s arb' st' Hi [= <- <- <-].
    split_and!; first [done|apply same_books_refl|apply same_place_refl].
  - by apply default_next.
  - apply default_find. by apply no_callback_joins.
  - intros arb ents K st _ (a & C & _ & _ & Hb & _). apply library_adds. lia.
  - intros arb ents st arb' st' K _ Hi Hw Hg HK E.
    destruct (library_withdraws _ _ _ _ _ _ HK E) as (Hb & Hk & ->). by split_and!.
Defined.
End DefaultContract.

(** ** Placements do not collide *)

Section ChainFacts.
Context `{R : RtlRangeList} {cbs : ARBITER_CALLBACKS} {arb0 : ARBITER_INSTANCE} {wfuel : nat}
  {S_ : ArbiterSlots cbs arb0 wfuel}.

Lemma recorded_base ents K l k : k ∈ K -> k ∈ recorded ents K l.
Proof.
  revert K. induction l as [|st l IH]; simpl; intros K Hk; [done|]. apply IH.
  apply elem_of_app. by right.
Qed.

Lemma recorded_earlier ents K l j st k :
  l !! j = Some st -> k ∈ placed_keys ents st -> k ∈ recorded ents K l.
Proof.
  revert K j. induction l as [|st' l IH]; intros K [|j] Hl Hk; simplify_eq/=; [|by eapply IH].
  apply recorded_base, elem_of_app. by left.
Qed.

Lemma recorded_concat ents K l :
  recorded ents K l ≡ₚ concat (map (placed_keys ents) l) ++ K.
Proof.
  revert K. induction l as [|st l IH]; simpl; intros K; [done|].
  by rewrite IH, app_assoc, (Permutation_app_comm (concat _)).
Qed.

Lemma chain_lookup ents K l i st :
  chain ents K l -> l !! i = Some st -> settled ents (recorded ents K (take i l)) st.
Proof.
  revert K i. induction l as [|st' l IH]; intros K [|i] Hc Hl; simplify_eq/=; [by destruct Hc|].
  destruct Hc as [_ Hc]. by apply IH.
Qed.
End ChainFacts.

(** What the states of [before] have recorded on top of [base]. *)
Definition keys_before (keys : list ARBITER_LIST_ENTRY -> ARBITER_ALLOCATION_STATE -> list range_key)
  (ents : list ARBITER_LIST_ENTRY) (before : list ARBITER_ALLOCATION_STATE) (base : list range_key) : list range_key :=
  concat (map (fun st => match st_alt st with
                         | Some a => if alt_Length a =? 0 then [] else keys ents st
                         | None => []
                         end) before) ++ base.

Lemma recorded_keys_before `{R : RtlRangeList} {cbs arb0 wfuel} {S_ : ArbiterSlots cbs arb0 wfuel} ents K l n k :
  (k <= n)%nat -> recorded ents K (take k (take n l)) ≡ₚ keys_before keys_of ents (take k l) K.
Proof. intros H. rewrite take_take, Nat.min_l by done. apply recorded_concat. Qed.

(** A request that may overlap none of the ranges [K]: not shared, not fixed, no
    attribute made available, and [K] has no range of a device it may share with. *)
Definition exclusive_request (env : device_env) (ents : list ARBITER_LIST_ENTRY) (K : list range_key)
  (st : ARBITER_ALLOCATION_STATE) : Prop :=
  exists a, st_alt st = Some a /\ alt_Length a <> 0 /\
    has_flag (alt_Flags a) ARBITER_ALTERNATIVE_FLAG_SHARED = false /\
    has_flag (alt_Flags a) ARBITER_ALTERNATIVE_FLAG_FIXED = false /\
    has_flag (st_Flags st) ARBITER_STATE_FLAG_NULL_CONFLICT_OK = false /\
    st_RangeAvailableAttributes st = 0 /\
    Forall (fun k => ~ may_share_with env (st_owner ents st) (key_Owner k)) K.

Lemma exclusive_clear env ents K st :
  exclusive_request env ents K st -> default_good env joins_nothing ents K st ->
  Forall (fun k => ~ meets (st_Start st) (st_End st) k) K.
Proof.
  intros (a & Ha & Hne & Hsh & Hfx & Hnull & Hav & Hms) (a' & C & Ha' & HC & _ & _ & _ & Hp).
  assert (a' = a) as -> by congruence. rewrite <- HC in Hms |- *. rewrite Forall_map in Hms.
  destruct Hp as [|_ _ HF|c _ Hin Hc|_ Hf _]; [done| |rewrite Forall_forall in Hms; by apply (Hms c Hin) in Hc|congruence].
  apply Forall_map. eapply Forall_impl; [exact HF|]. simpl. intros c Hpast Hm.
  rewrite Hav in Hpast. unfold find_flags in Hpast. rewrite Hsh, Hnull in Hpast.
  specialize (Hpast Hm) as [H|[ [H _]|[ [H _]|H] ] ]; [|done|done|done].
  unfold has_flag in H. by rewrite Z.land_0_r in H.
Qed.

(** The requirement a placement lies in. *)
Definition within_requirement (st : ARBITER_ALLOCATION_STATE) : Prop :=
  exists a, st_alt st = Some a /\
    alt_Minimum a <= st_Start st <= st_End st /\ st_End st <= alt_Maximum a /\
    (alt_Length a <> 0 -> st_Start st mod alt_align a = 0).

(** C4.  A successful ArbiterLibAllocateEntry with the library's slots puts
    every entry inside its selected requirement, aligned; and a placement made
    for an exclusive request meets neither a range the tentative list held
    before the search nor the placement of any entry that comes before it.  A
    request is exclusive when it is not shared or fixed, takes no attribute or
    unowned range as free, and none of those ranges belongs to a device its own may
    share with (the device itself, one on the same driver stack, or a root device
    for a root device).  The bounds of the alternatives have to stay within 64 bits
    when they are rounded up to the alignment. *)
Theorem allocate_entry_disjoint `{R : RtlRangeList} {L : RtlRangeListLaws R}
  {A : RtlPoolSuffices R} env mmconfig unpack pack unpack_resource score arb wfuel
  N fuel stack ents w idx :
  ol_wf (ar_OrderingList arb) -> ar_ConflictCallback arb = None ->
  map st_Entry stack = map Some idx ++ [None] -> NoDup idx ->
  Forall (fun i => (i < length ents)%nat) idx -> Forall (default_inv arb wfuel) stack ->
  (forall n, (N <= n)%nat -> hard_deadline w < w_clock w n) -> (N < fuel)%nat ->
  exists s e,
  ArbiterLibAllocateEntry (ArbiterLibCallbacks env mmconfig unpack pack unpack_resource score)
    fuel wfuel arb stack ents w = Return s e /\
  (NT_SUCCESS s = true ->
  forall k st, take (length idx) (eg_stack e) !! k = Some st ->
    within_requirement st /\
    (exclusive_request env (eg_ents e) (keys_before default_keys (eg_ents e) (take k (eg_stack e)) (possible arb)) st ->
     Forall (fun key => ~ meets (st_Start st) (st_End st) key) (possible arb) /\
     forall j st' a', (j < k)%nat -> eg_stack e !! j = Some st' ->
       st_alt st' = Some a' -> alt_Length a' <> 0 ->
       overlaps (st_Start st) (st_End st) (st_Start st') (st_End st') = false)).
Proof.
  intros W Hcb Hsh Hnd Hlt Hi HN Hf.
  pose (S_ := default_slots env mmconfig unpack pack unpack_resource score arb wfuel W Hcb).
  destruct (allocate_entry_solved (S_ := S_) N fuel stack ents w idx Hsh Hnd Hlt Hi HN Hf)
    as (s & e & E & _ & _ & Hsol).
  exists s, e. split; [done|]. intros Hs k st Hk. destruct (Hsol Hs) as [_ Hch _ _].
  destruct (chain_lookup _ _ _ _ _ Hch Hk) as (Hg & _ & _). split.
  { destruct Hg as (a & C & Ha & _ & H1 & H2 & H3 & _). by exists a. }
  pose proof Hk as Hkl. apply lookup_lt_Some in Hkl. rewrite length_take in Hkl.
  assert (forall key, key ∈ keys_before default_keys (eg_ents e) (take k (eg_stack e)) (possible arb) <->
    key ∈ recorded (S_ := S_) (eg_ents e) (possible arb) (take k (take (length idx) (eg_stack e)))) as HK.
  { intros key. by rewrite (recorded_keys_before (S_ := S_)) by lia. }
  intros Hex. assert (Forall (fun key => ~ meets (st_Start st) (st_End st) key)
    (keys_before default_keys (eg_ents e) (take k (eg_stack e)) (possible arb))) as HF.
  { eapply exclusive_clear; [exact Hex|]. eapply default_good_perm; [|exact Hg]. apply (recorded_keys_before (S_ := S_)). lia. }
  rewrite Forall_forall in HF. split.
  - apply Forall_forall. intros key Hkey. apply HF, HK. by apply recorded_base.
  - intros j st' a' Hj Hl Ha' Hne.
    assert (Hn : ~ meets (st_Start st) (st_End st) (st_Start st', st_End st', st_owner (eg_ents e) st')).
    { apply HF, HK. apply (recorded_earlier _ _ _ j st').
      - rewrite take_take, lookup_take_lt; [done|]. lia.
      - unfold placed_keys. rewrite Ha'. apply Z.eqb_neq in Hne. rewrite Hne. by left. }
    by apply not_true_is_false in Hn.
Qed.

(** ** Witnesses *)

#[local] Existing Instance ref_range_list.

(** Plain devices: no enumerator is ROOT, no two share a driver. *)
Definition quiet_env : device_env := mkDevEnv (fun _ => Some "PCI"%string) (fun d => [d]).

(** A clock that ticks a tenth of a second per read. *)
Definition ticking_world : world :=
  mkWorld (fun n => Z.of_nat n * 1000000) (fun _ _ => true) 0 0 0.

Lemma ticking_deadline n : (102 <= n)%nat -> hard_deadline ticking_world < w_clock ticking_world n.
Proof.
  intros Hn. change (hard_deadline ticking_world) with 101000000.
  change (w_clock ticking_world n) with (Z.of_nat n * 1000000). lia.
Qed.

Definition sample_pack (d : IO_RESOURCE_DESCRIPTOR) (start : Z)
  (cm : CM_PARTIAL_RESOURCE_DESCRIPTOR) : NTSTATUS * CM_PARTIAL_RESOURCE_DESCRIPTOR :=
  (STATUS_SUCCESS,
   mkCm (io_Type d) (io_ShareDisposition d) (io_Flags d) (cm_Port cm)
     (mkCmWindow start (iw_Length (io_Memory d))) (cm_BusNumber cm) (cm_Interrupt cm) (cm_Connection cm)).
Definition sample_unpack_resource (cm : CM_PARTIAL_RESOURCE_DESCRIPTOR) : NTSTATUS * (Z * Z) :=
  (STATUS_SUCCESS, (cw_Start (cm_Memory cm), cw_Length (cm_Memory cm))).

Definition quiet_callbacks (env : device_env) : ARBITER_CALLBACKS :=
  ArbiterLibCallbacks env [] sample_unpack sample_pack sample_unpack_resource None.

Definition memory_entry (pdo : PVOID) : ARBITER_LIST_ENTRY :=
  mkEntry [sample_window 0 0] pdo ArbiterRequestPnpEnumerated 0 0
    (Some (mkCm CmResourceTypeMemory 0 0 (mkCmWindow 0 0) (mkCmWindow 0 0) (mkCmWindow 0 0)
             (mkCmInterrupt 0 0 0) no_connection)) None ArbiterResultUndefined.

Definition fresh_state (i : nat) (alts : list ARBITER_ALTERNATIVE) : ARBITER_ALLOCATION_STATE :=
  mkState 1 0 0 0 (Some i) None alts 0 0 0 0.

(** Device 7 could sit anywhere in 0x100..0x1FF and is tried at the top first;
    device 8 can only have the top, so the first choice must be withdrawn. *)
Definition contest_stack : list ARBITER_ALLOCATION_STATE :=
  [fresh_state 0 [sample_alt 0x100 0x1FF 0x20 0x10];
   fresh_state 1 [sample_alt 0x1C0 0x1FF 0x40 0x10]; st_zero].
Definition contest_ents : list ARBITER_LIST_ENTRY := [memory_entry 7; memory_entry 8].
Definition contest_run : turn :=
  ArbiterLibAllocateEntry (quiet_callbacks quiet_env) 200 200 sample_arbiter contest_stack
    contest_ents ticking_world.

Definition turn_places (t : turn) : option (NTSTATUS * list (Z * Z) * list range_key) :=
  match t with
  | Return s e => Some (s, map (fun st => (st_Start st, st_End st)) (eg_stack e), possible (eg_arb e))
  | _ => None
  end.

Lemma contest_inv : Forall (default_inv sample_arbiter 200) contest_stack.
Proof.
  repeat constructor; simpl; try done; try (unfold is_u64, ULONGLONG_MAX; lia);
    try (by left); vm_compute; lia.
Qed.

Lemma sample_arbiter_ol : ol_wf (ar_OrderingList sample_arbiter).
Proof. split; unfold ol_list; simpl; try done. by left. Qed.

Lemma allocate_entry_correct_witness :
  turn_places contest_run =
    Some (STATUS_SUCCESS, [(0x1A0, 0x1BF); (0x1C0, 0x1FF); (0, 0)],
          [(0x1C0, 0x1FF, 8); (0x1A0, 0x1BF, 7)]) /\
  exists s e, contest_run = Return s e /\ same_books sample_arbiter (eg_arb e).
Proof.
  split; [vm_compute; reflexivity|].
  destruct (allocate_entry_correct (cbs := quiet_callbacks quiet_env) (arb := sample_arbiter)
              (wfuel := 200)
              (S_ := default_slots (L := ref_range_list_laws) (A := ref_pool_suffices)
                       quiet_env [] sample_unpack sample_pack sample_unpack_resource None
                       sample_arbiter 200 sample_arbiter_ol eq_refl)
              102 200 contest_stack contest_ents ticking_world [0%nat; 1%nat])
    as (s & e & E & Hb & _); [done|..].
  - apply (bool_decide_unpack _). vm_compute. done.
  - repeat constructor.
  - apply contest_inv.
  - apply ticking_deadline.
  - lia.
  - exists s, e. split; [exact E|exact Hb].
Defined.

(** Device 8's request is exclusive at the end of that run. *)
Lemma contest_exclusive : forall s e, contest_run = Return s e -> s = STATUS_SUCCESS /\
  exists st st', eg_stack e !! 1%nat = Some st /\ eg_stack e !! 0%nat = Some st' /\
    exclusive_request quiet_env (eg_ents e) (keys_before default_keys (eg_ents e) (take 1 (eg_stack e)) (possible sample_arbiter)) st /\
    exists a', st_alt st' = Some a' /\ alt_Length a' <> 0.
Proof.
  intros s e E. assert (match contest_run with Return s' _ => s' | _ => s end = s) as <- by (by rewrite E).
  assert (match contest_run with Return _ e' => e' | _ => e end = e) as <- by (by rewrite E). clear E.
  split; [vm_compute; reflexivity|]. vm_compute. do 2 eexists. split; [reflexivity|]. split; [reflexivity|].
  split; [|by eexists]. eexists. split; [reflexivity|]. repeat (split; [done|]). constructor; [|constructor].
  intros (_ & [ [? _]|?]); done.
Qed.

Lemma allocate_entry_disjoint_witness :
  exists s e st st', contest_run = Return s e /\ eg_stack e !! 1%nat = Some st /\ eg_stack e !! 0%nat = Some st' /\
    within_requirement st /\ overlaps (st_Start st) (st_End st) (st_Start st') (st_End st') = false.
Proof.
  destruct (allocate_entry_disjoint (L := ref_range_list_laws) (A := ref_pool_suffices)
              quiet_env [] sample_unpack sample_pack sample_unpack_resource None
              sample_arbiter 200 102 200 contest_stack contest_ents ticking_world
              [0%nat; 1%nat] sample_arbiter_ol eq_refl) as (s & e & E & Hs); [done|..].
  - apply (bool_decide_unpack _). vm_compute. done.
  - repeat constructor.
  - apply contest_inv.
  - apply ticking_deadline.
  - lia.
  - destruct (contest_exclusive s e E) as (-> & st & st' & H1 & H0 & Hex & a' & Ha' & Hne).
    destruct (Hs eq_refl 1%nat st) as [Hw H]; [rewrite lookup_take_lt by (simpl; lia); exact H1|].
    exists STATUS_SUCCESS, e, st, st'. split; [exact E|]. split; [exact H1|]. split; [exact H0|]. split; [exact Hw|].
    apply (H Hex) with (j := 0%nat) (a' := a'); [lia|exact H0|exact Ha'|exact Hne].
Defined.

(** ** A behaviour the search should not have *)

(** Requirement of device 8 that shares nothing, and of the root device 7 that
    is driver-exclusive; device 9 already holds 0x100..0x107. *)
Definition exclusive_alt (mn mx len al : Z) : ARBITER_ALTERNATIVE :=
  let w := mkIoWindow len al mn mx in
  mkAlt mn mx len al ARBITER_PRIORITY_NULL 0
    (mkIo 0 CmResourceTypeMemory CmResourceShareDriverExclusive 0 w w (mkIoBus 0 0 0)
       (mkIoInterrupt 0 0 0) no_connection).
Definition root_env : device_env :=
  mkDevEnv (fun d => if d =? 7 then Some "Root"%string else None) (fun d => [d]).
Definition short_run : turn :=
  ArbiterLibAllocateEntry (quiet_callbacks root_env) 200 200 (busy_arbiter 9 0x100 0x107)
    [fresh_state 0 [exclusive_alt 0x100 0x20F 0x20 0x10];
     fresh_state 1 [sample_alt 0x110 0x20F 0x100 0x10]; st_zero]
    [memory_entry 7; memory_entry 8] sample_world.

(** A retry inside a window lowers its top without looking at the
    length, and ArbpShareDriverExclusive takes what is left of the window
    whole.  So a search can succeed with a placement shorter than the
    requirement: here device 7, which asked for 0x20 bytes, is recorded with
    the 0x10 bytes 0x100..0x10F, and 0x110..0x20F goes to device 8. *)
Theorem share_shortens_placement :
  turn_places short_run =
    Some (STATUS_SUCCESS, [(0x100, 0x10F); (0x110, 0x20F); (0, 0)],
          [(0x110, 0x20F, 8); (0x100, 0x10F, 7); (0x100, 0x107, 9)]) /\
  alt_Length (exclusive_alt 0x100 0x20F 0x20 0x10) = 0x20.
Proof. split; vm_compute; reflexivity. Qed.
