(* ===== verification/Transaction.v ===== *)
(** The transaction actions: reactos-libs/arbiter/transaction.c.

    Test, Retest, Commit, Rollback, Boot and QueryConflict on one instance.
    Test runs the search of [Entry]; an action whose search faults or runs out
    of fuel is [None], which [test_allocation_correct] rules out.  The
    functions are those of the Vista+ build. *)
From stdpp Require Import base list numbers option sorting strings.
From Stdlib Require Import ZArith Lia Permutation.
From S2P Require Import Prelude NtEnv RangeListRef ArbTypes Ordering RangeWalk.
From S2P Require Import Entry DefaultSlots.

(** sizeof on a 64-bit target. *)
Definition sizeof_ARBITER_ALLOCATION_STATE : Z := 80.
Definition sizeof_ARBITER_ALTERNATIVE : Z := 64.
Definition sizeof_ARBITER_CONFLICT_INFO : Z := 24.

Record ARBITER_CONFLICT_INFO := mkConflict {
  cf_OwningObject : PVOID; cf_Start : Z; cf_End : Z }.

(** ArbpQueryConflictCallback: record the range, let the conflict stand. *)
Definition ArbpQueryConflictCallback : conflict_callback := fun _ r => (false, Some r).

Section Transaction.
Context `{R : RtlRangeList} (cbs : ARBITER_CALLBACKS).

Definition ArbpBuildAlternative (d : IO_RESOURCE_DESCRIPTOR) : NTSTATUS * ARBITER_ALTERNATIVE :=
  let '(Status, (Minimum, Maximum, Length, Alignment)) := UnpackRequirement cbs d in
  if negb (NT_SUCCESS Status) then (Status, mkAlt 0 0 0 0 0 0 d)
  else
    let Flags := 0 in
    let Flags := if io_ShareDisposition d =? CmResourceShareShared
                 then set_flag Flags ARBITER_ALTERNATIVE_FLAG_SHARED else Flags in
    let Flags := if (Maximum -u Minimum +u 1) =? Length
                 then set_flag Flags ARBITER_ALTERNATIVE_FLAG_FIXED else Flags in
    let Flags := if ((io_Type d =? CmResourceTypeMemory) ||
                     (io_Type d =? CmResourceTypeMemoryLarge)) &&
                    has_flag (io_Flags d) CM_RESOURCE_MEMORY_COMPAT_FOR_INACCESSIBLE_RANGE
                 then set_flag Flags ARBITER_ALTERNATIVE_FLAG_INACCESSIBLE_OK else Flags in
    let Flags := if Maximum <? Minimum
                 then set_flag Flags ARBITER_ALTERNATIVE_FLAG_BADRANGE else Flags in
    (STATUS_SUCCESS, mkAlt Minimum Maximum Length Alignment ARBITER_PRIORITY_NULL Flags d).

(** The inner loop of ArbpBuildAllocationStack. *)
Fixpoint build_alternatives (ds : list IO_RESOURCE_DESCRIPTOR)
  : NTSTATUS * list ARBITER_ALTERNATIVE :=
  match ds with
  | [] => (STATUS_SUCCESS, [])
  | d :: ds =>
      let '(Status, a) := ArbpBuildAlternative d in
      if negb (NT_SUCCESS Status) then (Status, [])
      else let '(Status, alts) := build_alternatives ds in (Status, a :: alts)
  end.

(** A state as the stack builder leaves it: Start(1) > End(0). *)
Definition built_state (i : nat) (alts : list ARBITER_ALTERNATIVE) : ARBITER_ALLOCATION_STATE :=
  mkState 1 0 0 0 (Some i) None alts 0 0 0 0.

(** The fill loop from the entry at index [i] on; the states after the last
    one built are still zero, the first of them is the terminator. *)
Fixpoint build_states (i : nat) (ents : list ARBITER_LIST_ENTRY)
  : NTSTATUS * list ARBITER_ALLOCATION_STATE :=
  match ents with
  | [] => (STATUS_SUCCESS, [st_zero])
  | e :: ents =>
      if ent_AlternativeCount e =? 0 then build_states (S i) ents
      else
        let '(Status, alts) := build_alternatives (ent_Alternatives e) in
        if negb (NT_SUCCESS Status) then (Status, [st_zero])
        else let '(Status, sts) := build_states (S i) ents in (Status, built_state i alts :: sts)
  end.

(** The sizing loop: StateCount and AlternativeCount. *)
Definition stack_counts (ents : list ARBITER_LIST_ENTRY) (EntryCount : Z) : Z * Z :=
  fold_left (fun '(sc, ac) e =>
    if ent_AlternativeCount e =? 0 then (u32 (sc - 1), ac)
    else (sc, u32 (ac + ent_AlternativeCount e))) ents (u32 (EntryCount + 1), 0).

Definition stack_size (ents : list ARBITER_LIST_ENTRY) (EntryCount : Z) : Z :=
  let '(StateCount, AlternativeCount) := stack_counts ents EntryCount in
  u32 (StateCount * sizeof_ARBITER_ALLOCATION_STATE +
       AlternativeCount * sizeof_ARBITER_ALTERNATIVE).

Definition ArbpBuildAllocationStack (arb : ARBITER_INSTANCE) (ents : list ARBITER_LIST_ENTRY)
  (EntryCount : Z) (w : world) : NTSTATUS * ARBITER_INSTANCE * world :=
  let Size := stack_size ents EntryCount in
  let '(granted, arb, w) :=
    if ar_AllocationStackMaxSize arb <? Size then
      let '(ok, w) := ExAllocatePoolWithTag Size w in
      if ok then (true, ar_set_stack Size [] arb,
                  if ar_AllocationStackMaxSize arb =? 0 then w else ExFreePoolWithTag w)
      else (false, arb, w)
    else (true, arb, w) in
  if negb granted then (STATUS_INSUFFICIENT_RESOURCES, arb, w)
  else
    let '(Status, sts) := build_states 0 ents in
    (Status, ar_set_stack (ar_AllocationStackMaxSize arb) sts arb, w).

(** RtlFreeRangeList and RtlInitializeRangeList on the tentative list. *)
Definition discard (arb : ARBITER_INSTANCE) : ARBITER_INSTANCE :=
  ar_set_PossibleAllocation RtlInitializeRangeList arb.

(** Discard, then copy the committed list into the tentative one. *)
Definition copy_committed (arb : ARBITER_INSTANCE) : NTSTATUS * ARBITER_INSTANCE :=
  let '(Status, l) := RtlCopyRangeList RtlInitializeRangeList (ar_Allocation arb) in
  (Status, ar_set_PossibleAllocation l arb).

(** ** Test *)

(** The score of one entry: the sum so far, and whether no score was negative. *)
Fixpoint score_alternatives (score : IO_RESOURCE_DESCRIPTOR -> Z)
  (ds : list IO_RESOURCE_DESCRIPTOR) (acc : Z) : bool * Z :=
  match ds with
  | [] => (true, acc)
  | d :: ds => let Score := score d in
               if Score <? 0 then (false, acc) else score_alternatives score ds (acc +u Score)
  end.

(** The loop over the arbitration list: withdraw what the devices own, score
    the entries. *)
Fixpoint test_prepare (withdraw_owned : bool) (PreviousOwner : PVOID) (l : RTL_RANGE_LIST)
  (ents : list ARBITER_LIST_ENTRY) : NTSTATUS * RTL_RANGE_LIST * list ARBITER_LIST_ENTRY :=
  match ents with
  | [] => (STATUS_SUCCESS, l, [])
  | e :: rest =>
      let '(PreviousOwner, l) :=
        if withdraw_owned && negb (ent_PhysicalDeviceObject e =? PreviousOwner)
        then (ent_PhysicalDeviceObject e, (RtlDeleteOwnersRanges l (ent_PhysicalDeviceObject e)).2)
        else (PreviousOwner, l) in
      let '(ok, WorkSpace) :=
        match ScoreRequirement cbs with
        | Some score => score_alternatives score (ent_Alternatives e) 0
        | None => (true, 0)
        end in
      let e := ent_set_WorkSpace WorkSpace e in
      if negb ok then (STATUS_DEVICE_CONFIGURATION_ERROR, l, e :: rest)
      else let '(Status, l, rest) := test_prepare withdraw_owned PreviousOwner l rest in
           (Status, l, e :: rest)
  end.

(** The InitializeRangeList slot: rebuilds a range list from descriptors. *)
Context (InitializeRangeList : ARBITER_INSTANCE -> list CM_PARTIAL_RESOURCE_DESCRIPTOR ->
           RTL_RANGE_LIST -> world -> NTSTATUS * RTL_RANGE_LIST * world).
(** Bounds on the search: turns of the outer loop, windows per turn. *)
Context (fuel wfuel : nat).

(** [AllocateFrom] is [None] for NULL. *)
Definition ArbpTestAllocation (arb : ARBITER_INSTANCE) (ents : list ARBITER_LIST_ENTRY)
  (AllocateFrom : option (list CM_PARTIAL_RESOURCE_DESCRIPTOR)) (w : world)
  : option (NTSTATUS * ARBITER_INSTANCE * list ARBITER_LIST_ENTRY * world) :=
  let '(Status, arb, w) :=
    match AllocateFrom with
    | Some ds => let '(Status, l, w) := InitializeRangeList arb ds (ar_PossibleAllocation arb) w in
                 (Status, ar_set_PossibleAllocation l arb, w)
    | None => let '(Status, arb) := copy_committed arb in (Status, arb, w)
    end in
  if negb (NT_SUCCESS Status) then Some (Status, discard arb, ents, w)
  else
    let '(Status, l, ents) :=
      test_prepare (match AllocateFrom with Some _ => false | None => true end) NULL
        (ar_PossibleAllocation arb) ents in
    let arb := ar_set_PossibleAllocation l arb in
    if negb (NT_SUCCESS Status) then Some (Status, discard arb, ents, w)
    else
      let EntryCount := Z.of_nat (length ents) in
      let ents := ArbiterLibSortArbitrationList ents in
      let '(Status, arb, w) := ArbpBuildAllocationStack arb ents EntryCount w in
      if negb (NT_SUCCESS Status) then Some (Status, discard arb, ents, w)
      else
        match ArbiterLibAllocateEntry cbs fuel wfuel arb (ar_AllocationStack arb) ents w with
        | Return Status e =>
            let arb := ar_set_stack (ar_AllocationStackMaxSize (eg_arb e)) (eg_stack e) (eg_arb e) in
            if negb (NT_SUCCESS Status) then Some (Status, discard arb, eg_ents e, eg_w e)
            else Some (STATUS_SUCCESS, arb, eg_ents e, eg_w e)
        | _ => None
        end.

(** ** Retest *)

Fixpoint retest_release (ents : list ARBITER_LIST_ENTRY) (l : RTL_RANGE_LIST)
  : NTSTATUS * RTL_RANGE_LIST :=
  match ents with
  | [] => (STATUS_SUCCESS, l)
  | e :: ents =>
      let '(Status, l) := RtlDeleteOwnersRanges l (ent_PhysicalDeviceObject e) in
      if negb (NT_SUCCESS Status) then (Status, l) else retest_release ents l
  end.

(** Freeing the workspace a PreprocessEntry override allocated. *)
Definition free_workspace (st : ARBITER_ALLOCATION_STATE) (w : world)
  : ARBITER_ALLOCATION_STATE * world :=
  if has_flag (st_Flags st) ARBITER_STATE_FLAG_WORKSPACE
  then (st_set_Flags (clear_flag (st_Flags st) ARBITER_STATE_FLAG_WORKSPACE)
          (st_set_WorkSpace 0 st), ExFreePoolWithTag w)
  else (st, w).

(** The local State pointed at the entry with index [i] and its single
    alternative; everything else stays from the entry before. *)
Definition retest_state (st : ARBITER_ALLOCATION_STATE) (i : nat) (a : ARBITER_ALTERNATIVE)
  (Start Length : Z) : ARBITER_ALLOCATION_STATE :=
  mkState Start (Start +u Length -u 1) (st_CurrentMinimum st) (st_CurrentMaximum st) (Some i)
    (Some 0%nat) [a] (st_Flags st) (st_RangeAttributes st) (st_RangeAvailableAttributes st) 0.

(** The second loop, from the entry at index [i] on. *)
Fixpoint retest_entries (all : list ARBITER_LIST_ENTRY) (i : nat)
  (ents : list ARBITER_LIST_ENTRY) (arb : ARBITER_INSTANCE) (st : ARBITER_ALLOCATION_STATE)
  (w : world) : NTSTATUS * ARBITER_INSTANCE * ARBITER_ALLOCATION_STATE * world :=
  match ents with
  | [] => (STATUS_SUCCESS, arb, st, w)
  | e :: rest =>
      if bool_decide (ent_Result e = ArbiterResultNullRequest)
      then retest_entries all (S i) rest arb st w
      else
        match ent_SelectedAlternative e, ent_Assignment e with
        | Some d, Some cm =>
            let '(Status, a) := ArbpBuildAlternative d in
            if negb (NT_SUCCESS Status) then (Status, arb, st, w)
            else
              let '(Status, (Start, Length)) := UnpackResource cbs cm in
              if negb (NT_SUCCESS Status) then (Status, arb, st, w)
              else
                let st := retest_state st i a Start Length in
                let '(Status, arb, st) := PreprocessEntry cbs arb all st in
                if negb (NT_SUCCESS Status) then (Status, arb, st, w)
                else
                  let arb := if negb (Length =? 0) then AddAllocation cbs arb all st else arb in
                  let '(st, w) := free_workspace st w in
                  retest_entries all (S i) rest arb st w
        | _, _ => (STATUS_INVALID_PARAMETER, arb, st, w)
        end
  end.

Definition ArbpRetestAllocation (arb : ARBITER_INSTANCE) (ents : list ARBITER_LIST_ENTRY)
  (w : world) : NTSTATUS * ARBITER_INSTANCE * world :=
  let '(Status, arb) := copy_committed arb in
  if negb (NT_SUCCESS Status) then (Status, discard arb, w)
  else
    let '(Status, l) := retest_release ents (ar_PossibleAllocation arb) in
    let arb := ar_set_PossibleAllocation l arb in
    if negb (NT_SUCCESS Status) then (Status, discard arb, w)
    else
      let '(Status, arb, st, w) := retest_entries ents 0 ents arb st_zero w in
      if negb (NT_SUCCESS Status)
      then let '(_, w) := free_workspace st w in (Status, discard arb, w)
      else (STATUS_SUCCESS, arb, w).

(** ** Commit and Rollback *)

(** The tentative list becomes the committed one; the old committed list,
    emptied, becomes the tentative one. *)
Definition ArbiterLibCommitAllocation (arb : ARBITER_INSTANCE) : NTSTATUS * ARBITER_INSTANCE :=
  (STATUS_SUCCESS,
   ar_set_PossibleAllocation RtlInitializeRangeList
     (ar_set_Allocation (ar_PossibleAllocation arb) arb)).

Definition ArbiterLibRollbackAllocation (arb : ARBITER_INSTANCE) : NTSTATUS * ARBITER_INSTANCE :=
  (STATUS_SUCCESS, discard arb).

(** ** Boot reservations *)

(** A sane, fixed single-placement configuration. *)
Definition boot_sane (a : ARBITER_ALTERNATIVE) : bool :=
  negb ((alt_Length a =? 0) || (alt_Alignment a =? 0) ||
        has_flag (alt_Flags a) ARBITER_ALTERNATIVE_FLAG_BADRANGE ||
        negb (has_flag (alt_Flags a) ARBITER_ALTERNATIVE_FLAG_FIXED) ||
        negb (alt_Minimum a mod alt_Alignment a =? 0)).

Definition boot_state (i : nat) (a : ARBITER_ALTERNATIVE) : ARBITER_ALLOCATION_STATE :=
  mkState (alt_Minimum a) (alt_Maximum a) (alt_Minimum a) (alt_Maximum a) (Some i) (Some 0%nat)
    [a] ARBITER_STATE_FLAG_BOOT ARBITER_RANGE_BOOT_ALLOCATED 0 0.

(** What the loop reserves for an entry: the alternative of its first
    requirement, when that is sane. *)
Definition boot_alternative (e : ARBITER_LIST_ENTRY) : option ARBITER_ALTERNATIVE :=
  match ent_Alternatives e with
  | [] => None
  | d :: _ =>
      let '(Status, a) := ArbpBuildAlternative d in
      if negb (NT_SUCCESS Status) then None else if boot_sane a then Some a else None
  end.

(** The loop over the entries from index [i] on.  An override's workspace is
    not freed here. *)
Fixpoint boot_entries (i : nat) (todo : nat) (arb : ARBITER_INSTANCE)
  (ents : list ARBITER_LIST_ENTRY) : NTSTATUS * ARBITER_INSTANCE * list ARBITER_LIST_ENTRY :=
  match todo with
  | O => (STATUS_SUCCESS, arb, ents)
  | S todo =>
      match ents !! i with
      | None => (STATUS_SUCCESS, arb, ents)
      | Some e =>
          match boot_alternative e with
          | None => boot_entries (S i) todo arb ents
          | Some a =>
              let '(Status, arb, st) := PreprocessEntry cbs arb ents (boot_state i a) in
              if negb (NT_SUCCESS Status) then (Status, arb, ents)
              else
                let arb := AddAllocation cbs arb ents st in
                let ents :=
                  match ent_Assignment e with
                  | Some cm =>
                      <[i := ent_set_Assignment
                               (Some (PackResource cbs (alt_Descriptor a) (st_Start st) cm).2) e]> ents
                  | None => ents
                  end in
                boot_entries (S i) todo arb ents
          end
      end
  end.

Definition ArbpBootAllocation (arb : ARBITER_INSTANCE) (ents : list ARBITER_LIST_ENTRY)
  : NTSTATUS * ARBITER_INSTANCE * list ARBITER_LIST_ENTRY :=
  let '(Status, arb) := copy_committed arb in
  if negb (NT_SUCCESS Status) then (Status, discard arb, ents)
  else
    let '(Status, arb, ents) := boot_entries 0 (length ents) arb ents in
    if negb (NT_SUCCESS Status) then (Status, discard arb, ents)
    else (STATUS_SUCCESS, (ArbiterLibCommitAllocation arb).2, ents).

(** ** Conflict queries *)

(** The probe: the window of the candidate resource for the device. *)
Definition probe_entry (PhysicalDeviceObject : PVOID) : ARBITER_LIST_ENTRY :=
  mkEntry [] PhysicalDeviceObject ArbiterRequestPnpEnumerated 0 0 None None ArbiterResultUndefined.
Definition probe_state (a : ARBITER_ALTERNATIVE) : ARBITER_ALLOCATION_STATE :=
  mkState (alt_Minimum a) (alt_Maximum a) (alt_Minimum a) (alt_Maximum a) (Some 0%nat)
    (Some 0%nat) [a] 0 0 0 0.

(** How the [for (;;)] of ArbpQueryConflict ends. *)
Inductive conflict_result :=
| CfFound (cs : list ARBITER_CONFLICT_INFO)
| CfFailed (s : NTSTATUS)
| CfNoFuel.

(** The loop; [cs] are the conflicts in List, [Capacity] its size. *)
Fixpoint conflict_loop (n : nat) (Entry : list ARBITER_LIST_ENTRY) (arb : ARBITER_INSTANCE)
  (st : ARBITER_ALLOCATION_STATE) (cs : list ARBITER_CONFLICT_INFO) (Capacity : Z) (w : world)
  : conflict_result * ARBITER_INSTANCE * ARBITER_ALLOCATION_STATE * world :=
  match n with
  | O => (CfNoFuel, arb, st, w)
  | S n =>
      let arb := ar_set_slot None arb in
      let st := st_set_window (st_Start st) (st_End st) st in
      let '(ok, arb, st) := FindSuitableRange cbs arb Entry st in
      if ok then (CfFound cs, arb, st, w)
      else
        let Count := Z.of_nat (length cs) in
        let '(room, Capacity, w) :=
          if Count =? Capacity then
            let '(ok, w) :=
              ExAllocatePoolWithTag ((Capacity + 5) * sizeof_ARBITER_CONFLICT_INFO) w in
            (* on success the old array is freed after the copy, on failure before leaving *)
            (ok, Capacity + 5, ExFreePoolWithTag w)
          else (true, Capacity, w) in
        if negb room then (CfFailed STATUS_INSUFFICIENT_RESOURCES, arb, st, w)
        else
          match ar_ConflictCallbackContext arb with
          | None => (CfFound (cs ++ [mkConflict NULL 0 ARBITER_MAXIMUM_ADDRESS]), arb, st, w)
          | Some r =>
              let cs := cs ++ [mkConflict (rr_Owner r) (rr_Start r) (rr_End r)] in
              let '(Status, l) := RtlDeleteOwnersRanges (ar_PossibleAllocation arb) (rr_Owner r) in
              let arb := ar_set_PossibleAllocation l arb in
              if negb (NT_SUCCESS Status) then (CfFailed Status, arb, st, ExFreePoolWithTag w)
              else conflict_loop n Entry arb st cs Capacity w
          end
  end.

(** Between installing the recording callback and Cleanup; the state is the
    local State at Cleanup. *)
Definition query_conflict_body (arb : ARBITER_INSTANCE) (PhysicalDeviceObject : PVOID)
  (ConflictingResource : IO_RESOURCE_DESCRIPTOR) (w : world)
  : conflict_result * ARBITER_INSTANCE * ARBITER_ALLOCATION_STATE * world :=
  let '(Status, arb) := copy_committed arb in
  if negb (NT_SUCCESS Status) then (CfFailed Status, arb, st_zero, w)
  else
    let '(Status, a) := ArbpBuildAlternative ConflictingResource in
    if negb (NT_SUCCESS Status) then (CfFailed Status, arb, st_zero, w)
    else
      let Entry := [probe_entry PhysicalDeviceObject] in
      let '(ok, w) := ExAllocatePoolWithTag (10 * sizeof_ARBITER_CONFLICT_INFO) w in
      if negb ok then (CfFailed STATUS_INSUFFICIENT_RESOURCES, arb, probe_state a, w)
      else
        let '(Status, arb, st) := PreprocessEntry cbs arb Entry (probe_state a) in
        if negb (NT_SUCCESS Status) then (CfFailed Status, arb, st, ExFreePoolWithTag w)
        else
          let arb := ar_set_PossibleAllocation
                       (RtlDeleteOwnersRanges (ar_PossibleAllocation arb) PhysicalDeviceObject).2 arb in
          conflict_loop (S (length (rtl_ranges (ar_PossibleAllocation arb)))) Entry arb st [] 10 w.

(** Status, and the conflicts when it is a success; [None] when the loop did
    not end within one round per recorded range. *)
Definition ArbpQueryConflict (arb : ARBITER_INSTANCE) (PhysicalDeviceObject : PVOID)
  (ConflictingResource : IO_RESOURCE_DESCRIPTOR) (w : world)
  : option (NTSTATUS * list ARBITER_CONFLICT_INFO * ARBITER_INSTANCE * world) :=
  let '(r, arb', st, w) :=
    query_conflict_body (ar_set_callback (Some ArbpQueryConflictCallback) None arb)
      PhysicalDeviceObject ConflictingResource w in
  let '(_, w) := free_workspace st w in
  let arb' := ar_set_callback (ar_ConflictCallback arb) (ar_ConflictCallbackContext arb)
                (discard arb') in
  match r with
  | CfFound cs => Some (STATUS_SUCCESS, cs, arb', w)
  | CfFailed s => Some (s, [], arb', w)
  | CfNoFuel => None
  end.
End Transaction.

(** ** What an action leaves alone *)

Section Frames.
Context `{R : RtlRangeList} {L : RtlRangeListLaws R}.

(** The committed list, the policy, the locks and the conflict callback: all
    of the instance but the tentative list, the stack and the callback's slot. *)
Record untouched (arb arb' : ARBITER_INSTANCE) : Prop := {
  ut_alloc : ar_Allocation arb' = ar_Allocation arb;
  ut_type : ar_ResourceType arb' = ar_ResourceType arb;
  ut_ordering : ar_OrderingList arb' = ar_OrderingList arb;
  ut_reserved : ar_ReservedList arb' = ar_ReservedList arb;
  ut_locked : ar_Locked arb' = ar_Locked arb;
  ut_inprogress : ar_TransactionInProgress arb' = ar_TransactionInProgress arb;
  ut_event : ar_TransactionEvent arb' = ar_TransactionEvent arb;
  ut_callback : ar_ConflictCallback arb' = ar_ConflictCallback arb
}.

Lemma untouched_refl arb : untouched arb arb.
Proof. by split. Qed.

Lemma untouched_trans arb1 arb2 arb3 :
  untouched arb1 arb2 -> untouched arb2 arb3 -> untouched arb1 arb3.
Proof. intros [] []. split; congruence. Qed.

Lemma untouched_possible p arb : untouched arb (ar_set_PossibleAllocation p arb).
Proof. by split. Qed.

Lemma untouched_stack m s arb : untouched arb (ar_set_stack m s arb).
Proof. by split. Qed.

Lemma untouched_discard arb : untouched arb (discard arb).
Proof. by split. Qed.

Lemma untouched_books arb arb' : same_books arb arb' -> untouched arb arb'.
Proof. by intros (p & s & ->). Qed.

Lemma copy_committed_untouched arb s arb' : copy_committed arb = (s, arb') -> untouched arb arb'.
Proof. unfold copy_committed. destruct (RtlCopyRangeList _ _). by intros [= _ <-]. Qed.

Lemma copy_committed_keys arb s arb' :
  copy_committed arb = (s, arb') -> NT_SUCCESS s = true ->
  rl_cores (ar_PossibleAllocation arb') = rl_cores (ar_Allocation arb).
Proof.
  unfold copy_committed. destruct (RtlCopyRangeList _ _) as [s1 l] eqn:E. intros [= <- <-] Hs.
  simpl. by eapply rl_copy_ranges.
Qed.

Lemma possible_discard arb : possible (discard arb) = [].
Proof. apply rl_init_keys. Qed.
End Frames.

#[export] Hint Resolve untouched_refl untouched_possible untouched_stack untouched_discard : nt.
#[export] Hint Resolve untouched_trans : nt.

(** ** Building the stack *)

(** The indices of the entries that contribute a state. *)
Fixpoint live_from (i : nat) (ents : list ARBITER_LIST_ENTRY) : list nat :=
  match ents with
  | [] => []
  | e :: ents => if ent_AlternativeCount e =? 0 then live_from (S i) ents
                 else i :: live_from (S i) ents
  end.

Lemma live_from_range i ents :
  Forall (fun j => (i <= j < i + length ents)%nat) (live_from i ents).
Proof.
  revert i. induction ents as [|e ents IH]; simpl; intros i; [constructor|].
  assert (HF : Forall (fun j => (i <= j < i + S (length ents))%nat) (live_from (S i) ents)).
  { eapply Forall_impl; [apply IH|]. simpl. lia. }
  destruct (_ =? 0); [done|]. constructor; [lia|done].
Qed.

Lemma live_from_nodup i ents : NoDup (live_from i ents).
Proof.
  revert i. induction ents as [|e ents IH]; simpl; intros i; [constructor|].
  destruct (_ =? 0); [done|]. constructor; [|done]. intros Hin.
  pose proof (live_from_range (S i) ents) as HF. rewrite Forall_forall in HF.
  specialize (HF i Hin). simpl in HF. lia.
Qed.

(** The room the states and their alternatives take. *)
Definition stack_room (sts : list ARBITER_ALLOCATION_STATE) : Z :=
  Z.of_nat (length sts) * sizeof_ARBITER_ALLOCATION_STATE +
  Z.of_nat (list_weight (fun st => length (st_Alternatives st)) sts) * sizeof_ARBITER_ALTERNATIVE.

Section Stack.
Context `{R : RtlRangeList} (cbs : ARBITER_CALLBACKS).

Lemma build_alternatives_length ds s alts :
  build_alternatives cbs ds = (s, alts) -> NT_SUCCESS s = true -> length alts = length ds.
Proof.
  revert s alts. induction ds as [|d ds IH]; simpl; intros s alts E Hs; [by simplify_eq|].
  destruct (ArbpBuildAlternative cbs d) as [s1 a]. destruct (NT_SUCCESS s1) eqn:E1; simpl in E.
  - destruct (build_alternatives cbs ds) as [s2 alts2]. simplify_eq. simpl. f_equal. by eapply IH.
  - simplify_eq. congruence.
Qed.

(** A built stack: one state per live entry, then the terminator. *)
Lemma build_states_shape i ents s sts :
  build_states cbs i ents = (s, sts) -> NT_SUCCESS s = true ->
  map st_Entry sts = map Some (live_from i ents) ++ [None] /\
  list_weight (fun st => length (st_Alternatives st)) sts =
    list_weight (fun e => length (ent_Alternatives e)) ents.
Proof.
  revert i s sts. induction ents as [|e ents IH]; simpl; intros i s sts E Hs; [by simplify_eq|].
  unfold ent_AlternativeCount in *. destruct (Z.of_nat (length (ent_Alternatives e)) =? 0) eqn:E0.
  - destruct (IH _ _ _ E Hs) as [H1 H2]. split; [done|]. unfold list_weight in *. simpl.
    bool_prop. lia.
  - destruct (build_alternatives cbs (ent_Alternatives e)) as [s1 alts] eqn:Ea.
    destruct (NT_SUCCESS s1) eqn:E1; simpl in E; [|simplify_eq; congruence].
    destruct (build_states cbs (S i) ents) as [s2 sts2] eqn:Es. simplify_eq.
    destruct (IH _ _ _ Es Hs) as [H1 H2]. split; [simpl; by rewrite H1|].
    unfold list_weight in *. simpl. rewrite H2.
    by rewrite (build_alternatives_length _ _ _ Ea E1).
Qed.

Lemma stack_counts_fold ents sc ac :
  Z.of_nat (length ents) <= sc < 4294967296 -> 0 <= ac ->
  ac + Z.of_nat (list_weight (fun e => length (ent_Alternatives e)) ents) < 4294967296 ->
  fold_left (fun '(sc, ac) e =>
    if ent_AlternativeCount e =? 0 then (u32 (sc - 1), ac)
    else (sc, u32 (ac + ent_AlternativeCount e))) ents (sc, ac) =
  (sc - Z.of_nat (length ents) + Z.of_nat (length (live_from 0 ents)),
   ac + Z.of_nat (list_weight (fun e => length (ent_Alternatives e)) ents)).
Proof.
  assert (Hshift : forall l i j, length (live_from i l) = length (live_from j l)).
  { induction l as [|e l IH]; simpl; intros i j; [done|].
    destruct (_ =? 0); [done|]. simpl. by rewrite (IH (S i) (S j)). }
  revert sc ac. induction ents as [|e ents IH]; simpl; intros sc ac Hsc Hac Hb.
  { unfold list_weight. simpl. f_equal; lia. }
  unfold list_weight in Hb. simpl in Hb. fold (list_weight (fun e => length (ent_Alternatives e)) ents) in Hb.
  unfold list_weight. simpl. fold (list_weight (fun e => length (ent_Alternatives e)) ents).
  unfold ent_AlternativeCount.
  destruct (Z.of_nat (length (ent_Alternatives e)) =? 0) eqn:E0; bool_prop.
  - rewrite u32_small by lia. rewrite IH by lia. rewrite (Hshift ents 1%nat 0%nat). f_equal; lia.
  - rewrite u32_small by lia. rewrite IH by lia. simpl. rewrite (Hshift ents 1%nat 0%nat). f_equal; lia.
Qed.

Lemma shape_length sts ids : map st_Entry sts = map Some ids ++ [None] -> length sts = S (length ids).
Proof.
  intros E. apply (f_equal length) in E. rewrite length_app, !length_map in E. simpl in E. lia.
Qed.

(** C36.  ArbpBuildAllocationStack gives the engine the stack it expects: one
    state per entry that has alternatives, in list order, then the terminator;
    and unless the 32-bit size computation wraps, the buffer holds all the
    states and all their alternatives.  The instance is otherwise untouched,
    and pool blocks do not leak. *)
Theorem build_allocation_stack_fits arb ents w s arb' w' :
  0 <= ar_AllocationStackMaxSize arb ->
  Z.of_nat (length ents) + 1 < 4294967296 ->
  Z.of_nat (length ents + 1) * sizeof_ARBITER_ALLOCATION_STATE +
    Z.of_nat (list_weight (fun e => length (ent_Alternatives e)) ents) * sizeof_ARBITER_ALTERNATIVE
    < 4294967296 ->
  ArbpBuildAllocationStack cbs arb ents (Z.of_nat (length ents)) w = (s, arb', w') ->
  untouched arb arb' /\ ar_PossibleAllocation arb' = ar_PossibleAllocation arb /\
  (ar_AllocationStackMaxSize arb <> 0 -> w_live w' = w_live w) /\
  (NT_SUCCESS s = true ->
   map st_Entry (ar_AllocationStack arb') = map Some (live_from 0 ents) ++ [None] /\
   stack_room (ar_AllocationStack arb') <= ar_AllocationStackMaxSize arb').
Proof.
  intros Hm Hn Hsz. unfold ArbpBuildAllocationStack, stack_size, stack_counts.
  unfold sizeof_ARBITER_ALLOCATION_STATE, sizeof_ARBITER_ALTERNATIVE in Hsz.
  rewrite (u32_small (Z.of_nat (length ents) + 1)) by lia. rewrite stack_counts_fold by lia.
  set (n := Z.of_nat (length (live_from 0 ents))).
  set (k := Z.of_nat (list_weight (fun e => length (ent_Alternatives e)) ents)) in *.
  assert (Hn0 : 0 <= n <= Z.of_nat (length ents)).
  { unfold n. split; [lia|]. clear. generalize 0%nat as i.
    induction ents as [|e l IH]; simpl; intros i; [lia|].
    specialize (IH (S i)). destruct (_ =? 0); simpl; lia. }
  rewrite (u32_small (_ * _ + _)) by
    (unfold sizeof_ARBITER_ALLOCATION_STATE, sizeof_ARBITER_ALTERNATIVE; lia).
  set (Size := _ * _ + _ * _).
  assert (Hroom : forall sts s0, build_states cbs 0 ents = (s0, sts) -> NT_SUCCESS s0 = true ->
    map st_Entry sts = map Some (live_from 0 ents) ++ [None] /\ stack_room sts = Size).
  { intros sts s0 E Hs. destruct (build_states_shape _ _ _ _ E Hs) as [H1 H2]. split; [done|].
    unfold stack_room, Size. rewrite H2, (shape_length _ _ H1).
    unfold sizeof_ARBITER_ALLOCATION_STATE, sizeof_ARBITER_ALTERNATIVE, n, k. lia. }
  destruct (ar_AllocationStackMaxSize arb <? Size) eqn:Eg; simpl; bool_prop.
  - destruct (w_pool w (w_allocs w) Size); simpl.
    + destruct (build_states cbs 0 ents) as [s0 sts] eqn:Eb. intros [= <- <- <-].
      split_and!; try by split.
      * intros Hz. apply Z.eqb_neq in Hz. rewrite Hz. simpl. lia.
      * intros Hs. destruct (Hroom _ _ eq_refl Hs) as [H1 H2]. simpl. split; [done|lia].
    + intros [= <- <- <-]. by split_and!.
  - destruct (build_states cbs 0 ents) as [s0 sts] eqn:Eb. intros [= <- <- <-].
    split_and!; try by split. intros Hs. destruct (Hroom _ _ eq_refl Hs) as [H1 H2]. simpl. split; [done|lia].
Qed.
End Stack.

(** ** Test *)

(** An arbiter whose slots meet the engine's contract for every instance that
    satisfies [policy], and whose translation gives the engine states it can
    work with for the requirements in [drv_requirements]. *)
Class ArbiterDriver `{R : RtlRangeList} (cbs : ARBITER_CALLBACKS)
  (policy : ARBITER_INSTANCE -> Prop) (wfuel : nat) := {
  drv_requirements : list IO_RESOURCE_DESCRIPTOR -> Prop;
  drv_slots arb : policy arb -> ArbiterSlots cbs arb wfuel;
  drv_policy arb arb' : untouched arb arb' -> policy arb -> policy arb';
  drv_zero arb (P : policy arb) ents : st_inv (ArbiterSlots := drv_slots arb P) ents st_zero;
  drv_built arb (P : policy arb) ents i ds s alts :
    (forall e, ents !! i = Some e -> ent_Alternatives e = ds) ->
    drv_requirements ds -> build_alternatives cbs ds = (s, alts) -> NT_SUCCESS s = true ->
    st_inv (ArbiterSlots := drv_slots arb P) ents (built_state i alts)
}.

(** The ranges of devices that are not on the list. *)
Definition unlisted (ents : list ARBITER_LIST_ENTRY) (K : list range_key) : list range_key :=
  filter (fun k => key_Owner k ∉ map ent_PhysicalDeviceObject ents) K.

(** The entries of a test, before and after: the same requests in some order. *)
Definition same_requests (ents ents' : list ARBITER_LIST_ENTRY) : Prop := owners ents' ≡ₚ owners ents.

Section TestFacts.
Context `{R : RtlRangeList} {L : RtlRangeListLaws R} {P : RtlPoolSuffices R}.
Context {cbs : ARBITER_CALLBACKS} {policy : ARBITER_INSTANCE -> Prop} {wfuel : nat}
  {D : ArbiterDriver cbs policy wfuel}.

Lemma build_states_inv arb (Hp : policy arb) all i ents s sts :
  Forall (fun e => drv_requirements (ent_Alternatives e)) ents ->
  (forall j e, ents !! j = Some e -> all !! (i + j)%nat = Some e) ->
  build_states cbs i ents = (s, sts) -> NT_SUCCESS s = true ->
  Forall (st_inv (ArbiterSlots := drv_slots arb Hp) all) sts.
Proof using.
  intros HF. revert i s sts. induction HF as [|e ents He HF IH]; simpl; intros i s sts Hall E Hs.
  { simplify_eq. repeat constructor. apply drv_zero. }
  assert (forall j e', ents !! j = Some e' -> all !! (S i + j)%nat = Some e') as Hall'.
  { intros j e' Hj. specialize (Hall (S j) e' Hj). by rewrite Nat.add_succ_r in Hall. }
  assert (forall e', all !! i = Some e' -> ent_Alternatives e' = ent_Alternatives e) as Hi.
  { intros e' He'. specialize (Hall 0%nat e eq_refl). rewrite Nat.add_0_r in Hall. congruence. }
  destruct (_ =? 0); [by eapply IH|].
  destruct (build_alternatives cbs (ent_Alternatives e)) as [s1 alts] eqn:Ea.
  destruct (NT_SUCCESS s1) eqn:E1; simpl in E; [|simplify_eq; congruence].
  destruct (build_states cbs (S i) ents) as [s2 sts2] eqn:Es. simplify_eq.
  constructor; [by eapply drv_built|by eapply IH].
Qed.

(** The loop withdraws every range of every listed device and scores the
    entries, writing nothing else. *)
Lemma test_prepare_ok prev l ents s l' ents' :
  Forall (fun e => ent_PhysicalDeviceObject e <> NULL) ents ->
  (prev = NULL \/ Forall (fun k => key_Owner k <> prev) (rl_keys l)) ->
  test_prepare cbs true prev l ents = (s, l', ents') -> NT_SUCCESS s = true ->
  rl_keys l' ≡ₚ unlisted ents (rl_keys l) /\ owners ents' = owners ents.
Proof using L P.
  intros HF. revert prev l s l' ents'.
  induction HF as [|e ents He HF IH]; simpl; intros prev l s l' ents' Hprev E Hs.
  { simplify_eq. split; [|done]. unfold unlisted. rewrite filter_all; [done|].
    apply Forall_true. intros k Hk. by inversion Hk. }
  set (pdo := ent_PhysicalDeviceObject e) in *.
  assert (Hstep : exists l1, (pdo, l1) = (if negb (pdo =? prev)
      then (pdo, (RtlDeleteOwnersRanges l pdo).2) else (prev, l)) /\
      rl_keys l1 ≡ₚ filter (fun k => key_Owner k <> pdo) (rl_keys l)).
  { destruct (pdo =? prev) eqn:Ep; simpl; bool_prop.
    - exists l. rewrite <- Ep in *. split; [done|]. rewrite filter_all; [done|].
      destruct Hprev; [done|]. done.
    - destruct (RtlDeleteOwnersRanges l pdo) as [s1 l1] eqn:Ed. exists l1. split; [done|].
      eapply rl_delete_owner_keys; [done|]. pose proof (rl_delete_owner_succeeds l pdo) as Hd.
      by rewrite Ed in Hd. }
  destruct Hstep as (l1 & E1 & Hk1). rewrite <- E1 in E.
  destruct (match ScoreRequirement cbs with Some _ => _ | None => _ end) as [ok ws].
  destruct ok; simpl in E; [|simplify_eq; done].
  destruct (test_prepare cbs true pdo l1 ents) as [[s2 l2] ents2] eqn:Et. simplify_eq.
  destruct (IH pdo l1 s l' ents2) as [Hk2 Ho]; try done.
  { right. apply Forall_forall. intros k Hk. rewrite Hk1 in Hk.
    apply list_elem_of_filter in Hk. tauto. }
  split; [|unfold owners in *; simpl; by rewrite Ho].
  rewrite Hk2. unfold unlisted. rewrite Hk1, list_filter_filter. apply Permutation_refl', list_filter_iff.
  intros k. simpl. rewrite elem_of_cons. tauto.
Qed.

Lemma test_prepare_from prev l ents s l' ents' :
  test_prepare cbs false prev l ents = (s, l', ents') ->
  l' = l /\ owners ents' = owners ents.
Proof using.
  revert prev l s l' ents'. induction ents as [|e ents IH]; simpl; intros prev l s l' ents' E;
    [by simplify_eq|].
  destruct (match ScoreRequirement cbs with Some _ => _ | None => _ end) as [ok ws].
  destruct ok; simpl in E; [|by simplify_eq].
  destruct (test_prepare cbs false prev l ents) as [[s2 l2] ents2] eqn:Et. simplify_eq.
  destruct (IH _ _ _ _ _ Et) as [-> Ho]. split; [done|]. unfold owners in *. simpl. by rewrite Ho.
Qed.

(** Sorting and scoring keep the requests. *)
Lemma sort_owners ents : same_requests ents (ArbiterLibSortArbitrationList ents).
Proof.
  unfold same_requests, owners. apply Permutation_map.
  apply (sort_fold ents []). constructor.
Qed.

Lemma same_requests_ok ents ents' :
  same_requests ents ents' ->
  Forall (fun e => drv_requirements (ent_Alternatives e)) ents ->
  Forall (fun e => drv_requirements (ent_Alternatives e)) ents'.
Proof using.
  intros Hp HF.
  assert (Hm : Forall (fun r => drv_requirements r.1.2) (owners ents)) by by apply Forall_map.
  unfold same_requests in Hp. rewrite <- Hp in Hm. unfold owners in Hm.
  apply (proj1 (Forall_map request _ _)) in Hm. exact Hm.
Qed.

Lemma build_stack_world arb ents n w s arb' w' :
  ArbpBuildAllocationStack cbs arb ents n w = (s, arb', w') ->
  untouched arb arb' /\ ar_PossibleAllocation arb' = ar_PossibleAllocation arb /\
  w_clock w' = w_clock w /\ w_reads w' = w_reads w /\
  (NT_SUCCESS s = true -> exists s0, build_states cbs 0 ents = (s0, ar_AllocationStack arb') /\
     NT_SUCCESS s0 = true).
Proof using.
  unfold ArbpBuildAllocationStack. set (Size := stack_size ents n).
  destruct (if ar_AllocationStackMaxSize arb <? Size then _ else _) as [[g arb1] w1] eqn:E1.
  assert (H1 : untouched arb arb1 /\ ar_PossibleAllocation arb1 = ar_PossibleAllocation arb /\
               w_clock w1 = w_clock w /\ w_reads w1 = w_reads w).
  { destruct (_ <? Size); [|by simplify_eq]. unfold ExAllocatePoolWithTag in E1.
    destruct (w_pool w (w_allocs w) Size); simplify_eq; [|by split_and!].
    destruct (ar_AllocationStackMaxSize arb =? 0); by split_and!. }
  destruct H1 as (U1 & U2 & U3 & U4).
  destruct g; simpl; [|intros [= <- <- <-]; by split_and!].
  destruct (build_states cbs 0 ents) as [s0 sts]. intros [= <- <- <-].
  split_and!; try done; [by eapply untouched_trans; [|apply untouched_stack]|]. eauto.
Qed.

Lemma live_from_owners i ents ents' : owners ents' = owners ents -> live_from i ents' = live_from i ents.
Proof.
  revert i ents'. induction ents as [|e ents IH]; intros i [|e' ents'] E; try done.
  unfold owners in E. simpl in E. injection E as _ _ Ha _ E. simpl.
  unfold ent_AlternativeCount. rewrite Ha. by rewrite (IH (S i) ents' E).
Qed.

(** What a test that succeeded leaves in [arb']: a complete solution on top of
    the ranges [K]. *)
Definition tested (K : list range_key) (arb' : ARBITER_INSTANCE)
  (ents ents' : list ARBITER_LIST_ENTRY) : Prop :=
  same_requests ents ents' /\
  exists arb1 (P1 : policy arb1) e,
    possible arb1 ≡ₚ K /\
    solved (S_ := drv_slots arb1 P1) (live_from 0 ents') (possible arb1) e /\
    eg_ents e = ents' /\ possible (eg_arb e) = possible arb' /\
    eg_stack e = ar_AllocationStack arb'.

(** The ranges a test starts from: the space the caller named, or what the
    devices that are not on the list have committed. *)
Definition test_base (irl : ARBITER_INSTANCE -> list CM_PARTIAL_RESOURCE_DESCRIPTOR ->
    RTL_RANGE_LIST -> world -> NTSTATUS * RTL_RANGE_LIST * world)
  (arb : ARBITER_INSTANCE) (ents : list ARBITER_LIST_ENTRY)
  (from : option (list CM_PARTIAL_RESOURCE_DESCRIPTOR)) (w : world) : list range_key :=
  match from with
  | Some ds => rl_keys (irl arb ds (ar_PossibleAllocation arb) w).1.2
  | None => unlisted ents (rl_keys (ar_Allocation arb))
  end.

Section TestOutcome.
Context (irl : ARBITER_INSTANCE -> list CM_PARTIAL_RESOURCE_DESCRIPTOR ->
    RTL_RANGE_LIST -> world -> NTSTATUS * RTL_RANGE_LIST * world).
(** Seeding a list reads no clock. *)
Context (irl_clock : forall arb ds l w s l' w',
  irl arb ds l w = (s, l', w') -> w_clock w' = w_clock w /\ w_reads w' = w_reads w).

(** The first half of the test: the tentative list is the base. *)
Lemma test_start arb ents from w s0 arb0 w0 s1 l1 ents1 :
  Forall (fun e => ent_PhysicalDeviceObject e <> NULL) ents ->
  match from with
  | Some ds => let '(Status, l, w) := irl arb ds (ar_PossibleAllocation arb) w in
               (Status, ar_set_PossibleAllocation l arb, w)
  | None => let '(Status, arb) := copy_committed arb in (Status, arb, w)
  end = (s0, arb0, w0) ->
  untouched arb arb0 /\ w_clock w0 = w_clock w /\ w_reads w0 = w_reads w /\
  (NT_SUCCESS s0 = true ->
   test_prepare cbs (match from with Some _ => false | None => true end) NULL
     (ar_PossibleAllocation arb0) ents = (s1, l1, ents1) -> NT_SUCCESS s1 = true ->
   rl_keys l1 ≡ₚ test_base irl arb ents from w /\ owners ents1 = owners ents).
Proof using L P irl_clock.
  intros Hpdo E0. destruct from as [ds|]; simpl.
  - destruct (irl arb ds (ar_PossibleAllocation arb) w) as [[s l] w'] eqn:Ei. simplify_eq.
    destruct (irl_clock _ _ _ _ _ _ _ Ei) as [-> ->]. split_and!; [apply untouched_possible|done|done|].
    intros _ Et _. by apply test_prepare_from in Et as [-> ?].
  - destruct (copy_committed arb) as [s arb1] eqn:Ec. simplify_eq.
    split_and!; [by eapply copy_committed_untouched|done|done|].
    intros Hs Et Hs1.
    destruct (test_prepare_ok NULL _ _ _ _ _ Hpdo (or_introl eq_refl) Et Hs1) as [Hk Ho].
    split; [|done]. rewrite Hk. apply Permutation_refl'. f_equal.
    by rewrite !rl_keys_cores, (copy_committed_keys _ _ _ Ec Hs).
Qed.

Lemma test_allocation_outcome N fuel arb ents from w :
  policy arb -> Forall (fun e => drv_requirements (ent_Alternatives e)) ents ->
  Forall (fun e => ent_PhysicalDeviceObject e <> NULL) ents ->
  (forall n, (N <= n)%nat -> hard_deadline w < w_clock w n) -> (N < fuel)%nat ->
  exists s arb' ents' w',
    ArbpTestAllocation cbs irl fuel wfuel arb ents from w = Some (s, arb', ents', w') /\
    untouched arb arb' /\
    if NT_SUCCESS s then tested (test_base irl arb ents from w) arb' ents ents'
    else possible arb' = [].
Proof using L P D irl_clock.
  intros Hpol Hreq Hpdo HN Hf. unfold ArbpTestAllocation.
  destruct (match from with Some _ => _ | None => _ end) as [[s0 arb0] w0] eqn:E0.
  destruct (test_prepare cbs _ NULL (ar_PossibleAllocation arb0) ents) as [[s1 l1] ents1] eqn:E1.
  destruct (test_start arb ents from w s0 arb0 w0 s1 l1 ents1 Hpdo E0) as (U0 & Hc0 & Hr0 & Hst0).
  destruct (NT_SUCCESS s0) eqn:Es0; simpl.
  2:{ eexists _, _, _, _. split; [done|]. rewrite Es0. split; [eauto with nt|apply possible_discard]. }
  destruct (NT_SUCCESS s1) eqn:Es1; simpl.
  2:{ eexists _, _, _, _. split; [done|]. rewrite Es1. split; [eauto with nt|apply possible_discard]. }
  destruct (Hst0 eq_refl E1 eq_refl) as [Hk Ho1].
  set (ents2 := ArbiterLibSortArbitrationList ents1).
  assert (Hsame : same_requests ents ents2).
  { unfold same_requests. rewrite <- Ho1. apply sort_owners. }
  destruct (ArbpBuildAllocationStack _ _ _ _ _) as [[s2 arb2] w2] eqn:E2.
  destruct (build_stack_world _ _ _ _ _ _ _ E2) as (U2 & Hp2 & Hc2 & Hr2 & Hst).
  assert (U : untouched arb arb2) by eauto with nt.
  destruct (NT_SUCCESS s2) eqn:Es2; simpl.
  2:{ eexists _, _, _, _. split; [done|]. rewrite Es2. split; [eauto with nt|apply possible_discard]. }
  destruct (Hst eq_refl) as (s3 & Eb & Es3).
  pose proof (drv_policy _ _ U Hpol) as Hpol2.
  destruct (allocate_entry_solved (S_ := drv_slots arb2 Hpol2) N fuel (ar_AllocationStack arb2)
              ents2 w2 (live_from 0 ents2)) as (s & e & -> & Hb & Ho & Hs).
  - by eapply build_states_shape.
  - apply live_from_nodup.
  - eapply Forall_impl; [apply live_from_range|]. simpl. lia.
  - eapply (build_states_inv _ _ _ 0); [|done|done|done]. by eapply same_requests_ok.
  - intros n Hn. unfold hard_deadline. rewrite Hc2, Hr2, Hc0, Hr0. by apply HN.
  - done.
  - pose proof (untouched_books _ _ Hb) as Ub.
    destruct (NT_SUCCESS s) eqn:Es; simpl.
    2:{ eexists _, _, _, _. split; [done|]. rewrite Es. split; [eauto with nt|apply possible_discard]. }
    eexists _, _, _, _. split; [done|]. split; [eauto with nt|]. simpl.
    split; [unfold same_requests in *; by rewrite Ho|].
    exists arb2, Hpol2, e. rewrite (live_from_owners 0 ents2 _ Ho). split_and!; try done; [|by apply Hs].
    unfold possible. by rewrite Hp2.
Qed.

(** C3.  The Test action, for an arbiter whose slots meet the contract: it
    returns; whatever it answers, the committed list, the policy and the
    conflict callback are untouched; a failure leaves the tentative list empty;
    a success leaves in it exactly the ranges it started from (what the devices
    not on the list have committed, or the space the caller named) plus a
    complete solution for the requests on the list. *)
Theorem test_allocation_correct N fuel arb ents from w :
  policy arb -> Forall (fun e => drv_requirements (ent_Alternatives e)) ents ->
  Forall (fun e => ent_PhysicalDeviceObject e <> NULL) ents ->
  (forall n, (N <= n)%nat -> hard_deadline w < w_clock w n) -> (N < fuel)%nat ->
  exists s arb' ents' w',
    ArbpTestAllocation cbs irl fuel wfuel arb ents from w = Some (s, arb', ents', w') /\
    untouched arb arb' /\
    if NT_SUCCESS s then tested (test_base irl arb ents from w) arb' ents ents'
    else possible arb' = [].
Proof using L P D irl_clock. apply test_allocation_outcome. Qed.
End TestOutcome.
End TestFacts.

(** ** The library's slots drive a test *)

(** A translated requirement the walker can work with. *)
Definition requirement_wf (mn mx len al : Z) : Prop :=
  alt_wf (mkAlt mn mx len al 0 0 (mkIo 0 0 0 0 (mkIoWindow 0 0 0 0) (mkIoWindow 0 0 0 0)
                                   (mkIoBus 0 0 0) (mkIoInterrupt 0 0 0) no_connection)).

Section LibraryDriver.
Context `{R : RtlRangeList} {L : RtlRangeListLaws R} {P : RtlPoolSuffices R}.
Context (env : device_env) (mmconfig : mmconfig_table).
Context (unpack : IO_RESOURCE_DESCRIPTOR -> NTSTATUS * (Z * Z * Z * Z))
  (pack : IO_RESOURCE_DESCRIPTOR -> Z -> CM_PARTIAL_RESOURCE_DESCRIPTOR ->
          NTSTATUS * CM_PARTIAL_RESOURCE_DESCRIPTOR)
  (unpack_resource : CM_PARTIAL_RESOURCE_DESCRIPTOR -> NTSTATUS * (Z * Z))
  (score : option (IO_RESOURCE_DESCRIPTOR -> Z)) (wfuel : nat).
#[local] Abbreviation cbs :=
  (ArbiterLibCallbacks env mmconfig unpack pack unpack_resource score).

Definition library_policy (arb : ARBITER_INSTANCE) : Prop :=
  ol_wf (ar_OrderingList arb) /\ ar_ConflictCallback arb = None /\ (3 < wfuel)%nat.

(** Enough fuel for the at most 1024 ordering windows of each alternative. *)
Definition library_requirements (ds : list IO_RESOURCE_DESCRIPTOR) : Prop :=
  Forall (fun d => forall s mn mx len al, unpack d = (s, (mn, mx, len, al)) ->
            NT_SUCCESS s = true -> requirement_wf mn mx len al) ds /\
  (2 * (1027 * length ds) + 3 < wfuel)%nat.

Lemma build_alternative_wf d s a :
  (forall s mn mx len al, unpack d = (s, (mn, mx, len, al)) -> NT_SUCCESS s = true ->
     requirement_wf mn mx len al) ->
  ArbpBuildAlternative cbs d = (s, a) -> NT_SUCCESS s = true -> alt_wf a.
Proof.
  intros Hd. unfold ArbpBuildAlternative. simpl.
  destruct (unpack d) as [s0 [[[mn mx] len] al]]. specialize (Hd s0 mn mx len al eq_refl).
  destruct (NT_SUCCESS s0) eqn:E0; simpl; [|intros [= <- _] Hs; congruence].
  intros [= <- <-] _. exact (Hd eq_refl).
Qed.

Lemma build_alternatives_wf ds s alts :
  Forall (fun d => forall s mn mx len al, unpack d = (s, (mn, mx, len, al)) ->
            NT_SUCCESS s = true -> requirement_wf mn mx len al) ds ->
  build_alternatives cbs ds = (s, alts) -> NT_SUCCESS s = true -> Forall alt_wf alts.
Proof.
  intros HF. revert s alts. induction HF as [|d ds Hd HF IH]; simpl; intros s alts E Hs.
  { simplify_eq. constructor. }
  destruct (ArbpBuildAlternative cbs d) as [s1 a] eqn:Ea.
  destruct (NT_SUCCESS s1) eqn:E1; simpl in E; [|simplify_eq; congruence].
  destruct (build_alternatives cbs ds) as [s2 alts2]. simplify_eq.
  constructor; [by eapply build_alternative_wf|by eapply IH].
Qed.

#[global, refine] Instance library_driver : ArbiterDriver cbs library_policy wfuel := {|
  drv_requirements := library_requirements;
  drv_slots arb Hp :=
    default_slots env mmconfig unpack pack unpack_resource score arb wfuel (proj1 Hp)
      (proj1 (proj2 Hp))
|}.
Proof using L P.
  - intros arb arb' U (H1 & H2 & H3). split_and!; [by rewrite (ut_ordering _ _ U)|
      by rewrite (ut_callback _ _ U)|done].
  - intros arb (H1 & H2 & H3) all. split; [split; [constructor|by left]|].
    unfold walk_fuel. simpl. lia.
  - intros arb (H1 & H2 & H3) all i ds s alts _ [HF Hf] E Hs. split; simpl.
    + split; [by eapply build_alternatives_wf|by left].
    + unfold walk_fuel. simpl. rewrite (build_alternatives_length _ _ _ _ E Hs).
      pose proof (orderings_limit _ H1). nia.
Defined.
End LibraryDriver.

(** ** Retest and Boot with the library's AddAllocation *)

(** The range Retest lays down for an entry. *)
Definition retest_key `{R : RtlRangeList} (cbs : ARBITER_CALLBACKS) (e : ARBITER_LIST_ENTRY)
  : option range_key :=
  if bool_decide (ent_Result e = ArbiterResultNullRequest) then None
  else match ent_Assignment e with
       | Some cm => let '(_, (Start, Length)) := UnpackResource cbs cm in
                    if Length =? 0 then None
                    else Some (Start, Start + Length - 1, ent_PhysicalDeviceObject e)
       | None => None
       end.

(** An assignment that does not run past the top of the space. *)
Definition assignment_sane `{R : RtlRangeList} (cbs : ARBITER_CALLBACKS) (e : ARBITER_LIST_ENTRY)
  : Prop :=
  forall cm s Start Length, ent_Assignment e = Some cm ->
    UnpackResource cbs cm = (s, (Start, Length)) -> NT_SUCCESS s = true ->
    0 <= Start /\ 0 <= Length /\ Start + Length - 1 <= ULONGLONG_MAX.

Section RetestBoot.
Context `{R : RtlRangeList} {L : RtlRangeListLaws R} {P : RtlPoolSuffices R}.
Context (cbs : ARBITER_CALLBACKS)
  (Hadd : AddAllocation cbs = ArbiterLibAddAllocation)
  (Hpre : PreprocessEntry cbs = ArbiterLibPreprocessEntry).

(** Recording one placement. *)
Lemma library_add arb ents st :
  st_Start st <= st_End st ->
  untouched arb (ArbiterLibAddAllocation arb ents st) /\
  rl_cores (ar_PossibleAllocation (ArbiterLibAddAllocation arb ents st)) ≡ₚ
    ((st_Start st, st_End st, st_owner ents st), st_RangeAttributes st,
     match st_alt st with
     | Some a => has_flag (alt_Flags a) ARBITER_ALTERNATIVE_FLAG_SHARED
     | None => false
     end) :: rl_cores (ar_PossibleAllocation arb).
Proof using L P.
  intros Hle. split; [apply untouched_possible|]. unfold ArbiterLibAddAllocation.
  set (fl := match st_alt st with Some _ => _ | None => _ end).
  assert (Hfl : has_flag fl RTL_RANGE_LIST_ADD_IF_CONFLICT = true /\
    has_flag fl RTL_RANGE_LIST_ADD_SHARED =
      match st_alt st with
      | Some a => has_flag (alt_Flags a) ARBITER_ALTERNATIVE_FLAG_SHARED
      | None => false
      end).
  { unfold fl. destruct (st_alt st) as [a|]; [|done]. by destruct (has_flag (alt_Flags a) _). }
  destruct Hfl as [Hf1 Hf2].
  pose proof (rl_add_succeeds (ar_PossibleAllocation arb) (st_Start st) (st_End st)
                (st_RangeAttributes st) fl NULL (st_owner ents st) Hf1 Hle) as Hs.
  destruct (RtlAddRange _ _ _ _ fl _ _) as [s l] eqn:E. simpl in *.
  pose proof (rl_add_ranges _ _ _ _ _ _ _ _ _ Hf1 E) as Hp. rewrite Hs in Hp. by rewrite Hp, Hf2.
Qed.

Lemma retest_release_keys ents l s l' :
  retest_release ents l = (s, l') -> NT_SUCCESS s = true -> rl_keys l' ≡ₚ unlisted ents (rl_keys l).
Proof using L.
  revert l. induction ents as [|e ents IH]; simpl; intros l E Hs.
  { simplify_eq. unfold unlisted. rewrite filter_all; [done|].
    apply Forall_true. intros k Hk. by inversion Hk. }
  destruct (RtlDeleteOwnersRanges l (ent_PhysicalDeviceObject e)) as [s1 l1] eqn:Ed.
  destruct (NT_SUCCESS s1) eqn:E1; simpl in E; [|simplify_eq; congruence].
  rewrite (IH _ E Hs). unfold unlisted.
  rewrite (rl_delete_owner_keys _ _ _ _ Ed E1), list_filter_filter.
  apply Permutation_refl', list_filter_iff. intros k. simpl. rewrite elem_of_cons. tauto.
Qed.

Lemma retest_entries_keys all i ents arb st w s arb' st' w' :
  Forall (assignment_sane cbs) ents -> (forall j e, ents !! j = Some e -> all !! (i + j)%nat = Some e) ->
  has_flag (st_Flags st) ARBITER_STATE_FLAG_WORKSPACE = false ->
  retest_entries cbs all i ents arb st w = (s, arb', st', w') ->
  untouched arb arb' /\ w' = w /\ has_flag (st_Flags st') ARBITER_STATE_FLAG_WORKSPACE = false /\
  (NT_SUCCESS s = true -> possible arb' ≡ₚ omap (retest_key cbs) ents ++ possible arb).
Proof using L P Hadd Hpre.
  intros HF. revert i arb st. induction HF as [|e ents He HF IH]; intros i arb st Hat Hws E.
  { simpl in E. simplify_eq. by split_and!; auto with nt. }
  assert (Hat' : forall j e', ents !! j = Some e' -> all !! (S i + j)%nat = Some e').
  { intros j e' Hj. rewrite <- (Hat (S j) e' Hj). f_equal. lia. }
  simpl in E |- *. unfold retest_key at 1.
  destruct (bool_decide (ent_Result e = ArbiterResultNullRequest)).
  { destruct (IH _ _ _ Hat' Hws E) as (U & ? & ? & Hk). split_and!; auto. }
  destruct (ent_SelectedAlternative e) as [d|]; [|simplify_eq; split_and!; auto with nt; done].
  destruct (ent_Assignment e) as [cm|] eqn:Ecm; [|simplify_eq; split_and!; auto with nt; done].
  destruct (ArbpBuildAlternative cbs d) as [s1 a].
  destruct (NT_SUCCESS s1) eqn:E1; simpl in E; [|simplify_eq; split_and!; auto with nt; congruence].
  destruct (UnpackResource cbs cm) as [s2 [start len]] eqn:Eu.
  destruct (NT_SUCCESS s2) eqn:E2; simpl in E; [|simplify_eq; split_and!; auto with nt; congruence].
  rewrite Hpre, Hadd in E. simpl in E.
  set (st1 := retest_state st i a start len) in *.
  assert (Hws1 : has_flag (st_Flags st1) ARBITER_STATE_FLAG_WORKSPACE = false) by done.
  unfold free_workspace in E. rewrite Hws1 in E.
  destruct (IH _ _ _ Hat' Hws1 E) as (U & Hw & Hf & Hk).
  destruct (len =? 0) eqn:E0; simpl in *; [split_and!; auto|]. bool_prop.
  destruct (He cm s2 start len Ecm Eu E2) as (B1 & B2 & B3). unfold ULONGLONG_MAX in B3.
  assert (Hend : st_End st1 = start + len - 1).
  { simpl. unfold add64, sub64, u64. rewrite Zminus_mod_idemp_l. apply Z.mod_small. lia. }
  destruct (library_add arb all st1) as [U1 Hc]; [rewrite Hend; simpl; lia|].
  split_and!; try done; [by eapply untouched_trans|].
  intros Hs. rewrite (Hk Hs).
  assert (Hpk : possible (ArbiterLibAddAllocation arb all st1) ≡ₚ
                (start, start + len - 1, ent_PhysicalDeviceObject e) :: possible arb).
  { unfold possible. rewrite !rl_keys_cores, Hc, <- Hend. simpl.
    specialize (Hat 0%nat e eq_refl). rewrite Nat.add_0_r in Hat.
    unfold st_owner, st_entry. simpl. by rewrite Hat. }
  rewrite Hpk. simpl. by rewrite Permutation_middle.
Qed.

Lemma retest_outcome arb ents w s arb' w' :
  Forall (assignment_sane cbs) ents ->
  ArbpRetestAllocation cbs arb ents w = (s, arb', w') ->
  untouched arb arb' /\ w' = w /\
  if NT_SUCCESS s
  then possible arb' ≡ₚ omap (retest_key cbs) ents ++ unlisted ents (rl_keys (ar_Allocation arb))
  else possible arb' = [].
Proof using L P Hadd Hpre.
  intros HF. unfold ArbpRetestAllocation.
  destruct (copy_committed arb) as [s0 arb0] eqn:Ec.
  pose proof (copy_committed_untouched _ _ _ Ec) as U0.
  destruct (NT_SUCCESS s0) eqn:E0; simpl.
  2:{ intros [= <- <- <-]. rewrite E0. split_and!; eauto with nt. apply possible_discard. }
  destruct (retest_release ents (ar_PossibleAllocation arb0)) as [s1 l1] eqn:E1.
  destruct (NT_SUCCESS s1) eqn:Es1; simpl.
  2:{ intros [= <- <- <-]. rewrite Es1. split_and!; eauto with nt. apply possible_discard. }
  destruct (retest_entries cbs ents 0 ents _ st_zero w) as [[[s2 arb2] st2] w2] eqn:E2.
  destruct (retest_entries_keys ents 0 _ _ st_zero _ _ _ _ _ HF (fun _ _ H => H) eq_refl E2)
    as (U2 & -> & Hws & Hk).
  destruct (NT_SUCCESS s2) eqn:Es2; simpl.
  2:{ unfold free_workspace. rewrite Hws. intros [= <- <- <-]. rewrite Es2.
      split_and!; eauto with nt. apply possible_discard. }
  intros [= <- <- <-]. split_and!; eauto with nt. simpl. rewrite (Hk eq_refl).
  unfold possible. simpl. rewrite (retest_release_keys _ _ _ _ E1 Es1).
  by rewrite !rl_keys_cores, (copy_committed_keys _ _ _ Ec E0).
Qed.

(** The Retest action lays down what it is told and nothing else: on
    success the tentative list holds the committed ranges of the devices not on
    the list, and for every entry that is not a null request the range its
    Assignment names; a failure leaves it empty.  The committed list and the
    rest of the instance are untouched, and no pool changes hands. *)
Theorem retest_allocation_correct arb ents w s arb' w' :
  Forall (assignment_sane cbs) ents ->
  ArbpRetestAllocation cbs arb ents w = (s, arb', w') ->
  untouched arb arb' /\ w' = w /\
  if NT_SUCCESS s
  then possible arb' ≡ₚ omap (retest_key cbs) ents ++ unlisted ents (rl_keys (ar_Allocation arb))
  else possible arb' = [].
Proof using L P Hadd Hpre. apply retest_outcome. Qed.

(** What Boot records for an entry. *)
Definition boot_core (e : ARBITER_LIST_ENTRY) : option range_core :=
  option_map (fun a => ((alt_Minimum a, alt_Maximum a, ent_PhysicalDeviceObject e),
                        ARBITER_RANGE_BOOT_ALLOCATED,
                        has_flag (alt_Flags a) ARBITER_ALTERNATIVE_FLAG_SHARED))
    (boot_alternative cbs e).

(** A reserved configuration is one sane, fixed, aligned range. *)
Lemma boot_alternative_sane e a :
  boot_alternative cbs e = Some a ->
  alt_Minimum a <= alt_Maximum a /\ alt_Length a <> 0 /\
  (alt_Maximum a -u alt_Minimum a +u 1) = alt_Length a /\
  alt_Alignment a <> 0 /\ alt_Minimum a mod alt_Alignment a = 0.
Proof using.
  unfold boot_alternative. destruct (ent_Alternatives e) as [|d ds]; [done|].
  unfold ArbpBuildAlternative. destruct (UnpackRequirement cbs d) as [s [[[mn mx] len] al]].
  destruct (NT_SUCCESS s) eqn:Es; simpl; [|by rewrite Es].
  set (f1 := if io_ShareDisposition d =? _ then _ else _).
  set (f2 := if (_ =? len) then _ else f1). set (f3 := if (_ && _) then _ else f2).
  set (f4 := if mx <? mn then _ else f3).
  unfold boot_sane. simpl.
  destruct (negb _) eqn:Eb; [|done]. intros [= <-]. apply negb_true_iff in Eb.
  repeat match goal with H : (_ || _) = false |- _ => apply orb_false_elim in H; destruct H end.
  bool_prop. simpl.
  assert (Hbad : (mx <? mn) = false).
  { destruct (mx <? mn) eqn:E; [|done]. exfalso. unfold f4 in *.
    unfold has_flag, set_flag in *. bool_prop.
    match goal with H : Z.land (Z.lor _ ARBITER_ALTERNATIVE_FLAG_BADRANGE) _ = 0 |- _ =>
      apply (f_equal (fun z => Z.testbit z 2)) in H;
      rewrite Z.land_spec, Z.lor_spec, orb_true_r in H; done end. }
  assert (Hfix : ((mx -u mn +u 1) =? len) = true).
  { destruct (_ =? len) eqn:E; [done|]. exfalso.
    assert (Hf : has_flag f4 ARBITER_ALTERNATIVE_FLAG_FIXED = false); [|congruence].
    unfold f4, f3, f2, f1. rewrite Hbad.
    destruct (_ && _), (io_ShareDisposition d =? _); reflexivity. }
  bool_prop. split_and!; auto; lia.
Qed.

Lemma boot_alternative_request e e' :
  ent_Alternatives e' = ent_Alternatives e -> boot_alternative cbs e' = boot_alternative cbs e.
Proof using. intros E. unfold boot_alternative. by rewrite E. Qed.

Lemma boot_core_owners ents ents' :
  owners ents' = owners ents -> omap boot_core ents' = omap boot_core ents.
Proof using.
  revert ents'. induction ents as [|e ents IH]; intros [|e' ents'] E; try done.
  unfold owners in E. simpl in E. injection E as Ep _ Ea _ E.
  specialize (IH ents' E).
  assert (Hb : boot_core e' = boot_core e)
    by (unfold boot_core; by rewrite (boot_alternative_request e e' Ea), Ep).
  simpl. rewrite Hb. destruct (boot_core e); [f_equal|]; exact IH.
Qed.

Lemma boot_entries_ok i todo arb ents s arb' ents' :
  (i + todo = length ents)%nat ->
  boot_entries cbs i todo arb ents = (s, arb', ents') ->
  s = STATUS_SUCCESS /\ untouched arb arb' /\ owners ents' = owners ents /\
  rl_cores (ar_PossibleAllocation arb') ≡ₚ
    omap boot_core (drop i ents) ++ rl_cores (ar_PossibleAllocation arb).
Proof using L P Hadd Hpre.
  revert i arb ents. induction todo as [|todo IH]; intros i arb ents Hi E; simpl in E.
  { simplify_eq. rewrite drop_ge by lia. by split_and!; auto with nt. }
  destruct (lookup_lt_is_Some_2 ents i) as [e He]; [lia|]. rewrite He in E.
  rewrite (drop_S _ _ _ He). simpl. unfold boot_core at 1.
  destruct (boot_alternative cbs e) as [a|] eqn:Eb; [|by apply IH; [lia|]].
  rewrite Hpre, Hadd in E. simpl in E.
  destruct (boot_alternative_sane _ _ Eb) as (Hle & _).
  destruct (library_add arb ents (boot_state i a)) as [U1 Hc]; [done|].
  match type of E with boot_entries _ _ _ _ ?en = _ => set (ents1 := en) in * end.
  assert (Ho : owners ents1 = owners ents).
  { unfold ents1. destruct (ent_Assignment e) as [cm|]; [|done].
    rewrite <- (alter_insert_lookup (ent_set_Assignment _) _ _ _ He). by apply owners_alter. }
  assert (Hlen : length ents1 = length ents).
  { apply (f_equal length) in Ho. unfold owners in Ho. by rewrite !length_map in Ho. }
  destruct (IH (S i) _ ents1 ltac:(lia) E) as (Hs & U & Ho' & Hk).
  split_and!; [done|by eapply untouched_trans|congruence|].
  rewrite Hk, Hc. simpl.
  assert (Hd : omap boot_core (drop (S i) ents1) = omap boot_core (drop (S i) ents)).
  { apply boot_core_owners. unfold owners in *. by rewrite <- !skipn_map, Ho. }
  rewrite Hd. unfold st_owner, st_entry. simpl. rewrite He. by rewrite Permutation_middle.
Qed.

Lemma boot_outcome arb ents s arb' ents' :
  ArbpBootAllocation cbs arb ents = (s, arb', ents') ->
  possible arb' = [] /\
  if NT_SUCCESS s
  then rl_cores (ar_Allocation arb') ≡ₚ omap boot_core ents ++ rl_cores (ar_Allocation arb) /\
       forall e a, e ∈ ents -> boot_alternative cbs e = Some a ->
         alt_Minimum a <= alt_Maximum a /\ alt_Length a <> 0 /\
         (alt_Maximum a -u alt_Minimum a +u 1) = alt_Length a /\
         alt_Alignment a <> 0 /\ alt_Minimum a mod alt_Alignment a = 0
  else ar_Allocation arb' = ar_Allocation arb.
Proof using L P Hadd Hpre.
  unfold ArbpBootAllocation. destruct (copy_committed arb) as [s0 arb0] eqn:Ec.
  pose proof (copy_committed_untouched _ _ _ Ec) as U0.
  destruct (NT_SUCCESS s0) eqn:E0; simpl.
  2:{ intros [= <- <- <-]. rewrite E0. split; [apply possible_discard|apply U0]. }
  destruct (boot_entries cbs 0 (length ents) arb0 ents) as [[s1 arb1] ents1] eqn:E1.
  destruct (boot_entries_ok 0 _ _ _ _ _ _ eq_refl E1) as (-> & U1 & _ & Hk). simpl.
  intros [= <- <- <-]. simpl. split; [apply rl_init_keys|]. split.
  - rewrite Hk, drop_0. by rewrite (copy_committed_keys _ _ _ Ec E0).
  - intros e a _. apply boot_alternative_sane.
Qed.

(** The Boot action reserves in the committed list, for each entry whose
    first requirement is one sane, fixed, aligned range, exactly that range,
    owned by the device and tagged boot-allocated, on top of what was
    committed; other entries are skipped.  The tentative list ends up empty. *)
Theorem boot_allocation_correct arb ents s arb' ents' :
  ArbpBootAllocation cbs arb ents = (s, arb', ents') ->
  possible arb' = [] /\
  if NT_SUCCESS s
  then rl_cores (ar_Allocation arb') ≡ₚ omap boot_core ents ++ rl_cores (ar_Allocation arb) /\
       forall e a, e ∈ ents -> boot_alternative cbs e = Some a ->
         alt_Minimum a <= alt_Maximum a /\ alt_Length a <> 0 /\
         (alt_Maximum a -u alt_Minimum a +u 1) = alt_Length a /\
         alt_Alignment a <> 0 /\ alt_Minimum a mod alt_Alignment a = 0
  else ar_Allocation arb' = ar_Allocation arb.
Proof using L P Hadd Hpre. apply boot_outcome. Qed.
End RetestBoot.

(** ** Conflict queries *)

Section Conflicts.
Context `{R : RtlRangeList} {L : RtlRangeListLaws R}.

Lemma library_finder_frame env mmconfig arb ents st b arb' st' :
  ArbiterLibFindSuitableRange env mmconfig (Some ArbiterLibOverrideConflict) arb ents st
    = (b, arb', st') ->
  exists slot, arb' = ar_set_slot slot arb /\
    slot_reached (ar_PossibleAllocation arb) (ar_ConflictCallback arb)
      (ar_ConflictCallbackContext arb) slot /\
    has_flag (st_Flags st') ARBITER_STATE_FLAG_WORKSPACE =
      has_flag (st_Flags st) ARBITER_STATE_FLAG_WORKSPACE.
Proof using L.
  unfold ArbiterLibFindSuitableRange.
  assert (Hsame : exists slot, arb = ar_set_slot slot arb /\
    slot_reached (ar_PossibleAllocation arb) (ar_ConflictCallback arb)
      (ar_ConflictCallbackContext arb) slot).
  { exists (ar_ConflictCallbackContext arb). rewrite ar_set_slot_same. split; [done|by left]. }
  destruct Hsame as (slot0 & Hs0 & Hr0).
  destruct (st_alt st) as [a|]; [|intros [= <- <- <-]; by exists slot0].
  destruct (_ <? _); [intros [= <- <- <-]; by exists slot0|].
  destruct (alt_Length a =? 0); [intros [= <- <- <-]; by exists slot0|].
  set (st1 := st_set_RangeAvailableAttributes (find_mask ents st a) st).
  destruct (RtlFindRange _ _ _ _ _ _ _ _ _) as [[s start] slot] eqn:Ef.
  apply rl_find_slot in Ef.
  destruct (NT_SUCCESS s); simpl; [intros [= <- <- <-]; by exists slot|].
  destruct (ArbpShareDriverExclusive env _ ents st1) as [ok2 st2] eqn:E2.
  destruct ok2.
  { intros [= <- <- <-]. exists slot. split_and!; try done.
    apply share_exclusive_takes in E2 as [(_ & _ & _ & _ & _ & _ & _ & _ & Hf & _) _]. by rewrite Hf. }
  apply share_exclusive_false in E2 as ->.
  destruct (ArbiterLibOverrideConflict _ ents st1) as [ok3 st3] eqn:E3.
  apply override_conflict_frame in E3 as (_ & _ & _ & _ & _ & _ & Hf).
  assert (Hf1 : has_flag (st_Flags st3) ARBITER_STATE_FLAG_WORKSPACE =
                has_flag (st_Flags st) ARBITER_STATE_FLAG_WORKSPACE) by (by rewrite Hf).
  destruct ok3; [intros [= <- <- <-]; by exists slot|].
  intros [= <- <- <-]. exists slot. split_and!; try done.
  destruct (ArbiterLibIsConflictWithMmConfigRange _ _ _); [|done]. simpl.
  by rewrite has_flag_set.
Qed.

(** A reported conflict: a range of another device, or the whole space when
    nobody in particular stands in the way. *)
Definition conflict_real (K : list range_key) (pdo : PVOID) (c : ARBITER_CONFLICT_INFO) : Prop :=
  c = mkConflict NULL 0 ARBITER_MAXIMUM_ADDRESS \/
  (cf_OwningObject c <> pdo /\ (cf_Start c, cf_End c, cf_OwningObject c) ∈ K).

Context {P : RtlPoolSuffices R}.
Context (cbs : ARBITER_CALLBACKS) (env : device_env) (mmconfig : mmconfig_table)
  (Hpre : PreprocessEntry cbs = ArbiterLibPreprocessEntry)
  (Hfind : FindSuitableRange cbs =
           ArbiterLibFindSuitableRange env mmconfig (Some ArbiterLibOverrideConflict)).

(** Removing an owner that has a range shortens the list. *)
Lemma delete_owner_shorter l r s l' :
  RtlDeleteOwnersRanges l (rr_Owner r) = (s, l') -> NT_SUCCESS s = true -> r ∈ rtl_ranges l ->
  (length (rtl_ranges l') < length (rtl_ranges l))%nat.
Proof using L.
  intros E Hs Hr. pose proof (rl_delete_owner_keys _ _ _ _ E Hs) as Hk.
  apply Permutation_length in Hk. unfold rl_keys in Hk at 1. rewrite length_map in Hk. rewrite Hk.
  replace (length (rtl_ranges l)) with (length (rl_keys l)) by (apply length_map).
  apply length_filter_lt with (x := rng_key r).
  - apply list_elem_of_In, in_map, list_elem_of_In, Hr.
  - unfold key_Owner. simpl. tauto.
Qed.

(** What the loop keeps: the instance but for the tentative list and the slot,
    and a tentative list without the ranges of [pdo] and of the owners seen. *)
Definition probing (arb0 arb : ARBITER_INSTANCE) (K : list range_key) (pdo : PVOID) : Prop :=
  same_books arb0 arb /\ ar_ConflictCallback arb = Some ArbpQueryConflictCallback /\
  Forall (fun k => key_Owner k <> pdo /\ k ∈ K) (possible arb).

Lemma conflict_loop_ok n Entry arb0 arb st cs cap w K pdo :
  (length (rtl_ranges (ar_PossibleAllocation arb)) < n)%nat ->
  probing arb0 arb K pdo -> Forall (conflict_real K pdo) cs ->
  has_flag (st_Flags st) ARBITER_STATE_FLAG_WORKSPACE = false ->
  exists r arb' st' w', conflict_loop cbs n Entry arb st cs cap w = (r, arb', st', w') /\
    same_books arb0 arb' /\ has_flag (st_Flags st') ARBITER_STATE_FLAG_WORKSPACE = false /\
    match r with
    | CfFound cs' => Forall (conflict_real K pdo) cs' /\ w_live w' = w_live w
    | CfFailed s => NT_SUCCESS s = false /\ w_live w' = w_live w - 1
    | CfNoFuel => False
    end.
Proof using L P Hfind.
  revert arb st cs cap w. induction n as [|n IH]; intros arb st cs cap w Hn (Hb & Hcb & HK) Hcs Hws; [lia|].
  cbn [conflict_loop]. rewrite Hfind.
  destruct (ArbiterLibFindSuitableRange _ _ _ _ _ _) as [[ok arb1] st1] eqn:Ef.
  destruct (library_finder_frame _ _ _ _ _ _ _ _ Ef) as (slot & -> & Hslot & Hws1).
  simpl in Hslot, Hws1. rewrite Hws in Hws1. rewrite Hcb in Hslot.
  assert (Hb1 : same_books arb0 (ar_set_slot slot (ar_set_slot None arb))).
  { destruct Hb as (p & s & ->). by exists p, slot. }
  destruct ok; [by eexists _, _, _, _|].
  destruct (if Z.of_nat (length cs) =? cap then _ else _) as [[room cap'] w1] eqn:Er.
  assert (Hlive : w_live w1 = if room then w_live w else w_live w - 1).
  { destruct (_ =? cap); [|by simplify_eq]. unfold ExAllocatePoolWithTag in Er.
    destruct (w_pool w (w_allocs w) _); simplify_eq; simpl; lia. }
  destruct room; simpl; [|by eexists _, _, _, _].
  destruct slot as [r|].
  2:{ eexists _, _, _, _. split; [done|]. split_and!; try done.
      apply Forall_app. split; [done|]. repeat constructor. }
  assert (Hr : r ∈ rtl_ranges (ar_PossibleAllocation arb)).
  { destruct Hslot as [|(f & s0 & r0 & [= <-] & Hin & E0)]; [done|]. unfold ArbpQueryConflictCallback in E0.
    simpl in E0. by simplify_eq. }
  destruct (RtlDeleteOwnersRanges (ar_PossibleAllocation arb) (rr_Owner r)) as [s l] eqn:Ed.
  pose proof (rl_delete_owner_succeeds (ar_PossibleAllocation arb) (rr_Owner r)) as Hs.
  rewrite Ed in Hs. simpl in Hs. rewrite Hs. simpl.
  pose proof (delete_owner_shorter _ _ _ _ Ed Hs Hr) as Hlt.
  pose proof (rl_delete_owner_keys _ _ _ _ Ed Hs) as Hk.
  assert (Hreal : conflict_real K pdo (mkConflict (rr_Owner r) (rr_Start r) (rr_End r))).
  { right. rewrite Forall_forall in HK.
    apply (HK (rng_key r)), list_elem_of_In, in_map, list_elem_of_In, Hr. }
  rewrite <- Hlive. eapply IH; simpl; [lia| |by apply Forall_app; auto|done].
  split_and!; [destruct Hb as (p & s1 & ->); by exists l, (Some r)|done|].
  unfold possible. simpl. rewrite Hk. apply Forall_forall. intros k Hin.
  apply list_elem_of_filter in Hin as [_ Hin]. rewrite Forall_forall in HK. by apply HK.
Qed.

#[local] Arguments conflict_loop : simpl never.

Lemma query_conflict_outcome arb pdo d w :
  exists s cs arb' w', ArbpQueryConflict cbs arb pdo d w = Some (s, cs, arb', w') /\
    arb' = discard arb /\ Forall (conflict_real (rl_keys (ar_Allocation arb)) pdo) cs /\
    w_live w' = if NT_SUCCESS s then w_live w + 1 else w_live w.
Proof using L P Hpre Hfind.
  unfold ArbpQueryConflict, query_conflict_body.
  set (arbq := ar_set_callback (Some ArbpQueryConflictCallback) None arb).
  assert (Hrest : forall arb1, same_books arbq arb1 ->
    ar_set_callback (ar_ConflictCallback arb) (ar_ConflictCallbackContext arb) (discard arb1)
    = discard arb) by (intros arb1 (p & s & ->); by destruct arb).
  destruct (copy_committed arbq) as [s0 arb0] eqn:Ec.
  assert (Hb0 : same_books arbq arb0).
  { unfold copy_committed in Ec. destruct (RtlCopyRangeList _ _) as [s l]. injection Ec as _ <-.
    by exists l, None. }
  destruct (NT_SUCCESS s0) eqn:E0; simpl.
  2:{ rewrite Hrest by done. eexists _, _, _, _. split; [done|]. rewrite E0. by split_and!. }
  destruct (ArbpBuildAlternative cbs d) as [s1 a] eqn:Ea.
  destruct (NT_SUCCESS s1) eqn:E1; simpl.
  2:{ rewrite Hrest by done. eexists _, _, _, _. split; [done|]. rewrite E1. by split_and!. }
  destruct (w_pool w (w_allocs w) _); simpl.
  2:{ rewrite Hrest by done. eexists _, _, _, _. split; [done|]. by split_and!. }
  rewrite Hpre. simpl. set (w1 := mkWorld _ _ _ _ _).
  destruct (RtlDeleteOwnersRanges (ar_PossibleAllocation arb0) pdo) as [s2 l2] eqn:Ed. simpl.
  pose proof (rl_delete_owner_succeeds (ar_PossibleAllocation arb0) pdo) as Hs2. rewrite Ed in Hs2.
  pose proof (rl_delete_owner_keys _ _ _ _ Ed Hs2) as Hk.
  destruct (conflict_loop_ok (S (length (rtl_ranges l2))) [probe_entry pdo] arbq
              (ar_set_PossibleAllocation l2 arb0) (probe_state a) [] 10 w1
              (rl_keys (ar_Allocation arb)) pdo) as (r & arb' & st' & w' & -> & Hb' & Hws & Hr).
  - simpl. lia.
  - split_and!; [destruct Hb0 as (p & s & ->); by exists l2, s|by destruct Hb0 as (p & s & ->)|].
    unfold possible. simpl. rewrite Hk. apply Forall_forall. intros k Hin.
    apply list_elem_of_filter in Hin as [Hne Hin]. split; [done|].
    rewrite rl_keys_cores, (copy_committed_keys _ _ _ Ec E0) in Hin. simpl in Hin.
    by rewrite rl_keys_cores.
  - constructor.
  - done.
  - unfold free_workspace. rewrite Hws, Hrest by done.
    destruct r as [cs|s|]; [|destruct Hr as [Hf Hl]|done]; eexists _, _, _, _; (split; [done|]).
    + destruct Hr as [Hc Hl]. by split_and!.
    + rewrite Hf, Hl. split_and!; try done. simpl. lia.
Qed.

(** ArbpQueryConflict returns: each round that does not end the loop
    removes an owner that has a range.  It restores the conflict callback and
    its context, leaves the committed list alone and the tentative list empty.
    Every conflict it reports is a committed range of another device (or the
    whole space, when no range stands in the way); the block that holds them is
    the only one it leaves allocated. *)
Theorem query_conflict_correct arb pdo d w :
  exists s cs arb' w', ArbpQueryConflict cbs arb pdo d w = Some (s, cs, arb', w') /\
    arb' = discard arb /\ Forall (conflict_real (rl_keys (ar_Allocation arb)) pdo) cs /\
    w_live w' = if NT_SUCCESS s then w_live w + 1 else w_live w.
Proof using L P Hpre Hfind. apply query_conflict_outcome. Qed.
End Conflicts.

(** ** Witnesses *)

#[local] Existing Instance ref_range_list.

(** Requirements that name their own window, length and alignment. *)
Definition window_req (mn mx len al : Z) : IO_RESOURCE_DESCRIPTOR :=
  let w := mkIoWindow len al mn mx in
  mkIo 0 CmResourceTypeMemory 0 0 w w (mkIoBus 0 0 0) (mkIoInterrupt 0 0 0) no_connection.
Definition window_unpack (d : IO_RESOURCE_DESCRIPTOR) : NTSTATUS * (Z * Z * Z * Z) :=
  (STATUS_SUCCESS, (iw_MinimumAddress (io_Memory d), iw_MaximumAddress (io_Memory d),
                    iw_Length (io_Memory d), iw_Alignment (io_Memory d))).
Definition window_callbacks (env : device_env) : ARBITER_CALLBACKS :=
  ArbiterLibCallbacks env [] window_unpack sample_pack sample_unpack_resource None.
Definition window_entry (pdo : PVOID) (ds : list IO_RESOURCE_DESCRIPTOR) : ARBITER_LIST_ENTRY :=
  mkEntry ds pdo ArbiterRequestPnpEnumerated 0 0
    (Some (mkCm CmResourceTypeMemory 0 0 (mkCmWindow 0 0) (mkCmWindow 0 0) (mkCmWindow 0 0)
             (mkCmInterrupt 0 0 0) no_connection)) None ArbiterResultUndefined.

(** Device 9 holds 0x200..0x20F; device 7 holds 0x1F0..0x1FF and is asked for
    again, with device 8. *)
Definition books_arbiter : ARBITER_INSTANCE :=
  ar_set_stack 4096 []
    (ar_set_Allocation [mkRange 0x200 0x20F 0 9 0 0; mkRange 0x1F0 0x1FF 0 7 0 0] sample_arbiter).
Definition books_ents : list ARBITER_LIST_ENTRY :=
  [window_entry 7 [window_req 0x100 0x1FF 0x20 0x10]; window_entry 8 [window_req 0x1C0 0x1FF 0x40 0x10]].

Definition no_seed (arb : ARBITER_INSTANCE) (ds : list CM_PARTIAL_RESOURCE_DESCRIPTOR)
  (l : RTL_RANGE_LIST) (w : world) : NTSTATUS * RTL_RANGE_LIST * world := (STATUS_SUCCESS, l, w).

Lemma no_seed_clock arb ds l w s l' w' :
  no_seed arb ds l w = (s, l', w') -> w_clock w' = w_clock w /\ w_reads w' = w_reads w.
Proof. by intros [= _ _ <-]. Qed.

Definition test_run :=
  ArbpTestAllocation (window_callbacks quiet_env) no_seed 200 5000 books_arbiter books_ents None
    ticking_world.

Definition result_keys (r : option (NTSTATUS * ARBITER_INSTANCE * list ARBITER_LIST_ENTRY * world))
  : option (NTSTATUS * list range_key) :=
  option_map (fun r => (r.1.1.1, possible r.1.1.2)) r.

Lemma books_requirements :
  Forall (fun e => library_requirements window_unpack 5000 (ent_Alternatives e)) books_ents.
Proof.
  assert (Hw : forall mn mx len al, requirement_wf mn mx len al ->
    library_requirements window_unpack 5000 [window_req mn mx len al]).
  { intros mn mx len al Hr. split; [|change (length [_]) with 1%nat; lia]. constructor; [|constructor].
    intros s mn' mx' len' al' E _. by injection E as _ <- <- <- <-. }
  apply Forall_cons; split; [|apply Forall_cons; split; [|apply Forall_nil_2]]; apply Hw;
    unfold requirement_wf, alt_wf, is_u64, ULONGLONG_MAX, alt_align; simpl; lia.
Qed.

Lemma books_policy : library_policy 5000 books_arbiter.
Proof. split_and!; [apply sample_arbiter_ol|done|lia]. Qed.

Lemma test_allocation_correct_witness :
  result_keys test_run =
    Some (STATUS_SUCCESS, [(0x1C0, 0x1FF, 8); (0x1A0, 0x1BF, 7); (0x200, 0x20F, 9)]) /\
  exists s arb' ents' w', test_run = Some (s, arb', ents', w') /\ untouched books_arbiter arb'.
Proof.
  split; [vm_compute; reflexivity|].
  destruct (test_allocation_correct (L := ref_range_list_laws) (P := ref_pool_suffices)
              (D := library_driver (L := ref_range_list_laws) (P := ref_pool_suffices)
                      quiet_env [] window_unpack sample_pack sample_unpack_resource None 5000)
              no_seed no_seed_clock 102 200 books_arbiter books_ents None ticking_world
              books_policy books_requirements) as (s & arb' & ents' & w' & E & U & _).
  - by repeat constructor.
  - apply ticking_deadline.
  - lia.
  - exists s, arb', ents', w'. split; [exact E|exact U].
Defined.

(** The entries as the test leaves them, and the instance. *)
Definition tested_ents : list ARBITER_LIST_ENTRY :=
  match test_run with Some (_, _, ents, _) => ents | None => [] end.
Definition tested_arb : ARBITER_INSTANCE :=
  match test_run with Some (_, arb, _, _) => arb | None => books_arbiter end.

#[local] Abbreviation retest_run :=
  (ArbpRetestAllocation (window_callbacks quiet_env) books_arbiter tested_ents ticking_world).

Lemma tested_sane : Forall (assignment_sane (window_callbacks quiet_env)) tested_ents.
Proof.
  assert (Hb : forallb (fun e => match ent_Assignment e with
    | Some cm => (0 <=? cw_Start (cm_Memory cm)) && (0 <=? cw_Length (cm_Memory cm)) &&
                 (cw_Start (cm_Memory cm) + cw_Length (cm_Memory cm) - 1 <=? ULONGLONG_MAX)
    | None => true end) tested_ents = true) by (vm_compute; reflexivity).
  apply Forall_forall. intros e He. rewrite forallb_forall in Hb.
  apply list_elem_of_In, Hb in He. intros cm s st len Ecm E _. rewrite Ecm in He.
  injection E as _ <- <-. bool_prop. by split_and!.
Qed.

(** The retest of a tested list reproduces the tested placements. *)
Lemma retest_allocation_correct_witness :
  possible retest_run.1.2 = [(0x1C0, 0x1FF, 8); (0x1A0, 0x1BF, 7); (0x200, 0x20F, 9)] /\
  untouched books_arbiter retest_run.1.2.
Proof.
  split; [vm_compute; reflexivity|].
  destruct retest_run as [[s arb'] w'] eqn:E.
  exact (proj1 (retest_allocation_correct (L := ref_range_list_laws) (P := ref_pool_suffices)
           (window_callbacks quiet_env) eq_refl eq_refl books_arbiter tested_ents ticking_world
           _ _ _ tested_sane E)).
Defined.

Definition boot_ents : list ARBITER_LIST_ENTRY :=
  [window_entry 7 [window_req 0x3F8 0x3FF 8 8]; window_entry 8 [window_req 0x100 0x1FF 0x20 0x10]].
#[local] Abbreviation boot_run :=
  (ArbpBootAllocation (window_callbacks quiet_env) books_arbiter boot_ents).

(** The fixed range of device 7 is reserved, the choice of device 8 is not. *)
Lemma boot_allocation_correct_witness :
  rl_keys (ar_Allocation boot_run.1.2) =
    [(0x3F8, 0x3FF, 7); (0x200, 0x20F, 9); (0x1F0, 0x1FF, 7)] /\
  possible boot_run.1.2 = [].
Proof.
  split; [vm_compute; reflexivity|].
  destruct boot_run as [[s arb'] w'] eqn:E.
  exact (proj1 (boot_allocation_correct (L := ref_range_list_laws) (P := ref_pool_suffices)
           (window_callbacks quiet_env) eq_refl eq_refl books_arbiter boot_ents
           _ _ _ E)).
Defined.

Definition query_run :=
  ArbpQueryConflict (window_callbacks quiet_env) books_arbiter 8 (window_req 0x1F8 0x207 0x10 8)
    sample_world.

Lemma query_conflict_correct_witness :
  exists cs arb' w', query_run = Some (STATUS_SUCCESS, cs, arb', w') /\
    cs = [mkConflict 9 0x200 0x20F; mkConflict 7 0x1F0 0x1FF] /\ arb' = discard books_arbiter.
Proof.
  destruct (query_conflict_correct (L := ref_range_list_laws) (P := ref_pool_suffices)
              (window_callbacks quiet_env) quiet_env [] eq_refl eq_refl books_arbiter 8
              (window_req 0x1F8 0x207 0x10 8) sample_world)
    as (s & cs & arb' & w' & E & Ha & _ & _).
  assert (E' : query_run = Some (s, cs, arb', w')) by exact E.
  assert (Hv : option_map (fun r => (r.1.1.1, r.1.1.2)) query_run =
               Some (STATUS_SUCCESS, [mkConflict 9 0x200 0x20F; mkConflict 7 0x1F0 0x1FF]))
    by (vm_compute; reflexivity).
  rewrite E' in Hv. simpl in Hv. injection Hv as Hs Hc.
  exists cs, arb', w'. split_and!; [by rewrite <- Hs|exact Hc|exact Ha].
Defined.

Definition stack_run :=
  ArbpBuildAllocationStack (window_callbacks quiet_env) sample_arbiter books_ents 2 sample_world.

Lemma build_allocation_stack_fits_witness :
  stack_run.1.1 = STATUS_SUCCESS /\
  stack_room (ar_AllocationStack stack_run.1.2) <= ar_AllocationStackMaxSize stack_run.1.2.
Proof.
  assert (Hs : stack_run.1.1 = STATUS_SUCCESS) by (vm_compute; reflexivity). split; [exact Hs|].
  assert (E : stack_run = (stack_run.1.1, stack_run.1.2, stack_run.2))
    by (by destruct stack_run as [[? ?] ?]).
  apply (build_allocation_stack_fits (window_callbacks quiet_env) sample_arbiter books_ents
           sample_world _ _ _ ltac:(done) ltac:(done) ltac:(done) E).
  by rewrite Hs.
Defined.

(** ** A query inside a transaction discards it *)

(** The lock covers each call and not the transaction: a conflict query
    between Test and Commit empties the tentative list the Test filled, and the
    Commit then installs the empty list, losing every committed range. *)
Theorem query_between_test_and_commit_loses_books :
  exists cs arb' w',
    result_keys test_run =
      Some (STATUS_SUCCESS, [(0x1C0, 0x1FF, 8); (0x1A0, 0x1BF, 7); (0x200, 0x20F, 9)]) /\
    ArbpQueryConflict (window_callbacks quiet_env) tested_arb 8 (window_req 0x300 0x30F 0x10 8)
      sample_world = Some (STATUS_SUCCESS, cs, arb', w') /\
    rl_keys (ar_Allocation arb') = [(0x200, 0x20F, 9); (0x1F0, 0x1FF, 7)] /\
    rl_keys (ar_Allocation (ArbiterLibCommitAllocation arb').2) = [].
Proof.
  set (q := ArbpQueryConflict _ _ _ _ _).
  assert (Hq : option_map (fun r => (r.1.1.1, rl_keys (ar_Allocation r.1.2),
                 rl_keys (ar_Allocation (ArbiterLibCommitAllocation r.1.2).2))) q =
               Some (STATUS_SUCCESS, [(0x200, 0x20F, 9); (0x1F0, 0x1FF, 7)], []))
    by (vm_compute; reflexivity).
  destruct q as [[[[s cs] arb'] w']|]; [|discriminate Hq]. simpl in Hq. injection Hq as -> H1 H2.
  exists cs, arb', w'. split_and!; [vm_compute; reflexivity|done|exact H1|exact H2].
Qed.

(** ** A stale null result loses a range *)

(** Device 7 is tried at 0x110..0x11F first; device 8 prefers 0x110..0x117 and
    would also take nothing at all; device 9 must have 0x118..0x11F. *)
Definition stale_ents : list ARBITER_LIST_ENTRY :=
  [window_entry 7 [window_req 0x100 0x11F 0x10 0x10];
   window_entry 8 [window_req 0x110 0x117 8 1; window_req 0 0xFFFF 0 1];
   window_entry 9 [window_req 0x118 0x11F 8 1]].

(** ArbiterResultNullRequest, once written for an entry, survives the
    withdrawal of the empty choice.  Here device 8 is first given nothing, the
    search backtracks, and the Test succeeds with 0x110..0x117 recorded for it
    and written to its Assignment; but its Result still says that nothing was
    asked for, so the Retest that precedes the Commit skips it and the range is
    not reserved. *)
Theorem null_result_survives_backtrack :
  exists arb' ents' w',
    ArbpTestAllocation (window_callbacks quiet_env) no_seed 200 5000 sample_arbiter stale_ents None
      sample_world = Some (STATUS_SUCCESS, arb', ents', w') /\
    possible arb' = [(0x118, 0x11F, 9); (0x110, 0x117, 8); (0x100, 0x10F, 7)] /\
    map ent_Result ents' =
      [ArbiterResultSuccess; ArbiterResultNullRequest; ArbiterResultSuccess] /\
    possible (ArbpRetestAllocation (window_callbacks quiet_env) arb' ents' w').1.2 =
      [(0x118, 0x11F, 9); (0x100, 0x10F, 7)].
Proof.
  set (t := ArbpTestAllocation _ _ _ _ _ _ _ _).
  assert (Ht : option_map (fun r => (r.1.1.1, possible r.1.1.2, map ent_Result r.1.2,
      possible (ArbpRetestAllocation (window_callbacks quiet_env) r.1.1.2 r.1.2 r.2).1.2)) t =
    Some (STATUS_SUCCESS, [(0x118, 0x11F, 9); (0x110, 0x117, 8); (0x100, 0x10F, 7)],
          [ArbiterResultSuccess; ArbiterResultNullRequest; ArbiterResultSuccess],
          [(0x118, 0x11F, 9); (0x100, 0x10F, 7)])) by (vm_compute; reflexivity).
  destruct t as [[[[s arb'] ents'] w']|]; [|discriminate Ht].
  simpl in Ht. injection Ht as -> H1 H2 H3.
  exists arb', ents', w'. split_and!; [done|exact H1|exact H2|exact H3].
Qed.
