(* ===== verification/Handler.v ===== *)
(** Action dispatch, startup and instance lifetime:
    reactos-libs/arbiter/handler.c and reactos-libs/arbiter/arbiter.c.

    [ArbiterLibHandler] runs one action under the instance lock.  The contract
    the PnP manager sees is the abstract machine [books], a committed and a
    pending set of ranges; [handler_refines_books] shows the handler implements
    it, and the theorems on sequences of actions are proved on the machine. *)
From stdpp Require Import base list numbers option sorting strings.
From Stdlib Require Import ZArith Lia Permutation.
From S2P Require Import Prelude NtEnv RangeListRef ArbTypes Ordering RangeWalk.
From S2P Require Import Entry DefaultSlots Transaction.

(** ** Seeding a range list *)

Record ARBITER_SEED_WINDOW := mkSeed { sw_Start : Z; sw_End : Z }.

Section Seed.
Context `{R : RtlRangeList} (cbs : ARBITER_CALLBACKS).

(** The insertion from the top: behind every window that starts no higher. *)
Fixpoint seed_insert (x : ARBITER_SEED_WINDOW) (Windows : list ARBITER_SEED_WINDOW)
  : list ARBITER_SEED_WINDOW :=
  match Windows with
  | [] => [x]
  | y :: ys => if sw_Start y <=? sw_Start x then y :: seed_insert x ys else x :: y :: ys
  end.

(** The descriptor is of the arbiter's kind; a large memory window is memory. *)
Definition seed_matches (ResourceType : Z) (d : CM_PARTIAL_RESOURCE_DESCRIPTOR) : bool :=
  (cm_Type d =? u8 ResourceType) ||
  ((cm_Type d =? CmResourceTypeMemoryLarge) && (ResourceType =? CmResourceTypeMemory)).

(** The collecting loop. *)
Definition seed_collect (ResourceType : Z) (Resources : list CM_PARTIAL_RESOURCE_DESCRIPTOR)
  : list ARBITER_SEED_WINDOW :=
  fold_left (fun Windows d =>
    if negb (seed_matches ResourceType d) then Windows
    else
      let '(_, (Start, Length)) := UnpackResource cbs d in
      if Length =? 0 then Windows
      else seed_insert (mkSeed Start (Start +u Length -u 1)) Windows) Resources [].

(** The loop over the sorted windows: blocks what lies between them. *)
Fixpoint seed_block (Windows : list ARBITER_SEED_WINDOW) (Next : Z) (l : RTL_RANGE_LIST)
  : RTL_RANGE_LIST :=
  match Windows with
  | [] => (RtlAddRange l Next ARBITER_MAXIMUM_ADDRESS 0 RTL_RANGE_LIST_ADD_IF_CONFLICT NULL NULL).2
  | x :: xs =>
      let l := if Next <? sw_Start x
               then (RtlAddRange l Next (sw_Start x -u 1) 0 RTL_RANGE_LIST_ADD_IF_CONFLICT NULL NULL).2
               else l in
      let Next := if Next <=? sw_End x then sw_End x +u 1 else Next in
      if sw_End x =? ARBITER_MAXIMUM_ADDRESS then l else seed_block xs Next l
  end.

Definition ArbpSeedRangeList (arb : ARBITER_INSTANCE)
  (Resources : list CM_PARTIAL_RESOURCE_DESCRIPTOR) (RangeList : RTL_RANGE_LIST) (w : world)
  : NTSTATUS * RTL_RANGE_LIST * world :=
  let l := RtlInitializeRangeList in
  match Resources with
  | [] => (STATUS_SUCCESS, l, w)
  | _ =>
      let '(ok, w) := ExAllocatePoolWithTag (Z.of_nat (length Resources) * 16) w in
      if negb ok then (STATUS_INSUFFICIENT_RESOURCES, l, w)
      else
        match seed_collect (ar_ResourceType arb) Resources with
        | [] => (STATUS_SUCCESS, l, ExFreePoolWithTag w)
        | Windows => (STATUS_SUCCESS, seed_block Windows 0 l, ExFreePoolWithTag w)
        end
  end.

Definition ArbiterLibInitializeRangeList := ArbpSeedRangeList.

(** [StartResources] is [None] for NULL, else the PartialDescriptors of each
    element of List. *)
Definition ArbiterLibStartArbiter (arb : ARBITER_INSTANCE)
  (StartResources : option (list (list CM_PARTIAL_RESOURCE_DESCRIPTOR))) (w : world)
  : NTSTATUS * ARBITER_INSTANCE * world :=
  match StartResources with
  | None | Some [] => (STATUS_SUCCESS, arb, w)
  | Some (Full :: _) =>
      let '(Status, l, w) := ArbiterLibInitializeRangeList arb Full (ar_Allocation arb) w in
      (Status, ar_set_Allocation l arb, w)
  end.
End Seed.

(** ** Dispatch *)

(** KeWaitForSingleObject on the mutex event: [None] while it is held. *)
Definition ArbpAcquireLock `{R : RtlRangeList} (arb : ARBITER_INSTANCE) : option ARBITER_INSTANCE :=
  if ar_Locked arb then None else Some (ar_set_Locked true arb).
Definition ArbpReleaseLock `{R : RtlRangeList} (arb : ARBITER_INSTANCE) : ARBITER_INSTANCE :=
  ar_set_Locked false arb.

(** An action with the parameters its handler reads. *)
Inductive ARBITER_ACTION :=
| ArbiterActionTestAllocation (ents : list ARBITER_LIST_ENTRY)
    (AllocateFrom : option (list CM_PARTIAL_RESOURCE_DESCRIPTOR))
| ArbiterActionRetestAllocation (ents : list ARBITER_LIST_ENTRY)
| ArbiterActionCommitAllocation
| ArbiterActionRollbackAllocation
| ArbiterActionQueryAllocatedResources
| ArbiterActionWriteReservedResources
| ArbiterActionQueryConflict (PhysicalDeviceObject : PVOID)
    (ConflictingResource : IO_RESOURCE_DESCRIPTOR)
| ArbiterActionQueryArbitrate (ents : list ARBITER_LIST_ENTRY)
| ArbiterActionAddReserved
| ArbiterActionBootAllocation (ents : list ARBITER_LIST_ENTRY)
| ArbiterActionUnrecognized (code : Z).

Section Dispatch.
Context `{R : RtlRangeList} (cbs : ARBITER_CALLBACKS) (fuel wfuel : nat).

Record handled := mkHandled {
  h_Status : NTSTATUS;
  h_arb : ARBITER_INSTANCE;
  h_ents : list ARBITER_LIST_ENTRY;              (** the arbitration list afterwards *)
  h_Conflicts : list ARBITER_CONFLICT_INFO;
  h_w : world
}.

Definition ArbiterLibQueryArbitrate (arb : ARBITER_INSTANCE) (ents : list ARBITER_LIST_ENTRY)
  : NTSTATUS := STATUS_SUCCESS.
Definition ArbiterLibAddReserved (arb : ARBITER_INSTANCE) : NTSTATUS := STATUS_SUCCESS.

Definition ArbiterLibTestAllocation (arb : ARBITER_INSTANCE) (ents : list ARBITER_LIST_ENTRY)
  (AllocateFrom : option (list CM_PARTIAL_RESOURCE_DESCRIPTOR)) (w : world) : option handled :=
  match ArbpTestAllocation cbs (ArbiterLibInitializeRangeList cbs) fuel wfuel arb ents
          AllocateFrom w with
  | Some (s, arb, ents, w) => Some (mkHandled s arb ents [] w)
  | None => None
  end.
Definition ArbiterLibRetestAllocation (arb : ARBITER_INSTANCE) (ents : list ARBITER_LIST_ENTRY)
  (w : world) : option handled :=
  let '(s, arb, w) := ArbpRetestAllocation cbs arb ents w in Some (mkHandled s arb ents [] w).
Definition ArbiterLibBootAllocation (arb : ARBITER_INSTANCE) (ents : list ARBITER_LIST_ENTRY)
  (w : world) : option handled :=
  let '(s, arb, ents) := ArbpBootAllocation cbs arb ents in Some (mkHandled s arb ents [] w).
Definition ArbiterLibQueryConflict (arb : ARBITER_INSTANCE) (PhysicalDeviceObject : PVOID)
  (ConflictingResource : IO_RESOURCE_DESCRIPTOR) (w : world) : option handled :=
  match ArbpQueryConflict cbs arb PhysicalDeviceObject ConflictingResource w with
  | Some (s, cs, arb, w) => Some (mkHandled s arb [] cs w)
  | None => None
  end.

(** The switch. *)
Definition dispatch (arb : ARBITER_INSTANCE) (Action : ARBITER_ACTION) (w : world)
  : option handled :=
  match Action with
  | ArbiterActionTestAllocation ents from => ArbiterLibTestAllocation arb ents from w
  | ArbiterActionRetestAllocation ents => ArbiterLibRetestAllocation arb ents w
  | ArbiterActionCommitAllocation =>
      let '(s, arb) := ArbiterLibCommitAllocation arb in Some (mkHandled s arb [] [] w)
  | ArbiterActionRollbackAllocation =>
      let '(s, arb) := ArbiterLibRollbackAllocation arb in Some (mkHandled s arb [] [] w)
  | ArbiterActionBootAllocation ents => ArbiterLibBootAllocation arb ents w
  | ArbiterActionQueryConflict pdo d => ArbiterLibQueryConflict arb pdo d w
  | ArbiterActionQueryArbitrate ents =>
      Some (mkHandled (ArbiterLibQueryArbitrate arb ents) arb ents [] w)
  | ArbiterActionQueryAllocatedResources
  | ArbiterActionWriteReservedResources
  | ArbiterActionAddReserved => Some (mkHandled STATUS_NOT_IMPLEMENTED arb [] [] w)
  | ArbiterActionUnrecognized _ => Some (mkHandled STATUS_INVALID_PARAMETER arb [] [] w)
  end.

Definition arms_transaction (Action : ARBITER_ACTION) : bool :=
  match Action with
  | ArbiterActionTestAllocation _ _ | ArbiterActionRetestAllocation _ => true
  | _ => false
  end.
Definition resolves_transaction (Action : ARBITER_ACTION) : bool :=
  match Action with
  | ArbiterActionCommitAllocation | ArbiterActionRollbackAllocation => true
  | _ => false
  end.

(** [None]: the caller waits for the lock, or the search is stuck. *)
Definition ArbiterLibHandler (arb : ARBITER_INSTANCE) (Action : ARBITER_ACTION) (w : world)
  : option handled :=
  match ArbpAcquireLock arb with
  | None => None
  | Some arb =>
      match dispatch arb Action w with
      | None => None
      | Some h =>
          let arb := h_arb h in
          let arb :=
            if NT_SUCCESS (h_Status h) then
              if arms_transaction Action then ar_set_transaction true false arb
              else if resolves_transaction Action then ar_set_transaction false true arb
              else arb
            else arb in
          Some (mkHandled (h_Status h) (ArbpReleaseLock arb) (h_ents h) (h_Conflicts h) (h_w h))
      end
  end.

(** ** External reservations *)

Definition ArbiterLibReserveRange (arb : ARBITER_INSTANCE) (Start End : Z) (Owner : PVOID)
  (Shared : bool) : option ARBITER_INSTANCE :=
  match ArbpAcquireLock arb with
  | None => None
  | Some arb =>
      Some (ArbpReleaseLock
              (ar_set_Allocation
                 (RtlAddRange (ar_Allocation arb) Start End 0
                    (if Shared then set_flag RTL_RANGE_LIST_ADD_IF_CONFLICT RTL_RANGE_LIST_ADD_SHARED
                     else RTL_RANGE_LIST_ADD_IF_CONFLICT) NULL Owner).2 arb))
  end.

Definition ArbiterLibReleaseResources (arb : ARBITER_INSTANCE) (Owner : PVOID)
  : option ARBITER_INSTANCE :=
  match ArbpAcquireLock arb with
  | None => None
  | Some arb =>
      Some (ArbpReleaseLock
              (ar_set_Allocation (RtlDeleteOwnersRanges (ar_Allocation arb) Owner).2 arb))
  end.
End Dispatch.

(** ** A seeded list leaves exactly the windows available *)

Section SeedFacts.
Context `{R : RtlRangeList} {L : RtlRangeListLaws R} {P : RtlPoolSuffices R}.
Context (cbs : ARBITER_CALLBACKS).

Definition blocked (K : list range_key) (x : Z) : Prop :=
  Exists (fun k => in_range x (key_Start k) (key_End k)) K.
Definition in_window (ws : list ARBITER_SEED_WINDOW) (x : Z) : Prop :=
  Exists (fun y => in_range x (sw_Start y) (sw_End y)) ws.

Definition window_wf (y : ARBITER_SEED_WINDOW) : Prop :=
  0 <= sw_Start y <= sw_End y /\ sw_End y <= ULONGLONG_MAX.

Lemma seed_insert_perm x ws : seed_insert x ws ≡ₚ x :: ws.
Proof.
  induction ws as [|y ws IH]; simpl; [done|]. destruct (_ <=? _); [|done].
  rewrite IH. apply Permutation_swap.
Qed.

Definition sw_le (a b : ARBITER_SEED_WINDOW) : Prop := sw_Start a <= sw_Start b.

Lemma seed_insert_sorted x ws : StronglySorted sw_le ws -> StronglySorted sw_le (seed_insert x ws).
Proof.
  induction 1 as [|y ws Hs IH HF]; simpl; [repeat constructor|].
  destruct (sw_Start y <=? sw_Start x) eqn:E; bool_prop.
  - constructor; [done|]. rewrite seed_insert_perm. constructor; [unfold sw_le; lia|done].
  - constructor; [by constructor|]. constructor; [unfold sw_le; lia|].
    eapply Forall_impl; [done|]. unfold sw_le. simpl. intros. lia.
Qed.

Lemma add_free_range l a b :
  a <= b ->
  rl_keys (RtlAddRange l a b 0 RTL_RANGE_LIST_ADD_IF_CONFLICT NULL NULL).2
    ≡ₚ (a, b, NULL) :: rl_keys l.
Proof using L P.
  intros Hab. pose proof (rl_add_succeeds l a b 0 RTL_RANGE_LIST_ADD_IF_CONFLICT NULL NULL eq_refl Hab) as Hs.
  destruct (RtlAddRange _ _ _ _ _ _ _) as [s l'] eqn:E. simpl in *.
  by eapply rl_add_keys in E.
Qed.

(** The mark [Next] splits the space: below it the list is right already. *)
Lemma seed_block_spec ws Next l x :
  StronglySorted sw_le ws -> Forall window_wf ws -> 0 <= Next <= ULONGLONG_MAX ->
  is_u64 x ->
  blocked (rl_keys (seed_block ws Next l)) x <->
  blocked (rl_keys l) x \/ (Next <= x /\ ~ in_window ws x).
Proof using L P.
  intros Hs. revert Next l. induction Hs as [|y ws Hs IH HF]; intros Next l Hwf Hn Hx; simpl.
  { unfold blocked. rewrite add_free_range by (unfold ARBITER_MAXIMUM_ADDRESS; lia).
    rewrite Exists_cons. unfold in_window, in_range, key_Start, key_End, is_u64 in *. simpl.
    unfold ARBITER_MAXIMUM_ADDRESS. rewrite Exists_nil.
    split; [intros [?|?]; [right; split; [lia|tauto]|by left]|].
    intros [?|[? _]]; [by right|left; lia]. }
  apply Forall_cons in Hwf as [(Hy1 & Hy2) Hwf]. unfold in_window. rewrite Exists_cons.
  fold (in_window ws x). unfold is_u64, ULONGLONG_MAX in *.
  set (l1 := if Next <? sw_Start y then _ else l).
  assert (Hl1 : blocked (rl_keys l1) x <->
    blocked (rl_keys l) x \/ (Next <= x < sw_Start y)).
  { unfold l1, blocked. destruct (Next <? sw_Start y) eqn:E; bool_prop; [|split; [auto|intros [?|?]; [done|lia]]].
    rewrite add_free_range by (rewrite sub64_small; unfold is_u64, ULONGLONG_MAX; lia).
    rewrite Exists_cons. unfold in_range at 1. unfold key_Start at 1, key_End at 1. simpl.
    rewrite sub64_small by (unfold is_u64, ULONGLONG_MAX; lia).
    split; [intros [?|?]; [right; lia|by left]|intros [?|?]; [by right|left; lia]]. }
  assert (Hge : in_window ws x -> sw_Start y <= x).
  { intros Hw. apply Exists_exists in Hw as (z & Hz & Hr). rewrite Forall_forall in HF.
    specialize (HF z Hz). unfold sw_le, in_range in *. lia. }
  destruct (sw_End y =? ARBITER_MAXIMUM_ADDRESS) eqn:Ee; bool_prop.
  - rewrite Hl1. unfold ARBITER_MAXIMUM_ADDRESS, ULONGLONG_MAX, in_range in *. split.
    + intros [?|?]; [by left|right]. split; [lia|]. intros [?|Hw]; [lia|]. specialize (Hge Hw). lia.
    + intros [?|[? Hno]]; [by left|right]. split; [lia|].
      destruct (decide (x < sw_Start y)); [done|]. exfalso. apply Hno. left. lia.
  - unfold ARBITER_MAXIMUM_ADDRESS, ULONGLONG_MAX in Ee.
    rewrite IH; [|done| |done].
    2:{ destruct (Next <=? sw_End y) eqn:E; [|lia]. rewrite add64_small by (unfold is_u64, ULONGLONG_MAX; lia). lia. }
    rewrite Hl1. unfold in_range.
    destruct (Next <=? sw_End y) eqn:E; bool_prop;
      rewrite ?add64_small by (unfold is_u64, ULONGLONG_MAX; lia).
    + split.
      * intros [[?|?]|[? Hno]]; [by left|right|right; split; [lia|intros [?|?]; [lia|done]]].
        split; [lia|]. intros [?|Hw]; [lia|]. specialize (Hge Hw). lia.
      * intros [?|[? Hno]]; [by left; left|].
        destruct (decide (x < sw_Start y)); [left; right; lia|right].
        split; [|tauto]. destruct (decide (x <= sw_End y)); [|lia]. exfalso. apply Hno. left. lia.
    + split.
      * intros [[?|?]|[? Hno]]; [by left|lia|right]. split; [lia|]. intros [?|?]; [lia|done].
      * intros [?|[? Hno]]; [by left; left|right]. split; [lia|tauto].
Qed.

(** The windows the descriptors name. *)
Definition named_windows (rt : Z) (ds : list CM_PARTIAL_RESOURCE_DESCRIPTOR)
  : list ARBITER_SEED_WINDOW :=
  omap (fun d => if seed_matches rt d then
                   let '(_, (Start, Length)) := UnpackResource cbs d in
                   if Length =? 0 then None else Some (mkSeed Start (Start + Length - 1))
                 else None) ds.

Definition descriptor_sane (d : CM_PARTIAL_RESOURCE_DESCRIPTOR) : Prop :=
  forall s Start Length, UnpackResource cbs d = (s, (Start, Length)) ->
    0 <= Start /\ 0 <= Length /\ Start + Length - 1 <= ULONGLONG_MAX.

Lemma seed_collect_fold rt ds acc :
  Forall descriptor_sane ds -> StronglySorted sw_le acc -> Forall window_wf acc ->
  let r := fold_left (fun Windows d =>
    if negb (seed_matches rt d) then Windows
    else
      let '(_, (Start, Length)) := UnpackResource cbs d in
      if Length =? 0 then Windows
      else seed_insert (mkSeed Start (Start +u Length -u 1)) Windows) ds acc in
  r ≡ₚ named_windows rt ds ++ acc /\ StronglySorted sw_le r /\ Forall window_wf r.
Proof using.
  intros HF. revert acc. induction HF as [|d ds Hd HF IH]; simpl; intros acc Hs Hw; [done|].
  destruct (seed_matches rt d); simpl; [|by apply IH].
  destruct (UnpackResource cbs d) as [s [start len]] eqn:Eu.
  destruct (Hd _ _ _ Eu) as (B1 & B2 & B3).
  destruct (len =? 0) eqn:E0; [by apply IH|]. bool_prop. unfold ULONGLONG_MAX in B3.
  assert (Hend : start +u len -u 1 = start + len - 1).
  { unfold add64, sub64, u64. rewrite Zminus_mod_idemp_l. apply Z.mod_small. lia. }
  rewrite Hend. set (x := mkSeed start (start + len - 1)).
  assert (Hx : window_wf x) by (unfold window_wf, x, ULONGLONG_MAX; simpl; lia).
  destruct (IH (seed_insert x acc)) as (Hp & Hso & Hwf).
  - by apply seed_insert_sorted.
  - rewrite seed_insert_perm. by constructor.
  - split_and!; try done. rewrite Hp, seed_insert_perm. simpl. by rewrite Permutation_middle.
Qed.

(** ArbpSeedRangeList turns the windows a bus decodes into the ranges it
    must not hand out: with at least one window of the arbiter's kind, an
    address is blocked in the new list exactly when it lies in none of the
    windows; with none, nothing is blocked.  Its work block is freed. *)
Theorem seed_range_list_correct arb ds l w s l' w' :
  Forall descriptor_sane ds ->
  ArbpSeedRangeList cbs arb ds l w = (s, l', w') -> NT_SUCCESS s = true ->
  w_live w' = w_live w /\
  forall x, is_u64 x ->
    blocked (rl_keys l') x <->
    named_windows (ar_ResourceType arb) ds <> [] /\
    ~ in_window (named_windows (ar_ResourceType arb) ds) x.
Proof using L P.
  intros HF. unfold ArbpSeedRangeList. destruct ds as [|d ds].
  { intros [= <- <- <-] _. split; [done|]. intros x _. rewrite rl_init_keys. unfold blocked.
    rewrite Exists_nil. simpl. tauto. }
  destruct (ExAllocatePoolWithTag _ w) as [ok w1] eqn:Ea. unfold ExAllocatePoolWithTag in Ea.
  destruct (w_pool w (w_allocs w) _); injection Ea as <- <-; cbn [negb];
    [|by intros [= <- <- <-]].
  destruct (seed_collect_fold (ar_ResourceType arb) (d :: ds) [] HF) as (Hp & Hs & Hw);
    [constructor|constructor|].
  fold (seed_collect cbs (ar_ResourceType arb) (d :: ds)) in Hp, Hs, Hw.
  rewrite app_nil_r in Hp.
  set (nw := named_windows (ar_ResourceType arb) (d :: ds)) in *.
  destruct (seed_collect cbs (ar_ResourceType arb) (d :: ds)) as [|y ys].
  - intros [= <- <- <-] _. split; [simpl; lia|]. intros x _. rewrite rl_init_keys.
    apply Permutation_nil in Hp. rewrite Hp. unfold blocked. rewrite Exists_nil.
    split; [done|]. intros [Hne _]. by destruct Hne.
  - intros E _. assert (l' = seed_block (y :: ys) 0 RtlInitializeRangeList) as -> by congruence.
    injection E as _ <-. split; [simpl; lia|]. intros x Hx.
    rewrite (seed_block_spec (y :: ys)) by (try done; unfold ULONGLONG_MAX; lia).
    rewrite rl_init_keys. unfold blocked at 1, in_window. rewrite Exists_nil, Hp.
    unfold is_u64 in Hx. split.
    + intros [[]|[_ Hn]]. split; [|done]. intros E. rewrite E in Hp. by apply Permutation_nil_r in Hp.
    + intros [_ Hn]. right. split; [lia|done].
Qed.
End SeedFacts.

(** ** The contract: committed and pending ranges *)

Record books := mkBooks { committed : list range_key; pending : list range_key }.

Definition books_of `{R : RtlRangeList} (arb : ARBITER_INSTANCE) : books :=
  mkBooks (rl_keys (ar_Allocation arb)) (possible arb).

(** The ranges belong to devices on the list. *)
Definition owned_by (ents : list ARBITER_LIST_ENTRY) (K : list range_key) : Prop :=
  Forall (fun k => key_Owner k ∈ map ent_PhysicalDeviceObject ents) K.

Section Contract.
Context `{R : RtlRangeList} (cbs : ARBITER_CALLBACKS).

(** What each action does to the books; the flag is whether it succeeded. *)
Inductive books_step : ARBITER_ACTION -> bool -> books -> books -> Prop :=
| bs_test ents from b b' placements K :
    committed b' = committed b -> owned_by ents placements ->
    (from = None -> K = unlisted ents (committed b)) ->
    pending b' ≡ₚ placements ++ K ->
    books_step (ArbiterActionTestAllocation ents from) true b b'
| bs_test_failed ents from b :
    books_step (ArbiterActionTestAllocation ents from) false b (mkBooks (committed b) [])
| bs_retest ents b b' :
    committed b' = committed b ->
    pending b' ≡ₚ omap (retest_key cbs) ents ++ unlisted ents (committed b) ->
    books_step (ArbiterActionRetestAllocation ents) true b b'
| bs_retest_failed ents b :
    books_step (ArbiterActionRetestAllocation ents) false b (mkBooks (committed b) [])
| bs_commit b :
    books_step ArbiterActionCommitAllocation true b (mkBooks (pending b) [])
| bs_rollback b :
    books_step ArbiterActionRollbackAllocation true b (mkBooks (committed b) [])
| bs_boot ents b b' :
    committed b' ≡ₚ map core_key (omap (boot_core cbs) ents) ++ committed b -> pending b' = [] ->
    books_step (ArbiterActionBootAllocation ents) true b b'
| bs_boot_failed ents b :
    books_step (ArbiterActionBootAllocation ents) false b (mkBooks (committed b) [])
| bs_query pdo d ok b :
    books_step (ArbiterActionQueryConflict pdo d) ok b (mkBooks (committed b) [])
| bs_arbitrate ents b : books_step (ArbiterActionQueryArbitrate ents) true b b
| bs_allocated b : books_step ArbiterActionQueryAllocatedResources false b b
| bs_write b : books_step ArbiterActionWriteReservedResources false b b
| bs_add b : books_step ArbiterActionAddReserved false b b
| bs_unrecognized n b : books_step (ArbiterActionUnrecognized n) false b b.
End Contract.

Section HandlerFacts.
Context `{R : RtlRangeList} {L : RtlRangeListLaws R} {P : RtlPoolSuffices R}.
Context (env : device_env) (mmconfig : mmconfig_table).
Context (unpack : IO_RESOURCE_DESCRIPTOR -> NTSTATUS * (Z * Z * Z * Z))
  (pack : IO_RESOURCE_DESCRIPTOR -> Z -> CM_PARTIAL_RESOURCE_DESCRIPTOR ->
          NTSTATUS * CM_PARTIAL_RESOURCE_DESCRIPTOR)
  (unpack_resource : CM_PARTIAL_RESOURCE_DESCRIPTOR -> NTSTATUS * (Z * Z))
  (score : option (IO_RESOURCE_DESCRIPTOR -> Z)) (fuel wfuel : nat).
#[local] Abbreviation cbs :=
  (ArbiterLibCallbacks env mmconfig unpack pack unpack_resource score).

(** Parameters the caller must pass: translatable requirements of real devices
    to a Test, sane assignments to a Retest. *)
Definition action_ok (Action : ARBITER_ACTION) : Prop :=
  match Action with
  | ArbiterActionTestAllocation ents _ =>
      Forall (fun e => library_requirements unpack wfuel (ent_Alternatives e)) ents /\
      Forall (fun e => ent_PhysicalDeviceObject e <> NULL) ents
  | ArbiterActionRetestAllocation ents => Forall (assignment_sane cbs) ents
  | _ => True
  end.

Lemma seed_clock arb ds l w s l' w' :
  ArbiterLibInitializeRangeList cbs arb ds l w = (s, l', w') ->
  w_clock w' = w_clock w /\ w_reads w' = w_reads w.
Proof.
  unfold ArbiterLibInitializeRangeList, ArbpSeedRangeList. destruct ds as [|d ds]; [by intros [= _ _ <-]|].
  unfold ExAllocatePoolWithTag. destruct (w_pool w (w_allocs w) _); cbn [negb]; [|by intros [= _ _ <-]].
  destruct (seed_collect _ _ _); by intros [= _ _ <-].
Qed.

(** The placements of a solution belong to the devices on the list. *)
Lemma solved_owned K arb' ents ents' :
  tested (policy := library_policy wfuel) (cbs := cbs) K arb' ents ents' ->
  exists placements, owned_by ents placements /\ possible arb' ≡ₚ placements ++ K.
Proof using L P.
  intros (Hsame & arb1 & P1 & e & HK & [Hshape Hch Hkeys Htold] & He & Hp & _).
  rewrite He in Htold, Hkeys. set (idx := live_from 0 ents') in *.
  rewrite recorded_concat in Hkeys. eexists. split; [|by rewrite <- Hp, Hkeys, HK].
  clear Hp Hkeys Hch.
  assert (Hown : Forall (fun st => st_owner ents' st ∈ map ent_PhysicalDeviceObject ents)
                   (take (length idx) (eg_stack e))).
  { apply Forall_lookup. intros k st Hk.
    assert (Hlt : (k < length idx)%nat) by (apply lookup_lt_Some in Hk; rewrite length_take in Hk; lia).
    rewrite lookup_take_lt in Hk by done.
    destruct (lookup_lt_is_Some_2 idx k Hlt) as [i Hi].
    destruct (Htold _ _ _ Hi Hk) as (en & Hen & _).
    assert (Hst : st_Entry st = Some i).
    { pose proof (f_equal (fun l => l !! k) Hshape) as Hs. simpl in Hs.
      rewrite lookup_map_option, Hk, lookup_app_l, lookup_map_option, Hi in Hs
        by (rewrite length_map; done). simpl in Hs. congruence. }
    unfold st_owner, st_entry. rewrite Hst, Hen.
    assert (Hin : request en ∈ owners ents').
    { apply list_elem_of_In, in_map, list_elem_of_In. by eapply list_elem_of_lookup_2. }
    unfold same_requests in Hsame. rewrite Hsame in Hin. unfold owners in Hin.
    apply list_elem_of_In, in_map_iff in Hin as (e0 & Eq & Hin).
    unfold request in Eq. injection Eq as Eq _ _ _. rewrite <- Eq.
    apply list_elem_of_In, in_map, Hin. }
  apply Forall_concat, Forall_map. eapply Forall_impl; [exact Hown|]. intros st Hst.
  unfold placed_keys. destruct (st_alt st) as [a|]; [|constructor].
  destruct (alt_Length a =? 0); [constructor|]. repeat constructor. exact Hst.
Qed.

Lemma policy_untouched arb arb' : untouched arb arb' -> library_policy wfuel arb -> library_policy wfuel arb'.
Proof.
  intros U (H1 & H2 & H3). split_and!; [by rewrite (ut_ordering _ _ U)|by rewrite (ut_callback _ _ U)|done].
Qed.

(** The part of the instance only the handler itself changes. *)
Definition same_flags (arb arb' : ARBITER_INSTANCE) : Prop :=
  ar_Locked arb' = ar_Locked arb /\
  ar_TransactionInProgress arb' = ar_TransactionInProgress arb /\
  ar_TransactionEvent arb' = ar_TransactionEvent arb.

Lemma untouched_flags arb arb' : untouched arb arb' -> same_flags arb arb'.
Proof. intros []. by split_and!. Qed.

Lemma boot_entries_status todo i arb ents : 
  exists arb' ents', boot_entries cbs i todo arb ents = (STATUS_SUCCESS, arb', ents') /\ untouched arb arb'.
Proof.
  revert i arb ents. induction todo as [|todo IH]; intros i arb ents; simpl; [by eauto with nt|].
  destruct (ents !! i) as [e|]; [|by eauto with nt]. destruct (boot_alternative cbs e) as [a|]; [|eauto].
  simpl. match goal with |- context [boot_entries _ _ _ ?ar ?en] =>
    destruct (IH (S i) ar en) as (arb' & ents' & E & U) end.
  exists arb', ents'. split; [exact E|]. eapply untouched_trans; [|exact U]. apply untouched_possible.
Qed.

Lemma boot_frame arb ents s arb' ents' :
  ArbpBootAllocation cbs arb ents = (s, arb', ents') ->
  same_flags arb arb' /\ (library_policy wfuel arb -> library_policy wfuel arb').
Proof.
  unfold ArbpBootAllocation. destruct (copy_committed arb) as [s0 arb0] eqn:Ec.
  pose proof (copy_committed_untouched _ _ _ Ec) as U0.
  destruct (NT_SUCCESS s0); cbn [negb].
  - destruct (boot_entries_status (length ents) 0 arb0 ents) as (arb1 & ents1 & -> & U1). simpl.
    intros [= <- <- <-]. pose proof (untouched_trans _ _ _ U0 U1) as U. split.
    + by destruct (untouched_flags _ _ U).
    + intros Hp. exact (policy_untouched _ _ U Hp).
  - intros [= <- <- <-]. assert (U : untouched arb (discard arb0)) by eauto with nt.
    split; [by apply untouched_flags|by apply policy_untouched].
Qed.

(** One action of the switch, on a locked instance. *)
Lemma dispatch_refines N arb Action w :
  library_policy wfuel arb -> action_ok Action ->
  (forall n, (N <= n)%nat -> hard_deadline w < w_clock w n) -> (N < fuel)%nat ->
  exists h, dispatch cbs fuel wfuel arb Action w = Some h /\ same_flags arb (h_arb h) /\
    library_policy wfuel (h_arb h) /\
    books_step cbs Action (NT_SUCCESS (h_Status h)) (books_of arb) (books_of (h_arb h)).
Proof using L P.
  intros Hpol Hok HN Hf.
  destruct Action as [ents from|ents| | | | |pdo d|ents| |ents|n]; simpl;
    try (by eexists; split; [done|]; split_and!; try done; constructor).
  - destruct Hok as [Hreq Hpdo]. unfold ArbiterLibTestAllocation.
    destruct (test_allocation_outcome
                (D := library_driver env mmconfig unpack pack unpack_resource score wfuel)
                (ArbiterLibInitializeRangeList cbs) seed_clock N fuel arb ents from w Hpol Hreq Hpdo HN Hf) as (s & arb' & ents' & w' & -> & U & Hs).
    eexists. split; [done|]. simpl.
    split_and!; [by apply untouched_flags|by eapply policy_untouched|].
    destruct (NT_SUCCESS s).
    + destruct (solved_owned _ _ _ _ Hs) as (pl & Ho & Hk).
      eapply bs_test; [simpl; by rewrite (ut_alloc _ _ U)|exact Ho| |exact Hk]. by intros ->.
    + unfold books_of. rewrite Hs, (ut_alloc _ _ U). constructor.
  - unfold ArbiterLibRetestAllocation.
    destruct (ArbpRetestAllocation cbs arb ents w) as [[s arb'] w'] eqn:E.
    destruct (retest_outcome cbs eq_refl eq_refl _ _ _ _ _ _ Hok E) as (U & _ & Hs).
    eexists. split; [done|]. simpl.
    split_and!; [by apply untouched_flags|by eapply policy_untouched|].
    destruct (NT_SUCCESS s).
    + constructor; [simpl; by rewrite (ut_alloc _ _ U)|exact Hs].
    + unfold books_of. rewrite Hs, (ut_alloc _ _ U). constructor.
  - eexists. split; [done|]. simpl. split_and!; try done.
    unfold books_of, possible. simpl. rewrite rl_init_keys. apply bs_commit.
  - eexists. split; [done|]. simpl. split_and!; try done.
    unfold books_of. rewrite possible_discard. apply bs_rollback.
  - unfold ArbiterLibQueryConflict.
    destruct (query_conflict_outcome cbs env mmconfig eq_refl eq_refl arb pdo d w)
      as (s & cs & arb' & w' & -> & -> & _). eexists. split; [done|]. simpl.
    split_and!; try done. unfold books_of. rewrite possible_discard. apply bs_query.
  - unfold ArbiterLibBootAllocation. destruct (ArbpBootAllocation cbs arb ents) as [[s arb'] ents'] eqn:E.
    destruct (boot_outcome cbs eq_refl eq_refl _ _ _ _ _ E) as (Hp & Hs).
    destruct (boot_frame _ _ _ _ _ E) as [Hfl Hpo].
    eexists. split; [done|]. simpl. split_and!; try done; [by apply Hpo|].
    destruct (NT_SUCCESS s).
    + constructor; [|done]. simpl. rewrite !rl_keys_cores, (proj1 Hs). by rewrite map_app.
    + unfold books_of. rewrite Hp, Hs. constructor.
Qed.

(** The transaction window as the handler tracks it. *)
Definition tracked (Action : ARBITER_ACTION) (ok : bool) (arb arb' : ARBITER_INSTANCE) : Prop :=
  (ar_TransactionInProgress arb', ar_TransactionEvent arb') =
  if ok && arms_transaction Action then (true, false)
  else if ok && resolves_transaction Action then (false, true)
  else (ar_TransactionInProgress arb, ar_TransactionEvent arb).

Lemma handler_outcome N arb Action w :
  library_policy wfuel arb -> ar_Locked arb = false -> action_ok Action ->
  (forall n, (N <= n)%nat -> hard_deadline w < w_clock w n) -> (N < fuel)%nat ->
  exists h, ArbiterLibHandler cbs fuel wfuel arb Action w = Some h /\
    ar_Locked (h_arb h) = false /\ library_policy wfuel (h_arb h) /\
    tracked Action (NT_SUCCESS (h_Status h)) arb (h_arb h) /\
    books_step cbs Action (NT_SUCCESS (h_Status h)) (books_of arb) (books_of (h_arb h)).
Proof using L P.
  intros Hpol Hlock Hok HN Hf. unfold ArbiterLibHandler, ArbpAcquireLock. rewrite Hlock.
  destruct (dispatch_refines N (ar_set_Locked true arb) Action w Hpol Hok HN Hf)
    as (h & -> & (Hl & Ht & Hev) & Hpol' & Hb). simpl in Ht, Hev.
  eexists. split; [done|]. simpl. unfold tracked. simpl.
  destruct (NT_SUCCESS (h_Status h)); simpl; [|rewrite Ht, Hev; by split_and!].
  destruct (arms_transaction Action); simpl; [by split_and!|].
  destruct (resolves_transaction Action); simpl; [by split_and!|].
  rewrite Ht, Hev. by split_and!.
Qed.

(** C1.  ArbiterLibHandler implements the contract [books_step] for every
    action, on every status: it returns, releases the lock, keeps the
    instance's policy, tracks the tested-but-not-committed window exactly, and
    changes the committed and the tentative ranges the way the action's step
    of the contract says; in particular only Commit and Boot change what is
    committed. *)
Theorem handler_refines_books N arb Action w :
  library_policy wfuel arb -> ar_Locked arb = false -> action_ok Action ->
  (forall n, (N <= n)%nat -> hard_deadline w < w_clock w n) -> (N < fuel)%nat ->
  exists h, ArbiterLibHandler cbs fuel wfuel arb Action w = Some h /\
    ar_Locked (h_arb h) = false /\ library_policy wfuel (h_arb h) /\
    tracked Action (NT_SUCCESS (h_Status h)) arb (h_arb h) /\
    books_step cbs Action (NT_SUCCESS (h_Status h)) (books_of arb) (books_of (h_arb h)).
Proof using L P. apply handler_outcome. Qed.
End HandlerFacts.

(** ** Sequences of actions *)

(** The caller's side of the protocol: Commit only right after a Test of the
    committed space or a Retest that succeeded, queries that do not touch the
    books apart.  [armed] says whether a Commit may come next. *)
Fixpoint protocol (armed : bool) (t : list (ARBITER_ACTION * bool)) : Prop :=
  match t with
  | [] => True
  | (Action, ok) :: t =>
      match Action with
      | ArbiterActionCommitAllocation => armed = true /\ protocol false t
      | ArbiterActionTestAllocation _ None | ArbiterActionRetestAllocation _ => protocol ok t
      | ArbiterActionQueryArbitrate _ | ArbiterActionQueryAllocatedResources
      | ArbiterActionWriteReservedResources | ArbiterActionAddReserved
      | ArbiterActionUnrecognized _ => protocol armed t
      | _ => protocol false t
      end
  end.

(** The devices some Test or Retest of the sequence lists. *)
Definition listed (t : list (ARBITER_ACTION * bool)) : list PVOID :=
  flat_map (fun p => match p.1 with
                     | ArbiterActionTestAllocation ents _ | ArbiterActionRetestAllocation ents =>
                         map ent_PhysicalDeviceObject ents
                     | _ => []
                     end) t.

Lemma unlisted_keeps ents K k :
  k ∈ K -> key_Owner k ∉ map ent_PhysicalDeviceObject ents -> k ∈ unlisted ents K.
Proof. intros Hk Hn. by apply list_elem_of_filter. Qed.

(** One step keeps a range of a device that is not listed: in the committed
    ranges, and in the pending ones once they are armed. *)
Lemma books_step_bystander `{R : RtlRangeList} cbs Action ok t b b' (armed : bool) k :
  books_step cbs Action ok b b' -> protocol armed ((Action, ok) :: t) ->
  k ∈ committed b -> (armed = true -> k ∈ pending b) ->
  key_Owner k ∉ listed [(Action, ok)] ->
  exists armed', protocol armed' t /\ k ∈ committed b' /\ (armed' = true -> k ∈ pending b').
Proof.
  intros Hs Hp Hk Ha Hn. unfold listed in Hn. simpl in Hn. rewrite app_nil_r in Hn.
  destruct Hs as [ents from b b' pl K Hc Ho HK Hpe|ents from b|ents b b' Hc Hpe|ents b|b|b
                 |ents b b' Hc Hpe|ents b|pdo d ok b|ents b|b|b|b|n b]; simpl in Hp.
  - destruct from as [ds|].
    + exists false. rewrite Hc. by split_and!.
    + exists true. rewrite Hc, Hpe, (HK eq_refl). split_and!; try done. intros _.
      apply elem_of_app. right. by apply unlisted_keeps.
  - exists false. split_and!; try done. by destruct from.
  - exists true. rewrite Hc, Hpe. split_and!; try done. intros _.
    apply elem_of_app. right. by apply unlisted_keeps.
  - exists false. by split_and!.
  - destruct Hp as [-> Hp]. exists false. split_and!; try done. by apply Ha.
  - exists false. by split_and!.
  - exists false. rewrite Hc. split_and!; try done. apply elem_of_app. by right.
  - exists false. by split_and!.
  - exists false. by split_and!.
  - by exists armed.
  - by exists armed.
  - by exists armed.
  - by exists armed.
  - by exists armed.
Qed.

Section Runs.
Context `{R : RtlRangeList} {L : RtlRangeListLaws R} {P : RtlPoolSuffices R}.
Context (env : device_env) (mmconfig : mmconfig_table).
Context (unpack : IO_RESOURCE_DESCRIPTOR -> NTSTATUS * (Z * Z * Z * Z))
  (pack : IO_RESOURCE_DESCRIPTOR -> Z -> CM_PARTIAL_RESOURCE_DESCRIPTOR ->
          NTSTATUS * CM_PARTIAL_RESOURCE_DESCRIPTOR)
  (unpack_resource : CM_PARTIAL_RESOURCE_DESCRIPTOR -> NTSTATUS * (Z * Z))
  (score : option (IO_RESOURCE_DESCRIPTOR -> Z)) (fuel wfuel : nat).
#[local] Abbreviation cbs :=
  (ArbiterLibCallbacks env mmconfig unpack pack unpack_resource score).

(** A sequence of handled actions, each in the world of its own moment, with
    the success of each. *)
Inductive handler_run : ARBITER_INSTANCE -> list (ARBITER_ACTION * bool) -> ARBITER_INSTANCE -> Prop :=
| hr_nil arb : handler_run arb [] arb
| hr_cons arb Action w N h t arb' :
    action_ok env mmconfig unpack pack unpack_resource score wfuel Action ->
    (forall n, (N <= n)%nat -> hard_deadline w < w_clock w n) -> (N < fuel)%nat ->
    ArbiterLibHandler cbs fuel wfuel arb Action w = Some h ->
    handler_run (h_arb h) t arb' ->
    handler_run arb ((Action, NT_SUCCESS (h_Status h)) :: t) arb'.

Lemma handler_run_keeps arb t arb' armed k :
  library_policy wfuel arb -> ar_Locked arb = false -> handler_run arb t arb' ->
  protocol armed t -> k ∈ rl_keys (ar_Allocation arb) -> (armed = true -> k ∈ possible arb) ->
  key_Owner k ∉ listed t ->
  k ∈ rl_keys (ar_Allocation arb') /\ ar_Locked arb' = false /\ library_policy wfuel arb'.
Proof using L P.
  intros Hpol Hl Hr. revert armed Hpol Hl.
  induction Hr as [arb|arb Action w N h t arb' Hok HN Hf E Hr IH];
    intros armed Hpol Hl Hpr Hk Ha Hn; [done|].
  destruct (handler_outcome env mmconfig unpack pack unpack_resource score fuel wfuel N arb Action w
              Hpol Hl Hok HN Hf) as (h' & E' & Hl' & Hpol' & _ & Hb).
  rewrite E in E'. injection E' as <-.
  unfold listed in Hn. simpl in Hn. rewrite elem_of_app in Hn.
  destruct (books_step_bystander _ _ _ t _ _ armed k Hb Hpr Hk Ha) as (armed' & Hp' & Hk' & Ha').
  { unfold listed. simpl. rewrite app_nil_r. tauto. }
  apply (IH armed'); try done. unfold listed. tauto.
Qed.

(** C5.  As long as the caller commits only right after a Test or Retest that
    succeeded, no sequence of actions loses a committed range of a device that
    none of the sequence's Tests and Retests lists; and the instance ends up
    unlocked, with its policy intact. *)
Theorem bystander_keeps_ranges arb t arb' k :
  library_policy wfuel arb -> ar_Locked arb = false -> handler_run arb t arb' ->
  protocol false t -> k ∈ rl_keys (ar_Allocation arb) -> key_Owner k ∉ listed t ->
  k ∈ rl_keys (ar_Allocation arb') /\ ar_Locked arb' = false /\ library_policy wfuel arb'.
Proof using L P. intros. by eapply handler_run_keeps. Qed.
End Runs.

(** ** External reservations *)

(** A range reserved for a device that had none, and then released with
    the device, leaves the committed ranges as they were; both calls give the
    lock back and touch nothing else. *)
Theorem reserve_release_roundtrip `{R : RtlRangeList} {L : RtlRangeListLaws R}
  {P : RtlPoolSuffices R} arb s e owner shared :
  ar_Locked arb = false -> s <= e ->
  Forall (fun k => key_Owner k <> owner) (rl_keys (ar_Allocation arb)) ->
  exists arb1 arb2,
    ArbiterLibReserveRange arb s e owner shared = Some arb1 /\
    ArbiterLibReleaseResources arb1 owner = Some arb2 /\
    rl_keys (ar_Allocation arb1) ≡ₚ (s, e, owner) :: rl_keys (ar_Allocation arb) /\
    rl_keys (ar_Allocation arb2) ≡ₚ rl_keys (ar_Allocation arb) /\
    ar_Locked arb2 = false /\ possible arb2 = possible arb.
Proof.
  intros Hl Hse HF. unfold ArbiterLibReserveRange, ArbpAcquireLock. rewrite Hl. simpl.
  set (fl := if shared then _ else _).
  assert (Hfl : has_flag fl RTL_RANGE_LIST_ADD_IF_CONFLICT = true) by (unfold fl; by destruct shared).
  pose proof (rl_add_succeeds (ar_Allocation arb) s e 0 fl NULL owner Hfl Hse) as Hs.
  destruct (RtlAddRange (ar_Allocation arb) s e 0 fl NULL owner) as [s1 l1] eqn:E1. simpl in Hs.
  pose proof (rl_add_keys _ _ _ _ _ _ _ _ _ Hfl E1 Hs) as Hk1.
  eexists _, _. split; [done|]. unfold ArbiterLibReleaseResources, ArbpAcquireLock. simpl.
  split; [done|]. simpl. destruct (RtlDeleteOwnersRanges l1 owner) as [s2 l2] eqn:E2. simpl.
  pose proof (rl_delete_owner_succeeds l1 owner) as Hs2. rewrite E2 in Hs2.
  pose proof (rl_delete_owner_keys _ _ _ _ E2 Hs2) as Hk2.
  split_and!; try done. rewrite Hk2, Hk1, filter_cons_False by tauto. by rewrite filter_all.
Qed.

(** ** Witnesses *)

#[local] Existing Instance ref_range_list.

Lemma reserve_release_roundtrip_witness :
  exists arb1 arb2, ArbiterLibReserveRange books_arbiter 0x300 0x30F 5 false = Some arb1 /\
    ArbiterLibReleaseResources arb1 5 = Some arb2 /\
    rl_keys (ar_Allocation arb1) ≡ₚ [(0x300, 0x30F, 5); (0x200, 0x20F, 9); (0x1F0, 0x1FF, 7)].
Proof.
  destruct (reserve_release_roundtrip (L := ref_range_list_laws) (P := ref_pool_suffices)
              books_arbiter 0x300 0x30F 5 false eq_refl ltac:(lia))
    as (arb1 & arb2 & E1 & E2 & Hk & _).
  - by repeat constructor.
  - exists arb1, arb2. split_and!; [exact E1|exact E2|exact Hk].
Defined.

(** A bridge that decodes 0x1000..0x1FFF and, given in two parts, 0x3000..0x4FFF. *)
Definition decode (s len : Z) : CM_PARTIAL_RESOURCE_DESCRIPTOR :=
  mkCm CmResourceTypeMemory 0 0 (mkCmWindow 0 0) (mkCmWindow s len) (mkCmWindow 0 0)
    (mkCmInterrupt 0 0 0) no_connection.
Definition decodes : list CM_PARTIAL_RESOURCE_DESCRIPTOR :=
  [decode 0x4000 0x1000; decode 0x1000 0x1000; decode 0x3000 0x1800].
#[local] Abbreviation seed_run :=
  (ArbpSeedRangeList (window_callbacks quiet_env) sample_arbiter decodes RtlInitializeRangeList
     sample_world).

Lemma seed_range_list_correct_witness :
  rl_keys seed_run.1.2 =
    [(0x5000, ULONGLONG_MAX, NULL); (0x2000, 0x2FFF, NULL); (0, 0xFFF, NULL)] /\
  ~ blocked (rl_keys seed_run.1.2) 0x3800.
Proof.
  split; [vm_compute; reflexivity|].
  assert (Hs : seed_run.1.1 = STATUS_SUCCESS) by (vm_compute; reflexivity).
  destruct seed_run as [[s l'] w'] eqn:E. simpl in Hs.
  destruct (seed_range_list_correct (L := ref_range_list_laws) (P := ref_pool_suffices)
              (window_callbacks quiet_env) sample_arbiter decodes RtlInitializeRangeList
              sample_world s l' w') as [_ Hb].
  - apply Forall_cons. split; [|apply Forall_cons; split; [|apply Forall_cons; split]];
      try apply Forall_nil_2; intros s0 st len Eq; injection Eq as _ <- <-;
      unfold ULONGLONG_MAX; simpl; lia.
  - exact E.
  - by rewrite Hs.
  - rewrite Hb by done. intros [_ Hn]. apply Hn. apply Exists_cons_tl, Exists_cons_tl, Exists_cons_hd.
    unfold in_range. simpl. lia.
Defined.

Definition commit_trace : list (ARBITER_ACTION * bool) :=
  [(ArbiterActionTestAllocation books_ents None, true); (ArbiterActionCommitAllocation, true)].

Lemma books_ok :
  action_ok quiet_env [] window_unpack sample_pack sample_unpack_resource None 5000
    (ArbiterActionTestAllocation books_ents None).
Proof. split; [apply books_requirements|by repeat constructor]. Qed.

Lemma handler_refines_books_witness :
  exists h, ArbiterLibHandler (window_callbacks quiet_env) 200 5000 books_arbiter
              (ArbiterActionTestAllocation books_ents None) ticking_world = Some h /\
    NT_SUCCESS (h_Status h) = true /\ ar_TransactionInProgress (h_arb h) = true.
Proof.
  destruct (handler_refines_books (L := ref_range_list_laws) (P := ref_pool_suffices)
              quiet_env [] window_unpack sample_pack sample_unpack_resource None 200 5000 102
              books_arbiter (ArbiterActionTestAllocation books_ents None) ticking_world
              books_policy eq_refl books_ok ticking_deadline ltac:(lia))
    as (h & E & _ & _ & Ht & _).
  assert (Hs : option_map h_Status (ArbiterLibHandler (window_callbacks quiet_env) 200 5000
             books_arbiter (ArbiterActionTestAllocation books_ents None) ticking_world)
             = Some STATUS_SUCCESS) by (vm_compute; reflexivity).
  unfold window_callbacks in *. rewrite E in Hs. simpl in Hs.
  assert (Hss : NT_SUCCESS (h_Status h) = true) by (by injection Hs as ->).
  exists h. split; [exact E|]. split; [exact Hss|].
  unfold tracked in Ht. rewrite Hss in Ht. simpl in Ht. by injection Ht.
Defined.

Lemma bystander_keeps_ranges_witness :
  exists arb', handler_run quiet_env [] window_unpack sample_pack sample_unpack_resource None
                 200 5000 books_arbiter commit_trace arb' /\
    (0x200, 0x20F, 9) ∈ rl_keys (ar_Allocation arb').
Proof.
  destruct (handler_outcome (L := ref_range_list_laws) (P := ref_pool_suffices)
              quiet_env [] window_unpack sample_pack sample_unpack_resource None 200 5000 102
              books_arbiter (ArbiterActionTestAllocation books_ents None) ticking_world
              books_policy eq_refl books_ok ticking_deadline ltac:(lia))
    as (h & E & Hl & Hp & _).
  destruct (handler_outcome (L := ref_range_list_laws) (P := ref_pool_suffices)
              quiet_env [] window_unpack sample_pack sample_unpack_resource None 200 5000 102
              (h_arb h) ArbiterActionCommitAllocation ticking_world
              Hp Hl I ticking_deadline ltac:(lia))
    as (h2 & E2 & _ & _ & _ & Hb2).
  assert (Hs : option_map h_Status (ArbiterLibHandler (window_callbacks quiet_env) 200 5000
             books_arbiter (ArbiterActionTestAllocation books_ents None) ticking_world)
             = Some STATUS_SUCCESS) by (vm_compute; reflexivity).
  unfold window_callbacks in Hs. rewrite E in Hs. simpl in Hs.
  assert (Hss : NT_SUCCESS (h_Status h) = true) by (by injection Hs as ->).
  assert (Hs2 : NT_SUCCESS (h_Status h2) = true) by (by inversion Hb2).
  assert (Hrun : handler_run quiet_env [] window_unpack sample_pack sample_unpack_resource None
                   200 5000 books_arbiter
                   [(ArbiterActionTestAllocation books_ents None, NT_SUCCESS (h_Status h));
                    (ArbiterActionCommitAllocation, NT_SUCCESS (h_Status h2))] (h_arb h2)).
  { eapply hr_cons; [exact books_ok|exact ticking_deadline|lia|exact E|].
    eapply hr_cons; [exact I|exact ticking_deadline|lia|exact E2|apply hr_nil]. }
  rewrite Hss, Hs2 in Hrun.
  exists (h_arb h2). split; [exact Hrun|].
  apply (bystander_keeps_ranges (L := ref_range_list_laws) (P := ref_pool_suffices)
           quiet_env [] window_unpack sample_pack sample_unpack_resource None 200 5000
           books_arbiter commit_trace (h_arb h2) _ books_policy eq_refl Hrun).
  - exact (conj eq_refl I).
  - apply list_elem_of_In. by left.
  - apply (bool_decide_unpack _). vm_compute. done.
Defined.
