(* ===== verification/Lifetime.v ===== *)
(** Creating and deleting an arbiter instance: reactos-libs/arbiter/arbiter.c.

    [instance] is an ARBITER_INSTANCE with the pointers that may be NULL; the
    theorems show that initialization leaves either a complete instance or
    nothing, and that deletion gives back every pool block. *)
From stdpp Require Import base list numbers option strings.
From Stdlib Require Import ZArith Lia Permutation.
From S2P Require Import Prelude NtEnv RangeListRef ArbTypes Ordering RangeWalk.
From S2P Require Import Entry DefaultSlots Transaction Handler.

Definition PAGE_SIZE : Z := 4096.
Definition sizeof_KEVENT : Z := 24.
Definition sizeof_RTL_RANGE_LIST : Z := 32.

Section Lifetime.
Context `{R : RtlRangeList}.

(** The flags say which pointers are not NULL; [in_arb] holds what they point
    to and the rest of the structure. *)
Record instance := mkInstance {
  in_MutexEvent : bool;
  in_TransactionEvent : bool;
  in_AllocationStack : bool;
  in_Allocation : bool;
  in_PossibleAllocation : bool;
  in_arb : ARBITER_INSTANCE
}.

(** ExFreePoolWithTag of a pointer that may be NULL. *)
Definition free_if (allocated : bool) (w : world) : world :=
  if allocated then ExFreePoolWithTag w else w.

Definition ArbiterLibDeleteInstance (i : instance) (w : world) : instance * world :=
  let w := free_if (in_PossibleAllocation i) w in
  let w := free_if (in_Allocation i) w in
  let w := free_if (in_AllocationStack i) w in
  let arb := in_arb i in
  let arb := if in_AllocationStack i then ar_set_stack 0 [] arb else arb in
  let '(ol, w) := ArbiterLibFreeOrderingList (ar_OrderingList arb) w in
  let '(rl, w) := ArbiterLibFreeOrderingList (ar_ReservedList arb) w in
  let arb := ar_set_ReservedList rl (ar_set_OrderingList ol arb) in
  let w := free_if (in_TransactionEvent i) w in
  let w := free_if (in_MutexEvent i) w in
  (mkInstance false false false false false arb, w).

(** The slots an arbiter may leave NULL. *)
Record slot_table := mkSlots {
  sl_UnpackRequirement : IO_RESOURCE_DESCRIPTOR -> NTSTATUS * (Z * Z * Z * Z);
  sl_PackResource : IO_RESOURCE_DESCRIPTOR -> Z -> CM_PARTIAL_RESOURCE_DESCRIPTOR ->
                    NTSTATUS * CM_PARTIAL_RESOURCE_DESCRIPTOR;
  sl_UnpackResource : CM_PARTIAL_RESOURCE_DESCRIPTOR -> NTSTATUS * (Z * Z);
  sl_ScoreRequirement : option (IO_RESOURCE_DESCRIPTOR -> Z);
  sl_PreprocessEntry : option (ARBITER_INSTANCE -> list ARBITER_LIST_ENTRY ->
    ARBITER_ALLOCATION_STATE -> NTSTATUS * ARBITER_INSTANCE * ARBITER_ALLOCATION_STATE);
  sl_GetNextAllocationRange : option (ARBITER_INSTANCE -> list ARBITER_LIST_ENTRY ->
    ARBITER_ALLOCATION_STATE -> bool * ARBITER_ALLOCATION_STATE);
  sl_FindSuitableRange : option (ARBITER_INSTANCE -> list ARBITER_LIST_ENTRY ->
    ARBITER_ALLOCATION_STATE -> bool * ARBITER_INSTANCE * ARBITER_ALLOCATION_STATE);
  sl_AddAllocation : option (ARBITER_INSTANCE -> list ARBITER_LIST_ENTRY ->
    ARBITER_ALLOCATION_STATE -> ARBITER_INSTANCE);
  sl_BacktrackAllocation : option (ARBITER_INSTANCE -> list ARBITER_LIST_ENTRY ->
    ARBITER_ALLOCATION_STATE -> ARBITER_INSTANCE * ARBITER_ALLOCATION_STATE);
  sl_OverrideConflict : option (ARBITER_INSTANCE -> list ARBITER_LIST_ENTRY ->
    ARBITER_ALLOCATION_STATE -> bool * ARBITER_ALLOCATION_STATE)
}.

(** [if (!Arbiter->X) Arbiter->X = ArbiterLibX;] for the engine's slots. *)
Definition fill_slots (env : device_env) (mmconfig : mmconfig_table) (t : slot_table)
  : ARBITER_CALLBACKS :=
  mkCallbacks (sl_UnpackRequirement t) (sl_PackResource t) (sl_UnpackResource t)
    (sl_ScoreRequirement t)
    (default ArbiterLibPreprocessEntry (sl_PreprocessEntry t))
    (default (fun arb _ st => default (false, st)
                (ArbiterLibGetNextAllocationRange (ar_OrderingList arb) st))
       (sl_GetNextAllocationRange t))
    (default (ArbiterLibFindSuitableRange env mmconfig
                (Some (default ArbiterLibOverrideConflict (sl_OverrideConflict t))))
       (sl_FindSuitableRange t))
    (default ArbiterLibAddAllocation (sl_AddAllocation t))
    (default ArbiterLibBacktrackAllocation (sl_BacktrackAllocation t)).

(** An arbiter before initialization: zeroed but for its slots. *)
Definition blank_instance (rt : Z) (cb : option conflict_callback) : instance :=
  mkInstance false false false false false
    (mkArb rt RtlInitializeRangeList RtlInitializeRangeList (mkOrderingList 0 0 None)
       (mkOrderingList 0 0 None) 0 [] false false false None cb).

(** One [X = ExAllocatePoolWithTag(...); if (!X) goto Failure;]. *)
Definition alloc_or_fail (size : Z) (set : instance -> instance) (i : instance) (w : world)
  (k : instance -> world -> NTSTATUS * instance * world) : NTSTATUS * instance * world :=
  let '(ok, w) := ExAllocatePoolWithTag size w in
  if ok then k (set i) w
  else let '(i, w) := ArbiterLibDeleteInstance i w in (STATUS_INSUFFICIENT_RESOURCES, i, w).

Definition with_mutex (i : instance) : instance :=
  mkInstance true (in_TransactionEvent i) (in_AllocationStack i) (in_Allocation i)
    (in_PossibleAllocation i) (ar_set_Locked false (in_arb i)).
Definition with_event (i : instance) : instance :=
  mkInstance (in_MutexEvent i) true (in_AllocationStack i) (in_Allocation i)
    (in_PossibleAllocation i) (ar_set_transaction false true (in_arb i)).
Definition with_stack (i : instance) : instance :=
  mkInstance (in_MutexEvent i) (in_TransactionEvent i) true (in_Allocation i)
    (in_PossibleAllocation i) (ar_set_stack PAGE_SIZE [] (in_arb i)).
Definition with_allocation (i : instance) : instance :=
  mkInstance (in_MutexEvent i) (in_TransactionEvent i) (in_AllocationStack i) true
    (in_PossibleAllocation i) (ar_set_Allocation RtlInitializeRangeList (in_arb i)).
Definition with_possible (i : instance) : instance :=
  mkInstance (in_MutexEvent i) (in_TransactionEvent i) (in_AllocationStack i) (in_Allocation i)
    true (ar_set_PossibleAllocation RtlInitializeRangeList (in_arb i)).

Definition ArbiterLibInitializeInstance (t : slot_table)
  (TranslateOrdering : option (IO_RESOURCE_DESCRIPTOR -> NTSTATUS * IO_RESOURCE_DESCRIPTOR))
  (reg : registry) (OrderName : string) (i : instance) (w : world) : NTSTATUS * instance * world :=
  let i := mkInstance (in_MutexEvent i) (in_TransactionEvent i) (in_AllocationStack i)
             (in_Allocation i) (in_PossibleAllocation i)
             (ar_set_transaction false (ar_TransactionEvent (in_arb i)) (in_arb i)) in
  alloc_or_fail sizeof_KEVENT with_mutex i w (fun i w =>
  alloc_or_fail sizeof_KEVENT with_event i w (fun i w =>
  alloc_or_fail PAGE_SIZE with_stack i w (fun i w =>
  alloc_or_fail sizeof_RTL_RANGE_LIST with_allocation i w (fun i w =>
  alloc_or_fail sizeof_RTL_RANGE_LIST with_possible i w (fun i w =>
    let '(Status, arb, w) :=
      ArbiterLibDefaultAssignmentOrdering (sl_UnpackRequirement t) TranslateOrdering reg OrderName
        OrderName (in_arb i) w in
    let i := mkInstance (in_MutexEvent i) (in_TransactionEvent i) (in_AllocationStack i)
               (in_Allocation i) (in_PossibleAllocation i) arb in
    if negb (NT_SUCCESS Status)
    then let '(i, w) := ArbiterLibDeleteInstance i w in (Status, i, w)
    else (STATUS_SUCCESS, i, w)))))).

(** ** Nothing leaks *)

Definition flag_block (b : bool) : Z := if b then 1 else 0.

(** The pool blocks an instance holds. *)
Definition instance_blocks (i : instance) : Z :=
  flag_block (in_MutexEvent i) + flag_block (in_TransactionEvent i) +
  flag_block (in_AllocationStack i) + flag_block (in_Allocation i) +
  flag_block (in_PossibleAllocation i) +
  ol_blocks (ar_OrderingList (in_arb i)) + ol_blocks (ar_ReservedList (in_arb i)).

Lemma free_if_live b w : w_live (free_if b w) = w_live w - flag_block b.
Proof. destruct b; simpl; lia. Qed.

Lemma free_ordering_live ol w ol' w' :
  ArbiterLibFreeOrderingList ol w = (ol', w') ->
  w_live w' = w_live w - ol_blocks ol /\ ol' = mkOrderingList 0 0 None.
Proof.
  unfold ArbiterLibFreeOrderingList, ol_blocks. intros [= <- <-].
  destruct (ol_Orderings ol); simpl; split; try done; lia.
Qed.

Lemma delete_instance_live i w i' w' :
  ArbiterLibDeleteInstance i w = (i', w') ->
  w_live w' = w_live w - instance_blocks i /\ instance_blocks i' = 0.
Proof.
  unfold ArbiterLibDeleteInstance.
  destruct (ArbiterLibFreeOrderingList _ _) as [ol w1] eqn:E1.
  destruct (ArbiterLibFreeOrderingList _ w1) as [rl w2] eqn:E2.
  apply free_ordering_live in E1 as [L1 ->], E2 as [L2 ->]. intros [= <- <-].
  rewrite !free_if_live, L2, L1, !free_if_live. unfold instance_blocks. simpl.
  split; [|done]. destruct (in_AllocationStack i); simpl; lia.
Qed.

Lemma read_policy_live reg k v w st r w' :
  ArbpReadPolicyValue reg k v w = (st, r, w') ->
  w_live w' = w_live w + match r with Some _ => 1 | None => 0 end.
Proof.
  unfold ArbpReadPolicyValue, ExAllocatePoolWithTag. destruct (reg_probe reg k v) as [s0 sz].
  destruct (_ && _); [intros [= _ <- <-]; lia|].
  destruct (w_pool w (w_allocs w) sz); simpl; [|intros [= _ <- <-]; simpl; lia].
  destruct (reg_query reg k v) as [[s1 buf] len].
  set (s2 := if NT_SUCCESS s1 && _ then _ else s1).
  destruct (NT_SUCCESS s2); simpl; intros [= _ <- <-]; simpl; lia.
Qed.

(** The instance's ordering lists and the pool, in balance. *)
Definition balance (acc : ARBITER_INSTANCE * world) : Z :=
  w_live acc.2 - ol_blocks (ar_OrderingList acc.1) - ol_blocks (ar_ReservedList acc.1).

(** Well-formed lists, and everything else as in [arb0]. *)
Definition policy_frame (arb0 arb : ARBITER_INSTANCE) : Prop :=
  policy_wf arb /\
  exists ol rl, arb = ar_set_ReservedList rl (ar_set_OrderingList ol arb0).

Section Walk.
Context (unpack : IO_RESOURCE_DESCRIPTOR -> NTSTATUS * (Z * Z * Z * Z)).
Context (unpack_u64 : forall d st mn mx len al,
  unpack d = (st, (mn, mx, len, al)) -> NT_SUCCESS st = true -> is_u64 mn /\ is_u64 mx).
Context (arb0 : ARBITER_INSTANCE) (cb : ARBITER_INSTANCE * world -> Z -> Z -> ARBITER_INSTANCE * world).
Context (cb_ok : forall acc s e, policy_frame arb0 acc.1 -> is_u64 s -> is_u64 e ->
  policy_frame arb0 (cb acc s e).1 /\ balance (cb acc s e) = balance acc).

Lemma foreach_balanced rt translate reg sub val acc st acc' :
  policy_frame arb0 acc.1 ->
  ArbpForEachRegistryRange unpack rt translate cb snd (fun w acc => (acc.1, w)) reg sub val acc
    = (st, acc') ->
  policy_frame arb0 acc'.1 /\ balance acc' = balance acc.
Proof using unpack_u64 cb_ok.
  intros Hf. unfold ArbpForEachRegistryRange. destruct (negb _); [by intros [= _ <-]|].
  destruct (ArbpReadPolicyValue reg sub val acc.2) as [[st1 v] w1] eqn:E1.
  apply read_policy_live in E1.
  match goal with |- context [let '(_, _) := ?m in _] => destruct m as [v2 w2] eqn:E2 end.
  assert (H2 : w_live w2 = w_live acc.2 + match v2 with Some _ => 1 | None => 0 end).
  { destruct v as [v|]; [|by simplify_eq].
    destruct (kv_Data v) as [chars| |]; try by simplify_eq.
    destruct (_ && _); [|by simplify_eq].
    destruct (ArbpReadPolicyValue reg sub (sz_name chars) w1) as [[st3 t] w3] eqn:E3.
    apply read_policy_live in E3. destruct t; simplify_eq; simpl; lia. }
  intros [= _ <-].
  match goal with |- policy_frame arb0 (match v2 with Some _ => (?m.1, _) | None => _ end).1 /\ _ =>
    set (acc1 := m) end.
  assert (Hmid : policy_frame arb0 acc1.1 /\
    balance acc1 = balance acc + match v2 with Some _ => 1 | None => 0 end).
  { assert (H0 : policy_frame arb0 (acc.1, w2).1 /\
      balance (acc.1, w2) = balance acc + match v2 with Some _ => 1 | None => 0 end)
      by (split; [done|unfold balance; simpl; lia]).
    unfold acc1. destruct v2 as [v2|]; [|done]. destruct (kv_Data v2) as [|Count ds|]; try done.
    destruct (_ <=? _); [|done].
    apply (walk_descriptors_inv unpack rt translate cb
             (fun a => policy_frame arb0 a.1 /\ balance a = balance acc + 1)); try done.
    intros a s e [Ha Hba] Hs He. destruct (cb_ok a s e Ha Hs He) as [? ->]. by split. }
  destruct Hmid as [Hp Hb]. destruct v2; simpl; [|by split; [|lia]].
  split; [done|]. unfold balance in *. simpl. lia.
Qed.
End Walk.

Lemma add_ordering_callback_ok arb0 acc s e :
  policy_frame arb0 acc.1 -> is_u64 s -> is_u64 e ->
  policy_frame arb0 (ArbpAddOrderingCallback acc s e).1 /\
  balance (ArbpAddOrderingCallback acc s e) = balance acc.
Proof.
  destruct acc as [arb w]. intros [[W1 W2] (ol & rl & Earb)] Hs He. unfold ArbpAddOrderingCallback.
  destruct (ArbiterLibAddOrdering _ s e w) as [[st ol'] w'] eqn:E.
  destruct (add_ordering_outcome _ _ _ _ _ _ _ W1 Hs He E) as [Wf Pool _ _].
  simpl in *. split; [|unfold balance; simpl; lia]. split; [by split|]. exists ol', rl. by subst.
Qed.

Lemma add_reserved_callback_ok arb0 acc s e :
  policy_frame arb0 acc.1 -> is_u64 s -> is_u64 e ->
  policy_frame arb0 (ArbpAddReservedCallback acc s e).1 /\
  balance (ArbpAddReservedCallback acc s e) = balance acc.
Proof.
  destruct acc as [arb w]. intros [[W1 W2] (ol & rl & Earb)] Hs He. unfold ArbpAddReservedCallback.
  destruct (ArbiterLibAddOrdering _ s e w) as [[st rl'] w'] eqn:E. simpl in *.
  destruct (add_ordering_outcome _ _ _ _ _ _ _ W2 Hs He E) as [Wf Pool _ _].
  destruct (NT_SUCCESS st).
  - destruct (ArbpExcludeOrderingRange _ s e w') as [[st2 ol'] w2] eqn:E2.
    destruct (exclude_range_outcome _ _ _ _ _ _ _ W1 Hs He E2) as (Wo & Po & _).
    split; [|unfold balance; simpl in *; lia]. split; [by split|]. exists ol', rl'. by subst.
  - split; [|unfold balance; simpl in *; lia]. split; [by split|]. exists ol, rl'. by subst.
Qed.
End Lifetime.

Section LifetimeFacts.
Context `{R : RtlRangeList} {L : RtlRangeListLaws R}.
Context (t : slot_table) (translate : option (IO_RESOURCE_DESCRIPTOR -> NTSTATUS * IO_RESOURCE_DESCRIPTOR))
  (reg : registry) (name : string).
Context (unpack_u64 : forall d st mn mx len al,
  sl_UnpackRequirement t d = (st, (mn, mx, len, al)) -> NT_SUCCESS st = true -> is_u64 mn /\ is_u64 mx).

Lemma empty_list_wf : ol_wf (mkOrderingList 0 0 None).
Proof. split; unfold ol_list; simpl; try done. by left. Qed.

(** The ordering policy of an instance without lists, with the pool in balance. *)
Lemma assignment_ordering_balanced arb w st arb' w' :
  ar_OrderingList arb = mkOrderingList 0 0 None -> ar_ReservedList arb = mkOrderingList 0 0 None ->
  ArbiterLibDefaultAssignmentOrdering (sl_UnpackRequirement t) translate reg name name arb w
    = (st, arb', w') ->
  policy_frame arb arb' /\ balance (arb', w') = w_live w.
Proof using unpack_u64.
  intros Eo Er. unfold ArbiterLibDefaultAssignmentOrdering, ArbiterLibFreeOrderingList.
  rewrite Eo, Er. simpl.
  destruct (ArbpCreateOrderingList w) as [[s1 ol1] w1] eqn:E1.
  apply create_ordering_spec in E1 as (W1 & _ & B1 & _ & N1).
  assert (Hframe : forall ol rl, ol_wf ol -> ol_wf rl ->
    policy_frame arb (ar_set_ReservedList rl (ar_set_OrderingList ol arb)))
    by (intros ol rl Ho Hr; split; [by split|by exists ol, rl]).
  destruct (NT_SUCCESS s1) eqn:Es1; simpl.
  2:{ intros [= <- <- <-]. split; [apply (Hframe ol1 (mkOrderingList 0 0 None)); [done|apply empty_list_wf]|].
      unfold balance, ol_blocks in *. simpl in *. lia. }
  destruct (ArbpCreateOrderingList w1) as [[s2 rl2] w2] eqn:E2.
  apply create_ordering_spec in E2 as (W2 & _ & B2 & _ & N2).
  destruct (NT_SUCCESS s2) eqn:Es2; simpl.
  2:{ intros [= <- <- <-]. split; [apply (Hframe (mkOrderingList 0 0 None) rl2); [apply empty_list_wf|done]|].
      unfold balance, ol_blocks in *. simpl in *. destruct (ol_Orderings ol1); simpl; lia. }
  set (arb1 := ar_set_ReservedList rl2 _).
  destruct (ArbpForEachRegistryRange _ _ _ ArbpAddOrderingCallback _ _ _ _ _ _)
    as [s3 acc3] eqn:E3.
  apply (foreach_balanced _ unpack_u64 arb _ (add_ordering_callback_ok arb)) in E3 as [P3 B3];
    [|apply (Hframe ol1 rl2); done].
  destruct (ArbpForEachRegistryRange _ _ _ ArbpAddReservedCallback _ _ _ _ _ _)
    as [s4 [arb4 w4]] eqn:E4.
  apply (foreach_balanced _ unpack_u64 arb _ (add_reserved_callback_ok arb)) in E4 as [P4 B4]; [|done].
  intros [= <- <- <-]. split; [done|]. rewrite B4, B3. unfold balance. simpl. lia.
Qed.

(** A complete, quiet instance: every pointer set, both lists empty, unlocked,
    no transaction outstanding, a well-formed policy. *)
Definition instance_ready (i : instance) : Prop :=
  in_MutexEvent i = true /\ in_TransactionEvent i = true /\ in_AllocationStack i = true /\
  in_Allocation i = true /\ in_PossibleAllocation i = true /\
  policy_wf (in_arb i) /\ ar_Locked (in_arb i) = false /\
  ar_TransactionInProgress (in_arb i) = false /\ ar_TransactionEvent (in_arb i) = true /\
  ar_AllocationStackMaxSize (in_arb i) = PAGE_SIZE /\
  rl_keys (ar_Allocation (in_arb i)) = [] /\ possible (in_arb i) = [].

(** What initialization may end with, from the live blocks [n]. *)
Definition init_outcome (n : Z) (r : NTSTATUS * instance * world) : Prop :=
  if NT_SUCCESS r.1.1
  then instance_ready r.1.2 /\ w_live r.2 = n + instance_blocks r.1.2
  else instance_blocks r.1.2 = 0 /\ w_live r.2 = n.

(** One allocation step of the chain. *)
Lemma alloc_or_fail_ok n size set i w k :
  w_live w = n + instance_blocks i -> instance_blocks (set i) = instance_blocks i + 1 ->
  (forall w', w_live w' = n + instance_blocks (set i) -> init_outcome n (k (set i) w')) ->
  init_outcome n (alloc_or_fail size set i w k).
Proof.
  intros Hl Hset Hk. unfold alloc_or_fail, ExAllocatePoolWithTag.
  destruct (w_pool w (w_allocs w) size).
  - apply Hk. simpl. lia.
  - match goal with |- context [ArbiterLibDeleteInstance i ?w1] =>
      destruct (ArbiterLibDeleteInstance i w1) as [i' w'] eqn:E end.
    apply delete_instance_live in E as [L1 L2]. unfold init_outcome. simpl.
    split; [done|]. rewrite L1. simpl. lia.
Qed.

Lemma initialize_instance_outcome rt cb w r :
  ArbiterLibInitializeInstance t translate reg name (blank_instance rt cb) w = r ->
  init_outcome (w_live w) r.
Proof using L unpack_u64.
  intros <-. remember (w_live w) as n eqn:Hw. unfold ArbiterLibInitializeInstance.
  repeat (apply alloc_or_fail_ok; [unfold instance_blocks, ol_blocks in *; simpl in *; lia
                                  |unfold instance_blocks, ol_blocks; simpl; lia
                                  |clear w Hw; intros w Hw; cbv beta]).
  destruct (ArbiterLibDefaultAssignmentOrdering _ _ _ _ _ _ _) as [[st arb] w1] eqn:E.
  apply assignment_ordering_balanced in E as [[Hwf (ol & rl & ->)] Hb]; [|done|done].
  unfold balance in Hb. simpl in Hb.
  unfold instance_blocks in Hw. simpl in Hw.
  change (ol_blocks (mkOrderingList 0 0 None)) with 0 in Hw.
  destruct (NT_SUCCESS st) eqn:Es; cbn [negb].
  - split.
    + unfold instance_ready, possible. simpl. rewrite rl_init_keys. by split_and!.
    + unfold instance_blocks in *. simpl in *. lia.
  - match goal with |- context [ArbiterLibDeleteInstance ?i ?w1] =>
      destruct (ArbiterLibDeleteInstance i w1) as [i' w'] eqn:Ed end.
    apply delete_instance_live in Ed as [L1 L2]. unfold init_outcome. simpl. rewrite Es.
    split; [done|]. rewrite L1. unfold instance_blocks in *. simpl in *. lia.
Qed.

(** ArbiterLibInitializeInstance is all or nothing, whichever pool
    request is refused and whatever the registry holds: on success the instance
    is complete, unlocked, with empty books, no transaction outstanding and a
    well-formed ordering policy; on failure no pointer is left and every block
    it took is given back.  ArbiterLibDeleteInstance then frees exactly what
    the instance holds. *)
Theorem initialize_instance_no_leak rt cb w s i w' :
  ArbiterLibInitializeInstance t translate reg name (blank_instance rt cb) w = (s, i, w') ->
  (if NT_SUCCESS s then instance_ready i else instance_blocks i = 0 /\ w_live w' = w_live w) /\
  forall i' w'', ArbiterLibDeleteInstance i w' = (i', w'') -> w_live w'' = w_live w.
Proof using L unpack_u64.
  intros E. pose proof (initialize_instance_outcome _ _ _ _ E) as H. unfold init_outcome in H.
  simpl in H. split.
  - by destruct (NT_SUCCESS s); [destruct H|].
  - intros i' w'' Ed. apply delete_instance_live in Ed as [-> _].
    destruct (NT_SUCCESS s); [destruct H as [_ H]|destruct H as [H1 H]]; lia.
Qed.
End LifetimeFacts.

(** ** Witnesses *)

#[local] Existing Instance ref_range_list.

Definition window_slots : slot_table :=
  mkSlots sample_unpack sample_pack sample_unpack_resource None None None None None None None.
#[local] Abbreviation init_run :=
  (ArbiterLibInitializeInstance window_slots None sample_registry "Root"%string
     (blank_instance CmResourceTypeMemory None) sample_world).

Lemma initialize_instance_no_leak_witness :
  init_run.1.1 = STATUS_SUCCESS /\ w_live init_run.2 = w_live sample_world + 7 /\
  instance_ready init_run.1.2.
Proof.
  assert (Hs : init_run.1.1 = STATUS_SUCCESS) by (vm_compute; reflexivity).
  split; [exact Hs|]. split; [vm_compute; reflexivity|].
  destruct init_run as [[s i] w'] eqn:E. simpl in Hs |- *.
  destruct (initialize_instance_no_leak (L := ref_range_list_laws) window_slots None sample_registry
              "Root"%string sample_unpack_u64 _ _ _ _ _ _ E) as [H _].
  by rewrite Hs in H.
Defined.
