(* ===== verification/ResTranslate.v ===== *)
(** sys/resarb.c, first half: how the memory, port and bus number arbiters of a
    module device read requirements and write assignments, how they score a
    requirement, and how the producer windows of _CRS bound their space. *)
From stdpp Require Import base list numbers option sorting strings.
From Stdlib Require Import ZArith Lia Permutation.
From S2P Require Import Prelude NtEnv RangeListRef ArbTypes Ordering RangeWalk.
From S2P Require Import Entry DefaultSlots Transaction Handler.

(** ** Descriptor translation *)

Definition MAXLONG : Z := 0x7FFFFFFF.

(** [u.Memory40] overlays [u.Memory], so both forms are read through it.  The
    fields are read at their width. *)
Definition UacpiNtResUnpackRequirement (d : IO_RESOURCE_DESCRIPTOR)
  : NTSTATUS * (Z * Z * Z * Z) :=
  let plain (w : io_window) :=
    (STATUS_SUCCESS,
     (u64 (iw_MinimumAddress w), u64 (iw_MaximumAddress w), u32 (iw_Length w),
      if u32 (iw_Alignment w) =? 0 then 1 else u32 (iw_Alignment w))) in
  if (io_Type d =? CmResourceTypeMemory) || (io_Type d =? CmResourceTypeMemoryLarge)
  then plain (io_Memory d)
  else if io_Type d =? CmResourceTypePort then plain (io_Port d)
  else if io_Type d =? CmResourceTypeBusNumber then
    (STATUS_SUCCESS,
     (u32 (ib_MinBusNumber (io_BusNumber d)), u32 (ib_MaxBusNumber (io_BusNumber d)),
      u32 (ib_Length (io_BusNumber d)), 1))
  else (STATUS_INVALID_PARAMETER, (0, 0, 0, 0)).

(** The share disposition and the flags are written before the type is looked
    at, so they change even when the call fails. *)
Definition UacpiNtResPackResource (Requirement : IO_RESOURCE_DESCRIPTOR) (Start : Z)
  (d : CM_PARTIAL_RESOURCE_DESCRIPTOR) : NTSTATUS * CM_PARTIAL_RESOURCE_DESCRIPTOR :=
  let share := io_ShareDisposition Requirement in
  let flags := io_Flags Requirement in
  if (io_Type Requirement =? CmResourceTypeMemory) ||
     (io_Type Requirement =? CmResourceTypeMemoryLarge) then
    (STATUS_SUCCESS,
     mkCm CmResourceTypeMemory share flags (cm_Port d)
       (mkCmWindow Start (iw_Length (io_Memory Requirement))) (cm_BusNumber d) (cm_Interrupt d) (cm_Connection d))
  else if io_Type Requirement =? CmResourceTypePort then
    (STATUS_SUCCESS,
     mkCm CmResourceTypePort share flags
       (mkCmWindow Start (iw_Length (io_Port Requirement))) (cm_Memory d) (cm_BusNumber d)
       (cm_Interrupt d) (cm_Connection d))
  else if io_Type Requirement =? CmResourceTypeBusNumber then
    (STATUS_SUCCESS,
     mkCm CmResourceTypeBusNumber share flags (cm_Port d) (cm_Memory d)
       (mkCmWindow (u32 Start) (ib_Length (io_BusNumber Requirement))) (cm_Interrupt d) (cm_Connection d))
  else (STATUS_INVALID_PARAMETER,
        mkCm (cm_Type d) share flags (cm_Port d) (cm_Memory d) (cm_BusNumber d) (cm_Interrupt d) (cm_Connection d)).

Definition UacpiNtResUnpackResource (d : CM_PARTIAL_RESOURCE_DESCRIPTOR) : NTSTATUS * (Z * Z) :=
  let plain (w : cm_window) := (STATUS_SUCCESS, (cw_Start w, cw_Length w)) in
  if (cm_Type d =? CmResourceTypeMemory) || (cm_Type d =? CmResourceTypeMemoryLarge)
  then plain (cm_Memory d)
  else if cm_Type d =? CmResourceTypePort then plain (cm_Port d)
  else if cm_Type d =? CmResourceTypeBusNumber then plain (cm_BusNumber d)
  else (STATUS_INVALID_PARAMETER, (0, 0)).

Definition UacpiNtResScoreRequirement (d : IO_RESOURCE_DESCRIPTOR) : Z :=
  let '(Status, (Minimum, Maximum, _, _)) := UacpiNtResUnpackRequirement d in
  if negb (NT_SUCCESS Status) || (Maximum <? Minimum) then -1
  else if MAXLONG <=? Maximum -u Minimum then MAXLONG
  else s32 (Maximum -u Minimum +u 1).

(** *** What a requirement descriptor can hold *)

Definition is_ulong (x : Z) : Prop := 0 <= x < 4294967296.

Definition io_window_wf (w : io_window) : Prop :=
  is_u64 (iw_MinimumAddress w) /\ is_u64 (iw_MaximumAddress w) /\
  is_ulong (iw_Length w) /\ is_ulong (iw_Alignment w).

(** The widths of the fields, which every descriptor has. *)
Definition descriptor_wf (d : IO_RESOURCE_DESCRIPTOR) : Prop :=
  io_window_wf (io_Memory d) /\ io_window_wf (io_Port d) /\
  is_ulong (ib_Length (io_BusNumber d)) /\ is_ulong (ib_MinBusNumber (io_BusNumber d)) /\
  is_ulong (ib_MaxBusNumber (io_BusNumber d)).

Ltac by_type d :=
  destruct (io_Type d =? CmResourceTypeMemory) eqn:?;
  destruct (io_Type d =? CmResourceTypeMemoryLarge) eqn:?;
  destruct (io_Type d =? CmResourceTypePort) eqn:?;
  destruct (io_Type d =? CmResourceTypeBusNumber) eqn:?; simpl.

(** The four types this arbiter serves. *)
Definition res_type (t : Z) : Prop :=
  t = CmResourceTypeMemory \/ t = CmResourceTypeMemoryLarge \/ t = CmResourceTypePort \/
  t = CmResourceTypeBusNumber.

Lemma unpack_requirement_outcome d s mn mx len al :
  UacpiNtResUnpackRequirement d = (s, (mn, mx, len, al)) ->
  if NT_SUCCESS s
  then res_type (io_Type d) /\ is_u64 mn /\ is_u64 mx /\ is_ulong len /\ 1 <= al < 4294967296 /\
       (io_Type d = CmResourceTypeBusNumber -> is_ulong mx)
  else ~ res_type (io_Type d) /\ s = STATUS_INVALID_PARAMETER.
Proof.
  unfold UacpiNtResUnpackRequirement, res_type.
  pose proof u32_range as H32. pose proof u64_range as H64. unfold is_u64, ULONGLONG_MAX in H64.
  by_type d; intros [= <- <- <- <- <-]; simpl; bool_prop;
    unfold is_ulong, is_u64, ULONGLONG_MAX, CmResourceTypeMemory, CmResourceTypeMemoryLarge,
      CmResourceTypePort, CmResourceTypeBusNumber in *.
  all: repeat match goal with |- context [if ?b then _ else _] => destruct b eqn:? end; bool_prop.
  all: repeat match goal with
       | |- context [u32 ?x] => pose proof (H32 x); generalize dependent (u32 x); intros
       | |- context [u64 ?x] => pose proof (H64 x); generalize dependent (u64 x); intros
       end.
  all: split; [tauto || (intros [?|[?|[?|?]]]; congruence)|try done].
  all: split_and!; try lia; congruence.
Qed.

(** The walker can work with every requirement that translates and whose bounds
    leave room for its alignment. *)
Lemma unpack_requirement_wf d s mn mx len al :
  UacpiNtResUnpackRequirement d = (s, (mn, mx, len, al)) ->
  NT_SUCCESS s = true -> Z.max mn mx + al - 1 <= ULONGLONG_MAX -> requirement_wf mn mx len al.
Proof.
  intros E Hs Hle. apply unpack_requirement_outcome in E. rewrite Hs in E.
  destruct E as (_ & H1 & H2 & H3 & H4 & _).
  unfold requirement_wf, alt_wf, alt_align, is_ulong, is_u64, ULONGLONG_MAX in *. simpl.
  destruct (al =? 0) eqn:?; bool_prop; split_and!; lia.
Qed.

(** A requirement the arbiter can unpack, packed at any start inside it,
    unpacks to that start and the requirement's length, in the same type (large
    memory becomes plain memory); the other types are refused on both sides. *)
Theorem res_pack_roundtrip d start cm s mn mx len al s' cm' :
  descriptor_wf d -> UacpiNtResUnpackRequirement d = (s, (mn, mx, len, al)) ->
  mn <= start <= mx -> UacpiNtResPackResource d start cm = (s', cm') ->
  s' = s /\ cm_ShareDisposition cm' = io_ShareDisposition d /\ cm_Flags cm' = io_Flags d /\
  (NT_SUCCESS s = true ->
     UacpiNtResUnpackResource cm' = (STATUS_SUCCESS, (start, len)) /\
     cm_Type cm' = (if io_Type d =? CmResourceTypeMemoryLarge then CmResourceTypeMemory
                    else io_Type d)) /\
  (NT_SUCCESS s = false -> cm_Type cm' = cm_Type cm).
Proof.
  intros ((_ & _ & Hm & _) & (_ & _ & Hp & _) & Hb & Hmin & Hmax).
  pose proof (u32_range (ib_MaxBusNumber (io_BusNumber d))).
  pose proof (u32_range (ib_MinBusNumber (io_BusNumber d))).
  unfold UacpiNtResUnpackRequirement, UacpiNtResPackResource, UacpiNtResUnpackResource, is_ulong in *.
  by_type d; intros [= <- <- <- <- <-] Hin [= <- <-]; simpl; bool_prop; split_and!; try done;
    intros _; split_and!; try congruence; rewrite ?u32_small by lia; done.
Qed.

(** The score of a requirement is the number of its addresses, cut off at
    MAXLONG, and -1 exactly when it cannot be unpacked or is empty; so a usable
    requirement scores at least 1. *)
Theorem res_score_counts d s mn mx len al :
  UacpiNtResUnpackRequirement d = (s, (mn, mx, len, al)) ->
  UacpiNtResScoreRequirement d =
    (if NT_SUCCESS s && (mn <=? mx) then Z.min MAXLONG (mx - mn + 1) else -1).
Proof.
  intros E. unfold UacpiNtResScoreRequirement. rewrite E.
  apply unpack_requirement_outcome in E. destruct (NT_SUCCESS s) eqn:Es; simpl; [|done].
  destruct E as (_ & H1 & H2 & _). unfold is_u64, ULONGLONG_MAX, MAXLONG in *.
  destruct (mx <? mn) eqn:El, (mn <=? mx) eqn:El'; bool_prop; try lia.
  rewrite sub64_small by (unfold is_u64, ULONGLONG_MAX; lia).
  destruct (_ <=? _) eqn:Em; bool_prop; [lia|].
  rewrite add64_small by (unfold is_u64, ULONGLONG_MAX; lia).
  unfold s32. rewrite u32_small by lia. destruct (_ <? _) eqn:Es2; bool_prop; lia.
Qed.

(** ** What a score of -1 does *)

(** A requirement no address satisfies. *)
Definition unsatisfiable (d : IO_RESOURCE_DESCRIPTOR) : Prop :=
  let '(s, (mn, mx, _, _)) := UacpiNtResUnpackRequirement d in NT_SUCCESS s = false \/ mx < mn.

Lemma unsatisfiable_score d : unsatisfiable d -> UacpiNtResScoreRequirement d = -1.
Proof.
  unfold unsatisfiable, UacpiNtResScoreRequirement.
  destruct (UacpiNtResUnpackRequirement d) as [s [[[mn mx] len] al]].
  intros [Hs|Hlt]; [by rewrite Hs|]. apply Z.ltb_lt in Hlt. rewrite Hlt.
  by destruct (negb (NT_SUCCESS s)).
Qed.

Lemma score_alternatives_negative score ds d acc :
  d ∈ ds -> score d < 0 -> (score_alternatives score ds acc).1 = false.
Proof.
  intros Hin Hd. revert acc. induction Hin as [d ds|d e ds Hin IH]; simpl; intros acc.
  - apply Z.ltb_lt in Hd. by rewrite Hd.
  - destruct (score e <? 0); [done|]. by apply IH.
Qed.

Section Unsatisfiable.
Context `{R : RtlRangeList} (cbs : ARBITER_CALLBACKS).
Context (Hscore : ScoreRequirement cbs = Some UacpiNtResScoreRequirement).

Lemma test_prepare_unsatisfiable wo prev l ents e d :
  e ∈ ents -> d ∈ ent_Alternatives e -> unsatisfiable d ->
  (test_prepare cbs wo prev l ents).1.1 = STATUS_DEVICE_CONFIGURATION_ERROR.
Proof using Hscore.
  intros Hin Hd Hu. apply unsatisfiable_score in Hu. revert prev l.
  induction Hin as [e ents|e e' ents Hin IH]; simpl; intros prev l; rewrite Hscore.
  - destruct (if wo && _ then _ else _) as [prev' l'].
    pose proof (score_alternatives_negative UacpiNtResScoreRequirement _ d 0 Hd ltac:(lia)) as Hs.
    destruct (score_alternatives _ _ _) as [ok ws]. simpl in Hs. by rewrite Hs.
  - destruct (if wo && _ then _ else _) as [prev' l'].
    destruct (score_alternatives _ _ _) as [[] ws]; simpl; [|done].
    specialize (IH Hd prev' l').
    destruct (test_prepare cbs wo prev' l' ents) as [[s l2] ents2]. done.
Qed.

Lemma unsatisfiable_alternative_outcome irl fuel wfuel arb ents e d w :
  NT_SUCCESS (copy_committed arb).1 = true ->
  e ∈ ents -> d ∈ ent_Alternatives e -> unsatisfiable d ->
  exists arb' ents',
    ArbpTestAllocation cbs irl fuel wfuel arb ents None w =
      Some (STATUS_DEVICE_CONFIGURATION_ERROR, discard arb', ents', w).
Proof using Hscore.
  intros Hc Hin Hd Hu. unfold ArbpTestAllocation.
  destruct (copy_committed arb) as [s0 arb0]. simpl in Hc. rewrite Hc. simpl.
  pose proof (test_prepare_unsatisfiable true NULL (ar_PossibleAllocation arb0) ents e d Hin Hd Hu) as Ht.
  destruct (test_prepare cbs true NULL _ ents) as [[s l] ents1]. simpl in Ht. subst s. by eexists _, _.
Qed.

(** One unsatisfiable alternative fails the whole Test with
    STATUS_DEVICE_CONFIGURATION_ERROR, whatever else is on the list and even
    when the entry has other, usable alternatives: the score -1 is read as an
    error, not as the place in the order the comment on the score gives it. *)
Theorem unsatisfiable_alternative_fails_test irl fuel wfuel arb ents e d w :
  NT_SUCCESS (copy_committed arb).1 = true ->
  e ∈ ents -> d ∈ ent_Alternatives e -> unsatisfiable d ->
  exists arb' ents',
    ArbpTestAllocation cbs irl fuel wfuel arb ents None w =
      Some (STATUS_DEVICE_CONFIGURATION_ERROR, discard arb', ents', w).
Proof using Hscore. apply unsatisfiable_alternative_outcome. Qed.
End Unsatisfiable.

(** ** Producer windows *)

Definition UACPINT_RANGE_OUTSIDE_DECODE : Z := 0x20.
Definition UACPI_PRODUCER : Z := 0.
Definition UACPI_RANGE_MEMORY : Z := 0.
Definition UACPI_RANGE_IO : Z := 1.
Definition UACPI_RANGE_BUS : Z := 2.

(** What the arbiter reads of an address space descriptor. *)
Record uacpi_address := mkAddress {
  ad_type : Z; ad_direction : Z; ad_minimum : Z; ad_address_length : Z }.

(** An interrupt descriptor, short or extended; the flexible array [irqs] has
    [num_irqs] elements. *)
Record uacpi_irq_list := mkIrqs {
  iq_triggering : Z; iq_polarity : Z; iq_sharing : Z; iq_irqs : list Z }.

(** An IO or Memory32 descriptor, and the fixed forms. *)
Record uacpi_span := mkSpan {
  sp_minimum : Z; sp_maximum : Z; sp_alignment : Z; sp_length : Z }.
Record uacpi_fixed_span := mkFixedSpan { fs_address : Z; fs_length : Z }.

(** The entries of a resource template before its end tag; the descriptors the
    driver does not look into are one constructor. *)
Inductive uacpi_resource :=
| UACPI_RESOURCE_TYPE_IRQ (i : uacpi_irq_list)
| UACPI_RESOURCE_TYPE_EXTENDED_IRQ (i : uacpi_irq_list)
| UACPI_RESOURCE_TYPE_IO (p : uacpi_span)
| UACPI_RESOURCE_TYPE_FIXED_IO (p : uacpi_fixed_span)
| UACPI_RESOURCE_TYPE_MEMORY32 (p : uacpi_span)
| UACPI_RESOURCE_TYPE_FIXED_MEMORY32 (p : uacpi_fixed_span)
| UACPI_RESOURCE_TYPE_START_DEPENDENT
| UACPI_RESOURCE_TYPE_END_DEPENDENT
| UACPI_RESOURCE_TYPE_ADDRESS16 (a : uacpi_address)
| UACPI_RESOURCE_TYPE_ADDRESS32 (a : uacpi_address)
| UACPI_RESOURCE_TYPE_ADDRESS64 (a : uacpi_address)
| UACPI_RESOURCE_TYPE_ADDRESS64_EXTENDED (a : uacpi_address)
| UACPI_RESOURCE_TYPE_OTHER.

(** [Some (Start, Length)] for TRUE. *)
Definition UacpiNtProducerWindow (Resource : uacpi_resource) (WindowType : Z) : option (Z * Z) :=
  let check (a : uacpi_address) :=
    if (ad_direction a =? UACPI_PRODUCER) && (ad_type a =? WindowType) &&
       negb (ad_address_length a =? 0)
    then Some (ad_minimum a, ad_address_length a) else None in
  match Resource with
  | UACPI_RESOURCE_TYPE_ADDRESS16 a => check a
  | UACPI_RESOURCE_TYPE_ADDRESS32 a => check a
  | UACPI_RESOURCE_TYPE_ADDRESS64 a => check a
  | UACPI_RESOURCE_TYPE_ADDRESS64_EXTENDED a => check a
  | _ => None
  end.

(** RtlInvertRangeList, which the seeding uses besides the package's other
    calls: into an initialised list it writes the addresses the source does not
    cover. *)
Class RtlInvertRanges `(R : RtlRangeList) := {
  RtlInvertRangeList : RTL_RANGE_LIST -> RTL_RANGE_LIST -> NTSTATUS * RTL_RANGE_LIST;
  rl_invert_covers src s l x :
    RtlInvertRangeList RtlInitializeRangeList src = (s, l) -> NT_SUCCESS s = true -> is_u64 x ->
    blocked (rl_keys l) x <-> ~ blocked (rl_keys src) x;
  rl_invert_wf src s l :
    RtlInvertRangeList RtlInitializeRangeList src = (s, l) -> NT_SUCCESS s = true ->
    Forall (fun r => rr_Start r <= rr_End r) (rtl_ranges l)
}.

Section SeedArbiter.
Context `{R : RtlRangeList} {I : RtlInvertRanges R}.

(** The first loop: the windows of the type, and how many there are. *)
Fixpoint collect_windows (Resources : list uacpi_resource) (WindowType : Z)
  (Windows : RTL_RANGE_LIST) (Count : Z) : RTL_RANGE_LIST * Z :=
  match Resources with
  | [] => (Windows, Count)
  | r :: rs =>
      match UacpiNtProducerWindow r WindowType with
      | None => collect_windows rs WindowType Windows Count
      | Some (Start, Length) =>
          collect_windows rs WindowType
            (RtlAddRange Windows Start (Start +u Length -u 1) 0
               (set_flag RTL_RANGE_LIST_ADD_IF_CONFLICT RTL_RANGE_LIST_ADD_SHARED) NULL NULL).2
            (u32 (Count + 1))
      end
  end.

(** The second loop: block the gaps until a call fails. *)
Fixpoint block_gaps (Gaps : list RTL_RANGE) (Status : NTSTATUS) (l : RTL_RANGE_LIST)
  : NTSTATUS * RTL_RANGE_LIST :=
  match Gaps with
  | [] => (Status, l)
  | Gap :: Gaps =>
      let '(Status, l) := RtlAddRange l (rr_Start Gap) (rr_End Gap) UACPINT_RANGE_OUTSIDE_DECODE
                            RTL_RANGE_LIST_ADD_IF_CONFLICT NULL NULL in
      if NT_SUCCESS Status then block_gaps Gaps Status l else (Status, l)
  end.

(** [Resources] is what uacpi_get_current_resources gave, [None] for a failure
    or a NULL list. *)
Definition UacpiNtSeedArbiter (arb : ARBITER_INSTANCE)
  (Resources : option (list uacpi_resource)) (WindowType : Z) : ARBITER_INSTANCE :=
  match Resources with
  | None => arb
  | Some entries =>
      let '(Windows, Count) := collect_windows entries WindowType RtlInitializeRangeList 0 in
      if Count =? 0 then arb
      else
        let '(Status, Gaps) := RtlInvertRangeList RtlInitializeRangeList Windows in
        let '(Status, l) := if NT_SUCCESS Status
                            then block_gaps (rtl_ranges Gaps) Status (ar_Allocation arb)
                            else (Status, ar_Allocation arb) in
        if negb (NT_SUCCESS Status) then ar_set_Allocation RtlInitializeRangeList arb
        else ar_set_Allocation l arb
  end.
End SeedArbiter.

(** The windows of one type in a template. *)
Definition producer_windows (rs : list uacpi_resource) (WindowType : Z) : list (Z * Z) :=
  omap (fun r => UacpiNtProducerWindow r WindowType) rs.

Definition in_producer (ws : list (Z * Z)) (x : Z) : Prop :=
  Exists (fun w => in_range x w.1 (w.1 + w.2 - 1)) ws.

(** A window that does not run past the top of the address space. *)
Definition producer_fits (w : Z * Z) : Prop :=
  0 <= w.1 /\ 0 < w.2 /\ w.1 + w.2 - 1 <= ULONGLONG_MAX.

Section SeedArbiterFacts.
Context `{R : RtlRangeList} {L : RtlRangeListLaws R} {P : RtlPoolSuffices R}
  {I : RtlInvertRanges R}.

Lemma blocked_cons k K x :
  blocked (k :: K) x <-> in_range x (key_Start k) (key_End k) \/ blocked K x.
Proof using. unfold blocked. by rewrite Exists_cons. Qed.

Lemma blocked_perm K K' x : K ≡ₚ K' -> blocked K x <-> blocked K' x.
Proof using. intros E. unfold blocked. by rewrite E. Qed.

Lemma collect_windows_spec rs ty W c W' c' x :
  Forall producer_fits (producer_windows rs ty) -> 0 <= c ->
  c + Z.of_nat (length (producer_windows rs ty)) < 4294967296 ->
  collect_windows rs ty W c = (W', c') ->
  c' = c + Z.of_nat (length (producer_windows rs ty)) /\
  (blocked (rl_keys W') x <-> in_producer (producer_windows rs ty) x \/ blocked (rl_keys W) x).
Proof using L P.
  revert W c. induction rs as [|r rs IH]; simpl; intros W c HF Hc0 Hc E.
  { simplify_eq. split; [lia|]. unfold in_producer. rewrite Exists_nil. tauto. }
  change (producer_windows (r :: rs) ty) with
    (match UacpiNtProducerWindow r ty with
     | Some w => w :: producer_windows rs ty | None => producer_windows rs ty end) in *.
  destruct (UacpiNtProducerWindow r ty) as [[s len]|]; [|by apply IH]. simpl in Hc, HF.
  apply Forall_cons_1 in HF as [(Hs & Hlen & Htop) HF]. simpl in Hs, Hlen, Htop.
  assert (Hend : s +u len -u 1 = s + len - 1).
  { unfold add64, sub64, u64, ULONGLONG_MAX in *. rewrite Zminus_mod_idemp_l.
    apply Z.mod_small. lia. }
  rewrite Hend, u32_small in E by lia. apply IH in E as [-> Hb]; [|done|lia|lia].
  split; [simpl; lia|]. rewrite Hb. unfold in_producer. rewrite Exists_cons. simpl.
  set (fl := set_flag _ _) in *.
  pose proof (rl_add_succeeds W s (s + len - 1) 0 fl NULL NULL eq_refl ltac:(lia)) as Hok.
  destruct (RtlAddRange W _ _ _ _ _ _) as [st W1] eqn:Ea. simpl in *.
  assert (Hk : rl_keys W1 ≡ₚ (s, s + len - 1, NULL) :: rl_keys W).
  { by eapply (rl_add_keys W s (s + len - 1) 0 fl). }
  rewrite (blocked_perm _ _ x Hk), blocked_cons.
  unfold key_Start, key_End. simpl. tauto.
Qed.

(** What the second loop leaves: the gaps on top of the list, each unowned and
    marked as space outside the decode. *)
Lemma block_gaps_spec gaps s0 l s l' :
  Forall (fun r => rr_Start r <= rr_End r) gaps -> NT_SUCCESS s0 = true ->
  block_gaps gaps s0 l = (s, l') ->
  NT_SUCCESS s = true /\
  rl_cores l' ≡ₚ
    map (fun g => ((rr_Start g, rr_End g, NULL), UACPINT_RANGE_OUTSIDE_DECODE, false)) gaps
    ++ rl_cores l.
Proof using L P.
  intros HF. revert s0 l. induction HF as [|g gaps Hg HF IH]; simpl; intros s0 l Hs0 E.
  { by simplify_eq. }
  pose proof (rl_add_succeeds l (rr_Start g) (rr_End g) UACPINT_RANGE_OUTSIDE_DECODE
                RTL_RANGE_LIST_ADD_IF_CONFLICT NULL NULL eq_refl Hg) as Hok.
  destruct (RtlAddRange l _ _ _ _ _ _) as [s1 l1] eqn:Ea. simpl in Hok. rewrite Hok in E.
  apply IH in E as [Hs Hp]; [|done]. split; [done|]. rewrite Hp.
  assert (Hfl : has_flag RTL_RANGE_LIST_ADD_IF_CONFLICT RTL_RANGE_LIST_ADD_IF_CONFLICT = true) by done.
  pose proof (rl_add_ranges _ _ _ _ _ _ _ _ _ Hfl Ea) as Hc. rewrite Hok in Hc.
  rewrite Hc. symmetry. apply Permutation_middle.
Qed.

(** Every branch of UacpiNtSeedArbiter. *)
Lemma seed_arbiter_outcome arb rs ty :
  Forall producer_fits (producer_windows rs ty) ->
  Z.of_nat (length (producer_windows rs ty)) < 4294967296 ->
  let arb' := UacpiNtSeedArbiter arb (Some rs) ty in
  let inv := RtlInvertRangeList RtlInitializeRangeList
               (collect_windows rs ty RtlInitializeRangeList 0).1 in
  UacpiNtSeedArbiter arb None ty = arb /\
  (producer_windows rs ty = [] -> arb' = arb) /\
  (producer_windows rs ty <> [] -> NT_SUCCESS inv.1 = true ->
     (forall x, is_u64 x ->
        blocked (rl_keys (ar_Allocation arb')) x <->
        blocked (rl_keys (ar_Allocation arb)) x \/ ~ in_producer (producer_windows rs ty) x) /\
     exists C, rl_cores (ar_Allocation arb') ≡ₚ C ++ rl_cores (ar_Allocation arb) /\
       Forall (fun c => core_Owner c = NULL /\
                 core_Attributes c = UACPINT_RANGE_OUTSIDE_DECODE /\ core_shared c = false) C) /\
  (producer_windows rs ty <> [] -> NT_SUCCESS inv.1 = false -> rl_keys (ar_Allocation arb') = []).
Proof using L P.
  intros HF Hlen. simpl.
  destruct (collect_windows rs ty RtlInitializeRangeList 0) as [W c] eqn:Ec. simpl.
  pose proof (fun x => collect_windows_spec rs ty RtlInitializeRangeList 0 W c x HF ltac:(lia) Hlen Ec) as Hspec.
  assert (Hc : c = Z.of_nat (length (producer_windows rs ty))) by apply (Hspec 0).
  split; [done|]. split; [|destruct (RtlInvertRangeList RtlInitializeRangeList W) as [s G] eqn:Ei; split].
  - intros E. rewrite E in Hc. by rewrite Hc.
  - intros Hne Hs. simpl in Hs.
    assert (Hz : (c =? 0) = false).
    { apply Z.eqb_neq. rewrite Hc. destruct (producer_windows rs ty); simpl; [done|lia]. }
    rewrite Hz, Hs.
    destruct (block_gaps (rtl_ranges G) s (ar_Allocation arb)) as [s' l] eqn:Eb.
    destruct (block_gaps_spec _ _ _ _ _ (rl_invert_wf _ _ _ Ei Hs) Hs Eb) as [Hs' Hp].
    rewrite Hs'. simpl. split.
    + intros x Hx. destruct (Hspec x) as [_ Hw]. rewrite rl_init_keys in Hw.
      pose proof (rl_invert_covers _ _ _ x Ei Hs Hx) as Hi.
      assert (Hl : blocked (rl_keys l) x <->
                   blocked (rl_keys G) x \/ blocked (rl_keys (ar_Allocation arb)) x).
      { rewrite (rl_keys_cores l). unfold blocked. rewrite Hp, map_app, <- rl_keys_cores, Exists_app.
        unfold rl_keys at 2. by rewrite !Exists_map. }
      assert (Hn : ~ blocked [] x) by (intros Hb; inversion Hb).
      rewrite Hl, Hi, Hw. tauto.
    + eexists. split; [exact Hp|]. apply Forall_map, Forall_true. intros g. simpl. by split_and!.
  - intros Hne Hs. simpl in Hs. rewrite Hs.
    assert (Hz : (c =? 0) = false).
    { apply Z.eqb_neq. rewrite Hc. destruct (producer_windows rs ty); simpl; [done|lia]. }
    rewrite Hz, Hs. simpl. apply rl_init_keys.
Qed.
(** UacpiNtSeedArbiter leaves an arbiter whose template names no producer
    window of its type (or cannot be read) as it is; otherwise it blocks, on
    top of what was blocked, exactly the addresses outside every window, as
    unowned ranges marked OUTSIDE_DECODE; and when the inversion fails it opens
    the whole space rather than bound a part of it. *)
Theorem seed_arbiter_bounds arb rs ty :
  Forall producer_fits (producer_windows rs ty) ->
  Z.of_nat (length (producer_windows rs ty)) < 4294967296 ->
  let arb' := UacpiNtSeedArbiter arb (Some rs) ty in
  let inv := RtlInvertRangeList RtlInitializeRangeList
               (collect_windows rs ty RtlInitializeRangeList 0).1 in
  UacpiNtSeedArbiter arb None ty = arb /\
  (producer_windows rs ty = [] -> arb' = arb) /\
  (producer_windows rs ty <> [] -> NT_SUCCESS inv.1 = true ->
     (forall x, is_u64 x ->
        blocked (rl_keys (ar_Allocation arb')) x <->
        blocked (rl_keys (ar_Allocation arb)) x \/ ~ in_producer (producer_windows rs ty) x) /\
     exists C, rl_cores (ar_Allocation arb') ≡ₚ C ++ rl_cores (ar_Allocation arb) /\
       Forall (fun c => core_Owner c = NULL /\
                 core_Attributes c = UACPINT_RANGE_OUTSIDE_DECODE /\ core_shared c = false) C) /\
  (producer_windows rs ty <> [] -> NT_SUCCESS inv.1 = false -> rl_keys (ar_Allocation arb') = []).
Proof using L P. apply seed_arbiter_outcome. Qed.
End SeedArbiterFacts.

(** ** A concrete inversion, and witnesses *)

#[local] Existing Instance ref_range_list.

(** The whole space with every range of the source cut out of it. *)
Definition ref_gaps (src : list RTL_RANGE) : list ARBITER_ORDERING :=
  fold_right (fun r gaps => if rr_End r <? rr_Start r then gaps
                            else concat (map (hole (rr_Start r) (rr_End r)) gaps))
    [mkOrdering 0 ULONGLONG_MAX] src.

Lemma ref_gaps_covers src x :
  is_u64 x -> Exists (fun o => ord_covers o x) (ref_gaps src) <-> ~ blocked (map rng_key src) x.
Proof.
  intros Hx. induction src as [|r src IH]; simpl.
  - unfold ord_covers, in_range, is_u64 in *. rewrite Exists_cons, Exists_nil. simpl.
    split; [intros _ Hb; inversion Hb|intros _; by left].
  - rewrite blocked_cons. unfold key_Start, key_End. simpl.
    destruct (rr_End r <? rr_Start r) eqn:E; bool_prop.
    + rewrite IH. unfold in_range. split; [intros ? [?|?]; [lia|done]|tauto].
    + rewrite concat_hole_covers, IH by done. tauto.
Qed.

Lemma ref_gaps_wf src : Forall (fun o => ord_Start o <= ord_End o) (ref_gaps src).
Proof.
  induction src as [|r src IH]; simpl; [by repeat constructor|].
  destruct (_ <? _); [done|]. apply Forall_concat, Forall_map.
  eapply Forall_impl; [exact IH|]. simpl. intros [s e] Ho. unfold hole. simpl in *.
  destruct (_ || _); [by repeat constructor|]. apply Forall_app.
  split; case_goal; bool_prop; repeat constructor; simpl; lia.
Qed.

Definition gap_range (o : ARBITER_ORDERING) : RTL_RANGE :=
  mkRange (ord_Start o) (ord_End o) NULL NULL 0 0.

#[global, refine] Instance ref_invert : RtlInvertRanges ref_range_list := {|
  RtlInvertRangeList := fun _ src => (STATUS_SUCCESS, map gap_range (ref_gaps src))
|}.
Proof.
  - intros src s l x [= <- <-] _ Hx. unfold rl_keys. simpl.
    rewrite <- ref_gaps_covers by done. unfold blocked. by rewrite !Exists_map.
  - intros src s l [= <- <-] _. apply Forall_map. apply ref_gaps_wf.
Defined.

Definition blank_window : io_window := mkIoWindow 0 0 0 0.
Definition bus_requirement (mn mx len : Z) : IO_RESOURCE_DESCRIPTOR :=
  mkIo 0 CmResourceTypeBusNumber 0 0 blank_window blank_window (mkIoBus len mn mx)
    (mkIoInterrupt 0 0 0) no_connection.
Definition blank_cm : CM_PARTIAL_RESOURCE_DESCRIPTOR :=
  mkCm 0 0 0 (mkCmWindow 0 0) (mkCmWindow 0 0) (mkCmWindow 0 0) (mkCmInterrupt 0 0 0) no_connection.

Lemma bus_requirement_wf : descriptor_wf (bus_requirement 0x20 0x2F 4).
Proof.
  unfold descriptor_wf, io_window_wf, is_ulong, is_u64, ULONGLONG_MAX. simpl. lia.
Qed.

Lemma res_pack_roundtrip_witness :
  UacpiNtResUnpackResource (UacpiNtResPackResource (bus_requirement 0x20 0x2F 4) 0x2C blank_cm).2
    = (STATUS_SUCCESS, (0x2C, 4)).
Proof.
  destruct (res_pack_roundtrip (bus_requirement 0x20 0x2F 4) 0x2C blank_cm STATUS_SUCCESS
              0x20 0x2F 4 1 _ _ bus_requirement_wf eq_refl ltac:(lia) eq_refl)
    as (_ & _ & _ & H & _).
  apply H. reflexivity.
Defined.

Lemma res_score_counts_witness : UacpiNtResScoreRequirement (bus_requirement 0x20 0x2F 4) = 16.
Proof.
  rewrite (res_score_counts (bus_requirement 0x20 0x2F 4) STATUS_SUCCESS 0x20 0x2F 4 1 eq_refl).
  reflexivity.
Defined.

(** The template of a module device: one I/O window and two memory windows. *)
Definition sample_crs : list uacpi_resource :=
  [UACPI_RESOURCE_TYPE_OTHER;
   UACPI_RESOURCE_TYPE_ADDRESS16 (mkAddress UACPI_RANGE_IO UACPI_PRODUCER 0x1000 0x1000);
   UACPI_RESOURCE_TYPE_ADDRESS32 (mkAddress UACPI_RANGE_MEMORY UACPI_PRODUCER 0x80000000 0x10000000);
   UACPI_RESOURCE_TYPE_ADDRESS64 (mkAddress UACPI_RANGE_MEMORY UACPI_PRODUCER 0x100000000 0x1000);
   UACPI_RESOURCE_TYPE_ADDRESS32 (mkAddress UACPI_RANGE_MEMORY 1 0xF0000000 0x1000)].

Lemma seed_arbiter_bounds_witness :
  rl_keys (ar_Allocation (UacpiNtSeedArbiter sample_arbiter (Some sample_crs) UACPI_RANGE_MEMORY)) =
    [(0x100001000, ULONGLONG_MAX, NULL); (0x90000000, 0xFFFFFFFF, NULL); (0, 0x7FFFFFFF, NULL)] /\
  ~ blocked (rl_keys (ar_Allocation (UacpiNtSeedArbiter sample_arbiter (Some sample_crs)
                                       UACPI_RANGE_MEMORY))) 0x88000000.
Proof.
  split; [vm_compute; reflexivity|].
  destruct (seed_arbiter_bounds (L := ref_range_list_laws) (P := ref_pool_suffices) (I := ref_invert)
              sample_arbiter sample_crs UACPI_RANGE_MEMORY) as (_ & _ & H & _).
  - repeat constructor; unfold producer_fits, ULONGLONG_MAX; simpl; lia.
  - simpl. lia.
  - destruct H as [H _]; [done|reflexivity|].
    rewrite H by (unfold is_u64, ULONGLONG_MAX; lia). intros [Hb|Hn]; [inversion Hb|].
    apply Hn. left. unfold in_range. simpl. lia.
Defined.

Lemma unsatisfiable_alternative_fails_test_witness :
  exists arb' ents',
    ArbpTestAllocation (ArbiterLibCallbacks quiet_env [] UacpiNtResUnpackRequirement
        UacpiNtResPackResource UacpiNtResUnpackResource (Some UacpiNtResScoreRequirement))
      no_seed 10 10 books_arbiter
      [window_entry 7 [bus_requirement 0x20 0x2F 4; bus_requirement 0x30 0x2F 4]] None ticking_world
    = Some (STATUS_DEVICE_CONFIGURATION_ERROR, discard arb', ents', ticking_world).
Proof.
  apply (unsatisfiable_alternative_fails_test
           (ArbiterLibCallbacks quiet_env [] UacpiNtResUnpackRequirement UacpiNtResPackResource
              UacpiNtResUnpackResource (Some UacpiNtResScoreRequirement)) eq_refl
           no_seed 10 10 books_arbiter _
           (window_entry 7 [bus_requirement 0x20 0x2F 4; bus_requirement 0x30 0x2F 4])
           (bus_requirement 0x30 0x2F 4)).
  - reflexivity.
  - by left.
  - right. by left.
  - right. vm_compute. reflexivity.
Defined.
