(* ===== verification/ResSlots.v ===== *)
(** sys/resarb.c, second half: the search of the memory, port and bus number
    arbiters.  The memory finder lets boot configurations onto space the
    firmware took; the port slots keep the decode mirrors of an ISA card free
    and record them with the placement.  Both meet the engine's contract. *)
From stdpp Require Import base list numbers option sorting strings.
From Stdlib Require Import ZArith Lia Permutation.
From S2P Require Import Prelude NtEnv RangeListRef ArbTypes Ordering RangeWalk.
From S2P Require Import Entry DefaultSlots Transaction Handler ResTranslate.

(** ** The ring of windows tried *)

Definition UACPINT_RES_TRY_RING : nat := 24.

Record UACPINT_RES_TRY := mkTry {
  try_Minimum : Z; try_Maximum : Z; try_Length : Z; try_Alignment : Z; try_Attributes : Z;
  try_Placed : Z; try_Ok : bool }.

(** UacpiNtResTryRing and UacpiNtResTryIndex. *)
Record try_ring := mkRing { ring_tries : list UACPINT_RES_TRY; ring_index : Z }.

Definition try_of (st : ARBITER_ALLOCATION_STATE) (Ok : bool) : UACPINT_RES_TRY :=
  mkTry (st_CurrentMinimum st) (st_CurrentMaximum st)
    (match st_alt st with Some a => alt_Length a | None => 0 end)
    (match st_alt st with Some a => alt_Alignment a | None => 0 end)
    (st_RangeAvailableAttributes st) (if Ok then st_Start st else 0) Ok.

Definition ring_put (t : UACPINT_RES_TRY) (r : try_ring) : try_ring :=
  mkRing (<[ (Z.to_nat (ring_index r) mod UACPINT_RES_TRY_RING)%nat := t ]> (ring_tries r))
    (u32 (ring_index r + 1)).

Definition UacpiNtRecordTry (st : ARBITER_ALLOCATION_STATE) (Ok : bool) (r : try_ring) : try_ring :=
  ring_put (try_of st Ok) r.

(** The tries the dump prints, in order. *)
Definition UacpiNtDumpTryRing (r : try_ring) : list UACPINT_RES_TRY :=
  let Count := Z.to_nat (ring_index r) in
  let First := if (UACPINT_RES_TRY_RING <? Count)%nat then (Count - UACPINT_RES_TRY_RING)%nat
               else O in
  omap (fun Index => ring_tries r !! (Index mod UACPINT_RES_TRY_RING)%nat)
    (seq First (Count - First)).

(** ** The memory finder *)

Definition ARBITER_FLAG_BOOT_CONFIG : Z := 0x1.

Section Finders.
Context `{R : RtlRangeList}.
Context (env : device_env) (mmconfig : mmconfig_table).

(** What a boot configuration may be placed over. *)
Definition boot_config_masks (ents : list ARBITER_LIST_ENTRY) (st : ARBITER_ALLOCATION_STATE)
  : ARBITER_ALLOCATION_STATE :=
  match st_entry ents st with
  | Some e =>
      if has_flag (ent_Flags e) ARBITER_FLAG_BOOT_CONFIG then
        let m := set_flag (st_RangeAvailableAttributes st) ARBITER_RANGE_BOOT_ALLOCATED in
        let m := match st_alt st with
                 | Some a => if has_flag (alt_Flags a) ARBITER_ALTERNATIVE_FLAG_FIXED
                             then set_flag m UACPINT_RANGE_OUTSIDE_DECODE else m
                 | None => m
                 end in
        st_set_RangeAvailableAttributes m st
      else st
  | None => st
  end.

Definition UacpiNtResFindSuitableRange (arb : ARBITER_INSTANCE) (ents : list ARBITER_LIST_ENTRY)
  (st : ARBITER_ALLOCATION_STATE) (ring : try_ring)
  : bool * ARBITER_INSTANCE * ARBITER_ALLOCATION_STATE * try_ring :=
  let st := boot_config_masks ents st in
  let '(Found, arb, st) :=
    ArbiterLibFindSuitableRange env mmconfig (Some ArbiterLibOverrideConflict) arb ents st in
  (Found, arb, st, UacpiNtRecordTry st Found ring).

(** ** Port decode mirrors *)

Definition CM_RESOURCE_PORT_10_BIT_DECODE : Z := 0x0004.
Definition CM_RESOURCE_PORT_12_BIT_DECODE : Z := 0x0008.
Definition UACPINT_IO_SPACE_LAST : Z := 0xFFFF.

(** [Some Alias] for TRUE. *)
Definition UacpiNtNextPortAlias (DescriptorFlags Last : Z) : option Z :=
  let check (Next : Z) :=
    if (UACPINT_IO_SPACE_LAST <? Next) || (Next <? Last) then None else Some Next in
  if has_flag DescriptorFlags CM_RESOURCE_PORT_10_BIT_DECODE then check (Last +u 0x400)
  else if has_flag DescriptorFlags CM_RESOURCE_PORT_12_BIT_DECODE then check (Last +u 0x1000)
  else None.

(** The aliases the loops over UacpiNtNextPortAlias visit. *)
Fixpoint aliases_from (fuel : nat) (DescriptorFlags Last : Z) : list Z :=
  match fuel with
  | O => []
  | S fuel => match UacpiNtNextPortAlias DescriptorFlags Last with
              | Some Alias => Alias :: aliases_from fuel DescriptorFlags Alias
              | None => []
              end
  end.

(** 64 steps of at least 0x400 cross the 16-bit space. *)
Definition port_aliases (DescriptorFlags Start : Z) : list Z :=
  aliases_from 64 DescriptorFlags Start.

Fixpoint aliases_available (Aliases : list Z) (Flags : Z) (a : ARBITER_ALTERNATIVE)
  (arb : ARBITER_INSTANCE) (ents : list ARBITER_LIST_ENTRY) (st : ARBITER_ALLOCATION_STATE)
  : bool * ARBITER_INSTANCE :=
  match Aliases with
  | [] => (true, arb)
  | Alias :: Aliases =>
      let last := Alias +u alt_Length a -u 1 in
      let '(Available, slot) :=
        RtlIsRangeAvailable (ar_PossibleAllocation arb) Alias last Flags
          (st_RangeAvailableAttributes st) (ar_ConflictCallbackContext arb)
          (ar_ConflictCallback arb) in
      let arb := ar_set_slot slot arb in
      if Available then aliases_available Aliases Flags a arb ents st
      else
        let Probe := st_set_window Alias last st in
        if (ArbiterLibOverrideConflict arb ents Probe).1
        then aliases_available Aliases Flags a arb ents st
        else (false, arb)
  end.

Definition alias_flags (a : ARBITER_ALTERNATIVE) : Z :=
  if has_flag (alt_Flags a) ARBITER_ALTERNATIVE_FLAG_SHARED
  then set_flag RTL_RANGE_LIST_NULL_CONFLICT_OK RTL_RANGE_LIST_SHARED_OK
  else RTL_RANGE_LIST_NULL_CONFLICT_OK.

Definition UacpiNtPortAliasesAvailable (arb : ARBITER_INSTANCE) (ents : list ARBITER_LIST_ENTRY)
  (st : ARBITER_ALLOCATION_STATE) : bool * ARBITER_INSTANCE :=
  match st_alt st with
  | None => (true, arb)
  | Some a =>
      if alt_Length a =? 0 then (true, arb)
      else aliases_available (port_aliases (io_Flags (alt_Descriptor a)) (st_Start st))
             (alias_flags a) a arb ents st
  end.

(** One turn of the loop over placements. *)
Definition port_find_turn (ents : list ARBITER_LIST_ENTRY)
  (s : ARBITER_INSTANCE * ARBITER_ALLOCATION_STATE * try_ring)
  : (ARBITER_INSTANCE * ARBITER_ALLOCATION_STATE * try_ring) +
    (bool * ARBITER_INSTANCE * ARBITER_ALLOCATION_STATE * try_ring) :=
  let '(arb, st, ring) := s in
  let '(Found, arb, st, ring) := UacpiNtResFindSuitableRange arb ents st ring in
  if negb Found then inr (false, arb, st, ring)
  else
    let '(Available, arb) := UacpiNtPortAliasesAvailable arb ents st in
    if Available then inr (true, arb, st, ring)
    else
      match st_alt st with
      | None => inr (false, arb, st, ring)
      | Some a =>
          if alt_Length a =? 0 then inr (false, arb, st, ring)
          else
            let Next := st_Start st +u alt_Length a in
            if (Next <=? st_Start st) || (st_CurrentMaximum st <? Next)
            then inr (false, arb, st, ring)
            else inl (arb, st_set_window Next (st_CurrentMaximum st) st, ring)
      end.

(** The lower bound of the window rises every turn, so 64 bits of turns are
    enough; [port_find_returns] shows the second case does not arise. *)
Definition UacpiNtResPortFindSuitableRange (arb : ARBITER_INSTANCE)
  (ents : list ARBITER_LIST_ENTRY) (st : ARBITER_ALLOCATION_STATE) (ring : try_ring)
  : bool * ARBITER_INSTANCE * ARBITER_ALLOCATION_STATE * try_ring :=
  match iterate 64 (port_find_turn ents) (arb, st, ring) with
  | inr r => r
  | inl (arb, st, ring) => (false, arb, st, ring)
  end.

Fixpoint add_aliases (Aliases : list Z) (Length Attributes Flags : Z) (Owner : PVOID)
  (l : RTL_RANGE_LIST) : RTL_RANGE_LIST :=
  match Aliases with
  | [] => l
  | Alias :: Aliases =>
      add_aliases Aliases Length Attributes Flags Owner
        (RtlAddRange l Alias (Alias +u Length -u 1) Attributes Flags NULL Owner).2
  end.

Definition UacpiNtResPortAddAllocation (arb : ARBITER_INSTANCE) (ents : list ARBITER_LIST_ENTRY)
  (st : ARBITER_ALLOCATION_STATE) : ARBITER_INSTANCE :=
  let arb := ArbiterLibAddAllocation arb ents st in
  match st_alt st with
  | None => arb
  | Some a =>
      if alt_Length a =? 0 then arb
      else
        let Flags := if has_flag (alt_Flags a) ARBITER_ALTERNATIVE_FLAG_SHARED
                     then set_flag RTL_RANGE_LIST_ADD_IF_CONFLICT RTL_RANGE_LIST_ADD_SHARED
                     else RTL_RANGE_LIST_ADD_IF_CONFLICT in
        ar_set_PossibleAllocation
          (add_aliases (port_aliases (io_Flags (alt_Descriptor a)) (st_Start st)) (alt_Length a)
             (u8 (set_flag (st_RangeAttributes st) ARBITER_RANGE_PORT_ALIAS)) Flags
             (st_owner ents st) (ar_PossibleAllocation arb)) arb
  end.

Fixpoint delete_aliases (Aliases : list Z) (Length : Z) (Owner : PVOID) (l : RTL_RANGE_LIST)
  : RTL_RANGE_LIST :=
  match Aliases with
  | [] => l
  | Alias :: Aliases =>
      delete_aliases Aliases Length Owner
        (RtlDeleteRange l Alias (Alias +u Length -u 1) Owner).2
  end.

Definition UacpiNtResPortBacktrackAllocation (arb : ARBITER_INSTANCE)
  (ents : list ARBITER_LIST_ENTRY) (st : ARBITER_ALLOCATION_STATE)
  : ARBITER_INSTANCE * ARBITER_ALLOCATION_STATE :=
  let arb :=
    match st_alt st with
    | Some a =>
        if alt_Length a =? 0 then arb
        else
          ar_set_PossibleAllocation
            (delete_aliases (port_aliases (io_Flags (alt_Descriptor a)) (st_Start st))
               (alt_Length a) (st_owner ents st) (ar_PossibleAllocation arb)) arb
    | None => arb
    end in
  ArbiterLibBacktrackAllocation arb ents st.

(** ** The slots of the three arbiters

    The ring is only ever read by the failure dump, so a search starts from any
    ring; the slots start from this one. *)
Definition empty_ring : try_ring :=
  mkRing (replicate UACPINT_RES_TRY_RING (mkTry 0 0 0 0 0 0 false)) 0.

Definition without_ring {A B C D} (r : A * B * C * D) : A * B * C := r.1.

(** The slots UacpiNtInitRootArbiter and then the library put in the instance
    of a resource type. *)
Definition UacpiNtResCallbacks (ResourceType : Z) : ARBITER_CALLBACKS :=
  let lib := ArbiterLibCallbacks env mmconfig UacpiNtResUnpackRequirement UacpiNtResPackResource
               UacpiNtResUnpackResource (Some UacpiNtResScoreRequirement) in
  mkCallbacks UacpiNtResUnpackRequirement UacpiNtResPackResource UacpiNtResUnpackResource
    (Some UacpiNtResScoreRequirement) (PreprocessEntry lib) (GetNextAllocationRange lib)
    (if ResourceType =? CmResourceTypeMemory
     then fun arb ents st => without_ring (UacpiNtResFindSuitableRange arb ents st empty_ring)
     else if ResourceType =? CmResourceTypePort
     then fun arb ents st => without_ring (UacpiNtResPortFindSuitableRange arb ents st empty_ring)
     else FindSuitableRange lib)
    (if ResourceType =? CmResourceTypePort then UacpiNtResPortAddAllocation
     else AddAllocation lib)
    (if ResourceType =? CmResourceTypePort then UacpiNtResPortBacktrackAllocation
     else BacktrackAllocation lib).
End Finders.

(** ** The ring *)

Lemma omap_seq_lookup {A} (l : list A) first n :
  (first + n = length l)%nat -> omap (fun i => l !! i) (seq first n) = drop first l.
Proof.
  revert first. induction n as [|n IH]; simpl; intros first Hn.
  - rewrite drop_ge by lia. done.
  - destruct (lookup_lt_is_Some_2 l first ltac:(lia)) as [x Hx]. rewrite Hx, IH by lia.
    by rewrite (drop_S _ _ _ Hx).
Qed.

Lemma omap_ext_in {A B} (f g : A -> option B) (l : list A) :
  (forall x, x ∈ l -> f x = g x) -> omap f l = omap g l.
Proof.
  intros H. apply list_omap_ext, Forall2_same_length_lookup_2; [done|].
  intros i x y Hx Hy. simplify_eq. apply H. by eapply list_elem_of_lookup_2.
Qed.

Definition ring_put_all (l : list UACPINT_RES_TRY) (r : try_ring) : try_ring :=
  fold_left (fun r t => ring_put t r) l r.

(** The slots hold the last tries, each at its number modulo the size. *)
Lemma ring_slots l r :
  length (ring_tries r) = UACPINT_RES_TRY_RING -> ring_index r = 0 ->
  Z.of_nat (length l) < 4294967296 ->
  ring_index (ring_put_all l r) = Z.of_nat (length l) /\
  length (ring_tries (ring_put_all l r)) = UACPINT_RES_TRY_RING /\
  forall i, (i < length l <= i + UACPINT_RES_TRY_RING)%nat ->
    ring_tries (ring_put_all l r) !! (i mod UACPINT_RES_TRY_RING)%nat = l !! i.
Proof.
  intros Hlen Hix. unfold UACPINT_RES_TRY_RING in *.
  induction l as [|t l IH] using rev_ind; intros Hb.
  { split_and!; try done. simpl. lia. }
  rewrite length_app in *. simpl in Hb. destruct IH as (H1 & H2 & H3); [lia|].
  unfold ring_put_all in *. rewrite fold_left_app. cbn [fold_left].
  set (r' := fold_left _ l r) in *. unfold ring_put, UACPINT_RES_TRY_RING. cbn [ring_tries ring_index].
  rewrite H1, u32_small, Nat2Z.id, length_insert by lia.
  split_and!; [cbn [length]; lia|done|]. cbn [length].
  intros i Hi. destruct (decide (i = length l)) as [->|Hne].
  - rewrite list_lookup_insert_eq.
    + by rewrite lookup_app_r, Nat.sub_diag by lia.
    + rewrite H2. by apply Nat.mod_upper_bound.
  - rewrite list_lookup_insert_ne.
    + rewrite lookup_app_l by lia. apply H3. lia.
    + intros E. pose proof (Nat.div_mod_eq i 24). pose proof (Nat.div_mod_eq (length l) 24). lia.
Qed.

(** The failure dump prints the last 24 windows the arbitration tried, or
    all of them when there were fewer, oldest first. *)
Theorem dump_shows_last_tries l r :
  length (ring_tries r) = UACPINT_RES_TRY_RING -> ring_index r = 0 ->
  Z.of_nat (length l) < 4294967296 ->
  UacpiNtDumpTryRing (fold_left (fun r t => ring_put t r) l r) =
    drop (length l - UACPINT_RES_TRY_RING) l.
Proof.
  intros Hlen Hix Hb. destruct (ring_slots l r Hlen Hix Hb) as (H1 & H2 & H3).
  fold (ring_put_all l r). unfold UacpiNtDumpTryRing. rewrite H1, Nat2Z.id.
  set (first := if (_ <? _)%nat then _ else _).
  assert (Hf : first = (length l - UACPINT_RES_TRY_RING)%nat).
  { unfold first. destruct (Nat.ltb_spec UACPINT_RES_TRY_RING (length l)); lia. }
  rewrite Hf, <- (omap_seq_lookup l (length l - UACPINT_RES_TRY_RING)
                    (length l - (length l - UACPINT_RES_TRY_RING))) by lia.
  apply omap_ext_in. intros i Hi. apply elem_of_seq in Hi. apply H3. lia.
Qed.

Lemma dump_shows_last_tries_witness :
  map try_Minimum (UacpiNtDumpTryRing (fold_left (fun r t => ring_put t r)
    (map (fun n => mkTry (Z.of_nat n) 0 0 0 0 0 true) (seq 0 30)) empty_ring)) =
  map Z.of_nat (seq 6 24).
Proof.
  rewrite (dump_shows_last_tries (map (fun n => mkTry (Z.of_nat n) 0 0 0 0 0 true) (seq 0 30))
             empty_ring); vm_compute; reflexivity.
Defined.

(** ** Mirrors *)

(** The distance between two mirrors; 0 for a card that decodes all 16 bits. *)
Definition mirror_step (flags : Z) : Z :=
  if has_flag flags CM_RESOURCE_PORT_10_BIT_DECODE then 0x400
  else if has_flag flags CM_RESOURCE_PORT_12_BIT_DECODE then 0x1000 else 0.

Lemma next_alias_spec flags last :
  is_u64 last ->
  UacpiNtNextPortAlias flags last =
    (if (0 <? mirror_step flags) && (last + mirror_step flags <=? UACPINT_IO_SPACE_LAST)
     then Some (last + mirror_step flags) else None).
Proof.
  intros Hl. unfold UacpiNtNextPortAlias, mirror_step, UACPINT_IO_SPACE_LAST, is_u64, ULONGLONG_MAX in *.
  assert (Hgen : forall k, 0 < k <= 0x1000 ->
    (if (0xFFFF <? last +u k) || (last +u k <? last) then None else Some (last +u k)) =
    (if (0 <? k) && (last + k <=? 0xFFFF) then Some (last + k) else None)).
  { intros k Hk. replace (0 <? k) with true by (symmetry; apply Z.ltb_lt; lia). simpl.
    destruct (Z.leb_spec (last + k) 0xFFFF) as [Hle|Hgt].
    - rewrite add64_small by (unfold is_u64, ULONGLONG_MAX; lia).
      replace (0xFFFF <? last + k) with false by (symmetry; apply Z.ltb_ge; lia).
      by replace (last + k <? last) with false by (symmetry; apply Z.ltb_ge; lia).
    - destruct (Z.ltb_spec 0xFFFF (last +u k)); [done|]. simpl.
      destruct (Z.ltb_spec (last +u k) last) as [|Hge]; [done|]. exfalso.
      destruct (decide (last + k <= 18446744073709551615)).
      + rewrite add64_small in * by (unfold is_u64, ULONGLONG_MAX; lia). lia.
      + unfold add64, u64 in *. rewrite <- (Z.mod_unique (last + k) 18446744073709551616 1
          (last + k - 18446744073709551616)) in * by lia. lia. }
  destruct (has_flag flags CM_RESOURCE_PORT_10_BIT_DECODE); [apply Hgen; lia|].
  destruct (has_flag flags CM_RESOURCE_PORT_12_BIT_DECODE); [apply Hgen; lia|done].
Qed.

Lemma mirror_step_cases flags :
  mirror_step flags = 0 \/ 0x400 <= mirror_step flags <= 0x1000.
Proof. unfold mirror_step. repeat case_goal; lia. Qed.

Lemma aliases_from_spec n flags last al :
  is_u64 last -> UACPINT_IO_SPACE_LAST < last + 0x400 * Z.of_nat n ->
  al ∈ aliases_from n flags last <->
  0 < mirror_step flags /\ al <= UACPINT_IO_SPACE_LAST /\
  exists k, 0 < k /\ al = last + k * mirror_step flags.
Proof.
  unfold UACPINT_IO_SPACE_LAST. revert last. induction n as [|n IH]; intros last Hl Hn.
  - simpl. split; [by intros ?%elem_of_nil|]. intros (? & ? & k & ? & ->).
    pose proof (mirror_step_cases flags). unfold is_u64 in Hl. nia.
  - simpl. rewrite next_alias_spec by done. unfold UACPINT_IO_SPACE_LAST.
    pose proof (mirror_step_cases flags) as Hst. unfold is_u64, ULONGLONG_MAX in Hl.
    destruct ((0 <? mirror_step flags) && _) eqn:E; bool_prop.
    + rewrite elem_of_cons, IH by (unfold is_u64, ULONGLONG_MAX; lia). split.
      * intros [->|(? & ? & k & ? & ->)]; (split_and!; [lia|lia|]).
        -- exists 1. lia.
        -- exists (k + 1). lia.
      * intros (? & ? & k & ? & ->). destruct (decide (k = 1)) as [->|]; [left; lia|right].
        split_and!; [lia|lia|]. exists (k - 1). lia.
    + split; [by intros ?%elem_of_nil|]. intros (? & ? & k & ? & ->).
      apply andb_false_iff in E as [E|E]; bool_prop; [lia|nia].
Qed.

(** The loops over UacpiNtNextPortAlias visit exactly the decode mirrors
    above the placement: for a 10-bit card every address a multiple of 0x400
    higher, for a 12-bit card of 0x1000, up to the top of the 16-bit space; for
    a card that decodes all 16 bits none. *)
Theorem port_aliases_exact flags start al :
  is_u64 start ->
  al ∈ port_aliases flags start <->
  0 < mirror_step flags /\ al <= UACPINT_IO_SPACE_LAST /\
  exists k, 0 < k /\ al = start + k * mirror_step flags.
Proof.
  intros Hs. apply aliases_from_spec; [done|]. unfold is_u64, UACPINT_IO_SPACE_LAST in *. lia.
Qed.

Lemma port_aliases_exact_witness :
  port_aliases CM_RESOURCE_PORT_12_BIT_DECODE 0x3F8 =
    [0x13F8; 0x23F8; 0x33F8; 0x43F8; 0x53F8; 0x63F8; 0x73F8; 0x83F8; 0x93F8; 0xA3F8; 0xB3F8;
     0xC3F8; 0xD3F8; 0xE3F8; 0xF3F8] /\
  0xA3F8 ∈ port_aliases CM_RESOURCE_PORT_12_BIT_DECODE 0x3F8.
Proof.
  split; [vm_compute; reflexivity|].
  apply (port_aliases_exact CM_RESOURCE_PORT_12_BIT_DECODE 0x3F8 0xA3F8).
  - unfold is_u64, ULONGLONG_MAX. lia.
  - split_and!; [done|done|]. exists 10. done.
Defined.

(** ** The contract *)

Section ResContract.
Context `{R : RtlRangeList} {L : RtlRangeListLaws R} {A : RtlPoolSuffices R}.
Context (env : device_env) (mmconfig : mmconfig_table).
Context (arb0 : ARBITER_INSTANCE) (wfuel : nat).
Context (W : ol_wf (ar_OrderingList arb0)) (Hcb : ar_ConflictCallback arb0 = None).
#[local] Abbreviation ol := (ar_OrderingList arb0).
#[local] Abbreviation lib := (ArbiterLibCallbacks env mmconfig UacpiNtResUnpackRequirement
  UacpiNtResPackResource UacpiNtResUnpackResource (Some UacpiNtResScoreRequirement)).
#[local] Abbreviation inv := (default_inv arb0 wfuel).

Lemma boot_masks_only ents st :
  exists m, boot_config_masks ents st = st_set_RangeAvailableAttributes m st.
Proof using.
  unfold boot_config_masks. destruct (st_entry ents st); [case_goal; [by eexists|]|];
    (exists (st_RangeAvailableAttributes st)); by destruct st.
Qed.

(** The memory finder is the library's on a state with wider masks. *)
Lemma res_find_lib arb ents st ring r :
  UacpiNtResFindSuitableRange env mmconfig arb ents st ring = r ->
  exists m b arb' st',
    FindSuitableRange lib arb ents (st_set_RangeAvailableAttributes m st) = (b, arb', st') /\
    r = (b, arb', st', UacpiNtRecordTry st' b ring).
Proof using.
  intros <-. unfold UacpiNtResFindSuitableRange. destruct (boot_masks_only ents st) as [m ->].
  exists m. simpl. destruct (ArbiterLibFindSuitableRange _ _ _ _ _ _) as [[b arb'] st'].
  by eexists _, _, _.
Qed.

Lemma mem_find arb ents st b arb' st' :
  same_books arb0 arb -> inv st -> default_win st ->
  FindSuitableRange (UacpiNtResCallbacks env mmconfig CmResourceTypeMemory) arb ents st
    = (b, arb', st') ->
  same_books arb arb' /\ possible arb' = possible arb /\
  inv st' /\ st_Entry st' = st_Entry st /\ (walk_measure ol st' <= walk_measure ol st)%nat /\
  (b = true -> default_win st' /\ default_good env joins_nothing ents (possible arb) st' /\ is_Some (st_alt st')).
Proof using L Hcb.
  intros Hb Hi Hw E. change (without_ring
    (UacpiNtResFindSuitableRange env mmconfig arb ents st empty_ring) = (b, arb', st')) in E.
  destruct (res_find_lib arb ents st empty_ring _ eq_refl) as (m & b1 & arb1 & st1 & E1 & Er).
  rewrite Er in E. unfold without_ring in E. simpl in E. simplify_eq.
  exact (default_find env mmconfig _ _ _ _ arb0 wfuel joins_nothing (no_callback_joins _ _ Hcb) arb ents
           (st_set_RangeAvailableAttributes m st) b arb' st' Hb Hi Hw E1).
Qed.

(** The memory arbiter's slots are an [ArbiterSlots]. *)
#[global, refine] Instance res_memory_slots :
  ArbiterSlots (UacpiNtResCallbacks env mmconfig CmResourceTypeMemory) arb0 wfuel := {|
  st_inv _ := inv;
  st_ready _ := inv;
  st_win := default_win;
  good := default_good env joins_nothing;
  keys_of := default_keys;
  measure := walk_measure ol
|}.
Proof using L A W Hcb.
  all: pose (S0 := default_slots env mmconfig UacpiNtResUnpackRequirement UacpiNtResPackResource
               UacpiNtResUnpackResource (Some UacpiNtResScoreRequirement) arb0 wfuel W Hcb).
  - exact (sl_bound (ArbiterSlots := S0)).
  - exact (sl_ready_inv (ArbiterSlots := S0)).
  - exact (sl_inv_ext (ArbiterSlots := S0)).
  - exact (sl_good_perm (ArbiterSlots := S0)).
  - exact (sl_good_ext (ArbiterSlots := S0)).
  - exact (sl_keys_ext (ArbiterSlots := S0)).
  - exact (sl_flags (ArbiterSlots := S0)).
  - exact (sl_unset (ArbiterSlots := S0)).
  - exact (sl_win_ws (ArbiterSlots := S0)).
  - exact (sl_retry (ArbiterSlots := S0)).
  - exact (sl_pre (ArbiterSlots := S0)).
  - exact (sl_next (ArbiterSlots := S0)).
  - apply mem_find.
  - exact (sl_add (ArbiterSlots := S0)).
  - exact (sl_back (ArbiterSlots := S0)).
Defined.

(** *** Ports *)

(** A mirror at [al] is free: what is recorded there is unowned, or made
    available, or shared with a shared request; or the requirement is fixed and
    what is not made available belongs to the device. *)
Definition mirror_clear (ents : list ARBITER_LIST_ENTRY) (C : list range_core)
  (st : ARBITER_ALLOCATION_STATE) (a : ARBITER_ALTERNATIVE) (al : Z) : Prop :=
  Forall (fun c => meets al (al + alt_Length a - 1) (core_key c) ->
            core_past joins_nothing (alias_flags a) (st_RangeAvailableAttributes st) c) C \/
  (has_flag (alt_Flags a) ARBITER_ALTERNATIVE_FLAG_FIXED = true /\
   Forall (fun c => meets al (al + alt_Length a - 1) (core_key c) ->
             has_flag (core_Attributes c) (st_RangeAvailableAttributes st) = true \/
             key_Owner (core_key c) = st_owner ents st) C).

(** The mirrors of a placement; an empty request has none. *)
Definition mirrors (st : ARBITER_ALLOCATION_STATE) (a : ARBITER_ALTERNATIVE) : list Z :=
  if alt_Length a =? 0 then [] else port_aliases (io_Flags (alt_Descriptor a)) (st_Start st).

(** A placement inside its requirement found against ranges whose keys are [K],
    with all its mirrors free. *)
Definition port_good (ents : list ARBITER_LIST_ENTRY) (K : list range_key)
  (st : ARBITER_ALLOCATION_STATE) : Prop :=
  exists a C, st_alt st = Some a /\ map core_key C ≡ₚ K /\
    0 <= alt_Minimum a <= st_Start st /\ st_Start st <= st_End st <= alt_Maximum a /\
    alt_Maximum a <= ULONGLONG_MAX /\ is_ulong (alt_Length a) /\
    placed_against env joins_nothing ents C st a /\ Forall (mirror_clear ents C st a) (mirrors st a).

Definition port_inv (st : ARBITER_ALLOCATION_STATE) : Prop :=
  inv st /\ Forall (fun a => is_ulong (alt_Length a)) (st_Alternatives st).

(** The ranges of a placement: itself and its mirrors. *)
Definition mirror_keys (owner : PVOID) (len : Z) (als : list Z) : list range_key :=
  map (fun al => (al, al + len - 1, owner)) als.

Definition port_keys (ents : list ARBITER_LIST_ENTRY) (st : ARBITER_ALLOCATION_STATE)
  : list range_key :=
  (st_Start st, st_End st, st_owner ents st) ::
  match st_alt st with
  | Some a => mirror_keys (st_owner ents st) (alt_Length a) (mirrors st a)
  | None => []
  end.

Lemma port_good_perm ents K K' st : K ≡ₚ K' -> port_good ents K st -> port_good ents K' st.
Proof using. intros HK (a & C & ? & HC & ?). exists a, C. rewrite <- HK. done. Qed.

Lemma port_good_ext ents ents' K st st' :
  same_place st st' -> owners ents' = owners ents -> port_good ents K st -> port_good ents' K st'.
Proof using.
  intros Hp Ho (a & C & Ha & HC & Hmn & Hb & Hmx & Hl & Hpl & Hmir).
  pose proof (same_place_alt _ _ Hp) as E. rewrite Ha in E.
  destruct (st_alt st') as [a'|] eqn:Ea'; [|done]. exists a', C.
  pose proof (st_owner_ext ents ents' st st' Ho (sp_entry _ _ Hp)) as Hown.
  destruct Hp as [P1 P2 P3 P4 P5 P6 P7].
  destruct (alt_req_fields a' a) as (R1 & R2 & R3 & R4 & R5 & R6); [simpl in E; congruence|].
  assert (Hff : find_flags st' a' = find_flags st a) by (unfold find_flags; by rewrite P6, R5).
  rewrite P1, P2, R1, R2, R3. split_and!; try done; try lia.
  - destruct Hpl as [|? HE HF|c|? ? HF].
    + apply pa_null. lia.
    + apply pa_free; [lia|congruence|]. by rewrite P1, P2, P7, Hff.
    + eapply pa_shared; [lia|done|by rewrite Hown].
    + apply pa_own; [lia|congruence|]. by rewrite P1, P2, P7, Hown.
  - unfold mirrors, mirror_clear, alias_flags in *. by rewrite R3, R5, R6, P1, P7, Hown.
Qed.

(** The loop over the mirrors leaves the books alone and answers TRUE only when
    every mirror is clear. *)
Lemma aliases_available_ok als a arb ents st b arb' :
  ar_ConflictCallback arb = None -> st_alt st = Some a ->
  Forall (fun al => is_u64 (al + alt_Length a) /\ is_u64 (al + alt_Length a - 1)) als ->
  aliases_available als (alias_flags a) a arb ents st = (b, arb') ->
  (exists slot, arb' = ar_set_slot slot arb) /\
  (b = true ->
   Forall (mirror_clear ents (rl_cores (ar_PossibleAllocation arb)) st a) als).
Proof using L.
  intros Hc Ha HF. revert arb Hc b arb'.
  induction HF as [|al als [Hal1 Hal2] HF IH]; simpl; intros arb Hc b arb' E.
  { simplify_eq. split; [|by constructor]. eexists. symmetry. apply ar_set_slot_same. }
  rewrite add64_small, sub64_small in E by done.
  destruct (RtlIsRangeAvailable _ _ _ _ _ _ _) as [av slot] eqn:Eav.
  set (arb1 := ar_set_slot slot arb) in *.
  assert (Hrec : forall b arb', aliases_available als (alias_flags a) a arb1 ents st = (b, arb') ->
    mirror_clear ents (rl_cores (ar_PossibleAllocation arb)) st a al ->
    (exists slot, arb' = ar_set_slot slot arb) /\
    (b = true -> Forall (mirror_clear ents (rl_cores (ar_PossibleAllocation arb)) st a) (al :: als))).
  { intros b1 arb2 E1 Hm. apply IH in E1 as [[slot2 ->] HH]; [|done]. split; [by eexists|].
    intros Hb. constructor; [done|]. by apply HH. }
  destruct av.
  - eapply Hrec; [done|]. left. apply rl_available_sound in Eav. rewrite Hc in Eav.
    apply Forall_forall. intros c Hcin Hmeet.
    apply list_elem_of_In, in_map_iff in Hcin as (r & <- & Hr). apply list_elem_of_In in Hr.
    destruct (Eav r Hr Hmeet) as [?|[?|[?|(f & s0 & [=] & _)]]]; unfold core_past; tauto.
  - destruct (ArbiterLibOverrideConflict arb1 ents _) as [[] stp] eqn:Eo; simpl in E.
    2:{ simplify_eq. split; [by eexists|done]. }
    eapply Hrec; [done|]. right. apply override_conflict_own in Eo as (a' & Ha' & Hf & HO).
    assert (a' = a) as -> by (unfold st_alt in *; simpl in Ha'; congruence).
    split; [done|]. apply Forall_forall. intros c Hcin Hmeet.
    apply list_elem_of_In, in_map_iff in Hcin as (r & <- & Hr). apply list_elem_of_In in Hr.
    rewrite Forall_forall in HO. specialize (HO r Hr).
    destruct (has_flag (core_Attributes (rng_core r)) (st_RangeAvailableAttributes st)) eqn:Ef;
      [by left|right].
    apply HO. unfold blocks_window, meets, overlaps in *. simpl in *.
    apply andb_prop in Hmeet as [M1 M2]. unfold core_Attributes in Ef. simpl in Ef.
    unfold key_Start, key_End, core_key in *. simpl in *. by rewrite Ef, M1, M2.
Qed.

Lemma mirrors_range st a al :
  is_u64 (st_Start st) -> al ∈ mirrors st a -> st_Start st < al <= UACPINT_IO_SPACE_LAST.
Proof using.
  intros Hs. unfold mirrors. destruct (_ =? 0); [by intros ?%elem_of_nil|].
  intros Hal. apply aliases_from_spec in Hal as (Hst & Hle & k & Hk & ->); [nia|done|].
  unfold is_u64, UACPINT_IO_SPACE_LAST in *. lia.
Qed.

Lemma mirrors_fit st a :
  is_u64 (st_Start st) -> is_ulong (alt_Length a) ->
  Forall (fun al => is_u64 al /\ is_u64 (al + alt_Length a) /\
            (alt_Length a <> 0 -> al <= al + alt_Length a - 1) /\ is_u64 (al + alt_Length a - 1))
    (mirrors st a).
Proof using.
  intros Hs Hl. apply Forall_forall. intros al Hal.
  assert (Hne : alt_Length a <> 0).
  { unfold mirrors in Hal. destruct (_ =? 0) eqn:E; bool_prop; [by apply elem_of_nil in Hal|done]. }
  apply mirrors_range in Hal; [|done].
  unfold is_u64, is_ulong, ULONGLONG_MAX, UACPINT_IO_SPACE_LAST in *. lia.
Qed.

(** What every turn of the port finder's loop starts from. *)
Definition port_turn_inv (arb : ARBITER_INSTANCE) (st : ARBITER_ALLOCATION_STATE)
  (s : ARBITER_INSTANCE * ARBITER_ALLOCATION_STATE * try_ring) : Prop :=
  let '(arb1, st1, _) := s in
  (exists slot, arb1 = ar_set_slot slot arb) /\ window_in st1 /\
  st_CurrentMaximum st1 = st_CurrentMaximum st /\ st_CurrentMinimum st <= st_CurrentMinimum st1 /\
  st_Alternatives st1 = st_Alternatives st /\
  st_CurrentAlternative st1 = st_CurrentAlternative st /\ st_Entry st1 = st_Entry st.

Lemma port_inv_alts st st1 :
  st_Alternatives st1 = st_Alternatives st ->
  st_CurrentAlternative st1 = st_CurrentAlternative st -> port_inv st -> port_inv st1.
Proof using.
  intros E1 E2 [[[H1 H2] H3] H4]. split; [split; [split|]|]; unfold walk_fuel in *;
    rewrite ?E1, ?E2; done.
Qed.

(** One turn: it leaves with a good placement or a refusal, or goes round with
    the same requirement and a higher lower bound. *)
Lemma port_turn_ok arb ents st s :
  same_books arb0 arb -> port_inv st -> port_turn_inv arb st s ->
  match port_find_turn env mmconfig ents s with
  | inl s' => port_turn_inv arb st s' /\ st_CurrentMinimum s.1.2 < st_CurrentMinimum s'.1.2 /\
              st_CurrentMinimum s'.1.2 <= st_CurrentMaximum st
  | inr (b, arb', st', _) =>
      (exists ring, port_turn_inv arb st (arb', st', ring)) /\
      (b = true -> port_good ents (possible arb) st')
  end.
Proof using L Hcb.
  intros Hb Hi. destruct s as [[arb1 st1] ring]. intros ([slot ->] & Hw & Hmx & Hmn & Hal & Hcur & He).
  unfold port_find_turn.
  destruct (res_find_lib (ar_set_slot slot arb) ents st1 ring _ eq_refl)
    as (m & b1 & arb2 & st2 & E1 & ->). set (stm := st_set_RangeAvailableAttributes m st1) in *.
  pose proof (port_inv_alts st st1 Hal Hcur Hi) as [Hi1 Hlen1].
  assert (Hb1 : same_books arb0 (ar_set_slot slot arb)).
  { eapply same_books_trans; [done|]. exists (ar_PossibleAllocation arb), slot. by destruct arb. }
  destruct (find_in_window env mmconfig _ _ _ _ arb0 wfuel joins_nothing (no_callback_joins _ _ Hcb) (ar_set_slot slot arb) ents stm b1 arb2 st2
              Hb1 Hi1 Hw E1) as [Hfr Hok].
  pose proof Hfr as [[slot2 ->] F1 F2 F3 F4 F5]. simpl in F1, F2, F3, F4, F5.
  assert (Halt : st_alt st2 = st_alt st1) by (unfold st_alt; by rewrite F3, F4).
  assert (Hw2 : window_in st2).
  { destruct Hw as (a & Ha & Hw). exists a. by rewrite Halt, F1, F2. }
  assert (Hinv2 : port_turn_inv arb st (ar_set_slot slot2 (ar_set_slot slot arb), st2, ring)).
  { unfold port_turn_inv. split; [by exists slot2|]. split_and!; try done; try congruence; lia. }
  destruct b1; simpl.
  2:{ split; [by exists ring|done]. }
  destruct (Hok eq_refl) as (a & Ha & B1 & B2 & _ & Hp). simpl in B1, B2.
  destruct Hw as (a' & Ha' & Hwm & Hwx). assert (a' = a) as -> by congruence.
  pose proof (inv_alt_wf arb0 wfuel _ _ Hi1 Ha') as (Hw1 & Hw2' & _).
  assert (Hla : is_ulong (alt_Length a)).
  { unfold st_alt in Ha'. destruct (st_CurrentAlternative st1) as [i|]; [|done].
    by eapply Forall_lookup_1 in Hlen1. }
  assert (Hs64 : is_u64 (st_Start st2)) by (unfold is_u64 in *; lia).
  assert (Hgood : forall slot3, Forall (mirror_clear ents (rl_cores (ar_PossibleAllocation arb)) st2 a)
                    (mirrors st2 a) ->
    (exists ring, port_turn_inv arb st (ar_set_slot slot3 arb, st2, ring)) /\
    (true = true -> port_good ents (possible arb) st2)).
  { intros slot3 HF. split.
    - exists ring. unfold port_turn_inv in *. split; [by exists slot3|]. tauto.
    - intros _. exists a, (rl_cores (ar_PossibleAllocation arb)). unfold is_u64 in *.
      split; [done|]. split; [unfold possible; by rewrite rl_keys_cores|].
      split_and!; try done; lia. }
  unfold UacpiNtPortAliasesAvailable. rewrite Ha.
  destruct (alt_Length a =? 0) eqn:El.
  { apply (Hgood slot2). unfold mirrors. rewrite El. constructor. }
  destruct (aliases_available _ _ _ _ _ _) as [av arb3] eqn:Eav.
  assert (Hm : port_aliases (io_Flags (alt_Descriptor a)) (st_Start st2) = mirrors st2 a)
    by (unfold mirrors; by rewrite El).
  rewrite Hm in Eav. apply aliases_available_ok in Eav as [[slot3 ->] Hav]; [|by rewrite <- Hcb; apply (books_callback arb0 _ Hb1)|done|].
  2:{ eapply Forall_impl; [by apply mirrors_fit|]. simpl. tauto. }
  destruct av; [by apply (Hgood slot3), Hav|].
  assert (Hinv3 : port_turn_inv arb st (ar_set_slot slot3 (ar_set_slot slot2 (ar_set_slot slot arb)), st2, ring)).
  { unfold port_turn_inv in *. split; [by exists slot3|]. tauto. }
  destruct ((_ <=? _) || _) eqn:En; [split; [by exists ring|done]|].
  bool_prop. unfold port_turn_inv in Hinv3. destruct Hinv3 as (Q1 & _ & Q3 & Q4 & Q5 & Q6 & Q7).
  split; [split; [done|split; [|split_and!; simpl; try done; lia]]|simpl; lia].
  exists a. split; [done|]. simpl. rewrite F2. lia.
Qed.

#[local] Abbreviation port := (UacpiNtResCallbacks env mmconfig CmResourceTypePort).

(** The loop leaves within 64 bits of turns. *)
Lemma port_find_leaves arb ents st ring :
  same_books arb0 arb -> port_inv st -> window_in st ->
  exists s r, iterate 64 (port_find_turn env mmconfig ents) (arb, st, ring) = inr r /\
    port_turn_inv arb st s /\ port_find_turn env mmconfig ents s = inr r.
Proof using L Hcb.
  intros Hb Hi Hw.
  assert (H0 : port_turn_inv arb st (arb, st, ring)).
  { unfold port_turn_inv. split; [eexists; symmetry; apply ar_set_slot_same|]. by split_and!. }
  assert (Hstep : forall s s', port_turn_inv arb st s -> port_find_turn env mmconfig ents s = inl s' ->
    port_turn_inv arb st s' /\ st_CurrentMinimum s.1.2 < st_CurrentMinimum s'.1.2 /\
    st_CurrentMinimum s'.1.2 <= st_CurrentMaximum st).
  { intros s s' Hs E. pose proof (port_turn_ok arb ents st s Hb Hi Hs) as Hok. by rewrite E in Hok. }
  destruct Hw as (a & Ha & Hmn & Hmx).
  pose proof (inv_alt_wf arb0 wfuel _ _ (proj1 Hi) Ha) as (Hw1 & Hw2 & _).
  destruct (iterate_returns (port_find_turn env mmconfig ents) (port_turn_inv arb st)
              (fun s => Z.max 0 (st_CurrentMaximum st - st_CurrentMinimum s.1.2)) 64 (arb, st, ring))
    as [r Hr].
  - intros s s' Hs E. destruct (Hstep s s' Hs E) as (? & ? & ?). split; [done|]. lia.
  - intros s _. lia.
  - done.
  - unfold is_u64, ULONGLONG_MAX in *. simpl. lia.
  - destruct (iterate_leaves (port_find_turn env mmconfig ents) (port_turn_inv arb st) 64
                (arb, st, ring) r) as (s & Hs & Er); [|done|done|by exists s, r].
    intros s s' Hs E. by apply (Hstep s s' Hs E).
Qed.

(** UacpiNtResPortFindSuitableRange returns, and when it answers TRUE the
    placement lies in its requirement, came about against the recorded ranges
    the way the library's finder allows, and every decode mirror of it is
    clear; the books are as they were. *)
Theorem port_find_correct arb ents st ring :
  same_books arb0 arb -> port_inv st -> window_in st ->
  exists b arb' st' ring',
    iterate 64 (port_find_turn env mmconfig ents) (arb, st, ring) = inr (b, arb', st', ring') /\
    UacpiNtResPortFindSuitableRange env mmconfig arb ents st ring = (b, arb', st', ring') /\
    possible arb' = possible arb /\ ar_Allocation arb' = ar_Allocation arb /\
    (b = true -> port_good ents (possible arb) st').
Proof using L Hcb.
  intros Hb Hi Hw. destruct (port_find_leaves arb ents st ring Hb Hi Hw) as (s & r & Er & Hs & Et).
  pose proof (port_turn_ok arb ents st s Hb Hi Hs) as Hok. rewrite Et in Hok.
  destruct r as [[[b arb'] st'] ring']. destruct Hok as [[ring2 Hinv] Hg].
  exists b, arb', st', ring'. unfold UacpiNtResPortFindSuitableRange. rewrite Er.
  destruct Hinv as ([slot ->] & _). by split_and!.
Qed.

Lemma port_find_slot :
  FindSuitableRange port = fun arb ents st =>
    without_ring (UacpiNtResPortFindSuitableRange env mmconfig arb ents st empty_ring).
Proof using. reflexivity. Qed.

Lemma port_find arb ents st b arb' st' :
  same_books arb0 arb -> port_inv st -> window_in st ->
  FindSuitableRange port arb ents st = (b, arb', st') ->
  same_books arb arb' /\ possible arb' = possible arb /\
  port_inv st' /\ st_Entry st' = st_Entry st /\ (walk_measure ol st' <= walk_measure ol st)%nat /\
  (b = true -> window_in st' /\ port_good ents (possible arb) st' /\ is_Some (st_alt st')).
Proof using L Hcb.
  intros Hb Hi Hw E. rewrite port_find_slot in E.
  destruct (port_find_leaves arb ents st empty_ring Hb Hi Hw) as (s & r & Er & Hs & Et).
  pose proof (port_turn_ok arb ents st s Hb Hi Hs) as Hok. rewrite Et in Hok.
  assert (E2 : UacpiNtResPortFindSuitableRange env mmconfig arb ents st empty_ring = r).
  { unfold UacpiNtResPortFindSuitableRange. by rewrite Er. }
  rewrite E2 in E. clear Er E2. destruct r as [[[b1 arb1] st1] ring1]. unfold without_ring in E.
  simpl in E. simplify_eq.
  destruct Hok as [[ring2 Hinv] Hg].
  destruct Hinv as ([slot ->] & Hw1 & Hmx & Hmn & Hal & Hcur & He).
  split_and!; try done.
  - exists (ar_PossibleAllocation arb), slot. by destruct arb.
  - by eapply port_inv_alts.
  - unfold walk_measure. by rewrite Hal, Hcur.
  - intros Hbt. split_and!; [done|by apply Hg|]. destruct Hw1 as (a & Ha & _). by exists a.
Qed.

Lemma add_aliases_keys als len attrs flags owner l :
  has_flag flags RTL_RANGE_LIST_ADD_IF_CONFLICT = true -> len <> 0 ->
  Forall (fun al => is_u64 al /\ is_u64 (al + len) /\
            (len <> 0 -> al <= al + len - 1) /\ is_u64 (al + len - 1)) als ->
  rl_keys (add_aliases als len attrs flags owner l) ≡ₚ mirror_keys owner len als ++ rl_keys l.
Proof using L A.
  intros Hf Hne HF. revert l. induction HF as [|al als (Ha & Hb & Hc & Hd) HF IH]; simpl; intros l; [done|].
  rewrite add64_small, sub64_small by done. rewrite IH.
  pose proof (rl_add_succeeds l al (al + len - 1) attrs flags NULL owner Hf (Hc Hne)) as Hs.
  destruct (RtlAddRange l _ _ _ _ _ _) as [s l1] eqn:E. simpl in *.
  rewrite (rl_add_keys _ _ _ _ _ _ _ _ _ Hf E Hs). by rewrite Permutation_middle.
Qed.

Lemma delete_aliases_keys als len owner l K :
  Forall (fun al => is_u64 al /\ is_u64 (al + len) /\
            (len <> 0 -> al <= al + len - 1) /\ is_u64 (al + len - 1)) als ->
  rl_keys l ≡ₚ mirror_keys owner len als ++ K ->
  rl_keys (delete_aliases als len owner l) ≡ₚ K.
Proof using L.
  intros HF. revert l. induction HF as [|al als (Ha & Hb & Hc & Hd) HF IH]; simpl; intros l HK; [done|].
  rewrite add64_small, sub64_small by done. apply IH.
  destruct (RtlDeleteRange l _ _ _) as [s l1] eqn:E. simpl.
  assert (Hin : (al, al + len - 1, owner) ∈ rl_keys l) by (rewrite HK; by left).
  rewrite (rl_delete_keys _ _ _ _ _ _ E Hin) in HK. by apply Permutation_cons_inv in HK.
Qed.

Lemma books_possible arb l : same_books arb (ar_set_PossibleAllocation l arb).
Proof using. exists l, (ar_ConflictCallbackContext arb). by destruct arb. Qed.

Lemma port_add arb ents K st :
  port_good ents K st ->
  same_books arb (AddAllocation port arb ents st) /\
  possible (AddAllocation port arb ents st) ≡ₚ port_keys ents st ++ possible arb.
Proof using L A.
  intros (a & C & Ha & _ & Hmn & Hb & Hmx & Hl & _). simpl.
  unfold UacpiNtResPortAddAllocation, port_keys. rewrite Ha.
  destruct (library_adds arb ents st ltac:(lia)) as [Hbk Hk].
set (arb1 := ArbiterLibAddAllocation arb ents st) in *.
  clearbody arb1. destruct (alt_Length a =? 0) eqn:El.
  { unfold mirrors. rewrite El. done. }
  set (fl := if has_flag (alt_Flags a) _ then _ else _).
  assert (Hfl : has_flag fl RTL_RANGE_LIST_ADD_IF_CONFLICT = true)
    by (unfold fl; by destruct (has_flag (alt_Flags a) _)).
  assert (Hm : port_aliases (io_Flags (alt_Descriptor a)) (st_Start st) = mirrors st a)
    by (unfold mirrors; by rewrite El).
  rewrite Hm. bool_prop. split.
  - eapply same_books_trans; [done|apply books_possible].
  - unfold possible in *. simpl. rewrite add_aliases_keys; [|done|done|].
    2:{ apply mirrors_fit; [unfold is_u64; lia|done]. }
    rewrite Hk. by rewrite Permutation_middle.
Qed.

Lemma port_back arb ents st arb' st' K K' :
  port_good ents K' st -> possible arb ≡ₚ port_keys ents st ++ K ->
  BacktrackAllocation port arb ents st = (arb', st') ->
  same_books arb arb' /\ possible arb' ≡ₚ K /\ st' = st.
Proof using L.
  intros (a & C & Ha & _ & Hmn & Hb & Hmx & Hl & _) HK. simpl.
  unfold UacpiNtResPortBacktrackAllocation, port_keys in *. rewrite Ha in *.
  assert (Hm : (alt_Length a =? 0) = false ->
    port_aliases (io_Flags (alt_Descriptor a)) (st_Start st) = mirrors st a)
    by (intros El; unfold mirrors; by rewrite El).
  set (arb1 := if alt_Length a =? 0 then arb else _).
  assert (H1 : same_books arb arb1 /\
    possible arb1 ≡ₚ (st_Start st, st_End st, st_owner ents st) :: K).
  { unfold arb1. destruct (alt_Length a =? 0) eqn:El.
    - split; [apply same_books_refl|]. unfold mirrors in HK. by rewrite El in HK.
    - rewrite Hm by done. split.
      + apply books_possible.
      + apply delete_aliases_keys; [apply mirrors_fit; [unfold is_u64; lia|done]|].
        unfold possible in HK. rewrite HK. simpl. by rewrite <- Permutation_middle. }
  destruct H1 as [Hbk Hk]. unfold ArbiterLibBacktrackAllocation.
  destruct (RtlDeleteRange _ _ _ _) as [s l] eqn:E. intros [= <- <-]. split_and!; [| |done].
  - eapply same_books_trans; [done|apply books_possible].
  - assert (Hin : (st_Start st, st_End st, st_owner ents st) ∈ rl_keys (ar_PossibleAllocation arb1)).
    { unfold possible in Hk. rewrite Hk. by left. }
    pose proof (rl_delete_keys _ _ _ _ _ _ E Hin) as HP. unfold possible in *. simpl in *.
    rewrite HP in Hk. by apply Permutation_cons_inv in Hk.
Qed.

Lemma lengths_reqs (alts alts' : list ARBITER_ALTERNATIVE) :
  map alt_req alts' = map alt_req alts ->
  Forall (fun a => is_ulong (alt_Length a)) alts -> Forall (fun a => is_ulong (alt_Length a)) alts'.
Proof using.
  revert alts'. induction alts as [|a alts IH]; intros [|a' alts'] E HF; try done.
  simpl in E. injection E as E1 E2 E3 E4 E5 E6 E. inversion HF; subst. constructor; [congruence|]. by apply IH.
Qed.

Lemma port_next arb ents st b st' :
  same_books arb0 arb -> port_inv st -> GetNextAllocationRange port arb ents st = (b, st') ->
  port_inv st' /\ st_Entry st' = st_Entry st /\
  (b = true -> window_in st' /\ (walk_measure ol st' < walk_measure ol st)%nat).
Proof using W.
  intros Hb [Hi Hl] E.
  destruct (default_next env mmconfig UacpiNtResUnpackRequirement UacpiNtResPackResource
              UacpiNtResUnpackResource (Some UacpiNtResScoreRequirement) arb0 wfuel W arb ents
              st b st' Hb Hi E) as (Hi' & He & Hw).
  split_and!; [split; [done|]|done|].
  - simpl in E. rewrite (books_ordering arb0 _ Hb) in E.
    destruct (get_next_range_terminates_aux ol st W) as (b1 & st1 & E1 & _).
    rewrite E1 in E. simpl in E. injection E as -> ->.
    destruct (get_next_range_outcome ol st b st' W (proj1 Hi) E1) as [Hfr _].
    by eapply lengths_reqs; [apply (wfr_reqs _ _ Hfr)|].
  - intros Hbt. destruct (Hw Hbt) as [(a & Ha & H1 & H2 & _) Hm]. split; [by exists a|done].
Qed.

(** The port arbiter's slots are an [ArbiterSlots]: a placement comes with its
    mirrors. *)
#[global, refine] Instance res_port_slots : ArbiterSlots port arb0 wfuel := {|
  st_inv _ := port_inv;
  st_ready _ := port_inv;
  st_win := window_in;
  good := port_good;
  keys_of := port_keys;
  measure := walk_measure ol
|}.
Proof using L A W Hcb.
  - intros _ st [[_ Hf] _]. pose proof (walk_measure_fuel ol st). lia.
  - done.
  - done.
  - apply port_good_perm.
  - apply port_good_ext.
  - intros ents ents' st st' Hp Ho. unfold port_keys.
    rewrite (sp_start _ _ Hp), (sp_end _ _ Hp), (st_owner_ext _ _ _ _ Ho (sp_entry _ _ Hp)).
    pose proof (same_place_alt _ _ Hp) as E.
    destruct (st_alt st) as [a|], (st_alt st') as [a'|]; try done.
    destruct (alt_req_fields a' a) as (_ & _ & R3 & _ & _ & R6); [simpl in E; congruence|].
    unfold mirrors. by rewrite R3, R6, (sp_start _ _ Hp).
  - done.
  - intros _ st [[[Hi _] Hf] Hl]. split; [split; [|done]|done]. split; [done|by left].
  - done.
  - intros ents K st [Hi Hl] (a & Ha & Hmn & Hmx) (a' & C & Ha' & _ & Hs & He & Htop & _) Hlt.
    assert (a' = a) as -> by congruence. split; [done|]. exists a.
    simpl. rewrite sub64_small by (unfold is_u64, ULONGLONG_MAX in *; lia).
    split_and!; try done; lia.
  - intros arb ents st s arb' st' Hi [= <- <- <-].
    split_and!; first [done|apply same_books_refl|apply same_place_refl].
  - apply port_next.
  - apply port_find.
  - intros arb ents K st _. apply port_add.
  - intros arb ents st arb' st' K _ Hi Hw Hg HK E.
    destruct (port_back _ _ _ _ _ _ _ Hg HK E) as (Hb & Hk & ->). by split_and!.
Defined.
End ResContract.

(** ** The arbiters drive a test *)

(** A requirement whose bounds leave room for its alignment. *)
Definition res_requirement (d : IO_RESOURCE_DESCRIPTOR) : Prop :=
  forall s mn mx len al, UacpiNtResUnpackRequirement d = (s, (mn, mx, len, al)) ->
    NT_SUCCESS s = true -> Z.max mn mx + al - 1 <= ULONGLONG_MAX.

Definition res_requirements (wfuel : nat) (ds : list IO_RESOURCE_DESCRIPTOR) : Prop :=
  Forall res_requirement ds /\ (2 * (1027 * length ds) + 3 < wfuel)%nat.

Section ResDrivers.
Context `{R : RtlRangeList} {L : RtlRangeListLaws R} {A : RtlPoolSuffices R}.
Context (env : device_env) (mmconfig : mmconfig_table) (wfuel : nat).
#[local] Abbreviation lib := (ArbiterLibCallbacks env mmconfig UacpiNtResUnpackRequirement
  UacpiNtResPackResource UacpiNtResUnpackResource (Some UacpiNtResScoreRequirement)).

Lemma res_build_alternatives rt ds :
  build_alternatives (UacpiNtResCallbacks env mmconfig rt) ds = build_alternatives lib ds.
Proof using. induction ds as [|d ds IH]; [done|]. simpl. by rewrite IH. Qed.

Lemma res_requirements_library ds :
  res_requirements wfuel ds -> library_requirements UacpiNtResUnpackRequirement wfuel ds.
Proof using.
  intros [HF Hn]. split; [|done]. eapply Forall_impl; [exact HF|]. simpl.
  intros d Hd s mn mx len al E Hs. eapply unpack_requirement_wf; eauto.
Qed.

Lemma built_inv arb (Hp : library_policy wfuel arb) i ds s alts :
  res_requirements wfuel ds -> build_alternatives lib ds = (s, alts) -> NT_SUCCESS s = true ->
  default_inv arb wfuel (built_state i alts).
Proof using L A.
  intros Hr E Hs.
  exact (drv_built (ArbiterDriver := library_driver env mmconfig _ _ _ _ wfuel) arb Hp [] i ds s alts
           ltac:(by intros e) (res_requirements_library ds Hr) E Hs).
Qed.

Lemma built_lengths ds s alts :
  Forall res_requirement ds -> build_alternatives lib ds = (s, alts) -> NT_SUCCESS s = true ->
  Forall (fun a => is_ulong (alt_Length a)) alts.
Proof using.
  intros HF. revert s alts. induction HF as [|d ds Hd HF IH]; simpl; intros s alts E Hs.
  { simplify_eq. constructor. }
  unfold ArbpBuildAlternative in E. simpl in E.
  destruct (UacpiNtResUnpackRequirement d) as [s0 [[[mn mx] len] al]] eqn:Eu.
  apply unpack_requirement_outcome in Eu.
  destruct (NT_SUCCESS s0) eqn:E0; simpl in E; try rewrite E0 in E; simpl in E;
    [|simplify_eq; congruence].
  destruct (build_alternatives lib ds) as [s2 alts2]. simplify_eq.
  constructor; [|by eapply IH]. simpl. tauto.
Qed.

Lemma zero_inv arb : library_policy wfuel arb -> default_inv arb wfuel st_zero.
Proof using.
  intros (H1 & H2 & H3). split; [split; [constructor|by left]|]. unfold walk_fuel. simpl. lia.
Qed.

#[global, refine] Instance res_memory_driver :
  ArbiterDriver (UacpiNtResCallbacks env mmconfig CmResourceTypeMemory) (library_policy wfuel) wfuel := {|
  drv_requirements := res_requirements wfuel;
  drv_slots arb Hp := res_memory_slots env mmconfig arb wfuel (proj1 Hp) (proj1 (proj2 Hp))
|}.
Proof using L A.
  - intros arb arb' U (H1 & H2 & H3). split_and!; [by rewrite (ut_ordering _ _ U)|
      by rewrite (ut_callback _ _ U)|done].
  - intros arb Hp all. by apply zero_inv.
  - intros arb Hp all i ds s alts _ Hr E Hs. rewrite res_build_alternatives in E. by eapply built_inv.
Defined.

#[global, refine] Instance res_port_driver :
  ArbiterDriver (UacpiNtResCallbacks env mmconfig CmResourceTypePort) (library_policy wfuel) wfuel := {|
  drv_requirements := res_requirements wfuel;
  drv_slots arb Hp := res_port_slots env mmconfig arb wfuel (proj1 Hp) (proj1 (proj2 Hp))
|}.
Proof using L A.
  - intros arb arb' U (H1 & H2 & H3). split_and!; [by rewrite (ut_ordering _ _ U)|
      by rewrite (ut_callback _ _ U)|done].
  - intros arb Hp all. split; [by apply zero_inv|constructor].
  - intros arb Hp all i ds s alts _ Hr E Hs. rewrite res_build_alternatives in E.
    split; [by eapply built_inv|]. by eapply built_lengths; [apply Hr| |].
Defined.
End ResDrivers.

(** ** Port placements and mirrors do not collide *)

Lemma port_exclusive_clear env ents K st :
  exclusive_request env ents K st -> port_good env ents K st ->
  Forall (fun k => ~ meets (st_Start st) (st_End st) k) K /\
  forall a, st_alt st = Some a ->
    Forall (fun al => Forall (fun k => key_Owner k <> NULL ->
              ~ meets al (al + alt_Length a - 1) k) K) (mirrors st a).
Proof.
  intros (a & Ha & Hne & Hsh & Hfx & Hnull & Hav & Hms)
    (a' & C & Ha' & HC & _ & _ & _ & _ & Hp & Hm).
  assert (a' = a) as -> by congruence. rewrite <- HC in Hms. rewrite Forall_map in Hms. split.
  - rewrite <- HC.
    destruct Hp as [|_ _ HF|c _ Hin Hc|_ Hf _]; [done| |rewrite Forall_forall in Hms; by apply (Hms c Hin) in Hc|congruence].
    apply Forall_map. eapply Forall_impl; [exact HF|]. simpl. intros c Hpast Hmt.
    rewrite Hav in Hpast. unfold find_flags in Hpast. rewrite Hsh, Hnull in Hpast.
    specialize (Hpast Hmt) as [H|[ [H _]|[ [H _]|H] ] ]; [|done|done|done].
    unfold has_flag in H. by rewrite Z.land_0_r in H.
  - intros a1 Ha1. assert (a1 = a) as -> by congruence.
    eapply Forall_impl; [exact Hm|]. simpl. intros al [HF|[Hf _]]; [|congruence].
    rewrite <- HC. apply Forall_map. eapply Forall_impl; [exact HF|]. simpl.
    intros c Hpast Hown Hmt. rewrite Hav in Hpast. unfold alias_flags in Hpast. rewrite Hsh in Hpast.
    specialize (Hpast Hmt) as [H|[ [H _]|[ [_ H]|H] ] ]; [|done|done|done].
    unfold has_flag in H. by rewrite Z.land_0_r in H.
Qed.

(** After a successful search of the port arbiter, the placement of an
    exclusive request meets no range the tentative list held and no placement or
    decode mirror of an entry before it; and none of its own decode mirrors
    meets a range of that kind that belongs to a device. *)
Theorem port_search_disjoint `{R : RtlRangeList} {L : RtlRangeListLaws R}
  {A : RtlPoolSuffices R} env mmconfig arb wfuel N fuel stack ents w idx :
  ol_wf (ar_OrderingList arb) -> ar_ConflictCallback arb = None ->
  map st_Entry stack = map Some idx ++ [None] -> NoDup idx ->
  Forall (fun i => (i < length ents)%nat) idx -> Forall (port_inv arb wfuel) stack ->
  (forall n, (N <= n)%nat -> hard_deadline w < w_clock w n) -> (N < fuel)%nat ->
  exists s e,
  ArbiterLibAllocateEntry (UacpiNtResCallbacks env mmconfig CmResourceTypePort)
    fuel wfuel arb stack ents w = Return s e /\
  (NT_SUCCESS s = true ->
   forall k st a, take (length idx) (eg_stack e) !! k = Some st -> st_alt st = Some a ->
   exclusive_request env (eg_ents e) (keys_before (port_keys) (eg_ents e) (take k (eg_stack e)) (possible arb)) st ->
   forall key,
     (key ∈ possible arb \/
      exists j st' a', (j < k)%nat /\ eg_stack e !! j = Some st' /\ st_alt st' = Some a' /\
        alt_Length a' <> 0 /\ key ∈ port_keys (eg_ents e) st') ->
     ~ meets (st_Start st) (st_End st) key /\
     (key_Owner key <> NULL ->
      Forall (fun al => ~ meets al (al + alt_Length a - 1) key) (mirrors st a))).
Proof.
  intros W Hcb Hsh Hnd Hlt Hi HN Hf.
  pose (S_ := res_port_slots env mmconfig arb wfuel W Hcb).
  destruct (allocate_entry_solved (S_ := S_) N fuel stack ents w idx Hsh Hnd Hlt Hi HN Hf)
    as (s & e & E & _ & _ & Hsol).
  exists s, e. split; [done|]. intros Hs k st a Hk Ha Hex key Hkey.
  destruct (Hsol Hs) as [_ Hch _ _].
  destruct (chain_lookup _ _ _ _ _ Hch Hk) as (Hg & _ & _).
  assert (Hin : key ∈ recorded (S_ := S_) (eg_ents e) (possible arb)
                        (take k (take (length idx) (eg_stack e)))).
  { destruct Hkey as [Hkey|(j & st' & a' & Hj & Hl & Ha' & Hne & Hkey)]; [by apply recorded_base|].
    apply (recorded_earlier _ _ _ j st').
    - rewrite take_take, lookup_take_lt; [done|]. apply lookup_lt_Some in Hk.
      rewrite length_take in Hk. lia.
    - unfold placed_keys. rewrite Ha'. apply Z.eqb_neq in Hne. by rewrite Hne. }
  pose proof Hk as Hkl. apply lookup_lt_Some in Hkl. rewrite length_take in Hkl.
  pose proof (recorded_keys_before (S_ := S_) (eg_ents e) (possible arb) (eg_stack e) (length idx) k ltac:(lia)) as HP.
  assert (exclusive_request env (eg_ents e) (recorded (S_ := S_) (eg_ents e) (possible arb) (take k (take (length idx) (eg_stack e)))) st) as Hex'.
  { destruct Hex as (a1 & ? & ? & ? & ? & ? & ? & HF). exists a1. split_and!; try done. by rewrite HP. }
  destruct (port_exclusive_clear _ _ _ _ Hex' Hg) as [H1 H2]. rewrite Forall_forall in H1.
  split; [by apply H1|]. intros Hown. eapply Forall_impl; [exact (H2 a Ha)|]. simpl.
  intros al HF. rewrite Forall_forall in HF. by apply HF.
Qed.

(** ** Witnesses *)

#[local] Existing Instance ref_range_list.

Definition port_alt (flags mn mx len al : Z) : ARBITER_ALTERNATIVE :=
  let w := mkIoWindow len al mn mx in
  mkAlt mn mx len al ARBITER_PRIORITY_NULL 0
    (mkIo 0 CmResourceTypePort 0 flags w w (mkIoBus 0 0 0) (mkIoInterrupt 0 0 0) no_connection).

Definition port_callbacks : ARBITER_CALLBACKS :=
  UacpiNtResCallbacks quiet_env [] CmResourceTypePort.

Definition port_entry (pdo : PVOID) : ARBITER_LIST_ENTRY :=
  mkEntry [bus_requirement 0 0 0] pdo ArbiterRequestPnpEnumerated 0 0 (Some blank_cm) None
    ArbiterResultUndefined.

(** Device 7 is a 10-bit card; device 8 decodes all bits and its window covers a
    mirror of the card. *)
Definition port_stack : list ARBITER_ALLOCATION_STATE :=
  [fresh_state 0 [port_alt CM_RESOURCE_PORT_10_BIT_DECODE 0x100 0x11F 8 8];
   fresh_state 1 [port_alt 0 0x500 0x51F 8 8]; st_zero].
Definition port_ents : list ARBITER_LIST_ENTRY := [port_entry 7; port_entry 8].
#[local] Abbreviation port_run :=
  (ArbiterLibAllocateEntry port_callbacks 200 200 sample_arbiter port_stack port_ents
     ticking_world).

Lemma port_stack_inv : Forall (port_inv sample_arbiter 200) port_stack.
Proof.
  repeat constructor; simpl; try done; try (unfold is_u64, is_ulong, ULONGLONG_MAX; lia);
    try (by left); vm_compute; lia.
Qed.

Lemma port_search_disjoint_witness :
  option_map (fun p => p.1) (turn_places port_run) =
    Some (STATUS_SUCCESS, [(0x118, 0x11F); (0x510, 0x517); (0, 0)]) /\
  exists s e, port_run = Return s e.
Proof.
  split; [vm_compute; reflexivity|].
  destruct (port_search_disjoint (L := ref_range_list_laws) (A := ref_pool_suffices)
              quiet_env [] sample_arbiter 200 102 200 port_stack port_ents ticking_world
              [0%nat; 1%nat] sample_arbiter_ol eq_refl) as (s & e & E & _); [done|..].
  - apply (bool_decide_unpack _). vm_compute. done.
  - repeat constructor.
  - apply port_stack_inv.
  - apply ticking_deadline.
  - lia.
  - exists s, e. exact E.
Defined.

(** A 10-bit card that may sit at 0x100 or at 0x108; device 9 holds a mirror of
    the second place. *)
Definition card_state : ARBITER_ALLOCATION_STATE :=
  mkState 1 0 0x100 0x10F (Some 0%nat) (Some 0%nat)
    [port_alt CM_RESOURCE_PORT_10_BIT_DECODE 0x100 0x10F 8 8] 0 0 0 0.

Lemma card_state_inv : port_inv sample_arbiter 200 card_state /\ window_in card_state.
Proof.
  split; [split; [split; [split|]|]|].
  - repeat constructor; simpl; try done; unfold is_u64, ULONGLONG_MAX; lia.
  - right. repeat constructor; simpl; try done.
  - vm_compute. lia.
  - repeat constructor; unfold is_ulong; simpl; lia.
  - exists (port_alt CM_RESOURCE_PORT_10_BIT_DECODE 0x100 0x10F 8 8). by split_and!.
Qed.

Lemma port_find_correct_witness :
  exists b arb' st' ring',
    UacpiNtResPortFindSuitableRange quiet_env [] sample_arbiter [port_entry 7] card_state empty_ring
      = (b, arb', st', ring') /\ b = true /\ st_Start st' = 0x108.
Proof.
  destruct (port_find_correct (L := ref_range_list_laws) quiet_env [] sample_arbiter 200 eq_refl
              sample_arbiter [port_entry 7] card_state empty_ring (same_books_refl _)
              (proj1 card_state_inv) (proj2 card_state_inv))
    as (b & arb' & st' & ring' & _ & E & _ & _ & _).
  exists b, arb', st', ring'. split; [exact E|].
  assert (H : (UacpiNtResPortFindSuitableRange quiet_env [] sample_arbiter [port_entry 7]
                 card_state empty_ring).1.1.1 = true /\
              st_Start (UacpiNtResPortFindSuitableRange quiet_env [] sample_arbiter [port_entry 7]
                 card_state empty_ring).1.2 = 0x108) by (vm_compute; split; reflexivity).
  rewrite E in H. exact H.
Defined.

(** The port finder steps upwards past a placement whose mirrors are
    taken, while the search inside a window goes downwards (the retry of
    ArbiterLibAllocateEntry lowers the top of the window below the placement).
    With a range list that answers the highest place, the card is refused
    because device 9 holds a mirror of 0x108, although 0x100 and all its
    mirrors are free. *)
Theorem port_finder_skips_lower_placements :
  (UacpiNtResPortFindSuitableRange quiet_env [] (busy_arbiter 9 0x508 0x50F) [port_entry 7]
     card_state empty_ring).1.1.1 = false /\
  (UacpiNtResPortFindSuitableRange quiet_env [] (busy_arbiter 9 0x508 0x50F) [port_entry 7]
     (st_set_window 0x100 0x107 card_state) empty_ring).1.1.1 = true.
Proof. vm_compute. split; reflexivity. Qed.
