(* ===== verification/ResLifetime.v ===== *)
(** sys/resarb.c, the arbiters of a module device: built on the first query,
    handed out through the arbiter interface, torn down with the device. *)
From stdpp Require Import base list numbers option sorting strings.
From Stdlib Require Import ZArith Lia Permutation.
From S2P Require Import Prelude NtEnv RangeListRef ArbTypes Ordering RangeWalk.
From S2P Require Import Entry DefaultSlots Transaction Handler Lifetime ResTranslate ResSlots.

Section ResLifetime.
Context `{R : RtlRangeList} {I : RtlInvertRanges R}.
Context (env : device_env) (reg : registry).

(** The slots UacpiNtInitRootArbiter fills; the library fills the rest. *)
Definition res_slot_table (mmconfig : mmconfig_table) (ResourceType : Z) : slot_table :=
  mkSlots UacpiNtResUnpackRequirement UacpiNtResPackResource UacpiNtResUnpackResource
    (Some UacpiNtResScoreRequirement) None None
    (if ResourceType =? CmResourceTypeMemory
     then Some (fun arb ents st =>
            without_ring (UacpiNtResFindSuitableRange env mmconfig arb ents st empty_ring))
     else if ResourceType =? CmResourceTypePort
     then Some (fun arb ents st =>
            without_ring (UacpiNtResPortFindSuitableRange env mmconfig arb ents st empty_ring))
     else None)
    (if ResourceType =? CmResourceTypePort then Some UacpiNtResPortAddAllocation else None)
    (if ResourceType =? CmResourceTypePort then Some UacpiNtResPortBacktrackAllocation else None)
    None.

(** [crs] is the device's _CRS as uacpi_get_current_resources gives it; the
    MMCONFIG table is the library's. *)
Definition UacpiNtInitRootArbiter (crs : option (list uacpi_resource)) (ResourceType WindowType : Z)
  (mmconfig : mmconfig_table) (w : world) : NTSTATUS * instance * mmconfig_table * world :=
  let '(Status, i, w) :=
    ArbiterLibInitializeInstance (res_slot_table mmconfig ResourceType) None reg "Root"
      (blank_instance ResourceType None) w in
  if negb (NT_SUCCESS Status) then (Status, i, mmconfig, w)
  else
    let arb := UacpiNtSeedArbiter (in_arb i) crs WindowType in
    let '(arb, mmconfig, w) :=
      if ResourceType =? CmResourceTypeMemory then
        let '(_, l, w) :=
          ArbiterLibAddInaccessibleAllocationRange UacpiNtResUnpackRequirement ResourceType reg
            "Root" (ar_Allocation arb) w in
        let '(_, mmconfig, l, w) :=
          ArbiterLibAddMmConfigRangeAsBootReserved UacpiNtResUnpackRequirement ResourceType reg
            mmconfig l w in
        (ar_set_Allocation l arb, mmconfig, w)
      else (arb, mmconfig, w) in
    (STATUS_SUCCESS,
     mkInstance (in_MutexEvent i) (in_TransactionEvent i) (in_AllocationStack i)
       (in_Allocation i) (in_PossibleAllocation i) arb, mmconfig, w).

Record UACPINT_RES_ARBITERS := mkResArbiters {
  ra_Memory : instance;
  ra_Port : instance;
  ra_BusNumber : instance;
  ra_MemoryReady : bool;
  ra_PortReady : bool;
  ra_BusNumberReady : bool
}.

Context (sizeof_UACPINT_RES_ARBITERS : Z).

(** The result is the new Pdo->ResArb, [None] when the block could not be had. *)
Definition UacpiNtEnsureResArbiters (ResArb : option UACPINT_RES_ARBITERS)
  (crs : option (list uacpi_resource)) (mmconfig : mmconfig_table) (w : world)
  : option UACPINT_RES_ARBITERS * mmconfig_table * world :=
  match ResArb with
  | Some Arbiters => (Some Arbiters, mmconfig, w)
  | None =>
      let '(ok, w) := ExAllocatePoolWithTag sizeof_UACPINT_RES_ARBITERS w in
      if negb ok then (None, mmconfig, w)
      else
        let '(s1, Memory, mmconfig, w) :=
          UacpiNtInitRootArbiter crs CmResourceTypeMemory UACPI_RANGE_MEMORY mmconfig w in
        let '(s2, Port, mmconfig, w) :=
          UacpiNtInitRootArbiter crs CmResourceTypePort UACPI_RANGE_IO mmconfig w in
        let '(s3, BusNumber, mmconfig, w) :=
          UacpiNtInitRootArbiter crs CmResourceTypeBusNumber UACPI_RANGE_BUS mmconfig w in
        (Some (mkResArbiters Memory Port BusNumber (NT_SUCCESS s1) (NT_SUCCESS s2)
                 (NT_SUCCESS s3)), mmconfig, w)
  end.

Definition delete_if (Ready : bool) (i : instance) (w : world) : world :=
  if Ready then (ArbiterLibDeleteInstance i w).2 else w.

Definition UacpiNtResArbiterTeardown (ResArb : option UACPINT_RES_ARBITERS) (w : world)
  : option UACPINT_RES_ARBITERS * world :=
  match ResArb with
  | None => (None, w)
  | Some a =>
      let w := delete_if (ra_MemoryReady a) (ra_Memory a) w in
      let w := delete_if (ra_PortReady a) (ra_Port a) w in
      let w := delete_if (ra_BusNumberReady a) (ra_BusNumber a) w in
      (None, ExFreePoolWithTag w)
  end.

(** ** The query *)

(** What the query reads of the device: its hardware id, whether its node has a
    _CRS child, and what _CRS evaluates to. *)
Record UACPINT_PDO := mkPdo {
  pdo_Hid : string;
  pdo_HasCrs : bool;
  pdo_Crs : option (list uacpi_resource);
  pdo_ResArb : option UACPINT_RES_ARBITERS
}.

Definition UacpiNtResArbOwner (Pdo : UACPINT_PDO) : bool :=
  if negb (String.eqb (string_upper (pdo_Hid Pdo)) "ACPI0004") then false
  else pdo_HasCrs Pdo.

(** Which of the three instances the interface's Context names. *)
Inductive res_context := ContextMemory | ContextPort | ContextBusNumber.

Record ARBITER_INTERFACE := mkInterface {
  if_Size : Z; if_Version : Z; if_Context : res_context; if_Flags : Z }.

Context (sizeof_ARBITER_INTERFACE : Z).

Definition UacpiNtQueryResArbiter (Enabled : bool) (Pdo : UACPINT_PDO) (ResourceType Size : Z)
  (mmconfig : mmconfig_table) (w : world)
  : NTSTATUS * option ARBITER_INTERFACE * UACPINT_PDO * mmconfig_table * world :=
  if negb Enabled || negb (UacpiNtResArbOwner Pdo) then
    (STATUS_NOT_SUPPORTED, None, Pdo, mmconfig, w)
  else if negb (ResourceType =? CmResourceTypeMemory) &&
          negb (ResourceType =? CmResourceTypePort) &&
          negb (ResourceType =? CmResourceTypeBusNumber) then
    (STATUS_NOT_SUPPORTED, None, Pdo, mmconfig, w)
  else if Size <? sizeof_ARBITER_INTERFACE then
    (STATUS_BUFFER_TOO_SMALL, None, Pdo, mmconfig, w)
  else
    let '(ResArb, mmconfig, w) :=
      UacpiNtEnsureResArbiters (pdo_ResArb Pdo) (pdo_Crs Pdo) mmconfig w in
    let Pdo := mkPdo (pdo_Hid Pdo) (pdo_HasCrs Pdo) (pdo_Crs Pdo) ResArb in
    match ResArb with
    | None => (STATUS_NOT_SUPPORTED, None, Pdo, mmconfig, w)
    | Some Arbiters =>
        let Instance :=
          if ResourceType =? CmResourceTypeMemory then
            if ra_MemoryReady Arbiters then Some ContextMemory else None
          else if ResourceType =? CmResourceTypePort then
            if ra_PortReady Arbiters then Some ContextPort else None
          else if ra_BusNumberReady Arbiters then Some ContextBusNumber else None in
        match Instance with
        | None => (STATUS_NOT_SUPPORTED, None, Pdo, mmconfig, w)
        | Some c => (STATUS_SUCCESS, Some (mkInterface sizeof_ARBITER_INTERFACE 1 c 0), Pdo,
                     mmconfig, w)
        end
    end.
End ResLifetime.

(** ** The slots after the library has filled the rest *)

(** The slots of an initialised arbiter are those the search theorems are about. *)
Lemma res_slots_filled `{R : RtlRangeList} env mmconfig rt :
  fill_slots env mmconfig (res_slot_table env mmconfig rt) = UacpiNtResCallbacks env mmconfig rt.
Proof.
  unfold fill_slots, res_slot_table, UacpiNtResCallbacks. cbn [sl_UnpackRequirement sl_PackResource
    sl_UnpackResource sl_ScoreRequirement sl_PreprocessEntry sl_GetNextAllocationRange
    sl_FindSuitableRange sl_AddAllocation sl_BacktrackAllocation sl_OverrideConflict].
  destruct (rt =? CmResourceTypeMemory), (rt =? CmResourceTypePort); reflexivity.
Qed.

(** ** Pool accounting of the registry walks that only touch range lists *)

Section WalkPool.
Context {S_ : Type} (unpack : IO_RESOURCE_DESCRIPTOR -> NTSTATUS * (Z * Z * Z * Z)) (rt : Z)
  (cb : S_ * world -> Z -> Z -> S_ * world).
Context (Inv : S_ -> Prop).
Context (cb_ok : forall acc s e, Inv acc.1 -> Inv (cb acc s e).1 /\ (cb acc s e).2 = acc.2).

Lemma walk_descriptors_pool ds n c len acc :
  Inv acc.1 ->
  Inv (walk_descriptors unpack rt None cb ds n c len acc).1 /\
  (walk_descriptors unpack rt None cb ds n c len acc).2 = acc.2.
Proof using cb_ok.
  revert n acc. induction ds as [|d ds IH]; simpl; intros n acc Hi; [done|].
  destruct (c <=? n); [done|]. destruct (len <? _); [done|]. simpl.
  destruct (negb (ArbpDescriptorMatchesArbiter rt (io_Type d))); [by apply IH|].
  destruct (unpack d) as [s [[[mn mx] l] al]]. destruct (negb _); [done|].
  destruct (cb_ok acc mn mx Hi) as [H1 <-]. by apply IH.
Qed.

Lemma foreach_pool reg sub val acc st acc' :
  Inv acc.1 ->
  ArbpForEachRegistryRange unpack rt None cb snd (fun w acc => (acc.1, w)) reg sub val acc
    = (st, acc') ->
  Inv acc'.1 /\ w_live acc'.2 = w_live acc.2.
Proof using cb_ok.
  intros Hi. unfold ArbpForEachRegistryRange. destruct (negb _); [by intros [= _ <-]|].
  destruct (ArbpReadPolicyValue reg sub val acc.2) as [[st1 v] w1] eqn:E1.
  apply read_policy_live in E1.
  match goal with |- context [let '(_, _) := ?m in _] => destruct m as [v2 w2] eqn:E2 end.
  assert (H2 : w_live w2 = w_live acc.2 + match v2 with Some _ => 1 | None => 0 end).
  { destruct v as [v|]; [|by simplify_eq].
    destruct (kv_Data v) as [chars| |]; try by simplify_eq.
    destruct (_ && _); [|by simplify_eq].
    destruct (ArbpReadPolicyValue reg sub (sz_name chars) w1) as [[st3 t] w3] eqn:E3.
    apply read_policy_live in E3. destruct t; simplify_eq; simpl; lia. }
  intros [= _ <-].
  match goal with |- Inv (match v2 with Some _ => (?m.1, _) | None => _ end).1 /\ _ =>
    set (acc1 := m) end.
  assert (Hmid : Inv acc1.1 /\ acc1.2 = w2).
  { unfold acc1. destruct v2 as [v2|]; [|done]. destruct (kv_Data v2) as [|Count ds|]; try done.
    destruct (_ <=? _); [|done]. by apply (walk_descriptors_pool ds 0 Count _ (acc.1, w2)). }
  destruct Hmid as [Hp Hb]. destruct v2; simpl; (split; [done|]); try rewrite Hb; simpl; lia.
Qed.
End WalkPool.

Section ResLifetimeFacts.
Context `{R : RtlRangeList} {L : RtlRangeListLaws R} {I : RtlInvertRanges R}.
Context (env : device_env) (reg : registry) (size : Z).

(** Ranges only ever come on top of the list. *)
Definition on_top (l l' : RTL_RANGE_LIST) : Prop := exists C, rl_cores l' ≡ₚ C ++ rl_cores l.

Lemma on_top_add l0 l a b attrs ud owner :
  on_top l0 l -> on_top l0 (RtlAddRange l a b attrs RTL_RANGE_LIST_ADD_IF_CONFLICT ud owner).2.
Proof using L.
  intros [C HC]. destruct (RtlAddRange _ _ _ _ _ _ _) as [s l'] eqn:E.
  assert (Hfl : has_flag RTL_RANGE_LIST_ADD_IF_CONFLICT RTL_RANGE_LIST_ADD_IF_CONFLICT = true) by done.
  pose proof (rl_add_ranges _ _ _ _ _ _ _ _ _ Hfl E) as H. simpl.
  destruct (NT_SUCCESS s); [|exists C; by rewrite H].
  exists (((a, b, owner), attrs, false) :: C). simpl. by rewrite H, HC.
Qed.

Lemma inaccessible_pool rt l w s l' w' :
  ArbiterLibAddInaccessibleAllocationRange UacpiNtResUnpackRequirement rt reg "Root" l w = (s, l', w') ->
  on_top l l' /\ w_live w' = w_live w.
Proof using L.
  unfold ArbiterLibAddInaccessibleAllocationRange.
  destruct (ArbpForEachRegistryRange _ _ _ _ _ _ _ _ _ _) as [st [l1 w1]] eqn:E.
  intros [= _ <- <-].
  apply (foreach_pool _ _ _ (on_top l)) in E; [done| |by exists []].
  intros [l2 w2] a b H. simpl in *. split; [by apply on_top_add|done].
Qed.

Lemma mmconfig_pool rt t l w s t' l' w' :
  ArbiterLibAddMmConfigRangeAsBootReserved UacpiNtResUnpackRequirement rt reg t l w = (s, t', l', w') ->
  on_top l l' /\ w_live w' = w_live w.
Proof using L.
  unfold ArbiterLibAddMmConfigRangeAsBootReserved.
  destruct (ArbpForEachRegistryRange _ _ _ _ _ _ _ _ _ _) as [st [[t1 l1] w1]] eqn:E.
  intros [= _ _ <- <-].
  apply (foreach_pool _ _ _ (fun tl => on_top l tl.2)) in E; [done| |by exists []].
  intros [[t2 l2] w2] a b H. simpl in *. split; [by apply on_top_add|done].
Qed.

Lemma res_unpack_u64 d st mn mx len al :
  UacpiNtResUnpackRequirement d = (st, (mn, mx, len, al)) -> NT_SUCCESS st = true ->
  is_u64 mn /\ is_u64 mx.
Proof using. intros E Hs. apply unpack_requirement_outcome in E. rewrite Hs in E. tauto. Qed.

(** What a successful UacpiNtInitRootArbiter leaves: a complete instance whose
    committed list is the seeded one with ranges on top (none for ports and bus
    numbers); its pool blocks are all accounted for, and a failure keeps none. *)
Definition root_ready (crs : option (list uacpi_resource)) (rt wt : Z) (i : instance) : Prop :=
  exists i0, instance_ready i0 /\ instance_blocks i = instance_blocks i0 /\
    ar_OrderingList (in_arb i) = ar_OrderingList (in_arb i0) /\
    ar_ConflictCallback (in_arb i) = ar_ConflictCallback (in_arb i0) /\
    on_top (ar_Allocation (UacpiNtSeedArbiter (in_arb i0) crs wt)) (ar_Allocation (in_arb i)) /\
    (rt <> CmResourceTypeMemory ->
     ar_Allocation (in_arb i) = ar_Allocation (UacpiNtSeedArbiter (in_arb i0) crs wt)).

Lemma seed_arbiter_frame arb crs wt :
  exists l, UacpiNtSeedArbiter arb crs wt = ar_set_Allocation l arb.
Proof using.
  unfold UacpiNtSeedArbiter. repeat case_goal; try (by eexists);
    exists (ar_Allocation arb); by destruct arb.
Qed.

Lemma init_root_outcome crs rt wt mm w s i mm' w' :
  UacpiNtInitRootArbiter env reg crs rt wt mm w = (s, i, mm', w') ->
  (if NT_SUCCESS s then root_ready crs rt wt i else instance_blocks i = 0) /\
  w_live w' = w_live w + instance_blocks i.
Proof using L.
  unfold UacpiNtInitRootArbiter.
  destruct (ArbiterLibInitializeInstance _ _ _ _ _ _) as [[s0 i0] w0] eqn:E0.
  pose proof (initialize_instance_outcome (res_slot_table env mm rt) None reg "Root" res_unpack_u64
                rt None w _ E0) as H0. unfold init_outcome in H0. simpl in H0.
  destruct (NT_SUCCESS s0) eqn:Es0; cbn [negb].
  2:{ intros [= <- <- <- <-]. rewrite Es0. destruct H0 as [H1 H2]. split; [done|lia]. }
  destruct H0 as [Hr Hl]. destruct (seed_arbiter_frame (in_arb i0) crs wt) as [l0 El].
  set (arb1 := UacpiNtSeedArbiter (in_arb i0) crs wt) in *.
  assert (Hsame : forall l, instance_blocks (mkInstance (in_MutexEvent i0) (in_TransactionEvent i0)
    (in_AllocationStack i0) (in_Allocation i0) (in_PossibleAllocation i0)
    (ar_set_Allocation l arb1)) = instance_blocks i0) by (intros l; rewrite El; done).
  destruct (rt =? CmResourceTypeMemory) eqn:Ert.
  - destruct (ArbiterLibAddInaccessibleAllocationRange _ _ _ _ _ _) as [[s1 l1] w1] eqn:E1.
    destruct (ArbiterLibAddMmConfigRangeAsBootReserved _ _ _ _ _ _) as [[[s2 t2] l2] w2] eqn:E2.
    apply inaccessible_pool in E1 as [[C1 T1] L1]. apply mmconfig_pool in E2 as [[C2 T2] L2].
    intros [= <- <- <- <-]. simpl. split; [|rewrite Hsame; lia].
    exists i0. rewrite Hsame. split_and!; try done; try (by rewrite El).
    + exists (C2 ++ C1). simpl. by rewrite T2, T1, app_assoc.
    + bool_prop. by intros [].
  - intros [= <- <- <- <-]. simpl.
    assert (Hs2 : instance_blocks (mkInstance (in_MutexEvent i0) (in_TransactionEvent i0)
      (in_AllocationStack i0) (in_Allocation i0) (in_PossibleAllocation i0) arb1)
      = instance_blocks i0) by (by rewrite El).
    split; [|rewrite Hs2; lia]. exists i0. split_and!; try done; try (by rewrite El). by exists [].
Qed.

(** What an arbiter set holds of the pool besides its own block. *)
Definition ready_blocks (b : bool) (i : instance) : Z := if b then instance_blocks i else 0.
Definition arbiters_blocks (a : UACPINT_RES_ARBITERS) : Z :=
  ready_blocks (ra_MemoryReady a) (ra_Memory a) + ready_blocks (ra_PortReady a) (ra_Port a) +
  ready_blocks (ra_BusNumberReady a) (ra_BusNumber a) + 1.

Lemma delete_if_live b i w : w_live (delete_if b i w) = w_live w - ready_blocks b i.
Proof using.
  unfold delete_if, ready_blocks. destruct b; [|lia].
  destruct (ArbiterLibDeleteInstance i w) as [i' w'] eqn:E.
  apply delete_instance_live in E as [H _]. done.
Qed.

Lemma teardown_live a w : w_live (UacpiNtResArbiterTeardown (Some a) w).2 = w_live w - arbiters_blocks a.
Proof using. unfold arbiters_blocks. simpl. rewrite !delete_if_live. lia. Qed.

Lemma ensure_live crs mm w ra mm' w' :
  UacpiNtEnsureResArbiters env reg size None crs mm w = (ra, mm', w') ->
  w_live w' = w_live w + match ra with Some a => arbiters_blocks a | None => 0 end.
Proof using L.
  unfold UacpiNtEnsureResArbiters, ExAllocatePoolWithTag.
  destruct (w_pool w (w_allocs w) size); simpl; [|intros [= <- _ <-]; simpl; lia].
  set (w0 := mkWorld _ _ _ _ _).
  destruct (UacpiNtInitRootArbiter env reg crs CmResourceTypeMemory _ mm w0) as [[[s1 i1] m1] w1] eqn:E1.
  destruct (UacpiNtInitRootArbiter env reg crs CmResourceTypePort _ m1 w1) as [[[s2 i2] m2] w2] eqn:E2.
  destruct (UacpiNtInitRootArbiter env reg crs CmResourceTypeBusNumber _ m2 w2) as [[[s3 i3] m3] w3] eqn:E3.
  apply init_root_outcome in E1 as [H1 L1]. apply init_root_outcome in E2 as [H2 L2].
  apply init_root_outcome in E3 as [H3 L3]. intros [= <- _ <-].
  unfold arbiters_blocks, ready_blocks. simpl in *.
  destruct (NT_SUCCESS s1), (NT_SUCCESS s2), (NT_SUCCESS s3); lia.
Qed.

(** Building the three arbiters of a module device and tearing them down
    again leaves the pool as it was, whichever allocations were refused in
    between and however many of the arbiters could not be initialised; a second
    query builds nothing. *)
Theorem res_arbiters_no_leak crs mm w ra mm' w' :
  UacpiNtEnsureResArbiters env reg size None crs mm w = (ra, mm', w') ->
  (UacpiNtResArbiterTeardown ra w').1 = None /\
  w_live (UacpiNtResArbiterTeardown ra w').2 = w_live w /\
  (is_Some ra -> UacpiNtEnsureResArbiters env reg size ra crs mm' w' = (ra, mm', w')).
Proof using L.
  intros E. apply ensure_live in E. destruct ra as [a|].
  - split_and!; [done| |done]. rewrite teardown_live. lia.
  - split_and!; [done|simpl; lia|by intros [? [=]]].
Qed.


(** The instance a resource type names, and whether it is ready. *)
Definition context_of (rt : Z) : res_context :=
  if rt =? CmResourceTypeMemory then ContextMemory
  else if rt =? CmResourceTypePort then ContextPort else ContextBusNumber.
Definition ready_of (rt : Z) (a : UACPINT_RES_ARBITERS) : bool :=
  match context_of rt with
  | ContextMemory => ra_MemoryReady a
  | ContextPort => ra_PortReady a
  | ContextBusNumber => ra_BusNumberReady a
  end.
Definition res_arbiter_type (rt : Z) : Prop :=
  rt = CmResourceTypeMemory \/ rt = CmResourceTypePort \/ rt = CmResourceTypeBusNumber.

(** UacpiNtQueryResArbiter answers with the arbiter of the type asked for,
    and only for a module device with a _CRS, a type it arbitrates, a buffer
    that is large enough and an arbiter that initialised; a query it refuses
    before that leaves the device alone. *)
Theorem query_res_arbiter_answers isize enabled Pdo rt sz mm w s itf Pdo' mm' w' :
  UacpiNtQueryResArbiter env reg size isize enabled Pdo rt sz mm w = (s, itf, Pdo', mm', w') ->
  let admitted := enabled = true /\ UacpiNtResArbOwner Pdo = true /\ res_arbiter_type rt /\ isize <= sz in
  (NT_SUCCESS s = true <->
   admitted /\ exists a, pdo_ResArb Pdo' = Some a /\ ready_of rt a = true /\
     itf = Some (mkInterface isize 1 (context_of rt) 0)) /\
  (NT_SUCCESS s = false -> itf = None) /\
  (~ admitted -> Pdo' = Pdo /\ mm' = mm /\ w' = w) /\
  (admitted -> (pdo_ResArb Pdo', mm', w') =
     UacpiNtEnsureResArbiters env reg size (pdo_ResArb Pdo) (pdo_Crs Pdo) mm w).
Proof using.
  unfold UacpiNtQueryResArbiter, res_arbiter_type, ready_of, context_of. simpl.
  destruct enabled; simpl; [|intros [= <- <- <- <- <-]; naive_solver].
  destruct (UacpiNtResArbOwner Pdo); simpl; [|intros [= <- <- <- <- <-]; naive_solver].
  destruct (negb (rt =? CmResourceTypeMemory) && _ && _) eqn:Et.
  { bool_prop. intros [= <- <- <- <- <-]. naive_solver. }
  assert (Hrt : rt = CmResourceTypeMemory \/ rt = CmResourceTypePort \/ rt = CmResourceTypeBusNumber).
  { destruct (Z.eqb_spec rt CmResourceTypeMemory); [by left|].
    destruct (Z.eqb_spec rt CmResourceTypePort); [right; by left|].
    destruct (Z.eqb_spec rt CmResourceTypeBusNumber); [right; by right|done]. }
  destruct (sz <? isize) eqn:Esz; bool_prop.
  { intros [= <- <- <- <- <-]. split_and!; try done; naive_solver lia. }
  destruct (UacpiNtEnsureResArbiters _ _ _ _ _ _ _) as [[ra mm1] w1].
  destruct ra as [a|].
  2:{ intros [= <- <- <- <- <-]. simpl. split_and!; try done; naive_solver. }
  clear Et. destruct (rt =? CmResourceTypeMemory) eqn:E1; [destruct (ra_MemoryReady a) eqn:Er|
    destruct (rt =? CmResourceTypePort) eqn:E2; [destruct (ra_PortReady a) eqn:Er|
      destruct (ra_BusNumberReady a) eqn:Er]];
    intros [= <- <- <- <- <-]; simpl; rewrite ?Er; split_and!; try done;
    try (split; [|done]; intros _; split; [done|]; by exists a);
    try (split; [done|]; intros (_ & a' & [= <-] & Hra & _); rewrite ?Er in Hra; done); naive_solver.
Qed.
End ResLifetimeFacts.

(** ** Witnesses *)

#[local] Existing Instance ref_range_list.
#[local] Existing Instance ref_invert.

#[local] Abbreviation ensure_run :=
  (UacpiNtEnsureResArbiters quiet_env sample_registry 4096 None (Some sample_crs) [] sample_world).

Lemma res_arbiters_no_leak_witness :
  option_map arbiters_blocks ensure_run.1.1 = Some 22 /\
  w_live (UacpiNtResArbiterTeardown ensure_run.1.1 ensure_run.2).2 = w_live sample_world.
Proof.
  split; [vm_compute; reflexivity|].
  destruct ensure_run as [[ra mm] w'] eqn:E.
  destruct (res_arbiters_no_leak (L := ref_range_list_laws) quiet_env sample_registry 4096
              (Some sample_crs) [] sample_world ra mm w' E) as (_ & H & _).
  exact H.
Defined.

#[local] Abbreviation io_run :=
  (UacpiNtInitRootArbiter quiet_env sample_registry (Some sample_crs) CmResourceTypePort
     UACPI_RANGE_IO [] sample_world).


Definition module_device : UACPINT_PDO := mkPdo "acpi0004" true (Some sample_crs) None.
#[local] Abbreviation query_arbiter_run :=
  (UacpiNtQueryResArbiter quiet_env sample_registry 4096 48 true module_device
     CmResourceTypePort 48 [] sample_world).

Lemma query_res_arbiter_answers_witness :
  query_arbiter_run.1.1.1.1 = STATUS_SUCCESS /\
  query_arbiter_run.1.1.1.2 = Some (mkInterface 48 1 ContextPort 0).
Proof.
  assert (Hs : query_arbiter_run.1.1.1.1 = STATUS_SUCCESS) by (vm_compute; reflexivity).
  split; [exact Hs|]. destruct query_arbiter_run as [[[[s itf] Pdo'] mm'] w'] eqn:E. simpl in Hs |- *.
  destruct (query_res_arbiter_answers quiet_env sample_registry 4096 48 true module_device
              CmResourceTypePort 48 [] sample_world s itf Pdo' mm' w' E) as [[H _] _].
  rewrite Hs in H. destruct (H eq_refl) as [_ (a & _ & _ & ->)]. reflexivity.
Defined.
