(* ===== verification/Resource.v ===== *)
(** sys/resource.c: how the driver turns a _CRS or _PRS template into the NT
    lists the PnP manager and the arbiters work on; with it the descriptor
    translation of sys/reshub.c, which supplies the connection descriptors.

    Both lists are built in two passes over the same template, one that counts
    and one that fills a buffer of exactly that many slots.  A buffer is a list
    and an access past its end is [Fault], so that filling it without a fault is
    a theorem, not an assumption. *)
From stdpp Require Import base list numbers option sorting strings.
From Stdlib Require Import ZArith Lia Permutation.
From S2P Require Import Prelude NtEnv RangeListRef ArbTypes Ordering RangeWalk.
From S2P Require Import Entry DefaultSlots Transaction Handler ResTranslate.
From S2P Require Import Bytes.

(** ** Buffers *)

(** A descriptor pointer: NULL on the counting pass, a buffer and a position in
    it on the filling pass. *)
Definition cursor (A : Type) := option (list A * nat).

(** ** Address windows and interrupts *)

Definition UACPI_CONSUMER : Z := 1.
Definition UACPI_SHARED : Z := 1.
Definition UACPI_TRIGGERING_EDGE : Z := 1.
Definition CM_RESOURCE_INTERRUPT_LEVEL_SENSITIVE : Z := 0.
Definition CM_RESOURCE_INTERRUPT_LATCHED : Z := 1.
Definition CM_RESOURCE_MEMORY_READ_WRITE : Z := 0.
Definition CM_RESOURCE_MEMORY_LARGE_40 : Z := 0x0200.
Definition CM_RESOURCE_PORT_IO : Z := 1.

Record UACPINT_ADDRESS_WINDOW := mkWindow {
  aw_WindowType : Z; aw_Direction : Z; aw_Start : Z; aw_Length : Z }.

Definition window_of (a : uacpi_address) : UACPINT_ADDRESS_WINDOW :=
  mkWindow (ad_type a) (ad_direction a) (ad_minimum a) (ad_address_length a).

Definition UacpiNtGetAddressWindow (Resource : uacpi_resource) : bool * UACPINT_ADDRESS_WINDOW :=
  match Resource with
  | UACPI_RESOURCE_TYPE_ADDRESS16 a => (true, window_of a)
  | UACPI_RESOURCE_TYPE_ADDRESS32 a => (true, window_of a)
  | UACPI_RESOURCE_TYPE_ADDRESS64 a => (true, window_of a)
  | UACPI_RESOURCE_TYPE_ADDRESS64_EXTENDED a => (true, window_of a)
  | _ => (false, mkWindow 0 0 0 0)
  end.

(** The count, the triggering and the sharing. *)
Definition UacpiNtGetInterrupts (Resource : uacpi_resource) : nat * Z * Z :=
  match Resource with
  | UACPI_RESOURCE_TYPE_IRQ i | UACPI_RESOURCE_TYPE_EXTENDED_IRQ i =>
      (length (iq_irqs i), iq_triggering i, iq_sharing i)
  | _ => (0%nat, 0, 0)
  end.

Definition UacpiNtGetInterrupt (Resource : uacpi_resource) (Index : nat) : run Z :=
  match Resource with
  | UACPI_RESOURCE_TYPE_IRQ i | UACPI_RESOURCE_TYPE_EXTENDED_IRQ i =>
      load (iq_irqs i) (Z.of_nat Index)
  | _ => Fault
  end.

Definition share_of (Sharing : Z) : Z :=
  if Sharing =? UACPI_SHARED then CmResourceShareShared else CmResourceShareDeviceExclusive.

Definition mode_of (Triggering : Z) : Z :=
  if Triggering =? UACPI_TRIGGERING_EDGE then CM_RESOURCE_INTERRUPT_LATCHED
  else CM_RESOURCE_INTERRUPT_LEVEL_SENSITIVE.

(** ** Assigned descriptors *)

(** What RtlZeroMemory leaves. *)
Definition zero_cm : CM_PARTIAL_RESOURCE_DESCRIPTOR :=
  mkCm 0 0 0 (mkCmWindow 0 0) (mkCmWindow 0 0) (mkCmWindow 0 0) (mkCmInterrupt 0 0 0) no_connection.

Definition cm_port (Start Length : Z) : CM_PARTIAL_RESOURCE_DESCRIPTOR :=
  mkCm CmResourceTypePort CmResourceShareDeviceExclusive CM_RESOURCE_PORT_IO
    (mkCmWindow Start Length) (cm_Memory zero_cm) (cm_BusNumber zero_cm) (cm_Interrupt zero_cm)
    no_connection.

Definition cm_memory (Type' Flags Start Length : Z) : CM_PARTIAL_RESOURCE_DESCRIPTOR :=
  mkCm Type' CmResourceShareDeviceExclusive Flags
    (cm_Port zero_cm) (mkCmWindow Start Length) (cm_BusNumber zero_cm) (cm_Interrupt zero_cm)
    no_connection.

Definition cm_bus (Start Length : Z) : CM_PARTIAL_RESOURCE_DESCRIPTOR :=
  mkCm CmResourceTypeBusNumber CmResourceShareDeviceExclusive 0
    (cm_Port zero_cm) (cm_Memory zero_cm) (mkCmWindow Start Length) (cm_Interrupt zero_cm)
    no_connection.

Definition cm_irq (Sharing Triggering Vector : Z) : CM_PARTIAL_RESOURCE_DESCRIPTOR :=
  mkCm CmResourceTypeInterrupt (share_of Sharing) (mode_of Triggering)
    (cm_Port zero_cm) (cm_Memory zero_cm) (cm_BusNumber zero_cm)
    (mkCmInterrupt Vector Vector ULONGLONG_MAX) no_connection.

(** The descriptor of an address window that is not empty. *)
Definition cm_of_window (Window : UACPINT_ADDRESS_WINDOW) : CM_PARTIAL_RESOURCE_DESCRIPTOR :=
  if aw_WindowType Window =? UACPI_RANGE_MEMORY then
    if aw_Length Window <=? 0xFFFFFFFF then
      cm_memory CmResourceTypeMemory CM_RESOURCE_MEMORY_READ_WRITE
        (aw_Start Window) (u32 (aw_Length Window))
    else
      cm_memory CmResourceTypeMemoryLarge
        (set_flag CM_RESOURCE_MEMORY_READ_WRITE CM_RESOURCE_MEMORY_LARGE_40)
        (aw_Start Window) (u32 (Z.shiftr (aw_Length Window) 8))
  else if aw_WindowType Window =? UACPI_RANGE_IO then
    cm_port (aw_Start Window) (u32 (aw_Length Window))
  else cm_bus (u32 (aw_Start Window)) (u32 (aw_Length Window)).

(** One descriptor, or the count of one without a cursor. *)
Definition put_one {A} (Descriptor : cursor A) (a : A) : run (nat * cursor A) :=
  match Descriptor with
  | None => Done (1%nat, None)
  | Some (buf, pos) => buf ← store buf pos a; Done (1%nat, Some (buf, pos))
  end.

Definition UacpiNtEmitCm (Resource : uacpi_resource)
  (Descriptor : cursor CM_PARTIAL_RESOURCE_DESCRIPTOR)
  : run (nat * cursor CM_PARTIAL_RESOURCE_DESCRIPTOR) :=
  match Resource with
  | UACPI_RESOURCE_TYPE_IRQ _ | UACPI_RESOURCE_TYPE_EXTENDED_IRQ _ =>
      let '(Count, Triggering, Sharing) := UacpiNtGetInterrupts Resource in
      match Descriptor with
      | None => Done (Count, None)
      | Some (buf, pos) =>
          buf ← for_loop Count 0 (fun i buf =>
                  Vector ← UacpiNtGetInterrupt Resource i;
                  store buf (pos + i) (cm_irq Sharing Triggering Vector)) buf;
          Done (Count, Some (buf, pos))
      end
  | UACPI_RESOURCE_TYPE_IO p => put_one Descriptor (cm_port (sp_minimum p) (sp_length p))
  | UACPI_RESOURCE_TYPE_FIXED_IO p => put_one Descriptor (cm_port (fs_address p) (fs_length p))
  | UACPI_RESOURCE_TYPE_MEMORY32 p =>
      put_one Descriptor (cm_memory CmResourceTypeMemory CM_RESOURCE_MEMORY_READ_WRITE
                            (sp_minimum p) (sp_length p))
  | UACPI_RESOURCE_TYPE_FIXED_MEMORY32 p =>
      put_one Descriptor (cm_memory CmResourceTypeMemory CM_RESOURCE_MEMORY_READ_WRITE
                            (fs_address p) (fs_length p))
  | UACPI_RESOURCE_TYPE_ADDRESS16 _ | UACPI_RESOURCE_TYPE_ADDRESS32 _
  | UACPI_RESOURCE_TYPE_ADDRESS64 _ | UACPI_RESOURCE_TYPE_ADDRESS64_EXTENDED _ =>
      let Window := (UacpiNtGetAddressWindow Resource).2 in
      if aw_Length Window =? 0 then Done (0%nat, Descriptor)
      else put_one Descriptor (cm_of_window Window)
  | UACPI_RESOURCE_TYPE_START_DEPENDENT | UACPI_RESOURCE_TYPE_END_DEPENDENT
  | UACPI_RESOURCE_TYPE_OTHER => Done (0%nat, Descriptor)
  end.

(** ** Required descriptors *)

Definition zero_window : io_window := mkIoWindow 0 0 0 0.

Definition zero_io : IO_RESOURCE_DESCRIPTOR :=
  mkIo 0 0 0 0 zero_window zero_window (mkIoBus 0 0 0) (mkIoInterrupt 0 0 0) no_connection.

(** [Start .. Start + Length - 1] and nothing else. *)
Definition fixed_window (Start Length Units : Z) : io_window :=
  mkIoWindow Units 1 Start (Start +u Length -u 1).

Definition io_port (Start Length : Z) : IO_RESOURCE_DESCRIPTOR :=
  mkIo 0 CmResourceTypePort CmResourceShareDeviceExclusive CM_RESOURCE_PORT_IO
    (fixed_window Start Length (u32 Length)) zero_window (mkIoBus 0 0 0) (mkIoInterrupt 0 0 0)
    no_connection.

Definition io_memory (Type' Flags Start Length Units : Z) : IO_RESOURCE_DESCRIPTOR :=
  mkIo 0 Type' CmResourceShareDeviceExclusive Flags zero_window
    (fixed_window Start Length Units) (mkIoBus 0 0 0) (mkIoInterrupt 0 0 0) no_connection.

Definition io_bus_number (Start Length : Z) : IO_RESOURCE_DESCRIPTOR :=
  mkIo 0 CmResourceTypeBusNumber CmResourceShareDeviceExclusive 0 zero_window zero_window
    (mkIoBus (u32 Length) (u32 Start) (u32 (Start +u Length -u 1))) (mkIoInterrupt 0 0 0)
    no_connection.

Definition io_irq (Option' Sharing Triggering Vector : Z) : IO_RESOURCE_DESCRIPTOR :=
  mkIo Option' CmResourceTypeInterrupt (share_of Sharing) (mode_of Triggering)
    zero_window zero_window (mkIoBus 0 0 0) (mkIoInterrupt Vector Vector 0) no_connection.

Definition io_of_window (Window : UACPINT_ADDRESS_WINDOW) : IO_RESOURCE_DESCRIPTOR :=
  if (aw_WindowType Window =? UACPI_RANGE_MEMORY) && (aw_Length Window <=? 0xFFFFFFFF) then
    io_memory CmResourceTypeMemory CM_RESOURCE_MEMORY_READ_WRITE
      (aw_Start Window) (aw_Length Window) (u32 (aw_Length Window))
  else if aw_WindowType Window =? UACPI_RANGE_MEMORY then
    io_memory CmResourceTypeMemoryLarge
      (set_flag CM_RESOURCE_MEMORY_READ_WRITE CM_RESOURCE_MEMORY_LARGE_40)
      (aw_Start Window) (aw_Length Window) (u32 (Z.shiftr (aw_Length Window) 8))
  else if aw_WindowType Window =? UACPI_RANGE_IO then
    io_port (aw_Start Window) (aw_Length Window)
  else io_bus_number (aw_Start Window) (aw_Length Window).

(** The marker behind a producer window. *)
Definition private_marker : IO_RESOURCE_DESCRIPTOR :=
  mkIo 0 CmResourceTypeDevicePrivate 0 1 zero_window zero_window (mkIoBus 0 0 0)
    (mkIoInterrupt 0 0 0) no_connection.

Definition UacpiNtEmitIo (Resource : uacpi_resource) (Descriptor : cursor IO_RESOURCE_DESCRIPTOR)
  : run (nat * cursor IO_RESOURCE_DESCRIPTOR) :=
  match Resource with
  | UACPI_RESOURCE_TYPE_IRQ _ | UACPI_RESOURCE_TYPE_EXTENDED_IRQ _ =>
      let '(Count, Triggering, Sharing) := UacpiNtGetInterrupts Resource in
      match Descriptor with
      | None => Done (Count, None)
      | Some (buf, pos) =>
          buf ← for_loop Count 0 (fun i buf =>
                  Vector ← UacpiNtGetInterrupt Resource i;
                  store buf (pos + i)
                    (io_irq (if (i =? 0)%nat then 0 else IO_RESOURCE_ALTERNATIVE)
                       Sharing Triggering Vector)) buf;
          Done (Count, Some (buf, pos))
      end
  | UACPI_RESOURCE_TYPE_IO p => put_one Descriptor (io_port (sp_minimum p) (sp_length p))
  | UACPI_RESOURCE_TYPE_FIXED_IO p => put_one Descriptor (io_port (fs_address p) (fs_length p))
  | UACPI_RESOURCE_TYPE_MEMORY32 p =>
      put_one Descriptor (io_memory CmResourceTypeMemory CM_RESOURCE_MEMORY_READ_WRITE
                            (sp_minimum p) (sp_length p) (sp_length p))
  | UACPI_RESOURCE_TYPE_FIXED_MEMORY32 p =>
      put_one Descriptor (io_memory CmResourceTypeMemory CM_RESOURCE_MEMORY_READ_WRITE
                            (fs_address p) (fs_length p) (fs_length p))
  | UACPI_RESOURCE_TYPE_ADDRESS16 _ | UACPI_RESOURCE_TYPE_ADDRESS32 _
  | UACPI_RESOURCE_TYPE_ADDRESS64 _ | UACPI_RESOURCE_TYPE_ADDRESS64_EXTENDED _ =>
      let Window := (UacpiNtGetAddressWindow Resource).2 in
      if aw_Length Window =? 0 then Done (0%nat, Descriptor)
      else
        let Count := if aw_Direction Window =? UACPI_PRODUCER then 2%nat else 1%nat in
        match Descriptor with
        | None => Done (Count, None)
        | Some (buf, pos) =>
            buf ← store buf pos (io_of_window Window);
            buf ← (if (Count =? 2)%nat then store buf (pos + 1) private_marker else Done buf);
            Done (Count, Some (buf, pos))
        end
  | UACPI_RESOURCE_TYPE_START_DEPENDENT | UACPI_RESOURCE_TYPE_END_DEPENDENT
  | UACPI_RESOURCE_TYPE_OTHER => Done (0%nat, Descriptor)
  end.

(** ** Connection descriptors *)

Definition UACPINT_RES_LARGE_ITEM : Z := 0x80.
Definition UACPINT_RES_SMALL_NAME_MASK : Z := 0x78.
Definition UACPINT_RES_SMALL_END_TAG : Z := 0x78.
Definition UACPINT_RES_SMALL_LENGTH_MASK : Z := 0x07.
Definition UACPINT_RES_SMALL_HEADER_SIZE : Z := 1.
Definition UACPINT_RES_LARGE_HEADER_SIZE : Z := 3.

Definition GPIO_INTERRUPT_IO_DESCRIPTOR : Z := 0x8c.
Definition FUNCTION_CONFIG_DESCRIPTOR : Z := 0x8d.
Definition SERIAL_BUS_DESCRIPTOR : Z := 0x8e.

Definition STATUS_BUFFER_TOO_SMALL : NTSTATUS := 0xC0000023.
Definition STATUS_NOT_FOUND : NTSTATUS := 0xC0000225.

(** [Length] is [View.length], the size of the object; every byte the code
    looks at is loaded from the buffer. *)
Definition UacpiNtRawItemLength (Buffer : list Z) (Length Offset : Z) : run Z :=
  let bounded (ItemLength : Z) :=
    Done (if Length <? Offset +u ItemLength then 0 else ItemLength) in
  b0 ← load Buffer Offset;
  if negb (has_flag b0 UACPINT_RES_LARGE_ITEM) then
    if Z.land b0 UACPINT_RES_SMALL_NAME_MASK =? UACPINT_RES_SMALL_END_TAG then Done 0
    else bounded (Z.land b0 UACPINT_RES_SMALL_LENGTH_MASK + UACPINT_RES_SMALL_HEADER_SIZE)
  else if Length <? Offset +u UACPINT_RES_LARGE_HEADER_SIZE then Done 0
  else
    b1 ← load Buffer (Offset + 1);
    b2 ← load Buffer (Offset + 2);
    bounded (Z.lor b1 (Z.shiftl b2 8) + UACPINT_RES_LARGE_HEADER_SIZE).

(** The world around the lists.  The interpreter and the hub answer from their
    own state, which other threads change: the [n]-th evaluation of _CRS to a
    buffer, whether the hub interface is bound at the [n]-th look, and what its
    TranslateDescriptor gives for the [n]-th look, a descriptor and a buffer of
    some size (the status, the translation and the size it asks for). *)
Record conn_env := mkConnEnv {
  ce_crs : nat -> option (option (list Z));
  ce_valid : nat -> bool;
  ce_translate : nat -> list Z -> Z -> NTSTATUS * IO_RESOURCE_DESCRIPTOR * Z
}.

(** [cx_held] counts the interpreter objects held, [cx_world] the pool. *)
Record conn_state := mkConn {
  cx_evals : nat; cx_asks : nat; cx_held : Z; cx_world : world }.

Definition cx_hold (d : Z) (st : conn_state) : conn_state :=
  mkConn (cx_evals st) (cx_asks st) (cx_held st + d) (cx_world st).
Definition cx_ask (st : conn_state) : conn_state :=
  mkConn (cx_evals st) (S (cx_asks st)) (cx_held st) (cx_world st).
Definition cx_set_world (w : world) (st : conn_state) : conn_state :=
  mkConn (cx_evals st) (cx_asks st) (cx_held st) w.

Definition UACPINT_TRANSLATION_BUFFER_SIZE : Z := 120.

Section Connections.
Context (env : conn_env).

(** Up to [n] attempts; the hub may ask for a bigger buffer. *)
Fixpoint translate_attempts (n : nat) (Descriptor : list Z) (Size : Z) (Status : NTSTATUS)
  (Io : IO_RESOURCE_DESCRIPTOR) (st : conn_state)
  : NTSTATUS * IO_RESOURCE_DESCRIPTOR * conn_state :=
  match n with
  | O => (Status, Io, st)
  | S n =>
      let '(Result, w) := ExAllocatePoolWithTag Size (cx_world st) in
      if negb Result then (STATUS_INSUFFICIENT_RESOURCES, Io, cx_set_world w st)
      else
        let '(Status, d, Size) := ce_translate env (cx_asks st) Descriptor Size in
        let Io := if NT_SUCCESS Status then d else Io in
        let st := cx_ask (cx_set_world (ExFreePoolWithTag w) st) in
        if negb (Status =? STATUS_BUFFER_TOO_SMALL) || (Size =? 0) then (Status, Io, st)
        else translate_attempts n Descriptor Size Status Io st
  end.

Definition UacpiNtTranslateConnectionDescriptor (Descriptor : list Z)
  (IoDescriptor : IO_RESOURCE_DESCRIPTOR) (st : conn_state)
  : NTSTATUS * IO_RESOURCE_DESCRIPTOR * conn_state :=
  let Valid := ce_valid env (cx_asks st) in
  let st := cx_ask st in
  if negb Valid then (STATUS_NOT_SUPPORTED, IoDescriptor, st)
  else translate_attempts 2 Descriptor UACPINT_TRANSLATION_BUFFER_SIZE STATUS_NOT_SUPPORTED
         IoDescriptor st.

Definition UacpiNtConnectionIoToCm (Io : IO_RESOURCE_DESCRIPTOR) : CM_PARTIAL_RESOURCE_DESCRIPTOR :=
  mkCm CmResourceTypeConnection (io_ShareDisposition Io) (io_Flags Io)
    (cm_Port zero_cm) (cm_Memory zero_cm) (cm_BusNumber zero_cm) (cm_Interrupt zero_cm)
    (mkConnection (cn_Class (io_Connection Io)) (cn_Type (io_Connection Io))
       (cn_IdLowPart (io_Connection Io)) (cn_IdHighPart (io_Connection Io))).

Definition is_connection (b : Z) : bool :=
  (b =? GPIO_INTERRUPT_IO_DESCRIPTOR) || (b =? FUNCTION_CONFIG_DESCRIPTOR) ||
  (b =? SERIAL_BUS_DESCRIPTOR).

(** A write at [Cursor[Count]], when the caller passed a cursor. *)
Definition store_at {A} (Cursor : cursor A) (Count : nat) (a : A) : run (cursor A) :=
  match Cursor with
  | None => Done None
  | Some (buf, pos) => buf ← store buf (pos + Count) a; Done (Some (buf, pos))
  end.

(** The loop over the items of the raw template.  Every turn takes an item of at
    least one byte, so as many turns as there are bytes are enough. *)
Fixpoint walk_items (fuel : nat) (Buffer : list Z) (Offset : Z) (Count : nat)
  (Io : cursor IO_RESOURCE_DESCRIPTOR) (Cm : cursor CM_PARTIAL_RESOURCE_DESCRIPTOR)
  (st : conn_state)
  : run (nat * cursor IO_RESOURCE_DESCRIPTOR * cursor CM_PARTIAL_RESOURCE_DESCRIPTOR * conn_state) :=
  if negb (Offset <? Z.of_nat (length Buffer)) then Done (Count, Io, Cm, st)
  else
    match fuel with
    | O => Fault
    | S fuel =>
        ItemLength ← UacpiNtRawItemLength Buffer (Z.of_nat (length Buffer)) Offset;
        if ItemLength =? 0 then Done (Count, Io, Cm, st)
        else
          b ← load Buffer Offset;
          if negb (is_connection b) then
            walk_items fuel Buffer (Offset +u ItemLength) Count Io Cm st
          else
            let Item := take (Z.to_nat ItemLength) (drop (Z.to_nat Offset) Buffer) in
            let '(Status, Translated, st) :=
              UacpiNtTranslateConnectionDescriptor Item zero_io st in
            if negb (NT_SUCCESS Status) then
              walk_items fuel Buffer (Offset +u ItemLength) Count Io Cm st
            else
              Io ← store_at Io Count Translated;
              Cm ← store_at Cm Count (UacpiNtConnectionIoToCm Translated);
              walk_items fuel Buffer (Offset +u ItemLength) (S Count) Io Cm st
    end.

Definition UacpiNtWalkCrsConnections (Io : cursor IO_RESOURCE_DESCRIPTOR)
  (Cm : cursor CM_PARTIAL_RESOURCE_DESCRIPTOR) (st : conn_state)
  : run (nat * cursor IO_RESOURCE_DESCRIPTOR * cursor CM_PARTIAL_RESOURCE_DESCRIPTOR * conn_state) :=
  let Object := ce_crs env (cx_evals st) in
  let st := mkConn (S (cx_evals st)) (cx_asks st) (cx_held st) (cx_world st) in
  match Object with
  | None => Done (0%nat, Io, Cm, st)
  | Some None => Done (0%nat, Io, Cm, cx_hold (-1) (cx_hold 1 st))
  | Some (Some Buffer) =>
      '(Count, Io, Cm, st) ← walk_items (length Buffer) Buffer 0 0 Io Cm (cx_hold 1 st);
      Done (Count, Io, Cm, cx_hold (-1) st)
  end.

Definition UacpiNtCrsConnectionCount (st : conn_state) : run (nat * conn_state) :=
  '(Count, _, _, st) ← UacpiNtWalkCrsConnections None None st; Done (Count, st).

Definition UacpiNtCrsEmitConnections (Descriptors : cursor IO_RESOURCE_DESCRIPTOR) (st : conn_state)
  : run (nat * cursor IO_RESOURCE_DESCRIPTOR * conn_state) :=
  '(Count, Io, _, st) ← UacpiNtWalkCrsConnections Descriptors None st; Done (Count, Io, st).

Definition UacpiNtCrsEmitConnectionsCm (Descriptors : cursor CM_PARTIAL_RESOURCE_DESCRIPTOR)
  (st : conn_state) : run (nat * cursor CM_PARTIAL_RESOURCE_DESCRIPTOR * conn_state) :=
  '(Count, _, Cm, st) ← UacpiNtWalkCrsConnections None Descriptors st; Done (Count, Cm, st).

(** ** The lists *)

(** The counting loop over the entries of a template. *)
Fixpoint count_pass {A} (emit : uacpi_resource -> cursor A -> run (nat * cursor A))
  (Resources : list uacpi_resource) (Count : Z) : run Z :=
  match Resources with
  | [] => Done Count
  | Resource :: Resources =>
      '(n, _) ← emit Resource None; count_pass emit Resources (u32 (Count + Z.of_nat n))
  end.

(** The filling loop: [Descriptor += ...]. *)
Fixpoint fill_pass {A} (emit : uacpi_resource -> cursor A -> run (nat * cursor A))
  (Resources : list uacpi_resource) (buf : list A) (pos : nat) : run (list A * nat) :=
  match Resources with
  | [] => Done (buf, pos)
  | Resource :: Resources =>
      '(n, c) ← emit Resource (Some (buf, pos));
      match c with
      | Some (buf, pos) => fill_pass emit Resources buf (pos + n)%nat
      | None => Fault
      end
  end.

Definition InterfaceTypeInternal : Z := 0.

Record CM_RESOURCE_LIST := mkCmList {
  crl_Count : Z; crl_InterfaceType : Z; crl_BusNumber : Z; crl_Version : Z; crl_Revision : Z;
  crl_PartialCount : Z; crl_PartialDescriptors : list CM_PARTIAL_RESOURCE_DESCRIPTOR }.

Record IO_RESOURCE_REQUIREMENTS_LIST := mkIoList {
  irl_ListSize : Z; irl_InterfaceType : Z; irl_BusNumber : Z; irl_AlternativeLists : Z;
  irl_Version : Z; irl_Revision : Z; irl_Count : Z;
  irl_Descriptors : list IO_RESOURCE_DESCRIPTOR }.

(** The fixed part of each list and the size of a descriptor. *)
Definition CM_LIST_HEADER : Z := 20.
Definition CM_DESCRIPTOR_SIZE : Z := 20.
Definition IO_LIST_HEADER : Z := 40.
Definition IO_DESCRIPTOR_SIZE : Z := 32.

(** [Resources] is what uacpi_get_current_resources gave, [None] for a failure
    or no list; [DeviceObject] whether the caller named a device. *)
Definition UacpiNtCrsToCmList (Resources : option (list uacpi_resource)) (DeviceObject : bool)
  (st : conn_state) : run (NTSTATUS * option CM_RESOURCE_LIST * conn_state) :=
  match Resources with
  | None => Done (STATUS_NOT_FOUND, None, st)
  | Some entries =>
      let st := cx_hold 1 st in
      Count ← count_pass UacpiNtEmitCm entries 0;
      '(Connections, st) ← (if DeviceObject then UacpiNtCrsConnectionCount st else Done (0%nat, st));
      let Count := u32 (Count + Z.of_nat Connections) in
      if Count =? 0 then Done (STATUS_NOT_FOUND, None, cx_hold (-1) st)
      else
        let Size := u64 (CM_LIST_HEADER + Count * CM_DESCRIPTOR_SIZE) in
        let '(List, w) := ExAllocatePoolWithTag Size (cx_world st) in
        let st := cx_set_world w st in
        if negb List then Done (STATUS_INSUFFICIENT_RESOURCES, None, cx_hold (-1) st)
        else
          '(buf, pos) ← fill_pass UacpiNtEmitCm entries (replicate (Z.to_nat Count) zero_cm) 0;
          '(buf, st) ← (if (Connections =? 0)%nat then Done (buf, st)
                        else '(_, c, st) ← UacpiNtCrsEmitConnectionsCm (Some (buf, pos)) st;
                             Done (match c with Some (buf, _) => buf | None => buf end, st));
          Done (STATUS_SUCCESS, Some (mkCmList 1 InterfaceTypeInternal 0 1 1 Count buf),
                cx_hold (-1) st)
  end.

(** [Resources] is what uacpi_get_possible_resources gave when [Possible],
    uacpi_get_current_resources otherwise. *)
Definition UacpiNtPrsToRequirements (Possible : bool) (Resources : option (list uacpi_resource))
  (DeviceObject : bool) (st : conn_state)
  : run (NTSTATUS * option IO_RESOURCE_REQUIREMENTS_LIST * conn_state) :=
  match Resources with
  | None => Done (STATUS_NOT_FOUND, None, st)
  | Some entries =>
      let st := cx_hold 1 st in
      Count ← count_pass UacpiNtEmitIo entries 0;
      '(Connections, st) ← (if negb Possible && DeviceObject then UacpiNtCrsConnectionCount st
                            else Done (0%nat, st));
      let Count := u32 (Count + Z.of_nat Connections) in
      if Count =? 0 then Done (STATUS_NOT_FOUND, None, cx_hold (-1) st)
      else
        let Size := u64 (IO_LIST_HEADER + Count * IO_DESCRIPTOR_SIZE) in
        let '(List, w) := ExAllocatePoolWithTag Size (cx_world st) in
        let st := cx_set_world w st in
        if negb List then Done (STATUS_INSUFFICIENT_RESOURCES, None, cx_hold (-1) st)
        else
          '(buf, pos) ← fill_pass UacpiNtEmitIo entries (replicate (Z.to_nat Count) zero_io) 0;
          '(buf, st) ← (if (Connections =? 0)%nat then Done (buf, st)
                        else '(_, c, st) ← UacpiNtCrsEmitConnections (Some (buf, pos)) st;
                             Done (match c with Some (buf, _) => buf | None => buf end, st));
          Done (STATUS_SUCCESS,
                Some (mkIoList (u32 Size) InterfaceTypeInternal 0 1 1 1 Count buf),
                cx_hold (-1) st)
  end.

Definition UacpiNtCrsToRequirements (Resources : option (list uacpi_resource)) (DeviceObject : bool)
  (st : conn_state) : run (NTSTATUS * option IO_RESOURCE_REQUIREMENTS_LIST * conn_state) :=
  UacpiNtPrsToRequirements false Resources DeviceObject st.
End Connections.

(** ** The two passes *)

(** The descriptors an entry stands for. *)
Definition irqs_of (Resource : uacpi_resource) : list Z :=
  match Resource with
  | UACPI_RESOURCE_TYPE_IRQ i | UACPI_RESOURCE_TYPE_EXTENDED_IRQ i => iq_irqs i
  | _ => []
  end.

Definition span_of (Resource : uacpi_resource) : option (Z * Z) :=
  match Resource with
  | UACPI_RESOURCE_TYPE_IO p | UACPI_RESOURCE_TYPE_MEMORY32 p => Some (sp_minimum p, sp_length p)
  | UACPI_RESOURCE_TYPE_FIXED_IO p | UACPI_RESOURCE_TYPE_FIXED_MEMORY32 p =>
      Some (fs_address p, fs_length p)
  | _ => None
  end.

Definition is_port_entry (Resource : uacpi_resource) : bool :=
  match Resource with
  | UACPI_RESOURCE_TYPE_IO _ | UACPI_RESOURCE_TYPE_FIXED_IO _ => true
  | _ => false
  end.

Definition cm_of (r : uacpi_resource) : list CM_PARTIAL_RESOURCE_DESCRIPTOR :=
  let '(_, t, sh) := UacpiNtGetInterrupts r in
  let '(has, W) := UacpiNtGetAddressWindow r in
  map (cm_irq sh t) (irqs_of r) ++
  match span_of r with
  | Some (s, n) =>
      [if is_port_entry r then cm_port s n
       else cm_memory CmResourceTypeMemory CM_RESOURCE_MEMORY_READ_WRITE s n]
  | None => if has && negb (aw_Length W =? 0) then [cm_of_window W] else []
  end.

Definition io_of (r : uacpi_resource) : list IO_RESOURCE_DESCRIPTOR :=
  let '(_, t, sh) := UacpiNtGetInterrupts r in
  let '(has, W) := UacpiNtGetAddressWindow r in
  imap (fun i => io_irq (if (i =? 0)%nat then 0 else IO_RESOURCE_ALTERNATIVE) sh t) (irqs_of r) ++
  match span_of r with
  | Some (s, n) =>
      [if is_port_entry r then io_port s n
       else io_memory CmResourceTypeMemory CM_RESOURCE_MEMORY_READ_WRITE s n n]
  | None =>
      if has && negb (aw_Length W =? 0)
      then io_of_window W :: (if aw_Direction W =? UACPI_PRODUCER then [private_marker] else [])
      else []
  end.

(** What both passes need of an emitter: without a buffer it gives the number
    of descriptors, with one it writes exactly those and moves nothing else. *)
Class Emitter {A} (emit : uacpi_resource -> cursor A -> run (nat * cursor A))
  (descriptors : uacpi_resource -> list A) : Prop := {
  emit_counts r : emit r None = Done (length (descriptors r), None);
  emit_fills r buf pos :
    (pos + length (descriptors r) <= length buf)%nat ->
    emit r (Some (buf, pos)) =
      Done (length (descriptors r), Some (list_inserts pos (descriptors r) buf, pos))
}.

Lemma store_done {A} (buf : list A) i a :
  (i < length buf)%nat -> store buf i a = Done (<[i := a]> buf).
Proof. intros H. unfold store. by rewrite decide_True. Qed.

(** A loop that stores one element a turn writes the list of them. *)
Lemma for_loop_stores {A} (body : nat -> list A -> run (list A)) pos (xs : list A) k buf :
  (forall i x buf, xs !! i = Some x -> body (k + i)%nat buf = store buf (pos + (k + i)) x) ->
  (pos + k + length xs <= length buf)%nat ->
  for_loop (length xs) k body buf = Done (list_inserts (pos + k) xs buf).
Proof.
  revert k buf. induction xs as [|x xs IH]; intros k buf Hb Hl; [done|]. simpl in Hl |- *.
  pose proof (Hb 0%nat x buf eq_refl) as H0. rewrite Nat.add_0_r in H0. rewrite H0.
  rewrite store_done by lia. simpl.
  rewrite (IH (S k)); [|intros i y b Hi; replace (S k + i)%nat with (k + S i)%nat by lia; by apply Hb
                       |rewrite length_insert; lia].
  f_equal. replace (pos + S k)%nat with (S (pos + k)) by lia.
  by rewrite list_insert_inserts_lt by lia.
Qed.

Lemma put_one_none {A} (a : A) : put_one None a = Done (1%nat, None).
Proof. done. Qed.

Lemma put_one_some {A} (a : A) buf pos :
  (pos + 1 <= length buf)%nat ->
  put_one (Some (buf, pos)) a = Done (1%nat, Some (list_inserts pos [a] buf, pos)).
Proof. intros H. unfold put_one. rewrite store_done by lia. done. Qed.

Lemma get_interrupt_load r i v : irqs_of r !! i = Some v -> UacpiNtGetInterrupt r i = Done v.
Proof. destruct r; try done; simpl; unfold load; rewrite Nat2Z.id; by intros ->. Qed.

#[global] Instance cm_emitter : Emitter UacpiNtEmitCm cm_of.
Proof.
  split.
  - intros r. destruct r; unfold cm_of; simpl; rewrite ?app_nil_r, ?length_map; try done;
      by destruct (_ =? 0).
  - intros r buf pos. destruct r as [i|i|p|p|p|p| | |a|a|a|a|] eqn:Er; unfold cm_of; simpl;
      rewrite ?app_nil_r, ?length_map; try done; try (apply put_one_some).
    1,2: intros Hl;
      rewrite <- (length_map (cm_irq (iq_sharing i) (iq_triggering i)));
      rewrite (for_loop_stores _ pos); rewrite ?length_map, ?Nat.add_0_r; try done; try lia;
      intros j x b Hx; simpl; rewrite list_lookup_fmap, fmap_Some in Hx;
      destruct Hx as (v & Hv & ->); unfold load; rewrite Nat2Z.id, Hv; done.
    all: destruct (_ =? 0); simpl; [done|apply put_one_some].
Qed.

#[global] Instance io_emitter : Emitter UacpiNtEmitIo io_of.
Proof.
  split.
  - intros r. destruct r; unfold io_of; simpl; rewrite ?app_nil_r, ?length_imap; try done;
      destruct (_ =? 0); try done; simpl; by destruct (_ =? UACPI_PRODUCER).
  - intros r buf pos. destruct r as [i|i|p|p|p|p| | |a|a|a|a|] eqn:Er; unfold io_of; simpl;
      rewrite ?app_nil_r, ?length_imap; try done; try (apply put_one_some).
    1,2: intros Hl;
      rewrite <- (length_imap (fun k => io_irq (if (k =? 0)%nat then 0 else IO_RESOURCE_ALTERNATIVE)
                                          (iq_sharing i) (iq_triggering i)));
      rewrite (for_loop_stores _ pos); rewrite ?length_imap, ?Nat.add_0_r; try done; try lia;
      intros j x b Hx; simpl; rewrite list_lookup_imap, fmap_Some in Hx;
      destruct Hx as (v & Hv & ->); unfold load; rewrite Nat2Z.id, Hv; done.
    all: destruct (_ =? 0); simpl; [done|]; destruct (_ =? UACPI_PRODUCER); simpl; intros Hl;
      rewrite store_done by lia; simpl; try done;
      rewrite store_done by (rewrite length_insert; lia); simpl;
      by rewrite Nat.add_comm, list_insert_insert_ne by lia.
Qed.

(** Everything a template stands for, in its order. *)
Definition all_descriptors {A} (descriptors : uacpi_resource -> list A)
  (rs : list uacpi_resource) : list A := concat (map descriptors rs).

Section Passes.
Context {A} {emit : uacpi_resource -> cursor A -> run (nat * cursor A)}
  {descriptors : uacpi_resource -> list A} `{E : !Emitter emit descriptors}.

Lemma count_pass_total rs c :
  0 <= c -> c + Z.of_nat (length (all_descriptors descriptors rs)) < 4294967296 ->
  count_pass emit rs c = Done (c + Z.of_nat (length (all_descriptors descriptors rs))).
Proof using E.
  unfold all_descriptors. revert c.
  induction rs as [|r rs IH]; simpl; intros c Hc Hlt; [f_equal; lia|].
  rewrite length_app in *. rewrite emit_counts. simpl. rewrite u32_small by lia.
  rewrite IH by lia. f_equal. lia.
Qed.

Lemma fill_pass_fills rs buf pos :
  (pos + length (all_descriptors descriptors rs) <= length buf)%nat ->
  fill_pass emit rs buf pos =
    Done (list_inserts pos (all_descriptors descriptors rs) buf, (pos + length (all_descriptors descriptors rs))%nat).
Proof using E.
  unfold all_descriptors. revert buf pos.
  induction rs as [|r rs IH]; simpl; intros buf pos Hl; [by rewrite Nat.add_0_r|].
  rewrite length_app in *. rewrite emit_fills by lia. simpl.
  rewrite IH by (rewrite length_inserts; lia).
  rewrite list_inserts_app_l. do 2 f_equal; [f_equal|]; lia.
Qed.
End Passes.

(** A buffer of [n] slots written from the start with [n] descriptors holds
    those. *)
Lemma inserts_all {A} (xs : list A) n z :
  length xs = n -> list_inserts 0 xs (replicate n z) = xs.
Proof.
  intros <-. rewrite <- (app_nil_r (replicate _ z)), list_inserts_0_r; [apply app_nil_r|].
  by rewrite length_replicate.
Qed.

(** ** The raw template *)

(** The length an item's header gives, read arithmetically: [None] at the end
    tag, and where the header itself is cut off. *)
Definition item_length (b : list Z) : option nat :=
  match b with
  | [] => None
  | b0 :: r =>
      if b0 <? 128 then
        if b0 / 8 =? 15 then None else Some (Z.to_nat (b0 mod 8 + 1))
      else match r with
           | b1 :: b2 :: _ => Some (Z.to_nat (b1 + 256 * b2 + 3))
           | _ => None
           end
  end.

(** An item is as long as its header says. *)
Definition framed (item : list Z) : Prop := item_length item = Some (length item).

(** No complete item starts here. *)
Definition stops (b : list Z) : Prop :=
  match item_length b with Some n => (length b < n)%nat | None => True end.

Fixpoint split_items (fuel : nat) (b : list Z) : list (list Z) :=
  match fuel with
  | O => []
  | S fuel =>
      match item_length b with
      | Some n => if (n <=? length b)%nat then take n b :: split_items fuel (drop n b) else []
      | None => []
      end
  end.

Definition raw_items (b : list Z) : list (list Z) := split_items (length b) b.

Lemma item_length_pos b n : Forall is_byte b -> item_length b = Some n -> (0 < n)%nat.
Proof.
  intros Hb. destruct b as [|b0 r]; [done|]. simpl. apply Forall_cons in Hb as [H0 Hr].
  destruct (b0 <? 128).
  - destruct (_ =? 15); [done|]. intros [= <-]. pose proof (Z.mod_pos_bound b0 8). lia.
  - destruct r as [|b1 [|b2 r]]; try done. intros [= <-].
    apply Forall_cons in Hr as [H1 Hr]. apply Forall_cons in Hr as [H2 _]. unfold is_byte in *. lia.
Qed.

(** The header is all that counts. *)
Lemma item_length_take b n : item_length b = Some n -> (n <= length b)%nat ->
  Forall is_byte b -> item_length (take n b) = Some n.
Proof.
  intros E Hn Hb. pose proof (item_length_pos _ _ Hb E) as Hp.
  destruct b as [|b0 r]; [done|]. destruct n as [|n]; [lia|]. simpl in *.
  destruct (b0 <? 128); [done|].
  destruct r as [|b1 [|b2 r]]; try done. apply Forall_cons in Hb as [_ Hb].
  apply Forall_cons in Hb as [H1 Hb]. apply Forall_cons in Hb as [H2 _]. unfold is_byte in *.
  destruct n as [|[|n]]; simpl in *; injection E; lia || done.
Qed.

Lemma split_items_correct fuel b :
  Forall is_byte b -> (length b <= fuel)%nat ->
  exists tail, b = concat (split_items fuel b) ++ tail /\ Forall framed (split_items fuel b) /\
               stops tail.
Proof.
  revert b. induction fuel as [|fuel IH]; intros b Hb Hl.
  - exists b. split_and!; try done. by destruct b; [|simpl in Hl; lia].
  - simpl. destruct (item_length b) as [n|] eqn:E;
      [|exists b; split_and!; try done; unfold stops; by rewrite E].
    destruct (n <=? length b)%nat eqn:En.
    + apply Nat.leb_le in En. pose proof (item_length_pos _ _ Hb E).
      destruct (IH (drop n b)) as (tail & Ht & Hf & Hs);
        [by apply Forall_drop|rewrite length_drop; lia|].
      exists tail. split_and!; [|constructor; [|done]|done].
      * simpl. by rewrite <- app_assoc, <- Ht, take_drop.
      * unfold framed. rewrite length_take, Nat.min_l by done. by apply item_length_take.
    + apply Nat.leb_gt in En. exists b. split_and!; try done. unfold stops. by rewrite E.
Qed.

Lemma byte_large b : is_byte b -> has_flag b UACPINT_RES_LARGE_ITEM = negb (b <? 128).
Proof.
  intros H. apply eqb_prop.
  exact (byte_check (fun b => eqb (has_flag b UACPINT_RES_LARGE_ITEM) (negb (b <? 128))) b eq_refl H).
Qed.

Lemma byte_end_tag b : is_byte b ->
  b <? 128 = true -> (Z.land b UACPINT_RES_SMALL_NAME_MASK =? UACPINT_RES_SMALL_END_TAG) = (b / 8 =? 15).
Proof.
  intros H Hs. apply eqb_prop.
  pose proof (byte_check (fun b => negb (b <? 128) ||
    eqb (Z.land b UACPINT_RES_SMALL_NAME_MASK =? UACPINT_RES_SMALL_END_TAG) (b / 8 =? 15))
    b eq_refl H) as E. cbv beta in E. by rewrite Hs in E.
Qed.

Lemma byte_small_length b : Z.land b UACPINT_RES_SMALL_LENGTH_MASK = b mod 8.
Proof. apply (Z.land_ones b 3). lia. Qed.

Lemma byte_large_length b1 b2 : is_byte b1 -> Z.lor b1 (Z.shiftl b2 8) = b1 + 256 * b2.
Proof.
  intros [H1 H2]. rewrite Z.shiftl_mul_pow2 by lia.
  assert (Z.land b1 (b2 * 2 ^ 8) = 0) as Hd.
  { apply Z.bits_inj'; intros n Hn; rewrite Z.land_spec, Z.bits_0.
    destruct (decide (n < 8)); [rewrite (Z.mul_pow2_bits_low b2 8 n) by lia; apply andb_false_r|].
    rewrite <- (Z.mod_small b1 (2 ^ 8)), Z.mod_pow2_bits_high by lia. done. }
  rewrite <- Z.lxor_lor, <- Z.add_nocarry_lxor by done. lia.
Qed.

(** The code reads the header the reference reads, and never past the end. *)
Lemma raw_item_length_spec Buffer Offset :
  Forall is_byte Buffer -> Z.of_nat (length Buffer) + 65538 <= ULONGLONG_MAX ->
  0 <= Offset < Z.of_nat (length Buffer) ->
  UacpiNtRawItemLength Buffer (Z.of_nat (length Buffer)) Offset =
    Done (match item_length (drop (Z.to_nat Offset) Buffer) with
          | Some n => if (n <=? length (drop (Z.to_nat Offset) Buffer))%nat then Z.of_nat n else 0
          | None => 0
          end).
Proof.
  intros Hb Hmax Ho. unfold UacpiNtRawItemLength. unfold ULONGLONG_MAX in Hmax.
  pose proof (Forall_drop _ (Z.to_nat Offset) _ Hb) as Hd.
  pose proof (length_drop Buffer (Z.to_nat Offset)) as Hl.
  pose proof (load_drop Buffer Offset 0) as L0. pose proof (load_drop Buffer Offset 1) as L1.
  pose proof (load_drop Buffer Offset 2) as L2. rewrite Z.add_0_r in L0.
  destruct (drop (Z.to_nat Offset) Buffer) as [|b0 r]; [simpl in Hl; lia|].
  apply Forall_cons in Hd as [H0 Hr]. rewrite (L0 b0) by (done || lia). simpl.
  rewrite byte_large by done. rewrite negb_involutive. destruct (b0 <? 128) eqn:Es.
  - rewrite byte_end_tag by done. destruct (_ =? 15) eqn:E15; [done|].
    rewrite byte_small_length. unfold UACPINT_RES_SMALL_HEADER_SIZE.
    pose proof (Z.mod_pos_bound b0 8). rewrite add64_small by (unfold is_u64, ULONGLONG_MAX; lia).
    f_equal. cbn [length] in *. destruct (Z.of_nat _ <? _) eqn:E1, (_ <=? _)%nat eqn:E2; bool_prop;
      apply Nat.leb_le in E2 || apply Nat.leb_gt in E2; lia.
  - unfold UACPINT_RES_LARGE_HEADER_SIZE. rewrite add64_small by (unfold is_u64, ULONGLONG_MAX; lia).
    destruct r as [|b1 [|b2 r]]; simpl in Hl.
    1,2: destruct (Z.of_nat _ <? _) eqn:E1; bool_prop; [done|lia].
    destruct (Z.of_nat _ <? _) eqn:E1; bool_prop; [lia|].
    rewrite (L1 b1), (L2 b2) by (done || lia). simpl.
    apply Forall_cons in Hr as [H1 Hr]. apply Forall_cons in Hr as [H2 _].
    rewrite byte_large_length by done. unfold is_byte in *.
    rewrite add64_small by (unfold is_u64, ULONGLONG_MAX; lia).
    f_equal. cbn [length] in *. destruct (Z.of_nat _ <? _) eqn:E3, (_ <=? _)%nat eqn:E2; bool_prop;
      apply Nat.leb_le in E2 || apply Nat.leb_gt in E2; lia.
Qed.

(** ** The walk over the connections *)

Section Walk.
Context (env : conn_env).

(** The hub asked about every connection item in turn; the answers it gave. *)
Fixpoint translate_all (items : list (list Z)) (st : conn_state)
  : list IO_RESOURCE_DESCRIPTOR * conn_state :=
  match items with
  | [] => ([], st)
  | item :: items =>
      if negb (is_connection (hd 0 item)) then translate_all items st
      else
        let '(Status, d, st) := UacpiNtTranslateConnectionDescriptor env item zero_io st in
        let '(ds, st) := translate_all items st in
        (if NT_SUCCESS Status then d :: ds else ds, st)
  end.

Definition room {A} (c : cursor A) (k n : nat) : Prop :=
  match c with Some (buf, pos) => (pos + k + n <= length buf)%nat | None => True end.

Definition fill_at {A} (c : cursor A) (k : nat) (xs : list A) : cursor A :=
  match c with Some (buf, pos) => Some (list_inserts (pos + k) xs buf, pos) | None => None end.

Lemma fill_at_nil {A} (c : cursor A) k : fill_at c k [] = c.
Proof. by destruct c as [[]|]. Qed.

Lemma store_at_done {A} (c : cursor A) k n a :
  room c k (S n) -> store_at c k a = Done (fill_at c k [a]).
Proof. destruct c as [[buf pos]|]; simpl; intros H; [|done]. by rewrite store_done by lia. Qed.

Lemma room_fill {A} (c : cursor A) k n a : room c k (S n) -> room (fill_at c k [a]) (S k) n.
Proof. destruct c as [[buf pos]|]; simpl; [|done]. rewrite length_insert. lia. Qed.

Lemma fill_at_cons {A} (c : cursor A) k a xs :
  fill_at (fill_at c k [a]) (S k) xs = fill_at c k (a :: xs).
Proof.
  destruct c as [[buf pos]|]; simpl; [|done]. rewrite list_insert_inserts_lt by lia.
  do 3 f_equal. lia.
Qed.

(** The first byte of an item is the byte at its offset. *)
Lemma load_item Buffer Offset n :
  0 <= Offset < Z.of_nat (length Buffer) -> (0 < n)%nat ->
  load Buffer Offset = Done (hd 0 (take n (drop (Z.to_nat Offset) Buffer))).
Proof.
  intros Ho Hn. unfold load. rewrite <- (Nat.add_0_r (Z.to_nat Offset)) at 1.
  rewrite <- lookup_drop. pose proof (length_drop Buffer (Z.to_nat Offset)).
  destruct (drop _ _); [simpl in *; lia|]. destruct n; [lia|done].
Qed.

(** The walk asks the hub about the connection items in their order and stores
    the answers one after the other, when there is room for them. *)
Lemma walk_items_spec Buffer fuel Offset Count Io Cm st :
  Forall is_byte Buffer -> Z.of_nat (length Buffer) + 65538 <= ULONGLONG_MAX -> 0 <= Offset ->
  (length (drop (Z.to_nat Offset) Buffer) <= fuel)%nat ->
  let r := translate_all (split_items fuel (drop (Z.to_nat Offset) Buffer)) st in
  room Io Count (length r.1) -> room Cm Count (length r.1) ->
  walk_items env fuel Buffer Offset Count Io Cm st =
    Done ((Count + length r.1)%nat, fill_at Io Count r.1,
          fill_at Cm Count (map UacpiNtConnectionIoToCm r.1), r.2).
Proof.
  intros Hb Hmax. revert Offset Count Io Cm st.
  induction fuel as [|fuel IH]; intros Offset Count Io Cm st Ho Hf; cbv zeta.
  - rewrite length_drop in Hf. simpl. intros _ _. rewrite !fill_at_nil, Nat.add_0_r.
    destruct (Offset <? _) eqn:E; bool_prop; [lia|done].
  - cbn [walk_items split_items]. destruct (Offset <? _) eqn:E; bool_prop; simpl.
    2: { rewrite drop_ge by lia. simpl. by rewrite !fill_at_nil, Nat.add_0_r. }
    rewrite raw_item_length_spec by (done || lia).
    pose proof (Forall_drop _ (Z.to_nat Offset) _ Hb) as Hd.
    destruct (item_length (drop _ _)) as [n|] eqn:En; simpl;
      [|by rewrite !fill_at_nil, Nat.add_0_r].
    destruct (n <=? _)%nat eqn:Enl; simpl; [|by rewrite !fill_at_nil, Nat.add_0_r].
    pose proof (item_length_pos _ _ Hd En) as Hp. apply Nat.leb_le in Enl.
    destruct (_ =? 0) eqn:E0; bool_prop; [lia|]. rewrite length_drop in *.
    unfold ULONGLONG_MAX in Hmax.
    rewrite Nat2Z.id, (load_item _ _ n) by lia.
    rewrite add64_small by (unfold is_u64, ULONGLONG_MAX; lia).
    rewrite drop_drop. replace (Z.to_nat Offset + n)%nat with (Z.to_nat (Offset + Z.of_nat n)) by lia.
    specialize (IH (Offset + Z.of_nat n)). rewrite length_drop in IH. simpl.
    destruct (is_connection _); simpl; [|apply IH; lia].
    destruct (UacpiNtTranslateConnectionDescriptor env _ zero_io st) as [[s d] st1].
    pose proof (fun C I M => IH C I M st1 ltac:(lia) ltac:(lia)) as IH1. cbv zeta in IH1. clear IH.
    destruct (translate_all _ st1) as [ds st2]. destruct (NT_SUCCESS s); simpl; intros HI HC;
      [|by apply IH1].
    rewrite (store_at_done Io Count (length ds)), (store_at_done Cm Count (length ds)) by done.
    simpl. rewrite IH1 by (by apply room_fill). rewrite !fill_at_cons. do 4 f_equal. simpl. lia.
Qed.

(** *** What a walk leaves behind *)

(** No interpreter object and no pool block is kept. *)
Definition quiet (st st' : conn_state) : Prop :=
  cx_held st' = cx_held st /\ w_live (cx_world st') = w_live (cx_world st) /\
  w_pool (cx_world st') = w_pool (cx_world st).

Lemma quiet_trans a b c : quiet a b -> quiet b c -> quiet a c.
Proof. unfold quiet. intuition congruence. Qed.

Lemma translate_attempts_quiet n D sz s io st : quiet st (translate_attempts env n D sz s io st).2.
Proof.
  revert sz s io st. induction n as [|n IH]; intros sz s io st; simpl; [done|].
  destruct (w_pool (cx_world st) (w_allocs (cx_world st)) sz) eqn:Ew; simpl; [|done].
  destruct (ce_translate env _ D sz) as [[s1 d] sz1].
  assert (forall st1, quiet (cx_ask (cx_set_world (ExFreePoolWithTag (mkWorld (w_clock (cx_world st))
    (w_pool (cx_world st)) (w_reads (cx_world st)) (S (w_allocs (cx_world st)))
    (w_live (cx_world st) + 1))) st)) st1 -> quiet st st1) as H.
  { intros st1 Hq. eapply quiet_trans; [|exact Hq]. unfold quiet. simpl. split_and!; (done || lia). }
  destruct (_ || _); simpl; apply H; [done|]. apply IH.
Qed.

Lemma translate_quiet item io st :
  quiet st (UacpiNtTranslateConnectionDescriptor env item io st).2.
Proof.
  unfold UacpiNtTranslateConnectionDescriptor. destruct (negb _); [done|].
  eapply quiet_trans; [|apply translate_attempts_quiet]. done.
Qed.

Lemma translate_all_quiet items st : quiet st (translate_all items st).2.
Proof.
  revert st. induction items as [|item items IH]; intros st; simpl; [done|].
  destruct (negb _); [apply IH|]. pose proof (translate_quiet item zero_io st) as Hq.
  destruct (UacpiNtTranslateConnectionDescriptor env item zero_io st) as [[s d] st1].
  specialize (IH st1). destruct (translate_all items st1). by eapply quiet_trans.
Qed.

(** The connections the hub makes of the raw template, at this point in time. *)
Definition connections (st : conn_state) : list IO_RESOURCE_DESCRIPTOR * conn_state :=
  let st1 := mkConn (S (cx_evals st)) (cx_asks st) (cx_held st) (cx_world st) in
  match ce_crs env (cx_evals st) with
  | Some (Some Buffer) =>
      let r := translate_all (raw_items Buffer) (cx_hold 1 st1) in (r.1, cx_hold (-1) r.2)
  | Some None => ([], cx_hold (-1) (cx_hold 1 st1))
  | None => ([], st1)
  end.

Lemma connections_quiet st : quiet st (connections st).2.
Proof.
  unfold connections. destruct (ce_crs env (cx_evals st)) as [[Buffer|]|]; simpl; try done.
  - destruct (translate_all_quiet (raw_items Buffer)
      (cx_hold 1 (mkConn (S (cx_evals st)) (cx_asks st) (cx_held st) (cx_world st)))) as (H1 & H2 & H3).
    unfold quiet. simpl in *. rewrite H1, H2, H3. split_and!; (done || lia).
  - unfold quiet. simpl. split_and!; (done || lia).
Qed.

(** What _CRS evaluates to is a string of bytes that fits in memory. *)
Definition crs_bytes : Prop :=
  forall n Buffer, ce_crs env n = Some (Some Buffer) ->
    Forall is_byte Buffer /\ Z.of_nat (length Buffer) + 65538 <= ULONGLONG_MAX.

Lemma walk_connections_spec Io Cm st :
  crs_bytes -> room Io 0 (length (connections st).1) -> room Cm 0 (length (connections st).1) ->
  UacpiNtWalkCrsConnections env Io Cm st =
    Done (length (connections st).1, fill_at Io 0 (connections st).1,
          fill_at Cm 0 (map UacpiNtConnectionIoToCm (connections st).1), (connections st).2).
Proof.
  intros Hb. unfold UacpiNtWalkCrsConnections, connections.
  destruct (ce_crs env (cx_evals st)) as [[Buffer|]|] eqn:E; simpl;
    [|by rewrite !fill_at_nil..]. destruct (Hb _ _ E) as [Hy Hl].
  intros HI HC. rewrite walk_items_spec; simpl; try done; try lia.
Qed.

(** *** A hub that keeps its answers *)

(** Nothing the walk asks changes between two walks, and the pool grants the
    translation buffers. *)
Definition steady (w : world) : Prop :=
  (forall n, ce_crs env n = ce_crs env 0) /\ (forall n, ce_valid env n = ce_valid env 0) /\
  (forall n, ce_translate env n = ce_translate env 0) /\ (forall n size, w_pool w n size = true).

Lemma translate_attempts_steady n D sz s io st st' :
  steady (cx_world st) -> w_pool (cx_world st') = w_pool (cx_world st) ->
  (translate_attempts env n D sz s io st).1 = (translate_attempts env n D sz s io st').1.
Proof.
  intros (H1 & H2 & H3 & H4). revert sz s io st st' H4.
  induction n as [|n IH]; intros sz s io st st' H4 Hw; simpl; [done|].
  rewrite Hw, !H4. simpl. rewrite (H3 (cx_asks st)), (H3 (cx_asks st')).
  destruct (ce_translate env 0 D sz) as [[s1 d] sz1]. destruct (_ || _); [done|]. by apply IH.
Qed.

Lemma translate_all_steady items st st' :
  steady (cx_world st) -> w_pool (cx_world st') = w_pool (cx_world st) ->
  (translate_all items st).1 = (translate_all items st').1.
Proof.
  revert st st'. induction items as [|item items IH]; intros st st' Hs Hw; simpl; [done|].
  destruct (negb _); [by apply IH|].
  pose proof (translate_quiet item zero_io st) as (_ & _ & Q).
  pose proof (translate_quiet item zero_io st') as (_ & _ & Q').
  assert ((UacpiNtTranslateConnectionDescriptor env item zero_io st).1 =
          (UacpiNtTranslateConnectionDescriptor env item zero_io st').1) as Ht.
  { unfold UacpiNtTranslateConnectionDescriptor. destruct Hs as (H1 & H2 & H3 & H4).
    rewrite (H2 (cx_asks st)), (H2 (cx_asks st')). destruct (negb _); [done|].
    by apply translate_attempts_steady. }
  destruct (UacpiNtTranslateConnectionDescriptor env item zero_io st) as [[s d] st1].
  destruct (UacpiNtTranslateConnectionDescriptor env item zero_io st') as [[s' d'] st1'].
  simpl in *. injection Ht as -> ->.
  assert ((translate_all items st1).1 = (translate_all items st1').1) as Ha.
  { apply IH; [unfold steady in *; by rewrite Q|by rewrite Q, Q']. }
  destruct (translate_all items st1), (translate_all items st1'). simpl in *. by rewrite Ha.
Qed.

Lemma connections_steady st st' :
  steady (cx_world st) -> w_pool (cx_world st') = w_pool (cx_world st) ->
  (connections st').1 = (connections st).1.
Proof.
  intros Hs Hw. unfold connections. pose proof Hs as (H1 & _).
  rewrite (H1 (cx_evals st)), (H1 (cx_evals st')).
  destruct (ce_crs env 0) as [[Buffer|]|]; simpl; try done.
  symmetry. by apply translate_all_steady.
Qed.
End Walk.

(** ** The lists hold exactly what was counted *)

Section Exact.
Context (env : conn_env) (Hbytes : crs_bytes env).

(** The connections a list for this caller gets. *)
Definition wanted_connections (asked : bool) (st : conn_state) : list IO_RESOURCE_DESCRIPTOR :=
  if asked then (connections env st).1 else [].

(** The count pass over the connections. *)
Lemma count_connections asked st :
  (asked = true -> steady env (cx_world st)) ->
  exists st1, (if asked then UacpiNtCrsConnectionCount env (cx_hold 1 st) else Done (0%nat, cx_hold 1 st))
              = Done (length (wanted_connections asked st), st1) /\ quiet (cx_hold 1 st) st1.
Proof using Hbytes.
  intros Hs. destruct asked; simpl; [|by eexists].
  unfold UacpiNtCrsConnectionCount.
  rewrite walk_connections_spec by done. simpl.
  rewrite (connections_steady env st (cx_hold 1 st)) by (done || auto).
  eexists. split; [done|]. apply connections_quiet.
Qed.

Lemma steady_of asked st st1 :
  (asked = true -> steady env (cx_world st)) -> w_pool (cx_world st1) = w_pool (cx_world st) ->
  length (wanted_connections asked st) <> 0%nat ->
  wanted_connections asked st = (connections env st1).1.
Proof using.
  intros Hs Hw Hn. destruct asked; [|done]. symmetry. apply connections_steady; auto.
Qed.

(** The fill pass over them, behind the [pos] descriptors already there. *)
Lemma emit_connections_cm asked st st1 buf pos :
  (asked = true -> steady env (cx_world st)) -> w_pool (cx_world st1) = w_pool (cx_world st) ->
  length (wanted_connections asked st) <> 0%nat ->
  (pos + length (wanted_connections asked st) <= length buf)%nat ->
  exists st2, UacpiNtCrsEmitConnectionsCm env (Some (buf, pos)) st1 =
    Done (length (wanted_connections asked st),
          Some (list_inserts pos (map UacpiNtConnectionIoToCm (wanted_connections asked st)) buf, pos),
          st2) /\ quiet st1 st2.
Proof using Hbytes.
  intros Hs Hw Hn Hl. rewrite (steady_of _ _ st1 Hs Hw Hn) in *.
  unfold UacpiNtCrsEmitConnectionsCm.
  rewrite walk_connections_spec; [|done|done|simpl; lia]. simpl. rewrite Nat.add_0_r.
  eexists. split; [done|]. apply connections_quiet.
Qed.

Lemma emit_connections_io asked st st1 buf pos :
  (asked = true -> steady env (cx_world st)) -> w_pool (cx_world st1) = w_pool (cx_world st) ->
  length (wanted_connections asked st) <> 0%nat ->
  (pos + length (wanted_connections asked st) <= length buf)%nat ->
  exists st2, UacpiNtCrsEmitConnections env (Some (buf, pos)) st1 =
    Done (length (wanted_connections asked st),
          Some (list_inserts pos (wanted_connections asked st) buf, pos), st2) /\ quiet st1 st2.
Proof using Hbytes.
  intros Hs Hw Hn Hl. rewrite (steady_of _ _ st1 Hs Hw Hn) in *.
  unfold UacpiNtCrsEmitConnections.
  rewrite walk_connections_spec; [|done|simpl; lia|done]. simpl. rewrite Nat.add_0_r.
  eexists. split; [done|]. apply connections_quiet.
Qed.

(** The outcome of a list builder: the list with its descriptors, or nothing. *)
Definition built {L D} (st : conn_state) (ds : list D) (mk : list D -> L)
  (r : run (NTSTATUS * option L * conn_state)) : Prop :=
  exists s l st', r = Done (s, l, st') /\ cx_held st' = cx_held st /\
    match l with
    | Some list =>
        s = STATUS_SUCCESS /\ ds <> [] /\ list = mk ds /\
        w_live (cx_world st') = w_live (cx_world st) + 1
    | None =>
        s = (if decide (length ds = 0%nat) then STATUS_NOT_FOUND
             else STATUS_INSUFFICIENT_RESOURCES) /\
        w_live (cx_world st') = w_live (cx_world st)
    end.

(** The shape both builders have. *)
Section Builder.
Context {A L : Type} (emit : uacpi_resource -> cursor A -> run (nat * cursor A))
  {descriptors : uacpi_resource -> list A} `{!Emitter emit descriptors}
  (emit_connections : cursor A -> conn_state -> run (nat * cursor A * conn_state))
  (convert : IO_RESOURCE_DESCRIPTOR -> A) (blank : A) (size_of : Z -> Z) (mk : Z -> Z -> list A -> L).

Definition build_list (asked : bool) (entries : list uacpi_resource) (st : conn_state)
  : run (NTSTATUS * option L * conn_state) :=
  let st := cx_hold 1 st in
  Count ← count_pass emit entries 0;
  '(Connections, st) ← (if asked then UacpiNtCrsConnectionCount env st else Done (0%nat, st));
  let Count := u32 (Count + Z.of_nat Connections) in
  if Count =? 0 then Done (STATUS_NOT_FOUND, None, cx_hold (-1) st)
  else
    let '(List, w) := ExAllocatePoolWithTag (size_of Count) (cx_world st) in
    let st := cx_set_world w st in
    if negb List then Done (STATUS_INSUFFICIENT_RESOURCES, None, cx_hold (-1) st)
    else
      '(buf, pos) ← fill_pass emit entries (replicate (Z.to_nat Count) blank) 0;
      '(buf, st) ← (if (Connections =? 0)%nat then Done (buf, st)
                    else '(_, c, st) ← emit_connections (Some (buf, pos)) st;
                         Done (match c with Some (buf, _) => buf | None => buf end, st));
      Done (STATUS_SUCCESS, Some (mk (size_of Count) Count buf), cx_hold (-1) st).

Context (Hemit : forall asked st st1 buf pos,
  (asked = true -> steady env (cx_world st)) -> w_pool (cx_world st1) = w_pool (cx_world st) ->
  length (wanted_connections asked st) <> 0%nat ->
  (pos + length (wanted_connections asked st) <= length buf)%nat ->
  exists st2, emit_connections (Some (buf, pos)) st1 =
    Done (length (wanted_connections asked st),
          Some (list_inserts pos (map convert (wanted_connections asked st)) buf, pos), st2) /\
    quiet st1 st2).

Lemma build_list_outcome asked entries st :
  let ds := all_descriptors descriptors entries ++
            map convert (wanted_connections asked st) in
  let Count := Z.of_nat (length ds) in
  (asked = true -> steady env (cx_world st)) -> Count < 4294967296 ->
  built st ds (mk (size_of Count) Count) (build_list asked entries st).
Proof using All.
  cbv zeta. intros Hs Hlt. unfold build_list, built.
  destruct (count_connections asked st Hs) as (st1 & Hc & Q1 & Q2 & Q3). simpl in Q1, Q2, Q3.
  rewrite length_app, length_map in *.
  rewrite count_pass_total by lia. simpl. rewrite Hc. simpl. rewrite u32_small by lia.
  set (n := length (all_descriptors descriptors entries)) in *.
  set (k := length (wanted_connections asked st)) in *.
  rewrite Z.add_0_l, <- Nat2Z.inj_add. destruct (_ =? 0) eqn:E0; bool_prop.
  { eexists _, _, _. split; [done|]. simpl. rewrite decide_True by lia. split_and!; (done || lia). }
  rewrite decide_False by lia.
  assert (all_descriptors descriptors entries ++ map convert (wanted_connections asked st) <> []) as Hne.
  { intros E. apply (f_equal length) in E. rewrite length_app, length_map in E.
    fold n k in E. simpl in E. lia. }
  destruct (w_pool (cx_world st1) _ _); simpl;
    [|eexists _, _, _; split; [done|]; simpl; split_and!; (done || lia)].
  rewrite fill_pass_fills by (rewrite length_replicate; lia). simpl. fold n. rewrite Nat2Z.id.
  destruct (k =? 0)%nat eqn:Ek; simpl.
  - apply Nat.eqb_eq in Ek. apply length_zero_iff_nil in Ek as Ek'. rewrite Ek'. simpl.
    rewrite app_nil_r. eexists _, _, _. split; [done|]. simpl. rewrite Ek', app_nil_r in Hne.
    rewrite inserts_all by lia. split_and!; (done || lia).
  - apply Nat.eqb_neq in Ek.
    edestruct (Hemit asked st) as (st2 & -> & R1 & R2 & R3);
      [done| |done|rewrite length_inserts, length_replicate; lia|]; [simpl; done|]. simpl in *.
    eexists _, _, _. split; [done|]. simpl.
    pose proof (list_inserts_app_l (all_descriptors descriptors entries)
      (map convert (wanted_connections asked st)) (replicate (n + k) blank) 0) as Hi.
    fold n in Hi. rewrite Nat.add_0_r, inserts_all in Hi by (rewrite length_app, length_map; lia).
    rewrite <- Hi. split_and!; (done || lia).
Qed.
End Builder.

(** The assigned resource list of a device holds one descriptor for every
    entry of _CRS that stands for one, in order, and behind them the connections
    the hub translates; the buffer is allocated for exactly that many and
    nothing is written outside it, as long as the hub answers the same on both
    passes.  An empty template gives STATUS_NOT_FOUND, a failed allocation
    STATUS_INSUFFICIENT_RESOURCES, and no interpreter object is kept. *)
Theorem crs_to_cm_list_exact entries dev st :
  let ds := all_descriptors cm_of entries ++
            map UacpiNtConnectionIoToCm (wanted_connections dev st) in
  let Count := Z.of_nat (length ds) in
  (dev = true -> steady env (cx_world st)) -> Count < 4294967296 ->
  built st ds (mkCmList 1 InterfaceTypeInternal 0 1 1 Count)
    (UacpiNtCrsToCmList env (Some entries) dev st).
Proof using Hbytes.
  exact (build_list_outcome UacpiNtEmitCm (UacpiNtCrsEmitConnectionsCm env) UacpiNtConnectionIoToCm
    zero_cm (fun Count => u64 (CM_LIST_HEADER + Count * CM_DESCRIPTOR_SIZE))
    (fun _ => mkCmList 1 InterfaceTypeInternal 0 1 1) emit_connections_cm dev entries st).
Qed.

(** The requirements list of a device holds the descriptors of every entry
    of the template in order, a marker behind every producer window, and for
    _CRS the connections the hub translates; the count, the size and the buffer
    agree and nothing is written outside it. *)
Theorem prs_to_requirements_exact entries Possible dev st :
  let asked := negb Possible && dev in
  let ds := all_descriptors io_of entries ++ wanted_connections asked st in
  let Count := Z.of_nat (length ds) in
  (asked = true -> steady env (cx_world st)) -> Count < 4294967296 ->
  built st ds (mkIoList (u32 (u64 (IO_LIST_HEADER + Count * IO_DESCRIPTOR_SIZE)))
                 InterfaceTypeInternal 0 1 1 1 Count)
    (UacpiNtPrsToRequirements env Possible (Some entries) dev st).
Proof using Hbytes.
  cbv zeta. intros Hs Hlt.
  pose proof (build_list_outcome UacpiNtEmitIo (UacpiNtCrsEmitConnections env) id
    zero_io (fun Count => u64 (IO_LIST_HEADER + Count * IO_DESCRIPTOR_SIZE))
    (fun Size => mkIoList (u32 Size) InterfaceTypeInternal 0 1 1 1)) as H.
  specialize (fun Hc => H Hc (negb Possible && dev) entries st). cbv zeta in H.
  setoid_rewrite map_id in H. apply H; [|done|done]. exact emit_connections_io.
Qed.
End Exact.

(** ** The walk stays inside the template *)

(** C39.  The counting walk over the raw template reads nothing outside it and ends: it
    cuts the template into items, each as long as its header says, and stops at
    the end tag, at a truncated item or at the end of the buffer; the hub is
    asked about the connection items among them, in order, and about nothing
    else. *)
Theorem crs_walk_in_bounds env st Buffer :
  ce_crs env (cx_evals st) = Some (Some Buffer) -> Forall is_byte Buffer ->
  Z.of_nat (length Buffer) + 65538 <= ULONGLONG_MAX ->
  exists items tail ds st',
    Buffer = concat items ++ tail /\ Forall framed items /\ stops tail /\
    translate_all env items
      (cx_hold 1 (mkConn (S (cx_evals st)) (cx_asks st) (cx_held st) (cx_world st))) = (ds, st') /\
    UacpiNtWalkCrsConnections env None None st = Done (length ds, None, None, cx_hold (-1) st').
Proof.
  intros E Hb Hl. destruct (split_items_correct (length Buffer) Buffer Hb) as (tail & Ht & Hf & Hs); [done|].
  unfold UacpiNtWalkCrsConnections. rewrite E. rewrite walk_items_spec by (done || lia).
  change (Z.to_nat 0) with 0%nat. rewrite drop_0.
  set (st0 := cx_hold 1 _).
  destruct (translate_all env (split_items (length Buffer) Buffer) st0) as [ds st'] eqn:Et.
  exists (split_items (length Buffer) Buffer), tail, ds, st'. split_and!; done.
Qed.

(** ** Requirements and assignments agree *)

(** The widths of the fields of an entry, and windows that do not run past the
    top of their space. *)
Definition entry_wf (r : uacpi_resource) : Prop :=
  match span_of r with
  | Some (s, n) => is_ulong s /\ is_ulong n
  | None => True
  end /\
  let W := (UacpiNtGetAddressWindow r).2 in
  0 <= aw_Start W /\ 0 <= aw_Length W /\ aw_Start W + aw_Length W - 1 <= ULONGLONG_MAX /\
  (aw_WindowType W <> UACPI_RANGE_MEMORY -> aw_Start W + aw_Length W <= 4294967296).

(** The requirement allows the assigned window and no other. *)
Definition pins (io : IO_RESOURCE_DESCRIPTOR) (cm : CM_PARTIAL_RESOURCE_DESCRIPTOR) : Prop :=
  cm_Type cm = io_Type io /\ cm_ShareDisposition cm = io_ShareDisposition io /\
  cm_Flags cm = io_Flags io /\
  if decide (io_Type io = CmResourceTypeInterrupt)
  then ii_MinimumVector (io_Interrupt io) = ci_Vector (cm_Interrupt cm) /\
       ii_MaximumVector (io_Interrupt io) = ci_Vector (cm_Interrupt cm)
  else exists start last len,
    UacpiNtResUnpackRequirement io = (STATUS_SUCCESS, (start, last, len, 1)) /\
    UacpiNtResUnpackResource cm = (STATUS_SUCCESS, (start, len)) /\
    (io_Type io <> CmResourceTypeMemoryLarge -> 0 < len -> last = start + len - 1).

Lemma pins_irqs sh t (vs : list Z) (opt : nat -> Z) :
  Forall2 pins (imap (fun i => io_irq (opt i) sh t) vs) (map (cm_irq sh t) vs).
Proof.
  revert opt. induction vs as [|v vs IH]; intros opt; simpl; [constructor|].
  constructor; [by unfold pins|]. apply (IH (fun i => opt (S i))).
Qed.

(** The window arithmetic at its width. *)
Lemma fixed_last s n :
  0 <= s -> 0 < n -> s + n - 1 <= ULONGLONG_MAX -> u64 (s +u n -u 1) = s + n - 1.
Proof.
  unfold ULONGLONG_MAX. intros. unfold add64, sub64, u64.
  rewrite !Zminus_mod_idemp_l, Zmod_mod. apply Z.mod_small. lia.
Qed.

Lemma pins_port s n :
  is_u64 s -> 0 <= n <= 4294967296 -> s + n - 1 <= ULONGLONG_MAX ->
  pins (io_port s n) (cm_port s (u32 n)).
Proof.
  intros Hs Hn Hl. split_and!; try done. simpl.
  exists s, (u64 (s +u n -u 1)), (u32 n). unfold UacpiNtResUnpackRequirement, UacpiNtResUnpackResource.
  simpl. rewrite (u32_small (u32 n)) by apply u32_range. rewrite (u64_small s) by done.
  split_and!; try done. intros _. unfold is_u64 in Hs.
  destruct (decide (n = 4294967296)) as [->|]; [done|]. rewrite u32_small by lia.
  intros Hp. apply fixed_last; lia.
Qed.

Lemma pins_memory t f s n m :
  t = CmResourceTypeMemory /\ m = n \/ t = CmResourceTypeMemoryLarge ->
  is_u64 s -> 0 <= n -> 0 <= m < 4294967296 -> s + n - 1 <= ULONGLONG_MAX ->
  pins (io_memory t f s n m) (cm_memory t f s m).
Proof.
  intros Ht Hs Hn Hm Hl. unfold pins. simpl. split_and!; try done.
  rewrite decide_False by (destruct Ht as [(Ht & _)|Ht]; by rewrite Ht).
  exists s, (u64 (s +u n -u 1)), m. unfold UacpiNtResUnpackRequirement, UacpiNtResUnpackResource. simpl.
  rewrite u32_small by done. rewrite (u64_small s) by done. unfold is_u64 in Hs.
  destruct Ht as [(Ht & Hmn)|Ht]; subst; simpl; split_and!; try done.
  intros _ Hp. apply fixed_last; lia.
Qed.

Lemma pins_bus s n :
  0 <= s -> 0 < n -> s + n <= 4294967296 -> pins (io_bus_number s n) (cm_bus (u32 s) (u32 n)).
Proof.
  intros Hs Hn Hl. unfold pins. simpl. split_and!; try done.
  exists s, (s + n - 1), (u32 n). unfold UacpiNtResUnpackRequirement, UacpiNtResUnpackResource. simpl.
  rewrite !(u32_small (u32 _)) by apply u32_range. rewrite (u32_small s) by lia.
  rewrite add64_small by (unfold is_u64, ULONGLONG_MAX; lia).
  rewrite sub64_small by (unfold is_u64, ULONGLONG_MAX; lia).
  rewrite (u32_small (s + n - 1)) by lia. split_and!; try done. intros _.
  destruct (decide (n = 4294967296)) as [->|]; [done|]. rewrite u32_small; lia.
Qed.

Lemma pins_window W :
  0 <= aw_Start W -> 0 < aw_Length W -> aw_Start W + aw_Length W - 1 <= ULONGLONG_MAX ->
  (aw_WindowType W <> UACPI_RANGE_MEMORY -> aw_Start W + aw_Length W <= 4294967296) ->
  pins (io_of_window W) (cm_of_window W).
Proof.
  intros Hs Hn Hl Hw. unfold io_of_window, cm_of_window.
  destruct (aw_WindowType W =? UACPI_RANGE_MEMORY) eqn:Em; bool_prop; simpl.
  - assert (is_u64 (aw_Start W)) by (unfold is_u64; lia).
    destruct (aw_Length W <=? _) eqn:El; bool_prop.
    + rewrite u32_small by lia. apply pins_memory; auto; lia.
    + apply pins_memory; try apply u32_range; auto; lia.
  - specialize (Hw Em). destruct (aw_WindowType W =? UACPI_RANGE_IO); [|by apply pins_bus].
    apply pins_port; unfold is_u64; lia.
Qed.

Lemma io_of_window_type W : io_Type (io_of_window W) <> CmResourceTypeDevicePrivate.
Proof. unfold io_of_window. by repeat case_goal. Qed.

(** The requirements the driver reports for _CRS are exactly the resources
    it reports as assigned: apart from the markers behind producer windows the
    two lists go in step, each requirement with the type, sharing and flags of
    its assignment, allowing only the assigned window as the arbiters unpack
    both, or only the assigned vector. *)
Theorem requirements_pin_assignments r :
  entry_wf r ->
  Forall2 pins (filter (fun d => io_Type d <> CmResourceTypeDevicePrivate) (io_of r)) (cm_of r).
Proof.
  intros [Hsp Hw]. unfold io_of, cm_of.
  destruct (UacpiNtGetInterrupts r) as [[c t] sh].
  destruct (UacpiNtGetAddressWindow r) as [has W]. simpl in Hw. rewrite filter_app. apply Forall2_app.
  - rewrite filter_all; [apply pins_irqs|]. apply Forall_forall. intros d.
    rewrite list_elem_of_lookup. intros [i Hi]. rewrite list_lookup_imap, fmap_Some in Hi.
    by destruct Hi as (v & _ & ->).
  - destruct (span_of r) as [[s n]|].
    + unfold is_ulong in Hsp. rewrite filter_all by (by constructor; [destruct (is_port_entry r)|]).
      constructor; [|done]. destruct (is_port_entry r).
      * rewrite <- (u32_small n) at 2 by lia. apply pins_port; unfold is_u64, ULONGLONG_MAX; lia.
      * apply pins_memory; unfold is_u64, ULONGLONG_MAX; auto; lia.
    + destruct (has && negb (aw_Length W =? 0)) eqn:E; [|done]. bool_prop.
      rewrite filter_cons_True by apply io_of_window_type.
      destruct Hw as (? & ? & ? & ?). constructor; [apply pins_window; auto; lia|].
      by destruct (_ =? UACPI_PRODUCER).
Qed.

(** ** Where the translation loses information *)

(** A memory window of 4 GB or more is described in units of 256 bytes, but
    the arbiters read that count as bytes: the requirement they unpack has the
    right bounds and at most a 256th of the length (none of it for a window of
    a terabyte), and so has the assignment. *)
Theorem large_window_loses_length W :
  aw_WindowType W = UACPI_RANGE_MEMORY -> 0xFFFFFFFF < aw_Length W -> 0 <= aw_Start W ->
  aw_Start W + aw_Length W - 1 <= ULONGLONG_MAX ->
  exists len,
    UacpiNtResUnpackRequirement (io_of_window W) =
      (STATUS_SUCCESS, (aw_Start W, aw_Start W + aw_Length W - 1, len, 1)) /\
    UacpiNtResUnpackResource (cm_of_window W) = (STATUS_SUCCESS, (aw_Start W, len)) /\
    len = (aw_Length W / 256) mod 4294967296 /\ 256 * len <= aw_Length W.
Proof.
  intros Ht Hl Hs Hm. exists (u32 (Z.shiftr (aw_Length W) 8)).
  unfold io_of_window, cm_of_window. rewrite Ht, Z.eqb_refl.
  destruct (aw_Length W <=? 0xFFFFFFFF) eqn:El; bool_prop; [lia|].
  unfold UacpiNtResUnpackRequirement, UacpiNtResUnpackResource. simpl.
  rewrite (u32_small (u32 _)) by apply u32_range.
  rewrite u64_small, fixed_last by (unfold is_u64, ULONGLONG_MAX in *; lia).
  rewrite Z.shiftr_div_pow2 by lia. change (2 ^ 8) with 256. unfold u32.
  split_and!; try done. pose proof (Z.mod_le (aw_Length W / 256) 4294967296).
  pose proof (Z.mul_div_le (aw_Length W) 256). pose proof (Z.div_pos (aw_Length W) 256). lia.
Qed.

(** An I/O or Memory32 entry of length zero is not skipped the way an empty
    address window is: its requirement ends before it starts, no address
    satisfies it, and the arbiter fails the whole arbitration list it is on. *)
Theorem zero_length_entry_fails_test `{R : RtlRangeList} (cbs : ARBITER_CALLBACKS)
  irl fuel wfuel arb ents e r start w :
  ScoreRequirement cbs = Some UacpiNtResScoreRequirement ->
  span_of r = Some (start, 0) -> 0 < start < 4294967296 ->
  NT_SUCCESS (copy_committed arb).1 = true -> e ∈ ents -> io_of r ⊆ ent_Alternatives e ->
  exists arb' ents',
    ArbpTestAllocation cbs irl fuel wfuel arb ents None w =
      Some (STATUS_DEVICE_CONFIGURATION_ERROR, discard arb', ents', w).
Proof.
  intros Hc Hr Hs Hcc He Hsub.
  assert (exists d, d ∈ io_of r /\ unsatisfiable d) as (d & Hd & Hu).
  { unfold io_of. destruct (UacpiNtGetInterrupts r) as [[c t] sh].
    destruct (UacpiNtGetAddressWindow r) as [has W]. rewrite Hr. eexists. split.
    - apply elem_of_app. right. by apply list_elem_of_singleton.
    - unfold unsatisfiable, UacpiNtResUnpackRequirement.
      assert (u64 (start +u 0 -u 1) < u64 start) as Hlt.
      { rewrite Z.add_0_r || rewrite add64_small by (unfold is_u64, ULONGLONG_MAX; lia).
        rewrite Z.add_0_r. rewrite sub64_small by (unfold is_u64, ULONGLONG_MAX; lia).
        rewrite !u64_small by (unfold is_u64, ULONGLONG_MAX; lia). lia. }
      destruct (is_port_entry r); simpl; right; exact Hlt. }
  by apply (unsatisfiable_alternative_outcome cbs Hc irl fuel wfuel arb ents e d w Hcc He (Hsub _ Hd)).
Qed.

(** ** Examples *)

(** A device with one port range, one interrupt and one producer window. *)
Definition device_crs : list uacpi_resource :=
  [UACPI_RESOURCE_TYPE_IO (mkSpan 0x3F8 0x3F8 1 8);
   UACPI_RESOURCE_TYPE_IRQ (mkIrqs UACPI_TRIGGERING_EDGE 0 0 [4]);
   UACPI_RESOURCE_TYPE_ADDRESS32 (mkAddress UACPI_RANGE_MEMORY UACPI_PRODUCER 0xE0000000 0x1000);
   UACPI_RESOURCE_TYPE_OTHER].

(** Its raw template: two GPIO connections between small items, then the end
    tag. *)
Definition device_raw : list Z :=
  [0x47; 1; 0xF8; 3; 0xF8; 3; 1; 8; 0x8C; 1; 0; 0xAA; 0x22; 0x10; 0; 0x8C; 2; 0; 0xBB; 0xCC; 0x79; 0].

Definition gpio_io : IO_RESOURCE_DESCRIPTOR :=
  mkIo 0 CmResourceTypeConnection CmResourceShareDeviceExclusive 0 zero_window zero_window
    (mkIoBus 0 0 0) (mkIoInterrupt 0 0 0) (mkConnection 1 2 5 0).

Definition bound_hub : conn_env :=
  mkConnEnv (fun _ => Some (Some device_raw)) (fun _ => true)
    (fun _ _ _ => (STATUS_SUCCESS, gpio_io, 0)).

Definition fresh_conn : conn_state := mkConn 0 0 0 ticking_world.

Lemma device_raw_bytes (env : conn_env) :
  (forall n, ce_crs env n = Some (Some device_raw)) -> crs_bytes env.
Proof.
  intros E n Buffer. rewrite E. intros [= <-]. split; [|by vm_compute].
  unfold device_raw, is_byte. repeat constructor; done.
Qed.

Lemma bound_hub_steady : steady bound_hub (cx_world fresh_conn).
Proof. split_and!; intros; reflexivity. Qed.

Lemma crs_to_cm_list_exact_witness :
  exists l st', UacpiNtCrsToCmList bound_hub (Some device_crs) true fresh_conn =
    Done (STATUS_SUCCESS, Some l, st') /\ crl_PartialCount l = 5 /\
    length (crl_PartialDescriptors l) = 5%nat.
Proof.
  destruct (crs_to_cm_list_exact bound_hub (device_raw_bytes bound_hub (fun _ => eq_refl)) device_crs true
              fresh_conn (fun _ => bound_hub_steady) ltac:(by vm_compute)) as (s & l & st' & E & _ & H).
  destruct l as [l|].
  - destruct H as (-> & _ & -> & _). eexists _, _. split; [exact E|]. split; reflexivity.
  - exfalso. vm_compute in E. congruence.
Defined.

Lemma prs_to_requirements_exact_witness :
  exists l st', UacpiNtPrsToRequirements bound_hub false (Some device_crs) true fresh_conn =
    Done (STATUS_SUCCESS, Some l, st') /\ irl_Count l = 6 /\ irl_ListSize l = 232.
Proof.
  destruct (prs_to_requirements_exact bound_hub (device_raw_bytes bound_hub (fun _ => eq_refl)) device_crs
              false true fresh_conn (fun _ => bound_hub_steady) ltac:(by vm_compute))
    as (s & l & st' & E & _ & H).
  destruct l as [l|].
  - destruct H as (-> & _ & -> & _). eexists _, _. split; [exact E|]. split; reflexivity.
  - exfalso. vm_compute in E. congruence.
Defined.

Lemma crs_walk_in_bounds_witness :
  exists st', UacpiNtWalkCrsConnections bound_hub None None fresh_conn = Done (2%nat, None, None, st').
Proof.
  destruct (device_raw_bytes bound_hub (fun _ => eq_refl) 0%nat device_raw eq_refl) as [Hb Hl].
  destruct (crs_walk_in_bounds bound_hub fresh_conn device_raw eq_refl Hb Hl)
    as (items & tail & ds & st' & _ & _ & _ & _ & E).
  assert (length ds = 2%nat) as Hn by (vm_compute in E; injection E; intros; by subst).
  exists (cx_hold (-1) st'). by rewrite E, Hn.
Defined.

Lemma requirements_pin_assignments_witness :
  Forall2 pins (filter (fun d => io_Type d <> CmResourceTypeDevicePrivate)
                  (io_of (UACPI_RESOURCE_TYPE_ADDRESS32
                     (mkAddress UACPI_RANGE_MEMORY UACPI_PRODUCER 0xE0000000 0x1000))))
    (cm_of (UACPI_RESOURCE_TYPE_ADDRESS32
              (mkAddress UACPI_RANGE_MEMORY UACPI_PRODUCER 0xE0000000 0x1000))).
Proof. apply requirements_pin_assignments. vm_compute. split_and!; intros; done. Defined.

Lemma large_window_loses_length_witness :
  exists len, UacpiNtResUnpackRequirement
                (io_of_window (mkWindow UACPI_RANGE_MEMORY UACPI_PRODUCER 0x10000000000 0x10000000000)) =
              (STATUS_SUCCESS, (0x10000000000, 0x1FFFFFFFFFF, len, 1)) /\ len = 0.
Proof.
  destruct (large_window_loses_length
              (mkWindow UACPI_RANGE_MEMORY UACPI_PRODUCER 0x10000000000 0x10000000000)
              eq_refl eq_refl ltac:(done) ltac:(done)) as (len & E & _ & H & _).
  exists len. split; [exact E|]. rewrite H. reflexivity.
Defined.

Section ZeroLength.
#[local] Existing Instance ref_range_list.

Definition empty_io : uacpi_resource := UACPI_RESOURCE_TYPE_IO (mkSpan 0x2E 0x2E 1 0).

Lemma zero_length_entry_fails_test_witness :
  exists arb' ents',
    ArbpTestAllocation (ArbiterLibCallbacks quiet_env [] UacpiNtResUnpackRequirement
        UacpiNtResPackResource UacpiNtResUnpackResource (Some UacpiNtResScoreRequirement))
      no_seed 10 10 books_arbiter [window_entry 7 (io_of empty_io)] None ticking_world
    = Some (STATUS_DEVICE_CONFIGURATION_ERROR, discard arb', ents', ticking_world).
Proof.
  apply (zero_length_entry_fails_test
           (ArbiterLibCallbacks quiet_env [] UacpiNtResUnpackRequirement UacpiNtResPackResource
              UacpiNtResUnpackResource (Some UacpiNtResScoreRequirement))
           no_seed 10 10 books_arbiter [window_entry 7 (io_of empty_io)]
           (window_entry 7 (io_of empty_io)) empty_io 0x2E ticking_world eq_refl eq_refl).
  - lia.
  - reflexivity.
  - constructor.
  - done.
Defined.
End ZeroLength.

(** A hub that has no answer for the second connection yet when it is asked on
    the counting pass. *)
Definition late_hub : conn_env :=
  mkConnEnv (fun _ => Some (Some device_raw)) (fun _ => true)
    (fun n _ _ => (if (n =? 3)%nat then STATUS_NOT_SUPPORTED else STATUS_SUCCESS, gpio_io, 0)).

(** Asking the hub on both passes does not make the passes agree: a hub
    that gains an answer between them makes the fill pass write a descriptor
    past the end of the allocated list. *)
Theorem hub_change_overruns_list :
  UacpiNtCrsConnectionCount late_hub fresh_conn ≫= (fun r => Done r.1) = Done 1%nat /\
  UacpiNtCrsToCmList late_hub (Some device_crs) true fresh_conn = Fault /\
  UacpiNtCrsToRequirements late_hub (Some device_crs) true fresh_conn = Fault.
Proof. vm_compute. done. Qed.

(** The _PRS of a serial port: two dependent functions, each with a range that
    could slide. *)
Definition serial_prs : list uacpi_resource :=
  [UACPI_RESOURCE_TYPE_START_DEPENDENT; UACPI_RESOURCE_TYPE_IO (mkSpan 0x3F8 0x3F8 8 8);
   UACPI_RESOURCE_TYPE_START_DEPENDENT; UACPI_RESOURCE_TYPE_IO (mkSpan 0x100 0x3F8 8 8);
   UACPI_RESOURCE_TYPE_END_DEPENDENT].

(** The requirements built from _PRS give the arbiter no choice: dependent
    functions end up side by side in one list, each descriptor required, and a
    sliding range is pinned to its minimum. *)
Theorem prs_offers_no_choice env w :
  w_pool w (w_allocs w) 104 = true ->
  exists l st', UacpiNtPrsToRequirements env true (Some serial_prs) true (mkConn 0 0 0 w) =
      Done (STATUS_SUCCESS, Some l, st') /\
    irl_AlternativeLists l = 1 /\ irl_Descriptors l = [io_port 0x3F8 8; io_port 0x100 8] /\
    map io_Option (irl_Descriptors l) = [0; 0] /\
    map UacpiNtResUnpackRequirement (irl_Descriptors l) =
      [(STATUS_SUCCESS, (0x3F8, 0x3FF, 8, 1)); (STATUS_SUCCESS, (0x100, 0x107, 8, 1))].
Proof.
  intros Hw.
  assert (exists st', UacpiNtPrsToRequirements env true (Some serial_prs) true (mkConn 0 0 0 w) =
            Done (STATUS_SUCCESS, Some (mkIoList 104 InterfaceTypeInternal 0 1 1 1 2
                    [io_port 0x3F8 8; io_port 0x100 8]), st')) as [st' E].
  { destruct w as [clock pool reads allocs live]. cbn in Hw. vm_compute. rewrite Hw. by eexists. }
  eexists _, _. split; [exact E|]. done.
Qed.

Lemma prs_offers_no_choice_witness :
  exists l st', UacpiNtPrsToRequirements bound_hub true (Some serial_prs) true fresh_conn =
    Done (STATUS_SUCCESS, Some l, st') /\ map io_Option (irl_Descriptors l) = [0; 0].
Proof.
  destruct (prs_offers_no_choice bound_hub ticking_world eq_refl) as (l & st' & E & _ & _ & H & _).
  exists l, st'. split; [exact E|exact H].
Defined.
