(* ===== verification/IrqVectors.v ===== *)
(** sys/irqlib.c: which IDT vector an interrupt line or a run of messages gets
    under the APIC model, and how lines are triggered.

    The state is split the way the functions touch it: [gsiv_flags] the trigger
    and polarity bitmaps, [hal_grant] the vectors the HAL gave the driver,
    [vectors] the processors' books, the vector of each line and the message
    runs.  The fast mutex of the library is held around every change of
    [vectors], so a call is one step. *)
From stdpp Require Import base list numbers option sorting strings relations.
From Stdlib Require Import ZArith Lia Permutation.
From S2P Require Import Prelude NtEnv RangeListRef ArbTypes.

Definition UACPINT_MAX_PROCESSORS : nat := 256.
Definition UACPINT_MAX_GSIV : Z := 256.
Definition UACPINT_MAX_MESSAGE_RUNS : nat := 128.
Definition UACPINT_MAX_IDT_VECTOR : Z := 0xFF.
Definition UACPINT_DEVICE_VECTOR_FIRST : Z := 0x50.
Definition UACPINT_DEVICE_VECTOR_LAST : Z := 0xBF.
Definition UACPINT_MESSAGE_GSIV_BASE : Z := 0xFFF00000.
Definition UACPINT_MSI_RANGE_OWNER : PVOID := 0xACB1A5E1.

(** ** Bitmaps *)

Definition UacpiNtTestBit (Map : list Z) (Bit : Z) : bool :=
  Z.land (Z.shiftr (nth (Z.to_nat (Bit / 32)) Map 0) (Bit mod 32)) 1 =? 1.

Definition UacpiNtSetBit (Map : list Z) (Bit : Z) : list Z :=
  alter (fun w => u32 (Z.lor w (Z.shiftl 1 (Bit mod 32)))) (Z.to_nat (Bit / 32)) Map.

Definition empty_map : list Z := replicate 8 0.

(** ** Triggering *)

Record gsiv_flags := mkFlags {
  gf_Level : list Z; gf_ForcedEdge : list Z; gf_ForcedHigh : list Z; gf_ForcedLow : list Z }.

Definition no_flags : gsiv_flags := mkFlags empty_map empty_map empty_map empty_map.

Definition UacpiNtIrqLibNoteLevelGsiv (Gsiv : Z) (f : gsiv_flags) : gsiv_flags :=
  if Gsiv <? UACPINT_MAX_GSIV
  then mkFlags (UacpiNtSetBit (gf_Level f) Gsiv) (gf_ForcedEdge f) (gf_ForcedHigh f) (gf_ForcedLow f)
  else f.

Definition UacpiNtIrqLibNoteEdgeGsiv (Gsiv : Z) (f : gsiv_flags) : gsiv_flags :=
  if Gsiv <? UACPINT_MAX_GSIV
  then mkFlags (gf_Level f) (UacpiNtSetBit (gf_ForcedEdge f) Gsiv) (gf_ForcedHigh f) (gf_ForcedLow f)
  else f.

Definition UacpiNtIrqLibGsivForcedEdge (f : gsiv_flags) (Gsiv : Z) : bool :=
  (Gsiv <? UACPINT_MAX_GSIV) && UacpiNtTestBit (gf_ForcedEdge f) Gsiv.

Definition UacpiNtGsivIsLevel (f : gsiv_flags) (Gsiv : Z) : bool :=
  (Gsiv <? UACPINT_MAX_GSIV) && UacpiNtTestBit (gf_Level f) Gsiv.

Definition UacpiNtGsivIsActiveLow (f : gsiv_flags) (Gsiv : Z) : bool :=
  if (Gsiv <? UACPINT_MAX_GSIV) && UacpiNtTestBit (gf_ForcedHigh f) Gsiv then false
  else if (Gsiv <? UACPINT_MAX_GSIV) && UacpiNtTestBit (gf_ForcedLow f) Gsiv then true
  else UacpiNtGsivIsLevel f Gsiv.

Inductive KINTERRUPT_POLARITY := InterruptActiveHigh | InterruptActiveLow.
Inductive KINTERRUPT_MODE := LevelSensitive | Latched.

Definition UacpiNtGsivPolarity (f : gsiv_flags) (Gsiv : Z) : KINTERRUPT_POLARITY :=
  if UacpiNtGsivIsActiveLow f Gsiv then InterruptActiveLow else InterruptActiveHigh.

Definition UacpiNtGsivMode (f : gsiv_flags) (Gsiv : Z) : KINTERRUPT_MODE :=
  if UacpiNtGsivIsLevel f Gsiv then LevelSensitive else Latched.

(** ** What the HAL granted *)

Record hal_grant := mkGrant { hg_Vectors : list Z; hg_Count : Z }.

Definition UacpiNtHalGrantedVector (g : hal_grant) (Vector : Z) : bool :=
  (Vector <=? UACPINT_MAX_IDT_VECTOR) && UacpiNtTestBit (hg_Vectors g) Vector.

(** The loop over the partial descriptors of the start list. *)
Fixpoint grant_vectors (ds : list CM_PARTIAL_RESOURCE_DESCRIPTOR) (g : hal_grant) : hal_grant :=
  match ds with
  | [] => g
  | d :: ds =>
      let Vector := ci_Vector (cm_Interrupt d) in
      if negb (cm_Type d =? CmResourceTypeInterrupt) || (UACPINT_MAX_IDT_VECTOR <? Vector) ||
         UacpiNtHalGrantedVector g Vector
      then grant_vectors ds g
      else grant_vectors ds (mkGrant (UacpiNtSetBit (hg_Vectors g) Vector) (u32 (hg_Count g + 1)))
  end.

(** [Resources] is the first list of the start resources, [None] without one. *)
Definition UacpiNtIrqLibSetHalVectors (Resources : option (list CM_PARTIAL_RESOURCE_DESCRIPTOR))
  : hal_grant :=
  match Resources with
  | None => mkGrant empty_map 0
  | Some ds => grant_vectors ds (mkGrant empty_map 0)
  end.

(** ** The processors' books *)

Section Vectors.
Context `{R : RtlRangeList}.

(** The inner loop of the seeding: past the vectors that were not granted. *)
Fixpoint denied_end (g : hal_grant) (fuel : nat) (Vector : Z) : Z :=
  match fuel with
  | O => Vector
  | S fuel =>
      if (Vector <=? UACPINT_MAX_IDT_VECTOR) && negb (UacpiNtHalGrantedVector g Vector)
      then denied_end g fuel (Vector + 1) else Vector
  end.

(** The outer loop; every turn moves up by a vector at least. *)
Fixpoint seed_runs (g : hal_grant) (fuel : nat) (Vector : Z) (l : RTL_RANGE_LIST) : RTL_RANGE_LIST :=
  match fuel with
  | O => l
  | S fuel =>
      if UACPINT_MAX_IDT_VECTOR <? Vector then l
      else if UacpiNtHalGrantedVector g Vector then seed_runs g fuel (Vector + 1) l
      else
        let End := denied_end g (S fuel) Vector in
        seed_runs g fuel End (RtlAddRange l Vector (End - 1) 0 0 NULL NULL).2
  end.

Definition UacpiNtSeedIdtState (g : hal_grant) : RTL_RANGE_LIST :=
  if hg_Count g =? 0 then
    let l := (RtlAddRange RtlInitializeRangeList 0 (UACPINT_DEVICE_VECTOR_FIRST - 1) 0 0 NULL NULL).2 in
    (RtlAddRange l (UACPINT_DEVICE_VECTOR_LAST + 1) UACPINT_MAX_IDT_VECTOR 0 0 NULL NULL).2
  else seed_runs g 257 0 RtlInitializeRangeList.

Record UACPINT_PROCESSOR_IDT := mkIdt { pi_UsedEntries : RTL_RANGE_LIST; pi_Valid : bool }.

Record UACPINT_MESSAGE_RUN := mkRun {
  mr_Owner : PVOID; mr_MessageGsiv : Z; mr_Base : Z; mr_Count : Z; mr_Claimed : bool }.

Record vectors := mkVectors {
  v_Idt : list UACPINT_PROCESSOR_IDT;
  v_IdtCount : nat;
  v_GsivVector : list Z;
  v_Runs : list UACPINT_MESSAGE_RUN
}.

Definition v_set_Idt (idt : list UACPINT_PROCESSOR_IDT) (v : vectors) : vectors :=
  mkVectors idt (v_IdtCount v) (v_GsivVector v) (v_Runs v).
Definition v_set_Runs (runs : list UACPINT_MESSAGE_RUN) (v : vectors) : vectors :=
  mkVectors (v_Idt v) (v_IdtCount v) (v_GsivVector v) runs.

Definition free_run : UACPINT_MESSAGE_RUN := mkRun NULL 0 0 0 false.

(** The zeroed globals. *)
Definition no_vectors : vectors :=
  mkVectors (replicate UACPINT_MAX_PROCESSORS (mkIdt RtlInitializeRangeList false)) 0
    (replicate 256 0) (replicate UACPINT_MAX_MESSAGE_RUNS free_run).

Definition UacpiNtSeedProcessor (g : hal_grant) (Processor : nat) (v : vectors) : vectors :=
  match v_Idt v !! Processor with
  | None => v
  | Some p =>
      if pi_Valid p then v
      else mkVectors (<[Processor := mkIdt (UacpiNtSeedIdtState g) true]> (v_Idt v))
             (Nat.max (v_IdtCount v) (Processor + 1)) (v_GsivVector v) (v_Runs v)
  end.

Inductive processor_state := KeProcessorAddStartNotify | KeProcessorAddCompleteNotify
                           | KeProcessorAddFailureNotify.

Definition UacpiNtProcessorChangeCallback (g : hal_grant) (State : processor_state) (NtNumber : nat)
  (v : vectors) : vectors :=
  match State with
  | KeProcessorAddCompleteNotify =>
      if (NtNumber <? UACPINT_MAX_PROCESSORS)%nat then UacpiNtSeedProcessor g NtNumber v else v
  | _ => v
  end.

(** [KeNumberProcessors] is read as a byte. *)
Definition UacpiNtSeedExistingProcessors (g : hal_grant) (KeNumberProcessors : Z) (v : vectors)
  : vectors :=
  fold_left (fun v p => UacpiNtSeedProcessor g p v)
    (seq 0 (Nat.min (Z.to_nat (u8 KeNumberProcessors)) UACPINT_MAX_PROCESSORS)) v.

(** ** Allocation *)

Definition UacpiNtVectorFreeEverywhere (v : vectors) (Vector : Z) : bool :=
  forallb (fun p => negb (pi_Valid p) ||
                    (RtlIsRangeAvailable (pi_UsedEntries p) Vector Vector 0 0 None None).1)
    (take (v_IdtCount v) (v_Idt v)).

(** The loops that touch the books of every tracked processor. *)
Definition on_processors (f : RTL_RANGE_LIST -> RTL_RANGE_LIST) (v : vectors) : vectors :=
  v_set_Idt (map (fun p => if pi_Valid p then mkIdt (f (pi_UsedEntries p)) true else p)
               (take (v_IdtCount v) (v_Idt v)) ++ drop (v_IdtCount v) (v_Idt v)) v.

Definition UacpiNtClaimVectors (First Last : Z) (Owner : PVOID) (v : vectors) : vectors :=
  on_processors (fun l => (RtlAddRange l First Last 0 0 NULL Owner).2) v.

Fixpoint first_free (v : vectors) (n : nat) (Candidate : Z) : option Z :=
  match n with
  | O => None
  | S n => if UacpiNtVectorFreeEverywhere v Candidate then Some Candidate
           else first_free v n (Candidate + 1)
  end.

Definition device_vectors : nat :=
  Z.to_nat (UACPINT_DEVICE_VECTOR_LAST - UACPINT_DEVICE_VECTOR_FIRST + 1).

Definition UacpiNtApicAllocateVector (Gsiv : Z) (v : vectors) : NTSTATUS * Z * vectors :=
  let Known := nth (Z.to_nat Gsiv) (v_GsivVector v) 0 in
  if (Gsiv <? UACPINT_MAX_GSIV) && negb (Known =? 0) then (STATUS_SUCCESS, Known, v)
  else if (v_IdtCount v =? 0)%nat then (STATUS_UNSUCCESSFUL, 0, v)
  else
    match first_free v device_vectors UACPINT_DEVICE_VECTOR_FIRST with
    | None => (STATUS_INSUFFICIENT_RESOURCES, 0, v)
    | Some Candidate =>
        let v := UacpiNtClaimVectors Candidate Candidate (u32 (Gsiv + 1)) v in
        let v := if Gsiv <? UACPINT_MAX_GSIV
                 then mkVectors (v_Idt v) (v_IdtCount v)
                        (<[Z.to_nat Gsiv := Candidate]> (v_GsivVector v)) (v_Runs v)
                 else v in
        (STATUS_SUCCESS, Candidate, v)
    end.

(** The inner loop: the [n] entries from [Candidate]. *)
Fixpoint run_is_free (v : vectors) (n : nat) (Candidate : Z) : bool :=
  match n with
  | O => true
  | S n => UacpiNtVectorFreeEverywhere v Candidate && run_is_free v n (u32 (Candidate + 1))
  end.

Fixpoint first_run (v : vectors) (fuel : nat) (Count Alignment Candidate : Z) : option Z :=
  match fuel with
  | O => None
  | S fuel =>
      if negb (u32 (Candidate + Count - 1) <=? UACPINT_DEVICE_VECTOR_LAST) then None
      else if run_is_free v (Z.to_nat Count) Candidate then Some Candidate
      else first_run v fuel Count Alignment (u32 (Candidate + Alignment))
  end.

(** A run inside the band starts at most [device_vectors] steps up. *)
Definition UacpiNtApicAllocateVectorRange (Count : Z) (v : vectors) : NTSTATUS * Z * vectors :=
  let Count := if Count =? 0 then 1 else Count in
  if (v_IdtCount v =? 0)%nat then (STATUS_UNSUCCESSFUL, 0, v)
  else
    let Alignment := if negb (Z.land Count (Count - 1) =? 0) then 1 else Count in
    let Candidate := Z.ldiff (u32 (UACPINT_DEVICE_VECTOR_FIRST + Alignment - 1)) (Alignment - 1) in
    match first_run v 256 Count Alignment Candidate with
    | None => (STATUS_INSUFFICIENT_RESOURCES, 0, v)
    | Some Candidate =>
        (STATUS_SUCCESS, Candidate,
         UacpiNtClaimVectors Candidate (u32 (Candidate + Count - 1)) UACPINT_MSI_RANGE_OWNER v)
    end.

Definition UacpiNtApicFreeVectorRange (BaseVector Count : Z) (v : vectors) : vectors :=
  let Count := if Count =? 0 then 1 else Count in
  on_processors (fun l => (RtlDeleteRange l BaseVector (u32 (BaseVector + Count - 1))
                             UACPINT_MSI_RANGE_OWNER).2) v.

(** ** Message runs *)

Definition is_free_run (r : UACPINT_MESSAGE_RUN) : bool := mr_Owner r =? NULL.

Definition same_run (Owner : PVOID) (MessageGsiv Count : Z) (r : UACPINT_MESSAGE_RUN) : bool :=
  (mr_Owner r =? Owner) && (mr_MessageGsiv r =? MessageGsiv) && (mr_Count r =? Count).

(** The full run, or a single vector when it is not to be had; the count that
    was placed comes with it. *)
Definition place_run (Count : Z) (v : vectors) : NTSTATUS * Z * Z * vectors :=
  let '(Status, Base, v1) := UacpiNtApicAllocateVectorRange Count v in
  if negb (NT_SUCCESS Status) && (1 <? Count) then
    let '(RetryStatus, Base, v1) := UacpiNtApicAllocateVectorRange 1 v1 in
    if NT_SUCCESS RetryStatus then (RetryStatus, Base, 1, v1) else (Status, Base, Count, v1)
  else (Status, Base, Count, v1).

(** The status and the base vector; [Apic] is the interrupt model. *)
Definition UacpiNtIrqLibResolveMessageVector (Apic : bool) (Owner : PVOID) (MessageGsiv Count : Z)
  (v : vectors) : NTSTATUS * Z * vectors :=
  let Count := if Count =? 0 then 1 else Count in
  if negb Apic then (STATUS_NOT_SUPPORTED, 0, v)
  else
    match find_index (same_run Owner MessageGsiv Count) (v_Runs v) with
    | Some Index => (STATUS_SUCCESS, mr_Base (nth Index (v_Runs v) free_run), v)
    | None =>
        match find_index is_free_run (v_Runs v) with
        | None => (STATUS_INSUFFICIENT_RESOURCES, 0, v)
        | Some FreeRun =>
            let '(Status, Base, Count, v) := place_run Count v in
            if NT_SUCCESS Status
            then (Status, Base,
                  v_set_Runs (<[FreeRun := mkRun Owner MessageGsiv Base Count false]> (v_Runs v)) v)
            else (Status, Base, v)
        end
    end.

(** The unclaimed run of the owner and the size with the lowest base, the first
    of several. *)
Fixpoint best_run (Owner : PVOID) (Count : Z) (runs : list UACPINT_MESSAGE_RUN) (Index : nat)
  (Best : option (nat * Z)) : option (nat * Z) :=
  match runs with
  | [] => Best
  | r :: runs =>
      let better := match Best with None => true | Some (_, b) => mr_Base r <? b end in
      best_run Owner Count runs (S Index)
        (if (mr_Owner r =? Owner) && (mr_Count r =? Count) && negb (mr_Claimed r) && better
         then Some (Index, mr_Base r) else Best)
  end.

Definition claim_run (r : UACPINT_MESSAGE_RUN) (c : bool) : UACPINT_MESSAGE_RUN :=
  mkRun (mr_Owner r) (mr_MessageGsiv r) (mr_Base r) (mr_Count r) c.

Definition UacpiNtHalAllocateMessageTargetOverride (Passive Apic : bool) (Owner : PVOID)
  (NumberOfIdtEntries : Z) (v : vectors) : NTSTATUS * Z * vectors :=
  let Count := if negb (NumberOfIdtEntries =? 0) then NumberOfIdtEntries else 1 in
  if negb Passive then (STATUS_NOT_SUPPORTED, 0, v)
  else if negb Apic then (STATUS_NOT_SUPPORTED, 0, v)
  else
    match best_run Owner Count (v_Runs v) 0 None with
    | Some (Index, Base) =>
        (STATUS_SUCCESS, Base,
         v_set_Runs (alter (fun r => claim_run r true) Index (v_Runs v)) v)
    | None =>
        match find_index is_free_run (v_Runs v) with
        | None => (STATUS_INSUFFICIENT_RESOURCES, 0, v)
        | Some FreeRun =>
            let '(Status, Base, v) := UacpiNtApicAllocateVectorRange Count v in
            if NT_SUCCESS Status
            then (Status, Base,
                  v_set_Runs (<[FreeRun := mkRun Owner 0 Base Count true]> (v_Runs v)) v)
            else (Status, Base, v)
        end
    end.

Definition run_holds (Owner : PVOID) (Vector : Z) (r : UACPINT_MESSAGE_RUN) : bool :=
  negb (negb (mr_Owner r =? Owner) || (Vector <? mr_Base r) ||
        (u32 (mr_Base r + mr_Count r) <=? Vector)).

Definition UacpiNtHalFreeMessageTargetOverride (Owner : PVOID) (Vector : Z) (v : vectors) : vectors :=
  match find_index (run_holds Owner Vector) (v_Runs v) with
  | None => v
  | Some Index =>
      let Run := nth Index (v_Runs v) free_run in
      if negb (mr_MessageGsiv Run =? 0)
      then v_set_Runs (<[Index := claim_run Run false]> (v_Runs v)) v
      else
        let v := UacpiNtApicFreeVectorRange (mr_Base Run) (mr_Count Run) v in
        v_set_Runs (<[Index := free_run]> (v_Runs v)) v
  end.
End Vectors.

(** ** Bitmap facts *)

Lemma test_bit_word Map b :
  UacpiNtTestBit Map b = Z.testbit (nth (Z.to_nat (b / 32)) Map 0) (b mod 32).
Proof.
  unfold UacpiNtTestBit. rewrite Z.testbit_odd. change 1 with (Z.ones 1) at 1.
  rewrite Z.land_ones by lia. change (2 ^ 1) with 2. rewrite Zmod_odd. by destruct (Z.odd _).
Qed.

Lemma set_bit_length Map b : length (UacpiNtSetBit Map b) = length Map.
Proof. apply length_alter. Qed.

(** Setting a bit sets that bit and no other. *)
Lemma test_set_bit Map b b' :
  length Map = 8%nat -> 0 <= b < 256 -> 0 <= b' ->
  UacpiNtTestBit (UacpiNtSetBit Map b) b' = (b =? b') || UacpiNtTestBit Map b'.
Proof.
  intros Hl Hb Hb'. rewrite !test_bit_word. unfold UacpiNtSetBit. rewrite !nth_lookup.
  pose proof (Z.div_mod b 32 ltac:(lia)). pose proof (Z.div_mod b' 32 ltac:(lia)).
  pose proof (Z.mod_pos_bound b 32 ltac:(lia)). pose proof (Z.mod_pos_bound b' 32 ltac:(lia)).
  pose proof (Z.div_pos b 32 ltac:(lia)). pose proof (Z.div_pos b' 32 ltac:(lia)).
  rewrite list_lookup_alter. destruct (decide _) as [E|E].
  - apply Z2Nat.inj in E; [|lia..]. rewrite <- E.
    destruct (lookup_lt_is_Some_2 Map (Z.to_nat (b / 32))) as [w Hw]; [rewrite Hl; lia|].
    rewrite Hw. simpl. unfold u32. change 4294967296 with (2 ^ 32).
    rewrite Z.mod_pow2_bits_low by lia. rewrite Z.lor_spec, Z.shiftl_1_l, Z.pow2_bits_eqb by lia.
    rewrite orb_comm. f_equal. destruct (b mod 32 =? b' mod 32) eqn:E1, (b =? b') eqn:E2; bool_prop; try done;
      exfalso; (congruence || lia).
  - destruct (b =? b') eqn:E1; bool_prop; [subst; done|]. done.
Qed.

Definition flags_wf (f : gsiv_flags) : Prop :=
  length (gf_Level f) = 8%nat /\ length (gf_ForcedEdge f) = 8%nat /\
  length (gf_ForcedHigh f) = 8%nat /\ length (gf_ForcedLow f) = 8%nat.

Lemma no_flags_wf : flags_wf no_flags.
Proof. done. Qed.

(** ** The grant *)

Definition in_band (x : Z) : bool :=
  (UACPINT_DEVICE_VECTOR_FIRST <=? x) && (x <=? UACPINT_DEVICE_VECTOR_LAST).

(** The vectors a fresh processor leaves open. *)
Definition allowed (g : hal_grant) (x : Z) : bool :=
  if hg_Count g =? 0 then in_band x else UacpiNtHalGrantedVector g x.

Section Books.
Context `{R : RtlRangeList} {L : RtlRangeListLaws R} {X : RtlExclusiveRanges R}.

(** Some recorded range takes the vector. *)
Definition taken (l : RTL_RANGE_LIST) (x : Z) : Prop :=
  Exists (fun k => key_Start k <= x <= key_End k) (rl_keys l).

Lemma clear_one l x : rl_clear l x x <-> ~ taken l x.
Proof using.
  unfold rl_clear, taken. rewrite <- Forall_Exists_neg. rewrite !Forall_forall. split;
    intros H k Hk; specialize (H k Hk); unfold overlaps in *.
  - apply andb_false_iff in H as [H|H]; bool_prop; lia.
  - apply andb_false_iff. destruct (x <=? key_End k) eqn:E1, (key_Start k <=? x) eqn:E2; bool_prop;
      tauto || lia.
Qed.

(** The recorded ranges are not inverted. *)
Definition ranges_ok (l : RTL_RANGE_LIST) : Prop :=
  Forall (fun k => key_Start k <= key_End k) (rl_keys l).

Lemma clear_range l a b :
  a <= b -> ranges_ok l -> (forall x, a <= x <= b -> ~ taken l x) -> rl_clear l a b.
Proof using.
  intros Hab Hok H. apply Forall_forall. intros k Hk. unfold ranges_ok in Hok. rewrite Forall_forall in Hok.
  specialize (Hok _ Hk). destruct (overlaps a b (key_Start k) (key_End k)) eqn:E; [|done].
  unfold overlaps in E. bool_prop. exfalso. apply (H (Z.max a (key_Start k))); [lia|].
  apply Exists_exists. exists k. split; [done|lia].
Qed.

(** A range added where nothing is goes in. *)
Lemma add_clear_keys l a b owner :
  a <= b -> rl_clear l a b ->
  rl_keys (RtlAddRange l a b 0 0 NULL owner).2 ≡ₚ (a, b, owner) :: rl_keys l.
Proof using X.
  intros Hab Hc. pose proof (rl_add_exclusive_succeeds l a b 0 0 NULL owner Hab Hc) as Hs.
  destruct (RtlAddRange l a b 0 0 NULL owner) as [s l'] eqn:E. simpl in *.
  pose proof (rl_add_exclusive _ _ _ _ _ _ _ _ _ E) as P. rewrite Hs in P.
  rewrite !rl_keys_cores. by rewrite P.
Qed.

Lemma taken_add l l' a b owner x :
  rl_keys l' ≡ₚ (a, b, owner) :: rl_keys l -> taken l' x <-> a <= x <= b \/ taken l x.
Proof using. intros E. unfold taken. rewrite E, Exists_cons. done. Qed.

Lemma ranges_ok_add l l' a b owner :
  rl_keys l' ≡ₚ (a, b, owner) :: rl_keys l -> a <= b -> ranges_ok l -> ranges_ok l'.
Proof using. intros E Hab H. unfold ranges_ok. rewrite E. by constructor. Qed.

(** *** Seeding *)

Lemma denied_end_spec g fuel V :
  V <= 256 -> (Z.to_nat (256 - V) <= fuel)%nat ->
  let E := denied_end g fuel V in
  V <= E <= 256 /\ (forall x, V <= x < E -> UacpiNtHalGrantedVector g x = false) /\
  (E = 256 \/ UacpiNtHalGrantedVector g E = true).
Proof using.
  revert V. induction fuel as [|fuel IH]; intros V HV Hf; cbv zeta; simpl.
  - split_and!; intros; lia.
  - destruct (V <=? UACPINT_MAX_IDT_VECTOR) eqn:E1; bool_prop; unfold UACPINT_MAX_IDT_VECTOR in *; simpl.
    + destruct (UacpiNtHalGrantedVector g V) eqn:E2; simpl.
      * split_and!; [lia|lia|intros; lia|by right].
      * destruct (IH (V + 1)) as (H1 & H2 & H3); [lia|lia|]. split_and!; try lia; [|done].
        intros x Hx. destruct (decide (x = V)) as [->|]; [done|]. apply H2. lia.
    + split_and!; intros; lia.
Qed.

Lemma seed_runs_exact g fuel V l :
  0 <= V <= 256 -> (Z.to_nat (257 - V) <= fuel)%nat -> ranges_ok l ->
  Forall (fun k => key_End k < V) (rl_keys l) ->
  (forall x, 0 <= x < V -> taken l x <-> UacpiNtHalGrantedVector g x = false) ->
  let l' := seed_runs g fuel V l in
  ranges_ok l' /\ forall x, 0 <= x < 256 -> taken l' x <-> UacpiNtHalGrantedVector g x = false.
Proof using X.
  revert V l. induction fuel as [|fuel IH]; intros V l HV Hf Hok Hlt Hcov; cbv zeta; [lia|].
  cbn [seed_runs]. unfold UACPINT_MAX_IDT_VECTOR in *.
  destruct (0xFF <? V) eqn:E1; bool_prop.
  { split; [done|]. intros x Hx. apply Hcov. lia. }
  assert (forall x, V <= x -> ~ taken l x) as Habove.
  { intros x Hx Ht. apply Exists_exists in Ht as (k & Hk & Hkx). rewrite Forall_forall in Hlt.
    specialize (Hlt _ Hk). simpl in Hlt. lia. }
  destruct (UacpiNtHalGrantedVector g V) eqn:E2.
  - apply IH; [lia|lia|done| |].
    + eapply Forall_impl; [exact Hlt|]. simpl. lia.
    + intros x Hx. destruct (decide (x = V)) as [->|]; [|apply Hcov; lia].
      rewrite E2. split; [|done]. intros Ht. exfalso. by apply (Habove V).
  - destruct (denied_end_spec g (S fuel) V ltac:(lia) ltac:(lia)) as (H1 & H2 & H3).
    set (E := denied_end g (S fuel) V) in *.
    assert (V < E) as HVE.
    { destruct (decide (V = E)) as [HE|]; [|lia]. rewrite <- HE in H3. destruct H3; [lia|congruence]. }
    pose proof (add_clear_keys l V (E - 1) NULL ltac:(lia)) as Hk.
    specialize (Hk (clear_range _ V (E - 1) ltac:(lia) Hok (fun x Hx => Habove x ltac:(lia)))).
    apply IH; [lia|lia| | |].
    + eapply ranges_ok_add; [exact Hk|lia|done].
    + rewrite Hk. constructor; [simpl; unfold key_End; simpl; lia|].
      eapply Forall_impl; [exact Hlt|]. simpl. lia.
    + intros x Hx. rewrite (taken_add _ _ _ _ _ _ Hk). destruct (decide (x < V)) as [Hl|Hl].
      * rewrite <- Hcov by lia. split; [intros [?|?]; [lia|done]|by right].
      * split; [intros _; apply H2; lia|left; lia].
Qed.

(** A key of the firmware's and the HAL's own vectors. *)
Definition denies (l : RTL_RANGE_LIST) (x : Z) : Prop :=
  Exists (fun k => key_Owner k = NULL /\ key_Start k <= x <= key_End k) (rl_keys l).

Lemma denies_taken l x : denies l x -> taken l x.
Proof using. unfold denies, taken. intros H. eapply Exists_impl; [exact H|]. simpl. tauto. Qed.

Lemma seed_runs_owner g fuel V l :
  Forall (fun k => key_Owner k = NULL) (rl_keys l) ->
  Forall (fun k => key_Owner k = NULL) (rl_keys (seed_runs g fuel V l)).
Proof using X.
  revert V l. induction fuel as [|fuel IH]; intros V l H; [done|]. cbn [seed_runs].
  destruct (_ <? V); [done|]. destruct (UacpiNtHalGrantedVector g V); [by apply IH|]. apply IH.
  destruct (RtlAddRange l V _ 0 0 NULL NULL) as [s l'] eqn:E. simpl.
  pose proof (rl_add_exclusive _ _ _ _ _ _ _ _ _ E) as P. rewrite rl_keys_cores in *.
  destruct (NT_SUCCESS s); rewrite P; [|done]. by constructor.
Qed.

Lemma seed_outcome g :
  let l := UacpiNtSeedIdtState g in
  ranges_ok l /\ Forall (fun k => key_Owner k = NULL) (rl_keys l) /\
  forall x, 0 <= x <= 255 -> taken l x <-> allowed g x = false.
Proof using L X.
  cbv zeta. unfold UacpiNtSeedIdtState, allowed, in_band, UACPINT_DEVICE_VECTOR_FIRST,
    UACPINT_DEVICE_VECTOR_LAST, UACPINT_MAX_IDT_VECTOR.
  assert (forall x, ~ taken RtlInitializeRangeList x) as H0
    by (intros x; unfold taken; rewrite rl_init_keys, Exists_nil; tauto).
  assert (ranges_ok RtlInitializeRangeList) as Hok0 by (unfold ranges_ok; by rewrite rl_init_keys).
  destruct (hg_Count g =? 0).
  - pose proof (add_clear_keys RtlInitializeRangeList 0 (0x50 - 1) NULL ltac:(lia)
      (clear_range RtlInitializeRangeList 0 (0x50 - 1) ltac:(lia) Hok0 (fun x _ => H0 x))) as K1.
    set (l1 := (RtlAddRange RtlInitializeRangeList 0 (0x50 - 1) 0 0 NULL NULL).2) in *.
    assert (ranges_ok l1) as Hok1 by (eapply ranges_ok_add; [exact K1|lia|done]).
    assert (forall x, 0xBF + 1 <= x <= 0xFF -> ~ taken l1 x) as H1.
    { intros x Hx Ht. rewrite (taken_add _ _ _ _ _ _ K1) in Ht. destruct Ht; [lia|by apply (H0 x)]. }
    pose proof (add_clear_keys l1 (0xBF + 1) 0xFF NULL ltac:(lia)
      (clear_range l1 (0xBF + 1) 0xFF ltac:(lia) Hok1 H1)) as K2.
    split_and!.
    + eapply ranges_ok_add; [exact K2|lia|done].
    + rewrite K2, K1, rl_init_keys. by repeat constructor.
    + intros x Hx. rewrite (taken_add _ _ _ _ _ _ K2), (taken_add _ _ _ _ _ _ K1).
      rewrite andb_false_iff, !Z.leb_gt. split.
      * intros [?|[?|Ht]]; [lia|lia|by destruct (H0 x)].
      * intros [?|?]; [right; left; lia|left; lia].
  - destruct (seed_runs_exact g 257 0 RtlInitializeRangeList) as [H1 H2]; try (intros; lia); try done.
    + by rewrite rl_init_keys.
    + split_and!; [done|apply seed_runs_owner; by rewrite rl_init_keys|]. intros x Hx. apply H2. lia.
Qed.

(** The test the allocator makes is exact. *)
Lemma available_not_taken l x :
  (RtlIsRangeAvailable l x x 0 0 None None).1 = true <-> ~ taken l x.
Proof using L X.
  split; [|intros H; by apply rl_clear_available, clear_one].
  destruct (RtlIsRangeAvailable l x x 0 0 None None) as [[] slot] eqn:Ea; [|done].
  pose proof (rl_available_sound _ _ _ _ _ _ _ _ Ea) as Hav. intros _ Ht.
  unfold taken, rl_keys in Ht. apply Exists_exists in Ht as (k & Hk & Hkx).
  apply list_elem_of_fmap in Hk as (r & -> & Hr).
  destruct (Hav r Hr) as [H|[[H _]|[[H _]|(f & s & H & _)]]]; try done.
  - unfold overlaps. unfold rng_key, key_Start, key_End in Hkx. simpl in Hkx.
    apply andb_true_intro. split; apply Z.leb_le; lia.
  - unfold has_flag in H. by rewrite Z.land_0_r in H.
Qed.

(** A processor's books start out with exactly the vectors taken that the
    HAL did not grant: every granted vector is open, every other is closed, and
    without a grant the open vectors are the fixed device band. *)
Theorem seed_idt_exact g x :
  0 <= x <= UACPINT_MAX_IDT_VECTOR ->
  (RtlIsRangeAvailable (UacpiNtSeedIdtState g) x x 0 0 None None).1 = allowed g x.
Proof using L X.
  intros Hx. destruct (seed_outcome g) as (_ & _ & Hs). specialize (Hs x Hx).
  apply eq_true_iff_eq. rewrite available_not_taken, Hs. by destruct (allowed g x).
Qed.

(** *** The processors *)

Definition valid_lists (v : vectors) : list RTL_RANGE_LIST :=
  omap (fun p => if pi_Valid p then Some (pi_UsedEntries p) else None) (take (v_IdtCount v) (v_Idt v)).

Definition free_at (v : vectors) (x : Z) : Prop := Forall (fun l => ~ taken l x) (valid_lists v).

Lemma free_everywhere v x : UacpiNtVectorFreeEverywhere v x = true <-> free_at v x.
Proof using L X.
  unfold UacpiNtVectorFreeEverywhere, free_at, valid_lists. generalize (take (v_IdtCount v) (v_Idt v)).
  intros ps. induction ps as [|p ps IH]; simpl; [done|]. rewrite andb_true_iff, IH.
  destruct (pi_Valid p); simpl; [|tauto]. by rewrite Forall_cons, available_not_taken.
Qed.

Lemma on_processors_lists f v : valid_lists (on_processors f v) = map f (valid_lists v).
Proof using.
  unfold valid_lists, on_processors. simpl. generalize (v_IdtCount v), (v_Idt v).
  intros n ps. revert n. induction ps as [|p ps IH]; intros [|n]; simpl; try done.
  destruct (pi_Valid p) eqn:E; simpl; rewrite ?E; simpl; rewrite IH; done.
Qed.

(** *** Who holds what *)

(** A holder of vectors: a line or a message run, by its place in the table. *)
Inductive slot := Line (g : nat) | Msg (i : nat).

#[global] Instance slot_eq_dec : EqDecision slot.
Proof. solve_decision. Defined.

Definition span (v : vectors) (s : slot) : option (Z * Z) :=
  match s with
  | Line g => match v_GsivVector v !! g with
              | Some x => if x =? 0 then None else Some (x, x)
              | None => None
              end
  | Msg i => match v_Runs v !! i with
             | Some r => if is_free_run r then None
                         else Some (mr_Base r, mr_Base r + mr_Count r - 1)
             | None => None
             end
  end.

Definition owner_of (s : slot) : PVOID :=
  match s with Line g => Z.of_nat g + 1 | Msg _ => UACPINT_MSI_RANGE_OWNER end.

(** The books and the tables agree: every vector handed out is in the band, was
    granted, is written in the books of some processor, and has one holder. *)
Record vectors_inv (g : hal_grant) (v : vectors) : Prop := {
  vi_lines : length (v_GsivVector v) = 256%nat;
  vi_runs : length (v_Runs v) = UACPINT_MAX_MESSAGE_RUNS;
  vi_ok : Forall ranges_ok (valid_lists v);
  vi_denied : Forall (fun l => forall x, 0 <= x <= 255 -> allowed g x = false -> denies l x)
                (valid_lists v);
  vi_band s a b : span v s = Some (a, b) ->
    UACPINT_DEVICE_VECTOR_FIRST <= a <= b /\ b <= UACPINT_DEVICE_VECTOR_LAST;
  vi_granted s a b x : span v s = Some (a, b) -> a <= x <= b -> allowed g x = true;
  vi_recorded s a b : span v s = Some (a, b) ->
    Exists (fun l => (a, b, owner_of s) ∈ rl_keys l) (valid_lists v);
  vi_disjoint s s' a b c d : s <> s' -> span v s = Some (a, b) -> span v s' = Some (c, d) ->
    b < c \/ d < a
}.

(** *** The invariant and the moves of the allocator *)

Section Moves.
Context (g : hal_grant).

(** Adding a free range to every book. *)
Lemma claimed_keys v a b owner l :
  Forall ranges_ok (valid_lists v) -> a <= b -> (forall x, a <= x <= b -> free_at v x) ->
  l ∈ valid_lists v -> rl_keys (RtlAddRange l a b 0 0 NULL owner).2 ≡ₚ (a, b, owner) :: rl_keys l.
Proof using L X.
  intros Hok Hab Hf Hl. apply add_clear_keys; [done|]. rewrite Forall_forall in Hok.
  apply clear_range; [done|by apply Hok|]. intros x Hx. specialize (Hf x Hx).
  unfold free_at in Hf. rewrite Forall_forall in Hf. by apply Hf.
Qed.

(** A recorded span keeps its vectors from being free. *)
Lemma span_not_free v s a b x :
  vectors_inv g v -> span v s = Some (a, b) -> a <= x <= b -> ~ free_at v x.
Proof using.
  intros I Hs Hx Hf. pose proof (vi_recorded _ _ I _ _ _ Hs) as Hr.
  apply Exists_exists in Hr as (l & Hl & Hk). unfold free_at in Hf. rewrite Forall_forall in Hf.
  apply (Hf _ Hl). apply Exists_exists. by exists (a, b, owner_of s).
Qed.

(** A free slot takes a free range. *)
Lemma inv_extend v v' s a b :
  vectors_inv g v -> valid_lists v <> [] ->
  length (v_GsivVector v') = 256%nat -> length (v_Runs v') = UACPINT_MAX_MESSAGE_RUNS ->
  valid_lists v' = map (fun l => (RtlAddRange l a b 0 0 NULL (owner_of s)).2) (valid_lists v) ->
  (forall s', span v' s' = if decide (s' = s) then Some (a, b) else span v s') ->
  UACPINT_DEVICE_VECTOR_FIRST <= a -> a <= b -> b <= UACPINT_DEVICE_VECTOR_LAST ->
  (forall x, a <= x <= b -> free_at v x) -> vectors_inv g v'.
Proof using L X.
  intros I Hne Hlen Hrun Hlists Hspan Ha Hab Hb Hf.
  pose proof (fun l => claimed_keys v a b (owner_of s) l (vi_ok _ _ I) Hab Hf) as K.
  pose proof (vi_ok _ _ I) as Iok. pose proof (vi_denied _ _ I) as Iden.
  rewrite Forall_forall in Iok, Iden. split; try done; rewrite ?Hlists.
  - apply Forall_map, Forall_forall. intros l Hl. eapply ranges_ok_add; [by apply K|done|by apply Iok].
  - apply Forall_map, Forall_forall. intros l Hl x Hx Hal. unfold denies. rewrite (K l Hl), Exists_cons.
    right. by apply Iden.
  - intros s' a' b'. rewrite Hspan. destruct (decide (s' = s)); [intros [= <- <-]; lia|by apply (vi_band _ _ I)].
  - intros s' a' b' x. rewrite Hspan. destruct (decide (s' = s)); [|by apply (vi_granted _ _ I)].
    intros [= <- <-] Hx. destruct (allowed g x) eqn:E; [done|]. exfalso.
    unfold UACPINT_DEVICE_VECTOR_FIRST, UACPINT_DEVICE_VECTOR_LAST in *.
    specialize (Hf x Hx). unfold free_at in Hf. destruct (valid_lists v) as [|l ls]; [done|].
    apply Forall_cons in Hf as [Hf _]. apply Hf, denies_taken, Iden; [by left|lia|done].
  - intros s' a' b'. rewrite Hspan, Exists_map. destruct (decide (s' = s)) as [->|].
    + intros [= <- <-]. destruct (valid_lists v) as [|l ls]; [done|]. apply Exists_cons. left.
      rewrite (K l) by (by left). by left.
    + intros Hs'. pose proof (vi_recorded _ _ I _ _ _ Hs') as Hr. apply Exists_exists in Hr as (l & Hl & Hk).
      apply Exists_exists. exists l. split; [done|]. rewrite (K l Hl). by right.
  - assert (forall s' c d, span v s' = Some (c, d) -> b < c \/ d < a) as Hd.
    { intros s' c d Hs'. destruct (decide (b < c \/ d < a)); [done|]. exfalso.
      pose proof (vi_band _ _ I _ _ _ Hs'). apply (span_not_free v s' c d (Z.max a c) I Hs'); [lia|].
      apply Hf. lia. }
    intros s1 s2 a1 b1 a2 b2 Hne12. rewrite !Hspan.
    destruct (decide (s1 = s)), (decide (s2 = s)); subst; try done.
    + intros [= <- <-] H2. by apply Hd in H2.
    + intros H1 [= <- <-]. apply Hd in H1. lia.
    + by apply (vi_disjoint _ _ I).
Qed.

(** Nothing the tables say about vectors changes. *)
Lemma inv_same v v' :
  vectors_inv g v -> length (v_GsivVector v') = 256%nat ->
  length (v_Runs v') = UACPINT_MAX_MESSAGE_RUNS -> valid_lists v' = valid_lists v ->
  (forall s, span v' s = span v s) -> vectors_inv g v'.
Proof using.
  intros I Hl Hr Hlists Hspan. destruct I. split; try done; rewrite ?Hlists; try done;
    intros *; rewrite ?Hspan; eauto.
Qed.

(** A processor joins with fresh books. *)
Lemma inv_join v v' l :
  vectors_inv g v -> l = UacpiNtSeedIdtState g -> v_GsivVector v' = v_GsivVector v -> v_Runs v' = v_Runs v ->
  (forall l', l' ∈ valid_lists v' -> l' = l \/ l' ∈ valid_lists v) ->
  (forall l', l' ∈ valid_lists v -> l' ∈ valid_lists v') -> vectors_inv g v'.
Proof using L X.
  intros I -> Hg Hr Hin Hin'. destruct (seed_outcome g) as (So & Sn & Ss).
  assert (forall s, span v' s = span v s) as Hspan by (intros [i|i]; simpl; by rewrite ?Hg, ?Hr).
  destruct I as [I1 I2 I3 I4 I5 I6 I7 I8]. rewrite Forall_forall in I3, I4.
  split; try congruence; try (intros *; rewrite ?Hspan; eauto; fail).
  - apply Forall_forall. intros l Hl. apply Hin in Hl as [->|?]; [done|by apply I3].
  - apply Forall_forall. intros l Hl. apply Hin in Hl as [->|?]; [|by apply I4].
    intros x Hx Hal. apply (Ss x Hx) in Hal. unfold taken, denies in *.
    rewrite Forall_forall in Sn. apply Exists_exists in Hal as (k & Hk & Hkx).
    apply Exists_exists. exists k. split; [done|]. split; [by apply Sn|done].
  - intros s a b. rewrite Hspan. intros Hs. pose proof (I7 _ _ _ Hs) as H.
    apply Exists_exists in H as (l & Hl & Hk). apply Exists_exists. exists l. eauto.
Qed.

(** A message run is given back. *)
Lemma inv_release v v' i a b :
  vectors_inv g v -> span v (Msg i) = Some (a, b) ->
  length (v_GsivVector v') = 256%nat -> length (v_Runs v') = UACPINT_MAX_MESSAGE_RUNS ->
  valid_lists v' = map (fun l => (RtlDeleteRange l a b UACPINT_MSI_RANGE_OWNER).2) (valid_lists v) ->
  (forall s', span v' s' = if decide (s' = Msg i) then None else span v s') -> vectors_inv g v'.
Proof using L.
  intros I Hi Hlen Hrun Hlists Hspan.
  assert (forall l k, k ∈ rl_keys l -> k <> (a, b, UACPINT_MSI_RANGE_OWNER) ->
            k ∈ rl_keys (RtlDeleteRange l a b UACPINT_MSI_RANGE_OWNER).2) as Hkeep.
  { intros l k Hk Hne. destruct (RtlDeleteRange l a b _) as [s l'] eqn:E. simpl.
    pose proof (rl_delete_ranges _ _ _ _ _ _ E) as P. rewrite rl_keys_cores in *.
    destruct (NT_SUCCESS s); [|by rewrite P]. destruct P as (c & Hc & P). rewrite P in Hk. simpl in Hk.
    apply elem_of_cons in Hk as [->|?]; [congruence|done]. }
  assert (forall l k, k ∈ rl_keys (RtlDeleteRange l a b UACPINT_MSI_RANGE_OWNER).2 -> k ∈ rl_keys l) as Hsub.
  { intros l k Hk. destruct (RtlDeleteRange l a b _) as [s l'] eqn:E. simpl in Hk.
    pose proof (rl_delete_ranges _ _ _ _ _ _ E) as P. rewrite rl_keys_cores in *.
    destruct (NT_SUCCESS s); [|by rewrite <- P]. destruct P as (c & Hc & P). rewrite P. by right. }
  destruct I as [I1 I2 I3 I4 I5 I6 I7 I8]. rewrite Forall_forall in I3, I4.
  split; try done; rewrite ?Hlists;
    try (intros *; rewrite !Hspan; destruct (decide _); try done; eauto; fail).
  - apply Forall_map, Forall_forall. intros l Hl. apply Forall_forall. intros k Hk.
    pose proof (I3 _ Hl) as Hok. unfold ranges_ok in Hok. rewrite Forall_forall in Hok. by apply Hok, Hsub.
  - apply Forall_map, Forall_forall. intros l Hl x Hx Hal. specialize (I4 _ Hl x Hx Hal).
    apply Exists_exists in I4 as (k & Hk & Ho & Hkx). apply Exists_exists. exists k.
    split; [|done]. apply Hkeep; [done|]. intros ->. done.
  - intros s' c d. rewrite Hspan, Exists_map. destruct (decide (s' = Msg i)); [done|]. intros Hs'.
    pose proof (I7 _ _ _ Hs') as H. apply Exists_exists in H as (l & Hl & Hk).
    apply Exists_exists. exists l. split; [done|]. apply Hkeep; [done|].
    intros [= -> -> _]. pose proof (I8 s' (Msg i) _ _ _ _ ltac:(done) Hs' Hi).
    pose proof (I5 _ _ _ Hs'). lia.
  - intros s1 s2 a1 b1 a2 b2 Hne. rewrite !Hspan.
    destruct (decide (s1 = Msg i)), (decide (s2 = Msg i)); try done. by apply I8.
Qed.
End Moves.

(** ** The searches *)

Lemma first_free_spec v n c :
  match first_free v n c with
  | Some x => c <= x < c + Z.of_nat n /\ free_at v x /\ (forall y, c <= y < x -> ~ free_at v y)
  | None => forall y, c <= y < c + Z.of_nat n -> ~ free_at v y
  end.
Proof using L X.
  revert c. induction n as [|n IH]; intros c; simpl; [intros; lia|].
  destruct (UacpiNtVectorFreeEverywhere v c) eqn:E.
  - apply free_everywhere in E. split_and!; [lia|lia|done|intros; lia].
  - assert (~ free_at v c) as Hc by (rewrite <- free_everywhere; congruence).
    specialize (IH (c + 1)). destruct (first_free v n (c + 1)) as [x|].
    + destruct IH as (H1 & H2 & H3). split_and!; [lia|lia|done|]. intros y Hy.
      destruct (decide (y = c)) as [->|]; [done|]. apply H3. lia.
    + intros y Hy. destruct (decide (y = c)) as [->|]; [done|]. apply IH. lia.
Qed.

Lemma run_is_free_spec v n c :
  0 <= c -> c + Z.of_nat n <= 4294967296 ->
  run_is_free v n c = true <-> forall y, c <= y < c + Z.of_nat n -> free_at v y.
Proof using L X.
  revert c. induction n as [|n IH]; intros c Hc Hn; simpl; [split; [intros; lia|done]|].
  rewrite andb_true_iff, free_everywhere. destruct (decide (n = 0%nat)) as [->|Hn0].
  - simpl. split; [intros [H _] y Hy; by replace y with c by lia|]. intros H. split; [apply H; lia|done].
  - rewrite u32_small by lia. rewrite IH by lia. split.
    + intros [H1 H2] y Hy. destruct (decide (y = c)) as [->|]; [done|]. apply H2. lia.
    + intros H. split; [apply H; lia|]. intros y Hy. apply H. lia.
Qed.

Lemma first_run_spec v fuel Count A c :
  1 <= Count < 0x40000000 -> 1 <= A -> A < 0x40000000 ->
  UACPINT_DEVICE_VECTOR_FIRST <= c < 0x60000000 -> (Z.to_nat (0xC0 - c) < fuel)%nat ->
  match first_run v fuel Count A c with
  | Some x => (exists k, 0 <= k /\ x = c + k * A) /\ x + Count - 1 <= UACPINT_DEVICE_VECTOR_LAST /\
              (forall y, x <= y < x + Count -> free_at v y)
  | None => forall k, 0 <= k -> c + k * A + Count - 1 <= UACPINT_DEVICE_VECTOR_LAST ->
              ~ (forall y, c + k * A <= y < c + k * A + Count -> free_at v y)
  end.
Proof using L X.
  intros HC HA HA' Hc. revert c Hc. unfold UACPINT_DEVICE_VECTOR_FIRST, UACPINT_DEVICE_VECTOR_LAST.
  induction fuel as [|fuel IH]; intros c Hc Hf; [lia|]. cbn [first_run].
  unfold UACPINT_DEVICE_VECTOR_LAST. rewrite u32_small by lia.
  destruct (c + Count - 1 <=? 0xBF) eqn:E; bool_prop; simpl; [|intros k Hk Hl; nia].
  pose proof (run_is_free_spec v (Z.to_nat Count) c) as Hr. rewrite Z2Nat.id in Hr by lia.
  specialize (Hr ltac:(lia) ltac:(lia)). destruct (run_is_free v (Z.to_nat Count) c).
  - split_and!; [exists 0; lia|lia|]. by apply Hr.
  - rewrite u32_small by lia. specialize (IH (c + A) ltac:(lia) ltac:(lia)).
    destruct (first_run v fuel Count A (c + A)) as [x|].
    + destruct IH as ((k & Hk & ->) & H2 & H3). split_and!; [|done|done]. exists (k + 1). lia.
    + intros k Hk Hl Hfree. destruct (decide (k = 0)) as [->|].
      * assert (false = true); [|done]. apply Hr. intros y Hy. apply Hfree. lia.
      * apply (IH (k - 1)); [lia|lia|]. intros y Hy. apply Hfree. lia.
Qed.

(** A number with no bit in common with its predecessor is a power of two. *)
Lemma land_pred_pow2 c : 0 < c -> Z.land c (c - 1) = 0 -> c = 2 ^ Z.log2 c.
Proof using.
  intros Hc Hl. destruct (Z.log2_spec c Hc) as [H1 H2].
  destruct (decide (c = 2 ^ Z.log2 c)) as [|Hne]; [done|]. exfalso.
  assert (Z.log2 (c - 1) = Z.log2 c) as Hlog.
  { apply Z.log2_unique; [apply Z.log2_nonneg|]. lia. }
  assert (0 < c - 1) as Hp.
  { pose proof (Z.pow_pos_nonneg 2 (Z.log2 c) ltac:(lia) (Z.log2_nonneg c)). lia. }
  pose proof (Z.bit_log2 c Hc) as B1. pose proof (Z.bit_log2 (c - 1) Hp) as B2. rewrite Hlog in B2.
  apply (f_equal (fun z => Z.testbit z (Z.log2 c))) in Hl. rewrite Z.land_spec, B1, B2, Z.bits_0 in Hl. done.
Qed.

(** The alignment of a run: its length when that is a power of two. *)
Definition run_alignment (Count : Z) : Z := if Z.land Count (Count - 1) =? 0 then Count else 1.

(** The first candidate is the first aligned vector of the band. *)
Lemma first_candidate A :
  (exists k, 0 <= k /\ A = 2 ^ k) -> A < 0x40000000 ->
  let c := Z.ldiff (u32 (UACPINT_DEVICE_VECTOR_FIRST + A - 1)) (A - 1) in
  UACPINT_DEVICE_VECTOR_FIRST <= c < 0x60000000 /\ c mod A = 0 /\
  forall x, UACPINT_DEVICE_VECTOR_FIRST <= x -> x mod A = 0 -> c <= x.
Proof using.
  intros (k & Hk & ->) HA. cbv zeta. unfold UACPINT_DEVICE_VECTOR_FIRST.
  pose proof (Z.pow_pos_nonneg 2 k ltac:(lia) Hk) as Hp. rewrite u32_small by lia.
  replace (2 ^ k - 1) with (Z.ones k) by (rewrite Z.ones_equiv; lia).
  rewrite Z.ldiff_ones_r, Z.shiftr_div_pow2, Z.shiftl_mul_pow2 by done. set (A := 2 ^ k) in *.
  pose proof (Z.div_mod (0x50 + A - 1) A ltac:(lia)).
  pose proof (Z.mod_pos_bound (0x50 + A - 1) A Hp).
  assert ((0x50 + A - 1) / A * A mod A = 0) as Hm by (apply Z.mod_mul; lia).
  split_and!; [lia|lia|done|]. intros x Hx Hx'. apply (aligned_gap A); (done || lia).
Qed.

(** ** Allocating *)

Lemma claim_lists a b owner v :
  valid_lists (UacpiNtClaimVectors a b owner v) =
    map (fun l => (RtlAddRange l a b 0 0 NULL owner).2) (valid_lists v).
Proof using. apply on_processors_lists. Qed.

(** What the search for a run returns, with the books it leaves. *)
Lemma allocate_range_outcome v Count s x v' :
  1 <= Count < 0x40000000 -> UacpiNtApicAllocateVectorRange Count v = (s, x, v') ->
  if NT_SUCCESS s
  then v' = UacpiNtClaimVectors x (x + Count - 1) UACPINT_MSI_RANGE_OWNER v /\
       v_IdtCount v <> 0%nat /\ UACPINT_DEVICE_VECTOR_FIRST <= x /\
       x + Count - 1 <= UACPINT_DEVICE_VECTOR_LAST /\ x mod run_alignment Count = 0 /\
       (forall y, x <= y < x + Count -> free_at v y)
  else v' = v /\
       (v_IdtCount v <> 0%nat -> forall z, UACPINT_DEVICE_VECTOR_FIRST <= z ->
          z + Count - 1 <= UACPINT_DEVICE_VECTOR_LAST -> z mod run_alignment Count = 0 ->
          ~ forall y, z <= y < z + Count -> free_at v y).
Proof using L X.
  intros HC. unfold UacpiNtApicAllocateVectorRange.
  destruct (Count =? 0) eqn:E0; bool_prop; [lia|].
  destruct (v_IdtCount v =? 0)%nat eqn:Ei; [apply Nat.eqb_eq in Ei; intros [= <- <- <-]; simpl; by split|].
  apply Nat.eqb_neq in Ei.
  assert ((if negb (Z.land Count (Count - 1) =? 0) then 1 else Count) = run_alignment Count) as ->
    by (unfold run_alignment; by destruct (_ =? 0)).
  set (A := run_alignment Count).
  assert ((exists k, 0 <= k /\ A = 2 ^ k) /\ 1 <= A < 0x40000000) as [HA1 HA2].
  { unfold A, run_alignment. destruct (_ =? 0) eqn:E; bool_prop; [|split; [by exists 0|lia]].
    split; [|lia]. exists (Z.log2 Count). split; [apply Z.log2_nonneg|apply land_pred_pow2; lia]. }
  destruct (first_candidate A HA1 ltac:(lia)) as (Hc1 & Hc2 & Hc3).
  set (c := Z.ldiff _ _) in *.
  pose proof (first_run_spec v 256 Count A c HC ltac:(lia) ltac:(lia) Hc1) as Hr.
  unfold UACPINT_DEVICE_VECTOR_FIRST, UACPINT_DEVICE_VECTOR_LAST in *.
  specialize (Hr ltac:(lia)). destruct (first_run v 256 Count A c) as [y|]; intros [= <- <- <-]; simpl.
  - destruct Hr as ((k & Hk & ->) & Hl & Hf). rewrite u32_small by nia. split_and!; try (done || nia).
    by rewrite Z.mod_add by lia.
  - split; [done|]. intros _ z Hz Hl Hm Hf. specialize (Hc3 z Hz Hm).
    assert ((z - c) mod A = 0) as Hzm by (by rewrite Zminus_mod, Hm, Hc2).
    assert (c + (z - c) / A * A = z) as Hzc by (pose proof (Z.div_mod (z - c) A ltac:(lia)); lia).
    apply (Hr ((z - c) / A)); rewrite ?Hzc; [apply Z.div_pos; lia|lia|done].
Qed.

Lemma place_run_outcome v Count s x n v' :
  1 <= Count < 0x40000000 -> place_run Count v = (s, x, n, v') ->
  if NT_SUCCESS s
  then v' = UacpiNtClaimVectors x (x + n - 1) UACPINT_MSI_RANGE_OWNER v /\
       v_IdtCount v <> 0%nat /\ UACPINT_DEVICE_VECTOR_FIRST <= x /\
       x + n - 1 <= UACPINT_DEVICE_VECTOR_LAST /\ 1 <= n /\ (n = Count \/ n = 1) /\
       (forall y, x <= y < x + n -> free_at v y)
  else v' = v.
Proof using L X.
  intros HC. unfold place_run.
  destruct (UacpiNtApicAllocateVectorRange Count v) as [[s1 x1] v1] eqn:E1.
  pose proof (allocate_range_outcome _ _ _ _ _ HC E1) as H1.
  destruct (NT_SUCCESS s1) eqn:Es; simpl.
  - intros [= <- <- <- <-]. rewrite Es. destruct H1 as (? & ? & ? & ? & ? & ?). split_and!; auto; lia.
  - destruct H1 as [-> _]. destruct (1 <? Count); [|intros [= <- <- <- <-]; by rewrite Es].
    destruct (UacpiNtApicAllocateVectorRange 1 v) as [[s2 x2] v2] eqn:E2.
    pose proof (allocate_range_outcome v 1 _ _ _ ltac:(lia) E2) as H2.
    destruct (NT_SUCCESS s2) eqn:Es2; intros [= <- <- <- <-].
    + rewrite Es2. destruct H2 as (? & ? & ? & ? & ? & ?). split_and!; auto; lia.
    + rewrite Es. apply H2.
Qed.

(** ** Every step keeps the invariant *)

Section Steps.
Context (g : hal_grant).

(** A tracked processor is there. *)
Definition started (v : vectors) : Prop := valid_lists v <> [].

Lemma span_line_insert v i x s :
  length (v_GsivVector v) = 256%nat -> (i < 256)%nat -> x <> 0 ->
  span (mkVectors (v_Idt v) (v_IdtCount v) (<[i := x]> (v_GsivVector v)) (v_Runs v)) s =
    if decide (s = Line i) then Some (x, x) else span v s.
Proof using.
  intros Hl Hi Hx. destruct s as [j|j]; simpl; [|done].
  destruct (decide (Line j = Line i)) as [[= ->]|Hne].
  - rewrite list_lookup_insert_eq by lia. destruct (x =? 0) eqn:E; bool_prop; [lia|done].
  - rewrite list_lookup_insert_ne by congruence. done.
Qed.

Lemma span_run_insert v i r s :
  (i < length (v_Runs v))%nat ->
  span (v_set_Runs (<[i := r]> (v_Runs v)) v) s =
    if decide (s = Msg i)
    then (if is_free_run r then None else Some (mr_Base r, mr_Base r + mr_Count r - 1)) else span v s.
Proof using.
  intros Hi. destruct s as [j|j]; simpl; [done|].
  destruct (decide (Msg j = Msg i)) as [[= ->]|Hne].
  - by rewrite list_lookup_insert_eq by lia.
  - by rewrite list_lookup_insert_ne by congruence.
Qed.

(** Books may also grow without a table entry. *)
Lemma inv_grow v v' a b owner :
  vectors_inv g v -> a <= b -> (forall x, a <= x <= b -> free_at v x) ->
  v_GsivVector v' = v_GsivVector v -> v_Runs v' = v_Runs v ->
  valid_lists v' = map (fun l => (RtlAddRange l a b 0 0 NULL owner).2) (valid_lists v) ->
  vectors_inv g v'.
Proof using L X.
  intros I Hab Hf Hg Hr Hl.
  pose proof (fun l => claimed_keys v a b owner l (vi_ok _ _ I) Hab Hf) as K.
  assert (forall s, span v' s = span v s) as Hspan by (intros [i|i]; simpl; by rewrite ?Hg, ?Hr).
  destruct I as [I1 I2 I3 I4 I5 I6 I7 I8]. rewrite Forall_forall in I3, I4.
  split; rewrite ?Hl; try congruence; try (intros *; rewrite ?Hspan; eauto; fail).
  - apply Forall_map, Forall_forall. intros l Hin. eapply ranges_ok_add; [by apply K|done|by apply I3].
  - apply Forall_map, Forall_forall. intros l Hin x Hx Hal. unfold denies. rewrite (K l Hin), Exists_cons.
    right. by apply I4.
  - intros s c d. rewrite Hspan, Exists_map. intros Hs. pose proof (I7 _ _ _ Hs) as H.
    apply Exists_exists in H as (l & Hin & Hk). apply Exists_exists. exists l. split; [done|].
    rewrite (K l Hin). by right.
Qed.

Lemma allocate_line_inv v Gsiv s x v' :
  vectors_inv g v -> started v -> 0 <= Gsiv < 4294967296 ->
  UacpiNtApicAllocateVector Gsiv v = (s, x, v') -> vectors_inv g v'.
Proof using L X.
  intros I Hst HG. unfold UacpiNtApicAllocateVector.
  destruct ((Gsiv <? UACPINT_MAX_GSIV) && _) eqn:Ek; [by intros [= <- <- <-]|].
  destruct (v_IdtCount v =? 0)%nat; [by intros [= <- <- <-]|].
  pose proof (first_free_spec v device_vectors UACPINT_DEVICE_VECTOR_FIRST) as Hf.
  change (Z.of_nat device_vectors) with 112 in Hf.
  destruct (first_free v _ _) as [c|]; [|by intros [= <- <- <-]]. intros [= <- <- <-].
  destruct Hf as (Hc & Hfree & _). unfold UACPINT_DEVICE_VECTOR_FIRST in Hc.
  assert (forall y, c <= y <= c -> free_at v y) as Hall by (intros y Hy; by replace y with c by lia).
  destruct (Gsiv <? UACPINT_MAX_GSIV) eqn:EG; bool_prop; unfold UACPINT_MAX_GSIV in *.
  - assert (owner_of (Line (Z.to_nat Gsiv)) = u32 (Gsiv + 1)) as Ho.
    { simpl. rewrite u32_small by lia. lia. }
    eapply (inv_extend g v _ (Line (Z.to_nat Gsiv)) c c); try done; simpl.
    + rewrite length_insert. apply (vi_lines _ _ I).
    + apply (vi_runs _ _ I).
    + rewrite <- Ho. apply (claim_lists c c (owner_of (Line (Z.to_nat Gsiv)))).
    + intros s'. apply (span_line_insert (UacpiNtClaimVectors c c (u32 (Gsiv + 1)) v));
        [apply (vi_lines _ _ I)|lia|lia].
    + unfold UACPINT_DEVICE_VECTOR_FIRST. lia.
    + unfold UACPINT_DEVICE_VECTOR_LAST. lia.
  - eapply (inv_grow v _ c c (u32 (Gsiv + 1))); try done. apply claim_lists.
Qed.

(** A run goes into a free table entry. *)
Lemma place_in_entry v i x n r v' :
  vectors_inv g v -> started v -> find_index is_free_run (v_Runs v) = Some i ->
  UACPINT_DEVICE_VECTOR_FIRST <= x -> x + n - 1 <= UACPINT_DEVICE_VECTOR_LAST -> 1 <= n ->
  (forall y, x <= y < x + n -> free_at v y) ->
  mr_Owner r <> NULL -> mr_Base r = x -> mr_Count r = n ->
  v' = UacpiNtClaimVectors x (x + n - 1) UACPINT_MSI_RANGE_OWNER v ->
  vectors_inv g (v_set_Runs (<[i := r]> (v_Runs v')) v').
Proof using L X.
  intros I Hst Hi Hx Hl Hn Hf Ho Hb Hc ->. apply find_index_some in Hi as (r0 & Hi & _).
  apply lookup_lt_Some in Hi as Hlt. unfold UACPINT_DEVICE_VECTOR_FIRST in *.
  eapply (inv_extend g v _ (Msg i) x (x + n - 1)); try done; try lia; simpl.
  - apply (vi_lines _ _ I).
  - rewrite length_insert. apply (vi_runs _ _ I).
  - apply (claim_lists x (x + n - 1) UACPINT_MSI_RANGE_OWNER).
  - intros s'. rewrite <- Hb, <- Hc.
    rewrite (span_run_insert (UacpiNtClaimVectors _ _ UACPINT_MSI_RANGE_OWNER v)) by done.
    unfold is_free_run. destruct (mr_Owner r =? NULL) eqn:E; bool_prop; [done|]. by destruct s'.
  - intros y Hy. apply Hf. lia.
Qed.

Lemma resolve_message_inv v Owner MessageGsiv Count s x v' :
  vectors_inv g v -> started v -> Owner <> NULL -> 0 <= Count < 0x40000000 ->
  UacpiNtIrqLibResolveMessageVector true Owner MessageGsiv Count v = (s, x, v') -> vectors_inv g v'.
Proof using L X.
  intros I Hst Ho HC. unfold UacpiNtIrqLibResolveMessageVector. simpl.
  set (n := if Count =? 0 then 1 else Count).
  assert (1 <= n < 0x40000000) as Hn by (unfold n; destruct (Count =? 0) eqn:E; bool_prop; lia).
  destruct (find_index (same_run _ _ _) _); [by intros [= <- <- <-]|].
  destruct (find_index is_free_run (v_Runs v)) as [i|] eqn:Ei; [|by intros [= <- <- <-]].
  destruct (place_run n v) as [[[s1 x1] n1] v1] eqn:Ep.
  pose proof (place_run_outcome _ _ _ _ _ _ Hn Ep) as Hp.
  destruct (NT_SUCCESS s1); intros [= <- <- <-]; [|by subst].
  destruct Hp as (-> & _ & H1 & H2 & H3 & _ & H4).
  by eapply (place_in_entry v i x1 n1).
Qed.

Lemma best_run_some Owner Count runs k best i b :
  best_run Owner Count runs k best = Some (i, b) ->
  (best = Some (i, b)) \/ exists r, runs !! (i - k)%nat = Some r /\ (k <= i)%nat /\ mr_Base r = b /\
    mr_Owner r = Owner /\ mr_Count r = Count /\ mr_Claimed r = false.
Proof using.
  revert k best. induction runs as [|r runs IH]; intros k best; simpl; [by left|]. intros H.
  apply IH in H as [H|(r' & H & Hk & H1 & H2 & H3 & H4)].
  - destruct (_ && _) eqn:E; [|by left]. right. injection H as <- <-. bool_prop.
    exists r. rewrite Nat.sub_diag. done.
  - right. exists r'. replace (i - k)%nat with (S (i - S k)) by lia. split_and!; (done || lia).
Qed.

Lemma span_claim v i c s :
  span (v_set_Runs (alter (fun r => claim_run r c) i (v_Runs v)) v) s = span v s.
Proof using.
  destruct s as [j|j]; simpl; [done|]. rewrite list_lookup_alter.
  destruct (decide (i = j)) as [->|]; [|done]. by destruct (v_Runs v !! j).
Qed.

Lemma hal_allocate_inv v Passive Apic Owner n s x v' :
  vectors_inv g v -> started v -> Owner <> NULL -> 0 <= n < 0x40000000 ->
  UacpiNtHalAllocateMessageTargetOverride Passive Apic Owner n v = (s, x, v') -> vectors_inv g v'.
Proof using L X.
  intros I Hst Ho Hn. unfold UacpiNtHalAllocateMessageTargetOverride.
  destruct Passive, Apic; simpl; try (by intros [= <- <- <-]).
  set (m := if negb (n =? 0) then n else 1).
  assert (1 <= m < 0x40000000) as Hm by (unfold m; destruct (n =? 0) eqn:E; simpl; bool_prop; lia).
  destruct (best_run Owner m (v_Runs v) 0 None) as [[i b]|].
  - intros [= <- <- <-]. apply (inv_same g v); try done; simpl.
    + apply (vi_lines _ _ I).
    + rewrite length_alter. apply (vi_runs _ _ I).
    + intros s'. apply span_claim.
  - destruct (find_index is_free_run (v_Runs v)) as [i|] eqn:Ei; [|by intros [= <- <- <-]].
    destruct (UacpiNtApicAllocateVectorRange m v) as [[s1 x1] v1] eqn:Ep.
    pose proof (allocate_range_outcome _ _ _ _ _ Hm Ep) as Hp.
    destruct (NT_SUCCESS s1); intros [= <- <- <-]; [|by destruct Hp as [-> _]].
    destruct Hp as (-> & _ & H1 & H2 & H3 & H4). eapply (place_in_entry v i x1 m); try done. lia.
Qed.

Lemma hal_free_inv v Owner Vector :
  vectors_inv g v -> Owner <> NULL ->
  vectors_inv g (UacpiNtHalFreeMessageTargetOverride Owner Vector v).
Proof using L.
  intros I Ho. unfold UacpiNtHalFreeMessageTargetOverride.
  destruct (find_index _ _) as [i|] eqn:Ei; [|done]. apply find_index_some in Ei as (r & Hi & Hr).
  rewrite (nth_lookup_Some _ _ _ _ Hi). apply lookup_lt_Some in Hi as Hlt.
  unfold run_holds in Hr. bool_prop.
  assert (span v (Msg i) = Some (mr_Base r, mr_Base r + mr_Count r - 1)) as Hs.
  { simpl. rewrite Hi. unfold is_free_run. destruct (mr_Owner r =? NULL) eqn:E; bool_prop; [congruence|done]. }
  pose proof (vi_band _ _ I _ _ _ Hs) as Hb.
  unfold UACPINT_DEVICE_VECTOR_FIRST, UACPINT_DEVICE_VECTOR_LAST in Hb.
  destruct (negb (mr_MessageGsiv r =? 0)).
  - rewrite <- (alter_insert_lookup (fun r => claim_run r false) _ i r Hi).
    apply (inv_same g v); try done; simpl; [apply (vi_lines _ _ I)| |].
    + rewrite length_alter. apply (vi_runs _ _ I).
    + intros s'. apply span_claim.
  - eapply (inv_release g v _ i _ _ I Hs); simpl.
    + apply (vi_lines _ _ I).
    + rewrite length_insert. apply (vi_runs _ _ I).
    + unfold UacpiNtApicFreeVectorRange.
      destruct (mr_Count r =? 0) eqn:E0; bool_prop; [lia|]. rewrite u32_small by lia.
      apply on_processors_lists.
    + intros s'. rewrite (span_run_insert (UacpiNtApicFreeVectorRange (mr_Base r) (mr_Count r) v)) by done.
      destruct (decide (s' = Msg i)); [done|]. by destruct s'.
Qed.

(** *** Processors come and go *)

Definition validity (v : vectors) : list bool := map pi_Valid (v_Idt v).

(** Untracked entries are not valid. *)
Definition tracked (v : vectors) : Prop :=
  forall i, validity v !! i = Some true -> (i < v_IdtCount v)%nat.

Lemma on_processors_validity f v : validity (on_processors f v) = validity v.
Proof using.
  unfold validity, on_processors. simpl. generalize (v_IdtCount v), (v_Idt v). intros n ps. revert n.
  induction ps as [|p ps IH]; intros [|n]; simpl; try done. rewrite IH.
  by destruct (pi_Valid p) eqn:E; simpl; rewrite ?E.
Qed.

Lemma elem_valid_lists v l :
  l ∈ valid_lists v <->
  exists i p, (i < v_IdtCount v)%nat /\ v_Idt v !! i = Some p /\ pi_Valid p = true /\ pi_UsedEntries p = l.
Proof using.
  unfold valid_lists. rewrite list_elem_of_omap. split.
  - intros (p & Hp & Hv). apply list_elem_of_lookup in Hp as [i Hi].
    apply lookup_take_Some in Hi as [Hi Hlt]. destruct (pi_Valid p) eqn:E; [|done].
    injection Hv as <-. by exists i, p.
  - intros (i & p & Hlt & Hi & Hv & <-). exists p. rewrite Hv. split; [|done].
    apply list_elem_of_lookup. exists i. by apply lookup_take_Some.
Qed.

Lemma seed_processor_inv v p :
  vectors_inv g v -> tracked v ->
  vectors_inv g (UacpiNtSeedProcessor g p v) /\ tracked (UacpiNtSeedProcessor g p v).
Proof using L X.
  intros I Ht. unfold UacpiNtSeedProcessor. destruct (v_Idt v !! p) as [q|] eqn:Ep; [|done].
  destruct (pi_Valid q) eqn:Eq; [done|]. apply lookup_lt_Some in Ep as Hlt. split.
  - eapply (inv_join g v _ (UacpiNtSeedIdtState g)); try done.
    + intros l. rewrite !elem_valid_lists. simpl. intros (i & r & Hi & Hr & Hv & <-).
      destruct (decide (i = p)) as [->|Hne].
      * rewrite list_lookup_insert_eq in Hr by done. injection Hr as <-. by left.
      * rewrite list_lookup_insert_ne in Hr by done. right. exists i, r. split_and!; try done.
        apply Ht. unfold validity. rewrite list_lookup_fmap, Hr. simpl. by rewrite Hv.
    + intros l. rewrite !elem_valid_lists. simpl. intros (i & r & Hi & Hr & Hv & <-).
      exists i, r. split_and!; try done; [lia|].
      rewrite list_lookup_insert_ne; [done|]. intros ->. congruence.
  - intros i. unfold validity. simpl. rewrite list_lookup_fmap. intros Hi.
    apply fmap_Some in Hi as (r & Hr & Hv). destruct (decide (i = p)) as [->|Hne]; [lia|].
    rewrite list_lookup_insert_ne in Hr by done.
    pose proof (Ht i) as H. unfold validity in H. rewrite list_lookup_fmap, Hr in H. simpl in H.
    rewrite <- Hv in H. specialize (H eq_refl). lia.
Qed.
End Steps.

(** ** The library as a state machine *)

(** What the driver and the HAL ask of the library, one call a step: a line
    resolved, a run of messages resolved, a message target allocated or freed
    through the HAL's slots, a processor added. *)
Inductive irq_step (g : hal_grant) : vectors -> vectors -> Prop :=
| step_line Gsiv v s x v' :
    0 <= Gsiv < 4294967296 -> UacpiNtApicAllocateVector Gsiv v = (s, x, v') -> irq_step g v v'
| step_message Owner MessageGsiv Count v s x v' :
    Owner <> NULL -> 0 <= Count < 0x40000000 ->
    UacpiNtIrqLibResolveMessageVector true Owner MessageGsiv Count v = (s, x, v') -> irq_step g v v'
| step_hal_allocate Passive Owner Count v s x v' :
    Owner <> NULL -> 0 <= Count < 0x40000000 ->
    UacpiNtHalAllocateMessageTargetOverride Passive true Owner Count v = (s, x, v') -> irq_step g v v'
| step_hal_free Owner Vector v :
    Owner <> NULL -> irq_step g v (UacpiNtHalFreeMessageTargetOverride Owner Vector v)
| step_processor State NtNumber v :
    irq_step g v (UacpiNtProcessorChangeCallback g State NtNumber v).

(** From the processors present at start. *)
Definition reachable (g : hal_grant) (v : vectors) : Prop :=
  exists n, 1 <= n <= 255 /\ rtc (irq_step g) (UacpiNtSeedExistingProcessors g n no_vectors) v.

Definition lib_inv (g : hal_grant) (v : vectors) : Prop :=
  vectors_inv g v /\ tracked v /\ started v.

(** The steps that do not add a processor keep the set of them. *)
Definition same_processors (v v' : vectors) : Prop :=
  validity v' = validity v /\ v_IdtCount v' = v_IdtCount v.

Lemma started_validity v : started v <-> exists i, (i < v_IdtCount v)%nat /\ validity v !! i = Some true.
Proof using.
  unfold started. split.
  - intros H. destruct (valid_lists v) as [|l ls] eqn:E; [done|].
    destruct (proj1 (elem_valid_lists v l)) as (i & p & Hi & Hp & Hv & _); [rewrite E; by left|].
    exists i. split; [done|]. unfold validity. rewrite list_lookup_fmap, Hp. simpl. by rewrite Hv.
  - intros (i & Hi & Hv) E. unfold validity in Hv. rewrite list_lookup_fmap in Hv.
    apply fmap_Some in Hv as (p & Hp & Hv).
    assert (pi_UsedEntries p ∈ valid_lists v) as Hin by (apply elem_valid_lists; exists i, p; auto).
    rewrite E in Hin. by apply not_elem_of_nil in Hin.
Qed.

Lemma same_processors_inv g v v' :
  same_processors v v' -> tracked v -> started v -> vectors_inv g v' -> lib_inv g v'.
Proof using.
  intros [E1 E2] Ht Hs I. split_and!; [done| |].
  - intros i. rewrite E1, E2. apply Ht.
  - apply started_validity. apply started_validity in Hs. by rewrite E1, E2.
Qed.

Lemma claim_processors a b owner v : same_processors v (UacpiNtClaimVectors a b owner v).
Proof using. split; [apply on_processors_validity|done]. Qed.

Lemma range_processors Count v :
  same_processors v (UacpiNtApicAllocateVectorRange Count v).2.
Proof using.
  unfold UacpiNtApicAllocateVectorRange. repeat case_goal; simpl; try done; apply claim_processors.
Qed.

Lemma place_run_processors Count v : same_processors v (place_run Count v).2.
Proof using.
  unfold place_run. pose proof (range_processors Count v) as H1.
  destruct (UacpiNtApicAllocateVectorRange Count v) as [[s1 x1] v1]. simpl in *.
  destruct (_ && _); [|done]. pose proof (range_processors 1 v1) as H2.
  destruct (UacpiNtApicAllocateVectorRange 1 v1) as [[s2 x2] v2]. simpl in H2.
  destruct H1 as [E1 E2], H2 as [F1 F2].
  destruct (NT_SUCCESS s2); simpl; split; congruence.
Qed.

Lemma line_processors Gsiv v : same_processors v (UacpiNtApicAllocateVector Gsiv v).2.
Proof using.
  unfold UacpiNtApicAllocateVector. destruct (_ && _); [done|]. destruct (_ =? _)%nat; [done|].
  destruct (first_free _ _ _) as [c|]; [|done].
  destruct (Gsiv <? UACPINT_MAX_GSIV); simpl; apply (claim_processors c c (u32 (Gsiv + 1)) v).
Qed.

Lemma message_processors Apic Owner M Count v :
  same_processors v (UacpiNtIrqLibResolveMessageVector Apic Owner M Count v).2.
Proof using.
  unfold UacpiNtIrqLibResolveMessageVector. destruct (negb Apic); [done|].
  destruct (find_index _ _); [done|]. destruct (find_index _ _); [|done].
  set (k := if _ =? 0 then 1 else Count). pose proof (place_run_processors k v) as H.
  destruct (place_run k v) as [[[s x] m] v1]. by destruct (NT_SUCCESS s).
Qed.

Lemma hal_allocate_processors Passive Apic Owner Count v :
  same_processors v (UacpiNtHalAllocateMessageTargetOverride Passive Apic Owner Count v).2.
Proof using.
  unfold UacpiNtHalAllocateMessageTargetOverride. destruct (negb Passive); [done|].
  destruct (negb Apic); [done|]. destruct (best_run _ _ _ _ _) as [[i b]|]; [done|].
  destruct (find_index _ _); [|done]. set (k := if negb _ then Count else 1).
  pose proof (range_processors k v) as H.
  destruct (UacpiNtApicAllocateVectorRange k v) as [[s x] v1]. by destruct (NT_SUCCESS s).
Qed.

Lemma hal_free_processors Owner Vector v :
  same_processors v (UacpiNtHalFreeMessageTargetOverride Owner Vector v).
Proof using.
  unfold UacpiNtHalFreeMessageTargetOverride. destruct (find_index _ _); [|done].
  destruct (negb _); [done|]. split; [|done]. apply (on_processors_validity _ v).
Qed.

Lemma seed_processor_started g p v : started v -> started (UacpiNtSeedProcessor g p v).
Proof using.
  rewrite !started_validity. intros (i & Hi & Hv). unfold UacpiNtSeedProcessor.
  destruct (v_Idt v !! p) as [q|] eqn:Ep; [|by exists i]. destruct (pi_Valid q) eqn:Eq; [by exists i|].
  exists i. simpl. split; [lia|]. unfold validity in *. simpl. rewrite list_lookup_fmap in *.
  destruct (decide (i = p)) as [->|]; [|by rewrite list_lookup_insert_ne].
  apply lookup_lt_Some in Ep. by rewrite list_lookup_insert_eq.
Qed.

Lemma lib_inv_step g v v' : lib_inv g v -> irq_step g v v' -> lib_inv g v'.
Proof using L X.
  intros (I & Ht & Hs) St. destruct St as [Gsiv v s x v' HG E|Owner M Count v s x v' Ho HC E
    |Passive Owner Count v s x v' Ho HC E|Owner Vector v Ho|State n v].
  - apply (same_processors_inv g v); try done; [|by eapply allocate_line_inv].
    pose proof (line_processors Gsiv v) as H. by rewrite E in H.
  - apply (same_processors_inv g v); try done; [|by eapply resolve_message_inv].
    pose proof (message_processors true Owner M Count v) as H. by rewrite E in H.
  - apply (same_processors_inv g v); try done; [|by eapply hal_allocate_inv].
    pose proof (hal_allocate_processors Passive true Owner Count v) as H. by rewrite E in H.
  - apply (same_processors_inv g v); try done; [apply hal_free_processors|by apply hal_free_inv].
  - unfold UacpiNtProcessorChangeCallback. destruct State; [done| |done].
    destruct (_ <? _)%nat; [|done]. destruct (seed_processor_inv g v n I Ht). split_and!; try done.
    by apply seed_processor_started.
Qed.

Lemma no_vectors_inv g : vectors_inv g no_vectors /\ tracked no_vectors.
Proof using.
  assert (forall s, span no_vectors s = None) as Hs.
  { unfold no_vectors. intros [i|i]; cbn [span v_GsivVector v_Runs].
    - destruct (replicate 256 0 !! i) as [x|] eqn:E; [|done]. apply lookup_replicate in E as [-> _]. done.
    - destruct (replicate UACPINT_MAX_MESSAGE_RUNS free_run !! i) as [x|] eqn:E; [|done].
      by apply lookup_replicate in E as [-> _]. }
  split.
  - split; try done; try (intros *; rewrite Hs; done).
  - intros i H. exfalso. unfold validity, no_vectors in H. cbn [v_Idt] in H.
    rewrite list_lookup_fmap in H. apply fmap_Some in H as (p & Hp & Hv).
    by apply lookup_replicate in Hp as [-> _].
Qed.

Lemma seed_all_inv g ps v :
  vectors_inv g v -> tracked v ->
  let v' := fold_left (fun v p => UacpiNtSeedProcessor g p v) ps v in
  vectors_inv g v' /\ tracked v' /\ (started v -> started v').
Proof using L X.
  revert v. induction ps as [|p ps IH]; intros v I Ht; cbv zeta; simpl; [done|].
  destruct (seed_processor_inv g v p I Ht) as [I' Ht'].
  destruct (IH _ I' Ht') as (H1 & H2 & H3). split_and!; try done.
  intros Hs. by apply H3, seed_processor_started.
Qed.

Lemma seed_existing_inv g n :
  1 <= n <= 255 -> lib_inv g (UacpiNtSeedExistingProcessors g n no_vectors).
Proof using L X.
  intros Hn. unfold UacpiNtSeedExistingProcessors. destruct (no_vectors_inv g) as [I Ht].
  unfold u8. rewrite Z.mod_small by lia. unfold UACPINT_MAX_PROCESSORS.
  destruct (Nat.min (Z.to_nat n) 256) as [|k] eqn:Ek; [lia|]. cbn [seq fold_left].
  destruct (seed_processor_inv g no_vectors 0 I Ht) as [I' Ht'].
  destruct (seed_all_inv g (seq 1 k) _ I' Ht') as (H1 & H2 & H3). split_and!; try done.
  apply H3. apply started_validity. exists 0%nat. split; [vm_compute; lia|reflexivity].
Qed.

Lemma reachable_inv g v : reachable g v -> lib_inv g v.
Proof using L X.
  intros (n & Hn & Hr). assert (lib_inv g (UacpiNtSeedExistingProcessors g n no_vectors)) as H0
    by (by apply seed_existing_inv).
  revert H0. induction Hr as [|v1 v2 v3 St _ IH]; [done|]. intros H. apply IH. by eapply lib_inv_step.
Qed.

(** C40.  Whatever lines and messages are asked for, freed and asked for again,
    and whichever processors are added meanwhile: no two holders, lines below
    256 or message runs, ever have a vector in common, every vector handed out
    lies in the device band, and it is one the HAL granted. *)
Theorem vectors_never_shared g v s s' a b c d :
  reachable g v -> s <> s' -> span v s = Some (a, b) -> span v s' = Some (c, d) ->
  (b < c \/ d < a) /\ UACPINT_DEVICE_VECTOR_FIRST <= a <= b /\ b <= UACPINT_DEVICE_VECTOR_LAST /\
  forall x, a <= x <= b -> allowed g x = true.
Proof using L X.
  intros Hr Hne H1 H2. destruct (reachable_inv g v Hr) as (I & _).
  destruct (vi_band _ _ I _ _ _ H1). split_and!; try lia.
  - by apply (vi_disjoint _ _ I s s').
  - intros x. by apply (vi_granted _ _ I s).
Qed.

(** Resolving a line below 256 gives the vector it already has, and
    otherwise the lowest vector of the band that is free on every processor,
    which it keeps: resolving it again gives the same vector and changes
    nothing.  The call fails only when no vector of the band is free. *)
Theorem allocate_line_first_fit g v Gsiv s x v' :
  reachable g v -> 0 <= Gsiv < UACPINT_MAX_GSIV -> UacpiNtApicAllocateVector Gsiv v = (s, x, v') ->
  let Known := nth (Z.to_nat Gsiv) (v_GsivVector v) 0 in
  if decide (Known = 0) then
    if NT_SUCCESS s
    then in_band x = true /\ UacpiNtVectorFreeEverywhere v x = true /\
         (forall y, UACPINT_DEVICE_VECTOR_FIRST <= y < x -> UacpiNtVectorFreeEverywhere v y = false) /\
         UacpiNtApicAllocateVector Gsiv v' = (STATUS_SUCCESS, x, v')
    else v' = v /\ forall y, in_band y = true -> UacpiNtVectorFreeEverywhere v y = false
  else (s, x, v') = (STATUS_SUCCESS, Known, v).
Proof using L X.
  intros Hr HG. destruct (reachable_inv g v Hr) as (I & Ht & Hst). cbv zeta.
  assert (forall y, UacpiNtVectorFreeEverywhere v y = false <-> ~ free_at v y) as Hfree.
  { intros y. rewrite <- free_everywhere. by destruct (UacpiNtVectorFreeEverywhere v y). }
  unfold UacpiNtApicAllocateVector. destruct (Gsiv <? UACPINT_MAX_GSIV) eqn:E; bool_prop; [|lia].
  unfold UACPINT_MAX_GSIV in *.
  pose proof (first_free_spec v device_vectors UACPINT_DEVICE_VECTOR_FIRST) as Hf.
  generalize dependent (first_free v device_vectors UACPINT_DEVICE_VECTOR_FIRST). intros ff Hf.
  destruct (decide _) as [->|Hk].
  2: { destruct (nth _ _ 0 =? 0) eqn:E0; bool_prop; [done|]. simpl. by intros [= <- <- <-]. }
  simpl. destruct (v_IdtCount v =? 0)%nat eqn:Ei.
  { apply Nat.eqb_eq in Ei. exfalso. apply started_validity in Hst as (i & Hi & _). lia. }
  change (Z.of_nat device_vectors) with 112 in Hf.
  unfold in_band, UACPINT_DEVICE_VECTOR_FIRST, UACPINT_DEVICE_VECTOR_LAST in *.
  destruct ff as [c|]; intros [= <- <- <-]; simpl.
  - destruct Hf as (Hc & H1 & H2). split_and!.
    + apply andb_true_intro. split; apply Z.leb_le; lia.
    + by apply free_everywhere.
    + intros y Hy. by apply Hfree, H2.
    + rewrite nth_lookup, list_lookup_insert_eq by (rewrite (vi_lines _ _ I); lia). simpl.
      destruct (c =? 0) eqn:E0; bool_prop; [lia|done].
  - split; [done|]. intros y Hy. bool_prop. apply Hfree, Hf. lia.
Qed.

(** A run of messages is placed whole in the band on vectors that were free
    on every processor, aligned to its length when that is a power of two; the
    search fails only when no aligned place in the band is free. *)
Theorem allocate_range_correct g v Count s x v' :
  reachable g v -> 1 <= Count < 0x40000000 -> UacpiNtApicAllocateVectorRange Count v = (s, x, v') ->
  let fits z := (forall y, z <= y < z + Count -> UacpiNtVectorFreeEverywhere v y = true) /\
                UACPINT_DEVICE_VECTOR_FIRST <= z /\ z + Count - 1 <= UACPINT_DEVICE_VECTOR_LAST /\
                z mod run_alignment Count = 0 in
  if NT_SUCCESS s
  then fits x /\ forall y, x <= y < x + Count -> UacpiNtVectorFreeEverywhere v' y = false
  else v' = v /\ forall z, ~ fits z.
Proof using L X.
  intros Hr HC E. destruct (reachable_inv g v Hr) as (I & Ht & Hst). cbv zeta.
  pose proof (allocate_range_outcome _ _ _ _ _ HC E) as H. destruct (NT_SUCCESS s).
  - destruct H as (-> & _ & H1 & H2 & H3 & H4). split_and!; try done.
    { intros y Hy. apply free_everywhere. by apply H4. }
    intros y Hy. destruct (UacpiNtVectorFreeEverywhere _ y) eqn:Ef; [|done]. exfalso.
    apply free_everywhere in Ef. unfold free_at in Ef. rewrite claim_lists in Ef.
    unfold started in Hst. destruct (valid_lists v) as [|l ls] eqn:El; [done|]. simpl in Ef.
    apply Forall_cons in Ef as [Ef _]. apply Ef.
    pose proof (claimed_keys v x (x + Count - 1) UACPINT_MSI_RANGE_OWNER l (vi_ok _ _ I) ltac:(lia)) as K.
    rewrite El in K. specialize (K (fun z Hz => H4 z ltac:(lia)) ltac:(by left)).
    rewrite (taken_add _ _ _ _ _ _ K). left. lia.
  - destruct H as [-> H]. split; [done|]. intros z (F1 & F2 & F3 & F4).
    apply started_validity in Hst as (i & Hi & _). apply (H ltac:(lia) z F2 F3 F4).
    intros y Hy. apply free_everywhere. by apply F1.
Qed.
End Books.

(** ** Examples *)

Section Examples.
#[local] Existing Instance ref_range_list.
#[local] Existing Instance ref_range_list_laws.
#[local] Existing Instance ref_exclusive_ranges.

Lemma line_step g Gsiv v :
  0 <= Gsiv < 4294967296 -> irq_step g v (UacpiNtApicAllocateVector Gsiv v).2.
Proof.
  intros H. destruct (UacpiNtApicAllocateVector Gsiv v) as [[s x] v'] eqn:E. by eapply step_line.
Qed.

Lemma message_step g Owner M Count v :
  Owner <> NULL -> 0 <= Count < 0x40000000 ->
  irq_step g v (UacpiNtIrqLibResolveMessageVector true Owner M Count v).2.
Proof.
  intros Ho HC. destruct (UacpiNtIrqLibResolveMessageVector true Owner M Count v) as [[s x] v'] eqn:E.
  by eapply step_message.
Qed.

(** No grant from the HAL, one processor; IRQ 4 and then four messages. *)
Definition band_grant : hal_grant := UacpiNtIrqLibSetHalVectors None.
Definition boot_vectors : vectors := UacpiNtSeedExistingProcessors band_grant 1 no_vectors.
Definition line_vectors : vectors := (UacpiNtApicAllocateVector 4 boot_vectors).2.
Definition busy_vectors : vectors :=
  (UacpiNtIrqLibResolveMessageVector true 7 0xFFFFFFFE 4 line_vectors).2.

Lemma boot_reachable : reachable band_grant boot_vectors.
Proof. exists 1. split; [lia|]. apply rtc_refl. Qed.

Lemma busy_reachable : reachable band_grant busy_vectors.
Proof.
  exists 1. split; [lia|].
  apply (rtc_l _ boot_vectors line_vectors); [apply (line_step band_grant 4 boot_vectors); lia|].
  apply (rtc_l _ line_vectors busy_vectors); [|apply rtc_refl].
  apply (message_step band_grant 7 0xFFFFFFFE 4 line_vectors); [done|lia].
Qed.

Lemma vectors_never_shared_witness :
  span busy_vectors (Line 4) = Some (0x50, 0x50) /\ span busy_vectors (Msg 0) = Some (0x54, 0x57) /\
  allowed band_grant 0x50 = true.
Proof.
  assert (span busy_vectors (Line 4) = Some (0x50, 0x50)) as H1 by (vm_compute; reflexivity).
  assert (span busy_vectors (Msg 0) = Some (0x54, 0x57)) as H2 by (vm_compute; reflexivity).
  destruct (vectors_never_shared band_grant busy_vectors (Line 4) (Msg 0) 0x50 0x50 0x54 0x57
              busy_reachable ltac:(done) H1 H2) as (_ & _ & _ & H).
  split_and!; [exact H1|exact H2|apply H; lia].
Defined.

(** The state of a call, kept by name. *)
Lemma with_state {A B} (p : A * B) a : p.1 = a -> p = (a, p.2).
Proof. destruct p. by intros <-. Qed.

Lemma boot_line : UacpiNtApicAllocateVector 4 boot_vectors = (STATUS_SUCCESS, 0x50, line_vectors).
Proof. apply (with_state (UacpiNtApicAllocateVector 4 boot_vectors)). vm_compute. reflexivity. Qed.

Lemma allocate_line_first_fit_witness :
  UacpiNtVectorFreeEverywhere boot_vectors 0x50 = true /\
  UacpiNtApicAllocateVector 4 line_vectors = (STATUS_SUCCESS, 0x50, line_vectors).
Proof.
  assert (0 <= 4 < UACPINT_MAX_GSIV) as HG by (unfold UACPINT_MAX_GSIV; lia).
  pose proof (allocate_line_first_fit band_grant boot_vectors 4 _ _ _ boot_reachable HG boot_line) as H.
  assert (nth (Z.to_nat 4) (v_GsivVector boot_vectors) 0 = 0) as H0 by (vm_compute; reflexivity).
  cbv zeta in H. rewrite decide_True in H by exact H0. destruct H as (_ & H1 & _ & H2). by split.
Defined.

Lemma line_reachable : reachable band_grant line_vectors.
Proof.
  exists 1. split; [lia|].
  apply (rtc_l _ boot_vectors line_vectors); [apply (line_step band_grant 4 boot_vectors); lia|].
  apply rtc_refl.
Qed.

Lemma allocate_range_correct_witness :
  exists v', UacpiNtApicAllocateVectorRange 4 line_vectors = (STATUS_SUCCESS, 0x54, v') /\
             0x54 mod run_alignment 4 = 0.
Proof.
  assert (UacpiNtApicAllocateVectorRange 4 line_vectors =
            (STATUS_SUCCESS, 0x54, (UacpiNtApicAllocateVectorRange 4 line_vectors).2)) as E
    by (apply with_state; vm_compute; reflexivity).
  destruct (allocate_range_correct band_grant line_vectors 4 _ _ _ line_reachable ltac:(lia) E)
    as ((_ & _ & _ & H) & _).
  eexists. split; [exact E|exact H].
Defined.

Lemma seed_idt_exact_witness :
  (RtlIsRangeAvailable (UacpiNtSeedIdtState band_grant) 0x4F 0x4F 0 0 None None).1 = false /\
  (RtlIsRangeAvailable (UacpiNtSeedIdtState band_grant) 0x50 0x50 0 0 None None).1 = true.
Proof.
  split; [rewrite (seed_idt_exact band_grant 0x4F ltac:(done))|
          rewrite (seed_idt_exact band_grant 0x50 ltac:(done))]; reflexivity.
Defined.

(** ** Vectors that leak *)

(** A line at or above 256 is never remembered: every time it is resolved
    it takes another vector, so two devices on it get different vectors and the
    band runs out. *)
Theorem high_line_takes_new_vector :
  let '(s1, x1, v1) := UacpiNtApicAllocateVector 300 boot_vectors in
  let '(s2, x2, v2) := UacpiNtApicAllocateVector 300 v1 in
  (s1, x1) = (STATUS_SUCCESS, 0x50) /\ (s2, x2) = (STATUS_SUCCESS, 0x51).
Proof. vm_compute. split; reflexivity. Qed.

(** The band with every second vector left. *)
Definition every_other : hal_grant :=
  UacpiNtIrqLibSetHalVectors
    (Some (map (fun k => mkCm CmResourceTypeInterrupt 0 0 (mkCmWindow 0 0) (mkCmWindow 0 0)
                           (mkCmWindow 0 0) (mkCmInterrupt 0 (0x50 + 2 * Z.of_nat k) 0) no_connection)
             (seq 0 56))).

(** A message request that has to settle for a single vector is recorded
    with count 1 and not found under the count it is asked for again: each
    repetition of the same request takes another vector and another entry. *)
Theorem settled_request_leaks :
  let v0 := UacpiNtSeedExistingProcessors every_other 1 no_vectors in
  let '(s1, x1, v1) := UacpiNtIrqLibResolveMessageVector true 7 0xFFFFFFFE 4 v0 in
  let '(s2, x2, v2) := UacpiNtIrqLibResolveMessageVector true 7 0xFFFFFFFE 4 v1 in
  (s1, x1) = (STATUS_SUCCESS, 0x50) /\ (s2, x2) = (STATUS_SUCCESS, 0x52) /\
  span v2 (Msg 0) = Some (0x50, 0x50) /\ span v2 (Msg 1) = Some (0x52, 0x52).
Proof. vm_compute. split_and!; reflexivity. Qed.
End Examples.
