(* ===== verification/IrqData.v ===== *)
(** sys/irqlib.c, second half: what the library tells the kernel about an
    interrupt.  The MADT overrides, the vector of a line under either interrupt
    model, secondary lines, the connection data of a device, and the answers of
    the HAL slots the driver takes over. *)
From stdpp Require Import base list numbers option sorting strings relations.
From Stdlib Require Import ZArith Lia Permutation.
From S2P Require Import Prelude NtEnv Bytes RangeListRef ArbTypes Resource IrqVectors.

(** ** The kernel and the HAL

    What MmGetSystemRoutineAddress and the HAL private dispatch table give; a
    routine that is not there is [None].  [ih_SetProperty] is the status of
    IoSetDevicePropertyData. *)
Inductive interrupt_source := ControllerInput (Gsiv : Z) | MessageRequest.

Record INTERRUPT_VECTOR_DATA := mkVectorData {
  vd_Type : interrupt_source; vd_Vector : Z; vd_Irql : Z;
  vd_Polarity : KINTERRUPT_POLARITY; vd_Mode : KINTERRUPT_MODE; vd_Target : Z }.

(** [Count] and the elements of the buffer. *)
Record INTERRUPT_CONNECTION_DATA := mkConnectionData {
  cd_Count : Z; cd_Vectors : list INTERRUPT_VECTOR_DATA }.

Record irq_hal := mkIrqHal {
  ih_ConvertDeviceIdtToIrql : option (Z -> Z);
  ih_ActiveProcessors : Z;
  ih_IsInterruptTypeSecondary : option (Z -> bool);
  ih_QueryPrimary : option (Z -> NTSTATUS * Z);
  ih_GetInterruptVector : option (Z -> Z * Z * Z);
  ih_SetProperty : option (PVOID -> INTERRUPT_CONNECTION_DATA -> NTSTATUS)
}.

Definition HIGH_LEVEL : Z := 15.

(** ** Helpers *)

Definition UacpiNtVectorToIrql (hal : irq_hal) (Vector : Z) : Z :=
  match ih_ConvertDeviceIdtToIrql hal with
  | Some f => f Vector
  | None => u8 (Z.shiftr Vector 4)
  end.

Definition UacpiNtLowestProcessor (Affinity : Z) : Z :=
  let Affinity := Z.land Affinity (u64 (Z.lnot Affinity + 1)) in
  if negb (Affinity =? 0) then Affinity else 1.

(** ** MADT overrides *)

Definition UACPINT_ISA_IRQ_COUNT : Z := 16.
Definition ACPI_MADT_ENTRY_TYPE_INTERRUPT_SOURCE_OVERRIDE : Z := 2.
Definition ACPI_MADT_POLARITY_MASK : Z := 3.
Definition ACPI_MADT_POLARITY_ACTIVE_HIGH : Z := 1.
Definition ACPI_MADT_POLARITY_ACTIVE_LOW : Z := 3.
Definition ACPI_MADT_TRIGGERING_MASK : Z := 12.
Definition ACPI_MADT_TRIGGERING_EDGE : Z := 4.
Definition ACPI_MADT_TRIGGERING_LEVEL : Z := 12.

(** [UacpiNtIsaOverride]: the GSIV of each ISA IRQ that has one. *)
Definition isa_overrides := list (option Z).
Definition no_overrides : isa_overrides := replicate 16 None.

Definition force_polarity (Polarity Gsi : Z) (f : gsiv_flags) : gsiv_flags :=
  if Polarity =? ACPI_MADT_POLARITY_ACTIVE_HIGH
  then mkFlags (gf_Level f) (gf_ForcedEdge f) (UacpiNtSetBit (gf_ForcedHigh f) Gsi) (gf_ForcedLow f)
  else if Polarity =? ACPI_MADT_POLARITY_ACTIVE_LOW
  then mkFlags (gf_Level f) (gf_ForcedEdge f) (gf_ForcedHigh f) (UacpiNtSetBit (gf_ForcedLow f) Gsi)
  else f.

(** One override for an ISA source. *)
Definition apply_override (Source Gsi Flags : Z) (isa : isa_overrides) (f : gsiv_flags)
  : isa_overrides * gsiv_flags :=
  let isa := <[Z.to_nat Source := Some Gsi]> isa in
  let Trigger := Z.land Flags ACPI_MADT_TRIGGERING_MASK in
  let f := if Trigger =? ACPI_MADT_TRIGGERING_LEVEL then UacpiNtIrqLibNoteLevelGsiv Gsi f
           else if Trigger =? ACPI_MADT_TRIGGERING_EDGE then UacpiNtIrqLibNoteEdgeGsiv Gsi f
           else f in
  (isa, if Gsi <? UACPINT_MAX_GSIV then force_polarity (Z.land Flags ACPI_MADT_POLARITY_MASK) Gsi f else f).

(** The entries lie in [Buffer], from [Cursor] on; every turn takes at least the
    two bytes of a header. *)
Fixpoint parse_entries (fuel : nat) (Buffer : list Z) (Cursor : Z) (isa : isa_overrides)
  (f : gsiv_flags) : run (isa_overrides * gsiv_flags) :=
  if negb (Cursor + 2 <=? Z.of_nat (length Buffer)) then Done (isa, f)
  else
    match fuel with
    | O => Fault
    | S fuel =>
        Type' ← load Buffer Cursor;
        Length ← load Buffer (Cursor + 1);
        if (Length <? 2) || (Z.of_nat (length Buffer) <? Cursor + Length) then Done (isa, f)
        else
          let Next := Cursor + Length in
          if negb (Type' =? ACPI_MADT_ENTRY_TYPE_INTERRUPT_SOURCE_OVERRIDE) || (Length <? 10)
          then parse_entries fuel Buffer Next isa f
          else
            Bus ← load Buffer (Cursor + 2);
            Source ← load Buffer (Cursor + 3);
            Gsi ← load_le Buffer 4 (Cursor + 4);
            Flags ← load_le Buffer 2 (Cursor + 8);
            if negb (Bus =? 0) || (UACPINT_ISA_IRQ_COUNT <=? Source)
            then parse_entries fuel Buffer Next isa f
            else
              let '(isa, f) := apply_override Source Gsi Flags isa f in
              parse_entries fuel Buffer Next isa f
    end.

(** [Madt] is the bytes of the entries, [None] without a table. *)
Definition UacpiNtParseMadt (Madt : option (list Z)) (isa : isa_overrides) (f : gsiv_flags)
  : run (isa_overrides * gsiv_flags) :=
  match Madt with
  | None => Done (isa, f)
  | Some Buffer => parse_entries (length Buffer) Buffer 0 isa f
  end.

Definition UacpiNtGsivFromIrq (isa : isa_overrides) (Irq : Z) : Z :=
  if Irq <? UACPINT_ISA_IRQ_COUNT then
    match isa !! Z.to_nat Irq with Some (Some Gsiv) => Gsiv | _ => Irq end
  else Irq.

(** ** Secondary lines *)

Definition UACPINT_SECONDARY_VECTOR_BASE : Z := 256.
Definition UACPINT_SECONDARY_VECTOR_COUNT : nat := 256.

Definition UacpiNtIsSecondaryGsiv (hal : irq_hal) (Gsiv : Z) : bool :=
  match ih_IsInterruptTypeSecondary hal with Some f => f Gsiv | None => false end.

(** [Table] is the used part of [UacpiNtSecondaryVectorGsiv]. *)
Definition UacpiNtAllocateSecondaryVector (Gsiv : Z) (Table : list Z) : NTSTATUS * Z * list Z :=
  let Index := match find_index (fun x => x =? Gsiv) Table with
               | Some i => i | None => length Table end in
  let Table := if (Index =? length Table)%nat && (Index <? UACPINT_SECONDARY_VECTOR_COUNT)%nat
               then Table ++ [Gsiv] else Table in
  if (Index <? length Table)%nat
  then (STATUS_SUCCESS, UACPINT_SECONDARY_VECTOR_BASE + Z.of_nat Index, Table)
  else (STATUS_INSUFFICIENT_RESOURCES, 0, Table).

Section Data.
Context `{R : RtlRangeList} (hal : irq_hal).

(** The state of the library the callers below see. *)
Record irq_lib := mkIrqLib {
  lb_Flags : gsiv_flags; lb_Vectors : vectors; lb_Isa : isa_overrides; lb_Secondary : list Z;
  lb_Apic : bool; lb_PicVectorBase : option Z }.

Definition lb_set_Vectors (v : vectors) (b : irq_lib) : irq_lib :=
  mkIrqLib (lb_Flags b) v (lb_Isa b) (lb_Secondary b) (lb_Apic b) (lb_PicVectorBase b).
Definition lb_set_Secondary (t : list Z) (b : irq_lib) : irq_lib :=
  mkIrqLib (lb_Flags b) (lb_Vectors b) (lb_Isa b) t (lb_Apic b) (lb_PicVectorBase b).

(** The vector and the IRQL of a secondary line. *)
Definition UacpiNtResolveSecondaryVector (Gsiv : Z) (b : irq_lib) : NTSTATUS * Z * Z * irq_lib :=
  let '(Status, Vector, t) := UacpiNtAllocateSecondaryVector Gsiv (lb_Secondary b) in
  let b := lb_set_Secondary t b in
  if negb (NT_SUCCESS Status) then (Status, Vector, 0, b)
  else
    match ih_QueryPrimary hal with
    | None => (STATUS_SUCCESS, Vector, HIGH_LEVEL, b)
    | Some query =>
        let '(Status, PrimaryGsiv) := query Gsiv in
        if negb (NT_SUCCESS Status) then (STATUS_SUCCESS, Vector, HIGH_LEVEL, b)
        else
          let '(Status, PrimaryVector, v) := UacpiNtApicAllocateVector PrimaryGsiv (lb_Vectors b) in
          let b := lb_set_Vectors v b in
          match ih_ConvertDeviceIdtToIrql hal with
          | Some f => if NT_SUCCESS Status then (STATUS_SUCCESS, Vector, f PrimaryVector, b)
                      else (STATUS_SUCCESS, Vector, HIGH_LEVEL, b)
          | None => (STATUS_SUCCESS, Vector, HIGH_LEVEL, b)
          end
    end.

(** What a line resolves to. *)
Record resolved := mkResolved {
  rv_Vector : Z; rv_Irql : Z; rv_Affinity : Z; rv_Polarity : KINTERRUPT_POLARITY;
  rv_Mode : KINTERRUPT_MODE }.

Definition UacpiNtIrqLibResolveVector (Gsiv : Z) (b : irq_lib)
  : NTSTATUS * option resolved * irq_lib :=
  let Polarity := UacpiNtGsivPolarity (lb_Flags b) Gsiv in
  let Mode := UacpiNtGsivMode (lb_Flags b) Gsiv in
  let finish Assigned VectorIrql TargetAffinity b :=
    let TargetAffinity := if TargetAffinity =? 0 then ih_ActiveProcessors hal else TargetAffinity in
    (STATUS_SUCCESS,
     Some (mkResolved Assigned VectorIrql (UacpiNtLowestProcessor TargetAffinity) Polarity Mode), b) in
  if UacpiNtIsSecondaryGsiv hal Gsiv then
    let '(Status, Assigned, VectorIrql, b) := UacpiNtResolveSecondaryVector Gsiv b in
    if negb (NT_SUCCESS Status) then (Status, None, b)
    else (STATUS_SUCCESS,
          Some (mkResolved Assigned VectorIrql (ih_ActiveProcessors hal) Polarity Mode), b)
  else if lb_Apic b then
    let '(Status, Assigned, v) := UacpiNtApicAllocateVector Gsiv (lb_Vectors b) in
    let b := lb_set_Vectors v b in
    if negb (NT_SUCCESS Status) then (Status, None, b)
    else finish Assigned (UacpiNtVectorToIrql hal Assigned) (ih_ActiveProcessors hal) b
  else
    let '(HalVector, HalIrql, HalAffinity) :=
      match ih_GetInterruptVector hal with Some f => f Gsiv | None => (0, 0, 0) end in
    if negb (HalVector =? 0) then
      finish HalVector HalIrql
        (if negb (HalAffinity =? 0) then HalAffinity else ih_ActiveProcessors hal) b
    else
      match lb_PicVectorBase b with
      | None => (STATUS_NOT_SUPPORTED, None, b)
      | Some base =>
          let Assigned := u32 (base + Gsiv) in
          finish Assigned (UacpiNtVectorToIrql hal Assigned) (ih_ActiveProcessors hal) b
      end.

(** ** Connection data *)

Definition UacpiNtSetConnectionData (Pdo : PVOID) (Data : INTERRUPT_CONNECTION_DATA) : NTSTATUS :=
  match ih_SetProperty hal with Some f => f Pdo Data | None => STATUS_NOT_SUPPORTED end.

Definition UacpiNtOwnerHasMessages (v : vectors) (Owner : PVOID) : bool :=
  existsb (fun r => (mr_Owner r =? Owner) && negb (mr_Count r =? 0)) (v_Runs v).

Definition UacpiNtMessageRunPrecedes (Run Other : UACPINT_MESSAGE_RUN) : bool :=
  if negb (mr_MessageGsiv Run =? mr_MessageGsiv Other) then
    if (mr_MessageGsiv Run =? 0) || (mr_MessageGsiv Other =? 0) then negb (mr_MessageGsiv Run =? 0)
    else mr_MessageGsiv Other <? mr_MessageGsiv Run
  else mr_Base Run <? mr_Base Other.

(** The inner loop: the run to emit next. *)
Fixpoint next_run (Pdo : PVOID) (runs : list UACPINT_MESSAGE_RUN) (Emitted : list bool) (Index : nat)
  (Next : option (nat * UACPINT_MESSAGE_RUN)) : option (nat * UACPINT_MESSAGE_RUN) :=
  match runs, Emitted with
  | r :: runs, e :: Emitted =>
      let Next :=
        if negb (mr_Owner r =? Pdo) || (mr_Count r =? 0) || e then Next
        else match Next with
             | None => Some (Index, r)
             | Some (_, n) => if UacpiNtMessageRunPrecedes r n then Some (Index, r) else Next
             end in
      next_run Pdo runs Emitted (S Index) Next
  | _, _ => Next
  end.

Definition message_element (Target Vector : Z) : INTERRUPT_VECTOR_DATA :=
  mkVectorData MessageRequest Vector (UacpiNtVectorToIrql hal Vector) InterruptActiveHigh Latched Target.

(** The elements of a run, as many as still fit in [Room]. *)
Definition run_elements (Target : Z) (r : UACPINT_MESSAGE_RUN) (Room : nat)
  : list INTERRUPT_VECTOR_DATA :=
  map (fun m => message_element Target (u32 (mr_Base r + Z.of_nat m)))
    (seq 0 (Nat.min (Z.to_nat (mr_Count r)) Room)).

(** The outer loop; every turn emits another run of the table. *)
Fixpoint emit_runs (fuel : nat) (Pdo : PVOID) (Target : Z) (runs : list UACPINT_MESSAGE_RUN)
  (Emitted : list bool) (Written : list INTERRUPT_VECTOR_DATA) (Total : nat)
  : list INTERRUPT_VECTOR_DATA :=
  if negb (length Written <? Total)%nat then Written
  else
    match fuel with
    | O => Written
    | S fuel =>
        match next_run Pdo runs Emitted 0 None with
        | None => Written
        | Some (Index, r) =>
            emit_runs fuel Pdo Target runs (<[Index := true]> Emitted)
              (Written ++ run_elements Target r (Total - length Written)) Total
        end
    end.

(** The messages the device owns, over all its runs. *)
Definition owned_total (Pdo : PVOID) (runs : list UACPINT_MESSAGE_RUN) : Z :=
  fold_left (fun t r => if mr_Owner r =? Pdo then u32 (t + mr_Count r) else t) runs 0.

Definition no_element : INTERRUPT_VECTOR_DATA :=
  mkVectorData (ControllerInput 0) 0 0 InterruptActiveHigh LevelSensitive 0.

(** The data the device gets is returned with the status.  [Granted] is whether
    the pool gives the buffer of [Total] elements. *)
Definition UacpiNtWriteMessageConnectionData (Granted : bool) (Pdo : PVOID) (MessageGsiv Count : Z)
  (b : irq_lib) : NTSTATUS * option INTERRUPT_CONNECTION_DATA * irq_lib :=
  let Count := if Count =? 0 then 1 else Count in
  let '(Status, Base, v) :=
    UacpiNtIrqLibResolveMessageVector (lb_Apic b) Pdo MessageGsiv Count (lb_Vectors b) in
  let b := lb_set_Vectors v b in
  if negb (NT_SUCCESS Status) then (Status, None, b)
  else
    let Target := UacpiNtLowestProcessor (UacpiNtLowestProcessor (ih_ActiveProcessors hal)) in
    let Total := owned_total Pdo (v_Runs v) in
    let Total := if Total =? 0 then Count else Total in
    if negb Granted then (STATUS_INSUFFICIENT_RESOURCES, None, b)
    else
      let Written := emit_runs (length (v_Runs v)) Pdo Target (v_Runs v)
                       (map (fun _ => false) (v_Runs v)) [] (Z.to_nat Total) in
      let Elements := Written ++ replicate (Z.to_nat Total - length Written) no_element in
      let Data := mkConnectionData
                    (if negb (length Written =? 0)%nat then Z.of_nat (length Written) else Total)
                    Elements in
      let Status := UacpiNtSetConnectionData Pdo Data in
      (Status, if NT_SUCCESS Status then Some Data else None, b).

Definition UacpiNtIrqLibWriteConnectionData (Granted : bool) (Pdo : PVOID) (Gsiv Count : Z)
  (b : irq_lib) : NTSTATUS * option INTERRUPT_CONNECTION_DATA * irq_lib :=
  if UACPINT_MESSAGE_GSIV_BASE <=? Gsiv then
    UacpiNtWriteMessageConnectionData Granted Pdo Gsiv Count b
  else if UacpiNtOwnerHasMessages (lb_Vectors b) Pdo then (STATUS_SUCCESS, None, b)
  else
    let '(Status, r, b) := UacpiNtIrqLibResolveVector Gsiv b in
    match r with
    | None => (Status, None, b)
    | Some r =>
        let Data := mkConnectionData 1
                      [mkVectorData (ControllerInput Gsiv) (rv_Vector r) (rv_Irql r) (rv_Polarity r)
                         (rv_Mode r) (rv_Affinity r)] in
        let Status := UacpiNtSetConnectionData Pdo Data in
        (Status, if NT_SUCCESS Status then Some Data else None, b)
    end.

(** ** The HAL slots *)

(** The vector, with its IRQL and affinity; 0 for none. *)
Definition UacpiNtHalGetInterruptVectorOverride (BusInterruptLevel BusInterruptVector : Z)
  (b : irq_lib) : Z * option (Z * Z) :=
  if negb (BusInterruptLevel =? BusInterruptVector) then (0, None)
  else
    let Gsiv := UacpiNtGsivFromIrq (lb_Isa b) BusInterruptLevel in
    let Vector := nth (Z.to_nat Gsiv) (v_GsivVector (lb_Vectors b)) 0 in
    if (UACPINT_MAX_GSIV <=? Gsiv) || (Vector =? 0) then (0, None)
    else (Vector, Some (UacpiNtVectorToIrql hal Vector, ih_ActiveProcessors hal)).

Definition run_covers (Vector : Z) (r : UACPINT_MESSAGE_RUN) : bool :=
  negb (mr_Owner r =? NULL) && negb (mr_Count r =? 0) && (mr_Base r <=? Vector) &&
  (Vector <? u32 (mr_Base r + mr_Count r)).

Definition UacpiNtHalGetVectorInputOverride (Vector : Z) (b : irq_lib)
  : NTSTATUS * option (Z * KINTERRUPT_POLARITY) :=
  if Vector =? 0 then (STATUS_INVALID_PARAMETER, None)
  else
    match find_index (fun x => x =? Vector) (v_GsivVector (lb_Vectors b)) with
    | Some Index =>
        (STATUS_SUCCESS, Some (Z.of_nat Index, UacpiNtGsivPolarity (lb_Flags b) (Z.of_nat Index)))
    | None =>
        if existsb (run_covers Vector) (v_Runs (lb_Vectors b))
        then (STATUS_INVALID_PARAMETER, None) else (STATUS_NOT_FOUND, None)
    end.

(** ** Startup *)

(** HalPrivateDispatchTable as an array of words, its version first; the two
    versions of a slot are the HAL's own routine and the driver's.  [Ours] gives
    the addresses of the four overrides. *)
Record overrides := mkOverrides {
  ov_GetInterruptVector : Z; ov_GetVectorInput : Z; ov_AllocateMessageTarget : Z;
  ov_FreeMessageTarget : Z }.

Definition UACPINT_HAL_SLOT_GET_INTERRUPT_VECTOR : nat := 22.
Definition UACPINT_HAL_SLOT_GET_VECTOR_INPUT : nat := 23.
Definition UACPINT_HAL_SLOT_ALLOCATE_MSG_TARGET : nat := 27.
Definition UACPINT_HAL_SLOT_FREE_MSG_TARGET : nat := 28.
Definition UACPINT_HAL_PRIVATE_MSG_VERSION : Z := 6.

(** The table and [UacpiNtHalGetInterruptVector], the HAL's own routine. *)
Definition UacpiNtInstallHalOverrides (UacpiNtIrqLibHalOverrides : bool) (Ours : overrides)
  (Table : option (list Z)) (HalGetInterruptVector : Z) : option (list Z) * Z :=
  if negb UacpiNtIrqLibHalOverrides then (Table, HalGetInterruptVector)
  else
    match Table with
    | None => (None, HalGetInterruptVector)
    | Some t =>
        let Version := u32 (nth 0 t 0) in
        let Slot := nth UACPINT_HAL_SLOT_GET_INTERRUPT_VECTOR t 0 in
        let HalGetInterruptVector :=
          if negb (Slot =? 0) && negb (Slot =? ov_GetInterruptVector Ours)
          then Slot else HalGetInterruptVector in
        let t := <[UACPINT_HAL_SLOT_GET_INTERRUPT_VECTOR := ov_GetInterruptVector Ours]> t in
        let t := <[UACPINT_HAL_SLOT_GET_VECTOR_INPUT := ov_GetVectorInput Ours]> t in
        let t := if UACPINT_HAL_PRIVATE_MSG_VERSION <=? Version
                 then <[UACPINT_HAL_SLOT_FREE_MSG_TARGET := ov_FreeMessageTarget Ours]>
                        (<[UACPINT_HAL_SLOT_ALLOCATE_MSG_TARGET := ov_AllocateMessageTarget Ours]> t)
                 else t in
        (Some t, HalGetInterruptVector)
    end.

(** The callback registration notifies of the processors that are already there;
    [Notified] is what it reports before it returns, [None] without the routine.
    [None] as a result is the bug check of a machine without a processor. *)
Definition UacpiNtInitializeApic (g : hal_grant) (KeNumberProcessors : Z)
  (Notified : option (list (processor_state * nat))) (b : irq_lib) : option irq_lib :=
  let v := UacpiNtSeedExistingProcessors g KeNumberProcessors (lb_Vectors b) in
  let v := match Notified with
           | Some l => fold_left (fun v '(State, n) => UacpiNtProcessorChangeCallback g State n v) l v
           | None => v
           end in
  if (v_IdtCount v =? 0)%nat then None else Some (lb_set_Vectors v b).

(** [Fadt] is the SCI's line from the FADT, [None] without a table. *)
Definition UacpiNtInitializePic (Fadt : option Z) (b : irq_lib) : irq_lib :=
  let SciVector := match Fadt, ih_GetInterruptVector hal with
                   | Some SciGsi, Some f => (f SciGsi).1.1
                   | _, _ => 0
                   end in
  let SciGsi := match Fadt with Some g => g | None => 4294967295 end in
  let base := if negb (SciVector =? 0) && (SciGsi <=? SciVector) then SciVector - SciGsi else 0x30 in
  mkIrqLib (lb_Flags b) (lb_Vectors b) (lb_Isa b) (lb_Secondary b) (lb_Apic b) (Some base).

Definition UacpiNtIrqLibInitialize (Ready : bool) (g : hal_grant) (Madt : option (list Z))
  (Fadt : option Z) (KeNumberProcessors : Z) (Notified : option (list (processor_state * nat)))
  (b : irq_lib) : run (option irq_lib) :=
  if Ready then Done (Some b)
  else
    '(isa, f) ← UacpiNtParseMadt Madt (lb_Isa b) (lb_Flags b);
    let b := mkIrqLib f (lb_Vectors b) isa (lb_Secondary b) (lb_Apic b) (lb_PicVectorBase b) in
    Done (if lb_Apic b then UacpiNtInitializeApic g KeNumberProcessors Notified b
          else Some (UacpiNtInitializePic Fadt b)).
End Data.

(** ** The target processor *)

Lemma odd_part (p : positive) : exists k m, 0 <= k /\ Zpos p = 2 ^ k * m /\ Z.odd m = true /\ 0 < m.
Proof.
  induction p as [p _|p IH|].
  - exists 0, (Zpos p~1). split_and!; (done || lia).
  - destruct IH as (k & m & Hk & E & Ho & Hm). exists (k + 1), m. split_and!; try (done || lia).
    rewrite Z.pow_add_r by lia. change (2 ^ 1) with 2. lia.
  - exists 0, 1. split_and!; (done || lia).
Qed.

(** [a & -a] has the lowest bit of [a] and no other. *)
Lemma lowest_bit a :
  0 < a < 18446744073709551616 ->
  exists k, 0 <= k < 64 /\ Z.testbit a k = true /\ (forall j, 0 <= j < k -> Z.testbit a j = false) /\
            Z.land a (u64 (Z.lnot a + 1)) = 2 ^ k.
Proof.
  intros Ha. destruct a as [|p|p]; try lia. destruct (odd_part p) as (k & m & Hk & E & Ho & Hm).
  rewrite E in *. clear p E. set (a := 2 ^ k * m) in *.
  pose proof (Z.pow_pos_nonneg 2 k ltac:(lia) Hk) as Hp.
  apply Z.odd_spec in Ho as [q Hq].
  assert (forall j, k <= j -> Z.testbit a j = Z.testbit m (j - k)) as Ba.
  { intros j Hj. unfold a. rewrite Z.mul_comm, Z.mul_pow2_bits by lia. done. }
  assert (forall j, k <= j -> Z.testbit (Z.pred a) j = Z.testbit (m - 1) (j - k)) as Bp.
  { intros j Hj. replace j with (j - k + k) at 1 by lia. rewrite <- Z.div_pow2_bits by lia. f_equal.
    replace (Z.pred a) with ((m - 1) * 2 ^ k + (2 ^ k - 1)) by (unfold a; lia).
    rewrite Z.div_add_l, Z.div_small by lia. lia. }
  assert (forall j, 0 <= j < k -> Z.testbit a j = false) as Hlow.
  { intros j Hj. unfold a. rewrite Z.mul_comm. rewrite Z.mul_pow2_bits_low by lia. done. }
  assert (k < 64) as Hk64.
  { destruct (decide (k < 64)); [done|]. exfalso.
    pose proof (Z.pow_le_mono_r 2 64 k ltac:(lia) ltac:(lia)). unfold a in Ha. nia. }
  exists k. split_and!; try done; try lia.
  { rewrite Ba, Z.sub_diag, Hq by lia. apply Z.testbit_odd_0. }
  apply Z.bits_inj'. intros j Hj. rewrite Z.land_spec, Z.pow2_bits_eqb by done. unfold u64.
  change 18446744073709551616 with (2 ^ 64). replace (Z.lnot a + 1) with (- a) by (unfold Z.lnot; lia).
  destruct (decide (j < k)) as [Hjk|Hjk].
  { rewrite Hlow by lia. destruct (k =? j) eqn:Ej; bool_prop; [lia|done]. }
  destruct (decide (64 <= j)) as [Hj64|Hj64].
  { rewrite Z.mod_pow2_bits_high by lia. rewrite andb_false_r.
    destruct (k =? j) eqn:Ej; bool_prop; [lia|done]. }
  rewrite Z.mod_pow2_bits_low, Z.bits_opp, Ba, Bp by lia.
  destruct (k =? j) eqn:Ej; bool_prop.
  - subst j. rewrite Z.sub_diag, Hq. replace (2 * q + 1 - 1) with (2 * q) by lia.
    by rewrite Z.testbit_odd_0, Z.testbit_even_0.
  - replace (j - k) with (Z.succ (j - k - 1)) by lia. rewrite Hq.
    replace (2 * q + 1 - 1) with (2 * q) by lia.
    rewrite Z.testbit_odd_succ, Z.testbit_even_succ by lia. by destruct (Z.testbit q _).
Qed.

Lemma lowest_idem a :
  0 <= a < 18446744073709551616 ->
  UacpiNtLowestProcessor (UacpiNtLowestProcessor a) = UacpiNtLowestProcessor a.
Proof.
  intros Ha. assert (exists k, 0 <= k < 64 /\ UacpiNtLowestProcessor a = 2 ^ k) as (k & Hk & ->).
  { unfold UacpiNtLowestProcessor. destruct (decide (a = 0)) as [->|Hne]; [by exists 0|].
    destruct (lowest_bit a ltac:(lia)) as (k & Hk & _ & _ & ->). exists k.
    pose proof (Z.pow_pos_nonneg 2 k ltac:(lia) ltac:(lia)).
    destruct (2 ^ k =? 0) eqn:E; bool_prop; [lia|done]. }
  pose proof (Z.pow_pos_nonneg 2 k ltac:(lia) ltac:(lia)) as Hp.
  pose proof (Z.pow_lt_mono_r 2 k 64 ltac:(lia) ltac:(lia) ltac:(lia)) as Hlt.
  unfold UacpiNtLowestProcessor. destruct (lowest_bit (2 ^ k)) as (j & Hj & Hb & _ & ->); [lia|].
  rewrite Z.pow2_bits_eqb in Hb by lia. bool_prop. subst j.
  destruct (2 ^ k =? 0) eqn:E; bool_prop; [lia|done].
Qed.

(** The target of an interrupt is one processor: the lowest of the affinity
    it is computed from, and processor 0 when that is empty. *)
Theorem lowest_processor_single a :
  0 <= a < 18446744073709551616 ->
  exists k, 0 <= k < 64 /\ UacpiNtLowestProcessor a = 2 ^ k /\
    (a <> 0 -> Z.testbit a k = true /\ forall j, 0 <= j < k -> Z.testbit a j = false) /\ (a = 0 -> k = 0).
Proof.
  intros Ha. unfold UacpiNtLowestProcessor. destruct (decide (a = 0)) as [->|Hne].
  - exists 0. simpl. split_and!; (done || lia).
  - destruct (lowest_bit a ltac:(lia)) as (k & Hk & H1 & H2 & ->). exists k.
    pose proof (Z.pow_pos_nonneg 2 k ltac:(lia) ltac:(lia)).
    destruct (2 ^ k =? 0) eqn:E; bool_prop; [lia|]. split_and!; (done || lia || tauto).
Qed.

Lemma lowest_processor_single_witness : UacpiNtLowestProcessor 0x28 = 2 ^ 3.
Proof.
  destruct (lowest_processor_single 0x28 ltac:(lia)) as (k & Hk & E & H & _).
  destruct (H ltac:(lia)) as [H1 H2]. assert (k = 3) as Hk3; [|by rewrite E, Hk3].
  destruct (decide (k < 3)) as [Hl|Hl].
  - exfalso. assert (k = 0 \/ k = 1 \/ k = 2) as [E'|[E'|E'] ] by lia; rewrite E' in H1; discriminate H1.
  - destruct (decide (k = 3)); [done|]. exfalso. specialize (H2 3 ltac:(lia)). discriminate H2.
Defined.

(** ** The MADT *)

(** What an entry means: an override of an ISA source, or nothing. *)
Definition madt_meaning (s : isa_overrides * gsiv_flags) (e : Z * list Z)
  : isa_overrides * gsiv_flags :=
  match e with
  | (2, bus :: source :: g0 :: g1 :: g2 :: g3 :: f0 :: f1 :: _) =>
      if (bus =? 0) && (source <? UACPINT_ISA_IRQ_COUNT)
      then apply_override source (le_bytes [g0; g1; g2; g3]) (le_bytes [f0; f1]) s.1 s.2 else s
  | _ => s
  end.

(** The entry after the cursor. *)
Lemma parse_entry fuel pre t n q tail isa f :
  0 <= n -> Z.to_nat n = (length q + 2)%nat ->
  let buf := pre ++ t :: n :: q ++ tail in
  parse_entries (S fuel) buf (Z.of_nat (length pre)) isa f =
    let s := madt_meaning (isa, f) (t, q) in
    parse_entries fuel buf (Z.of_nat (length pre) + n) s.1 s.2.
Proof.
  intros Hn0 Hn buf. unfold buf. set (rest := t :: n :: q ++ tail).
  cbn [parse_entries]. assert (length (pre ++ rest) = (length pre + (length q + 2 + length tail))%nat) as ->.
  { rewrite length_app. simpl. rewrite length_app. lia. }
  destruct (Z.of_nat (length pre) + 2 <=? _) eqn:E; bool_prop; [|lia]. simpl negb. cbv iota.
  rewrite (load_nth pre rest 0 t (Z.of_nat (length pre))) by (done || lia).
  rewrite (load_nth pre rest 1 n (Z.of_nat (length pre) + 1)) by (done || lia). cbn [mbind run_bind].
  destruct ((n <? 2) || _) eqn:E2; [bool_prop; lia|]. clear E E2.
  destruct (decide (t = ACPI_MADT_ENTRY_TYPE_INTERRUPT_SOURCE_OVERRIDE)) as [Ht|Ht].
  2:{ unfold ACPI_MADT_ENTRY_TYPE_INTERRUPT_SOURCE_OVERRIDE in *.
      destruct (t =? 2) eqn:E; bool_prop; [done|]. simpl.
      destruct t as [|[ [] | [] | ]|]; done. }
  rewrite Ht. rewrite Z.eqb_refl. simpl negb. simpl orb.
  destruct (n <? 10) eqn:E; bool_prop.
  { do 8 (destruct q as [|? q]; [done|]). simpl in Hn. lia. }
  do 8 (destruct q as [|? q]; [simpl in Hn; lia|]).
  rewrite (load_nth pre rest 2 z (Z.of_nat (length pre) + 2)) by (done || lia).
  rewrite (load_nth pre rest 3 z0 (Z.of_nat (length pre) + 3)) by (done || lia). cbn [mbind run_bind].
  rewrite (load_le_nth pre rest 4 4 [z1; z2; z3; z4]);
    [|lia|done|intros i Hi; do 4 (destruct i as [|i]; [done|]); lia].
  rewrite (load_le_nth pre rest 2 8 [z5; z6]);
    [|lia|done|intros i Hi; do 2 (destruct i as [|i]; [done|]); lia].
  cbn [mbind run_bind]. unfold madt_meaning, ACPI_MADT_ENTRY_TYPE_INTERRUPT_SOURCE_OVERRIDE.
  destruct (z =? 0); simpl; [|done]. rewrite (Z.ltb_antisym _ z0). by destruct (_ <=? z0).
Qed.

(** Where no entry starts, the walk ends. *)
Lemma parse_stops fuel pre rest isa f :
  madt_stops rest -> (length rest <= fuel)%nat ->
  parse_entries fuel (pre ++ rest) (Z.of_nat (length pre)) isa f = Done (isa, f).
Proof.
  intros Hs Hf. assert (length rest < 2 \/ 2 <= length rest)%nat as [Hl|Hl] by lia.
  { destruct fuel; cbn [parse_entries]; rewrite length_app;
      destruct (_ + 2 <=? _) eqn:E; bool_prop; (lia || done). }
  destruct rest as [|t [|n p] ]; simpl in Hl; try lia. destruct fuel; simpl in Hf; [lia|].
  cbn [parse_entries]. rewrite length_app.
  destruct (_ + 2 <=? _) eqn:E; bool_prop; [|simpl in E; lia]. simpl negb. cbv iota.
  rewrite (load_nth pre (t :: n :: p) 0 t (Z.of_nat (length pre))) by (done || lia).
  rewrite (load_nth pre (t :: n :: p) 1 n (Z.of_nat (length pre) + 1)) by (done || lia). simpl mbind.
  cbn [madt_stops length] in Hs. destruct ((n <? 2) || _) eqn:E2; [done|]. bool_prop. lia.
Qed.

Lemma parse_entries_exact fuel pre rest isa f :
  Forall is_byte rest -> (length rest <= fuel)%nat ->
  exists es tail, rest = flat_map madt_bytes es ++ tail /\ madt_stops tail /\
    parse_entries fuel (pre ++ rest) (Z.of_nat (length pre)) isa f =
      Done (fold_left madt_meaning es (isa, f)).
Proof.
  revert pre rest isa f. induction fuel as [|fuel IH]; intros pre rest isa f Hb Hf.
  { destruct rest; [|simpl in Hf; lia]. exists [], []. split_and!; [done..|]. by apply parse_stops. }
  destruct (match rest with _ :: n :: _ => (n <? 2) || (Z.of_nat (length rest) <? n) | _ => true end) eqn:Hs.
  { assert (madt_stops rest) as Hstop.
    { destruct rest as [|? [|n p] ]; [done..|]. cbn [madt_stops].
      apply orb_true_iff in Hs as [Hs|Hs]; [left|right]; by apply Z.ltb_lt. }
    exists [], rest. split_and!; [done..|]. by apply parse_stops. }
  destruct rest as [|t [|n p] ]; [done..|]. apply orb_false_iff in Hs as [H2 Hle]. bool_prop.
  simpl length in Hle, Hf.
  set (q := take (Z.to_nat n - 2) p). set (tl := drop (Z.to_nat n - 2) p).
  assert (length q = (Z.to_nat n - 2)%nat) as Hq by (unfold q; rewrite length_take; lia).
  assert (p = q ++ tl) as Ep by (symmetry; apply take_drop).
  assert (n = Z.of_nat (length q + 2)) as En by lia.
  assert (pre ++ t :: n :: q ++ tl = (pre ++ madt_bytes (t, q)) ++ tl) as Ebuf.
  { unfold madt_bytes. simpl. rewrite <- En, <- app_assoc. done. }
  assert (Z.of_nat (length pre) + n = Z.of_nat (length (pre ++ madt_bytes (t, q)))) as Elen.
  { rewrite length_app. simpl. lia. }
  destruct (IH (pre ++ madt_bytes (t, q)) tl
              (madt_meaning (isa, f) (t, q)).1 (madt_meaning (isa, f) (t, q)).2)
    as (es & tail & E1 & Hstop & E2).
  { do 2 apply Forall_cons_1 in Hb as [_ Hb]. by apply Forall_drop. }
  { unfold tl. rewrite length_drop. lia. }
  exists ((t, q) :: es), tail. split_and!; [|done|].
  { rewrite Ep, E1. simpl. rewrite <- En, <- app_assoc. done. }
  rewrite Ep, parse_entry by lia. cbv zeta. rewrite Ebuf, Elen, E2.
  by rewrite <- surjective_pairing.
Qed.

(** For any bytes the firmware puts there, the walk over the MADT reads
    inside the table, ends, and does what the entries say, in their order: the
    table is a sequence of entries and a rest in which no entry starts, the
    interrupt source overrides of the ISA bus are applied, and every other
    entry is passed over. *)
Theorem parse_madt_exact Buffer isa f :
  Forall is_byte Buffer ->
  exists es tail, Buffer = flat_map madt_bytes es ++ tail /\ madt_stops tail /\
    UacpiNtParseMadt (Some Buffer) isa f = Done (fold_left madt_meaning es (isa, f)).
Proof. intros Hb. apply (parse_entries_exact (length Buffer) [] Buffer isa f Hb). lia. Qed.

(** IRQ 9 goes to line 20, level and active low. *)
Definition madt_example : list Z := [0; 8; 0; 0; 1; 0; 0; 0; 2; 10; 0; 9; 20; 0; 0; 0; 15; 0].

Lemma parse_madt_exact_witness :
  exists isa f, UacpiNtParseMadt (Some madt_example) no_overrides no_flags = Done (isa, f) /\
    UacpiNtGsivFromIrq isa 9 = 20 /\ UacpiNtGsivMode f 20 = LevelSensitive /\
    UacpiNtGsivPolarity f 20 = InterruptActiveLow.
Proof.
  destruct (parse_madt_exact madt_example no_overrides no_flags) as (es & tail & _ & _ & E).
  { repeat (apply Forall_cons_2; [unfold is_byte; lia|]). by apply Forall_nil_2. }
  destruct (fold_left madt_meaning es (no_overrides, no_flags)) as [isa f]. exists isa, f.
  split; [done|]. vm_compute in E. injection E as <- <-. by vm_compute.
Defined.

(** ** Secondary lines *)

(** The table of secondary lines: no line twice, no more than the kernel has
    vectors for. *)
Definition secondary_wf (Table : list Z) : Prop :=
  NoDup Table /\ (length Table <= UACPINT_SECONDARY_VECTOR_COUNT)%nat.

Lemma secondary_known Gsiv Table i :
  secondary_wf Table -> Table !! i = Some Gsiv ->
  UacpiNtAllocateSecondaryVector Gsiv Table =
    (STATUS_SUCCESS, UACPINT_SECONDARY_VECTOR_BASE + Z.of_nat i, Table).
Proof.
  intros [Hnd Hl] Hi. unfold UacpiNtAllocateSecondaryVector.
  rewrite (find_index_unique (fun x => x =? Gsiv) Table i Gsiv Hi (Z.eqb_refl Gsiv)).
  2:{ intros j y Hj Hy. bool_prop. subst y. by apply (NoDup_lookup Table j i Gsiv). }
  apply lookup_lt_Some in Hi as Hlt.
  destruct (i =? length Table)%nat eqn:E; nat_prop; [lia|]. simpl.
  destruct (i <? length Table)%nat eqn:E2; nat_prop; [done|lia].
Qed.

Lemma secondary_new Gsiv Table :
  Gsiv ∉ Table -> (length Table < UACPINT_SECONDARY_VECTOR_COUNT)%nat ->
  UacpiNtAllocateSecondaryVector Gsiv Table =
    (STATUS_SUCCESS, UACPINT_SECONDARY_VECTOR_BASE + Z.of_nat (length Table), Table ++ [Gsiv]).
Proof.
  intros Hn Hl. unfold UacpiNtAllocateSecondaryVector.
  assert (find_index (fun x => x =? Gsiv) Table = None) as ->.
  { apply find_index_none, Forall_forall. intros x Hx. apply Z.eqb_neq. by intros ->. }
  rewrite Nat.eqb_refl. destruct (_ <? UACPINT_SECONDARY_VECTOR_COUNT)%nat eqn:E; nat_prop; [|lia].
  simpl. rewrite length_app. simpl. destruct (_ <? _)%nat eqn:E2; nat_prop; [done|lia].
Qed.

Lemma secondary_full Gsiv Table :
  Gsiv ∉ Table -> length Table = UACPINT_SECONDARY_VECTOR_COUNT ->
  UacpiNtAllocateSecondaryVector Gsiv Table = (STATUS_INSUFFICIENT_RESOURCES, 0, Table).
Proof.
  intros Hn Hl. unfold UacpiNtAllocateSecondaryVector.
  assert (find_index (fun x => x =? Gsiv) Table = None) as ->.
  { apply find_index_none, Forall_forall. intros x Hx. apply Z.eqb_neq. by intros ->. }
  rewrite Hl, Nat.eqb_refl, Nat.ltb_irrefl. simpl. by rewrite Hl, Nat.ltb_irrefl.
Qed.

(** A secondary line has one vector for its whole life, past the IDT and
    shared with no other line: the call keeps the table well formed and every
    vector it gave out before, gives the line the vector of its place, and
    fails only for a new line when all 256 are taken. *)
Theorem secondary_vectors_stable Gsiv Table s x Table' :
  secondary_wf Table -> UacpiNtAllocateSecondaryVector Gsiv Table = (s, x, Table') ->
  secondary_wf Table' /\ (exists more, Table' = Table ++ more) /\
  (if NT_SUCCESS s
   then UACPINT_SECONDARY_VECTOR_BASE <= x < UACPINT_SECONDARY_VECTOR_BASE + 256 /\
        Table' !! Z.to_nat (x - UACPINT_SECONDARY_VECTOR_BASE) = Some Gsiv /\
        forall Table'', secondary_wf (Table' ++ Table'') ->
          UacpiNtAllocateSecondaryVector Gsiv (Table' ++ Table'') =
            (STATUS_SUCCESS, x, Table' ++ Table'')
   else Gsiv ∉ Table /\ length Table = UACPINT_SECONDARY_VECTOR_COUNT /\ Table' = Table).
Proof.
  intros Hwf E. assert (forall i T, secondary_wf T -> T !! i = Some Gsiv ->
    UACPINT_SECONDARY_VECTOR_BASE <= UACPINT_SECONDARY_VECTOR_BASE + Z.of_nat i < UACPINT_SECONDARY_VECTOR_BASE + 256 /\
    T !! Z.to_nat (UACPINT_SECONDARY_VECTOR_BASE + Z.of_nat i - UACPINT_SECONDARY_VECTOR_BASE) = Some Gsiv /\
    forall T', secondary_wf (T ++ T') ->
      UacpiNtAllocateSecondaryVector Gsiv (T ++ T') =
        (STATUS_SUCCESS, UACPINT_SECONDARY_VECTOR_BASE + Z.of_nat i, T ++ T')) as H.
  { intros i T [_ HT] Hi. apply lookup_lt_Some in Hi as Hlt.
    unfold UACPINT_SECONDARY_VECTOR_COUNT in HT. split_and!; [lia|lia| |].
    - by replace (Z.to_nat _) with i by lia.
    - intros T' HT'. apply secondary_known; [done|]. by apply lookup_app_l_Some. }
  destruct (decide (Gsiv ∈ Table)) as [Hin|Hin].
  { apply list_elem_of_lookup in Hin as [i Hi]. rewrite (secondary_known _ _ i Hwf Hi) in E.
    injection E as <- <- <-. split_and!; [done|by exists []; rewrite app_nil_r|]. by apply H. }
  destruct (decide (length Table = UACPINT_SECONDARY_VECTOR_COUNT)) as [Hl|Hl].
  { rewrite (secondary_full _ _ Hin Hl) in E. injection E as <- <- <-.
    split_and!; [done|by exists []; rewrite app_nil_r|done]. }
  destruct Hwf as [Hnd Hle]. rewrite secondary_new in E by (done || lia). injection E as <- <- <-.
  assert (secondary_wf (Table ++ [Gsiv])) as Hwf'.
  { split; [|rewrite length_app; simpl; lia]. apply NoDup_app. split_and!; [done| |apply NoDup_singleton].
    intros y Hy ->%list_elem_of_singleton. done. }
  split_and!; [done|by eexists|]. apply H; [done|]. by rewrite list_lookup_middle.
Qed.

Lemma secondary_vectors_stable_witness :
  UacpiNtAllocateSecondaryVector 70 [64; 70; 80] = (STATUS_SUCCESS, 257, [64; 70; 80]).
Proof.
  assert (UacpiNtAllocateSecondaryVector 70 [64] = (STATUS_SUCCESS, 257, [64; 70])) as E by reflexivity.
  assert (secondary_wf [64]) as Hwf.
  { split; [apply NoDup_singleton|]. simpl. unfold UACPINT_SECONDARY_VECTOR_COUNT. lia. }
  destruct (secondary_vectors_stable 70 [64] _ _ _ Hwf E) as (_ & _ & _ & _ & H). apply (H [80]). split.
  - repeat (apply NoDup_cons; split; [set_solver|]). apply NoDup_nil_2.
  - simpl. unfold UACPINT_SECONDARY_VECTOR_COUNT. lia.
Defined.

(** ** The HAL's dispatch table *)

(** Installing the overrides takes over the slots and no others, leaves
    the message slots of an older table alone, and keeps the HAL's own routine:
    the saved routine is never the override, so a lookup through it does not
    come back; installing again changes nothing. *)
Theorem install_overrides_keeps_hal Ours t saved t' saved' :
  saved <> ov_GetInterruptVector Ours -> (28 < length t)%nat ->
  UacpiNtInstallHalOverrides true Ours (Some t) saved = (Some t', saved') ->
  saved' <> ov_GetInterruptVector Ours /\
  t' !! 22%nat = Some (ov_GetInterruptVector Ours) /\ t' !! 23%nat = Some (ov_GetVectorInput Ours) /\
  (forall i, i <> 22%nat -> i <> 23%nat -> (i <> 27%nat /\ i <> 28%nat) \/ u32 (nth 0 t 0) < 6 ->
     t' !! i = t !! i) /\
  UacpiNtInstallHalOverrides true Ours (Some t') saved' = (Some t', saved').
Proof.
  intros Hs Hl. unfold UacpiNtInstallHalOverrides, UACPINT_HAL_SLOT_GET_INTERRUPT_VECTOR,
    UACPINT_HAL_SLOT_GET_VECTOR_INPUT, UACPINT_HAL_SLOT_ALLOCATE_MSG_TARGET,
    UACPINT_HAL_SLOT_FREE_MSG_TARGET, UACPINT_HAL_PRIVATE_MSG_VERSION. cbn [negb].
  set (S := nth 22 t 0). intros [= <- <-]. do 29 (destruct t as [|? t]; [simpl in Hl; lia|]).
  set (ver := u32 _). cbn [nth] in *. fold ver.
  split.
  { destruct (negb (S =? 0) && negb (S =? ov_GetInterruptVector Ours)) eqn:E; [|done].
    bool_prop. lia. }
  destruct (6 <=? ver) eqn:Ev; bool_prop; simpl; fold ver; rewrite ?Z.eqb_refl, ?andb_false_r.
  - replace (6 <=? ver) with true by (symmetry; by apply Z.leb_le). simpl. split_and!; try done.
    intros i H1 H2 [ [H3 H4]|H3]; [|lia]. do 29 (destruct i as [|i]; [done || lia|]). done.
  - replace (6 <=? ver) with false by (symmetry; apply Z.leb_gt; lia). split_and!; try done.
    intros i H1 H2 _. do 24 (destruct i as [|i]; [done || lia|]). done.
Qed.


(** A table of version 8, with the HAL's routines at 100 and up. *)
Definition hal_table : list Z := 8 :: map (fun i => 100 + Z.of_nat i) (seq 1 40).

Lemma install_overrides_keeps_hal_witness :
  exists t, UacpiNtInstallHalOverrides true (mkOverrides 1 2 3 4) (Some hal_table) 9 = (Some t, 122) /\
    t !! 22%nat = Some 1 /\ t !! 26%nat = Some 126 /\
    UacpiNtInstallHalOverrides true (mkOverrides 1 2 3 4) (Some t) 122 = (Some t, 122).
Proof.
  destruct (UacpiNtInstallHalOverrides true (mkOverrides 1 2 3 4) (Some hal_table) 9) as [ot s] eqn:E.
  assert (s = 122) as -> by (vm_compute in E; congruence).
  destruct ot as [t|]; [|discriminate E]. exists t. split; [done|].
  destruct (install_overrides_keeps_hal (mkOverrides 1 2 3 4) hal_table 9 t 122 ltac:(done)
              ltac:(vm_compute; lia) E) as (_ & H1 & _ & H2 & H3).
  split_and!; [exact H1| |exact H3]. rewrite H2; [reflexivity|lia|lia|lia].
Defined.

(** ** What the kernel is told and what the HAL slots answer *)

Section Answers.
Context `{R : RtlRangeList} {L : RtlRangeListLaws R} {X : RtlExclusiveRanges R}.
Context (hal : irq_hal) (g : hal_grant).

Lemma vector_of_line v n x :
  v_GsivVector v !! n = Some x -> x <> 0 -> span v (Line n) = Some (x, x).
Proof using.
  intros H Hx. simpl. rewrite H. destruct (x =? 0) eqn:E; bool_prop; [lia|done].
Qed.

(** The slot that names a line for a vector. *)
Lemma vector_input_line b n x :
  vectors_inv g (lb_Vectors b) -> v_GsivVector (lb_Vectors b) !! n = Some x -> x <> 0 ->
  UacpiNtHalGetVectorInputOverride x b =
    (STATUS_SUCCESS, Some (Z.of_nat n, UacpiNtGsivPolarity (lb_Flags b) (Z.of_nat n))).
Proof using.
  intros I Hn Hx. unfold UacpiNtHalGetVectorInputOverride. destruct (x =? 0) eqn:E; bool_prop; [lia|].
  rewrite (find_index_unique (fun y => y =? x) (v_GsivVector (lb_Vectors b)) n x Hn (Z.eqb_refl x)); [done|].
  intros j y Hj Hy. bool_prop. subst y. destruct (decide (j = n)); [done|]. exfalso.
  destruct (vi_disjoint _ _ I (Line j) (Line n) x x x x); [congruence| | |lia|lia]; by apply vector_of_line.
Qed.

Lemma vector_input_message b i r x :
  vectors_inv g (lb_Vectors b) -> v_Runs (lb_Vectors b) !! i = Some r -> is_free_run r = false ->
  mr_Base r <= x < mr_Base r + mr_Count r ->
  UacpiNtHalGetVectorInputOverride x b = (STATUS_INVALID_PARAMETER, None).
Proof using.
  intros I Hi Hf Hx. unfold UacpiNtHalGetVectorInputOverride.
  assert (span (lb_Vectors b) (Msg i) = Some (mr_Base r, mr_Base r + mr_Count r - 1)) as Hs
    by (simpl; by rewrite Hi, Hf).
  pose proof (vi_band _ _ I _ _ _ Hs) as Hband.
  unfold UACPINT_DEVICE_VECTOR_FIRST, UACPINT_DEVICE_VECTOR_LAST in Hband.
  destruct (x =? 0); [done|].
  assert (find_index (fun y => y =? x) (v_GsivVector (lb_Vectors b)) = None) as ->.
  { apply find_index_none, Forall_lookup. intros j y Hj. apply Z.eqb_neq. intros ->.
    destruct (vi_disjoint _ _ I (Line j) (Msg i) x x _ _ ltac:(done) (vector_of_line _ j x Hj ltac:(lia)) Hs); lia. }
  assert (existsb (run_covers x) (v_Runs (lb_Vectors b)) = true) as ->; [|done].
  apply existsb_exists. exists r. split; [by apply list_elem_of_In, (list_elem_of_lookup_2 _ i)|].
  unfold run_covers. unfold is_free_run in Hf. rewrite Hf. rewrite u32_small by lia.
  repeat (apply andb_true_iff; split); try done; zify; lia.
Qed.

Lemma vector_input_foreign b x :
  x <> 0 -> 0 <= x -> vectors_inv g (lb_Vectors b) ->
  (forall s c d, span (lb_Vectors b) s = Some (c, d) -> ~ (c <= x <= d)) ->
  UacpiNtHalGetVectorInputOverride x b = (STATUS_NOT_FOUND, None).
Proof using.
  intros Hx Hx0 I Hn. unfold UacpiNtHalGetVectorInputOverride.
  destruct (x =? 0) eqn:E; bool_prop; [lia|]. clear E.
  assert (find_index (fun y => y =? x) (v_GsivVector (lb_Vectors b)) = None) as ->.
  { apply find_index_none, Forall_lookup. intros j y Hj. apply Z.eqb_neq. intros ->.
    apply (Hn (Line j) x x); [by apply vector_of_line|lia]. }
  destruct (existsb (run_covers x) _) eqn:E; [|done]. exfalso.
  apply existsb_exists in E as (r & Hr%list_elem_of_In & Hc). apply list_elem_of_lookup in Hr as [i Hi].
  unfold run_covers in Hc. bool_prop.
  assert (span (lb_Vectors b) (Msg i) = Some (mr_Base r, mr_Base r + mr_Count r - 1)) as Hs.
  { simpl. rewrite Hi. unfold is_free_run. destruct (mr_Owner r =? NULL) eqn:E; bool_prop; [lia|done]. }
  pose proof (vi_band _ _ I _ _ _ Hs) as Hband. unfold UACPINT_DEVICE_VECTOR_LAST in Hband.
  unfold UACPINT_DEVICE_VECTOR_FIRST in Hband.
  apply (Hn _ _ _ Hs). rewrite u32_small in * by lia. lia.
Qed.

(** The slot through which the kernel asks for the input of a vector is
    the inverse of the allocation: a line's vector is answered with the line
    and its polarity, a message vector with the status that sends the kernel
    down the message path, and a vector nobody holds is not found. *)
Theorem vector_input_inverse b x :
  reachable g (lb_Vectors b) -> 0 < x ->
  (forall n, v_GsivVector (lb_Vectors b) !! n = Some x ->
     UacpiNtHalGetVectorInputOverride x b =
       (STATUS_SUCCESS, Some (Z.of_nat n, UacpiNtGsivPolarity (lb_Flags b) (Z.of_nat n)))) /\
  (forall i c d, span (lb_Vectors b) (Msg i) = Some (c, d) -> c <= x <= d ->
     UacpiNtHalGetVectorInputOverride x b = (STATUS_INVALID_PARAMETER, None)) /\
  ((forall s c d, span (lb_Vectors b) s = Some (c, d) -> ~ (c <= x <= d)) ->
     UacpiNtHalGetVectorInputOverride x b = (STATUS_NOT_FOUND, None)).
Proof using L X.
  intros Hr Hx. destruct (reachable_inv g _ Hr) as (I & _). split_and!.
  - intros n Hn. apply vector_input_line; [done..|lia].
  - intros i c d Hs Hcd. simpl in Hs. destruct (v_Runs _ !! i) as [r|] eqn:Hi; [|done].
    destruct (is_free_run r) eqn:Hf; [done|]. injection Hs as <- <-.
    eapply vector_input_message; [done|exact Hi|done|lia].
  - intros Hn. apply vector_input_foreign; [lia|lia|done|done].
Qed.

(** A line that was allocated is in the table. *)
Lemma allocate_line_recorded v Gsiv s x v' :
  vectors_inv g v -> 0 <= Gsiv < UACPINT_MAX_GSIV -> UacpiNtApicAllocateVector Gsiv v = (s, x, v') ->
  NT_SUCCESS s = true -> v_GsivVector v' !! Z.to_nat Gsiv = Some x /\ x <> 0.
Proof using L X.
  intros I HG. unfold UacpiNtApicAllocateVector. pose proof (vi_lines _ _ I) as Hl.
  unfold UACPINT_MAX_GSIV in *. destruct (Gsiv <? 256) eqn:E; bool_prop; [|lia]. cbn [andb].
  destruct (nth (Z.to_nat Gsiv) (v_GsivVector v) 0 =? 0) eqn:E0; cbn [negb].
  - destruct (v_IdtCount v =? 0)%nat; [by intros [= <- <- <-]|].
    pose proof (first_free_spec v device_vectors UACPINT_DEVICE_VECTOR_FIRST) as Hf.
    destruct (first_free v _ _) as [c|]; [|by intros [= <- <- <-]]. intros [= <- <- <-] _. cbn.
    unfold UACPINT_DEVICE_VECTOR_FIRST in Hf. split; [|lia].
    by apply list_lookup_insert_eq; lia.
  - intros [= <- <- <-] _. bool_prop. split; [|done].
    destruct (lookup_lt_is_Some_2 (v_GsivVector v) (Z.to_nat Gsiv)) as [y Hy]; [lia|].
    by rewrite Hy, (nth_lookup_Some _ _ _ _ Hy).
Qed.

(** Under the APIC model the property a device gets for a line and the
    HAL slots agree: the data has one element, for that line and one target
    processor, and its vector is the one the slots give for the line and for
    every IRQ that maps to it, with the same polarity and IRQL. *)
Theorem connection_data_agrees_with_hal b Granted Pdo Gsiv Count s Data b' Irq :
  reachable g (lb_Vectors b) -> lb_Apic b = true -> 0 <= Gsiv < UACPINT_MAX_GSIV ->
  UacpiNtIsSecondaryGsiv hal Gsiv = false ->
  UacpiNtIrqLibWriteConnectionData hal Granted Pdo Gsiv Count b = (s, Some Data, b') ->
  exists e, Data = mkConnectionData 1 [e] /\ vd_Type e = ControllerInput Gsiv /\
    UacpiNtHalGetVectorInputOverride (vd_Vector e) b' = (STATUS_SUCCESS, Some (Gsiv, vd_Polarity e)) /\
    vd_Target e = UacpiNtLowestProcessor (ih_ActiveProcessors hal) /\
    (UacpiNtGsivFromIrq (lb_Isa b') Irq = Gsiv ->
     UacpiNtHalGetInterruptVectorOverride hal Irq Irq b' =
       (vd_Vector e, Some (vd_Irql e, ih_ActiveProcessors hal))).
Proof using L X.
  intros Hr HA HG Hsec. destruct (reachable_inv g _ Hr) as (I & _ & Hst).
  unfold UacpiNtIrqLibWriteConnectionData. destruct (UACPINT_MESSAGE_GSIV_BASE <=? Gsiv) eqn:EM.
  { bool_prop. unfold UACPINT_MESSAGE_GSIV_BASE, UACPINT_MAX_GSIV in *. lia. }
  destruct (UacpiNtOwnerHasMessages _ _); [done|].
  unfold UacpiNtIrqLibResolveVector. rewrite Hsec, HA.
  destruct (UacpiNtApicAllocateVector Gsiv (lb_Vectors b)) as [ [s1 x] v'] eqn:E1.
  destruct (NT_SUCCESS s1) eqn:Es; cbn [negb]; [|done].
  assert (vectors_inv g v') as I'.
  { eapply allocate_line_inv; [exact I|exact Hst| |exact E1]. unfold UACPINT_MAX_GSIV in HG. lia. }
  destruct (allocate_line_recorded _ _ _ _ _ I HG E1 Es) as [Hx Hx0].
  assert ((if ih_ActiveProcessors hal =? 0 then ih_ActiveProcessors hal else ih_ActiveProcessors hal)
          = ih_ActiveProcessors hal) as -> by (by destruct (_ =? 0)).
  destruct (NT_SUCCESS (UacpiNtSetConnectionData _ _ _)); [|done]. intros [= <- <- <-].
  eexists. split_and!; [reflexivity..| | |]; cbn [vd_Vector vd_Polarity vd_Irql vd_Target rv_Vector rv_Irql rv_Polarity rv_Affinity].
  - rewrite (vector_input_line (lb_set_Vectors v' b) (Z.to_nat Gsiv) x I' Hx Hx0).
    by rewrite Z2Nat.id by lia.
  - done.
  - intros HI. unfold UacpiNtHalGetInterruptVectorOverride. rewrite Z.eqb_refl. cbn [negb]. rewrite HI.
    cbn [lb_Vectors lb_set_Vectors]. rewrite (nth_lookup_Some _ _ _ _ Hx).
    destruct (UACPINT_MAX_GSIV <=? Gsiv) eqn:E; bool_prop; [lia|].
    destruct (x =? 0) eqn:E0; bool_prop; [done|]. done.
Qed.
End Answers.

(** ** The order of message elements *)

Section Messages.
Context (hal : irq_hal) (Pdo : PVOID).

(** The runs of the device the loop has still to emit, with their places. *)
Fixpoint left_to_emit (runs : list UACPINT_MESSAGE_RUN) (Emitted : list bool) (k : nat)
  : list (nat * UACPINT_MESSAGE_RUN) :=
  match runs, Emitted with
  | r :: runs, e :: Emitted =>
      if negb (mr_Owner r =? Pdo) || (mr_Count r =? 0) || e then left_to_emit runs Emitted (S k)
      else (k, r) :: left_to_emit runs Emitted (S k)
  | _, _ => []
  end.

Lemma precedes_trans r1 r2 r3 :
  UacpiNtMessageRunPrecedes r1 r2 = true -> UacpiNtMessageRunPrecedes r2 r3 = true ->
  UacpiNtMessageRunPrecedes r1 r3 = true.
Proof using.
  unfold UacpiNtMessageRunPrecedes.
  destruct (mr_MessageGsiv r1 =? mr_MessageGsiv r2) eqn:E12, (mr_MessageGsiv r2 =? mr_MessageGsiv r3) eqn:E23,
    (mr_MessageGsiv r1 =? mr_MessageGsiv r3) eqn:E13, (mr_MessageGsiv r1 =? 0) eqn:E1,
    (mr_MessageGsiv r2 =? 0) eqn:E2, (mr_MessageGsiv r3 =? 0) eqn:E3; simpl; bool_prop; try done; try lia;
    intros; bool_prop; try lia; apply Z.ltb_lt; lia.
Qed.

Lemma precedes_total r1 r2 :
  mr_Base r1 <> mr_Base r2 -> UacpiNtMessageRunPrecedes r2 r1 = false ->
  UacpiNtMessageRunPrecedes r1 r2 = true.
Proof using.
  unfold UacpiNtMessageRunPrecedes.
  destruct (mr_MessageGsiv r2 =? mr_MessageGsiv r1) eqn:E12, (mr_MessageGsiv r1 =? mr_MessageGsiv r2) eqn:E21,
    (mr_MessageGsiv r1 =? 0) eqn:E1, (mr_MessageGsiv r2 =? 0) eqn:E2; simpl; bool_prop; try done; try lia;
    intros; bool_prop; try lia; apply Z.ltb_lt; lia.
Qed.

Definition pick (Next : option (nat * UACPINT_MESSAGE_RUN)) (c : nat * UACPINT_MESSAGE_RUN) :=
  match Next with
  | None => Some c
  | Some n => if UacpiNtMessageRunPrecedes c.2 n.2 then Some c else Some n
  end.

Lemma next_run_fold runs Emitted k Next :
  next_run Pdo runs Emitted k Next = fold_left pick (left_to_emit runs Emitted k) Next.
Proof using.
  revert Emitted k Next. induction runs as [|r runs IH]; intros [|e Emitted] k Next; try done.
  simpl. rewrite IH. destruct (negb _ || _ || e); [done|]. simpl. f_equal.
  destruct Next as [ [i n]|]; [|done]. simpl. by destruct (UacpiNtMessageRunPrecedes r n).
Qed.

(** The pick is one of the candidates and none of them goes before it. *)
Lemma pick_first l n :
  exists m, fold_left pick l (Some n) = Some m /\ m ∈ n :: l /\
    Forall (fun c => UacpiNtMessageRunPrecedes c.2 m.2 = false) l /\
    (m = n \/ UacpiNtMessageRunPrecedes m.2 n.2 = true).
Proof using.
  revert n. induction l as [|c l IH]; intros n.
  { exists n. simpl. split_and!; [done|set_solver|by apply Forall_nil_2|by left]. }
  simpl. destruct (UacpiNtMessageRunPrecedes c.2 n.2) eqn:E.
  - destruct (IH c) as (m & -> & Hm & Hf & Hc). exists m. split_and!; [done|set_solver| |].
    + apply Forall_cons_2; [|done]. destruct Hc as [->|Hc].
      * unfold UacpiNtMessageRunPrecedes. rewrite Z.eqb_refl. simpl. apply Z.ltb_irrefl.
      * apply not_true_iff_false. intros H. pose proof (precedes_trans _ _ _ H Hc) as Hcc.
        unfold UacpiNtMessageRunPrecedes in Hcc. rewrite Z.eqb_refl in Hcc. simpl in Hcc.
        by rewrite Z.ltb_irrefl in Hcc.
    + right. destruct Hc as [->|Hc]; [done|]. by eapply precedes_trans.
  - destruct (IH n) as (m & -> & Hm & Hf & Hc). exists m. split_and!; [done|set_solver| |done].
    apply Forall_cons_2; [|done]. destruct Hc as [->|Hc]; [done|].
    apply not_true_iff_false. intros H. by rewrite (precedes_trans _ _ _ H Hc) in E.
Qed.

Lemma left_places runs Emitted k i r :
  (i, r) ∈ left_to_emit runs Emitted k ->
  (k <= i)%nat /\ runs !! (i - k)%nat = Some r /\ mr_Owner r = Pdo /\ mr_Count r <> 0.
Proof using.
  revert Emitted k. induction runs as [|r0 runs IH]; intros [|e Emitted] k; simpl;
    try (by intros ?%elem_of_nil).
  destruct (_ || e) eqn:E.
  - intros H. destruct (IH _ _ H) as (H1 & H2 & H3). split; [lia|]. split; [|done].
    by replace (i - k)%nat with (S (i - S k)) by lia.
  - intros [ [= -> ->]|H]%elem_of_cons.
    + bool_prop. rewrite Nat.sub_diag. split_and!; (done || lia).
    + destruct (IH _ _ H) as (H1 & H2 & H3). split; [lia|]. split; [|done].
      by replace (i - k)%nat with (S (i - S k)) by lia.
Qed.

Lemma left_nodup runs Emitted k : NoDup (map fst (left_to_emit runs Emitted k)).
Proof using.
  revert Emitted k. induction runs as [|r0 runs IH]; intros [|e Emitted] k; simpl; try apply NoDup_nil_2.
  destruct (_ || e); [done|]. simpl. apply NoDup_cons. split; [|done].
  intros (x & -> & Hx)%list_elem_of_fmap. destruct x as [i r]. apply left_places in Hx. simpl in Hx. lia.
Qed.

(** Marking a run takes it, and only it, out. *)
Lemma left_mark runs Emitted k i r :
  (i, r) ∈ left_to_emit runs Emitted k ->
  left_to_emit runs Emitted k ≡ₚ (i, r) :: left_to_emit runs (<[(i - k)%nat := true]> Emitted) k.
Proof using.
  revert Emitted k. induction runs as [|r0 runs IH]; intros [|e Emitted] k H; simpl in *;
    try (by apply elem_of_nil in H).
  destruct (decide (i = k)) as [->|Hik].
  - rewrite Nat.sub_diag. simpl. rewrite orb_true_r.
    destruct (_ || e) eqn:E; [apply left_places in H; lia|].
    apply elem_of_cons in H as [ [= ->]|H]; [done|]. apply left_places in H. lia.
  - assert (k < i)%nat as Hlt by (destruct (_ || e); [apply left_places in H; lia|];
      apply elem_of_cons in H as [ [= -> ->]|H]; [done|apply left_places in H; lia]).
    replace (i - k)%nat with (S (i - S k)) by lia. simpl.
    destruct (_ || e); [by apply IH|]. apply elem_of_cons in H as [ [= -> ->]|H]; [done|].
    rewrite (IH _ _ H). apply perm_swap.
Qed.

Definition counts (l : list (nat * UACPINT_MESSAGE_RUN)) : nat :=
  sum_list (map (fun c => Z.to_nat (mr_Count c.2)) l).

Lemma counts_perm l l' : l ≡ₚ l' -> counts l = counts l'.
Proof using. intros H. unfold counts. by rewrite H. Qed.

(** The order of the descriptors: a higher arbiter placement first, the runs
    the HAL placed last, those from the lowest vector up. *)
Definition in_order : relation (nat * UACPINT_MESSAGE_RUN) := fun a b =>
  let ga := mr_MessageGsiv a.2 in let gb := mr_MessageGsiv b.2 in
  (ga <> 0 /\ gb = 0) \/ (ga <> 0 /\ gb <> 0 /\ gb < ga) \/ (ga = gb /\ mr_Base a.2 < mr_Base b.2).

Lemma precedes_in_order a b : UacpiNtMessageRunPrecedes a.2 b.2 = true -> in_order a b.
Proof using.
  unfold UacpiNtMessageRunPrecedes, in_order.
  destruct (mr_MessageGsiv a.2 =? mr_MessageGsiv b.2) eqn:E1, (mr_MessageGsiv a.2 =? 0) eqn:E2,
    (mr_MessageGsiv b.2 =? 0) eqn:E3; simpl; intros; bool_prop; try done; lia.
Qed.

Lemma emit_runs_exact fuel Target runs Emitted Written Total :
  let rest := left_to_emit runs Emitted 0 in
  (length rest <= fuel)%nat -> Total = (length Written + counts rest)%nat ->
  (forall a b, a ∈ rest -> b ∈ rest -> a.1 <> b.1 -> mr_Base a.2 <> mr_Base b.2) ->
  Forall (fun c => 0 < mr_Count c.2) rest ->
  exists order, order ≡ₚ rest /\ StronglySorted in_order order /\
    emit_runs hal fuel Pdo Target runs Emitted Written Total =
      Written ++ flat_map (fun c => run_elements hal Target c.2 (Z.to_nat (mr_Count c.2))) order.
Proof using.
  revert Emitted Written. induction fuel as [|fuel IH]; intros Emitted Written rest Hf HT Hb Hc.
  { assert (rest = []) as Er by (apply nil_length_inv; lia). rewrite Er in *. exists [].
    split_and!; [done|by constructor|]. simpl. rewrite app_nil_r.
    destruct (length Written <? Total)%nat; done. }
  destruct (decide (rest = [])) as [Er|Er].
  { exists []. rewrite Er in *. split_and!; [done|by constructor|]. simpl in *. rewrite app_nil_r.
    unfold counts in HT. simpl in HT. rewrite HT, Nat.add_0_r, Nat.ltb_irrefl. done. }
  destruct rest as [|c0 rest0] eqn:Er'; [done|]. unfold rest in Er'.
  destruct (pick_first rest0 c0) as ([i m] & Hm & Hin & Hno & Hc0).
  assert (Forall (fun c => UacpiNtMessageRunPrecedes c.2 m = false) (c0 :: rest0)) as Hall.
  { apply Forall_cons_2; [|done]. simpl in Hc0. destruct Hc0 as [<-|Hc0].
    - unfold UacpiNtMessageRunPrecedes. simpl. rewrite Z.eqb_refl. simpl. apply Z.ltb_irrefl.
    - apply not_true_iff_false. intros H. pose proof (precedes_trans _ _ _ H Hc0) as Hcc.
      unfold UacpiNtMessageRunPrecedes in Hcc. rewrite Z.eqb_refl in Hcc. simpl in Hcc.
      by rewrite Z.ltb_irrefl in Hcc. }
  assert (c0 :: rest0 ≡ₚ (i, m) :: left_to_emit runs (<[i := true]> Emitted) 0) as Hmark.
  { rewrite <- Er'. rewrite <- Er' in Hin. pose proof (left_mark _ _ _ _ _ Hin) as H.
    by rewrite Nat.sub_0_r in H. }
  set (rest' := left_to_emit runs (<[i := true]> Emitted) 0) in *.
  assert (0 < mr_Count m) as Hmc by (by rewrite Forall_forall in Hc; apply (Hc (i, m))).
  assert (counts (c0 :: rest0) = (Z.to_nat (mr_Count m) + counts rest')%nat) as Hcount
    by (by rewrite (counts_perm _ _ Hmark)).
  assert (length (run_elements hal Target m (Total - length Written)) = Z.to_nat (mr_Count m)) as Hlen.
  { unfold run_elements. rewrite length_map, length_seq. lia. }
  destruct (IH (<[i := true]> Emitted) (Written ++ run_elements hal Target m (Total - length Written)))
    as (order & Hperm & Hsort & E).
  { fold rest'. apply Permutation_length in Hmark. simpl in *. lia. }
  { fold rest'. rewrite length_app, Hlen. lia. }
  { fold rest'. intros a b Ha Hb'. apply Hb; rewrite Hmark; by right. }
  { fold rest'. rewrite Hmark, Forall_cons in Hc. apply Hc. }
  fold rest' in Hperm. exists ((i, m) :: order). split_and!.
  - by rewrite Hmark, Hperm.
  - constructor; [done|]. rewrite Hperm. rewrite Hmark, Forall_cons in Hall. destruct Hall as [_ Hall].
    rewrite Forall_forall in *. intros c Hcin. apply precedes_in_order, precedes_total; [|by apply Hall]. simpl.
    pose proof (left_nodup runs Emitted 0) as Hnd. rewrite Er', Hmark in Hnd. simpl in Hnd.
    apply NoDup_cons in Hnd as [Hnd _].
    apply (Hb (i, m) c); [done|by rewrite Hmark; right|]. simpl. intros ->. apply Hnd.
    by apply list_elem_of_fmap_2.
  - cbn [emit_runs]. destruct (length Written <? Total)%nat eqn:EL; nat_prop; [|lia]. cbn [negb].
    rewrite next_run_fold, Er'. simpl. rewrite Hm, E. simpl. rewrite <- app_assoc. do 2 f_equal.
    unfold run_elements. do 2 f_equal. lia.
Qed.
Lemma left_all runs k i r :
  (i, r) ∈ left_to_emit runs (map (fun _ => false) runs) k <->
    (k <= i)%nat /\ runs !! (i - k)%nat = Some r /\ mr_Owner r = Pdo /\ mr_Count r <> 0.
Proof using.
  split; [apply left_places|]. revert k. induction runs as [|r0 runs IH]; intros k (H1 & H2 & H3 & H4); [done|].
  simpl. rewrite orb_false_r. destruct (decide (i = k)) as [->|Hne].
  - rewrite Nat.sub_diag in H2. injection H2 as ->. rewrite H3, Z.eqb_refl. simpl.
    destruct (mr_Count r =? 0) eqn:E; bool_prop; [done|]. by left.
  - replace (i - k)%nat with (S (i - S k)) in H2 by lia. simpl in H2.
    destruct (_ || _); [|right]; apply IH; split_and!; (done || lia).
Qed.

(** The sum over the table does not wrap. *)
Lemma owned_total_counts runs k t :
  Forall (fun r => mr_Owner r = Pdo -> 0 <= mr_Count r <= 112) runs ->
  0 <= t -> t + 112 * Z.of_nat (length runs) < 4294967296 ->
  fold_left (fun t r => if mr_Owner r =? Pdo then u32 (t + mr_Count r) else t) runs t =
    t + Z.of_nat (counts (left_to_emit runs (map (fun _ => false) runs) k)).
Proof using.
  revert k t. induction runs as [|r runs IH]; intros k t Hb Ht Hl; simpl; [unfold counts; simpl; lia|].
  apply Forall_cons_1 in Hb as [Hr Hb]. simpl length in Hl. rewrite orb_false_r.
  destruct (mr_Owner r =? Pdo) eqn:E; simpl; bool_prop; [|rewrite (IH (S k)); (done || lia)].
  specialize (Hr E). rewrite u32_small by lia. rewrite (IH (S k)) by (done || lia).
  destruct (mr_Count r =? 0) eqn:E0; bool_prop; unfold counts; simpl; lia.
Qed.
End Messages.

Section MessageData.
Context `{R : RtlRangeList} {L : RtlRangeListLaws R} {X : RtlExclusiveRanges R}.
Context (hal : irq_hal) (g : hal_grant).

(** A run a device holds is in the band. *)
Lemma held_run_band v i r :
  vectors_inv g v -> v_Runs v !! i = Some r -> mr_Owner r <> NULL ->
  span v (Msg i) = Some (mr_Base r, mr_Base r + mr_Count r - 1) /\ 1 <= mr_Count r <= 112.
Proof using.
  intros I Hi Ho. assert (span v (Msg i) = Some (mr_Base r, mr_Base r + mr_Count r - 1)) as Hs.
  { simpl. rewrite Hi. unfold is_free_run. destruct (mr_Owner r =? NULL) eqn:E; bool_prop; done. }
  pose proof (vi_band _ _ I _ _ _ Hs). unfold UACPINT_DEVICE_VECTOR_FIRST, UACPINT_DEVICE_VECTOR_LAST in *.
  split; [done|lia].
Qed.

Lemma elements_length Target (order : list (nat * UACPINT_MESSAGE_RUN)) :
  length (flat_map (fun c => run_elements hal Target c.2 (Z.to_nat (mr_Count c.2))) order) = counts order.
Proof using.
  induction order as [|c order IH]; [done|]. simpl. rewrite length_app, IH. unfold run_elements.
  rewrite length_map, length_seq, Nat.min_id. done.
Qed.

(** The run a call resolved is in the table. *)
Lemma resolve_message_recorded v Owner MessageGsiv Count s x v' :
  vectors_inv g v -> started v -> Owner <> NULL -> 0 <= Count < 0x40000000 ->
  UacpiNtIrqLibResolveMessageVector true Owner MessageGsiv Count v = (s, x, v') -> NT_SUCCESS s = true ->
  exists i r, v_Runs v' !! i = Some r /\ mr_Owner r = Owner /\ mr_MessageGsiv r = MessageGsiv /\ mr_Base r = x.
Proof using L X.
  intros I Hst Ho HC. unfold UacpiNtIrqLibResolveMessageVector. simpl.
  set (n := if Count =? 0 then 1 else Count).
  assert (1 <= n < 0x40000000) as Hn by (unfold n; destruct (Count =? 0) eqn:E; bool_prop; lia).
  destruct (find_index (same_run _ _ _) _) as [i|] eqn:Ei.
  { intros [= <- <- <-] _. apply find_index_some in Ei as (r & Hr & Hs). unfold same_run in Hs. bool_prop.
    exists i, r. by rewrite (nth_lookup_Some _ _ _ _ Hr). }
  destruct (find_index is_free_run (v_Runs v)) as [i|] eqn:Ef; [|by intros [= <- <- <-]].
  destruct (place_run n v) as [ [ [s1 x1] n1] v1] eqn:Ep.
  pose proof (place_run_outcome _ _ _ _ _ _ Hn Ep) as Hp.
  destruct (NT_SUCCESS s1) eqn:Es; intros [= <- <- <-]; [|congruence]. intros _.
  destruct Hp as (-> & _). apply find_index_some in Ef as (r0 & Hi & _). apply lookup_lt_Some in Hi.
  eexists i, _. split; [by apply list_lookup_insert_eq|done].
Qed.

(** The message data a device gets has an element for every message of
    every run the device holds, the one just resolved among them, and for no
    other: the runs one after the other, each from its base up, in the order of
    the descriptors, a higher arbiter placement first and the runs the HAL
    placed last; the count is that of the elements. *)
Theorem message_data_exact b Granted Pdo MessageGsiv Count s Data b' :
  reachable g (lb_Vectors b) -> 0 <= ih_ActiveProcessors hal < 18446744073709551616 -> Pdo <> NULL -> 0 <= Count < 0x40000000 ->
  UacpiNtWriteMessageConnectionData hal Granted Pdo MessageGsiv Count b = (s, Some Data, b') ->
  exists order,
    (forall i r, (i, r) ∈ order <-> v_Runs (lb_Vectors b') !! i = Some r /\ mr_Owner r = Pdo) /\
    NoDup (map fst order) /\ StronglySorted in_order order /\
    (exists i r, (i, r) ∈ order /\ mr_MessageGsiv r = MessageGsiv) /\
    cd_Vectors Data =
      flat_map (fun c => map (fun m => message_element hal (UacpiNtLowestProcessor (ih_ActiveProcessors hal))
                                         (mr_Base c.2 + Z.of_nat m)) (seq 0 (Z.to_nat (mr_Count c.2)))) order /\
    cd_Count Data = Z.of_nat (length (cd_Vectors Data)).
Proof using L X.
  intros Hr Hact Ho HC. destruct (reachable_inv g _ Hr) as (I & _ & Hst).
  unfold UacpiNtWriteMessageConnectionData.
  set (n := if Count =? 0 then 1 else Count).
  assert (0 <= n < 0x40000000) as Hn by (unfold n; destruct (Count =? 0) eqn:E; bool_prop; lia).
  destruct (lb_Apic b); [|done].
  destruct (UacpiNtIrqLibResolveMessageVector true Pdo MessageGsiv n (lb_Vectors b)) as [ [s1 x] v'] eqn:E1.
  destruct (NT_SUCCESS s1) eqn:Es; cbn [negb]; [|done]. destruct Granted; cbn [negb]; [|done].
  pose proof (resolve_message_inv g _ _ _ _ _ _ _ I Hst Ho Hn E1) as I'.
  destruct (resolve_message_recorded _ _ _ _ _ _ _ I Hst Ho Hn E1 Es) as (i0 & r0 & Hi0 & Hr0 & HM & _).
  set (Target := UacpiNtLowestProcessor _). set (runs := v_Runs v') in *.
  set (rest := left_to_emit Pdo runs (map (fun _ => false) runs) 0).
  assert (forall i r, (i, r) ∈ rest <-> runs !! i = Some r /\ mr_Owner r = Pdo) as Hrest.
  { intros i r. unfold rest. rewrite left_all, Nat.sub_0_r. split; [naive_solver lia|]. intros [H1 H2].
    destruct (held_run_band v' i r I' H1) as [_ Hb]; [by rewrite H2|]. split_and!; (done || lia). }
  assert (Forall (fun c => 0 < mr_Count c.2) rest) as Hpos.
  { apply Forall_forall. intros [i r] [H1 H2]%Hrest. simpl.
    destruct (held_run_band v' i r I' H1); [by rewrite H2|lia]. }
  assert (owned_total Pdo runs = Z.of_nat (counts rest)) as HT.
  { unfold owned_total, rest. rewrite (owned_total_counts _ _ 0 0); [lia| |lia|].
    - apply Forall_lookup. intros i r Hi Hp. destruct (held_run_band v' i r I' Hi); [by rewrite Hp|lia].
    - unfold runs. rewrite (vi_runs _ _ I'). unfold UACPINT_MAX_MESSAGE_RUNS. lia. }
  assert ((0 < counts rest)%nat) as Hgt.
  { assert ((i0, r0) ∈ rest) as H0 by (by apply Hrest). apply elem_of_Permutation in H0 as [k Hk].
    rewrite (counts_perm _ _ Hk). rewrite Hk, Forall_cons in Hpos. unfold counts. simpl in *. lia. }
  rewrite HT. destruct (Z.of_nat (counts rest) =? 0) eqn:E0; bool_prop; [lia|]. rewrite Nat2Z.id.
  destruct (emit_runs_exact hal Pdo (length runs) Target runs (map (fun _ => false) runs) [] (counts rest))
    as (order & Hperm & Hsort & HE).
  { fold rest. pose proof (left_nodup Pdo runs (map (fun _ => false) runs) 0) as Hnd. fold rest in Hnd.
    assert (length (map fst rest) <= length (seq 0 (length runs)))%nat as Hle.
    { apply NoDup_incl_length; [by apply NoDup_ListNoDup|]. intros j Hj.
      apply list_elem_of_In, list_elem_of_fmap in Hj as ([i r] & -> & [Hj _]%Hrest).
      apply in_seq. apply lookup_lt_Some in Hj. simpl. lia. }
    by rewrite length_map, length_seq in Hle. }
  { done. }
  { fold rest. intros [i r] [j q] [H1 H2]%Hrest [H3 H4]%Hrest Hij. simpl in *.
    destruct (held_run_band v' i r I' H1) as [Hs1 Hb1]; [by rewrite H2|].
    destruct (held_run_band v' j q I' H3) as [Hs2 Hb2]; [by rewrite H4|].
    destruct (vi_disjoint _ _ I' (Msg i) (Msg j) _ _ _ _ ltac:(congruence) Hs1 Hs2); lia. }
  { done. }
  fold rest in Hperm. simpl in HE. rewrite HE.
  set (els := flat_map _ order).
  assert (length els = counts rest) as Hlen.
  { rewrite <- (counts_perm _ _ Hperm). apply elements_length. }
  rewrite Hlen, Nat.sub_diag, app_nil_r.
  destruct (counts rest =? 0)%nat eqn:E2; nat_prop; [lia|]. cbn [negb].
  destruct (NT_SUCCESS (UacpiNtSetConnectionData _ _ _)); [|done]. intros [= <- <- <-].
  exists order. cbn [cd_Vectors cd_Count lb_Vectors lb_set_Vectors]. split_and!.
  - intros i r. rewrite Hperm. apply Hrest.
  - rewrite Hperm. apply left_nodup.
  - done.
  - exists i0, r0. rewrite Hperm. by rewrite Hrest.
  - unfold els, Target. rewrite lowest_idem by done. rewrite !flat_map_concat_map. f_equal.
    apply map_ext_in. intros [i r] Hin.
    apply list_elem_of_In in Hin. rewrite Hperm in Hin. apply Hrest in Hin as [H1 H2].
    destruct (held_run_band v' i r I' H1) as [Hs Hb]; [by rewrite H2|].
    pose proof (vi_band _ _ I' _ _ _ Hs) as Hband.
    unfold UACPINT_DEVICE_VECTOR_FIRST, UACPINT_DEVICE_VECTOR_LAST in Hband.
    unfold run_elements. simpl. rewrite Nat.min_id. apply map_ext_in. intros m Hm%in_seq. f_equal.
    apply u32_small. lia.
  - by rewrite Hlen.
Qed.
End MessageData.

Section AnswerExamples.
#[local] Existing Instance ref_range_list.
#[local] Existing Instance ref_range_list_laws.
#[local] Existing Instance ref_exclusive_ranges.

(** Two processors, properties that can be written. *)
Definition hal_example : irq_hal :=
  mkIrqHal None 3 None None None (Some (fun _ _ => STATUS_SUCCESS)).

Definition busy_lib : irq_lib := mkIrqLib no_flags busy_vectors no_overrides [] true None.

Lemma vector_input_inverse_witness :
  UacpiNtHalGetVectorInputOverride 0x50 busy_lib = (STATUS_SUCCESS, Some (4, InterruptActiveHigh)) /\
  UacpiNtHalGetVectorInputOverride 0x55 busy_lib = (STATUS_INVALID_PARAMETER, None).
Proof.
  destruct (vector_input_inverse band_grant busy_lib 0x50 busy_reachable ltac:(lia)) as (H1 & _ & _).
  destruct (vector_input_inverse band_grant busy_lib 0x55 busy_reachable ltac:(lia)) as (_ & H2 & _).
  split.
  - apply (H1 4%nat). vm_compute. reflexivity.
  - apply (H2 0%nat 0x54 0x57); [vm_compute; reflexivity|lia].
Defined.

Definition boot_lib : irq_lib := mkIrqLib no_flags boot_vectors no_overrides [] true None.

Lemma connection_data_agrees_with_hal_witness :
  exists s Data b', UacpiNtIrqLibWriteConnectionData hal_example true 9 4 0 boot_lib = (s, Some Data, b') /\
    exists e, Data = mkConnectionData 1 [e] /\
      UacpiNtHalGetInterruptVectorOverride hal_example 4 4 b' = (vd_Vector e, Some (vd_Irql e, 3)).
Proof.
  destruct (UacpiNtIrqLibWriteConnectionData hal_example true 9 4 0 boot_lib) as [ [s D] b'] eqn:E.
  assert (lb_Isa b' = no_overrides) as HI.
  { change b' with ((s, D, b').2). rewrite <- E. vm_compute. reflexivity. }
  assert ((s, D) = (STATUS_SUCCESS, Some (mkConnectionData 1
            [mkVectorData (ControllerInput 4) 0x50 5 InterruptActiveHigh Latched 1]))) as [= -> ->].
  { change (s, D) with ((s, D, b').1). rewrite <- E. vm_compute. reflexivity. }
  eexists _, _, b'. split; [reflexivity|].
  assert (0 <= 4 < UACPINT_MAX_GSIV) as HG by (unfold UACPINT_MAX_GSIV; lia).
  destruct (connection_data_agrees_with_hal hal_example band_grant boot_lib true 9 4 0 _ _ _ 4
              boot_reachable eq_refl HG eq_refl E) as (e & HD & _ & _ & _ & H).
  exists e. split; [exact HD|]. apply H. rewrite HI. reflexivity.
Defined.

(** The device of the four messages gets two more, placed below them. *)
Lemma message_data_exact_witness :
  exists s b' Data order,
    UacpiNtWriteMessageConnectionData hal_example true 7 0xFFFFFFFC 2 busy_lib = (s, Some Data, b') /\
    StronglySorted in_order order /\ cd_Count Data = 6 /\
    map vd_Vector (cd_Vectors Data) = [0x54; 0x55; 0x56; 0x57; 0x52; 0x53] /\
    cd_Count Data = Z.of_nat (length (cd_Vectors Data)).
Proof.
  destruct (UacpiNtWriteMessageConnectionData hal_example true 7 0xFFFFFFFC 2 busy_lib) as [ [s D] b'] eqn:E.
  assert ((s, option_map (fun d => (cd_Count d, map vd_Vector (cd_Vectors d))) D) =
          (STATUS_SUCCESS, Some (6, [0x54; 0x55; 0x56; 0x57; 0x52; 0x53]))) as H.
  { change (s, option_map (fun d => (cd_Count d, map vd_Vector (cd_Vectors d))) D)
      with ((fun p : NTSTATUS * option INTERRUPT_CONNECTION_DATA * irq_lib =>
               (p.1.1, option_map (fun d => (cd_Count d, map vd_Vector (cd_Vectors d))) p.1.2)) (s, D, b')).
    rewrite <- E. vm_compute. reflexivity. }
  destruct D as [Data|]; [|discriminate H]. injection H as -> Hc Hv.
  assert (0 <= ih_ActiveProcessors hal_example < 18446744073709551616) as Hact by (simpl; lia).
  destruct (message_data_exact hal_example band_grant busy_lib true 7 0xFFFFFFFC 2 _ _ _
              busy_reachable Hact ltac:(done) ltac:(lia) E) as (order & _ & _ & Hs & _ & _ & Hl).
  exists STATUS_SUCCESS, b', Data, order. split_and!; done.
Defined.
End AnswerExamples.
