(* ===== verification/IrqLinks.v ===== *)
(** sys/irqarb.c, first half: where a wired interrupt of a PCI function goes.
    The interrupt link devices and the lines they are put on, the routing
    tables, and the climb from a function over its bridges to the table that
    answers for it. *)
From stdpp Require Import base list numbers option strings relations.
From Stdlib Require Import ZArith Lia Permutation.
From S2P Require Import Prelude ArbTypes ResTranslate Resource IrqVectors.

(** ** The interpreter

    Namespace nodes and the methods the driver evaluates on them; a method that
    fails or gives nothing is [None].  _SRS changes the state of the firmware. *)
Abbreviation node := PVOID.

Record uacpi_pci_routing_table_entry := mkPrt {
  prt_address : Z; prt_pin : Z; prt_source : node; prt_index : Z }.

Class Firmware (F : Type) := {
  fw_current : F -> node -> option (list uacpi_resource);
  fw_possible : F -> node -> option (list uacpi_resource);
  fw_set : F -> node -> list uacpi_resource -> bool * F;
  fw_prt : F -> node -> option (list uacpi_pci_routing_table_entry);
  fw_bbn : F -> node -> option Z
}.

(** What ACPI says of the methods of a link: _CRS gives what _SRS was given, and
    no other device and no other method sees the difference. *)
Class FirmwareLaws (F : Type) {FW : Firmware F} := {
  fw_set_current f n rs f' : fw_set f n rs = (true, f') -> fw_current f' n = Some rs;
  fw_set_other f n rs b f' m : fw_set f n rs = (b, f') -> m <> n -> fw_current f' m = fw_current f m;
  fw_set_possible f n rs b f' m : fw_set f n rs = (b, f') -> fw_possible f' m = fw_possible f m;
  fw_set_prt f n rs b f' m : fw_set f n rs = (b, f') -> fw_prt f' m = fw_prt f m
}.

(** ** Link devices *)

Definition UACPINT_ISA_GSIV_COUNT : Z := 16.
Definition UACPINT_IRQ_LINK_MAX : nat := 32.
Definition UACPINT_IRQ_LINK_NONE : Z := 4294967295.
Definition UACPINT_LINK_CANDIDATE_MAX : nat := 16.
Definition UACPINT_PRT_MAX_DEPTH : nat := 8.

Record UACPINT_IRQ_LINK := mkLink { ln_Node : node; ln_Gsiv : Z }.

(** [UacpiNtIrqLinks] and [UacpiNtIrqLinkRotation]. *)
Record irq_links := mkLinks { il_Table : list UACPINT_IRQ_LINK; il_Rotation : Z }.

(** [UacpiNtIrqSciGsiv] and [UacpiNtIrqPciExclusionMask]. *)
Record irq_policy := mkPolicy { ip_SciGsiv : Z; ip_PciExclusionMask : Z }.

Definition no_links : irq_links := mkLinks (replicate UACPINT_IRQ_LINK_MAX (mkLink NULL 0)) 0.

(** The registry value: [None] when the key or the value is not there. *)
Definition UacpiNtIrqPolicyConfigure (REG_DWORD : Z) (Value : option (Z * Z * Z)) (p : irq_policy)
  : irq_policy :=
  match Value with
  | Some (Type', Mask, Length) =>
      if (Type' =? REG_DWORD) && (2 <=? Length) then mkPolicy (ip_SciGsiv p) (u16 Mask) else p
  | None => p
  end.

(** The index of the slot. *)
Definition UacpiNtLinkSlot (Node : node) (Create : bool) (t : list UACPINT_IRQ_LINK)
  : option nat * list UACPINT_IRQ_LINK :=
  match find_index (fun l => ln_Node l =? Node) t with
  | Some Index => (Some Index, t)
  | None =>
      if negb Create then (None, t)
      else match find_index (fun l => ln_Node l =? NULL) t with
           | Some Index => (Some Index, <[Index := mkLink Node UACPINT_IRQ_LINK_NONE]> t)
           | None => (None, t)
           end
  end.

(** The lines of the first interrupt descriptor. *)
Fixpoint first_irqs (Resources : list uacpi_resource) : list Z :=
  match Resources with
  | [] => []
  | UACPI_RESOURCE_TYPE_IRQ i :: _ | UACPI_RESOURCE_TYPE_EXTENDED_IRQ i :: _ => iq_irqs i
  | _ :: rs => first_irqs rs
  end.

(** [with_line i g]: the descriptor cut down to one line. *)
Definition with_line (i : uacpi_irq_list) (Gsiv : Z) : uacpi_irq_list :=
  mkIrqs (iq_triggering i) (iq_polarity i) (iq_sharing i) [Gsiv].

(** The template of _SRS: the first descriptor that has a line gets the new one. *)
Fixpoint put_line (Gsiv : Z) (Resources : list uacpi_resource) : list uacpi_resource :=
  match Resources with
  | [] => []
  | UACPI_RESOURCE_TYPE_IRQ i :: rs =>
      if (1 <=? length (iq_irqs i))%nat then UACPI_RESOURCE_TYPE_IRQ (with_line i (u8 Gsiv)) :: rs
      else UACPI_RESOURCE_TYPE_IRQ i :: put_line Gsiv rs
  | UACPI_RESOURCE_TYPE_EXTENDED_IRQ i :: rs =>
      if (1 <=? length (iq_irqs i))%nat then UACPI_RESOURCE_TYPE_EXTENDED_IRQ (with_line i Gsiv) :: rs
      else UACPI_RESOURCE_TYPE_EXTENDED_IRQ i :: put_line Gsiv rs
  | r :: rs => r :: put_line Gsiv rs
  end.

(** The first line of the [Index]-th interrupt descriptor. *)
Fixpoint current_line (Resources : list uacpi_resource) (Seen Index : nat) : option Z :=
  match Resources with
  | [] => None
  | UACPI_RESOURCE_TYPE_IRQ i :: rs | UACPI_RESOURCE_TYPE_EXTENDED_IRQ i :: rs =>
      match iq_irqs i with
      | g :: _ => if (Seen =? Index)%nat then Some g else current_line rs (S Seen) Index
      | [] => current_line rs (S Seen) Index
      end
  | _ :: rs => current_line rs Seen Index
  end.

Definition UacpiNtGsivHeldByLink (t : list UACPINT_IRQ_LINK) (Gsiv : Z) : bool :=
  existsb (fun l => negb (ln_Node l =? NULL) && (ln_Gsiv l =? Gsiv)) t.

Definition UacpiNtLinkLineUsable (p : irq_policy) (t : list UACPINT_IRQ_LINK) (Gsiv : Z)
  (AvoidOtherLinks : bool) : bool :=
  if Gsiv =? ip_SciGsiv p then false
  else if (Gsiv <? UACPINT_ISA_GSIV_COUNT) && has_flag (ip_PciExclusionMask p) (Z.shiftl 1 Gsiv)
  then false
  else if AvoidOtherLinks && UacpiNtGsivHeldByLink t Gsiv then false
  else true.

Section Links.
Context {F : Type} {FW : Firmware F} (p : irq_policy).

Definition UacpiNtLinkCandidates (f : F) (Link : node) (MaxCount : nat) : list Z :=
  match fw_possible f Link with
  | None => []
  | Some Resources => take MaxCount (first_irqs Resources)
  end.

Definition UacpiNtLinkProgram (Link : node) (Gsiv : Z) (f : F) : NTSTATUS * F :=
  match fw_current f Link with
  | None => (STATUS_NOT_FOUND, f)
  | Some Resources =>
      let '(ok, f) := fw_set f Link (put_line Gsiv Resources) in
      (if ok then STATUS_SUCCESS else STATUS_UNSUCCESSFUL, f)
  end.

(** One pass over the candidates, from the rotation on and around. *)
Definition choose_pass (AvoidOtherLinks : bool) (l : irq_links) (Candidates : list Z) : option Z :=
  let Count := length Candidates in
  let line Index :=
    nth (Z.to_nat (u32 (il_Rotation l + Z.of_nat Index) mod Z.of_nat Count)) Candidates 0 in
  option_map line
    (find_index (fun Index => UacpiNtLinkLineUsable p (il_Table l) (line Index) AvoidOtherLinks)
       (seq 0 Count)).

Definition UacpiNtLinkChoose (f : F) (l : irq_links) (Link : node) : option Z :=
  let Candidates := UacpiNtLinkCandidates f Link UACPINT_LINK_CANDIDATE_MAX in
  if (length Candidates =? 0)%nat then None
  else match choose_pass true l Candidates with
       | Some Gsiv => Some Gsiv
       | None => choose_pass false l Candidates
       end.

Definition UacpiNtLinkCurrentGsiv (f : F) (Link : node) (Index : nat) : option Z :=
  match fw_current f Link with
  | None => None
  | Some Resources => current_line Resources 0 Index
  end.

(** [Some Gsiv] for TRUE. *)
Definition UacpiNtIrqLinkDecide (Node : node) (f : F) (l : irq_links) : option Z * F * irq_links :=
  let '(Slot, t) := UacpiNtLinkSlot Node true (il_Table l) in
  let l := mkLinks t (il_Rotation l) in
  match Slot with
  | None => (None, f, l)
  | Some Slot =>
      let Known := ln_Gsiv (nth Slot t (mkLink NULL 0)) in
      if negb (Known =? UACPINT_IRQ_LINK_NONE) then (Some Known, f, l)
      else
        let Current := default UACPINT_IRQ_LINK_NONE (UacpiNtLinkCurrentGsiv f Node 0) in
        let settle Chosen f := (Some Chosen, f, mkLinks (<[Slot := mkLink Node Chosen]> t) (il_Rotation l)) in
        match UacpiNtLinkChoose f l Node with
        | None => if Current =? UACPINT_IRQ_LINK_NONE then (None, f, l) else settle Current f
        | Some Chosen =>
            if Chosen =? Current then settle Chosen f
            else
              let '(Status, f) := UacpiNtLinkProgram Node Chosen f in
              if NT_SUCCESS Status then settle Chosen f
              else if Current =? UACPINT_IRQ_LINK_NONE then (None, f, l) else settle Current f
        end
  end.

(** [Pic]: the interrupt model is 0. *)
Definition UacpiNtIrqLinksResume (Pic : bool) (l : irq_links) (f : F) : F :=
  if negb Pic then f
  else fold_left (fun f Slot =>
         if (ln_Node Slot =? NULL) || (ln_Gsiv Slot =? UACPINT_IRQ_LINK_NONE) then f
         else (UacpiNtLinkProgram (ln_Node Slot) (ln_Gsiv Slot) f).2) (il_Table l) f.

Definition UacpiNtLinkNodeGsiv (Link : node) (Index : Z) (f : F) (l : irq_links)
  : option Z * F * irq_links :=
  if negb (Index =? 0) then (UacpiNtLinkCurrentGsiv f Link (Z.to_nat Index), f, l)
  else UacpiNtIrqLinkDecide Link f l.
End Links.

(** ** PCI configuration *)

Definition UACPINT_PCI_CLASS_DWORD : Z := 0x08.
Definition UACPINT_PCI_INTERRUPT_DWORD : Z := 0x3C.
Definition PCI_HEADER_TYPE : Z := 0x0E.
Definition PCI_SECONDARY_BUS : Z := 0x19.
Definition PCI_MULTIFUNCTION : Z := 0x80.
Definition PCI_BRIDGE_TYPE : Z := 0x01.
Definition PCI_SUBCLASS_BR_PCI_TO_PCI : Z := 0x04.
Definition PCI_SUBCLASS_BR_CARDBUS : Z := 0x07.

(** What the kernel and the HAL answer: the device properties, the number of
    bytes and the dword HalGetBusDataByOffset reads, a byte read through the bus
    interface of a device, and the lists of the root device, [None] before there
    is one. *)
Record pci_env := mkPci {
  pe_BusNumber : PVOID -> NTSTATUS * Z;
  pe_Address : PVOID -> NTSTATUS * Z;
  pe_HalBusData : Z -> Z -> Z -> Z * Z;
  pe_ReadConfig : PVOID -> Z -> option Z;
  pe_Lists : option (list (string * node) * list (PVOID * node))
}.

(** [_stricmp(a, b) == 0]. *)
Definition to_lower (c : Ascii.ascii) : Ascii.ascii :=
  let n := Ascii.nat_of_ascii c in
  if ((65 <=? n) && (n <=? 90))%nat then Ascii.ascii_of_nat (n + 32) else c.
Fixpoint stricmp_eq (a b : string) : bool :=
  match a, b with
  | EmptyString, EmptyString => true
  | String c a, String d b => bool_decide (to_lower c = to_lower d) && stricmp_eq a b
  | _, _ => false
  end.

Definition UacpiNtHidIsPciRoot (Hid : string) : bool :=
  stricmp_eq Hid "PNP0A03" || stricmp_eq Hid "PNP0A08".

Definition UacpiNtHalReadConfigDword (e : pci_env) (Bus Slot Offset : Z) : option Z :=
  let '(Read, Value) := pe_HalBusData e Bus Slot Offset in
  if Read =? 4 then Some Value else None.

(** [PCI_SLOT_NUMBER]: five bits of device, three of function. *)
Definition UacpiNtPciSlotFromAddress (Address : Z) : Z :=
  Z.lor (Z.land (Z.shiftr Address 16) 0x1F) (Z.shiftl (Z.land Address 7) 5).

Section Routing.
Context {F : Type} {FW : Firmware F} (p : irq_policy) (e : pci_env).

Definition UacpiNtFindPciRootNode (f : F) (Bus : Z) : option node :=
  match pe_Lists e with
  | None => None
  | Some (ChildList, _) =>
      let Roots := take 8 (map snd (List.filter (fun c => UacpiNtHidIsPciRoot c.1) ChildList)) in
      List.find (fun n => u32 (default 0 (fw_bbn f n)) =? Bus) Roots
  end.

(** A candidate is a bridge to [Bus]. *)
Definition bridges_to (Bus : Z) (c : PVOID * node) : bool :=
  match pe_ReadConfig e c.1 PCI_HEADER_TYPE with
  | None => false
  | Some HeaderType =>
      if negb (Z.ldiff HeaderType PCI_MULTIFUNCTION =? PCI_BRIDGE_TYPE) then false
      else match pe_ReadConfig e c.1 PCI_SECONDARY_BUS with
           | None => false
           | Some SecondaryBus => SecondaryBus =? Bus
           end
  end.

Definition UacpiNtFindBridgeNodeForBus (Bus : Z) : option (PVOID * node) :=
  match pe_Lists e with
  | None => None
  | Some (_, FilterList) =>
      let Candidates :=
        take 32 (List.filter (fun c => negb (c.1 =? NULL) && negb (c.2 =? NULL)) FilterList) in
      List.find (bridges_to Bus) Candidates
  end.

(** ** Routing tables *)

Definition prt_matches (Device Pin : Z) (x : uacpi_pci_routing_table_entry) : bool :=
  let Function' := Z.land (prt_address x) 0xFFFF in
  (Z.shiftr (prt_address x) 16 =? Device) && ((Function' =? 0xFFFF) || (Function' =? 0)) &&
  (prt_pin x =? u8 (Pin - 1)).

(** The line, or [None] for STATUS_NOT_FOUND. *)
Definition UacpiNtCrackPrt (Node : node) (Device Pin : Z) (f : F) (l : irq_links)
  : option Z * F * irq_links :=
  match fw_prt f Node with
  | None => (None, f, l)
  | Some Prt =>
      match List.find (prt_matches Device Pin) Prt with
      | None => (None, f, l)
      | Some Entry =>
          if negb (prt_source Entry =? NULL)
          then UacpiNtLinkNodeGsiv p (prt_source Entry) (prt_index Entry) f l
          else (Some (prt_index Entry), f, l)
      end
  end.

(** The bus, device and pin above the bridge. *)
Definition UacpiNtPrtClimbBridge (BridgePdo : PVOID) (Device Pin : Z) : option (Z * Z * Z) :=
  let '(s1, Bus) := pe_BusNumber e BridgePdo in
  let '(s2, BridgeAddress) := pe_Address e BridgePdo in
  if negb (NT_SUCCESS s1) || negb (NT_SUCCESS s2) then None
  else
    let Slot := UacpiNtPciSlotFromAddress BridgeAddress in
    match UacpiNtHalReadConfigDword e Bus Slot UACPINT_PCI_CLASS_DWORD with
    | None => None
    | Some ClassDword =>
        let SubClass := u8 (Z.shiftr ClassDword 16) in
        let up NewPin := Some (Bus, Z.shiftr BridgeAddress 16, NewPin) in
        if SubClass =? PCI_SUBCLASS_BR_PCI_TO_PCI then
          up (u8 (Z.land (u32 (Device + (Pin - 1))) 3 + 1))
        else if SubClass =? PCI_SUBCLASS_BR_CARDBUS then
          match UacpiNtHalReadConfigDword e Bus Slot UACPINT_PCI_INTERRUPT_DWORD with
          | None => None
          | Some PinDword =>
              let NewPin := u8 (Z.shiftr PinDword 8) in
              if (NewPin =? 0) || (4 <? NewPin) then None else up NewPin
          end
        else None
    end.

(** The loop over the bridges, [n] of them at most. *)
Fixpoint climb (n : nat) (Bus Device Pin : Z) (f : F) (l : irq_links) : option Z * F * irq_links :=
  match n with
  | O => (None, f, l)
  | S n =>
      match UacpiNtFindPciRootNode f Bus with
      | Some Producer => UacpiNtCrackPrt Producer Device Pin f l
      | None =>
          match UacpiNtFindBridgeNodeForBus Bus with
          | None => (None, f, l)
          | Some (BridgePdo, Producer) =>
              let '(r, f, l) := UacpiNtCrackPrt Producer Device Pin f l in
              match r with
              | Some Gsiv => (Some Gsiv, f, l)
              | None =>
                  match UacpiNtPrtClimbBridge BridgePdo Device Pin with
                  | None => (None, f, l)
                  | Some (Bus, Device, Pin) => climb n Bus Device Pin f l
                  end
              end
          end
      end
  end.

(** The routed line of a function, which is noted as level triggered. *)
Definition UacpiNtPrtResolveGsiv (DevicePdo : PVOID) (f : F) (l : irq_links) (g : gsiv_flags)
  : option Z * F * irq_links * gsiv_flags :=
  let '(s1, Bus) := pe_BusNumber e DevicePdo in
  let '(s2, Address) := pe_Address e DevicePdo in
  if negb (NT_SUCCESS s1) || negb (NT_SUCCESS s2) then (None, f, l, g)
  else
    match UacpiNtHalReadConfigDword e Bus (UacpiNtPciSlotFromAddress Address)
            UACPINT_PCI_INTERRUPT_DWORD with
    | None => (None, f, l, g)
    | Some PinDword =>
        let Pin := u8 (Z.shiftr PinDword 8) in
        if (Pin =? 0) || (4 <? Pin) then (None, f, l, g)
        else
          let '(r, f, l) := climb UACPINT_PRT_MAX_DEPTH Bus (Z.shiftr Address 16) Pin f l in
          match r with
          | Some Gsiv => (Some Gsiv, f, l, UacpiNtIrqLibNoteLevelGsiv Gsiv g)
          | None => (None, f, l, g)
          end
    end.
End Routing.

(** ** The table of links *)

(** No node has two slots. *)
Definition links_wf (t : list UACPINT_IRQ_LINK) : Prop :=
  length t = UACPINT_IRQ_LINK_MAX /\
  forall i j a b, t !! i = Some a -> t !! j = Some b -> ln_Node a = ln_Node b ->
    ln_Node a <> NULL -> i = j.

(** The line a link was put on. *)
Definition link_line (t : list UACPINT_IRQ_LINK) (n : node) : option Z :=
  match find_index (fun l => ln_Node l =? n) t with
  | Some i => let g := ln_Gsiv (nth i t (mkLink NULL 0)) in
              if g =? UACPINT_IRQ_LINK_NONE then None else Some g
  | None => None
  end.

Lemma no_links_wf : links_wf (il_Table no_links).
Proof.
  split; [done|]. intros i j a b Ha _ _ Hn.
  change (il_Table no_links) with (replicate UACPINT_IRQ_LINK_MAX (mkLink NULL 0)) in Ha. apply lookup_replicate in Ha as [-> _]. done.
Qed.

(** A slot that is found is the slot of the node. *)
Lemma link_index t n i x :
  links_wf t -> t !! i = Some x -> ln_Node x = n -> n <> NULL ->
  find_index (fun l => ln_Node l =? n) t = Some i.
Proof.
  intros [_ Hu] Hi Hx Hn. apply (find_index_unique _ _ i x); [done|by apply Z.eqb_eq|].
  intros j y Hj Hy. bool_prop. eapply Hu; try done; congruence.
Qed.

Lemma link_line_at t n i x :
  links_wf t -> t !! i = Some x -> ln_Node x = n -> n <> NULL ->
  link_line t n = if ln_Gsiv x =? UACPINT_IRQ_LINK_NONE then None else Some (ln_Gsiv x).
Proof.
  intros Hwf Hi Hx Hn. unfold link_line. rewrite (link_index t n i x) by done.
  by rewrite (nth_lookup_Some _ _ _ _ Hi).
Qed.

Lemma link_line_none t n : (forall i x, t !! i = Some x -> ln_Node x <> n) -> link_line t n = None.
Proof.
  intros H. unfold link_line. replace (find_index _ t) with (@None nat); [done|]. symmetry.
  apply find_index_none, Forall_lookup. intros i x Hi. apply Z.eqb_neq. by eapply H.
Qed.

(** Writing the slot of a node: nobody else's line changes. *)
Lemma links_write t i x n g :
  links_wf t -> t !! i = Some x -> ln_Node x = n \/ (ln_Node x = NULL /\ forall j y, t !! j = Some y -> ln_Node y <> n) ->
  n <> NULL ->
  links_wf (<[i := mkLink n g]> t) /\
  (forall m, m <> n -> m <> NULL -> link_line (<[i := mkLink n g]> t) m = link_line t m) /\
  link_line (<[i := mkLink n g]> t) n = if g =? UACPINT_IRQ_LINK_NONE then None else Some g.
Proof.
  intros Hwf Hi Hx Hn. apply lookup_lt_Some in Hi as Hlt. set (t' := <[i := mkLink n g]> t).
  assert (t' !! i = Some (mkLink n g)) as Hi' by (by apply list_lookup_insert_eq).
  assert (forall j y, j <> i -> t' !! j = Some y -> t !! j = Some y /\ ln_Node y <> n) as Hj.
  { intros j y Hne. unfold t'. rewrite list_lookup_insert_ne by done. intros Hj. split; [done|].
    destruct Hx as [Hx|[_ Hx]]; [|by eapply Hx]. intros Hy. apply Hne. destruct Hwf as [_ Hu].
    eapply Hu; try done; congruence. }
  assert (links_wf t') as Hwf'.
  { split; [unfold t'; rewrite length_insert; apply Hwf|]. intros j k a b Ha Hb Hab Hnn.
    destruct (decide (j = i)) as [->|Hji], (decide (k = i)) as [->|Hki]; try done.
    - rewrite Hi' in Ha. injection Ha as <-. destruct (Hj _ _ Hki Hb) as [_ Hc]. done.
    - rewrite Hi' in Hb. injection Hb as <-. destruct (Hj _ _ Hji Ha) as [_ Hc]. done.
    - destruct (Hj _ _ Hji Ha), (Hj _ _ Hki Hb). destruct Hwf as [_ Hu]. by eapply Hu. }
  split_and!; [done| |by rewrite (link_line_at t' n i (mkLink n g))].
  intros m Hm Hmn. destruct (find_index (fun l => ln_Node l =? m) t) as [j|] eqn:Ej.
  - apply find_index_some in Ej as (y & Hy & Hym). bool_prop.
    assert (j <> i) as Hji. { intros ->. rewrite Hi in Hy. injection Hy as <-. destruct Hx as [Hx|[Hx _]]; congruence. }
    rewrite (link_line_at t m j y) by done. apply (link_line_at t' m j y); [done| |done|done].
    unfold t'. by rewrite list_lookup_insert_ne.
  - apply find_index_none in Ej. rewrite Forall_lookup in Ej.
    rewrite (link_line_none t m), (link_line_none t' m); [done| |].
    + intros j y Hy. destruct (decide (j = i)) as [->|Hji].
      * rewrite Hi' in Hy. injection Hy as <-. done.
      * destruct (Hj _ _ Hji Hy) as [Hy' _]. apply Z.eqb_neq. by apply (Ej j).
    + intros j y Hy. apply Z.eqb_neq. by apply (Ej j).
Qed.

(** Finding or creating the slot of a node. *)
Lemma link_slot_spec t n r t' :
  links_wf t -> n <> NULL -> UacpiNtLinkSlot n true t = (r, t') ->
  links_wf t' /\ (forall m, m <> NULL -> link_line t' m = link_line t m) /\
  match r with
  | Some i => exists x, t' !! i = Some x /\ ln_Node x = n
  | None => t' = t /\ link_line t n = None
  end.
Proof.
  intros Hwf Hn. unfold UacpiNtLinkSlot.
  destruct (find_index (fun l => ln_Node l =? n) t) as [i|] eqn:Ei.
  { intros [= <- <-]. apply find_index_some in Ei as (x & Hx & Hxn). bool_prop.
    split_and!; [done|done|by exists x]. }
  assert (Hnone := Ei). apply find_index_none in Ei. rewrite Forall_lookup in Ei.
  assert (forall j y, t !! j = Some y -> ln_Node y <> n) as Hno.
  { intros j y Hy. apply Z.eqb_neq. by apply (Ei j). }
  destruct (find_index (fun l => ln_Node l =? NULL) t) as [i|] eqn:Ef; simpl; intros [= <- <-].
  - apply find_index_some in Ef as (x & Hx & Hxn). bool_prop.
    destruct (links_write t i x n UACPINT_IRQ_LINK_NONE Hwf Hx) as (H1 & H2 & H3); [by right|done|].
    split_and!; [done| |].
    + intros m Hm. destruct (decide (m = n)) as [->|Hne]; [|by apply H2].
      rewrite H3. simpl. symmetry. by apply link_line_none.
    + exists (mkLink n UACPINT_IRQ_LINK_NONE). split; [|done].
      apply list_lookup_insert_eq. by eapply lookup_lt_Some.
  - split_and!; [done|done|done|]. by apply link_line_none.
Qed.

(** ** The choice of a line *)

(** A line PCI links may use. *)
Definition link_may_use (p : irq_policy) (g : Z) : Prop :=
  g <> ip_SciGsiv p /\ ~ (0 <= g < UACPINT_ISA_GSIV_COUNT /\ Z.testbit (ip_PciExclusionMask p) g = true).

Lemma has_flag_bit m g : 0 <= g -> has_flag m (Z.shiftl 1 g) = Z.testbit m g.
Proof.
  intros Hg. unfold has_flag. rewrite Z.shiftl_1_l. destruct (Z.testbit m g) eqn:E.
  - apply negb_true_iff, Z.eqb_neq. intros H. apply (f_equal (fun x => Z.testbit x g)) in H.
    rewrite Z.land_spec, E, Z.pow2_bits_true, Z.bits_0 in H by done. done.
  - apply negb_false_iff, Z.eqb_eq, Z.bits_inj'. intros j Hj.
    rewrite Z.land_spec, Z.pow2_bits_eqb, Z.bits_0 by done.
    destruct (g =? j) eqn:Ej; bool_prop; [subst; by rewrite E|apply andb_false_r].
Qed.

Lemma line_usable p t g avoid :
  0 <= g ->
  UacpiNtLinkLineUsable p t g avoid = true <->
    link_may_use p g /\ (avoid = true -> UacpiNtGsivHeldByLink t g = false).
Proof.
  intros Hg. unfold UacpiNtLinkLineUsable, link_may_use. rewrite has_flag_bit by done.
  destruct (g =? ip_SciGsiv p) eqn:E1; bool_prop; [naive_solver|].
  destruct (g <? UACPINT_ISA_GSIV_COUNT) eqn:E2; bool_prop; simpl;
    destruct (Z.testbit (ip_PciExclusionMask p) g) eqn:E3; simpl;
    destruct avoid, (UacpiNtGsivHeldByLink t g); simpl; naive_solver lia.
Qed.

(** The rotation has not come near the end of its 32 bits. *)
Definition rotation_ok (l : irq_links) : Prop :=
  0 <= il_Rotation l <= 4294967296 - Z.of_nat UACPINT_LINK_CANDIDATE_MAX.

(** Going around from any start meets every candidate. *)
Lemma rotation_covers (C : list Z) rot c :
  0 <= rot -> rot + Z.of_nat (length C) <= 4294967296 -> c ∈ C ->
  exists i, (i < length C)%nat /\
    nth (Z.to_nat (u32 (rot + Z.of_nat i) mod Z.of_nat (length C))) C 0 = c.
Proof.
  intros Hr Hle Hc. apply list_elem_of_lookup in Hc as [k Hk]. apply lookup_lt_Some in Hk as Hlt.
  set (n := Z.of_nat (length C)) in *. assert (0 < n) as Hn by lia.
  exists (Z.to_nat ((Z.of_nat k - rot) mod n)).
  pose proof (Z.mod_pos_bound (Z.of_nat k - rot) n Hn) as Hb. split; [lia|].
  rewrite Z2Nat.id by lia. rewrite u32_small by lia.
  replace ((rot + (Z.of_nat k - rot) mod n) mod n) with (Z.of_nat k).
  - by rewrite Nat2Z.id, (nth_lookup_Some _ _ _ _ Hk).
  - rewrite Zplus_mod_idemp_r. replace (rot + (Z.of_nat k - rot)) with (Z.of_nat k) by lia.
    rewrite Z.mod_small; lia.
Qed.

Section Choice.
Context {F : Type} {FW : Firmware F} (p : irq_policy).

Lemma choose_pass_spec avoid l (C : list Z) :
  (length C <= UACPINT_LINK_CANDIDATE_MAX)%nat -> rotation_ok l -> Forall (fun c => 0 <= c) C -> C <> [] ->
  match choose_pass p avoid l C with
  | Some g => g ∈ C /\ UacpiNtLinkLineUsable p (il_Table l) g avoid = true
  | None => Forall (fun c => UacpiNtLinkLineUsable p (il_Table l) c avoid = false) C
  end.
Proof.
  intros Hl [Hr0 Hr] Hpos Hne. unfold choose_pass, UACPINT_LINK_CANDIDATE_MAX in *.
  set (line := fun i => nth (Z.to_nat (u32 (il_Rotation l + Z.of_nat i) mod Z.of_nat (length C))) C 0).
  destruct (find_index _ (seq 0 (length C))) as [i|] eqn:E; simpl.
  - apply find_index_some in E as (j & Hj & Hu). apply lookup_seq in Hj as [-> Hlt].
    replace (0 + i)%nat with i in Hu by lia. split; [|done].
    assert (length C <> 0%nat) as Hn by lia.
    pose proof (Z.mod_pos_bound (u32 (il_Rotation l + Z.of_nat i)) (Z.of_nat (length C)) ltac:(lia)) as Hb.
    destruct (lookup_lt_is_Some_2 C (Z.to_nat (u32 (il_Rotation l + Z.of_nat i) mod Z.of_nat (length C))))
      as [g Hg]; [lia|].
    unfold line. rewrite (nth_lookup_Some _ _ _ _ Hg). by eapply list_elem_of_lookup_2.
  - apply find_index_none in E. rewrite Forall_forall in E. apply Forall_forall. intros c Hc.
    destruct (rotation_covers C (il_Rotation l) c Hr0 ltac:(lia) Hc) as (i & Hi & Hc').
    rewrite <- Hc'. apply (E i). apply elem_of_seq. lia.
Qed.

Definition candidates (f : F) (n : node) : list Z := UacpiNtLinkCandidates f n UACPINT_LINK_CANDIDATE_MAX.

Lemma candidates_length f n : (length (candidates f n) <= UACPINT_LINK_CANDIDATE_MAX)%nat.
Proof.
  unfold candidates, UacpiNtLinkCandidates. destruct (fw_possible f n); [|simpl; lia].
  rewrite length_take. lia.
Qed.

(** What a good choice is: a line of _PRS the policy allows, and one no link is
    on when there is such a line. *)
Definition good_choice (f : F) (l : irq_links) (n : node) (g : Z) : Prop :=
  g ∈ candidates f n /\ link_may_use p g /\
  ((exists c, c ∈ candidates f n /\ link_may_use p c /\ UacpiNtGsivHeldByLink (il_Table l) c = false) ->
   UacpiNtGsivHeldByLink (il_Table l) g = false).

Lemma link_choose_spec f l n :
  rotation_ok l -> Forall (fun c => 0 <= c) (candidates f n) ->
  match UacpiNtLinkChoose p f l n with
  | Some g => good_choice f l n g
  | None => Forall (fun c => ~ link_may_use p c) (candidates f n)
  end.
Proof.
  intros Hr Hpos. unfold UacpiNtLinkChoose. fold (candidates f n).
  pose proof (candidates_length f n) as Hl. destruct (candidates f n) as [|c0 C] eqn:EC; [by apply Forall_nil_2|].
  rewrite <- EC in *. assert (candidates f n <> []) as Hne by (by rewrite EC).
  destruct (length (candidates f n) =? 0)%nat eqn:E0; nat_prop; [by rewrite EC in E0|].
  pose proof (choose_pass_spec true l _ Hl Hr Hpos Hne) as H1.
  pose proof (choose_pass_spec false l _ Hl Hr Hpos Hne) as H2.
  rewrite Forall_forall in Hpos.
  destruct (choose_pass p true l _) as [g|].
  { destruct H1 as [Hg Hu]. apply line_usable in Hu as [Hm Hh]; [|by apply Hpos].
    split_and!; [done|done|]. intros _. by apply Hh. }
  rewrite Forall_forall in H1. destruct (choose_pass p false l _) as [g|].
  - destruct H2 as [Hg Hu]. apply line_usable in Hu as [Hm _]; [|by apply Hpos].
    split_and!; [done|done|]. intros (c & Hc & Hmc & Hh). specialize (H1 c Hc).
    exfalso. apply not_true_iff_false in H1. apply H1. by apply line_usable; [apply Hpos|].
  - rewrite Forall_forall in H2. apply Forall_forall. intros c Hc Hm. specialize (H2 c Hc).
    apply not_true_iff_false in H2. apply H2. apply line_usable; [by apply Hpos|]. by split.
Qed.
End Choice.

(** ** A link is decided once *)

Section Decide.
Context {F : Type} {FW : Firmware F} (p : irq_policy).

(** The lines of _PRS are lines. *)
Definition lines_ok (f : F) (n : node) : Prop :=
  Forall (fun c => 0 <= c /\ c <> UACPINT_IRQ_LINK_NONE) (candidates f n).

(** How a line came about that was not decided before. *)
Definition decided (f f' : F) (l : irq_links) (n : node) (g : Z) : Prop :=
  (UacpiNtLinkCurrentGsiv f n 0 = Some g) \/
  (good_choice p f l n g /\ UacpiNtLinkProgram n g f = (STATUS_SUCCESS, f')).

Lemma held_ext t t' g :
  g <> UACPINT_IRQ_LINK_NONE ->
  (forall m, m <> NULL -> link_line t' m = link_line t m) -> links_wf t -> links_wf t' ->
  UacpiNtGsivHeldByLink t' g = UacpiNtGsivHeldByLink t g.
Proof using.
  intros Hg Hll Hwf Hwf'.
  assert (forall t, links_wf t -> UacpiNtGsivHeldByLink t g = true <->
            exists m, m <> NULL /\ link_line t m = Some g) as H.
  { clear -Hg. intros t Hwf. unfold UacpiNtGsivHeldByLink. rewrite existsb_exists. split.
    - intros (x & Hx%list_elem_of_In & Hb). apply list_elem_of_lookup in Hx as [i Hi]. bool_prop.
      exists (ln_Node x). split; [done|]. rewrite (link_line_at t (ln_Node x) i x) by done.
      destruct (ln_Gsiv x =? UACPINT_IRQ_LINK_NONE) eqn:E; bool_prop; congruence.
    - intros (m & Hm & Hl). unfold link_line in Hl.
      destruct (find_index _ t) as [i|] eqn:Ei; [|done].
      apply find_index_some in Ei as (x & Hx & Hxm). bool_prop. rewrite (nth_lookup_Some _ _ _ _ Hx) in Hl.
      exists x. split; [by apply list_elem_of_In, (list_elem_of_lookup_2 _ i)|].
      destruct (ln_Gsiv x =? UACPINT_IRQ_LINK_NONE); [done|]. injection Hl as Hl.
      apply andb_true_iff. split; [apply negb_true_iff, Z.eqb_neq; congruence|by apply Z.eqb_eq]. }
  apply eq_true_iff_eq. rewrite (H t Hwf), (H t' Hwf'). split; intros (m & Hm & Hl); exists m; split; try done.
  - by rewrite <- Hll.
  - by rewrite Hll.
Qed.

Lemma good_choice_ext f t t' rot n g :
  lines_ok f n -> (forall m, m <> NULL -> link_line t' m = link_line t m) -> links_wf t -> links_wf t' ->
  good_choice p f (mkLinks t' rot) n g -> good_choice p f (mkLinks t rot) n g.
Proof using.
  intros Hok Hll Hwf Hwf' (H1 & H2 & H3). split_and!; [done|done|]. simpl in *.
  unfold lines_ok in Hok. rewrite Forall_forall in Hok.
  rewrite (held_ext t t' g) in H3; [|by apply Hok|done..].
  intros (c & Hc & Hm & Hh). apply H3. exists c. split_and!; [done|done|].
  rewrite (held_ext t t' c); [done|by apply Hok|done..].
Qed.

(** What a decision does to the table and the firmware. *)
Definition decision (f : F) (l : irq_links) (n : node) (o : option Z * F * irq_links) : Prop :=
  let '(r, f', l') := o in
  links_wf (il_Table l') /\ il_Rotation l' = il_Rotation l /\
  (forall m, m <> n -> m <> NULL -> link_line (il_Table l') m = link_line (il_Table l) m) /\
  link_line (il_Table l') n = r /\
  match link_line (il_Table l) n, r with
  | Some g, _ => r = Some g /\ f' = f
  | None, Some g => decided f f' l n g
  | None, None => True
  end.

(** The two ways a call ends once the link has its slot: a line is written to
    it, or nothing is. *)
Lemma decision_settle f f' l n t i x g :
  links_wf t -> (forall m, m <> NULL -> link_line t m = link_line (il_Table l) m) -> n <> NULL ->
  t !! i = Some x -> ln_Node x = n -> link_line (il_Table l) n = None ->
  g <> UACPINT_IRQ_LINK_NONE -> decided f f' l n g ->
  decision f l n (Some g, f', mkLinks (<[i := mkLink n g]> t) (il_Rotation l)).
Proof using.
  intros Hwf Hll Hn Hx Hxn Hline Hg Hd. simpl.
  destruct (links_write t i x n g Hwf Hx (or_introl Hxn) Hn) as (H1 & H2 & H3). rewrite Hline.
  split_and!; try done; [intros m Hm Hmn; rewrite H2 by done; by apply Hll|].
  rewrite H3. destruct (g =? _) eqn:E; bool_prop; done.
Qed.

Lemma decision_fail f f' l n t :
  links_wf t -> (forall m, m <> NULL -> link_line t m = link_line (il_Table l) m) -> n <> NULL ->
  link_line (il_Table l) n = None -> decision f l n (None, f', mkLinks t (il_Rotation l)).
Proof using.
  intros Hwf Hll Hn Hline. simpl. rewrite (Hll n Hn), Hline. split_and!; try done. by intros; apply Hll.
Qed.

(** A program that reports success reports exactly that. *)
Lemma link_program_status n g f s f' :
  UacpiNtLinkProgram n g f = (s, f') -> NT_SUCCESS s = true -> s = STATUS_SUCCESS.
Proof using.
  unfold UacpiNtLinkProgram. destruct (fw_current f n); [|by intros [= <- <-]].
  destruct (fw_set f n _) as [[] f2]; by intros [= <- <-].
Qed.

Lemma link_decide_outcome n f l :
  links_wf (il_Table l) -> n <> NULL -> rotation_ok l -> lines_ok f n ->
  decision f l n (UacpiNtIrqLinkDecide p n f l).
Proof using.
  intros Hwf Hn Hrot Hok. unfold UacpiNtIrqLinkDecide.
  destruct (UacpiNtLinkSlot n true (il_Table l)) as [s t] eqn:Es.
  destruct (link_slot_spec _ _ _ _ Hwf Hn Es) as (Hwf1 & Hll & Hs).
  destruct s as [i|]; [|by apply decision_fail; try tauto; destruct Hs].
  destruct Hs as (x & Hx & Hxn). rewrite (nth_lookup_Some _ _ _ _ Hx).
  assert (link_line t n = if ln_Gsiv x =? UACPINT_IRQ_LINK_NONE then None else Some (ln_Gsiv x)) as Hline
    by (by apply (link_line_at t n i x)).
  rewrite (Hll n Hn) in Hline. cbn [il_Rotation].
  destruct (ln_Gsiv x =? UACPINT_IRQ_LINK_NONE) eqn:Ek; cbn [negb].
  2:{ simpl. rewrite Hline, (Hll n Hn), Hline. split_and!; try done. by intros; apply Hll. }
  pose proof (fun g f1 => decision_settle f f1 l n t i x g Hwf1 Hll Hn Hx Hxn Hline) as Hset.
  pose proof (link_choose_spec p f (mkLinks t (il_Rotation l)) n Hrot
                (Forall_impl _ _ _ Hok (fun c H => proj1 H))) as Hch.
  set (Cur := default _ _).
  assert (Cur <> UACPINT_IRQ_LINK_NONE -> forall f1, decided f f1 l n Cur) as Hcur.
  { intros Hc f1. left. unfold Cur in *. by destruct (UacpiNtLinkCurrentGsiv f n 0). }
  assert (forall f1, decision f l n (if Cur =? UACPINT_IRQ_LINK_NONE then (None, f1, mkLinks t (il_Rotation l))
    else (Some Cur, f1, mkLinks (<[i := mkLink n Cur]> t) (il_Rotation l)))) as Hstay.
  { intros f1. destruct (Cur =? UACPINT_IRQ_LINK_NONE) eqn:Ec; bool_prop; [by apply decision_fail|].
    apply Hset; [done|]. by apply Hcur. }
  destruct (UacpiNtLinkChoose p f (mkLinks t (il_Rotation l)) n) as [c|]; [|apply Hstay].
  assert (c <> UACPINT_IRQ_LINK_NONE) as Hc.
  { destruct Hch as [Hin _]. unfold lines_ok in Hok. rewrite Forall_forall in Hok. by apply Hok. }
  destruct (c =? Cur) eqn:Ec; bool_prop; [apply Hset; [done|]; subst c; by apply Hcur|].
  destruct (UacpiNtLinkProgram n c f) as [s f1] eqn:Ep. destruct (NT_SUCCESS s) eqn:Eok; [|apply Hstay].
  apply Hset; [done|]. right. rewrite Ep, (link_program_status _ _ _ _ _ Ep Eok). split; [|done].
  eapply (good_choice_ext f (il_Table l) t); [done|done|done|done|]. by destruct l.
Qed.

(** Once decided, a link keeps its line and is not touched again. *)
Lemma link_decide_again n f l g :
  links_wf (il_Table l) -> n <> NULL -> link_line (il_Table l) n = Some g ->
  UacpiNtIrqLinkDecide p n f l = (Some g, f, l).
Proof using.
  intros Hwf Hn Hl. unfold UacpiNtIrqLinkDecide, UacpiNtLinkSlot. unfold link_line in Hl.
  destruct (find_index (fun x => ln_Node x =? n) (il_Table l)) as [i|]; [|done]. destruct l as [t rot]. simpl in *.
  destruct (ln_Gsiv _ =? UACPINT_IRQ_LINK_NONE); [done|]. by injection Hl as ->.
Qed.

(** Deciding the line of a link gives it one slot of the table and one
    line for good: a line it has is returned and nothing is programmed, and a
    new one is what its _CRS already says or a line of its _PRS, programmed
    successfully, that is not the SCI and not excluded, and that no other link
    is on when _PRS has such a line.  No other link is moved, and asking again
    gives the same line without touching the firmware. *)
Theorem link_decide_correct n f l r f' l' :
  links_wf (il_Table l) -> n <> NULL -> rotation_ok l -> lines_ok f n ->
  UacpiNtIrqLinkDecide p n f l = (r, f', l') ->
  links_wf (il_Table l') /\
  (forall m, m <> n -> m <> NULL -> link_line (il_Table l') m = link_line (il_Table l) m) /\
  (forall g, link_line (il_Table l) n = Some g -> r = Some g /\ f' = f) /\
  (forall g, r = Some g ->
     (link_line (il_Table l) n = None -> decided f f' l n g) /\
     forall f2, UacpiNtIrqLinkDecide p n f2 l' = (Some g, f2, l')).
Proof using.
  intros Hwf Hn Hr Hok E. pose proof (link_decide_outcome n f l Hwf Hn Hr Hok) as H.
  rewrite E in H. destruct H as (H1 & H2 & H3 & H4 & H5).
  split_and!; [done|done| |].
  - intros g Hg. by rewrite Hg in H5.
  - intros g ->. split; [by intros Hl; rewrite Hl in H5|]. intros f2. by apply link_decide_again.
Qed.
End Decide.

(** ** What the firmware reads back *)

Section ReadBack.
Context {F : Type} {FW : Firmware F} {FL : FirmwareLaws F}.

(** The link names a line in its _CRS. *)
Definition names_line (f : F) (n : node) : Prop :=
  exists rs, fw_current f n = Some rs /\ first_irqs rs <> [].

Lemma put_line_current g rs :
  first_irqs rs <> [] -> 0 <= g < 256 ->
  current_line (put_line g rs) 0 0 = Some g /\ first_irqs (put_line g rs) <> [].
Proof using.
  intros Hf Hg. induction rs as [|r rs IH]; [done|]. simpl in *.
  destruct r as [i|i| | | | | | | | | | |]; simpl in *; try (by apply IH).
  all: destruct (iq_irqs i) as [|x irqs]; [done|]; simpl; split; [|done].
  - f_equal. unfold u8. by apply Z.mod_small.
  - done.
Qed.

Lemma link_program_reads n g f s f' :
  UacpiNtLinkProgram n g f = (s, f') -> NT_SUCCESS s = true -> names_line f n -> 0 <= g < 256 ->
  UacpiNtLinkCurrentGsiv f' n 0 = Some g /\ names_line f' n.
Proof using FL.
  intros E Hs (rs & Hc & Hf) Hg. unfold UacpiNtLinkProgram in E. rewrite Hc in E.
  destruct (fw_set f n (put_line g rs)) as [ok f1] eqn:Ef. injection E as <- <-.
  destruct ok; [|done]. destruct (put_line_current g rs Hf Hg) as [H1 H2].
  pose proof (fw_set_current _ _ _ _ Ef) as H. unfold UacpiNtLinkCurrentGsiv, names_line.
  rewrite H. split; [done|by eexists].
Qed.

(** Programming one link leaves the others where they are. *)
Lemma link_program_other n g f s f' m :
  UacpiNtLinkProgram n g f = (s, f') -> m <> n -> fw_current f' m = fw_current f m.
Proof using FL.
  unfold UacpiNtLinkProgram. destruct (fw_current f n) as [rs|]; [|by intros [= <- <-]].
  destruct (fw_set f n (put_line g rs)) as [ok f1] eqn:Ef. intros [= <- <-] Hm. by eapply fw_set_other.
Qed.

(** The loop over the table. *)
Lemma resume_fold t f n g i x :
  (forall i j a b, t !! i = Some a -> t !! j = Some b -> ln_Node a = ln_Node b ->
     ln_Node a <> NULL -> i = j) ->
  t !! i = Some x -> ln_Node x = n -> n <> NULL -> ln_Gsiv x = g -> 0 <= g < 256 -> names_line f n ->
  (forall f m rs, (fw_set f m rs).1 = true) ->
  UacpiNtLinkCurrentGsiv
    (fold_left (fun f Slot =>
       if (ln_Node Slot =? NULL) || (ln_Gsiv Slot =? UACPINT_IRQ_LINK_NONE) then f
       else (UacpiNtLinkProgram (ln_Node Slot) (ln_Gsiv Slot) f).2) t f) n 0 = Some g.
Proof using FL.
  intros Hu Hi Hx Hn Hgx Hg Hnl Hset.
  assert (forall t f, (forall j y, t !! j = Some y -> ln_Node y <> n) ->
    fw_current (fold_left (fun f Slot =>
       if (ln_Node Slot =? NULL) || (ln_Gsiv Slot =? UACPINT_IRQ_LINK_NONE) then f
       else (UacpiNtLinkProgram (ln_Node Slot) (ln_Gsiv Slot) f).2) t f) n = fw_current f n) as Hskip.
  { clear -FL. induction t as [|y t IH]; intros f Hno; [done|]. simpl. rewrite IH.
    - destruct (_ || _); [done|]. destruct (UacpiNtLinkProgram _ _ f) as [s f1] eqn:E. simpl.
      eapply link_program_other; [done|]. intros ->. by apply (Hno 0%nat y).
    - intros j z Hz. by apply (Hno (S j)). }
  revert f i Hi Hnl Hu. induction t as [|y t IH]; intros f i Hi Hnl Hu; [done|].
  destruct i as [|i]; simpl in Hi.
  - injection Hi as ->. simpl.
    destruct (ln_Node x =? NULL) eqn:E1; bool_prop; [congruence|].
    destruct (ln_Gsiv x =? UACPINT_IRQ_LINK_NONE) eqn:E2; bool_prop; [unfold UACPINT_IRQ_LINK_NONE in *; lia|].
    simpl. unfold UacpiNtLinkCurrentGsiv. rewrite Hskip.
    + rewrite Hx, Hgx. destruct (UacpiNtLinkProgram n g f) as [s f1] eqn:E. simpl.
      apply (link_program_reads n g f s f1 E); [|done|done].
      unfold UacpiNtLinkProgram in E. destruct Hnl as (rs & Hc & _). rewrite Hc in E.
      pose proof (Hset f n (put_line g rs)) as Hok.
      destruct (fw_set f n (put_line g rs)) as [ok f2]. simpl in Hok. subst ok. by injection E as <- <-.
    + intros j z Hz Hzn. assert (0 = S j)%nat; [|done]. eapply (Hu 0%nat (S j) x z); [done|done|congruence|congruence].
  - simpl. apply (IH _ i Hi).
    + assert (ln_Node y <> n) as Hyn.
      { intros Hyn. assert (0 = S i)%nat; [|done]. eapply (Hu 0%nat (S i) y x); [done|done|congruence|congruence]. }
      destruct (_ || _); [done|]. destruct (UacpiNtLinkProgram _ _ f) as [s f1] eqn:E. simpl.
      destruct Hnl as (rs & Hc & Hf). exists rs. split; [|done].
      rewrite (link_program_other _ _ _ _ _ n E) by done. done.
    + intros j k a b Ha Hb Hab Hna. assert (S j = S k)%nat as Hjk; [|congruence].
      by eapply (Hu (S j) (S k)).
Qed.

(** After a sleep under the PIC model every link that was decided is back
    on its line, whatever the firmware had put it on meanwhile; under the APIC
    model the firmware is left alone. *)
Theorem links_resume_restores l f n g :
  links_wf (il_Table l) -> n <> NULL -> link_line (il_Table l) n = Some g -> 0 <= g < 256 ->
  names_line f n -> (forall f m rs, (fw_set f m rs).1 = true) ->
  UacpiNtLinkCurrentGsiv (UacpiNtIrqLinksResume true l f) n 0 = Some g /\
  UacpiNtIrqLinksResume false l f = f.
Proof using FL.
  intros [_ Hu] Hn Hl Hg Hnl Hset. split; [|done]. unfold link_line in Hl.
  destruct (find_index (fun x => ln_Node x =? n) (il_Table l)) as [i|] eqn:Ei; [|done].
  apply find_index_some in Ei as (x & Hx & Hxn). bool_prop. rewrite (nth_lookup_Some _ _ _ _ Hx) in Hl.
  destruct (ln_Gsiv x =? UACPINT_IRQ_LINK_NONE); [done|]. injection Hl as Hl.
  by apply (resume_fold (il_Table l) f n g i x).
Qed.
End ReadBack.

(** ** Pins over bridges *)

(** The pin of a function behind PCI to PCI bridges as it arrives at the top:
    every bridge adds the device number below it, round the four pins. *)
Definition swizzled (Pin : Z) (Devices : list Z) : Z := (Pin - 1 + foldr Z.add 0 Devices) mod 4 + 1.

Section Climb.
Context {F : Type} {FW : Firmware F} (p : irq_policy) (e : pci_env).

(** The bridges from a function up to a root bus: the devices whose pins are
    swizzled on the way, and the bus and the device at the top. *)
Inductive bridge_path (f : F) : Z -> Z -> list Z -> Z -> Z -> Prop :=
| path_root Bus Device :
    is_Some (UacpiNtFindPciRootNode e f Bus) -> bridge_path f Bus Device [] Bus Device
| path_bridge Bus Device Pdo Node s1 Up s2 Address Class Devices RootBus RootDevice :
    UacpiNtFindPciRootNode e f Bus = None ->
    UacpiNtFindBridgeNodeForBus e Bus = Some (Pdo, Node) -> fw_prt f Node = None ->
    pe_BusNumber e Pdo = (s1, Up) -> NT_SUCCESS s1 = true ->
    pe_Address e Pdo = (s2, Address) -> NT_SUCCESS s2 = true -> 0 <= Address < 4294967296 ->
    UacpiNtHalReadConfigDword e Up (UacpiNtPciSlotFromAddress Address) UACPINT_PCI_CLASS_DWORD = Some Class ->
    u8 (Z.shiftr Class 16) = PCI_SUBCLASS_BR_PCI_TO_PCI ->
    bridge_path f Up (Z.shiftr Address 16) Devices RootBus RootDevice ->
    bridge_path f Bus Device (Device :: Devices) RootBus RootDevice.

Lemma swizzled_range Pin ds : 1 <= swizzled Pin ds <= 4.
Proof using. unfold swizzled. pose proof (Z.mod_pos_bound (Pin - 1 + foldr Z.add 0 ds) 4). lia. Qed.

Lemma swizzled_cons Pin d ds : swizzled (swizzled Pin [d]) ds = swizzled Pin (d :: ds).
Proof using.
  unfold swizzled. simpl. f_equal. rewrite Z.add_0_r.
  replace ((Pin - 1 + d) mod 4 + 1 - 1 + foldr Z.add 0 ds) with ((Pin - 1 + d) mod 4 + foldr Z.add 0 ds) by lia.
  rewrite Zplus_mod_idemp_l. f_equal. lia.
Qed.

Lemma swizzle_step Pin d :
  1 <= Pin <= 4 -> 0 <= d < 65536 -> u8 (Z.land (u32 (d + (Pin - 1))) 3 + 1) = swizzled Pin [d].
Proof using.
  intros HP Hd. rewrite u32_small by lia. change 3 with (Z.ones 2). rewrite Z.land_ones by lia.
  unfold swizzled. simpl. pose proof (Z.mod_pos_bound (d + (Pin - 1)) 4 ltac:(lia)).
  unfold u8. rewrite Z.mod_small by (change (2 ^ 2) with 4; lia). f_equal. change (2 ^ 2) with 4. f_equal. lia.
Qed.

Lemma device_range Address : 0 <= Address < 4294967296 -> 0 <= Z.shiftr Address 16 < 65536.
Proof using. intros H. rewrite Z.shiftr_div_pow2 by lia. change (2 ^ 16) with 65536.
  pose proof (Z.div_lt_upper_bound Address 65536 65536). pose proof (Z.div_pos Address 65536). lia. Qed.

(** Along a path the loop asks the table at the top, if the path is short
    enough, and gives up otherwise. *)
Lemma climb_path f Bus Device Devices RootBus RootDevice :
  bridge_path f Bus Device Devices RootBus RootDevice ->
  forall n Pin l, 1 <= Pin <= 4 -> 0 <= Device < 65536 ->
  climb p e n Bus Device Pin f l =
    if (length Devices <? n)%nat then
      match UacpiNtFindPciRootNode e f RootBus with
      | Some Root => UacpiNtCrackPrt p Root RootDevice (swizzled Pin Devices) f l
      | None => (None, f, l)
      end
    else (None, f, l).
Proof using.
  induction 1 as [Bus Device [Root HR]|Bus Device Pdo Node s1 Up s2 Address Class Devices RootBus RootDevice
                  HN HB HP Eb H1 Ea H2 HA HC HS Hpath IH]; intros [|n] Pin l Hpin Hd; try done; simpl.
  - rewrite HR. unfold swizzled. simpl. f_equal. rewrite Z.add_0_r, Z.mod_small by lia. lia.
  - rewrite HN, HB. unfold UacpiNtCrackPrt at 1. rewrite HP. unfold UacpiNtPrtClimbBridge.
    rewrite Eb, Ea, H1, H2, HC, HS. simpl. rewrite swizzle_step by done.
    rewrite IH; [|apply swizzled_range|by apply device_range]. by rewrite swizzled_cons.
Qed.

(** C9.  A PCI function behind bridges that have no table of their own is
    routed by the table of its root bus, under the number of the topmost bridge
    and with its pin swizzled once per bridge by the number of the device below
    it; the line found is noted level triggered.  Fewer than eight bridges are
    followed; behind eight or more the function has no line, and no table and
    no link was touched. *)
Theorem prt_resolve_swizzles Pdo s1 Bus s2 Address PinDword f l g Devices RootBus RootDevice Root :
  pe_BusNumber e Pdo = (s1, Bus) -> NT_SUCCESS s1 = true ->
  pe_Address e Pdo = (s2, Address) -> NT_SUCCESS s2 = true -> 0 <= Address < 4294967296 ->
  UacpiNtHalReadConfigDword e Bus (UacpiNtPciSlotFromAddress Address) UACPINT_PCI_INTERRUPT_DWORD = Some PinDword ->
  let Pin := u8 (Z.shiftr PinDword 8) in
  1 <= Pin <= 4 ->
  bridge_path f Bus (Z.shiftr Address 16) Devices RootBus RootDevice ->
  UacpiNtFindPciRootNode e f RootBus = Some Root ->
  UacpiNtPrtResolveGsiv p e Pdo f l g =
    if (length Devices <? UACPINT_PRT_MAX_DEPTH)%nat then
      let '(r, f', l') := UacpiNtCrackPrt p Root RootDevice (swizzled Pin Devices) f l in
      (r, f', l', match r with Some Gsiv => UacpiNtIrqLibNoteLevelGsiv Gsiv g | None => g end)
    else (None, f, l, g).
Proof using.
  intros Eb H1 Ea H2 HA HP Pin Hpin Hpath HR. unfold UacpiNtPrtResolveGsiv.
  rewrite Eb, Ea, H1, H2, HP. cbn [negb orb]. fold Pin.
  destruct (Pin =? 0) eqn:E0; bool_prop; [lia|]. destruct (4 <? Pin) eqn:E4; bool_prop; [lia|]. cbn [orb].
  rewrite (climb_path _ _ _ _ _ _ Hpath) by (done || by apply device_range). rewrite HR.
  destruct (length Devices <? UACPINT_PRT_MAX_DEPTH)%nat; [|done].
  destruct (UacpiNtCrackPrt p Root RootDevice (swizzled Pin Devices) f l) as [ [ [x|] f'] l']; done.
Qed.
End Climb.

(** ** Examples *)

Section LinkExamples.

(** Firmware in which every method answers from a table and _SRS always works;
    the state is what the _CRS of each node says. *)
Definition plain_state := node -> option (list uacpi_resource).
Definition plain_prs (n : node) : option (list uacpi_resource) :=
  if n =? 0x100 then Some [UACPI_RESOURCE_TYPE_IRQ (mkIrqs 0 1 1 [9; 10; 11])]
  else if n =? 0x200 then Some [UACPI_RESOURCE_TYPE_IRQ (mkIrqs 0 1 1 [10; 11])] else None.
Definition plain_prt (n : node) : option (list uacpi_pci_routing_table_entry) :=
  if n =? 0x10 then Some [mkPrt 0x1CFFFF 2 0 20; mkPrt 0x1CFFFF 3 0x100 0] else None.

#[local] Instance plain_firmware : Firmware plain_state := {|
  fw_current f n := f n;
  fw_possible _ n := plain_prs n;
  fw_set f n rs := (true, fun m => if m =? n then Some rs else f m);
  fw_prt _ n := plain_prt n;
  fw_bbn _ _ := None
|}.

#[local] Instance plain_firmware_laws : FirmwareLaws plain_state.
Proof.
  split; try (by intros; simplify_eq/=).
  - intros f n rs f' [= <-]. simpl. by rewrite Z.eqb_refl.
  - intros f n rs b f' m [= <- <-] Hm. simpl. destruct (m =? n) eqn:E; bool_prop; done.
Qed.

(** Both links are on line 9 at boot, which is the SCI. *)
Definition plain_boot : plain_state := fun _ => Some [UACPI_RESOURCE_TYPE_IRQ (mkIrqs 0 1 1 [9])].
Definition plain_policy : irq_policy := mkPolicy 9 0.

Definition one_link : irq_links := (UacpiNtIrqLinkDecide plain_policy 0x100 plain_boot no_links).2.

Lemma plain_lines f n : lines_ok (F := plain_state) f n.
Proof.
  unfold lines_ok, candidates, UacpiNtLinkCandidates. simpl. unfold plain_prs.
  destruct (n =? 0x100); [|destruct (n =? 0x200)]; simpl;
    repeat (apply Forall_cons_2; [unfold UACPINT_IRQ_LINK_NONE; lia|]); by apply Forall_nil_2.
Qed.

(** The second link goes to the line the first one left free, and stays. *)
Lemma link_decide_correct_witness :
  exists f' l', UacpiNtIrqLinkDecide plain_policy 0x200 plain_boot one_link = (Some 11, f', l') /\
    link_line (il_Table l') 0x100 = Some 10 /\
    forall f2 : plain_state, UacpiNtIrqLinkDecide plain_policy 0x200 f2 l' = (Some 11, f2, l').
Proof.
  assert (rotation_ok no_links) as Hr by (vm_compute; split; congruence).
  destruct (UacpiNtIrqLinkDecide plain_policy 0x100 plain_boot no_links) as [ [r1 f1] l1] eqn:E1.
  destruct (link_decide_correct plain_policy 0x100 plain_boot no_links _ _ _ no_links_wf ltac:(done) Hr
              (plain_lines _ _) E1) as (W1 & _ & _ & _).
  assert (l1 = one_link) as -> by (unfold one_link; by rewrite E1).
  destruct (UacpiNtIrqLinkDecide plain_policy 0x200 plain_boot one_link) as [ [r2 f2] l2] eqn:E2.
  assert (rotation_ok one_link) as Hr2 by (vm_compute; split; congruence).
  destruct (link_decide_correct plain_policy 0x200 plain_boot one_link _ _ _ W1 ltac:(done) Hr2
              (plain_lines _ _) E2) as (_ & H2 & _ & H4).
  assert (r2 = Some 11) as ->.
  { change r2 with ((r2, f2, l2).1.1). rewrite <- E2. vm_compute. reflexivity. }
  exists f2, l2. split_and!; [done| |by apply H4].
  rewrite H2 by done. vm_compute. reflexivity.
Defined.

Lemma links_resume_restores_witness :
  UacpiNtLinkCurrentGsiv (UacpiNtIrqLinksResume true one_link plain_boot) 0x100 0 = Some 10.
Proof.
  apply (links_resume_restores (F := plain_state) one_link plain_boot 0x100 10).
  - destruct (UacpiNtIrqLinkDecide plain_policy 0x100 plain_boot no_links) as [ [r1 f1] l1] eqn:E1.
    assert (rotation_ok no_links) as Hr by (vm_compute; split; congruence).
    pose proof (link_decide_outcome plain_policy 0x100 plain_boot no_links no_links_wf ltac:(done) Hr
                  (plain_lines _ _)) as H. unfold one_link. rewrite E1 in *. apply H.
  - done.
  - vm_compute. reflexivity.
  - lia.
  - eexists. split; [reflexivity|done].
  - done.
Defined.

(** One function on bus 1, device 3, behind the bridge at device 0x1C of bus 0. *)
Definition plain_pci : pci_env := mkPci
  (fun d => (STATUS_SUCCESS, if d =? 1 then 1 else 0))
  (fun d => (STATUS_SUCCESS, if d =? 1 then 0x30000 else 0x1C0000))
  (fun bus slot offset => (4, if offset =? UACPINT_PCI_INTERRUPT_DWORD then 0x100 else 0x06040000))
  (fun d offset => if d =? 2 then Some (if offset =? PCI_HEADER_TYPE then 0x81 else 1) else None)
  (Some ([("pnp0a08", 0x10)], [(2, 0x20)])).

Lemma prt_resolve_swizzles_witness :
  exists f' l' g', UacpiNtPrtResolveGsiv plain_policy plain_pci 1 plain_boot no_links no_flags =
                     (Some 10, f', l', g') /\ UacpiNtGsivIsLevel g' 10 = true.
Proof.
  assert (bridge_path plain_pci plain_boot 1 3 [3] 0 0x1C) as Hpath.
  { apply (path_bridge plain_pci plain_boot 1 3 2 0x20 STATUS_SUCCESS 0 STATUS_SUCCESS 0x1C0000 0x06040000);
      try (vm_compute; reflexivity); [lia|]. apply path_root. vm_compute. by eexists. }
  rewrite (prt_resolve_swizzles plain_policy plain_pci 1 STATUS_SUCCESS 1 STATUS_SUCCESS 0x30000 0x100
             plain_boot no_links no_flags [3] 0 0x1C 0x10); try (vm_compute; reflexivity); try lia; [| |exact Hpath].
  - destruct (UacpiNtCrackPrt _ _ _ _ _ _) as [ [r f'] l'] eqn:E. simpl.
    assert (r = Some 10) as ->.
    { change r with ((r, f', l').1.1). rewrite <- E. vm_compute. reflexivity. }
    eexists _, _, _. split; [reflexivity|]. vm_compute. reflexivity.
  - vm_compute. split; congruence.
Defined.

(** A link that firmware left disabled names no line in its _CRS.  The
    template then has no descriptor to put the new line into, _SRS is given the
    empty list back, and the link is recorded on a line it is not connected
    to. *)
Theorem disabled_link_recorded_unprogrammed :
  let off : plain_state := fun _ => Some [UACPI_RESOURCE_TYPE_IRQ (mkIrqs 0 1 1 [])] in
  exists f' l', UacpiNtIrqLinkDecide plain_policy 0x200 off no_links = (Some 10, f', l') /\
    link_line (il_Table l') 0x200 = Some 10 /\ UacpiNtLinkCurrentGsiv f' 0x200 0 = None.
Proof.
  intros off. destruct (UacpiNtIrqLinkDecide plain_policy 0x200 off no_links) as [ [r f'] l'] eqn:E.
  exists f', l'.
  assert ((r, UacpiNtLinkCurrentGsiv f' 0x200 0, link_line (il_Table l') 0x200) = (Some 10, None, Some 10)) as H.
  { change (r, UacpiNtLinkCurrentGsiv f' 0x200 0, link_line (il_Table l') 0x200)
      with ((fun o : option Z * plain_state * irq_links =>
               (o.1.1, UacpiNtLinkCurrentGsiv o.1.2 0x200 0, link_line (il_Table o.2) 0x200)) (r, f', l')).
    rewrite <- E. vm_compute. reflexivity. }
  by injection H as -> -> ->.
Qed.
End LinkExamples.
