(* ===== verification/IrqArb.v ===== *)
(** sys/irqarb.c, second half: the interrupt arbiter.  Its descriptor
    translation and the record of message counts, the slots that put a routed
    device on its line and everything else through the library's walk, and the
    contract the engine asks of them. *)
From stdpp Require Import base list numbers option strings.
From Stdlib Require Import ZArith Lia Permutation.
From S2P Require Import Prelude NtEnv RangeListRef ArbTypes Ordering RangeWalk.
From S2P Require Import Entry DefaultSlots Transaction ResTranslate Resource IrqVectors.
From S2P Require Import IrqLinks.

Definition CM_RESOURCE_INTERRUPT_MESSAGE : Z := 2.
Definition UACPINT_MSI_GSIV_BASE : Z := 0xFFF00000.
Definition UACPINT_MSI_GSIV_LAST : Z := 0xFFFFFFFE.
Definition UACPINT_MSI_MAX_COUNT : Z := 32.
Definition UACPINT_MSI_RECORD_MAX : nat := 64.
Definition UACPINT_RANGE_LEVEL : Z := 0x04.
Definition UACPINT_RANGE_LATCHED : Z := 0x08.

(** ** Message counts *)

Record UACPINT_MSI_RECORD := mkMsi { ms_Start : Z; ms_MessageCount : Z }.

(** [UacpiNtMsiRecords], the used part. *)
Definition msi_records := list UACPINT_MSI_RECORD.

Definition UacpiNtMsiCountRecord (Start Count : Z) (r : msi_records) : msi_records :=
  match find_index (fun m => ms_Start m =? Start) r with
  | Some Index => <[Index := mkMsi Start Count]> r
  | None => if (UACPINT_MSI_RECORD_MAX <=? length r)%nat then r else r ++ [mkMsi Start Count]
  end.

Definition UacpiNtMsiCountLookup (Start : Z) (r : msi_records) : NTSTATUS * Z :=
  match find_index (fun m => ms_Start m =? Start) r with
  | Some Index => (STATUS_SUCCESS, ms_MessageCount (nth Index r (mkMsi 0 0)))
  | None => (STATUS_NOT_FOUND, 0)
  end.

Definition UacpiNtMsiCountFromRequirement (d : IO_RESOURCE_DESCRIPTOR) : Z :=
  let Minimum := ii_MinimumVector (io_Interrupt d) in
  let Maximum := ii_MaximumVector (io_Interrupt d) in
  if Maximum <? Minimum then 1
  else
    let Span := Maximum - Minimum + 1 in
    if (Span =? 0) || (UACPINT_MSI_MAX_COUNT <? Span) then 1 else u32 Span.

(** ** Descriptors *)

(** [Apic]: the interrupt model is 1.  The vectors are ULONGs. *)
Definition UacpiNtIrqUnpackRequirement (Apic : bool) (d : IO_RESOURCE_DESCRIPTOR)
  : NTSTATUS * (Z * Z * Z * Z) :=
  if negb (io_Type d =? CmResourceTypeInterrupt) then (STATUS_INVALID_PARAMETER, (0, 0, 0, 0))
  else if negb (has_flag (io_Flags d) CM_RESOURCE_INTERRUPT_MESSAGE) then
    (STATUS_SUCCESS,
     (u32 (ii_MinimumVector (io_Interrupt d)), u32 (ii_MaximumVector (io_Interrupt d)), 1, 1))
  else if negb Apic then (STATUS_SUCCESS, (1, 0, 1, 1))
  else (STATUS_SUCCESS, (UACPINT_MSI_GSIV_BASE, UACPINT_MSI_GSIV_LAST, 1, 1)).

(** [(KAFFINITY)-1] *)
Definition all_processors : Z := 18446744073709551615.

Definition cm_set_Interrupt (i : cm_interrupt) (share flags : Z) (c : CM_PARTIAL_RESOURCE_DESCRIPTOR)
  : CM_PARTIAL_RESOURCE_DESCRIPTOR :=
  mkCm CmResourceTypeInterrupt share flags (cm_Port c) (cm_Memory c) (cm_BusNumber c) i (cm_Connection c).

(** The descriptor, and the records of the message counts. *)
Definition UacpiNtIrqPackResource (d : IO_RESOURCE_DESCRIPTOR) (Start : Z)
  (c : CM_PARTIAL_RESOURCE_DESCRIPTOR) (r : msi_records)
  : NTSTATUS * CM_PARTIAL_RESOURCE_DESCRIPTOR * msi_records :=
  if Start <? UACPINT_MSI_GSIV_BASE then
    (STATUS_SUCCESS,
     cm_set_Interrupt (mkCmInterrupt (u32 Start) (u32 Start) all_processors) (io_ShareDisposition d)
       (io_Flags d) c, r)
  else
    let Count := UacpiNtMsiCountFromRequirement d in
    let Targeted := ii_TargetedProcessors (io_Interrupt d) in
    (STATUS_SUCCESS,
     cm_set_Interrupt
       (mkCmInterrupt (u32 (Z.shiftl Count 16)) (u32 Start)
          (if negb (Targeted =? 0) then Targeted else all_processors))
       (io_ShareDisposition d) (set_flag (io_Flags d) CM_RESOURCE_INTERRUPT_MESSAGE) c,
     UacpiNtMsiCountRecord Start Count r).

Definition UacpiNtIrqUnpackResource (c : CM_PARTIAL_RESOURCE_DESCRIPTOR) : NTSTATUS * (Z * Z) :=
  if negb (cm_Type c =? CmResourceTypeInterrupt) then (STATUS_INVALID_PARAMETER, (0, 0))
  else
    let Start := ci_Vector (cm_Interrupt c) in
    let Length :=
      if has_flag (cm_Flags c) CM_RESOURCE_INTERRUPT_MESSAGE || (UACPINT_MSI_GSIV_BASE <=? Start) then
        let Count := Z.shiftr (ci_Level (cm_Interrupt c)) 16 in
        if negb (Count =? 0) && (Count <=? UACPINT_MSI_MAX_COUNT) then Count else 1
      else 1 in
    (STATUS_SUCCESS, (Start, Length)).

Definition UacpiNtIrqScoreRequirement (d : IO_RESOURCE_DESCRIPTOR) : Z :=
  if negb (io_Type d =? CmResourceTypeInterrupt) then 0xFFFF
  else
    let Minimum := ii_MinimumVector (io_Interrupt d) in
    let Maximum := ii_MaximumVector (io_Interrupt d) in
    let Score := u32 (Maximum - Minimum + 1) in
    let Score := if (u32 (Maximum - Minimum) =? 4294967295) || (0xFFFF <? Score) then 0xFFFF else Score in
    let Score := if UACPINT_ISA_GSIV_COUNT <=? Maximum then Score + 5 else Score in
    s32 Score.

(** ** The workspace of a state

    The cursor in the low byte, the routing result above it. *)

Definition UACPINT_WS_PRT_NONE : Z := 1.
Definition UACPINT_WS_PRT_BIAS : Z := 2.
Definition UACPINT_WS_CURSOR (Ws : Z) : Z := u32 (Z.land Ws 0xFF).
Definition UACPINT_WS_PRT (Ws : Z) : Z := u32 (Z.shiftr Ws 8).
Definition UACPINT_WS_SET_CURSOR (Ws Value : Z) : Z := Z.lor (Z.ldiff Ws 0xFF) Value.
Definition UACPINT_WS_SET_PRT (Ws Value : Z) : Z := Z.lor (Z.land Ws 0xFF) (u64 (Z.shiftl Value 8)).

Definition UACPINT_NEXT_INITIAL : Z := 0.
Definition UACPINT_NEXT_LINK_PREF : Z := 1.
Definition UACPINT_NEXT_BOOT_CONFIG : Z := 3.
Definition UACPINT_NEXT_ALTERNATIVES : Z := 4.

(** ** The slots *)

Definition UacpiNtIrqShareableRange : conflict_callback := fun Context Range =>
  (has_flag (rr_Attributes Range) UACPINT_RANGE_LEVEL && has_flag (rr_Flags Range) RTL_RANGE_SHARED,
   Context).

Definition st_set_RangeAttributes (v : Z) (st : ARBITER_ALLOCATION_STATE) : ARBITER_ALLOCATION_STATE :=
  mkState (st_Start st) (st_End st) (st_CurrentMinimum st) (st_CurrentMaximum st) (st_Entry st)
    (st_CurrentAlternative st) (st_Alternatives st) (st_Flags st) v
    (st_RangeAvailableAttributes st) (st_WorkSpace st).

(** The triggering of the first alternative, tagged on the range. *)
Definition tag_triggering (st : ARBITER_ALLOCATION_STATE) : ARBITER_ALLOCATION_STATE :=
  let Attributes := clear_flag (st_RangeAttributes st) (Z.lor UACPINT_RANGE_LEVEL UACPINT_RANGE_LATCHED) in
  let latched := match st_Alternatives st with
                 | a :: _ => has_flag (io_Flags (alt_Descriptor a)) CM_RESOURCE_INTERRUPT_LATCHED
                 | [] => false
                 end in
  st_set_RangeAttributes
    (set_flag Attributes (if latched then UACPINT_RANGE_LATCHED else UACPINT_RANGE_LEVEL)) st.

(** The entry still needs its route looked up. *)
Definition needs_route (ents : list ARBITER_LIST_ENTRY) (st : ARBITER_ALLOCATION_STATE) : bool :=
  negb (st_owner ents st =? NULL) && negb (has_flag (st_Flags st) ARBITER_STATE_FLAG_BOOT) &&
  (UACPINT_WS_PRT (st_WorkSpace st) =? 0).

(** The state with the answer of the lookup, which is made if it is needed. *)
Definition irq_preprocess (route : PVOID -> option Z) (ents : list ARBITER_LIST_ENTRY)
  (st : ARBITER_ALLOCATION_STATE) : ARBITER_ALLOCATION_STATE :=
  if st_owner ents st =? NULL then st
  else
    let st := tag_triggering st in
    if negb (needs_route ents st) then st
    else
      st_set_WorkSpace
        (UACPINT_WS_SET_PRT (st_WorkSpace st)
           (match route (st_owner ents st) with
            | Some Gsiv => Gsiv + UACPINT_WS_PRT_BIAS
            | None => UACPINT_WS_PRT_NONE
            end)) st.

Definition UacpiNtIrqPreprocessEntry {F} {FW : Firmware F} (p : irq_policy) (e : pci_env)
  (ents : list ARBITER_LIST_ENTRY) (st : ARBITER_ALLOCATION_STATE) (f : F) (l : irq_links) (g : gsiv_flags)
  : NTSTATUS * ARBITER_ALLOCATION_STATE * F * irq_links * gsiv_flags :=
  if needs_route ents st then
    let '(r, f, l, g) := UacpiNtPrtResolveGsiv p e (st_owner ents st) f l g in
    (STATUS_SUCCESS, irq_preprocess (fun _ => r) ents st, f, l, g)
  else (STATUS_SUCCESS, irq_preprocess (fun _ => None) ents st, f, l, g).

Section IrqSlots.
Context `{R : RtlRangeList}.

(** [Some Irq] for TRUE. *)
Definition UacpiNtFindBootConfig (arb : ARBITER_INSTANCE) (ents : list ARBITER_LIST_ENTRY)
  (st : ARBITER_ALLOCATION_STATE) : option Z :=
  match st_entry ents st with
  | None => None
  | Some _ =>
      option_map (fun r => u32 (rr_Start r))
        (List.find (fun r => has_flag (rr_Attributes r) ARBITER_RANGE_BOOT_ALLOCATED &&
                             (rr_Owner r =? st_owner ents st)) (rtl_ranges (ar_Allocation arb)))
  end.

(** [Some Index] for TRUE. *)
Definition UacpiNtFindIrqInAlternatives (st : ARBITER_ALLOCATION_STATE) (Irq : Z) : option nat :=
  find_index (fun a => (alt_Minimum a <=? Irq) && (Irq <=? alt_Maximum a)) (st_Alternatives st).

(** The loop over the preferred lines; [inl] is a window, [inr] the cursor at
    the end of it. *)
Fixpoint prefer (fuel : nat) (arb : ARBITER_INSTANCE) (ents : list ARBITER_LIST_ENTRY)
  (st : ARBITER_ALLOCATION_STATE) (WorkSpace : Z) : ARBITER_ALLOCATION_STATE + Z :=
  if negb (UACPINT_WS_CURSOR WorkSpace <? UACPINT_NEXT_ALTERNATIVES) then inr WorkSpace
  else
    match fuel with
    | O => inr WorkSpace
    | S fuel =>
        let '(WorkSpace, Preferred) :=
          if UACPINT_WS_CURSOR WorkSpace =? UACPINT_NEXT_INITIAL then
            (UACPINT_WS_SET_CURSOR WorkSpace UACPINT_NEXT_LINK_PREF, None)
          else if UACPINT_WS_CURSOR WorkSpace =? UACPINT_NEXT_LINK_PREF then
            (UACPINT_WS_SET_CURSOR WorkSpace UACPINT_NEXT_BOOT_CONFIG,
             Some (UACPINT_WS_PRT WorkSpace - UACPINT_WS_PRT_BIAS))
          else (UACPINT_WS_SET_CURSOR WorkSpace UACPINT_NEXT_ALTERNATIVES,
                UacpiNtFindBootConfig arb ents st) in
        match Preferred with
        | Some Irq =>
            match UacpiNtFindIrqInAlternatives st Irq with
            | Some Index =>
                inl (st_set_WorkSpace WorkSpace
                       (st_set_CurrentAlternative (Some Index) (st_set_window Irq Irq st)))
            | None => prefer fuel arb ents st WorkSpace
            end
        | None => prefer fuel arb ents st WorkSpace
        end
    end.

(** The library's walk as a slot. *)
Definition library_next (arb : ARBITER_INSTANCE) (st : ARBITER_ALLOCATION_STATE)
  : bool * ARBITER_ALLOCATION_STATE :=
  default (false, st) (ArbiterLibGetNextAllocationRange (ar_OrderingList arb) st).

(** [CurrentAlternative ? CurrentAlternative : Alternatives] *)
Definition working_alternative (st : ARBITER_ALLOCATION_STATE) : option ARBITER_ALTERNATIVE :=
  match st_CurrentAlternative st with
  | Some i => st_Alternatives st !! i
  | None => st_Alternatives st !! 0%nat
  end.

(** The answer and how far the link rotation moves.  The cursor takes four
    values before the library's walk, so four turns are enough. *)
Definition UacpiNtIrqGetNextAllocationRange (arb : ARBITER_INSTANCE) (ents : list ARBITER_LIST_ENTRY)
  (st : ARBITER_ALLOCATION_STATE) : bool * ARBITER_ALLOCATION_STATE * Z :=
  let library st := let '(b, st) := library_next arb st in (b, st, 0) in
  match working_alternative st with
  | None => library st
  | Some Alternative =>
      if has_flag (io_Flags (alt_Descriptor Alternative)) CM_RESOURCE_INTERRUPT_MESSAGE ||
         (UACPINT_WS_PRT (st_WorkSpace st) <? UACPINT_WS_PRT_BIAS)
      then library st
      else
        match prefer 4 arb ents st (st_WorkSpace st) with
        | inl st => (true, st, 1)
        | inr WorkSpace =>
            let '(b, st) := library_next arb (st_set_WorkSpace WorkSpace st) in
            (b, st, if b then 1 else 0)
        end
  end.

Definition UacpiNtNotePlacedTriggering (st : ARBITER_ALLOCATION_STATE) (g : gsiv_flags) : gsiv_flags :=
  match st_alt st with
  | None => g
  | Some a =>
      if (st_Start st <? UACPINT_MSI_GSIV_BASE) &&
         negb (has_flag (io_Flags (alt_Descriptor a)) CM_RESOURCE_INTERRUPT_LATCHED) &&
         negb (UacpiNtIrqLibGsivForcedEdge g (u32 (st_Start st)))
      then UacpiNtIrqLibNoteLevelGsiv (u32 (st_Start st)) g else g
  end.

Definition UacpiNtIrqFindSuitableRange (env : device_env) (mmconfig : mmconfig_table)
  (arb : ARBITER_INSTANCE) (ents : list ARBITER_LIST_ENTRY) (st : ARBITER_ALLOCATION_STATE) (g : gsiv_flags)
  : bool * ARBITER_INSTANCE * ARBITER_ALLOCATION_STATE * gsiv_flags :=
  let library := ArbiterLibFindSuitableRange env mmconfig (Some ArbiterLibOverrideConflict) arb ents st in
  if UACPINT_MSI_GSIV_BASE <=? st_CurrentMinimum st then (library, g)
  else if UACPINT_WS_PRT_BIAS <=? UACPINT_WS_PRT (st_WorkSpace st) then
    let Gsiv := UACPINT_WS_PRT (st_WorkSpace st) - UACPINT_WS_PRT_BIAS in
    if (Gsiv <? st_CurrentMinimum st) || (st_CurrentMaximum st <? Gsiv) then (false, arb, st, g)
    else
      let st := st_set_place Gsiv Gsiv st in (true, arb, st, UacpiNtNotePlacedTriggering st g)
  else
    let '(b, arb, st) := library in
    (b, arb, st, if b then UacpiNtNotePlacedTriggering st g else g).

(** The slots as the engine calls them, with the lines the routing tables
    answer; what a call notes for the interrupt library does not come back into
    the search. *)
Definition UacpiNtIrqCallbacks (env : device_env) (mmconfig : mmconfig_table) (Apic : bool)
  (route : PVOID -> option Z) : ARBITER_CALLBACKS :=
  mkCallbacks (UacpiNtIrqUnpackRequirement Apic)
    (fun d Start c => (UacpiNtIrqPackResource d Start c []).1)
    UacpiNtIrqUnpackResource (Some UacpiNtIrqScoreRequirement)
    (fun arb ents st => (STATUS_SUCCESS, arb, irq_preprocess route ents st))
    (fun arb ents st => (UacpiNtIrqGetNextAllocationRange arb ents st).1)
    (fun arb ents st => (UacpiNtIrqFindSuitableRange env mmconfig arb ents st no_flags).1)
    ArbiterLibAddAllocation
    ArbiterLibBacktrackAllocation.
End IrqSlots.

(** ** The translation *)

Lemma msi_count_range d :
  1 <= UacpiNtMsiCountFromRequirement d <= UACPINT_MSI_MAX_COUNT.
Proof.
  unfold UacpiNtMsiCountFromRequirement, UACPINT_MSI_MAX_COUNT. destruct (_ <? _) eqn:E; [lia|].
  set (sp := _ - _ + 1). destruct ((sp =? 0) || (32 <? sp)) eqn:E2; [lia|].
  apply orb_false_iff in E2 as [E3 E4]. bool_prop. rewrite u32_small by lia. lia.
Qed.

Lemma msi_record_lookup Start n r x :
  (Start ∈ map ms_Start r \/ (length r < UACPINT_MSI_RECORD_MAX)%nat) ->
  UacpiNtMsiCountLookup x (UacpiNtMsiCountRecord Start n r) =
    if x =? Start then (STATUS_SUCCESS, n) else UacpiNtMsiCountLookup x r.
Proof.
  intros Hroom. unfold UacpiNtMsiCountRecord, msi_records.
  destruct (find_index (fun m => ms_Start m =? Start) r) as [i|] eqn:Ei.
  - assert (Hs := Ei). apply find_index_some in Ei as (y & Hy & Hys). bool_prop.
    apply lookup_lt_Some in Hy as Hlt. unfold UacpiNtMsiCountLookup.
    rewrite (find_index_insert (fun m => ms_Start m =? x) r i (mkMsi Start n) y Hy) by (simpl; by rewrite Hys).
    destruct (x =? Start) eqn:Ex; bool_prop.
    + subst x. rewrite Hs. by rewrite (nth_lookup_Some _ _ _ (mkMsi Start n)); [|by apply list_lookup_insert_eq].
    + destruct (find_index (fun m => ms_Start m =? x) r) as [j|] eqn:Ej; [|done].
      apply find_index_some in Ej as (z & Hz & Hzx). bool_prop.
      assert (i <> j) as Hij by (intros ->; congruence).
      rewrite (nth_lookup_Some r j _ z Hz), (nth_lookup_Some (<[i:=_]> r) j _ z); [done|].
      by rewrite list_lookup_insert_ne.
  - assert ((length r < UACPINT_MSI_RECORD_MAX)%nat) as Hlt.
    { destruct Hroom as [Hin|?]; [|done]. exfalso. apply find_index_none in Ei. rewrite Forall_forall in Ei.
      apply list_elem_of_fmap in Hin as (m & -> & Hm). specialize (Ei m Hm). bool_prop. done. }
    destruct (UACPINT_MSI_RECORD_MAX <=? length r)%nat eqn:E; [apply Nat.leb_le in E; lia|].
    unfold UacpiNtMsiCountLookup. rewrite find_index_app. simpl.
    destruct (x =? Start) eqn:Ex; bool_prop.
    + subst x. rewrite Ei, Z.eqb_refl. simpl. rewrite Nat.add_0_r.
      rewrite (nth_lookup_Some _ _ _ (mkMsi Start n)); [done|]. by rewrite list_lookup_middle.
    + destruct (find_index (fun m => ms_Start m =? x) r) as [j|] eqn:Ej.
      * apply find_index_some in Ej as (z & Hz & Hzx).
        by rewrite (nth_lookup_Some r j _ z Hz), (nth_lookup_Some (r ++ _) j _ z); [|by apply lookup_app_l_Some].
      * destruct (Start =? x) eqn:E2; bool_prop; [congruence|done].
Qed.

(** An assignment packed from a requirement unpacks to the placement it
    was packed from: a line as one line, a message placement with the number of
    messages asked for, between 1 and 32.  The count of a message placement is
    on record afterwards (as long as the table has room or knows the slot) and
    no other count is disturbed. *)
Theorem irq_pack_roundtrip d Start c r s c' r' :
  0 <= Start < 4294967296 ->
  has_flag (io_Flags d) CM_RESOURCE_INTERRUPT_MESSAGE = (UACPINT_MSI_GSIV_BASE <=? Start) ->
  UacpiNtIrqPackResource d Start c r = (s, c', r') ->
  let n := UacpiNtMsiCountFromRequirement d in
  s = STATUS_SUCCESS /\ 1 <= n <= UACPINT_MSI_MAX_COUNT /\
  UacpiNtIrqUnpackResource c' =
    (STATUS_SUCCESS, (Start, if UACPINT_MSI_GSIV_BASE <=? Start then n else 1)) /\
  (if UACPINT_MSI_GSIV_BASE <=? Start
   then (Start ∈ map ms_Start r \/ (length r < UACPINT_MSI_RECORD_MAX)%nat) ->
        forall x, UacpiNtMsiCountLookup x r' =
                  if x =? Start then (STATUS_SUCCESS, n) else UacpiNtMsiCountLookup x r
   else r' = r).
Proof.
  intros HS Hf E n. pose proof (msi_count_range d) as Hn. fold n in Hn.
  unfold UacpiNtIrqPackResource in E. fold n in E. rewrite (u32_small Start) in E by lia.
  destruct (UACPINT_MSI_GSIV_BASE <=? Start) eqn:EM.
  - destruct (Start <? UACPINT_MSI_GSIV_BASE) eqn:El; bool_prop; [lia|]. injection E as <- <- <-.
    split_and!; try done; try lia.
    + unfold UacpiNtIrqUnpackResource, cm_set_Interrupt.
      cbn [cm_Type cm_Flags cm_Interrupt ci_Level ci_Vector]. rewrite has_flag_set_same by done.
      rewrite Z.eqb_refl, orb_true_l. cbv beta iota delta [negb].
      unfold UACPINT_MSI_MAX_COUNT in *. rewrite Z.shiftl_mul_pow2, Z.shiftr_div_pow2 by lia.
      change (2 ^ 16) with 65536. rewrite u32_small by lia. rewrite Z.div_mul by lia.
      destruct (n =? 0) eqn:E0; bool_prop; [lia|]. destruct (n <=? 32) eqn:E1; bool_prop; [done|lia].
    + intros Hroom x. by apply msi_record_lookup.
  - destruct (Start <? UACPINT_MSI_GSIV_BASE) eqn:El; bool_prop; [|lia]. injection E as <- <- <-.
    split_and!; try done; try lia. unfold UacpiNtIrqUnpackResource. simpl. rewrite Hf.
    destruct (UACPINT_MSI_GSIV_BASE <=? Start) eqn:E2; bool_prop; [lia|done].
Qed.

(** ** The workspace as two fields *)

Lemma land_ff x : Z.land x 0xFF = x mod 256.
Proof. change 0xFF with (Z.ones 8). by rewrite Z.land_ones. Qed.

Lemma ws_set_cursor Ws v :
  0 <= v < 256 ->
  UACPINT_WS_CURSOR (UACPINT_WS_SET_CURSOR Ws v) = v /\
  UACPINT_WS_PRT (UACPINT_WS_SET_CURSOR Ws v) = UACPINT_WS_PRT Ws.
Proof.
  intros Hv. unfold UACPINT_WS_CURSOR, UACPINT_WS_PRT, UACPINT_WS_SET_CURSOR. split.
  - rewrite Z.land_lor_distr_l, Z.land_ldiff, Z.lor_0_l, land_ff, Z.mod_small by lia.
    apply u32_small; lia.
  - f_equal. rewrite Z.shiftr_lor, Z.shiftr_ldiff. change (Z.shiftr 0xFF 8) with 0.
    rewrite Z.ldiff_0_r, (Z.shiftr_div_pow2 v) by lia. change (2 ^ 8) with 256.
    by rewrite Z.div_small, Z.lor_0_r.
Qed.

Lemma ws_set_prt Ws v :
  0 <= v < 4294967296 ->
  UACPINT_WS_PRT (UACPINT_WS_SET_PRT Ws v) = v /\
  UACPINT_WS_CURSOR (UACPINT_WS_SET_PRT Ws v) = UACPINT_WS_CURSOR Ws.
Proof.
  intros Hv. unfold UACPINT_WS_CURSOR, UACPINT_WS_PRT, UACPINT_WS_SET_PRT.
  rewrite (Z.shiftl_mul_pow2 v) by lia. change (2 ^ 8) with 256.
  rewrite u64_small by (unfold is_u64, ULONGLONG_MAX; lia). split.
  - rewrite Z.shiftr_lor, Z.shiftr_land. change (Z.shiftr 0xFF 8) with 0.
    rewrite Z.land_0_r, Z.lor_0_l, Z.shiftr_div_pow2 by lia. change (2 ^ 8) with 256.
    rewrite Z.div_mul by lia. by apply u32_small.
  - f_equal. rewrite Z.land_lor_distr_l, <- Z.land_assoc, Z.land_diag, (land_ff (v * 256)).
    by rewrite Z.mod_mul, Z.lor_0_r.
Qed.

Lemma ws_cursor_nonneg Ws : 0 <= UACPINT_WS_CURSOR Ws.
Proof. unfold UACPINT_WS_CURSOR, u32. apply Z.mod_pos_bound. lia. Qed.

(** ** The engine's contract *)

(** What UacpiNtIrqShareableRange lets a placement join. *)
Definition joins_level (c : range_core) : bool :=
  has_flag (core_Attributes c) UACPINT_RANGE_LEVEL && core_shared c.

(** The routing result as the workspace holds it. *)
Definition route_code (r : option Z) : Z :=
  match r with Some Gsiv => Gsiv + UACPINT_WS_PRT_BIAS | None => UACPINT_WS_PRT_NONE end.

Section IrqContract.
Context `{R : RtlRangeList} {L : RtlRangeListLaws R} {A : RtlPoolSuffices R}.
Context (env : device_env) (mmconfig : mmconfig_table) (Apic : bool) (route : PVOID -> option Z).
(** The lines the tables name leave room for the two codes. *)
Context (Hroute : forall d g, route d = Some g -> 0 <= g < 0xFFFFFFFE).
Context (arb0 : ARBITER_INSTANCE) (wfuel : nat).
Context (W : ol_wf (ar_OrderingList arb0))
  (Hcb : ar_ConflictCallback arb0 = Some UacpiNtIrqShareableRange).
#[local] Abbreviation ol := (ar_OrderingList arb0).
#[local] Abbreviation irq := (UacpiNtIrqCallbacks env mmconfig Apic route).

(** The line the device of a state is routed to. *)
Definition routed (ents : list ARBITER_LIST_ENTRY) (st : ARBITER_ALLOCATION_STATE) : option Z :=
  if st_owner ents st =? NULL then None else route (st_owner ents st).

Definition irq_alternatives (st : ARBITER_ALLOCATION_STATE) : Prop :=
  Forall alt_wf (st_Alternatives st) /\ Forall (prio_ok ol) (st_Alternatives st) /\
  (walk_fuel ol st + 8 < wfuel)%nat.

(** The alternative is a request for a line in the bounds of the descriptor, or
    for one slot of the message window under the APIC. *)
Definition asks_for (d : IO_RESOURCE_DESCRIPTOR) (a : ARBITER_ALTERNATIVE) : Prop :=
  alt_Descriptor a = d /\ io_Type d = CmResourceTypeInterrupt /\ alt_Length a = 1 /\
  if has_flag (io_Flags d) CM_RESOURCE_INTERRUPT_MESSAGE
  then if Apic then alt_Minimum a = UACPINT_MSI_GSIV_BASE /\ alt_Maximum a = UACPINT_MSI_GSIV_LAST
       else alt_Maximum a < alt_Minimum a
  else alt_Minimum a = u32 (ii_MinimumVector (io_Interrupt d)) /\
       alt_Maximum a = u32 (ii_MaximumVector (io_Interrupt d)).

(** Every alternative of the state comes from a requirement of its own entry. *)
Definition asked_for (ents : list ARBITER_LIST_ENTRY) (st : ARBITER_ALLOCATION_STATE) : Prop :=
  forall e, st_entry ents st = Some e ->
    Forall (fun a => Exists (fun d => asks_for d a) (ent_Alternatives e)) (st_Alternatives st).

(** The lookup of the state's route has not been made, or is remembered. *)
Definition irq_inv (ents : list ARBITER_LIST_ENTRY) (st : ARBITER_ALLOCATION_STATE) : Prop :=
  irq_alternatives st /\ has_flag (st_Flags st) ARBITER_STATE_FLAG_BOOT = false /\
  (UACPINT_WS_PRT (st_WorkSpace st) = 0 \/
   st_owner ents st <> NULL /\ UACPINT_WS_PRT (st_WorkSpace st) = route_code (route (st_owner ents st))) /\
  asked_for ents st.

(** The lookup is remembered, if there is a device to look up. *)
Definition irq_ready (ents : list ARBITER_LIST_ENTRY) (st : ARBITER_ALLOCATION_STATE) : Prop :=
  irq_inv ents st /\
  (st_owner ents st <> NULL -> UACPINT_WS_PRT (st_WorkSpace st) = route_code (route (st_owner ents st))).

(** A placement inside its requirement: on the routed line of the device, or
    the library's, which a routed device only gets in the message window. *)
Definition irq_good (ents : list ARBITER_LIST_ENTRY) (K : list range_key)
  (st : ARBITER_ALLOCATION_STATE) : Prop :=
  exists a C, st_alt st = Some a /\ map core_key C ≡ₚ K /\ asked_for ents st /\
    alt_Minimum a <= st_Start st <= st_End st /\ st_End st <= alt_Maximum a /\
    (routed ents st = Some (st_Start st) /\ st_End st = st_Start st \/
     (routed ents st = None \/ UACPINT_MSI_GSIV_BASE <= st_Start st) /\
     placed_against env joins_level ents C st a).

(** Four windows at most before the library's walk. *)
Definition irq_measure (st : ARBITER_ALLOCATION_STATE) : nat :=
  walk_measure ol st + 2 * Z.to_nat (UACPINT_NEXT_ALTERNATIVES - UACPINT_WS_CURSOR (st_WorkSpace st)).

Lemma route_code_range d : 1 <= route_code (route d) < 4294967296.
Proof using Hroute.
  unfold route_code, UACPINT_WS_PRT_BIAS, UACPINT_WS_PRT_NONE.
  destruct (route d) as [g|] eqn:E; [apply Hroute in E|]; lia.
Qed.

Lemma irq_ready_route ents st :
  irq_ready ents st ->
  match routed ents st with
  | Some g => UACPINT_WS_PRT (st_WorkSpace st) = g + UACPINT_WS_PRT_BIAS /\ 0 <= g
  | None => UACPINT_WS_PRT (st_WorkSpace st) < UACPINT_WS_PRT_BIAS
  end.
Proof using Hroute.
  intros [(_ & _ & Hp & _) Hr]. unfold routed. destruct (st_owner ents st =? NULL) eqn:En; bool_prop.
  - destruct Hp as [->|[H _] ]; [done|congruence].
  - rewrite (Hr En). unfold route_code. destruct (route (st_owner ents st)) as [g|] eqn:E; [|done].
    apply Hroute in E. split; [done|lia].
Qed.

Lemma irq_alternatives_reqs st st' :
  map alt_req (st_Alternatives st') = map alt_req (st_Alternatives st) ->
  Forall (prio_ok ol) (st_Alternatives st') -> irq_alternatives st -> irq_alternatives st'.
Proof using.
  intros Hr Hp (H1 & _ & H3). split_and!; [by eapply Forall_alt_wf_reqs|done|].
  by rewrite (walk_fuel_reqs arb0 _ _ Hr).
Qed.

Lemma asked_frame ents ents' st st' :
  owners ents' = owners ents -> st_Entry st' = st_Entry st ->
  map alt_req (st_Alternatives st') = map alt_req (st_Alternatives st) -> asked_for ents st -> asked_for ents' st'.
Proof using.
  intros Ho He Hr H e' Hs. unfold st_entry in Hs. rewrite He in Hs. unfold asked_for, st_entry in H.
  destruct (st_Entry st) as [i|]; [|done].
  pose proof (f_equal (fun l => l !! i) Ho) as Hi. unfold owners in Hi. rewrite !lookup_map_option, Hs in Hi.
  destruct (ents !! i) as [e|]; [|done]. specialize (H e eq_refl). unfold request in Hi. simpl in Hi.
  assert (ent_Alternatives e' = ent_Alternatives e) as -> by congruence.
  assert (forall r, Forall (fun a => Exists (fun d => asks_for d a) (ent_Alternatives e)) r <->
    Forall (fun a => Exists (fun d => asks_for d a) (ent_Alternatives e)) (map alt_req r)) as Hmap.
  { intros r. by rewrite Forall_map. }
  by rewrite Hmap, Hr, <- Hmap.
Qed.

Lemma irq_inv_frame ents ents' st st' :
  irq_inv ents st -> owners ents' = owners ents -> st_Entry st' = st_Entry st ->
  map alt_req (st_Alternatives st') = map alt_req (st_Alternatives st) -> irq_alternatives st' ->
  has_flag (st_Flags st') ARBITER_STATE_FLAG_BOOT = has_flag (st_Flags st) ARBITER_STATE_FLAG_BOOT ->
  UACPINT_WS_PRT (st_WorkSpace st') = UACPINT_WS_PRT (st_WorkSpace st) ->
  irq_inv ents' st'.
Proof using.
  intros (_ & H1 & H2 & H3) Ho He Hr Ha Hf Hw. unfold irq_inv.
  rewrite (st_owner_ext ents ents' st st'), Hf, Hw by done. split_and!; try done. by eapply asked_frame.
Qed.

Lemma irq_ready_frame ents st st' :
  irq_ready ents st -> st_Entry st' = st_Entry st ->
  map alt_req (st_Alternatives st') = map alt_req (st_Alternatives st) -> irq_alternatives st' ->
  has_flag (st_Flags st') ARBITER_STATE_FLAG_BOOT = has_flag (st_Flags st) ARBITER_STATE_FLAG_BOOT ->
  UACPINT_WS_PRT (st_WorkSpace st') = UACPINT_WS_PRT (st_WorkSpace st) ->
  irq_ready ents st'.
Proof using.
  intros [Hi Hr] He Hq Ha Hf Hw.
  assert (Ho : st_owner ents st' = st_owner ents st) by (unfold st_owner, st_entry; by rewrite He).
  split; [by eapply irq_inv_frame|]. by rewrite Ho, Hw.
Qed.

Lemma irq_pre arb ents st s arb' st' :
  irq_inv ents st -> PreprocessEntry irq arb ents st = (s, arb', st') ->
  same_books arb arb' /\ possible arb' = possible arb /\
  irq_ready ents st' /\ same_place st st' /\ (window_in st -> window_in st').
Proof using Hroute.
  intros (Ha & Hf & Hp & Hk) [= <- <- <-]. split; [apply same_books_refl|]. split; [done|].
  unfold irq_preprocess, needs_route.
  destruct (st_owner ents st =? NULL) eqn:En; bool_prop.
  { split; [|split; [apply same_place_refl|done] ]. by split. }
  simpl. rewrite Hf. change (st_owner ents (tag_triggering st)) with (st_owner ents st).
  pose proof (proj2 (Z.eqb_neq _ _) En) as En'. rewrite En'. simpl.
  destruct (UACPINT_WS_PRT (st_WorkSpace st) =? 0) eqn:Ew; bool_prop; simpl.
  - destruct (ws_set_prt (st_WorkSpace st) (route_code (route (st_owner ents st)))) as [E _].
    { pose proof (route_code_range (st_owner ents st)). lia. }
    split; [|split; [by split|done] ]. split; [split_and!; [done|done|by right|done]|done].
  - destruct Hp as [?|[_ Hp] ]; [done|].
    split; [|split; [by split|done] ]. split; [split_and!; [done|done|by right|done]|done].
Qed.

(** *** The walker *)

Lemma find_irq_alternative st Irq i :
  UacpiNtFindIrqInAlternatives st Irq = Some i ->
  exists a, st_Alternatives st !! i = Some a /\ alt_Minimum a <= Irq <= alt_Maximum a.
Proof using.
  intros E. apply find_index_some in E as (a & Ha & Hb). exists a. split; [done|].
  apply andb_prop in Hb as [? ?]. bool_prop. lia.
Qed.

(** A preferred line is a line of some alternative, and it raises the cursor. *)
Lemma prefer_outcome fuel arb ents st Ws :
  match prefer fuel arb ents st Ws with
  | inl st' => exists i a Irq Ws',
      st' = st_set_WorkSpace Ws' (st_set_CurrentAlternative (Some i) (st_set_window Irq Irq st)) /\
      st_Alternatives st !! i = Some a /\ alt_Minimum a <= Irq <= alt_Maximum a /\
      UACPINT_WS_PRT Ws' = UACPINT_WS_PRT Ws /\
      UACPINT_WS_CURSOR Ws < UACPINT_WS_CURSOR Ws' <= UACPINT_NEXT_ALTERNATIVES
  | inr Ws' => UACPINT_WS_PRT Ws' = UACPINT_WS_PRT Ws /\ UACPINT_WS_CURSOR Ws <= UACPINT_WS_CURSOR Ws'
  end.
Proof using.
  revert Ws. induction fuel as [|fuel IH]; intros Ws; simpl; destruct (_ <? _) eqn:Ec; simpl; bool_prop;
    try done.
  set (p := if _ =? UACPINT_NEXT_INITIAL then _ else _).
  assert (Hp : UACPINT_WS_PRT p.1 = UACPINT_WS_PRT Ws /\
               UACPINT_WS_CURSOR Ws < UACPINT_WS_CURSOR p.1 <= UACPINT_NEXT_ALTERNATIVES).
  { unfold p, UACPINT_NEXT_ALTERNATIVES, UACPINT_NEXT_INITIAL, UACPINT_NEXT_LINK_PREF,
      UACPINT_NEXT_BOOT_CONFIG in *. repeat case_match; bool_prop; simpl;
      match goal with |- context [UACPINT_WS_SET_CURSOR Ws ?v] =>
        destruct (ws_set_cursor Ws v ltac:(lia)) as [-> ->] end; split; try done; lia. }
  destruct p as [Ws1 Preferred]. simpl in Hp. destruct Hp as [Hp1 Hp2].
  assert (Hgo : match prefer fuel arb ents st Ws1 with
    | inl st' => exists i a Irq Ws',
        st' = st_set_WorkSpace Ws' (st_set_CurrentAlternative (Some i) (st_set_window Irq Irq st)) /\
        st_Alternatives st !! i = Some a /\ alt_Minimum a <= Irq <= alt_Maximum a /\
        UACPINT_WS_PRT Ws' = UACPINT_WS_PRT Ws /\
        UACPINT_WS_CURSOR Ws < UACPINT_WS_CURSOR Ws' <= UACPINT_NEXT_ALTERNATIVES
    | inr Ws' => UACPINT_WS_PRT Ws' = UACPINT_WS_PRT Ws /\ UACPINT_WS_CURSOR Ws <= UACPINT_WS_CURSOR Ws'
    end).
  { specialize (IH Ws1). destruct (prefer fuel arb ents st Ws1) as [st'|Ws'].
    - destruct IH as (i & a & Irq & Ws' & -> & Ha & Hb & H1 & H2). exists i, a, Irq, Ws'.
      split_and!; try done; try lia; congruence.
    - destruct IH. split; [congruence|lia]. }
  destruct Preferred as [Irq|]; [|done].
  destruct (UacpiNtFindIrqInAlternatives st Irq) as [i|] eqn:Ef; [|done].
  apply find_irq_alternative in Ef as (a & Ha & Hb). exists i, a, Irq, Ws1. split_and!; try done; lia.
Qed.

(** Turning to another alternative costs the walk at most one step. *)
Lemma walk_measure_select st i Irq Ws :
  (walk_measure ol (st_set_WorkSpace Ws (st_set_CurrentAlternative (Some i) (st_set_window Irq Irq st)))
   <= walk_measure ol st + 1)%nat.
Proof using.
  unfold walk_measure. simpl.
  assert (Hb : (list_weight (rank ol) (st_Alternatives st) <=
                (length (orderings ol) + 3) * length (st_Alternatives st))%nat).
  { apply list_weight_bound, Forall_forall. intros. apply rank_bound. }
  destruct (st_CurrentAlternative st) as [j|]; repeat case_match; lia.
Qed.

Lemma library_next_ok arb st b st' :
  same_books arb0 arb -> irq_alternatives st -> library_next arb st = (b, st') ->
  walk_frame st st' /\ irq_alternatives st' /\
  (b = true -> window_in st' /\ (walk_measure ol st' < walk_measure ol st)%nat).
Proof using W.
  intros Hb Ha E. unfold library_next in E. rewrite (books_ordering arb0 _ Hb) in E.
  destruct (get_next_range_terminates_aux ol st W) as (b1 & st1 & E1 & Hm).
  rewrite E1 in E. simpl in E. injection E as -> ->.
  destruct (get_next_range_outcome ol st b st' W) as [Hfr Hr];
    [destruct Ha as (H1 & H2 & _); by split; [|right]|done|].
  pose proof (wfr_reqs _ _ Hfr) as Hreq. split; [done|]. split.
  - apply (irq_alternatives_reqs st); [done| |done]. destruct b.
    + destruct Hr as [ [_ [Hn|?] ] (a & Hal & _)]; [|done]. unfold st_alt in Hal. by rewrite Hn in Hal.
    + eapply Forall_impl; [exact Hr|]. intros a Hx. simpl in Hx.
      split; [lia|]. by intros o (Hne & _) _.
  - intros ->. split; [|by apply Hm]. destruct Hr as [_ (a & Hal & _ & W1 & W2 & _)]. by exists a.
Qed.

(** The library's walk from a state whose cursor has not gone back. *)
Lemma irq_library_next arb ents st Ws b st' :
  same_books arb0 arb -> irq_ready ents st ->
  UACPINT_WS_PRT Ws = UACPINT_WS_PRT (st_WorkSpace st) ->
  UACPINT_WS_CURSOR (st_WorkSpace st) <= UACPINT_WS_CURSOR Ws ->
  library_next arb (st_set_WorkSpace Ws st) = (b, st') ->
  irq_ready ents st' /\ st_Entry st' = st_Entry st /\
  (b = true -> window_in st' /\ (irq_measure st' < irq_measure st)%nat).
Proof using W.
  intros Hb Hr Hp Hc E. pose proof Hr as [(Ha & _) _].
  destruct (library_next_ok _ _ _ _ Hb (Ha : irq_alternatives (st_set_WorkSpace Ws st)) E)
    as (Hfr & Ha' & Hw).
  pose proof (wfr_entry _ _ Hfr) as He. pose proof (wfr_ws _ _ Hfr) as Hws.
  split; [|split; [done|] ].
  - apply (irq_ready_frame ents st); try done; [by rewrite (wfr_reqs _ _ Hfr)|by rewrite (wfr_flags _ _ Hfr)|by rewrite Hws].
  - intros ->. destruct (Hw eq_refl) as [? Hm]. split; [done|]. unfold irq_measure.
    rewrite Hws. change (walk_measure ol (st_set_WorkSpace Ws st)) with (walk_measure ol st) in Hm.
    simpl. lia.
Qed.

Lemma irq_next arb ents st b st' :
  same_books arb0 arb -> irq_ready ents st -> GetNextAllocationRange irq arb ents st = (b, st') ->
  irq_ready ents st' /\ st_Entry st' = st_Entry st /\
  (b = true -> window_in st' /\ (irq_measure st' < irq_measure st)%nat).
Proof using W.
  intros Hb Hr E. pose proof Hr as [(Ha & _) _].
  assert (Hlib : (let '(b, st) := library_next arb st in (b, st, 0)).1 = (b, st') ->
    irq_ready ents st' /\ st_Entry st' = st_Entry st /\
    (b = true -> window_in st' /\ (irq_measure st' < irq_measure st)%nat)).
  { intros E0. apply (irq_library_next arb ents st (st_WorkSpace st)); try done.
    replace (st_set_WorkSpace (st_WorkSpace st) st) with st by by destruct st.
    by destruct (library_next arb st). }
  simpl in E. unfold UacpiNtIrqGetNextAllocationRange in E.
  destruct (working_alternative st) as [a|]; [|by apply Hlib]. destruct (_ || _); [by apply Hlib|].
  pose proof (prefer_outcome 4 arb ents st (st_WorkSpace st)) as Hpo.
  destruct (prefer 4 arb ents st (st_WorkSpace st)) as [st1|Ws].
  - simpl in E. simplify_eq. destruct Hpo as (i & al & Irq & Ws' & -> & Hal & Hb1 & Hp & Hc).
    split; [by apply (irq_ready_frame ents st)|]. split; [done|]. intros _. split.
    + exists al. destruct Ha as (Hwf & _ & _).
      pose proof (Forall_lookup_1 _ _ _ _ Hwf Hal) as (Hmn & _). unfold is_u64 in Hmn.
      unfold st_alt. simpl. split_and!; try done; lia.
    + pose proof (walk_measure_select st i Irq Ws') as Hm. unfold irq_measure.
      pose proof (ws_cursor_nonneg (st_WorkSpace st)). unfold UACPINT_NEXT_ALTERNATIVES in *.
      simpl in *. lia.
  - destruct (library_next arb (st_set_WorkSpace Ws st)) as [b1 st1] eqn:E1. simpl in E. simplify_eq.
    destruct Hpo. by apply (irq_library_next arb ents st Ws).
Qed.

(** *** The finder *)

Lemma shareable_joins : callback_joins (Some UacpiNtIrqShareableRange) joins_level.
Proof using. by intros f slot r [= <-] Hf. Qed.

Lemma irq_default_inv st : irq_alternatives st -> default_inv arb0 wfuel st.
Proof using. intros (H1 & H2 & H3). split; [by split; [|right]|lia]. Qed.

Lemma irq_library_find arb ents st b arb' st' :
  same_books arb0 arb -> irq_ready ents st -> window_in st ->
  ArbiterLibFindSuitableRange env mmconfig (Some ArbiterLibOverrideConflict) arb ents st = (b, arb', st') ->
  find_frame arb arb' st st' /\
  (b = true -> placed_in_window env joins_level ents (rl_cores (ar_PossibleAllocation arb)) st st').
Proof using L Hcb Apic.
  intros Hb [(Ha & _) _] Hw E.
  eapply (find_in_window env mmconfig (UacpiNtIrqUnpackRequirement Apic)
    (fun d Start c => (UacpiNtIrqPackResource d Start c []).1) UacpiNtIrqUnpackResource
    (Some UacpiNtIrqScoreRequirement) arb0 wfuel joins_level); try done; [|by apply irq_default_inv].
  rewrite Hcb. apply shareable_joins.
Qed.

(** What the engine asks of a call of the finder. *)
Definition found_ok (arb : ARBITER_INSTANCE) (ents : list ARBITER_LIST_ENTRY)
  (st : ARBITER_ALLOCATION_STATE) (b : bool) (arb' : ARBITER_INSTANCE)
  (st' : ARBITER_ALLOCATION_STATE) : Prop :=
  same_books arb arb' /\ possible arb' = possible arb /\
  irq_ready ents st' /\ st_Entry st' = st_Entry st /\ (irq_measure st' <= irq_measure st)%nat /\
  (b = true -> window_in st' /\ irq_good ents (possible arb) st' /\ is_Some (st_alt st')).

Lemma irq_find_library arb ents st b arb' st' :
  same_books arb0 arb -> irq_ready ents st -> window_in st ->
  (routed ents st = None \/ UACPINT_MSI_GSIV_BASE <= st_CurrentMinimum st) ->
  ArbiterLibFindSuitableRange env mmconfig (Some ArbiterLibOverrideConflict) arb ents st = (b, arb', st') ->
  found_ok arb ents st b arb' st'.
Proof using L Hcb Apic.
  intros Hb Hr Hw Hside E. destruct (irq_library_find _ _ _ _ _ _ Hb Hr Hw E) as [Hfr Hok].
  destruct (find_frame_books _ _ _ _ Hfr) as [? ?]. pose proof Hr as [(Ha & _) _].
  destruct (default_inv_frame arb0 wfuel _ _ _ _ Hfr (irq_default_inv _ Ha)) as (_ & Hm & Halt).
  destruct Hfr as [_ F1 F2 F3 F4 F5 F6 F7]. destruct Hw as (a & Hal & Hmn & Hmx).
  split_and!; try done.
  - apply (irq_ready_frame ents st); try done; [by rewrite F3| |by rewrite F6].
    unfold irq_alternatives, walk_fuel in *. by rewrite F3.
  - unfold irq_measure. by rewrite Hm, F6.
  - intros ->. destruct (Hok eq_refl) as (a' & Ha' & B1 & B2 & _ & Hp).
    assert (a' = a) as -> by congruence. split_and!; [|exists a, (rl_cores (ar_PossibleAllocation arb))|by eexists].
    + exists a. rewrite F1, F2. split_and!; try done; lia.
    + split_and!; try done; try lia; [unfold possible; by rewrite rl_keys_cores| |].
      { eapply (asked_frame ents ents st); [done..|by rewrite F3|apply Hr]. }
      right. split; [|done].
      replace (routed ents st') with (routed ents st) by (unfold routed, st_owner, st_entry; by rewrite F5).
      destruct Hside; [by left|right; lia].
Qed.

Lemma irq_find arb ents st b arb' st' :
  same_books arb0 arb -> irq_ready ents st -> window_in st ->
  FindSuitableRange irq arb ents st = (b, arb', st') -> found_ok arb ents st b arb' st'.
Proof using L Hcb Hroute.
  intros Hb Hr Hw E. pose proof (irq_ready_route _ _ Hr) as Hrt.
  simpl in E. unfold UacpiNtIrqFindSuitableRange in E.
  destruct (_ <=? st_CurrentMinimum st) eqn:Em; bool_prop.
  { apply irq_find_library; try done. by right. }
  destruct (_ <=? UACPINT_WS_PRT _) eqn:Ep; bool_prop.
  2:{ apply irq_find_library; try done.
      - left. destruct (routed ents st); [lia|done].
      - by destruct (ArbiterLibFindSuitableRange _ _ _ _ _ _) as [ [b1 arb1] st1]. }
  destruct (routed ents st) as [g|] eqn:Eg; [|lia]. destruct Hrt as [Hrt Hg].
  rewrite Hrt, Z.add_simpl_r in E. destruct (_ || _) eqn:Eo; simplify_eq/=.
  { split_and!; try done. apply same_books_refl. }
  apply orb_false_iff in Eo as [E1 E2]. bool_prop. destruct Hw as (a & Hal & Hmn & Hmx).
  split; [apply same_books_refl|]. split_and!; try done.
  intros _. split_and!; [by exists a| |by exists a].
  exists a, (rl_cores (ar_PossibleAllocation arb')). simpl.
  split_and!; try done; try lia; [unfold possible; by rewrite rl_keys_cores|apply Hr|]. by left.
Qed.

(** *** The instance *)

Lemma irq_good_perm ents K K' st : K ≡ₚ K' -> irq_good ents K st -> irq_good ents K' st.
Proof using. intros HK (a & C & Ha & HC & H). exists a, C. by rewrite <- HK. Qed.

Lemma irq_good_ext ents ents' K st st' :
  same_place st st' -> owners ents' = owners ents -> irq_good ents K st -> irq_good ents' K st'.
Proof using.
  intros Hp Ho (a & C & Ha & HC & Hk & Hb & Hmx & Hor).
  pose proof (same_place_alt _ _ Hp) as E. rewrite Ha in E.
  destruct (st_alt st') as [a'|] eqn:Ea'; [|done]. exists a', C.
  pose proof (st_owner_ext ents ents' st st' Ho (sp_entry _ _ Hp)) as Hown.
  assert (Hreq : alt_req a' = alt_req a) by (simpl in E; congruence).
  destruct (alt_req_fields a' a Hreq) as (R1 & R2 & _).
  rewrite (sp_start _ _ Hp), (sp_end _ _ Hp), R1, R2. unfold routed in *. rewrite Hown.
  split_and!; try done; try lia; [by eapply asked_frame; [done|apply (sp_entry _ _ Hp)|apply (sp_reqs _ _ Hp)|]|].
  destruct Hor as [?|[? Hpa] ]; [by left|right]. split; [done|].
  by apply (placed_against_ext _ _ ents ents' C st st' a).
Qed.

#[global, refine] Instance irq_slots : ArbiterSlots irq arb0 wfuel := {|
  st_inv := irq_inv;
  st_ready := irq_ready;
  st_win := window_in;
  good := irq_good;
  keys_of := default_keys;
  measure := irq_measure
|}.
Proof using L A W Hcb Hroute.
  - intros ents st ((_ & _ & Hf) & _). pose proof (walk_measure_fuel ol st).
    unfold irq_measure. pose proof (ws_cursor_nonneg (st_WorkSpace st)).
    unfold UACPINT_NEXT_ALTERNATIVES. lia.
  - by intros ents st [? _].
  - intros ents ents' st Ho Hi. eapply irq_inv_frame; try done. apply Hi.
  - apply irq_good_perm.
  - apply irq_good_ext.
  - apply default_keys_ext.
  - intros ents st Hi. eapply irq_inv_frame; try done; [apply Hi|]. by apply has_flag_clear.
  - intros ents st Hi. eapply irq_inv_frame; try done. apply Hi.
  - done.
  - intros ents K st Hr (a & Ha & Hmn & Hmx) (a' & C & Ha' & _ & _ & Hs & He & _) Hlt.
    assert (a' = a) as -> by congruence. split; [done|]. exists a.
    pose proof Hr as [((Hwf & _) & _) _].
    pose proof (st_alt_wf _ _ Hwf Ha) as (Hw1 & Hw2 & _). unfold is_u64, ULONGLONG_MAX in *.
    simpl. rewrite sub64_small by (unfold is_u64, ULONGLONG_MAX; lia). split_and!; try done; lia.
  - apply irq_pre.
  - apply irq_next.
  - apply irq_find.
  - intros arb ents K st _ (a & C & _ & _ & _ & Hb & _). apply library_adds. lia.
  - intros arb ents st arb' st' K _ Hi Hw Hg HK E.
    destruct (library_withdraws _ _ _ _ _ _ HK E) as (Hb & Hk & ->). by split_and!.
Defined.
End IrqContract.

(** ** Witness *)

(** A request for four messages, in the slot at the top of the window. *)
Definition message_request (Count : Z) : IO_RESOURCE_DESCRIPTOR :=
  let w := mkIoWindow 0 0 0 0 in
  mkIo 0 CmResourceTypeInterrupt CmResourceShareDeviceExclusive
    (set_flag CM_RESOURCE_INTERRUPT_LATCHED CM_RESOURCE_INTERRUPT_MESSAGE) w w (mkIoBus 0 0 0)
    (mkIoInterrupt 0 (Count - 1) 0) no_connection.

Lemma irq_pack_roundtrip_witness :
  UacpiNtIrqUnpackResource (UacpiNtIrqPackResource (message_request 4) UACPINT_MSI_GSIV_LAST blank_cm []).1.2 =
    (STATUS_SUCCESS, (UACPINT_MSI_GSIV_LAST, 4)).
Proof.
  destruct (UacpiNtIrqPackResource (message_request 4) UACPINT_MSI_GSIV_LAST blank_cm [])
    as [ [s c'] r'] eqn:E.
  destruct (irq_pack_roundtrip (message_request 4) UACPINT_MSI_GSIV_LAST blank_cm [] s c' r'
              ltac:(unfold UACPINT_MSI_GSIV_LAST; lia) eq_refl E) as (_ & _ & H & _).
  exact H.
Defined.
