(* ===== verification/IrqSearch.v ===== *)
(** sys/irqarb.c: what a test of the interrupt arbiter promises.  The slots of
    IrqArb.v drive the library's Test action, and its results are read off the
    assignments. *)
From stdpp Require Import base list numbers option strings.
From Stdlib Require Import ZArith Lia Permutation.
From S2P Require Import Prelude NtEnv RangeListRef ArbTypes Ordering RangeWalk.
From S2P Require Import Entry DefaultSlots Transaction ResTranslate Resource IrqVectors.
From S2P Require Import IrqLinks IrqArb.

Section IrqDriver.
Context `{R : RtlRangeList} {L : RtlRangeListLaws R} {P : RtlPoolSuffices R}.
Context (env : device_env) (mmconfig : mmconfig_table) (Apic : bool) (route : PVOID -> option Z)
  (wfuel : nat).
Context (Hroute : forall d g, route d = Some g -> 0 <= g < 0xFFFFFFFE).
#[local] Abbreviation irq := (UacpiNtIrqCallbacks env mmconfig Apic route).
#[local] Abbreviation lib := (ArbiterLibCallbacks env mmconfig (UacpiNtIrqUnpackRequirement Apic)
  (fun d Start c => (UacpiNtIrqPackResource d Start c []).1) UacpiNtIrqUnpackResource
  (Some UacpiNtIrqScoreRequirement)).

Definition irq_instance (arb : ARBITER_INSTANCE) : Prop :=
  ol_wf (ar_OrderingList arb) /\ ar_ConflictCallback arb = Some UacpiNtIrqShareableRange /\
  (11 < wfuel)%nat.

(** Fuel for the at most 1024 ordering windows of each alternative. *)
Definition irq_requirements (ds : list IO_RESOURCE_DESCRIPTOR) : Prop :=
  (2 * (1027 * length ds) + 11 < wfuel)%nat.

Lemma irq_build_alternatives ds : build_alternatives irq ds = build_alternatives lib ds.
Proof using. induction ds as [|d ds IH]; [done|]. simpl. by rewrite IH. Qed.

Lemma irq_requirement_wf d s mn mx len al :
  UacpiNtIrqUnpackRequirement Apic d = (s, (mn, mx, len, al)) -> NT_SUCCESS s = true ->
  requirement_wf mn mx len al.
Proof using.
  intros E Hs. unfold UacpiNtIrqUnpackRequirement in E.
  pose proof (u32_range (ii_MinimumVector (io_Interrupt d))) as Hmn.
  pose proof (u32_range (ii_MaximumVector (io_Interrupt d))) as Hmx. unfold is_ulong in *.
  repeat case_match; simplify_eq; try done;
    unfold requirement_wf, alt_wf, alt_align, is_u64, ULONGLONG_MAX, UACPINT_MSI_GSIV_BASE,
      UACPINT_MSI_GSIV_LAST; simpl; lia.
Qed.

(** Alternatives are built with no priority yet. *)
Lemma built_priorities ol cbs ds s alts :
  build_alternatives cbs ds = (s, alts) -> NT_SUCCESS s = true -> Forall (prio_ok ol) alts.
Proof using.
  revert s alts. induction ds as [|d ds IH]; simpl; intros s alts E Hs; [by simplify_eq|].
  destruct (ArbpBuildAlternative cbs d) as [s1 a] eqn:Ea.
  destruct (NT_SUCCESS s1) eqn:E1; simpl in E; [|simplify_eq; congruence].
  destruct (build_alternatives cbs ds) as [s2 alts2]. simplify_eq.
  constructor; [|by eapply IH]. unfold ArbpBuildAlternative in Ea.
  destruct (UnpackRequirement cbs d) as [s0 [ [ [mn mx] len] al] ].
  destruct (negb (NT_SUCCESS s0)) eqn:E0; simplify_eq.
  { by rewrite E1 in E0. }
  split; [done|]. by intros o (_ & _ & Hn) _.
Qed.

(** Every alternative that is built asks for what one of the descriptors says. *)
Lemma built_asks ds s alts :
  build_alternatives irq ds = (s, alts) -> NT_SUCCESS s = true ->
  Forall (fun a => Exists (fun d => asks_for Apic d a) ds) alts.
Proof using.
  revert s alts. induction ds as [|d ds IH]; simpl; intros s alts E Hs; [by simplify_eq|].
  destruct (ArbpBuildAlternative irq d) as [s1 a] eqn:Ea.
  destruct (NT_SUCCESS s1) eqn:E1; simpl in E; [|simplify_eq; congruence].
  destruct (build_alternatives irq ds) as [s2 alts2] eqn:E2. simplify_eq.
  constructor; [|eapply Forall_impl; [by eapply IH|]; intros a' Ha'; by right].
  left. unfold ArbpBuildAlternative in Ea. simpl in Ea. unfold UacpiNtIrqUnpackRequirement in Ea.
  unfold asks_for. destruct (io_Type d =? CmResourceTypeInterrupt) eqn:Et; simpl in Ea; bool_prop;
    [|simplify_eq; done].
  destruct (has_flag (io_Flags d) CM_RESOURCE_INTERRUPT_MESSAGE), Apic; simpl in Ea; simplify_eq; simpl; by split_and!.
Qed.

#[global, refine] Instance irq_driver : ArbiterDriver irq irq_instance wfuel := {|
  drv_requirements := irq_requirements;
  drv_slots arb Hp := irq_slots env mmconfig Apic route Hroute arb wfuel (proj1 Hp) (proj1 (proj2 Hp))
|}.
Proof using L P Hroute.
  - intros arb arb' U (H1 & H2 & H3). split_and!; [by rewrite (ut_ordering _ _ U)|
      by rewrite (ut_callback _ _ U)|done].
  - intros arb (H1 & H2 & H3) all. split_and!; [|done|by left|done].
    split_and!; [constructor|constructor|]. unfold walk_fuel. simpl. lia.
  - intros arb (H1 & H2 & H3) all i ds s alts Hds Hf E Hs. pose proof (built_asks _ _ _ E Hs) as Hask.
    rewrite irq_build_alternatives in E. split_and!; [|done|by left|intros e He; by rewrite (Hds e He)]. split_and!; simpl.
    + eapply build_alternatives_wf; [|done|done]. apply Forall_true.
      intros d s0 mn mx len al. by apply irq_requirement_wf.
    + by eapply built_priorities.
    + unfold walk_fuel. simpl. rewrite (build_alternatives_length _ _ _ _ E Hs).
      pose proof (orderings_limit _ H1). unfold irq_requirements in Hf. nia.
Defined.
End IrqDriver.

(** ** What a test tells each requester *)

Lemma live_from_in i ents j e :
  ents !! j = Some e -> ent_AlternativeCount e <> 0 -> (i + j)%nat ∈ live_from i ents.
Proof.
  revert i j. induction ents as [|e0 ents IH]; intros i [|j] Hl Hn; simplify_eq/=.
  - apply Z.eqb_neq in Hn. rewrite Hn, Nat.add_0_r. by left.
  - specialize (IH (S i) j Hl Hn). replace (i + S j)%nat with (S i + j)%nat by lia.
    destruct (_ =? 0); [done|]. by right.
Qed.

(** Each entry that asked for something has a state of its own in the stack,
    settled against what the states before it recorded, and was told about it. *)
Lemma tested_entry `{R : RtlRangeList} {cbs policy wfuel} {D : ArbiterDriver cbs policy wfuel}
  K arb' ents ents' i e :
  tested K arb' ents ents' -> ents' !! i = Some e -> ent_AlternativeCount e <> 0 ->
  exists arb1 (P1 : policy arb1) (k : nat) st,
    ar_AllocationStack arb' !! k = Some st /\ st_Entry st = Some i /\
    st_owner ents' st = ent_PhysicalDeviceObject e /\ told (cbs := cbs) st e /\
    possible arb1 ≡ₚ K /\
    (forall key, key ∈ placed_keys (S_ := drv_slots arb1 P1) ents' st -> key ∈ possible arb') /\
    settled (S_ := drv_slots arb1 P1) ents'
      (recorded (S_ := drv_slots arb1 P1) ents' (possible arb1) (take k (ar_AllocationStack arb'))) st.
Proof.
  intros (_ & arb1 & P1 & en & HK & Hsol & <- & Hpos & <-) He Hn.
  destruct Hsol as [Hsh Hch Hkeys Htold]. set (idx := live_from 0 (eg_ents en)) in *.
  assert (Hin : i ∈ idx) by exact (live_from_in 0 _ _ _ He Hn).
  apply list_elem_of_lookup in Hin as [k Hk]. apply lookup_lt_Some in Hk as Hkl.
  assert (Hst : map st_Entry (eg_stack en) !! k = Some (Some i)).
  { rewrite Hsh, lookup_app_l by (by rewrite length_map). by rewrite lookup_map_option, Hk. }
  rewrite lookup_map_option in Hst. destruct (eg_stack en !! k) as [st|] eqn:El; [|done].
  injection Hst as Hst. destruct (Htold k i st Hk El) as (e' & He' & Ht).
  assert (e' = e) as -> by congruence. exists arb1, P1, k, st.
  split_and!; try done.
  - unfold st_owner, st_entry. by rewrite Hst, He.
  - intros key Hkey. rewrite <- Hpos, Hkeys. eapply recorded_earlier; [|exact Hkey].
    by rewrite lookup_take_lt.
  - assert (Hl : take (length idx) (eg_stack en) !! k = Some st) by (by rewrite lookup_take_lt).
    pose proof (chain_lookup _ _ _ _ _ Hch Hl) as Hs. by rewrite take_take, Nat.min_l in Hs by lia.
Qed.

(** What the interrupt arbiter's test tells an entry that was placed on
    [Start, End]: one of its own descriptors is selected and the placement is in the
    bounds of that one, for a message in the message window. *)
Definition irq_told (Apic : bool) (route : PVOID -> option Z) (e : ARBITER_LIST_ENTRY) (Start End : Z) : Prop :=
  exists d, d ∈ ent_Alternatives e /\ ent_SelectedAlternative e = Some d /\ io_Type d = CmResourceTypeInterrupt /\
    Start <= End /\
    (if has_flag (io_Flags d) CM_RESOURCE_INTERRUPT_MESSAGE
     then Apic = true /\ UACPINT_MSI_GSIV_BASE <= Start /\ End <= UACPINT_MSI_GSIV_LAST
     else u32 (ii_MinimumVector (io_Interrupt d)) <= Start /\ End <= u32 (ii_MaximumVector (io_Interrupt d))) /\
    (Start < UACPINT_MSI_GSIV_BASE ->
     forall g, route (ent_PhysicalDeviceObject e) = Some g -> Start = g /\ End = g) /\
    forall cm, ent_Assignment e = Some cm ->
      cm_Type cm = CmResourceTypeInterrupt /\ ci_Vector (cm_Interrupt cm) = u32 Start /\
      (UACPINT_MSI_GSIV_BASE <= Start -> has_flag (cm_Flags cm) CM_RESOURCE_INTERRUPT_MESSAGE = true).

Lemma irq_pack_vector d Start c r s c' r' :
  UacpiNtIrqPackResource d Start c r = (s, c', r') ->
  cm_Type c' = CmResourceTypeInterrupt /\ ci_Vector (cm_Interrupt c') = u32 Start /\
  (UACPINT_MSI_GSIV_BASE <= Start -> has_flag (cm_Flags c') CM_RESOURCE_INTERRUPT_MESSAGE = true).
Proof.
  unfold UacpiNtIrqPackResource. destruct (Start <? _) eqn:E; intros [= <- <- <-]; bool_prop.
  - split_and!; try done. lia.
  - split_and!; try done. intros _. by apply has_flag_set_same.
Qed.

Lemma same_requests_pdo ents ents' :
  same_requests ents ents' -> Forall (fun e => ent_PhysicalDeviceObject e <> NULL) ents ->
  Forall (fun e => ent_PhysicalDeviceObject e <> NULL) ents'.
Proof.
  intros Hp HF.
  assert (Hm : Forall (fun r => r.1.1.1 <> NULL) (owners ents)) by by apply Forall_map.
  unfold same_requests in Hp. rewrite <- Hp in Hm. by apply (proj1 (Forall_map request _ _)) in Hm.
Qed.

Section IrqTest.
Context `{R : RtlRangeList} {L : RtlRangeListLaws R} {P : RtlPoolSuffices R}.
Context (env : device_env) (mmconfig : mmconfig_table) (Apic : bool) (route : PVOID -> option Z)
  (wfuel : nat).
Context (irl : ARBITER_INSTANCE -> list CM_PARTIAL_RESOURCE_DESCRIPTOR ->
    RTL_RANGE_LIST -> world -> NTSTATUS * RTL_RANGE_LIST * world).

(** C6.  The Test action of the interrupt arbiter returns, and a success has
    for every requester a placement of its own in the stack and in the tentative list.
    The selected alternative is one of the descriptors of that requester, and the
    placement lies between its minimum and maximum vector, or in the message window
    when it asks for messages; a wired one of a device the routing tables name is
    exactly the routed line, and a message one carries the message flag.  The vector
    of the assignment is the placement. *)
Theorem irq_test_places_on_routes N fuel arb ents from w :
  (forall d g, route d = Some g -> 0 <= g < 0xFFFFFFFE) ->
  (forall arb ds l w s l' w', irl arb ds l w = (s, l', w') ->
     w_clock w' = w_clock w /\ w_reads w' = w_reads w) ->
  irq_instance wfuel arb -> Forall (fun e => irq_requirements wfuel (ent_Alternatives e)) ents ->
  Forall (fun e => ent_PhysicalDeviceObject e <> NULL) ents ->
  (forall n, (N <= n)%nat -> hard_deadline w < w_clock w n) -> (N < fuel)%nat ->
  exists s arb' ents' w',
    ArbpTestAllocation (UacpiNtIrqCallbacks env mmconfig Apic route) irl fuel wfuel arb ents from w =
      Some (s, arb', ents', w') /\
    untouched arb arb' /\
    (NT_SUCCESS s = true ->
     same_requests ents ents' /\
     forall i e, ents' !! i = Some e -> ent_AlternativeCount e <> 0 ->
       exists st, st ∈ ar_AllocationStack arb' /\ st_Entry st = Some i /\
         (st_Start st, st_End st, ent_PhysicalDeviceObject e) ∈ possible arb' /\
         irq_told Apic route e (st_Start st) (st_End st)).
Proof using L P.
  intros Hroute Hirl Hpol Hreq Hpdo HN Hf.
  pose (D := irq_driver env mmconfig Apic route wfuel Hroute).
  destruct (test_allocation_outcome (D := D) irl Hirl N fuel arb ents from w Hpol Hreq Hpdo HN Hf)
    as (s & arb' & ents' & w' & E & U & Hs).
  exists s, arb', ents', w'. split; [done|]. split; [done|]. intros Hok. rewrite Hok in Hs.
  split; [apply Hs|]. intros i e He Hn.
  pose proof (same_requests_pdo _ _ (proj1 Hs) Hpdo) as Hp. rewrite Forall_forall in Hp.
  specialize (Hp e (list_elem_of_lookup_2 _ _ _ He)).
  destruct (tested_entry _ _ _ _ _ _ Hs He Hn) as (arb1 & P1 & k & st & Hst & Hi & Ho & Ht & _ & Hkeys & Hg & _).
  exists st. split; [by eapply list_elem_of_lookup_2|]. split; [done|].
  destruct Hg as (a & C & Ha & _ & Hask & Hb & Hmx & Hor). destruct Ht as (a' & Ha' & Hsel & _ & Hcm).
  assert (a' = a) as -> by congruence.
  assert (st_entry ents' st = Some e) as Hent by (unfold st_entry; by rewrite Hi).
  pose proof (Hask e Hent) as Hex. unfold st_alt in Ha. destruct (st_CurrentAlternative st) as [ia|] eqn:Eia; [|done].
  pose proof (Forall_lookup_1 _ _ _ _ Hex Ha) as Hd. apply Exists_exists in Hd as (d & Hd & Hdesc & Hty & Hlen & Hbnd).
  split.
  { apply Hkeys. unfold placed_keys, st_alt. rewrite Eia, Ha, Hlen. simpl. unfold default_keys. rewrite Ho. by left. }
  exists d. rewrite <- Hdesc in *. split_and!; try done; try lia.
  - destruct (has_flag (io_Flags _) _); [|lia]. destruct Apic; [|lia]. split; [done|lia].
  - intros Hlt g Hg. unfold routed in Hor. rewrite Ho, Hg in Hor.
    apply Z.eqb_neq in Hp. rewrite Hp in Hor.
    destruct Hor as [ [H1 H2]|[ [?|?] _] ]; [|done|lia]. injection H1 as ->. lia.
  - intros cm Ecm. destruct (Hcm cm Ecm) as (s1 & cm1 & Ep & _). simpl in Ep.
    destruct (UacpiNtIrqPackResource _ _ _ _) as [ [s2 c2] r2] eqn:Ek. simpl in Ep.
    injection Ep as -> ->. exact (irq_pack_vector _ _ _ _ _ _ _ Ek).
Qed.
End IrqTest.

(** ** Witnesses *)

#[local] Existing Instance ref_range_list.

Definition line_request (Share Flags mn mx : Z) : IO_RESOURCE_DESCRIPTOR :=
  let w := mkIoWindow 0 0 0 0 in
  mkIo 0 CmResourceTypeInterrupt Share Flags w w (mkIoBus 0 0 0) (mkIoInterrupt mn mx 0) no_connection.
Definition line_entry (pdo : PVOID) (ds : list IO_RESOURCE_DESCRIPTOR) : ARBITER_LIST_ENTRY :=
  mkEntry ds pdo ArbiterRequestPnpEnumerated 0 0 (Some blank_cm) None ArbiterResultUndefined.

(** Device 9 has line 10 for itself, edge triggered. *)
Definition edge_arbiter : ARBITER_INSTANCE :=
  mkArb CmResourceTypeInterrupt [mkRange 10 10 0 9 UACPINT_RANGE_LATCHED 0] []
    (mkOrderingList 0 0 None) (mkOrderingList 0 0 None) 4096 [] false false true None
    (Some UacpiNtIrqShareableRange).
(** Device 7 is routed to line 10, device 6 to line 20, device 8 is not routed. *)
Definition sample_route (d : PVOID) : option Z :=
  if d =? 7 then Some 10 else if d =? 6 then Some 20 else None.
Definition irq_ents : list ARBITER_LIST_ENTRY :=
  [line_entry 8 [line_request CmResourceShareDeviceExclusive CM_RESOURCE_INTERRUPT_LATCHED 10 11];
   line_entry 6 [line_request CmResourceShareShared 0 16 23]].
Definition irq_test (route : PVOID -> option Z) (ents : list ARBITER_LIST_ENTRY) :=
  ArbpTestAllocation (UacpiNtIrqCallbacks quiet_env [] true route) no_seed 200 5000 edge_arbiter ents
    None ticking_world.

Lemma edge_arbiter_instance : irq_instance 5000 edge_arbiter.
Proof. split_and!; [|done|lia]. split; unfold ol_list; simpl; try done. by left. Qed.

Lemma irq_test_places_on_routes_witness :
  result_keys (irq_test sample_route irq_ents) =
    Some (STATUS_SUCCESS, [(20, 20, 6); (11, 11, 8); (10, 10, 9)]) /\
  exists s arb' ents' w', irq_test sample_route irq_ents = Some (s, arb', ents', w') /\
    (NT_SUCCESS s = true -> forall i e, ents' !! i = Some e -> ent_AlternativeCount e <> 0 ->
     exists st, st ∈ ar_AllocationStack arb' /\ irq_told true sample_route e (st_Start st) (st_End st)).
Proof.
  split; [vm_compute; reflexivity|].
  destruct (irq_test_places_on_routes (L := ref_range_list_laws) (P := ref_pool_suffices)
              quiet_env [] true sample_route 5000 no_seed 102 200 edge_arbiter irq_ents None ticking_world)
    as (s & arb' & ents' & w' & E & _ & H).
  - intros d g. unfold sample_route. repeat case_match; intros [= <-]; lia.
  - apply no_seed_clock.
  - apply edge_arbiter_instance.
  - repeat constructor; unfold irq_requirements; simpl length; lia.
  - by repeat constructor.
  - apply ticking_deadline.
  - lia.
  - exists s, arb', ents', w'. split; [exact E|]. intros Hs i e He Hn.
    destruct (proj2 (H Hs) i e He Hn) as (st & Hst & _ & _ & Ht). exists st. split; [exact Hst|exact Ht].
Defined.

(** ** A behaviour the placement should not have *)

(** A routed device is put on its line without a look at who holds it: the
    shared-or-not and the triggering of the recorded ranges only count for the
    library's finder.  Here line 10 belongs to device 9 alone, edge triggered.  Device
    7 asks for it level triggered and exclusively, and gets it because it is
    routed there; the same request of a device without a route fails. *)
Theorem routed_line_taken_from_its_owner :
  let ents := [line_entry 7 [line_request CmResourceShareDeviceExclusive 0 10 10]] in
  result_keys (irq_test sample_route ents) = Some (STATUS_SUCCESS, [(10, 10, 7); (10, 10, 9)]) /\
  option_map fst (result_keys (irq_test (fun _ => None) ents)) = Some STATUS_UNSUCCESSFUL.
Proof. split; vm_compute; reflexivity. Qed.

(** A message placement takes one slot in the search, but its assignment unpacks
    with the number of messages as its length, so the retest that precedes a
    commit lays down a run: here the runs of two devices overlap, and the upper
    one leaves the message window. *)
Theorem message_run_retested_longer :
  let ents := [line_entry 7 [message_request 4]; line_entry 8 [message_request 4]] in
  let tested := irq_test (fun _ => None) ents in
  result_keys tested = Some (STATUS_SUCCESS,
    [(0xFFFFFFFD, 0xFFFFFFFD, 8); (0xFFFFFFFE, 0xFFFFFFFE, 7); (10, 10, 9)]) /\
  option_map (fun t =>
    let '(s, arb, ents, w) := t in
    possible (ArbpRetestAllocation (UacpiNtIrqCallbacks quiet_env [] true (fun _ => None)) arb ents w).1.2)
    tested = Some [(0xFFFFFFFD, 0x100000000, 8); (0xFFFFFFFE, 0x100000001, 7); (10, 10, 9)].
Proof. split; vm_compute; reflexivity. Qed.
