(* ===== verification/IrqCommit.v ===== *)
(** sys/irqarb.c, last part: what a commit of the interrupt arbiter writes to
    the devices, and how the arbiter comes up and is handed out. *)
From stdpp Require Import base list numbers option strings.
From Stdlib Require Import ZArith Lia Permutation.
From S2P Require Import Prelude NtEnv RangeListRef ArbTypes Ordering RangeWalk.
From S2P Require Import Entry DefaultSlots Transaction Lifetime Handler Resource.
From S2P Require Import ResTranslate IrqVectors IrqData IrqLinks IrqArb IrqSearch.

Definition UACPINT_IRQ_WRITTEN_MAX : nat := 256.

(** ** The record of what was written *)

Record UACPINT_IRQ_WRITTEN := mkWritten { wr_Owner : PVOID; wr_Start : Z; wr_Length : Z }.

(** [UacpiNtIrqWritten], the used part. *)
Abbreviation written := (list UACPINT_IRQ_WRITTEN).

Definition written_index (Owner : PVOID) (t : written) : option nat :=
  find_index (fun x => wr_Owner x =? Owner) t.

Definition UacpiNtConnectionDataChanged (Owner : PVOID) (Start Length : Z) (t : written) : bool :=
  match written_index Owner t with
  | Some Index =>
      let x := nth Index t (mkWritten NULL 0 0) in
      negb (wr_Start x =? Start) || negb (wr_Length x =? Length)
  | None => true
  end.

Definition UacpiNtConnectionDataRecord (Owner : PVOID) (Start Length : Z) (t : written) : written :=
  match written_index Owner t with
  | Some Index => <[Index := mkWritten Owner Start Length]> t
  | None => if (UACPINT_IRQ_WRITTEN_MAX <=? length t)%nat then t
            else t ++ [mkWritten Owner Start Length]
  end.

(** ** Commit *)

Section Commit.
Context `{R : RtlRangeList}.

(** What a commit changes besides the arbiter: the interrupt library, the record
    above, and the property of each device, the latest write last. *)
Record irq_books := mkIrqBooks {
  bk_Lib : irq_lib;
  bk_Written : written;
  bk_Property : list (PVOID * INTERRUPT_CONNECTION_DATA)
}.

(** [Granted]: the pool gives the buffer for the device's messages. *)
Context (hal : irq_hal) (Granted : PVOID -> bool) (UacpiNtIrqArbFdoSelf : PVOID).

(** The line or first message of a range, and how many. *)
Definition commit_placement (msi : msi_records) (r : RTL_RANGE) : Z * Z :=
  (u32 (rr_Start r),
   if rr_Start r <? UACPINT_MSI_GSIV_BASE then u32 (rr_End r - rr_Start r + 1)
   else let '(Status, Length) := UacpiNtMsiCountLookup (rr_Start r) msi in
        if negb (NT_SUCCESS Status) || (Length =? 0) then 1 else Length).

(** One turn of the loop. *)
Definition commit_range (msi : msi_records) (k : irq_books) (r : RTL_RANGE) : irq_books :=
  let Owner := rr_Owner r in
  let '(Start, Length) := commit_placement msi r in
  if (Owner =? NULL) || (Owner =? UacpiNtIrqArbFdoSelf) ||
     negb (UacpiNtConnectionDataChanged Owner Start Length (bk_Written k))
  then k
  else
    let '(WriteStatus, Data, b) :=
      UacpiNtIrqLibWriteConnectionData hal (Granted Owner) Owner Start Length (bk_Lib k) in
    mkIrqBooks b
      (if NT_SUCCESS WriteStatus
       then UacpiNtConnectionDataRecord Owner Start Length (bk_Written k) else bk_Written k)
      (match Data with Some D => bk_Property k ++ [(Owner, D)] | None => bk_Property k end).

Definition UacpiNtIrqCommitAllocation (arb : ARBITER_INSTANCE) (msi : msi_records) (k : irq_books)
  : NTSTATUS * ARBITER_INSTANCE * irq_books :=
  let '(Status, arb) := ArbiterLibCommitAllocation arb in
  if negb (NT_SUCCESS Status) then (Status, arb, k)
  else (Status, arb, fold_left (commit_range msi) (rtl_ranges (ar_Allocation arb)) k).
End Commit.

Definition UacpiNtIrqTestAllocation `{R : RtlRangeList} {I : RtlInvertRanges R} (env : device_env)
  (mmconfig : mmconfig_table) (Apic : bool) (route : PVOID -> option Z) (fuel wfuel : nat)
  (arb : ARBITER_INSTANCE) (ents : list ARBITER_LIST_ENTRY)
  (AllocateFrom : option (list CM_PARTIAL_RESOURCE_DESCRIPTOR)) (w : world) : option handled :=
  ArbiterLibTestAllocation (UacpiNtIrqCallbacks env mmconfig Apic route) fuel wfuel arb ents AllocateFrom w.

Definition UacpiNtIrqRollbackAllocation `{R : RtlRangeList} (arb : ARBITER_INSTANCE)
  : NTSTATUS * ARBITER_INSTANCE := ArbiterLibRollbackAllocation arb.

(** ** Bring-up *)

Section BringUp.
Context `{R : RtlRangeList}.

(** The file's variables that bring-up sets. *)
Record irq_arbiter := mkIrqArbiter {
  ia_Ready : bool;
  ia_Arbiter : instance;
  ia_FdoSelf : PVOID;
  ia_Policy : irq_policy
}.

(** The slots it fills; the library fills the rest. *)
Definition irq_slot_table (env : device_env) (mmconfig : mmconfig_table)
  (Apic : bool) (route : PVOID -> option Z) : slot_table :=
  let cbs := UacpiNtIrqCallbacks env mmconfig Apic route in
  mkSlots (UnpackRequirement cbs) (PackResource cbs) (UnpackResource cbs) (ScoreRequirement cbs)
    (Some (PreprocessEntry cbs)) (Some (GetNextAllocationRange cbs)) (Some (FindSuitableRange cbs))
    None None None.

(** [sci] is the sci_int of the FADT, [None] without one; [Model] is
    GlobalAcpiInterruptModel; [Value] the policy value of the registry. *)
Definition UacpiNtIrqArbiterInitialize (t : slot_table) (reg : registry)
  (REG_DWORD : Z) (Value : option (Z * Z * Z)) (sci : option Z) (Model : Z) (Self : PVOID)
  (s : irq_arbiter) (g : gsiv_flags) (w : world) : NTSTATUS * irq_arbiter * gsiv_flags * world :=
  if ia_Ready s then (STATUS_SUCCESS, s, g, w)
  else
    let p := UacpiNtIrqPolicyConfigure REG_DWORD Value (ia_Policy s) in
    let '(Status, i, w) :=
      ArbiterLibInitializeInstance t None reg "Root"
        (blank_instance CmResourceTypeInterrupt (Some UacpiNtIrqShareableRange)) w in
    if negb (NT_SUCCESS Status) then (Status, mkIrqArbiter false i Self p, g, w)
    else
      let arb := in_arb i in
      let SciGsiv := default 4294967295 sci in
      let '(arb, g, p) :=
        if negb (SciGsiv =? 4294967295) then
          (ar_set_Allocation
             (RtlAddRange (ar_Allocation arb) SciGsiv SciGsiv UACPINT_RANGE_LEVEL
                RTL_RANGE_LIST_ADD_SHARED NULL Self).2 arb,
           UacpiNtIrqLibNoteLevelGsiv SciGsiv g, mkPolicy SciGsiv (ip_PciExclusionMask p))
        else (arb, g, p) in
      let arb :=
        if Model =? 0 then
          ar_set_Allocation
            (RtlAddRange (ar_Allocation arb) UACPINT_ISA_GSIV_COUNT (UACPINT_MSI_GSIV_BASE - 1) 0 0
               NULL Self).2 arb
        else arb in
      (STATUS_SUCCESS,
       mkIrqArbiter true
         (mkInstance (in_MutexEvent i) (in_TransactionEvent i) (in_AllocationStack i)
            (in_Allocation i) (in_PossibleAllocation i) arb) Self p, g, w).

(** The request UacpiNtQueryIrqArbiter answers: [Standard] is whether the
    interface asked for is GUID_ARBITER_INTERFACE_STANDARD.  The Context of the
    interface is always the one interrupt arbiter. *)
Definition UacpiNtQueryIrqArbiter (Enabled : bool) (sizeof_ARBITER_INTERFACE : Z) (s : irq_arbiter)
  (Standard : bool) (InterfaceSpecificData Size : Z) : NTSTATUS * option (Z * Z * instance * Z) :=
  if negb Enabled || negb (ia_Ready s) then (STATUS_NOT_SUPPORTED, None)
  else if negb Standard then (STATUS_NOT_SUPPORTED, None)
  else if negb (InterfaceSpecificData =? CmResourceTypeInterrupt) then (STATUS_NOT_SUPPORTED, None)
  else if Size <? sizeof_ARBITER_INTERFACE then (STATUS_BUFFER_TOO_SMALL, None)
  else (STATUS_SUCCESS, Some (sizeof_ARBITER_INTERFACE, 1, ia_Arbiter s, 0)).
End BringUp.

(** ** The record *)

(** What the record says was last written for a device. *)
Definition recorded_for (Owner : PVOID) (t : written) : option (Z * Z) :=
  match written_index Owner t with
  | Some Index => option_map (fun x => (wr_Start x, wr_Length x)) (t !! Index)
  | None => None
  end.

Lemma changed_iff Owner Start Length t :
  UacpiNtConnectionDataChanged Owner Start Length t = false <->
  recorded_for Owner t = Some (Start, Length).
Proof.
  unfold UacpiNtConnectionDataChanged, recorded_for.
  destruct (written_index Owner t) as [i|] eqn:Ei; [|done].
  apply find_index_some in Ei as (y & Hy & _). rewrite (nth_lookup_Some _ _ _ y Hy), Hy. simpl.
  rewrite orb_false_iff, !negb_false_iff, !Z.eqb_eq. split; [by intros [-> ->]|by intros [= -> ->] ].
Qed.

Lemma record_lookup Owner Start Length t x :
  (is_Some (recorded_for Owner t) \/ (length t < UACPINT_IRQ_WRITTEN_MAX)%nat) ->
  recorded_for x (UacpiNtConnectionDataRecord Owner Start Length t) =
    if x =? Owner then Some (Start, Length) else recorded_for x t.
Proof.
  intros Hroom. unfold UacpiNtConnectionDataRecord, recorded_for in *.
  destruct (written_index Owner t) as [i|] eqn:Ei.
  - assert (Hs := Ei). apply find_index_some in Ei as (y & Hy & Hyo). bool_prop.
    apply lookup_lt_Some in Hy as Hlt.
    assert (Hfi : written_index x (<[i := mkWritten Owner Start Length]> t) = written_index x t).
    { apply (find_index_insert _ _ _ _ y Hy). simpl. by rewrite Hyo. }
    rewrite Hfi. destruct (x =? Owner) eqn:Ex; bool_prop.
    + subst x. rewrite Hs. by rewrite list_lookup_insert_eq.
    + destruct (written_index x t) as [j|] eqn:Ej; [|done].
      apply find_index_some in Ej as (z & Hz & Hzo). bool_prop.
      rewrite list_lookup_insert_ne; [done|]. intros ->. congruence.
  - assert ((length t < UACPINT_IRQ_WRITTEN_MAX)%nat) as Hlt by (destruct Hroom as [ [? ?]|?]; done).
    destruct (UACPINT_IRQ_WRITTEN_MAX <=? length t)%nat eqn:E; [apply Nat.leb_le in E; lia|].
    unfold written_index at 1. rewrite find_index_app. fold (written_index x t).
    destruct (x =? Owner) eqn:Ex; bool_prop.
    + subst x. rewrite Ei. simpl. rewrite Z.eqb_refl. simpl. rewrite Nat.add_0_r.
      by rewrite list_lookup_middle.
    + destruct (written_index x t) as [j|] eqn:Ej.
      * apply find_index_some in Ej as (z & Hz & _). by rewrite (lookup_app_l_Some _ _ _ _ Hz), Hz.
      * simpl. destruct (Owner =? x) eqn:E2; bool_prop; [congruence|done].
Qed.

Lemma record_length Owner Start Length t :
  (length (UacpiNtConnectionDataRecord Owner Start Length t) <= S (length t))%nat.
Proof.
  unfold UacpiNtConnectionDataRecord. destruct (written_index Owner t).
  - rewrite length_insert. lia.
  - destruct (_ <=? _)%nat; [lia|]. rewrite length_app. simpl. lia.
Qed.

(** ** A commit *)

Section CommitFacts.
Context `{R : RtlRangeList}.
Context (hal : irq_hal) (Granted : PVOID -> bool) (Self : PVOID) (msi : msi_records).
#[local] Abbreviation range_turn := (commit_range hal Granted Self msi).

(** The ranges of devices other than the arbiter's own. *)
Definition device_range (r : RTL_RANGE) : Prop := rr_Owner r <> NULL /\ rr_Owner r <> Self.
#[global] Instance device_range_dec r : Decision (device_range r) := ltac:(unfold device_range; apply _).

Definition last_written (d : PVOID) (k : irq_books) : option (Z * Z) := recorded_for d (bk_Written k).

(** The write of a range's connection data when the books are [k]. *)
Definition write_at (k : irq_books) (r : RTL_RANGE) :=
  UacpiNtIrqLibWriteConnectionData hal (Granted (rr_Owner r)) (rr_Owner r)
    (commit_placement msi r).1 (commit_placement msi r).2 (bk_Lib k).

(** What a commit from the books [k] to [k'] has done about [r], whose turn came with
    the books [kt]: an up to date record stays; otherwise the data is written, the
    record says so when that succeeded and is left alone when not, and what was
    written is the device's property. *)
Definition turn_outcome (k kt k' : irq_books) (r : RTL_RANGE) : Prop :=
  let Fresh := Some (commit_placement msi r) in
  if decide (last_written (rr_Owner r) k = Fresh) then last_written (rr_Owner r) k' = Fresh
  else
    last_written (rr_Owner r) k' = (if NT_SUCCESS (write_at kt r).1.1 then Fresh else last_written (rr_Owner r) k) /\
    forall D, (write_at kt r).1.2 = Some D -> (rr_Owner r, D) ∈ bk_Property k'.

Lemma range_turn_skips k r :
  ~ device_range r \/ last_written (rr_Owner r) k = Some (commit_placement msi r) -> range_turn k r = k.
Proof.
  intros H. unfold commit_range. destruct (commit_placement msi r) as [Start Length].
  destruct (_ || _ || _) eqn:E; [done|]. rewrite !orb_false_iff in E. destruct E as [ [E1 E2] E3].
  bool_prop. destruct H as [H|H]; [by destruct H|].
  apply changed_iff in H. by rewrite H in E3.
Qed.

Lemma range_turn_ok k r :
  (length (bk_Written k) < UACPINT_IRQ_WRITTEN_MAX)%nat -> device_range r ->
  (length (bk_Written (range_turn k r)) <= S (length (bk_Written k)))%nat /\
  turn_outcome k k (range_turn k r) r /\
  forall d, d <> rr_Owner r -> last_written d (range_turn k r) = last_written d k.
Proof.
  intros Hroom [Hn Hs]. unfold turn_outcome.
  destruct (decide (last_written (rr_Owner r) k = Some (commit_placement msi r))) as [Hl|Hl].
  { rewrite range_turn_skips by (by right). split_and!; [lia|done|done]. }
  unfold commit_range, write_at, last_written in *.
  destruct (commit_placement msi r) as [Start Length]. rewrite <- changed_iff in Hl.
  apply not_false_is_true in Hl. rewrite Hl.
  destruct (rr_Owner r =? NULL) eqn:E1; [by bool_prop|].
  destruct (rr_Owner r =? Self) eqn:E2; [by bool_prop|]. simpl.
  destruct (UacpiNtIrqLibWriteConnectionData _ _ _ _ _ _) as [ [s D] b] eqn:Ew. simpl.
  assert (forall D', D = Some D' -> (rr_Owner r, D') ∈ match D with Some D => bk_Property k ++ [(rr_Owner r, D)] | None => bk_Property k end) as HD.
  { intros D' ->. apply elem_of_app. right. by left. }
  destruct (NT_SUCCESS s) eqn:Es.
  - split; [apply record_length|]. split; [split; [|done]|intros d Hd]; rewrite record_lookup by (by right).
    + by rewrite Z.eqb_refl.
    + apply Z.eqb_neq in Hd. by rewrite Hd.
  - split_and!; [lia|done|done|done].
Qed.

Lemma range_turn_property k r : bk_Property k `prefix_of` bk_Property (range_turn k r).
Proof.
  unfold commit_range. destruct (commit_placement msi r). destruct (_ || _ || _); [done|].
  destruct (UacpiNtIrqLibWriteConnectionData _ _ _ _ _ _) as [ [s [D|] ] b]; [by eexists|done].
Qed.

Lemma turns_property rs k : bk_Property k `prefix_of` bk_Property (fold_left range_turn rs k).
Proof.
  revert k. induction rs as [|r rs IH]; intros k; simpl; [done|]. etrans; [apply range_turn_property|apply IH].
Qed.

(** Turns of other devices do not change an outcome. *)
Lemma turn_outcome_later k k1 kt k' k'' r :
  last_written (rr_Owner r) k1 = last_written (rr_Owner r) k -> last_written (rr_Owner r) k'' = last_written (rr_Owner r) k' ->
  bk_Property k' `prefix_of` bk_Property k'' -> turn_outcome k1 kt k' r -> turn_outcome k kt k'' r.
Proof.
  intros H1 H2 Hp. unfold turn_outcome. rewrite H1, H2. case_decide; [done|]. intros [-> H4]. split; [done|].
  intros D HD. eapply elem_of_prefix; [by apply H4|done].
Qed.

Lemma commit_turns rs k :
  NoDup (map rr_Owner (filter device_range rs)) ->
  (length (bk_Written k) + length (filter device_range rs) <= UACPINT_IRQ_WRITTEN_MAX)%nat ->
  let k' := fold_left range_turn rs k in
  (forall i r, rs !! i = Some r -> device_range r -> turn_outcome k (fold_left range_turn (take i rs) k) k' r) /\
  forall d, d ∉ map rr_Owner (filter device_range rs) -> last_written d k' = last_written d k.
Proof.
  revert k. induction rs as [|r rs IH]; simpl; intros k Hnd Hlen; [done|].
  destruct (decide (device_range r)) as [Hr|Hr].
  2:{ rewrite filter_cons_False in * by done. rewrite range_turn_skips by (by left).
      destruct (IH k Hnd Hlen) as [IH1 IH2]. split; [|done]. intros [|i] r' Hi Hr'; simplify_eq/=; [done|].
      rewrite range_turn_skips by (by left). by apply IH1. }
  rewrite filter_cons_True in * by done. simpl in *. apply NoDup_cons in Hnd as [Hni Hnd].
  destruct (range_turn_ok k r) as (Hl & Ho & Hd); [lia|done|].
  destruct (IH (range_turn k r) Hnd ltac:(lia)) as [IH1 IH2]. split.
  - intros [|i] r' Hi Hr'; simplify_eq/=.
    + eapply turn_outcome_later; [reflexivity|by apply IH2|apply turns_property|exact Ho].
    + assert (rr_Owner r' <> rr_Owner r) as Hne.
      { intros E. apply Hni. rewrite <- E. apply list_elem_of_fmap_2, list_elem_of_filter. split; [done|].
        by eapply list_elem_of_lookup_2. }
      eapply turn_outcome_later; [by apply Hd|reflexivity|done|by apply IH1].
  - intros d [Hne Hnin]%not_elem_of_cons. rewrite IH2 by done. by apply Hd.
Qed.

Lemma commit_turns_idle rs k :
  (forall r, r ∈ filter device_range rs -> last_written (rr_Owner r) k = Some (commit_placement msi r)) ->
  fold_left range_turn rs k = k.
Proof.
  intros H. induction rs as [|r rs IH]; simpl; [done|]. rewrite range_turn_skips.
  - apply IH. intros r' Hr'. apply H. apply list_elem_of_filter in Hr' as [? ?].
    apply list_elem_of_filter. split; [done|]. by right.
  - destruct (decide (device_range r)); [right|by left]. apply H, list_elem_of_filter. split; [done|by left].
Qed.

(** C7.  A commit makes the tentative ranges the committed ones and then, when no
    device has two of them and the record has room, brings the record up to date.
    The record of a device that holds the placement of its range already stays;
    otherwise the placement is recorded exactly when the write of its connection data,
    from the library as it is when its turn comes, succeeds, and the data of every
    write is put on the device.  The record of any other device is unchanged.  When
    all are up to date a further commit of the same ranges touches neither the
    interrupt library nor the record nor a device's property. *)
Theorem irq_commit_up_to_date arb k s arb' k' :
  UacpiNtIrqCommitAllocation hal Granted Self arb msi k = (s, arb', k') ->
  let all := rtl_ranges (ar_PossibleAllocation arb) in
  let rs := filter device_range all in
  NoDup (map rr_Owner rs) ->
  (length (bk_Written k) + length rs <= UACPINT_IRQ_WRITTEN_MAX)%nat ->
  s = STATUS_SUCCESS /\ ar_Allocation arb' = ar_PossibleAllocation arb /\
  (forall i r, all !! i = Some r -> device_range r ->
     turn_outcome k (fold_left range_turn (take i all) k) k' r) /\
  (forall d, d ∉ map rr_Owner rs -> last_written d k' = last_written d k) /\
  ((forall r, r ∈ rs -> last_written (rr_Owner r) k' = Some (commit_placement msi r)) ->
   UacpiNtIrqCommitAllocation hal Granted Self (ar_set_PossibleAllocation (ar_Allocation arb') arb') msi k' =
     (STATUS_SUCCESS, arb', k')).
Proof.
  unfold UacpiNtIrqCommitAllocation, ArbiterLibCommitAllocation. simpl.
  intros [= <- <- <-] Hnd Hlen.
  destruct (commit_turns _ k Hnd Hlen) as [H1 H2]. split_and!; try done.
  intros Hall. rewrite commit_turns_idle by done. done.
Qed.
End CommitFacts.

(** ** Bring-up *)

Section BringUpFacts.
Context `{R : RtlRangeList} {L : RtlRangeListLaws R} {X : RtlExclusiveRanges R}.
Context (env : device_env) (mmconfig : mmconfig_table) (Apic : bool) (route : PVOID -> option Z).
#[local] Abbreviation table := (irq_slot_table env mmconfig Apic route).

(** The slots of the instance are the ones the search runs with. *)
Lemma irq_slots_filled : fill_slots env mmconfig table = UacpiNtIrqCallbacks env mmconfig Apic route.
Proof using. reflexivity. Qed.

Lemma irq_unpack_u64 d st mn mx len al :
  sl_UnpackRequirement table d = (st, (mn, mx, len, al)) -> NT_SUCCESS st = true -> is_u64 mn /\ is_u64 mx.
Proof using.
  intros E _. change (UacpiNtIrqUnpackRequirement Apic d = (st, (mn, mx, len, al))) in E.
  pose proof (u32_range (ii_MinimumVector (io_Interrupt d))) as Hmn.
  pose proof (u32_range (ii_MaximumVector (io_Interrupt d))) as Hmx.
  unfold UacpiNtIrqUnpackRequirement, UACPINT_MSI_GSIV_BASE, UACPINT_MSI_GSIV_LAST in E.
  unfold is_u64, ULONGLONG_MAX. repeat case_match; simplify_eq; lia.
Qed.

(** Initialization leaves the conflict callback in place. *)
Lemma delete_keeps_callback i w :
  ar_ConflictCallback (in_arb (ArbiterLibDeleteInstance i w).1) = ar_ConflictCallback (in_arb i).
Proof using. unfold ArbiterLibDeleteInstance. by destruct (in_AllocationStack i). Qed.

Lemma alloc_or_fail_callback cb size set i w k :
  ar_ConflictCallback (in_arb i) = cb -> (forall w', ar_ConflictCallback (in_arb (k (set i) w').1.2) = cb) ->
  ar_ConflictCallback (in_arb (alloc_or_fail size set i w k).1.2) = cb.
Proof using.
  intros Hi Hk. unfold alloc_or_fail. destruct (ExAllocatePoolWithTag size w) as [ [] w']; [apply Hk|].
  pose proof (delete_keeps_callback i w') as Hd. destruct (ArbiterLibDeleteInstance i w'). simpl in *.
  by rewrite Hd.
Qed.

Lemma initialize_callback reg name rt cb w s i w' :
  ArbiterLibInitializeInstance table None reg name (blank_instance rt cb) w = (s, i, w') ->
  ar_ConflictCallback (in_arb i) = cb.
Proof using.
  intros E. change (ar_ConflictCallback (in_arb (s, i, w').1.2) = cb). rewrite <- E. clear E s i w'.
  unfold ArbiterLibInitializeInstance.
  repeat (apply alloc_or_fail_callback; [done|clear w; intros w]).
  destruct (ArbiterLibDefaultAssignmentOrdering _ _ _ _ _ _ _) as [ [st arb] w1] eqn:E.
  apply (assignment_ordering_balanced table None reg name irq_unpack_u64) in E
    as [ [_ (ol & rl & ->)] _]; [|done|done].
  destruct (NT_SUCCESS st); [done|]. cbn [negb].
  match goal with |- context [ArbiterLibDeleteInstance ?i ?w1] =>
    pose proof (delete_keeps_callback i w1) as Hd; destruct (ArbiterLibDeleteInstance i w1) end.
  exact Hd.
Qed.

(** What bring-up puts into the books: the SCI, and under the PIC everything
    between the last line and the messages. *)
Definition irq_reserved (sci : option Z) (Model : Z) (Self : PVOID) : list range_core :=
  (if Model =? 0
   then [(UACPINT_ISA_GSIV_COUNT, UACPINT_MSI_GSIV_BASE - 1, Self, 0, false)] else []) ++
  match sci with Some g => [(g, g, Self, UACPINT_RANGE_LEVEL, true)] | None => [] end.

(** Adding a range where nothing is in the way. *)
Lemma add_clear l a b attrs flags ud owner :
  a <= b -> rl_clear l a b ->
  rl_cores (RtlAddRange l a b attrs flags ud owner).2 ≡ₚ
    ((a, b, owner), attrs, has_flag flags RTL_RANGE_LIST_ADD_SHARED) :: rl_cores l.
Proof using X.
  intros Hle Hc. pose proof (rl_add_exclusive_succeeds l a b attrs flags ud owner Hle Hc) as Hs.
  destruct (RtlAddRange l a b attrs flags ud owner) as [s l'] eqn:E. simpl in *.
  pose proof (rl_add_exclusive _ _ _ _ _ _ _ _ _ E) as H. by rewrite Hs in H.
Qed.

(** The two reservations on an empty list. *)
Lemma irq_reserved_added l sci Model Self :
  rl_keys l = [] -> (forall g, sci = Some g -> 0 <= g < 65536) ->
  (Model = 0 -> forall g, sci = Some g -> g < UACPINT_ISA_GSIV_COUNT) ->
  let l1 := match sci with
            | Some g => (RtlAddRange l g g UACPINT_RANGE_LEVEL RTL_RANGE_LIST_ADD_SHARED NULL Self).2
            | None => l end in
  let l2 := if Model =? 0
            then (RtlAddRange l1 UACPINT_ISA_GSIV_COUNT (UACPINT_MSI_GSIV_BASE - 1) 0 0 NULL Self).2
            else l1 in
  rl_cores l2 ≡ₚ irq_reserved sci Model Self.
Proof using X.
  intros Hl Hsci Hpic l1 l2. unfold irq_reserved.
  assert (Hc : rl_cores l = []) by (rewrite rl_keys_cores in Hl; by apply map_eq_nil in Hl).
  assert (H1 : rl_cores l1 ≡ₚ match sci with Some g => [(g, g, Self, UACPINT_RANGE_LEVEL, true)] | None => [] end).
  { unfold l1. destruct sci as [g|]; [|by rewrite Hc]. rewrite add_clear, Hc; [done|lia|].
    unfold rl_clear. rewrite Hl. constructor. }
  unfold l2. destruct (Model =? 0) eqn:Em; [|done]. bool_prop.
  rewrite add_clear, H1; [done|unfold UACPINT_ISA_GSIV_COUNT, UACPINT_MSI_GSIV_BASE; lia|].
  unfold rl_clear. rewrite rl_keys_cores, H1. destruct sci as [g|]; [|constructor].
  constructor; [|constructor]. specialize (Hpic Em g eq_refl). unfold overlaps, key_Start, key_End.
  simpl. apply andb_false_iff. left. apply Z.leb_gt. unfold UACPINT_ISA_GSIV_COUNT in *. lia.
Qed.

(** C10.  The first bring-up either fails, gives back every block it took and
    leaves the arbiter not ready, or leaves a ready one that the search can run
    on: its policy is well formed, it lets only shared level lines be joined, and
    exactly the SCI (shared, level) and, under the PIC, everything between the
    last ISA line and the messages are taken.  The SCI is noted as level and kept
    from the links; under the PIC it is one of the ISA lines.  A second bring-up
    changes nothing. *)
Theorem irq_bring_up_correct reg REG_DWORD Value sci Model Self s g w st s' g' w' wfuel :
  ia_Ready s = false -> (forall n, sci = Some n -> 0 <= n < 65536) ->
  (Model = 0 -> forall n, sci = Some n -> n < UACPINT_ISA_GSIV_COUNT) -> (11 < wfuel)%nat ->
  UacpiNtIrqArbiterInitialize table reg REG_DWORD Value sci Model Self s g w = (st, s', g', w') ->
  (if NT_SUCCESS st
   then ia_Ready s' = true /\ irq_instance wfuel (in_arb (ia_Arbiter s')) /\
        rl_cores (ar_Allocation (in_arb (ia_Arbiter s'))) ≡ₚ irq_reserved sci Model Self /\
        (forall n, sci = Some n ->
           ip_SciGsiv (ia_Policy s') = n /\ g' = UacpiNtIrqLibNoteLevelGsiv n g) /\
        UacpiNtIrqArbiterInitialize table reg REG_DWORD Value sci Model Self s' g' w' =
          (STATUS_SUCCESS, s', g', w')
   else ia_Ready s' = false /\ w_live w' = w_live w /\ g' = g).
Proof using L X.
  intros Hr Hsci Hpic Hw. unfold UacpiNtIrqArbiterInitialize. rewrite Hr.
  destruct (ArbiterLibInitializeInstance _ _ _ _ _ _) as [ [st0 i] w0] eqn:E.
  pose proof (initialize_callback _ _ _ _ _ _ _ _ E) as Hcb.
  pose proof (initialize_instance_outcome table None reg "Root" irq_unpack_u64 _ _ _ _ E) as Ho.
  unfold init_outcome in Ho. simpl in Ho. destruct (NT_SUCCESS st0) eqn:Es; simpl.
  2:{ intros [= <- <- <- <-]. rewrite Es. destruct Ho. by split_and!. }
  destruct Ho as [(_ & _ & _ & _ & _ & [Hol _] & _ & _ & _ & _ & Hk & _) _].
  pose proof (irq_reserved_added (ar_Allocation (in_arb i)) sci Model Self Hk Hsci Hpic) as Hres.
  assert (Hs : forall n, sci = Some n -> (default 4294967295 sci =? 4294967295) = false).
  { intros n ->. specialize (Hsci n eq_refl). simpl. apply Z.eqb_neq. lia. }
  destruct sci as [n|]; simpl in *; [rewrite (Hs n eq_refl)|]; simpl;
    destruct (Model =? 0); intros [= <- <- <- <-]; simpl; split_and!; try done; by intros n' [= <-].
Qed.
End BringUpFacts.

(** ** Witnesses *)

#[local] Existing Instance ref_range_list.
#[local] Existing Instance ref_range_list_laws.
#[local] Existing Instance ref_exclusive_ranges.

(** Device 7 on line 4, device 8 on line 5, and the arbiter's own range. *)
Definition placed_arbiter : ARBITER_INSTANCE :=
  ar_set_PossibleAllocation
    [mkRange 4 4 0 7 UACPINT_RANGE_LATCHED 0; mkRange 9 9 0 1 UACPINT_RANGE_LEVEL RTL_RANGE_SHARED;
     mkRange 5 5 0 8 UACPINT_RANGE_LATCHED 0] edge_arbiter.
Definition fresh_books : irq_books := mkIrqBooks boot_lib [] [].
#[local] Abbreviation commit_run arb :=
  (UacpiNtIrqCommitAllocation hal_example (fun _ => true) 1 arb [] fresh_books).

Lemma irq_commit_up_to_date_witness :
  (commit_run placed_arbiter).1.1 = STATUS_SUCCESS /\
  last_written 7 (commit_run placed_arbiter).2 = Some (4, 1) /\
  last_written 8 (commit_run placed_arbiter).2 = Some (5, 1).
Proof.
  destruct (commit_run placed_arbiter) as [ [s arb'] k'] eqn:E.
  destruct (irq_commit_up_to_date hal_example (fun _ => true) 1 [] placed_arbiter fresh_books s arb' k' E
           ltac:(apply (bool_decide_unpack _); vm_compute; done) ltac:(vm_compute; lia)) as (Hs & _ & H & _).
  split; [exact Hs|]. split.
  - pose proof (H 0%nat _ eq_refl ltac:(by split)) as Ht. vm_compute in Ht. apply Ht.
  - pose proof (H 2%nat _ eq_refl ltac:(by split)) as Ht. vm_compute in Ht. apply Ht.
Defined.

(** Before the first bring-up, under the PIC with the SCI on line 9. *)
Definition cold_arbiter : irq_arbiter := mkIrqArbiter false (blank_instance 0 None) NULL (mkPolicy 0 0).
#[local] Abbreviation bring_up :=
  (UacpiNtIrqArbiterInitialize (irq_slot_table quiet_env [] false (fun _ => None)) sample_registry 4 None
     (Some 9) 0 1 cold_arbiter no_flags sample_world).

Lemma irq_bring_up_correct_witness :
  bring_up.1.1.1 = STATUS_SUCCESS /\ ia_Ready bring_up.1.1.2 = true /\
  rl_cores (ar_Allocation (in_arb (ia_Arbiter bring_up.1.1.2))) ≡ₚ irq_reserved (Some 9) 0 1.
Proof.
  assert (Hs : bring_up.1.1.1 = STATUS_SUCCESS) by (vm_compute; reflexivity).
  split; [exact Hs|]. destruct bring_up as [ [ [st s'] g'] w'] eqn:E. simpl in Hs |- *.
  pose proof (irq_bring_up_correct quiet_env [] false (fun _ => None) sample_registry 4 None (Some 9) 0 1
    cold_arbiter no_flags sample_world st s' g' w' 12%nat eq_refl) as H.
  rewrite Hs in H. destruct H as (H1 & _ & H2 & _).
  - intros n [= <-]. lia.
  - intros _ n [= <-]. reflexivity.
  - lia.
  - rewrite <- Hs. exact E.
  - split; [exact H1|exact H2].
Defined.

(** ** A behaviour the record should not have *)

(** The record holds one placement per device.  A device with two lines matches
    neither of them twice in a row, so every commit writes both again, and since
    each write replaces the device's property, only the second line is ever left
    in it. *)
Theorem two_lines_rewritten_every_commit :
  let arb := ar_set_PossibleAllocation
    [mkRange 4 4 0 7 UACPINT_RANGE_LATCHED 0; mkRange 5 5 0 7 UACPINT_RANGE_LATCHED 0] edge_arbiter in
  let inputs k := map (fun p => (p.1, map vd_Type (cd_Vectors p.2))) (bk_Property k) in
  let k1 := (UacpiNtIrqCommitAllocation hal_example (fun _ => true) 1 arb [] fresh_books).2 in
  let k2 := (UacpiNtIrqCommitAllocation hal_example (fun _ => true) 1 arb [] k1).2 in
  inputs k1 = [(7, [ControllerInput 4]); (7, [ControllerInput 5])] /\
  inputs k2 = inputs k1 ++ inputs k1.
Proof. split; vm_compute; reflexivity. Qed.
