(* ===== verification/AcpiEnv.v ===== *)
(** The uACPI interpreter and the events block, as the power code calls them.

    The interpreter is a library: what a call answers is a parameter, a function
    of the calls made before it, so that methods may keep state.  The calls that
    change something outside the driver are recorded, newest first. *)
From stdpp Require Import base list numbers option strings.
From Stdlib Require Import ZArith Lia.
From S2P Require Import Prelude.

Abbreviation acpi_node := PVOID.

(** ** Statuses and objects *)

Definition uacpi_status := Z.
Definition UACPI_STATUS_OK : uacpi_status := 0.
Definition UACPI_STATUS_NOT_FOUND : uacpi_status := 6.
Definition uacpi_likely_success (s : uacpi_status) : bool := s =? UACPI_STATUS_OK.
Definition uacpi_unlikely_error (s : uacpi_status) : bool := negb (uacpi_likely_success s).

(** [path] tells a name of the namespace, kept unresolved, from a plain string. *)
Inductive uacpi_object :=
| UACPI_OBJECT_INTEGER (v : Z)
| UACPI_OBJECT_STRING (path : bool) (text : string)
| UACPI_OBJECT_BUFFER (bytes : list Z)
| UACPI_OBJECT_PACKAGE (objects : list uacpi_object)
| UACPI_OBJECT_POWER_RESOURCE (system_level resource_order : Z)
| UACPI_OBJECT_OTHER (type : Z).

(** Induction that reaches the elements of a package. *)
Lemma uacpi_object_nested (P : uacpi_object -> Prop) :
  (forall v, P (UACPI_OBJECT_INTEGER v)) ->
  (forall path text, P (UACPI_OBJECT_STRING path text)) ->
  (forall bytes, P (UACPI_OBJECT_BUFFER bytes)) ->
  (forall l, Forall P l -> P (UACPI_OBJECT_PACKAGE l)) ->
  (forall a b, P (UACPI_OBJECT_POWER_RESOURCE a b)) ->
  (forall t, P (UACPI_OBJECT_OTHER t)) ->
  forall o, P o.
Proof.
  intros Hi Hs Hb Hp Hr Ho. fix IH 1. intros [v|path text|bytes|l|a b|t]; [apply Hi|apply Hs|apply Hb| |apply Hr|apply Ho].
  apply Hp. induction l as [|o l IHl]; constructor; [apply IH|apply IHl].
Qed.

Definition uacpi_object_get_integer (o : uacpi_object) : option Z :=
  match o with UACPI_OBJECT_INTEGER v => Some (u64 v) | _ => None end.
Definition uacpi_object_get_buffer (o : uacpi_object) : option (list Z) :=
  match o with UACPI_OBJECT_BUFFER bytes => Some bytes | _ => None end.
Definition uacpi_object_get_package (o : uacpi_object) : option (list uacpi_object) :=
  match o with UACPI_OBJECT_PACKAGE l => Some l | _ => None end.
Definition uacpi_object_get_power_resource_info (o : uacpi_object) : option (Z * Z) :=
  match o with UACPI_OBJECT_POWER_RESOURCE l r => Some (l, r) | _ => None end.

(** ** Calls *)

Inductive acpi_call :=
| CallEval (n : acpi_node) (path : string) (args : list uacpi_object)
| CallSetupGpeForWake (device : acpi_node) (line : Z) (wake : acpi_node)
| CallClearGpe (device : acpi_node) (line : Z)
| CallEnableGpeForWake (device : acpi_node) (line : Z)
| CallDisableGpeForWake (device : acpi_node) (line : Z)
| CallEnableGpe (device : acpi_node) (line : Z)
| CallDisableGpe (device : acpi_node) (line : Z)
| CallPrepareForSleep (state : Z)
| CallWakeFromSleep (state : Z)
| CallDisableAllGpes
| CallEnableAllWakeGpes
| CallClearWakeStatus
| CallClearAllEvents.

(** What the library answers after the calls [h]: an evaluation, a call on an
    event, whether the [k]-th object asked for is created, the child of a node, a
    path looked up from a scope, the nodes of type PowerResource in the order of
    the namespace walk, the root.  An evaluation with an empty path evaluates the
    node itself. *)
Class Acpi := {
  answer_eval : list acpi_call -> acpi_node -> string -> list uacpi_object
                -> uacpi_status * option uacpi_object;
  answer_event : list acpi_call -> acpi_call -> uacpi_status;
  answer_create : list acpi_call -> nat -> bool;
  answer_find : list acpi_call -> acpi_node -> string -> option acpi_node;
  answer_resolve : list acpi_call -> acpi_node -> string -> option acpi_node;
  power_resource_nodes : list acpi_node;
  uacpi_namespace_root : acpi_node
}.

(** ** The calls the driver makes *)

Section Calls.
Context {A : Acpi}.

Definition uacpi_eval (n : acpi_node) (path : string) (args : list uacpi_object)
  (h : list acpi_call) : uacpi_status * option uacpi_object * list acpi_call :=
  (answer_eval h n path args, CallEval n path args :: h).

(** The integer, if the method succeeds and gives one. *)
Definition uacpi_eval_simple_integer (n : acpi_node) (path : string) (h : list acpi_call)
  : option Z * list acpi_call :=
  let '(st, o, h) := uacpi_eval n path [] h in
  (if uacpi_likely_success st then o ≫= uacpi_object_get_integer else None, h).

(** The flags a missing _STA stands for are all set; a failure gives none. *)
Definition uacpi_eval_sta (n : acpi_node) (h : list acpi_call) : Z * list acpi_call :=
  let '(st, o, h) := uacpi_eval n "_STA" [] h in
  (if uacpi_likely_success st then u32 (default 0 (o ≫= uacpi_object_get_integer))
   else if st =? UACPI_STATUS_NOT_FOUND then 4294967295 else 0, h).

(** The child is there and its pointer is not NULL. *)
Definition UacpiNtNodeHasChild (h : list acpi_call) (Node : acpi_node) (Name : string) : bool :=
  if Node =? NULL then false
  else match answer_find h Node Name with Some Child => negb (Child =? NULL) | None => false end.

Definition uacpi_event (c : acpi_call) (h : list acpi_call) : uacpi_status * list acpi_call :=
  (answer_event h c, c :: h).
End Calls.

(** ** A scripted interpreter

    Every method gives a fixed object; what is not in the table is not there.
    Calls on events succeed.  The witnesses run on it. *)
Definition acpi_script := list (acpi_node * string * uacpi_object).

Fixpoint scripted (methods : acpi_script) (n : acpi_node) (path : string) : option uacpi_object :=
  match methods with
  | [] => None
  | (n', path', o) :: methods =>
      if (n' =? n) && String.eqb path' path then Some o else scripted methods n path
  end.

Definition scripted_acpi (methods : acpi_script) (paths : list (string * acpi_node))
  (resources : list acpi_node) : Acpi := {|
  answer_eval _ n path _ :=
    match scripted methods n path with
    | Some o => (UACPI_STATUS_OK, Some o)
    | None => (UACPI_STATUS_NOT_FOUND, None)
    end;
  answer_event _ _ := UACPI_STATUS_OK;
  answer_create _ _ := true;
  answer_find _ n path := option_map (fun _ => n + 1000) (scripted methods n path);
  answer_resolve _ _ text := snd <$> List.find (fun p => String.eqb p.1 text) paths;
  power_resource_nodes := resources;
  uacpi_namespace_root := 1
|}.
