(* ===== verification/PowerRes.v ===== *)
(** sys/powerres.c: power resources, counted by the devices that hold them on.
    A pointer to a resource is its position in the list, which is built once;
    the mutex makes each loop over resources one step. *)
From stdpp Require Import base list numbers option strings relations sorting.
From Stdlib Require Import ZArith Lia Permutation.
From S2P Require Import Prelude NtEnv AcpiEnv.

Definition PowerDeviceUnspecified : Z := 0.
Definition PowerDeviceD0 : Z := 1.
Definition PowerDeviceD1 : Z := 2.
Definition PowerDeviceD2 : Z := 3.
Definition PowerDeviceD3 : Z := 4.
Definition UACPINT_MAX_POWER_RESOURCES : nat := 8.

Record UACPINT_POWER_RESOURCE := mkPowerResource {
  pr_Node : acpi_node;
  pr_PowerOnOrder : Z;
  pr_SleepLevel : Z;
  pr_RefCount : Z;
  pr_On : bool
}.

Definition pr_set_RefCount (n : Z) (r : UACPINT_POWER_RESOURCE) : UACPINT_POWER_RESOURCE :=
  mkPowerResource (pr_Node r) (pr_PowerOnOrder r) (pr_SleepLevel r) n (pr_On r).
Definition pr_set_On (b : bool) (r : UACPINT_POWER_RESOURCE) : UACPINT_POWER_RESOURCE :=
  mkPowerResource (pr_Node r) (pr_PowerOnOrder r) (pr_SleepLevel r) (pr_RefCount r) b.

(** [PowerResourcesReady], [PowerResourceList] and the calls made so far. *)
Record power_state := mkPower {
  pw_Ready : bool;
  pw_List : list UACPINT_POWER_RESOURCE;
  pw_Calls : list acpi_call
}.

Definition pw_set_Calls (h : list acpi_call) (s : power_state) : power_state :=
  mkPower (pw_Ready s) (pw_List s) h.
Definition pw_set (r : nat) (R : UACPINT_POWER_RESOURCE) (s : power_state) : power_state :=
  mkPower (pw_Ready s) (<[r := R]> (pw_List s)) (pw_Calls s).

(** The fields of UACPINT_PDO that tell which resources the device holds. *)
Record pdo_power := mkPdoPower {
  pp_Node : acpi_node;
  pp_HeldResources : list nat;
  pp_CurrentDState : Z;
  pp_DStateKnown : bool
}.

Definition pp_set_Held (l : list nat) (p : pdo_power) : pdo_power :=
  mkPdoPower (pp_Node p) l (pp_CurrentDState p) (pp_DStateKnown p).

Section PowerResources.
Context {A : Acpi}.

(** ** Bring-up *)

Definition sizeof_UACPINT_POWER_RESOURCE : Z := 40.

Definition UacpiNtPowerResCollect (Node : acpi_node) (s : power_state) (w : world)
  : power_state * world :=
  let '(st, Object, h) := uacpi_eval Node "" [] (pw_Calls s) in
  let s := pw_set_Calls h s in
  match Object with
  | Some (UACPI_OBJECT_POWER_RESOURCE _ _ as Object) =>
      if uacpi_unlikely_error st then (s, w)
      else
        let '(ok, w) := ExAllocatePoolWithTag sizeof_UACPINT_POWER_RESOURCE w in
        if negb ok then (s, w)
        else
          let '(Level, Order) := default (0, 0) (uacpi_object_get_power_resource_info Object) in
          let '(Sta, h) := uacpi_eval_simple_integer Node "_STA" (pw_Calls s) in
          let On := match Sta with Some v => negb (v =? 0) | None => false end in
          (mkPower (pw_Ready s) (pw_List s ++ [mkPowerResource Node Order Level 0 On]) h, w)
  | _ => (s, w)
  end.

Definition UacpiNtPowerResInit (s : power_state) (w : world) : power_state * world :=
  if pw_Ready s then (s, w)
  else
    let '(s, w) := foldl (fun sw Node => UacpiNtPowerResCollect Node sw.1 sw.2)
                     (mkPower false [] (pw_Calls s), w) power_resource_nodes in
    (mkPower true (pw_List s) (pw_Calls s), w).

(** ** Looking up *)

Definition UacpiNtPowerResFind (Node : acpi_node) (t : list UACPINT_POWER_RESOURCE) : option nat :=
  find_index (fun r => pr_Node r =? Node) t.

Definition UacpiNtPowerResInList (Resource : nat) (List : list nat) : bool :=
  existsb (Nat.eqb Resource) List.

(** ** References *)

Definition UacpiNtPowerResReference (Resource : nat) (s : power_state) : power_state :=
  match pw_List s !! Resource with
  | None => s
  | Some R =>
      let R := pr_set_RefCount (s32 (pr_RefCount R + 1)) R in
      if negb (pr_RefCount R =? 1) || pr_On R then pw_set Resource R s
      else
        let '(st, _, h) := uacpi_eval (pr_Node R) "_ON" [] (pw_Calls s) in
        pw_set_Calls h (pw_set Resource (if uacpi_likely_success st then pr_set_On true R else R) s)
  end.

Definition UacpiNtPowerResDereference (Resource : nat) (s : power_state) : power_state :=
  match pw_List s !! Resource with
  | None => s
  | Some R =>
      let R := if 0 <? pr_RefCount R then pr_set_RefCount (s32 (pr_RefCount R - 1)) R else R in
      if negb (pr_RefCount R =? 0) || negb (pr_On R) then pw_set Resource R s
      else
        let '(st, _, h) := uacpi_eval (pr_Node R) "_OFF" [] (pw_Calls s) in
        pw_set_Calls h (pw_set Resource (if uacpi_likely_success st then pr_set_On false R else R) s)
  end.

(** ** Lists of a package *)

(** The node an element names, looked up from the device. *)
Definition element_target (h : list acpi_call) (Scope : acpi_node) (o : uacpi_object)
  : option acpi_node :=
  match o with
  | UACPI_OBJECT_STRING _ Text => answer_resolve h Scope Text
  | _ => None
  end.

Definition element_resource (s : power_state) (Scope : acpi_node) (o : uacpi_object) : option nat :=
  element_target (pw_Calls s) Scope o ≫= fun Target => UacpiNtPowerResFind Target (pw_List s).

Fixpoint resolve_elements (s : power_state) (Scope : acpi_node) (Objects : list uacpi_object)
  (MaxCount : nat) (List : list nat) : list nat :=
  match Objects with
  | [] => List
  | o :: Objects =>
      if negb (length List <? MaxCount)%nat then List
      else
        match element_resource s Scope o with
        | None => resolve_elements s Scope Objects MaxCount List
        | Some r =>
            resolve_elements s Scope Objects MaxCount
              (if UacpiNtPowerResInList r List then List else List ++ [r])
        end
  end.

Definition order_of (t : list UACPINT_POWER_RESOURCE) (r : nat) : Z :=
  match t !! r with Some R => pr_PowerOnOrder R | None => 0 end.

(** The inner loop of the sort on the part of the array before the element,
    written from its end to its start. *)
Fixpoint shift_in (t : list UACPINT_POWER_RESOURCE) (Resource : nat) (before : list nat) : list nat :=
  match before with
  | p :: before' =>
      if order_of t Resource <? order_of t p then p :: shift_in t Resource before'
      else Resource :: before
  | [] => [Resource]
  end.

Definition sort_by_order (t : list UACPINT_POWER_RESOURCE) (List : list nat) : list nat :=
  reverse (foldl (fun before Resource => shift_in t Resource before) [] List).

Definition UacpiNtPowerResResolve (Scope : acpi_node) (Package : list uacpi_object)
  (FirstIndex MaxCount : nat) (s : power_state) : list nat :=
  sort_by_order (pw_List s) (resolve_elements s Scope (drop FirstIndex Package) MaxCount []).

Definition UacpiNtPowerResEvalList (Device : acpi_node) (MethodName : string) (MaxCount : nat)
  (s : power_state) : list nat * power_state :=
  if (Device =? NULL) || negb (pw_Ready s) then ([], s)
  else
    let '(st, Object, h) := uacpi_eval Device MethodName [] (pw_Calls s) in
    let s := pw_set_Calls h s in
    match Object with
    | Some Object =>
        if uacpi_unlikely_error st then ([], s)
        else match uacpi_object_get_package Object with
             | None => ([], s)
             | Some Package => (UacpiNtPowerResResolve Device Package 0 MaxCount s, s)
             end
    | None => ([], s)
    end.

(** ** Device states *)

Definition method_PRx (DeviceState : Z) : string :=
  nth (Z.to_nat (DeviceState - PowerDeviceD0)) ["_PR0"; "_PR1"; "_PR2"; "_PR3"] "".

Definition device_state_named (DeviceState : Z) : bool :=
  (PowerDeviceD0 <=? DeviceState) && (DeviceState <=? PowerDeviceD3).

Definition UacpiNtPowerResAcquireForState (Pdo : pdo_power) (DeviceState : Z) (s : power_state)
  : list nat * power_state :=
  if negb (device_state_named DeviceState) || negb (pw_Ready s) then ([], s)
  else
    let '(NewList, s) := UacpiNtPowerResEvalList (pp_Node Pdo) (method_PRx DeviceState)
                           UACPINT_MAX_POWER_RESOURCES s in
    (NewList,
     foldl (fun s r => if UacpiNtPowerResInList r (pp_HeldResources Pdo) then s
                       else UacpiNtPowerResReference r s) s NewList).

Definition UacpiNtPowerResReleaseDelta (Pdo : pdo_power) (NewList : list nat) (s : power_state)
  : pdo_power * power_state :=
  if negb (pw_Ready s) then (Pdo, s)
  else
    let NewList := take UACPINT_MAX_POWER_RESOURCES NewList in
    (pp_set_Held NewList Pdo,
     foldl (fun s r => if UacpiNtPowerResInList r NewList then s
                       else UacpiNtPowerResDereference r s) s (reverse (pp_HeldResources Pdo))).

(** ** Wake *)

Definition UacpiNtPowerResAcquireWake (Device : acpi_node) (MaxCount : nat) (s : power_state)
  : list nat * power_state :=
  if (Device =? NULL) || negb (pw_Ready s) then ([], s)
  else
    let '(st, Object, h) := uacpi_eval Device "_PRW" [] (pw_Calls s) in
    let s := pw_set_Calls h s in
    match Object with
    | Some Object =>
        if uacpi_unlikely_error st then ([], s)
        else match uacpi_object_get_package Object with
             | None => ([], s)
             | Some Package =>
                 if (length Package <? 2)%nat then ([], s)
                 else
                   let List := UacpiNtPowerResResolve Device Package 2 MaxCount s in
                   (List, foldl (fun s r => UacpiNtPowerResReference r s) s List)
             end
    | None => ([], s)
    end.

Definition UacpiNtPowerResReleaseWake (List : list nat) (s : power_state) : power_state :=
  if (length List =? 0)%nat || negb (pw_Ready s) then s
  else foldl (fun s r => UacpiNtPowerResDereference r s) s (reverse List).

(** ** Resume *)

Fixpoint resume_resources (t : list UACPINT_POWER_RESOURCE) (h : list acpi_call) : list acpi_call :=
  match t with
  | [] => h
  | R :: t =>
      if negb (pr_On R) then resume_resources t h
      else let '(_, _, h) := uacpi_eval (pr_Node R) "_ON" [] h in resume_resources t h
  end.

Definition UacpiNtPowerResResume (s : power_state) : power_state :=
  if negb (pw_Ready s) then s else pw_set_Calls (resume_resources (pw_List s) (pw_Calls s)) s.

(** ** The list of a package

    [first_uses l]: the elements of [l] without the repetitions. *)
Fixpoint first_uses (l : list nat) : list nat :=
  match l with
  | [] => []
  | x :: l => x :: filter (fun y => y <> x) (first_uses l)
  end.

(** The resources the elements of a package name, in the order of the package. *)
Definition named_resources (s : power_state) (Scope : acpi_node) (Objects : list uacpi_object)
  : list nat := omap (element_resource s Scope) Objects.

Lemma in_list_spec r l : UacpiNtPowerResInList r l = true <-> r ∈ l.
Proof.
  unfold UacpiNtPowerResInList. rewrite existsb_exists, list_elem_of_In.
  setoid_rewrite Nat.eqb_eq. naive_solver.
Qed.

Lemma in_list_false r l : UacpiNtPowerResInList r l = false <-> r ∉ l.
Proof. rewrite <- in_list_spec. by destruct (UacpiNtPowerResInList r l). Qed.

Lemma in_list_decide r l : UacpiNtPowerResInList r l = bool_decide (r ∈ l).
Proof.
  destruct (UacpiNtPowerResInList r l) eqn:E; symmetry.
  - by apply bool_decide_eq_true, in_list_spec.
  - by apply bool_decide_eq_false, in_list_false.
Qed.

Lemma first_uses_elem l x : x ∈ first_uses l <-> x ∈ l.
Proof.
  induction l as [|y l IH]; simpl; [done|].
  rewrite !elem_of_cons, list_elem_of_filter, IH. destruct (decide (x = y)); naive_solver.
Qed.

Lemma first_uses_NoDup l : NoDup (first_uses l).
Proof.
  induction l as [|x l IH]; simpl; constructor; [|by apply NoDup_filter].
  rewrite list_elem_of_filter. naive_solver.
Qed.

Lemma resolve_elements_spec s Scope Objects MaxCount List :
  (length List <= MaxCount)%nat ->
  resolve_elements s Scope Objects MaxCount List =
    take MaxCount (List ++ filter (fun y => y ∉ List) (first_uses (named_resources s Scope Objects))).
Proof.
  revert List. induction Objects as [|o Objects IH]; intros List HL; simpl.
  - by rewrite app_nil_r, take_ge.
  - destruct (length List <? MaxCount)%nat eqn:E; simpl; nat_prop; cycle 1.
    { by rewrite take_app_le, take_ge by lia. }
    unfold named_resources. simpl. destruct (element_resource s Scope o) as [r|] eqn:Er; [|by apply IH].
    simpl. fold (named_resources s Scope Objects). rewrite filter_cons.
    destruct (UacpiNtPowerResInList r List) eqn:Ei.
    + apply in_list_spec in Ei. rewrite decide_False by naive_solver.
      rewrite IH by done. do 2 f_equal. rewrite list_filter_filter. apply list_filter_iff. naive_solver.
    + apply in_list_false in Ei. rewrite decide_True by done.
      rewrite IH by (rewrite length_app; simpl; lia). rewrite <- app_assoc. simpl. do 3 f_equal.
      rewrite list_filter_filter. apply list_filter_iff. intros x.
      rewrite elem_of_app, list_elem_of_singleton. naive_solver.
Qed.

(** ** The sort *)

Section Sort.
Context (t : list UACPINT_POWER_RESOURCE).

Definition order_le (a b : nat) : Prop := order_of t a <= order_of t b.

Lemma shift_in_perm r l : shift_in t r l ≡ₚ r :: l.
Proof.
  induction l as [|p l IH]; simpl; [done|]. destruct (_ <? _); [|done].
  rewrite IH. apply Permutation_swap.
Qed.

Lemma shift_in_sorted r l :
  StronglySorted (flip order_le) l -> StronglySorted (flip order_le) (shift_in t r l).
Proof.
  induction 1 as [|p l Hl IH HF]; simpl; [repeat constructor|].
  destruct (_ <? _) eqn:E; bool_prop.
  - constructor; [done|]. rewrite shift_in_perm. constructor; [unfold flip, order_le; lia|done].
  - constructor; [by constructor|]. constructor; [unfold flip, order_le; lia|].
    eapply Forall_impl; [done|]. unfold flip, order_le. simpl. lia.
Qed.

Lemma shift_in_stable r l v :
  filter (fun x => order_of t x = v) (shift_in t r l) = filter (fun x => order_of t x = v) (r :: l).
Proof.
  induction l as [|p l IH]; simpl; [done|]. destruct (_ <? _) eqn:E; [|done]. bool_prop.
  rewrite (filter_cons _ p), IH, !filter_cons.
  destruct (decide (order_of t p = v)), (decide (order_of t r = v)); [lia|done..].
Qed.

Lemma sort_fold_spec l before :
  StronglySorted (flip order_le) before ->
  let r := foldl (fun (b : list nat) (x : nat) => shift_in t x b) before l in
  StronglySorted (flip order_le) r /\ r ≡ₚ reverse l ++ before /\
  (forall v, filter (fun x => order_of t x = v) r = filter (fun x => order_of t x = v) (reverse l ++ before)).
Proof.
  revert before. induction l as [|x l IH]; intros before Hb r.
  { by rewrite reverse_nil. }
  subst r. cbn [foldl]. destruct (IH (shift_in t x before)) as (? & Hp & Hf); [by apply shift_in_sorted|].
  split_and!; [done|..].
  - rewrite reverse_cons, <- app_assoc. by rewrite Hp, shift_in_perm.
  - intros v. rewrite Hf, reverse_cons, <- app_assoc. simpl. by rewrite !filter_app, shift_in_stable.
Qed.

Lemma StronglySorted_reverse {B} (R : relation B) l :
  StronglySorted (flip R) l -> StronglySorted R (reverse l).
Proof.
  induction 1 as [|x l Hl IH HF]; [constructor|]. rewrite reverse_cons.
  apply StronglySorted_app_2; [|done|repeat constructor].
  intros y z Hy ->%list_elem_of_singleton. rewrite elem_of_reverse in Hy.
  rewrite Forall_forall in HF. by apply HF.
Qed.

Lemma sort_by_order_spec l :
  StronglySorted order_le (sort_by_order t l) /\ sort_by_order t l ≡ₚ l /\
  (forall v, filter (fun x => order_of t x = v) (sort_by_order t l) =
             filter (fun x => order_of t x = v) l).
Proof.
  destruct (sort_fold_spec l [] ltac:(constructor)) as (Hs & Hp & Hf).
  rewrite app_nil_r in Hp. unfold sort_by_order. split_and!.
  - by apply StronglySorted_reverse.
  - by rewrite reverse_Permutation, Hp, reverse_Permutation.
  - intros v. rewrite filter_reverse, Hf. by rewrite ?app_nil_r, filter_reverse, reverse_involutive.
Qed.
End Sort.

(** [resolve_correct] below speaks of the resources of one package. *)
Lemma resolve_perm Scope Package FirstIndex MaxCount s :
  UacpiNtPowerResResolve Scope Package FirstIndex MaxCount s ≡ₚ
    take MaxCount (first_uses (named_resources s Scope (drop FirstIndex Package))).
Proof.
  unfold UacpiNtPowerResResolve. rewrite resolve_elements_spec by (simpl; lia). simpl.
  rewrite (filter_all (fun y => y ∉ [])) 
    by (apply Forall_forall; intros; apply not_elem_of_nil).
  apply sort_by_order_spec.
Qed.

Lemma find_lt Node t i : UacpiNtPowerResFind Node t = Some i -> (i < length t)%nat.
Proof. intros (x & Hx & _)%find_index_some. by eapply lookup_lt_Some. Qed.

(** A list the power code works on: without repetitions, short enough for the
    arrays, and of entries of the list. *)
Definition resource_list (s : power_state) (l : list nat) : Prop :=
  NoDup l /\ (length l <= UACPINT_MAX_POWER_RESOURCES)%nat /\
  Forall (fun r => (r < length (pw_List s))%nat) l.

Lemma resource_list_nil s : resource_list s [].
Proof. split_and!; [constructor|simpl; lia|constructor]. Qed.

Lemma resolve_resource_list Scope Package FirstIndex s :
  resource_list s (UacpiNtPowerResResolve Scope Package FirstIndex UACPINT_MAX_POWER_RESOURCES s).
Proof.
  unfold resource_list. rewrite !(resolve_perm Scope Package FirstIndex).
  split_and!.
  - eapply sublist_NoDup; [apply first_uses_NoDup|apply sublist_take].
  - rewrite length_take. lia.
  - apply Forall_take, Forall_forall. intros r Hr. apply (proj1 (first_uses_elem _ _)) in Hr.
    unfold named_resources in Hr. apply list_elem_of_omap in Hr as (o & _ & Hr). unfold element_resource in Hr.
    apply bind_Some in Hr as (T & _ & Hr). by eapply find_lt.
Qed.

Lemma eval_list_correct Device MethodName s L s' :
  UacpiNtPowerResEvalList Device MethodName UACPINT_MAX_POWER_RESOURCES s = (L, s') ->
  pw_List s' = pw_List s /\ pw_Ready s' = pw_Ready s /\ resource_list s' L.
Proof.
  unfold UacpiNtPowerResEvalList, uacpi_eval. intros H.
  repeat case_hyp H; simplify_eq/=; split_and!; auto using resource_list_nil, resolve_resource_list.
Qed.

(** ** What an operation does to the counts *)

(** The methods that switch a resource succeed. *)
Definition switches_work : Prop :=
  forall h n path, path = "_ON" \/ path = "_OFF" -> (answer_eval h n path []).1 = UACPI_STATUS_OK.

(** On while somebody holds it, and not otherwise unless it was found on. *)
Definition settled (found_on : bool) (R : UACPINT_POWER_RESOURCE) : Prop :=
  (0 < pr_RefCount R -> pr_On R = true) /\
  (pr_On R = true -> 0 < pr_RefCount R \/ found_on = true).

Definition same_resource (R R' : UACPINT_POWER_RESOURCE) : Prop :=
  pr_Node R' = pr_Node R /\ pr_PowerOnOrder R' = pr_PowerOnOrder R /\
  pr_SleepLevel R' = pr_SleepLevel R.

Definition becomes (d : Z) (R R' : UACPINT_POWER_RESOURCE) : Prop :=
  pr_RefCount R' = pr_RefCount R + d /\ same_resource R R' /\
  (switches_work -> forall b, settled b R -> settled b R').

(** [moves up s s']: the count of each resource [k] grows by [up k]. *)
Record moves (up : nat -> Z) (s s' : power_state) : Prop := {
  mv_ready : pw_Ready s' = pw_Ready s;
  mv_length : length (pw_List s') = length (pw_List s);
  mv_resource k R : pw_List s !! k = Some R ->
    exists R', pw_List s' !! k = Some R' /\ becomes (up k) R R'
}.

Definition LONG_MAX : Z := 2147483647.

Lemma becomes_refl R : becomes 0 R R.
Proof. split_and!; [lia|done|done]. Qed.

Lemma becomes_trans d e R R' R'' : becomes d R R' -> becomes e R' R'' -> becomes (d + e) R R''.
Proof.
  intros (Hd & (?&?&?) & Hs) (He & (?&?&?) & Hs'). split_and!; [lia|split_and!; congruence|auto].
Qed.

Lemma moves_ext up up' s s' : (forall k, up k = up' k) -> moves up s s' -> moves up' s s'.
Proof. intros He [? ? Hr]. split; [done..|]. intros k R H. rewrite <- He. by apply Hr. Qed.

Lemma moves_calls h s s' : s' = pw_set_Calls h s -> moves (fun _ => 0) s s'.
Proof. intros ->. split; [done..|]. intros k R H. exists R. split; [done|apply becomes_refl]. Qed.

Lemma moves_refl s : moves (fun _ => 0) s s.
Proof. apply (moves_calls (pw_Calls s)). by destruct s. Qed.

Lemma moves_trans up1 up2 s1 s2 s3 :
  moves up1 s1 s2 -> moves up2 s2 s3 -> moves (fun k => up1 k + up2 k) s1 s3.
Proof.
  intros [? ? H1] [? ? H2]. split; [congruence..|]. intros k R H.
  apply H1 in H as (R' & H & ?). apply H2 in H as (R'' & H & ?).
  exists R''. split; [done|]. by eapply becomes_trans.
Qed.

Lemma moves_insert r R R' d s s' :
  pw_List s !! r = Some R -> becomes d R R' -> pw_Ready s' = pw_Ready s ->
  pw_List s' = <[r := R']> (pw_List s) ->
  moves (fun k => if decide (k = r) then d else 0) s s'.
Proof.
  intros Hr Hb ? E. split; [done|by rewrite E, length_insert|].
  intros k Rk Hk. rewrite E. destruct (decide (k = r)) as [->|Hn].
  - simplify_eq. exists R'. split; [|done]. apply list_lookup_insert_eq. by eapply lookup_lt_Some.
  - exists Rk. split; [by rewrite list_lookup_insert_ne|apply becomes_refl].
Qed.

Definition counted (s : power_state) (lo hi : Z) (r : nat) : Prop :=
  forall R, pw_List s !! r = Some R -> lo <= pr_RefCount R < hi.

Lemma s32_small x : - 2147483648 <= x <= LONG_MAX -> s32 x = x.
Proof.
  unfold s32, u32, LONG_MAX. intros H. destruct (decide (0 <= x)).
  - rewrite Z.mod_small by lia. destruct (_ <? _) eqn:E; zbool.
  - rewrite <- (Z.mod_add x 1) by lia. rewrite Z.mod_small by lia.
    destruct (_ <? _) eqn:E; zbool.
Qed.

Lemma moves_reference r s :
  counted s 0 LONG_MAX r -> (r < length (pw_List s))%nat ->
  moves (fun k => if decide (k = r) then 1 else 0) s (UacpiNtPowerResReference r s).
Proof.
  intros Hc [R HR]%lookup_lt_is_Some_2. specialize (Hc R HR). unfold UacpiNtPowerResReference.
  rewrite HR, s32_small by (unfold LONG_MAX in *; lia). unfold uacpi_eval. simpl.
  destruct (negb _ || _) eqn:E;
    [|destruct (answer_eval _ _ _ _) as [st o] eqn:Ea];
    (eapply moves_insert; [exact HR| |reflexivity|reflexivity]).
  - split_and!; [done..|]. intros _ b [H1 H2]. split; simpl.
    + intros _. apply orb_prop in E as [E|E]; [bool_prop; apply H1; lia|done].
    + intros. left. lia.
  - split_and!; [by destruct (uacpi_likely_success st)..|]. intros Hw b [H1 H2].
    assert (st = UACPI_STATUS_OK) as -> by (change st with ((st, o).1); rewrite <- Ea; apply Hw; by left).
    split; simpl; [done|left; lia].
Qed.

Lemma moves_dereference r s :
  counted s 1 (LONG_MAX + 1) r -> (r < length (pw_List s))%nat ->
  moves (fun k => if decide (k = r) then - 1 else 0) s (UacpiNtPowerResDereference r s).
Proof.
  intros Hc [R HR]%lookup_lt_is_Some_2. specialize (Hc R HR). unfold UacpiNtPowerResDereference.
  rewrite HR. replace (0 <? pr_RefCount R) with true by (symmetry; apply Z.ltb_lt; lia).
  rewrite s32_small by (unfold LONG_MAX in *; lia). unfold uacpi_eval. simpl.
  destruct (negb _ || _) eqn:E;
    [|destruct (answer_eval _ _ _ _) as [st o] eqn:Ea];
    (eapply moves_insert; [exact HR| |reflexivity|reflexivity]).
  - split_and!; [simpl; lia|done|]. intros _ b [H1 H2]. split; simpl; intros.
    + apply H1. lia.
    + apply orb_prop in E as [E|E]; bool_prop; [left; lia|congruence].
  - split_and!; [destruct (uacpi_likely_success st); simpl; lia
                |by destruct (uacpi_likely_success st)|]. intros Hw b [H1 H2].
    assert (st = UACPI_STATUS_OK) as -> by (change st with ((st, o).1); rewrite <- Ea; apply Hw; by right).
    bool_prop. split; simpl; [lia|done].
Qed.

(** A loop over a list without repetitions, where each turn moves its own
    resource by [d]. *)
Lemma moves_fold (f : nat -> power_state -> power_state) d lo hi l s :
  (forall r s, counted s lo hi r -> (r < length (pw_List s))%nat ->
     moves (fun k => if decide (k = r) then d else 0) s (f r s)) ->
  NoDup l -> Forall (fun r => (r < length (pw_List s))%nat) l -> Forall (counted s lo hi) l ->
  moves (fun k => if decide (k ∈ l) then d else 0) s (foldl (fun s r => f r s) s l).
Proof.
  intros Hf Hn. revert s. induction Hn as [|x l Hx Hn IH]; intros s Hl Hc; simpl.
  - eapply moves_ext; [|apply moves_refl]. done.
  - apply Forall_cons in Hl as [Hxl Hl]. apply Forall_cons in Hc as [Hxc Hc].
    pose proof (Hf _ _ Hxc Hxl) as M. eapply moves_ext; [|eapply moves_trans; [exact M|apply IH]].
    + intros k. simpl. repeat case_decide; rewrite ?elem_of_cons in *; subst; try lia; naive_solver.
    + by rewrite (mv_length _ _ _ M).
    + rewrite Forall_forall in *. intros r Hr R HR.
      pose proof (Hl r Hr) as [R0 HR0]%lookup_lt_is_Some_2.
      apply (mv_resource _ _ _ M) in HR0 as HR0'. destruct HR0' as (R' & HR' & (E & _)). simplify_eq.
      rewrite E, decide_False by (intros ->; done). rewrite Z.add_0_r. by apply (Hc r Hr).
Qed.

(** A loop that passes over some turns. *)
Lemma foldl_skip {B} (c : nat -> bool) (f : nat -> B -> B) (s : B) l :
  foldl (fun s r => if c r then s else f r s) s l =
    foldl (fun s r => f r s) s (filter (fun r => c r = false) l).
Proof.
  revert s. induction l as [|x l IH]; intros s; simpl; [done|].
  rewrite filter_cons. destruct (c x) eqn:E; [rewrite decide_False by done|rewrite decide_True by done];
    apply IH.
Qed.

Lemma not_in_list_filter k L (l : list nat) :
  k ∈ filter (fun r => UacpiNtPowerResInList r L = false) l <-> k ∈ l /\ k ∉ L.
Proof. rewrite list_elem_of_filter, in_list_false. tauto. Qed.

(** The loops of [UacpiNtPowerResAcquireForState] and [UacpiNtPowerResReleaseDelta]. *)
Lemma moves_skip_fold (f : nat -> power_state -> power_state) d lo hi L l s :
  (forall r s, counted s lo hi r -> (r < length (pw_List s))%nat ->
     moves (fun k => if decide (k = r) then d else 0) s (f r s)) ->
  NoDup l -> Forall (fun r => (r < length (pw_List s))%nat) l ->
  (forall r, r ∈ l -> r ∉ L -> counted s lo hi r) ->
  moves (fun k => if decide (k ∈ l /\ k ∉ L) then d else 0) s
    (foldl (fun s r => if UacpiNtPowerResInList r L then s else f r s) s l).
Proof.
  intros Hf Hn Hl Hc. rewrite (foldl_skip (fun r => UacpiNtPowerResInList r L)).
  eapply moves_ext; [|eapply (moves_fold f d lo hi)]; [|done|by apply NoDup_filter|..].
  - intros k. apply decide_ext, not_in_list_filter.
  - rewrite Forall_forall in *. intros k [Hk _]%(proj1 (not_in_list_filter _ _ _)). by apply Hl.
  - rewrite Forall_forall. intros k [Hk ?]%(proj1 (not_in_list_filter _ _ _)). by apply Hc.
Qed.

Lemma acquire_for_state_moves Pdo D s L s' :
  Forall (counted s 0 LONG_MAX) (seq 0 (length (pw_List s))) ->
  UacpiNtPowerResAcquireForState Pdo D s = (L, s') ->
  resource_list s' L /\
  moves (fun k => if decide (k ∈ L /\ k ∉ pp_HeldResources Pdo) then 1 else 0) s s'.
Proof.
  unfold UacpiNtPowerResAcquireForState. intros Hc H. case_hyp H; simplify_eq/=.
  { split; [apply resource_list_nil|]. eapply moves_ext; [|apply moves_refl].
    done. }
  destruct (UacpiNtPowerResEvalList _ _ _ _) as [L1 s1] eqn:E. simplify_eq/=.
  apply eval_list_correct in E as (El & Er & (Hn & Hlen & Hin)).
  assert (M := moves_skip_fold UacpiNtPowerResReference 1 0 LONG_MAX (pp_HeldResources Pdo) L s1
                 moves_reference Hn Hin).
  assert (moves (fun k => if decide (k ∈ L /\ k ∉ pp_HeldResources Pdo) then 1 else 0) s1
    (foldl (fun s r => if UacpiNtPowerResInList r (pp_HeldResources Pdo) then s
                       else UacpiNtPowerResReference r s) s1 L)) as M1.
  { apply M. intros r Hr _ R HR. rewrite El in HR. rewrite Forall_forall in Hc.
    apply (Hc r); [|done]. apply elem_of_seq. apply lookup_lt_Some in HR. lia. }
  split.
  - split_and!; [done..|]. by rewrite (mv_length _ _ _ M1).
  - destruct M1 as [M1 M2 M3]. rewrite El in *. rewrite Er in *. by split.
Qed.

Lemma release_delta_moves Pdo L s Pdo' s' :
  pw_Ready s = true -> resource_list s L -> resource_list s (pp_HeldResources Pdo) ->
  (forall r, r ∈ pp_HeldResources Pdo -> r ∉ L -> counted s 1 (LONG_MAX + 1) r) ->
  UacpiNtPowerResReleaseDelta Pdo L s = (Pdo', s') ->
  Pdo' = pp_set_Held L Pdo /\
  moves (fun k => if decide (k ∈ pp_HeldResources Pdo /\ k ∉ L) then - 1 else 0) s s'.
Proof.
  unfold UacpiNtPowerResReleaseDelta. intros -> (_ & Hl & _) (Hn & _ & Hb) Hc H. simpl in H.
  rewrite take_ge in H by done. simplify_eq. split; [done|].
  eapply moves_ext; [|eapply (moves_skip_fold UacpiNtPowerResDereference (- 1) 1 (LONG_MAX + 1))].
  - intros k. apply decide_ext. by rewrite elem_of_reverse.
  - apply moves_dereference.
  - by rewrite reverse_Permutation.
  - by apply Forall_reverse.
  - intros r Hr. rewrite elem_of_reverse in Hr. by apply Hc.
Qed.

Lemma acquire_wake_moves Device s L s' :
  Forall (counted s 0 LONG_MAX) (seq 0 (length (pw_List s))) ->
  UacpiNtPowerResAcquireWake Device UACPINT_MAX_POWER_RESOURCES s = (L, s') ->
  resource_list s' L /\ moves (fun k => if decide (k ∈ L) then 1 else 0) s s'.
Proof.
  unfold UacpiNtPowerResAcquireWake, uacpi_eval. intros Hc H.
  assert (forall h, resource_list (pw_set_Calls h s) [] /\
            moves (fun k => if decide (k ∈ []) then 1 else 0) s (pw_set_Calls h s)) as Hnil.
  { intros h. split; [apply resource_list_nil|by eapply moves_calls]. }
  repeat case_hyp H; simplify_eq/=; try apply Hnil.
  { destruct s'. apply (Hnil pw_Calls0). }
  set (s1 := pw_set_Calls _ s). match goal with
  |- context [UacpiNtPowerResResolve _ ?P _ _ _] =>
      destruct (resolve_resource_list Device P 2 s1) as (Hn & Hlen & Hb)
  end.
  set (L := UacpiNtPowerResResolve _ _ _ _ _) in *.
  assert (moves (fun k => if decide (k ∈ L) then 1 else 0) s1
            (foldl (fun s r => UacpiNtPowerResReference r s) s1 L)) as M.
  { apply (moves_fold _ 1 0 LONG_MAX); [apply moves_reference|done..|].
    rewrite Forall_forall in *. intros r Hr. apply Hc, elem_of_seq. split; [lia|]. by apply Hb. }
  split; [split_and!; [done..|by rewrite (mv_length _ _ _ M)]|]. by destruct M.
Qed.

Lemma release_wake_moves L s :
  pw_Ready s = true -> resource_list s L ->
  (forall r, r ∈ L -> counted s 1 (LONG_MAX + 1) r) ->
  moves (fun k => if decide (k ∈ L) then - 1 else 0) s (UacpiNtPowerResReleaseWake L s).
Proof.
  unfold UacpiNtPowerResReleaseWake. intros -> (Hn & _ & Hb) Hc.
  destruct L as [|x L]; [eapply moves_ext; [|apply moves_refl]; done|].
  set (l := x :: L) in *. simpl negb. replace (length l =? 0)%nat with false by done. cbn [orb].
  eapply moves_ext; [|apply (moves_fold _ (- 1) 1 (LONG_MAX + 1)); [apply moves_dereference|..]].
  - intros k. apply decide_ext. by rewrite elem_of_reverse.
  - by rewrite reverse_Permutation.
  - by apply Forall_reverse.
  - apply Forall_reverse, Forall_forall, Hc.
Qed.

(** ** The system of devices

    Several devices change state at a time, and several threads may change one
    device: the lock covers each half of a change, the taking of the new resources
    and the dropping of the old ones, and anything may come between them.  A device
    is its record and the lists of the changes that have taken theirs. *)
Inductive power_user :=
| PdoUser (Pdo : pdo_power) (Pending : list (list nat))
| WakeBlock (Node : acpi_node) (WakeResources : list nat).

Definition user_list (u : power_user) : list nat :=
  match u with
  | PdoUser Pdo Pending => pp_HeldResources Pdo ++ concat Pending
  | WakeBlock _ WakeResources => WakeResources
  end.

Definition power_system : Type := power_state * list power_user.

Inductive power_action := ActAcquire (i : nat) | ActRelease (i : nat) | ActArm (i : nat) | ActDisarm (i : nat) | ActResume | ActAml.

(** Arming overwrites the list of the wake block, whatever it was. *)
Inductive power_step : power_action -> power_system -> power_system -> Prop :=
| step_acquire i Pdo Pending D L s s' us :
    us !! i = Some (PdoUser Pdo Pending) -> UacpiNtPowerResAcquireForState Pdo D s = (L, s') ->
    power_step (ActAcquire i) (s, us) (s', <[i := PdoUser Pdo (L :: Pending)]> us)
| step_release i Pdo before L after Pdo' s s' us :
    us !! i = Some (PdoUser Pdo (before ++ L :: after)) -> UacpiNtPowerResReleaseDelta Pdo L s = (Pdo', s') ->
    power_step (ActRelease i) (s, us) (s', <[i := PdoUser Pdo' (before ++ after)]> us)
| step_arm i Node L0 L s s' us :
    us !! i = Some (WakeBlock Node L0) ->
    UacpiNtPowerResAcquireWake Node UACPINT_MAX_POWER_RESOURCES s = (L, s') ->
    power_step (ActArm i) (s, us) (s', <[i := WakeBlock Node L]> us)
| step_disarm i Node L s us :
    us !! i = Some (WakeBlock Node L) ->
    power_step (ActDisarm i) (s, us) (UacpiNtPowerResReleaseWake L s, <[i := WakeBlock Node []]> us)
| step_resume s us : power_step ActResume (s, us) (UacpiNtPowerResResume s, us)
| step_aml h s us : power_step ActAml (s, us) (pw_set_Calls h s, us).

(** The condition under which the books are right: a change of a device begins when
    no other is under way, and a wake block is armed when its list is empty. *)
Definition serial (a : power_action) (y : power_system) : Prop :=
  match a with
  | ActAcquire i => forall Pdo Pending, y.2 !! i = Some (PdoUser Pdo Pending) -> Pending = []
  | ActArm i => forall Node L, y.2 !! i = Some (WakeBlock Node L) -> L = []
  | _ => True
  end.
Definition any_step (y y' : power_system) : Prop := exists a, power_step a y y'.
Definition serial_step (y y' : power_system) : Prop := exists a, serial a y /\ power_step a y y'.

(** How many users count resource [k]. *)
Definition uses (k : nat) (u : power_user) : nat := if decide (k ∈ user_list u) then 1 else 0.
Definition holders (us : list power_user) (k : nat) : Z := Z.of_nat (list_weight (uses k) us).

Definition user_ok (s : power_state) (u : power_user) : Prop :=
  match u with
  | PdoUser Pdo Pending =>
      resource_list s (pp_HeldResources Pdo) /\ Forall (resource_list s) Pending /\ (length Pending <= 1)%nat
  | WakeBlock _ WakeResources => resource_list s WakeResources
  end.

(** [s0] is the state the run started in. *)
Record power_inv (s0 : power_state) (y : power_system) : Prop := {
  pi_ready : pw_Ready y.1 = true;
  pi_length : length (pw_List y.1) = length (pw_List s0);
  pi_users : Forall (user_ok y.1) y.2;
  pi_counts k R : pw_List y.1 !! k = Some R -> pr_RefCount R = holders y.2 k;
  pi_resource k R : pw_List y.1 !! k = Some R ->
    exists R0, pw_List s0 !! k = Some R0 /\ same_resource R0 R /\
               (switches_work -> settled (pr_On R0) R)
}.

Lemma holders_insert us i u u' k :
  us !! i = Some u ->
  holders (<[i := u']> us) k = holders us k + Z.of_nat (uses k u') - Z.of_nat (uses k u).
Proof.
  intros H. pose proof (list_weight_alter (uses k) (fun _ => u') us i u H) as E.
  rewrite (alter_insert_lookup _ _ _ _ H) in E. unfold holders. lia.
Qed.

Lemma holders_bound us k : 0 <= holders us k <= Z.of_nat (length us).
Proof.
  unfold holders. pose proof (list_weight_bound (uses k) us 1) as H.
  rewrite Nat.mul_1_l in H. split; [lia|]. apply inj_le, H, Forall_forall.
  intros u _. unfold uses. case_decide; lia.
Qed.

Lemma holders_pos us k i u : us !! i = Some u -> k ∈ user_list u -> 1 <= holders us k.
Proof.
  intros H Hk. pose proof (list_weight_lookup (uses k) us i u H) as Hl. unfold uses at 1 in Hl.
  rewrite decide_True in Hl by done. unfold holders. lia.
Qed.

Lemma user_ok_length s s' u :
  length (pw_List s') = length (pw_List s) -> user_ok s u -> user_ok s' u.
Proof. destruct u; simpl; unfold resource_list; by intros ->. Qed.

(** One move of the counts that matches the change of one user. *)
Lemma power_inv_moves s0 s us up s' i u u' :
  power_inv s0 (s, us) -> us !! i = Some u -> moves up s s' -> user_ok s' u' ->
  (forall k, up k = Z.of_nat (uses k u') - Z.of_nat (uses k u)) ->
  power_inv s0 (s', <[i := u']> us).
Proof.
  intros [Hr Hl Hu Hc H0] Hi [Mr Ml Mk] Hok Hup. simpl in *.
  assert (forall k R', pw_List s' !! k = Some R' ->
            exists R, pw_List s !! k = Some R /\ becomes (up k) R R') as Hback.
  { intros k R' HR'. destruct (lookup_lt_is_Some_2 (pw_List s) k) as [R HR].
    { rewrite <- Ml. by eapply lookup_lt_Some. }
    exists R. split; [done|]. apply Mk in HR as (? & ? & ?). by simplify_eq. }
  split; simpl; [congruence|congruence|..].
  - apply Forall_insert; [|done]. eapply Forall_impl; [exact Hu|]. intros x. by apply user_ok_length.
  - intros k R' (R & HR & HE & _)%Hback. rewrite HE, (Hc _ _ HR), (holders_insert us i u) by done.
    rewrite Hup. lia.
  - intros k R' (R & HR & _ & (?&?&?) & Hs)%Hback. apply H0 in HR as (R0 & ? & (?&?&?) & ?).
    exists R0. split_and!; [done|split_and!; congruence|eauto].
Qed.

Lemma power_inv_counted s0 s us :
  power_inv s0 (s, us) -> Z.of_nat (length us) < LONG_MAX ->
  Forall (counted s 0 LONG_MAX) (seq 0 (length (pw_List s))).
Proof.
  intros Hi Hb. apply Forall_forall. intros k _ R HR. rewrite (pi_counts _ _ Hi _ _ HR). simpl.
  pose proof (holders_bound us k). lia.
Qed.

Lemma power_inv_held s0 s us i u k :
  power_inv s0 (s, us) -> Z.of_nat (length us) < LONG_MAX -> us !! i = Some u -> k ∈ user_list u ->
  counted s 1 (LONG_MAX + 1) k.
Proof.
  intros Hi Hb Hu Hk R HR. rewrite (pi_counts _ _ Hi _ _ HR). simpl.
  pose proof (holders_bound us k). pose proof (holders_pos us k i u Hu Hk). lia.
Qed.

(** Resume and other evaluations leave the counts alone. *)
Lemma power_inv_calls s0 s us h : power_inv s0 (s, us) -> power_inv s0 (pw_set_Calls h s, us).
Proof. by intros []. Qed.

Lemma power_step_inv s0 y y' :
  Z.of_nat (length y.2) < LONG_MAX -> power_inv s0 y -> serial_step y y' ->
  power_inv s0 y' /\ length y'.2 = length y.2.
Proof.
  intros Hb Hi (a & Hser & Hstep). destruct Hstep as
    [i Pdo Pending D L s s' us Hu E|i Pdo before L after Pdo' s s' us Hu E|i Node L0 L s s' us Hu E|i Node L s us Hu|s us|h s us];
    simpl in *; rewrite ?length_insert; (split; [|done]);
    pose proof (power_inv_counted _ _ _ Hi Hb) as Hc; pose proof (pi_ready _ _ Hi) as Hr;
    pose proof (pi_users _ _ Hi) as Hok; simpl in *;
    try (rewrite Forall_lookup in Hok; specialize (Hok _ _ Hu); simpl in Hok).
  - pose proof (Hser _ _ Hu). subst Pending. destruct Hok as [Hok _].
    apply acquire_for_state_moves in E as [HL M]; [|done].
    eapply power_inv_moves; [done..| |].
    + split; [|split; [by apply Forall_singleton|simpl; lia] ].
      eapply (user_ok_length s s' (WakeBlock 0 (pp_HeldResources Pdo))); [|done]. apply M.
    + intros k. unfold uses. simpl. rewrite !app_nil_r. repeat case_decide; rewrite ?elem_of_app in *; naive_solver.
  - destruct Hok as (Hh & HL & Hone). rewrite length_app in Hone. simpl in Hone.
    assert (before = [] /\ after = []) as [-> ->] by (split; apply nil_length_inv; lia). simpl in *. apply (proj1 (Forall_singleton _ _)) in HL.
    apply release_delta_moves in E as [-> M]; [|done..|].
    2: { intros k Hk _. eapply power_inv_held; [done..|]. simpl. apply elem_of_app. by left. }
    eapply power_inv_moves; [done..| |].
    + split; [|split; [constructor|simpl; lia] ].
      eapply (user_ok_length s s' (WakeBlock 0 L)); [apply M|done].
    + intros k. unfold uses. simpl. rewrite !app_nil_r. repeat case_decide; rewrite ?elem_of_app in *; naive_solver.
  - pose proof (Hser _ _ Hu). subst L0. apply acquire_wake_moves in E as [HL M]; [|done].
    eapply power_inv_moves; [done..|]. intros k. unfold uses. simpl.
    by repeat case_decide.
  - pose proof (release_wake_moves L s Hr Hok) as M. eapply power_inv_moves; [done| |apply M|..].
    + done.
    + intros k Hk. by eapply power_inv_held.
    + apply resource_list_nil.
    + intros k. unfold uses. simpl. by repeat case_decide.
  - unfold UacpiNtPowerResResume. rewrite Hr. by apply power_inv_calls.
  - by apply power_inv_calls.
Qed.

(** A start: the list is built, nobody holds anything. *)
Definition power_start (s0 : power_state) (us : list power_user) : Prop :=
  pw_Ready s0 = true /\ Forall (fun R => pr_RefCount R = 0) (pw_List s0) /\
  Forall (fun u => match u with PdoUser _ (_ :: _) => False | _ => user_list u = [] end) us.

Lemma power_start_inv s0 us : power_start s0 us -> power_inv s0 (s0, us).
Proof.
  intros (Hr & Hc & Hu). split; simpl; [done|done|..].
  - eapply Forall_impl; [exact Hu|]. intros [Pdo [|L Pending] |n L]; simpl; [|done|].
    + rewrite app_nil_r. intros ->. split; [apply resource_list_nil|split; [constructor|lia] ].
    + intros ->. apply resource_list_nil.
  - intros k R HR. rewrite Forall_lookup in Hc. rewrite (Hc _ _ HR). unfold holders.
    enough (list_weight (uses k) us = 0%nat) as -> by done.
    pose proof (list_weight_bound (uses k) us 0) as H. rewrite Nat.mul_0_l in H.
    apply Nat.le_0_r, H. eapply Forall_impl; [exact Hu|].
    intros [Pdo [|L Pending] |n L]; simpl; [|done|]; unfold uses; simpl; intros ->;
      rewrite decide_False; auto using not_elem_of_nil.
  - intros k R HR. exists R. split_and!; [done..|]. intros _. rewrite Forall_lookup in Hc.
    specialize (Hc _ _ HR). split; [lia|by right].
Qed.

Lemma power_run_inv s0 us y :
  power_start s0 us -> Z.of_nat (length us) < LONG_MAX -> rtc serial_step (s0, us) y ->
  power_inv s0 y.
Proof.
  intros Hs Hb Hrun.
  assert (power_inv s0 y /\ length y.2 = length us) as [? _]; [|done].
  remember (s0, us) as y0 eqn:E. assert (power_inv s0 y0 /\ length y0.2 = length us) as H0.
  { subst. split; [by apply power_start_inv|done]. }
  clear E Hs. induction Hrun as [y|y y1 y2 Hstep _ IH]; [done|]. destruct H0 as [Hi Hl].
  apply IH. destruct (power_step_inv s0 y y1) as [? Hl1]; [by rewrite Hl|done..|].
  split; [done|by rewrite Hl1].
Qed.

(** The list of a package holds the first MaxCount distinct power resources
    it names from FirstIndex on, ordered by resource order, and resources of equal
    order stay in the order of the package. *)
Theorem resolve_correct Scope Package FirstIndex MaxCount s :
  let L := UacpiNtPowerResResolve Scope Package FirstIndex MaxCount s in
  let named := take MaxCount (first_uses (named_resources s Scope (drop FirstIndex Package))) in
  StronglySorted (order_le (pw_List s)) L /\ L ≡ₚ named /\ NoDup L /\
  (forall v, filter (fun r => order_of (pw_List s) r = v) L =
             filter (fun r => order_of (pw_List s) r = v) named).
Proof.
  assert (Hp := resolve_perm Scope Package FirstIndex MaxCount s). simpl.
  unfold UacpiNtPowerResResolve in *. rewrite resolve_elements_spec in * by (simpl; lia).
  simpl in *. rewrite (filter_all (fun y => y ∉ [])) in *
    by (apply Forall_forall; intros; apply not_elem_of_nil).
  match goal with |- context [sort_by_order ?t ?l] => destruct (sort_by_order_spec t l) as (?&?&?) end.
  split_and!; [done|done| |done]. rewrite Hp.
  eapply sublist_NoDup; [apply first_uses_NoDup|apply sublist_take].
Qed.

(** C14.  However the changes of different devices, arming, disarming, resume and
    other evaluations interleave, as long as a change of a device begins when no other
    change of it is under way and a wake block is armed only after it was disarmed,
    the count of a resource is the number of devices and armed wake blocks that hold
    it.  If the switch methods succeed, a held resource is on, and a resource that
    was found off is on only while it is held. *)
Theorem power_counts_track_holders s0 us s us' :
  power_start s0 us -> Z.of_nat (length us) < LONG_MAX ->
  rtc serial_step (s0, us) (s, us') ->
  forall k R, pw_List s !! k = Some R ->
  pr_RefCount R = holders us' k /\
  (switches_work ->
     (0 < holders us' k -> pr_On R = true) /\
     (forall R0, pw_List s0 !! k = Some R0 -> pr_On R0 = false -> pr_On R = true -> 0 < holders us' k)).
Proof.
  intros Hs Hb Hrun k R HR. pose proof (power_run_inv _ _ _ Hs Hb Hrun) as Hi.
  pose proof (pi_counts _ _ Hi k R HR) as Hc. simpl in Hc. split; [done|]. intros Hw.
  destruct (pi_resource _ _ Hi k R HR) as (R0 & HR0 & _ & Hset).
  destruct (Hset Hw) as [H1 H2]. rewrite <- Hc. split; [done|].
  intros R1 HR1 Hoff Hon. simplify_eq. destruct (H2 Hon); [done|congruence].
Qed.
End PowerResources.

(** ** Witnesses and what modelling showed

    Two devices, nodes 10 and 11; resources 1 and 2, of order 5 and 3; the first
    device needs both in D0, the second only the second. *)
Definition bench_methods : acpi_script :=
  [(10, "_PR0", UACPI_OBJECT_PACKAGE [UACPI_OBJECT_STRING true "PWR1"; UACPI_OBJECT_STRING true "PWR2"]);
   (11, "_PR0", UACPI_OBJECT_PACKAGE [UACPI_OBJECT_STRING true "PWR2"])]%string.

Definition bench_script : Acpi := scripted_acpi bench_methods [("PWR1"%string, 1); ("PWR2"%string, 2)] [1; 2].

(** [bench_script], and an answer for the switch methods. *)
Definition switching_acpi (switch : list acpi_call -> uacpi_status) : Acpi := {|
  answer_eval h n path args :=
    if String.eqb path "_ON" || String.eqb path "_OFF" then (switch h, None)
    else answer_eval (Acpi := bench_script) h n path args;
  answer_event := answer_event (Acpi := bench_script);
  answer_create := answer_create (Acpi := bench_script);
  answer_find := answer_find (Acpi := bench_script);
  answer_resolve := answer_resolve (Acpi := bench_script);
  power_resource_nodes := [1; 2];
  uacpi_namespace_root := 1
|}.

Definition bench_acpi : Acpi := switching_acpi (fun _ => UACPI_STATUS_OK).

(** The first call of all after an evaluation fails. *)
Definition failing_once : Acpi :=
  switching_acpi (fun h => if (length h =? 1)%nat then UACPI_STATUS_NOT_FOUND else UACPI_STATUS_OK).

Definition bench_power : power_state :=
  mkPower true [mkPowerResource 1 5 0 0 false; mkPowerResource 2 3 0 0 false] [].

Definition bench_pdo (n : acpi_node) : pdo_power := mkPdoPower n [] PowerDeviceUnspecified false.

Definition bench_users : list power_user := [PdoUser (bench_pdo 10) []; PdoUser (bench_pdo 11) []].

(** The second device drops its resource while the first takes its own. *)
Definition bench_between : power_state :=
  let '(L1, s1) := UacpiNtPowerResAcquireForState (A := bench_acpi) (bench_pdo 10) PowerDeviceD0 bench_power in
  let '(L2, s2) := UacpiNtPowerResAcquireForState (A := bench_acpi) (bench_pdo 11) PowerDeviceD0 s1 in s2.

Lemma bench_switches : switches_work (A := bench_acpi).
Proof. by intros h n path [-> | ->]. Qed.

Lemma power_counts_track_holders_witness :
  exists s us',
    rtc (serial_step (A := bench_acpi)) (bench_power, bench_users) (s, us') /\
    forall k R, pw_List s !! k = Some R -> pr_RefCount R = holders us' k /\
    (0 < holders us' k -> pr_On R = true).
Proof.
  eexists bench_between, [PdoUser (bench_pdo 10) [[1; 0]%nat]; PdoUser (bench_pdo 11) [[1]%nat]].
  assert (rtc (serial_step (A := bench_acpi)) (bench_power, bench_users)
    (bench_between, [PdoUser (bench_pdo 10) [[1; 0]%nat]; PdoUser (bench_pdo 11) [[1]%nat]])) as Hr.
  { eapply rtc_l; [exists (ActAcquire 0); split; [by intros ? ? [= <- <-]|];
      eapply (step_acquire 0 _ [] PowerDeviceD0); [done|vm_compute; reflexivity]|].
    eapply rtc_l; [exists (ActAcquire 1); split; [by intros ? ? [= <- <-]|];
      eapply (step_acquire 1 _ [] PowerDeviceD0); [done|vm_compute; reflexivity]|].
    apply rtc_refl. }
  split; [done|]. intros k R HR.
  destruct (power_counts_track_holders (A := bench_acpi) bench_power bench_users _ _
              ltac:(split_and!; [done|repeat constructor..]) ltac:(done) Hr k R HR) as [Hc Hw].
  split; [exact Hc|]. apply (Hw bench_switches).
Defined.

(** Both are on, and counted, in between. *)
Example bench_resources_on :
  map pr_On (pw_List bench_between) = [true; true] /\
  map pr_RefCount (pw_List bench_between) = [1; 2].
Proof. by vm_compute. Qed.

(** The condition is needed.  The thermal worker and the power IRP of one device
    switch it to D0 at the same time: each takes the resource, one list is recorded,
    and when the device goes to D3 the resource stays on with a count that nobody
    will drop. *)
Lemma concurrent_switches_leak :
  exists s us', rtc (any_step (A := bench_acpi)) (bench_power, [PdoUser (bench_pdo 11) []]) (s, us') /\
  holders us' 1 = 0 /\ option_map pr_RefCount (pw_List s !! 1%nat) = Some 1 /\
  option_map pr_On (pw_List s !! 1%nat) = Some true.
Proof.
  do 2 eexists. split.
  { eapply rtc_l; [eexists; eapply (step_acquire 0 _ _ PowerDeviceD0); [done|vm_compute; reflexivity]|].
    eapply rtc_l; [eexists; eapply (step_acquire 0 _ _ PowerDeviceD0); [done|vm_compute; reflexivity]|].
    eapply rtc_l; [eexists; eapply (step_release 0 _ []); [done|vm_compute; reflexivity]|].
    eapply rtc_l; [eexists; eapply (step_release 0 _ []); [done|vm_compute; reflexivity]|].
    eapply rtc_l; [eexists; eapply (step_acquire 0 _ _ PowerDeviceD3); [done|vm_compute; reflexivity]|].
    eapply rtc_l; [eexists; eapply (step_release 0 _ []); [done|vm_compute; reflexivity]|]. apply rtc_refl. }
  by vm_compute.
Qed.

(** Worse, two changes of a device in D0 at once, to D0 and to D3, turn off a
    resource that the device is then recorded to hold: the change to D0 takes nothing,
    as the device has it, and the change to D3 drops it before the first records its
    list. *)
Lemma concurrent_switches_turn_off :
  exists s us', rtc (any_step (A := bench_acpi)) (bench_power, [PdoUser (bench_pdo 11) []]) (s, us') /\
  holders us' 1 = 1 /\ option_map pr_RefCount (pw_List s !! 1%nat) = Some 0 /\
  option_map pr_On (pw_List s !! 1%nat) = Some false.
Proof.
  do 2 eexists. split.
  { eapply rtc_l; [eexists; eapply (step_acquire 0 _ _ PowerDeviceD0); [done|vm_compute; reflexivity]|].
    eapply rtc_l; [eexists; eapply (step_release 0 _ []); [done|vm_compute; reflexivity]|].
    eapply rtc_l; [eexists; eapply (step_acquire 0 _ _ PowerDeviceD0); [done|vm_compute; reflexivity]|].
    eapply rtc_l; [eexists; eapply (step_acquire 0 _ _ PowerDeviceD3); [done|vm_compute; reflexivity]|].
    eapply rtc_l; [eexists; eapply (step_release 0 _ []); [done|vm_compute; reflexivity]|].
    eapply rtc_l; [eexists; eapply (step_release 0 _ []); [done|vm_compute; reflexivity]|]. apply rtc_refl. }
  by vm_compute.
Qed.

(** A second device that needs the resource does not try _ON again. *)
Lemma failed_on_is_not_retried :
  let '(L1, s) := UacpiNtPowerResAcquireForState (A := failing_once) (bench_pdo 11) PowerDeviceD0 bench_power in
  let '(L2, s) := UacpiNtPowerResAcquireForState (A := failing_once) (bench_pdo 10) PowerDeviceD0 s in
  option_map pr_RefCount (pw_List s !! 1%nat) = Some 2 /\
  option_map pr_On (pw_List s !! 1%nat) = Some false.
Proof. by vm_compute. Qed.
