(* ===== verification/PowerCaps.v ===== *)
(** sys/power.c, first half, and the capabilities query of sys/pdo.c: switching
    a device between its D states, and the map from system to device states. *)
From stdpp Require Import base list numbers option strings sorting.
From Stdlib Require Import ZArith Lia Ascii.
From S2P Require Import Prelude NtEnv AcpiEnv PowerRes.

Definition PowerSystemUnspecified : Z := 0.
Definition PowerSystemWorking : Z := 1.
Definition PowerSystemSleeping1 : Z := 2.
Definition PowerSystemSleeping2 : Z := 3.
Definition PowerSystemSleeping3 : Z := 4.
Definition PowerSystemHibernate : Z := 5.
Definition PowerSystemShutdown : Z := 6.
Definition PowerSystemMaximum : nat := 7.

(** The fields of DEVICE_CAPABILITIES this driver writes. *)
Record DEVICE_CAPABILITIES := mkCaps {
  dc_Version : Z;
  dc_SilentInstall : bool;
  dc_RawDeviceOK : bool;
  dc_SurpriseRemovalOK : bool;
  dc_Removable : bool;
  dc_UniqueID : bool;
  dc_NoDisplayInUI : bool;
  dc_Address : Z;
  dc_UINumber : Z;
  dc_DeviceState : list Z;
  dc_SystemWake : Z;
  dc_DeviceWake : Z;
  dc_DeviceD1 : bool;
  dc_DeviceD2 : bool;
  dc_WakeFromD0 : bool;
  dc_WakeFromD1 : bool;
  dc_WakeFromD2 : bool;
  dc_WakeFromD3 : bool
}.

Definition dc_set_DeviceState (l : list Z) (c : DEVICE_CAPABILITIES) : DEVICE_CAPABILITIES :=
  mkCaps (dc_Version c) (dc_SilentInstall c) (dc_RawDeviceOK c) (dc_SurpriseRemovalOK c) (dc_Removable c)
    (dc_UniqueID c) (dc_NoDisplayInUI c) (dc_Address c) (dc_UINumber c) l (dc_SystemWake c)
    (dc_DeviceWake c) (dc_DeviceD1 c) (dc_DeviceD2 c) (dc_WakeFromD0 c) (dc_WakeFromD1 c)
    (dc_WakeFromD2 c) (dc_WakeFromD3 c).
Definition dc_set_D1D2 (d1 d2 : bool) (c : DEVICE_CAPABILITIES) : DEVICE_CAPABILITIES :=
  mkCaps (dc_Version c) (dc_SilentInstall c) (dc_RawDeviceOK c) (dc_SurpriseRemovalOK c) (dc_Removable c)
    (dc_UniqueID c) (dc_NoDisplayInUI c) (dc_Address c) (dc_UINumber c) (dc_DeviceState c)
    (dc_SystemWake c) (dc_DeviceWake c) d1 d2 (dc_WakeFromD0 c) (dc_WakeFromD1 c)
    (dc_WakeFromD2 c) (dc_WakeFromD3 c).
Definition dc_set_Wake (sys dev : Z) (c : DEVICE_CAPABILITIES) : DEVICE_CAPABILITIES :=
  mkCaps (dc_Version c) (dc_SilentInstall c) (dc_RawDeviceOK c) (dc_SurpriseRemovalOK c) (dc_Removable c)
    (dc_UniqueID c) (dc_NoDisplayInUI c) (dc_Address c) (dc_UINumber c) (dc_DeviceState c)
    sys dev (dc_DeviceD1 c) (dc_DeviceD2 c) (dc_WakeFromD0 c) (dc_WakeFromD1 c)
    (dc_WakeFromD2 c) (dc_WakeFromD3 c).
Definition dc_set_WakeFrom (d0 d1 d2 d3 : bool) (c : DEVICE_CAPABILITIES) : DEVICE_CAPABILITIES :=
  mkCaps (dc_Version c) (dc_SilentInstall c) (dc_RawDeviceOK c) (dc_SurpriseRemovalOK c) (dc_Removable c)
    (dc_UniqueID c) (dc_NoDisplayInUI c) (dc_Address c) (dc_UINumber c) (dc_DeviceState c)
    (dc_SystemWake c) (dc_DeviceWake c) (dc_DeviceD1 c) (dc_DeviceD2 c) d0 d1 d2 d3.

(** The fields of UACPINT_PDO for its capabilities. *)
Record pdo_caps := mkPdoCaps {
  pc_Node : acpi_node;
  pc_CapsMapDone : bool;
  pc_CapsMap : DEVICE_CAPABILITIES;
  pc_HasAdr : bool;
  pc_Adr : Z;
  pc_ButtonCaps : Z;
  pc_IsThermalZone : bool;
  pc_Hid : string
}.

Definition pc_set_Map (m : DEVICE_CAPABILITIES) (p : pdo_caps) : pdo_caps :=
  mkPdoCaps (pc_Node p) true m (pc_HasAdr p) (pc_Adr p) (pc_ButtonCaps p) (pc_IsThermalZone p) (pc_Hid p).

Definition dc_set_Flags (silent raw surprise removable unique : bool) (c : DEVICE_CAPABILITIES)
  : DEVICE_CAPABILITIES :=
  mkCaps (dc_Version c) silent raw surprise removable unique (dc_NoDisplayInUI c) (dc_Address c)
    (dc_UINumber c) (dc_DeviceState c) (dc_SystemWake c) (dc_DeviceWake c) (dc_DeviceD1 c)
    (dc_DeviceD2 c) (dc_WakeFromD0 c) (dc_WakeFromD1 c) (dc_WakeFromD2 c) (dc_WakeFromD3 c).
Definition dc_set_Place (nodisplay : bool) (address uinumber : Z) (c : DEVICE_CAPABILITIES)
  : DEVICE_CAPABILITIES :=
  mkCaps (dc_Version c) (dc_SilentInstall c) (dc_RawDeviceOK c) (dc_SurpriseRemovalOK c) (dc_Removable c)
    (dc_UniqueID c) nodisplay address uinumber (dc_DeviceState c) (dc_SystemWake c) (dc_DeviceWake c)
    (dc_DeviceD1 c) (dc_DeviceD2 c) (dc_WakeFromD0 c) (dc_WakeFromD1 c) (dc_WakeFromD2 c) (dc_WakeFromD3 c).

(** [_stricmp] on the letters of ASCII. *)
Definition to_lower (c : ascii) : ascii :=
  let n := nat_of_ascii c in
  if ((65 <=? n) && (n <=? 90))%nat then ascii_of_nat (n + 32) else c.
Fixpoint stricmp_equal (a b : string) : bool :=
  match a, b with
  | EmptyString, EmptyString => true
  | String x a, String y b => Ascii.eqb (to_lower x) (to_lower y) && stricmp_equal a b
  | _, _ => false
  end.

Definition RawHids : list string :=
  ["ACPI0004"; "PNP0A05"; "PNP0A06"; "PNP0B00"; "PNP0C09"; "PNP0C0B"; "PNP0C0C"; "PNP0C0D"; "PNP0C0E";
   "PNP0C32"; "PNP0D80"; "TOS6200"]%string.

Definition UacpiNtPdoIsRawDevice (Pdo : pdo_caps) : bool :=
  if negb (pc_ButtonCaps Pdo =? 0) || pc_IsThermalZone Pdo then true
  else existsb (stricmp_equal (pc_Hid Pdo)) RawHids.

Definition UACPINT_STA_SHOW_IN_UI : Z := 4.

(** "_S0" with the digit of a sleep state, and a last character. *)
Definition sleep_name (SleepState : Z) (last : string) : string :=
  String.append "_S" (String (ascii_of_nat (Z.to_nat (u8 (48 + SleepState)))) last).

Section DeviceStates.
Context {A : Acpi}.

(** ** Device states *)

Definition UacpiNtPowerEvalMethod (Node : acpi_node) (Name : string) (h : list acpi_call)
  : bool * list acpi_call :=
  let '(st, _, h) := uacpi_eval Node Name [] h in (uacpi_likely_success st, h).

Definition method_PSx (DeviceState : Z) : string :=
  nth (Z.to_nat (DeviceState - PowerDeviceD0)) ["_PS0"; "_PS1"; "_PS2"; "_PS3"] "".

Definition UacpiNtPowerSetDeviceState (Pdo : pdo_power) (DeviceState : Z) (s : power_state)
  : NTSTATUS * pdo_power * power_state :=
  if pp_Node Pdo =? NULL then (STATUS_SUCCESS, Pdo, s)
  else if negb (device_state_named DeviceState) then (STATUS_SUCCESS, Pdo, s)
  else
    let '(NewList, s) := UacpiNtPowerResAcquireForState Pdo DeviceState s in
    let '(_, h) := UacpiNtPowerEvalMethod (pp_Node Pdo) (method_PSx DeviceState) (pw_Calls s) in
    let '(Pdo, s) := UacpiNtPowerResReleaseDelta Pdo NewList (pw_set_Calls h s) in
    (STATUS_SUCCESS, mkPdoPower (pp_Node Pdo) (pp_HeldResources Pdo) DeviceState true, s).

(** ** Sleep states and _PRW *)

Definition UacpiNtSleepStateSupported (h : list acpi_call) (SleepState : Z) : bool :=
  if 4 <=? SleepState then true
  else UacpiNtNodeHasChild h uacpi_namespace_root (sleep_name SleepState "_").

Definition UacpiNtQuerySleepDeviceState (Node : acpi_node) (SleepState : Z) (h : list acpi_call)
  : option Z * list acpi_call :=
  let '(Value, h) := uacpi_eval_simple_integer Node (sleep_name SleepState "D") h in
  (match Value with
   | Some v => if 3 <? v then None else Some (PowerDeviceD0 + v)
   | None => None
   end, h).

Definition UacpiNtWakeDeviceState (Node : acpi_node) (SleepState : Z)
  (Capabilities : option DEVICE_CAPABILITIES) (h : list acpi_call) : Z * list acpi_call :=
  let SystemState := PowerSystemWorking + SleepState in
  let '(Queried, h) := UacpiNtQuerySleepDeviceState Node SleepState h in
  (match Queried with
   | Some DeviceState => DeviceState
   | None =>
       match Capabilities with
       | Some c =>
           let d := nth (Z.to_nat SystemState) (dc_DeviceState c) PowerDeviceUnspecified in
           if device_state_named d then d else PowerDeviceD3
       | None => PowerDeviceD3
       end
   end, h).

Definition UacpiNtEvalPrw (Node : acpi_node) (h : list acpi_call)
  : option (list uacpi_object) * list acpi_call :=
  let '(st, Object, h) := uacpi_eval Node "_PRW" [] h in
  (match Object with
   | Some (UACPI_OBJECT_PACKAGE objects) =>
       if uacpi_unlikely_error st || (length objects <? 2)%nat then None else Some objects
   | _ => None
   end, h).

Definition UacpiNtPrwSleepState (Package : list uacpi_object) : Z :=
  match Package !! 1%nat ≫= uacpi_object_get_integer with
  | Some Deepest => if (Deepest <? 1) || (5 <? Deepest) then 0 else Deepest
  | None => 0
  end.

(** ** The state map *)

Definition UacpiNtCopyPowerCaps (Destination Source : DEVICE_CAPABILITIES) : DEVICE_CAPABILITIES :=
  dc_set_WakeFrom (dc_WakeFromD0 Source) (dc_WakeFromD1 Source) (dc_WakeFromD2 Source) (dc_WakeFromD3 Source)
    (dc_set_D1D2 (dc_DeviceD1 Source) (dc_DeviceD2 Source)
       (dc_set_Wake (dc_SystemWake Source) (dc_DeviceWake Source)
          (dc_set_DeviceState (dc_DeviceState Source) Destination))).

Definition UacpiNtPowerMapWake (Node : acpi_node) (Capabilities : DEVICE_CAPABILITIES)
  (h : list acpi_call) : DEVICE_CAPABILITIES * list acpi_call :=
  let '(Package, h) := UacpiNtEvalPrw Node h in
  match Package with
  | None => (Capabilities, h)
  | Some Package =>
      let SleepState := UacpiNtPrwSleepState Package in
      if SleepState =? 0 then (Capabilities, h)
      else if negb (UacpiNtSleepStateSupported h SleepState) then (Capabilities, h)
      else
        let c := dc_set_Wake (PowerSystemWorking + SleepState) (dc_DeviceWake Capabilities) Capabilities in
        let '(DeviceWake, h) := UacpiNtWakeDeviceState Node SleepState (Some c) h in
        (dc_set_WakeFrom (DeviceWake =? PowerDeviceD0) (DeviceWake =? PowerDeviceD1)
           (DeviceWake =? PowerDeviceD2) (DeviceWake =? PowerDeviceD3)
           (dc_set_Wake (dc_SystemWake c) DeviceWake c), h)
  end.

(** A _SxD answer moved deeper onto a state the device has. *)
Definition move_deeper (HasD1 HasD2 : bool) (DeviceState : Z) : Z :=
  let d := if (DeviceState =? PowerDeviceD1) && negb HasD1
           then (if HasD2 then PowerDeviceD2 else PowerDeviceD3) else DeviceState in
  if (d =? PowerDeviceD2) && negb HasD2 then PowerDeviceD3 else d.

Definition map_sleep_state (Node : acpi_node) (HasD1 HasD2 : bool) (SystemState : Z)
  (lh : list Z * list acpi_call) : list Z * list acpi_call :=
  let '(Queried, h) := UacpiNtQuerySleepDeviceState Node (SystemState - PowerSystemWorking) lh.2 in
  match Queried with
  | None => (lh.1, h)
  | Some d => (<[Z.to_nat SystemState := move_deeper HasD1 HasD2 d]> lh.1, h)
  end.

Definition default_state_map : list Z :=
  map (fun SystemState => if Z.of_nat SystemState =? PowerSystemWorking then PowerDeviceD0 else PowerDeviceD3)
    (seq 0 PowerSystemMaximum).

Definition sleeping_states : list Z :=
  [PowerSystemSleeping1; PowerSystemSleeping2; PowerSystemSleeping3; PowerSystemHibernate].

(** D1 and D2 need a _PSx or a _PRx. *)
Definition has_device_state (h : list acpi_call) (Node : acpi_node) (PSx PRx : string) : bool :=
  UacpiNtNodeHasChild h Node PSx || UacpiNtNodeHasChild h Node PRx.

Definition UacpiNtPowerBuildStateMap (Pdo : pdo_caps) (Capabilities : DEVICE_CAPABILITIES)
  (h : list acpi_call) : pdo_caps * DEVICE_CAPABILITIES * list acpi_call :=
  if pc_CapsMapDone Pdo then (Pdo, UacpiNtCopyPowerCaps Capabilities (pc_CapsMap Pdo), h)
  else
    let c := dc_set_Wake PowerSystemUnspecified PowerDeviceUnspecified
               (dc_set_DeviceState default_state_map Capabilities) in
    if pc_Node Pdo =? NULL then (Pdo, c, h)
    else
      let HasD1 := has_device_state h (pc_Node Pdo) "_PS1" "_PR1" in
      let HasD2 := has_device_state h (pc_Node Pdo) "_PS2" "_PR2" in
      let c := dc_set_D1D2 HasD1 HasD2 c in
      let '(l, h) := foldl (fun lh SystemState => map_sleep_state (pc_Node Pdo) HasD1 HasD2 SystemState lh)
                       (dc_DeviceState c, h) sleeping_states in
      let '(c, h) := UacpiNtPowerMapWake (pc_Node Pdo) (dc_set_DeviceState l c) h in
      (pc_set_Map (UacpiNtCopyPowerCaps (pc_CapsMap Pdo) c) Pdo, c, h).

(** ** Filtered devices *)

Definition UacpiNtPowerMergeWakeCaps (Node : acpi_node) (Capabilities : DEVICE_CAPABILITIES)
  (h : list acpi_call) : DEVICE_CAPABILITIES * list acpi_call :=
  if Node =? NULL then (Capabilities, h)
  else
    let '(Package, h) := UacpiNtEvalPrw Node h in
    match Package with
    | None => (Capabilities, h)
    | Some Package =>
        let SleepState := UacpiNtPrwSleepState Package in
        if negb (SleepState =? 0) && UacpiNtSleepStateSupported h SleepState then
          let SystemWake := PowerSystemWorking + SleepState in
          let c :=
            if (dc_SystemWake Capabilities =? PowerSystemUnspecified) ||
               (SystemWake <? dc_SystemWake Capabilities)
            then dc_set_Wake SystemWake (dc_DeviceWake Capabilities) Capabilities else Capabilities in
          let '(DeviceWake, h) := UacpiNtWakeDeviceState Node SleepState (Some c) h in
          let c := if dc_DeviceWake c <? DeviceWake then dc_set_Wake (dc_SystemWake c) DeviceWake c else c in
          (if DeviceWake =? PowerDeviceD0
           then dc_set_WakeFrom true (dc_WakeFromD1 c) (dc_WakeFromD2 c) (dc_WakeFromD3 c) c
           else if DeviceWake =? PowerDeviceD1
           then dc_set_WakeFrom (dc_WakeFromD0 c) true (dc_WakeFromD2 c) (dc_WakeFromD3 c) c
           else if DeviceWake =? PowerDeviceD2
           then dc_set_WakeFrom (dc_WakeFromD0 c) (dc_WakeFromD1 c) true (dc_WakeFromD3 c) c
           else dc_set_WakeFrom (dc_WakeFromD0 c) (dc_WakeFromD1 c) (dc_WakeFromD2 c) true c, h)
        else (Capabilities, h)
    end.

(** ** The capabilities query *)

Definition UacpiNtPdoQueryCapabilities (Pdo : pdo_caps) (Capabilities : option DEVICE_CAPABILITIES)
  (h : list acpi_call) : NTSTATUS * pdo_caps * option DEVICE_CAPABILITIES * list acpi_call :=
  match Capabilities with
  | None => (STATUS_UNSUCCESSFUL, Pdo, None, h)
  | Some c =>
      if dc_Version c <? 1 then (STATUS_UNSUCCESSFUL, Pdo, Some c, h)
      else
        let c := dc_set_Flags true (UacpiNtPdoIsRawDevice Pdo) false false false c in
        let '(Pdo, c, h) := UacpiNtPowerBuildStateMap Pdo c h in
        let c := if pc_HasAdr Pdo
                 then dc_set_Place (dc_NoDisplayInUI c) (u32 (pc_Adr Pdo)) (dc_UINumber c) c else c in
        if pc_Node Pdo =? NULL then (STATUS_SUCCESS, Pdo, Some c, h)
        else
          let '(Sun, h) := uacpi_eval_simple_integer (pc_Node Pdo) "_SUN" h in
          let c := match Sun with
                   | Some Sun => dc_set_Place (dc_NoDisplayInUI c) (dc_Address c) (u32 Sun) c
                   | None => c
                   end in
          let '(Sta, h) := uacpi_eval_sta (pc_Node Pdo) h in
          let c := if negb (has_flag Sta UACPINT_STA_SHOW_IN_UI)
                   then dc_set_Place true (dc_Address c) (dc_UINumber c) c else c in
          let c := dc_set_Flags (dc_SilentInstall c) (dc_RawDeviceOK c) (dc_SurpriseRemovalOK c)
                     (dc_Removable c) (UacpiNtNodeHasChild h (pc_Node Pdo) "_UID") c in
          (STATUS_SUCCESS, Pdo, Some c, h)
  end.

(** ** The state map *)

(** The D states of a device: D0 and D3, and those with a method. *)
Definition device_has (HasD1 HasD2 : bool) (d : Z) : bool :=
  (d =? PowerDeviceD0) || (d =? PowerDeviceD3) || ((d =? PowerDeviceD1) && HasD1) ||
  ((d =? PowerDeviceD2) && HasD2).

(** [d] is the shallowest state of the device from [q] on. *)
Definition shallowest_from (HasD1 HasD2 : bool) (q d : Z) : Prop :=
  device_has HasD1 HasD2 d = true /\ q <= d /\
  forall d', device_has HasD1 HasD2 d' = true -> q <= d' -> d <= d'.

Lemma move_deeper_correct HasD1 HasD2 q :
  device_state_named q = true -> shallowest_from HasD1 HasD2 q (move_deeper HasD1 HasD2 q).
Proof.
  unfold device_state_named. intros H. bool_prop.
  assert (q = 1 \/ q = 2 \/ q = 3 \/ q = 4) as [-> | [-> | [-> | ->]]]
    by (unfold PowerDeviceD0, PowerDeviceD3 in *; lia);
    destruct HasD1, HasD2; (split_and!; [done|vm_compute; discriminate|]);
    unfold device_has, PowerDeviceD0, PowerDeviceD1, PowerDeviceD2, PowerDeviceD3;
    intros d' Hd'; repeat (apply orb_prop in Hd' as [Hd'|Hd']); bool_prop; subst;
    vm_compute; try discriminate; intros Hq Hc; congruence.
Qed.

Lemma query_state_named Node SleepState h d h' :
  UacpiNtQuerySleepDeviceState Node SleepState h = (Some d, h') -> device_state_named d = true.
Proof.
  unfold UacpiNtQuerySleepDeviceState, uacpi_eval_simple_integer, uacpi_eval.
  destruct (answer_eval _ _ _ _) as [st o]. destruct (uacpi_likely_success st); [|by intros].
  destruct o as [o|]; [|by intros]. destruct o; simpl; try by intros.
  destruct (3 <? u64 v) eqn:E; [by intros|]. intros [= <- <-]. bool_prop.
  pose proof (u64_range v) as Hv. unfold is_u64, device_state_named, PowerDeviceD0, PowerDeviceD3 in *.
  apply andb_true_intro. split; apply Z.leb_le; lia.
Qed.

(** The calls made before the [i]-th sleeping state is asked for. *)
Definition asked_before (Node : acpi_node) (i : nat) (h : list acpi_call) : list acpi_call :=
  reverse (map (fun S => CallEval Node (sleep_name (S - PowerSystemWorking) "D") [])
             (take i sleeping_states)) ++ h.

Lemma map_sleep_state_eq Node HasD1 HasD2 S l h :
  map_sleep_state Node HasD1 HasD2 S (l, h) =
    (match (UacpiNtQuerySleepDeviceState Node (S - PowerSystemWorking) h).1 with
     | None => l
     | Some d => <[Z.to_nat S := move_deeper HasD1 HasD2 d]> l
     end, CallEval Node (sleep_name (S - PowerSystemWorking) "D") [] :: h).
Proof.
  unfold map_sleep_state, UacpiNtQuerySleepDeviceState, uacpi_eval_simple_integer, uacpi_eval. simpl.
  destruct (answer_eval _ _ _ _) as [st o]. simpl. repeat case_match; simplify_eq/=; done.
Qed.

(** What the answer for a state makes of its entry. *)
Definition mapped_state (HasD1 HasD2 : bool) (Queried : option Z) (d : Z) : Prop :=
  match Queried with
  | Some q => shallowest_from HasD1 HasD2 q d
  | None => d = PowerDeviceD3
  end.

Lemma sleep_states_mapped Node HasD1 HasD2 h :
  let l := (foldl (fun lh S => map_sleep_state Node HasD1 HasD2 S lh) (default_state_map, h)
              sleeping_states).1 in
  length l = PowerSystemMaximum /\ l !! Z.to_nat PowerSystemWorking = Some PowerDeviceD0 /\
  forall i S, sleeping_states !! i = Some S -> exists d, l !! Z.to_nat S = Some d /\
    mapped_state HasD1 HasD2
      (UacpiNtQuerySleepDeviceState Node (S - PowerSystemWorking) (asked_before Node i h)).1 d.
Proof.
  unfold sleeping_states. cbn [foldl]. rewrite !map_sleep_state_eq. cbn [fst].
  set (q := fun i S => (UacpiNtQuerySleepDeviceState Node (S - PowerSystemWorking) (asked_before Node i h)).1).
  assert (forall i S d, q i S = Some d ->
            shallowest_from HasD1 HasD2 d (move_deeper HasD1 HasD2 d)) as Hq.
  { intros i S d E. apply move_deeper_correct. unfold q in E.
    destruct (UacpiNtQuerySleepDeviceState _ _ _) as [r h'] eqn:E'. simpl in E. subst r.
    by eapply query_state_named. }
  change (UacpiNtQuerySleepDeviceState Node (PowerSystemSleeping1 - PowerSystemWorking) h).1
    with (q 0%nat PowerSystemSleeping1).
  change (UacpiNtQuerySleepDeviceState Node (PowerSystemSleeping2 - PowerSystemWorking) _).1
    with (q 1%nat PowerSystemSleeping2).
  change (UacpiNtQuerySleepDeviceState Node (PowerSystemSleeping3 - PowerSystemWorking) _).1
    with (q 2%nat PowerSystemSleeping3).
  change (UacpiNtQuerySleepDeviceState Node (PowerSystemHibernate - PowerSystemWorking) _).1
    with (q 3%nat PowerSystemHibernate).
  pose proof (Hq 0%nat PowerSystemSleeping1) as H0. pose proof (Hq 1%nat PowerSystemSleeping2) as H1.
  pose proof (Hq 2%nat PowerSystemSleeping3) as H2. pose proof (Hq 3%nat PowerSystemHibernate) as H3.
  split_and!.
  - repeat case_match; by rewrite ?length_insert.
  - repeat case_match; done.
  - intros i S HS. change ((UacpiNtQuerySleepDeviceState Node (S - PowerSystemWorking) (asked_before Node i h)).1)
      with (q i S).
    destruct i as [|[|[|[|i]]]]; simplify_eq/=;
      destruct (q 0%nat PowerSystemSleeping1), (q 1%nat PowerSystemSleeping2),
        (q 2%nat PowerSystemSleeping3), (q 3%nat PowerSystemHibernate);
      (eexists; split; [reflexivity|]); simpl; eauto.
Qed.

Lemma map_wake_frame Node c h :
  dc_DeviceState (UacpiNtPowerMapWake Node c h).1 = dc_DeviceState c /\
  dc_DeviceD1 (UacpiNtPowerMapWake Node c h).1 = dc_DeviceD1 c /\
  dc_DeviceD2 (UacpiNtPowerMapWake Node c h).1 = dc_DeviceD2 c.
Proof.
  unfold UacpiNtPowerMapWake. destruct (UacpiNtEvalPrw Node h) as [[Package|] h']; [|done].
  destruct (_ =? 0); [done|]. destruct (negb _); [done|].
  by destruct (UacpiNtWakeDeviceState _ _ _ _) as [d h''].
Qed.

(** What a first query makes of the map. *)
Lemma build_state_map_fresh Pdo c h :
  pc_CapsMapDone Pdo = false -> pc_Node Pdo <> NULL ->
  let HasD1 := has_device_state h (pc_Node Pdo) "_PS1" "_PR1" in
  let HasD2 := has_device_state h (pc_Node Pdo) "_PS2" "_PR2" in
  let '(Pdo', c', h') := UacpiNtPowerBuildStateMap Pdo c h in
  dc_DeviceState c' = (foldl (fun lh S => map_sleep_state (pc_Node Pdo) HasD1 HasD2 S lh)
                         (default_state_map, h) sleeping_states).1 /\
  dc_DeviceD1 c' = HasD1 /\ dc_DeviceD2 c' = HasD2 /\
  Pdo' = pc_set_Map (UacpiNtCopyPowerCaps (pc_CapsMap Pdo) c') Pdo.
Proof.
  intros Hd Hn HasD1 HasD2. unfold UacpiNtPowerBuildStateMap. rewrite Hd.
  replace (pc_Node Pdo =? NULL) with false by (symmetry; by apply Z.eqb_neq).
  fold HasD1 HasD2. cbn [dc_DeviceState dc_set_D1D2 dc_set_Wake dc_set_DeviceState].
  destruct (foldl _ _ _) as [l h1] eqn:E.
  match goal with |- context [UacpiNtPowerMapWake ?n ?c ?h] =>
    pose proof (map_wake_frame n c h) as (F1 & F2 & F3); destruct (UacpiNtPowerMapWake n c h) as [c' h'] end.
  cbn [fst] in F1, F2, F3. by rewrite F1, F2, F3.
Qed.

(** C17.  The first query fills the whole map: working is D0, and each sleeping
    state gets the shallowest D state of the device from the _SxD answer on, D3
    where the firmware says nothing. *)
Theorem state_map_correct Pdo c h :
  pc_CapsMapDone Pdo = false -> pc_Node Pdo <> NULL ->
  let '(Pdo', c', h') := UacpiNtPowerBuildStateMap Pdo c h in
  length (dc_DeviceState c') = PowerSystemMaximum /\
  dc_DeviceState c' !! Z.to_nat PowerSystemWorking = Some PowerDeviceD0 /\
  forall i S, sleeping_states !! i = Some S ->
  exists d, dc_DeviceState c' !! Z.to_nat S = Some d /\
    mapped_state (dc_DeviceD1 c') (dc_DeviceD2 c')
      (UacpiNtQuerySleepDeviceState (pc_Node Pdo) (S - PowerSystemWorking)
         (asked_before (pc_Node Pdo) i h)).1 d.
Proof.
  intros Hd Hn. pose proof (build_state_map_fresh Pdo c h Hd Hn) as H. simpl in H.
  destruct (UacpiNtPowerBuildStateMap Pdo c h) as [[Pdo' c'] h'].
  destruct H as (-> & -> & -> & _). apply sleep_states_mapped.
Qed.

(** The answers for the life of the device are those of the first query: later
    ones evaluate nothing, whatever the firmware would say. *)
Lemma state_map_stable Pdo c c2 h h2 :
  pc_CapsMapDone Pdo = false -> pc_Node Pdo <> NULL ->
  let '(Pdo', c', h') := UacpiNtPowerBuildStateMap Pdo c h in
  UacpiNtPowerBuildStateMap Pdo' c2 h2 = (Pdo', UacpiNtCopyPowerCaps c2 c', h2).
Proof.
  intros Hd Hn. pose proof (build_state_map_fresh Pdo c h Hd Hn) as H. simpl in H.
  destruct (UacpiNtPowerBuildStateMap Pdo c h) as [[Pdo' c'] h'].
  destruct H as (_ & _ & _ & ->). done.
Qed.

(** ** The order of a switch *)

(** A resource the first reference turns on, the last one turns off. *)
Definition turns_on (R : UACPINT_POWER_RESOURCE) : bool := (pr_RefCount R =? 0) && negb (pr_On R).
Definition turns_off (R : UACPINT_POWER_RESOURCE) : bool := (pr_RefCount R =? 1) && pr_On R.

Definition is_now (s : power_state) (f : UACPINT_POWER_RESOURCE -> bool) (r : nat) : bool :=
  match pw_List s !! r with Some R => f R | None => false end.

(** The evaluations of a switch method, newest first, on the resources of [l]. *)
Definition switch_calls (s : power_state) (path : string) (l : list nat) : list acpi_call :=
  reverse (map (fun r => CallEval (from_option pr_Node NULL (pw_List s !! r)) path []) l).

Lemma reference_calls r s R :
  pw_List s !! r = Some R -> 0 <= pr_RefCount R < LONG_MAX ->
  pw_Calls (UacpiNtPowerResReference r s) =
    (if turns_on R then [CallEval (pr_Node R) "_ON" []] else []) ++ pw_Calls s /\
  forall k, k <> r -> pw_List (UacpiNtPowerResReference r s) !! k = pw_List s !! k.
Proof.
  intros HR Hc. unfold UacpiNtPowerResReference, turns_on, uacpi_eval.
  rewrite HR, s32_small by (unfold LONG_MAX in *; lia). simpl.
  destruct (pr_RefCount R =? 0) eqn:E, (pr_RefCount R + 1 =? 1) eqn:E1; bool_prop; try lia; simpl.
  - destruct (pr_On R); simpl; [|destruct (answer_eval _ _ _ _) as [st o]];
      (split; [done|intros; simpl; by rewrite list_lookup_insert_ne]).
  - split; [done|intros; simpl; by rewrite list_lookup_insert_ne].
Qed.

Lemma dereference_calls r s R :
  pw_List s !! r = Some R -> 1 <= pr_RefCount R < LONG_MAX ->
  pw_Calls (UacpiNtPowerResDereference r s) =
    (if turns_off R then [CallEval (pr_Node R) "_OFF" []] else []) ++ pw_Calls s /\
  forall k, k <> r -> pw_List (UacpiNtPowerResDereference r s) !! k = pw_List s !! k.
Proof.
  intros HR Hc. unfold UacpiNtPowerResDereference, turns_off, uacpi_eval.
  rewrite HR. replace (0 <? pr_RefCount R) with true by (symmetry; apply Z.ltb_lt; lia).
  rewrite s32_small by (unfold LONG_MAX in *; lia). simpl.
  destruct (pr_RefCount R =? 1) eqn:E, (pr_RefCount R - 1 =? 0) eqn:E1; bool_prop; try lia; simpl.
  - destruct (pr_On R); simpl; [destruct (answer_eval _ _ _ _) as [st o]|];
      (split; [done|intros; simpl; by rewrite list_lookup_insert_ne]).
  - split; [done|intros; simpl; by rewrite list_lookup_insert_ne].
Qed.

Lemma switch_fold_calls (f : nat -> power_state -> power_state) lo path
  (switched : UACPINT_POWER_RESOURCE -> bool) (l : list nat) s :
  (forall r s R, pw_List s !! r = Some R -> lo <= pr_RefCount R < LONG_MAX ->
     pw_Calls (f r s) = (if switched R then [CallEval (pr_Node R) path []] else []) ++ pw_Calls s /\
     forall k, k <> r -> pw_List (f r s) !! k = pw_List s !! k) ->
  NoDup l ->
  (forall r, r ∈ l -> exists R, pw_List s !! r = Some R /\ lo <= pr_RefCount R < LONG_MAX) ->
  pw_Calls (foldl (fun s r => f r s) s l) =
    switch_calls s path (filter (fun r => is_now s switched r = true) l) ++ pw_Calls s /\
  forall k, k ∉ l -> pw_List (foldl (fun s r => f r s) s l) !! k = pw_List s !! k.
Proof.
  intros Hf Hn. revert s. induction Hn as [|x l Hx Hn IH]; intros s Hok; cbn [foldl]; [done|].
  destruct (Hok x) as (R & HR & Hc); [by left|]. destruct (Hf x s R HR Hc) as [Hcalls Hsame].
  assert (forall k, k ∈ l -> pw_List (f x s) !! k = pw_List s !! k) as Hl.
  { intros k Hk. apply Hsame. by intros ->. }
  destruct (IH (f x s)) as [IHc IHs].
  { intros r Hr. rewrite (Hl r Hr). apply Hok. by right. }
  split.
  - rewrite IHc, Hcalls.
    assert (filter (fun r => is_now (f x s) switched r = true) l =
            filter (fun r => is_now s switched r = true) l) as ->.
    { apply filter_same. intros r Hr. unfold is_now. by rewrite Hl. }
    assert (forall l' : list nat, l' ⊆ l -> switch_calls (f x s) path l' = switch_calls s path l') as E.
    { intros l' Hs. unfold switch_calls. f_equal. apply map_ext_in. intros r Hr.
      rewrite Hl; [done|]. apply Hs. by apply list_elem_of_In. }
    rewrite E by (by intros r [_ ?]%list_elem_of_filter).
    assert (is_now s switched x = switched R) as Ex by (unfold is_now; by rewrite HR).
    rewrite filter_cons, Ex. destruct (switched R);
      [rewrite decide_True by done|by rewrite decide_False by done].
    unfold switch_calls. cbn [map]. rewrite reverse_cons, HR. simpl. by rewrite <- app_assoc.
  - intros k Hk. rewrite IHs, Hsame; [done|..]; intros ?; apply Hk; subst; [by left|by right].
Qed.

Lemma eval_list_calls Device MethodName s L s' :
  Device <> NULL -> pw_Ready s = true ->
  UacpiNtPowerResEvalList Device MethodName UACPINT_MAX_POWER_RESOURCES s = (L, s') ->
  pw_Calls s' = CallEval Device MethodName [] :: pw_Calls s /\
  StronglySorted (order_le (pw_List s)) L.
Proof.
  unfold UacpiNtPowerResEvalList, uacpi_eval. intros Hn Hr H. rewrite Hr in H.
  replace (Device =? NULL) with false in H by (symmetry; by apply Z.eqb_neq). simpl in H.
  repeat case_hyp H; simplify_eq/=; (split; [done|]); try by constructor.
  unfold UacpiNtPowerResResolve. apply sort_by_order_spec.
Qed.

Definition all_counted (s : power_state) : Prop :=
  Forall (fun R => 0 <= pr_RefCount R < LONG_MAX) (pw_List s).

Lemma all_counted_seq s : all_counted s -> Forall (counted s 0 LONG_MAX) (seq 0 (length (pw_List s))).
Proof.
  intros H. apply Forall_forall. intros r _ R HR. unfold all_counted in H. rewrite Forall_lookup in H. eauto.
Qed.

(** The resources a device takes with a list: those it does not hold, that
    nobody holds. *)
Definition taken_first (Pdo : pdo_power) (s : power_state) (L : list nat) : list nat :=
  filter (fun r => is_now s turns_on r = true)
    (filter (fun r => UacpiNtPowerResInList r (pp_HeldResources Pdo) = false) L).
Definition dropped_last (Pdo : pdo_power) (s : power_state) (L : list nat) : list nat :=
  filter (fun r => is_now s turns_off r = true)
    (filter (fun r => UacpiNtPowerResInList r L = false) (reverse (pp_HeldResources Pdo))).

Lemma acquire_for_state_calls Pdo D s L s' :
  pp_Node Pdo <> NULL -> device_state_named D = true -> pw_Ready s = true -> all_counted s ->
  UacpiNtPowerResAcquireForState Pdo D s = (L, s') ->
  pw_Calls s' = switch_calls s "_ON" (taken_first Pdo s L) ++
                CallEval (pp_Node Pdo) (method_PRx D) [] :: pw_Calls s /\
  StronglySorted (order_le (pw_List s)) L /\ resource_list s L /\ pw_Ready s' = true /\
  forall k, k ∈ pp_HeldResources Pdo -> pw_List s' !! k = pw_List s !! k.
Proof.
  intros Hn HD Hr Hc H. pose proof (all_counted_seq s Hc) as Hc'.
  destruct (acquire_for_state_moves Pdo D s L s' Hc' H) as [HL [M1 M2 _]].
  unfold UacpiNtPowerResAcquireForState in H. rewrite HD, Hr in H. simpl in H.
  destruct (UacpiNtPowerResEvalList _ _ _ _) as [L1 s1] eqn:E. simplify_eq/=.
  destruct (eval_list_calls _ _ _ _ _ Hn Hr E) as [Ecalls Es].
  apply eval_list_correct in E as (El & Er & (Hnd & Hlen & Hb)).
  rewrite foldl_skip in *.
  destruct (switch_fold_calls UacpiNtPowerResReference 0 "_ON" turns_on
              (filter (fun r => UacpiNtPowerResInList r (pp_HeldResources Pdo) = false) L) s1)
    as [Hcalls Hsame].
  - apply reference_calls.
  - by apply NoDup_filter.
  - intros r [_ Hr']%list_elem_of_filter. rewrite Forall_forall in Hb. specialize (Hb r Hr').
    apply lookup_lt_is_Some_2 in Hb as [R HR]. exists R. split; [done|].
    unfold all_counted in Hc. rewrite <- El, Forall_lookup in Hc. eauto.
  - split_and!; [|done| |congruence|].
    + rewrite Hcalls, Ecalls. unfold taken_first, switch_calls, is_now. by rewrite El.
    + split_and!; [done..|]. by rewrite <- El.
    + intros k Hk. rewrite Hsame; [by rewrite El|]. rewrite not_in_list_filter. tauto.
Qed.

Lemma release_delta_calls Pdo L s Pdo' s' :
  pw_Ready s = true -> resource_list s L -> NoDup (pp_HeldResources Pdo) ->
  (forall r, r ∈ pp_HeldResources Pdo -> exists R, pw_List s !! r = Some R /\ 1 <= pr_RefCount R < LONG_MAX) ->
  UacpiNtPowerResReleaseDelta Pdo L s = (Pdo', s') ->
  Pdo' = pp_set_Held L Pdo /\
  pw_Calls s' = switch_calls s "_OFF" (dropped_last Pdo s L) ++ pw_Calls s.
Proof.
  unfold UacpiNtPowerResReleaseDelta. intros -> (_ & Hl & _) Hn Hc H. simpl in H.
  rewrite take_ge in H by done. simplify_eq. split; [done|]. rewrite foldl_skip.
  apply (switch_fold_calls UacpiNtPowerResDereference 1 "_OFF" turns_off).
  - apply dereference_calls.
  - apply NoDup_filter. by rewrite reverse_Permutation.
  - intros r [_ Hr]%list_elem_of_filter. rewrite elem_of_reverse in Hr. by apply Hc.
Qed.

(** A switch to a D state evaluates, in this order: the _PRx of the new
    state; _ON on the listed resources the device does not hold and nobody holds,
    by resource order; _PSx; _OFF on the resources that only this device held and
    the new state does not list, in reverse order.  Then the device holds what
    the new state lists. *)
Theorem set_device_state_order Pdo D s :
  pp_Node Pdo <> NULL -> device_state_named D = true -> pw_Ready s = true -> all_counted s ->
  NoDup (pp_HeldResources Pdo) ->
  (forall r, r ∈ pp_HeldResources Pdo -> exists R, pw_List s !! r = Some R /\ 1 <= pr_RefCount R) ->
  let '(L, _) := UacpiNtPowerResAcquireForState Pdo D s in
  let '(Status, Pdo', s') := UacpiNtPowerSetDeviceState Pdo D s in
  Status = STATUS_SUCCESS /\
  Pdo' = mkPdoPower (pp_Node Pdo) L D true /\
  StronglySorted (order_le (pw_List s)) L /\
  pw_Calls s' =
    switch_calls s "_OFF" (dropped_last Pdo s L) ++
    [CallEval (pp_Node Pdo) (method_PSx D) []] ++
    switch_calls s "_ON" (taken_first Pdo s L) ++
    [CallEval (pp_Node Pdo) (method_PRx D) []] ++ pw_Calls s.
Proof.
  intros Hn HD Hr Hc Hnd Hh. unfold UacpiNtPowerSetDeviceState.
  replace (pp_Node Pdo =? NULL) with false by (symmetry; by apply Z.eqb_neq). rewrite HD. cbn [negb].
  destruct (UacpiNtPowerResAcquireForState Pdo D s) as [L s1] eqn:E.
  destruct (acquire_for_state_calls Pdo D s L s1 Hn HD Hr Hc E) as (Ecalls & Hs & HL & Hr1 & Hsame).
  apply acquire_for_state_moves in E as [_ M]; [|by apply all_counted_seq].
  unfold UacpiNtPowerEvalMethod, uacpi_eval. cbn [fst snd].
  destruct (answer_eval _ _ _ _) as [st o]. cbn [fst snd].
  set (s2 := pw_set_Calls _ s1).
  destruct (UacpiNtPowerResReleaseDelta Pdo L s2) as [Pdo' s'] eqn:E2.
  destruct (release_delta_calls Pdo L s2 Pdo' s') as [-> Ecalls2]; [done| |done| |done|].
  - unfold resource_list. cbn. by rewrite (mv_length _ _ _ M).
  - intros r Hrh. cbn. rewrite Hsame by done. destruct (Hh r Hrh) as (R & HR & ?).
    exists R. split; [done|]. unfold all_counted in Hc. rewrite Forall_lookup in Hc.
    specialize (Hc _ _ HR). lia.
  - split_and!; [done..|]. rewrite Ecalls2. cbn. rewrite Ecalls. f_equal.
    assert (dropped_last Pdo s2 L = dropped_last Pdo s L) as ->.
    { unfold dropped_last. apply filter_same. intros r [_ Hr']%list_elem_of_filter.
      rewrite elem_of_reverse in Hr'. unfold is_now. cbn. by rewrite Hsame. }
    unfold switch_calls. f_equal. apply map_ext_in. intros r Hr'%list_elem_of_In.
    apply list_elem_of_filter in Hr' as [_ [_ Hr']%list_elem_of_filter].
    rewrite elem_of_reverse in Hr'. cbn. by rewrite Hsame.
Qed.

(** Merging the wake fields into what a bus driver answered: only those fields
    change, the system wakes from no deeper than the bus allowed, and no state
    the device could wake from is lost. *)
Lemma merge_wake_only_adds Node c h :
  let c' := (UacpiNtPowerMergeWakeCaps Node c h).1 in
  c' = dc_set_WakeFrom (dc_WakeFromD0 c') (dc_WakeFromD1 c') (dc_WakeFromD2 c') (dc_WakeFromD3 c')
         (dc_set_Wake (dc_SystemWake c') (dc_DeviceWake c') c) /\
  (dc_SystemWake c <> PowerSystemUnspecified -> dc_SystemWake c' <= dc_SystemWake c) /\
  dc_DeviceWake c <= dc_DeviceWake c' /\
  (dc_WakeFromD0 c = true -> dc_WakeFromD0 c' = true) /\
  (dc_WakeFromD1 c = true -> dc_WakeFromD1 c' = true) /\
  (dc_WakeFromD2 c = true -> dc_WakeFromD2 c' = true) /\
  (dc_WakeFromD3 c = true -> dc_WakeFromD3 c' = true).
Proof.
  unfold UacpiNtPowerMergeWakeCaps. destruct c. cbn [dc_SystemWake].
  destruct (Node =? NULL); [cbn; split_and!; try done; lia|].
  destruct (UacpiNtEvalPrw Node h) as [[Package|] h1]; [|cbn; split_and!; try done; lia].
  destruct (negb _ && _); [|cbn; split_and!; try done; lia].
  destruct ((_ =? _) || _) eqn:E; destruct (UacpiNtWakeDeviceState _ _ _ _) as [d h2]; cbn;
    destruct (_ <? d) eqn:Ed; cbn;
    destruct (d =? PowerDeviceD0), (d =? PowerDeviceD1), (d =? PowerDeviceD2); cbn;
    bool_prop; split_and!; try done; try lia;
    intros Hn; apply orb_prop in E as [E|E]; bool_prop; by try lia.
Qed.
End DeviceStates.

(** ** Witnesses and what modelling showed *)

Definition no_caps : DEVICE_CAPABILITIES :=
  mkCaps 1 false false false false false false 0 0 [] 0 0 false false false false false false.

(** A device with _PS2, that answers D1 in S1 and D2 in S3, and wakes from S3. *)
Definition caps_methods : acpi_script :=
  [(10, "_PS2", UACPI_OBJECT_INTEGER 0); (10, "_S1D", UACPI_OBJECT_INTEGER 1);
   (10, "_S3D", UACPI_OBJECT_INTEGER 2);
   (10, "_PRW", UACPI_OBJECT_PACKAGE [UACPI_OBJECT_INTEGER 9; UACPI_OBJECT_INTEGER 3]);
   (1, "_S3_", UACPI_OBJECT_INTEGER 0)]%string.

Definition caps_acpi : Acpi := scripted_acpi caps_methods [] [].

Definition caps_pdo : pdo_caps := mkPdoCaps 10 false no_caps false 0 0 false "PNP0A08"%string.

Example caps_map :
  let c := (UacpiNtPowerBuildStateMap (A := caps_acpi) caps_pdo no_caps []).1.2 in
  dc_DeviceState c = [4; 1; 3; 4; 3; 4; 4] /\ dc_SystemWake c = PowerSystemSleeping3 /\
  dc_DeviceWake c = PowerDeviceD2 /\ dc_WakeFromD2 c = true.
Proof. by vm_compute. Qed.

Lemma state_map_correct_witness :
  pc_CapsMapDone caps_pdo = false /\
  let '(Pdo', c', h') := UacpiNtPowerBuildStateMap (A := caps_acpi) caps_pdo no_caps [] in
  length (dc_DeviceState c') = PowerSystemMaximum.
Proof.
  split; [reflexivity|].
  pose proof (state_map_correct (A := caps_acpi) caps_pdo no_caps [] eq_refl ltac:(vm_compute; discriminate)) as H.
  destruct (UacpiNtPowerBuildStateMap (A := caps_acpi) caps_pdo no_caps []) as [[Pdo' c'] h'].
  exact (proj1 H).
Defined.

(** The bench of [PowerRes]: the first device goes to D0. *)
Lemma set_device_state_order_witness :
  pw_Ready bench_power = true /\
  let '(L, _) := UacpiNtPowerResAcquireForState (A := bench_acpi) (bench_pdo 10) PowerDeviceD0 bench_power in
  let '(Status, Pdo', s') := UacpiNtPowerSetDeviceState (A := bench_acpi) (bench_pdo 10) PowerDeviceD0 bench_power in
  Pdo' = mkPdoPower 10 [1; 0]%nat PowerDeviceD0 true /\
  pw_Calls s' = [CallEval 10 "_PS0" []; CallEval 1 "_ON" []; CallEval 2 "_ON" []; CallEval 10 "_PR0" []].
Proof.
  split; [reflexivity|].
  pose proof (set_device_state_order (A := bench_acpi) (bench_pdo 10) PowerDeviceD0 bench_power
    ltac:(vm_compute; discriminate) eq_refl eq_refl
    ltac:(repeat constructor; vm_compute; discriminate) ltac:(constructor)
    ltac:(intros r Hr; by apply not_elem_of_nil in Hr)) as H.
  destruct (UacpiNtPowerResAcquireForState (A := bench_acpi) (bench_pdo 10) PowerDeviceD0 bench_power) as [L s1] eqn:E.
  destruct (UacpiNtPowerSetDeviceState (A := bench_acpi) (bench_pdo 10) PowerDeviceD0 bench_power) as [[St P] s2].
  destruct H as (_ & HP & _ & Hc). vm_compute in E. injection E as <- <-.
  split; [exact HP|]. rewrite Hc. reflexivity.
Defined.

(** The wake state is the answer of _SxD as it is, also when the device has no
    such state: the map says D1 is not there and that the device wakes from it. *)
Lemma wake_state_device_lacks :
  let acpi := scripted_acpi
    [(10, "_S3D", UACPI_OBJECT_INTEGER 1); (1, "_S3_", UACPI_OBJECT_INTEGER 0);
     (10, "_PRW", UACPI_OBJECT_PACKAGE [UACPI_OBJECT_INTEGER 9; UACPI_OBJECT_INTEGER 3])]%string [] [] in
  let c := (UacpiNtPowerBuildStateMap (A := acpi) caps_pdo no_caps []).1.2 in
  dc_DeviceD1 c = false /\ dc_DeviceState c !! Z.to_nat PowerSystemSleeping3 = Some PowerDeviceD3 /\
  dc_DeviceWake c = PowerDeviceD1 /\ dc_WakeFromD1 c = true.
Proof. by vm_compute. Qed.
