(* ===== verification/Wake.v ===== *)
(** sys/power.c, second half, and sys/sleep.c: arming a device for wake, and the
    wake masks across a sleep.  The steps of one call are here; how the calls of
    different threads interleave is in WakeRace.v. *)
From stdpp Require Import base list numbers option strings relations.
From Stdlib Require Import ZArith Lia.
From S2P Require Import Prelude NtEnv AcpiEnv PowerRes PowerCaps.

Definition STATUS_NO_SUCH_DEVICE : NTSTATUS := 0xC000000E.
Definition STATUS_CANCELLED : NTSTATUS := 0xC0000120.

(** The wake block of a device.  An IRP is a number; of the lock, the work item
    and the name nothing is kept. *)
Record UACPINT_WAKE := mkWake {
  wk_Node : acpi_node;
  wk_WaitWakeIrp : option nat;
  wk_GpeDevice : acpi_node;
  wk_GpeLine : Z;
  wk_GpeParsed : bool;
  wk_GpeValid : bool;
  wk_SystemWake : Z;
  wk_DeviceWake : Z;
  wk_RequestedSystemState : Z;
  wk_PswParsed : bool;
  wk_HasDsw : bool;
  wk_HasPsw : bool;
  wk_SetupDone : bool;
  wk_Armed : bool;
  wk_DepthSuspended : bool;
  wk_DisarmQueued : bool;
  wk_WakeResources : list nat
}.

Definition wk_set_Irp (i : option nat) (w : UACPINT_WAKE) : UACPINT_WAKE :=
  mkWake (wk_Node w) i (wk_GpeDevice w) (wk_GpeLine w) (wk_GpeParsed w) (wk_GpeValid w)
    (wk_SystemWake w) (wk_DeviceWake w) (wk_RequestedSystemState w) (wk_PswParsed w)
    (wk_HasDsw w) (wk_HasPsw w) (wk_SetupDone w) (wk_Armed w) (wk_DepthSuspended w)
    (wk_DisarmQueued w) (wk_WakeResources w).
Definition wk_set_Parsed  (w : UACPINT_WAKE) : UACPINT_WAKE :=
  mkWake (wk_Node w) (wk_WaitWakeIrp w) (wk_GpeDevice w) (wk_GpeLine w) true (wk_GpeValid w)
    (wk_SystemWake w) (wk_DeviceWake w) (wk_RequestedSystemState w) (wk_PswParsed w)
    (wk_HasDsw w) (wk_HasPsw w) (wk_SetupDone w) (wk_Armed w) (wk_DepthSuspended w)
    (wk_DisarmQueued w) (wk_WakeResources w).
Definition wk_set_Gpe (line : Z) (w : UACPINT_WAKE) : UACPINT_WAKE :=
  mkWake (wk_Node w) (wk_WaitWakeIrp w) NULL line (wk_GpeParsed w) true (wk_SystemWake w)
    (wk_DeviceWake w) (wk_RequestedSystemState w) (wk_PswParsed w) (wk_HasDsw w) (wk_HasPsw w)
    (wk_SetupDone w) (wk_Armed w) (wk_DepthSuspended w) (wk_DisarmQueued w) (wk_WakeResources w).
Definition wk_set_Wakes (sys dev : Z) (w : UACPINT_WAKE) : UACPINT_WAKE :=
  mkWake (wk_Node w) (wk_WaitWakeIrp w) (wk_GpeDevice w) (wk_GpeLine w) (wk_GpeParsed w)
    (wk_GpeValid w) sys dev (wk_RequestedSystemState w) (wk_PswParsed w) (wk_HasDsw w)
    (wk_HasPsw w) (wk_SetupDone w) (wk_Armed w) (wk_DepthSuspended w) (wk_DisarmQueued w)
    (wk_WakeResources w).
Definition wk_set_Requested (s : Z) (w : UACPINT_WAKE) : UACPINT_WAKE :=
  mkWake (wk_Node w) (wk_WaitWakeIrp w) (wk_GpeDevice w) (wk_GpeLine w) (wk_GpeParsed w)
    (wk_GpeValid w) (wk_SystemWake w) (wk_DeviceWake w) s (wk_PswParsed w) (wk_HasDsw w)
    (wk_HasPsw w) (wk_SetupDone w) (wk_Armed w) (wk_DepthSuspended w) (wk_DisarmQueued w)
    (wk_WakeResources w).
Definition wk_set_Psw (dsw psw : bool) (w : UACPINT_WAKE) : UACPINT_WAKE :=
  mkWake (wk_Node w) (wk_WaitWakeIrp w) (wk_GpeDevice w) (wk_GpeLine w) (wk_GpeParsed w)
    (wk_GpeValid w) (wk_SystemWake w) (wk_DeviceWake w) (wk_RequestedSystemState w) true dsw psw
    (wk_SetupDone w) (wk_Armed w) (wk_DepthSuspended w) (wk_DisarmQueued w) (wk_WakeResources w).
Definition wk_set_Setup  (w : UACPINT_WAKE) : UACPINT_WAKE :=
  mkWake (wk_Node w) (wk_WaitWakeIrp w) (wk_GpeDevice w) (wk_GpeLine w) (wk_GpeParsed w)
    (wk_GpeValid w) (wk_SystemWake w) (wk_DeviceWake w) (wk_RequestedSystemState w)
    (wk_PswParsed w) (wk_HasDsw w) (wk_HasPsw w) true (wk_Armed w) (wk_DepthSuspended w)
    (wk_DisarmQueued w) (wk_WakeResources w).
Definition wk_set_Armed (b : bool) (w : UACPINT_WAKE) : UACPINT_WAKE :=
  mkWake (wk_Node w) (wk_WaitWakeIrp w) (wk_GpeDevice w) (wk_GpeLine w) (wk_GpeParsed w)
    (wk_GpeValid w) (wk_SystemWake w) (wk_DeviceWake w) (wk_RequestedSystemState w)
    (wk_PswParsed w) (wk_HasDsw w) (wk_HasPsw w) (wk_SetupDone w) b (wk_DepthSuspended w)
    (wk_DisarmQueued w) (wk_WakeResources w).
Definition wk_set_Depth (b : bool) (w : UACPINT_WAKE) : UACPINT_WAKE :=
  mkWake (wk_Node w) (wk_WaitWakeIrp w) (wk_GpeDevice w) (wk_GpeLine w) (wk_GpeParsed w)
    (wk_GpeValid w) (wk_SystemWake w) (wk_DeviceWake w) (wk_RequestedSystemState w)
    (wk_PswParsed w) (wk_HasDsw w) (wk_HasPsw w) (wk_SetupDone w) (wk_Armed w) b
    (wk_DisarmQueued w) (wk_WakeResources w).
Definition wk_set_Queued (b : bool) (w : UACPINT_WAKE) : UACPINT_WAKE :=
  mkWake (wk_Node w) (wk_WaitWakeIrp w) (wk_GpeDevice w) (wk_GpeLine w) (wk_GpeParsed w)
    (wk_GpeValid w) (wk_SystemWake w) (wk_DeviceWake w) (wk_RequestedSystemState w)
    (wk_PswParsed w) (wk_HasDsw w) (wk_HasPsw w) (wk_SetupDone w) (wk_Armed w)
    (wk_DepthSuspended w) b (wk_WakeResources w).
Definition wk_set_Resources (l : list nat) (w : UACPINT_WAKE) : UACPINT_WAKE :=
  mkWake (wk_Node w) (wk_WaitWakeIrp w) (wk_GpeDevice w) (wk_GpeLine w) (wk_GpeParsed w)
    (wk_GpeValid w) (wk_SystemWake w) (wk_DeviceWake w) (wk_RequestedSystemState w)
    (wk_PswParsed w) (wk_HasDsw w) (wk_HasPsw w) (wk_SetupDone w) (wk_Armed w)
    (wk_DepthSuspended w) (wk_DisarmQueued w) l.

(** The block of a device whose node is [Node]. *)
Definition UacpiNtWakeInit (Node : acpi_node) (w : UACPINT_WAKE) : UACPINT_WAKE :=
  wk_set_Requested PowerSystemUnspecified
    (wk_set_Wakes PowerSystemUnspecified PowerDeviceUnspecified
       (mkWake Node (wk_WaitWakeIrp w) (wk_GpeDevice w) (wk_GpeLine w) (wk_GpeParsed w) (wk_GpeValid w)
          (wk_SystemWake w) (wk_DeviceWake w) (wk_RequestedSystemState w) (wk_PswParsed w) (wk_HasDsw w)
          (wk_HasPsw w) (wk_SetupDone w) (wk_Armed w) (wk_DepthSuspended w) (wk_DisarmQueued w)
          (wk_WakeResources w))).

(** The memory of a new device extension. *)
Definition zero_wake : UACPINT_WAKE :=
  mkWake NULL None NULL 0 false false 0 0 0 false false false false false false false [].

(** UacpiNtPendingSleepState, UacpiNtSystemResuming, UacpiNtWakeSourceClaimed,
    the wake blocks, the power resources, and the link devices, which are
    restored by the interrupt arbiter. *)
Record sleep_state {L : Type} := mkSleep {
  sl_Pending : Z;
  sl_Resuming : bool;
  sl_Claimed : bool;
  sl_Blocks : list UACPINT_WAKE;
  sl_Power : power_state;
  sl_Links : L
}.
Arguments sleep_state : clear implicits.

Section Wake.
Context {A : Acpi}.
(** [NTDDI_VERSION >= NTDDI_WIN8]. *)
Context (Win8 : bool).

(** ** _PRW and the wake circuit *)

Definition parse_gpe (Package : list uacpi_object) (w : UACPINT_WAKE) : UACPINT_WAKE :=
  match Package with
  | UACPI_OBJECT_INTEGER GpeLine :: _ => if u64 GpeLine <=? 255 then wk_set_Gpe (u64 GpeLine) w else w
  | _ => w
  end.

Definition UacpiNtWakeParsePrw (w : UACPINT_WAKE) (h : list acpi_call)
  : bool * UACPINT_WAKE * list acpi_call :=
  if wk_GpeParsed w then (wk_GpeValid w, w, h)
  else
    let w := wk_set_Parsed w in
    if wk_Node w =? NULL then (false, w, h)
    else
      let '(Package, h) := UacpiNtEvalPrw (wk_Node w) h in
      match Package with
      | None => (false, w, h)
      | Some Package =>
          let w := parse_gpe Package w in
          let SleepState := UacpiNtPrwSleepState Package in
          let '(w, h) :=
            if negb (SleepState =? 0) && UacpiNtSleepStateSupported h SleepState then
              let '(d, h) := UacpiNtWakeDeviceState (wk_Node w) SleepState None h in
              (wk_set_Wakes (PowerSystemWorking + SleepState) d w, h)
            else (w, h) in
          (wk_GpeValid w, w, h)
      end.

Definition UacpiNtWakeHasPrw := UacpiNtWakeParsePrw.

Definition bool_object (b : bool) : uacpi_object := UACPI_OBJECT_INTEGER (if b then 1 else 0).

(** The target states _DSW is told. *)
Definition dsw_target_system (w : UACPINT_WAKE) (Enable : bool) : Z :=
  if Enable && (PowerSystemWorking <? wk_RequestedSystemState w)
  then wk_RequestedSystemState w - PowerSystemWorking else 0.
Definition dsw_target_device (w : UACPINT_WAKE) (Enable : bool) : Z :=
  if Enable && device_state_named (wk_DeviceWake w) then wk_DeviceWake w - PowerDeviceD0 else 0.

Definition UacpiNtWakeSetPsw (Enable : bool) (w : UACPINT_WAKE) (h : list acpi_call)
  : UACPINT_WAKE * list acpi_call :=
  if wk_Node w =? NULL then (w, h)
  else
    let w := if wk_PswParsed w then w
             else let HasDsw := UacpiNtNodeHasChild h (wk_Node w) "_DSW" in
                  wk_set_Psw HasDsw
                    (if HasDsw then false else UacpiNtNodeHasChild h (wk_Node w) "_PSW") w in
    if negb (wk_HasDsw w) && negb (wk_HasPsw w) then (w, h)
    else if Win8 && wk_HasDsw w then
      if answer_create h 0 && answer_create h 1 && answer_create h 2 then
        let Arguments := [bool_object Enable; UACPI_OBJECT_INTEGER (dsw_target_system w Enable);
                          UACPI_OBJECT_INTEGER (dsw_target_device w Enable)] in
        (w, (uacpi_eval (wk_Node w) "_DSW" Arguments h).2)
      else (w, h)
    else if answer_create h 0 then (w, (uacpi_eval (wk_Node w) "_PSW" [bool_object Enable] h).2)
    else (w, h).

(** ** Disarming *)

Definition UacpiNtWakeReleaseHardware (w : UACPINT_WAKE) (s : power_state) : UACPINT_WAKE * power_state :=
  let '(_, h) := uacpi_event (CallDisableGpe (wk_GpeDevice w) (wk_GpeLine w)) (pw_Calls s) in
  let '(_, h) := uacpi_event (CallDisableGpeForWake (wk_GpeDevice w) (wk_GpeLine w)) h in
  let '(w, h) := UacpiNtWakeSetPsw false w h in
  let s := UacpiNtPowerResReleaseWake (wk_WakeResources w) (pw_set_Calls h s) in
  (wk_set_Resources [] w, s).

Definition UacpiNtWakeDisarm (w : UACPINT_WAKE) (s : power_state) : UACPINT_WAKE * power_state :=
  if negb (wk_Armed w) then (w, s) else UacpiNtWakeReleaseHardware (wk_set_Armed false w) s.

(** The decision of the worker, under the lock. *)
Definition worker_takes (w : UACPINT_WAKE) : bool * UACPINT_WAKE :=
  match wk_WaitWakeIrp w with
  | None => if wk_Armed w then (true, wk_set_Armed false w) else (false, w)
  | Some _ => (false, w)
  end.

Definition UacpiNtWakeDisarmWorker (w : UACPINT_WAKE) (s : power_state) : UACPINT_WAKE * power_state :=
  let '(Disarm, w) := worker_takes (wk_set_Queued false w) in
  if negb Disarm then (w, s) else UacpiNtWakeReleaseHardware w s.

(** ** Arming *)

(** UacpiNtWakeArm up to the first release of the lock: the status it completes
    the IRP with, [None] to go on. *)
Definition arm_check (Requested : Z) (w : UACPINT_WAKE) (s : power_state)
  : option NTSTATUS * UACPINT_WAKE * power_state :=
  let '(Valid, w, h) := UacpiNtWakeParsePrw w (pw_Calls s) in
  let s := pw_set_Calls h s in
  if negb Valid then (Some STATUS_NOT_SUPPORTED, w, s)
  else if negb (wk_SystemWake w =? PowerSystemUnspecified) && (wk_SystemWake w <? Requested)
  then (Some STATUS_INVALID_DEVICE_STATE, w, s)
  else
    let w := wk_set_Requested Requested w in
    match wk_WaitWakeIrp w with
    | Some _ => (Some STATUS_DEVICE_BUSY, w, s)
    | None => (None, w, s)
    end.

(** From there to the second lock: the GPE, the resources and the circuit. *)
Definition arm_hardware (w : UACPINT_WAKE) (s : power_state)
  : option NTSTATUS * UACPINT_WAKE * power_state :=
  let Device := wk_GpeDevice w in
  let Line := wk_GpeLine w in
  let '(Setup, w, h) :=
    if wk_SetupDone w then (UACPI_STATUS_OK, w, pw_Calls s)
    else let '(st, h) := uacpi_event (CallSetupGpeForWake Device Line (wk_Node w)) (pw_Calls s) in
         (st, if uacpi_unlikely_error st then w else wk_set_Setup w, h) in
  if uacpi_unlikely_error Setup then (Some STATUS_NOT_SUPPORTED, w, pw_set_Calls h s)
  else
    let '(_, h) := uacpi_event (CallClearGpe Device Line) h in
    let '(st, h) := uacpi_event (CallEnableGpeForWake Device Line) h in
    if uacpi_unlikely_error st then (Some STATUS_NOT_SUPPORTED, w, pw_set_Calls h s)
    else
      let '(st, h) := uacpi_event (CallEnableGpe Device Line) h in
      if uacpi_unlikely_error st
      then let '(_, h) := uacpi_event (CallDisableGpeForWake Device Line) h in
           (Some STATUS_NOT_SUPPORTED, w, pw_set_Calls h s)
      else
        let w := wk_set_Armed true w in
        let '(List, s) := UacpiNtPowerResAcquireWake (wk_Node w) UACPINT_MAX_POWER_RESOURCES
                            (pw_set_Calls h s) in
        let '(w, h) := UacpiNtWakeSetPsw true (wk_set_Resources List w) (pw_Calls s) in
        (None, w, pw_set_Calls h s).

(** ** IRPs

    [irp_Completions]: the statuses the IRP was completed with, newest first. *)
Record irp := mkIrp {
  irp_PowerState : Z;
  irp_Cancel : bool;
  irp_CancelRoutine : bool;
  irp_Completions : list NTSTATUS
}.

Definition IoSetCancelRoutine (b : bool) (i : irp) : bool * irp :=
  (irp_CancelRoutine i, mkIrp (irp_PowerState i) (irp_Cancel i) b (irp_Completions i)).
Definition UacpiNtCompleteIrp (st : NTSTATUS) (i : irp) : irp :=
  mkIrp (irp_PowerState i) (irp_Cancel i) (irp_CancelRoutine i) (st :: irp_Completions i).

(** The last part of UacpiNtWakeArm, with the lock held: the cancel routine is
    set, then an IRP that was cancelled before is taken back. *)
Definition publish_decide (id : nat) (i : irp) (w : UACPINT_WAKE) : bool * irp * UACPINT_WAKE :=
  let '(Had, i') := IoSetCancelRoutine false i in
  if irp_Cancel i && Had then (false, i', w) else (true, i, wk_set_Irp (Some id) w).
Definition arm_publish (id : nat) (i : irp) (w : UACPINT_WAKE) : bool * irp * UACPINT_WAKE :=
  publish_decide id (IoSetCancelRoutine true i).2 w.

Definition UacpiNtWakeArm (id : nat) (i : irp) (w : UACPINT_WAKE) (s : power_state)
  : NTSTATUS * irp * UACPINT_WAKE * power_state :=
  let '(Failed, w, s) := arm_check (irp_PowerState i) w s in
  match Failed with
  | Some Status => (Status, UacpiNtCompleteIrp Status i, w, s)
  | None =>
      let '(Failed, w, s) := arm_hardware w s in
      match Failed with
      | Some Status => (Status, UacpiNtCompleteIrp Status i, w, s)
      | None =>
          let '(Pended, i, w) := arm_publish id i w in
          if Pended then (STATUS_PENDING, i, w, s)
          else let '(w, s) := UacpiNtWakeDisarm w s in
               (STATUS_CANCELLED, UacpiNtCompleteIrp STATUS_CANCELLED i, w, s)
      end
  end.

(** ** Ending a wait *)

(** The IRP is ours when its cancel routine was still set. *)
Definition UacpiNtWakeClaimIrp (w : UACPINT_WAKE) (irps : list irp)
  : option nat * UACPINT_WAKE * list irp :=
  match wk_WaitWakeIrp w with
  | None => (None, w, irps)
  | Some id =>
      match irps !! id with
      | None => (None, w, irps)
      | Some i =>
          let '(Had, i) := IoSetCancelRoutine false i in
          let irps := <[id := i]> irps in
          if Had then (Some id, wk_set_Irp None w, irps) else (None, w, irps)
      end
  end.

(** [resuming] and [claimed] are UacpiNtSystemResuming and
    UacpiNtWakeSourceClaimed; the last result is the IRP given to PoSetSystemWake. *)
Definition UacpiNtWakeComplete (resuming claimed : bool) (w : UACPINT_WAKE) (irps : list irp)
  (s : power_state) : UACPINT_WAKE * list irp * power_state * bool * option nat :=
  let '(Irp, w, irps) := UacpiNtWakeClaimIrp w irps in
  match Irp with
  | None => (w, irps, s, claimed, None)
  | Some id =>
      let '(w, s) := UacpiNtWakeDisarm w s in
      let source := resuming && negb claimed in
      (w, alter (UacpiNtCompleteIrp STATUS_SUCCESS) id irps, s, claimed || source,
       if source then Some id else None)
  end.

Definition UacpiNtWakeTeardown (w : UACPINT_WAKE) (irps : list irp) (s : power_state)
  : UACPINT_WAKE * list irp * power_state :=
  let '(Irp, w, irps) := UacpiNtWakeClaimIrp w irps in
  let irps := match Irp with
              | Some id => alter (UacpiNtCompleteIrp STATUS_NO_SUCH_DEVICE) id irps
              | None => irps
              end in
  let '(w, s) := UacpiNtWakeDisarm w s in (w, irps, s).

(** The decision of the cancel routine, under the lock. *)
Definition cancel_takes (id : nat) (w : UACPINT_WAKE) : bool * UACPINT_WAKE :=
  match wk_WaitWakeIrp w with
  | Some id' => if (id' =? id)%nat then (true, wk_set_Irp None w) else (false, w)
  | None => (false, w)
  end.

(** The last result tells that a work item was queued. *)
Definition UacpiNtWaitWakeCancel (id : nat) (w : UACPINT_WAKE) (irps : list irp)
  : UACPINT_WAKE * list irp * bool :=
  let '(Owned, w) := cancel_takes id w in
  if negb Owned then (w, irps, false)
  else (wk_set_Queued true w, alter (UacpiNtCompleteIrp STATUS_CANCELLED) id irps,
        negb (wk_DisarmQueued w)).

(** ** Power IRPs of a device *)

Inductive power_minor :=
| IRP_MN_WAIT_WAKE
| IRP_MN_SET_POWER_DEVICE (DeviceState : Z)
| IRP_MN_SET_POWER_SYSTEM
| IRP_MN_QUERY_POWER
| IRP_MN_OTHER (IoStatus : NTSTATUS).

Definition UacpiNtPdoSetPower (m : power_minor) (id : nat) (i : irp) (Pdo : pdo_power)
  (w : UACPINT_WAKE) (s : power_state)
  : NTSTATUS * irp * pdo_power * UACPINT_WAKE * power_state :=
  match m with
  | IRP_MN_WAIT_WAKE => let '(st, i, w, s) := UacpiNtWakeArm id i w s in (st, i, Pdo, w, s)
  | IRP_MN_SET_POWER_DEVICE D =>
      let '(st, Pdo, s) := UacpiNtPowerSetDeviceState Pdo D s in
      (st, UacpiNtCompleteIrp st i, Pdo, w, s)
  | IRP_MN_SET_POWER_SYSTEM | IRP_MN_QUERY_POWER =>
      (STATUS_SUCCESS, UacpiNtCompleteIrp STATUS_SUCCESS i, Pdo, w, s)
  | IRP_MN_OTHER st => (st, UacpiNtCompleteIrp st i, Pdo, w, s)
  end.

(** ** Wake masks across a sleep

    [blocks]: the wake blocks of the children, then those of the filters. *)
Definition UACPINT_WAKE_SNAPSHOT_MAX : nat := 64.

Definition is_active (w : UACPINT_WAKE) : bool :=
  (wk_Armed w || wk_DepthSuspended w) && negb (wk_Node w =? NULL).

Fixpoint snapshot_loop (MaxCount : nat) (blocks : list UACPINT_WAKE) (pos : nat) (Snapshot : list nat)
  : list nat :=
  match blocks with
  | [] => Snapshot
  | w :: blocks =>
      if negb (length Snapshot <? MaxCount)%nat then Snapshot
      else snapshot_loop MaxCount blocks (S pos) (if is_active w then Snapshot ++ [pos] else Snapshot)
  end.

Definition UacpiNtWakeSnapshotActive (blocks : list UACPINT_WAKE) (MaxCount : nat) : list nat :=
  snapshot_loop MaxCount blocks 0 [].

(** One turn of a loop over the snapshot, on the block at [pos]. *)
Definition on_block (f : UACPINT_WAKE -> list acpi_call -> UACPINT_WAKE * list acpi_call)
  (bh : list UACPINT_WAKE * list acpi_call) (pos : nat) : list UACPINT_WAKE * list acpi_call :=
  match bh.1 !! pos with
  | None => bh
  | Some w => let '(w, h) := f w bh.2 in (<[pos := w]> bh.1, h)
  end.

Definition suspend_block (Target : Z) (w : UACPINT_WAKE) (h : list acpi_call)
  : UACPINT_WAKE * list acpi_call :=
  if negb (wk_Armed w) || wk_DepthSuspended w then (w, h)
  else if (wk_RequestedSystemState w =? PowerSystemUnspecified) || (Target <=? wk_RequestedSystemState w)
  then (w, h)
  else let '(_, h) := uacpi_event (CallDisableGpeForWake (wk_GpeDevice w) (wk_GpeLine w)) h in
       (wk_set_Depth true w, h).

Definition UacpiNtWakeSuspendShallow (Target : Z) (blocks : list UACPINT_WAKE) (h : list acpi_call)
  : list UACPINT_WAKE * list acpi_call :=
  foldl (on_block (suspend_block Target)) (blocks, h)
    (UacpiNtWakeSnapshotActive blocks UACPINT_WAKE_SNAPSHOT_MAX).

Definition restore_block (w : UACPINT_WAKE) (h : list acpi_call) : UACPINT_WAKE * list acpi_call :=
  if negb (wk_DepthSuspended w) then (w, h)
  else let '(_, h) := uacpi_event (CallEnableGpeForWake (wk_GpeDevice w) (wk_GpeLine w)) h in
       (wk_set_Depth false w, h).

Definition UacpiNtWakeRestoreSuspended (blocks : list UACPINT_WAKE) (h : list acpi_call)
  : list UACPINT_WAKE * list acpi_call :=
  foldl (on_block restore_block) (blocks, h)
    (UacpiNtWakeSnapshotActive blocks UACPINT_WAKE_SNAPSHOT_MAX).

Definition rearm_block (w : UACPINT_WAKE) (h : list acpi_call) : UACPINT_WAKE * list acpi_call :=
  if negb (wk_Armed w) then (w, h) else UacpiNtWakeSetPsw true w h.

Definition UacpiNtWakeReArmAfterHibernate (blocks : list UACPINT_WAKE) (h : list acpi_call)
  : list UACPINT_WAKE * list acpi_call :=
  foldl (on_block rearm_block) (blocks, h)
    (UacpiNtWakeSnapshotActive blocks UACPINT_WAKE_SNAPSHOT_MAX).

(** ** System sleep, sys/sleep.c *)

Definition UACPI_SLEEP_STATE_S0 : Z := 0.
Definition UACPI_SLEEP_STATE_S4 : Z := 4.
Definition UACPI_SLEEP_STATE_S5 : Z := 5.

Definition UacpiNtSleepStateFromSystem (SystemState : Z) : Z :=
  if SystemState =? PowerSystemSleeping1 then 1
  else if SystemState =? PowerSystemSleeping2 then 2
  else if SystemState =? PowerSystemSleeping3 then 3
  else if SystemState =? PowerSystemHibernate then UACPI_SLEEP_STATE_S4
  else if SystemState =? PowerSystemShutdown then UACPI_SLEEP_STATE_S5
  else UACPI_SLEEP_STATE_S0.

Section Sleep.
Context {L : Type} (UacpiNtIrqLinksResume : L -> L).

Definition UacpiNtResumeFromSleep (y : sleep_state L) : sleep_state L :=
  let WokeFrom := sl_Pending y in
  let '(_, h) := uacpi_event (CallWakeFromSleep WokeFrom) (pw_Calls (sl_Power y)) in
  let s := UacpiNtPowerResResume (pw_set_Calls h (sl_Power y)) in
  let '(blocks, h) := UacpiNtWakeRestoreSuspended (sl_Blocks y) (pw_Calls s) in
  let '(blocks, h) := if WokeFrom =? UACPI_SLEEP_STATE_S4
                      then UacpiNtWakeReArmAfterHibernate blocks h else (blocks, h) in
  mkSleep L UACPI_SLEEP_STATE_S0 (sl_Resuming y) (sl_Claimed y) blocks (pw_set_Calls h s)
    (UacpiNtIrqLinksResume (sl_Links y)).

Definition UacpiNtPrepareForSleep (SystemState : Z) (y : sleep_state L) : sleep_state L :=
  let Target := UacpiNtSleepStateFromSystem SystemState in
  let '(_, h) := uacpi_event (CallPrepareForSleep Target) (pw_Calls (sl_Power y)) in
  if Target =? UACPI_SLEEP_STATE_S5 then
    let '(_, h) := uacpi_event CallDisableAllGpes h in
    mkSleep L (sl_Pending y) (sl_Resuming y) (sl_Claimed y) (sl_Blocks y)
      (pw_set_Calls h (sl_Power y)) (sl_Links y)
  else
    let '(_, h) := uacpi_event CallClearWakeStatus h in
    let '(_, h) := uacpi_event CallDisableAllGpes h in
    let '(_, h) := uacpi_event CallClearAllEvents h in
    let '(blocks, h) := UacpiNtWakeSuspendShallow SystemState (sl_Blocks y) h in
    let '(_, h) := uacpi_event CallEnableAllWakeGpes h in
    mkSleep L Target true false blocks (pw_set_Calls h (sl_Power y)) (sl_Links y).

Definition UacpiNtSystemSetPower (InterpreterReady : bool) (SystemState : Z) (y : sleep_state L)
  : sleep_state L :=
  if negb InterpreterReady then y
  else if SystemState =? PowerSystemWorking then
    let y := if negb (sl_Pending y =? UACPI_SLEEP_STATE_S0) then UacpiNtResumeFromSleep y else y in
    mkSleep L (sl_Pending y) false (sl_Claimed y) (sl_Blocks y) (sl_Power y) (sl_Links y)
  else if PowerSystemWorking <? SystemState then UacpiNtPrepareForSleep SystemState y
  else y.
End Sleep.

(** ** Enables of a GPE

    [runtime_users d l h]: the enables of the event that succeeded less the
    disables, in the calls [h]. *)
Definition same_event (d l d' l' : Z) : bool := (d =? d') && (l =? l').

Fixpoint runtime_users (d l : Z) (h : list acpi_call) : Z :=
  match h with
  | [] => 0
  | CallEnableGpe d' l' :: h =>
      (if same_event d l d' l' && uacpi_likely_success (answer_event h (CallEnableGpe d' l')) then 1 else 0)
      + runtime_users d l h
  | CallDisableGpe d' l' :: h => (if same_event d l d' l' then - 1 else 0) + runtime_users d l h
  | _ :: h => runtime_users d l h
  end.

Definition is_eval (c : acpi_call) : Prop := match c with CallEval _ _ _ => True | _ => False end.

(** [h'] is [h] and some evaluations. *)
Definition only_evals (h h' : list acpi_call) : Prop := exists l, h' = l ++ h /\ Forall is_eval l.

#[local] Instance only_evals_preorder : PreOrder only_evals.
Proof.
  split.
  - intros h. by exists [].
  - intros h1 h2 h3 (l & -> & Hl) (k & -> & Hk). exists (k ++ l). split; [by rewrite app_assoc|].
    by apply Forall_app.
Qed.

Lemma only_evals_cons n path args h h' : only_evals h h' -> only_evals h (CallEval n path args :: h').
Proof. intros (l & -> & Hl). by exists (CallEval n path args :: l); split; [|constructor]. Qed.

Lemma runtime_users_evals d l h h' : only_evals h h' -> runtime_users d l h' = runtime_users d l h.
Proof.
  intros (k & -> & Hk). induction Hk as [|c k Hc _ IH]; [done|]. by destruct c.
Qed.

Lemma eval_list_evals Device MethodName Max s L s' :
  UacpiNtPowerResEvalList Device MethodName Max s = (L, s') -> only_evals (pw_Calls s) (pw_Calls s').
Proof.
  unfold UacpiNtPowerResEvalList, uacpi_eval. intros H.
  repeat case_hyp H; simplify_eq/=; try reflexivity; by apply only_evals_cons.
Qed.

Lemma reference_evals r s : only_evals (pw_Calls s) (pw_Calls (UacpiNtPowerResReference r s)).
Proof.
  unfold UacpiNtPowerResReference, uacpi_eval. destruct (pw_List s !! r); [|reflexivity].
  destruct (negb _ || _); [reflexivity|]. destruct (answer_eval _ _ _ _). by apply only_evals_cons.
Qed.

Lemma dereference_evals r s : only_evals (pw_Calls s) (pw_Calls (UacpiNtPowerResDereference r s)).
Proof.
  unfold UacpiNtPowerResDereference, uacpi_eval. destruct (pw_List s !! r); [|reflexivity].
  destruct (negb _ || _); [reflexivity|]. destruct (answer_eval _ _ _ _). by apply only_evals_cons.
Qed.

Lemma fold_evals (f : nat -> power_state -> power_state) l s :
  (forall r s, only_evals (pw_Calls s) (pw_Calls (f r s))) ->
  only_evals (pw_Calls s) (pw_Calls (foldl (fun s r => f r s) s l)).
Proof.
  intros Hf. revert s. induction l as [|x l IH]; intros s; simpl; [reflexivity|].
  etrans; [apply (Hf x)|apply IH].
Qed.

Lemma acquire_wake_evals Device Max s L s' :
  UacpiNtPowerResAcquireWake Device Max s = (L, s') -> only_evals (pw_Calls s) (pw_Calls s').
Proof.
  unfold UacpiNtPowerResAcquireWake, uacpi_eval. intros H.
  repeat case_hyp H; simplify_eq/=; try reflexivity; try by apply only_evals_cons.
  etrans; [|apply fold_evals, reference_evals]. by apply only_evals_cons.
Qed.

Lemma release_wake_evals L s : only_evals (pw_Calls s) (pw_Calls (UacpiNtPowerResReleaseWake L s)).
Proof.
  unfold UacpiNtPowerResReleaseWake. destruct (_ || _); [reflexivity|].
  apply fold_evals, dereference_evals.
Qed.

(** Everything of a block but what _PSW parsing, the resources and arming set. *)
Definition same_gpe (w w' : UACPINT_WAKE) : Prop :=
  wk_GpeDevice w' = wk_GpeDevice w /\ wk_GpeLine w' = wk_GpeLine w /\
  wk_GpeParsed w' = wk_GpeParsed w /\ wk_GpeValid w' = wk_GpeValid w.

Lemma set_psw_frame Enable w h w' h' :
  UacpiNtWakeSetPsw Enable w h = (w', h') ->
  only_evals h h' /\ same_gpe w w' /\ wk_Armed w' = wk_Armed w /\
  wk_WaitWakeIrp w' = wk_WaitWakeIrp w /\ wk_WakeResources w' = wk_WakeResources w.
Proof.
  unfold UacpiNtWakeSetPsw, uacpi_eval. intros H.
  repeat case_hyp H; simplify_eq/=; split_and!; try done; try reflexivity; by apply only_evals_cons.
Qed.

Lemma parse_prw_frame w h b w' h' :
  UacpiNtWakeParsePrw w h = (b, w', h') ->
  only_evals h h' /\ wk_GpeParsed w' = true /\ (wk_GpeParsed w = true -> w' = w) /\
  wk_Armed w' = wk_Armed w /\ wk_WaitWakeIrp w' = wk_WaitWakeIrp w /\
  wk_WakeResources w' = wk_WakeResources w.
Proof.
  unfold UacpiNtWakeParsePrw. intros H. destruct (wk_GpeParsed w) eqn:Ep.
  { simplify_eq. split_and!; done || reflexivity. }
  destruct (wk_Node _ =? NULL); [simplify_eq; split_and!; done || reflexivity|].
  unfold UacpiNtEvalPrw, uacpi_eval in H. destruct (answer_eval _ _ _ _) as [st o].
  set (hh := CallEval _ _ _ :: h) in H.
  assert (only_evals h hh) as Hh by (by apply only_evals_cons).
  match type of H with match ?P with _ => _ end = _ => destruct P as [Package|] end.
  2: { simplify_eq. split_and!; done. }
  set (w1 := parse_gpe _ _) in H.
  assert (wk_GpeParsed w1 = true /\ wk_Armed w1 = wk_Armed w /\ wk_WaitWakeIrp w1 = wk_WaitWakeIrp w /\
          wk_WakeResources w1 = wk_WakeResources w) as (? & ? & ? & ?).
  { unfold w1, parse_gpe. repeat case_match; done. }
  destruct (negb _ && _); [|simplify_eq; split_and!; done].
  unfold UacpiNtWakeDeviceState, UacpiNtQuerySleepDeviceState, uacpi_eval_simple_integer, uacpi_eval in H.
  destruct (answer_eval _ _ _ _) as [st2 o2]. simplify_eq/=.
  split_and!; try done. by apply only_evals_cons.
Qed.

(** ** The hardware follows the Armed flag *)

Section Hardware.
(** What was there before the device was first armed. *)
Context (s0 : power_state) (base : Z -> Z -> Z).

Record wake_hw (w : UACPINT_WAKE) (s : power_state) : Prop := {
  wh_ready : pw_Ready s = true;
  wh_users d l : runtime_users d l (pw_Calls s) =
    base d l + (if wk_Armed w && same_event d l (wk_GpeDevice w) (wk_GpeLine w) then 1 else 0);
  wh_moves : moves (fun k => if decide (k ∈ wk_WakeResources w) then 1 else 0) s0 s;
  wh_list : resource_list s (wk_WakeResources w);
  wh_idle : wk_Armed w = false -> wk_WakeResources w = [];
  wh_parsed : wk_Armed w = true -> wk_GpeParsed w = true
}.

Lemma wake_hw_ready w s : wake_hw w s -> pw_Ready s0 = true.
Proof. intros [? ? [<- _ _] _ _ _]. done. Qed.

(** Evaluations, and changes of other fields. *)
Lemma wake_hw_frame w s w' h' :
  wake_hw w s -> only_evals (pw_Calls s) h' -> wk_Armed w' = wk_Armed w ->
  wk_WakeResources w' = wk_WakeResources w ->
  (wk_Armed w = true -> same_gpe w w') -> wake_hw w' (pw_set_Calls h' s).
Proof.
  intros [H1 H2 H3 H4 H5 H6] Hh Ha Hr Hg. split; rewrite ?Hr, ?Ha; try done.
  - intros d l. cbn. rewrite (runtime_users_evals _ _ _ _ Hh), H2.
    destruct (wk_Armed w); [|done]. by destruct Hg as (-> & -> & _).
  - by destruct H3.
  - intros Ht. destruct (Hg Ht) as (_ & _ & -> & _). auto.
Qed.

Lemma arm_check_hw Requested w s o w' s' :
  wake_hw w s -> arm_check Requested w s = (o, w', s') ->
  wake_hw w' s' /\ wk_Armed w' = wk_Armed w /\ wk_GpeParsed w' = true.
Proof.
  intros Hi H. unfold arm_check in H.
  destruct (UacpiNtWakeParsePrw w (pw_Calls s)) as [[b w1] h1] eqn:E.
  apply parse_prw_frame in E as (He & Hp & Hs & Ha & _ & Hr).
  assert (forall w2, wk_Armed w2 = wk_Armed w1 -> wk_WakeResources w2 = wk_WakeResources w1 ->
            same_gpe w1 w2 -> wake_hw w2 (pw_set_Calls h1 s)) as K.
  { intros w2 ? ? G. eapply wake_hw_frame; [done..|congruence|congruence|].
    intros Ht. rewrite <- Hs; [done|]. by apply (wh_parsed _ _ Hi). }
  repeat case_hyp H; simplify_eq; split_and!; try done; by apply K.
Qed.

(** Events that are not enables or disables do not count. *)
Lemma wake_hw_event w s h' :
  wake_hw w s -> (forall d l, runtime_users d l h' = runtime_users d l (pw_Calls s)) ->
  wake_hw w (pw_set_Calls h' s).
Proof. intros [H1 H2 H3 H4 H5 H6] Hh. split; try done; [intros d l; cbn; by rewrite Hh|by destruct H3]. Qed.

Context (Hc0 : all_counted s0).

Lemma wake_hw_counted w s : wake_hw w s -> wk_WakeResources w = [] ->
  Forall (counted s 0 LONG_MAX) (seq 0 (length (pw_List s))).
Proof.
  intros [_ _ M _ _ _] Hr. apply Forall_forall. intros k _ R HR.
  destruct (lookup_lt_is_Some_2 (pw_List s0) k) as [R0 HR0].
  { rewrite <- (mv_length _ _ _ M). by eapply lookup_lt_Some. }
  destruct (mv_resource _ _ _ M k R0 HR0) as (R' & HR' & (E & _)). simplify_eq.
  rewrite Hr, decide_False in E by apply not_elem_of_nil.
  unfold all_counted in Hc0. rewrite Forall_lookup in Hc0. specialize (Hc0 _ _ HR0). lia.
Qed.

Lemma wake_hw_held w s k : wake_hw w s -> k ∈ wk_WakeResources w -> counted s 1 (LONG_MAX + 1) k.
Proof.
  intros [_ _ M _ _ _] Hk R HR.
  destruct (lookup_lt_is_Some_2 (pw_List s0) k) as [R0 HR0].
  { rewrite <- (mv_length _ _ _ M). by eapply lookup_lt_Some. }
  destruct (mv_resource _ _ _ M k R0 HR0) as (R' & HR' & (E & _)). simplify_eq.
  rewrite decide_True in E by done.
  unfold all_counted in Hc0. rewrite Forall_lookup in Hc0. specialize (Hc0 _ _ HR0). lia.
Qed.

Lemma release_hardware_hw w s w' s' :
  wake_hw w s -> wk_Armed w = true ->
  UacpiNtWakeReleaseHardware (wk_set_Armed false w) s = (w', s') ->
  wake_hw w' s' /\ wk_Armed w' = false /\ wk_WaitWakeIrp w' = wk_WaitWakeIrp w.
Proof.
  intros Hi Ha H. unfold UacpiNtWakeReleaseHardware, uacpi_event in H.
  destruct (UacpiNtWakeSetPsw _ _ _) as [w1 h1] eqn:E. simplify_eq.
  apply set_psw_frame in E as (He & (G1 & G2 & G3 & G4) & Ha1 & Hi1 & Hr1). cbn in *.
  assert (resource_list (pw_set_Calls h1 s) (wk_WakeResources w1)) as HL.
  { rewrite Hr1. apply Hi. }
  pose proof (release_wake_moves (wk_WakeResources w1) (pw_set_Calls h1 s) (wh_ready _ _ Hi) HL) as M.
  pose proof (release_wake_evals (wk_WakeResources w1) (pw_set_Calls h1 s)) as Hev.
  rewrite Hr1 in *. specialize (M (fun k Hk => wake_hw_held w s k Hi Hk)).
  split; [|done]. destruct Hi as [H1 H2 H3 H4 H5 H6]. split; cbn; try done.
  - by rewrite (mv_ready _ _ _ M).
  - intros d l. rewrite (runtime_users_evals _ _ _ _ Hev). cbn.
    rewrite (runtime_users_evals _ _ _ _ He). cbn. rewrite H2, Ha1, Ha. simpl.
    destruct (same_event _ _ _ _); lia.
  - eapply moves_ext; [|eapply moves_trans; [exact H3|]].
    2: { eapply moves_trans; [by eapply (moves_calls h1)|exact M]. }
    intros k. cbn beta. change (wk_WakeResources (wk_set_Resources [] w1)) with (@nil nat).
    rewrite (decide_False (P := k ∈ [])) by apply not_elem_of_nil. case_decide; lia.
  - apply resource_list_nil.
  - congruence.
Qed.

Lemma wake_hw_set w w' s :
  wake_hw w s -> wk_Armed w' = wk_Armed w -> wk_WakeResources w' = wk_WakeResources w ->
  same_gpe w w' -> wake_hw w' s.
Proof.
  intros Hi ? ? ?. replace s with (pw_set_Calls (pw_Calls s) s) by by destruct s.
  eapply wake_hw_frame; try done; reflexivity.
Qed.

(** The enable that succeeded, the resources and the circuit. *)
Lemma arm_commit_hw w h s o w' s' :
  wake_hw w s -> wk_Armed w = false -> wk_GpeParsed w = true ->
  (forall d l, runtime_users d l h = runtime_users d l (pw_Calls s) +
                 (if same_event d l (wk_GpeDevice w) (wk_GpeLine w) then 1 else 0)) ->
  (let w := wk_set_Armed true w in
   let '(List, s) := UacpiNtPowerResAcquireWake (wk_Node w) UACPINT_MAX_POWER_RESOURCES
                       (pw_set_Calls h s) in
   let '(w, h) := UacpiNtWakeSetPsw true (wk_set_Resources List w) (pw_Calls s) in
   (@None NTSTATUS, w, pw_set_Calls h s)) = (o, w', s') ->
  o = None /\ wake_hw w' s' /\ wk_Armed w' = true /\ wk_WaitWakeIrp w' = wk_WaitWakeIrp w.
Proof.
  intros Hi Ha Hp Hh H. cbv zeta in H.
  destruct (UacpiNtPowerResAcquireWake _ _ _) as [L s1] eqn:E1.
  destruct (UacpiNtWakeSetPsw _ _ _) as [w1 h1] eqn:E2. simplify_eq.
  apply set_psw_frame in E2 as (He & (G1 & G2 & G3 & G4) & Ha1 & Hi1 & Hr1). cbn in *.
  pose proof (acquire_wake_evals _ _ _ _ _ E1) as Hev.
  apply acquire_wake_moves in E1 as [HL M]; [|by apply (wake_hw_counted w s), (wh_idle _ _ Hi)].
  split_and!; try done. pose proof (wh_idle _ _ Hi Ha) as Hr. destruct Hi as [H1 H2 H3 H4 H5 H6].
  rewrite Ha, Hr in *. split; cbn; rewrite ?Hr1, ?Ha1, ?G1, ?G2, ?G3; try done.
  - by rewrite (mv_ready _ _ _ M).
  - intros d l. rewrite (runtime_users_evals _ _ _ _ He), (runtime_users_evals _ _ _ _ Hev). cbn.
    rewrite Hh, H2. simpl. lia.
  - eapply moves_ext; [|eapply moves_trans; [exact H3|eapply moves_trans; [|eapply moves_trans; [exact M|]]]].
    2: by eapply (moves_calls h). 2: by eapply (moves_calls h1).
    intros k. cbn beta. rewrite (decide_False (P := k ∈ [])) by apply not_elem_of_nil. case_decide; lia.
Qed.

Lemma arm_hardware_hw w s o w' s' :
  wake_hw w s -> wk_Armed w = false -> wk_GpeParsed w = true ->
  arm_hardware w s = (o, w', s') ->
  wake_hw w' s' /\ wk_Armed w' = (match o with None => true | Some _ => false end) /\
  wk_WaitWakeIrp w' = wk_WaitWakeIrp w.
Proof.
  intros Hi Ha Hp H. unfold arm_hardware, uacpi_event in H.
  match type of H with (let '(_, _) := ?t in _) = _ => destruct t as [[Setup w1] h1] eqn:E end.
  assert (same_gpe w w1 /\ wk_Armed w1 = false /\ wk_WakeResources w1 = wk_WakeResources w /\
          wk_WaitWakeIrp w1 = wk_WaitWakeIrp w /\
          forall d l, runtime_users d l h1 = runtime_users d l (pw_Calls s))
    as ((G1 & G2 & G3 & G4) & Ha1 & Hr1 & Hw1 & Hh1).
  { repeat case_hyp E; simplify_eq; split_and!; done. }
  assert (wake_hw w1 s) as Hi1 by (eapply wake_hw_set; [done|congruence|done|done]).
  rewrite <- G1, <- G2 in H. set (D := wk_GpeDevice w1) in *. set (N := wk_GpeLine w1) in *.
  destruct (uacpi_unlikely_error Setup).
  { simplify_eq. split_and!; try done. by apply wake_hw_event. }
  destruct (uacpi_unlikely_error (answer_event _ (CallEnableGpeForWake _ _))).
  { simplify_eq. split_and!; try done. by apply wake_hw_event. }
  destruct (uacpi_unlikely_error (answer_event _ (CallEnableGpe _ _))) eqn:Ee.
  { simplify_eq. split_and!; try done. apply wake_hw_event; [done|]. intros d l. cbn. rewrite Hh1.
    unfold uacpi_unlikely_error in Ee. bool_prop. rewrite Ee, andb_false_r. lia. }
  apply (arm_commit_hw w1) in H as (-> & ? & ? & ?); [|done..|congruence|].
  - split_and!; [done|done|congruence].
  - intros d l. cbn. rewrite Hh1. unfold uacpi_unlikely_error in Ee. bool_prop.
    rewrite Ee, andb_true_r. fold D N. lia.
Qed.

Lemma disarm_hw w s w' s' :
  wake_hw w s -> UacpiNtWakeDisarm w s = (w', s') ->
  wake_hw w' s' /\ wk_Armed w' = false /\ wk_WaitWakeIrp w' = wk_WaitWakeIrp w.
Proof.
  intros Hi H. unfold UacpiNtWakeDisarm in H. destruct (wk_Armed w) eqn:Ha; simpl in H.
  - by eapply release_hardware_hw.
  - by simplify_eq.
Qed.

Lemma arm_hw id i w s st i' w' s' :
  wake_hw w s -> wk_Armed w = false -> UacpiNtWakeArm id i w s = (st, i', w', s') ->
  wake_hw w' s' /\ (wk_Armed w' = true <-> st = STATUS_PENDING).
Proof.
  intros Hi Ha H. unfold UacpiNtWakeArm in H.
  destruct (arm_check _ w s) as [[o1 w1] s1] eqn:E1.
  pose proof E1 as E1'. apply arm_check_hw in E1 as (Hi1 & Ha1 & Hp1); [|done].
  destruct o1 as [st1|].
  { simplify_eq. split; [done|]. rewrite Ha1, Ha. split; [done|]. intros ->.
    unfold arm_check in E1'. repeat case_hyp E1'; simplify_eq. }
  destruct (arm_hardware w1 s1) as [[o2 w2] s2] eqn:E2.
  pose proof E2 as E2'. apply arm_hardware_hw in E2 as (Hi2 & Ha2 & _); [|done|congruence|done].
  destruct o2 as [st2|].
  { simplify_eq. split; [done|]. rewrite Ha2. split; [done|]. intros ->.
    unfold arm_hardware, uacpi_event in E2'. repeat case_hyp E2'; simplify_eq. }
  unfold arm_publish, publish_decide, IoSetCancelRoutine in H. simpl in H. rewrite andb_true_r in H.
  destruct (irp_Cancel i).
  - destruct (UacpiNtWakeDisarm w2 s2) as [w3 s3] eqn:E3. simplify_eq.
    apply disarm_hw in E3 as (? & Ha3 & _); [|done]. split; [done|]. by rewrite Ha3.
  - simplify_eq. split; [by eapply wake_hw_set|done].
Qed.
End Hardware.

(** ** One call after another

    IoCancelIrp sets the flag and calls the cancel routine if there is one. *)
Definition IoCancelIrp (id : nat) (i : irp) (w : UACPINT_WAKE) (irps : list irp)
  : UACPINT_WAKE * list irp :=
  let i' := mkIrp (irp_PowerState i) true false (irp_Completions i) in
  if irp_CancelRoutine i
  then (UacpiNtWaitWakeCancel id w (<[id := i']> irps)).1
  else (w, <[id := i']> irps).

Definition wake_machine : Type := UACPINT_WAKE * list irp * power_state.

(** A new WAIT_WAKE comes when the one before has been disarmed. *)
Inductive wake_op : wake_machine -> wake_machine -> Prop :=
| op_arm id i st i' w irps s w' s' :
    wk_Armed w = false -> irps !! id = Some i -> UacpiNtWakeArm id i w s = (st, i', w', s') ->
    wake_op (w, irps, s) (w', <[id := i']> irps, s')
| op_cancel id i w irps s w' irps' :
    irps !! id = Some i -> IoCancelIrp id i w irps = (w', irps') ->
    wake_op (w, irps, s) (w', irps', s)
| op_worker w irps s w' s' :
    UacpiNtWakeDisarmWorker w s = (w', s') -> wake_op (w, irps, s) (w', irps, s')
| op_complete resuming claimed w irps s w' irps' s' claimed' source :
    UacpiNtWakeComplete resuming claimed w irps s = (w', irps', s', claimed', source) ->
    wake_op (w, irps, s) (w', irps', s')
| op_teardown w irps s w' irps' s' :
    UacpiNtWakeTeardown w irps s = (w', irps', s') -> wake_op (w, irps, s) (w', irps', s').

Lemma cancel_hw s0 base id w irps w' irps' b s :
  wake_hw s0 base w s -> UacpiNtWaitWakeCancel id w irps = (w', irps', b) -> wake_hw s0 base w' s.
Proof.
  intros Hi H. unfold UacpiNtWaitWakeCancel, cancel_takes in H.
  destruct (wk_WaitWakeIrp w) as [id'|]; [destruct (id' =? id)%nat|]; simplify_eq/=;
    try done; by eapply wake_hw_set.
Qed.

Lemma claim_hw s0 base w irps o w' irps' s :
  wake_hw s0 base w s -> UacpiNtWakeClaimIrp w irps = (o, w', irps') -> wake_hw s0 base w' s.
Proof.
  intros Hi H. unfold UacpiNtWakeClaimIrp, IoSetCancelRoutine in H.
  destruct (wk_WaitWakeIrp w) as [id|]; [destruct (irps !! id) as [i|]; [destruct (irp_CancelRoutine i)|]|];
    simplify_eq/=; try done; by eapply wake_hw_set.
Qed.

Lemma wake_op_hw s0 base y y' :
  all_counted s0 -> wake_hw s0 base y.1.1 y.2 -> wake_op y y' -> wake_hw s0 base y'.1.1 y'.2.
Proof.
  intros Hc Hi Hop. destruct Hop as
    [id i st i' w irps s w' s' Ha Hl E|id i w irps s w' irps' Hl E|w irps s w' s' E
    |resuming claimed w irps s w' irps' s' c' o E|w irps s w' irps' s' E]; simpl in *.
  - by destruct (arm_hw s0 base Hc id i w s st i' w' s' Hi Ha E).
  - unfold IoCancelIrp in E. destruct (irp_CancelRoutine i); [|by simplify_eq].
    destruct (UacpiNtWaitWakeCancel id w _) as [[w1 irps1] b] eqn:E1. simplify_eq/=.
    by eapply cancel_hw.
  - unfold UacpiNtWakeDisarmWorker, worker_takes in E.
    assert (wake_hw s0 base (wk_set_Queued false w) s) as Hi' by by eapply wake_hw_set.
    destruct (wk_WaitWakeIrp _); [by simplify_eq/=|].
    destruct (wk_Armed (wk_set_Queued false w)) eqn:Ha; simpl in E; [|by simplify_eq/=].
    by destruct (release_hardware_hw s0 base Hc _ _ _ _ Hi' Ha E).
  - unfold UacpiNtWakeComplete in E. destruct (UacpiNtWakeClaimIrp w irps) as [[o1 w1] irps1] eqn:E1.
    eapply claim_hw in E1; [|done]. destruct o1; [|by simplify_eq].
    destruct (UacpiNtWakeDisarm w1 s) as [w2 s2] eqn:E2. simplify_eq.
    by destruct (disarm_hw s0 base Hc _ _ _ _ E1 E2).
  - unfold UacpiNtWakeTeardown in E. destruct (UacpiNtWakeClaimIrp w irps) as [[o1 w1] irps1] eqn:E1.
    eapply claim_hw in E1; [|done]. destruct (UacpiNtWakeDisarm w1 s) as [w2 s2] eqn:E2. simplify_eq.
    by destruct (disarm_hw s0 base Hc _ _ _ _ E1 E2).
Qed.

Lemma wake_run_hw s0 base y y' :
  all_counted s0 -> wake_hw s0 base y.1.1 y.2 -> rtc wake_op y y' -> wake_hw s0 base y'.1.1 y'.2.
Proof.
  intros Hc Hi Hrun. induction Hrun as [y|y y1 y2 Hop _ IH]; [done|]. apply IH. by eapply wake_op_hw.
Qed.

(** C13.  Through any sequence of waits, cancels, wakes, removals and deferred
    disarms, where a new wait starts on a disarmed device: the wake GPE has one
    more enable than it started with exactly while the device is armed, no other
    GPE changes, and the power resources of the wake have one more reference each
    while the block lists them, which it does only while armed. *)
Theorem wake_hardware_follows_armed w0 irps0 s0 w irps s :
  pw_Ready s0 = true -> all_counted s0 -> wk_Armed w0 = false -> wk_WakeResources w0 = [] ->
  rtc wake_op (w0, irps0, s0) (w, irps, s) ->
  (forall d l, runtime_users d l (pw_Calls s) = runtime_users d l (pw_Calls s0) +
     (if wk_Armed w && same_event d l (wk_GpeDevice w) (wk_GpeLine w) then 1 else 0)) /\
  (forall k R0, pw_List s0 !! k = Some R0 -> exists R, pw_List s !! k = Some R /\
     pr_RefCount R = pr_RefCount R0 + (if decide (k ∈ wk_WakeResources w) then 1 else 0)) /\
  (wk_Armed w = false -> wk_WakeResources w = []).
Proof.
  intros Hr Hc Ha Hw Hrun.
  assert (wake_hw s0 (fun d l => runtime_users d l (pw_Calls s0)) w s) as [H1 H2 H3 H4 H5 H6].
  { apply (wake_run_hw s0 _ (w0, irps0, s0) (w, irps, s) Hc); [|done].
    split; simpl; try done; try congruence.
    - intros d l. rewrite Ha. simpl. lia.
    - rewrite Hw. eapply moves_ext; [|apply moves_refl]. intros k.
      destruct (decide (k ∈ [])) as [Hk|]; [by apply not_elem_of_nil in Hk|done].
    - rewrite Hw. apply resource_list_nil. }
  split_and!; [done| |done]. intros k R0 HR0.
  destruct (mv_resource _ _ _ H3 k R0 HR0) as (R & HR & (E & _)). by exists R.
Qed.

(** ** The answer to a WAIT_WAKE *)

Lemma arm_check_frame Requested w s o w' s' :
  arm_check Requested w s = (o, w', s') ->
  only_evals (pw_Calls s) (pw_Calls s') /\ wk_Armed w' = wk_Armed w /\
  wk_WaitWakeIrp w' = wk_WaitWakeIrp w /\ wk_WakeResources w' = wk_WakeResources w /\
  (o = None <-> o <> Some STATUS_NOT_SUPPORTED /\ o <> Some STATUS_INVALID_DEVICE_STATE /\
                wk_WaitWakeIrp w = None) /\ o <> Some STATUS_PENDING.
Proof.
  intros H. unfold arm_check in H.
  destruct (UacpiNtWakeParsePrw w (pw_Calls s)) as [[b w1] h1] eqn:E.
  apply parse_prw_frame in E as (He & _ & _ & Ha & Hi & Hr).
  destruct b; simpl in H; [|simplify_eq; split_and!; try done; naive_solver].
  destruct (negb _ && _); [simplify_eq; split_and!; try done; naive_solver|].
  change (wk_WaitWakeIrp (wk_set_Requested Requested w1)) with (wk_WaitWakeIrp w1) in H.
  rewrite Hi in H. destruct (wk_WaitWakeIrp w); simplify_eq; split_and!; try done; naive_solver.
Qed.

Lemma arm_hardware_frame w s o w' s' :
  arm_hardware w s = (o, w', s') ->
  wk_WaitWakeIrp w' = wk_WaitWakeIrp w /\
  wk_Armed w' = (match o with None => true | Some _ => wk_Armed w end) /\ o <> Some STATUS_PENDING.
Proof.
  intros H. unfold arm_hardware, uacpi_event in H.
  match type of H with (let '(_, _) := ?t in _) = _ => destruct t as [[Setup w1] h1] eqn:E end.
  assert (wk_Armed w1 = wk_Armed w /\ wk_WaitWakeIrp w1 = wk_WaitWakeIrp w) as [Ha1 Hw1].
  { repeat case_hyp E; by simplify_eq. }
  destruct (uacpi_unlikely_error Setup); [by simplify_eq|].
  destruct (uacpi_unlikely_error (answer_event _ (CallEnableGpeForWake _ _))); [by simplify_eq|].
  destruct (uacpi_unlikely_error (answer_event _ (CallEnableGpe _ _))); [by simplify_eq|]. cbv zeta in H.
  destruct (UacpiNtPowerResAcquireWake _ _ _) as [L s1].
  destruct (UacpiNtWakeSetPsw _ _ _) as [w2 h2] eqn:E2. simplify_eq.
  apply set_psw_frame in E2 as (_ & _ & Ha2 & Hw2 & _). cbn in *. split_and!; [congruence|done|done].
Qed.

Lemma release_irp w s w' s' :
  UacpiNtWakeReleaseHardware w s = (w', s') -> wk_WaitWakeIrp w' = wk_WaitWakeIrp w.
Proof.
  unfold UacpiNtWakeReleaseHardware, uacpi_event. intros H.
  destruct (UacpiNtWakeSetPsw _ _ _) as [w2 h2] eqn:E2. simplify_eq.
  by apply set_psw_frame in E2 as (_ & _ & _ & ? & _).
Qed.

Lemma disarm_irp w s w' s' : UacpiNtWakeDisarm w s = (w', s') -> wk_WaitWakeIrp w' = wk_WaitWakeIrp w.
Proof.
  unfold UacpiNtWakeDisarm. intros H. destruct (negb _); [by simplify_eq|].
  by apply release_irp in H.
Qed.

(** A WAIT_WAKE is either left pending, cancellable and recorded in the
    block of an armed device, with no completion; or it is completed once, with
    the status returned, and the block still has the IRP it had.  While another
    one is pending the new one is refused without touching the GPE, the resources
    or the arming. *)
Theorem wait_wake_answered id i w s :
  let '(st, i', w', s') := UacpiNtWakeArm id i w s in
  (st = STATUS_PENDING /\ irp_Completions i' = irp_Completions i /\ irp_CancelRoutine i' = true /\
   wk_WaitWakeIrp w' = Some id /\ wk_Armed w' = true /\ wk_WaitWakeIrp w = None /\ irp_Cancel i = false) \/
  (st <> STATUS_PENDING /\ irp_Completions i' = st :: irp_Completions i /\
   wk_WaitWakeIrp w' = wk_WaitWakeIrp w /\
   (wk_WaitWakeIrp w <> None ->
    only_evals (pw_Calls s) (pw_Calls s') /\ wk_Armed w' = wk_Armed w /\
    wk_WakeResources w' = wk_WakeResources w)).
Proof.
  unfold UacpiNtWakeArm. destruct (arm_check _ w s) as [[o1 w1] s1] eqn:E1.
  apply arm_check_frame in E1 as (He & Ha1 & Hw1 & Hr1 & Ho1 & Hp1).
  destruct o1 as [st1|]; [right; split_and!; try done; congruence|].
  destruct (proj1 Ho1 eq_refl) as (_ & _ & Hn).
  destruct (arm_hardware w1 s1) as [[o2 w2] s2] eqn:E2.
  apply arm_hardware_frame in E2 as (Hw2 & Ha2 & Hp2).
  destruct o2 as [st2|]; [right; split_and!; try done; congruence|].
  unfold arm_publish, publish_decide, IoSetCancelRoutine. simpl. rewrite andb_true_r.
  destruct (irp_Cancel i) eqn:Ec; [|by left].
  destruct (UacpiNtWakeDisarm w2 s2) as [w3 s3] eqn:E3. apply disarm_irp in E3.
  right. split_and!; try done; congruence.
Qed.

(** ** Masks put back *)

Fixpoint active_positions (blocks : list UACPINT_WAKE) (pos : nat) : list nat :=
  match blocks with
  | [] => []
  | w :: blocks => (if is_active w then [pos] else []) ++ active_positions blocks (S pos)
  end.

Lemma snapshot_enough Max blocks pos Snapshot :
  (length Snapshot + length (active_positions blocks pos) <= Max)%nat ->
  snapshot_loop Max blocks pos Snapshot = Snapshot ++ active_positions blocks pos.
Proof.
  revert pos Snapshot. induction blocks as [|w blocks IH]; intros pos Snapshot; simpl.
  { by rewrite app_nil_r. }
  rewrite length_app. intros H. destruct (length Snapshot <? Max)%nat eqn:E; nat_prop; simpl.
  - destruct (is_active w); simpl in *.
    + rewrite IH by (rewrite length_app; simpl; lia). by rewrite <- app_assoc.
    + apply IH. lia.
  - destruct (is_active w); simpl in *; [lia|].
    destruct (active_positions blocks (S pos)); simpl in *; [by rewrite app_nil_r|lia].
Qed.

(** The loop on every block of the list, active ones only. *)
Fixpoint process_blocks (f : UACPINT_WAKE -> list acpi_call -> UACPINT_WAKE * list acpi_call)
  (blocks : list UACPINT_WAKE) (h : list acpi_call) : list UACPINT_WAKE * list acpi_call :=
  match blocks with
  | [] => ([], h)
  | w :: blocks =>
      let '(w, h) := if is_active w then f w h else (w, h) in
      let '(blocks, h) := process_blocks f blocks h in (w :: blocks, h)
  end.

Lemma fold_on_blocks f pre blocks h :
  foldl (on_block f) (pre ++ blocks, h) (active_positions blocks (length pre)) =
    (let '(blocks, h) := process_blocks f blocks h in (pre ++ blocks, h)).
Proof.
  revert pre h. induction blocks as [|w blocks IH]; intros pre h; simpl; [done|].
  rewrite foldl_app. destruct (is_active w); simpl.
  - unfold on_block at 2. simpl. rewrite lookup_app_r, Nat.sub_diag by lia. simpl.
    destruct (f w h) as [w' h']. rewrite insert_app_r_alt, Nat.sub_diag by lia. simpl.
    rewrite (cons_middle w' pre blocks), app_assoc.
    replace (S (length pre)) with (length (pre ++ [w'])) by (rewrite length_app; simpl; lia).
    rewrite IH. destruct (process_blocks f blocks h') as [bs h2]. by rewrite <- app_assoc.
  - rewrite (cons_middle w pre blocks), app_assoc.
    replace (S (length pre)) with (length (pre ++ [w])) by (rewrite length_app; simpl; lia).
    rewrite IH. destruct (process_blocks f blocks h) as [bs h2]. by rewrite <- app_assoc.
Qed.

Lemma loop_over_snapshot f blocks h :
  (length (active_positions blocks 0) <= UACPINT_WAKE_SNAPSHOT_MAX)%nat ->
  foldl (on_block f) (blocks, h) (UacpiNtWakeSnapshotActive blocks UACPINT_WAKE_SNAPSHOT_MAX) =
    process_blocks f blocks h.
Proof.
  intros H. unfold UacpiNtWakeSnapshotActive. rewrite snapshot_enough by (simpl; lia). simpl.
  pose proof (fold_on_blocks f [] blocks h) as E. simpl in E. rewrite E.
  by destruct (process_blocks f blocks h).
Qed.

(** A device whose wait wants a shallower state than [Target]. *)
Definition is_masked (Target : Z) (w : UACPINT_WAKE) : bool :=
  is_active w && wk_Armed w && negb (wk_DepthSuspended w) &&
  negb (wk_RequestedSystemState w =? PowerSystemUnspecified) && (wk_RequestedSystemState w <? Target).

Lemma suspend_process Target blocks h :
  process_blocks (suspend_block Target) blocks h =
    (map (fun w => if is_masked Target w then wk_set_Depth true w else w) blocks,
     reverse (map (fun w => CallDisableGpeForWake (wk_GpeDevice w) (wk_GpeLine w))
                (filter (fun w => is_masked Target w = true) blocks)) ++ h).
Proof.
  revert h. induction blocks as [|w blocks IH]; intros h; simpl; [done|].
  assert ((if is_active w then suspend_block Target w h else (w, h)) =
    (if is_masked Target w then wk_set_Depth true w else w,
     (if is_masked Target w then [CallDisableGpeForWake (wk_GpeDevice w) (wk_GpeLine w)] else []) ++ h)) as ->.
  { unfold suspend_block, is_masked, uacpi_event. destruct (is_active w); [|done].
    destruct (wk_Armed w), (wk_DepthSuspended w); try done. simpl.
    destruct (_ =? PowerSystemUnspecified); [done|]. simpl. rewrite (Z.leb_antisym). by destruct (_ <? _). }
  rewrite IH, filter_cons. destruct (is_masked Target w);
    [rewrite decide_True by done|by rewrite decide_False by done].
  simpl. by rewrite reverse_cons, <- app_assoc.
Qed.

Lemma restore_process Target blocks h :
  Forall (fun w => wk_DepthSuspended w = false) blocks ->
  process_blocks restore_block
    (map (fun w => if is_masked Target w then wk_set_Depth true w else w) blocks) h =
    (blocks, reverse (map (fun w => CallEnableGpeForWake (wk_GpeDevice w) (wk_GpeLine w))
                        (filter (fun w => is_masked Target w = true) blocks)) ++ h).
Proof.
  intros Hd. revert h. induction Hd as [|w blocks Hw _ IH]; intros h; simpl; [done|].
  set (w1 := if is_masked Target w then _ else w).
  assert ((if is_active w1 then restore_block w1 h else (w1, h)) =
    (w, (if is_masked Target w then [CallEnableGpeForWake (wk_GpeDevice w) (wk_GpeLine w)] else []) ++ h)) as ->.
  { unfold w1, restore_block, uacpi_event. destruct (is_masked Target w) eqn:E.
    - assert (is_active w = true) as Ea by (unfold is_masked in E; by bool_prop).
      apply andb_prop in Ea as [_ Ea].
      assert (is_active (wk_set_Depth true w) = true) as ->
        by (unfold is_active; simpl; by rewrite Ea, orb_true_r).
      destruct w. simpl in *. by subst.
    - simpl. rewrite Hw. simpl. by destruct (is_active w). }
  rewrite IH, filter_cons. destruct (is_masked Target w);
    [rewrite decide_True by done|by rewrite decide_False by done].
  simpl. by rewrite reverse_cons, <- app_assoc.
Qed.

Lemma masked_active Target w :
  is_masked Target w = true -> is_active (wk_set_Depth true w) = is_active w.
Proof.
  unfold is_masked, is_active. simpl.
  by destruct (wk_Armed w), (wk_Node w =? NULL), (wk_DepthSuspended w).
Qed.

Lemma suspended_positions Target blocks pos :
  active_positions (map (fun w => if is_masked Target w then wk_set_Depth true w else w) blocks) pos =
    active_positions blocks pos.
Proof.
  revert pos. induction blocks as [|w l IH]; intros pos; simpl; [done|]. rewrite IH. f_equal.
  destruct (is_masked Target w) eqn:E; [|done]. by rewrite (masked_active _ _ E).
Qed.

(** C16.  A sleep in S1 to S3 and the resume after it, with at most 64 active wake
    blocks and none dropped for a sleep before: on the way down the wake
    masks of exactly the devices that want a shallower state are dropped, after
    all events are cleared and before the wake GPEs are enabled; on the way up the
    power resources that were on are turned on again, then exactly those masks are
    set, and every wake block is as before. *)
Theorem sleep_and_resume {L : Type} (resume : L -> L) SystemState (y : sleep_state L) :
  PowerSystemSleeping1 <= SystemState <= PowerSystemSleeping3 ->
  pw_Ready (sl_Power y) = true ->
  Forall (fun w => wk_DepthSuspended w = false) (sl_Blocks y) ->
  (length (active_positions (sl_Blocks y) 0) <= UACPINT_WAKE_SNAPSHOT_MAX)%nat ->
  let T := UacpiNtSleepStateFromSystem SystemState in
  let masked := filter (fun w => is_masked SystemState w = true) (sl_Blocks y) in
  let y1 := UacpiNtSystemSetPower resume true SystemState y in
  let y2 := UacpiNtSystemSetPower resume true PowerSystemWorking y1 in
  pw_Calls (sl_Power y1) =
    CallEnableAllWakeGpes ::
    reverse (map (fun w => CallDisableGpeForWake (wk_GpeDevice w) (wk_GpeLine w)) masked) ++
    [CallClearAllEvents; CallDisableAllGpes; CallClearWakeStatus; CallPrepareForSleep T] ++
    pw_Calls (sl_Power y) /\
  sl_Pending y1 = T /\ sl_Resuming y1 = true /\
  pw_Calls (sl_Power y2) =
    reverse (map (fun w => CallEnableGpeForWake (wk_GpeDevice w) (wk_GpeLine w)) masked) ++
    resume_resources (pw_List (sl_Power y)) (CallWakeFromSleep T :: pw_Calls (sl_Power y1)) /\
  sl_Blocks y2 = sl_Blocks y /\ sl_Pending y2 = UACPI_SLEEP_STATE_S0 /\ sl_Resuming y2 = false /\
  sl_Links y2 = resume (sl_Links y).
Proof.
  intros HS Hr Hd Hn T masked y1.
  assert (T = 1 \/ T = 2 \/ T = 3) as HT.
  { unfold T, UacpiNtSleepStateFromSystem, PowerSystemSleeping1, PowerSystemSleeping3 in *.
    assert (SystemState = 2 \/ SystemState = 3 \/ SystemState = 4) as [-> | [-> | ->]] by lia; simpl; auto. }
  assert (UacpiNtSystemSetPower resume true SystemState y = UacpiNtPrepareForSleep SystemState y) as E1.
  { unfold UacpiNtSystemSetPower, PowerSystemSleeping1, PowerSystemWorking in *.
    replace (SystemState =? 1) with false by (symmetry; apply Z.eqb_neq; lia).
    by replace (1 <? SystemState) with true by (symmetry; apply Z.ltb_lt; lia). }
  unfold UacpiNtPrepareForSleep, uacpi_event in E1. fold T in E1.
  replace (T =? UACPI_SLEEP_STATE_S5) with false in E1
    by (symmetry; apply Z.eqb_neq; unfold UACPI_SLEEP_STATE_S5; lia).
  unfold UacpiNtWakeSuspendShallow in E1. rewrite loop_over_snapshot in E1 by done.
  rewrite suspend_process in E1. fold masked in E1. unfold y1. rewrite E1. clear E1 y1.
  set (b1 := map _ (sl_Blocks y)). set (h1 := CallEnableAllWakeGpes :: _).
  assert (length (active_positions b1 0) <= UACPINT_WAKE_SNAPSHOT_MAX)%nat as Hn1.
  { unfold b1. by rewrite suspended_positions. }
  unfold UacpiNtSystemSetPower. cbn [negb]. rewrite Z.eqb_refl. cbn [sl_Pending].
  replace (T =? UACPI_SLEEP_STATE_S0) with false by (symmetry; apply Z.eqb_neq; unfold UACPI_SLEEP_STATE_S0; lia).
  cbn [negb]. unfold UacpiNtResumeFromSleep, uacpi_event. cbn [sl_Pending sl_Power sl_Blocks].
  replace (T =? UACPI_SLEEP_STATE_S4) with false by (symmetry; apply Z.eqb_neq; unfold UACPI_SLEEP_STATE_S4; lia).
  unfold UacpiNtWakeRestoreSuspended. rewrite loop_over_snapshot by done.
  unfold b1. rewrite restore_process by done. fold masked.
  unfold UacpiNtPowerResResume. cbn [pw_Ready pw_set_Calls]. rewrite Hr. cbn. split_and!; done.
Qed.
End Wake.

(** ** Witnesses and what modelling showed

    A device that wakes by GPE 9 from S3, and needs a resource armed. *)
Definition wake_methods : acpi_script :=
  [(20, "_PRW", UACPI_OBJECT_PACKAGE [UACPI_OBJECT_INTEGER 9; UACPI_OBJECT_INTEGER 3;
                                      UACPI_OBJECT_STRING true "PWR1"]);
   (20, "_PSW", UACPI_OBJECT_INTEGER 0); (1, "_S3_", UACPI_OBJECT_INTEGER 0);
   (2, "_ON", UACPI_OBJECT_INTEGER 0); (2, "_OFF", UACPI_OBJECT_INTEGER 0)]%string.

Definition wake_acpi : Acpi := scripted_acpi wake_methods [("PWR1"%string, 2)] [2].
Definition wake_power : power_state := mkPower true [mkPowerResource 2 0 0 0 false] [].
Definition wake_block : UACPINT_WAKE := UacpiNtWakeInit 20 zero_wake.
Definition wake_irp : irp := mkIrp PowerSystemSleeping3 false false [].

(** Arm, then the GPE wakes. *)
Definition wake_armed := UacpiNtWakeArm (A := wake_acpi) true 0 wake_irp wake_block wake_power.

Example wake_arms :
  wake_armed.1.1.1 = STATUS_PENDING /\
  runtime_users (A := wake_acpi) NULL 9 (pw_Calls wake_armed.2) = 1 /\
  map pr_RefCount (pw_List wake_armed.2) = [1] /\ map pr_On (pw_List wake_armed.2) = [true].
Proof. by vm_compute. Qed.

Definition armed_irp : irp := Eval vm_compute in wake_armed.1.1.2.
Definition armed_block : UACPINT_WAKE := Eval vm_compute in wake_armed.1.2.
Definition armed_power : power_state := Eval vm_compute in wake_armed.2.

Lemma wake_armed_eq :
  UacpiNtWakeArm (A := wake_acpi) true 0 wake_irp wake_block wake_power =
    (STATUS_PENDING, armed_irp, armed_block, armed_power).
Proof. by vm_compute. Qed.

Lemma wake_hardware_follows_armed_witness :
  wk_Armed armed_block = true /\
  runtime_users (A := wake_acpi) NULL 9 (pw_Calls armed_power) = 1 /\
  exists R, pw_List armed_power !! 0%nat = Some R /\ pr_RefCount R = 1.
Proof.
  assert (rtc (wake_op (A := wake_acpi) true) (wake_block, [wake_irp], wake_power)
            (armed_block, [armed_irp], armed_power)) as Hr.
  { apply rtc_once.
    exact (op_arm (A := wake_acpi) true 0 wake_irp _ _ wake_block [wake_irp] _ _ _ eq_refl eq_refl wake_armed_eq). }
  pose proof (wake_hardware_follows_armed (A := wake_acpi) true wake_block [wake_irp] wake_power
    armed_block [armed_irp] armed_power
    eq_refl ltac:(repeat constructor; vm_compute; discriminate) eq_refl eq_refl Hr) as (Hu & Hk & _).
  split; [reflexivity|]. split.
  - rewrite Hu. reflexivity.
  - destruct (Hk 0%nat _ eq_refl) as (R & HR & Hc). exists R. split; [exact HR|]. rewrite Hc. reflexivity.
Defined.

(** A sleep to S3 with one device armed for S1. *)
Definition bench_sleep : sleep_state unit :=
  mkSleep unit 0 false false
    [wk_set_Armed true (wk_set_Requested PowerSystemSleeping1 (wk_set_Gpe 9 wake_block))] wake_power tt.

Lemma sleep_and_resume_witness :
  sl_Blocks (UacpiNtSystemSetPower (A := wake_acpi) true (fun l : unit => l) true PowerSystemWorking
    (UacpiNtSystemSetPower (A := wake_acpi) true (fun l : unit => l) true PowerSystemSleeping3 bench_sleep))
    = sl_Blocks bench_sleep.
Proof.
  apply (sleep_and_resume (A := wake_acpi) true (fun l : unit => l) PowerSystemSleeping3 bench_sleep).
  - vm_compute. split; discriminate.
  - reflexivity.
  - repeat constructor.
  - vm_compute. lia.
Defined.

(** A WAIT_WAKE that comes between the cancel of the one before and the deferred
    disarm arms the hardware a second time.  The disarm of the second wait undoes
    one of the two: the GPE keeps a user, and the power resource a reference,
    with nothing armed. *)
Lemma rearm_before_deferred_disarm_leaks :
  let '(_, i0, w, s) := wake_armed in
  let '(w, irps) := IoCancelIrp 0 i0 w [i0; wake_irp] in
  let '(_, i1, w, s) := UacpiNtWakeArm (A := wake_acpi) true 1 wake_irp w s in
  let '(w, s) := UacpiNtWakeDisarmWorker (A := wake_acpi) true w s in
  let '(w, irps, s, _, _) :=
    UacpiNtWakeComplete (A := wake_acpi) true false false w (<[1%nat := i1]> irps) s in
  wk_Armed w = false /\ map irp_Completions irps = [[STATUS_CANCELLED]; [STATUS_SUCCESS]] /\
  runtime_users (A := wake_acpi) NULL 9 (pw_Calls s) = 1 /\
  map pr_RefCount (pw_List s) = [1] /\ map pr_On (pw_List s) = [true].
Proof. by vm_compute. Qed.

(** A device disarmed while its mask is dropped for a sleep is enabled for wake
    by the resume. *)
Lemma disarmed_device_unmasked_on_resume :
  let w0 := wk_set_Armed true (wk_set_Requested PowerSystemSleeping1 (wk_set_Gpe 9 wake_block)) in
  let '(b, h) := UacpiNtWakeSuspendShallow PowerSystemSleeping3 [w0] [] (A := wake_acpi) in
  let '(w, s) := UacpiNtWakeDisarm (A := wake_acpi) true (nth 0 b w0) (pw_set_Calls h wake_power) in
  let '(b, h) := UacpiNtWakeRestoreSuspended (A := wake_acpi) [w] (pw_Calls s) in
  map wk_Armed b = [false] /\ head h = Some (CallEnableGpeForWake NULL 9).
Proof. by vm_compute. Qed.
