(* ===== verification/WakeRace.v ===== *)
(** The threads that end a WAIT_WAKE: sys/power.c, second half, cut at its locks.

    The power IRP, the cancel routine, the GPE notification, the removal and the
    deferred disarm run on different threads.  Each takes its turns between the
    points where the lock is taken and released; the I/O manager may cancel an
    IRP between any two turns, also while the lock is held. *)
From stdpp Require Import base list numbers option strings relations.
From Stdlib Require Import ZArith Lia Permutation.
From S2P Require Import Prelude NtEnv AcpiEnv PowerRes PowerCaps Wake.

(** Where a thread is; the number is the IRP it works on. *)
Inductive task :=
| InArmCheck (id : nat)
| InArmHardware (id : nat)
| InArmPublish (id : nat)
| InArmLocked (id : nat)
| InArmAbort (id : nat)
| InIoCancel (id : nat)
| InCancel (id : nat)
| InCancelOwned (id : nat)
| InWorkerStart
| InWorkerDecide
| InWorkerRelease
| InNotify
| InNotifyClaimed (id : nat)
| InTeardown
| InTeardownClaimed (o : option nat).

Record race := mkRace {
  rc_Wake : UACPINT_WAKE;
  rc_Irps : list irp;
  rc_Power : power_state;
  rc_Locked : bool;
  rc_Tasks : list task
}.

Definition rc_set_Tasks (l : list task) (y : race) : race :=
  mkRace (rc_Wake y) (rc_Irps y) (rc_Power y) (rc_Locked y) l.

Definition complete_at (st : NTSTATUS) (id : nat) (irps : list irp) : list irp :=
  alter (UacpiNtCompleteIrp st) id irps.

Section Race.
Context {A : Acpi} (Win8 : bool).

(** One turn of a thread that has left the list; [None] while it waits for the
    lock. *)
Definition wake_turn (t : task) (y : race) : option race :=
  let w := rc_Wake y in
  let irps := rc_Irps y in
  let s := rc_Power y in
  let next w irps s locked new := Some (mkRace w irps s locked (new ++ rc_Tasks y)) in
  match t with
  | InArmCheck id =>
      if rc_Locked y then None
      else match irps !! id with
           | None => None
           | Some i =>
               let '(Failed, w, s) := arm_check (irp_PowerState i) w s in
               match Failed with
               | Some st => next w (complete_at st id irps) s false []
               | None => next w irps s false [InArmHardware id]
               end
           end
  | InArmHardware id =>
      let '(Failed, w, s) := arm_hardware Win8 w s in
      match Failed with
      | Some st => next w (complete_at st id irps) s (rc_Locked y) []
      | None => next w irps s (rc_Locked y) [InArmPublish id]
      end
  | InArmPublish id =>
      if rc_Locked y then None
      else next w (alter (fun i => (IoSetCancelRoutine true i).2) id irps) s true [InArmLocked id]
  | InArmLocked id =>
      match irps !! id with
      | None => None
      | Some i =>
          let '(Pended, i, w) := publish_decide id i w in
          next w (<[id := i]> irps) s false (if Pended then [] else [InArmAbort id])
      end
  | InArmAbort id =>
      let '(w, s) := UacpiNtWakeDisarm Win8 w s in
      next w (complete_at STATUS_CANCELLED id irps) s (rc_Locked y) []
  | InIoCancel id =>
      match irps !! id with
      | None => None
      | Some i =>
          let '(Had, i) := IoSetCancelRoutine false i in
          next w (<[id := i]> irps) s (rc_Locked y) (if Had then [InCancel id] else [])
      end
  | InCancel id =>
      if rc_Locked y then None
      else let '(Owned, w) := cancel_takes id w in
           next w irps s false (if Owned then [InCancelOwned id] else [])
  | InCancelOwned id =>
      next (wk_set_Queued true w) (complete_at STATUS_CANCELLED id irps) s (rc_Locked y)
        (if wk_DisarmQueued w then [] else [InWorkerStart])
  | InWorkerStart => next (wk_set_Queued false w) irps s (rc_Locked y) [InWorkerDecide]
  | InWorkerDecide =>
      if rc_Locked y then None
      else let '(Disarm, w) := worker_takes w in
           next w irps s false (if Disarm then [InWorkerRelease] else [])
  | InWorkerRelease =>
      let '(w, s) := UacpiNtWakeReleaseHardware Win8 w s in next w irps s (rc_Locked y) []
  | InNotify =>
      if rc_Locked y then None
      else let '(Irp, w, irps) := UacpiNtWakeClaimIrp w irps in
           next w irps s false (match Irp with Some id => [InNotifyClaimed id] | None => [] end)
  | InNotifyClaimed id =>
      let '(w, s) := UacpiNtWakeDisarm Win8 w s in
      next w (complete_at STATUS_SUCCESS id irps) s (rc_Locked y) []
  | InTeardown =>
      if rc_Locked y then None
      else let '(Irp, w, irps) := UacpiNtWakeClaimIrp w irps in
           next w irps s false [InTeardownClaimed Irp]
  | InTeardownClaimed o =>
      let irps := match o with Some id => complete_at STATUS_NO_SUCH_DEVICE id irps | None => irps end in
      let '(w, s) := UacpiNtWakeDisarm Win8 w s in next w irps s (rc_Locked y) []
  end.

(** A thread that is inside UacpiNtWakeArm. *)
Definition in_arm (t : task) : nat :=
  match t with
  | InArmCheck _ | InArmHardware _ | InArmPublish _ | InArmLocked _ | InArmAbort _ => 1
  | _ => 0
  end.

(** [serial]: a WAIT_WAKE comes only when the call for the one before is back. *)
Inductive race_step (serial : bool) : race -> race -> Prop :=
| race_turn t rest y y' :
    rc_Tasks y ≡ₚ t :: rest -> wake_turn t (rc_set_Tasks rest y) = Some y' -> race_step serial y y'
| race_wait_wake PowerState y :
    (serial = true -> list_weight in_arm (rc_Tasks y) = 0%nat) ->
    race_step serial y
      (mkRace (rc_Wake y) (rc_Irps y ++ [mkIrp PowerState false false []]) (rc_Power y) (rc_Locked y)
         (InArmCheck (length (rc_Irps y)) :: rc_Tasks y))
| race_io_cancel id i y :
    rc_Irps y !! id = Some i ->
    race_step serial y
      (mkRace (rc_Wake y)
         (<[id := mkIrp (irp_PowerState i) true (irp_CancelRoutine i) (irp_Completions i)]> (rc_Irps y))
         (rc_Power y) (rc_Locked y) (InIoCancel id :: rc_Tasks y))
| race_notify y : race_step serial y (rc_set_Tasks (InNotify :: rc_Tasks y) y)
| race_teardown y : race_step serial y (rc_set_Tasks (InTeardown :: rc_Tasks y) y).

Definition race_start (w : UACPINT_WAKE) (s : power_state) : race := mkRace w [] s false [].

(** ** Who answers for an IRP

    The thread that will complete it, the block that waits with it, or the
    completions it has had. *)
Definition owner (t : task) : option nat :=
  match t with
  | InArmCheck id | InArmHardware id | InArmPublish id | InArmLocked id | InArmAbort id
  | InCancelOwned id | InNotifyClaimed id => Some id
  | InTeardownClaimed o => o
  | InIoCancel _ | InCancel _ | InWorkerStart | InWorkerDecide | InWorkerRelease | InNotify | InTeardown => None
  end.

Definition owns (id : nat) (t : task) : nat := if decide (owner t = Some id) then 1 else 0.
Definition waits (id : nat) (w : UACPINT_WAKE) : nat := if decide (wk_WaitWakeIrp w = Some id) then 1 else 0.
Definition completions (id : nat) (irps : list irp) : nat :=
  match irps !! id with Some i => length (irp_Completions i) | None => 0 end.
Definition answers (id : nat) (y : race) : nat :=
  waits id (rc_Wake y) + list_weight (owns id) (rc_Tasks y) + completions id (rc_Irps y).

Lemma completions_complete st id irps k : (id < length irps)%nat ->
  completions k (complete_at st id irps) = (completions k irps + (if decide (Some id = Some k) then 1 else 0))%nat.
Proof.
  intros [i Hi]%lookup_lt_is_Some_2. unfold completions, complete_at.
  destruct (decide (id = k)) as [->|Hn].
  - rewrite list_lookup_alter_eq, Hi, decide_True by done. simpl. lia.
  - rewrite list_lookup_alter_ne, decide_False by congruence. lia.
Qed.

Lemma completions_insert id i i' irps k : irps !! id = Some i ->
  irp_Completions i' = irp_Completions i -> completions k (<[id := i']> irps) = completions k irps.
Proof.
  intros Hi E. unfold completions. destruct (decide (id = k)) as [->|].
  - by rewrite list_lookup_insert_eq, Hi, E by (by eapply lookup_lt_Some).
  - by rewrite list_lookup_insert_ne.
Qed.

Lemma completions_alter f id irps k : (forall i, irp_Completions (f i) = irp_Completions i) ->
  completions k (alter f id irps) = completions k irps.
Proof.
  intros E. unfold completions. destruct (decide (id = k)) as [->|].
  - rewrite list_lookup_alter_eq. destruct (irps !! k); simpl; [by rewrite E|done].
  - by rewrite list_lookup_alter_ne.
Qed.

Lemma claim_frame w irps o w' irps' :
  UacpiNtWakeClaimIrp w irps = (o, w', irps') ->
  length irps' = length irps /\
  (forall k, completions k irps' = completions k irps) /\
  (forall k, (waits k w' + (if decide (o = Some k) then 1 else 0))%nat = waits k w).
Proof.
  unfold UacpiNtWakeClaimIrp, IoSetCancelRoutine. intros H.
  destruct (wk_WaitWakeIrp w) as [id|] eqn:Ew; [destruct (irps !! id) as [i|] eqn:Ei|]; simplify_eq/=.
  - destruct (irp_CancelRoutine i); simplify_eq/=.
    + split_and!; [by rewrite length_insert|intros; by eapply completions_insert|].
      intros k. unfold waits. by rewrite Ew.
    + split_and!; [by rewrite length_insert|intros; by eapply completions_insert|].
      intros k. simpl. lia.
  - split_and!; [done..|]. intros k. simpl. lia.
  - split_and!; [done..|]. intros k. simpl. lia.
Qed.

Lemma cancel_takes_frame id w b w' k :
  cancel_takes id w = (b, w') ->
  (waits k w' + (if decide ((if b then Some id else None) = Some k) then 1 else 0))%nat = waits k w.
Proof.
  unfold cancel_takes, waits. intros H.
  destruct (wk_WaitWakeIrp w) as [id'|] eqn:Ew; [destruct (id' =? id)%nat eqn:E|]; nat_prop; simplify_eq/=;
    rewrite ?Ew; repeat case_decide; simplify_eq; done.
Qed.

Lemma worker_takes_irp w b w' : worker_takes w = (b, w') -> wk_WaitWakeIrp w' = wk_WaitWakeIrp w.
Proof.
  unfold worker_takes. intros H.
  destruct (wk_WaitWakeIrp w) eqn:E; [by simplify_eq|]. destruct (wk_Armed w); by simplify_eq.
Qed.

Lemma waits_same k w w' : wk_WaitWakeIrp w' = wk_WaitWakeIrp w -> waits k w' = waits k w.
Proof. unfold waits. by intros ->. Qed.

Lemma answers_eq k w irps s l new ts :
  answers k (mkRace w irps s l (new ++ ts)) =
    (waits k w + list_weight (owns k) new + list_weight (owns k) ts + completions k irps)%nat.
Proof. unfold answers. simpl. rewrite weight_app. lia. Qed.

Lemma publish_frame id i w b i' w' :
  publish_decide id i w = (b, i', w') ->
  irp_Completions i' = irp_Completions i /\
  w' = (if b then wk_set_Irp (Some id) w else w).
Proof.
  unfold publish_decide, IoSetCancelRoutine. intros H. destruct (_ && _); by simplify_eq.
Qed.

(** [now]: what answers for IRP [k] outside the other threads. *)
Definition now (k : nat) (w : UACPINT_WAKE) (irps : list irp) (ts : list task) : nat :=
  waits k w + completions k irps + list_weight (owns k) ts.

Lemma now_nil k w irps : now k w irps [] = (waits k w + completions k irps)%nat.
Proof. unfold now, list_weight. simpl. lia. Qed.

Lemma now_one k w irps t :
  now k w irps [t] = (waits k w + completions k irps + (if decide (owner t = Some k) then 1 else 0))%nat.
Proof. unfold now, list_weight, owns. simpl. lia. Qed.

(** A turn that ends in the state [w'], [irps'] with the threads [new] instead of [t]. *)
Definition accounts (t : task) (w : UACPINT_WAKE) (irps : list irp) (w' : UACPINT_WAKE) (irps' : list irp)
  (new : list task) : Prop :=
  length irps' = length irps /\
  forall k, exists lost, (now k w' irps' new + lost = now k w irps [t])%nat /\
    ((forall id, t = InArmLocked id -> wk_WaitWakeIrp w = None) -> lost = 0%nat).

Lemma accounts_none t w irps w' irps' new :
  length irps' = length irps -> (forall k, now k w' irps' new = now k w irps [t]) ->
  accounts t w irps w' irps' new.
Proof. intros Hl Hn. split; [done|]. intros k. exists 0%nat. rewrite Hn. split; [lia|done]. Qed.

(** The thread completes its IRP. *)
Lemma accounts_complete st id t w irps w' :
  wk_WaitWakeIrp w' = wk_WaitWakeIrp w -> owner t = Some id -> (id < length irps)%nat ->
  accounts t w irps w' (complete_at st id irps) [].
Proof.
  intros Hw Ho Hid. apply accounts_none; [unfold complete_at; by rewrite length_alter|].
  intros k. rewrite now_nil, now_one, completions_complete, (waits_same k w w'), Ho by done. lia.
Qed.

(** The thread goes on with its IRP, or ends without one. *)
Lemma accounts_move t w irps w' irps' new :
  wk_WaitWakeIrp w' = wk_WaitWakeIrp w -> length irps' = length irps ->
  (forall k, completions k irps' = completions k irps) ->
  match new with [] => owner t = None | [t'] => owner t' = owner t | _ => False end ->
  accounts t w irps w' irps' new.
Proof.
  intros Hw Hl Hc Hn. apply accounts_none; [done|]. intros k.
  destruct new as [|t' [|]]; [..|done]; rewrite ?now_nil, !now_one, Hc, (waits_same k w w'), Hn by done; [|lia].
  simpl. lia.
Qed.

Lemma accounts_claim t t' w irps o w' irps' :
  UacpiNtWakeClaimIrp w irps = (o, w', irps') -> owner t = None ->
  match t' with Some t' => owner t' = o | None => o = None end ->
  accounts t w irps w' irps' (match t' with Some t' => [t'] | None => [] end).
Proof.
  intros E Ho Ht'. apply claim_frame in E as (Hl & Hc & Hw). apply accounts_none; [done|].
  intros k. specialize (Hw k). rewrite now_one, Ho. rewrite (decide_False (P := None = Some k)) by done.
  destruct t' as [t'|]; [rewrite now_one, Ht'|rewrite now_nil; subst o]; rewrite Hc; [lia|].
  simpl in Hw. lia.
Qed.

(** What a turn changes: the answers for each IRP stay, unless a new wait
    overwrites the one of the block. *)
Lemma turn_accounts t y y' :
  wake_turn t y = Some y' -> (forall id, owner t = Some id -> (id < length (rc_Irps y))%nat) ->
  exists new, rc_Tasks y' = new ++ rc_Tasks y /\
    accounts t (rc_Wake y) (rc_Irps y) (rc_Wake y') (rc_Irps y') new.
Proof.
  intros H Hid. destruct y as [w irps s lk ts]. cbn [rc_Wake rc_Irps rc_Tasks] in *.
  destruct t as [id|id|id|id|id|id|id|id| | | | |id| |o];
    unfold wake_turn in H; cbv beta iota zeta in H; cbn [rc_Wake rc_Irps rc_Power rc_Locked rc_Tasks] in H;
    cbn [owner] in Hid;
    try (specialize (Hid id eq_refl)).
  - destruct lk; [done|]. destruct (irps !! id) as [i|]; [|done].
    destruct (arm_check _ _ _) as [[[st|] w1] s1] eqn:E; apply arm_check_frame in E as (_ & _ & Hw & _);
      simplify_eq; eexists; (split; [reflexivity|cbn [rc_Irps rc_Wake]]).
    + by eapply accounts_complete.
    + by apply accounts_move.
  - destruct (arm_hardware _ _ _) as [[[st|] w1] s1] eqn:E; apply arm_hardware_frame in E as (Hw & _);
      simplify_eq; eexists; (split; [reflexivity|cbn [rc_Irps rc_Wake]]).
    + by eapply accounts_complete.
    + by apply accounts_move.
  - destruct lk; [done|]. simplify_eq. eexists; (split; [reflexivity|cbn [rc_Irps rc_Wake]]).
    apply accounts_move; [done|by rewrite length_alter|by intros; apply completions_alter|done].
  - destruct (irps !! id) as [i|] eqn:Ei; [|done].
    destruct (publish_decide id i w) as [[b i'] w1] eqn:E. apply publish_frame in E as [Hc ->].
    simplify_eq. eexists; (split; [reflexivity|cbn [rc_Irps rc_Wake]]). destruct b.
    + split; [by rewrite length_insert|]. intros k. exists (waits k w). rewrite now_nil, now_one.
      erewrite completions_insert by done. split.
      * unfold waits at 1. simpl. lia.
      * intros Hw. specialize (Hw id eq_refl). unfold waits. rewrite Hw. by rewrite decide_False.
    + apply accounts_move; [done|by rewrite length_insert|by intros; eapply completions_insert|done].
  - destruct (UacpiNtWakeDisarm _ _ _) as [w1 s1] eqn:E. apply disarm_irp in E. simplify_eq.
    eexists; (split; [reflexivity|cbn [rc_Irps rc_Wake]]). by eapply accounts_complete.
  - destruct (irps !! id) as [i|] eqn:Ei; [|done]. unfold IoSetCancelRoutine in H. simplify_eq. eexists; (split; [reflexivity|cbn [rc_Irps rc_Wake]]).
    apply accounts_move; [done|by rewrite length_insert|by intros; eapply completions_insert|].
    by destruct (irp_CancelRoutine i).
  - destruct lk; [done|]. destruct (cancel_takes id w) as [b w1] eqn:E. simplify_eq.
    eexists; (split; [reflexivity|cbn [rc_Irps rc_Wake]]). apply accounts_none; [done|]. intros k.
    pose proof (cancel_takes_frame id w b w1 k E) as Hk. rewrite now_one. simpl.
    destruct b; [rewrite now_one|rewrite now_nil]; simpl in *; lia.
  - simplify_eq. eexists; (split; [reflexivity|cbn [rc_Irps rc_Wake]]).
    destruct (wk_DisarmQueued w); [by eapply accounts_complete|].
    destruct (accounts_complete STATUS_CANCELLED id (InCancelOwned id) w irps (wk_set_Queued true w))
      as [Hl Hk]; [done..|]. split; [done|]. intros k. specialize (Hk k).
    rewrite now_nil in Hk. rewrite now_one. simpl. by rewrite Nat.add_0_r.
  - simplify_eq. eexists; (split; [reflexivity|cbn [rc_Irps rc_Wake]]). by apply accounts_move.
  - destruct lk; [done|]. destruct (worker_takes w) as [b w1] eqn:E. apply worker_takes_irp in E.
    simplify_eq. eexists; (split; [reflexivity|cbn [rc_Irps rc_Wake]]). apply accounts_move; try done. by destruct b.
  - destruct (UacpiNtWakeReleaseHardware _ _ _) as [w1 s1] eqn:E. apply release_irp in E.
    simplify_eq. eexists; (split; [reflexivity|cbn [rc_Irps rc_Wake]]). by apply accounts_move.
  - destruct lk; [done|]. destruct (UacpiNtWakeClaimIrp w irps) as [[o w1] irps1] eqn:E. simplify_eq.
    eexists; (split; [reflexivity|cbn [rc_Irps rc_Wake]]).
    destruct o as [id|]; [by apply (accounts_claim _ (Some (InNotifyClaimed id)) _ _ _ _ _ E)|
                          by apply (accounts_claim _ None _ _ _ _ _ E)].
  - destruct (UacpiNtWakeDisarm _ _ _) as [w1 s1] eqn:E. apply disarm_irp in E. simplify_eq.
    eexists; (split; [reflexivity|cbn [rc_Irps rc_Wake]]). by eapply accounts_complete.
  - destruct lk; [done|]. destruct (UacpiNtWakeClaimIrp w irps) as [[o w1] irps1] eqn:E. simplify_eq.
    eexists; (split; [reflexivity|cbn [rc_Irps rc_Wake]]). by apply (accounts_claim _ (Some (InTeardownClaimed o)) _ _ _ _ _ E).
  - destruct (UacpiNtWakeDisarm _ _ _) as [w1 s1] eqn:E. apply disarm_irp in E. simplify_eq.
    eexists; (split; [reflexivity|cbn [rc_Irps rc_Wake]]). destruct o as [id|]; [|by apply accounts_move].
    eapply accounts_complete; [done|done|by apply Hid].
Qed.

(** ** Every IRP is answered for once *)

Definition expected (id : nat) (y : race) : nat := if (id <? length (rc_Irps y))%nat then 1 else 0.

Lemma now_answers k y : answers k y = now k (rc_Wake y) (rc_Irps y) (rc_Tasks y).
Proof. unfold answers, now. lia. Qed.

Lemma now_app k w irps new ts :
  now k w irps (new ++ ts) = (now k w irps new + list_weight (owns k) ts)%nat.
Proof. unfold now. rewrite weight_app. lia. Qed.

Lemma now_perm k w irps ts ts' : ts ≡ₚ ts' -> now k w irps ts = now k w irps ts'.
Proof. intros Hp. unfold now. by rewrite (weight_perm _ _ _ Hp). Qed.

Definition answered_once (y : race) : Prop := forall id, (answers id y <= expected id y)%nat.

Lemma owner_valid y t id : answered_once y -> t ∈ rc_Tasks y -> owner t = Some id ->
  (id < length (rc_Irps y))%nat.
Proof.
  intros Hy Ht Ho. specialize (Hy id). unfold expected in Hy.
  destruct (id <? length (rc_Irps y))%nat eqn:E; nat_prop; [done|].
  apply list_elem_of_lookup in Ht as [j Hj].
  pose proof (list_weight_lookup (owns id) _ _ _ Hj) as Hw. unfold owns at 1 in Hw.
  rewrite decide_True in Hw by done. unfold answers in Hy. lia.
Qed.

(** A turn of [t] among the threads [rest]. *)
Lemma turn_answered t rest y y' :
  answered_once y -> rc_Tasks y ≡ₚ t :: rest -> wake_turn t (rc_set_Tasks rest y) = Some y' ->
  length (rc_Irps y') = length (rc_Irps y) /\
  forall k, exists lost, (answers k y' + lost = answers k y)%nat /\
    ((forall id, t = InArmLocked id -> wk_WaitWakeIrp (rc_Wake y) = None) -> lost = 0%nat).
Proof.
  intros Hy Hp H. destruct (turn_accounts t _ y' H) as (new & Hnew & Hl & Hk).
  { intros id Ho. apply (owner_valid y t); [done| |done]. rewrite Hp. by left. }
  cbn [rc_set_Tasks rc_Irps rc_Wake rc_Tasks] in *. split; [done|]. intros k.
  destruct (Hk k) as (lost & E & Hlost). exists lost. split; [|done].
  rewrite !now_answers, Hnew, (now_perm k _ _ _ _ Hp), now_app.
  rewrite (now_app k _ _ [t] rest). lia.
Qed.

Lemma completions_app id irps i : irp_Completions i = [] ->
  completions id (irps ++ [i]) = completions id irps.
Proof.
  intros Hi. unfold completions. destruct (decide (id < length irps)%nat).
  - by rewrite lookup_app_l.
  - rewrite lookup_app_r, (lookup_ge_None_2 irps) by lia.
    destruct (id - length irps)%nat as [|j]; simpl; [by rewrite Hi|done].
Qed.

(** The environment adds one thread. *)
Lemma answers_new t irps y k :
  answers k (mkRace (rc_Wake y) irps (rc_Power y) (rc_Locked y) (t :: rc_Tasks y)) =
    (waits k (rc_Wake y) + owns k t + list_weight (owns k) (rc_Tasks y) + completions k irps)%nat.
Proof. unfold answers. cbn [rc_Wake rc_Irps rc_Tasks]. rewrite weight_cons. lia. Qed.

Lemma owns_owner k t : owner t = None -> owns k t = 0%nat.
Proof. unfold owns. by intros ->. Qed.

(** What the other steps change. *)
Lemma new_wait_answers PowerState y k :
  let y' := mkRace (rc_Wake y) (rc_Irps y ++ [mkIrp PowerState false false []]) (rc_Power y) (rc_Locked y)
              (InArmCheck (length (rc_Irps y)) :: rc_Tasks y) in
  exists d, answers k y' = (answers k y + d)%nat /\ expected k y' = (expected k y + d)%nat.
Proof.
  intros y'. exists (if decide (k = length (rc_Irps y)) then 1 else 0)%nat. unfold y'. split.
  - rewrite answers_new, completions_app by done. unfold answers, owns at 1. cbn [owner].
    repeat case_decide; simplify_eq; lia.
  - unfold expected. cbn [rc_Irps]. rewrite length_app. cbn [length].
    destruct (k <? _)%nat eqn:E1, (k <? length (rc_Irps y))%nat eqn:E2; nat_prop; case_decide; lia.
Qed.

Lemma race_step_answered serial y y' : answered_once y -> race_step serial y y' -> answered_once y'.
Proof.
  intros Hy Hs k. destruct Hs as [t rest y y' Hp H|ps y Hser|id i y Hi|y|y].
  - destruct (turn_answered t rest y y' Hy Hp H) as [Hl Hk]. destruct (Hk k) as (lost & E & _).
    specialize (Hy k). unfold expected in *. rewrite Hl. lia.
  - destruct (new_wait_answers ps y k) as (d & -> & ->). specialize (Hy k). lia.
  - rewrite answers_new, owns_owner by done. specialize (Hy k). unfold expected, answers in *.
    cbn [rc_Irps]. rewrite length_insert. erewrite completions_insert by done. lia.
  - unfold rc_set_Tasks. rewrite (answers_new InNotify (rc_Irps y) y), owns_owner by done.
    specialize (Hy k). unfold expected, answers in *. cbn [rc_Irps]. lia.
  - unfold rc_set_Tasks. rewrite (answers_new InTeardown (rc_Irps y) y), owns_owner by done.
    specialize (Hy k). unfold expected, answers in *. cbn [rc_Irps]. lia.
Qed.

Lemma race_run_answered serial w s y :
  wk_WaitWakeIrp w = None -> rtc (race_step serial) (race_start w s) y -> answered_once y.
Proof.
  intros Hw Hrun. assert (answered_once (race_start w s)) as H0.
  { intros id. unfold answers, waits, completions, expected, race_start. cbn. by rewrite Hw. }
  remember (race_start w s) as y0 eqn:E. clear E Hw.
  induction Hrun as [y|y y1 y2 Hs _ IH]; [done|]. apply IH. by eapply race_step_answered.
Qed.

(** C11.  However the threads interleave, and however many WAIT_WAKEs come at
    once: no IRP is completed twice, and the one the block waits with has not been
    completed and is not in the hands of a thread that will. *)
Theorem wait_wake_completed_at_most_once serial w s y :
  wk_WaitWakeIrp w = None -> rtc (race_step serial) (race_start w s) y ->
  forall id i, rc_Irps y !! id = Some i ->
  (length (irp_Completions i) <= 1)%nat /\
  (wk_WaitWakeIrp (rc_Wake y) = Some id ->
     irp_Completions i = [] /\ Forall (fun t => owner t <> Some id) (rc_Tasks y)).
Proof.
  intros Hw Hrun id i Hi. pose proof (race_run_answered serial w s y Hw Hrun id) as H.
  assert (expected id y <= 1)%nat as He by (unfold expected; by destruct (_ <? _)%nat; lia).
  unfold answers, completions in H. rewrite Hi in H. split; [lia|]. intros Hwait.
  unfold waits in H. rewrite decide_True in H by done. split; [apply nil_length_inv; lia|].
  apply Forall_forall. intros t Ht Ho. apply list_elem_of_lookup in Ht as [j Hj].
  pose proof (list_weight_lookup (owns id) _ _ _ Hj) as Hwt. unfold owns at 1 in Hwt.
  rewrite decide_True in Hwt by done. lia.
Qed.

(** ** Every IRP gets its answer

    The turns a thread has left, with those of the threads it starts. *)
Definition work (t : task) : nat :=
  match t with
  | InArmCheck _ => 6 | InArmHardware _ => 5 | InArmPublish _ => 4 | InArmLocked _ => 3 | InArmAbort _ => 1
  | InIoCancel _ => 6 | InCancel _ => 5 | InCancelOwned _ => 4
  | InWorkerStart => 3 | InWorkerDecide => 2 | InWorkerRelease => 1
  | InNotify => 2 | InNotifyClaimed _ => 1 | InTeardown => 2 | InTeardownClaimed _ => 1
  end.

Definition holds_lock (t : task) : nat := match t with InArmLocked _ => 1 | _ => 0 end.
Definition lock_bit (y : race) : nat := if rc_Locked y then 1 else 0.

(** Past the test for another wait. *)
Definition past_check (t : task) : bool :=
  match t with InArmHardware _ | InArmPublish _ | InArmLocked _ => true | _ => false end.

(** The wait of the block after a turn. *)
Definition wait_after (t : task) (w w' : UACPINT_WAKE) (new : list task) : Prop :=
  (wk_WaitWakeIrp w' = wk_WaitWakeIrp w \/ wk_WaitWakeIrp w' = None \/
   exists id, t = InArmLocked id) /\
  Forall (fun t' => past_check t' = true ->
            (past_check t = true /\ wk_WaitWakeIrp w' = wk_WaitWakeIrp w) \/ wk_WaitWakeIrp w' = None) new /\
  Forall (fun t' => forall id, t' <> InIoCancel id) new.

Lemma claim_wait w irps o w' irps' :
  UacpiNtWakeClaimIrp w irps = (o, w', irps') ->
  wk_WaitWakeIrp w' = wk_WaitWakeIrp w \/ wk_WaitWakeIrp w' = None.
Proof.
  unfold UacpiNtWakeClaimIrp, IoSetCancelRoutine. intros H.
  destruct (wk_WaitWakeIrp w) as [id|] eqn:Ew; [destruct (irps !! id) as [i|]|]; simplify_eq/=; auto.
  destruct (irp_CancelRoutine i); simplify_eq/=; auto.
Qed.

(** The new threads are none or one. *)
Ltac one_new := first [by apply Forall_nil | apply Forall_singleton; cbn; intros; (done || auto)].

Lemma turn_threads t y y' :
  wake_turn t y = Some y' -> (holds_lock t <= lock_bit y)%nat ->
  exists new, rc_Tasks y' = new ++ rc_Tasks y /\
    (list_weight work new < work t)%nat /\ (list_weight in_arm new <= in_arm t)%nat /\
    (list_weight holds_lock new + lock_bit y = holds_lock t + lock_bit y')%nat /\
    wait_after t (rc_Wake y) (rc_Wake y') new.
Proof.
  intros H Hlk. destruct y as [w irps s lk ts]. unfold lock_bit, wait_after in *.
  cbn [rc_Wake rc_Irps rc_Tasks rc_Locked] in *.
  destruct t as [id|id|id|id|id|id|id|id| | | | |id| |o];
    unfold wake_turn in H; cbv beta iota zeta in H; cbn [rc_Wake rc_Irps rc_Power rc_Locked rc_Tasks] in H.
  - destruct lk; [done|]. destruct (irps !! id) as [i|]; [|done].
    destruct (arm_check _ _ _) as [[[st|] w1] s1] eqn:E;
      apply arm_check_frame in E as (_ & _ & Hw & _ & Ho & _); simplify_eq.
    + exists []. cbn. split_and!; auto; lia.
    + destruct (proj1 Ho eq_refl) as (_ & _ & Hn). exists [InArmHardware id]. cbn.
      split_and!; auto; try lia. apply Forall_singleton. right. congruence.
  - destruct (arm_hardware _ _ _) as [[[st|] w1] s1] eqn:E; apply arm_hardware_frame in E as (Hw & _);
      simplify_eq; [exists []|exists [InArmPublish id]]; cbn; split_and!; auto; try lia;
      try one_new.
  - destruct lk; [done|]. simplify_eq. exists [InArmLocked id]. cbn. split_and!; auto; try lia; try one_new.
  - destruct (irps !! id) as [i|] eqn:Ei; [|done].
    destruct (publish_decide id i w) as [[b i'] w1] eqn:E. simplify_eq. destruct lk; cbn in Hlk; [|lia].
    exists (if b then [] else [InArmAbort id]).
    destruct b; cbn; split_and!; eauto; try lia; try one_new.
  - destruct (UacpiNtWakeDisarm _ _ _) as [w1 s1] eqn:E. apply disarm_irp in E. simplify_eq.
    exists []. cbn. split_and!; auto; lia.
  - destruct (irps !! id) as [i|] eqn:Ei; [|done]. unfold IoSetCancelRoutine in H. simplify_eq.
    exists (if irp_CancelRoutine i then [InCancel id] else []).
    destruct (irp_CancelRoutine i); cbn; split_and!; auto; try lia; try one_new.
  - destruct lk; [done|]. destruct (cancel_takes id w) as [b w1] eqn:E. simplify_eq.
    exists (if b then [InCancelOwned id] else []).
    assert (wk_WaitWakeIrp w1 = wk_WaitWakeIrp w \/ wk_WaitWakeIrp w1 = None) as Hw.
    { unfold cancel_takes in E. destruct (wk_WaitWakeIrp w) eqn:?; [destruct (_ =? _)%nat|];
        simplify_eq; auto. }
    destruct Hw, b; cbn; split_and!; auto; try lia; try one_new.
  - simplify_eq. exists (if wk_DisarmQueued w then [] else [InWorkerStart]).
    destruct (wk_DisarmQueued w); cbn; split_and!; auto; try lia; try one_new.
  - simplify_eq. exists [InWorkerDecide]. cbn. split_and!; auto; try lia; try one_new.
  - destruct lk; [done|]. destruct (worker_takes w) as [b w1] eqn:E. apply worker_takes_irp in E.
    simplify_eq. exists (if b then [InWorkerRelease] else []).
    destruct b; cbn; split_and!; auto; try lia; try one_new.
  - destruct (UacpiNtWakeReleaseHardware _ _ _) as [w1 s1] eqn:E. apply release_irp in E.
    simplify_eq. exists []. cbn. split_and!; auto; lia.
  - destruct lk; [done|]. destruct (UacpiNtWakeClaimIrp w irps) as [[o w1] irps1] eqn:E. simplify_eq.
    exists (match o with Some id => [InNotifyClaimed id] | None => [] end).
    apply claim_wait in E. destruct E, o; cbn; split_and!; auto; try lia; try one_new.
  - destruct (UacpiNtWakeDisarm _ _ _) as [w1 s1] eqn:E. apply disarm_irp in E. simplify_eq.
    exists []. cbn. split_and!; auto; lia.
  - destruct lk; [done|]. destruct (UacpiNtWakeClaimIrp w irps) as [[o w1] irps1] eqn:E. simplify_eq.
    exists [InTeardownClaimed o]. apply claim_wait in E.
    destruct E; cbn; split_and!; auto; try lia; try one_new.
  - destruct (UacpiNtWakeDisarm _ _ _) as [w1 s1] eqn:E. apply disarm_irp in E. simplify_eq.
    exists []. cbn. split_and!; auto; lia.
Qed.

(** The IRP of the block, or about to be, can be cancelled, or its cancel
    routine is on its way. *)
Definition watched (w : UACPINT_WAKE) (irps : list irp) (ts : list task) : Prop :=
  forall id i, irps !! id = Some i -> wk_WaitWakeIrp w = Some id \/ InArmLocked id ∈ ts ->
  irp_CancelRoutine i = true \/ InCancel id ∈ ts.

(** IRPs that keep their cancel routine, unless a thread has called it. *)
Definition routine_kept (irps irps' : list irp) (new : list task) : Prop :=
  forall id i', irps' !! id = Some i' -> exists i, irps !! id = Some i /\
    (irp_CancelRoutine i = true -> irp_CancelRoutine i' = true \/ InCancel id ∈ new).

Lemma routine_kept_refl irps new : routine_kept irps irps new.
Proof. intros id i' H. exists i'. auto. Qed.

Lemma routine_kept_complete st id irps new : routine_kept irps (complete_at st id irps) new.
Proof.
  intros k i' H. unfold complete_at in H. destruct (decide (id = k)) as [->|Hn].
  - rewrite list_lookup_alter_eq in H. destruct (irps !! k) as [i|]; simplify_eq/=. exists i. auto.
  - rewrite list_lookup_alter_ne in H by done. exists i'. auto.
Qed.

Lemma watched_keep t w irps w' irps' new rest :
  wk_WaitWakeIrp w' = wk_WaitWakeIrp w \/ wk_WaitWakeIrp w' = None ->
  routine_kept irps irps' new ->
  (forall id, InArmLocked id ∉ new) -> (forall id, t <> InCancel id) ->
  watched w irps (t :: rest) -> watched w' irps' (new ++ rest).
Proof.
  intros Hw Hk Hl Ht H id i' Hi' Hid. destruct (Hk id i' Hi') as (i & Hi & Hr).
  rewrite elem_of_app. destruct (H id i Hi) as [Hc|Hc].
  - destruct Hid as [Hid|Hid].
    + left. destruct Hw; congruence.
    + right. apply elem_of_app in Hid as [Hid|Hid]; [by apply Hl in Hid|by right].
  - destruct (Hr Hc); auto.
  - apply elem_of_cons in Hc as [Hc|Hc]; [by symmetry in Hc; apply Ht in Hc|]. auto.
Qed.

Lemma no_lock_holder id ts : list_weight holds_lock ts = 0%nat -> InArmLocked id ∉ ts.
Proof.
  intros H Ht. apply list_elem_of_lookup in Ht as [j Hj].
  pose proof (list_weight_lookup holds_lock _ _ _ Hj) as Hw. simpl in Hw. lia.
Qed.

(** A thread that works on the IRP in the block has the lock, and no other has. *)
Lemma watched_claim t w irps o w' irps' new rest :
  UacpiNtWakeClaimIrp w irps = (o, w', irps') -> list_weight holds_lock rest = 0%nat ->
  (forall id, InArmLocked id ∉ new) -> (forall id, t <> InCancel id) ->
  watched w irps (t :: rest) -> watched w' irps' (new ++ rest).
Proof.
  unfold UacpiNtWakeClaimIrp, IoSetCancelRoutine. intros E Hlk Hl Ht H.
  destruct (wk_WaitWakeIrp w) as [id|] eqn:Ew; [destruct (irps !! id) as [i|] eqn:Ei|];
    simplify_eq; try (eapply watched_keep; [| | | |exact H]; [by left|apply routine_kept_refl|done|done]).
  destruct (irp_CancelRoutine i) eqn:Er; simplify_eq.
  - intros k i' _ [Hk|Hk]; [done|]. apply elem_of_app in Hk as [Hk|Hk]; [by apply Hl in Hk|].
    by apply (no_lock_holder k rest) in Hk.
  - eapply watched_keep; [| | | |exact H]; [by left| |done|done].
    intros k i' Hk. destruct (decide (id = k)) as [->|Hn].
    + exists i. split; [done|congruence].
    + rewrite list_lookup_insert_ne in Hk by done. exists i'. auto.
Qed.

(** The new threads do not hold the lock, and [t] does not run a cancel routine. *)
Ltac no_elem :=
  first [done | intros Hel; repeat (apply elem_of_cons in Hel as [Hel|Hel]; [done|]);
                by apply not_elem_of_nil in Hel].

Ltac keep := first [by left | apply routine_kept_complete | apply routine_kept_refl | intros ?; no_elem].

Lemma turn_watched t rest y y' :
  wake_turn t (rc_set_Tasks rest y) = Some y' -> watched (rc_Wake y) (rc_Irps y) (t :: rest) ->
  list_weight holds_lock (t :: rest) = lock_bit y ->
  (past_check t = true -> wk_WaitWakeIrp (rc_Wake y) = None) ->
  watched (rc_Wake y') (rc_Irps y') (rc_Tasks y').
Proof.
  intros H Hw Hlk Hp. destruct y as [w irps s lk ts]. unfold lock_bit in Hlk.
  cbn [rc_Wake rc_Irps rc_Tasks rc_Locked rc_set_Tasks] in *. rewrite weight_cons in Hlk.
  destruct t as [id|id|id|id|id|id|id|id| | | | |id| |o];
    unfold wake_turn, rc_set_Tasks in H; cbv beta iota zeta in H;
    cbn [rc_Wake rc_Irps rc_Power rc_Locked rc_Tasks] in H.
  - destruct lk; [done|]. destruct (irps !! id) as [i|]; [|done].
    destruct (arm_check _ _ _) as [[[st|] w1] s1] eqn:E;
      apply arm_check_frame in E as (_ & _ & E & _); simplify_eq;
      (eapply watched_keep; [| | | |exact Hw]; keep).
  - destruct (arm_hardware _ _ _) as [[[st|] w1] s1] eqn:E; apply arm_hardware_frame in E as (E & _);
      simplify_eq; (eapply watched_keep; [| | | |exact Hw]; keep).
  - destruct lk; [done|]. simplify_eq. cbn [rc_Wake rc_Irps rc_Tasks]. intros k i' Hk Hid.
    destruct (decide (id = k)) as [->|Hn].
    + rewrite list_lookup_alter_eq in Hk. destruct (irps !! k); simplify_eq/=. by left.
    + rewrite list_lookup_alter_ne in Hk by done. specialize (Hp eq_refl).
      destruct Hid as [Hid|Hid]; [congruence|]. simpl in Hid.
      apply elem_of_cons in Hid as [Hid|Hid]; [congruence|].
      apply (no_lock_holder k rest) in Hid; [done|]. simpl in Hlk. lia.
  - destruct (irps !! id) as [i|] eqn:Ei; [|done].
    unfold publish_decide, IoSetCancelRoutine in H. specialize (Hp eq_refl).
    assert (list_weight holds_lock rest = 0%nat) as Hr by (destruct lk; simpl in Hlk; lia).
    destruct (irp_Cancel i && irp_CancelRoutine i); simplify_eq; cbn [rc_Wake rc_Irps rc_Tasks];
      intros k i' Hk [Hid|Hid]; simpl in Hid; try congruence.
    + apply elem_of_cons in Hid as [Hid|Hid]; [done|]. by apply (no_lock_holder k rest) in Hid.
    + injection Hid as <-. rewrite list_lookup_insert_eq in Hk by (by eapply lookup_lt_Some).
      simplify_eq. destruct (Hw id i' Ei) as [Hc|Hc]; [right; by left|by left|].
      right. simpl. by apply elem_of_cons in Hc as [Hc|Hc].
    + by apply (no_lock_holder k rest) in Hid.
  - destruct (UacpiNtWakeDisarm _ _ _) as [w1 s1] eqn:E. apply disarm_irp in E. simplify_eq.
    eapply watched_keep; [| | | |exact Hw]; keep.
  - destruct (irps !! id) as [i|] eqn:Ei; [|done]. unfold IoSetCancelRoutine in H. simplify_eq.
    eapply watched_keep; [| | | |exact Hw];
      [by left| |intros ?; destruct (irp_CancelRoutine i); no_elem|intros ?; no_elem].
    intros k i' Hk. cbn [rc_Irps] in Hk. destruct (decide (id = k)) as [->|Hn].
    + exists i. split; [done|]. intros ->. right. by left.
    + rewrite list_lookup_insert_ne in Hk by done. exists i'. auto.
  - destruct lk; [done|]. destruct (cancel_takes id w) as [b w1] eqn:E. simplify_eq.
    cbn [rc_Wake rc_Irps rc_Tasks]. unfold cancel_takes in E. intros k i' Hk Hid.
    assert (InArmLocked k ∉ rest) as Hr by (apply no_lock_holder; simpl in Hlk; lia).
    assert (InArmLocked k ∈ (if b then [InCancelOwned id] else []) ++ rest -> False) as Hr'.
    { intros H. apply elem_of_app in H as [H|H]; [revert H; destruct b; no_elem|done]. }
    destruct Hid as [Hid|Hid]; [|done].
    destruct (wk_WaitWakeIrp w) as [id'|] eqn:Ew; [destruct (id' =? id)%nat eqn:Ei|]; nat_prop; simplify_eq/=.
    destruct (Hw _ i' Hk) as [Hc|Hc]; [left; congruence|by left|]. right.
    apply elem_of_cons in Hc as [Hc|Hc]; [congruence|done].
  - simplify_eq. eapply watched_keep; [| | | |exact Hw]; destruct (wk_DisarmQueued w); keep.
  - simplify_eq. eapply watched_keep; [| | | |exact Hw]; keep.
  - destruct lk; [done|]. destruct (worker_takes w) as [b w1] eqn:E. apply worker_takes_irp in E.
    simplify_eq. eapply watched_keep; [| | | |exact Hw]; destruct b; keep.
  - destruct (UacpiNtWakeReleaseHardware _ _ _) as [w1 s1] eqn:E. apply release_irp in E.
    simplify_eq. eapply watched_keep; [| | | |exact Hw]; keep.
  - destruct lk; [done|]. destruct (UacpiNtWakeClaimIrp w irps) as [[o w1] irps1] eqn:E. simplify_eq.
    eapply (watched_claim _ _ _ _ _ _ _ _ E); [simpl in Hlk; lia| | |exact Hw]; intros ?;
      [destruct o|]; no_elem.
  - destruct (UacpiNtWakeDisarm _ _ _) as [w1 s1] eqn:E. apply disarm_irp in E. simplify_eq.
    eapply watched_keep; [| | | |exact Hw]; keep.
  - destruct lk; [done|]. destruct (UacpiNtWakeClaimIrp w irps) as [[o w1] irps1] eqn:E. simplify_eq.
    eapply (watched_claim _ _ _ _ _ _ _ _ E); [simpl in Hlk; lia| | |exact Hw]; intros ?; no_elem.
  - destruct (UacpiNtWakeDisarm _ _ _) as [w1 s1] eqn:E. apply disarm_irp in E. simplify_eq.
    eapply watched_keep; [| | | |exact Hw];
      destruct o; keep.
Qed.

(** A cancelled IRP does not stay in the block: the cancel is on its way. *)
Definition prompt (w : UACPINT_WAKE) (irps : list irp) (ts : list task) : Prop :=
  forall id i, irps !! id = Some i -> wk_WaitWakeIrp w = Some id -> irp_Cancel i = true ->
  InIoCancel id ∈ ts \/ InCancel id ∈ ts.

Lemma map_insert_same {B} (f : irp -> B) id i i' irps :
  irps !! id = Some i -> f i' = f i -> map f (<[id := i']> irps) = map f irps.
Proof.
  revert id. induction irps as [|j irps IH]; intros [|id] Hi Hf; simplify_eq/=; [by rewrite Hf|].
  f_equal. by apply IH.
Qed.

Lemma map_alter_keep {B} (f : irp -> B) g id irps :
  (forall i, f (g i) = f i) -> map f (alter g id irps) = map f irps.
Proof.
  intros Hg. revert id. induction irps as [|j irps IH]; intros [|id]; simpl; [done..|by rewrite Hg|].
  f_equal. apply IH.
Qed.

Lemma claim_flags w irps o w' irps' :
  UacpiNtWakeClaimIrp w irps = (o, w', irps') -> map irp_Cancel irps' = map irp_Cancel irps.
Proof.
  unfold UacpiNtWakeClaimIrp, IoSetCancelRoutine. intros H.
  destruct (wk_WaitWakeIrp w) as [id|]; [destruct (irps !! id) as [i|] eqn:Ei|]; simplify_eq/=; [|done..].
  destruct (irp_CancelRoutine i); simplify_eq; by eapply map_insert_same.
Qed.

(** Only the I/O manager sets the Cancel flag. *)
Lemma turn_flags t y y' : wake_turn t y = Some y' -> map irp_Cancel (rc_Irps y') = map irp_Cancel (rc_Irps y).
Proof.
  intros H. destruct y as [w irps s lk ts].
  destruct t as [id|id|id|id|id|id|id|id| | | | |id| |o];
    unfold wake_turn in H; cbv beta iota zeta in H; cbn [rc_Wake rc_Irps rc_Power rc_Locked rc_Tasks] in *.
  - destruct lk; [done|]. destruct (irps !! id) as [i|]; [|done].
    destruct (arm_check _ _ _) as [[[st|] w1] s1]; simplify_eq; [by apply map_alter_keep|done].
  - destruct (arm_hardware _ _ _) as [[[st|] w1] s1]; simplify_eq; [by apply map_alter_keep|done].
  - destruct lk; [done|]. simplify_eq. by apply map_alter_keep.
  - destruct (irps !! id) as [i|] eqn:Ei; [|done]. unfold publish_decide, IoSetCancelRoutine in H.
    destruct (_ && _); simplify_eq; by eapply map_insert_same.
  - destruct (UacpiNtWakeDisarm _ _ _) as [w1 s1]. simplify_eq. by apply map_alter_keep.
  - destruct (irps !! id) as [i|] eqn:Ei; [|done]. unfold IoSetCancelRoutine in H. simplify_eq.
    by eapply map_insert_same.
  - destruct lk; [done|]. destruct (cancel_takes id w) as [b w1]. by simplify_eq.
  - simplify_eq. by apply map_alter_keep.
  - by simplify_eq.
  - destruct lk; [done|]. destruct (worker_takes w) as [b w1]. by simplify_eq.
  - destruct (UacpiNtWakeReleaseHardware _ _ _) as [w1 s1]. by simplify_eq.
  - destruct lk; [done|]. destruct (UacpiNtWakeClaimIrp w irps) as [[o w1] irps1] eqn:E. simplify_eq.
    by apply claim_flags in E.
  - destruct (UacpiNtWakeDisarm _ _ _) as [w1 s1]. simplify_eq. by apply map_alter_keep.
  - destruct lk; [done|]. destruct (UacpiNtWakeClaimIrp w irps) as [[o w1] irps1] eqn:E. simplify_eq.
    by apply claim_flags in E.
  - destruct (UacpiNtWakeDisarm _ _ _) as [w1 s1]. simplify_eq.
    destruct o; [by apply map_alter_keep|done].
Qed.

Lemma turn_cancel_takes id y y' :
  wake_turn (InCancel id) y = Some y' -> wk_WaitWakeIrp (rc_Wake y') <> Some id.
Proof.
  unfold wake_turn, cancel_takes. intros H. destruct (rc_Locked y); [done|].
  destruct (wk_WaitWakeIrp (rc_Wake y)) as [k|] eqn:E; [destruct (k =? id)%nat eqn:Ek|]; nat_prop;
    simplify_eq; cbn; congruence.
Qed.

Lemma turn_io_cancel id i y y' :
  wake_turn (InIoCancel id) y = Some y' -> rc_Irps y !! id = Some i ->
  irp_CancelRoutine i = true -> InCancel id ∈ rc_Tasks y'.
Proof. unfold wake_turn. intros H Hi Hr. rewrite Hi in H. simpl in H. rewrite Hr in H. simplify_eq. by left. Qed.

Lemma turn_publish id i y y' :
  wake_turn (InArmLocked id) y = Some y' -> rc_Irps y !! id = Some i -> irp_Cancel i = true ->
  irp_CancelRoutine i = true -> wk_WaitWakeIrp (rc_Wake y') = wk_WaitWakeIrp (rc_Wake y).
Proof.
  unfold wake_turn, publish_decide. intros H Hi Hc Hr. rewrite Hi in H. simpl in H. rewrite Hc, Hr in H.
  simpl in H. by simplify_eq.
Qed.

Lemma turn_prompt t rest y y' :
  wake_turn t (rc_set_Tasks rest y) = Some y' -> prompt (rc_Wake y) (rc_Irps y) (t :: rest) ->
  watched (rc_Wake y) (rc_Irps y) (t :: rest) -> (holds_lock t <= lock_bit y)%nat ->
  (past_check t = true -> wk_WaitWakeIrp (rc_Wake y) = None) ->
  prompt (rc_Wake y') (rc_Irps y') (rc_Tasks y').
Proof.
  intros H Hp Hw Hlk Hpc k i' Hi' Hwait Hcancel.
  destruct (turn_threads t _ y' H) as (new & Hnew & _ & _ & _ & Ha & _); [done|].
  pose proof (turn_flags t _ y' H) as Hf. cbn [rc_set_Tasks rc_Irps rc_Tasks rc_Wake] in *.
  assert (exists i, rc_Irps y !! k = Some i /\ irp_Cancel i = true) as (i & Hi & Hic).
  { assert (map irp_Cancel (rc_Irps y') !! k = Some true) as Hk
      by (rewrite lookup_map_option, Hi'; simpl; by rewrite Hcancel).
    rewrite Hf, lookup_map_option in Hk. destruct (rc_Irps y !! k) as [i|]; simplify_eq/=. by exists i. }
  rewrite Hnew, !elem_of_app.
  assert (InCancel k ∈ t :: rest -> InCancel k ∈ rest) as Hrest.
  { intros Hin. apply elem_of_cons in Hin as [<-|?]; [|done]. exfalso. by eapply turn_cancel_takes. }
  destruct (past_check t) eqn:Et.
  - (* the thread that publishes, or one that has not come to it *)
    specialize (Hpc eq_refl).
    destruct Ha as [Hs|[Hn|[id ->]]]; [congruence|congruence|].
    destruct (decide (id = k)) as [->|Hne].
    + right. right. apply Hrest.
      destruct (Hw k i Hi) as [Hr|?]; [right; by left| |done].
      rewrite (turn_publish k i _ y' H Hi Hic Hr) in Hwait. cbn in Hwait. congruence.
    + exfalso. unfold wake_turn, publish_decide in H. cbn in H.
      destruct (rc_Irps y !! id) as [j|]; [|done].
      destruct (irp_Cancel j && irp_CancelRoutine j); simplify_eq; cbn in Hwait; congruence.
  - destruct Ha as [Hs|[Hn|[id ->]]]; [|congruence|done]. rewrite Hs in Hwait.
    destruct (Hp k i Hi Hwait Hic) as [Hin|Hin]; [|right; right; by apply Hrest].
    apply elem_of_cons in Hin as [<-|Hin]; [|left; by right].
    destruct (Hw k i Hi) as [Hr|Hin]; [by left| |right; right; by apply Hrest].
    right. rewrite <- elem_of_app, <- Hnew. by eapply turn_io_cancel.
Qed.

Record race_live (y : race) : Prop := {
  rl_answers id : answers id y = expected id y;
  rl_arms : (list_weight in_arm (rc_Tasks y) <= 1)%nat;
  rl_clear t : t ∈ rc_Tasks y -> past_check t = true -> wk_WaitWakeIrp (rc_Wake y) = None;
  rl_lock : list_weight holds_lock (rc_Tasks y) = lock_bit y;
  rl_ids id : InIoCancel id ∈ rc_Tasks y -> (id < length (rc_Irps y))%nat;
  rl_watched : watched (rc_Wake y) (rc_Irps y) (rc_Tasks y);
  rl_prompt : prompt (rc_Wake y) (rc_Irps y) (rc_Tasks y)
}.

Lemma past_check_arm t : past_check t = true -> in_arm t = 1%nat.
Proof. by destruct t. Qed.

Lemma race_live_once y : race_live y -> answered_once y.
Proof. intros Hy id. pose proof (rl_answers _ Hy id). lia. Qed.

Lemma turn_live t rest y y' :
  race_live y -> rc_Tasks y ≡ₚ t :: rest -> wake_turn t (rc_set_Tasks rest y) = Some y' -> race_live y'.
Proof.
  intros Hy Hp H.
  assert (t ∈ rc_Tasks y) as Ht by (rewrite Hp; by left).
  pose proof (rl_lock _ Hy) as Hlk. rewrite (weight_perm _ _ _ Hp), weight_cons in Hlk.
  pose proof (rl_arms _ Hy) as Harm. rewrite (weight_perm _ _ _ Hp), weight_cons in Harm.
  assert (watched (rc_Wake y) (rc_Irps y) (t :: rest)) as Hw.
  { intros id i Hi Hid. rewrite <- Hp in *. by apply (rl_watched _ Hy). }
  destruct (turn_answered t rest y y' (race_live_once y Hy) Hp H) as [Hl Ha].
  pose proof (turn_watched t rest y y' H Hw) as Hw'.
  assert (prompt (rc_Wake y) (rc_Irps y) (t :: rest)) as Hpr.
  { intros id i Hi Hid Hc. rewrite <- Hp. by apply (rl_prompt _ Hy id i). }
  pose proof (turn_prompt t rest y y' H Hpr Hw) as Hpr'.
  destruct (turn_threads t _ y' H) as (new & Hnew & _ & Hna & Hnl & Hwait & Hclear & Hio);
    [unfold lock_bit in *; cbn; lia|]. cbn [rc_set_Tasks rc_Tasks rc_Wake lock_bit rc_Locked] in *.
  split.
  - intros id. destruct (Ha id) as (lost & E & Hlost). rewrite Hlost in E.
    + pose proof (rl_answers _ Hy id) as Hi. unfold expected in *. rewrite Hl. lia.
    + intros k ->. by apply (rl_clear _ Hy (InArmLocked k)).
  - rewrite Hnew, weight_app. lia.
  - intros t' Ht' Hpc. rewrite Hnew in Ht'. apply elem_of_app in Ht' as [Ht'|Ht'].
    + rewrite Forall_forall in Hclear. destruct (Hclear t' Ht' Hpc) as [[Hpt ->]|Hn]; [|done].
      by apply (rl_clear _ Hy t).
    + assert (wk_WaitWakeIrp (rc_Wake y) = None) as Hn.
      { apply (rl_clear _ Hy t'); [|done]. rewrite Hp. by right. }
      destruct Hwait as [->|[Hn'|[k ->]]]; [done|done|exfalso].
      apply list_elem_of_lookup in Ht' as [j Hj].
      pose proof (list_weight_lookup in_arm _ _ _ Hj) as Hj'. rewrite (past_check_arm _ Hpc) in Hj'.
      simpl in Harm. lia.
  - rewrite Hnew, weight_app. unfold lock_bit in *. cbn in *. lia.
  - intros id Hid. rewrite Hl. rewrite Hnew in Hid. apply elem_of_app in Hid as [Hid|Hid].
    + rewrite Forall_forall in Hio. by destruct (Hio _ Hid id).
    + apply (rl_ids _ Hy). rewrite Hp. by right.
  - apply Hw'; [by rewrite weight_cons|]. intros Hpc. by apply (rl_clear _ Hy t).
  - apply Hpr'; [unfold lock_bit in *; lia|]. intros Hpc. by apply (rl_clear _ Hy t).
Qed.

Lemma watched_more w irps t ts : holds_lock t = 0%nat -> watched w irps ts -> watched w irps (t :: ts).
Proof.
  intros Hl H id i Hi Hid. rewrite elem_of_cons. destruct (H id i Hi) as [?|?]; [|by left|auto].
  destruct Hid as [?|Hid]; [by left|]. apply elem_of_cons in Hid as [<-|?]; [done|by right].
Qed.

(** A step of the environment that adds a thread. *)
Lemma new_thread_live t irps y :
  race_live y ->
  (forall k, answers k (mkRace (rc_Wake y) irps (rc_Power y) (rc_Locked y) (t :: rc_Tasks y)) =
             expected k (mkRace (rc_Wake y) irps (rc_Power y) (rc_Locked y) (t :: rc_Tasks y))) ->
  (in_arm t + list_weight in_arm (rc_Tasks y) <= 1)%nat -> past_check t = false -> holds_lock t = 0%nat ->
  (length (rc_Irps y) <= length irps)%nat ->
  (forall id, t = InIoCancel id -> (id < length irps)%nat) ->
  watched (rc_Wake y) irps (rc_Tasks y) -> prompt (rc_Wake y) irps (t :: rc_Tasks y) ->
  race_live (mkRace (rc_Wake y) irps (rc_Power y) (rc_Locked y) (t :: rc_Tasks y)).
Proof.
  intros Hy Ha Harm Hpc Hlk Hl Hid Hw Hpr. split; cbn [rc_Wake rc_Irps rc_Tasks].
  - done.
  - by rewrite weight_cons.
  - intros t' Ht' Hp. apply elem_of_cons in Ht' as [->|Ht']; [congruence|]. by apply (rl_clear _ Hy t').
  - rewrite weight_cons, Hlk. apply (rl_lock _ Hy).
  - intros id Hi. apply elem_of_cons in Hi as [<-|Hi]; [by apply Hid|]. pose proof (rl_ids _ Hy id Hi). lia.
  - by apply watched_more.
  - done.
Qed.

Lemma prompt_more w irps t ts : prompt w irps ts -> prompt w irps (t :: ts).
Proof. intros H id i Hi Hw Hc. rewrite !elem_of_cons. destruct (H id i Hi Hw Hc); auto. Qed.

Lemma race_step_live y y' : race_live y -> race_step true y y' -> race_live y'.
Proof.
  intros Hy Hs. destruct Hs as [t rest y y' Hp H|ps y Hser|id i y Hi|y|y].
  - by eapply turn_live.
  - apply new_thread_live; try done.
    + intros k. destruct (new_wait_answers ps y k) as (d & -> & ->). by rewrite (rl_answers _ Hy).
    + simpl. rewrite Hser by done. lia.
    + rewrite length_app. lia.
    + intros id i Hi Hid. destruct (decide (id < length (rc_Irps y))%nat) as [Hlt|Hge].
      * rewrite lookup_app_l in Hi by done. by apply (rl_watched _ Hy id i).
      * exfalso. pose proof (rl_answers _ Hy id) as Ha. unfold expected, answers in Ha.
        replace (id <? length (rc_Irps y))%nat with false in Ha by (symmetry; apply Nat.ltb_ge; lia).
        destruct Hid as [Hid|Hid]; [unfold waits in Ha; rewrite decide_True in Ha by done; lia|].
        apply list_elem_of_lookup in Hid as [j Hj].
        pose proof (list_weight_lookup (owns id) _ _ _ Hj) as Hwt. unfold owns at 1 in Hwt.
        rewrite decide_True in Hwt by done. lia.
    + apply prompt_more. intros id i Hi Hid Hc. destruct (decide (id < length (rc_Irps y))%nat).
      * rewrite lookup_app_l in Hi by done. by apply (rl_prompt _ Hy id i).
      * rewrite lookup_app_r in Hi by lia.
        destruct (id - length (rc_Irps y))%nat; simpl in Hi; simplify_eq/=.
  - apply new_thread_live; try done.
    + intros k. rewrite answers_new, owns_owner by done. pose proof (rl_answers _ Hy k) as Ha.
      unfold expected, answers in *. cbn [rc_Irps]. rewrite length_insert.
      erewrite completions_insert by done. lia.
    + apply (rl_arms _ Hy).
    + by rewrite length_insert.
    + intros k [= <-]. rewrite length_insert. by eapply lookup_lt_Some.
    + intros k i' Hk Hid. destruct (decide (id = k)) as [->|Hn].
      * rewrite list_lookup_insert_eq in Hk by (by eapply lookup_lt_Some). simplify_eq/=.
        by apply (rl_watched _ Hy k i).
      * rewrite list_lookup_insert_ne in Hk by done. by apply (rl_watched _ Hy k i').
    + intros k i' Hk Hid Hc. destruct (decide (id = k)) as [->|Hn]; [left; by left|].
      rewrite list_lookup_insert_ne in Hk by done.
      apply (prompt_more _ _ (InIoCancel id) _ (rl_prompt _ Hy) k i' Hk Hid Hc).
  - apply (new_thread_live InNotify (rc_Irps y)); try done;
      [|apply (rl_arms _ Hy)|apply (rl_watched _ Hy)|apply prompt_more, (rl_prompt _ Hy)].
    intros k. rewrite (answers_new InNotify (rc_Irps y) y), owns_owner by done.
    pose proof (rl_answers _ Hy k) as Ha. unfold expected, answers in *. cbn [rc_Irps]. lia.
  - apply (new_thread_live InTeardown (rc_Irps y)); try done;
      [|apply (rl_arms _ Hy)|apply (rl_watched _ Hy)|apply prompt_more, (rl_prompt _ Hy)].
    intros k. rewrite (answers_new InTeardown (rc_Irps y) y), owns_owner by done.
    pose proof (rl_answers _ Hy k) as Ha. unfold expected, answers in *. cbn [rc_Irps]. lia.
Qed.

Lemma race_run_live w s y :
  wk_WaitWakeIrp w = None -> rtc (race_step true) (race_start w s) y -> race_live y.
Proof.
  intros Hw Hrun. assert (race_live (race_start w s)) as H0.
  { split; cbn; try done.
    - intros id. unfold answers, waits, completions, expected. cbn. by rewrite Hw.
    - lia. - intros id H. by apply not_elem_of_nil in H. }
  remember (race_start w s) as y0 eqn:E. clear E Hw.
  induction Hrun as [y|y y1 y2 Hs _ IH]; [done|]. apply IH. by eapply race_step_live.
Qed.

Lemma weight_positive {B} (f : B -> nat) l : (0 < list_weight f l)%nat -> exists x, x ∈ l /\ (0 < f x)%nat.
Proof.
  induction l as [|x l IH]; [unfold list_weight; simpl; lia|]. rewrite weight_cons. intros H.
  destruct (decide (0 < f x)%nat); [exists x; split; [by left|done]|].
  destruct IH as (z & Hz & Hf); [lia|]. exists z. split; [by right|done].
Qed.

(** A thread that has no wait for the lock, and the IRP of which is there. *)
Lemma turn_goes t y :
  (rc_Locked y = true -> exists id, t = InArmLocked id) ->
  (forall id, owner t = Some id \/ t = InIoCancel id -> (id < length (rc_Irps y))%nat) ->
  exists y', wake_turn t y = Some y'.
Proof.
  intros Hlk Hid. destruct y as [w irps s lk ts]. cbn [rc_Irps rc_Locked] in *.
  destruct lk.
  { destruct (Hlk eq_refl) as [id ->].
    destruct (lookup_lt_is_Some_2 irps id) as [i Hi]; [apply Hid; by left|].
    unfold wake_turn. cbn [rc_Irps rc_Wake]. rewrite Hi. destruct (publish_decide _ _ _) as [[? ?] ?]. by eexists. }
  clear Hlk. assert (forall id, owner t = Some id \/ t = InIoCancel id -> exists i, irps !! id = Some i) as Hi.
  { intros id Ho. by apply lookup_lt_is_Some_2, Hid. }
  destruct t as [id|id|id|id|id|id|id|id| | | | |id| |o]; unfold wake_turn; cbn [rc_Irps rc_Wake rc_Power rc_Locked rc_Tasks].
  - destruct (Hi id) as [i ->]; [by left|]. destruct (arm_check _ _ _) as [[[|] ?] ?]; by eexists.
  - destruct (arm_hardware _ _ _) as [[[|] ?] ?]; by eexists.
  - by eexists.
  - destruct (Hi id) as [i ->]; [by left|]. destruct (publish_decide _ _ _) as [[? ?] ?]; by eexists.
  - destruct (UacpiNtWakeDisarm _ _ _) as [? ?]; by eexists.
  - destruct (Hi id) as [i ->]; [by right|]. by eexists.
  - destruct (cancel_takes _ _) as [? ?]; by eexists.
  - by eexists.
  - by eexists.
  - destruct (worker_takes _) as [? ?]; by eexists.
  - destruct (UacpiNtWakeReleaseHardware _ _ _) as [? ?]; by eexists.
  - destruct (UacpiNtWakeClaimIrp _ _) as [[? ?] ?]; by eexists.
  - destruct (UacpiNtWakeDisarm _ _ _) as [? ?]; by eexists.
  - destruct (UacpiNtWakeClaimIrp _ _) as [[? ?] ?]; by eexists.
  - destruct (UacpiNtWakeDisarm _ _ _) as [? ?]; by eexists.
Qed.

Lemma race_progress y : race_live y -> rc_Tasks y <> [] ->
  exists t rest y', rc_Tasks y ≡ₚ t :: rest /\ wake_turn t (rc_set_Tasks rest y) = Some y'.
Proof.
  intros Hy Hn.
  assert (exists t, t ∈ rc_Tasks y /\ (rc_Locked y = true -> exists id, t = InArmLocked id)) as (t & Ht & Hlk).
  { destruct (rc_Locked y) eqn:E.
    - destruct (weight_positive holds_lock (rc_Tasks y)) as (t & Ht & Hh).
      { rewrite (rl_lock _ Hy). unfold lock_bit. rewrite E. lia. }
      exists t. split; [done|]. intros _. destruct t; simpl in Hh; try lia. by eexists.
    - destruct (rc_Tasks y) as [|t l]; [done|]. exists t. split; [by left|done]. }
  apply elem_of_Permutation in Ht as Hp. destruct Hp as [rest Hp].
  destruct (turn_goes t (rc_set_Tasks rest y)) as [y' H]; [done| |by exists t, rest, y'].
  intros id [Ho| ->]; [|by apply (rl_ids _ Hy)].
  by apply (owner_valid y t); [apply race_live_once| |].
Qed.

(** C12.  When a WAIT_WAKE comes only after the call for the one before is back:
    as long as a thread is left some thread can go on, each turn uses up work, and
    when no thread is left every IRP either has been completed, once, or is the
    one the block waits with, not completed, not cancelled and with its cancel
    routine set. *)
Theorem wait_wake_always_answered w s y :
  wk_WaitWakeIrp w = None -> rtc (race_step true) (race_start w s) y ->
  (rc_Tasks y <> [] ->
     exists t rest y', rc_Tasks y ≡ₚ t :: rest /\ wake_turn t (rc_set_Tasks rest y) = Some y') /\
  (forall t rest y', rc_Tasks y ≡ₚ t :: rest -> wake_turn t (rc_set_Tasks rest y) = Some y' ->
     (list_weight work (rc_Tasks y') < list_weight work (rc_Tasks y))%nat) /\
  (rc_Tasks y = [] -> forall id i, rc_Irps y !! id = Some i ->
     (exists st, irp_Completions i = [st] /\ wk_WaitWakeIrp (rc_Wake y) <> Some id) \/
     (irp_Completions i = [] /\ wk_WaitWakeIrp (rc_Wake y) = Some id /\ irp_CancelRoutine i = true /\
      irp_Cancel i = false)).
Proof.
  intros Hw Hrun. pose proof (race_run_live w s y Hw Hrun) as Hy. split_and!.
  - by apply race_progress.
  - intros t rest y' Hp H. pose proof (rl_lock _ Hy) as Hlk.
    rewrite (weight_perm _ _ _ Hp), weight_cons in Hlk.
    destruct (turn_threads t _ y' H) as (new & Hnew & Hwork & _); [unfold lock_bit in *; cbn; lia|].
    cbn in Hnew. rewrite Hnew, weight_app, (weight_perm _ _ _ Hp), weight_cons. lia.
  - intros Ht id i Hi. pose proof (rl_answers _ Hy id) as Ha. unfold answers, expected, completions in Ha.
    rewrite Ht, Hi in Ha. unfold list_weight in Ha. simpl in Ha.
    replace (id <? length (rc_Irps y))%nat with true in Ha
      by (symmetry; apply Nat.ltb_lt; by eapply lookup_lt_Some).
    unfold waits in Ha. destruct (decide (wk_WaitWakeIrp (rc_Wake y) = Some id)) as [Hwait|Hwait].
    + right. pose proof (rl_prompt _ Hy id i Hi Hwait) as Hpr.
      split_and!; [apply nil_length_inv; lia|done| |].
      * destruct (rl_watched _ Hy id i Hi) as [?|Hc]; [by left|done|].
        rewrite Ht in Hc. by apply not_elem_of_nil in Hc.
      * destruct (irp_Cancel i); [|done]. rewrite Ht in Hpr.
        destruct (Hpr eq_refl) as [Hc|Hc]; by apply not_elem_of_nil in Hc.
    + left. destruct (irp_Completions i) as [|st [|]]; simpl in Ha; [lia| |lia]. by exists st.
Qed.
End Race.

(** ** Witnesses and what modelling showed *)

(** The thread at position [n] takes a turn. *)
Fixpoint take_turns {A : Acpi} (l : list nat) (y : race) : option race :=
  match l with
  | [] => Some y
  | n :: l =>
      match rc_Tasks y !! n with
      | None => None
      | Some t => wake_turn true t (rc_set_Tasks (delete n (rc_Tasks y)) y) ≫= take_turns l
      end
  end.

Lemma take_turns_run {A : Acpi} serial l y y' : take_turns l y = Some y' -> rtc (race_step true serial) y y'.
Proof.
  revert y. induction l as [|n l IH]; intros y H; simpl in H; [simplify_eq; apply rtc_refl|].
  destruct (rc_Tasks y !! n) as [t|] eqn:E; [|done].
  apply bind_Some in H as (y1 & H1 & H2). eapply rtc_l; [|by apply IH].
  eapply race_turn; [|done]. by apply delete_Permutation.
Qed.

(** A WAIT_WAKE that is armed, cancelled, and disarmed by the worker. *)
Definition race_waiting : race := mkRace wake_block [wake_irp] wake_power false [InArmCheck 0].
Definition race_armed : option race := Eval vm_compute in take_turns (A := wake_acpi) [0; 0; 0; 0]%nat race_waiting.

Lemma race_armed_run : exists y, race_armed = Some y /\
  rtc (race_step (A := wake_acpi) true true) (race_start wake_block wake_power) y.
Proof.
  destruct race_armed as [y|] eqn:E; [|done]. exists y. split; [done|].
  eapply rtc_l; [apply (race_wait_wake true true PowerSystemSleeping3); by intros|].
  apply (take_turns_run true [0; 0; 0; 0]%nat). rewrite <- E. by vm_compute.
Qed.

Lemma wait_wake_completed_at_most_once_witness :
  exists y i, rtc (race_step (A := wake_acpi) true false) (race_start wake_block wake_power) y /\
  rc_Irps y !! 0%nat = Some i /\ wk_WaitWakeIrp (rc_Wake y) = Some 0%nat /\ irp_Completions i = [].
Proof.
  assert (rtc (race_step (A := wake_acpi) true false) (race_start wake_block wake_power)
            (default race_waiting race_armed)) as Hr.
  { eapply rtc_l; [apply (race_wait_wake true false PowerSystemSleeping3); by intros|].
    apply (take_turns_run false [0; 0; 0; 0]%nat). by vm_compute. }
  eexists _, _. split; [exact Hr|]. split; [reflexivity|]. split; [reflexivity|].
  apply (wait_wake_completed_at_most_once (A := wake_acpi) true false wake_block wake_power _ eq_refl Hr 0%nat
           _ eq_refl). reflexivity.
Defined.

Lemma wait_wake_always_answered_witness :
  exists y i, rtc (race_step (A := wake_acpi) true true) (race_start wake_block wake_power) y /\
  rc_Tasks y = [] /\ rc_Irps y !! 0%nat = Some i /\ irp_Completions i = [STATUS_CANCELLED].
Proof.
  pose (y1 := mkRace wake_block [mkIrp PowerSystemSleeping3 false false []] wake_power false [InArmCheck 0]).
  pose (y2 := default y1 (take_turns (A := wake_acpi) [0; 0; 0; 0]%nat y1)).
  pose (i2 := default wake_irp (rc_Irps y2 !! 0%nat)).
  pose (y3 := mkRace (rc_Wake y2) (<[0%nat := mkIrp (irp_PowerState i2) true (irp_CancelRoutine i2)
                (irp_Completions i2)]> (rc_Irps y2)) (rc_Power y2) (rc_Locked y2) [InIoCancel 0]).
  pose (y4 := default y1 (take_turns (A := wake_acpi) [0; 0; 0; 0; 0; 0]%nat y3)).
  assert (rtc (race_step (A := wake_acpi) true true) (race_start wake_block wake_power) y4) as Hr.
  { eapply rtc_l; [apply (race_wait_wake true true PowerSystemSleeping3); by intros|].
    etrans; [apply (take_turns_run true [0; 0; 0; 0]%nat _ y2); by vm_compute|].
    eapply rtc_l; [apply (race_io_cancel true true 0 i2); by vm_compute|].
    apply (take_turns_run true [0; 0; 0; 0; 0; 0]%nat _ y4). by vm_compute. }
  destruct (wait_wake_always_answered (A := wake_acpi) true wake_block wake_power y4 eq_refl Hr) as (_ & _ & Hq).
  exists y4. eexists. split; [exact Hr|]. split; [by vm_compute|]. split; [by vm_compute|].
  destruct (Hq ltac:(by vm_compute) 0%nat _ ltac:(by vm_compute)) as [(st & Hst & _)|(H & _)]; by vm_compute.
Defined.

(** Two WAIT_WAKEs at once both find the block free; the second one to be
    recorded overwrites the first, which nobody completes, also when it is
    cancelled. *)
Definition race_two : race := mkRace wake_block [wake_irp; wake_irp] wake_power false [InArmCheck 0; InArmCheck 1].

Lemma two_waits_lose_one :
  exists y, take_turns (A := wake_acpi) [0; 1; 1; 0; 0; 0; 0; 0]%nat race_two = Some y /\
  rc_Tasks y = [] /\ wk_WaitWakeIrp (rc_Wake y) = Some 1%nat /\
  option_map irp_Completions (rc_Irps y !! 0%nat) = Some [] /\
  exists y', take_turns (A := wake_acpi) [0; 0]%nat (rc_set_Tasks [InIoCancel 0] y) = Some y' /\
  rc_Tasks y' = [] /\ option_map irp_Completions (rc_Irps y' !! 0%nat) = Some [].
Proof.
  eexists. split; [by vm_compute|]. split; [done|]. split; [done|]. split; [done|].
  eexists. split; [by vm_compute|]. done.
Qed.
