(* ===== verification/EvalWire.v ===== *)
(** sys/ioctl.c, first half: method arguments on the wire.

    An argument of a control call is a type, a length and data; a package holds
    arguments back to back.  The walk over the caller's bytes is in terms of
    offsets into the system buffer, and a read outside it is [Fault]. *)
From stdpp Require Import base list numbers option strings.
From Stdlib Require Import ZArith Lia Ascii.
From S2P Require Import Prelude NtEnv AcpiEnv Bytes.

Definition STATUS_ACPI_INVALID_DATA : NTSTATUS := 0xC014000F.
Definition UACPINT_EVAL_MAX_DEPTH : Z := 8.
Definition MAXUSHORT : Z := 65535.

(** ** acpiioct.h

    The header of the Windows kit is not in the tree.  Its structures have their
    documented layout: ACPI_METHOD_ARGUMENT is two USHORTs, Type and DataLength,
    and the data, which overlay a ULONG.  The codes are parameters. *)
Class AcpiIoct := {
  ACPI_METHOD_ARGUMENT_INTEGER : Z;
  ACPI_METHOD_ARGUMENT_STRING : Z;
  ACPI_METHOD_ARGUMENT_BUFFER : Z;
  ACPI_METHOD_ARGUMENT_PACKAGE : Z;
  (** the bytes an argument takes for a DataLength *)
  ACPI_METHOD_ARGUMENT_LENGTH : Z -> Z
}.

(** The types differ and fit their field, and short data are padded to a ULONG. *)
Class AcpiIoctLaws `{AcpiIoct} := {
  argument_types_differ :
    NoDup [ACPI_METHOD_ARGUMENT_INTEGER; ACPI_METHOD_ARGUMENT_STRING;
           ACPI_METHOD_ARGUMENT_BUFFER; ACPI_METHOD_ARGUMENT_PACKAGE];
  argument_types_fit :
    Forall (fun t => 0 <= t < 65536)
      [ACPI_METHOD_ARGUMENT_INTEGER; ACPI_METHOD_ARGUMENT_STRING;
       ACPI_METHOD_ARGUMENT_BUFFER; ACPI_METHOD_ARGUMENT_PACKAGE];
  argument_length : forall n, 0 <= n -> ACPI_METHOD_ARGUMENT_LENGTH n = 4 + Z.max 4 n
}.

Definition ARGUMENT_DataLength : Z := 2.
Definition ARGUMENT_Data : Z := 4.

(** ** Objects of the interpreter

    A string of the interpreter is stored with its NUL and the view covers both
    (uacpi/source/types.c). *)
Definition bytes_of_text (t : string) : list Z :=
  map (fun a => Z.of_nat (nat_of_ascii a)) (String.list_ascii_of_string t).
Definition text_of_bytes (l : list Z) : string :=
  String.string_of_list_ascii (map (fun b => ascii_of_nat (Z.to_nat b)) l).

Definition uacpi_object_get_string (o : uacpi_object) : option (list Z) :=
  match o with UACPI_OBJECT_STRING _ text => Some (bytes_of_text text ++ [0]) | _ => None end.

(** [ev_Refs] counts the references to objects the driver holds, [ev_Created] the
    objects it asked for; the pool blocks are counted in the world. *)
Record eval_state := mkEval {
  ev_World : world;
  ev_Created : nat;
  ev_Refs : Z;
  ev_Calls : list acpi_call
}.

Definition ev_set_World (w : world) (s : eval_state) : eval_state :=
  mkEval w (ev_Created s) (ev_Refs s) (ev_Calls s).

(** [objects] is NULL with no elements, or holds [count] pointers. *)
Definition uacpi_object_array := option (list (option uacpi_object)).

(** The pointers that are not NULL. *)
Fixpoint held (l : list (option uacpi_object)) : nat :=
  match l with
  | [] => O
  | None :: l => held l
  | Some _ :: l => S (held l)
  end.

Section Wire.
Context {A : Acpi} {I : AcpiIoct}.

(** An object the interpreter may fail to create. *)
Definition uacpi_object_create (o : uacpi_object) (s : eval_state) : option uacpi_object * eval_state :=
  let ok := answer_create (ev_Calls s) (ev_Created s) in
  (if ok then Some o else None,
   mkEval (ev_World s) (S (ev_Created s)) (if ok then ev_Refs s + 1 else ev_Refs s) (ev_Calls s)).

Definition uacpi_object_unref (n : nat) (s : eval_state) : eval_state :=
  mkEval (ev_World s) (ev_Created s) (ev_Refs s - Z.of_nat n) (ev_Calls s).

(** ** Object arrays *)

Definition UacpiNtAllocateObjectArray (Count : Z) (s : eval_state)
  : NTSTATUS * uacpi_object_array * eval_state :=
  let '(Granted, w) := ExAllocatePoolWithTag (Count * 8) (ev_World s) in
  let s := ev_set_World w s in
  if Granted then (STATUS_SUCCESS, Some (replicate (Z.to_nat Count) None), s)
  else (STATUS_INSUFFICIENT_RESOURCES, None, s).

Definition UacpiNtFreeObjectArray (Array : uacpi_object_array) (s : eval_state) : eval_state :=
  match Array with
  | None => s
  | Some l =>
      let s := uacpi_object_unref (held l) s in
      ev_set_World (ExFreePoolWithTag (ev_World s)) s
  end.

(** ** From the wire *)

(** Every argument takes at least a header. *)
Fixpoint count_arguments (fuel : nat) (Buffer : list Z) (Argument Length Count : Z) : run (NTSTATUS * Z) :=
  if Length <? ARGUMENT_Data then Done (STATUS_SUCCESS, Count)
  else
    match fuel with
    | O => Fault
    | S fuel =>
        DataLength ← load_le Buffer 2 (Argument + ARGUMENT_DataLength);
        let ArgumentLength := ACPI_METHOD_ARGUMENT_LENGTH DataLength in
        if Length <? ArgumentLength then Done (STATUS_INVALID_PARAMETER, Count)
        else count_arguments fuel Buffer (Argument + ArgumentLength) (Length - ArgumentLength) (Count + 1)
    end.

Definition UacpiNtCountArguments (Buffer : list Z) (First Length : Z) : run (NTSTATUS * Z) :=
  count_arguments (length Buffer) Buffer First Length 0.

(** The loop over [Count] arguments; [convert] reads one of them. *)
Fixpoint convert_arguments (convert : Z -> Z -> eval_state -> run (NTSTATUS * option uacpi_object * Z * eval_state))
  (Buffer : list Z) (n i : nat) (Argument BytesAvailable : Z) (Objects : list (option uacpi_object))
  (s : eval_state) : run (NTSTATUS * list (option uacpi_object) * eval_state) :=
  match n with
  | O => Done (STATUS_SUCCESS, Objects, s)
  | S n =>
      '(Status, Object, Consumed, s) ← convert Argument BytesAvailable s;
      let Objects := <[i := Object]> Objects in
      if negb (NT_SUCCESS Status) then Done (Status, Objects, s)
      else
        DataLength ← load_le Buffer 2 (Argument + ARGUMENT_DataLength);
        convert_arguments convert Buffer n (S i) (Argument + ACPI_METHOD_ARGUMENT_LENGTH DataLength)
          (u32 (BytesAvailable - Consumed)) Objects s
  end.

Definition arguments_to_objects (convert : Z -> Z -> eval_state -> run (NTSTATUS * option uacpi_object * Z * eval_state))
  (Buffer : list Z) (First Count BytesAvailable : Z) (s : eval_state)
  : run (NTSTATUS * uacpi_object_array * eval_state) :=
  if Count =? 0 then Done (STATUS_SUCCESS, None, s)
  else if BytesAvailable / ACPI_METHOD_ARGUMENT_LENGTH 0 <? Count
  then Done (STATUS_INVALID_PARAMETER, None, s)
  else
    match UacpiNtAllocateObjectArray Count s with
    | (_, Some Objects, s) =>
        '(Status, Objects, s) ← convert_arguments convert Buffer (Z.to_nat Count) 0 First BytesAvailable Objects s;
        if negb (NT_SUCCESS Status) then Done (Status, None, UacpiNtFreeObjectArray (Some Objects) s)
        else Done (STATUS_SUCCESS, Some Objects, s)
    | (Status, None, s) => Done (Status, None, s)
    end.

(** The package made of an array, whose pointers are all there. *)
Definition package_of (Array : uacpi_object_array) : uacpi_object :=
  UACPI_OBJECT_PACKAGE (omap id (default [] Array)).

Definition object_status (o : option uacpi_object) : NTSTATUS :=
  match o with Some _ => STATUS_SUCCESS | None => STATUS_INSUFFICIENT_RESOURCES end.

(** One level of fuel for each level of nesting. *)
Fixpoint UacpiNtArgumentToObject (fuel : nat) (Buffer : list Z) (Argument BytesAvailable Depth : Z)
  (s : eval_state) : run (NTSTATUS * option uacpi_object * Z * eval_state) :=
  match fuel with
  | O => Fault
  | S fuel =>
      if BytesAvailable <? ARGUMENT_Data then Done (STATUS_INVALID_PARAMETER, None, 0, s)
      else
        DataLength ← load_le Buffer 2 (Argument + ARGUMENT_DataLength);
        let ArgumentLength := ACPI_METHOD_ARGUMENT_LENGTH DataLength in
        if BytesAvailable <? ArgumentLength then Done (STATUS_INVALID_PARAMETER, None, 0, s)
        else
          let Data := Argument + ARGUMENT_Data in
          let create o s :=
            let '(Object, s) := uacpi_object_create o s in
            Done (object_status Object, Object, ArgumentLength, s) in
          let refuse Status (s : eval_state) := Done (Status, None, ArgumentLength, s) in
          Type' ← load_le Buffer 2 Argument;
          if Type' =? ACPI_METHOD_ARGUMENT_INTEGER then
            Value ← load_le Buffer 4 Data; create (UACPI_OBJECT_INTEGER Value) s
          else if Type' =? ACPI_METHOD_ARGUMENT_STRING then
            if DataLength =? 0 then refuse STATUS_INVALID_PARAMETER s
            else
              Last ← load Buffer (Data + DataLength - 1);
              if negb (Last =? 0) then refuse STATUS_INVALID_PARAMETER s
              else
                Text ← load_cstring (S (length Buffer)) Buffer Data;
                create (UACPI_OBJECT_STRING false (text_of_bytes Text)) s
          else if Type' =? ACPI_METHOD_ARGUMENT_BUFFER then
            Bytes ← load_bytes Buffer (Z.to_nat DataLength) Data; create (UACPI_OBJECT_BUFFER Bytes) s
          else if Type' =? ACPI_METHOD_ARGUMENT_PACKAGE then
            if UACPINT_EVAL_MAX_DEPTH <=? Depth then refuse STATUS_INVALID_PARAMETER s
            else
              '(Status, NestedCount) ← UacpiNtCountArguments Buffer Data DataLength;
              if negb (NT_SUCCESS Status) then refuse Status s
              else
                '(Status, Nested, s) ←
                  arguments_to_objects (fun a n => UacpiNtArgumentToObject fuel Buffer a n (Depth + 1))
                    Buffer Data NestedCount DataLength s;
                if negb (NT_SUCCESS Status) then refuse Status s
                else
                  let '(Object, s) := uacpi_object_create (package_of Nested) s in
                  Done (object_status Object, Object, ArgumentLength, UacpiNtFreeObjectArray Nested s)
          else refuse STATUS_INVALID_PARAMETER s
  end.

(** The nesting limit and the level that is refused. *)
Definition argument_fuel : nat := 9.

Definition UacpiNtArgumentsToObjects (Buffer : list Z) (First Count BytesAvailable Depth : Z) (s : eval_state)
  : run (NTSTATUS * uacpi_object_array * eval_state) :=
  arguments_to_objects (fun a n => UacpiNtArgumentToObject argument_fuel Buffer a n Depth)
    Buffer First Count BytesAvailable s.

(** ** To the wire *)

(** The sizes of a list of objects, added to [Total] as ULONGs. *)
Definition sum_sizes (size : uacpi_object -> NTSTATUS * Z) : list uacpi_object -> Z -> NTSTATUS * Z :=
  fix sum l Total :=
    match l with
    | [] => (STATUS_SUCCESS, Total)
    | o :: l =>
        let '(Status, ElementSize) := size o in
        if negb (NT_SUCCESS Status) then (Status, Total) else sum l (u32 (Total + ElementSize))
    end.

Fixpoint UacpiNtObjectWireSize (Object : uacpi_object) (Depth : Z) : NTSTATUS * Z :=
  match Object with
  | UACPI_OBJECT_INTEGER _ => (STATUS_SUCCESS, ACPI_METHOD_ARGUMENT_LENGTH 4)
  | UACPI_OBJECT_STRING _ _ =>
      match uacpi_object_get_string Object with
      | None => (STATUS_UNSUCCESSFUL, 0)
      | Some View =>
          let Length := Z.of_nat (length View) in
          if MAXUSHORT <? Length + 1 then (STATUS_ACPI_INVALID_DATA, 0)
          else (STATUS_SUCCESS, ACPI_METHOD_ARGUMENT_LENGTH (u32 Length + 1))
      end
  | UACPI_OBJECT_BUFFER _ =>
      match uacpi_object_get_buffer Object with
      | None => (STATUS_UNSUCCESSFUL, 0)
      | Some View =>
          let Length := Z.of_nat (length View) in
          if MAXUSHORT <? Length then (STATUS_ACPI_INVALID_DATA, 0)
          else (STATUS_SUCCESS, ACPI_METHOD_ARGUMENT_LENGTH (u32 Length))
      end
  | UACPI_OBJECT_PACKAGE l =>
      if UACPINT_EVAL_MAX_DEPTH <=? Depth then (STATUS_INVALID_PARAMETER, 0)
      else
        let '(Status, Total) := sum_sizes (fun o => UacpiNtObjectWireSize o (Depth + 1)) l 0 in
        if negb (NT_SUCCESS Status) then (Status, 0)
        else if MAXUSHORT <? Total then (STATUS_ACPI_INVALID_DATA, 0)
        else (STATUS_SUCCESS, ACPI_METHOD_ARGUMENT_LENGTH Total)
  | _ => (STATUS_ACPI_INVALID_DATA, 0)
  end.

Definition store_header (Type' DataLength Argument : Z) (Buffer : list Z) : run (list Z) :=
  Buffer ← store_bytes Buffer Argument (le_field 2 Type');
  store_bytes Buffer (Argument + ARGUMENT_DataLength) (le_field 2 DataLength).

(** Arguments one after the other; [Total] is a ULONG. *)
Definition write_arguments (write : uacpi_object -> Z -> list Z -> run (NTSTATUS * Z * list Z))
  : list uacpi_object -> Z -> Z -> list Z -> run (NTSTATUS * Z * list Z) :=
  fix go l Nested Total Buffer :=
    match l with
    | [] => Done (STATUS_SUCCESS, Total, Buffer)
    | o :: l =>
        '(Status, ElementSize, Buffer) ← write o Nested Buffer;
        if negb (NT_SUCCESS Status) then Done (Status, Total, Buffer)
        else go l (Nested + ElementSize) (u32 (Total + ElementSize)) Buffer
    end.

(** The status, the bytes taken and the buffer. *)
Fixpoint UacpiNtObjectToArgument (Object : uacpi_object) (Argument : Z) (Buffer : list Z)
  : run (NTSTATUS * Z * list Z) :=
  let Data := Argument + ARGUMENT_Data in
  let written DataLength Buffer := Done (STATUS_SUCCESS, ACPI_METHOD_ARGUMENT_LENGTH DataLength, Buffer) in
  match Object with
  | UACPI_OBJECT_INTEGER Value =>
      Buffer ← store_header ACPI_METHOD_ARGUMENT_INTEGER 4 Argument Buffer;
      Buffer ← store_bytes Buffer Data (le_field 4 (u32 Value));
      written 4 Buffer
  | UACPI_OBJECT_STRING _ _ =>
      match uacpi_object_get_string Object with
      | None => Done (STATUS_UNSUCCESSFUL, 0, Buffer)
      | Some View =>
          let DataLength := u16 (Z.of_nat (length View) + 1) in
          Buffer ← store_header ACPI_METHOD_ARGUMENT_STRING DataLength Argument Buffer;
          Buffer ← store_bytes Buffer Data View;
          Buffer ← store_bytes Buffer (Data + Z.of_nat (length View)) [0];
          written DataLength Buffer
      end
  | UACPI_OBJECT_BUFFER _ =>
      match uacpi_object_get_buffer Object with
      | None => Done (STATUS_UNSUCCESSFUL, 0, Buffer)
      | Some View =>
          let DataLength := u16 (Z.of_nat (length View)) in
          Buffer ← store_header ACPI_METHOD_ARGUMENT_BUFFER DataLength Argument Buffer;
          Buffer ← store_bytes Buffer Data View;
          written DataLength Buffer
      end
  | UACPI_OBJECT_PACKAGE l =>
      '(Status, Total, Buffer) ← write_arguments UacpiNtObjectToArgument l Data 0 Buffer;
      if negb (NT_SUCCESS Status) then Done (Status, 0, Buffer)
      else
        Buffer ← store_header ACPI_METHOD_ARGUMENT_PACKAGE (u16 Total) Argument Buffer;
        written (u16 Total) Buffer
  | _ => Done (STATUS_ACPI_INVALID_DATA, 0, Buffer)
  end.
End Wire.

(** ** The grammar of the wire

    An argument is its header, as many data as the header says, and padding to
    four bytes.  [wire d bs o]: the bytes [bs] stand for the object [o], nested at
    most [d] packages deep. *)
Section Grammar.
Context {I : AcpiIoct}.

Definition wire_bytes (t : Z) (data pad : list Z) : list Z :=
  le_field 2 t ++ le_field 2 (Z.of_nat (length data)) ++ data ++ pad.

Definition wire_shape (data pad : list Z) : Prop :=
  Z.of_nat (length data) < 65536 /\ length pad = (4 - length data)%nat.

Inductive wire : nat -> list Z -> uacpi_object -> Prop :=
| wire_integer d data pad :
    wire_shape data pad ->
    wire d (wire_bytes ACPI_METHOD_ARGUMENT_INTEGER data pad)
      (UACPI_OBJECT_INTEGER (le_bytes (take 4 (data ++ pad))))
| wire_string d data pad :
    wire_shape data pad -> last data = Some 0 ->
    wire d (wire_bytes ACPI_METHOD_ARGUMENT_STRING data pad)
      (UACPI_OBJECT_STRING false (text_of_bytes (until_nul data)))
| wire_buffer d data pad :
    wire_shape data pad ->
    wire d (wire_bytes ACPI_METHOD_ARGUMENT_BUFFER data pad) (UACPI_OBJECT_BUFFER data)
| wire_package d data pad args objs tail :
    wire_shape data pad -> data = concat args ++ tail -> (length tail < 4)%nat ->
    Forall2 (wire d) args objs ->
    wire (S d) (wire_bytes ACPI_METHOD_ARGUMENT_PACKAGE data pad) (UACPI_OBJECT_PACKAGE objs).

(** The header tells where an argument ends. *)
Definition framed (f : list Z) : Prop :=
  exists t data pad, wire_shape data pad /\ f = wire_bytes t data pad.

Lemma wire_framed d bs o : wire d bs o -> framed bs.
Proof. destruct 1; do 3 eexists; by split. Qed.

Lemma length_wire_bytes t data pad :
  wire_shape data pad -> Z.of_nat (length (wire_bytes t data pad)) = 4 + Z.max 4 (Z.of_nat (length data)).
Proof.
  intros [_ H]. unfold wire_bytes. rewrite !length_app, !length_le_field. lia.
Qed.

(** A header whose length fits starts an argument; [X] is what is left. *)
Lemma split_argument X :
  Forall is_byte X -> (4 <= length X)%nat ->
  let n := le_bytes (take 2 (drop 2 X)) in
  0 <= n < 65536 /\
  (4 + Z.max 4 n <= Z.of_nat (length X) -> exists t data pad rest,
    X = wire_bytes t data pad ++ rest /\ wire_shape data pad /\ n = Z.of_nat (length data) /\ 0 <= t < 65536).
Proof.
  intros HX Hl n. do 4 (destruct X as [|? X]; [simpl in Hl; lia|]). simpl in n.
  repeat (apply Forall_cons in HX as [? HX]). unfold is_byte in *. split; [unfold n; lia|].
  intros Hn. exists (le_bytes [z; z0]), (take (Z.to_nat n) X), (take (4 - Z.to_nat n) (drop (Z.to_nat n) X)),
    (drop (4 - Z.to_nat n) (drop (Z.to_nat n) X)).
  assert (length (take (Z.to_nat n) X) = Z.to_nat n) as Hd.
  { rewrite length_take. cbn [length] in Hn. lia. }
  split_and!.
  - unfold wire_bytes. rewrite Hd, Z2Nat.id by (unfold n; lia).
    replace (le_field 2 n) with [z1; z2].
    2:{ unfold n. symmetry. apply (le_field_bytes [z1; z2]). byte_list. }
    replace (le_field 2 (le_bytes [z; z0])) with [z; z0]
      by (symmetry; apply (le_field_bytes [z; z0]); byte_list).
    rewrite <- !app_assoc, take_drop, take_drop. done.
  - unfold wire_shape. rewrite Hd, length_take, length_drop. cbn [length] in Hn. unfold n in *. lia.
  - rewrite Hd. unfold n. lia.
  - simpl. lia.
  - simpl. lia.
Qed.

(** The header read back. *)
Lemma header_length t data pad rest :
  wire_shape data pad -> le_bytes (take 2 (drop 2 (wire_bytes t data pad ++ rest))) = Z.of_nat (length data).
Proof.
  intros [H _]. unfold wire_bytes. rewrite <- !app_assoc.
  rewrite (drop_app_length' _ _ 2), (take_app_length' _ _ 2) by done.
  apply le_bytes_field. simpl. lia.
Qed.

Lemma framed_length f : framed f -> (8 <= length f)%nat.
Proof.
  intros (t & data & pad & Hs & ->). pose proof (length_wire_bytes t data pad Hs). lia.
Qed.

Lemma framed_same f f' r r' :
  framed f -> framed f' -> f ++ r = f' ++ r' -> f = f' /\ r = r'.
Proof.
  intros (t & data & pad & Hs & ->) (t' & data' & pad' & Hs' & ->) E.
  apply app_inj_1; [|done]. apply Nat2Z.inj. rewrite !length_wire_bytes by done.
  rewrite <- (header_length t data pad r), <- (header_length t' data' pad' r') by done. by rewrite E.
Qed.

(** So a run of arguments can be cut in one way only. *)
Lemma framed_unique fs fs' r r' :
  Forall framed fs -> Forall framed fs' -> length fs = length fs' ->
  concat fs ++ r = concat fs' ++ r' -> fs = fs' /\ r = r'.
Proof.
  intros H. revert fs'. induction H as [|f fs Hf Hfs IH]; intros fs' H' Hl E.
  { by destruct fs'. }
  destruct fs' as [|f' fs']; [done|]. apply Forall_cons in H' as [Hf' Hfs']. simpl in *.
  rewrite <- !app_assoc in E. apply framed_same in E as [-> E]; [|done..].
  destruct (IH fs' Hfs' ltac:(lia) E) as [-> ->]. done.
Qed.

Lemma wires_framed d args objs : Forall2 (wire d) args objs -> Forall framed args.
Proof. induction 1; constructor; [by eapply wire_framed|done]. Qed.

Lemma wire_bytes_eq t data pad :
  wire_bytes t data pad = le_field 2 t ++ le_field 2 (Z.of_nat (length data)) ++ data ++ pad.
Proof. done. Qed.
End Grammar.
#[global] Opaque wire_bytes.

(** ** Reading *)
Section Reading.
Context {A : Acpi} {I : AcpiIoct} {L : AcpiIoctLaws}.
Context (Buffer : list Z) (Hbytes : Forall is_byte Buffer).

(** From [s] to [s'] the driver took [k] references to objects and no block. *)
Definition balanced (s s' : eval_state) (k : Z) : Prop :=
  ev_Refs s' = ev_Refs s + k /\ w_live (ev_World s') = w_live (ev_World s) /\
  ev_Calls s' = ev_Calls s /\ w_pool (ev_World s') = w_pool (ev_World s).

(** No object and no block is refused. *)
Definition memory_suffices (s : eval_state) : Prop :=
  (forall h k, answer_create h k = true) /\ forall k size, w_pool (ev_World s) k size = true.

Lemma balanced_suffices s s' k : balanced s s' k -> memory_suffices s -> memory_suffices s'.
Proof. intros (_ & _ & _ & H) [H1 H2]. split; [done|]. by rewrite H. Qed.

Lemma wire_length t data pad :
  wire_shape data pad -> ACPI_METHOD_ARGUMENT_LENGTH (Z.of_nat (length data)) = Z.of_nat (length (wire_bytes t data pad)).
Proof. intros H. rewrite length_wire_bytes by done. apply argument_length. lia. Qed.

Lemma load_length a n :
  within Buffer a n -> 4 <= n ->
  load_le Buffer 2 (a + ARGUMENT_DataLength) = Done (le_bytes (take 2 (drop 2 (view Buffer a n)))).
Proof.
  intros H Hn. pose proof (length_view _ _ _ H) as Hl. set (X := view Buffer a n) in *.
  apply (load_le_view Buffer (take 2 X) _ (drop 2 (drop 2 X)) a n); [done| |by rewrite length_take, length_drop; lia
    |rewrite length_take; unfold ARGUMENT_DataLength; lia].
  by rewrite !take_drop.
Qed.

(** At the start of an argument, its length is read. *)
Lemma load_wire_length a n t data pad rest :
  within Buffer a n -> wire_shape data pad -> view Buffer a n = wire_bytes t data pad ++ rest ->
  load_le Buffer 2 (a + ARGUMENT_DataLength) = Done (Z.of_nat (length data)).
Proof.
  intros H Hs E. pose proof (length_view _ _ _ H) as Hl. rewrite E, length_app in Hl.
  pose proof (length_wire_bytes t data pad Hs). rewrite (load_length a n) by (done || lia).
  by rewrite E, header_length.
Qed.

(** Either an argument starts here, or the code sees that none does. *)
Lemma argument_or_not a n :
  within Buffer a n -> 4 <= n -> exists k, load_le Buffer 2 (a + ARGUMENT_DataLength) = Done k /\
    (n < ACPI_METHOD_ARGUMENT_LENGTH k \/
     exists t data pad rest, view Buffer a n = wire_bytes t data pad ++ rest /\ wire_shape data pad /\
       k = Z.of_nat (length data) /\ 0 <= t < 65536).
Proof.
  intros H Hn. eexists. split; [by apply load_length|]. pose proof (length_view _ _ _ H) as Hl.
  destruct (split_argument (view Buffer a n)) as [Hk Hsplit]; [by apply view_byte|lia|].
  rewrite argument_length by lia. destruct (Z_le_dec (4 + Z.max 4 (le_bytes (take 2 (drop 2 (view Buffer a n))))) n) as [Hle|Hgt];
    [|left; lia].
  right. apply Hsplit. lia.
Qed.

(** *** Counting *)

Lemma count_sound fuel a n c :
  within Buffer a n -> (Z.to_nat n <= fuel)%nat ->
  exists st c', count_arguments fuel Buffer a n c = Done (st, c') /\
    (NT_SUCCESS st = true -> exists fs tail, view Buffer a n = concat fs ++ tail /\ Forall framed fs /\
       (length tail < 4)%nat /\ c' = c + Z.of_nat (length fs)).
Proof.
  revert a n c. induction fuel as [|fuel IH]; intros a n c H Hf; cbn [count_arguments];
    pose proof (length_view _ _ _ H) as Hl; unfold ARGUMENT_Data;
    (destruct (n <? 4) eqn:E4; bool_prop;
     [eexists _, _; split; [done|]; intros _; exists [], (view Buffer a n); split_and!; [done..|lia|simpl; lia]|]).
  { lia. }
  destruct (argument_or_not a n H E4) as (k & -> & [Hk|(t & data & pad & rest & EX & Hs & -> & _)]); simpl.
  { destruct (n <? _) eqn:E; bool_prop; [|lia]. by eexists _, _. }
  rewrite (wire_length t _ pad) by done.
  destruct (view_next _ _ _ _ _ H EX) as [EX' H']. pose proof (length_wire_bytes t data pad Hs) as Hw.
  destruct (n <? _) eqn:E; bool_prop; [by eexists _, _|]. 
  destruct (IH _ _ (c + 1) H') as (st & c' & Ec & Hc); [lia|]. exists st, c'. split; [done|].
  intros Hst. destruct (Hc Hst) as (fs & tail & Ef & Hfs & Ht & ->).
  exists (wire_bytes t data pad :: fs), tail. split_and!; [|constructor; [by do 3 eexists|done]|done|simpl; lia].
  cbn [concat]. rewrite EX, <- app_assoc. f_equal. by rewrite <- EX'.
Qed.

Lemma count_complete fuel a n c fs tail :
  within Buffer a n -> (Z.to_nat n <= fuel)%nat ->
  view Buffer a n = concat fs ++ tail -> Forall framed fs -> (length tail < 4)%nat ->
  count_arguments fuel Buffer a n c = Done (STATUS_SUCCESS, c + Z.of_nat (length fs)).
Proof.
  revert fuel a n c. induction fs as [|f fs IH]; intros fuel a n c H Hf E Hfs Ht;
    pose proof (length_view _ _ _ H) as Hl; rewrite E, length_app in Hl.
  { simpl in Hl. destruct fuel; cbn [count_arguments]; unfold ARGUMENT_Data;
      (destruct (n <? 4) eqn:E4; bool_prop; [|lia]); by rewrite Z.add_0_r. }
  apply Forall_cons in Hfs as [(t & data & pad & Hs & ->) Hfs]. cbn [concat] in E, Hl. rewrite length_app in Hl.
  rewrite <- (app_assoc (wire_bytes t data pad)) in E. pose proof (length_wire_bytes t data pad Hs) as Hw.
  destruct fuel as [|fuel]; [lia|]. cbn [count_arguments]. unfold ARGUMENT_Data.
  destruct (n <? 4) eqn:E4; bool_prop; [lia|].
  rewrite (load_wire_length a n t data pad _ H Hs E). simpl. rewrite (wire_length t _ pad) by done.
  destruct (view_next _ _ _ _ _ H E) as [E' H'].
  destruct (n <? _) eqn:E5; bool_prop; [lia|].
  rewrite (IH fuel) by (done || lia). f_equal. f_equal. lia.
Qed.

(** *** One argument *)

(** What the code does with an argument that starts at [a]. *)
Lemma argument_step fuel a n D s t data pad rest :
  within Buffer a n -> wire_shape data pad -> view Buffer a n = wire_bytes t data pad ++ rest -> 0 <= t < 65536 ->
  UacpiNtArgumentToObject (S fuel) Buffer a n D s =
    let len := Z.of_nat (length (wire_bytes t data pad)) in
    let create o s := let '(Object, s) := uacpi_object_create o s in Done (object_status Object, Object, len, s) in
    let refuse Status (s : eval_state) := Done (Status, None, len, s) in
    if t =? ACPI_METHOD_ARGUMENT_INTEGER then create (UACPI_OBJECT_INTEGER (le_bytes (take 4 (data ++ pad)))) s
    else if t =? ACPI_METHOD_ARGUMENT_STRING then
      if bool_decide (last data = Some 0) then create (UACPI_OBJECT_STRING false (text_of_bytes (until_nul data))) s
      else refuse STATUS_INVALID_PARAMETER s
    else if t =? ACPI_METHOD_ARGUMENT_BUFFER then create (UACPI_OBJECT_BUFFER data) s
    else if t =? ACPI_METHOD_ARGUMENT_PACKAGE then
      if UACPINT_EVAL_MAX_DEPTH <=? D then refuse STATUS_INVALID_PARAMETER s
      else
        '(Status, NestedCount) ← UacpiNtCountArguments Buffer (a + 4) (Z.of_nat (length data));
        if negb (NT_SUCCESS Status) then refuse Status s
        else
          '(Status, Nested, s) ←
            arguments_to_objects (fun a n => UacpiNtArgumentToObject fuel Buffer a n (D + 1))
              Buffer (a + 4) NestedCount (Z.of_nat (length data)) s;
          if negb (NT_SUCCESS Status) then refuse Status s
          else
            let '(Object, s) := uacpi_object_create (package_of Nested) s in
            Done (object_status Object, Object, len, UacpiNtFreeObjectArray Nested s)
    else refuse STATUS_INVALID_PARAMETER s.
Proof.
  intros H Hs E Ht. cbn [UacpiNtArgumentToObject]. unfold ARGUMENT_Data.
  pose proof (length_view _ _ _ H) as Hl. rewrite E, length_app in Hl.
  pose proof (length_wire_bytes t data pad Hs) as Hw.
  destruct (n <? 4) eqn:E4; bool_prop; [lia|]. rewrite (load_wire_length a n t data pad rest) by done.
  cbn [mbind run_bind]. rewrite (wire_length t data pad) by done. destruct (n <? _) eqn:E5; bool_prop; [lia|].
  rewrite wire_bytes_eq, <- !app_assoc in E.
  assert (load_le Buffer 2 a = Done t) as ->.
  { rewrite <- (Z.add_0_r a), (load_le_view Buffer [] _ _ a n 2 0 H E) by done. f_equal. by apply le_bytes_field. }
  cbn [mbind run_bind]. cbv zeta.
  set (hd := le_field 2 t ++ le_field 2 (Z.of_nat (length data))).
  assert (view Buffer a n = hd ++ data ++ pad ++ rest) as Ed by (rewrite E; unfold hd; by rewrite <- app_assoc).
  destruct (t =? ACPI_METHOD_ARGUMENT_INTEGER).
  { rewrite (load_le_view Buffer hd (take 4 (data ++ pad)) (drop 4 (data ++ pad) ++ rest) a n 4 4 H); [done| |
      rewrite length_take, length_app; destruct Hs; lia|done].
    rewrite Ed. f_equal. by rewrite (app_assoc (take _ _)), take_drop, <- app_assoc. }
  destruct (t =? ACPI_METHOD_ARGUMENT_STRING).
  { destruct (Z.of_nat (length data) =? 0) eqn:E0; bool_prop.
    { assert (data = []) as -> by (apply nil_length_inv; lia). done. }
    destruct (last data) as [z|] eqn:El; [|apply last_None in El; subst data; simpl in E0; lia].
    pose proof El as El'. apply last_Some in El' as [data' ->].
    replace (a + 4 + Z.of_nat (length (data' ++ [z])) - 1) with (a + (4 + Z.of_nat (length data')))
      by (rewrite length_app; simpl; lia).
    rewrite (load_view Buffer a n _ z H); [|lia|].
    2:{ rewrite Ed, Z2Nat.inj_add, Nat2Z.id by lia. unfold hd. simpl. rewrite <- app_assoc.
        by rewrite lookup_app_r, Nat.sub_diag by done. }
    cbn [mbind run_bind]. destruct (z =? 0) eqn:Ez; bool_prop; simpl negb; cbv iota.
    2:{ rewrite bool_decide_false; [done|by intros [= ->] ]. }
    subst z. rewrite bool_decide_true by done.
    destruct (until_nul_split (data' ++ [0])) as (r & Hr & Hf); [apply elem_of_app; right; left|].
    rewrite (load_cstring_view Buffer hd (until_nul (data' ++ [0])) (r ++ pad ++ rest) a n 4 H); [done| |done|done].
    rewrite Ed, Hr at 1. by rewrite <- app_assoc. }
  destruct (t =? ACPI_METHOD_ARGUMENT_BUFFER).
  { rewrite (load_bytes_view Buffer hd data (pad ++ rest) a n _ 4 H); [done|done|lia|done]. }
  done.
Qed.

(** *** Runs of arguments *)

Notation converter := (Z -> Z -> eval_state -> run (NTSTATUS * option uacpi_object * Z * eval_state)).

(** Reading is inside the buffer, takes one reference for the object it gives,
    and an object it gives is what the bytes stand for. *)
Definition argument_read (d : nat) (a n : Z) (s : eval_state)
  (r : run (NTSTATUS * option uacpi_object * Z * eval_state)) : Prop :=
  exists st o c s', r = Done (st, o, c, s') /\
    match o with
    | Some o => st = STATUS_SUCCESS /\ balanced s s' 1 /\
        exists bs rest, view Buffer a n = bs ++ rest /\ wire d bs o /\ c = Z.of_nat (length bs)
    | None => NT_SUCCESS st = false /\ balanced s s' 0
    end.

Definition reads_argument (d : nat) (convert : converter) : Prop :=
  forall a n s, within Buffer a n -> argument_read d a n s (convert a n s).

(** What stands for an object is read. *)
Definition finds_argument (d : nat) (convert : converter) : Prop :=
  forall a n s bs rest o, within Buffer a n -> view Buffer a n = bs ++ rest -> wire d bs o -> memory_suffices s ->
  exists s', convert a n s = Done (STATUS_SUCCESS, Some o, Z.of_nat (length bs), s') /\ memory_suffices s'.

Lemma held_app l l' : held (l ++ l') = (held l + held l')%nat.
Proof. induction l as [|[o|] l IH]; simpl; lia. Qed.

Lemma held_some l : held (map Some l) = length l.
Proof. induction l; simpl; auto. Qed.

Lemma held_none n : held (replicate n None) = O.
Proof. by induction n. Qed.

Lemma objects_some l : omap id (map Some l) = (l : list uacpi_object).
Proof. induction l; simpl; by f_equal. Qed.

Lemma insert_next (done : list uacpi_object) o (x : option uacpi_object) m :
  <[length done := o]> (map Some done ++ replicate (S m) x) = map Some done ++ o :: replicate m x.
Proof.
  rewrite insert_app_r_alt by (by rewrite length_map). by rewrite length_map, Nat.sub_diag.
Qed.

Lemma convert_arguments_sound d convert m : reads_argument d convert ->
  forall a n s (done : list uacpi_object), within Buffer a n -> n < 4294967296 ->
  exists st Objects s',
    convert_arguments convert Buffer m (length done) a n (map Some done ++ replicate m None) s = Done (st, Objects, s') /\
    ev_Refs s' - Z.of_nat (held Objects) = ev_Refs s - Z.of_nat (length done) /\
    w_live (ev_World s') = w_live (ev_World s) /\ ev_Calls s' = ev_Calls s /\ w_pool (ev_World s') = w_pool (ev_World s) /\
    (NT_SUCCESS st = true -> st = STATUS_SUCCESS /\ exists args objs rest,
       Objects = map Some (done ++ objs) /\ length objs = m /\ Forall2 (wire d) args objs /\
       view Buffer a n = concat args ++ rest).
Proof.
  intros Hc. induction m as [|m IH]; intros a n s done H Hn; cbn [convert_arguments].
  { eexists _, _, _. split; [done|]. rewrite app_nil_r, held_some. split_and!; [done..|].
    intros _. split; [done|]. exists [], [], (view Buffer a n). rewrite app_nil_r. by split_and!. }
  destruct (Hc a n s H) as (st & o & c & s' & -> & Ho). cbn [mbind run_bind]. rewrite insert_next.
  destruct o as [o|].
  - destruct Ho as (-> & (B1 & B2 & B3 & B4) & bs & rest & E & Hw & ->). cbn [NT_SUCCESS].
    pose proof (wire_framed _ _ _ Hw) as (t & data & pad & Hs & ->).
    rewrite (load_wire_length a n t data pad rest) by done. simpl negb. cbv iota. cbn [mbind run_bind].
    rewrite (wire_length t data pad) by done.
    destruct (view_next _ _ _ _ _ H E) as [E' H']. pose proof (length_view _ _ _ H') as Hl.
    rewrite u32_small by (pose proof (length_wire_bytes t data pad Hs); lia).
    destruct (IH _ _ s' (done ++ [o]) H') as (st2 & Objs & s2 & E2 & R2 & L2 & C2 & P2 & S2);
      [pose proof (length_wire_bytes t data pad Hs); lia|].
    rewrite length_app, Nat.add_1_r, map_app, <- app_assoc in E2. cbn [map app] in E2. rewrite E2.
    rewrite length_app in R2. cbn [length] in R2.
    eexists _, _, _. split; [done|]. split_and!; [lia|congruence..|].
    intros Hst. destruct (S2 Hst) as (-> & args & objs & rest2 & -> & <- & Hf & E3). split; [done|].
    exists (wire_bytes t data pad :: args), (o :: objs), rest2.
    split_and!; [by rewrite <- app_assoc|done|by constructor|]. cbn [concat]. rewrite E, <- app_assoc. f_equal.
    by rewrite <- E'.
  - destruct Ho as (Hst & B1 & B2 & B3 & B4). rewrite Hst. simpl negb. cbv iota.
    eexists _, _, _. split; [done|]. rewrite held_app, held_some. simpl. rewrite held_none.
    split_and!; [lia|done..|]. congruence.
Qed.

Lemma convert_arguments_complete d convert args objs : finds_argument d convert -> Forall2 (wire d) args objs ->
  forall a n s (done : list uacpi_object) rest, within Buffer a n -> n < 4294967296 ->
  view Buffer a n = concat args ++ rest -> memory_suffices s ->
  exists s', convert_arguments convert Buffer (length objs) (length done) a n
      (map Some done ++ replicate (length objs) None) s = Done (STATUS_SUCCESS, map Some (done ++ objs), s') /\
    memory_suffices s'.
Proof.
  intros Hc Hf. induction Hf as [|bs o args objs Hw Hf IH]; intros a n s done rest H Hn E Hm;
    cbn [convert_arguments length].
  { rewrite !app_nil_r. by exists s. }
  cbn [concat] in E. rewrite <- (app_assoc bs) in E.
  destruct (Hc a n s bs _ o H E Hw Hm) as (s' & -> & Hm'). cbn [mbind run_bind]. rewrite insert_next.
  pose proof (wire_framed _ _ _ Hw) as (t & data & pad & Hs & ->). simpl negb. cbv iota.
  rewrite (load_wire_length a n t data pad _ H Hs E). cbn [mbind run_bind]. rewrite (wire_length t data pad) by done.
  destruct (view_next _ _ _ _ _ H E) as [E' H']. pose proof (length_view _ _ _ H') as Hl.
  pose proof (length_wire_bytes t data pad Hs) as Hb. rewrite u32_small by lia.
  destruct (IH _ _ s' (done ++ [o]) rest H' ltac:(lia) E' Hm') as (s2 & E2 & Hm2).
  rewrite length_app, Nat.add_1_r, map_app, <- app_assoc in E2. simpl in E2.
  exists s2. rewrite E2, <- app_assoc. done.
Qed.

(** An array of [objs], which the driver can free. *)
Definition array_of (objs : list uacpi_object) : uacpi_object_array :=
  match objs with [] => None | _ => Some (map Some objs) end.

Lemma package_of_array objs : package_of (array_of objs) = UACPI_OBJECT_PACKAGE objs.
Proof. unfold package_of. destruct objs; [done|]. simpl. by rewrite objects_some. Qed.

Lemma arguments_to_objects_sound d convert a Count n s : reads_argument d convert ->
  within Buffer a n -> n < 4294967296 -> 0 <= Count ->
  exists st Array s', arguments_to_objects convert Buffer a Count n s = Done (st, Array, s') /\
    balanced s (UacpiNtFreeObjectArray Array s') 0 /\
    if NT_SUCCESS st then st = STATUS_SUCCESS /\ exists args objs rest,
      Array = array_of objs /\ Z.of_nat (length objs) = Count /\ Forall2 (wire d) args objs /\
      view Buffer a n = concat args ++ rest
    else Array = None.
Proof.
  intros Hc H Hn HC. unfold arguments_to_objects. destruct (Count =? 0) eqn:E0; bool_prop.
  { eexists _, _, _. split; [done|]. split; [by split_and!; simpl; try lia|]. split; [done|].
    exists [], [], (view Buffer a n). simpl. by split_and!. }
  destruct (_ <? Count) eqn:E1; bool_prop.
  { eexists _, _, _. split; [done|]. split; [by split_and!; simpl; try lia|]. done. }
  unfold UacpiNtAllocateObjectArray, ExAllocatePoolWithTag. cbv zeta.
  destruct (w_pool (ev_World s) (w_allocs (ev_World s)) (Count * 8)).
  2:{ eexists _, _, _. split; [done|]. split; [by split_and!; simpl; try lia|]. done. }
  set (s1 := ev_set_World _ s).
  destruct (convert_arguments_sound d convert (Z.to_nat Count) Hc a n s1 [] H Hn)
    as (st & Objs & s2 & E2 & R & Lv & Cl & P & S2). cbn [length map app] in *.
  rewrite E2. cbn [mbind run_bind]. simpl in R, Lv, P. destruct (NT_SUCCESS st) eqn:Est; simpl negb; cbv iota.
  - destruct (S2 eq_refl) as (-> & args & objs & rest & -> & Ho & Hf & Ev).
    eexists _, _, _. split; [done|]. split; [split_and!; simpl in *; try lia; done|]. split; [done|].
    exists args, objs, rest. split_and!; [|lia|done|done].
    unfold array_of. destruct objs; [simpl in *; lia|done].
  - eexists _, _, _. split; [done|]. rewrite Est. split; [|done]. split_and!; simpl in *; try lia; done.
Qed.

Lemma arguments_to_objects_complete d convert a n s args objs rest : finds_argument d convert ->
  Forall2 (wire d) args objs -> within Buffer a n -> n < 4294967296 ->
  view Buffer a n = concat args ++ rest -> memory_suffices s ->
  exists s', arguments_to_objects convert Buffer a (Z.of_nat (length objs)) n s =
      Done (STATUS_SUCCESS, array_of objs, s') /\ memory_suffices s'.
Proof.
  intros Hc Hf H Hn E Hm. unfold arguments_to_objects. destruct (_ =? 0) eqn:E0; bool_prop.
  { exists s. by destruct objs. }
  pose proof (length_view _ _ _ H) as Hl. rewrite E, length_app in Hl.
  assert (8 * length objs <= length (concat args))%nat as H8.
  { clear -Hf. induction Hf as [|bs o args objs Hw Hf IH]; [done|].
    pose proof (framed_length _ (wire_framed _ _ _ Hw)). simpl. rewrite length_app. lia. }
  rewrite argument_length by lia. change (4 + Z.max 4 0) with 8.
  destruct (n / 8 <? _) eqn:E1; bool_prop.
  { assert (Z.of_nat (length objs) <= n / 8); [|lia]. apply Z.div_le_lower_bound; lia. }
  unfold UacpiNtAllocateObjectArray, ExAllocatePoolWithTag. destruct Hm as [H1 H2]. rewrite H2, Nat2Z.id. cbv zeta.
  destruct (convert_arguments_complete d convert args objs Hc Hf a n
    (ev_set_World (mkWorld (w_clock (ev_World s)) (w_pool (ev_World s)) (w_reads (ev_World s))
       (S (w_allocs (ev_World s))) (w_live (ev_World s) + 1)) s) [] rest H Hn E) as (s' & E2 & Hm'); [by split|].
  cbn [length map app] in E2. rewrite E2. cbn [mbind run_bind]. exists s'. split; [|done].
  unfold array_of. by destruct objs; [simpl in E0; lia|].
Qed.

(** *** Nesting *)

Lemma create_balanced o s :
  let '(Object, s') := uacpi_object_create o s in
  match Object with Some o' => o' = o /\ balanced s s' 1 | None => balanced s s' 0 end.
Proof. unfold uacpi_object_create. destruct (answer_create _ _); split_and!; simpl; lia || done. Qed.

Lemma create_suffices o s : memory_suffices s ->
  exists s', uacpi_object_create o s = (Some o, s') /\ memory_suffices s'.
Proof. intros [H1 H2]. unfold uacpi_object_create. rewrite H1. eexists. split; [done|]. by split. Qed.

Lemma free_suffices Array s : memory_suffices s -> memory_suffices (UacpiNtFreeObjectArray Array s).
Proof. intros [H1 H2]. destruct Array; by split. Qed.

(** Creating an object and freeing an array can change places. *)
Lemma free_balanced Array s s' s2 k :
  balanced s (UacpiNtFreeObjectArray Array s') 0 -> balanced s' s2 k ->
  balanced s (UacpiNtFreeObjectArray Array s2) k.
Proof.
  unfold balanced. intros (H1 & H2 & H3 & H4) (B1 & B2 & B3 & B4).
  destruct Array; simpl in *; split_and!; lia || congruence.
Qed.

(** The data of an argument are a buffer of their own. *)
Lemma data_view a n t data pad rest :
  within Buffer a n -> view Buffer a n = wire_bytes t data pad ++ rest ->
  view Buffer (a + 4) (Z.of_nat (length data)) = data /\ within Buffer (a + 4) (Z.of_nat (length data)).
Proof.
  intros H E. rewrite wire_bytes_eq, <- !app_assoc in E.
  apply (view_sub Buffer (le_field 2 t ++ le_field 2 (Z.of_nat (length data))) data (pad ++ rest) a n H).
  by rewrite E, <- app_assoc.
Qed.

Definition argument_converter (fuel : nat) (D : Z) : converter :=
  fun a n => UacpiNtArgumentToObject fuel Buffer a n D.

Lemma refuse_read d a n s st c : NT_SUCCESS st = false -> argument_read d a n s (Done (st, None, c, s)).
Proof. intros Hst. eexists _, None, _, _. split; [done|]. split; [done|]. by split_and!; try lia. Qed.

Lemma create_read d a n s o bs rest : view Buffer a n = bs ++ rest -> wire d bs o ->
  argument_read d a n s (let '(Object, s) := uacpi_object_create o s in
                         Done (object_status Object, Object, Z.of_nat (length bs), s)).
Proof.
  intros E Hw. pose proof (create_balanced o s) as Hc. destruct (uacpi_object_create o s) as [[o'|] s'];
    eexists _, _, _, _; (split; [done|]); simpl; [|done].
  destruct Hc as [-> Hb]. split_and!; [done|done|]. by exists bs, rest.
Qed.

(** The package branch, given that the level below reads. *)
Lemma package_read d convert a n s data pad rest :
  reads_argument d convert -> within Buffer a n -> wire_shape data pad ->
  view Buffer a n = wire_bytes ACPI_METHOD_ARGUMENT_PACKAGE data pad ++ rest ->
  let len := Z.of_nat (length (wire_bytes ACPI_METHOD_ARGUMENT_PACKAGE data pad)) in
  argument_read (S d) a n s
    ('(Status, NestedCount) ← UacpiNtCountArguments Buffer (a + 4) (Z.of_nat (length data));
     if negb (NT_SUCCESS Status) then Done (Status, None, len, s)
     else
       '(Status, Nested, s) ← arguments_to_objects convert Buffer (a + 4) NestedCount (Z.of_nat (length data)) s;
       if negb (NT_SUCCESS Status) then Done (Status, None, len, s)
       else
         let '(Object, s) := uacpi_object_create (package_of Nested) s in
         Done (object_status Object, Object, len, UacpiNtFreeObjectArray Nested s)).
Proof.
  intros Hc H Hs E len. destruct (data_view a n _ data pad rest H E) as [Ed Hd]. unfold UacpiNtCountArguments.
  destruct (count_sound (length Buffer) (a + 4) (Z.of_nat (length data)) 0 Hd) as (st & c & -> & Hfr);
    [destruct Hd; lia|]. cbn [mbind run_bind].
  destruct (NT_SUCCESS st) eqn:Est; simpl negb; cbv iota; [|by apply refuse_read].
  destruct (Hfr eq_refl) as (fs & tail & Ef & Hfs & Htail & ->). rewrite Ed in Ef.
  destruct (arguments_to_objects_sound d convert (a + 4) (0 + Z.of_nat (length fs)) (Z.of_nat (length data)) s)
    as (st2 & Array & s2 & -> & Hb & H2); [done|done|destruct Hs; lia|lia|]. cbn [mbind run_bind].
  destruct (NT_SUCCESS st2) eqn:Est2; simpl negb; cbv iota.
  2:{ eexists _, None, _, _. split; [done|]. split; [done|]. by rewrite H2 in Hb. }
  destruct H2 as (-> & args & objs & rest2 & -> & Ho & Hwire & Ev). rewrite package_of_array.
  pose proof (create_balanced (UACPI_OBJECT_PACKAGE objs) s2) as Hcb.
  destruct (uacpi_object_create _ s2) as [Object s3].
  eexists _, _, _, _. split; [done|]. destruct Object as [o|]; simpl.
  2:{ split; [done|]. by eapply free_balanced. }
  destruct Hcb as [-> Hcb]. split_and!; [done|by eapply free_balanced|].
  exists (wire_bytes ACPI_METHOD_ARGUMENT_PACKAGE data pad), rest. split_and!; [done| |done].
  destruct (framed_unique fs args tail rest2) as [-> ->].
  { done. } { by eapply wires_framed. } { apply Forall2_length in Hwire. lia. } { congruence. }
  by eapply wire_package.
Qed.

Lemma converter_reads fuel D : 0 <= D <= 8 -> Z.of_nat fuel = 9 - D ->
  reads_argument (Z.to_nat (8 - D)) (argument_converter fuel D).
Proof.
  revert D. induction fuel as [|fuel IH]; intros D HD Hf a n s H; [lia|]. unfold argument_converter.
  destruct (Z_le_dec 4 n) as [Hn|Hn].
  2:{ cbn [UacpiNtArgumentToObject]. unfold ARGUMENT_Data. destruct (n <? 4) eqn:E; bool_prop; [|lia]. by apply refuse_read. }
  destruct (argument_or_not a n H Hn) as (k & El & [Hk|(t & data & pad & rest & E & Hs & _ & Ht)]).
  { cbn [UacpiNtArgumentToObject]. unfold ARGUMENT_Data. destruct (n <? 4) eqn:E; bool_prop; [lia|].
    rewrite El. cbn [mbind run_bind]. destruct (n <? _) eqn:E2; bool_prop; [by apply refuse_read|lia]. }
  rewrite (argument_step fuel a n D s t data pad rest) by done. cbv zeta.
  destruct (t =? ACPI_METHOD_ARGUMENT_INTEGER) eqn:T1.
  { apply Z.eqb_eq in T1 as ->. eapply create_read; [done|by constructor]. }
  destruct (t =? ACPI_METHOD_ARGUMENT_STRING) eqn:T2.
  { apply Z.eqb_eq in T2 as ->. destruct (bool_decide _) eqn:Eb; [|by apply refuse_read].
    apply bool_decide_eq_true in Eb. eapply create_read; [done|by constructor]. }
  destruct (t =? ACPI_METHOD_ARGUMENT_BUFFER) eqn:T3.
  { apply Z.eqb_eq in T3 as ->. eapply create_read; [done|by constructor]. }
  destruct (t =? ACPI_METHOD_ARGUMENT_PACKAGE) eqn:T4; [apply Z.eqb_eq in T4 as ->|by apply refuse_read].
  unfold UACPINT_EVAL_MAX_DEPTH. destruct (8 <=? D) eqn:E8; bool_prop; [by apply refuse_read|].
  replace (Z.to_nat (8 - D)) with (S (Z.to_nat (8 - (D + 1)))) by lia.
  eapply package_read; [apply IH; lia|done..].
Qed.

(** *** What is there is found *)

Lemma types_apart :
  ACPI_METHOD_ARGUMENT_STRING <> ACPI_METHOD_ARGUMENT_INTEGER /\
  ACPI_METHOD_ARGUMENT_BUFFER <> ACPI_METHOD_ARGUMENT_INTEGER /\
  ACPI_METHOD_ARGUMENT_BUFFER <> ACPI_METHOD_ARGUMENT_STRING /\
  ACPI_METHOD_ARGUMENT_PACKAGE <> ACPI_METHOD_ARGUMENT_INTEGER /\
  ACPI_METHOD_ARGUMENT_PACKAGE <> ACPI_METHOD_ARGUMENT_STRING /\
  ACPI_METHOD_ARGUMENT_PACKAGE <> ACPI_METHOD_ARGUMENT_BUFFER.
Proof.
  pose proof argument_types_differ as H. rewrite !NoDup_cons, !elem_of_cons in H. intuition.
Qed.

Lemma converter_finds fuel D : 0 <= D <= 8 -> Z.of_nat fuel = 9 - D ->
  finds_argument (Z.to_nat (8 - D)) (argument_converter fuel D).
Proof.
  revert D. induction fuel as [|fuel IH]; intros D HD Hf a n s bs rest o H E Hw Hm; [lia|].
  destruct types_apart as (N1 & N2 & N3 & N4 & N5 & N6). apply Z.eqb_neq in N1, N2, N3, N4, N5, N6.
  pose proof argument_types_fit as Hfit. repeat (apply Forall_cons in Hfit as [? Hfit]). clear Hfit.
  unfold argument_converter. remember (Z.to_nat (8 - D)) as d0 eqn:Hd0.
  destruct Hw as [d data pad Hs|d data pad Hs Hl|d data pad Hs|d data pad args objs tail Hs Ed Ht Hargs];
    rewrite (argument_step fuel a n D s _ data pad rest H Hs E) by done; cbv zeta; rewrite ?N1, ?N2, ?N3, ?N4, ?N5, ?N6, Z.eqb_refl.
  - destruct (create_suffices (UACPI_OBJECT_INTEGER (le_bytes (take 4 (data ++ pad)))) s Hm) as (s' & -> & Hm').
    by exists s'.
  - rewrite bool_decide_true by done.
    destruct (create_suffices (UACPI_OBJECT_STRING false (text_of_bytes (until_nul data))) s Hm) as (s' & -> & Hm').
    by exists s'.
  - destruct (create_suffices (UACPI_OBJECT_BUFFER data) s Hm) as (s' & -> & Hm'). by exists s'.
  - unfold UACPINT_EVAL_MAX_DEPTH. destruct (8 <=? D) eqn:E8; bool_prop; [lia|].
    destruct (data_view a n _ data pad rest H E) as [Ev Hd']. rewrite Ed in Ev at 2. unfold UacpiNtCountArguments.
    rewrite (count_complete (length Buffer) (a + 4) (Z.of_nat (length data)) 0 args tail);
      [|done|destruct Hd'; lia|done|by eapply wires_framed|done]. cbn [mbind run_bind]. simpl negb. cbv iota.
    assert (d = Z.to_nat (8 - (D + 1))) as -> by lia.
    rewrite Z.add_0_l, (Forall2_length _ _ _ Hargs).
    destruct (arguments_to_objects_complete (Z.to_nat (8 - (D + 1))) (argument_converter fuel (D + 1)) (a + 4)
      (Z.of_nat (length data)) s args objs tail) as (s' & Ea & Hm'); [apply IH; lia|done|done|destruct Hs; lia|done|done|].
    unfold argument_converter in Ea. rewrite Ea. cbn [mbind run_bind]. simpl negb. cbv iota.
    rewrite package_of_array. destruct (create_suffices (UACPI_OBJECT_PACKAGE objs) s' Hm') as (s2 & -> & Hm2).
    eexists. split; [done|]. by apply free_suffices.
Qed.
End Reading.

(** ** Writing *)
Section Writing.
Context {A : Acpi} {I : AcpiIoct} {L : AcpiIoctLaws}.

(** What the caller gets for an object: integers lose what is above 32 bits, and
    a string ends at its first NUL. *)
Fixpoint wire_value (o : uacpi_object) : uacpi_object :=
  match o with
  | UACPI_OBJECT_INTEGER v => UACPI_OBJECT_INTEGER (u32 v)
  | UACPI_OBJECT_STRING _ text => UACPI_OBJECT_STRING false (text_of_bytes (until_nul (bytes_of_text text)))
  | UACPI_OBJECT_PACKAGE l => UACPI_OBJECT_PACKAGE (map wire_value l)
  | o => o
  end.

(** The bytes an object takes, not reduced to a ULONG. *)
Fixpoint wire_size (o : uacpi_object) : Z :=
  match o with
  | UACPI_OBJECT_INTEGER _ => 8
  | UACPI_OBJECT_STRING _ text => 4 + Z.max 4 (Z.of_nat (length (bytes_of_text text)) + 2)
  | UACPI_OBJECT_BUFFER bytes => 4 + Z.max 4 (Z.of_nat (length bytes))
  | UACPI_OBJECT_PACKAGE l => 4 + Z.max 4 (foldr Z.add 0 (map wire_size l))
  | _ => 0
  end.

Definition wire_sizes (l : list uacpi_object) : Z := foldr Z.add 0 (map wire_size l).

Lemma wire_sizes_nonneg l : Forall (fun o => 0 <= wire_size o) l -> 0 <= wire_sizes l.
Proof. unfold wire_sizes. induction 1; simpl; lia. Qed.

Lemma wire_size_nonneg o : 0 <= wire_size o.
Proof. destruct o; simpl; lia. Qed.

Lemma wire_sizes_pos l : 0 <= wire_sizes l.
Proof. apply wire_sizes_nonneg, Forall_forall. intros o _. apply wire_size_nonneg. Qed.

(** Sizes are exact as long as the sum is below 4 GB. *)
Definition sized (D : Z) (o : uacpi_object) : Prop :=
  forall size, wire_size o < 4294967296 -> UacpiNtObjectWireSize o D = (STATUS_SUCCESS, size) -> size = wire_size o.

Lemma sum_sizes_exact D l T st size :
  Forall (sized D) l -> 0 <= T -> T + wire_sizes l < 4294967296 ->
  sum_sizes (fun o => UacpiNtObjectWireSize o D) l T = (st, size) -> NT_SUCCESS st = true ->
  st = STATUS_SUCCESS /\ size = T + wire_sizes l /\
  Forall (fun o => UacpiNtObjectWireSize o D = (STATUS_SUCCESS, wire_size o)) l.
Proof.
  unfold wire_sizes. intros Hs. revert T. induction Hs as [|o l Ho Hs IH]; intros T HT Hb E Hst.
  { simpl in *. injection E as <- <-. split_and!; [done|lia|done]. }
  pose proof (wire_size_nonneg o) as H0. pose proof (wire_sizes_pos l) as Hl. unfold wire_sizes in Hl.
  cbn [map foldr] in *. cbn [sum_sizes] in E. fold (sum_sizes (fun o => UacpiNtObjectWireSize o D)) in E.
  destruct (UacpiNtObjectWireSize o D) as [st' sz] eqn:Eo.
  destruct (NT_SUCCESS st') eqn:Est; simpl in E; [|injection E as <- <-; congruence].
  assert (st' = STATUS_SUCCESS) as ->.
  { clear -Eo Est. destruct o; simpl in Eo; repeat case_hyp Eo; simplify_eq; try done;
      simpl in Est; rewrite ?Est in *; simpl in *; congruence. }
  assert (sz = wire_size o) as -> by (apply (Ho sz); [lia|done]).
  rewrite u32_small in E by lia. destruct (IH (T + wire_size o)) as (-> & -> & Hf); [lia|lia|done|done|].
  split_and!; [done|lia|by constructor].
Qed.

Lemma wire_size_exact D o : sized D o.
Proof.
  revert D. induction o as [v|path text|bytes|l IH|a b|t] using uacpi_object_nested; intros D size Hb E; cbn in E.
  - injection E as <-. by rewrite argument_length.
  - rewrite length_app in E. destruct (MAXUSHORT <? _) eqn:EM; [done|]. injection E as <-.
    unfold MAXUSHORT in EM. cbn [wire_size length] in *. bool_prop.
    rewrite u32_small, argument_length by lia. lia.
  - destruct (MAXUSHORT <? _) eqn:EM; [done|]. injection E as <-. unfold MAXUSHORT in EM. cbn [wire_size] in *. bool_prop.
    rewrite u32_small, argument_length by lia. lia.
  - destruct (_ <=? D); [done|]. destruct (sum_sizes _ l 0) as [st T] eqn:ES.
    destruct (NT_SUCCESS st) eqn:Est; simpl in E; [|by injection E as -> _].
    pose proof (wire_sizes_pos l) as Hp. cbn [wire_size] in *. fold (wire_sizes l) in *.
    apply sum_sizes_exact in ES as (-> & -> & _); [|by eapply Forall_impl; [exact IH|intros o Ho; apply Ho]|lia|lia|done].
    destruct (MAXUSHORT <? _); [done|]. injection E as <-. rewrite argument_length by lia. lia.
  - done.
  - done.
Qed.

Lemma store_header_at t n (pre h h' rest : list Z) :
  length h = 2%nat -> length h' = 2%nat ->
  store_header t n (Z.of_nat (length pre)) (pre ++ h ++ h' ++ rest) =
    Done (pre ++ le_field 2 t ++ le_field 2 n ++ rest).
Proof.
  intros H1 H2. unfold store_header, ARGUMENT_DataLength.
  rewrite (store_bytes_at pre h (h' ++ rest)) by done. cbn [mbind run_bind].
  rewrite (app_assoc pre), (store_bytes_at (pre ++ le_field 2 t) h' rest); [by rewrite <- app_assoc|done|].
  rewrite length_app, length_le_field. lia.
Qed.

(** Room for an argument with [n] data: header, data and padding. *)
Lemma argument_room (old : list Z) n :
  Z.of_nat (length old) = 4 + Z.max 4 (Z.of_nat n) -> exists h h' d pad,
    old = h ++ h' ++ d ++ pad /\ length h = 2%nat /\ length h' = 2%nat /\ length d = n /\ length pad = (4 - n)%nat.
Proof.
  intros H. exists (take 2 old), (take 2 (drop 2 old)), (take n (drop 2 (drop 2 old))), (drop n (drop 2 (drop 2 old))).
  rewrite !take_drop, !length_take, !length_drop. split_and!; lia || done.
Qed.

(** An argument without nesting: the header and the data are stored, the padding stays. *)
Lemma store_argument t (data pre old post : list Z) :
  Z.of_nat (length data) < 65536 -> Z.of_nat (length old) = 4 + Z.max 4 (Z.of_nat (length data)) ->
  exists pad, wire_shape data pad /\
    (Buffer ← store_header t (Z.of_nat (length data)) (Z.of_nat (length pre)) (pre ++ old ++ post);
     store_bytes Buffer (Z.of_nat (length pre) + ARGUMENT_Data) data) =
      Done (pre ++ wire_bytes t data pad ++ post).
Proof.
  intros Hd Ho. destruct (argument_room old (length data) Ho) as (h & h' & d & pad & -> & H1 & H2 & H3 & H4).
  exists pad. split; [by split|]. rewrite <- !app_assoc, store_header_at by done. cbn [mbind run_bind].
  rewrite (app_assoc (le_field 2 t)), (app_assoc pre), (store_bytes_at _ d (pad ++ post) data);
    [|done|rewrite !length_app, !length_le_field; unfold ARGUMENT_Data; lia].
  by rewrite wire_bytes_eq, <- !app_assoc.
Qed.

(** An object whose size was computed fills its room exactly, and what is written
    stands for it. *)
Definition argument_written (D : Z) (o : uacpi_object) : Prop :=
  forall pre old post : list Z, 0 <= D <= 8 -> wire_size o < 4294967296 ->
  UacpiNtObjectWireSize o D = (STATUS_SUCCESS, wire_size o) -> Z.of_nat (length old) = wire_size o ->
  exists bs, UacpiNtObjectToArgument o (Z.of_nat (length pre)) (pre ++ old ++ post) =
      Done (STATUS_SUCCESS, wire_size o, pre ++ bs ++ post) /\
    Z.of_nat (length bs) = wire_size o /\ wire (Z.to_nat (8 - D)) bs (wire_value o).

Lemma write_arguments_written D l : Forall (argument_written D) l ->
  forall T (pre old post : list Z), 0 <= D <= 8 -> 0 <= T -> T + wire_sizes l < 4294967296 ->
  Forall (fun o => UacpiNtObjectWireSize o D = (STATUS_SUCCESS, wire_size o)) l ->
  Z.of_nat (length old) = wire_sizes l ->
  exists args, write_arguments UacpiNtObjectToArgument l (Z.of_nat (length pre)) T (pre ++ old ++ post) =
      Done (STATUS_SUCCESS, T + wire_sizes l, pre ++ concat args ++ post) /\
    Z.of_nat (length (concat args)) = wire_sizes l /\ Forall2 (wire (Z.to_nat (8 - D))) args (map wire_value l).
Proof.
  unfold wire_sizes. induction 1 as [|o l Ho Hl IH]; intros T pre old post HD HT Hb Hs Hlen.
  { simpl in Hlen. destruct old; [|simpl in Hlen; lia]. exists []. simpl. rewrite Z.add_0_r. by repeat constructor. }
  apply Forall_cons in Hs as [Eo Hs]. cbn [map foldr] in *.
  pose proof (wire_size_nonneg o) as H0. pose proof (wire_sizes_pos l) as Hp. unfold wire_sizes in Hp.
  rewrite <- (take_drop (Z.to_nat (wire_size o)) old). set (x := take _ old). set (y := drop _ old).
  assert (Z.of_nat (length x) = wire_size o) as Hx by (unfold x; rewrite length_take; lia).
  assert (Z.of_nat (length y) = foldr Z.add 0 (map wire_size l)) as Hy by (unfold y; rewrite length_drop; lia).
  rewrite <- (app_assoc x y). cbn [write_arguments]. fold (write_arguments UacpiNtObjectToArgument).
  destruct (Ho pre x (y ++ post) HD ltac:(lia) Eo Hx) as (bs & -> & Hbs & Hw). cbn [mbind run_bind].
  simpl negb. cbv iota. rewrite u32_small by lia. rewrite (app_assoc pre bs).
  destruct (IH (T + wire_size o) (pre ++ bs) y post HD ltac:(lia) ltac:(lia) Hs Hy) as (args & Ew & Hla & Hf).
  rewrite length_app, Nat2Z.inj_add, Hbs in Ew. rewrite Ew. exists (bs :: args). split_and!.
  - cbn [concat]. rewrite <- !app_assoc. do 3 f_equal. lia.
  - cbn [concat]. rewrite length_app. lia.
  - by constructor.
Qed.

Lemma string_written D path text : argument_written D (UACPI_OBJECT_STRING path text).
Proof.
  intros pre old post HD Hb E Ho. cbn [UacpiNtObjectToArgument uacpi_object_get_string].
  cbn [UacpiNtObjectWireSize uacpi_object_get_string] in E. cbn [wire_size] in *.
  rewrite length_app in E |- *. cbn [length] in *. unfold MAXUSHORT in E. destruct (_ <? _) eqn:EM; bool_prop; [done|].
  set (data := (bytes_of_text text ++ [0]) ++ [0]).
  assert (length data = (length (bytes_of_text text) + 2)%nat) as Hd
    by (unfold data; rewrite !length_app; simpl; lia).
  destruct (store_argument ACPI_METHOD_ARGUMENT_STRING data pre old post) as (pad & Hs & Ew); [lia|lia|].
  assert (u16 (Z.of_nat (length (bytes_of_text text) + 1) + 1) = Z.of_nat (length data)) as ->
    by (rewrite u16_small; lia).
  destruct (store_header _ _ _ _) as [|B]; [done|]. cbn [mbind run_bind] in *. unfold data in Ew at 1.
  rewrite store_bytes_app in Ew by (unfold ARGUMENT_Data; lia).
  destruct (store_bytes B _ (bytes_of_text text ++ [0])) as [|B']; [done|]. cbn [mbind run_bind] in *.
  rewrite length_app in Ew. cbn [length] in Ew. rewrite Ew. cbn [mbind run_bind].
  rewrite argument_length by lia. eexists. split_and!; [do 2 f_equal; f_equal; lia|rewrite length_wire_bytes by done; lia|].
  cbn [wire_value].
  assert (until_nul (bytes_of_text text) = until_nul data) as ->.
  { unfold data. rewrite <- app_assoc. clear. induction (bytes_of_text text) as [|b l IH]; [done|]. simpl.
    destruct (b =? 0); [done|]. by rewrite IH. }
  apply wire_string; [done|]. unfold data. by rewrite last_snoc.
Qed.

Lemma package_written D l : Forall (fun o => forall D, argument_written D o) l ->
  argument_written D (UACPI_OBJECT_PACKAGE l).
Proof.
  intros IH pre old post HD Hb E Ho. cbn [UacpiNtObjectToArgument]. cbn [UacpiNtObjectWireSize] in E. cbn [wire_size] in *.
  unfold UACPINT_EVAL_MAX_DEPTH in E. destruct (8 <=? D) eqn:E8; bool_prop; [done|].
  destruct (sum_sizes _ l 0) as [st T] eqn:ES. destruct (NT_SUCCESS st) eqn:Est; simpl in E; [|by injection E as ->].
  pose proof (wire_sizes_pos l) as Hp. fold (wire_sizes l) in *.
  apply sum_sizes_exact in ES as (-> & -> & Hsz); [|apply Forall_forall; intros; apply wire_size_exact|lia|lia|done].
  rewrite Z.add_0_l in E. unfold MAXUSHORT in E. destruct (_ <? _) eqn:EM; bool_prop; [done|].
  destruct (argument_room old (Z.to_nat (wire_sizes l))) as (h & h' & d & pad & -> & H1 & H2 & H3 & H4); [lia|].
  rewrite <- !app_assoc, (app_assoc h h'), (app_assoc pre (h ++ h')).
  destruct (write_arguments_written (D + 1) l) with (T := 0) (pre := pre ++ h ++ h') (old := d) (post := pad ++ post)
    as (args & Ew & Hla & Hf); [|lia|lia|lia|done|lia|].
  { eapply Forall_impl; [exact IH|]. intros o Hw. apply Hw. }
  replace (Z.of_nat (length (pre ++ h ++ h'))) with (Z.of_nat (length pre) + ARGUMENT_Data) in Ew
    by (rewrite !length_app; unfold ARGUMENT_Data; lia).
  rewrite Ew. cbn [mbind run_bind]. simpl negb. cbv iota. rewrite Z.add_0_l, u16_small by lia.
  rewrite <- !app_assoc, store_header_at by done. cbn [mbind run_bind]. rewrite argument_length by lia.
  exists (wire_bytes ACPI_METHOD_ARGUMENT_PACKAGE (concat args) pad).
  assert (wire_shape (concat args) pad) as Hs by (split; lia).
  split_and!; [by rewrite wire_bytes_eq, <- !app_assoc, Hla|rewrite length_wire_bytes by done; lia|].
  cbn [wire_value]. replace (Z.to_nat (8 - D)) with (S (Z.to_nat (8 - (D + 1)))) by lia.
  eapply wire_package; [done|by rewrite app_nil_r|simpl; lia|done].
Qed.

Lemma object_written D o : argument_written D o.
Proof.
  revert D. induction o as [v|path text|bytes|l IH|a b|t] using uacpi_object_nested; intros D;
    [|apply string_written| |by apply package_written|done|done]; intros pre old post HD Hb E Ho;
    cbn [UacpiNtObjectToArgument uacpi_object_get_buffer];
    cbn [UacpiNtObjectWireSize uacpi_object_get_buffer] in E; cbn [wire_size] in *.
  - destruct (store_argument ACPI_METHOD_ARGUMENT_INTEGER (le_field 4 (u32 v)) pre old post) as (pad & Hs & Ew);
      [rewrite length_le_field; lia|rewrite length_le_field; lia|].
    rewrite length_le_field in Ew. change (Z.of_nat 4) with 4 in Ew. 
    destruct (store_header _ _ _ _) as [|B]; [done|]. cbn [mbind run_bind] in *. rewrite Ew. cbn [mbind run_bind].
    rewrite argument_length by lia. eexists. split_and!; [done|by rewrite length_wire_bytes, length_le_field|].
    cbn [wire_value]. pose proof (wire_integer (Z.to_nat (8 - D)) _ pad Hs) as Hw.
    rewrite take_app_length', le_bytes_field in Hw; [done|apply u32_range|by rewrite length_le_field].
  - unfold MAXUSHORT in E. destruct (_ <? _) eqn:EM; bool_prop; [done|].
    destruct (store_argument ACPI_METHOD_ARGUMENT_BUFFER bytes pre old post) as (pad & Hs & Ew); [lia|lia|].
    rewrite u16_small by lia. destruct (store_header _ _ _ _) as [|B]; [done|]. cbn [mbind run_bind] in *. rewrite Ew.
    cbn [mbind run_bind]. rewrite argument_length by lia.
    eexists. split_and!; [done|by rewrite length_wire_bytes|]. by apply wire_buffer.
Qed.
End Writing.

(** ** What the two directions promise *)

Section Exact.
Context {A : Acpi} {I : AcpiIoct} {L : AcpiIoctLaws}.

(** Reading the arguments of a call stays inside the caller's buffer for any
    bytes, ends, and keeps nothing when it fails; it succeeds exactly when the
    bytes start with [Count] arguments of the wire grammar, nested at most eight
    packages deep, and then gives the objects they stand for. *)
Theorem arguments_read_exactly Buffer First BytesAvailable Count s :
  Forall is_byte Buffer -> within Buffer First BytesAvailable -> BytesAvailable < 4294967296 -> 0 <= Count ->
  exists st Array s',
    UacpiNtArgumentsToObjects Buffer First Count BytesAvailable 0 s = Done (st, Array, s') /\
    balanced s (UacpiNtFreeObjectArray Array s') 0 /\
    (if NT_SUCCESS st then exists args objs rest,
       view Buffer First BytesAvailable = concat args ++ rest /\ Forall2 (wire 8) args objs /\
       Z.of_nat (length objs) = Count /\ Array = array_of objs
     else Array = None) /\
    (forall args objs rest, memory_suffices s ->
       view Buffer First BytesAvailable = concat args ++ rest -> Forall2 (wire 8) args objs ->
       Z.of_nat (length objs) = Count -> st = STATUS_SUCCESS /\ Array = array_of objs).
Proof.
  intros Hb H Hn HC. unfold UacpiNtArgumentsToObjects.
  pose proof (converter_reads Buffer Hb argument_fuel 0 ltac:(lia) ltac:(done)) as Hr.
  pose proof (converter_finds Buffer argument_fuel 0 ltac:(lia) ltac:(done)) as Hf.
  destruct (arguments_to_objects_sound Buffer 8 _ First Count BytesAvailable s Hr H Hn HC)
    as (st & Array & s' & E & Hbal & Hs).
  exists st, Array, s'. split_and!; [done|done| |].
  - destruct (NT_SUCCESS st); [|done]. destruct Hs as (_ & args & objs & rest & ? & ? & ? & ?).
    by exists args, objs, rest.
  - intros args objs rest Hm Ev Hw <-.
    destruct (arguments_to_objects_complete Buffer 8 _ First BytesAvailable s args objs rest Hf Hw H Hn Ev Hm)
      as (s2 & E2 & _). unfold argument_converter in *. rewrite E in E2. by injection E2.
Qed.

(** C20.  An object whose wire form takes less than 4 GB, where the 32-bit sizes do
    not wrap ([package_size_wraps] has a larger one), and that was sized at a depth
    of at most eight is written into exactly that many bytes; and reading them back
    at the same depth, when no allocation is refused, gives the object again, with
    its integers cut to 32 bits and its strings at their first NUL. *)
Theorem argument_roundtrip o Depth size (pre old post : list Z) s :
  0 <= Depth <= 8 -> wire_size o < 4294967296 -> UacpiNtObjectWireSize o Depth = (STATUS_SUCCESS, size) ->
  Z.of_nat (length old) = size -> memory_suffices s ->
  exists bs s', UacpiNtObjectToArgument o (Z.of_nat (length pre)) (pre ++ old ++ post) =
      Done (STATUS_SUCCESS, size, pre ++ bs ++ post) /\
    UacpiNtArgumentToObject (Z.to_nat (9 - Depth)) (pre ++ bs ++ post) (Z.of_nat (length pre))
      (size + Z.of_nat (length post)) Depth s = Done (STATUS_SUCCESS, Some (wire_value o), size, s').
Proof.
  intros HD Hb Es Ho Hm. pose proof (wire_size_exact Depth o size Hb Es) as ->.
  destruct (object_written Depth o pre old post HD Hb Es Ho) as (bs & Ew & Hl & Hw).
  destruct (converter_finds (pre ++ bs ++ post) (Z.to_nat (9 - Depth)) Depth HD ltac:(lia)
    (Z.of_nat (length pre)) (wire_size o + Z.of_nat (length post)) s bs post (wire_value o)) as (s' & Er & _); [| |done..|].
  - unfold within. rewrite !length_app. lia.
  - unfold view. rewrite Nat2Z.id, drop_app_length. apply firstn_all2. rewrite length_app. lia.
  - exists bs, s'. split; [done|]. unfold argument_converter in Er. by rewrite Er, Hl.
Qed.
End Exact.

(** ** Examples *)

(** The header with its published codes. *)
Definition acpiioct_h : AcpiIoct := {|
  ACPI_METHOD_ARGUMENT_INTEGER := 0;
  ACPI_METHOD_ARGUMENT_STRING := 1;
  ACPI_METHOD_ARGUMENT_BUFFER := 2;
  ACPI_METHOD_ARGUMENT_PACKAGE := 3;
  ACPI_METHOD_ARGUMENT_LENGTH n := 4 + Z.max 4 n
|}.

Lemma acpiioct_laws : @AcpiIoctLaws acpiioct_h.
Proof.
  split; [|by repeat constructor|done]. apply NoDup_ListNoDup.
  repeat (apply List.NoDup_cons; [simpl; lia|]). apply List.NoDup_nil.
Qed.

Definition ample_world : world := mkWorld (fun _ => 0) (fun _ _ => true) 0 0 0.
Definition fresh_eval : eval_state := mkEval ample_world 0 0 [].
Definition silent_acpi : Acpi := scripted_acpi [] [] [].

(** A package of the number 7 and the text AB, then one byte of data. *)
Definition wire_example : list Z :=
  [3; 0; 16; 0;  0; 0; 4; 0; 7; 0; 0; 0;  1; 0; 3; 0; 65; 66; 0; 0;  2; 0; 1; 0; 9; 0; 0; 0].

Lemma arguments_read_exactly_witness : exists s',
  @UacpiNtArgumentsToObjects silent_acpi acpiioct_h wire_example 0 2 28 0 fresh_eval =
    Done (STATUS_SUCCESS, array_of
      [UACPI_OBJECT_PACKAGE [UACPI_OBJECT_INTEGER 7; UACPI_OBJECT_STRING false "AB"]; UACPI_OBJECT_BUFFER [9]], s') /\
  balanced fresh_eval (UacpiNtFreeObjectArray (array_of
      [UACPI_OBJECT_PACKAGE [UACPI_OBJECT_INTEGER 7; UACPI_OBJECT_STRING false "AB"]; UACPI_OBJECT_BUFFER [9]]) s') 0.
Proof.
  destruct (@arguments_read_exactly silent_acpi acpiioct_h acpiioct_laws wire_example 0 28 2 fresh_eval)
    as (st & Array & s' & E & Hb & _).
  - unfold wire_example. byte_list.
  - unfold within. simpl. lia.
  - lia.
  - lia.
  - vm_compute in E. injection E as <- <- <-. eexists. split; [by vm_compute|done].
Defined.

Lemma argument_roundtrip_witness :
  let o := UACPI_OBJECT_PACKAGE [UACPI_OBJECT_INTEGER 4294967303; UACPI_OBJECT_STRING false "AB"] in
  exists bs s', @UacpiNtObjectToArgument acpiioct_h o 0 (replicate 20 255 ++ [1]) =
      Done (STATUS_SUCCESS, 20, bs ++ [1]) /\
    @UacpiNtArgumentToObject silent_acpi acpiioct_h 9 (bs ++ [1]) 0 21 0 fresh_eval =
      Done (STATUS_SUCCESS, Some (UACPI_OBJECT_PACKAGE [UACPI_OBJECT_INTEGER 7; UACPI_OBJECT_STRING false "AB"]), 20, s').
Proof.
  apply (@argument_roundtrip silent_acpi acpiioct_h acpiioct_laws
    (UACPI_OBJECT_PACKAGE [UACPI_OBJECT_INTEGER 4294967303; UACPI_OBJECT_STRING false "AB"]) 0 20 [] (replicate 20 255) [1]
    fresh_eval); [lia|by vm_compute|by vm_compute|done|by split].
Defined.

(** ** Behaviour found *)

(** The interpreter's view of a string covers its NUL, so the code adds a second
    one: two characters are announced as four bytes instead of three. *)
Theorem string_carries_two_nuls :
  @UacpiNtObjectToArgument acpiioct_h (UACPI_OBJECT_STRING false "AB") 0 (replicate 8 255) =
    Done (STATUS_SUCCESS, 8, [1; 0; 4; 0; 65; 66; 0; 0]).
Proof. by vm_compute. Qed.

Lemma sum_replicate size n (o : uacpi_object) k : size o = (STATUS_SUCCESS, k) ->
  forall T, u32 T = T -> sum_sizes size (replicate n o) T = (STATUS_SUCCESS, u32 (T + Z.of_nat n * k)).
Proof.
  intros Ho. induction n as [|n IH]; intros T HT.
  { simpl. by rewrite Z.add_0_r, HT. }
  cbn [replicate sum_sizes]. fold (sum_sizes size). rewrite Ho. simpl negb. cbv iota.
  rewrite IH by (unfold u32; by rewrite Zmod_mod). f_equal. unfold u32. rewrite Zplus_mod_idemp_l. f_equal. lia.
Qed.

(** The sizes are added as ULONGs without a check: a package of 65534 buffers of
    65535 bytes is sized as 65534 bytes, and writing it leaves such a buffer. *)
Theorem package_size_wraps (n m : nat) :
  Z.of_nat n = 65534 -> Z.of_nat m = 65535 ->
  let o := UACPI_OBJECT_PACKAGE (replicate n (UACPI_OBJECT_BUFFER (replicate m 0))) in
  @UacpiNtObjectWireSize acpiioct_h o 0 = (STATUS_SUCCESS, 65534) /\
  forall Buffer, Z.of_nat (length Buffer) = 65534 -> @UacpiNtObjectToArgument acpiioct_h o 0 Buffer = Fault.
Proof.
  intros Hn Hm o. split.
  - unfold o. cbn [UacpiNtObjectWireSize]. simpl (_ <=? _). cbv iota.
    rewrite (sum_replicate _ n _ 65539); [|cbn [UacpiNtObjectWireSize uacpi_object_get_buffer]; by rewrite length_replicate, Hm|done].
    by rewrite Hn.
  - intros Buffer HB. unfold o. destruct n as [|n]; [done|]. cbn [UacpiNtObjectToArgument replicate write_arguments uacpi_object_get_buffer].
    rewrite length_replicate, Hm. unfold store_header.
    destruct (store_bytes Buffer _ _) as [|B] eqn:E1; [done|]. cbn [mbind run_bind].
    destruct (store_bytes B _ _) as [|B2] eqn:E2; [done|]. cbn [mbind run_bind].
    assert (length B2 = length Buffer) as HB2.
    { apply store_bytes_length in E1, E2. congruence. }
    assert (store_bytes B2 (0 + ARGUMENT_Data + ARGUMENT_Data) (replicate m 0) = Fault) as ->; [|done].
    unfold store_bytes. rewrite length_replicate. destruct (decide _) as [Hd|]; [|done]. unfold ARGUMENT_Data in Hd. lia.
Qed.
