(* ===== verification/EvalCall.v ===== *)
(** sys/ioctl.c, second half: an evaluation call, from the caller's buffer through
    the interpreter and back into the same buffer. *)
From stdpp Require Import base list numbers option strings.
From Stdlib Require Import ZArith Lia Ascii.
From S2P Require Import Prelude NtEnv AcpiEnv Bytes EvalWire.

Definition STATUS_BUFFER_OVERFLOW : NTSTATUS := 0x80000005.
Definition STATUS_OBJECT_NAME_NOT_FOUND : NTSTATUS := 0xC0000034.
Definition STATUS_DEVICE_NOT_READY : NTSTATUS := 0xC00000A3.

(** ** acpiioct.h: the signatures of the buffers *)
Class AcpiSignatures := {
  ACPI_EVAL_INPUT_BUFFER_SIGNATURE : Z;
  ACPI_EVAL_INPUT_BUFFER_SIMPLE_INTEGER_SIGNATURE : Z;
  ACPI_EVAL_INPUT_BUFFER_SIMPLE_STRING_SIGNATURE : Z;
  ACPI_EVAL_INPUT_BUFFER_COMPLEX_SIGNATURE : Z;
  ACPI_EVAL_INPUT_BUFFER_SIGNATURE_EX : Z;
  ACPI_EVAL_INPUT_BUFFER_SIMPLE_INTEGER_SIGNATURE_EX : Z;
  ACPI_EVAL_INPUT_BUFFER_SIMPLE_STRING_SIGNATURE_EX : Z;
  ACPI_EVAL_INPUT_BUFFER_COMPLEX_SIGNATURE_EX : Z;
  ACPI_EVAL_OUTPUT_BUFFER_SIGNATURE : Z
}.

(** They differ and fit a ULONG. *)
Class AcpiSignaturesLaws `{AcpiSignatures} := {
  signatures_differ :
    NoDup [ACPI_EVAL_INPUT_BUFFER_SIGNATURE; ACPI_EVAL_INPUT_BUFFER_SIMPLE_INTEGER_SIGNATURE;
           ACPI_EVAL_INPUT_BUFFER_SIMPLE_STRING_SIGNATURE; ACPI_EVAL_INPUT_BUFFER_COMPLEX_SIGNATURE;
           ACPI_EVAL_INPUT_BUFFER_SIGNATURE_EX; ACPI_EVAL_INPUT_BUFFER_SIMPLE_INTEGER_SIGNATURE_EX;
           ACPI_EVAL_INPUT_BUFFER_SIMPLE_STRING_SIGNATURE_EX; ACPI_EVAL_INPUT_BUFFER_COMPLEX_SIGNATURE_EX];
  signatures_fit :
    Forall (fun s => 0 <= s < 4294967296)
      [ACPI_EVAL_INPUT_BUFFER_SIGNATURE; ACPI_EVAL_INPUT_BUFFER_SIMPLE_INTEGER_SIGNATURE;
       ACPI_EVAL_INPUT_BUFFER_SIMPLE_STRING_SIGNATURE; ACPI_EVAL_INPUT_BUFFER_COMPLEX_SIGNATURE;
       ACPI_EVAL_INPUT_BUFFER_SIGNATURE_EX; ACPI_EVAL_INPUT_BUFFER_SIMPLE_INTEGER_SIGNATURE_EX;
       ACPI_EVAL_INPUT_BUFFER_SIMPLE_STRING_SIGNATURE_EX; ACPI_EVAL_INPUT_BUFFER_COMPLEX_SIGNATURE_EX]
}.

(** Where the fields are in the published structures: a signature, the name of
    four or of 256 characters, then what the kind of buffer adds.  The 64-bit
    integer of the _EX form is aligned. *)
Record eval_input_layout := mkLayout {
  il_Name : nat;
  il_Integer : Z;
  il_IntegerBytes : nat;
  il_SizeofInteger : Z;
  il_SizeofPlain : Z
}.
Definition original_input : eval_input_layout := mkLayout 4 8 4 12 8.
Definition ex_input : eval_input_layout := mkLayout 256 264 8 272 260.

Definition INPUT_MethodName : Z := 4.
(** StringLength and String, or Size, ArgumentCount and Argument, follow the name. *)
Definition after_name (l : eval_input_layout) : Z := INPUT_MethodName + Z.of_nat (il_Name l).

Definition OUTPUT_Argument : Z := 12.

Section Evaluation.
Context {A : Acpi} {I : AcpiIoct} {S : AcpiSignatures}.

(** ** The input *)

Definition UacpiNtStringArgumentValid (Input : list Z) (Available StringLength String : Z) : run bool :=
  if StringLength =? 0 then Done false
  else if Available <? StringLength then Done false
  else Last ← load Input (String + StringLength - 1); Done (Last =? 0).

Definition UacpiNtSingleArgument (Object : option uacpi_object) (s : eval_state)
  : NTSTATUS * uacpi_object_array * eval_state :=
  match UacpiNtAllocateObjectArray 1 s with
  | (_, Some _, s) => (object_status Object, Some [Object], s)
  | (Status, None, s) =>
      (Status, None, match Object with Some _ => uacpi_object_unref 1 s | None => s end)
  end.

(** The path is the name up to its NUL, at most as long as its field. *)
Definition method_path (l : eval_input_layout) (Input : list Z) : run (list Z) :=
  Name ← load_bytes Input (il_Name l) INPUT_MethodName; Done (until_nul Name).

Notation decoded := (run (NTSTATUS * list Z * uacpi_object_array * eval_state)).

Definition decode_fails (s : eval_state) : decoded := Done (STATUS_INVALID_PARAMETER, [], None, s).

Definition decode_plain (l : eval_input_layout) (Input : list Z) (s : eval_state) : decoded :=
  if Z.of_nat (length Input) <? il_SizeofPlain l then decode_fails s
  else Path ← method_path l Input; Done (STATUS_SUCCESS, Path, None, s).

Definition decode_integer (l : eval_input_layout) (Input : list Z) (s : eval_state) : decoded :=
  if Z.of_nat (length Input) <? il_SizeofInteger l then decode_fails s
  else
    Path ← method_path l Input;
    Value ← load_le Input (il_IntegerBytes l) (il_Integer l);
    let '(Object, s) := uacpi_object_create (UACPI_OBJECT_INTEGER Value) s in
    let '(Status, Args, s) := UacpiNtSingleArgument Object s in Done (Status, Path, Args, s).

Definition decode_string (l : eval_input_layout) (Input : list Z) (s : eval_state) : decoded :=
  let Offset := after_name l + 4 in
  if Z.of_nat (length Input) <? Offset then decode_fails s
  else
    StringLength ← load_le Input 4 (after_name l);
    Valid ← UacpiNtStringArgumentValid Input (Z.of_nat (length Input) - Offset) StringLength Offset;
    if negb Valid then decode_fails s
    else
      Path ← method_path l Input;
      Text ← load_cstring (Datatypes.S (length Input)) Input Offset;
      let '(Object, s) := uacpi_object_create (UACPI_OBJECT_STRING false (text_of_bytes Text)) s in
      let '(Status, Args, s) := UacpiNtSingleArgument Object s in Done (Status, Path, Args, s).

Definition decode_complex (l : eval_input_layout) (Input : list Z) (s : eval_state) : decoded :=
  let InputLength := Z.of_nat (length Input) in
  let Offset := after_name l + 8 in
  if InputLength <? Offset then decode_fails s
  else
    Size ← load_le Input 4 (after_name l);
    if InputLength <? Size then decode_fails s
    else
      Path ← method_path l Input;
      ArgumentCount ← load_le Input 4 (after_name l + 4);
      '(Status, Args, s) ← UacpiNtArgumentsToObjects Input Offset ArgumentCount (InputLength - Offset) 0 s;
      Done (Status, Path, Args, s).

(** [Input] is the InputLength bytes the caller gave. *)
Definition UacpiNtDecodeEvalInput (Input : list Z) (s : eval_state) : decoded :=
  if Z.of_nat (length Input) <? 4 then decode_fails s
  else
    Signature ← load_le Input 4 0;
    if Signature =? ACPI_EVAL_INPUT_BUFFER_SIGNATURE then decode_plain original_input Input s
    else if Signature =? ACPI_EVAL_INPUT_BUFFER_SIMPLE_INTEGER_SIGNATURE then decode_integer original_input Input s
    else if Signature =? ACPI_EVAL_INPUT_BUFFER_SIMPLE_STRING_SIGNATURE then decode_string original_input Input s
    else if Signature =? ACPI_EVAL_INPUT_BUFFER_COMPLEX_SIGNATURE then decode_complex original_input Input s
    else if Signature =? ACPI_EVAL_INPUT_BUFFER_SIGNATURE_EX then decode_plain ex_input Input s
    else if Signature =? ACPI_EVAL_INPUT_BUFFER_SIMPLE_INTEGER_SIGNATURE_EX then decode_integer ex_input Input s
    else if Signature =? ACPI_EVAL_INPUT_BUFFER_SIMPLE_STRING_SIGNATURE_EX then decode_string ex_input Input s
    else if Signature =? ACPI_EVAL_INPUT_BUFFER_COMPLEX_SIGNATURE_EX then decode_complex ex_input Input s
    else decode_fails s.

(** ** The output *)

(** The objects that become arguments and the depth they are at: the elements of
    a package, or the result itself. *)
Definition output_objects (Result : uacpi_object) : list uacpi_object * Z :=
  match uacpi_object_get_package Result with
  | Some Objects => (take (Z.to_nat (u32 (Z.of_nat (length Objects)))) Objects, 1)
  | None => ([Result], 0)
  end.

Definition store_output_header (Length Count : Z) (Buffer : list Z) : run (list Z) :=
  Buffer ← store_bytes Buffer 0 (le_field 4 ACPI_EVAL_OUTPUT_BUFFER_SIGNATURE);
  Buffer ← store_bytes Buffer 4 (le_field 4 Length);
  store_bytes Buffer 8 (le_field 4 Count).

(** [Output] is the system buffer, NULL for a call without buffers. *)
Definition UacpiNtWriteEvalOutput (Result : uacpi_object) (Output : option (list Z)) (OutputLength : Z)
  : run (NTSTATUS * Z * option (list Z)) :=
  let '(Objects, Depth) := output_objects Result in
  let '(Status, Required) := sum_sizes (fun o => UacpiNtObjectWireSize o Depth) Objects OUTPUT_Argument in
  if negb (NT_SUCCESS Status) then Done (Status, 0, Output)
  else
    match Output with
    | None => Done (STATUS_BUFFER_TOO_SMALL, 0, None)
    | Some Buffer =>
        if OutputLength <? OUTPUT_Argument then Done (STATUS_BUFFER_TOO_SMALL, 0, Output)
        else if OutputLength <? Required then
          Buffer ← store_output_header Required 0 Buffer;
          Done (STATUS_BUFFER_OVERFLOW, OUTPUT_Argument, Some Buffer)
        else
          Buffer ← store_output_header Required (Z.of_nat (length Objects)) Buffer;
          '(Status, _, Buffer) ← write_arguments UacpiNtObjectToArgument Objects OUTPUT_Argument 0 Buffer;
          if negb (NT_SUCCESS Status) then Done (Status, 0, Some Buffer)
          else Done (STATUS_SUCCESS, Required, Some Buffer)
    end.

(** ** The call *)

(** Four character names may be padded with spaces. *)
Fixpoint drop_spaces (l : list Z) : list Z :=
  match l with
  | [] => []
  | b :: l => if b =? 32 then drop_spaces l else b :: l
  end.
Definition trim_path (Path : list Z) : list Z := reverse (drop_spaces (reverse Path)).

Definition eval_status (UacpiStatus : uacpi_status) : NTSTATUS :=
  if UacpiStatus =? UACPI_STATUS_NOT_FOUND then STATUS_OBJECT_NAME_NOT_FOUND else STATUS_UNSUCCESSFUL.

Definition evaluate_decoded (Node : acpi_node) (Path : list Z) (Args : uacpi_object_array)
  (SystemBuffer : option (list Z)) (OutputLength : Z) (s : eval_state)
  : run (NTSTATUS * Z * option (list Z) * eval_state) :=
  let '(UacpiStatus, Result, Calls) :=
    uacpi_eval Node (text_of_bytes (trim_path Path)) (omap id (default [] Args)) (ev_Calls s) in
  let s := mkEval (ev_World s) (ev_Created s)
             (match Result with Some _ => ev_Refs s + 1 | None => ev_Refs s end) Calls in
  '(Status, Information, SystemBuffer) ←
    (if uacpi_unlikely_error UacpiStatus then Done (eval_status UacpiStatus, 0, SystemBuffer)
     else match Result with
          | Some Result => UacpiNtWriteEvalOutput Result SystemBuffer OutputLength
          | None => Done (STATUS_SUCCESS, 0, SystemBuffer)
          end);
  Done (Status, Information, SystemBuffer,
        match Result with Some _ => uacpi_object_unref 1 s | None => s end).

(** [Ready]: the FDO is there and its interpreter runs.  The system buffer holds
    the input and receives the output. *)
Definition UacpiNtEvaluate (Ready : bool) (Node : acpi_node) (SystemBuffer : option (list Z))
  (InputLength OutputLength : Z) (s : eval_state) : run (NTSTATUS * Z * option (list Z) * eval_state) :=
  '(Status, Path, Args, s) ←
    (if (Node =? NULL) || negb Ready then Done (STATUS_DEVICE_NOT_READY, [], None, s)
     else UacpiNtDecodeEvalInput (take (Z.to_nat InputLength) (default [] SystemBuffer)) s);
  '(Status, Information, SystemBuffer, s) ←
    (if NT_SUCCESS Status then evaluate_decoded Node Path Args SystemBuffer OutputLength s
     else Done (Status, 0, SystemBuffer, s));
  Done (Status, Information, SystemBuffer, UacpiNtFreeObjectArray Args s).
End Evaluation.

(** ** The output, exactly *)
Section Output.
Context {I : AcpiIoct} {L : AcpiIoctLaws} {S : AcpiSignatures}.

Definition has_wire_form (Depth : Z) (o : uacpi_object) : bool := NT_SUCCESS (UacpiNtObjectWireSize o Depth).1.

Lemma sum_sizes_succeeds D l T :
  forallb (has_wire_form D) l = NT_SUCCESS (sum_sizes (fun o => UacpiNtObjectWireSize o D) l T).1.
Proof.
  revert T. induction l as [|o l IH]; intros T; [done|]. cbn [forallb sum_sizes].
  fold (sum_sizes (fun o => UacpiNtObjectWireSize o D)). unfold has_wire_form at 1.
  destruct (UacpiNtObjectWireSize o D) as [st sz]. cbn [fst]. destruct (NT_SUCCESS st) eqn:E; simpl; [apply IH|by rewrite E].
Qed.

Lemma wire_sizes_take l n : wire_sizes (take n l) <= wire_sizes l.
Proof.
  unfold wire_sizes. revert n. induction l as [|o l IH]; intros [|n]; simpl; try lia.
  - pose proof (wire_sizes_pos (o :: l)) as H. unfold wire_sizes in H. simpl in H. lia.
  - specialize (IH n). lia.
Qed.

Lemma output_sizes Result : wire_sizes (output_objects Result).1 <= wire_size Result.
Proof.
  unfold output_objects. destruct Result; cbn [uacpi_object_get_package fst]; unfold wire_sizes; cbn [map foldr wire_size]; try lia.
  etrans; [apply wire_sizes_take|]. unfold wire_sizes. lia.
Qed.

Lemma output_depth Result : 0 <= (output_objects Result).2 <= 8.
Proof. unfold output_objects. destruct (uacpi_object_get_package Result); simpl; lia. Qed.

Definition output_header (Length Count : Z) : list Z :=
  le_field 4 ACPI_EVAL_OUTPUT_BUFFER_SIGNATURE ++ le_field 4 Length ++ le_field 4 Count.

Lemma store_output_header_at Length Count (Buffer : list Z) :
  (12 <= length Buffer)%nat -> store_output_header Length Count Buffer = Done (output_header Length Count ++ drop 12 Buffer).
Proof.
  intros H. unfold store_output_header.
  assert (exists a b c d, Buffer = a ++ b ++ c ++ d /\ length a = 4%nat /\ length b = 4%nat /\ length c = 4%nat)
    as (a & b & c & d & -> & Ha & Hb & Hc).
  { exists (take 4 Buffer), (take 4 (drop 4 Buffer)), (take 4 (drop 4 (drop 4 Buffer))), (drop 4 (drop 4 (drop 4 Buffer))).
    rewrite !take_drop, !length_take, !length_drop. split_and!; lia || done. }
  rewrite (store_bytes_at [] a (b ++ c ++ d)) by done. cbn [mbind run_bind app].
  rewrite (store_bytes_at _ b (c ++ d)) by (rewrite ?length_le_field; done). cbn [mbind run_bind].
  rewrite (app_assoc (le_field 4 _)), (store_bytes_at _ c d) by (rewrite ?length_app, ?length_le_field; done).
  unfold output_header. rewrite <- !app_assoc. do 4 f_equal.
  rewrite (app_assoc b), (app_assoc a). symmetry. apply drop_app_length'. rewrite !length_app. lia.
Qed.

Lemma write_output_result Result Buffer OutputLength :
  wire_size Result + 12 < 4294967296 -> 0 <= OutputLength <= Z.of_nat (length Buffer) ->
  let Objects := (output_objects Result).1 in
  let Depth := (output_objects Result).2 in
  let Required := 12 + wire_sizes Objects in
  exists st Information Buffer',
    UacpiNtWriteEvalOutput Result (Some Buffer) OutputLength = Done (st, Information, Some Buffer') /\
    length Buffer' = length Buffer /\
    if negb (forallb (has_wire_form Depth) Objects) then NT_SUCCESS st = false /\ Information = 0 /\ Buffer' = Buffer
    else if OutputLength <? 12 then st = STATUS_BUFFER_TOO_SMALL /\ Information = 0 /\ Buffer' = Buffer
    else if OutputLength <? Required then
      st = STATUS_BUFFER_OVERFLOW /\ Information = 12 /\ Buffer' = output_header Required 0 ++ drop 12 Buffer
    else st = STATUS_SUCCESS /\ Information = Required /\ exists args,
      Buffer' = output_header Required (Z.of_nat (length Objects)) ++ concat args ++ drop (Z.to_nat Required) Buffer /\
      Z.of_nat (length (concat args)) = wire_sizes Objects /\
      Forall2 (wire (Z.to_nat (8 - Depth))) args (map wire_value Objects).
Proof.
  intros Hr HO. unfold UacpiNtWriteEvalOutput. pose proof (output_sizes Result) as Hsz. pose proof (output_depth Result) as Hd.
  destruct (output_objects Result) as [Objects Depth]. cbn [fst snd] in *. pose proof (wire_sizes_pos Objects) as Hp.
  rewrite (sum_sizes_succeeds Depth Objects OUTPUT_Argument).
  destruct (sum_sizes _ Objects OUTPUT_Argument) as [st Required] eqn:Es. cbn [fst]. unfold OUTPUT_Argument in *.
  destruct (NT_SUCCESS st) eqn:Est; simpl negb; cbv iota; [|by eexists _, _, _].
  apply sum_sizes_exact in Es as (-> & -> & Hf); [|apply Forall_forall; intros; apply wire_size_exact|lia|lia|done].
  destruct (OutputLength <? 12) eqn:E12; bool_prop; [by eexists _, _, _|].
  destruct (OutputLength <? _) eqn:Er; bool_prop.
  { rewrite store_output_header_at by lia. cbn [mbind run_bind]. eexists _, _, _. split; [done|].
    split; [|done]. unfold output_header. rewrite !length_app, !length_le_field, length_drop. lia. }
  rewrite store_output_header_at by lia. cbn [mbind run_bind].
  rewrite <- (take_drop (Z.to_nat (wire_sizes Objects)) (drop 12 Buffer)).
  assert (length (take (Z.to_nat (wire_sizes Objects)) (drop 12 Buffer)) = Z.to_nat (wire_sizes Objects)) as Ht
    by (rewrite length_take, length_drop; lia).
  destruct (write_arguments_written Depth Objects) with (T := 0)
    (pre := output_header (12 + wire_sizes Objects) (Z.of_nat (length Objects)))
    (old := take (Z.to_nat (wire_sizes Objects)) (drop 12 Buffer)) (post := drop (Z.to_nat (wire_sizes Objects)) (drop 12 Buffer))
    as (args & Ew & Hl & Hw); [apply Forall_forall; intros; apply object_written|done|lia|lia|done|lia|].
  assert (Z.of_nat (length (output_header (12 + wire_sizes Objects) (Z.of_nat (length Objects)))) = 12) as H12
    by (unfold output_header; rewrite !length_app, !length_le_field; done).
  rewrite H12 in Ew. rewrite Ew. cbn [mbind run_bind]. simpl negb. cbv iota. eexists _, _, _. split; [done|].
  rewrite drop_drop. replace (12 + Z.to_nat (wire_sizes Objects))%nat with (Z.to_nat (12 + wire_sizes Objects)) by lia.
  split; [|split_and!; [done|done|by exists args] ].
  rewrite !length_app, length_drop. lia.
Qed.

(** The reply to an evaluation.  If some part of the result has no wire form
    the call fails and the buffer is left alone.  Otherwise a buffer that cannot
    hold the header is left alone, one that cannot hold the whole gets the header
    with the length needed, and any other gets the header and, one after the
    other, an argument for each object, and nothing past them is touched. *)
Theorem eval_output_exact Result Buffer OutputLength :
  wire_size Result + 12 < 4294967296 -> 0 <= OutputLength <= Z.of_nat (length Buffer) ->
  let Objects := (output_objects Result).1 in
  let Depth := (output_objects Result).2 in
  let Required := 12 + wire_sizes Objects in
  exists st Information Buffer',
    UacpiNtWriteEvalOutput Result (Some Buffer) OutputLength = Done (st, Information, Some Buffer') /\
    length Buffer' = length Buffer /\
    if negb (forallb (has_wire_form Depth) Objects) then NT_SUCCESS st = false /\ Information = 0 /\ Buffer' = Buffer
    else if OutputLength <? 12 then st = STATUS_BUFFER_TOO_SMALL /\ Information = 0 /\ Buffer' = Buffer
    else if OutputLength <? Required then
      st = STATUS_BUFFER_OVERFLOW /\ Information = 12 /\ Buffer' = output_header Required 0 ++ drop 12 Buffer
    else st = STATUS_SUCCESS /\ Information = Required /\ exists args,
      Buffer' = output_header Required (Z.of_nat (length Objects)) ++ concat args ++ drop (Z.to_nat Required) Buffer /\
      Z.of_nat (length (concat args)) = wire_sizes Objects /\
      Forall2 (wire (Z.to_nat (8 - Depth))) args (map wire_value Objects).
Proof. apply write_output_result. Qed.
End Output.

(** ** The input stays inside *)
Section Input.
Context {A : Acpi} {I : AcpiIoct} {L : AcpiIoctLaws} {S : AcpiSignatures}.

(** The published layouts fit in the sizes the code compares with. *)
Definition layout_fits (l : eval_input_layout) : Prop :=
  INPUT_MethodName + Z.of_nat (il_Name l) <= il_Integer l /\
  il_Integer l + Z.of_nat (il_IntegerBytes l) <= il_SizeofInteger l /\
  INPUT_MethodName + Z.of_nat (il_Name l) <= il_SizeofPlain l.

Lemma layouts_fit : layout_fits original_input /\ layout_fits ex_input.
Proof. by vm_compute. Qed.

Lemma method_path_loads l Input :
  INPUT_MethodName + Z.of_nat (il_Name l) <= Z.of_nat (length Input) ->
  method_path l Input = Done (until_nul (take (il_Name l) (drop 4 Input))).
Proof.
  intros H. unfold method_path, load_bytes, INPUT_MethodName in *. change (Z.to_nat 4) with 4%nat.
  destruct (decide _) as [|Hd]; [done|lia].
Qed.

(** Decoding ends, and freeing what it gives leaves nothing behind. *)
Definition decodes (s : eval_state) (r : run (NTSTATUS * list Z * uacpi_object_array * eval_state)) : Prop :=
  exists st Path Args s', r = Done (st, Path, Args, s') /\ balanced s (UacpiNtFreeObjectArray Args s') 0.

Lemma fails_decodes s : decodes s (decode_fails s).
Proof. eexists _, _, _, _. split; [done|]. by split_and!; simpl; try lia. Qed.

Lemma single_decodes o Path s :
  decodes s (let '(Object, s) := uacpi_object_create o s in
             let '(Status, Args, s) := UacpiNtSingleArgument Object s in Done (Status, Path, Args, s)).
Proof.
  unfold uacpi_object_create, UacpiNtSingleArgument, UacpiNtAllocateObjectArray, ExAllocatePoolWithTag.
  destruct (answer_create _ _); cbv zeta; cbn [ev_World];
    destruct (w_pool _ _ _); eexists _, _, _, _; (split; [done|]); split_and!; simpl; lia || done.
Qed.

Context (Input : list Z) (Hbytes : Forall is_byte Input) (Hsmall : Z.of_nat (length Input) < 4294967296).

Lemma load_le_inside n o : 0 <= o -> o + Z.of_nat n <= Z.of_nat (length Input) ->
  exists v, load_le Input n o = Done v /\ 0 <= v < 256 ^ Z.of_nat n.
Proof using Hbytes.
  intros Ho Hn. rewrite load_le_in by lia. eexists. split; [done|].
  pose proof (le_bytes_range (take n (drop (Z.to_nat o) Input))) as Hr.
  rewrite length_take, length_drop, Nat.min_l in Hr by lia. by apply Hr, Forall_take, Forall_drop.
Qed.

Lemma plain_decodes l s : layout_fits l -> decodes s (decode_plain l Input s).
Proof using.
  intros (_ & _ & H). unfold decode_plain. destruct (_ <? _) eqn:E; bool_prop; [apply fails_decodes|].
  rewrite method_path_loads by lia. eexists _, _, _, _. split; [done|]. by split_and!; simpl; try lia.
Qed.

Lemma integer_decodes l s : layout_fits l -> decodes s (decode_integer l Input s).
Proof using Hbytes.
  intros (H1 & H2 & _). unfold decode_integer, INPUT_MethodName in *. destruct (_ <? _) eqn:E; bool_prop; [apply fails_decodes|].
  rewrite method_path_loads by (unfold INPUT_MethodName; lia). cbn [mbind run_bind].
  destruct (load_le_inside (il_IntegerBytes l) (il_Integer l)) as (v & -> & _); [lia|lia|]. apply single_decodes.
Qed.

Lemma string_decodes l s : decodes s (decode_string l Input s).
Proof using Hbytes.
  unfold decode_string, after_name, INPUT_MethodName. cbv zeta. destruct (_ <? _) eqn:E; bool_prop; [apply fails_decodes|].
  destruct (load_le_inside 4 (4 + Z.of_nat (il_Name l))) as (n & -> & Hn); [lia|lia|]. cbn [mbind run_bind].
  unfold UacpiNtStringArgumentValid. destruct (n =? 0) eqn:E0; bool_prop; [apply fails_decodes|].
  destruct (_ <? n) eqn:E1; bool_prop; [apply fails_decodes|].
  set (o := 4 + Z.of_nat (il_Name l) + 4) in *.
  destruct (lookup_lt_is_Some_2 Input (Z.to_nat (o + n - 1))) as [b Hb]; [lia|].
  rewrite (load_in _ _ b) by (lia || done). cbn [mbind run_bind]. destruct (b =? 0) eqn:Eb; [|apply fails_decodes].
  simpl negb. cbv iota. apply Z.eqb_eq in Eb as ->.
  rewrite method_path_loads by (unfold INPUT_MethodName; lia). cbn [mbind run_bind].
  assert (within Input o n) as Hw by (unfold within; lia).
  destruct (until_nul_split (view Input o n)) as (r & Hr & Hf).
  { apply list_elem_of_lookup. exists (Z.to_nat (n - 1)). unfold view.
    rewrite lookup_take_lt, lookup_drop by lia. rewrite <- Hb. f_equal. lia. }
  pose proof (load_cstring_view Input [] _ r o n 0 Hw Hr Hf eq_refl) as Ec. rewrite Z.add_0_r in Ec. rewrite Ec.
  apply single_decodes.
Qed.

Lemma complex_decodes l s : decodes s (decode_complex l Input s).
Proof using Hbytes Hsmall L.
  unfold decode_complex, after_name, INPUT_MethodName. cbv zeta. destruct (_ <? _) eqn:E; bool_prop; [apply fails_decodes|].
  destruct (load_le_inside 4 (4 + Z.of_nat (il_Name l))) as (n & -> & Hn); [lia|lia|]. cbn [mbind run_bind].
  destruct (_ <? n) eqn:E0; bool_prop; [apply fails_decodes|].
  rewrite method_path_loads by (unfold INPUT_MethodName; lia). cbn [mbind run_bind].
  destruct (load_le_inside 4 (4 + Z.of_nat (il_Name l) + 4)) as (c & -> & Hc); [lia|lia|]. cbn [mbind run_bind].
  destruct (arguments_to_objects_sound Input 8 (argument_converter Input argument_fuel 0)
     (4 + Z.of_nat (il_Name l) + 8) c (Z.of_nat (length Input) - (4 + Z.of_nat (il_Name l) + 8)) s)
    as (st & Array & s' & Ea & Hb & _); [by apply converter_reads|unfold within; lia|lia|lia|].
  unfold UacpiNtArgumentsToObjects. unfold argument_converter in Ea. rewrite Ea. cbn [mbind run_bind].
  by eexists _, _, _, _.
Qed.

Lemma input_decodes s : decodes s (UacpiNtDecodeEvalInput Input s).
Proof using Hbytes Hsmall L.
  destruct layouts_fit. unfold UacpiNtDecodeEvalInput. destruct (_ <? 4) eqn:E; bool_prop; [apply fails_decodes|].
  destruct (load_le_inside 4 0) as (sig & -> & _); [lia|lia|]. cbn [mbind run_bind].
  repeat case_match; auto using fails_decodes, plain_decodes, integer_decodes, string_decodes, complex_decodes.
Qed.
End Input.

(** ** The call *)
Section Call.
Context {A : Acpi} {I : AcpiIoct} {L : AcpiIoctLaws} {S : AcpiSignatures}.

(** What a method gives takes less than 4 GB on the wire. *)
Definition results_below_4GB : Prop :=
  forall h n path args st o, answer_eval h n path args = (st, Some o) -> wire_size o + 12 < 4294967296.

(** METHOD_BUFFERED: one system buffer with room for the input and the output. *)
Definition call_buffer (SystemBuffer : option (list Z)) (InputLength OutputLength : Z) : Prop :=
  match SystemBuffer with
  | None => InputLength = 0 /\ OutputLength = 0
  | Some Buffer => 0 <= InputLength < 4294967296 /\ InputLength <= Z.of_nat (length Buffer) /\
      0 <= OutputLength <= Z.of_nat (length Buffer) /\ Forall is_byte Buffer
  end.

(** The reply is within the caller's output buffer and nothing behind it changed. *)
Definition reply_fits (SystemBuffer SystemBuffer' : option (list Z)) (OutputLength Information : Z) : Prop :=
  0 <= Information <= OutputLength /\
  match SystemBuffer, SystemBuffer' with
  | None, None => True
  | Some Buffer, Some Buffer' =>
      length Buffer' = length Buffer /\ drop (Z.to_nat OutputLength) Buffer' = drop (Z.to_nat OutputLength) Buffer
  | _, _ => False
  end.

Lemma reply_fits_same SystemBuffer In Out : call_buffer SystemBuffer In Out -> reply_fits SystemBuffer SystemBuffer Out 0.
Proof. unfold call_buffer, reply_fits. destruct SystemBuffer; intuition lia. Qed.

Lemma drop_past {T} (l l' : list T) (n m : nat) : (length l = n)%nat -> (n <= m)%nat -> drop m (l ++ l') = drop (m - n) l'.
Proof. intros <- H. rewrite drop_app_ge by done. done. Qed.

Lemma write_output_fits Result SystemBuffer In Out :
  wire_size Result + 12 < 4294967296 -> call_buffer SystemBuffer In Out ->
  exists st Information SystemBuffer', UacpiNtWriteEvalOutput Result SystemBuffer Out = Done (st, Information, SystemBuffer') /\
    reply_fits SystemBuffer SystemBuffer' Out Information.
Proof.
  intros Hr Hc. destruct SystemBuffer as [Buffer|].
  2:{ unfold UacpiNtWriteEvalOutput. destruct (output_objects Result). destruct (sum_sizes _ _ _) as [st sz].
      destruct Hc as [-> ->]. destruct (negb _); eexists _, _, _; (split; [done|]); split; (lia || done). }
  pose proof Hc as (HI & HI2 & HO & Hb). destruct (write_output_result Result Buffer Out Hr HO) as (st & Inf & B' & -> & Hl & Hcase).
  eexists _, _, _. split; [done|]. set (Objects := (output_objects Result).1) in *. pose proof (wire_sizes_pos Objects) as Hp.
  assert (forall R C, length (output_header R C) = 12%nat) as Hh
    by (intros; unfold output_header; by rewrite !length_app, !length_le_field).
  destruct (negb _); [destruct Hcase as (_ & -> & ->); by eapply reply_fits_same|].
  destruct (Out <? 12) eqn:E12; bool_prop; [destruct Hcase as (_ & -> & ->); by eapply reply_fits_same|].
  destruct (Out <? _) eqn:ER; bool_prop.
  - destruct Hcase as (_ & -> & ->). split; [lia|]. split; [done|].
    rewrite (drop_past _ _ 12), drop_drop by (done || lia). f_equal. lia.
  - destruct Hcase as (_ & -> & args & -> & Hla & _). split; [lia|]. split; [done|].
    rewrite (drop_past _ _ 12), (drop_past (concat args) _ (Z.to_nat (wire_sizes Objects))), drop_drop by (done || lia).
    f_equal. lia.
Qed.

Lemma evaluate_decoded_fits Node Path Args SystemBuffer In Out s :
  results_below_4GB -> call_buffer SystemBuffer In Out ->
  exists st Information SystemBuffer' s',
    evaluate_decoded Node Path Args SystemBuffer Out s = Done (st, Information, SystemBuffer', s') /\
    reply_fits SystemBuffer SystemBuffer' Out Information /\
    ev_Refs s' = ev_Refs s /\ ev_World s' = ev_World s /\
    ev_Calls s' = CallEval Node (text_of_bytes (trim_path Path)) (omap id (default [] Args)) :: ev_Calls s.
Proof.
  intros Hr Hc. unfold evaluate_decoded, uacpi_eval.
  destruct (answer_eval _ _ _ _) as [ust Result] eqn:Ea. pose proof (reply_fits_same _ _ _ Hc) as Hsame.
  destruct (uacpi_unlikely_error ust).
  { cbn [mbind run_bind]. eexists _, _, _, _. split; [done|]. split; [done|]. destruct Result; simpl; split_and!; lia || done. }
  destruct Result as [o|]; cbn [mbind run_bind].
  2:{ eexists _, _, _, _. split; [done|]. by split_and!. }
  destruct (write_output_fits o SystemBuffer In Out) as (st & Inf & SB & -> & Hf); [by eapply Hr|done|].
  cbn [mbind run_bind]. eexists _, _, _, _. split; [done|]. split_and!; simpl; try done. lia.
Qed.

Lemma evaluate_fits Ready Node SystemBuffer InputLength OutputLength s :
  results_below_4GB -> call_buffer SystemBuffer InputLength OutputLength ->
  exists st Information SystemBuffer' s',
    UacpiNtEvaluate Ready Node SystemBuffer InputLength OutputLength s = Done (st, Information, SystemBuffer', s') /\
    reply_fits SystemBuffer SystemBuffer' OutputLength Information /\
    ev_Refs s' = ev_Refs s /\ w_live (ev_World s') = w_live (ev_World s) /\
    (ev_Calls s' = ev_Calls s \/ exists path args, ev_Calls s' = CallEval Node path args :: ev_Calls s).
Proof.
  intros Hr Hc. pose proof (reply_fits_same _ _ _ Hc) as Hsame. unfold UacpiNtEvaluate.
  assert (decodes s (if (Node =? NULL) || negb Ready then Done (STATUS_DEVICE_NOT_READY, [], None, s)
     else UacpiNtDecodeEvalInput (take (Z.to_nat InputLength) (default [] SystemBuffer)) s)) as Hd.
  { destruct (_ || _); [eexists _, _, _, _; split; [done|]; by split_and!; simpl; try lia|].
    destruct SystemBuffer as [B|]; simpl in *.
    - destruct Hc as (? & ? & ? & Hb). apply input_decodes; [by apply Forall_take|rewrite length_take; lia].
    - destruct Hc as [-> ->]. apply input_decodes; [done|simpl; lia]. }
  destruct Hd as (st & Path & Args & s1 & -> & B1 & B2 & B3 & B4). cbn [mbind run_bind].
  assert (ev_Calls s1 = ev_Calls s) as Hcalls by (by destruct Args).
  destruct (NT_SUCCESS st).
  2:{ cbn [mbind run_bind]. eexists _, _, _, _. split; [done|]. split; [apply Hsame|]. split; [lia|]. split; [done|]. left. by destruct Args. }
  destruct (evaluate_decoded_fits Node Path Args SystemBuffer InputLength OutputLength s1 Hr Hc)
    as (st2 & Inf & SB & s2 & -> & Hf & HR & HW & HC). cbn [mbind run_bind].
  eexists _, _, _, _. split; [done|]. split; [apply Hf|]. split_and!.
  - destruct Args; simpl in *; lia.
  - destruct Args; simpl in *; rewrite HW; lia.
  - right. eexists _, _. rewrite <- Hcalls, <- HC. by destruct Args.
Qed.

(** C18.  An evaluation call is safe for any caller and any firmware whose results
    stay below 4 GB: every read is inside the input and every write inside the
    output buffer, it ends, the bytes reported are within the output buffer, no
    reference and no block is left behind on any path, and the interpreter is
    entered at most once. *)
Theorem evaluate_is_safe Ready Node SystemBuffer InputLength OutputLength s :
  results_below_4GB -> call_buffer SystemBuffer InputLength OutputLength ->
  exists st Information SystemBuffer' s',
    UacpiNtEvaluate Ready Node SystemBuffer InputLength OutputLength s = Done (st, Information, SystemBuffer', s') /\
    reply_fits SystemBuffer SystemBuffer' OutputLength Information /\
    ev_Refs s' = ev_Refs s /\ w_live (ev_World s') = w_live (ev_World s) /\
    (ev_Calls s' = ev_Calls s \/ exists path args, ev_Calls s' = CallEval Node path args :: ev_Calls s).
Proof. apply evaluate_fits. Qed.
End Call.

(** ** A well-formed call *)
Section Complex.
Context {A : Acpi} {I : AcpiIoct} {L : AcpiIoctLaws} {S : AcpiSignatures} {SL : AcpiSignaturesLaws}.

(** Four kinds of input, each in the original form with names of four characters
    and in the _EX form. *)
Inductive eval_kind := EvalPlain | EvalInteger | EvalString | EvalComplex.

Definition eval_signature (k : eval_kind) (ex : bool) : Z :=
  match k with
  | EvalPlain => if ex then ACPI_EVAL_INPUT_BUFFER_SIGNATURE_EX else ACPI_EVAL_INPUT_BUFFER_SIGNATURE
  | EvalInteger => if ex then ACPI_EVAL_INPUT_BUFFER_SIMPLE_INTEGER_SIGNATURE_EX
                   else ACPI_EVAL_INPUT_BUFFER_SIMPLE_INTEGER_SIGNATURE
  | EvalString => if ex then ACPI_EVAL_INPUT_BUFFER_SIMPLE_STRING_SIGNATURE_EX
                  else ACPI_EVAL_INPUT_BUFFER_SIMPLE_STRING_SIGNATURE
  | EvalComplex => if ex then ACPI_EVAL_INPUT_BUFFER_COMPLEX_SIGNATURE_EX
                   else ACPI_EVAL_INPUT_BUFFER_COMPLEX_SIGNATURE
  end.

(** What follows the name in a call with the objects [objs]: nothing; an integer of
    32 bits, or after four bytes one of 64; a length and a string with its NUL; the
    size of the buffer, a count and the arguments. *)
Inductive call_body (ex : bool) : eval_kind -> list Z -> list uacpi_object -> Prop :=
| body_plain : call_body ex EvalPlain [] []
| body_integer pad Value :
    length pad = (if ex then 4 else 0)%nat -> 0 <= Value < 256 ^ (if ex then 8 else 4) ->
    call_body ex EvalInteger (pad ++ le_field (if ex then 8 else 4) Value) [UACPI_OBJECT_INTEGER Value]
| body_string Text :
    Forall (fun b => b <> 0) Text ->
    call_body ex EvalString (le_field 4 (Z.of_nat (length Text) + 1) ++ Text ++ [0]) [UACPI_OBJECT_STRING false (text_of_bytes Text)]
| body_complex Size args objs :
    0 <= Size <= (if ex then 268 else 16) + Z.of_nat (length (concat args)) ->
    Z.of_nat (length objs) < 4294967296 -> Forall2 (wire 8) args objs ->
    call_body ex EvalComplex (le_field 4 Size ++ le_field 4 (Z.of_nat (length objs)) ++ concat args) objs.

Definition eval_layout (ex : bool) : eval_input_layout := if ex then ex_input else original_input.

Definition decode_kind (k : eval_kind) (l : eval_input_layout) (Input : list Z) (s : eval_state) :
  run (NTSTATUS * list Z * uacpi_object_array * eval_state) :=
  match k with
  | EvalPlain => decode_plain l Input s
  | EvalInteger => decode_integer l Input s
  | EvalString => decode_string l Input s
  | EvalComplex => decode_complex l Input s
  end.

Lemma signature_fits k ex : 0 <= eval_signature k ex < 4294967296.
Proof.
  pose proof signatures_fit as H. rewrite !Forall_cons in H. destruct H as (?&?&?&?&?&?&?&?&_). by destruct k, ex.
Qed.

Lemma kind_dispatch k ex Input s :
  4 <= Z.of_nat (length Input) -> load_le Input 4 0 = Done (eval_signature k ex) ->
  UacpiNtDecodeEvalInput Input s = decode_kind k (eval_layout ex) Input s.
Proof.
  intros Hl E. unfold UacpiNtDecodeEvalInput. destruct (_ <? 4) eqn:E4; bool_prop; [lia|]. rewrite E. cbn [mbind run_bind].
  pose proof signatures_differ as Hd. rewrite !NoDup_cons, !elem_of_cons in Hd.
  destruct k, ex; simpl in *; repeat case_match; bool_prop; try done; exfalso; intuition congruence.
Qed.

(** A field read where it lies. *)
Lemma load_field Input pre n v post :
  Input = pre ++ le_field n v ++ post -> 0 <= v < 256 ^ Z.of_nat n -> load_le Input n (Z.of_nat (length pre)) = Done v.
Proof.
  intros -> Hv. assert (within (pre ++ le_field n v ++ post) 0 (Z.of_nat (length (pre ++ le_field n v ++ post)))) as H by (unfold within; lia).
  pose proof (load_le_view _ pre (le_field n v) post 0 _ n (Z.of_nat (length pre)) H) as E.
  rewrite Z.add_0_l in E. rewrite E; [f_equal; by apply le_bytes_field|unfold view; rewrite Nat2Z.id; apply firstn_all|by rewrite length_le_field|done].
Qed.

Lemma load_field_at Input pre n v post Offset :
  Input = pre ++ le_field n v ++ post -> Offset = Z.of_nat (length pre) -> 0 <= v < 256 ^ Z.of_nat n ->
  load_le Input n Offset = Done v.
Proof. intros E -> Hv. by apply (load_field Input pre n v post). Qed.

(** The spaces a name is padded with go, and nothing else. *)
Lemma trim_padded p k : last p <> Some 32 -> trim_path (p ++ replicate k 32) = p.
Proof.
  intros Hp. unfold trim_path. rewrite reverse_app.
  assert (reverse (replicate k 32) = replicate k 32) as ->.
  { induction k as [|k IH]; [done|]. rewrite replicate_S_end, reverse_app, IH at 1. done. }
  induction k as [|k IH]; [|done]. simpl.
  destruct (reverse p) as [|b r] eqn:E; [by rewrite <- (reverse_involutive p), E|]. simpl.
  destruct (b =? 32) eqn:Eb; bool_prop; [|by rewrite <- E, reverse_involutive].
  exfalso. apply Hp. rewrite <- (reverse_involutive p), E, reverse_cons, last_snoc. by subst.
Qed.

Lemma single_suffices o s : memory_suffices s ->
  exists s', UacpiNtSingleArgument (Some o) s = (STATUS_SUCCESS, Some [Some o], s').
Proof.
  intros [_ H]. unfold UacpiNtSingleArgument, UacpiNtAllocateObjectArray, ExAllocatePoolWithTag. rewrite H. by eexists.
Qed.

Lemma decode_string_exact ex Name Text rest s : length Name = il_Name (eval_layout ex) -> Forall (fun b => b <> 0) Text ->
  let Input := le_field 4 (eval_signature EvalString ex) ++ Name ++ (le_field 4 (Z.of_nat (length Text) + 1) ++ Text ++ [0]) ++ rest in
  Z.of_nat (length Input) < 4294967296 -> memory_suffices s ->
  exists s', decode_string (eval_layout ex) Input s =
    Done (STATUS_SUCCESS, until_nul Name, array_of [UACPI_OBJECT_STRING false (text_of_bytes Text)], s').
Proof.
  intros HN HT Input HL Hm. set (l := eval_layout ex) in *. set (SL4 := le_field 4 _) in Input at 2.
  set (hd := le_field 4 (eval_signature EvalString ex) ++ Name).
  assert (Input = hd ++ SL4 ++ Text ++ 0 :: rest) as EI by (unfold Input, hd; by rewrite <- !app_assoc).
  assert (length hd = (4 + il_Name l)%nat) as Hhd by (unfold hd; by rewrite length_app, length_le_field, HN).
  assert (length (hd ++ SL4) = (4 + il_Name l + 4)%nat) as Hhd2 by (unfold SL4; by rewrite length_app, length_le_field, Hhd).
  assert (length Input = (4 + il_Name l + 4 + length Text + 1 + length rest)%nat) as Hlen.
  { rewrite EI, app_assoc, length_app, Hhd2, length_app. simpl. lia. }
  unfold decode_string, after_name, INPUT_MethodName. destruct (_ <? _) eqn:E; bool_prop; [lia|].
  rewrite (load_field_at Input hd 4 (Z.of_nat (length Text) + 1) (Text ++ 0 :: rest)) by (done || lia). cbn [mbind run_bind].
  unfold UacpiNtStringArgumentValid. destruct (_ =? 0) eqn:E1; bool_prop; [lia|].
  destruct (_ <? _) eqn:E2; bool_prop; [lia|].
  assert (load Input (4 + Z.of_nat (il_Name l) + 4 + (Z.of_nat (length Text) + 1) - 1) = Done 0) as ->.
  { rewrite EI, app_assoc, app_assoc. apply (load_nth _ _ 0); [done|]. rewrite length_app, Hhd2. lia. }
  cbn [mbind run_bind negb Z.eqb].
  rewrite method_path_loads by (unfold INPUT_MethodName; lia). cbn [mbind run_bind].
  assert (load_cstring (Datatypes.S (length Input)) Input (4 + Z.of_nat (il_Name l) + 4) = Done Text) as ->.
  { set (n := Datatypes.S _). rewrite EI, app_assoc. apply load_cstring_in; [rewrite Hhd2; lia|done|unfold n; lia]. }
  cbn [mbind run_bind].
  destruct (create_suffices (UACPI_OBJECT_STRING false (text_of_bytes Text)) s Hm) as (s1 & -> & Hm1).
  destruct (single_suffices (UACPI_OBJECT_STRING false (text_of_bytes Text)) s1 Hm1) as (s2 & ->).
  exists s2. do 4 f_equal. rewrite EI. unfold hd. f_equal. rewrite <- !app_assoc, drop_app_length' by done. by apply take_app_length'.
Qed.

Lemma decode_integer_exact ex Name pad Value rest s : length Name = il_Name (eval_layout ex) ->
  length pad = (if ex then 4 else 0)%nat -> 0 <= Value < 256 ^ (if ex then 8 else 4) ->
  let Input := le_field 4 (eval_signature EvalInteger ex) ++ Name ++ (pad ++ le_field (if ex then 8 else 4) Value) ++ rest in
  memory_suffices s ->
  exists s', decode_integer (eval_layout ex) Input s =
    Done (STATUS_SUCCESS, until_nul Name, array_of [UACPI_OBJECT_INTEGER Value], s').
Proof.
  intros HN Hpad HV Input Hm. set (l := eval_layout ex) in *.
  set (hd := le_field 4 (eval_signature EvalInteger ex) ++ Name ++ pad).
  assert (Input = hd ++ le_field (il_IntegerBytes l) Value ++ rest) as EI
    by (unfold Input, hd, l; destruct ex; by rewrite <- !app_assoc).
  assert (Z.of_nat (length hd) = il_Integer l) as Hhd
    by (unfold hd; rewrite !length_app, length_le_field, HN, Hpad; unfold l; by destruct ex).
  assert (Z.of_nat (length Input) = il_SizeofInteger l + Z.of_nat (length rest)) as Hlen.
  { rewrite EI, !length_app, length_le_field. unfold l in *. destruct ex; simpl in *; lia. }
  unfold decode_integer. destruct (_ <? _) eqn:E; bool_prop; [lia|].
  rewrite method_path_loads by (unfold INPUT_MethodName; unfold l in *; destruct ex; simpl in *; lia). cbn [mbind run_bind].
  rewrite (load_field_at Input hd (il_IntegerBytes l) Value rest) by (done || (unfold l; by destruct ex)). cbn [mbind run_bind].
  destruct (create_suffices (UACPI_OBJECT_INTEGER Value) s Hm) as (s1 & -> & Hm1).
  destruct (single_suffices (UACPI_OBJECT_INTEGER Value) s1 Hm1) as (s2 & ->).
  exists s2. do 4 f_equal. rewrite EI. unfold hd. f_equal. rewrite <- !app_assoc, drop_app_length' by done. by apply take_app_length'.
Qed.

Lemma decode_complex_exact ex Name Size args objs rest s : length Name = il_Name (eval_layout ex) ->
  let Input := le_field 4 (eval_signature EvalComplex ex) ++ Name ++
    (le_field 4 Size ++ le_field 4 (Z.of_nat (length objs)) ++ concat args) ++ rest in
  0 <= Size <= Z.of_nat (length Input) -> Z.of_nat (length Input) < 4294967296 ->
  Z.of_nat (length objs) < 4294967296 -> Forall2 (wire 8) args objs -> memory_suffices s ->
  exists s', decode_complex (eval_layout ex) Input s = Done (STATUS_SUCCESS, until_nul Name, array_of objs, s').
Proof.
  intros HN Input HS HL Hc Hw Hm. set (l := eval_layout ex) in *.
  set (hd := le_field 4 (eval_signature EvalComplex ex) ++ Name).
  set (hd2 := hd ++ le_field 4 Size ++ le_field 4 (Z.of_nat (length objs))).
  assert (Input = hd ++ le_field 4 Size ++ le_field 4 (Z.of_nat (length objs)) ++ concat args ++ rest) as EI
    by (unfold Input, hd; by rewrite <- !app_assoc).
  assert (length hd = (4 + il_Name l)%nat) as Hhd by (unfold hd; by rewrite length_app, length_le_field, HN).
  assert (length hd2 = (4 + il_Name l + 8)%nat) as Hhd2 by (unfold hd2; rewrite !length_app, !length_le_field, Hhd; lia).
  assert (Input = hd2 ++ concat args ++ rest) as EI2 by (rewrite EI; unfold hd2; by rewrite <- !app_assoc).
  assert (Z.of_nat (length Input) = 4 + Z.of_nat (il_Name l) + 8 + Z.of_nat (length (concat args ++ rest))) as Hlen.
  { rewrite EI2, length_app, Hhd2. lia. }
  assert (within Input 0 (Z.of_nat (length Input))) as H0 by (unfold within; lia).
  assert (view Input 0 (Z.of_nat (length Input)) = hd2 ++ concat args ++ rest) as Ev
    by (unfold view; rewrite Nat2Z.id, EI2; apply firstn_all).
  unfold decode_complex, after_name, INPUT_MethodName. destruct (_ <? _) eqn:E; bool_prop; [lia|].
  rewrite (load_field_at Input hd 4 Size (le_field 4 (Z.of_nat (length objs)) ++ concat args ++ rest) (4 + Z.of_nat (il_Name l))) by (done || lia). cbn [mbind run_bind].
  destruct (_ <? Size) eqn:E3; bool_prop; [lia|].
  rewrite method_path_loads by (unfold INPUT_MethodName; lia). cbn [mbind run_bind].
  rewrite (load_field_at Input (hd ++ le_field 4 Size) 4 (Z.of_nat (length objs)) (concat args ++ rest) (4 + Z.of_nat (il_Name l) + 4))
    by (lia || (rewrite EI, <- !app_assoc; done) || (rewrite length_app, length_le_field; lia)). cbn [mbind run_bind].
  destruct (arguments_to_objects_complete Input 8 (argument_converter Input argument_fuel 0) (4 + Z.of_nat (il_Name l) + 8)
     (Z.of_nat (length Input) - (4 + Z.of_nat (il_Name l) + 8)) s args objs rest) as (s' & Ea & _);
    [exact (converter_finds Input argument_fuel 0 ltac:(lia) ltac:(done))|done|unfold within; lia|lia| |done|].
  { replace (4 + Z.of_nat (il_Name l) + 8) with (0 + Z.of_nat (length hd2)) by lia.
    rewrite Z.add_0_l at 2. exact (proj1 (view_next _ _ _ _ _ H0 Ev)). }
  unfold UacpiNtArgumentsToObjects. unfold argument_converter in Ea. rewrite Ea. cbn [mbind run_bind].
  exists s'. do 4 f_equal. rewrite EI. unfold hd. f_equal.
  rewrite <- !app_assoc, drop_app_length' by done. by apply take_app_length'.
Qed.

Lemma decode_exact k ex Name body objs rest s : call_body ex k body objs -> length Name = il_Name (eval_layout ex) ->
  let Input := le_field 4 (eval_signature k ex) ++ Name ++ body ++ rest in
  Z.of_nat (length Input) < 4294967296 -> memory_suffices s ->
  exists s', UacpiNtDecodeEvalInput Input s = Done (STATUS_SUCCESS, until_nul Name, array_of objs, s').
Proof.
  intros Hb HN Input HL Hm.
  assert (Z.of_nat (length Input) = 4 + Z.of_nat (il_Name (eval_layout ex)) + Z.of_nat (length (body ++ rest))) as Hlen.
  { unfold Input. rewrite length_app, length_le_field, length_app, HN. lia. }
  rewrite (kind_dispatch k ex) by (lia || exact (load_field Input [] 4 _ _ eq_refl (signature_fits k ex))).
  destruct Hb as [|pad Value Hp HV|Text HT|Size args objs HS Hc Hw]; simpl decode_kind.
  - exists s. unfold decode_plain. destruct (_ <? _) eqn:E; bool_prop; [destruct ex; simpl in *; lia|].
    rewrite method_path_loads by (unfold INPUT_MethodName; lia). cbn [mbind run_bind]. do 4 f_equal.
    unfold Input. f_equal. rewrite drop_app_length' by done. by apply take_app_length'.
  - by apply decode_integer_exact.
  - by apply decode_string_exact.
  - apply decode_complex_exact; try done. fold Input. rewrite Hlen, !length_app, !length_le_field. destruct ex; simpl; lia.
Qed.

(** C19.  A well-formed call of any of the eight forms - without arguments, with
    an integer, a string or a list of arguments, each with a name of four characters or
    with a path - reaches the interpreter as it was meant, when no allocation is
    refused: the method of the node with the name, without the spaces it is padded
    with, is entered once with the objects the arguments stand for, in their order,
    and the reply is made of what it gives. *)
Theorem evaluate_calls_method k ex Name method n body objs rest room Node OutputLength s :
  call_body ex k body objs -> length Name = il_Name (eval_layout ex) ->
  until_nul Name = method ++ replicate n 32 -> last method <> Some 32 ->
  let Input := le_field 4 (eval_signature k ex) ++ Name ++ body ++ rest in
  Forall is_byte Input -> Z.of_nat (length Input) < 4294967296 -> memory_suffices s -> Node <> NULL ->
  let path := text_of_bytes method in
  let '(UacpiStatus, Result) := answer_eval (ev_Calls s) Node path objs in
  forall reply,
  (if uacpi_unlikely_error UacpiStatus then Done (eval_status UacpiStatus, 0, Some (Input ++ room))
   else match Result with
        | Some o => UacpiNtWriteEvalOutput o (Some (Input ++ room)) OutputLength
        | None => Done (STATUS_SUCCESS, 0, Some (Input ++ room))
        end) = Done reply ->
  exists s', UacpiNtEvaluate true Node (Some (Input ++ room)) (Z.of_nat (length Input)) OutputLength s = Done (reply, s') /\
    ev_Calls s' = CallEval Node path objs :: ev_Calls s.
Proof.
  intros Hf HN Hname Hlast Input Hb HL Hm Hnode path. destruct (answer_eval _ _ _ _) as [ust Result] eqn:Ea.
  intros [ [st Inf] SB] Hreply. unfold UacpiNtEvaluate.
  destruct (Node =? NULL) eqn:E; bool_prop; [done|]. simpl orb. cbv iota.
  change (default [] (Some (Input ++ room))) with (Input ++ room). rewrite Nat2Z.id, take_app_length.
  destruct (decode_exact k ex Name body objs rest s Hf HN HL Hm) as (s1 & E1).
  destruct (input_decodes Input Hb HL s) as (st' & Path' & Args' & s1' & E1' & _ & _ & Hcalls & _).
  fold Input in E1. rewrite E1 in E1'. injection E1' as <- <- <- <-. rewrite E1. cbn [mbind run_bind].
  simpl NT_SUCCESS. cbv iota. unfold evaluate_decoded, uacpi_eval.
  assert (ev_Calls s1 = ev_Calls s) as Hc1 by (by destruct objs).
  assert (omap id (default [] (array_of objs)) = objs) as Ho by (destruct objs; [done|apply objects_some]).
  rewrite Hname, trim_padded by done. fold path. rewrite Ho, Hc1, Ea.
  destruct (uacpi_unlikely_error ust); [|destruct Result as [o|] ].
  - injection Hreply as <- <- <-. cbn [mbind run_bind]. eexists. split; [done|]. destruct objs, Result; done.
  - rewrite Hreply. cbn [mbind run_bind]. eexists. split; [done|]. by destruct objs.
  - injection Hreply as <- <- <-. cbn [mbind run_bind]. eexists. split; [done|]. by destruct objs.
Qed.
End Complex.

(** ** Examples *)

Definition acpiioct_signatures : AcpiSignatures := {|
  ACPI_EVAL_INPUT_BUFFER_SIGNATURE := 1;
  ACPI_EVAL_INPUT_BUFFER_SIMPLE_INTEGER_SIGNATURE := 2;
  ACPI_EVAL_INPUT_BUFFER_SIMPLE_STRING_SIGNATURE := 3;
  ACPI_EVAL_INPUT_BUFFER_COMPLEX_SIGNATURE := 4;
  ACPI_EVAL_INPUT_BUFFER_SIGNATURE_EX := 5;
  ACPI_EVAL_INPUT_BUFFER_SIMPLE_INTEGER_SIGNATURE_EX := 6;
  ACPI_EVAL_INPUT_BUFFER_SIMPLE_STRING_SIGNATURE_EX := 7;
  ACPI_EVAL_INPUT_BUFFER_COMPLEX_SIGNATURE_EX := 8;
  ACPI_EVAL_OUTPUT_BUFFER_SIGNATURE := 9
|}.

Lemma acpiioct_signatures_laws : @AcpiSignaturesLaws acpiioct_signatures.
Proof.
  split; [|repeat (apply Forall_cons_2; [simpl; lia|]); apply Forall_nil_2]. apply NoDup_ListNoDup.
  repeat (apply List.NoDup_cons; [simpl; lia|]). apply List.NoDup_nil.
Qed.

(** Node 5 has a method FOO that gives the number 6 and one byte. *)
Definition eval_acpi : Acpi :=
  scripted_acpi [(5, "FOO"%string, UACPI_OBJECT_PACKAGE [UACPI_OBJECT_INTEGER 6; UACPI_OBJECT_BUFFER [9]])] [] [].

Lemma eval_acpi_results : @results_below_4GB eval_acpi.
Proof.
  intros h n path args st o. simpl. destruct (_ && _); [|done]. intros [= _ <-]. by vm_compute.
Qed.

(** FOO with the argument 7, and room behind the input. *)
Definition eval_input : list Z :=
  le_field 4 4 ++ [70; 79; 79; 32] ++ le_field 4 24 ++ le_field 4 1 ++ [0; 0; 4; 0; 7; 0; 0; 0].
Definition eval_buffer : list Z := eval_input ++ replicate 8 255.

Lemma eval_output_exact_witness : exists Buffer',
  @UacpiNtWriteEvalOutput acpiioct_h acpiioct_signatures (UACPI_OBJECT_INTEGER 6) (Some (replicate 22 255)) 21 =
    Done (STATUS_SUCCESS, 20, Some Buffer') /\ drop 20 Buffer' = [255; 255].
Proof.
  destruct (@eval_output_exact acpiioct_h acpiioct_laws acpiioct_signatures (UACPI_OBJECT_INTEGER 6) (replicate 22 255) 21)
    as (st & Inf & B & E & _); [by vm_compute|simpl; lia|].
  vm_compute in E. injection E as <- <- <-. eexists. split; [by vm_compute|done].
Defined.

Lemma evaluate_is_safe_witness : exists st Information SystemBuffer' s',
  @UacpiNtEvaluate eval_acpi acpiioct_h acpiioct_signatures true 5 (Some eval_buffer) 24 32 fresh_eval =
    Done (st, Information, SystemBuffer', s') /\
  reply_fits (Some eval_buffer) SystemBuffer' 32 Information /\ ev_Refs s' = 0 /\ w_live (ev_World s') = 0.
Proof.
  destruct (@evaluate_is_safe eval_acpi acpiioct_h acpiioct_laws acpiioct_signatures true 5 (Some eval_buffer) 24 32 fresh_eval)
    as (st & Inf & SB & s' & E & Hf & HR & HW & _).
  - exact eval_acpi_results.
  - unfold call_buffer, eval_buffer, eval_input. simpl. split_and!; try lia. by apply bytes_check.
  - by exists st, Inf, SB, s'.
Defined.

(** The reply: the header, the number and the byte with its padding. *)
Definition eval_reply : list Z :=
  le_field 4 9 ++ le_field 4 28 ++ le_field 4 2 ++ [0; 0; 4; 0; 6; 0; 0; 0; 2; 0; 1; 0; 9; 255; 255; 255] ++ replicate 4 255.

Lemma evaluate_calls_method_witness : exists s',
  @UacpiNtEvaluate eval_acpi acpiioct_h acpiioct_signatures true 5 (Some eval_buffer) 24 32 fresh_eval =
    Done (STATUS_SUCCESS, 28, Some eval_reply, s') /\
  ev_Calls s' = [CallEval 5 "FOO"%string [UACPI_OBJECT_INTEGER 7] ].
Proof.
  apply (@evaluate_calls_method eval_acpi acpiioct_h acpiioct_laws acpiioct_signatures acpiioct_signatures_laws
    EvalComplex false [70; 79; 79; 32] [70; 79; 79] 1 (le_field 4 24 ++ le_field 4 1 ++ [0; 0; 4; 0; 7; 0; 0; 0])
    [UACPI_OBJECT_INTEGER 7] [] (replicate 8 255) 5 32 fresh_eval).
  - apply (body_complex (I := acpiioct_h) false 24 [ [0; 0; 4; 0; 7; 0; 0; 0] ] [UACPI_OBJECT_INTEGER 7]); [simpl; lia|by vm_compute|].
    constructor; [|constructor]. exact (@wire_integer acpiioct_h 8 [7; 0; 0; 0] [] ltac:(by vm_compute)).
  - done.
  - done.
  - done.
  - by apply bytes_check.
  - by vm_compute.
  - by split.
  - done.
  - by vm_compute.
Defined.

(** ** Behaviour found *)

(** Data shorter than a ULONG are padded with what was in the system buffer, and
    the padding is part of what is given to the caller. *)
Theorem reply_shows_old_bytes b0 b1 b2 :
  @UacpiNtWriteEvalOutput acpiioct_h acpiioct_signatures (UACPI_OBJECT_BUFFER [7])
    (Some (replicate 17 0 ++ [b0; b1; b2])) 20 =
  Done (STATUS_SUCCESS, 20, Some (le_field 4 9 ++ le_field 4 20 ++ le_field 4 1 ++ [2; 0; 1; 0; 7; b0; b1; b2])).
Proof. by vm_compute. Qed.
