(* ===== verification/Ioctl.v ===== *)
(** sys/ioctl.c, the control calls of any ACPI device and of processors: what a call
    answers, and that it is answered once.

    The evaluation calls are those of EvalCall.v.  The dispatch of a device's
    calls, with those of its class, is in PdoControl.v. *)
From stdpp Require Import base list numbers option strings.
From Stdlib Require Import ZArith Lia.
From S2P Require Import Prelude NtEnv AcpiEnv Bytes EvalWire EvalCall.

Definition STATUS_INVALID_PARAMETER_2 : NTSTATUS := 0xC00000F0.
Definition STATUS_INFO_LENGTH_MISMATCH : NTSTATUS := 0xC0000004.

Definition UACPINT_NODE_NAME_LENGTH : Z := 5.
Definition UACPINT_ENUM_CHILD_RECORD_LENGTH : Z := 13.
(** ACPI_ENUM_CHILDREN_OUTPUT_BUFFER: a signature, a number, and records of
    Flags, NameLength and Name; with room for one record it takes 20 bytes. *)
Definition ENUM_CHILDREN_Children : Z := 8.
Definition sizeof_ENUM_CHILDREN_OUTPUT : Z := 20.
(** The last field of UACPINT_PROCESSOR_OBJ_INFO and the whole, as asserted. *)
Definition PROCESSOR_OBJ_INFO_ApicId : Z := 12.
Definition sizeof_PROCESSOR_OBJ_INFO : Z := 16.

(** ** The header and the interpreter

    The codes and signatures of acpiioct.h, with where the device information has
    its Size field, its size, and how its bytes are laid out; then what the
    interpreter tells of a node: its name of four characters, its children in
    order, its path, its Processor object (id, block address, block length); and
    the answers of the global lock, by the number of the call. *)
Class AcpiControl := {
  CTL_CODE_ACPI : Z -> Z;
  IOCTL_ACPI_EVAL_METHODS : list Z;
  IOCTL_ACPI_ENUM_CHILDREN : Z;
  IOCTL_ACPI_ACQUIRE_GLOBAL_LOCK : Z;
  IOCTL_ACPI_RELEASE_GLOBAL_LOCK : Z;
  SPECIFIC_DATA_PropertyName : Z;
  ACPI_ENUM_CHILDREN_INPUT_BUFFER_SIGNATURE : Z;
  ACPI_ENUM_CHILDREN_OUTPUT_BUFFER_SIGNATURE : Z;
  ACPI_OBJECT_HAS_CHILDREN : Z;
  DEVICE_INFORMATION_Size : Z;
  sizeof_DEVICE_INFORMATION : Z;
  device_information_bytes : Z -> list Z -> list Z;
  uacpi_namespace_node_name : acpi_node -> list Z;
  namespace_children : acpi_node -> list acpi_node;
  uacpi_namespace_node_generate_absolute_path : acpi_node -> option (list Z);
  UacpiNtGetProcessorInfo : acpi_node -> option (Z * Z * Z);
  uacpi_acquire_global_lock : nat -> uacpi_status * Z;
  uacpi_release_global_lock : nat -> Z -> uacpi_status
}.

Class AcpiControlLaws `{AcpiControl} := {
  device_information_layout :
    0 <= DEVICE_INFORMATION_Size /\ DEVICE_INFORMATION_Size + 2 <= sizeof_DEVICE_INFORMATION /\
    sizeof_DEVICE_INFORMATION < 65000;
  device_information_length : forall Needed Instance,
    Z.of_nat (length (device_information_bytes Needed Instance)) = sizeof_DEVICE_INFORMATION + Z.of_nat (length Instance);
  node_name_length : forall n, length (uacpi_namespace_node_name n) = 4%nat;
  specific_data_layout : 4 <= SPECIFIC_DATA_PropertyName
}.

(** ** A call *)

(** [cn_Completed] is the completions of the IRP, newest first. *)
Record control_irp := mkControl {
  cn_Code : Z;
  cn_InputLength : Z;
  cn_OutputLength : Z;
  cn_KernelMode : bool;
  cn_Passive : bool;
  cn_Buffer : option (list Z);
  cn_Completed : list (NTSTATUS * Z)
}.

Definition cn_set_Buffer (b : option (list Z)) (i : control_irp) : control_irp :=
  mkControl (cn_Code i) (cn_InputLength i) (cn_OutputLength i) (cn_KernelMode i) (cn_Passive i) b (cn_Completed i).

(** UacpiNtCompleteIrp hands the IRP back and gives its status. *)
Definition complete_control (Status : NTSTATUS) (Information : Z) (i : control_irp) : NTSTATUS * control_irp :=
  (Status, mkControl (cn_Code i) (cn_InputLength i) (cn_OutputLength i) (cn_KernelMode i) (cn_Passive i) (cn_Buffer i)
             ((Status, Information) :: cn_Completed i)).

(** The evaluation state, the static Sequence and the calls on the global lock,
    and the node of each queued evaluation. *)
Record control_state := mkControlState {
  cs_Eval : eval_state;
  cs_Sequence : Z;
  cs_LockCalls : nat;
  cs_Works : list acpi_node
}.

Definition cs_set_Eval (s : eval_state) (c : control_state) : control_state :=
  mkControlState s (cs_Sequence c) (cs_LockCalls c) (cs_Works c).
Definition cs_set_Works (l : list acpi_node) (c : control_state) : control_state :=
  mkControlState (cs_Eval c) (cs_Sequence c) (cs_LockCalls c) l.

Definition zeroes (n : Z) : list Z := replicate (Z.to_nat n) 0.

Section Control.
Context {A : Acpi} {I : AcpiIoct} {S : AcpiSignatures} {C : AcpiControl}.

Definition UACPINT_IOCTL_GET_DEVICE_INFORMATION : Z := CTL_CODE_ACPI 10.
Definition UACPINT_IOCTL_GET_DEVICE_SPECIFIC_DATA : Z := CTL_CODE_ACPI 14.
Definition UACPINT_IOCTL_QUERY_BIOS_NAME : Z := CTL_CODE_ACPI 9.
(** REGISTER and UNREGISTER_OPREGION, TRANSLATE_BIOS_RESOURCES, REGISTER and
    UNREGISTER_FIRMWARE_LOCK. *)
Definition unsupported_codes : list Z := map CTL_CODE_ACPI [2; 3; 11; 12; 13].
Definition UACPINT_IOCTL_GET_PROCESSOR_OBJ_INFO : Z := 0x00294180.

Definition UacpiNtCopyNodeName (Node : acpi_node) : list Z := uacpi_namespace_node_name Node ++ [0].

(** What follows the lookup of the system buffer; NULL cannot be written to. *)
Definition with_buffer (Buffer : option (list Z)) (write : list Z -> run (list Z)) : run (option (list Z)) :=
  match Buffer with None => Fault | Some b => b ← write b; Done (Some b) end.

Notation answer := (run (NTSTATUS * Z * option (list Z))).

(** ** Names and children *)

Definition UacpiNtGetDeviceInformation (Node : acpi_node) (Buffer : option (list Z)) (OutputLength : Z) : answer :=
  if Node =? NULL then Done (STATUS_INVALID_DEVICE_REQUEST, 0, Buffer)
  else
    let Instance := UacpiNtCopyNodeName Node in
    let Needed := sizeof_DEVICE_INFORMATION + UACPINT_NODE_NAME_LENGTH in
    if OutputLength <? Needed then
      if DEVICE_INFORMATION_Size + 2 <=? OutputLength then
        Buffer ← with_buffer Buffer (fun b => store_bytes b DEVICE_INFORMATION_Size (le_field 2 (u16 Needed)));
        Done (STATUS_BUFFER_OVERFLOW, DEVICE_INFORMATION_Size + 2, Buffer)
      else Done (STATUS_BUFFER_OVERFLOW, 0, Buffer)
    else
      Buffer ← with_buffer Buffer (fun b => store_bytes b 0 (device_information_bytes Needed Instance));
      Done (STATUS_SUCCESS, Needed, Buffer).

(** The signature is the four characters "HieA" as a number. *)
Definition IOCTL_ACPI_GET_DEVICE_SPECIFIC_DATA_SIGNATURE : Z := 0x48696541.

Definition UacpiNtGetDeviceSpecificData (Node : acpi_node) (Buffer : option (list Z)) (InputLength : Z) : run NTSTATUS :=
  if Node =? NULL then Done STATUS_INVALID_DEVICE_REQUEST
  else if InputLength <? SPECIFIC_DATA_PropertyName then Done STATUS_INVALID_PARAMETER
  else
    match Buffer with
    | None => Done STATUS_INVALID_PARAMETER
    | Some b =>
        Signature ← load_le b 4 0;
        Done (if negb (Signature =? IOCTL_ACPI_GET_DEVICE_SPECIFIC_DATA_SIGNATURE) then STATUS_INVALID_PARAMETER
              else STATUS_OBJECT_NAME_NOT_FOUND)
    end.

(** A path is ASCII: every character becomes one of 16 bits.  The lengths of the
    string structures are USHORTs; a conversion that does not fit fails. *)
Definition wide (path : list Z) : list Z := flat_map (fun b => [b; 0]) path.

Definition UacpiNtQueryBiosName (Node : acpi_node) (Buffer : option (list Z)) (OutputLength : Z) : answer :=
  if Node =? NULL then Done (STATUS_INVALID_DEVICE_REQUEST, 0, Buffer)
  else
    match uacpi_namespace_node_generate_absolute_path Node with
    | None => Done (STATUS_INSUFFICIENT_RESOURCES, 0, Buffer)
    | Some AbsolutePath =>
        let Size := (Z.of_nat (length AbsolutePath) + 1) * 2 in
        let Required := u16 Size in
        if OutputLength <? Required then Done (STATUS_BUFFER_TOO_SMALL, 0, Buffer)
        else if MAXUSHORT <? Size then Done (STATUS_INVALID_PARAMETER_2, 0, Buffer)
        else
          Buffer ← with_buffer Buffer (fun b => store_bytes b 0 (wide (AbsolutePath ++ [0])));
          Done (STATUS_SUCCESS, (Size - 2) + 2, Buffer)
    end.

Definition UacpiNtNodeHasChildren (Node : acpi_node) : bool :=
  match namespace_children Node with [] => false | _ => true end.

(** The record of a child: Flags, NameLength and the name with its NUL. *)
Definition child_record (Child : acpi_node) : list Z :=
  le_field 4 (if UacpiNtNodeHasChildren Child then ACPI_OBJECT_HAS_CHILDREN else 0) ++
  le_field 4 UACPINT_NODE_NAME_LENGTH ++ UacpiNtCopyNodeName Child.

(** The stride is the NameLength just written, so records are packed. *)
Fixpoint write_children (l : list acpi_node) (Entry : Z) (b : list Z) : run (Z * list Z) :=
  match l with
  | [] => Done (Entry, b)
  | Child :: l =>
      b ← store_bytes b Entry (child_record Child);
      write_children l (Entry + (8 + UACPINT_NODE_NAME_LENGTH)) b
  end.

Definition enum_children_header (Number : Z) : list Z :=
  le_field 4 ACPI_ENUM_CHILDREN_OUTPUT_BUFFER_SIGNATURE ++ le_field 4 Number.

Definition UacpiNtEnumChildren (Node : acpi_node) (Buffer : option (list Z)) (InputLength OutputLength : Z) : answer :=
  if Node =? NULL then Done (STATUS_INVALID_DEVICE_REQUEST, 0, Buffer)
  else if InputLength <? 8 then Done (STATUS_INVALID_PARAMETER, 0, Buffer)
  else
    match Buffer with
    | None => Done (STATUS_INVALID_PARAMETER, 0, Buffer)
    | Some b =>
        Signature ← load_le b 4 0;
        if negb (Signature =? ACPI_ENUM_CHILDREN_INPUT_BUFFER_SIGNATURE) then Done (STATUS_INVALID_PARAMETER, 0, Buffer)
        else
          let Count := u32 (Z.of_nat (length (namespace_children Node))) in
          let Needed := u32 (ENUM_CHILDREN_Children + Count * UACPINT_ENUM_CHILD_RECORD_LENGTH) in
          if OutputLength <? Needed then
            if OutputLength <? sizeof_ENUM_CHILDREN_OUTPUT then Done (STATUS_BUFFER_TOO_SMALL, 0, Buffer)
            else
              b ← store_bytes b 0 (zeroes OutputLength);
              b ← store_bytes b 0 (enum_children_header Needed);
              Done (STATUS_BUFFER_OVERFLOW, sizeof_ENUM_CHILDREN_OUTPUT, Some b)
          else
            b ← store_bytes b 0 (zeroes Needed);
            b ← store_bytes b 0 (enum_children_header Count);
            '(Entry, b) ← write_children (namespace_children Node) ENUM_CHILDREN_Children b;
            Done (STATUS_SUCCESS, Entry, Some b)
    end.

(** ** The global lock *)

Definition UacpiNtManipulateGlobalLock (Acquire : bool) (Buffer : option (list Z)) (InputLength : Z) (c : control_state)
  : NTSTATUS * control_state :=
  if InputLength <? 4 then (STATUS_INVALID_PARAMETER, c)
  else
    match Buffer with
    | None => (STATUS_INVALID_PARAMETER, c)
    | Some _ =>
        let k := cs_LockCalls c in
        let '(UacpiStatus, Sequence) :=
          if Acquire then uacpi_acquire_global_lock k
          else (uacpi_release_global_lock k (cs_Sequence c), cs_Sequence c) in
        (if uacpi_unlikely_error UacpiStatus then STATUS_UNSUCCESSFUL else STATUS_SUCCESS,
         mkControlState (cs_Eval c) Sequence (Datatypes.S k) (cs_Works c))
    end.

(** ** Evaluations *)

(** A work item is counted with the blocks of the pool. *)
Definition IoAllocateWorkItem (w : world) : bool * world := ExAllocatePoolWithTag 0 w.
Definition IoFreeWorkItem (w : world) : world := ExFreePoolWithTag w.

Definition UacpiNtQueueEvaluation (Node : acpi_node) (i : control_irp) (c : control_state)
  : NTSTATUS * control_irp * control_state :=
  let s := cs_Eval c in
  let '(Granted, w) := ExAllocatePoolWithTag 40 (ev_World s) in
  if negb Granted then (complete_control STATUS_INSUFFICIENT_RESOURCES 0 i, cs_set_Eval (ev_set_World w s) c)
  else
    let '(Granted, w) := IoAllocateWorkItem w in
    if negb Granted then
      (complete_control STATUS_INSUFFICIENT_RESOURCES 0 i, cs_set_Eval (ev_set_World (ExFreePoolWithTag w) s) c)
    else (STATUS_PENDING, i, cs_set_Works (cs_Works c ++ [Node]) (cs_set_Eval (ev_set_World w s) c)).

Definition evaluate_control (Ready : bool) (Node : acpi_node) (i : control_irp) (c : control_state)
  : run (NTSTATUS * control_irp * control_state) :=
  '(Status, Information, Buffer, s) ←
    UacpiNtEvaluate Ready Node (cn_Buffer i) (cn_InputLength i) (cn_OutputLength i) (cs_Eval c);
  Done (complete_control Status Information (cn_set_Buffer Buffer i), cs_set_Eval s c).

(** The work item runs for the node at the head of the queue. *)
Definition UacpiNtEvalWorker (Ready : bool) (Node : acpi_node) (i : control_irp) (c : control_state)
  : run (control_irp * control_state) :=
  '(_, i, c) ← evaluate_control Ready Node i c;
  let w := IoFreeWorkItem (ev_World (cs_Eval c)) in
  Done (i, cs_set_Eval (ev_set_World (ExFreePoolWithTag w) (cs_Eval c)) c).

(** ** The calls of any ACPI device *)

Definition complete_answer (a : answer) (i : control_irp) (c : control_state)
  : run (option NTSTATUS * control_irp * control_state) :=
  '(Status, Information, Buffer) ← a;
  let '(Status, i) := complete_control Status Information (cn_set_Buffer Buffer i) in Done (Some Status, i, c).

(** [None] when the call is not one of these. *)
Definition UacpiNtAcpiDeviceControl (Ready : bool) (Node : acpi_node) (i : control_irp) (c : control_state)
  : run (option NTSTATUS * control_irp * control_state) :=
  let Code := cn_Code i in
  let In := cn_InputLength i in
  let Out := cn_OutputLength i in
  if Code =? UACPINT_IOCTL_GET_DEVICE_INFORMATION then
    complete_answer (UacpiNtGetDeviceInformation Node (cn_Buffer i) Out) i c
  else if Code =? UACPINT_IOCTL_GET_DEVICE_SPECIFIC_DATA then
    complete_answer (Status ← UacpiNtGetDeviceSpecificData Node (cn_Buffer i) In; Done (Status, 0, cn_Buffer i)) i c
  else if Code =? UACPINT_IOCTL_QUERY_BIOS_NAME then complete_answer (UacpiNtQueryBiosName Node (cn_Buffer i) Out) i c
  else if bool_decide (Code ∈ unsupported_codes) then complete_answer (Done (STATUS_NOT_SUPPORTED, 0, cn_Buffer i)) i c
  else if Code =? IOCTL_ACPI_ENUM_CHILDREN then complete_answer (UacpiNtEnumChildren Node (cn_Buffer i) In Out) i c
  else if (Code =? IOCTL_ACPI_ACQUIRE_GLOBAL_LOCK) || (Code =? IOCTL_ACPI_RELEASE_GLOBAL_LOCK) then
    let '(Status, c) := UacpiNtManipulateGlobalLock (Code =? IOCTL_ACPI_ACQUIRE_GLOBAL_LOCK) (cn_Buffer i) In c in
    complete_answer (Done (Status, 0, cn_Buffer i)) i c
  else if bool_decide (Code ∈ IOCTL_ACPI_EVAL_METHODS) then
    if cn_Passive i then
      '(Status, i, c) ← evaluate_control Ready Node i c; Done (Some Status, i, c)
    else
      let '(Status, i, c) := UacpiNtQueueEvaluation Node i c in Done (Some Status, i, c)
  else Done (None, i, c).

(** ** Processors *)

Definition ACPI_MADT_ENTRY_TYPE_LAPIC : Z := 0.
Definition ACPI_MADT_ENTRY_TYPE_LOCAL_X2APIC : Z := 9.
Definition sizeof_madt_lapic : Z := 8.
Definition sizeof_madt_x2apic : Z := 16.

(** The entries lie in [Buffer], from [Entry] on. *)
Fixpoint find_apic_id (fuel : nat) (Buffer : list Z) (Entry ProcessorId : Z) : run (option Z) :=
  if negb (Entry + 2 <=? Z.of_nat (length Buffer)) then Done None
  else
    match fuel with
    | O => Fault
    | Datatypes.S fuel =>
        Type' ← load Buffer Entry;
        Length ← load Buffer (Entry + 1);
        if (Length <? 2) || (Z.of_nat (length Buffer) <? Entry + Length) then Done None
        else
          Found ←
            (if (Type' =? ACPI_MADT_ENTRY_TYPE_LAPIC) && (sizeof_madt_lapic <=? Length) then
               Uid ← load Buffer (Entry + 2);
               if Uid =? ProcessorId then ApicId ← load Buffer (Entry + 3); Done (Some ApicId) else Done None
             else if (Type' =? ACPI_MADT_ENTRY_TYPE_LOCAL_X2APIC) && (sizeof_madt_x2apic <=? Length) then
               Uid ← load_le Buffer 4 (Entry + 12);
               if Uid =? ProcessorId then ApicId ← load_le Buffer 4 (Entry + 4); Done (Some ApicId) else Done None
             else Done None);
          match Found with
          | Some ApicId => Done (Some ApicId)
          | None => find_apic_id fuel Buffer (Entry + Length) ProcessorId
          end
    end.

Definition UacpiNtFindInitialApicId (Madt : option (list Z)) (ProcessorId : Z) : run (option Z) :=
  match Madt with
  | None => Done None
  | Some Buffer => find_apic_id (length Buffer) Buffer 0 ProcessorId
  end.

(** The fields of the reply before the APIC ID; the length is one byte. *)
Definition processor_fields (Info : option (Z * Z * Z)) : list Z :=
  match Info with
  | Some (Id, Address, Length) => le_field 4 Id ++ le_field 4 Address ++ [u8 Length; 0; 0; 0]
  | None => zeroes PROCESSOR_OBJ_INFO_ApicId
  end.

Definition UacpiNtProcessorObjInfo (IsProcessor : bool) (Node : acpi_node) (Madt : option (list Z)) (i : control_irp)
  (c : control_state) : run (option NTSTATUS * control_irp * control_state) :=
  let Out := cn_OutputLength i in
  if negb (cn_Code i =? UACPINT_IOCTL_GET_PROCESSOR_OBJ_INFO) || negb IsProcessor then Done (None, i, c)
  else if negb (cn_KernelMode i) then complete_answer (Done (STATUS_INVALID_DEVICE_REQUEST, 0, cn_Buffer i)) i c
  else
    match cn_Buffer i with
    | None => complete_answer (Done (STATUS_INFO_LENGTH_MISMATCH, 0, None)) i c
    | Some b =>
        if Out <? PROCESSOR_OBJ_INFO_ApicId then complete_answer (Done (STATUS_INFO_LENGTH_MISMATCH, 0, Some b)) i c
        else
          let Info := if Node =? NULL then None else UacpiNtGetProcessorInfo Node in
          b ← store_bytes b 0 (zeroes (if sizeof_PROCESSOR_OBJ_INFO <=? Out then sizeof_PROCESSOR_OBJ_INFO
                                       else PROCESSOR_OBJ_INFO_ApicId));
          b ← store_bytes b 0 (processor_fields Info);
          if Out <? sizeof_PROCESSOR_OBJ_INFO
          then complete_answer (Done (STATUS_SUCCESS, PROCESSOR_OBJ_INFO_ApicId, Some b)) i c
          else
            Found ← (match Info with
                     | Some (Id, _, _) => UacpiNtFindInitialApicId Madt (u8 Id)
                     | None => Done None
                     end);
            b ← store_bytes b PROCESSOR_OBJ_INFO_ApicId (le_field 4 (default 0xFFFFFFFF Found));
            complete_answer (Done (STATUS_SUCCESS, sizeof_PROCESSOR_OBJ_INFO, Some b)) i c
    end.

(** ** A filter's calls *)

(** [None] when the call went down the stack. *)
Definition UacpiNtFilterDeviceControl (Ready : bool) (Node : acpi_node) (i : control_irp) (c : control_state)
  : run (option NTSTATUS * control_irp * control_state) :=
  if Node =? NULL then Done (None, i, c) else UacpiNtAcpiDeviceControl Ready Node i c.
End Control.

(** ** Every call is answered once *)
Section Answers.
Context {A : Acpi} {I : AcpiIoct} {L : AcpiIoctLaws} {S : AcpiSignatures} {C : AcpiControl} {CL : AcpiControlLaws}.

(** An answer whose reply is inside the output buffer. *)
Definition answer_fits (Buffer : option (list Z)) (Out : Z) (a : run (NTSTATUS * Z * option (list Z))) : Prop :=
  exists st Information Buffer', a = Done (st, Information, Buffer') /\ reply_fits Buffer Buffer' Out Information.

Lemma refused_fits Buffer In Out st : call_buffer Buffer In Out -> answer_fits Buffer Out (Done (st, 0, Buffer)).
Proof. intros H. eexists _, _, _. split; [done|]. by eapply reply_fits_same. Qed.

(** Bytes stored inside the output buffer stay inside it. *)
Lemma store_fits (b b' l : list Z) o Out :
  0 <= o -> o + Z.of_nat (length l) <= Out -> Out <= Z.of_nat (length b) ->
  exists b2, store_bytes b o l = Done b2 /\ length b2 = length b /\
    drop (Z.to_nat Out) b2 = drop (Z.to_nat Out) b.
Proof.
  intros Ho Hl HO. unfold store_bytes. destruct (decide _) as [|Hn]; [|lia]. eexists. split; [done|]. split.
  - rewrite !length_app, length_take, length_drop. lia.
  - rewrite app_assoc, (drop_past _ _ (Z.to_nat o + length l)), drop_drop; [f_equal; lia|rewrite length_app, length_take; lia|lia].
Qed.

Lemma stored_fits (b l : list Z) o Out In :
  call_buffer (Some b) In Out -> 0 <= o -> o + Z.of_nat (length l) <= Out ->
  exists b2, store_bytes b o l = Done b2 /\ reply_fits (Some b) (Some b2) Out Out.
Proof.
  intros (? & ? & ? & ?) Ho Hl. destruct (store_fits b b l o Out) as (b2 & E & Hb1 & Hb2); [lia..|].
  exists b2. split; [done|]. unfold reply_fits. by split; [lia|].
Qed.

(** One store after the other. *)
Lemma reply_fits_trans B B1 B2 Out n n' :
  reply_fits B B1 Out n -> reply_fits B1 B2 Out n' -> 0 <= n' <= Out -> reply_fits B B2 Out n'.
Proof.
  unfold reply_fits. destruct B, B1, B2; try tauto. intros (_ & E1 & E2) (_ & E3 & E4) H.
  split; [done|]. split; congruence.
Qed.

Lemma reply_fits_less B B' Out n n' : reply_fits B B' Out n -> 0 <= n' <= Out -> reply_fits B B' Out n'.
Proof. intros [_ H] Hn. by split. Qed.

Lemma buffer_there Buffer In Out : call_buffer Buffer In Out -> 0 < Out -> exists b, Buffer = Some b.
Proof. destruct Buffer as [b|]; [by exists b|]. intros [_ ->]. lia. Qed.

Lemma name_length Node : Z.of_nat (length (UacpiNtCopyNodeName Node)) = UACPINT_NODE_NAME_LENGTH.
Proof. unfold UacpiNtCopyNodeName. rewrite length_app, node_name_length. done. Qed.

Lemma device_information_fits Node Buffer In Out :
  call_buffer Buffer In Out -> answer_fits Buffer Out (UacpiNtGetDeviceInformation Node Buffer Out).
Proof.
  intros Hc. unfold UacpiNtGetDeviceInformation. destruct (Node =? NULL); [by eapply refused_fits|]. cbv zeta.
  destruct device_information_layout as (H1 & H2 & H3). unfold UACPINT_NODE_NAME_LENGTH.
  destruct (Out <? _) eqn:E; bool_prop.
  - destruct (_ <=? Out) eqn:E2; bool_prop; [|by eapply refused_fits].
    destruct (buffer_there _ _ _ Hc) as [b ->]; [lia|]. unfold with_buffer.
    destruct (stored_fits b (le_field 2 (u16 (sizeof_DEVICE_INFORMATION + 5))) DEVICE_INFORMATION_Size Out In Hc)
      as (b2 & -> & Hf); [lia|rewrite length_le_field; lia|]. cbn [mbind run_bind].
    eexists _, _, _. split; [done|]. eapply reply_fits_less; [done|lia].
  - destruct (buffer_there _ _ _ Hc) as [b ->]; [lia|]. unfold with_buffer.
    destruct (stored_fits b (device_information_bytes (sizeof_DEVICE_INFORMATION + 5) (UacpiNtCopyNodeName Node)) 0 Out In Hc)
      as (b2 & -> & Hf); [lia|rewrite device_information_length, name_length; unfold UACPINT_NODE_NAME_LENGTH; lia|].
    cbn [mbind run_bind]. eexists _, _, _. split; [done|]. eapply reply_fits_less; [done|lia].
Qed.

Lemma specific_data_fits Node Buffer In Out : call_buffer Buffer In Out ->
  answer_fits Buffer Out (Status ← UacpiNtGetDeviceSpecificData Node Buffer In; Done (Status, 0, Buffer)).
Proof.
  intros Hc. unfold UacpiNtGetDeviceSpecificData. pose proof specific_data_layout as Hl.
  destruct (Node =? NULL); [by eapply refused_fits|]. destruct (In <? _) eqn:E; bool_prop; [by eapply refused_fits|].
  destruct Buffer as [b|]; [|by eapply refused_fits]. pose proof Hc as (? & ? & _).
  rewrite load_le_in by lia. by eapply refused_fits.
Qed.

Lemma length_wide l : length (wide l) = (2 * length l)%nat.
Proof. unfold wide. induction l; simpl; lia. Qed.

Lemma bios_name_fits Node Buffer In Out :
  call_buffer Buffer In Out -> answer_fits Buffer Out (UacpiNtQueryBiosName Node Buffer Out).
Proof.
  intros Hc. unfold UacpiNtQueryBiosName. destruct (Node =? NULL); [by eapply refused_fits|].
  destruct (uacpi_namespace_node_generate_absolute_path Node) as [path|]; [|by eapply refused_fits]. cbv zeta.
  destruct (Out <? _) eqn:E; bool_prop; [by eapply refused_fits|]. unfold MAXUSHORT.
  destruct (65535 <? _) eqn:E2; bool_prop; [by eapply refused_fits|]. rewrite u16_small in E by lia.
  destruct (buffer_there _ _ _ Hc) as [b ->]; [lia|]. unfold with_buffer.
  destruct (stored_fits b (wide (path ++ [0])) 0 Out In Hc) as (b2 & -> & Hf);
    [lia|rewrite length_wide, length_app; simpl; lia|]. cbn [mbind run_bind].
  eexists _, _, _. split; [done|]. eapply reply_fits_less; [done|lia].
Qed.

(** *** Children *)

Lemma length_child_record Child : Z.of_nat (length (child_record Child)) = UACPINT_ENUM_CHILD_RECORD_LENGTH.
Proof.
  unfold child_record. rewrite !length_app, !length_le_field, !Nat2Z.inj_add, name_length. done.
Qed.

Lemma length_child_records l : Z.of_nat (length (flat_map child_record l)) = 13 * Z.of_nat (length l).
Proof.
  induction l as [|c l IH]; [done|]. cbn [flat_map length]. rewrite length_app, Nat2Z.inj_add, length_child_record.
  unfold UACPINT_ENUM_CHILD_RECORD_LENGTH. lia.
Qed.

Lemma write_children_at l (pre old post : list Z) :
  Z.of_nat (length old) = 13 * Z.of_nat (length l) ->
  write_children l (Z.of_nat (length pre)) (pre ++ old ++ post) =
    Done (Z.of_nat (length pre) + 13 * Z.of_nat (length l), pre ++ flat_map child_record l ++ post).
Proof.
  revert pre old. induction l as [|c l IH]; intros pre old Hl.
  { destruct old; [|simpl in Hl; lia]. simpl. by rewrite Z.add_0_r. }
  cbn [write_children length] in *. rewrite <- (take_drop 13 old), <- app_assoc.
  pose proof (length_child_record c) as Hc. unfold UACPINT_ENUM_CHILD_RECORD_LENGTH, UACPINT_NODE_NAME_LENGTH in *.
  rewrite (store_bytes_at pre (take 13 old) (drop 13 old ++ post)) by (rewrite ?length_take; lia || done).
  cbn [mbind run_bind]. rewrite (app_assoc pre).
  replace (Z.of_nat (length pre) + (8 + 5)) with (Z.of_nat (length (pre ++ child_record c))) by (rewrite length_app; lia).
  rewrite IH by (rewrite length_drop; lia). cbn [flat_map]. rewrite <- !app_assoc. f_equal. f_equal.
  rewrite length_app. lia.
Qed.

(** The count and the size of the records fit a ULONG. *)
Definition children_fit (Node : acpi_node) : Prop :=
  8 + 13 * Z.of_nat (length (namespace_children Node)) < 4294967296.

Lemma enum_children_result Node b InputLength OutputLength :
  Node <> NULL -> children_fit Node -> call_buffer (Some b) InputLength OutputLength -> 8 <= InputLength ->
  le_bytes (take 4 b) = ACPI_ENUM_CHILDREN_INPUT_BUFFER_SIGNATURE ->
  let Children := namespace_children Node in
  let Needed := 8 + 13 * Z.of_nat (length Children) in
  UacpiNtEnumChildren Node (Some b) InputLength OutputLength =
    if Needed <=? OutputLength then
      Done (STATUS_SUCCESS, Needed,
        Some (enum_children_header (Z.of_nat (length Children)) ++ flat_map child_record Children ++ drop (Z.to_nat Needed) b))
    else if OutputLength <? 20 then Done (STATUS_BUFFER_TOO_SMALL, 0, Some b)
    else Done (STATUS_BUFFER_OVERFLOW, 20,
        Some (enum_children_header Needed ++ replicate (Z.to_nat OutputLength - 8) 0 ++ drop (Z.to_nat OutputLength) b)).
Proof.
  intros HN Hfit (HI & HI2 & HO & _) H8 Hsig Children Needed. unfold UacpiNtEnumChildren, children_fit in *.
  destruct (Node =? NULL) eqn:E; bool_prop; [done|]. destruct (_ <? 8) eqn:E2; bool_prop; [lia|].
  rewrite load_le_in by lia. rewrite drop_0, Hsig. cbn [mbind run_bind]. rewrite Z.eqb_refl. simpl negb. cbv iota zeta.
  unfold ENUM_CHILDREN_Children, UACPINT_ENUM_CHILD_RECORD_LENGTH, sizeof_ENUM_CHILDREN_OUTPUT.
  fold Children. rewrite (u32_small (Z.of_nat (length Children))) by (unfold Children; lia).
  rewrite u32_small by (unfold Children; lia). replace (8 + Z.of_nat (length Children) * 13) with Needed by (unfold Needed; lia).
  assert (forall n N, 8 <= n -> n <= Z.of_nat (length b) ->
    (b ← store_bytes b 0 (zeroes n); store_bytes b 0 (enum_children_header N)) =
      Done (enum_children_header N ++ replicate (Z.to_nat n - 8) 0 ++ drop (Z.to_nat n) b)) as Hz.
  { intros n N Hn Hb. unfold zeroes. rewrite <- (take_drop (Z.to_nat n) b) at 1.
    rewrite (store_bytes_at [] (take (Z.to_nat n) b) (drop (Z.to_nat n) b)) by (rewrite ?length_take, ?length_replicate; lia || done).
    cbn [mbind run_bind app]. replace (Z.to_nat n) with (8 + (Z.to_nat n - 8))%nat at 1 by lia.
    rewrite replicate_add, <- app_assoc. rewrite (store_bytes_at [] (replicate 8 0) (replicate (Z.to_nat n - 8) 0 ++ drop (Z.to_nat n) b)); [done| |done].
    unfold enum_children_header. by rewrite length_app, !length_le_field. }
  rewrite Z.leb_antisym. destruct (OutputLength <? Needed) eqn:E3; bool_prop; simpl negb; cbv iota.
  - destruct (OutputLength <? 20) eqn:E4; bool_prop; [done|]. specialize (Hz OutputLength Needed ltac:(lia) ltac:(lia)).
    destruct (store_bytes b 0 _) as [|b']; [done|]. cbn [mbind run_bind] in *. rewrite Hz. done.
  - specialize (Hz Needed (Z.of_nat (length Children)) ltac:(lia) ltac:(lia)).
    destruct (store_bytes b 0 _) as [|b']; [done|]. cbn [mbind run_bind] in *. rewrite Hz. cbn [mbind run_bind].
    assert (Z.of_nat (length (enum_children_header (Z.of_nat (length Children)))) = 8) as H8'
      by (unfold enum_children_header; by rewrite length_app, !length_le_field).
    rewrite <- H8' at 1. rewrite write_children_at; [|rewrite length_replicate; unfold Needed; lia].
    cbn [mbind run_bind]. by rewrite H8'.
Qed.

Lemma enum_children_fits Node Buffer In Out : children_fit Node ->
  call_buffer Buffer In Out -> answer_fits Buffer Out (UacpiNtEnumChildren Node Buffer In Out).
Proof.
  intros Hfit Hc. destruct (decide (Node = NULL)) as [->|HN]; [by eapply refused_fits|].
  destruct (decide (8 <= In)) as [H8|H8].
  2:{ unfold UacpiNtEnumChildren. destruct (Node =? NULL); [by eapply refused_fits|].
      destruct (_ <? 8) eqn:E; bool_prop; [by eapply refused_fits|lia]. }
  destruct Buffer as [b|]; [|destruct Hc; lia]. pose proof Hc as (HI & HI2 & HO & _).
  destruct (decide (le_bytes (take 4 b) = ACPI_ENUM_CHILDREN_INPUT_BUFFER_SIGNATURE)) as [Hs|Hs].
  2:{ unfold UacpiNtEnumChildren. destruct (Node =? NULL); [by eapply refused_fits|].
      destruct (_ <? 8) eqn:E; bool_prop; [lia|]. rewrite load_le_in, drop_0 by lia. cbn [mbind run_bind].
      apply Z.eqb_neq in Hs. rewrite Hs. by eapply refused_fits. }
  rewrite enum_children_result by done. set (Children := namespace_children Node). set (Needed := 8 + 13 * Z.of_nat (length Children)).
  assert (Z.of_nat (length (flat_map child_record Children)) = Needed - 8) as Hrec
    by (unfold Needed; rewrite length_child_records; lia).
  assert (forall N, length (enum_children_header N) = 8%nat) as Hh
    by (intros; unfold enum_children_header; by rewrite length_app, !length_le_field).
  destruct (Needed <=? Out) eqn:E; bool_prop; [|destruct (Out <? 20) eqn:E2; bool_prop; [by eapply refused_fits|] ];
    eexists _, _, _; (split; [done|]); (split; [lia|]).
  - rewrite !length_app, length_drop, Hh. split; [lia|].
    rewrite (drop_past _ _ 8), (drop_past _ _ (Z.to_nat Needed - 8)), drop_drop by (done || lia). f_equal. lia.
  - rewrite !length_app, length_drop, length_replicate, Hh. split; [lia|].
    rewrite (drop_past _ _ 8), (drop_past _ _ (Z.to_nat Out - 8)), drop_drop by (rewrite ?length_replicate; done || lia). f_equal. lia.
Qed.

(** ENUM_CHILDREN lists the immediate children in their order: a caller with
    room gets the header with their number and a packed record for each, a caller
    with room for one record only gets the size it needs, and the others nothing;
    what is behind the reply is not touched. *)
Theorem enum_children_exact Node b InputLength OutputLength :
  Node <> NULL -> children_fit Node -> call_buffer (Some b) InputLength OutputLength -> 8 <= InputLength ->
  le_bytes (take 4 b) = ACPI_ENUM_CHILDREN_INPUT_BUFFER_SIGNATURE ->
  let Children := namespace_children Node in
  let Needed := 8 + 13 * Z.of_nat (length Children) in
  UacpiNtEnumChildren Node (Some b) InputLength OutputLength =
    if Needed <=? OutputLength then
      Done (STATUS_SUCCESS, Needed,
        Some (enum_children_header (Z.of_nat (length Children)) ++ flat_map child_record Children ++ drop (Z.to_nat Needed) b))
    else if OutputLength <? 20 then Done (STATUS_BUFFER_TOO_SMALL, 0, Some b)
    else Done (STATUS_BUFFER_OVERFLOW, 20,
        Some (enum_children_header Needed ++ replicate (Z.to_nat OutputLength - 8) 0 ++ drop (Z.to_nat OutputLength) b)).
Proof. apply enum_children_result. Qed.

(** *** Evaluations *)

(** The call was completed once, with a reply inside the output buffer. *)
Definition answered_with (st : NTSTATUS) (i i' : control_irp) : Prop :=
  exists Information, cn_Completed i' = [(st, Information)] /\
    reply_fits (cn_Buffer i) (cn_Buffer i') (cn_OutputLength i) Information.
Definition answered (i i' : control_irp) : Prop := exists st, answered_with st i i'.

(** What the driver holds: references, and pool blocks with work items. *)
Definition holds_same (c c' : control_state) (blocks : Z) : Prop :=
  ev_Refs (cs_Eval c') = ev_Refs (cs_Eval c) /\
  w_live (ev_World (cs_Eval c')) = w_live (ev_World (cs_Eval c)) + blocks.

Definition usable (i : control_irp) : Prop :=
  call_buffer (cn_Buffer i) (cn_InputLength i) (cn_OutputLength i) /\ cn_Completed i = [].

Lemma evaluate_control_answers Ready Node i c : results_below_4GB -> usable i ->
  exists st i' c', evaluate_control Ready Node i c = Done (st, i', c') /\ answered_with st i i' /\ holds_same c c' 0 /\
    cs_Works c' = cs_Works c.
Proof.
  intros Hr [Hc H0]. unfold evaluate_control.
  destruct (evaluate_fits Ready Node (cn_Buffer i) (cn_InputLength i) (cn_OutputLength i) (cs_Eval c) Hr Hc)
    as (st & Inf & B & s' & -> & Hf & HR & HW & _). cbn [mbind run_bind].
  eexists _, _, _. split; [done|]. split; [|split; [|done] ].
  - exists Inf. simpl. by rewrite H0.
  - unfold holds_same. simpl. split; [done|lia].
Qed.

Lemma worker_answers Ready Node i c : results_below_4GB -> usable i ->
  exists i' c', UacpiNtEvalWorker Ready Node i c = Done (i', c') /\ answered i i' /\ holds_same c c' (-2).
Proof.
  intros Hr Hu. unfold UacpiNtEvalWorker.
  destruct (evaluate_control_answers Ready Node i c Hr Hu) as (st & i' & c' & -> & Ha & [HR HW] & _).
  cbn [mbind run_bind]. eexists _, _. split; [done|]. split; [by exists st|]. unfold holds_same in *. simpl. split; [done|lia].
Qed.

(** A call is answered now, with the status that is returned, or it is pending: queued
    for the worker, which answers it. *)
Definition served (st : NTSTATUS) (Ready : bool) (Node : acpi_node) (i i' : control_irp) (c c' : control_state) : Prop :=
  (answered_with st i i' /\ holds_same c c' 0 /\ cs_Works c' = cs_Works c) \/
  (st = STATUS_PENDING /\ i' = i /\ holds_same c c' 2 /\ cs_Works c' = cs_Works c ++ [Node] /\
   forall c2, exists i3 c3, UacpiNtEvalWorker Ready Node i' c2 = Done (i3, c3) /\ answered i i3 /\ holds_same c2 c3 (-2)).

Lemma queue_serves Ready Node i c : results_below_4GB -> usable i ->
  exists st i' c', UacpiNtQueueEvaluation Node i c = (st, i', c') /\ served st Ready Node i i' c c'.
Proof.
  intros Hr Hu. pose proof Hu as [Hc H0]. pose proof (reply_fits_same _ _ _ Hc) as Hsame.
  unfold UacpiNtQueueEvaluation, IoAllocateWorkItem, ExAllocatePoolWithTag. cbv zeta.
  destruct (w_pool _ _ 40); simpl negb; cbv iota.
  2:{ eexists _, _, _. split; [done|]. left. split; [|split; [split; simpl; lia|done] ].
      eexists _. simpl. by rewrite H0. }
  cbn [w_pool w_allocs]. destruct (w_pool _ _ 0); simpl negb; cbv iota.
  - eexists _, _, _. split; [done|]. right. split; [done|]. split; [done|]. split; [split; simpl; lia|]. split; [done|].
    intros c2. by apply worker_answers.
  - eexists _, _, _. split; [done|]. left. split; [|split; [split; simpl; lia|done] ].
    eexists _. simpl. by rewrite H0.
Qed.

Lemma answer_serves Ready Node a i c c2 : usable i -> answer_fits (cn_Buffer i) (cn_OutputLength i) a ->
  holds_same c c2 0 -> cs_Works c2 = cs_Works c ->
  exists st i' c', complete_answer a i c2 = Done (Some st, i', c') /\ served st Ready Node i i' c c'.
Proof.
  intros [Hc H0] (st & Inf & B & -> & Hf) Hh Hw. unfold complete_answer. cbn [mbind run_bind].
  eexists _, _, _. split; [done|]. left. split; [|done]. eexists _. simpl. by rewrite H0.
Qed.

Lemma holds_refl c : holds_same c c 0.
Proof. split; lia. Qed.

Lemma acpi_control_serves Ready Node i c : results_below_4GB -> children_fit Node -> usable i ->
  exists d i' c', UacpiNtAcpiDeviceControl Ready Node i c = Done (d, i', c') /\
    match d with Some st => served st Ready Node i i' c c' | None => i' = i /\ c' = c end.
Proof.
  intros Hr Hfit Hu. pose proof Hu as [Hc _]. unfold UacpiNtAcpiDeviceControl. cbv zeta.
  assert (forall a c2, answer_fits (cn_Buffer i) (cn_OutputLength i) a -> holds_same c c2 0 -> cs_Works c2 = cs_Works c ->
    exists d i' c', complete_answer a i c2 = Done (d, i', c') /\
      match d with Some st => served st Ready Node i i' c c' | None => i' = i /\ c' = c end) as Hans.
  { intros a c2 Ha Hh Hw. destruct (answer_serves Ready Node a i c c2 Hu Ha Hh Hw) as (st & i' & c' & E & Hs).
    by exists (Some st), i', c'. }
  destruct (_ =? UACPINT_IOCTL_GET_DEVICE_INFORMATION);
    [apply Hans; [by eapply device_information_fits|apply holds_refl|done]|].
  destruct (_ =? UACPINT_IOCTL_GET_DEVICE_SPECIFIC_DATA);
    [apply Hans; [by eapply specific_data_fits|apply holds_refl|done]|].
  destruct (_ =? UACPINT_IOCTL_QUERY_BIOS_NAME); [apply Hans; [by eapply bios_name_fits|apply holds_refl|done]|].
  destruct (bool_decide (_ ∈ unsupported_codes)); [apply Hans; [by eapply refused_fits|apply holds_refl|done]|].
  destruct (_ =? IOCTL_ACPI_ENUM_CHILDREN); [apply Hans; [by eapply enum_children_fits|apply holds_refl|done]|].
  destruct (_ || _).
  { destruct (UacpiNtManipulateGlobalLock _ _ _ c) as [st c2] eqn:E.
    assert (cs_Eval c2 = cs_Eval c /\ cs_Works c2 = cs_Works c) as [H1 H2].
    { unfold UacpiNtManipulateGlobalLock in E. repeat case_hyp E; by simplify_eq. }
    apply Hans; [by eapply refused_fits| |done]. unfold holds_same. rewrite H1. split; lia. }
  destruct (bool_decide (_ ∈ IOCTL_ACPI_EVAL_METHODS)); [|by eexists _, _, _].
  destruct (cn_Passive i).
  - destruct (evaluate_control_answers Ready Node i c Hr Hu) as (st & i' & c' & -> & Ha & Hh & Hw). cbn [mbind run_bind].
    eexists (Some st), _, _. split; [done|]. by left.
  - destruct (queue_serves Ready Node i c Hr Hu) as (st & i' & c' & -> & Hs). by exists (Some st), i', c'.
Qed.

(** *** The APIC of a processor *)

(** What an entry tells: the APIC ID, if it is of the processor asked for. *)
Definition apic_of (ProcessorId : Z) (e : Z * list Z) : option Z :=
  match e with
  | (0, uid :: id :: _ :: _ :: _ :: _ :: _) => if uid =? ProcessorId then Some id else None
  | (9, _ :: _ :: i0 :: i1 :: i2 :: i3 :: _ :: _ :: _ :: _ :: u0 :: u1 :: u2 :: u3 :: _) =>
      if le_bytes [u0; u1; u2; u3] =? ProcessorId then Some (le_bytes [i0; i1; i2; i3]) else None
  | _ => None
  end.

Lemma find_apic_stops fuel pre rest P : madt_stops rest -> (length rest <= fuel)%nat ->
  find_apic_id fuel (pre ++ rest) (Z.of_nat (length pre)) P = Done None.
Proof.
  intros Hs Hf. assert (length rest < 2 \/ 2 <= length rest)%nat as [Hl|Hl] by lia.
  { destruct fuel; cbn [find_apic_id]; rewrite length_app; destruct (_ + 2 <=? _) eqn:E; bool_prop; (lia || done). }
  destruct rest as [|t [|n p] ]; simpl in Hl; try lia. destruct fuel; simpl in Hf; [lia|].
  cbn [find_apic_id]. rewrite length_app.
  destruct (_ + 2 <=? _) eqn:E; bool_prop; [|simpl in E; lia]. simpl negb. cbv iota.
  rewrite (load_nth pre (t :: n :: p) 0 t (Z.of_nat (length pre))) by (done || lia).
  rewrite (load_nth pre (t :: n :: p) 1 n (Z.of_nat (length pre) + 1)) by (done || lia). cbn [mbind run_bind].
  unfold madt_stops in Hs. cbn [length] in *. destruct ((n <? 2) || _) eqn:E2; [done|]. bool_prop. lia.
Qed.

(** The entry at the cursor. *)
Lemma find_apic_entry fuel pre e rest P :
  let buf := pre ++ madt_bytes e ++ rest in
  find_apic_id (Datatypes.S fuel) buf (Z.of_nat (length pre)) P =
    match apic_of P e with
    | Some id => Done (Some id)
    | None => find_apic_id fuel buf (Z.of_nat (length pre) + Z.of_nat (length (madt_bytes e))) P
    end.
Proof.
  destruct e as [t q]. intros buf. set (n := Z.of_nat (length q + 2)).
  assert (buf = pre ++ (t :: n :: q ++ rest)) as -> by done.
  assert (Hn : n = Z.of_nat (length q + 2)) by done. clearbody n. cbn [find_apic_id].
  assert (length (pre ++ t :: n :: q ++ rest) = (length pre + (length q + 2) + length rest)%nat) as ->
    by (rewrite length_app; simpl; rewrite length_app; lia).
  destruct (_ + 2 <=? _) eqn:E; bool_prop; [|lia]. simpl negb. cbv iota.
  set (r := t :: n :: q ++ rest).
  rewrite (load_nth pre r 0 t (Z.of_nat (length pre))) by (done || lia).
  rewrite (load_nth pre r 1 n (Z.of_nat (length pre) + 1)) by (done || lia). cbn [mbind run_bind].
  destruct ((n <? 2) || _) eqn:E2; [apply orb_prop in E2 as [E2|E2]; bool_prop; lia|]. clear E E2.
  assert (Z.of_nat (length (madt_bytes (t, q))) = n) as -> by (unfold madt_bytes; simpl; lia).
  unfold ACPI_MADT_ENTRY_TYPE_LAPIC, ACPI_MADT_ENTRY_TYPE_LOCAL_X2APIC, sizeof_madt_lapic, sizeof_madt_x2apic.
  destruct (t =? 0) eqn:T0; [apply Z.eqb_eq in T0 as ->|].
  - simpl (0 =? 9). rewrite andb_false_l, andb_true_l.
    destruct (8 <=? n) eqn:E8; bool_prop.
    + do 6 (destruct q as [|? q]; [simpl in Hn; lia|]).
      rewrite (load_nth pre r 2 z (Z.of_nat (length pre) + 2)) by (done || lia). cbn [mbind run_bind apic_of].
      destruct (z =? P); [|done].
      by rewrite (load_nth pre r 3 z0 (Z.of_nat (length pre) + 3)) by (done || lia).
    + cbn [mbind run_bind]. do 6 (destruct q as [|? q]; [done|]). simpl in Hn. lia.
  - rewrite andb_false_l. destruct (t =? 9) eqn:T9; [apply Z.eqb_eq in T9 as ->|].
    + rewrite andb_true_l. destruct (16 <=? n) eqn:E16; bool_prop.
      * do 14 (destruct q as [|? q]; [simpl in Hn; lia|]).
        rewrite (load_le_nth pre r 4 12 [z9; z10; z11; z12] (Z.of_nat (length pre) + 12));
          [|lia|done|intros i Hi; do 4 (destruct i as [|i]; [done|]); lia]. cbn [mbind run_bind apic_of].
        destruct (_ =? P); [|done].
        by rewrite (load_le_nth pre r 4 4 [z1; z2; z3; z4] (Z.of_nat (length pre) + 4));
          [|lia|done|intros i Hi; do 4 (destruct i as [|i]; [done|]); lia].
      * cbn [mbind run_bind]. do 14 (destruct q as [|? q]; [done|]). simpl in Hn. lia.
    + rewrite andb_false_l. cbn [mbind run_bind]. bool_prop. unfold apic_of.
      repeat (case_match; try done).
Qed.

Lemma find_apic_exact es tail : madt_stops tail -> forall fuel pre P,
  (length (flat_map madt_bytes es ++ tail) <= fuel)%nat ->
  find_apic_id fuel (pre ++ flat_map madt_bytes es ++ tail) (Z.of_nat (length pre)) P = Done (head (omap (apic_of P) es)).
Proof.
  intros Hs. induction es as [|e es IH]; intros fuel pre P Hf; [by apply find_apic_stops|].
  cbn [flat_map] in *. rewrite <- app_assoc in *. rewrite length_app in Hf.
  assert (2 <= length (madt_bytes e))%nat by (unfold madt_bytes; simpl; lia).
  destruct fuel as [|fuel]; [lia|]. rewrite find_apic_entry. simpl. destruct (apic_of P e) as [id|]; [done|].
  specialize (IH fuel (pre ++ madt_bytes e) P ltac:(lia)).
  by rewrite <- !app_assoc, length_app, Nat2Z.inj_add in IH.
Qed.

Definition madt_is_bytes (Madt : option (list Z)) : Prop := match Madt with Some b => Forall is_byte b | None => True end.

Lemma apic_id_total Madt P : madt_is_bytes Madt -> exists o, UacpiNtFindInitialApicId Madt P = Done o.
Proof.
  destruct Madt as [b|]; [|by exists None]. intros Hb. destruct (madt_cut b Hb) as (es & tail & E & Ht).
  eexists. simpl. rewrite E at 2. apply (find_apic_exact es tail Ht (length b) [] P). by rewrite <- E.
Qed.

Lemma length_processor_fields Info : length (processor_fields Info) = 12%nat.
Proof. by destruct Info as [[[a b] c]|]. Qed.

(** The reply to a kernel caller on a processor: as much as there is room for. *)
Lemma processor_info_result Node Madt i c b :
  cn_Code i = UACPINT_IOCTL_GET_PROCESSOR_OBJ_INFO -> cn_KernelMode i = true -> usable i -> cn_Buffer i = Some b ->
  madt_is_bytes Madt -> 12 <= cn_OutputLength i ->
  let Info := if Node =? NULL then None else UacpiNtGetProcessorInfo Node in
  exists o, match Info with
    | Some (Id, _, _) => UacpiNtFindInitialApicId Madt (u8 Id) = Done o
    | None => o = None
    end /\
  let reply := if cn_OutputLength i <? 16 then processor_fields Info
               else processor_fields Info ++ le_field 4 (default 0xFFFFFFFF o) in
  UacpiNtProcessorObjInfo true Node Madt i c =
    complete_answer (Done (STATUS_SUCCESS, Z.of_nat (length reply), Some (reply ++ drop (length reply) b))) i c.
Proof.
  intros Hcode Hk [Hc _] Eb Hm H12 Info. unfold UacpiNtProcessorObjInfo. rewrite Hcode, Z.eqb_refl, Hk, Eb.
  simpl negb. cbv iota zeta. simpl orb. cbv iota. rewrite Eb in Hc. destruct Hc as (HI & HI2 & HO & _).
  unfold PROCESSOR_OBJ_INFO_ApicId, sizeof_PROCESSOR_OBJ_INFO. fold Info.
  destruct (_ <? 12) eqn:E; bool_prop; [lia|].
  assert (exists o, match Info with Some (Id, _, _) => UacpiNtFindInitialApicId Madt (u8 Id) = Done o | None => o = None end) as [o Ho].
  { destruct Info as [[[Id ?] ?]|]; [by apply apic_id_total|by exists None]. }
  exists o. split; [done|].
  assert ((match Info with Some (Id, _, _) => UacpiNtFindInitialApicId Madt (u8 Id) | None => Done None end) = Done o) as Ef.
  { destruct Info as [[[Id ?] ?]|]; [done|by subst]. }
  assert (forall n, 12 <= n -> n <= cn_OutputLength i ->
    (b ← store_bytes b 0 (zeroes n); store_bytes b 0 (processor_fields Info)) =
      Done (processor_fields Info ++ replicate (Z.to_nat n - 12) 0 ++ drop (Z.to_nat n) b)) as Hz.
  { intros n Hn Hb. unfold zeroes. rewrite <- (take_drop (Z.to_nat n) b) at 1.
    rewrite (store_bytes_at [] (take (Z.to_nat n) b) (drop (Z.to_nat n) b)) by (rewrite ?length_take, ?length_replicate; lia || done).
    cbn [mbind run_bind app]. replace (Z.to_nat n) with (12 + (Z.to_nat n - 12))%nat at 1 by lia.
    rewrite replicate_add, <- app_assoc.
    apply (store_bytes_at [] (replicate 12 0)); [by rewrite length_processor_fields|done]. }
  destruct (_ <? 16) eqn:E16; bool_prop.
  - destruct (16 <=? _) eqn:E2; bool_prop; [lia|]. specialize (Hz 12 ltac:(lia) ltac:(lia)).
    destruct (store_bytes b 0 _) as [|b']; [done|]. cbn [mbind run_bind] in *. rewrite Hz. cbn [mbind run_bind].
    cbv zeta. rewrite length_processor_fields. done.
  - destruct (16 <=? _) eqn:E2; bool_prop; [|lia]. specialize (Hz 16 ltac:(lia) ltac:(lia)).
    destruct (store_bytes b 0 _) as [|b']; [done|]. cbn [mbind run_bind] in *. rewrite Hz. cbn [mbind run_bind].
    rewrite Ef. cbn [mbind run_bind]. cbv zeta. rewrite length_app, length_processor_fields, length_le_field.
    rewrite (store_bytes_at (processor_fields Info) (replicate 4 0) (drop 16 b)) by (by rewrite ?length_processor_fields).
    cbn [mbind run_bind]. by rewrite <- app_assoc.
Qed.

Lemma processor_serves Ready Node Madt IsProcessor i c : madt_is_bytes Madt -> usable i ->
  exists d i' c', UacpiNtProcessorObjInfo IsProcessor Node Madt i c = Done (d, i', c') /\
    match d with Some st => served st Ready Node i i' c c' | None => i' = i /\ c' = c end.
Proof.
  intros Hm Hu. pose proof Hu as [Hc _].
  assert (forall a, answer_fits (cn_Buffer i) (cn_OutputLength i) a ->
    exists d i' c', complete_answer a i c = Done (d, i', c') /\
      match d with Some st => served st Ready Node i i' c c' | None => i' = i /\ c' = c end) as Hans.
  { intros a Ha. destruct (answer_serves Ready Node a i c c Hu Ha (holds_refl c) eq_refl) as (st & i' & c' & E & Hs).
    by exists (Some st), i', c'. }
  destruct (cn_Code i =? UACPINT_IOCTL_GET_PROCESSOR_OBJ_INFO) eqn:E1; [|by unfold UacpiNtProcessorObjInfo; rewrite E1; eexists _, _, _].
  destruct IsProcessor; [|unfold UacpiNtProcessorObjInfo; rewrite orb_true_r; by eexists _, _, _].
  destruct (cn_KernelMode i) eqn:E2;
    [|unfold UacpiNtProcessorObjInfo; rewrite E1, E2; apply Hans; by eapply refused_fits].
  destruct (cn_Buffer i) as [b|] eqn:Eb;
    [|unfold UacpiNtProcessorObjInfo; rewrite E1, E2, Eb; apply Hans; by eapply refused_fits].
  destruct (decide (12 <= cn_OutputLength i)) as [H12|H12].
  2:{ unfold UacpiNtProcessorObjInfo. rewrite E1, E2, Eb. simpl negb. cbv iota zeta. simpl orb. cbv iota.
      unfold PROCESSOR_OBJ_INFO_ApicId. destruct (_ <? 12) eqn:E; bool_prop; [|lia].
      apply Hans. by eapply refused_fits. }
  apply Z.eqb_eq in E1.
  destruct (processor_info_result Node Madt i c b E1 E2 Hu Eb Hm H12) as (o & _ & ->). apply Hans.
  set (reply := if _ <? 16 then _ else _). destruct Hc as (HI & HI2 & HO & _).
  assert (Z.of_nat (length reply) <= cn_OutputLength i).
  { unfold reply. destruct (_ <? 16) eqn:E; bool_prop; rewrite ?length_app, length_processor_fields, ?length_le_field; lia. }
  eexists _, _, _. split; [done|]. split; [lia|]. rewrite length_app, length_drop. split; [lia|].
  rewrite (drop_past _ _ (length reply)), drop_drop by lia. f_equal. lia.
Qed.

(** A processor driver learns who it is: the id, the block and its length of
    the Processor object and, where there is room, the APIC ID of the first entry
    of the MADT with that id, local or x2, in any table of any bytes; all ones
    when there is none. *)
Theorem processor_info_exact Node Buffer i c b Id Address Length :
  cn_Code i = UACPINT_IOCTL_GET_PROCESSOR_OBJ_INFO -> cn_KernelMode i = true -> usable i -> cn_Buffer i = Some b ->
  Forall is_byte Buffer -> 16 <= cn_OutputLength i -> Node <> NULL -> UacpiNtGetProcessorInfo Node = Some (Id, Address, Length) ->
  exists es tail, Buffer = flat_map madt_bytes es ++ tail /\ madt_stops tail /\
  let reply := le_field 4 Id ++ le_field 4 Address ++ [u8 Length; 0; 0; 0] ++
               le_field 4 (default 0xFFFFFFFF (head (omap (apic_of (u8 Id)) es))) in
  UacpiNtProcessorObjInfo true Node (Some Buffer) i c =
    complete_answer (Done (STATUS_SUCCESS, 16, Some (reply ++ drop 16 b))) i c.
Proof.
  intros Hcode Hk Hu Eb Hb H16 HN Hp. destruct (madt_cut Buffer Hb) as (es & tail & E & Ht).
  exists es, tail. split; [done|]. split; [done|].
  destruct (processor_info_result Node (Some Buffer) i c b Hcode Hk Hu Eb Hb ltac:(lia)) as (o & Ho & ->).
  destruct (Node =? NULL) eqn:EN; bool_prop; [done|]. rewrite Hp in Ho |- *. simpl in Ho.
  rewrite E in Ho at 2. pose proof (find_apic_exact es tail Ht (length Buffer) [] (u8 Id) ltac:(by rewrite <- E)) as Ef.
  simpl app in Ef. change (Z.of_nat (length [])) with 0 in Ef. rewrite Ef in Ho. injection Ho as <-.
  destruct (_ <? 16) eqn:E16; bool_prop; [lia|]. by rewrite <- !app_assoc.
Qed.
End Answers.

(** ** Examples *)

(** Node 5 has the children 6 and 7; 6 has a child of its own.  Node 8 is the
    processor 1. *)
Definition control_example : AcpiControl := {|
  CTL_CODE_ACPI n := 0x0032C000 + 4 * n;
  IOCTL_ACPI_EVAL_METHODS := map (fun n => 0x0032C000 + 4 * n) [0; 1; 6; 7; 15; 16; 17; 18];
  IOCTL_ACPI_ENUM_CHILDREN := 0x0032C020;
  IOCTL_ACPI_ACQUIRE_GLOBAL_LOCK := 0x0032C010;
  IOCTL_ACPI_RELEASE_GLOBAL_LOCK := 0x0032C014;
  SPECIFIC_DATA_PropertyName := 12;
  ACPI_ENUM_CHILDREN_INPUT_BUFFER_SIGNATURE := 10;
  ACPI_ENUM_CHILDREN_OUTPUT_BUFFER_SIGNATURE := 11;
  ACPI_OBJECT_HAS_CHILDREN := 1;
  DEVICE_INFORMATION_Size := 4;
  sizeof_DEVICE_INFORMATION := 12;
  device_information_bytes Needed Instance :=
    le_field 4 0x4A696541 ++ le_field 2 Needed ++ le_field 2 1 ++ le_field 2 12 ++ le_field 2 5 ++ Instance;
  uacpi_namespace_node_name n := [67; 72; 48; 48 + n mod 10];
  namespace_children n := if n =? 5 then [6; 7] else if n =? 6 then [9] else [];
  uacpi_namespace_node_generate_absolute_path n := Some [92; 65];
  UacpiNtGetProcessorInfo n := if n =? 8 then Some (1, 0, 6) else None;
  uacpi_acquire_global_lock _ := (UACPI_STATUS_OK, 3);
  uacpi_release_global_lock _ _ := UACPI_STATUS_OK
|}.

Lemma control_example_laws : @AcpiControlLaws control_example.
Proof.
  split; [by vm_compute| |done|by vm_compute].
  intros Needed Instance. simpl. lia.
Qed.

Definition fresh_control : control_state := mkControlState fresh_eval 0 0 [].

Definition children_buffer : list Z := le_field 4 10 ++ replicate 32 255.

Lemma enum_children_exact_witness :
  @UacpiNtEnumChildren control_example 5 (Some children_buffer) 8 36 =
    Done (STATUS_SUCCESS, 34, Some (le_field 4 11 ++ le_field 4 2 ++
      (le_field 4 1 ++ le_field 4 5 ++ [67; 72; 48; 54; 0]) ++ (le_field 4 0 ++ le_field 4 5 ++ [67; 72; 48; 55; 0]) ++
      [255; 255])).
Proof.
  rewrite (@enum_children_exact control_example control_example_laws).
  - by vm_compute.
  - done.
  - by vm_compute.
  - split_and!; [by vm_compute..|by apply bytes_check].
  - done.
  - by vm_compute.
Defined.

(** An evaluation that arrives above PASSIVE_LEVEL. *)
Definition control_call : control_irp := mkControl 0x0032C000 24 32 true false (Some eval_buffer) [].

(** The processor 1 is the second entry, with APIC ID 4. *)
Definition processor_madt : list Z := [0; 8; 0; 2; 1; 0; 0; 0; 0; 8; 1; 4; 1; 0; 0; 0].
Definition processor_call : control_irp := mkControl 0x00294180 0 16 true true (Some (replicate 16 255)) [].

Lemma processor_info_exact_witness : exists es tail,
  processor_madt = flat_map madt_bytes es ++ tail /\
  le_field 4 (default 0xFFFFFFFF (head (omap (apic_of 1) es))) = [4; 0; 0; 0].
Proof.
  destruct (@processor_info_exact control_example 8 processor_madt processor_call fresh_control (replicate 16 255) 1 0 6)
    as (es & tail & Em & _ & E); try done.
  - split; [|done]. split_and!; [by vm_compute..|by apply bytes_check].
  - by apply bytes_check.
  - exists es, tail. split; [exact Em|].
    assert (@UacpiNtProcessorObjInfo control_example true 8 (Some processor_madt) processor_call fresh_control =
      complete_answer (Done (STATUS_SUCCESS, 16, Some [1; 0; 0; 0; 0; 0; 0; 0; 6; 0; 0; 0; 4; 0; 0; 0])) processor_call fresh_control)
      as E' by by vm_compute.
    rewrite E' in E. change (u8 1) with 1 in E. set (x := le_field 4 (default _ _)) in *.
    unfold complete_answer in E. cbn [mbind run_bind complete_control cn_set_Buffer] in E.
    injection E. intros. subst x. cbn [le_field]. congruence.
Defined.

(** ** Behaviour found *)

(** A caller with room for the Size field only is given what stood before it in
    the system buffer, which the driver has not written. *)
Theorem device_size_shows_old_bytes `{AcpiControl} Node b OutputLength :
  Node <> NULL -> 0 <= DEVICE_INFORMATION_Size ->
  DEVICE_INFORMATION_Size + 2 <= OutputLength < sizeof_DEVICE_INFORMATION + 5 -> OutputLength <= Z.of_nat (length b) ->
  exists b', UacpiNtGetDeviceInformation Node (Some b) OutputLength =
      Done (STATUS_BUFFER_OVERFLOW, DEVICE_INFORMATION_Size + 2, Some b') /\
    take (Z.to_nat DEVICE_INFORMATION_Size) b' = take (Z.to_nat DEVICE_INFORMATION_Size) b.
Proof.
  intros HN H0 Hl Hb. unfold UacpiNtGetDeviceInformation, UACPINT_NODE_NAME_LENGTH. destruct (Node =? NULL) eqn:E; bool_prop; [done|].
  cbv zeta. destruct (_ <? _) eqn:E1; bool_prop; [|lia]. destruct (_ <=? _) eqn:E2; bool_prop; [|lia].
  unfold with_buffer, store_bytes. rewrite length_le_field. destruct (decide _); [|lia]. cbn [mbind run_bind].
  eexists. split; [done|]. apply take_app_length'. rewrite length_take. lia.
Qed.
