(* ===== verification/EcPort.v ===== *)
(** The embedded controller behind its two ports: drivers/ec.c, the byte
    transactions, the address space of the interpreter and the transfers of IRPs.

    What the ports answer is a parameter, so that a timeout is a branch of the
    code.  [EcLaws] is what chapter 12 of the ACPI specification says a controller
    does; the traffic on the ports is kept as a trace, newest first. *)
From stdpp Require Import base list numbers option.
From Stdlib Require Import ZArith Lia.
From S2P Require Import Prelude AcpiEnv Bytes.

Definition UACPINT_EC_COMMAND_READ : Z := 0x80.
Definition UACPINT_EC_COMMAND_WRITE : Z := 0x81.
Definition UACPINT_EC_COMMAND_QUERY : Z := 0x84.
Definition UACPINT_EC_STATUS_OBF : Z := 0x01.
Definition UACPINT_EC_STATUS_IBF : Z := 0x02.
Definition UACPINT_EC_STATUS_SCI_EVT : Z := 0x20.
Definition UACPINT_EC_SPACE_SIZE : Z := 256.
Definition UACPINT_EC_TIMEOUT_US : Z := 10000.
Definition UACPINT_EC_POLL_US : Z := 10.
Definition UACPINT_EC_QUERY_CODES : nat := 256.

Definition UACPI_STATUS_AML_BAD_ENCODING : uacpi_status := 0x0EFF0005.
Definition UACPI_STATUS_UNIMPLEMENTED : uacpi_status := 8.
Definition STATUS_DEVICE_NOT_READY : NTSTATUS := 0xC00000A3.
Definition STATUS_IO_TIMEOUT : NTSTATUS := 0xC00000B5.

(** ** The ports *)

(** READ_PORT_UCHAR, WRITE_PORT_UCHAR, KeStallExecutionProcessor, and the global
    lock of the firmware. *)
Class EcPorts := {
  ec_hw : Type;
  port_in : Z -> ec_hw -> Z * ec_hw;
  port_out : Z -> Z -> ec_hw -> ec_hw;
  port_stall : Z -> ec_hw -> ec_hw;
  port_acquire : Z -> ec_hw -> uacpi_status * Z * ec_hw;
  port_release : Z -> ec_hw -> ec_hw
}.

Inductive port_event :=
| PortIn (port value : Z)
| PortOut (port value : Z)
| MutexAcquire
| MutexRelease
| GlobalAcquire (sequence : Z)
| GlobalRelease (sequence : Z).

(** ** The controller's block *)

(** [Next] is the order of the driver's list; the lock, the work item and the DPC
    are the threads of EcQuery.v. *)
Record UACPINT_EC := mkEc {
  ec_Node : acpi_node;
  ec_Pdo : PVOID;
  ec_DataPort : Z;
  ec_ControlPort : Z;
  ec_GpeDevice : acpi_node;
  ec_GpeLine : Z;
  ec_RegionInstalled : bool;
  ec_FromEcdt : bool;
  ec_GlobalLock : bool;
  ec_QueryRoutine : list PVOID;
  ec_QueryContext : list PVOID
}.

Section Ports.
Context {P : EcPorts}.

Record port_state := mkPort {
  ps_Hw : ec_hw;
  ps_Trace : list port_event
}.

Definition ps_note (e : port_event) (s : port_state) : port_state := mkPort (ps_Hw s) (e :: ps_Trace s).

Definition READ_PORT_UCHAR (Port : Z) (s : port_state) : Z * port_state :=
  let '(v, h) := port_in Port (ps_Hw s) in (v, mkPort h (PortIn Port v :: ps_Trace s)).
Definition WRITE_PORT_UCHAR (Port v : Z) (s : port_state) : port_state :=
  mkPort (port_out Port v (ps_Hw s)) (PortOut Port v :: ps_Trace s).
Definition KeStallExecutionProcessor (Us : Z) (s : port_state) : port_state :=
  mkPort (port_stall Us (ps_Hw s)) (ps_Trace s).
Definition ExAcquireFastMutex : port_state -> port_state := ps_note MutexAcquire.
Definition ExReleaseFastMutex : port_state -> port_state := ps_note MutexRelease.

Definition UacpiNtEcReadStatus (Ec : UACPINT_EC) := READ_PORT_UCHAR (ec_ControlPort Ec).
Definition UacpiNtEcWriteCommand (Ec : UACPINT_EC) (Command : Z) := WRITE_PORT_UCHAR (ec_ControlPort Ec) Command.
Definition UacpiNtEcReadData (Ec : UACPINT_EC) := READ_PORT_UCHAR (ec_DataPort Ec).
Definition UacpiNtEcWriteData (Ec : UACPINT_EC) (Data : Z) := WRITE_PORT_UCHAR (ec_DataPort Ec) Data.

(** The loop from a given [Elapsed] on; the fuel is never what ends it. *)
Fixpoint wait_status (fuel : nat) (Ec : UACPINT_EC) (Mask Expected Elapsed : Z) (s : port_state) : bool * port_state :=
  let '(v, s) := UacpiNtEcReadStatus Ec s in
  if Z.land v Mask =? Expected then (true, s)
  else if UACPINT_EC_TIMEOUT_US <=? Elapsed then (false, s)
  else
    match fuel with
    | O => (false, s)
    | S fuel =>
        wait_status fuel Ec Mask Expected (u32 (Elapsed + UACPINT_EC_POLL_US))
          (KeStallExecutionProcessor UACPINT_EC_POLL_US s)
    end.

Definition wait_fuel : nat := 1000.

Definition UacpiNtEcWaitStatus (Ec : UACPINT_EC) (Mask Expected : Z) : port_state -> bool * port_state :=
  wait_status wait_fuel Ec Mask Expected 0.

Definition UacpiNtEcWaitInputEmpty (Ec : UACPINT_EC) := UacpiNtEcWaitStatus Ec UACPINT_EC_STATUS_IBF 0.
Definition UacpiNtEcWaitOutputFull (Ec : UACPINT_EC) :=
  UacpiNtEcWaitStatus Ec UACPINT_EC_STATUS_OBF UACPINT_EC_STATUS_OBF.

(** The flag, and the sequence number the release hands back. *)
Definition UacpiNtEcLockGlobal (Ec : UACPINT_EC) (s : port_state) : bool * Z * port_state :=
  if negb (ec_GlobalLock Ec) then (true, 0, s)
  else
    let '(st, Sequence, h) := port_acquire 0xFFFF (ps_Hw s) in
    if st =? UACPI_STATUS_OK then (true, Sequence, mkPort h (GlobalAcquire Sequence :: ps_Trace s))
    else (false, Sequence, mkPort h (ps_Trace s)).

Definition UacpiNtEcUnlockGlobal (Ec : UACPINT_EC) (Sequence : Z) (s : port_state) : port_state :=
  if ec_GlobalLock Ec then mkPort (port_release Sequence (ps_Hw s)) (GlobalRelease Sequence :: ps_Trace s) else s.

(** ** Transactions *)

(** [Some] of the byte for TRUE. *)
Definition UacpiNtEcReadByte (Ec : UACPINT_EC) (Address : Z) (s : port_state) : option Z * port_state :=
  let s := ExAcquireFastMutex s in
  let '(Success, s) := UacpiNtEcWaitInputEmpty Ec s in
  let '(Success, s) :=
    if Success then UacpiNtEcWaitInputEmpty Ec (UacpiNtEcWriteCommand Ec UACPINT_EC_COMMAND_READ s)
    else (false, s) in
  let '(Success, s) :=
    if Success then UacpiNtEcWaitOutputFull Ec (UacpiNtEcWriteData Ec Address s) else (false, s) in
  let '(Value, s) :=
    if Success then let '(v, s) := UacpiNtEcReadData Ec s in (Some v, s) else (None, s) in
  (Value, ExReleaseFastMutex s).

Definition UacpiNtEcWriteByte (Ec : UACPINT_EC) (Address Value : Z) (s : port_state) : bool * port_state :=
  let s := ExAcquireFastMutex s in
  let '(Success, s) := UacpiNtEcWaitInputEmpty Ec s in
  let '(Success, s) :=
    if Success then UacpiNtEcWaitInputEmpty Ec (UacpiNtEcWriteCommand Ec UACPINT_EC_COMMAND_WRITE s)
    else (false, s) in
  let '(Success, s) :=
    if Success then UacpiNtEcWaitInputEmpty Ec (UacpiNtEcWriteData Ec Address s) else (false, s) in
  let s := if Success then UacpiNtEcWriteData Ec Value s else s in
  (Success, ExReleaseFastMutex s).

(** 0 when nothing was fetched. *)
Definition UacpiNtEcFetchQuery (Ec : UACPINT_EC) (s : port_state) : Z * port_state :=
  let '(Locked, Sequence, s) := UacpiNtEcLockGlobal Ec s in
  if negb Locked then (0, s)
  else
    let s := ExAcquireFastMutex s in
    let '(Status, s) := UacpiNtEcReadStatus Ec s in
    let '(Success, s) :=
      if has_flag Status UACPINT_EC_STATUS_SCI_EVT then UacpiNtEcWaitInputEmpty Ec s else (false, s) in
    let '(QueryCode, s) :=
      if Success then
        let '(Full, s) := UacpiNtEcWaitOutputFull Ec (UacpiNtEcWriteCommand Ec UACPINT_EC_COMMAND_QUERY s) in
        if Full then UacpiNtEcReadData Ec s else (0, s)
      else (0, s) in
    (QueryCode, UacpiNtEcUnlockGlobal Ec Sequence (ExReleaseFastMutex s)).

(** ** The address space of the interpreter *)

(** [byte_width] is an 8-bit number, the other fields are 64-bit ones. *)
Record uacpi_region_rw_data := mkRw {
  rw_offset : Z;
  rw_value : Z;
  rw_byte_width : Z
}.

Definition rw_set_value (v : Z) (d : uacpi_region_rw_data) : uacpi_region_rw_data :=
  mkRw (rw_offset d) v (rw_byte_width d).

Definition rw_Width (d : uacpi_region_rw_data) : nat :=
  Z.to_nat (if rw_byte_width d =? 0 then 1 else rw_byte_width d).

(** The rest of the loop: [n] bytes from [Index] on. *)
Fixpoint region_read (n : nat) (Index : Z) (Ec : UACPINT_EC) (d : uacpi_region_rw_data) (s : port_state)
  : uacpi_status * uacpi_region_rw_data * port_state :=
  match n with
  | O => (UACPI_STATUS_OK, d, s)
  | S n =>
      if UACPINT_EC_SPACE_SIZE <=? rw_offset d +u Index then (UACPI_STATUS_AML_BAD_ENCODING, d, s)
      else
        let '(Value, s) := UacpiNtEcReadByte Ec (u8 (rw_offset d +u Index)) s in
        match Value with
        | None => (UACPI_STATUS_AML_BAD_ENCODING, d, s)
        | Some v =>
            region_read n (Index + 1) Ec
              (rw_set_value (Z.lor (rw_value d) (u64 (Z.shiftl v (Index * 8)))) d) s
        end
  end.

Definition UacpiNtEcRegionRead (Ec : UACPINT_EC) (d : uacpi_region_rw_data) (s : port_state) :=
  region_read (rw_Width d) 0 Ec (rw_set_value 0 d) s.

Fixpoint region_write (n : nat) (Index : Z) (Ec : UACPINT_EC) (d : uacpi_region_rw_data) (s : port_state)
  : uacpi_status * port_state :=
  match n with
  | O => (UACPI_STATUS_OK, s)
  | S n =>
      if UACPINT_EC_SPACE_SIZE <=? rw_offset d +u Index then (UACPI_STATUS_AML_BAD_ENCODING, s)
      else
        let '(Success, s) :=
          UacpiNtEcWriteByte Ec (u8 (rw_offset d +u Index)) (u8 (Z.shiftr (rw_value d) (Index * 8))) s in
        if Success then region_write n (Index + 1) Ec d s else (UACPI_STATUS_AML_BAD_ENCODING, s)
  end.

Definition UacpiNtEcRegionWrite (Ec : UACPINT_EC) (d : uacpi_region_rw_data) (s : port_state) :=
  region_write (rw_Width d) 0 Ec d s.

(** An operation with the data it comes with; an attach carries the context of
    the handler and the one of the region. *)
Inductive uacpi_region_op :=
| UACPI_REGION_OP_ATTACH (handler_context out_region_context : PVOID)
| UACPI_REGION_OP_DETACH
| UACPI_REGION_OP_READ (d : uacpi_region_rw_data)
| UACPI_REGION_OP_WRITE (d : uacpi_region_rw_data)
| UACPI_REGION_OP_OTHER (op : Z).

Definition UacpiNtEcRegionHandler (Ec : UACPINT_EC) (Operation : uacpi_region_op) (s : port_state)
  : uacpi_status * uacpi_region_op * port_state :=
  match Operation with
  | UACPI_REGION_OP_ATTACH handler_context _ =>
      (UACPI_STATUS_OK, UACPI_REGION_OP_ATTACH handler_context handler_context, s)
  | UACPI_REGION_OP_DETACH => (UACPI_STATUS_OK, Operation, s)
  | UACPI_REGION_OP_READ d =>
      let '(st, d, s) := UacpiNtEcRegionRead Ec d s in (st, UACPI_REGION_OP_READ d, s)
  | UACPI_REGION_OP_WRITE d =>
      let '(st, s) := UacpiNtEcRegionWrite Ec d s in (st, Operation, s)
  | UACPI_REGION_OP_OTHER _ => (UACPI_STATUS_UNIMPLEMENTED, Operation, s)
  end.

(** ** Transfers *)

(** IRP_MJ_READ and IRP_MJ_WRITE; [ei_Completed] is newest first. *)
Record ec_irp := mkEcIrp {
  ei_Write : bool;
  ei_Length : Z;
  ei_LowPart : Z;
  ei_HighPart : Z;
  ei_Passive : bool;
  ei_Buffer : option (list Z);
  ei_Completed : list (NTSTATUS * Z)
}.

Definition ei_set_Buffer (b : list Z) (i : ec_irp) : ec_irp :=
  mkEcIrp (ei_Write i) (ei_Length i) (ei_LowPart i) (ei_HighPart i) (ei_Passive i) (Some b) (ei_Completed i).

Definition complete_transfer (Status : NTSTATUS) (Information : Z) (i : ec_irp) : NTSTATUS * ec_irp :=
  (Status, mkEcIrp (ei_Write i) (ei_Length i) (ei_LowPart i) (ei_HighPart i) (ei_Passive i) (ei_Buffer i)
             ((Status, Information) :: ei_Completed i)).

(** The loop from [Index] on, for [n] more bytes; the number is where it ended. *)
Fixpoint transfer (n : nat) (Index : Z) (Ec : UACPINT_EC) (IsWrite : bool) (Offset : Z) (b : list Z) (s : port_state)
  : run (Z * list Z * port_state) :=
  match n with
  | O => Done (Index, b, s)
  | S n =>
      let Address := u8 (u32 (Offset + Index)) in
      if IsWrite then
        v ← load b Index;
        let '(Success, s) := UacpiNtEcWriteByte Ec Address v s in
        if Success then transfer n (Index + 1) Ec IsWrite Offset b s else Done (Index, b, s)
      else
        let '(Value, s) := UacpiNtEcReadByte Ec Address s in
        match Value with
        | None => Done (Index, b, s)
        | Some v => b ← store b (Z.to_nat Index) v; transfer n (Index + 1) Ec IsWrite Offset b s
        end
  end.

(** [Ec]: the block of the device, once it has one. *)
Definition UacpiNtEcReadWrite (Ec : option UACPINT_EC) (i : ec_irp) (s : port_state)
  : run (NTSTATUS * ec_irp * port_state) :=
  let complete Status Information i s :=
    let '(Status, i) := complete_transfer Status Information i in Done (Status, i, s) in
  let Length := ei_Length i in
  let Offset := ei_LowPart i in
  match Ec with
  | None => complete STATUS_DEVICE_NOT_READY 0 i s
  | Some Ec =>
      if negb (ec_RegionInstalled Ec) then complete STATUS_DEVICE_NOT_READY 0 i s
      else if negb (ei_Passive i) then complete STATUS_INVALID_DEVICE_STATE 0 i s
      else if Length =? 0 then complete STATUS_SUCCESS 0 i s
      else
        match ei_Buffer i with
        | None => complete STATUS_INVALID_PARAMETER 0 i s
        | Some b =>
            if negb (ei_HighPart i =? 0) || (UACPINT_EC_SPACE_SIZE <=? Offset) ||
               (u32 (UACPINT_EC_SPACE_SIZE - Offset) <? Length)
            then complete STATUS_INVALID_PARAMETER 0 i s
            else
              let '(Locked, Sequence, s) := UacpiNtEcLockGlobal Ec s in
              if negb Locked then complete STATUS_DEVICE_BUSY 0 i s
              else
                '(Index, b, s) ← transfer (Z.to_nat Length) 0 Ec (ei_Write i) Offset b s;
                let s := UacpiNtEcUnlockGlobal Ec Sequence s in
                let i := ei_set_Buffer b i in
                if Index <? Length then complete STATUS_IO_TIMEOUT Index i s
                else complete STATUS_SUCCESS Length i s
        end
  end.
End Ports.

(** ** What the controller is promised, whatever it answers

    A monitor of the traffic, from the oldest event on: a port is touched only
    under the mutex, and under the global lock too where it is [needed]; a byte is
    written only right after the input buffer was seen empty and taken only right
    after the output buffer was seen full; the locks are taken in order and given
    back, the global one under the sequence number it came with. *)
Record monitor := mkMonitor {
  mo_Mutex : bool;
  mo_Global : option Z;
  mo_Status : option Z
}.

Definition idle_monitor (g : option Z) : monitor := mkMonitor false g None.
Definition busy_monitor (g status : option Z) : monitor := mkMonitor true g status.

Definition may_touch (needed : bool) (m : monitor) : bool :=
  mo_Mutex m && (negb needed || bool_decide (mo_Global m <> None)).

Definition saw_empty (m : monitor) : bool :=
  match mo_Status m with Some v => Z.land v UACPINT_EC_STATUS_IBF =? 0 | None => false end.
Definition saw_full (m : monitor) : bool :=
  match mo_Status m with Some v => Z.land v UACPINT_EC_STATUS_OBF =? UACPINT_EC_STATUS_OBF | None => false end.

Definition watch (needed : bool) (Ec : UACPINT_EC) (e : port_event) (m : monitor) : option monitor :=
  match e with
  | MutexAcquire => if mo_Mutex m then None else Some (busy_monitor (mo_Global m) None)
  | MutexRelease => if mo_Mutex m then Some (idle_monitor (mo_Global m)) else None
  | GlobalAcquire q =>
      if mo_Mutex m || bool_decide (mo_Global m <> None) then None else Some (idle_monitor (Some q))
  | GlobalRelease q =>
      if mo_Mutex m || negb (bool_decide (mo_Global m = Some q)) then None else Some (idle_monitor None)
  | PortIn p v =>
      if negb (may_touch needed m) then None
      else if p =? ec_ControlPort Ec then Some (busy_monitor (mo_Global m) (Some v))
      else if (p =? ec_DataPort Ec) && saw_full m then Some (busy_monitor (mo_Global m) None) else None
  | PortOut p v =>
      if may_touch needed m && ((p =? ec_ControlPort Ec) || (p =? ec_DataPort Ec)) && saw_empty m
      then Some (busy_monitor (mo_Global m) None) else None
  end.

Definition watched_trace (needed : bool) (Ec : UACPINT_EC) (m : monitor) (l : list port_event) : option monitor :=
  foldr (fun e o => o ≫= watch needed Ec e) (Some m) l.

Section Monitor.
Context {P : EcPorts} (needed : bool) (Ec : UACPINT_EC).

(** The monitor, started in [m0], is in [m] now. *)
Definition at_monitor (m0 m : monitor) (s : port_state) : Prop :=
  watched_trace needed Ec m0 (ps_Trace s) = Some m.

Definition granted (g : option Z) : Prop := needed = true -> g <> None.

Lemma may_touch_busy g st : granted g -> may_touch needed (busy_monitor g st) = true.
Proof.
  intros Hg. unfold may_touch, granted in *. cbn [mo_Mutex mo_Global busy_monitor andb].
  destruct needed; [|done]. by rewrite bool_decide_eq_true_2 by auto.
Qed.

Lemma note_monitor m0 m m' e h l :
  at_monitor m0 m (mkPort h l) -> watch needed Ec e m = Some m' -> forall h', at_monitor m0 m' (mkPort h' (e :: l)).
Proof. unfold at_monitor, watched_trace. simpl. intros -> H _. done. Qed.

Lemma status_monitor m0 g st s v s' : granted g -> at_monitor m0 (busy_monitor g st) s ->
  UacpiNtEcReadStatus Ec s = (v, s') -> at_monitor m0 (busy_monitor g (Some v)) s'.
Proof.
  intros Hg Hm. unfold UacpiNtEcReadStatus, READ_PORT_UCHAR. destruct s as [h l]. cbn [ps_Hw ps_Trace].
  destruct (port_in _ h) as [v' h'] eqn:E. intros [= <- <-]. eapply note_monitor; [done|].
  cbn [watch]. rewrite may_touch_busy by done. simpl. by rewrite Z.eqb_refl.
Qed.

Lemma wait_monitor m0 g fuel Mask Expected El st s b s' : granted g -> at_monitor m0 (busy_monitor g st) s ->
  wait_status fuel Ec Mask Expected El s = (b, s') ->
  exists v, at_monitor m0 (busy_monitor g (Some v)) s' /\ (b = true -> Z.land v Mask = Expected).
Proof.
  intros Hg. revert El st s. induction fuel as [|fuel IH]; intros El st s Hm; simpl;
    destruct (UacpiNtEcReadStatus Ec s) as [v s1] eqn:E; pose proof (status_monitor _ _ _ _ _ _ Hg Hm E) as H1.
  all: destruct (Z.land v Mask =? Expected) eqn:E1; bool_prop; [intros [= <- <-]; by exists v|].
  all: destruct (UACPINT_EC_TIMEOUT_US <=? El); [intros [= <- <-]; by exists v|].
  - intros [= <- <-]. by exists v.
  - intros H. eapply IH; [|exact H]. destruct s1. apply H1.
Qed.

Lemma write_monitor m0 g v p b s : granted g -> at_monitor m0 (busy_monitor g (Some v)) s ->
  p = ec_ControlPort Ec \/ p = ec_DataPort Ec -> Z.land v UACPINT_EC_STATUS_IBF = 0 ->
  at_monitor m0 (busy_monitor g None) (WRITE_PORT_UCHAR p b s).
Proof.
  intros Hg Hm Hp Hv. destruct s as [h l]. eapply note_monitor; [done|]. cbn [watch].
  rewrite may_touch_busy by done. unfold saw_empty. simpl. rewrite Hv. simpl.
  destruct Hp as [->| ->]; by rewrite Z.eqb_refl, ?orb_true_r.
Qed.

Lemma data_monitor m0 g v s b s' : granted g -> at_monitor m0 (busy_monitor g (Some v)) s ->
  Z.land v UACPINT_EC_STATUS_OBF = UACPINT_EC_STATUS_OBF -> UacpiNtEcReadData Ec s = (b, s') ->
  exists st, at_monitor m0 (busy_monitor g st) s'.
Proof.
  intros Hg Hm Hv. unfold UacpiNtEcReadData, READ_PORT_UCHAR. destruct s as [h l]. cbn [ps_Hw ps_Trace].
  destruct (port_in _ h) as [v' h'] eqn:E. intros [= <- <-].
  eexists (if ec_DataPort Ec =? ec_ControlPort Ec then Some v' else None). eapply note_monitor; [done|]. cbn [watch].
  rewrite may_touch_busy by done. simpl. unfold saw_full. simpl. rewrite Hv, Z.eqb_refl. simpl.
  by destruct (ec_DataPort Ec =? _).
Qed.

Lemma acquire_monitor m0 g s : at_monitor m0 (idle_monitor g) s -> at_monitor m0 (busy_monitor g None) (ExAcquireFastMutex s).
Proof. intros H. destruct s as [h l]. by eapply note_monitor. Qed.

Lemma release_monitor m0 g st s :
  at_monitor m0 (busy_monitor g st) s -> at_monitor m0 (idle_monitor g) (ExReleaseFastMutex s).
Proof. intros H. destruct s as [h l]. by eapply note_monitor. Qed.

(** A wait and what follows it, under the mutex. *)
Definition under_mutex (m0 : monitor) (g : option Z) (s : port_state) : Prop :=
  exists st, at_monitor m0 (busy_monitor g st) s.

Lemma wait_under m0 g Mask Expected s b s' : granted g -> under_mutex m0 g s ->
  UacpiNtEcWaitStatus Ec Mask Expected s = (b, s') ->
  exists v, at_monitor m0 (busy_monitor g (Some v)) s' /\ (b = true -> Z.land v Mask = Expected).
Proof. intros Hg [st Hm]. by eapply wait_monitor. Qed.

(** A wait for the input buffer, then a byte, if it was seen empty. *)
Definition send_step (Port b : Z) (s : port_state) : bool * port_state :=
  let '(Success, s) := UacpiNtEcWaitInputEmpty Ec s in (Success, if Success then WRITE_PORT_UCHAR Port b s else s).

Definition take_step (s : port_state) : option Z * port_state :=
  let '(Success, s) := UacpiNtEcWaitOutputFull Ec s in
  if Success then let '(v, s) := UacpiNtEcReadData Ec s in (Some v, s) else (None, s).

Lemma send_under m0 g Port b s ok s' : granted g -> under_mutex m0 g s ->
  Port = ec_ControlPort Ec \/ Port = ec_DataPort Ec -> send_step Port b s = (ok, s') -> under_mutex m0 g s'.
Proof.
  intros Hg Hm Hp. unfold send_step, UacpiNtEcWaitInputEmpty.
  destruct (UacpiNtEcWaitStatus _ _ _ s) as [Success s1] eqn:E. intros [= <- <-].
  destruct (wait_under _ _ _ _ _ _ _ Hg Hm E) as (v & H1 & Hv). destruct Success; [|by eexists].
  eexists. by eapply write_monitor; [| |done|apply Hv].
Qed.

Lemma take_under m0 g s o s' : granted g -> under_mutex m0 g s -> take_step s = (o, s') -> under_mutex m0 g s'.
Proof.
  intros Hg Hm. unfold take_step, UacpiNtEcWaitOutputFull.
  destruct (UacpiNtEcWaitStatus _ _ _ s) as [Success s1] eqn:E.
  destruct (wait_under _ _ _ _ _ _ _ Hg Hm E) as (v & H1 & Hv). destruct Success; [|intros [= <- <-]; by eexists].
  destruct (UacpiNtEcReadData Ec s1) as [b s2] eqn:E2. intros [= <- <-]. by eapply data_monitor; [| |apply Hv|].
Qed.
End Monitor.

(** ** The transactions as steps *)
Section Steps.
Context {P : EcPorts} (Ec : UACPINT_EC).

Definition then_send (Port b : Z) (o : bool * port_state) : bool * port_state :=
  let '(Success, s) := o in if Success then send_step Ec Port b s else (false, s).

Definition then_take (o : bool * port_state) : option Z * port_state :=
  let '(Success, s) := o in if Success then take_step Ec s else (None, s).

Lemma read_byte_steps Address s :
  UacpiNtEcReadByte Ec Address s =
    (let '(Value, s) :=
       then_take (then_send (ec_DataPort Ec) Address
         (then_send (ec_ControlPort Ec) UACPINT_EC_COMMAND_READ (true, ExAcquireFastMutex s))) in
     (Value, ExReleaseFastMutex s)).
Proof.
  unfold UacpiNtEcReadByte, then_take, then_send, send_step, take_step, UacpiNtEcWriteCommand, UacpiNtEcWriteData.
  repeat (match goal with |- context [UacpiNtEcWaitInputEmpty Ec ?x] => destruct (UacpiNtEcWaitInputEmpty Ec x) as [[] ?] end;
    [|done]).
  by destruct (UacpiNtEcWaitOutputFull Ec _) as [[] ?].
Qed.

Lemma write_byte_steps Address Value s :
  UacpiNtEcWriteByte Ec Address Value s =
    (let '(Success, s) :=
       then_send (ec_DataPort Ec) Value (then_send (ec_DataPort Ec) Address
         (then_send (ec_ControlPort Ec) UACPINT_EC_COMMAND_WRITE (true, ExAcquireFastMutex s))) in
     (Success, ExReleaseFastMutex s)).
Proof.
  unfold UacpiNtEcWriteByte, then_send, send_step, UacpiNtEcWriteCommand, UacpiNtEcWriteData.
  repeat (match goal with |- context [UacpiNtEcWaitInputEmpty Ec ?x] => destruct (UacpiNtEcWaitInputEmpty Ec x) as [[] ?] end;
    [|done]).
  done.
Qed.

Lemma fetch_query_steps s :
  UacpiNtEcFetchQuery Ec s =
    (let '(Locked, Sequence, s) := UacpiNtEcLockGlobal Ec s in
     if negb Locked then (0, s)
     else
       let '(Status, s) := UacpiNtEcReadStatus Ec (ExAcquireFastMutex s) in
       let '(QueryCode, s) :=
         if has_flag Status UACPINT_EC_STATUS_SCI_EVT
         then then_take (then_send (ec_ControlPort Ec) UACPINT_EC_COMMAND_QUERY (true, s)) else (None, s) in
       (default 0 QueryCode, UacpiNtEcUnlockGlobal Ec Sequence (ExReleaseFastMutex s))).
Proof.
  unfold UacpiNtEcFetchQuery, then_take, then_send, send_step, take_step, UacpiNtEcWriteCommand.
  destruct (UacpiNtEcLockGlobal Ec s) as [ [ [] Sequence] s1]; [|done]. simpl negb. cbv iota.
  destruct (UacpiNtEcReadStatus Ec _) as [Status s2]. destruct (has_flag _ _); [|done].
  destruct (UacpiNtEcWaitInputEmpty Ec s2) as [[] s3]; [|done].
  destruct (UacpiNtEcWaitOutputFull Ec _) as [[] s4]; [|done]. by destruct (UacpiNtEcReadData Ec s4).
Qed.
End Steps.

(** ** Every operation keeps the protocol *)
Section Keeps.
Context {P : EcPorts} (needed : bool) (Ec : UACPINT_EC).

Definition keeps_protocol (g : option Z) (s s' : port_state) : Prop :=
  forall m0, at_monitor needed Ec m0 (idle_monitor g) s -> at_monitor needed Ec m0 (idle_monitor g) s'.

Lemma then_send_under m0 g Port b o ok s' : granted needed g -> under_mutex needed Ec m0 g o.2 ->
  Port = ec_ControlPort Ec \/ Port = ec_DataPort Ec -> then_send Ec Port b o = (ok, s') ->
  under_mutex needed Ec m0 g s'.
Proof. destruct o as [[] s]; simpl; intros ? ? ? H; [by eapply send_under|by simplify_eq]. Qed.

Lemma then_take_under m0 g o v s' : granted needed g -> under_mutex needed Ec m0 g o.2 ->
  then_take Ec o = (v, s') -> under_mutex needed Ec m0 g s'.
Proof. destruct o as [[] s]; simpl; intros ? ? H; [by eapply take_under|by simplify_eq]. Qed.

Lemma under_release m0 g s : under_mutex needed Ec m0 g s ->
  at_monitor needed Ec m0 (idle_monitor g) (ExReleaseFastMutex s).
Proof. intros [st H]. by eapply release_monitor. Qed.

Ltac under_steps :=
  repeat match goal with
  | |- context [then_send Ec ?p ?b (?x, ?y)] => destruct (then_send Ec p b (x, y)) as [? ?] eqn:?
  | |- context [then_take Ec (?x, ?y)] => destruct (then_take Ec (x, y)) as [? ?] eqn:?
  end;
  repeat match goal with
  | E : then_send Ec _ _ ?o = (_, ?s), H : under_mutex _ _ ?m0 ?g ?s0 |- _ =>
      assert (under_mutex needed Ec m0 g s) by (eapply then_send_under; [| | |exact E]; [eassumption|exact H|auto]); clear E
  | E : then_take Ec ?o = (_, ?s), H : under_mutex _ _ ?m0 ?g ?s0 |- _ =>
      assert (under_mutex needed Ec m0 g s) by (eapply then_take_under; [| |exact E]; [eassumption|exact H]); clear E
  end.

Lemma read_byte_keeps g Address s : granted needed g -> keeps_protocol g s (UacpiNtEcReadByte Ec Address s).2.
Proof.
  intros Hg m0 Hm. rewrite read_byte_steps.
  assert (under_mutex needed Ec m0 g (ExAcquireFastMutex s)) by (eexists; by apply acquire_monitor).
  under_steps. by apply under_release.
Qed.

Lemma write_byte_keeps g Address v s : granted needed g -> keeps_protocol g s (UacpiNtEcWriteByte Ec Address v s).2.
Proof.
  intros Hg m0 Hm. rewrite write_byte_steps.
  assert (under_mutex needed Ec m0 g (ExAcquireFastMutex s)) by (eexists; by apply acquire_monitor).
  under_steps. by apply under_release.
Qed.

(** The query between the two locks. *)
Lemma fetch_keeps g Status s s1 : granted needed g ->
  UacpiNtEcReadStatus Ec (ExAcquireFastMutex s) = (Status, s1) ->
  keeps_protocol g s
    (ExReleaseFastMutex
       (if has_flag Status UACPINT_EC_STATUS_SCI_EVT
        then then_take Ec (then_send Ec (ec_ControlPort Ec) UACPINT_EC_COMMAND_QUERY (true, s1))
        else (None, s1)).2).
Proof.
  intros Hg E m0 Hm. apply under_release.
  assert (under_mutex needed Ec m0 g s1) as H1.
  { eexists. eapply status_monitor; [done|by apply acquire_monitor|done]. }
  destruct (has_flag _ _); [|done]. under_steps. done.
Qed.

(** The global lock around what keeps the protocol with it held. *)
Lemma lock_global_held m0 s ok Sequence s' : needed = ec_GlobalLock Ec ->
  at_monitor needed Ec m0 (idle_monitor None) s -> UacpiNtEcLockGlobal Ec s = (ok, Sequence, s') ->
  if ok then exists g, granted needed g /\ at_monitor needed Ec m0 (idle_monitor g) s' /\
               forall s2, at_monitor needed Ec m0 (idle_monitor g) s2 ->
                 at_monitor needed Ec m0 (idle_monitor None) (UacpiNtEcUnlockGlobal Ec Sequence s2)
  else at_monitor needed Ec m0 (idle_monitor None) s'.
Proof.
  intros Hn Hm. unfold UacpiNtEcLockGlobal, UacpiNtEcUnlockGlobal, granted. rewrite <- Hn.
  destruct needed eqn:En; simpl negb; cbv iota.
  - destruct (port_acquire _ (ps_Hw s)) as [ [st q] h] eqn:E. destruct (st =? UACPI_STATUS_OK); intros [= <- <- <-].
    + exists (Some q). split; [done|]. split; [destruct s; by eapply note_monitor|].
      intros [h2 l2] H2. eapply note_monitor; [done|]. simpl. by rewrite bool_decide_eq_true_2.
    + destruct s. apply Hm.
  - intros [= <- <- <-]. exists None. split; [done|]. split; [done|]. intros s2 H2. done.
Qed.

Lemma fetch_query_keeps s : needed = ec_GlobalLock Ec -> keeps_protocol None s (UacpiNtEcFetchQuery Ec s).2.
Proof.
  intros Hn m0 Hm. rewrite fetch_query_steps.
  destruct (UacpiNtEcLockGlobal Ec s) as [ [ok Sequence] s1] eqn:E.
  pose proof (lock_global_held _ _ _ _ _ Hn Hm E) as H1. destruct ok; [|done]. simpl negb. cbv iota.
  destruct H1 as (g & Hg & H1 & Hu). destruct (UacpiNtEcReadStatus Ec _) as [Status s2] eqn:E2.
  pose proof (fetch_keeps g Status s1 s2 Hg E2 m0 H1) as H2. revert H2.
  destruct (if has_flag _ _ then _ else _) as [o s3]. simpl. apply Hu.
Qed.

Lemma region_read_keeps g n Index d s : granted needed g -> keeps_protocol g s (region_read n Index Ec d s).2.
Proof.
  intros Hg. revert Index d s. induction n as [|n IH]; intros Index d s m0 Hm; simpl; [done|].
  destruct (_ <=? _); [done|]. pose proof (read_byte_keeps g (u8 (rw_offset d +u Index)) s Hg m0 Hm) as H1.
  destruct (UacpiNtEcReadByte Ec _ s) as [[v|] s1]; [|done]. by apply IH.
Qed.

Lemma region_write_keeps g n Index d s : granted needed g -> keeps_protocol g s (region_write n Index Ec d s).2.
Proof.
  intros Hg. revert Index s. induction n as [|n IH]; intros Index s m0 Hm; simpl; [done|].
  destruct (_ <=? _); [done|].
  pose proof (write_byte_keeps g (u8 (rw_offset d +u Index)) (u8 (Z.shiftr (rw_value d) (Index * 8))) s Hg m0 Hm) as H1.
  destruct (UacpiNtEcWriteByte Ec _ _ s) as [[] s1]; [|done]. by apply IH.
Qed.

Lemma region_handler_keeps g op s : granted needed g -> keeps_protocol g s (UacpiNtEcRegionHandler Ec op s).2.
Proof.
  intros Hg. destruct op as [a b| |d|d|o]; try (intros m0 Hm; exact Hm); unfold UacpiNtEcRegionHandler.
  - pose proof (region_read_keeps g (rw_Width d) 0 (rw_set_value 0 d) s Hg) as H.
    unfold UacpiNtEcRegionRead. destruct (region_read _ _ _ _ s) as [ [st d'] s']. exact H.
  - pose proof (region_write_keeps g (rw_Width d) 0 d s Hg) as H.
    unfold UacpiNtEcRegionWrite. destruct (region_write _ _ _ _ s) as [st s']. exact H.
Qed.

Lemma transfer_keeps g n Index IsWrite Offset b s r b' s' : granted needed g ->
  transfer n Index Ec IsWrite Offset b s = Done (r, b', s') -> keeps_protocol g s s'.
Proof.
  intros Hg. revert Index b s. induction n as [|n IH]; intros Index b s; simpl; [by intros [= <- <- <-] m0|].
  destruct IsWrite.
  - destruct (load b Index) as [|v]; cbn [mbind run_bind]; [done|].
    pose proof (write_byte_keeps g (u8 (u32 (Offset + Index))) v s Hg) as H1.
    destruct (UacpiNtEcWriteByte Ec _ _ s) as [[] s1]; [|by intros [= <- <- <-]].
    intros H m0 Hm. eapply IH; [exact H|]. by apply H1.
  - pose proof (read_byte_keeps g (u8 (u32 (Offset + Index))) s Hg) as H1.
    destruct (UacpiNtEcReadByte Ec _ s) as [[v|] s1]; [|by intros [= <- <- <-]].
    destruct (store b _ v) as [|b1]; cbn [mbind run_bind]; [done|].
    intros H m0 Hm. eapply IH; [exact H|]. by apply H1.
Qed.
End Keeps.

Lemma read_write_keeps {P : EcPorts} Ec i s st i' s' :
  UacpiNtEcReadWrite (Some Ec) i s = Done (st, i', s') -> keeps_protocol (ec_GlobalLock Ec) Ec None s s'.
Proof.
  unfold UacpiNtEcReadWrite. intros H m0 Hm.
  repeat (case_hyp H; [by simplify_eq/=|]). destruct (ei_Buffer i) as [b|]; [|by simplify_eq/=].
  case_hyp H; [by simplify_eq/=|].
  destruct (UacpiNtEcLockGlobal Ec s) as [ [ok Sequence] s1] eqn:E.
  pose proof (lock_global_held _ _ _ _ _ _ _ eq_refl Hm E) as H1. destruct ok; [|by simplify_eq/=].
  simpl negb in H. cbv iota in H. destruct H1 as (g & Hg & H1 & Hu).
  destruct (transfer _ _ _ _ _ _ s1) as [|[ [Index b1] s2] ] eqn:E2; [done|]. cbn [mbind run_bind] in H.
  pose proof (transfer_keeps _ _ _ _ _ _ _ _ _ _ _ _ Hg E2 m0 H1) as H2.
  case_hyp H; simplify_eq/=; by apply Hu.
Qed.

(** ** The wait ends by itself

    More fuel changes nothing: the time is up after [wait_fuel] stalls. *)
Lemma wait_fuel_enough {P : EcPorts} k n Ec Mask Expected El s :
  El = 10 * (1000 - Z.of_nat n) -> (n <= 1000)%nat ->
  wait_status (n + k) Ec Mask Expected El s = wait_status n Ec Mask Expected El s.
Proof.
  revert El s. induction n as [|n IH]; intros El s He Hn.
  - destruct k as [|k]; [done|]. cbn [Nat.add wait_status]. destruct (UacpiNtEcReadStatus Ec s) as [v s1].
    destruct (_ =? _); [done|]. unfold UACPINT_EC_TIMEOUT_US. destruct (_ <=? El) eqn:E; bool_prop; [done|lia].
  - cbn [Nat.add wait_status]. destruct (UacpiNtEcReadStatus Ec s) as [v s1].
    destruct (_ =? _); [done|]. destruct (_ <=? El) eqn:E; bool_prop; [done|]. apply IH; [|lia].
    unfold UACPINT_EC_POLL_US. rewrite u32_small; lia.
Qed.

(** C24.  Whatever the ports answer, the traffic of every operation keeps to the
    protocol: a port is touched only under the mutex, in a query or a transfer
    also under the global lock where the controller's block says so; a byte is sent
    only when the last status showed an empty input buffer and taken only when it
    showed a full output buffer; both locks are given back, the global one under
    the sequence number it came with, on every path, timeouts included. *)
Theorem ec_protocol_kept {P : EcPorts} Ec s m0 :
  (forall op g, at_monitor false Ec m0 (idle_monitor g) s ->
     at_monitor false Ec m0 (idle_monitor g) (UacpiNtEcRegionHandler Ec op s).2) /\
  (at_monitor (ec_GlobalLock Ec) Ec m0 (idle_monitor None) s ->
     at_monitor (ec_GlobalLock Ec) Ec m0 (idle_monitor None) (UacpiNtEcFetchQuery Ec s).2 /\
     forall i st i' s', UacpiNtEcReadWrite (Some Ec) i s = Done (st, i', s') ->
       at_monitor (ec_GlobalLock Ec) Ec m0 (idle_monitor None) s').
Proof.
  split.
  - intros op g Hm. by apply region_handler_keeps.
  - intros Hm. split; [by apply fetch_query_keeps|]. intros i st i' s' H. by eapply read_write_keeps.
Qed.
