(* ===== verification/EcLaws.v ===== *)
(** The embedded controller as the ACPI specification describes it, and what the
    transactions of EcPort.v do with one.

    The view of a controller is its memory, the codes of the events it has to
    report, and how far the transaction at its ports has got.  It works on its own
    time: between two accesses of the driver it may finish what it was asked to
    do and new events may come in. *)
From stdpp Require Import base list numbers option.
From Stdlib Require Import ZArith Lia.
From S2P Require Import Prelude AcpiEnv Bytes EcPort.

(** ** The view *)

Inductive ec_phase :=
| Idle
| WantsReadAddress
| Answers (address : Z)
| WantsWriteAddress
| WantsValue (address : Z)
| AnswersQuery (code : Z).

(** [ew_Edge]: SCI_EVT has risen since the GPE was last cleared.  [ew_Arrived] is
    every event there has been, in order. *)
Record ec_view := mkView {
  ew_Memory : Z -> Z;
  ew_Phase : ec_phase;
  ew_Pending : list Z;
  ew_Edge : bool;
  ew_Arrived : list Z
}.

Definition ew_set_Phase (p : ec_phase) (w : ec_view) : ec_view :=
  mkView (ew_Memory w) p (ew_Pending w) (ew_Edge w) (ew_Arrived w).
Definition ew_set_Pending (l : list Z) (w : ec_view) : ec_view :=
  mkView (ew_Memory w) (ew_Phase w) l (ew_Edge w) (ew_Arrived w).
Definition ew_store (a v : Z) (w : ec_view) : ec_view :=
  mkView (fun x => if x =? a then v else ew_Memory w x) (ew_Phase w) (ew_Pending w) (ew_Edge w) (ew_Arrived w).

(** Events come in: the signal rises when there were none. *)
Definition ew_raise (l : list Z) (w : ec_view) : ec_view :=
  mkView (ew_Memory w) (ew_Phase w) (ew_Pending w ++ l)
    (ew_Edge w || bool_decide (ew_Pending w = [] /\ l <> [])) (ew_Arrived w ++ l).

Definition answering (p : ec_phase) : bool :=
  match p with Answers _ | AnswersQuery _ => true | _ => false end.

(** Time passes: the addresses that are plain memory keep what they hold. *)
Record passes (plain : Z -> Prop) (w w' : ec_view) : Prop := {
  passes_phase : ew_Phase w' = ew_Phase w;
  passes_memory : forall a, plain a -> ew_Memory w' a = ew_Memory w a;
  passes_events : exists l, ew_Pending w' = ew_Pending w ++ l /\ ew_Arrived w' = ew_Arrived w ++ l /\
    ew_Edge w' = ew_Edge w || bool_decide (ew_Pending w = [] /\ l <> [])
}.

(** ** What a controller does

    [ec_input h]: the input buffer is full.  [ec_busy h] bounds the polls until
    the controller is through with what it was sent. *)
Class EcLaws (P : EcPorts) (DataPort ControlPort : Z) := {
  ec_plain : Z -> Prop;
  ec_see : ec_hw -> ec_view;
  ec_input : ec_hw -> bool;
  ec_busy : ec_hw -> nat;
  ec_codes : forall h, Forall (fun q => 1 <= q < 256) (ew_Pending (ec_see h));
  ec_plain_bytes : forall h a, ec_plain a -> is_byte (ew_Memory (ec_see h) a);
  ec_input_busy : forall h, ec_input h = true -> (0 < ec_busy h)%nat;
  ec_status_law : forall h v h', port_in ControlPort h = (v, h') ->
    (Z.land v UACPINT_EC_STATUS_IBF =? 0) = negb (ec_input h) /\
    (Z.land v UACPINT_EC_STATUS_OBF =? UACPINT_EC_STATUS_OBF) =
      (answering (ew_Phase (ec_see h)) && bool_decide (ec_busy h = 0%nat)) /\
    has_flag v UACPINT_EC_STATUS_SCI_EVT = negb (bool_decide (ew_Pending (ec_see h) = [])) /\
    passes ec_plain (ec_see h) (ec_see h') /\ (ec_busy h' <= ec_busy h)%nat /\
    (ec_input h' = true -> ec_input h = true);
  ec_stall_law : forall h,
    let h' := port_stall UACPINT_EC_POLL_US h in
    passes ec_plain (ec_see h) (ec_see h') /\ (ec_busy h' <= pred (ec_busy h))%nat /\
    (ec_input h' = true -> ec_input h = true);
  ec_command_law : forall h c h', port_out ControlPort c h = h' ->
    ec_input h = false -> ew_Phase (ec_see h) = Idle ->
    let w := ec_see h in
    if c =? UACPINT_EC_COMMAND_READ then passes ec_plain (ew_set_Phase WantsReadAddress w) (ec_see h')
    else if c =? UACPINT_EC_COMMAND_WRITE then passes ec_plain (ew_set_Phase WantsWriteAddress w) (ec_see h')
    else if c =? UACPINT_EC_COMMAND_QUERY then
      match ew_Pending w with
      | [] => passes ec_plain (ew_set_Phase (AnswersQuery 0) w) (ec_see h')
      | q :: rest => passes ec_plain (ew_set_Phase (AnswersQuery q) (ew_set_Pending rest w)) (ec_see h')
      end
    else True;
  ec_write_law : forall h b h', port_out DataPort b h = h' -> ec_input h = false -> is_byte b ->
    let w := ec_see h in
    match ew_Phase w with
    | WantsReadAddress => passes ec_plain (ew_set_Phase (Answers b) w) (ec_see h')
    | WantsWriteAddress => passes ec_plain (ew_set_Phase (WantsValue b) w) (ec_see h')
    | WantsValue a => passes ec_plain (ew_set_Phase Idle (ew_store a b w)) (ec_see h')
    | _ => True
    end;
  ec_read_law : forall h v h', port_in DataPort h = (v, h') -> ec_busy h = 0%nat ->
    let w := ec_see h in
    match ew_Phase w with
    | Answers a => (ec_plain a -> v = ew_Memory w a) /\ is_byte v /\ passes ec_plain (ew_set_Phase Idle w) (ec_see h')
    | AnswersQuery q => v = q /\ passes ec_plain (ew_set_Phase Idle w) (ec_see h')
    | _ => True
    end;
  ec_acquire_law : forall n h st q h', port_acquire n h = (st, q, h') -> passes ec_plain (ec_see h) (ec_see h');
  ec_release_law : forall q h, passes ec_plain (ec_see h) (ec_see (port_release q h))
}.

(** A controller that is through with a byte in time, and a firmware that gives
    the lock. *)
Class EcPrompt {P : EcPorts} {DataPort ControlPort : Z} (L : EcLaws P DataPort ControlPort) := {
  ec_prompt : forall h, (ec_busy h <= wait_fuel)%nat;
  ec_lock_given : forall n h, (port_acquire n h).1.1 = UACPI_STATUS_OK
}.

(** The controller a block stands for. *)
Abbreviation ec_laws P Ec := (EcLaws P (ec_DataPort Ec) (ec_ControlPort Ec)).

(** ** Time *)
Section Passes.
Context (plain : Z -> Prop).

Lemma passes_refl w : passes plain w w.
Proof.
  split; [done..|]. exists []. rewrite !app_nil_r, bool_decide_eq_false_2, orb_false_r; [done|]. by intros [_ ?].
Qed.

Lemma passes_trans w1 w2 w3 : passes plain w1 w2 -> passes plain w2 w3 -> passes plain w1 w3.
Proof.
  intros [P1 M1 (l1 & E1 & A1 & G1)] [P2 M2 (l2 & E2 & A2 & G2)]. split; [congruence|intros; by rewrite M2, M1|].
  exists (l1 ++ l2). rewrite E2, E1, A2, A1, G2, G1, E1, !app_assoc. split_and!; [done..|].
  rewrite <- orb_assoc. f_equal. destruct (ew_Pending w1), l1, l2; repeat case_bool_decide; naive_solver.
Qed.

#[export] Instance passes_preorder : PreOrder (passes plain).
Proof. split; [exact passes_refl|exact passes_trans]. Qed.

(** What the driver does to the view, done before time passes. *)
Lemma passes_set_phase p w w' : passes plain w w' -> passes plain (ew_set_Phase p w) (ew_set_Phase p w').
Proof. intros [P M E]. by split. Qed.

Lemma passes_store a v w w' : passes plain w w' -> passes plain (ew_store a v w) (ew_store a v w').
Proof. intros [P M E]. split; [done| |done]. intros x Hx. simpl. destruct (x =? a); [done|by apply M]. Qed.

Lemma set_phase_twice p q w : ew_set_Phase p (ew_set_Phase q w) = ew_set_Phase p w.
Proof. done. Qed.

Lemma set_phase_same w : ew_set_Phase (ew_Phase w) w = w.
Proof. by destruct w. Qed.
End Passes.

(** ** Waits *)
Section Waits.
Context {P : EcPorts} (Ec : UACPINT_EC) {L : ec_laws P Ec}.

Definition seen (s : port_state) : ec_view := ec_see (ps_Hw s).
Definition flows (s s' : port_state) : Prop := passes ec_plain (seen s) (seen s').

#[export] Instance flows_preorder : PreOrder flows.
Proof. split; [intros s; apply passes_refl|intros s1 s2 s3; apply passes_trans]. Qed.

(** The wait ended with a read of the status at [h]. *)
Definition wait_ends (s : port_state) (h : ec_hw) (s' : port_state) : Prop :=
  passes ec_plain (seen s) (ec_see h) /\ (ec_busy h <= ec_busy (ps_Hw s))%nat /\
  exists v, port_in (ec_ControlPort Ec) h = (v, ps_Hw s').

Lemma read_status_law s v s' : UacpiNtEcReadStatus Ec s = (v, s') ->
  port_in (ec_ControlPort Ec) (ps_Hw s) = (v, ps_Hw s').
Proof.
  unfold UacpiNtEcReadStatus, READ_PORT_UCHAR. destruct (port_in _ _) as [v' h'] eqn:E. by intros [= <- <-].
Qed.

Lemma wait_status_spec Mask Expected (seen_at : ec_hw -> bool) fuel El s b s' :
  (forall h v h', port_in (ec_ControlPort Ec) h = (v, h') -> (Z.land v Mask =? Expected) = seen_at h) ->
  El = 10 * (1000 - Z.of_nat fuel) -> (fuel <= 1000)%nat ->
  wait_status fuel Ec Mask Expected El s = (b, s') ->
  exists h, wait_ends s h s' /\ b = seen_at h /\ (b = false -> (ec_busy h <= ec_busy (ps_Hw s) - fuel)%nat).
Proof.
  intros Hc. revert El s. induction fuel as [|fuel IH]; intros El s HEl Hf; cbn [wait_status];
    destruct (UacpiNtEcReadStatus Ec s) as [v s1] eqn:E; apply read_status_law in E;
    destruct (Z.land v Mask =? Expected) eqn:E1; rewrite (Hc _ _ _ E) in E1.
  1, 3: intros [= <- <-]; exists (ps_Hw s); split; [|by split]; split; [apply passes_refl|split; [done|by exists v]].
  - assert (UACPINT_EC_TIMEOUT_US <=? El = true) as -> by (apply Z.leb_le; unfold UACPINT_EC_TIMEOUT_US; lia).
    intros [= <- <-]. exists (ps_Hw s). split; [|split; [done|lia] ].
    split; [apply passes_refl|split; [done|by exists v] ].
  - assert (UACPINT_EC_TIMEOUT_US <=? El = false) as -> by (apply Z.leb_gt; unfold UACPINT_EC_TIMEOUT_US; lia).
    intros H. apply IH in H as (h & (Hp & Hb & Hr) & -> & Hk); [|unfold UACPINT_EC_POLL_US; rewrite u32_small; lia|lia].
    destruct (ec_status_law _ _ _ E) as (_ & _ & _ & Hp1 & Hb1 & _).
    destruct (ec_stall_law (ps_Hw s1)) as (Hp2 & Hb2 & _).
    unfold KeStallExecutionProcessor in *. unfold seen in *. cbn [ps_Hw] in *.
    exists h. split; [split|].
    + etransitivity; [exact Hp1|]. etransitivity; [exact Hp2|]. exact Hp.
    + split; [lia|exact Hr].
    + split; [done|]. intros Hn. specialize (Hk Hn). lia.
Qed.

Lemma wait_ends_flows s h s' : wait_ends s h s' -> flows s s' /\ (ec_busy (ps_Hw s') <= ec_busy (ps_Hw s))%nat.
Proof.
  intros (Hp & Hb & v & E). destruct (ec_status_law _ _ _ E) as (_ & _ & _ & Hp1 & Hb1 & _).
  split; [unfold flows; by etransitivity|lia].
Qed.

Lemma wait_input_spec s b s' : UacpiNtEcWaitInputEmpty Ec s = (b, s') ->
  flows s s' /\ (b = true -> ec_input (ps_Hw s') = false) /\
  ((ec_busy (ps_Hw s) <= wait_fuel)%nat -> b = true).
Proof.
  intros H. eapply (wait_status_spec _ _ (fun h => negb (ec_input h))) in H as (h & He & -> & Hk); [|by intros; edestruct ec_status_law|done..].
  pose proof (wait_ends_flows _ _ _ He) as [Hf _]. split; [done|]. destruct He as (_ & _ & v & E).
  destruct (ec_status_law _ _ _ E) as (_ & _ & _ & _ & _ & Hi). split.
  - intros H%negb_true_iff. destruct (ec_input (ps_Hw s')); [|done]. rewrite Hi in H; done.
  - intros Hb. destruct (ec_input h) eqn:Eh; [|done]. simpl in Hk. specialize (Hk eq_refl).
    apply ec_input_busy in Eh. unfold wait_fuel in *. lia.
Qed.

Lemma wait_output_spec s b s' : UacpiNtEcWaitOutputFull Ec s = (b, s') ->
  flows s s' /\ (b = true -> ec_busy (ps_Hw s') = 0%nat /\ answering (ew_Phase (seen s)) = true) /\
  ((ec_busy (ps_Hw s) <= wait_fuel)%nat -> answering (ew_Phase (seen s)) = true -> b = true).
Proof.
  intros H.
  eapply (wait_status_spec _ _ (fun h => answering (ew_Phase (ec_see h)) && bool_decide (ec_busy h = 0%nat)))
    in H as (h & He & -> & Hk); [|by intros; edestruct ec_status_law as (? & ? & ?)|done..].
  pose proof (wait_ends_flows _ _ _ He) as [Hf _]. split; [done|]. destruct He as (Hp & _ & v & E).
  destruct (ec_status_law _ _ _ E) as (_ & _ & _ & _ & Hb & _).
  rewrite (passes_phase _ _ _ Hp) in Hk |- *. split.
  - intros [? Hz%bool_decide_eq_true]%andb_prop. split; [lia|done].
  - intros Hs Ha. rewrite Ha in Hk |- *. simpl in *. case_bool_decide; [done|]. specialize (Hk eq_refl). unfold wait_fuel in *. lia.
Qed.

(** ** Steps of a transaction *)

(** The state a step left: what the ports were told is in the view. *)
Definition stands (w : ec_view) (s : port_state) : Prop := passes ec_plain w (seen s).

Lemma write_port_hw p v s : ps_Hw (WRITE_PORT_UCHAR p v s) = port_out p v (ps_Hw s).
Proof. done. Qed.

Lemma send_command_spec c w s ok s' : stands (ew_set_Phase Idle w) s -> send_step Ec (ec_ControlPort Ec) c s = (ok, s') ->
  (ok = true ->
     (c = UACPINT_EC_COMMAND_READ -> stands (ew_set_Phase WantsReadAddress w) s') /\
     (c = UACPINT_EC_COMMAND_WRITE -> stands (ew_set_Phase WantsWriteAddress w) s')) /\
  ((ec_busy (ps_Hw s) <= wait_fuel)%nat -> ok = true).
Proof.
  intros Hw. unfold send_step. destruct (UacpiNtEcWaitInputEmpty Ec s) as [b s1] eqn:E. intros [= <- <-].
  apply wait_input_spec in E as (Hf & Hi & Hb). split; [|done]. intros ->. specialize (Hi eq_refl).
  pose proof (passes_trans _ _ _ _ Hw Hf) as Hp.
  pose proof (ec_command_law (ps_Hw s1) c _ eq_refl Hi (passes_phase _ _ _ Hp)) as Hc.
  split; intros ->; simpl in Hc; (unfold stands; etransitivity; [|exact Hc]).
  - exact (passes_set_phase _ WantsReadAddress _ _ Hp).
  - exact (passes_set_phase _ WantsWriteAddress _ _ Hp).
Qed.

(** The view after the data byte [b]. *)
Definition after_write (b : Z) (w : ec_view) : ec_view :=
  match ew_Phase w with
  | WantsReadAddress => ew_set_Phase (Answers b) w
  | WantsWriteAddress => ew_set_Phase (WantsValue b) w
  | WantsValue a => ew_set_Phase Idle (ew_store a b w)
  | _ => w
  end.

Definition wants_byte (p : ec_phase) : bool :=
  match p with WantsReadAddress | WantsWriteAddress | WantsValue _ => true | _ => false end.

Lemma send_data_spec b w s ok s' : stands w s -> wants_byte (ew_Phase w) = true -> is_byte b ->
  send_step Ec (ec_DataPort Ec) b s = (ok, s') ->
  (ok = true -> stands (after_write b w) s') /\ ((ec_busy (ps_Hw s) <= wait_fuel)%nat -> ok = true).
Proof.
  intros Hw Hp Hb. unfold send_step. destruct (UacpiNtEcWaitInputEmpty Ec s) as [k s1] eqn:E. intros [= <- <-].
  apply wait_input_spec in E as (Hf & Hi & Hk). split; [|done]. intros ->. specialize (Hi eq_refl).
  pose proof (passes_trans _ _ _ _ Hw Hf) as Ht.
  pose proof (ec_write_law (ps_Hw s1) b _ eq_refl Hi Hb) as Hc. fold (seen s1) in Hc. simpl in Hc.
  rewrite (passes_phase _ _ _ Ht) in Hc. unfold after_write, stands. destruct (ew_Phase w) as [| |a| |a|q]; try done;
    (etransitivity; [|exact Hc]).
  - exact (passes_set_phase _ (Answers b) _ _ Ht).
  - exact (passes_set_phase _ (WantsValue b) _ _ Ht).
  - exact (passes_set_phase _ Idle _ _ (passes_store _ a b _ _ Ht)).
Qed.

Lemma read_data_law s v s' : UacpiNtEcReadData Ec s = (v, s') -> port_in (ec_DataPort Ec) (ps_Hw s) = (v, ps_Hw s').
Proof.
  unfold UacpiNtEcReadData, READ_PORT_UCHAR. destruct (port_in _ _) as [v' h'] eqn:E. by intros [= <- <-].
Qed.

Lemma take_spec w s o s' : stands w s -> take_step Ec s = (o, s') ->
  (forall v, o = Some v -> stands (ew_set_Phase Idle w) s' /\
     match ew_Phase w with
     | Answers a => (ec_plain a -> v = ew_Memory w a) /\ is_byte v
     | AnswersQuery q => v = q
     | _ => False
     end) /\
  ((ec_busy (ps_Hw s) <= wait_fuel)%nat -> answering (ew_Phase w) = true -> is_Some o).
Proof.
  intros Hw. unfold take_step. destruct (UacpiNtEcWaitOutputFull Ec s) as [b s1] eqn:E.
  apply wait_output_spec in E as (Hf & Hi & Hb). rewrite (passes_phase _ _ _ Hw) in Hi, Hb.
  destruct b; [|intros [= <- <-]; split; [done|by intros; discriminate Hb] ].
  destruct (UacpiNtEcReadData Ec s1) as [v s2] eqn:E2. intros [= <- <-]. split; [|done]. intros ? [= <-].
  destruct (Hi eq_refl) as [Hz Ha]. apply read_data_law in E2. pose proof (passes_trans _ _ _ _ Hw Hf) as Ht.
  pose proof (ec_read_law _ _ _ E2 Hz) as Hc. fold (seen s1) in Hc. simpl in Hc.
  rewrite (passes_phase _ _ _ Ht) in Hc. unfold stands. destruct (ew_Phase w) as [| |a| |a|q]; try done.
  - destruct Hc as (Hv & Hby & Hc). split; [|split; [|done] ].
    + etransitivity; [|exact Hc]. exact (passes_set_phase _ Idle _ _ Ht).
    + intros Hpl. rewrite (Hv Hpl). by apply (passes_memory _ _ _ Ht).
  - destruct Hc as [Hv Hc]. split; [|done]. etransitivity; [|exact Hc]. exact (passes_set_phase _ Idle _ _ Ht).
Qed.
End Waits.

(** ** Transactions

    [rests w s]: the controller is between two transactions, and apart from what
    time did, its view is [w]. *)
Section Bytes.
Context {P : EcPorts} (Ec : UACPINT_EC) {L : ec_laws P Ec}.

Definition rests (w : ec_view) (s : port_state) : Prop := stands Ec (ew_set_Phase Idle w) s.

Lemma then_send_command_spec c w o ok s' : (o.1 = true -> rests w o.2) -> then_send Ec (ec_ControlPort Ec) c o = (ok, s') ->
  (ok = true ->
     (c = UACPINT_EC_COMMAND_READ -> stands Ec (ew_set_Phase WantsReadAddress w) s') /\
     (c = UACPINT_EC_COMMAND_WRITE -> stands Ec (ew_set_Phase WantsWriteAddress w) s')) /\
  (EcPrompt L -> o.1 = true -> ok = true).
Proof.
  destruct o as [[] s]; simpl; intros Hw H; [|by simplify_eq].
  apply (send_command_spec _ _ _ _ _ _ (Hw eq_refl)) in H as [H1 H2]. split; [done|]. intros ? _. apply H2, ec_prompt.
Qed.

Lemma then_send_data_spec b w o ok s' : (o.1 = true -> stands Ec w o.2) -> wants_byte (ew_Phase w) = true -> is_byte b ->
  then_send Ec (ec_DataPort Ec) b o = (ok, s') ->
  (ok = true -> stands Ec (after_write b w) s') /\ (EcPrompt L -> o.1 = true -> ok = true).
Proof.
  destruct o as [[] s]; simpl; intros Hw Hp Hb H; [|by simplify_eq].
  apply (send_data_spec _ _ _ _ _ _ (Hw eq_refl) Hp Hb) in H as [H1 H2]. split; [done|]. intros ? _. apply H2, ec_prompt.
Qed.

Lemma then_take_spec w o r s' : (o.1 = true -> stands Ec w o.2) -> then_take Ec o = (r, s') ->
  (forall v, r = Some v -> rests w s' /\
     match ew_Phase w with
     | Answers a => (ec_plain a -> v = ew_Memory w a) /\ is_byte v
     | AnswersQuery q => v = q
     | _ => False
     end) /\
  (EcPrompt L -> o.1 = true -> answering (ew_Phase w) = true -> is_Some r).
Proof.
  destruct o as [[] s]; simpl; intros Hw H; [|by simplify_eq].
  apply (take_spec _ _ _ _ _ (Hw eq_refl)) in H as [H1 H2]. split; [done|]. intros ? _. apply H2, ec_prompt.
Qed.

Lemma read_byte_spec a w s o s' : rests w s -> is_byte a -> UacpiNtEcReadByte Ec a s = (o, s') ->
  (forall v, o = Some v -> rests w s' /\ (ec_plain a -> v = ew_Memory w a) /\ is_byte v) /\
  (EcPrompt L -> is_Some o).
Proof.
  intros Hw Ha. rewrite read_byte_steps.
  destruct (then_send Ec (ec_ControlPort Ec) _ _) as [b1 s1] eqn:E1.
  apply (then_send_command_spec _ w) in E1 as [H1 P1]; [|done].
  destruct (then_send Ec (ec_DataPort Ec) _ _) as [b2 s2] eqn:E2.
  apply (then_send_data_spec _ (ew_set_Phase WantsReadAddress w)) in E2 as [H2 P2]; [|by intros [H _]%H1; apply H|done..].
  destruct (then_take Ec _) as [r s3] eqn:E3.
  apply (then_take_spec (ew_set_Phase (Answers a) w)) in E3 as [H3 P3]; [|done]. intros [= <- <-]. split.
  - intros v Hv. destruct (H3 v Hv) as (Hr & Hm). exact (conj Hr Hm).
  - intros HP. apply P3; [done| |done]. apply P2; [done|]. by apply P1.
Qed.

Lemma write_byte_spec a v w s ok s' : rests w s -> is_byte a -> is_byte v -> UacpiNtEcWriteByte Ec a v s = (ok, s') ->
  (ok = true -> rests (ew_store a v w) s') /\ (EcPrompt L -> ok = true).
Proof.
  intros Hw Ha Hv. rewrite write_byte_steps.
  destruct (then_send Ec (ec_ControlPort Ec) _ _) as [b1 s1] eqn:E1.
  apply (then_send_command_spec _ w) in E1 as [H1 P1]; [|done].
  destruct (then_send Ec (ec_DataPort Ec) a _) as [b2 s2] eqn:E2.
  apply (then_send_data_spec _ (ew_set_Phase WantsWriteAddress w)) in E2 as [H2 P2]; [|by intros [_ H]%H1; apply H|done..].
  destruct (then_send Ec (ec_DataPort Ec) v _) as [b3 s3] eqn:E3.
  apply (then_send_data_spec _ (ew_set_Phase (WantsValue a) w)) in E3 as [H3 P3]; [|done..]. intros [= <- <-]. split.
  - exact H3.
  - intros HP. apply P3; [done|]. apply P2; [done|]. by apply P1.
Qed.

Lemma rests_flows w s s' : rests w s -> flows Ec s s' -> rests w s'.
Proof. intros H1 H2. unfold rests, stands. by etransitivity. Qed.

Lemma rests_passes w s h : rests w s -> passes ec_plain (seen Ec s) (ec_see h) -> forall l, rests w (mkPort h l).
Proof. intros H1 H2 l. unfold rests, stands. by etransitivity. Qed.

Lemma lock_global_spec w s ok q s' : rests w s -> UacpiNtEcLockGlobal Ec s = (ok, q, s') ->
  rests w s' /\ (EcPrompt L -> ok = true).
Proof.
  intros Hw. unfold UacpiNtEcLockGlobal. destruct (ec_GlobalLock Ec); simpl; [|by intros [= <- <- <-] ].
  destruct (port_acquire _ (ps_Hw s)) as [ [st n] h] eqn:E. pose proof (ec_acquire_law _ _ _ _ _ E) as Hp.
  intros H. split.
  - destruct (st =? _); simplify_eq; by eapply rests_passes.
  - intros HP. pose proof (ec_lock_given 0xFFFF (ps_Hw s)) as Hg. rewrite E in Hg. simpl in Hg. subst st. simpl in H. by simplify_eq.
Qed.

Lemma unlock_global_spec w q s : rests w s -> rests w (UacpiNtEcUnlockGlobal Ec q s).
Proof.
  intros Hw. unfold UacpiNtEcUnlockGlobal. destruct (ec_GlobalLock Ec); [|done].
  eapply rests_passes; [done|apply ec_release_law].
Qed.
End Bytes.

(** ** Queries *)
Section Queries.
Context {P : EcPorts} (Ec : UACPINT_EC) {L : ec_laws P Ec}.

(** The controller is between two transactions. *)
Definition resting (s : port_state) : Prop := ew_Phase (seen Ec s) = Idle.

Lemma resting_rests s : resting s -> rests Ec (seen Ec s) s.
Proof. unfold resting, rests, stands. intros <-. rewrite set_phase_same. apply passes_refl. Qed.

Lemma rests_resting w s : rests Ec w s -> resting s.
Proof. intros H. exact (passes_phase _ _ _ H). Qed.

Lemma flows_resting s s' : resting s -> flows Ec s s' -> resting s'.
Proof. intros H Hf. unfold resting. by rewrite (passes_phase _ _ _ Hf). Qed.

(** What fetching did to the events: nothing but wait for them to come, or the
    oldest of them was taken. *)
Definition fetched (QueryCode : Z) (w w' : ec_view) : Prop :=
  if QueryCode =? 0 then passes ec_plain w w' /\ (ew_Pending w' <> [] -> ew_Edge w' = true)
  else exists w1 rest, passes ec_plain w w1 /\ ew_Pending w1 = QueryCode :: rest /\
         passes ec_plain (ew_set_Pending rest w1) w'.

Lemma passes_pending w w' : ew_Pending w = [] -> passes ec_plain w w' -> ew_Pending w' <> [] -> ew_Edge w' = true.
Proof.
  intros H0 [_ _ (l & E1 & _ & ->)] Hn. rewrite H0 in E1. simpl in E1.
  rewrite bool_decide_eq_true_2; [by rewrite orb_true_r|]. split; [done|congruence].
Qed.

Lemma send_query_spec s ok s' : resting s -> EcPrompt L ->
  send_step Ec (ec_ControlPort Ec) UACPINT_EC_COMMAND_QUERY s = (ok, s') ->
  ok = true /\ exists h1, let w1 := ec_see h1 in passes ec_plain (seen Ec s) w1 /\
    match ew_Pending w1 with
    | [] => stands Ec (ew_set_Phase (AnswersQuery 0) w1) s'
    | q :: rest => stands Ec (ew_set_Phase (AnswersQuery q) (ew_set_Pending rest w1)) s'
    end.
Proof.
  intros Hi HP. unfold send_step. destruct (UacpiNtEcWaitInputEmpty Ec s) as [b s1] eqn:E. intros [= <- <-].
  apply (wait_input_spec Ec) in E as (Hf & He & Hb). rewrite (Hb (ec_prompt _)) in *. split; [done|].
  exists (ps_Hw s1). split; [done|].
  exact (ec_command_law (ps_Hw s1) UACPINT_EC_COMMAND_QUERY _ eq_refl (He eq_refl) (flows_resting _ _ Hi Hf)).
Qed.

Lemma unlock_flows n s : flows Ec s (UacpiNtEcUnlockGlobal Ec n (ExReleaseFastMutex s)).
Proof. unfold flows, UacpiNtEcUnlockGlobal. destruct (ec_GlobalLock Ec); [apply ec_release_law|apply passes_refl]. Qed.

Lemma query_codes_positive q rest h : ew_Pending (ec_see (EcLaws := L) h) = q :: rest -> 1 <= q < 256.
Proof. intros E. pose proof (ec_codes h) as H. rewrite E in H. by inversion H. Qed.

Lemma fetch_query_spec q s s' : resting s -> EcPrompt L -> UacpiNtEcFetchQuery Ec s = (q, s') ->
  resting s' /\ fetched q (seen Ec s) (seen Ec s').
Proof.
  intros Hi HP. rewrite fetch_query_steps.
  destruct (UacpiNtEcLockGlobal Ec s) as [ [ok n] s1] eqn:E1.
  apply (lock_global_spec _ (seen Ec s)) in E1 as [H1 Hl]; [|by apply resting_rests].
  rewrite (Hl HP). simpl negb. cbv iota. clear Hl.
  unfold rests, stands in H1. rewrite <- Hi, set_phase_same in H1.
  destruct (UacpiNtEcReadStatus Ec _) as [v s2] eqn:E2. apply read_status_law in E2.
  destruct (ec_status_law _ _ _ E2) as (_ & _ & Hsci & H2 & _). change (ps_Hw (ExAcquireFastMutex s1)) with (ps_Hw s1) in *.
  fold (seen Ec s1) (seen Ec s2) in *. rewrite Hsci. pose proof (passes_trans _ _ _ _ H1 H2) as H12.
  assert (resting s2) as Hi2 by (by eapply flows_resting).
  case_bool_decide as Hp; cbn [negb]; cbv iota.
  - intros [= <- <-]. pose proof (passes_trans _ _ _ _ H2 (unlock_flows n s2)) as H3.
    pose proof (passes_trans _ _ _ _ H1 H3) as H4.
    split; [exact (flows_resting _ _ Hi H4)|]. split; [done|]. by apply (passes_pending (seen Ec s1)).
  - unfold then_send. destruct (send_step Ec _ _ s2) as [b s3] eqn:E3.
    destruct (send_query_spec _ _ _ Hi2 HP E3) as (-> & h1 & Hw1 & Hst).
    set (w1 := ec_see h1) in *. destruct (ew_Pending w1) as [|q0 rest] eqn:Eq.
    { destruct (passes_events _ _ _ H2) as (l2 & El2 & _). destruct (passes_events _ _ _ Hw1) as (l3 & El3 & _).
      rewrite Eq, El2 in El3. symmetry in El3. apply app_eq_nil in El3 as [El3 _]. apply app_eq_nil in El3 as [El3 _]. done. }
    simpl. destruct (take_step Ec s3) as [o s4] eqn:E4. destruct (take_spec _ _ _ _ _ Hst E4) as [H4 Hs4].
    destruct (Hs4 (ec_prompt _) eq_refl) as [q1 ->]. destruct (H4 q1 eq_refl) as [Hr Hq]. simpl in Hq. subst q1.
    intros [= <- <-]. simpl default.
    assert (passes ec_plain (ew_set_Pending rest w1) (seen Ec (UacpiNtEcUnlockGlobal Ec n (ExReleaseFastMutex s4)))) as H5.
    { etransitivity; [|apply unlock_flows].
      unfold stands in Hr. rewrite set_phase_twice in Hr.
      replace (ew_set_Pending rest w1) with (ew_set_Phase Idle (ew_set_Pending rest w1)); [exact Hr|].
      pose proof (passes_phase _ _ _ Hw1) as Hph. rewrite Hi2 in Hph. destruct w1. simpl in Hph. by subst. }
    pose proof (query_codes_positive _ _ _ Eq) as Hq0.
    split.
    + unfold resting. rewrite (passes_phase _ _ _ H5). simpl. by rewrite (passes_phase _ _ _ Hw1).
    + unfold fetched. destruct (q0 =? 0) eqn:E0; bool_prop; [lia|]. exists w1, rest. split; [by etransitivity|]. done.
Qed.
End Queries.

(** ** Runs of bytes in the controller *)

Fixpoint ew_loads (a : Z) (n : nat) (w : ec_view) : list Z :=
  match n with O => [] | S n => ew_Memory w a :: ew_loads (a + 1) n w end.

Fixpoint ew_stores (a : Z) (l : list Z) (w : ec_view) : ec_view :=
  match l with [] => w | v :: l => ew_stores (a + 1) l (ew_store a v w) end.

Lemma length_ew_loads a n w : length (ew_loads a n w) = n.
Proof. revert a. induction n as [|n IH]; intros a; simpl; [done|]. by rewrite IH. Qed.

Lemma ew_stores_memory a l w x :
  ew_Memory (ew_stores a l w) x =
    if (a <=? x) && (x <? a + Z.of_nat (length l)) then default 0 (l !! Z.to_nat (x - a)) else ew_Memory w x.
Proof.
  revert a w. induction l as [|v l IH]; intros a w.
  - cbn [length Z.of_nat ew_stores]. rewrite Z.add_0_r.
    destruct (a <=? x) eqn:E1, (x <? a) eqn:E2; bool_prop; simpl; try done; lia.
  - cbn [ew_stores length]. rewrite IH. cbn [ew_store ew_Memory].
    destruct (decide (x = a)) as [->|Hn].
    + rewrite Z.eqb_refl, Z.leb_refl, Z.sub_diag. simpl.
      destruct (a + 1 <=? a) eqn:E1; bool_prop; [lia|]. simpl.
      destruct (a <? _) eqn:E2; bool_prop; [done|lia].
    + destruct (x =? a) eqn:E0; bool_prop; [done|].
      destruct (a + 1 <=? x) eqn:E1, (a <=? x) eqn:E3; bool_prop; try lia; try done. simpl.
      replace (a + 1 + Z.of_nat (length l)) with (a + Z.of_nat (S (length l))) by lia.
      destruct (x <? _); [|done]. replace (Z.to_nat (x - a)) with (S (Z.to_nat (x - (a + 1)))) by lia. done.
Qed.

Lemma ew_loads_ext a n w w' : (forall x, a <= x < a + Z.of_nat n -> ew_Memory w x = ew_Memory w' x) ->
  ew_loads a n w = ew_loads a n w'.
Proof.
  revert a. induction n as [|n IH]; intros a H; simpl; [done|]. f_equal; [apply H; lia|]. apply IH. intros. apply H. lia.
Qed.

Lemma ew_loads_app a n m w : ew_loads a (n + m) w = ew_loads a n w ++ ew_loads (a + Z.of_nat n) m w.
Proof.
  revert a. induction n as [|n IH]; intros a; simpl; [by rewrite Z.add_0_r|]. rewrite IH. do 3 f_equal. lia.
Qed.

(** What was stored is loaded. *)
Lemma ew_loads_stores a l w : ew_loads a (length l) (ew_stores a l w) = l.
Proof.
  revert a w. induction l as [|v l IH]; intros a w; [done|]. cbn [length ew_loads ew_stores]. rewrite IH. f_equal.
  rewrite ew_stores_memory. destruct (a + 1 <=? a) eqn:E; bool_prop; [lia|]. simpl. by rewrite Z.eqb_refl.
Qed.

Section Runs.
Context {P : EcPorts} (Ec : UACPINT_EC) {L : ec_laws P Ec}.

(** Addresses that are plain memory of the controller. *)
Definition plain_run (a : Z) (n : nat) : Prop := forall x, a <= x < a + Z.of_nat n -> ec_plain x.

Lemma plain_run_next a n : plain_run a (S n) -> ec_plain a /\ plain_run (a + 1) n.
Proof. intros H. split; [apply H; lia|]. intros x Hx. apply H. lia. Qed.

(** A run loaded byte by byte is in the buffer up to where the loop ended. *)
Lemma transfer_read_spec Offset n Index b w s :
  rests Ec w s -> 0 <= Offset -> 0 <= Index -> Offset + Index + Z.of_nat n <= 256 ->
  Index + Z.of_nat n <= Z.of_nat (length b) -> plain_run (Offset + Index) n ->
  exists k s', transfer n Index Ec false Offset b s =
      Done (Index + Z.of_nat k, take (Z.to_nat Index) b ++ ew_loads (Offset + Index) k w ++ drop (Z.to_nat Index + k) b, s') /\
    (k <= n)%nat /\ (k = n -> rests Ec w s') /\ (EcPrompt L -> k = n).
Proof.
  intros Hw HO. revert Index b s Hw. induction n as [|n IH]; intros Index b s Hw HI HS HL HP; cbn [transfer].
  { exists 0%nat, s. rewrite Z.add_0_r, Nat.add_0_r. simpl. by rewrite take_drop. }
  apply plain_run_next in HP as [Ha HP].
  rewrite u32_small, u8_small by lia.
  destruct (UacpiNtEcReadByte Ec (Offset + Index) s) as [o s1] eqn:E.
  apply (read_byte_spec _ _ w) in E as [Hv Hp]; [|done|unfold is_byte; lia].
  destruct o as [v|].
  2:{ exists 0%nat, s1. rewrite Z.add_0_r, Nat.add_0_r. simpl. rewrite take_drop. split_and!; [done|lia|done|].
      intros HE. destruct (Hp HE). done. }
  destruct (Hv v eq_refl) as (Hw1 & Hval & _). rewrite (Hval Ha). unfold store.
  destruct (decide _) as [Hd|Hd]; [|lia]. cbn [mbind run_bind].
  destruct (IH (Index + 1) (<[Z.to_nat Index := ew_Memory w (Offset + Index)]> b) s1 Hw1)
    as (k & s' & -> & Hk & Hr & HE); [lia|lia|rewrite length_insert; lia|by rewrite Z.add_assoc|].
  exists (S k), s'. rewrite (Z.add_assoc Offset).
  split; [|split_and!; [lia|intros; apply Hr; lia|intros; by rewrite HE] ]. do 2 f_equal. f_equal; [lia|].
  rewrite Z2Nat.inj_add by lia. simpl Z.to_nat. cbn [ew_loads].
  rewrite Nat.add_1_r, (take_S_r _ _ (ew_Memory w (Offset + Index))) by (by apply list_lookup_insert_eq).
  rewrite take_insert_ge, drop_insert_lt by lia. rewrite <- app_assoc. simpl. by rewrite Nat.add_succ_r.
Qed.

Lemma transfer_write_spec Offset n Index b w s :
  rests Ec w s -> 0 <= Offset -> 0 <= Index -> Offset + Index + Z.of_nat n <= 256 ->
  Index + Z.of_nat n <= Z.of_nat (length b) -> Forall is_byte b ->
  exists k s', transfer n Index Ec true Offset b s = Done (Index + Z.of_nat k, b, s') /\ (k <= n)%nat /\
    (k = n -> rests Ec (ew_stores (Offset + Index) (take n (drop (Z.to_nat Index) b)) w) s') /\ (EcPrompt L -> k = n).
Proof.
  intros Hw HO. revert Index w s Hw. induction n as [|n IH]; intros Index w s Hw HI HS HL Hb; cbn [transfer].
  { exists 0%nat, s. rewrite Z.add_0_r. by rewrite take_0. }
  destruct (b !! Z.to_nat Index) as [v|] eqn:Ev; [|apply lookup_ge_None_1 in Ev; lia].
  rewrite (load_in _ _ v) by done. cbn [mbind run_bind]. rewrite u32_small, u8_small by lia.
  destruct (UacpiNtEcWriteByte Ec (Offset + Index) v s) as [ok s1] eqn:E.
  apply (write_byte_spec _ _ _ w) in E as [Hv Hp];
    [|done|unfold is_byte; lia|by apply (Forall_lookup_1 _ _ _ _ Hb Ev)].
  destruct ok.
  2:{ exists 0%nat, s1. rewrite Z.add_0_r. split_and!; [done|lia|done|]. intros HE. by specialize (Hp HE). }
  destruct (IH (Index + 1) (ew_store (Offset + Index) v w) s1 (Hv eq_refl)) as (k & s' & -> & Hk & Hr & HE); [lia..|done|].
  exists (S k), s'. split; [f_equal; f_equal; f_equal; lia|]. split_and!; [lia| |intros; by rewrite HE].
  intros Hkn. specialize (Hr ltac:(lia)). rewrite (drop_S _ v) by done. cbn [firstn ew_stores].
  rewrite Z2Nat.inj_add, Nat.add_1_r, Z.add_assoc in Hr by lia. exact Hr.
Qed.
End Runs.

(** ** Transfers *)
Section Transfers.
Context {P : EcPorts} (Ec : UACPINT_EC) {L : ec_laws P Ec}.

(** What the I/O manager hands over. *)
Definition usable_transfer (i : ec_irp) : Prop :=
  0 <= ei_Length i < 2 ^ 32 /\ 0 <= ei_LowPart i < 2 ^ 32 /\ ei_Completed i = [] /\
  match ei_Buffer i with
  | Some b => ei_Length i <= Z.of_nat (length b) /\ Forall is_byte b
  | None => True
  end.

(** The bytes asked for are inside the controller's space. *)
Definition in_space (i : ec_irp) : Prop :=
  ei_HighPart i = 0 /\ ei_LowPart i + ei_Length i <= UACPINT_EC_SPACE_SIZE.

Lemma in_space_check i : usable_transfer i -> ei_Length i <> 0 ->
  negb (ei_HighPart i =? 0) || (UACPINT_EC_SPACE_SIZE <=? ei_LowPart i) ||
    (u32 (UACPINT_EC_SPACE_SIZE - ei_LowPart i) <? ei_Length i) = false <-> in_space i.
Proof.
  intros (Hl & Ho & _) Hn. unfold in_space, UACPINT_EC_SPACE_SIZE.
  destruct (decide (256 <= ei_LowPart i)).
  - assert (256 <=? ei_LowPart i = true) as -> by (by apply Z.leb_le). rewrite orb_true_r. split; [done|lia].
  - assert (256 <=? ei_LowPart i = false) as -> by (apply Z.leb_gt; lia). rewrite orb_false_r, orb_false_iff, negb_false_iff.
    rewrite u32_small, Z.eqb_eq, Z.ltb_ge by lia. lia.
Qed.

(** The bytes moved, in the buffer of a read and in the controller of a write. *)
Definition buffer_after (i : ec_irp) (b : list Z) (k : nat) (w : ec_view) : list Z :=
  if ei_Write i then b else ew_loads (ei_LowPart i) k w ++ drop k b.
Definition view_after (i : ec_irp) (b : list Z) (w : ec_view) : ec_view :=
  if ei_Write i then ew_stores (ei_LowPart i) (take (Z.to_nat (ei_Length i)) b) w else w.

Lemma transfer_spec i b w s : usable_transfer i -> ei_Buffer i = Some b -> in_space i ->
  plain_run Ec (ei_LowPart i) (Z.to_nat (ei_Length i)) -> rests Ec w s ->
  exists k s', transfer (Z.to_nat (ei_Length i)) 0 Ec (ei_Write i) (ei_LowPart i) b s =
      Done (Z.of_nat k, buffer_after i b k w, s') /\ Z.of_nat k <= ei_Length i /\
    (Z.of_nat k = ei_Length i -> rests Ec (view_after i b w) s') /\ (EcPrompt L -> Z.of_nat k = ei_Length i).
Proof.
  intros (Hl & Ho & _ & Hb) Eb [_ HS] Hpl Hw. rewrite Eb in Hb. destruct Hb as [Hb Hby].
  unfold UACPINT_EC_SPACE_SIZE in HS. unfold buffer_after, view_after. destruct (ei_Write i).
  - destruct (transfer_write_spec Ec (ei_LowPart i) (Z.to_nat (ei_Length i)) 0 b w s Hw)
      as (k & s' & -> & Hk & Hr & HE); [lia..|done|]. exists k, s'. rewrite Z.add_0_r in Hr. simpl in Hr.
    split; [done|]. split_and!; [lia|intros; apply Hr; lia|]. intros HP. rewrite (HE HP). lia.
  - destruct (transfer_read_spec Ec (ei_LowPart i) (Z.to_nat (ei_Length i)) 0 b w s Hw)
      as (k & s' & -> & Hk & Hr & HE); [lia..|by rewrite Z.add_0_r|]. exists k, s'. rewrite Z.add_0_r.
    split; [done|]. split_and!; [lia|intros; apply Hr; lia|]. intros HP. rewrite (HE HP). lia.
Qed.

Lemma read_write_spec i b w s : ec_RegionInstalled Ec = true -> ei_Passive i = true ->
  usable_transfer i -> ei_Buffer i = Some b -> ei_Length i <> 0 -> in_space i ->
  plain_run Ec (ei_LowPart i) (Z.to_nat (ei_Length i)) -> rests Ec w s ->
  exists st k i' s', UacpiNtEcReadWrite (Some Ec) i s = Done (st, i', s') /\
    ei_Completed i' = [(st, Z.of_nat k)] /\ Z.of_nat k <= ei_Length i /\
    (st = STATUS_SUCCESS <-> Z.of_nat k = ei_Length i) /\
    ei_Buffer i' = Some (buffer_after i b k w) /\
    (st = STATUS_SUCCESS -> rests Ec (view_after i b w) s') /\
    (EcPrompt L -> st = STATUS_SUCCESS).
Proof.
  intros HR HI Hu Eb Hn Hs Hpl Hw. pose proof Hu as (Hl & _ & Hc & _).
  unfold UacpiNtEcReadWrite. rewrite HR, HI, Eb. simpl negb. cbv iota.
  destruct (ei_Length i =? 0) eqn:E0; bool_prop; [done|].
  rewrite (proj2 (in_space_check i Hu Hn) Hs).
  destruct (UacpiNtEcLockGlobal Ec s) as [ [ok q] s1] eqn:E. apply (lock_global_spec _ w) in E as [Hw1 Hlk]; [|done].
  destruct ok; simpl negb; cbv iota.
  - destruct (transfer_spec i b w s1 Hu Eb Hs Hpl Hw1) as (k & s2 & -> & Hk & Hr & HE). cbn [mbind run_bind].
    destruct (Z.of_nat k <? ei_Length i) eqn:Ek; bool_prop; simpl.
    + eexists _, k, _, _. split; [done|]. simpl. rewrite Hc. split_and!; try done.
      * split; [done|lia].
      * intros HP. specialize (HE HP). lia.
    + assert (Z.of_nat k = ei_Length i) as Heq by lia. eexists _, k, _, _. split; [done|]. simpl. rewrite Hc, Heq. split_and!; try done.
      intros _. by apply unlock_global_spec, Hr.
  - eexists _, 0%nat, _, _. split; [done|]. simpl. rewrite Hc. split_and!; try done.
    + lia.
    + rewrite Eb. f_equal. unfold buffer_after. by destruct (ei_Write i).
    + intros HP. by specialize (Hlk HP).
Qed.

(** What is not in the space is refused before the ports are touched. *)
Lemma transfer_refused i s : usable_transfer i -> ei_Length i <> 0 -> ei_Buffer i = None \/ ~ in_space i ->
  ec_RegionInstalled Ec = true -> ei_Passive i = true ->
  exists i', UacpiNtEcReadWrite (Some Ec) i s = Done (STATUS_INVALID_PARAMETER, i', s) /\
    ei_Completed i' = [(STATUS_INVALID_PARAMETER, 0)] /\ ei_Buffer i' = ei_Buffer i.
Proof.
  intros Hu Hn Hr HR HI. pose proof Hu as (_ & _ & Hc & _). unfold UacpiNtEcReadWrite. rewrite HR, HI. simpl negb. cbv iota.
  destruct (ei_Length i =? 0) eqn:E0; bool_prop; [done|]. destruct (ei_Buffer i) as [b|] eqn:Eb.
  - destruct Hr as [?|Hr]; [done|]. destruct (_ || _) eqn:E; [|by apply (in_space_check i Hu Hn) in E].
    eexists. split; [done|]. simpl. by rewrite Hc, Eb.
  - eexists. split; [done|]. simpl. by rewrite Hc, Eb.
Qed.
End Transfers.

(** ** Fields of the interpreter *)

Lemma lor_shift_add a v n : 0 <= n -> 0 <= a < 2 ^ n -> Z.lor a (Z.shiftl v n) = a + v * 2 ^ n.
Proof.
  intros Hn Ha. assert (Z.land a (Z.shiftl v n) = 0) as H0.
  { apply Z.bits_inj'. intros i Hi. rewrite Z.land_spec, Z.bits_0. destruct (decide (i < n)).
    - by rewrite Z.shiftl_spec_low, andb_false_r.
    - assert (Z.testbit a i = false) as ->; [|done]. apply Z.testbit_false; [done|].
      rewrite Z.div_small; [done|]. split; [lia|]. eapply Z.lt_le_trans; [apply Ha|]. apply Z.pow_le_mono_r; lia. }
  rewrite <- Z.lxor_lor by done. rewrite <- Z.add_nocarry_lxor by done. by rewrite Z.shiftl_mul_pow2.
Qed.

Lemma pow256 k : 0 <= k -> 256 ^ k = 2 ^ (8 * k).
Proof. intros. by rewrite Z.pow_mul_r by lia. Qed.

Lemma le_bytes_snoc l v : le_bytes (l ++ [v]) = le_bytes l + v * 256 ^ Z.of_nat (length l).
Proof.
  induction l as [|b l IH]; cbn [app le_bytes foldr length]; [lia|].
  fold (le_bytes (l ++ [v])). fold (le_bytes l). rewrite IH, Nat2Z.inj_succ, Z.pow_succ_r by lia. lia.
Qed.

(** One more byte on top of the value. *)
Lemma le_bytes_or l v : Forall is_byte l -> is_byte v -> (length l < 8)%nat ->
  Z.lor (le_bytes l) (u64 (Z.shiftl v (Z.of_nat (length l) * 8))) = le_bytes (l ++ [v]).
Proof.
  intros Hl Hv Hn. set (n := Z.of_nat (length l)) in *.
  assert (256 ^ Z.of_nat (length l) = 2 ^ (n * 8)) as Hp by (by rewrite pow256, Z.mul_comm by lia).
  rewrite u64_small, lor_shift_add, le_bytes_snoc, Hp; [done|lia|by rewrite <- Hp; apply le_bytes_range|].
  rewrite Z.shiftl_mul_pow2 by lia. unfold is_byte, is_u64, ULONGLONG_MAX in *.
  assert (2 ^ (n * 8) <= 2 ^ 56) by (apply Z.pow_le_mono_r; lia).
  assert (0 < 2 ^ (n * 8)) by (apply Z.pow_pos_nonneg; lia). nia.
Qed.

(** The byte a field is written with at [Index]. *)
Lemma le_field_shift n v k : 0 <= v -> (k < n)%nat -> le_field n v !! k = Some (u8 (Z.shiftr v (Z.of_nat k * 8))).
Proof.
  intros Hv. revert n v Hv. induction k as [|k IH]; intros n v Hv Hk; (destruct n as [|n]; [lia|]); cbn [le_field].
  - simpl. by rewrite Z.shiftr_0_r.
  - change ((v mod 256 :: le_field n (v / 256)) !! S k) with (le_field n (v / 256) !! k). rewrite (IH n (v / 256)) by (try apply Z.div_pos; lia). do 2 f_equal.
    rewrite Nat2Z.inj_succ. replace (Z.succ (Z.of_nat k) * 8) with (8 + Z.of_nat k * 8) by lia.
    rewrite <- Z.shiftr_shiftr by lia. by rewrite (Z.shiftr_div_pow2 v 8) by lia.
Qed.

Section Fields.
Context {P : EcPorts} (Ec : UACPINT_EC) {L : ec_laws P Ec}.

Lemma region_read_spec n l d w s :
  rests Ec w s -> 0 <= rw_offset d -> rw_offset d + Z.of_nat (length l + n) <= 256 -> (length l + n <= 8)%nat ->
  Forall is_byte l -> rw_value d = le_bytes l -> plain_run Ec (rw_offset d + Z.of_nat (length l)) n ->
  exists st v s', region_read n (Z.of_nat (length l)) Ec d s = (st, rw_set_value v d, s') /\
    (st = UACPI_STATUS_OK ->
       rests Ec w s' /\ v = le_bytes (l ++ ew_loads (rw_offset d + Z.of_nat (length l)) n w)) /\
    (EcPrompt L -> st = UACPI_STATUS_OK).
Proof.
  intros Hw HO. revert l d s Hw HO. induction n as [|n IH]; intros l d s Hw HO HS H8 Hl Hv HP; cbn [region_read].
  { exists UACPI_STATUS_OK, (rw_value d), s. destruct d. split; [done|]. simpl in *. by rewrite app_nil_r. }
  apply plain_run_next in HP as [Ha HP]. unfold UACPINT_EC_SPACE_SIZE.
  rewrite add64_small by (unfold is_u64, ULONGLONG_MAX; lia).
  destruct (256 <=? _) eqn:E0; bool_prop; [lia|]. rewrite u8_small by lia.
  destruct (UacpiNtEcReadByte Ec _ s) as [o s1] eqn:E.
  apply (read_byte_spec _ _ w) in E as [Hb Hp]; [|done|unfold is_byte; lia]. destruct o as [v|].
  2:{ eexists _, (rw_value d), s1. destruct d. split; [done|]. split; [done|]. intros HE. by destruct (Hp HE). }
  destruct (Hb v eq_refl) as (Hw1 & Hval & Hby). rewrite (Hval Ha) in *.
  set (v0 := ew_Memory w (rw_offset d + Z.of_nat (length l))) in *.
  destruct (IH (l ++ [v0]) (rw_set_value (Z.lor (rw_value d) (u64 (Z.shiftl v0 (Z.of_nat (length l) * 8)))) d) s1 Hw1)
    as (st & v' & s' & Hrun & Hok & HE); [done|rewrite length_app; simpl; lia..| | | |].
  - apply Forall_app. split; [done|]. by constructor.
  - simpl. rewrite Hv. apply le_bytes_or; [done..|lia].
  - rewrite length_app. simpl. replace (rw_offset d + _) with (rw_offset d + Z.of_nat (length l) + 1) by lia. done.
  - exists st, v', s'. replace (Z.of_nat (length l) + 1) with (Z.of_nat (length (l ++ [v0]))) by (rewrite length_app; simpl; lia).
    rewrite Hrun. split; [done|]. split; [|done]. intros Hst. destruct (Hok Hst) as [H1 H2]. split; [done|].
    rewrite H2, length_app. simpl. rewrite <- app_assoc.
    by replace (rw_offset d + Z.of_nat (length l + 1)) with (rw_offset d + Z.of_nat (length l) + 1) by lia.
Qed.

Lemma region_write_spec n k d w s :
  rests Ec w s -> 0 <= rw_offset d -> rw_offset d + Z.of_nat (k + n) <= 256 -> 0 <= rw_value d ->
  exists st s', region_write n (Z.of_nat k) Ec d s = (st, s') /\
    (st = UACPI_STATUS_OK ->
       rests Ec (ew_stores (rw_offset d + Z.of_nat k) (drop k (le_field (k + n) (rw_value d))) w) s') /\
    (EcPrompt L -> st = UACPI_STATUS_OK).
Proof.
  intros Hw HO. revert k w s Hw. induction n as [|n IH]; intros k w s Hw HS Hv; cbn [region_write].
  { exists UACPI_STATUS_OK, s. split; [done|]. rewrite Nat.add_0_r, drop_ge by (by rewrite length_le_field). done. }
  unfold UACPINT_EC_SPACE_SIZE. rewrite add64_small by (unfold is_u64, ULONGLONG_MAX; lia).
  destruct (256 <=? _) eqn:E0; bool_prop; [lia|]. rewrite u8_small by lia.
  destruct (UacpiNtEcWriteByte Ec _ _ s) as [ok s1] eqn:E.
  apply (write_byte_spec _ _ _ w) in E as [Hb Hp]; [|done|unfold is_byte; lia|apply u8_range]. destruct ok.
  2:{ eexists _, s1. split; [done|]. split; [done|]. intros HE. by specialize (Hp HE). }
  destruct (IH (S k) _ s1 (Hb eq_refl)) as (st & s' & Hrun & Hok & HE); [lia|done|].
  exists st, s'. rewrite Nat2Z.inj_succ, <- Z.add_1_r in Hrun. rewrite Hrun. split; [done|]. split; [|done].
  intros Hst. rewrite (drop_S _ (u8 (Z.shiftr (rw_value d) (Z.of_nat k * 8)))) by (apply le_field_shift; [done|lia]).
  cbn [ew_stores]. rewrite Nat.add_succ_r, <- Nat.add_succ_l. specialize (Hok Hst).
  rewrite Nat2Z.inj_succ, <- Z.add_1_r, Z.add_assoc in Hok. exact Hok.
Qed.
End Fields.

(** ** A controller

    At the ports 0x62 and 0x66, through with a byte after [delay] stalls; with the
    [k]-th stall the events of the [k]-th list of [re_Coming] come in.  The
    witnesses run on it. *)
Record ref_ec := mkRefEc {
  re_View : ec_view;
  re_Busy : nat;
  re_Input : bool;
  re_Coming : list (list Z)
}.

Definition code_of (q : Z) : Z := 1 + (q - 1) mod 255.

Section Reference.
Context (delay : nat).

Definition re_busy (h : ref_ec) : nat := Nat.min (re_Busy h) delay.
Definition re_input (h : ref_ec) : bool := re_Input h && (0 <? re_busy h)%nat.
Definition re_see (h : ref_ec) : ec_view :=
  let w := re_View h in
  mkView (fun a => u8 (ew_Memory w a)) (ew_Phase w) (map code_of (ew_Pending w)) (ew_Edge w) (map code_of (ew_Arrived w)).

(** A byte was sent, and the view is [w] now. *)
Definition re_sent (w : ec_view) (h : ref_ec) : ref_ec := mkRefEc w delay true (re_Coming h).

Definition re_status (h : ref_ec) : Z :=
  (if re_input h then 2 else 0) + (if answering (ew_Phase (re_View h)) && bool_decide (re_busy h = 0%nat) then 1 else 0) +
  (if bool_decide (ew_Pending (re_View h) = []) then 0 else 32).

Definition re_in (p : Z) (h : ref_ec) : Z * ref_ec :=
  let w := re_View h in
  if p =? 0x66 then (re_status h, h)
  else
    match re_busy h, ew_Phase w with
    | O, Answers a => (u8 (ew_Memory w a), mkRefEc (ew_set_Phase Idle w) (re_Busy h) (re_Input h) (re_Coming h))
    | O, AnswersQuery q => (q, mkRefEc (ew_set_Phase Idle w) (re_Busy h) (re_Input h) (re_Coming h))
    | _, _ => (0, h)
    end.

Definition re_command (c : Z) (w : ec_view) : ec_view :=
  match ew_Phase w with
  | Idle =>
      if c =? UACPINT_EC_COMMAND_READ then ew_set_Phase WantsReadAddress w
      else if c =? UACPINT_EC_COMMAND_WRITE then ew_set_Phase WantsWriteAddress w
      else if c =? UACPINT_EC_COMMAND_QUERY then
        match ew_Pending w with
        | [] => ew_set_Phase (AnswersQuery 0) w
        | q :: rest => ew_set_Phase (AnswersQuery (code_of q)) (ew_set_Pending rest w)
        end
      else w
  | _ => w
  end.

Definition re_out (p v : Z) (h : ref_ec) : ref_ec :=
  re_sent (if p =? 0x66 then re_command v (re_View h) else after_write v (re_View h)) h.

Definition re_stall (us : Z) (h : ref_ec) : ref_ec :=
  mkRefEc (ew_raise (default [] (head (re_Coming h))) (re_View h)) (pred (re_busy h)) (re_Input h) (tail (re_Coming h)).

#[export] Instance ref_ports : EcPorts := {|
  ec_hw := ref_ec;
  port_in := re_in;
  port_out := re_out;
  port_stall := re_stall;
  port_acquire _ h := (UACPI_STATUS_OK, 7, h);
  port_release _ h := h
|}.

Definition all_plain (a : Z) : Prop := True.

Lemma code_of_range q : 1 <= code_of q < 256.
Proof. unfold code_of. pose proof (Z.mod_pos_bound (q - 1) 255). lia. Qed.

Lemma re_see_raise l h b i k :
  passes all_plain (re_see h) (re_see (mkRefEc (ew_raise l (re_View h)) b i k)).
Proof.
  unfold re_see. split; [done..|]. exists (map code_of l). simpl. rewrite !map_app. split_and!; [done..|].
  f_equal. apply bool_decide_ext. destruct (ew_Pending (re_View h)), l; simpl; naive_solver.
Qed.

Lemma re_see_same w h h' : re_see h = w -> re_see h' = w -> passes all_plain (re_see h) (re_see h').
Proof. intros -> ->. apply passes_refl. Qed.

Lemma re_command_law h c : ew_Phase (re_see h) = Idle ->
  let w := re_see h in
  let w' := re_see (re_sent (re_command c (re_View h)) h) in
  if c =? UACPINT_EC_COMMAND_READ then passes all_plain (ew_set_Phase WantsReadAddress w) w'
  else if c =? UACPINT_EC_COMMAND_WRITE then passes all_plain (ew_set_Phase WantsWriteAddress w) w'
  else if c =? UACPINT_EC_COMMAND_QUERY then
    match ew_Pending w with
    | [] => passes all_plain (ew_set_Phase (AnswersQuery 0) w) w'
    | q :: rest => passes all_plain (ew_set_Phase (AnswersQuery q) (ew_set_Pending rest w)) w'
    end
  else True.
Proof.
  intros Hi. unfold re_see in *. simpl in Hi. unfold re_command, re_sent. simpl re_View. rewrite Hi.
  destruct (re_View h) as [M p l e a]. simpl in Hi. subst p.
  destruct (c =? _); [apply passes_refl|]. destruct (c =? _); [apply passes_refl|]. destruct (c =? _); [|done].
  destruct l as [|q rest]; apply passes_refl.
Qed.

Lemma re_write_law h b : is_byte b ->
  let w := re_see h in
  let w' := re_see (re_sent (after_write b (re_View h)) h) in
  match ew_Phase w with
  | WantsReadAddress => passes all_plain (ew_set_Phase (Answers b) w) w'
  | WantsWriteAddress => passes all_plain (ew_set_Phase (WantsValue b) w) w'
  | WantsValue a => passes all_plain (ew_set_Phase Idle (ew_store a b w)) w'
  | _ => True
  end.
Proof.
  intros Hb. unfold re_see, after_write, re_sent. simpl. destruct (ew_Phase (re_View h)) as [| |a| |a|q]; try done;
    try apply passes_refl.
  split; [done| |].
  - intros x _. simpl. destruct (x =? a); [|done]. apply u8_small. done.
  - simpl. exists []. rewrite !app_nil_r, bool_decide_eq_false_2, orb_false_r; [done|]. by intros [_ ?].
Qed.

Lemma re_read_law h v h' : re_in 0x62 h = (v, h') -> re_busy h = 0%nat ->
  let w := re_see h in
  match ew_Phase w with
  | Answers a => (all_plain a -> v = ew_Memory w a) /\ is_byte v /\ passes all_plain (ew_set_Phase Idle w) (re_see h')
  | AnswersQuery q => v = q /\ passes all_plain (ew_set_Phase Idle w) (re_see h')
  | _ => True
  end.
Proof.
  unfold re_in. simpl Z.eqb. cbv iota. intros E H0. rewrite H0 in E. simpl.
  destruct (ew_Phase (re_View h)) as [| |a| |a|q]; try done; simplify_eq.
  - split; [done|]. split; [apply u8_range|apply passes_refl].
  - split; [done|apply passes_refl].
Qed.

Lemma re_status_law h :
  (Z.land (re_status h) 2 =? 0) = negb (re_input h) /\
  (Z.land (re_status h) 1 =? 1) = (answering (ew_Phase (re_see h)) && bool_decide (re_busy h = 0%nat)) /\
  has_flag (re_status h) 32 = negb (bool_decide (ew_Pending (re_see h) = [])).
Proof.
  unfold re_status, re_see. simpl ew_Phase. simpl ew_Pending.
  assert (bool_decide (map code_of (ew_Pending (re_View h)) = []) = bool_decide (ew_Pending (re_View h) = [])) as ->.
  { apply bool_decide_ext. by destruct (ew_Pending (re_View h)). }
  destruct (re_input h), (answering _ && bool_decide _), (bool_decide _); done.
Qed.

#[export] Program Instance ref_laws : EcLaws ref_ports 0x62 0x66 := {|
  ec_plain := all_plain;
  ec_see := re_see;
  ec_input := re_input;
  ec_busy := re_busy
|}.
Next Obligation. intros h. apply Forall_map, Forall_true. intros. apply code_of_range. Qed.
Next Obligation. intros h a _. apply u8_range. Qed.
Next Obligation. intros h [_ H%Nat.ltb_lt]%andb_prop. done. Qed.
Next Obligation.
  intros h v h' E. simpl in E. unfold re_in in E. simpl in E. simplify_eq.
  destruct (re_status_law h') as (H1 & H2 & H3). by split_and!.
Qed.
Next Obligation.
  intros h. split; [apply re_see_raise|]. unfold re_stall, re_busy, re_input. simpl. unfold re_busy. simpl.
  split; [lia|]. intros [-> H%Nat.ltb_lt]%andb_prop. unfold re_busy in H. apply Nat.ltb_lt. lia.
Qed.
Next Obligation. intros h c h' <- _ Hi. by apply re_command_law. Qed.
Next Obligation. intros h b h' <- _ Hb. by apply re_write_law. Qed.
Next Obligation. intros h v h' E H0. by eapply re_read_law. Qed.
Next Obligation. intros n h st q h' E. simpl in E. simplify_eq. apply passes_refl. Qed.
Next Obligation. intros. apply passes_refl. Qed.

Lemma ref_prompt : (delay <= 1000)%nat -> EcPrompt ref_laws.
Proof. intros Hk. split; [|done]. intros h. simpl. unfold re_busy, wait_fuel. lia. Qed.
End Reference.

(** ** The address space *)
Section Space.
Context {P : EcPorts} (Ec : UACPINT_EC) {L : ec_laws P Ec}.

Definition field_in_space (d : uacpi_region_rw_data) : Prop :=
  0 <= rw_offset d /\ 0 <= rw_byte_width d <= 8 /\ rw_offset d + Z.of_nat (rw_Width d) <= UACPINT_EC_SPACE_SIZE.

Lemma rw_width_bound d : field_in_space d -> (rw_Width d <= 8)%nat.
Proof. intros (_ & ? & _). unfold rw_Width. destruct (_ =? 0); lia. Qed.

Lemma field_read d w s : rests Ec w s -> field_in_space d -> plain_run Ec (rw_offset d) (rw_Width d) ->
  exists st v s', UacpiNtEcRegionHandler Ec (UACPI_REGION_OP_READ d) s = (st, UACPI_REGION_OP_READ (rw_set_value v d), s') /\
    (st = UACPI_STATUS_OK -> rests Ec w s' /\ v = le_bytes (ew_loads (rw_offset d) (rw_Width d) w)) /\
    (EcPrompt L -> st = UACPI_STATUS_OK).
Proof.
  intros Hw Hf Hpl. pose proof (rw_width_bound d Hf). destruct Hf as (HO & _ & HS). unfold UACPINT_EC_SPACE_SIZE in HS.
  destruct (region_read_spec Ec (rw_Width d) [] (rw_set_value 0 d) w s Hw) as (st & v & s' & E & Hok & HE);
    [done|simpl; lia|simpl; lia|done|done|by simpl; rewrite Z.add_0_r|].
  exists st, v, s'. cbn [UacpiNtEcRegionHandler]. unfold UacpiNtEcRegionRead. change (Z.of_nat (length (@nil Z))) with 0 in E.
  rewrite E. split; [done|]. simpl in Hok. by rewrite Z.add_0_r in Hok.
Qed.

Lemma field_write d w s : rests Ec w s -> field_in_space d -> 0 <= rw_value d ->
  exists st s', UacpiNtEcRegionHandler Ec (UACPI_REGION_OP_WRITE d) s = (st, UACPI_REGION_OP_WRITE d, s') /\
    (st = UACPI_STATUS_OK -> rests Ec (ew_stores (rw_offset d) (le_field (rw_Width d) (rw_value d)) w) s') /\
    (EcPrompt L -> st = UACPI_STATUS_OK).
Proof.
  intros Hw (HO & _ & HS) Hv. unfold UACPINT_EC_SPACE_SIZE in HS.
  destruct (region_write_spec Ec (rw_Width d) 0 d w s Hw) as (st & s' & E & Hok & HE); [done|simpl; lia|done|].
  exists st, s'. cbn [UacpiNtEcRegionHandler]. unfold UacpiNtEcRegionWrite. change (Z.of_nat 0) with 0 in E. rewrite E. split; [done|].
  simpl in Hok. by rewrite Z.add_0_r in Hok.
Qed.

Lemma le_bytes_mod_field n v : 0 <= v -> le_bytes (le_field n v) = v mod 256 ^ Z.of_nat n.
Proof.
  revert v. induction n as [|n IH]; intros v Hv; [by rewrite Z.mod_1_r|]. cbn [le_field le_bytes foldr].
  fold (le_bytes (le_field n (v / 256))). rewrite IH by (apply Z.div_pos; lia).
  rewrite Nat2Z.inj_succ, Z.pow_succ_r by lia. rewrite Z.rem_mul_r by lia. lia.
Qed.
End Space.

(** What AML writes into a field of the controller it reads back, cut to
    the width of the field, and a byte of plain memory outside the field keeps its
    value. *)
Theorem ec_field_roundtrip {P : EcPorts} Ec {L : ec_laws P Ec} (HP : EcPrompt L) d w s :
  rests Ec w s -> field_in_space d -> 0 <= rw_value d -> plain_run Ec (rw_offset d) (rw_Width d) ->
  exists s1 s2,
    UacpiNtEcRegionHandler Ec (UACPI_REGION_OP_WRITE d) s = (UACPI_STATUS_OK, UACPI_REGION_OP_WRITE d, s1) /\
    (forall d', rw_offset d' = rw_offset d -> rw_byte_width d' = rw_byte_width d ->
       UacpiNtEcRegionHandler Ec (UACPI_REGION_OP_READ d') s1 =
         (UACPI_STATUS_OK, UACPI_REGION_OP_READ (rw_set_value (rw_value d mod 256 ^ Z.of_nat (rw_Width d)) d'), s2)) /\
    forall a, ec_plain a -> ~ rw_offset d <= a < rw_offset d + Z.of_nat (rw_Width d) ->
      ew_Memory (seen Ec s2) a = ew_Memory w a.
Proof.
  intros Hw Hf Hv Hpl. destruct (field_write Ec d w s Hw Hf Hv) as (st & s1 & E1 & Hok1 & HE1).
  specialize (HE1 HP) as ->. specialize (Hok1 eq_refl).
  destruct (field_read Ec d _ s1 Hok1 Hf Hpl) as (st & v & s2 & E2 & Hok2 & HE2). specialize (HE2 HP) as ->.
  destruct (Hok2 eq_refl) as [Hw2 Hv2]. exists s1, s2. split; [done|]. split.
  - intros d' Ho Hb. cbn [UacpiNtEcRegionHandler] in *. destruct d as [o x bw], d' as [o' x' bw']. simpl in Ho, Hb. subst o' bw'.
    unfold UacpiNtEcRegionRead, rw_set_value, rw_Width in *. cbn [rw_offset rw_value rw_byte_width] in *.
    destruct (region_read _ _ _ _ s1) as [ [st2 d2] s3]. simplify_eq/=. do 2 f_equal. f_equal. f_equal.
    rewrite <- le_bytes_mod_field by done. f_equal.
    set (n := Z.to_nat _). rewrite <- (length_le_field n x) at 1. apply ew_loads_stores.
  - intros a Ha Hn. rewrite (passes_memory _ _ _ Hw2 a Ha). cbn [ew_set_Phase ew_Memory].
    rewrite ew_stores_memory, length_le_field. destruct (_ && _) eqn:E; [|done]. bool_prop. lia.
Qed.

(** A read or write of the address space through an IRP that stays inside it
    is completed once, and reports as many bytes as were moved: a read has the
    controller's bytes in front of the buffer and the rest of the buffer as it was,
    and a success has the controller between two transactions again, with the
    bytes of a write in its memory.  It is a success exactly when all were moved,
    and with a controller that answers in time it always is. *)
Theorem ec_transfer_correct {P : EcPorts} Ec {L : ec_laws P Ec} i b w s :
  ec_RegionInstalled Ec = true -> ei_Passive i = true -> usable_transfer i -> ei_Buffer i = Some b ->
  ei_Length i <> 0 -> in_space i -> plain_run Ec (ei_LowPart i) (Z.to_nat (ei_Length i)) -> rests Ec w s ->
  exists st k i' s', UacpiNtEcReadWrite (Some Ec) i s = Done (st, i', s') /\
    ei_Completed i' = [(st, Z.of_nat k)] /\ Z.of_nat k <= ei_Length i /\
    (st = STATUS_SUCCESS <-> Z.of_nat k = ei_Length i) /\
    ei_Buffer i' = Some (if ei_Write i then b else ew_loads (ei_LowPart i) k w ++ drop k b) /\
    (st = STATUS_SUCCESS ->
       rests Ec (if ei_Write i then ew_stores (ei_LowPart i) (take (Z.to_nat (ei_Length i)) b) w else w) s') /\
    (EcPrompt L -> st = STATUS_SUCCESS).
Proof. apply read_write_spec. Qed.

(** ** Examples *)

Definition example_ec (GlobalLock : bool) : UACPINT_EC :=
  mkEc 5 0 0x62 0x66 0 23 true false GlobalLock (replicate 256 0) (replicate 256 0).

(** Two events are on their way. *)
Definition example_view : ec_view := mkView (fun a => a) Idle [] false [].
Definition example_hw : ref_ec := mkRefEc example_view 0 false [[]; [0x11]; []; [0x22]].
Definition example_port : port_state (P := ref_ports 3) := mkPort (P := ref_ports 3) example_hw [].
#[local] Instance example_laws : ec_laws (ref_ports 3) (example_ec true) := ref_laws 3.

Lemma example_prompt : EcPrompt example_laws.
Proof. apply ref_prompt. lia. Qed.

Lemma example_rests : rests (example_ec true) (re_see example_hw) example_port.
Proof. apply passes_refl. Qed.

Definition example_field : uacpi_region_rw_data := mkRw 0x10 0xBEEF 2.

Theorem ec_field_roundtrip_witness :
  exists s1 s2,
    UacpiNtEcRegionHandler (example_ec true) (UACPI_REGION_OP_WRITE example_field) example_port =
      (UACPI_STATUS_OK, UACPI_REGION_OP_WRITE example_field, s1) /\
    UacpiNtEcRegionHandler (example_ec true) (UACPI_REGION_OP_READ (mkRw 0x10 0 2)) s1 =
      (UACPI_STATUS_OK, UACPI_REGION_OP_READ (mkRw 0x10 0xBEEF 2), s2).
Proof.
  destruct (ec_field_roundtrip (example_ec true) example_prompt example_field _ _ example_rests) as (s1 & s2 & H1 & H2 & _).
  - vm_compute. repeat split; discriminate.
  - vm_compute. discriminate.
  - done.
  - exists s1, s2. split; [exact H1|]. exact (H2 (mkRw 0x10 0 2) eq_refl eq_refl).
Defined.

Definition example_read : ec_irp := mkEcIrp false 3 0x40 0 true (Some [0; 0; 0; 9]) [].

Theorem ec_transfer_correct_witness :
  exists i' s', UacpiNtEcReadWrite (Some (example_ec true)) example_read example_port = Done (STATUS_SUCCESS, i', s') /\
    ei_Completed i' = [(STATUS_SUCCESS, 3)] /\ ei_Buffer i' = Some [0x40; 0x41; 0x42; 9].
Proof.
  destruct (ec_transfer_correct (example_ec true) example_read [0; 0; 0; 9] (re_see example_hw) example_port
    eq_refl eq_refl) as (st & k & i' & s' & H & Hc & _ & Hk & Hb & _ & HE).
  - repeat split; try done. simpl. byte_list.
  - done.
  - done.
  - by vm_compute.
  - done.
  - exact example_rests.
  - specialize (HE example_prompt). subst st. destruct Hk as [Hk _]. specialize (Hk eq_refl). rewrite Hk in Hc.
    change (ei_Length example_read) with (Z.of_nat 3) in Hk. apply Nat2Z.inj in Hk. subst k.
    exists i', s'. split; [exact H|]. split; [exact Hc|]. rewrite Hb. by vm_compute.
Defined.

Theorem ec_protocol_kept_witness :
  watched_trace true (example_ec true) (idle_monitor None) (ps_Trace (UacpiNtEcFetchQuery (P := ref_ports 3) (example_ec true) example_port).2) =
  Some (idle_monitor None).
Proof.
  destruct (ec_protocol_kept (P := ref_ports 3) (example_ec true) example_port (idle_monitor None)) as [_ H].
  exact (proj1 (H eq_refl)).
Defined.
