(* ===== verification/EcQuery.v ===== *)
(** The events of the embedded controller: drivers/ec.c, from the GPE to the method
    or the driver that handles the event.

    The SCI, the DPC, the workers and every other user of the ports run beside each
    other; the ports are taken under the EC's mutex, so that a transaction is one
    step. *)
From stdpp Require Import base list numbers option strings relations.
From Stdlib Require Import ZArith Lia Permutation Ascii.
From S2P Require Import Prelude AcpiEnv Bytes EcPort EcLaws.

(** ** Dispatch *)

Definition hex_digit (n : Z) : ascii :=
  ascii_of_nat (Z.to_nat (if n <? 10 then 48 + n else 55 + n)).

(** RtlStringCbPrintfA(Method, sizeof(Method), "_Q%02X", QueryCode). *)
Definition query_method (QueryCode : Z) : string :=
  String "_" (String "Q" (String (hex_digit (QueryCode / 16)) (String (hex_digit (QueryCode mod 16)) EmptyString))).

(** What an event leads to; the results of the method are not looked at. *)
Inductive query_call :=
| CallRoutine (Routine : PVOID) (QueryCode : Z) (Context : PVOID)
| CallMethod (Node : acpi_node) (Method : string)
| CallNothing.

Definition ec_routine (Ec : UACPINT_EC) (QueryCode : Z) : PVOID :=
  nth (Z.to_nat QueryCode) (ec_QueryRoutine Ec) NULL.
Definition ec_context (Ec : UACPINT_EC) (QueryCode : Z) : PVOID :=
  nth (Z.to_nat QueryCode) (ec_QueryContext Ec) NULL.

Definition UacpiNtEcDispatchQuery (Ec : UACPINT_EC) (QueryCode : Z) : query_call :=
  let Routine := ec_routine Ec QueryCode in
  let Context := ec_context Ec QueryCode in
  if negb (Routine =? NULL) then CallRoutine Routine QueryCode Context
  else
    let Method := query_method QueryCode in
    if negb (ec_Node Ec =? NULL) then CallMethod (ec_Node Ec) Method else CallNothing.

(** Events dispatched, newest first, each with its code. *)
Definition query_log := list (Z * query_call).

Fixpoint drain_rounds {P : EcPorts} (n : nat) (Ec : UACPINT_EC) (s : port_state) (l : query_log) : port_state * query_log :=
  match n with
  | O => (s, l)
  | S n =>
      let '(QueryCode, s) := UacpiNtEcFetchQuery Ec s in
      if QueryCode =? 0 then (s, l)
      else drain_rounds n Ec s ((QueryCode, UacpiNtEcDispatchQuery Ec QueryCode) :: l)
  end.

Definition UacpiNtEcDrainQueries {P : EcPorts} := drain_rounds UACPINT_EC_QUERY_CODES.

(** ** Registration *)

Record UACPINT_EC_QUERY_REGISTRATION := mkRegistration {
  rg_QueryCode : Z;
  rg_Handler : PVOID;
  rg_Context : PVOID;
  rg_Cookie : Z
}.
Definition sizeof_registration : Z := 32.

Definition ec_set_query (QueryCode : Z) (Routine Context : PVOID) (Ec : UACPINT_EC) : UACPINT_EC :=
  mkEc (ec_Node Ec) (ec_Pdo Ec) (ec_DataPort Ec) (ec_ControlPort Ec) (ec_GpeDevice Ec) (ec_GpeLine Ec)
    (ec_RegionInstalled Ec) (ec_FromEcdt Ec) (ec_GlobalLock Ec)
    (<[Z.to_nat QueryCode := Routine]> (ec_QueryRoutine Ec)) (<[Z.to_nat QueryCode := Context]> (ec_QueryContext Ec)).

Definition UacpiNtEcUpdateRegistration (Ec : UACPINT_EC) (Registration : UACPINT_EC_QUERY_REGISTRATION) (Register : bool)
  : NTSTATUS * UACPINT_EC * UACPINT_EC_QUERY_REGISTRATION :=
  let QueryCode := rg_QueryCode Registration in
  if Register then
    if negb (rg_Handler Registration =? NULL) && (ec_routine Ec QueryCode =? NULL) then
      (STATUS_SUCCESS, ec_set_query QueryCode (rg_Handler Registration) (rg_Context Registration) Ec,
       mkRegistration QueryCode (rg_Handler Registration) (rg_Context Registration) (QueryCode + 1))
    else (STATUS_UNSUCCESSFUL, Ec, Registration)
  else if negb (ec_routine Ec QueryCode =? NULL) then
    (STATUS_SUCCESS, ec_set_query QueryCode NULL NULL Ec, Registration)
  else (STATUS_UNSUCCESSFUL, Ec, Registration).

(** An IRP with the caller's own pointer, [None] for NULL. *)
Record query_irp := mkQueryIrp {
  qi_Code : Z;
  qi_InputLength : Z;
  qi_KernelMode : bool;
  qi_Registration : option UACPINT_EC_QUERY_REGISTRATION;
  qi_Completed : list (NTSTATUS * Z)
}.

Definition complete_query (Status : NTSTATUS) (r : option UACPINT_EC_QUERY_REGISTRATION) (i : query_irp) : query_irp :=
  mkQueryIrp (qi_Code i) (qi_InputLength i) (qi_KernelMode i) r ((Status, 0) :: qi_Completed i).

(** CTL_CODE(FILE_DEVICE_UNKNOWN, n, METHOD_NEITHER, FILE_ANY_ACCESS). *)
Definition IOCTL_UACPINT_EC_REGISTER_QUERY_HANDLER : Z := 0x220017.
Definition IOCTL_UACPINT_EC_UNREGISTER_QUERY_HANDLER : Z := 0x22001B.

(** The flag is [Handled]. *)
Definition UacpiNtEcDeviceControl (Ec : option UACPINT_EC) (i : query_irp)
  : NTSTATUS * bool * query_irp * option UACPINT_EC :=
  let finish st r Ec := (st, true, complete_query st r i, Ec) in
  let update (Register : bool) :=
    match Ec with
    | None => finish STATUS_DEVICE_NOT_READY (qi_Registration i) Ec
    | Some E =>
        if negb (qi_KernelMode i) then finish STATUS_INVALID_DEVICE_REQUEST (qi_Registration i) Ec
        else
          match qi_Registration i with
          | None => finish STATUS_BUFFER_TOO_SMALL None Ec
          | Some r =>
              if qi_InputLength i <? sizeof_registration then finish STATUS_BUFFER_TOO_SMALL (Some r) Ec
              else let '(st, E, r) := UacpiNtEcUpdateRegistration E r Register in finish st (Some r) (Some E)
          end
    end in
  if qi_Code i =? IOCTL_UACPINT_EC_REGISTER_QUERY_HANDLER then update true
  else if qi_Code i =? IOCTL_UACPINT_EC_UNREGISTER_QUERY_HANDLER then update false
  else (STATUS_NOT_SUPPORTED, false, i, Ec).

(** ** The threads *)

(** A worker is about to clear [WorkQueued], to fetch with so many rounds left, or
    to dispatch what it fetched. *)
Inductive ec_thread :=
| WorkerStarts
| Draining (rounds : nat)
| Dispatching (rounds : nat) (QueryCode : Z).

(** The handlers registered, the part of the block that changes. *)
Record query_tables := mkTables { qt_Routine : list PVOID; qt_Context : list PVOID }.

Definition ec_with_tables (Ec : UACPINT_EC) (t : query_tables) : UACPINT_EC :=
  mkEc (ec_Node Ec) (ec_Pdo Ec) (ec_DataPort Ec) (ec_ControlPort Ec) (ec_GpeDevice Ec) (ec_GpeLine Ec)
    (ec_RegionInstalled Ec) (ec_FromEcdt Ec) (ec_GlobalLock Ec) (qt_Routine t) (qt_Context t).
Definition ec_tables (Ec : UACPINT_EC) : query_tables := mkTables (ec_QueryRoutine Ec) (ec_QueryContext Ec).

(** How uACPI clears the event bit of an edge-triggered GPE before it calls the
    handler. *)
Class EcGpe (P : EcPorts) := { gpe_clear : ec_hw -> ec_hw }.

Definition ew_set_Edge (b : bool) (w : ec_view) : ec_view :=
  mkView (ew_Memory w) (ew_Phase w) (ew_Pending w) b (ew_Arrived w).

Class EcGpeLaws {P : EcPorts} {D C : Z} (G : EcGpe P) (L : EcLaws P D C) := {
  gpe_clear_law : forall h, passes ec_plain (ew_set_Edge false (ec_see h)) (ec_see (gpe_clear h))
}.

(** [sy_Queue] is how often the work item is in the delayed queue; [sy_Fetched],
    the codes fetched, oldest first, and [sy_Limit], whether a drain ran out of
    rounds, are not in the code. *)
Record ec_system {P : EcPorts} := mkSystem {
  sy_Tables : query_tables;
  sy_Port : port_state;
  sy_WorkQueued : bool;
  sy_Dpc : bool;
  sy_Queue : nat;
  sy_Threads : list ec_thread;
  sy_Log : query_log;
  sy_Fetched : list Z;
  sy_Limit : bool
}.
Arguments mkSystem {P}.

Section System.
Context {P : EcPorts} {G : EcGpe P} (Ec : UACPINT_EC) {L : ec_laws P Ec}.

Definition sy_set_Tables (t : query_tables) (y : ec_system) : ec_system :=
  mkSystem t (sy_Port y) (sy_WorkQueued y) (sy_Dpc y) (sy_Queue y) (sy_Threads y) (sy_Log y) (sy_Fetched y) (sy_Limit y).
Definition sy_set_Port (s : port_state) (y : ec_system) : ec_system :=
  mkSystem (sy_Tables y) s (sy_WorkQueued y) (sy_Dpc y) (sy_Queue y) (sy_Threads y) (sy_Log y) (sy_Fetched y) (sy_Limit y).
Definition sy_set_Work (q d : bool) (n : nat) (y : ec_system) : ec_system :=
  mkSystem (sy_Tables y) (sy_Port y) q d n (sy_Threads y) (sy_Log y) (sy_Fetched y) (sy_Limit y).
Definition sy_set_Threads (l : list ec_thread) (y : ec_system) : ec_system :=
  mkSystem (sy_Tables y) (sy_Port y) (sy_WorkQueued y) (sy_Dpc y) (sy_Queue y) l (sy_Log y) (sy_Fetched y) (sy_Limit y).
Definition sy_spawn (t : ec_thread) (y : ec_system) : ec_system := sy_set_Threads (t :: sy_Threads y) y.
Definition sy_set_Limit (y : ec_system) : ec_system :=
  mkSystem (sy_Tables y) (sy_Port y) (sy_WorkQueued y) (sy_Dpc y) (sy_Queue y) (sy_Threads y) (sy_Log y) (sy_Fetched y) true.
Definition sy_take (QueryCode : Z) (y : ec_system) : ec_system :=
  mkSystem (sy_Tables y) (sy_Port y) (sy_WorkQueued y) (sy_Dpc y) (sy_Queue y) (sy_Threads y) (sy_Log y)
    (sy_Fetched y ++ [QueryCode]) (sy_Limit y).
Definition sy_Ec (y : ec_system) : UACPINT_EC := ec_with_tables Ec (sy_Tables y).
Definition sy_dispatch (QueryCode : Z) (y : ec_system) : ec_system :=
  mkSystem (sy_Tables y) (sy_Port y) (sy_WorkQueued y) (sy_Dpc y) (sy_Queue y) (sy_Threads y)
    ((QueryCode, UacpiNtEcDispatchQuery (sy_Ec y) QueryCode) :: sy_Log y) (sy_Fetched y) (sy_Limit y).

(** KeInsertQueueDpc does nothing for a DPC that is queued. *)
Definition UacpiNtEcGpeHandler (y : ec_system) : ec_system :=
  sy_set_Work true (if sy_WorkQueued y then sy_Dpc y else true) (sy_Queue y) y.

(** uACPI clears the event and calls the handler. *)
Definition gpe_fires (y : ec_system) : ec_system :=
  UacpiNtEcGpeHandler (sy_set_Port (mkPort (gpe_clear (ps_Hw (sy_Port y))) (ps_Trace (sy_Port y))) y).

(** The DPC has left its queue. *)
Definition UacpiNtEcQueryDpc (y : ec_system) : ec_system := sy_set_Work (sy_WorkQueued y) false (S (sy_Queue y)) y.

(** One turn of a thread that has left the list: UacpiNtEcQueryWorker up to the
    drain, and a round of the drain in two turns. *)
Definition worker_turn (t : ec_thread) (y : ec_system) : ec_system :=
  match t with
  | WorkerStarts => sy_spawn (Draining UACPINT_EC_QUERY_CODES) (sy_set_Work false (sy_Dpc y) (sy_Queue y) y)
  | Draining O => sy_set_Limit y
  | Draining (S rounds) =>
      let '(QueryCode, s) := UacpiNtEcFetchQuery (sy_Ec y) (sy_Port y) in
      let y := sy_set_Port s y in
      if QueryCode =? 0 then y else sy_spawn (Dispatching rounds QueryCode) (sy_take QueryCode y)
  | Dispatching rounds QueryCode => sy_spawn (Draining rounds) (sy_dispatch QueryCode y)
  end.

Definition sy_view (y : ec_system) : ec_view := seen Ec (sy_Port y).

(** A turn of the driver's event path. *)
Inductive event_turn : ec_system -> ec_system -> Prop :=
| turn_sci y : ew_Edge (sy_view y) = true -> event_turn y (gpe_fires y)
| turn_dpc y : sy_Dpc y = true -> event_turn y (UacpiNtEcQueryDpc y)
| turn_dequeue n y : sy_Queue y = S n ->
    event_turn y (sy_spawn WorkerStarts (sy_set_Work (sy_WorkQueued y) (sy_Dpc y) n y))
| turn_worker t rest y : sy_Threads y ≡ₚ t :: rest -> event_turn y (worker_turn t (sy_set_Threads rest y)).

(** What others do: time passes, a byte is read or written for a field or a
    transfer, a driver registers or leaves, the bring-up drains once more. *)
Inductive other_turn : ec_system -> ec_system -> Prop :=
| turn_time h l y : passes ec_plain (sy_view y) (ec_see h) -> other_turn y (sy_set_Port (mkPort h l) y)
| turn_read a o s y : is_byte a -> UacpiNtEcReadByte Ec a (sy_Port y) = (o, s) -> other_turn y (sy_set_Port s y)
| turn_write a v ok s y : is_byte a -> is_byte v -> UacpiNtEcWriteByte Ec a v (sy_Port y) = (ok, s) ->
    other_turn y (sy_set_Port s y)
| turn_register r Register st E r' y : UacpiNtEcUpdateRegistration (sy_Ec y) r Register = (st, E, r') ->
    other_turn y (sy_set_Tables (ec_tables E) y)
| turn_drain y : other_turn y (sy_spawn (Draining UACPINT_EC_QUERY_CODES) y).

Inductive ec_run : ec_system -> ec_system -> Prop :=
| run_start y : ec_run y y
| run_event y y1 y2 : ec_run y y1 -> event_turn y1 y2 -> ec_run y y2
| run_other y y1 y2 : ec_run y y1 -> other_turn y1 y2 -> ec_run y y2.

(** UacpiNtEcConnectGpe is about to drain; events may be pending since boot. *)
Definition ec_connected (t : query_tables) (s : port_state) : ec_system :=
  mkSystem t s false false 0 [Draining UACPINT_EC_QUERY_CODES] [] [] false.
Definition fresh_port (s : port_state) : Prop :=
  resting Ec s /\ ew_Arrived (seen Ec s) = ew_Pending (seen Ec s).
End System.

(** ** No event is lost *)
Section Sound.
Context {P : EcPorts} {G : EcGpe P} (Ec : UACPINT_EC) {L : ec_laws P Ec} {GL : EcGpeLaws G L} {Pr : EcPrompt L}.

(** Events come in, as in [passes]; the rest of the view is not looked at. *)
Definition events_come (w w' : ec_view) : Prop :=
  exists l, ew_Pending w' = ew_Pending w ++ l /\ ew_Arrived w' = ew_Arrived w ++ l /\
    ew_Edge w' = ew_Edge w || bool_decide (ew_Pending w = [] /\ l <> []).

Lemma come_order w w' F : events_come w w' -> ew_Arrived w = F ++ ew_Pending w -> ew_Arrived w' = F ++ ew_Pending w'.
Proof. intros (l & -> & -> & _) ->. by rewrite app_assoc. Qed.

Lemma come_noticed w w' (R : Prop) : events_come w w' ->
  (ew_Pending w <> [] -> ew_Edge w = true \/ R) -> ew_Pending w' <> [] -> ew_Edge w' = true \/ R.
Proof.
  intros (l & E1 & _ & ->) H Hn. destruct (decide (ew_Pending w = [])) as [H0|H0].
  - left. rewrite H0 in E1. simpl in E1. rewrite bool_decide_eq_true_2; [by rewrite orb_true_r|]. split; [done|congruence].
  - destruct (H H0) as [->|HR]; [by left|by right].
Qed.

Definition as_nat (b : bool) : nat := if b then 1 else 0.
Definition starting (t : ec_thread) : nat := match t with WorkerStarts => 1 | _ => 0 end.
Definition held (t : ec_thread) : list Z := match t with Dispatching _ q => [q] | _ => [] end.
Definition draining (t : ec_thread) : Prop := match t with WorkerStarts => False | _ => True end.

(** Somebody will look at the events again, or gave up at the limit. *)
Definition watched_over (q : bool) (ts : list ec_thread) (limit : bool) : Prop :=
  q = true \/ Exists draining ts \/ limit = true.

Record ec_sound (y : ec_system) : Prop := {
  es_resting : resting Ec (sy_Port y);
  es_queued : (as_nat (sy_Dpc y) + sy_Queue y + list_weight starting (sy_Threads y))%nat = as_nat (sy_WorkQueued y);
  es_order : ew_Arrived (sy_view Ec y) = sy_Fetched y ++ ew_Pending (sy_view Ec y);
  es_account : sy_Fetched y ≡ₚ map fst (sy_Log y) ++ flat_map held (sy_Threads y);
  es_noticed : ew_Pending (sy_view Ec y) <> [] ->
    ew_Edge (sy_view Ec y) = true \/ watched_over (sy_WorkQueued y) (sy_Threads y) (sy_Limit y)
}.

Lemma threads_perm t rest ts : ts ≡ₚ t :: rest ->
  list_weight starting ts = (starting t + list_weight starting rest)%nat /\
  flat_map held ts ≡ₚ held t ++ flat_map held rest /\
  (Exists draining ts -> draining t \/ Exists draining rest).
Proof.
  intros Hp. split; [|split].
  - unfold list_weight. rewrite Hp. done.
  - by rewrite Hp.
  - rewrite Hp. rewrite Exists_cons. tauto.
Qed.

(** A turn that only lets events come. *)
Lemma sound_come s y : ec_sound y -> resting Ec s -> events_come (sy_view Ec y) (seen Ec s) -> ec_sound (sy_set_Port s y).
Proof.
  intros [Hr Hq Ho Ha Hn] Hs Hc. split; simpl; [done|done|by eapply come_order|done|].
  by eapply come_noticed.
Qed.

Lemma sound_fetch n rest y : ec_sound y -> sy_Threads y ≡ₚ Draining (S n) :: rest ->
  ec_sound (worker_turn Ec (Draining (S n)) (sy_set_Threads rest y)).
Proof.
  intros [Hr Hq Ho Ha Hn] Hp. destruct (threads_perm _ _ _ Hp) as (Hw & Hh & Hx). simpl in Hw, Hh, Hx.
  cbn [worker_turn]. change (sy_Ec Ec (sy_set_Threads rest y)) with (sy_Ec Ec y).
  change (sy_Port (sy_set_Threads rest y)) with (sy_Port y).
  destruct (UacpiNtEcFetchQuery (sy_Ec Ec y) (sy_Port y)) as [q s] eqn:E.
  destruct (fetch_query_spec (sy_Ec Ec y) (L := L) _ _ _ Hr Pr E) as [Hs Hf].
  change (seen (sy_Ec Ec y) (L := L)) with (seen Ec) in Hf. change (resting Ec s) in Hs.
  unfold fetched in Hf. destruct (q =? 0) eqn:Eq; bool_prop.
  - destruct Hf as [Hc He]. apply passes_events in Hc. split; simpl.
    + done.
    + lia.
    + eapply come_order; [exact Hc|exact Ho].
    + by rewrite Ha, Hh.
    + intros Hpd. left. by apply He.
  - destruct Hf as (w1 & r & Hc1 & Ew & Hc2). apply passes_events in Hc1, Hc2. split; simpl.
    + done.
    + rewrite weight_cons. simpl. lia.
    + pose proof (come_order _ _ _ Hc1 Ho) as H1. rewrite Ew in H1.
      eapply come_order; [exact Hc2|]. simpl. by rewrite H1, <- app_assoc.
    + rewrite Ha, Hh, <- app_assoc. f_equiv. by rewrite Permutation_app_comm.
    + intros _. right. right. left. by constructor.
Qed.

Lemma sound_worker t rest y : ec_sound y -> sy_Threads y ≡ₚ t :: rest ->
  ec_sound (worker_turn Ec t (sy_set_Threads rest y)).
Proof.
  intros Hs Hp. destruct t as [|[|n]|n q]; [| |by apply sound_fetch|];
    destruct Hs as [Hr Hq Ho Ha Hn]; destruct (threads_perm _ _ _ Hp) as (Hw & Hh & Hx); simpl in Hw, Hh, Hx.
  - split; simpl; try done.
    + rewrite weight_cons. simpl. destruct (sy_WorkQueued y); simpl in Hq; lia.
    + by rewrite Ha, Hh.
    + intros _. right. right. left. by constructor.
  - split; simpl; try done; [lia|by rewrite Ha, Hh|]. intros _. right. by right; right.
  - split; simpl; try done.
    + rewrite weight_cons. simpl. lia.
    + rewrite Ha, Hh. simpl. by rewrite Permutation_middle.
    + intros _. right. right. left. by constructor.
Qed.

Lemma sound_event y y' : ec_sound y -> event_turn Ec y y' -> ec_sound y'.
Proof.
  intros Hs Ht. destruct Ht as [y He|y Hd|n y Hn0|t rest y Hp]; [| | |by apply sound_worker];
    destruct Hs as [Hr Hq Ho Ha Hn].
  - pose proof (gpe_clear_law (ps_Hw (sy_Port y))) as Hg.
    pose proof (passes_phase _ _ _ Hg) as Hph. apply passes_events in Hg. split; simpl.
    + unfold resting, seen. simpl. rewrite Hph. exact Hr.
    + destruct (sy_WorkQueued y), (sy_Dpc y); simpl in *; lia.
    + eapply come_order; [exact Hg|exact Ho].
    + done.
    + intros _. right. by left.
  - rewrite Hd in Hq. split; simpl; try done.
  - split; simpl; try done.
    + rewrite weight_cons. simpl. lia.
    + intros Hpd. destruct (Hn Hpd) as [?|[?|[?|?] ] ]; [by left|right; by left| |right; by right; right].
      right. right. left. by constructor.
Qed.

Lemma rests_come w s : ew_Phase w = Idle -> rests Ec w s -> resting Ec s /\ events_come w (seen Ec s).
Proof.
  intros Hi H. split; [by eapply rests_resting|]. apply passes_events in H. exact H.
Qed.

Lemma sound_other y y' : ec_sound y -> other_turn Ec y y' -> ec_sound y'.
Proof.
  intros Hs Ht. pose proof (es_resting _ Hs) as Hr. pose proof (resting_rests _ _ Hr) as Hrs.
  destruct Ht as [h l y Hp|a o s y Hb E|a v ok s y Hb Hv E|r Register st E r' y Eu|y].
  - apply sound_come; [done| |exact (passes_events _ _ _ Hp)]. unfold resting, seen. simpl.
    rewrite (passes_phase _ _ _ Hp). exact Hr.
  - destruct (read_byte_spec _ _ _ _ _ _ Hrs Hb E) as [Hk Hso]. destruct (Hso Pr) as [v ->].
    destruct (Hk v eq_refl) as (H1 & _). apply rests_come in H1 as [? ?]; [|done]. by apply sound_come.
  - destruct (write_byte_spec _ _ _ _ _ _ _ Hrs Hb Hv E) as [Hk Hso]. specialize (Hk (Hso Pr)).
    apply rests_come in Hk as [? Hc]; [|exact Hr]. by apply sound_come.
  - destruct Hs. by split.
  - destruct Hs as [_ Hq Ho Ha Hn]. split; simpl; try done. intros _. right. right. left. by constructor.
Qed.

Lemma sound_connected t s : fresh_port Ec s -> ec_sound (ec_connected t s).
Proof.
  intros [Hr He]. split; simpl; try done. intros _. right. right. left. by constructor.
Qed.

Lemma sound_run t s y : fresh_port Ec s -> ec_run Ec (ec_connected t s) y -> ec_sound y.
Proof.
  intros Hf Hrun. remember (ec_connected t s) as y0 eqn:E0. induction Hrun as [y|y y1 y2 Hr IH Ht|y y1 y2 Hr IH Ht].
  - subst. by apply sound_connected.
  - eapply sound_event; [by apply IH|done].
  - eapply sound_other; [by apply IH|done].
Qed.
End Sound.

(** ** The events are served *)
Section Served.
Context {P : EcPorts} {G : EcGpe P} (Ec : UACPINT_EC) {L : ec_laws P Ec} {GL : EcGpeLaws G L} {Pr : EcPrompt L}.

(** The event path has come to rest. *)
Definition quiet (y : ec_system) : Prop :=
  ew_Edge (sy_view Ec y) = false /\ sy_Dpc y = false /\ sy_Queue y = 0%nat /\ sy_Threads y = [].

Definition thread_work (t : ec_thread) : nat :=
  match t with
  | WorkerStarts => 2 * UACPINT_EC_QUERY_CODES + 2
  | Draining n => 2 * n + 1
  | Dispatching n _ => 2 * n + 2
  end.

(** The turns that are left when no more events come. *)
Definition work_left (y : ec_system) : nat :=
  list_weight thread_work (sy_Threads y) + sy_Queue y * (2 * UACPINT_EC_QUERY_CODES + 3) +
  as_nat (sy_Dpc y) * (2 * UACPINT_EC_QUERY_CODES + 4) + as_nat (ew_Edge (sy_view Ec y)) * (2 * UACPINT_EC_QUERY_CODES + 5).

Lemma come_edge w w' : events_come w w' ->
  ew_Edge w' = ew_Edge w \/ (length (ew_Arrived w) < length (ew_Arrived w'))%nat.
Proof.
  intros (l & _ & -> & ->). destruct l as [|x l]; [|right; rewrite length_app; simpl; lia].
  left. rewrite bool_decide_eq_false_2, orb_false_r; [done|]. by intros [_ ?].
Qed.

Lemma come_grows w w' : events_come w w' -> (length (ew_Arrived w) <= length (ew_Arrived w'))%nat.
Proof. intros (l & _ & -> & _). rewrite length_app. lia. Qed.

Lemma event_progress y : quiet y \/ exists y', event_turn Ec y y'.
Proof.
  destruct (ew_Edge (sy_view Ec y)) eqn:He; [right; eexists; by apply turn_sci|].
  destruct (sy_Dpc y) eqn:Hd; [right; eexists; by apply turn_dpc|].
  destruct (sy_Queue y) as [|n] eqn:Hq; [|right; eexists; by eapply turn_dequeue].
  destruct (sy_Threads y) as [|t ts] eqn:Ht; [by left|right; eexists; by apply (turn_worker _ t ts); rewrite Ht].
Qed.

Definition grew (y y' : ec_system) : Prop :=
  (length (ew_Arrived (sy_view Ec y)) < length (ew_Arrived (sy_view Ec y')))%nat.

Lemma fetch_work n rest y : ec_sound Ec y -> sy_Threads y ≡ₚ Draining (S n) :: rest ->
  let y' := worker_turn Ec (Draining (S n)) (sy_set_Threads rest y) in
  (work_left y' < work_left y)%nat \/ grew y y'.
Proof.
  intros Hs Hp. pose proof (es_resting _ _ Hs) as Hr. cbn [worker_turn].
  change (sy_Ec Ec (sy_set_Threads rest y)) with (sy_Ec Ec y).
  change (sy_Port (sy_set_Threads rest y)) with (sy_Port y).
  destruct (UacpiNtEcFetchQuery (sy_Ec Ec y) (sy_Port y)) as [q s] eqn:E.
  destruct (fetch_query_spec (sy_Ec Ec y) (L := L) _ _ _ Hr Pr E) as [_ Hf].
  change (seen (sy_Ec Ec y) (L := L)) with (seen Ec) in Hf. fold (sy_view Ec y) in Hf.
  assert (list_weight thread_work (sy_Threads y) = (thread_work (Draining (S n)) + list_weight thread_work rest)%nat) as Hw.
  { unfold list_weight. by rewrite Hp. }
  unfold fetched in Hf. unfold grew, work_left. rewrite Hw. destruct (q =? 0) eqn:Eq; bool_prop.
  - destruct Hf as [Hc _]. apply passes_events in Hc. destruct (come_edge _ _ Hc) as [He|Hg]; [left|by right].
    unfold sy_view in *. simpl in *. rewrite He. lia.
  - destruct Hf as (w1 & r & Hc1 & _ & Hc2). apply passes_events in Hc1, Hc2.
    pose proof (come_grows _ _ Hc1) as Hg1. pose proof (come_grows _ _ Hc2) as Hg2. simpl in Hg2.
    destruct (come_edge _ _ Hc1) as [He1|Hg]; [|right; unfold sy_view in *; simpl; lia].
    destruct (come_edge _ _ Hc2) as [He2|Hg]; [left|right; simpl in Hg; unfold sy_view in *; simpl; lia].
    unfold sy_view in *. simpl in *. rewrite weight_cons, He2, He1. simpl. lia.
Qed.

Lemma event_work y y' : ec_sound Ec y -> event_turn Ec y y' -> (work_left y' < work_left y)%nat \/ grew y y'.
Proof.
  intros Hs Ht. destruct Ht as [y He|y Hd|n y Hn|t rest y Hp].
  - pose proof (gpe_clear_law (ps_Hw (sy_Port y))) as Hg. apply passes_events in Hg.
    pose proof (es_queued _ _ Hs) as Hq.
    destruct (come_edge _ _ Hg) as [He'|Hg']; [left|by right]. simpl in He'. unfold work_left. rewrite He.
    unfold sy_view, seen in *. simpl. rewrite He'. destruct (sy_WorkQueued y), (sy_Dpc y); simpl in *; lia.
  - left. unfold work_left. rewrite Hd. unfold sy_view. simpl. lia.
  - left. unfold work_left, sy_view, sy_spawn, sy_set_Threads, sy_set_Work. cbn [sy_Threads sy_Queue sy_Dpc sy_Port].
    rewrite Hn, weight_cons. unfold thread_work at 1. lia.
  - assert (list_weight thread_work (sy_Threads y) = (thread_work t + list_weight thread_work rest)%nat) as Hw.
    { unfold list_weight. by rewrite Hp. }
    destruct t as [|[|n]|n q]; [| |by apply fetch_work|]; left; unfold work_left; rewrite Hw; cbn [worker_turn];
      unfold sy_view, sy_spawn, sy_set_Threads, sy_set_Work, sy_set_Limit, sy_dispatch;
      cbn [sy_Threads sy_Queue sy_Dpc sy_Port]; rewrite ?weight_cons; cbn [thread_work]; lia.
Qed.

Lemma quiet_served y : ec_sound Ec y -> quiet y -> sy_Limit y = false ->
  ew_Pending (sy_view Ec y) = [] /\ map fst (sy_Log y) ≡ₚ ew_Arrived (sy_view Ec y).
Proof.
  intros [Hr Hq Ho Ha Hn] (He & Hd & HQ & Ht) Hl. unfold watched_over in Hn. rewrite Ht, Hd, HQ, He, Hl in *. simpl in *.
  destruct (ew_Pending (sy_view Ec y)) as [|q r] eqn:Ep.
  - split; [done|]. rewrite Ho, Ha, !app_nil_r. done.
  - destruct Hn as [?|[Hq'|[Hx|?] ] ]; try done; [by rewrite Hq' in Hq|by inversion Hx].
Qed.
End Served.

(** A drain that nobody interrupts is UacpiNtEcDrainQueries. *)
Lemma drain_alone {P : EcPorts} {G : EcGpe P} Ec {L : ec_laws P Ec} n rest y : sy_Threads y = Draining n :: rest ->
  exists y', rtc (event_turn Ec) y y' /\ sy_Threads y' = rest /\
    (sy_Port y', sy_Log y') = drain_rounds n (sy_Ec Ec y) (sy_Port y) (sy_Log y).
Proof.
  revert y. induction n as [|n IH]; intros y Ht; cbn [drain_rounds].
  { eexists. split; [apply rtc_once; by apply (turn_worker _ (Draining 0) rest); rewrite Ht|]. done. }
  assert (event_turn Ec y (worker_turn Ec (Draining (S n)) (sy_set_Threads rest y))) as H1.
  { apply turn_worker. by rewrite Ht. }
  cbn [worker_turn] in H1. change (sy_Ec Ec (sy_set_Threads rest y)) with (sy_Ec Ec y) in H1.
  change (sy_Port (sy_set_Threads rest y)) with (sy_Port y) in H1.
  destruct (UacpiNtEcFetchQuery (sy_Ec Ec y) (sy_Port y)) as [q s].
  destruct (q =? 0); [eexists; split; [by apply rtc_once|done] |].
  match type of H1 with event_turn _ _ ?x => set (y1 := x) in * end.
  assert (event_turn Ec y1 (worker_turn Ec (Dispatching n q) (sy_set_Threads rest y1))) as H2 by (by apply turn_worker).
  destruct (IH (worker_turn Ec (Dispatching n q) (sy_set_Threads rest y1))) as (y' & Hr & Hts & Hd); [done|].
  exists y'. split; [|split; [done|exact Hd] ]. eapply rtc_l; [exact H1|]. by eapply rtc_l.
Qed.

(** ** The handlers *)

Definition has_tables (Ec : UACPINT_EC) : Prop :=
  length (ec_QueryRoutine Ec) = UACPINT_EC_QUERY_CODES /\ length (ec_QueryContext Ec) = UACPINT_EC_QUERY_CODES.

Lemma nth_insert {A} (l : list A) i j (x d : A) : (i < length l)%nat ->
  nth j (<[i := x]> l) d = if decide (j = i) then x else nth j l d.
Proof.
  intros Hi. rewrite !nth_lookup. destruct (decide (j = i)) as [->|].
  - by rewrite list_lookup_insert_eq.
  - by rewrite list_lookup_insert_ne.
Qed.

Lemma set_query_lookup Ec q q' Routine Context : has_tables Ec -> is_byte q -> is_byte q' ->
  ec_routine (ec_set_query q Routine Context Ec) q' = (if decide (q' = q) then Routine else ec_routine Ec q') /\
  ec_context (ec_set_query q Routine Context Ec) q' = (if decide (q' = q) then Context else ec_context Ec q').
Proof.
  intros [H1 H2] Hq Hq'. unfold ec_routine, ec_context, ec_set_query, is_byte, UACPINT_EC_QUERY_CODES in *. cbn [ec_QueryRoutine ec_QueryContext].
  rewrite !nth_insert by lia. destruct (decide (q' = q)) as [->|]; repeat case_decide; try done; lia.
Qed.

Lemma set_query_tables Ec q Routine Context : has_tables Ec -> has_tables (ec_set_query q Routine Context Ec).
Proof. intros [H1 H2]. split; simpl; by rewrite length_insert. Qed.

(** What AML gets when no driver has the code. *)
Definition aml_call (Ec : UACPINT_EC) (q : Z) : query_call :=
  if ec_Node Ec =? NULL then CallNothing else CallMethod (ec_Node Ec) (query_method q).

Lemma dispatch_routine Ec q : UacpiNtEcDispatchQuery Ec q =
  if ec_routine Ec q =? NULL then aml_call Ec q else CallRoutine (ec_routine Ec q) q (ec_context Ec q).
Proof. unfold UacpiNtEcDispatchQuery, aml_call. destruct (_ =? NULL); simpl; [by destruct (ec_Node Ec =? NULL)|done]. Qed.

Lemma set_query_dispatch Ec q q' Routine Context : has_tables Ec -> is_byte q -> is_byte q' ->
  UacpiNtEcDispatchQuery (ec_set_query q Routine Context Ec) q' =
    if decide (q' = q) then (if Routine =? NULL then aml_call Ec q else CallRoutine Routine q Context)
    else UacpiNtEcDispatchQuery Ec q'.
Proof.
  intros Ht Hq Hq'. rewrite !dispatch_routine. destruct (set_query_lookup Ec q q' Routine Context Ht Hq Hq') as [-> ->].
  destruct (decide (q' = q)) as [->|]; done.
Qed.

Lemma hex_digit_inj a b : 0 <= a < 16 -> 0 <= b < 16 -> hex_digit a = hex_digit b -> a = b.
Proof.
  intros Ha Hb H. unfold hex_digit in H. apply (f_equal nat_of_ascii) in H.
  rewrite (nat_ascii_embedding (Z.to_nat (if a <? 10 then _ else _))) in H by (destruct (a <? 10); lia).
  rewrite nat_ascii_embedding in H by (destruct (b <? 10); lia).
  destruct (a <? 10) eqn:E1, (b <? 10) eqn:E2; bool_prop; lia.
Qed.

Lemma query_method_inj a b : is_byte a -> is_byte b -> query_method a = query_method b -> a = b.
Proof.
  intros Ha Hb H. unfold is_byte in *. injection H as H1 H2.
  assert (a / 16 = b / 16) by (apply hex_digit_inj; [| |done]; split; try apply Z.div_pos; try apply Z.div_lt_upper_bound; lia).
  assert (a mod 16 = b mod 16) by (apply hex_digit_inj; [| |done]; apply Z.mod_pos_bound; lia).
  rewrite (Z.div_mod a 16), (Z.div_mod b 16) by lia. congruence.
Qed.

(** ** Theorems *)

(** C23.  With a controller that keeps the protocol and is prompt - every answer comes
    within the 10 ms that the code waits, and the global lock is granted whenever it
    is asked for - however the interrupt, the DPC, the workers and the other users of
    the controller interleave: the events the controller reported are, in order,
    those that were fetched and those still pending; each one fetched has been
    dispatched once or is with one thread that is about to; and the work item is
    never queued while it is in the queue.  An answer that comes later is taken off
    the pending events and lost ([late_answer_strands_events]). *)
Theorem ec_events_accounted {P : EcPorts} {G : EcGpe P} Ec {L : ec_laws P Ec} (GL : EcGpeLaws G L) (Pr : EcPrompt L) t s y :
  fresh_port Ec s -> ec_run Ec (ec_connected t s) y ->
  ew_Arrived (sy_view Ec y) = sy_Fetched y ++ ew_Pending (sy_view Ec y) /\
  sy_Fetched y ≡ₚ map fst (sy_Log y) ++ flat_map held (sy_Threads y) /\
  (sy_Queue y <= 1)%nat /\ (sy_Dpc y = true -> sy_Queue y = 0%nat).
Proof.
  intros Hf Hr. destruct (sound_run _ _ _ _ Hf Hr) as [_ Hq Ho Ha _]. split; [done|]. split; [done|].
  destruct (sy_Dpc y), (sy_WorkQueued y); simpl in Hq; split; intros; lia.
Qed.

(** C22.  With a controller that keeps the protocol and is prompt - every answer comes
    within the 10 ms that the code waits, and the global lock is granted whenever it
    is asked for - the event path does not stop while there is something to do: as
    long as it is not quiet one of its threads can take a turn, every turn uses up
    work or brings in new events, and when it is quiet no event is pending and all
    that were reported have been dispatched, unless a drain ran out of its 256
    rounds.  A late answer or a refused lock ends a drain too, and can leave events
    pending on a quiet path ([late_answer_strands_events]). *)
Theorem ec_events_served {P : EcPorts} {G : EcGpe P} Ec {L : ec_laws P Ec} (GL : EcGpeLaws G L) (Pr : EcPrompt L) t s y :
  fresh_port Ec s -> ec_run Ec (ec_connected t s) y ->
  (quiet Ec y \/ exists y', event_turn Ec y y') /\
  (forall y', event_turn Ec y y' -> (work_left Ec y' < work_left Ec y)%nat \/ grew Ec y y') /\
  (quiet Ec y -> sy_Limit y = false ->
     ew_Pending (sy_view Ec y) = [] /\ map fst (sy_Log y) ≡ₚ ew_Arrived (sy_view Ec y)).
Proof.
  intros Hf Hr. pose proof (sound_run _ _ _ _ Hf Hr) as Hs. split; [apply event_progress|]. split.
  - intros y' Ht. by apply event_work.
  - by apply quiet_served.
Qed.

(** One driver at most has a code: a registration succeeds exactly when it
    names a handler and nobody has the code, an unregistration exactly when
    somebody has, and a failure changes nothing.  Afterwards the events with the
    code go to the handler with its context, or to the method _Qxx of the node,
    which is another one for every code; the other codes go where they went. *)
Theorem ec_registration_exact Ec r Register st E r' :
  has_tables Ec -> is_byte (rg_QueryCode r) -> UacpiNtEcUpdateRegistration Ec r Register = (st, E, r') ->
  let q := rg_QueryCode r in
  (st = STATUS_SUCCESS <->
     if Register then rg_Handler r <> NULL /\ ec_routine Ec q = NULL else ec_routine Ec q <> NULL) /\
  (st <> STATUS_SUCCESS -> E = Ec /\ r' = r) /\
  has_tables E /\
  (st = STATUS_SUCCESS -> UacpiNtEcDispatchQuery E q =
     if Register then CallRoutine (rg_Handler r) q (rg_Context r)
     else if ec_Node Ec =? NULL then CallNothing else CallMethod (ec_Node Ec) (query_method q)) /\
  (forall q', is_byte q' -> q' <> q ->
     UacpiNtEcDispatchQuery E q' = UacpiNtEcDispatchQuery Ec q' /\ query_method q' <> query_method q).
Proof.
  intros Ht Hq H q. assert (forall q', is_byte q' -> q' <> q -> query_method q' <> query_method q) as Hm.
  { intros q' Hq' Hn Hi. by apply Hn, query_method_inj. }
  unfold UacpiNtEcUpdateRegistration in H. fold q in H.
  destruct (ec_routine Ec q =? NULL) eqn:E1, Register, (rg_Handler r =? NULL) eqn:E2; simpl in H; simplify_eq; bool_prop;
    (split; [naive_solver|split; [done|split; [by try apply set_query_tables|split] ] ]); try done;
    try (intros _; rewrite set_query_dispatch, decide_True by done; unfold aml_call; repeat case_match; bool_prop; done);
    intros q' Hq' Hn; (split; [|by apply Hm]); try done; by rewrite set_query_dispatch, decide_False by done.
Qed.

(** ** Examples *)

#[export] Instance ref_gpe delay : EcGpe (ref_ports delay) := {|
  gpe_clear (h : @ec_hw (ref_ports delay)) :=
    (mkRefEc (ew_set_Edge false (re_View h)) (re_Busy h) (re_Input h) (re_Coming h) : @ec_hw (ref_ports delay))
|}.

#[export] Instance ref_gpe_laws delay : EcGpeLaws (ref_gpe delay) (ref_laws delay).
Proof. split. intros h. apply passes_refl. Qed.

(** A schedule: which part of the event path goes next, or a byte read by others. *)
Inductive choice := ChooseSci | ChooseDpc | ChooseDequeue | ChooseWorker | ChooseRead (Address : Z).

Section Play.
Context {P : EcPorts} {G : EcGpe P} (Ec : UACPINT_EC) {L : ec_laws P Ec}.

Definition play_one (c : choice) (y : ec_system) : option ec_system :=
  match c with
  | ChooseSci => if ew_Edge (sy_view Ec y) then Some (gpe_fires y) else None
  | ChooseDpc => if sy_Dpc y then Some (UacpiNtEcQueryDpc y) else None
  | ChooseDequeue =>
      match sy_Queue y with
      | O => None
      | S n => Some (sy_spawn WorkerStarts (sy_set_Work (sy_WorkQueued y) (sy_Dpc y) n y))
      end
  | ChooseWorker =>
      match sy_Threads y with
      | [] => None
      | t :: rest => Some (worker_turn Ec t (sy_set_Threads rest y))
      end
  | ChooseRead a => Some (sy_set_Port (UacpiNtEcReadByte Ec (u8 a) (sy_Port y)).2 y)
  end.

Fixpoint play (l : list choice) (y : ec_system) : option ec_system :=
  match l with [] => Some y | c :: l => play_one c y ≫= play l end.

Lemma play_run l y0 y y' : ec_run Ec y0 y -> play l y = Some y' -> ec_run Ec y0 y'.
Proof.
  revert y. induction l as [|c l IH]; intros y Hr H; simpl in H; [by simplify_eq|].
  destruct (play_one c y) as [y1|] eqn:E; [|done]. simpl in H. apply (IH y1); [|done].
  destruct c as [| | | |a]; simpl in E.
  - destruct (ew_Edge _) eqn:E1; simplify_eq. by eapply run_event, turn_sci.
  - destruct (sy_Dpc y) eqn:E1; simplify_eq. by eapply run_event, turn_dpc.
  - destruct (sy_Queue y) as [|n] eqn:E1; simplify_eq. by eapply run_event, turn_dequeue.
  - destruct (sy_Threads y) as [|t rest] eqn:E1; simplify_eq. eapply run_event; [done|]. apply turn_worker. by rewrite E1.
  - simplify_eq. eapply run_other; [done|]. destruct (UacpiNtEcReadByte Ec (u8 a) (sy_Port y)) as [o s] eqn:E1.
    eapply turn_read; [apply u8_range|done].
Qed.
End Play.

(** Two events come in while a byte is read; the second one is fetched in the same
    drain as the first. *)
Definition example_tables : query_tables := mkTables (<[0x22%nat := 100]> (replicate 256 0)) (<[0x22%nat := 7]> (replicate 256 0)).
Definition example_begin : ec_system := ec_connected (P := ref_ports 3) example_tables example_port.
Definition example_schedule : list choice :=
  [ChooseWorker; ChooseRead 0x40; ChooseSci; ChooseDpc; ChooseDequeue; ChooseWorker; ChooseWorker; ChooseWorker;
   ChooseWorker; ChooseWorker; ChooseWorker].
Definition example_end : ec_system := default example_begin (play (P := ref_ports 3) (example_ec true) example_schedule example_begin).

#[local] Existing Instance example_laws.
Definition example_gpe : EcGpeLaws (ref_gpe 3) example_laws := ref_gpe_laws 3.

Lemma example_fresh : fresh_port (P := ref_ports 3) (example_ec true) example_port.
Proof. split; reflexivity. Qed.

Definition plays {A} (o : option A) : bool := match o with Some _ => true | None => false end.

Lemma example_plays : plays (play (P := ref_ports 3) (example_ec true) example_schedule example_begin) = true.
Proof. vm_compute. reflexivity. Qed.

Lemma example_reached : ec_run (P := ref_ports 3) (example_ec true) example_begin example_end.
Proof.
  apply (play_run (P := ref_ports 3) (example_ec true) example_schedule _ example_begin); [constructor|].
  pose proof example_plays as H. unfold example_end. by destruct (play _ example_schedule example_begin).
Qed.

Lemma example_log : sy_Log example_end = [(0x22, CallRoutine 100 0x22 7); (0x11, CallMethod 5 "_Q11")].
Proof. vm_compute. reflexivity. Qed.

Theorem ec_events_accounted_witness :
  ew_Arrived (sy_view (P := ref_ports 3) (example_ec true) example_end) = [0x11; 0x22] /\ (sy_Queue example_end <= 1)%nat.
Proof.
  destruct (ec_events_accounted (example_ec true) example_gpe example_prompt _ _ _ example_fresh example_reached)
    as (H & _ & Hq & _).
  split; [|exact Hq]. rewrite H. vm_compute. reflexivity.
Defined.

Theorem ec_events_served_witness :
  quiet (P := ref_ports 3) (example_ec true) example_end /\
  [0x22; 0x11] ≡ₚ ew_Arrived (sy_view (P := ref_ports 3) (example_ec true) example_end).
Proof.
  destruct (ec_events_served (example_ec true) example_gpe example_prompt _ _ _ example_fresh example_reached)
    as (_ & _ & Hs).
  assert (quiet (P := ref_ports 3) (example_ec true) example_end) as Hq by (repeat split; vm_compute; reflexivity).
  split; [exact Hq|]. destruct (Hs Hq) as [_ Hl]; [vm_compute; reflexivity|]. rewrite example_log in Hl. exact Hl.
Defined.

Definition example_registration : UACPINT_EC_QUERY_REGISTRATION := mkRegistration 0x22 100 7 0.

Theorem ec_registration_exact_witness :
  exists E r', UacpiNtEcUpdateRegistration (example_ec true) example_registration true = (STATUS_SUCCESS, E, r') /\
    UacpiNtEcDispatchQuery E 0x22 = CallRoutine 100 0x22 7 /\ UacpiNtEcDispatchQuery E 0x11 = CallMethod 5 "_Q11".
Proof.
  destruct (UacpiNtEcUpdateRegistration (example_ec true) example_registration true) as [ [st E] r'] eqn:Eu.
  destruct (ec_registration_exact (example_ec true) example_registration true st E r') as (Hst & _ & _ & Hd & Ho).
  - split; reflexivity.
  - unfold is_byte. simpl. lia.
  - exact Eu.
  - assert (st = STATUS_SUCCESS) as -> by (apply Hst; split; [discriminate|reflexivity]).
    exists E, r'. split; [done|]. split; [exact (Hd eq_refl)|].
    destruct (Ho 0x11) as [Hq _]; [unfold is_byte; lia|discriminate|]. rewrite Hq. vm_compute. reflexivity.
Defined.

(** The cookie a registration hands out is not asked for: whoever names a code takes
    it from the driver that registered it. *)
Lemma unregister_ignores_cookie Ec q Routine Context Handler Context' Cookie : has_tables Ec -> is_byte q ->
  Routine <> NULL ->
  UacpiNtEcDispatchQuery
    (UacpiNtEcUpdateRegistration (ec_set_query q Routine Context Ec) (mkRegistration q Handler Context' Cookie) false).1.2 q =
  aml_call Ec q.
Proof.
  intros Ht Hq Hr. unfold UacpiNtEcUpdateRegistration. cbn [rg_QueryCode].
  destruct (set_query_lookup Ec q q Routine Context Ht Hq Hq) as [-> _]. rewrite decide_True by done.
  destruct (Routine =? NULL) eqn:E; bool_prop; [done|]. simpl.
  by rewrite set_query_dispatch, decide_True by (done || by apply set_query_tables).
Qed.

(** A controller that needs longer than 10 ms for an answer: the drain ends, the
    second event stays pending, and as the signal never falls no edge comes. *)
Definition slow_port : port_state (P := ref_ports 2000) :=
  mkPort (P := ref_ports 2000) (mkRefEc (mkView (fun a => a) Idle [0x11; 0x22] true [0x11; 0x22]) 0 false []) [].

Definition slow_begin : ec_system (P := ref_ports 2000) := mkSystem example_tables slow_port false false 0 [] [] [] false.
Definition slow_end : option (ec_system (P := ref_ports 2000)) :=
  play (P := ref_ports 2000) (example_ec false) (L := ref_laws 2000)
    [ChooseSci; ChooseDpc; ChooseDequeue; ChooseWorker; ChooseWorker] slow_begin.

Lemma late_answer_strands_events :
  option_map (fun y : ec_system (P := ref_ports 2000) =>
    (sy_Dpc y, sy_Queue y, sy_Threads y, sy_Limit y, map fst (sy_Log y))) slow_end = Some (false, 0%nat, [], false, []) /\
  option_map (fun y : ec_system (P := ref_ports 2000) =>
    let w := sy_view (P := ref_ports 2000) (example_ec false) (L := ref_laws 2000) y in (ew_Edge w, ew_Pending w)) slow_end =
  Some (false, [0x22]).
Proof. split; vm_compute; reflexivity. Qed.
