(* ===== verification/EcBoot.v ===== *)
(** Bringing up the embedded controllers: drivers/ec.c, from the ECDT and the
    namespace to the blocks in the driver's list, and their PDOs.

    A block is known by its place in the list, the oldest first; the code's list
    has the newest first. *)
From stdpp Require Import base list numbers option strings.
From Stdlib Require Import ZArith Lia Permutation.
From S2P Require Import Prelude NtEnv AcpiEnv Bytes ResTranslate EcPort EcLaws EcQuery.

(** The fields of the table that are used; the name is a path from the root. *)
Record acpi_ecdt := mkEcdt {
  ecdt_control : Z;
  ecdt_data : Z;
  ecdt_gpe_bit : Z;
  ecdt_ec_id : string
}.

(** What else uACPI answers.  A handler of an address space is told to the methods
    of its node, which may use it at once; a namespace walk gives the nodes in
    order. *)
Class AcpiEc (P : EcPorts) := {
  uacpi_get_current_resources : acpi_node -> uacpi_status * option (list uacpi_resource);
  uacpi_install_address_space_handler : list acpi_node -> acpi_node -> ec_hw -> uacpi_status * ec_hw;
  uacpi_install_gpe_handler : acpi_node -> Z -> uacpi_status;
  uacpi_device_matches_ec : acpi_node -> bool;
  uacpi_table_find_ecdt : uacpi_status * option acpi_ecdt;
  uacpi_namespace_node_find : string -> uacpi_status * acpi_node;
  namespace_nodes : list acpi_node
}.

(** [bt_Regions] and [bt_Gpes] are the handlers installed and the GPEs enabled,
    oldest first, a GPE with its block. *)
Record ec_boot {P : EcPorts} := mkBoot {
  bt_Ecs : list UACPINT_EC;
  bt_Port : port_state;
  bt_Log : query_log;
  bt_Acpi : list acpi_call;
  bt_World : world;
  bt_Regions : list acpi_node;
  bt_Gpes : list (acpi_node * Z * nat)
}.
Arguments mkBoot {P}.

(** A PDO, as far as controllers go. *)
Record ec_pdo := mkEcPdo {
  pd_Id : PVOID;
  pd_Node : acpi_node;
  pd_Ec : option nat
}.

Section Boot.
Context {P : EcPorts} {A : Acpi} {B : AcpiEc P}.

Definition bt_set_Acpi (h : list acpi_call) (t : ec_boot) : ec_boot :=
  mkBoot (bt_Ecs t) (bt_Port t) (bt_Log t) h (bt_World t) (bt_Regions t) (bt_Gpes t).
Definition bt_set_World (w : world) (t : ec_boot) : ec_boot :=
  mkBoot (bt_Ecs t) (bt_Port t) (bt_Log t) (bt_Acpi t) w (bt_Regions t) (bt_Gpes t).
Definition bt_set_Ecs (l : list UACPINT_EC) (t : ec_boot) : ec_boot :=
  mkBoot l (bt_Port t) (bt_Log t) (bt_Acpi t) (bt_World t) (bt_Regions t) (bt_Gpes t).
Definition bt_set_Port (s : port_state) (t : ec_boot) : ec_boot :=
  mkBoot (bt_Ecs t) s (bt_Log t) (bt_Acpi t) (bt_World t) (bt_Regions t) (bt_Gpes t).
Definition bt_add_Region (n : acpi_node) (t : ec_boot) : ec_boot :=
  mkBoot (bt_Ecs t) (bt_Port t) (bt_Log t) (bt_Acpi t) (bt_World t) (bt_Regions t ++ [n]) (bt_Gpes t).
Definition bt_add_Gpe (g : acpi_node * Z * nat) (t : ec_boot) : ec_boot :=
  mkBoot (bt_Ecs t) (bt_Port t) (bt_Log t) (bt_Acpi t) (bt_World t) (bt_Regions t) (bt_Gpes t ++ [g]).
Definition bt_drained (r : port_state * query_log) (t : ec_boot) : ec_boot :=
  mkBoot (bt_Ecs t) r.1 r.2 (bt_Acpi t) (bt_World t) (bt_Regions t) (bt_Gpes t).

Definition ec_set_Ports (d c : Z) (e : UACPINT_EC) : UACPINT_EC :=
  mkEc (ec_Node e) (ec_Pdo e) d c (ec_GpeDevice e) (ec_GpeLine e) (ec_RegionInstalled e) (ec_FromEcdt e)
    (ec_GlobalLock e) (ec_QueryRoutine e) (ec_QueryContext e).
Definition ec_set_Gpe (line : Z) (e : UACPINT_EC) : UACPINT_EC :=
  mkEc (ec_Node e) (ec_Pdo e) (ec_DataPort e) (ec_ControlPort e) NULL line (ec_RegionInstalled e) (ec_FromEcdt e)
    (ec_GlobalLock e) (ec_QueryRoutine e) (ec_QueryContext e).
Definition ec_set_GlobalLock (e : UACPINT_EC) : UACPINT_EC :=
  mkEc (ec_Node e) (ec_Pdo e) (ec_DataPort e) (ec_ControlPort e) (ec_GpeDevice e) (ec_GpeLine e) (ec_RegionInstalled e)
    (ec_FromEcdt e) true (ec_QueryRoutine e) (ec_QueryContext e).
Definition ec_set_FromEcdt (e : UACPINT_EC) : UACPINT_EC :=
  mkEc (ec_Node e) (ec_Pdo e) (ec_DataPort e) (ec_ControlPort e) (ec_GpeDevice e) (ec_GpeLine e) (ec_RegionInstalled e)
    true (ec_GlobalLock e) (ec_QueryRoutine e) (ec_QueryContext e).
Definition ec_set_Region (e : UACPINT_EC) : UACPINT_EC :=
  mkEc (ec_Node e) (ec_Pdo e) (ec_DataPort e) (ec_ControlPort e) (ec_GpeDevice e) (ec_GpeLine e) true (ec_FromEcdt e)
    (ec_GlobalLock e) (ec_QueryRoutine e) (ec_QueryContext e).
Definition ec_set_Pdo (p : PVOID) (e : UACPINT_EC) : UACPINT_EC :=
  mkEc (ec_Node e) p (ec_DataPort e) (ec_ControlPort e) (ec_GpeDevice e) (ec_GpeLine e) (ec_RegionInstalled e)
    (ec_FromEcdt e) (ec_GlobalLock e) (ec_QueryRoutine e) (ec_QueryContext e).

(** ** Reading the namespace *)

Fixpoint take_ports (l : list uacpi_resource) (Ports : list Z) : list Z :=
  if (2 <=? length Ports)%nat then Ports
  else
    match l with
    | [] => Ports
    | UACPI_RESOURCE_TYPE_IO p :: l => take_ports l (Ports ++ [u16 (sp_minimum p)])
    | UACPI_RESOURCE_TYPE_FIXED_IO p :: l => take_ports l (Ports ++ [u16 (fs_address p)])
    | _ :: l => take_ports l Ports
    end.

(** [None] for FALSE. *)
Definition UacpiNtEcReadPorts (Node : acpi_node) (Ec : UACPINT_EC) : option UACPINT_EC :=
  let '(st, Resources) := uacpi_get_current_resources Node in
  if uacpi_unlikely_error st then None
  else
    match Resources with
    | None => None
    | Some l => match take_ports l [] with [d; c] => Some (ec_set_Ports d c Ec) | _ => None end
    end.

Definition gpe_index_object (Result : uacpi_object) : option uacpi_object :=
  match Result with
  | UACPI_OBJECT_INTEGER _ => Some Result
  | UACPI_OBJECT_PACKAGE _ => uacpi_object_get_package Result ≫= fun Package => Package !! 1%nat
  | _ => None
  end.

Definition UacpiNtEcReadGpe (Node : acpi_node) (Ec : UACPINT_EC) (h : list acpi_call) : bool * UACPINT_EC * list acpi_call :=
  let '(st, Result, h) := uacpi_eval Node "_GPE" [] h in
  if uacpi_unlikely_error st then (false, Ec, h)
  else
    match Result with
    | None => (false, Ec, h)
    | Some Result =>
        match gpe_index_object Result ≫= uacpi_object_get_integer with
        | Some Index => (true, ec_set_Gpe (u16 Index) Ec, h)
        | None => (false, Ec, h)
        end
    end.

Definition UacpiNtEcReadGlk (Node : acpi_node) (Ec : UACPINT_EC) (h : list acpi_call) : UACPINT_EC * list acpi_call :=
  let '(Glk, h) := uacpi_eval_simple_integer Node "_GLK" h in
  (if negb (default 0 Glk =? 0) then ec_set_GlobalLock Ec else Ec, h).

(** ** Blocks *)

Definition sizeof_ec : Z := 4312.

(** A table RtlZeroMemory has cleared. *)
Definition no_queries : list PVOID := replicate UACPINT_EC_QUERY_CODES NULL.
#[global] Arguments no_queries : simpl never.

Definition UacpiNtEcAllocate (Node : acpi_node) (w : world) : option UACPINT_EC * world :=
  let '(Granted, w) := ExAllocatePoolWithTag sizeof_ec w in
  if negb Granted then (None, w)
  else (Some (mkEc Node NULL 0 0 NULL 0 false false false no_queries no_queries), w).

(** The newest block of the node. *)
Fixpoint find_newest (Node : acpi_node) (l : list UACPINT_EC) : option nat :=
  match l with
  | [] => None
  | e :: l =>
      match find_newest Node l with
      | Some i => Some (S i)
      | None => if ec_Node e =? Node then Some O else None
      end
  end.

Definition UacpiNtEcFindByNode (Node : acpi_node) (t : ec_boot) : option nat := find_newest Node (bt_Ecs t).

(** The block is the [i]-th one. *)
Definition UacpiNtEcConnectGpe (i : nat) (Ec : UACPINT_EC) (t : ec_boot) : ec_boot :=
  let st := uacpi_install_gpe_handler (ec_GpeDevice Ec) (ec_GpeLine Ec) in
  if uacpi_unlikely_error st then t
  else
    let t := bt_add_Gpe (ec_GpeDevice Ec, ec_GpeLine Ec, i) t in
    bt_drained (UacpiNtEcDrainQueries Ec (bt_Port t) (bt_Log t)) t.

(** The place of the block for TRUE. *)
Definition UacpiNtEcInstall (Ec : UACPINT_EC) (HasGpe : bool) (t : ec_boot) : option nat * ec_boot :=
  let '(st, h) := uacpi_install_address_space_handler (bt_Regions t) (ec_Node Ec) (ps_Hw (bt_Port t)) in
  let t := bt_set_Port (mkPort h (ps_Trace (bt_Port t))) t in
  if uacpi_unlikely_error st then (None, t)
  else
    let t := bt_add_Region (ec_Node Ec) t in
    let Ec := ec_set_Region Ec in
    let i := length (bt_Ecs t) in
    let t := bt_set_Ecs (bt_Ecs t ++ [Ec]) t in
    (Some i, if HasGpe then UacpiNtEcConnectGpe i Ec t else t).

(** A block that could not be installed is freed. *)
Definition install_or_free (Ec : UACPINT_EC) (HasGpe : bool) (t : ec_boot) : option nat * ec_boot :=
  let '(i, t) := UacpiNtEcInstall Ec HasGpe t in
  match i with
  | Some i => (Some i, t)
  | None => (None, bt_set_World (ExFreePoolWithTag (bt_World t)) t)
  end.

Definition UacpiNtEcBringUpNode (Node : acpi_node) (t : ec_boot) : option nat * ec_boot :=
  match UacpiNtEcFindByNode Node t with
  | Some i => (Some i, t)
  | None =>
      let '(Ec, w) := UacpiNtEcAllocate Node (bt_World t) in
      let t := bt_set_World w t in
      match Ec with
      | None => (None, t)
      | Some Ec =>
          match UacpiNtEcReadPorts Node Ec with
          | None => (None, bt_set_World (ExFreePoolWithTag (bt_World t)) t)
          | Some Ec =>
              let '(Ec, h) := UacpiNtEcReadGlk Node Ec (bt_Acpi t) in
              let '(HasGpe, Ec, h) := UacpiNtEcReadGpe Node Ec h in
              install_or_free Ec HasGpe (bt_set_Acpi h t)
          end
      end
  end.

Definition UacpiNtEcBringUpEcdt (Ecdt : acpi_ecdt) (t : ec_boot) : bool * ec_boot :=
  let '(st, Node) := uacpi_namespace_node_find (ecdt_ec_id Ecdt) in
  if uacpi_unlikely_error st || (Node =? NULL) then (false, t)
  else
    match UacpiNtEcFindByNode Node t with
    | Some _ => (true, t)
    | None =>
        let '(Ec, w) := UacpiNtEcAllocate Node (bt_World t) in
        let t := bt_set_World w t in
        match Ec with
        | None => (false, t)
        | Some Ec =>
            let Ec := ec_set_Ports (u16 (ecdt_data Ecdt)) (u16 (ecdt_control Ecdt)) Ec in
            let Ec := ec_set_FromEcdt (ec_set_Gpe (ecdt_gpe_bit Ecdt) Ec) in
            let '(i, t) := install_or_free Ec true t in
            (match i with Some _ => true | None => false end, t)
        end
    end.

Definition UacpiNtEcInitFromEcdt (t : ec_boot) : bool * ec_boot :=
  let '(st, Table) := uacpi_table_find_ecdt in
  if uacpi_unlikely_error st then (false, t)
  else match Table with None => (false, t) | Some Ecdt => UacpiNtEcBringUpEcdt Ecdt t end.

Definition UacpiNtEcIsEcNode (Node : acpi_node) : bool := negb (Node =? NULL) && uacpi_device_matches_ec Node.

(** [true] for UACPI_ITERATION_DECISION_BREAK. *)
Definition UacpiNtEcScanCallback (Node : acpi_node) (t : ec_boot) : bool * ec_boot :=
  if negb (UacpiNtEcIsEcNode Node) then (false, t)
  else let '(i, t) := UacpiNtEcBringUpNode Node t in (match i with Some _ => true | None => false end, t).

Fixpoint scan_nodes (l : list acpi_node) (t : ec_boot) : ec_boot :=
  match l with
  | [] => t
  | Node :: l => let '(Break, t) := UacpiNtEcScanCallback Node t in if Break then t else scan_nodes l t
  end.

Definition UacpiNtEcInitialize (t : ec_boot) : ec_boot :=
  let '(Success, t) := UacpiNtEcInitFromEcdt t in if Success then t else scan_nodes namespace_nodes t.

Definition UacpiNtEcStart (Pdo : ec_pdo) (t : ec_boot) : ec_pdo * ec_boot :=
  if (pd_Node Pdo =? NULL) || negb (UacpiNtEcIsEcNode (pd_Node Pdo)) then (Pdo, t)
  else
    let '(i, t) := UacpiNtEcBringUpNode (pd_Node Pdo) t in
    match i with
    | None => (Pdo, t)
    | Some i =>
        (mkEcPdo (pd_Id Pdo) (pd_Node Pdo) (Some i), bt_set_Ecs (alter (ec_set_Pdo (pd_Id Pdo)) i (bt_Ecs t)) t)
    end.

Definition UacpiNtEcRemove (Pdo : ec_pdo) (t : ec_boot) : ec_pdo * ec_boot :=
  match pd_Ec Pdo with
  | None => (Pdo, t)
  | Some i => (mkEcPdo (pd_Id Pdo) (pd_Node Pdo) None, bt_set_Ecs (alter (ec_set_Pdo NULL) i (bt_Ecs t)) t)
  end.
End Boot.

(** ** The list of controllers *)
Section Sound.
Context {P : EcPorts} {A : Acpi} {B : AcpiEc P}.

(** The fields reading the namespace or the table does not touch. *)
Definition fresh_block (Node : acpi_node) (e : UACPINT_EC) : Prop :=
  ec_Node e = Node /\ ec_Pdo e = NULL /\ (ec_FromEcdt e = true -> ec_GlobalLock e = false) /\
  ec_QueryRoutine e = no_queries /\ ec_QueryContext e = no_queries.

Definition block_sound (e : UACPINT_EC) : Prop :=
  ec_RegionInstalled e = true /\ (ec_FromEcdt e = true -> ec_GlobalLock e = false) /\ has_tables e.

(** A GPE that is enabled is the one of its block. *)
Definition gpe_of (l : list UACPINT_EC) (g : acpi_node * Z * nat) : Prop :=
  exists e, l !! g.2 = Some e /\ ec_GpeDevice e = g.1.1 /\ ec_GpeLine e = g.1.2.

Record boot_sound (live : Z) (t : ec_boot) : Prop := {
  bs_nodes : NoDup (map ec_Node (bt_Ecs t));
  bs_regions : bt_Regions t = map ec_Node (bt_Ecs t);
  bs_blocks : Forall block_sound (bt_Ecs t);
  bs_gpes : NoDup (map snd (bt_Gpes t)) /\ Forall (gpe_of (bt_Ecs t)) (bt_Gpes t);
  bs_pool : w_live (bt_World t) = live + Z.of_nat (length (bt_Ecs t))
}.

Lemma find_newest_some Node l i : find_newest Node l = Some i -> exists e, l !! i = Some e /\ ec_Node e = Node.
Proof.
  revert i. induction l as [|e l IH]; intros i H; simpl in H; [done|].
  destruct (find_newest Node l) as [j|]; [simplify_eq; by apply IH|].
  destruct (ec_Node e =? Node) eqn:E; bool_prop; simplify_eq. by exists e.
Qed.

Lemma find_newest_none Node l : find_newest Node l = None -> Node ∉ map ec_Node l.
Proof.
  induction l as [|e l IH]; simpl; intros H; [by apply not_elem_of_nil|].
  destruct (find_newest Node l); [done|]. destruct (ec_Node e =? Node) eqn:E; bool_prop; [done|].
  apply not_elem_of_cons. split; [by apply not_eq_sym|by apply IH].
Qed.

Lemma gpe_of_app l r g : gpe_of l g -> gpe_of (l ++ r) g.
Proof. intros (e & He & ?). exists e. split; [by apply lookup_app_l_Some|done]. Qed.

Lemma fresh_gpe_places l gs : Forall (gpe_of l) gs -> length l ∉ map snd gs.
Proof.
  intros H Hin. apply list_elem_of_In, in_map_iff in Hin as (g & Hg & Hin%list_elem_of_In).
  rewrite Forall_forall in H. destruct (H _ Hin) as (e & He & _). rewrite Hg in He.
  apply lookup_lt_Some in He. lia.
Qed.

(** What an installation adds. *)
Lemma install_spec Node Ec HasGpe t o t' : fresh_block Node Ec -> install_or_free Ec HasGpe t = (o, t') ->
  match o with
  | None => bt_Ecs t' = bt_Ecs t /\ bt_Regions t' = bt_Regions t /\ bt_Gpes t' = bt_Gpes t /\
            w_live (bt_World t') = w_live (bt_World t) - 1
  | Some i => i = length (bt_Ecs t) /\ bt_Ecs t' = bt_Ecs t ++ [ec_set_Region Ec] /\ bt_Regions t' = bt_Regions t ++ [Node] /\
      (bt_Gpes t' = bt_Gpes t \/ HasGpe = true /\ bt_Gpes t' = bt_Gpes t ++ [(ec_GpeDevice Ec, ec_GpeLine Ec, i)]) /\
      bt_World t' = bt_World t
  end.
Proof.
  intros (Hn & _) H. unfold install_or_free, UacpiNtEcInstall in H. rewrite Hn in H.
  destruct (uacpi_install_address_space_handler _ _ _) as [st h]. destruct (uacpi_unlikely_error st); simplify_eq/=; [done|].
  destruct HasGpe; [|simplify_eq/=; split_and!; try done; by left].
  unfold UacpiNtEcConnectGpe in *. destruct (uacpi_unlikely_error _); simplify_eq/=; split_and!; try done; [by left|by right].
Qed.

Lemma sound_install live Node Ec HasGpe t o t' :
  fresh_block Node Ec -> Node ∉ map ec_Node (bt_Ecs t) -> boot_sound live (bt_set_World (ExFreePoolWithTag (bt_World t)) t) ->
  install_or_free Ec HasGpe t = (o, t') -> boot_sound live t'.
Proof.
  intros Hf Hn [Hd Hr Hb [Hg1 Hg2] Hp] H. simpl in *. pose proof (install_spec _ _ _ _ _ _ Hf H) as Hs.
  destruct o as [i|].
  - destruct Hs as (-> & Ee & Er & Eg & Ew). destruct Hf as (Hnode & _ & Hl & HR & HC). split.
    + rewrite Ee, map_app. simpl. rewrite Hnode. apply NoDup_app. split; [done|]. split; [|apply NoDup_singleton].
      intros x Hx ->%list_elem_of_singleton. done.
    + by rewrite Er, Ee, map_app, Hr, <- Hnode.
    + rewrite Ee. apply Forall_app. split; [done|]. constructor; [|done]. split; [done|]. split; [done|].
      split; simpl; rewrite ?HR, ?HC; apply (length_replicate UACPINT_EC_QUERY_CODES).
    + assert (Forall (gpe_of (bt_Ecs t ++ [ec_set_Region Ec])) (bt_Gpes t)) as Hall.
      { eapply Forall_impl; [exact Hg2|]. intros g. apply gpe_of_app. }
      rewrite Ee. destruct Eg as [->|[_ ->] ]; [done|]. rewrite map_app. split.
      * apply NoDup_app. split; [done|]. split; [|apply NoDup_singleton].
        intros x Hx ->%list_elem_of_singleton. exact (fresh_gpe_places _ _ Hg2 Hx).
      * apply Forall_app. split; [done|]. constructor; [|done]. exists (ec_set_Region Ec). split; [|done].
        simpl. by rewrite lookup_app_r, Nat.sub_diag by lia.
    + rewrite Ee, Ew, length_app. simpl. lia.
  - destruct Hs as (Ee & Er & Eg & Ew). split; rewrite ?Ee, ?Er, ?Eg; try done. rewrite Ew. lia.
Qed.

Lemma allocate_spec Node w o w' : UacpiNtEcAllocate Node w = (o, w') ->
  match o with
  | None => w_live w' = w_live w
  | Some e => w_live w' = w_live w + 1 /\ fresh_block Node e /\ ec_FromEcdt e = false /\ ec_GlobalLock e = false
  end.
Proof.
  unfold UacpiNtEcAllocate, ExAllocatePoolWithTag. destruct (w_pool w _ _); simpl; intros H; by simplify_eq.
Qed.

(** A state that differs in the pool, the history and the traffic only. *)
Definition same_blocks (t t' : ec_boot) : Prop :=
  bt_Ecs t' = bt_Ecs t /\ bt_Regions t' = bt_Regions t /\ bt_Gpes t' = bt_Gpes t.

Lemma sound_same live t t' : same_blocks t t' -> w_live (bt_World t') = w_live (bt_World t) ->
  boot_sound live t -> boot_sound live t'.
Proof. intros (E1 & E2 & E3) Ew [Hd Hr Hb Hg Hp]. split; rewrite ?E1, ?E2, ?E3, ?Ew; done. Qed.
End Sound.

Section Boots.
Context {P : EcPorts} {A : Acpi} {B : AcpiEc P}.

Lemma read_ports_fresh Node n Ec Ec' : fresh_block n Ec -> UacpiNtEcReadPorts Node Ec = Some Ec' -> fresh_block n Ec'.
Proof.
  unfold UacpiNtEcReadPorts. intros Hf H. destruct (uacpi_get_current_resources Node) as [st [l|] ];
    destruct (uacpi_unlikely_error st); try done.
  destruct (take_ports l []) as [|d [|c [|? ?] ] ]; try done. by simplify_eq.
Qed.

Lemma read_glk_fresh Node n Ec h : fresh_block n Ec -> ec_FromEcdt Ec = false ->
  fresh_block n (UacpiNtEcReadGlk Node Ec h).1 /\ ec_FromEcdt (UacpiNtEcReadGlk Node Ec h).1 = false.
Proof.
  unfold UacpiNtEcReadGlk. intros Hf He. destruct (uacpi_eval_simple_integer _ _ h) as [Glk h']. destruct (negb _); [|done].
  destruct Hf as (? & ? & ? & ?). simpl. split; [|done]. split; [done|]. split; [done|]. split; [|done]. intros Hx. simpl in Hx. congruence.
Qed.

Lemma read_gpe_fresh Node n Ec h : fresh_block n Ec -> fresh_block n (UacpiNtEcReadGpe Node Ec h).1.2.
Proof.
  unfold UacpiNtEcReadGpe. intros Hf. destruct (uacpi_eval _ _ _ h) as [ [st o] h']. destruct (uacpi_unlikely_error st); [done|].
  destruct o as [o|]; [|done]. by destruct (gpe_index_object o ≫= uacpi_object_get_integer).
Qed.

(** A pass over one node keeps the list sound, and what it answers is a block of
    the node. *)
Definition names_block (Node : acpi_node) (o : option nat) (t : ec_boot) : Prop :=
  match o with Some i => exists e, bt_Ecs t !! i = Some e /\ ec_Node e = Node | None => True end.

Lemma install_names Node Ec HasGpe t o t' : fresh_block Node Ec -> install_or_free Ec HasGpe t = (o, t') ->
  names_block Node o t' /\ exists l, bt_Ecs t' = bt_Ecs t ++ l.
Proof.
  intros Hf H. pose proof (install_spec _ _ _ _ _ _ Hf H) as Hs. destruct o as [i|].
  - destruct Hs as (-> & Ee & _). destruct Hf as (Hn & _). rewrite Ee. split; [|by eexists].
    exists (ec_set_Region Ec). rewrite Ee, lookup_app_r, Nat.sub_diag by lia. done.
  - destruct Hs as (Ee & _). split; [done|]. exists []. by rewrite Ee, app_nil_r.
Qed.

Lemma bring_up_sound live Node t o t' : boot_sound live t -> UacpiNtEcBringUpNode Node t = (o, t') ->
  boot_sound live t' /\ names_block Node o t' /\ exists l, bt_Ecs t' = bt_Ecs t ++ l.
Proof.
  intros Hs H. unfold UacpiNtEcBringUpNode, UacpiNtEcFindByNode in H.
  assert (forall t1, same_blocks t t1 -> w_live (bt_World t1) = w_live (bt_World t) ->
    boot_sound live t1 /\ names_block Node None t1 /\ exists l, bt_Ecs t1 = bt_Ecs t ++ l) as Hnone.
  { intros t1 Hsame Hw. split; [by eapply sound_same|]. split; [done|]. exists []. rewrite app_nil_r. apply Hsame. }
  destruct (find_newest Node (bt_Ecs t)) as [i|] eqn:Ef.
  { simplify_eq. split; [done|]. split; [by apply find_newest_some|]. exists []. by rewrite app_nil_r. }
  apply find_newest_none in Ef. destruct (UacpiNtEcAllocate Node (bt_World t)) as [oe w] eqn:Ea.
  pose proof (allocate_spec _ _ _ _ Ea) as Hal. destruct oe as [Ec|]; [|simplify_eq; by apply Hnone].
  destruct Hal as (Hw & Hf & HF & _).
  destruct (UacpiNtEcReadPorts Node Ec) as [Ec1|] eqn:Ep.
  2:{ simplify_eq. apply Hnone; [done|]. simpl. lia. }
  pose proof (read_ports_fresh _ _ _ _ Hf Ep) as Hf1. assert (ec_FromEcdt Ec1 = false) as HF1.
  { unfold UacpiNtEcReadPorts in Ep. repeat case_match; by simplify_eq/=. }
  pose proof (read_glk_fresh Node _ _ (bt_Acpi t) Hf1 HF1) as [Hf2 _]. simpl in H.
  destruct (UacpiNtEcReadGlk Node Ec1 _) as [Ec2 h2]. pose proof (read_gpe_fresh Node _ _ h2 Hf2) as Hf3.
  destruct (UacpiNtEcReadGpe Node Ec2 h2) as [ [g Ec3] h3] eqn:Eg. simpl in Hf3. rewrite Eg in Hf3. simpl in Hf3. split; [|exact (install_names _ _ _ _ _ _ Hf3 H)].
  eapply sound_install; [exact Hf3| | |exact H]; [done|]. eapply sound_same; [| |exact Hs]; [done|simpl; lia].
Qed.

Lemma ecdt_sound live Ecdt t b t' : boot_sound live t -> UacpiNtEcBringUpEcdt Ecdt t = (b, t') -> boot_sound live t'.
Proof.
  intros Hs H. unfold UacpiNtEcBringUpEcdt, UacpiNtEcFindByNode in H.
  destruct (uacpi_namespace_node_find _) as [st Node]. destruct (_ || _); [by simplify_eq|].
  destruct (find_newest Node (bt_Ecs t)) eqn:Ef; [by simplify_eq|]. apply find_newest_none in Ef.
  destruct (UacpiNtEcAllocate Node (bt_World t)) as [oe w] eqn:Ea.
  pose proof (allocate_spec _ _ _ _ Ea) as Hal. destruct oe as [Ec|].
  2:{ simplify_eq. eapply sound_same; [| |exact Hs]; done. }
  destruct Hal as (Hw & Hf & _ & HG).
  destruct (install_or_free _ true _) as [o t1] eqn:Ei. simplify_eq.
  eapply sound_install; [| | |exact Ei]; [| |eapply sound_same; [| |exact Hs]; [done|simpl; lia] ].
  - destruct Hf as (? & ? & ? & ?). split; [done|]. split; [done|]. by split.
  - done.
Qed.

Lemma scan_sound live l t : boot_sound live t -> boot_sound live (scan_nodes l t).
Proof.
  revert t. induction l as [|n l IH]; intros t Hs; simpl; [done|]. unfold UacpiNtEcScanCallback.
  destruct (negb _); [by apply IH|]. destruct (UacpiNtEcBringUpNode n t) as [o t1] eqn:E.
  apply (bring_up_sound live) in E as [H1 _]; [|done]. destruct o; [done|by apply IH].
Qed.

Lemma initialize_sound live t : boot_sound live t -> boot_sound live (UacpiNtEcInitialize t).
Proof.
  intros Hs. unfold UacpiNtEcInitialize, UacpiNtEcInitFromEcdt. destruct uacpi_table_find_ecdt as [st o].
  destruct (uacpi_unlikely_error st); [by apply scan_sound|]. destruct o as [Ecdt|]; [|by apply scan_sound].
  destruct (UacpiNtEcBringUpEcdt Ecdt t) as [b t1] eqn:E. apply (ecdt_sound live) in E; [|done].
  destruct b; [done|by apply scan_sound].
Qed.
End Boots.

(** ** Devices that start and go *)
Section Devices.
Context {P : EcPorts} {A : Acpi} {B : AcpiEc P}.

(** A block that changes in place. *)
Definition same_place (e e' : UACPINT_EC) : Prop :=
  ec_Node e' = ec_Node e /\ ec_GpeDevice e' = ec_GpeDevice e /\ ec_GpeLine e' = ec_GpeLine e.

Lemma nodes_insert l i e e' : l !! i = Some e -> same_place e e' -> map ec_Node (<[i := e']> l) = map ec_Node l.
Proof.
  intros He (Hn & _). apply list_eq. intros j. rewrite !lookup_map_option. destruct (decide (i = j)) as [->|Hj].
  - rewrite list_lookup_insert_eq, He by (by eapply lookup_lt_Some). simpl. by rewrite Hn.
  - by rewrite list_lookup_insert_ne.
Qed.

Lemma sound_update live t i e e' : boot_sound live t -> bt_Ecs t !! i = Some e -> same_place e e' -> block_sound e' ->
  boot_sound live (bt_set_Ecs (<[i := e']> (bt_Ecs t)) t).
Proof.
  intros [Hd Hr Hb [Hg1 Hg2] Hp] He Hs Hb'. pose proof (nodes_insert _ _ _ _ He Hs) as Hnodes. split; simpl.
  - by rewrite Hnodes.
  - by rewrite Hnodes.
  - by apply Forall_insert.
  - split; [done|]. eapply Forall_impl; [exact Hg2|]. intros g (e1 & He1 & Hd1 & Hl1). destruct Hs as (_ & HD & HL).
    destruct (decide (i = g.2)) as [->|Hi].
    + exists e'. rewrite list_lookup_insert_eq by (by eapply lookup_lt_Some). rewrite He in He1. simplify_eq.
      split; [done|]. by rewrite HD, HL.
    + exists e1. by rewrite list_lookup_insert_ne.
  - by rewrite length_insert.
Qed.

Lemma sound_set_pdo live t i p : boot_sound live t -> boot_sound live (bt_set_Ecs (alter (ec_set_Pdo p) i (bt_Ecs t)) t).
Proof.
  intros Hs. destruct (bt_Ecs t !! i) as [e|] eqn:E.
  - rewrite (alter_insert_lookup _ _ _ _ E). eapply sound_update; [done|exact E|done|].
    destruct Hs as [_ _ Hb _ _]. exact (Forall_lookup_1 _ _ _ _ Hb E).
  - rewrite list_alter_none by done. by destruct t.
Qed.

(** A PDO that has a block has the one of its node. *)
Definition pdo_linked (t : ec_boot) (p : ec_pdo) : Prop := names_block (pd_Node p) (pd_Ec p) t.

(** Whatever the list becomes, the places keep their nodes. *)
Definition places_kept (t t' : ec_boot) : Prop :=
  forall i e, bt_Ecs t !! i = Some e -> exists e', bt_Ecs t' !! i = Some e' /\ ec_Node e' = ec_Node e.

Lemma linked_kept t t' p : places_kept t t' -> pdo_linked t p -> pdo_linked t' p.
Proof.
  unfold pdo_linked, names_block. destruct (pd_Ec p) as [i|]; [|done]. intros Hk (e & He & Hn).
  destruct (Hk _ _ He) as (e' & He' & Hn'). exists e'. split; [done|congruence].
Qed.

Lemma kept_app t t' l : bt_Ecs t' = bt_Ecs t ++ l -> places_kept t t'.
Proof. intros E i e He. exists e. rewrite E. split; [by apply lookup_app_l_Some|done]. Qed.

Lemma kept_set_pdo t i p : places_kept t (bt_set_Ecs (alter (ec_set_Pdo p) i (bt_Ecs t)) t).
Proof.
  intros j e He. simpl. destruct (decide (i = j)) as [->|Hj].
  - exists (ec_set_Pdo p e). by rewrite list_lookup_alter_eq, He.
  - exists e. by rewrite list_lookup_alter_ne.
Qed.

Lemma kept_trans t1 t2 t3 : places_kept t1 t2 -> places_kept t2 t3 -> places_kept t1 t3.
Proof.
  intros H1 H2 i e He. destruct (H1 _ _ He) as (e1 & He1 & ?). destruct (H2 _ _ He1) as (e2 & ? & ?).
  exists e2. split; [done|congruence].
Qed.

Lemma start_sound live p t p' t' : boot_sound live t -> pdo_linked t p -> UacpiNtEcStart p t = (p', t') ->
  boot_sound live t' /\ places_kept t t' /\ pdo_linked t' p' /\ pd_Node p' = pd_Node p.
Proof.
  intros Hs Hl H. unfold UacpiNtEcStart in H.
  destruct (_ || _); [simplify_eq; split_and!; [done|by apply (kept_app _ _ []); rewrite app_nil_r|done|done] |].
  destruct (UacpiNtEcBringUpNode (pd_Node p) t) as [o t1] eqn:E.
  destruct (bring_up_sound live _ _ _ _ Hs E) as (Hs1 & Hn & l & El). pose proof (kept_app _ _ _ El) as Hk.
  destruct o as [i|]; simplify_eq.
  - split_and!; [by apply sound_set_pdo|eapply kept_trans; [exact Hk|apply kept_set_pdo] | |done].
    apply (linked_kept t1); [apply kept_set_pdo|]. exact Hn.
  - split_and!; [done|done|by eapply linked_kept|done].
Qed.

Lemma remove_sound live p t p' t' : boot_sound live t -> UacpiNtEcRemove p t = (p', t') ->
  boot_sound live t' /\ places_kept t t' /\ pdo_linked t' p' /\ pd_Node p' = pd_Node p.
Proof.
  intros Hs H. unfold UacpiNtEcRemove in H. destruct (pd_Ec p) as [i|] eqn:Ep; simplify_eq.
  - split_and!; [by apply sound_set_pdo|apply kept_set_pdo|done|done].
  - split_and!; [done|by apply (kept_app _ _ []); rewrite app_nil_r| |done]. unfold pdo_linked. by rewrite Ep.
Qed.

Lemma register_sound live t i e r Register st e' r' : boot_sound live t -> bt_Ecs t !! i = Some e ->
  UacpiNtEcUpdateRegistration e r Register = (st, e', r') ->
  boot_sound live (bt_set_Ecs (<[i := e']> (bt_Ecs t)) t) /\ places_kept t (bt_set_Ecs (<[i := e']> (bt_Ecs t)) t).
Proof.
  intros Hs He H. assert (block_sound e) as Hb by (destruct Hs as [_ _ Hb _ _]; exact (Forall_lookup_1 _ _ _ _ Hb He)).
  assert (same_place e e' /\ block_sound e') as [Hp Hb'].
  { unfold UacpiNtEcUpdateRegistration in H. repeat case_match; simplify_eq; try done;
      (split; [done|]); destruct Hb as (Hb1 & Hb2 & Hb3); split; try done; split; try done; by apply set_query_tables. }
  split; [by eapply sound_update|]. intros j x Hx. simpl. destruct (decide (i = j)) as [->|Hj].
  - exists e'. rewrite list_lookup_insert_eq by (by eapply lookup_lt_Some). rewrite He in Hx. simplify_eq. split; [done|apply Hp].
  - exists x. by rewrite list_lookup_insert_ne.
Qed.

(** The driver from its start on: the boot, devices that start and go, and
    drivers that register for events. *)
Inductive boot_run (t0 : ec_boot) : ec_boot -> list ec_pdo -> Prop :=
| run_initialize pdos : Forall (fun p => pd_Ec p = None) pdos -> boot_run t0 (UacpiNtEcInitialize t0) pdos
| run_start_device t pdos k p p' t' : boot_run t0 t pdos -> pdos !! k = Some p -> UacpiNtEcStart p t = (p', t') ->
    boot_run t0 t' (<[k := p']> pdos)
| run_remove_device t pdos k p p' t' : boot_run t0 t pdos -> pdos !! k = Some p -> UacpiNtEcRemove p t = (p', t') ->
    boot_run t0 t' (<[k := p']> pdos)
| run_register t pdos i e r Register st e' r' : boot_run t0 t pdos -> bt_Ecs t !! i = Some e ->
    UacpiNtEcUpdateRegistration e r Register = (st, e', r') ->
    boot_run t0 (bt_set_Ecs (<[i := e']> (bt_Ecs t)) t) pdos.

Definition nothing_yet (t : ec_boot) : Prop := bt_Ecs t = [] /\ bt_Regions t = [] /\ bt_Gpes t = [].

Lemma nothing_sound t : nothing_yet t -> boot_sound (w_live (bt_World t)) t.
Proof. intros (E1 & E2 & E3). split; rewrite ?E1, ?E2, ?E3; simpl; [constructor|done|constructor|by split; constructor|lia]. Qed.

Lemma boot_run_sound t0 t pdos : nothing_yet t0 -> boot_run t0 t pdos ->
  boot_sound (w_live (bt_World t0)) t /\ Forall (pdo_linked t) pdos.
Proof.
  intros H0 Hr. induction Hr as [pdos Hp|t pdos k p p' t' Hr IH Hk H|t pdos k p p' t' Hr IH Hk H|t pdos i e r Reg st e' r' Hr IH He H].
  - split; [by apply initialize_sound, nothing_sound|]. eapply Forall_impl; [exact Hp|].
    intros p Hn. unfold pdo_linked. by rewrite Hn.
  - destruct IH as [Hs Hl]. destruct (start_sound _ _ _ _ _ Hs (Forall_lookup_1 _ _ _ _ Hl Hk) H) as (Hs' & Hkept & Hp' & _).
    split; [done|]. apply Forall_insert; [|done]. eapply Forall_impl; [exact Hl|]. intros. by eapply linked_kept.
  - destruct IH as [Hs Hl]. destruct (remove_sound _ _ _ _ _ Hs H) as (Hs' & Hkept & Hp' & _).
    split; [done|]. apply Forall_insert; [|done]. eapply Forall_impl; [exact Hl|]. intros. by eapply linked_kept.
  - destruct IH as [Hs Hl]. destruct (register_sound _ _ _ _ _ _ _ _ _ Hs He H) as [Hs' Hkept].
    split; [done|]. eapply Forall_impl; [exact Hl|]. intros. by eapply linked_kept.
Qed.
End Devices.

(** ** What a new block holds *)

(** The IO ports of a template, in order. *)
Definition io_ports (l : list uacpi_resource) : list Z :=
  omap (fun r => match r with
                 | UACPI_RESOURCE_TYPE_IO p => Some (u16 (sp_minimum p))
                 | UACPI_RESOURCE_TYPE_FIXED_IO p => Some (u16 (fs_address p))
                 | _ => None
                 end) l.

Lemma take_ports_first l Ports : (length Ports <= 2)%nat -> take_ports l Ports = Ports ++ take (2 - length Ports) (io_ports l).
Proof.
  revert Ports. induction l as [|r l IH]; intros Ports H; cbn [take_ports]; destruct (Nat.leb_spec 2 (length Ports)) as [E|E];
    try (replace (2 - length Ports)%nat with 0%nat by lia; by rewrite take_0, app_nil_r).
  - unfold io_ports. simpl. by rewrite take_nil, app_nil_r.
  - assert (forall p, take_ports l (Ports ++ [p]) = Ports ++ take (2 - length Ports) (p :: io_ports l)) as Hp.
    { intros p. rewrite IH by (rewrite length_app; simpl; lia). rewrite length_app, <- app_assoc. simpl length.
      replace (2 - length Ports)%nat with (S (2 - (length Ports + 1))) by lia. done. }
    destruct r; try (by apply IH); apply Hp.
Qed.

Section Exact.
Context {P : EcPorts} {A : Acpi} {B : AcpiEc P}.

Lemma eval_simple_history n path h : (uacpi_eval_simple_integer n path h).2 = CallEval n path [] :: h.
Proof. unfold uacpi_eval_simple_integer, uacpi_eval. by destruct (answer_eval h n path []). Qed.

(** What _GLK and _GPE say. *)
Definition glk_says (Node : acpi_node) (h : list acpi_call) : bool :=
  negb (default 0 (uacpi_eval_simple_integer Node "_GLK" h).1 =? 0).
Definition gpe_says (Node : acpi_node) (h : list acpi_call) : option Z :=
  let '(st, o, _) := uacpi_eval Node "_GPE" [] h in
  if uacpi_unlikely_error st then None else u16 <$> ((o ≫= gpe_index_object) ≫= uacpi_object_get_integer).

Lemma read_gpe_exact Node Ec h : UacpiNtEcReadGpe Node Ec h =
  (match gpe_says Node h with Some _ => true | None => false end,
   match gpe_says Node h with Some g => ec_set_Gpe g Ec | None => Ec end, CallEval Node "_GPE" [] :: h).
Proof.
  unfold UacpiNtEcReadGpe, gpe_says, uacpi_eval. destruct (answer_eval h Node "_GPE" []) as [st o].
  destruct (uacpi_unlikely_error st); [done|]. destruct o as [o|]; [|done]. simpl.
  destruct (gpe_index_object o) as [x|]; simpl; [by destruct (uacpi_object_get_integer x)|done].
Qed.

Lemma bring_up_new Node t l d c : UacpiNtEcFindByNode Node t = None ->
  uacpi_get_current_resources Node = (UACPI_STATUS_OK, Some l) -> take 2 (io_ports l) = [d; c] ->
  (ExAllocatePoolWithTag sizeof_ec (bt_World t)).1 = true ->
  (uacpi_install_address_space_handler (bt_Regions t) Node (ps_Hw (bt_Port t))).1 = UACPI_STATUS_OK ->
  exists t', UacpiNtEcBringUpNode Node t = (Some (length (bt_Ecs t)), t') /\
    let h := CallEval Node "_GLK" [] :: bt_Acpi t in
    bt_Ecs t' = bt_Ecs t ++
      [mkEc Node NULL d c NULL (default 0 (gpe_says Node h)) true false (glk_says Node (bt_Acpi t))
         no_queries no_queries] /\
    bt_Regions t' = bt_Regions t ++ [Node] /\
    (gpe_says Node h = None -> bt_Gpes t' = bt_Gpes t /\ bt_Log t' = bt_Log t).
Proof.
  intros Hn Hres Hp Hw Hi. unfold UacpiNtEcBringUpNode. rewrite Hn. unfold UacpiNtEcAllocate.
  destruct (ExAllocatePoolWithTag sizeof_ec (bt_World t)) as [b w]. simpl in Hw. subst b. simpl negb. cbv iota.
  unfold UacpiNtEcReadPorts. rewrite Hres.
  assert (take_ports l [] = [d; c]) as Htp by (rewrite take_ports_first; [exact Hp|simpl; lia]).
  rewrite Htp. change (uacpi_unlikely_error UACPI_STATUS_OK) with false. cbv beta iota zeta. unfold UacpiNtEcReadGlk.
  pose proof (eval_simple_history Node "_GLK" (bt_Acpi (bt_set_World w t))) as Hh.
  unfold glk_says. change (bt_Acpi (bt_set_World w t)) with (bt_Acpi t) in *.
  destruct (uacpi_eval_simple_integer Node "_GLK" (bt_Acpi t)) as [Glk h]. simpl in Hh. subst h. cbv beta iota zeta. rewrite read_gpe_exact. cbv beta iota zeta.
  set (g := gpe_says Node _). set (Ec := match g with Some _ => _ | None => _ end).
  assert (ec_Node Ec = Node) as HEn by (by unfold Ec; destruct g, (negb _)).
  unfold install_or_free, UacpiNtEcInstall. rewrite HEn. cbn [bt_set_Acpi bt_set_World bt_Regions bt_Port].
  destruct (uacpi_install_address_space_handler _ _ _) as [st hw]. simpl in Hi. subst st. simpl uacpi_unlikely_error. cbv iota.
  eexists. split; [done|]. cbv zeta.
  assert (ec_set_Region Ec = mkEc Node NULL d c NULL (default 0 g) true false (negb (default 0 Glk =? 0))
    no_queries no_queries) as HE.
  { unfold Ec. destruct g as [g'|]; destruct (negb _); reflexivity. }
  rewrite HE. fold g. destruct g as [g'|]; [|done]. unfold UacpiNtEcConnectGpe. destruct (uacpi_unlikely_error _); done.
Qed.

(** A block from the table is not one that asks for the global lock, whatever _GLK
    says: only UacpiNtEcBringUpNode reads it, and it finds the block there. *)
Lemma ecdt_block_never_locks t0 t pdos i e s : nothing_yet t0 -> boot_run t0 t pdos ->
  bt_Ecs t !! i = Some e -> ec_FromEcdt e = true -> UacpiNtEcLockGlobal e s = (true, 0, s).
Proof.
  intros H0 Hr He HF. destruct (boot_run_sound _ _ _ H0 Hr) as [ [_ _ Hb _ _] _].
  destruct (Forall_lookup_1 _ _ _ _ Hb He) as (_ & HG & _). unfold UacpiNtEcLockGlobal. by rewrite HG.
Qed.

(** C26.  From the start of the driver on, whatever the table and the namespace
    say, whichever calls fail, and whichever devices start, go and register: no
    two blocks are for one node, each has its region handler installed once and
    its place in the list for good, an enabled GPE is the one of its block and
    enabled for it once, the pool holds one allocation per block, and a PDO that
    has a block has the one of its node. *)
Theorem ec_one_block_per_node t0 t pdos : nothing_yet t0 -> boot_run t0 t pdos ->
  NoDup (map ec_Node (bt_Ecs t)) /\ bt_Regions t = map ec_Node (bt_Ecs t) /\
  Forall (fun e => ec_RegionInstalled e = true /\ has_tables e) (bt_Ecs t) /\
  NoDup (map snd (bt_Gpes t)) /\
  Forall (fun g => exists e, bt_Ecs t !! g.2 = Some e /\ ec_GpeDevice e = g.1.1 /\ ec_GpeLine e = g.1.2) (bt_Gpes t) /\
  w_live (bt_World t) = w_live (bt_World t0) + Z.of_nat (length (bt_Ecs t)) /\
  Forall (fun p => forall i, pd_Ec p = Some i -> exists e, bt_Ecs t !! i = Some e /\ ec_Node e = pd_Node p) pdos.
Proof.
  intros H0 Hr. destruct (boot_run_sound _ _ _ H0 Hr) as [ [Hd Hreg Hb [Hg1 Hg2] Hp] Hl]. split_and!; try done.
  - eapply Forall_impl; [exact Hb|]. by intros e (? & _ & ?).
  - eapply Forall_impl; [exact Hl|]. intros p Hpl i Hi. unfold pdo_linked in Hpl. by rewrite Hi in Hpl.
Qed.

(** Bringing up the controller of a node that has none: with a template
    that has two ports, a block and a handler, its data port is the first and its
    command port the second one, it asks for the global lock exactly when _GLK
    says so, its GPE is the one of _GPE, and without one no event is fetched. *)
Theorem ec_bring_up_exact Node t l d c : UacpiNtEcFindByNode Node t = None ->
  uacpi_get_current_resources Node = (UACPI_STATUS_OK, Some l) -> take 2 (io_ports l) = [d; c] ->
  (ExAllocatePoolWithTag sizeof_ec (bt_World t)).1 = true ->
  (uacpi_install_address_space_handler (bt_Regions t) Node (ps_Hw (bt_Port t))).1 = UACPI_STATUS_OK ->
  exists t', UacpiNtEcBringUpNode Node t = (Some (length (bt_Ecs t)), t') /\
    let h := CallEval Node "_GLK" [] :: bt_Acpi t in
    bt_Ecs t' = bt_Ecs t ++
      [mkEc Node NULL d c NULL (default 0 (gpe_says Node h)) true false (glk_says Node (bt_Acpi t))
         no_queries no_queries] /\
    bt_Regions t' = bt_Regions t ++ [Node] /\
    (gpe_says Node h = None -> bt_Gpes t' = bt_Gpes t /\ bt_Log t' = bt_Log t).
Proof. apply bring_up_new. Qed.
End Exact.

(** ** Examples *)

(** A controller at node 5 that asks for the global lock, with or without a table
    that describes it. *)
Definition boot_acpi : Acpi :=
  scripted_acpi [(5, "_GPE", UACPI_OBJECT_PACKAGE [UACPI_OBJECT_INTEGER 0; UACPI_OBJECT_INTEGER 0x17]); (5, "_GLK", UACPI_OBJECT_INTEGER 1)] [] [].
Definition boot_resources : list uacpi_resource :=
  [UACPI_RESOURCE_TYPE_OTHER; UACPI_RESOURCE_TYPE_IO (mkSpan 0x62 0x62 0 1); UACPI_RESOURCE_TYPE_FIXED_IO (mkFixedSpan 0x66 1)].
Definition boot_env (table : option acpi_ecdt) : AcpiEc (ref_ports 3) :=
  @Build_AcpiEc (ref_ports 3)
    (fun n => (UACPI_STATUS_OK, Some boot_resources)) (fun _ _ h => (UACPI_STATUS_OK, h)) (fun _ _ => UACPI_STATUS_OK)
    (fun n => n =? 5) (match table with Some t => (UACPI_STATUS_OK, Some t) | None => (UACPI_STATUS_NOT_FOUND, None) end)
    (fun _ => (UACPI_STATUS_OK, 5)) [1; 5; 9].

Definition boot_world : world := mkWorld (fun _ => 0) (fun _ _ => true) 0 0 0.
Definition boot_begin : ec_boot (P := ref_ports 3) := mkBoot [] example_port [] [] boot_world [] [].
Definition boot_pdo : ec_pdo := mkEcPdo 77 5 None.

Definition boot_booted := UacpiNtEcInitialize (A := boot_acpi) (B := boot_env None) boot_begin.
Definition boot_started := UacpiNtEcStart (A := boot_acpi) (B := boot_env None) boot_pdo boot_booted.

Theorem ec_one_block_per_node_witness :
  map ec_Node (bt_Ecs boot_started.2) = [5] /\ NoDup (map ec_Node (bt_Ecs boot_started.2)) /\
  w_live (bt_World boot_started.2) = 1 /\ pd_Ec boot_started.1 = Some 0%nat.
Proof.
  destruct (ec_one_block_per_node (A := boot_acpi) (B := boot_env None) boot_begin boot_started.2 [boot_started.1])
    as (Hd & _ & _ & _ & _ & Hp & _).
  - repeat split.
  - apply (run_start_device (A := boot_acpi) (B := boot_env None) boot_begin boot_booted [boot_pdo] 0 boot_pdo).
    + apply run_initialize. repeat constructor.
    + reflexivity.
    + apply surjective_pairing.
  - split; [vm_compute; reflexivity|]. split; [exact Hd|]. split; [rewrite Hp; vm_compute; reflexivity|vm_compute; reflexivity].
Defined.

Theorem ec_bring_up_exact_witness :
  exists t', UacpiNtEcBringUpNode (A := boot_acpi) (B := boot_env None) 5 boot_begin = (Some 0%nat, t') /\
    bt_Ecs t' = [mkEc 5 NULL 0x62 0x66 NULL 0x17 true false true no_queries no_queries].
Proof.
  destruct (ec_bring_up_exact (A := boot_acpi) (B := boot_env None) 5 boot_begin boot_resources 0x62 0x66)
    as (t' & H & He & _); [vm_compute; reflexivity..|].
  exists t'. split; [exact H|]. rewrite He. vm_compute. reflexivity.
Defined.

(** The same machine with a table: _GLK is not read, and after its device has
    started no transfer takes the lock. *)
Definition boot_table : acpi_ecdt := mkEcdt 0x66 0x62 0x17 "_SB.EC0".
Definition table_booted := UacpiNtEcInitialize (A := boot_acpi) (B := boot_env (Some boot_table)) boot_begin.
Definition table_started := UacpiNtEcStart (A := boot_acpi) (B := boot_env (Some boot_table)) boot_pdo table_booted.

Lemma ecdt_ignores_glk :
  glk_says (A := boot_acpi) 5 [] = true /\ pd_Ec table_started.1 = Some 0%nat /\
  option_map ec_GlobalLock (head (bt_Ecs table_started.2)) = Some false /\ bt_Acpi table_started.2 = [].
Proof. vm_compute. repeat split. Qed.
