(* ===== verification/IrpQueue.v ===== *)
(** Cancel-safe queues of IRPs, as drivers/button.c and drivers/thermal.c keep them:
    an IRP that waits stands in a list under a spin lock, and whoever takes its
    cancel routine away will complete it.

    What a thread has to do with an IRP is its role.  [queue_ok] relates the roles
    of all threads to the queue; each lemma of the second half is one thing a thread
    does.  A client shows which roles its threads have and uses the lemmas. *)
From stdpp Require Import base list numbers option.
From Stdlib Require Import ZArith Lia Permutation.
From S2P Require Import Prelude.

(** ** IRPs and the list *)

(** [li_SelfLinked]: the list entry points to itself; a completion has the status,
    the information and what was written to the buffer. *)
Record listed_irp {Req Out : Type} := mkListed {
  li_Request : Req;
  li_Cancel : bool;
  li_CancelRoutine : bool;
  li_SelfLinked : bool;
  li_Completions : list (NTSTATUS * Z * option Out)
}.
Arguments listed_irp : clear implicits.
Arguments mkListed {Req Out}.

(** [iq_List] names the IRPs of the list by their place in [iq_Irps], all the IRPs
    that ever came.  [iq_Broken]: an entry was removed that was in no list. *)
Record irp_queue {Req Out : Type} := mkQueue {
  iq_Irps : list (listed_irp Req Out);
  iq_List : list nat;
  iq_Broken : bool
}.
Arguments irp_queue : clear implicits.
Arguments mkQueue {Req Out}.

Section Queue.
Context {Req Out : Type}.

Implicit Types (i : listed_irp Req Out) (q : irp_queue Req Out).

Definition li_set_Cancel i : listed_irp Req Out :=
  mkListed (li_Request i) true (li_CancelRoutine i) (li_SelfLinked i) (li_Completions i).
Definition li_set_Routine (b : bool) i : listed_irp Req Out :=
  mkListed (li_Request i) (li_Cancel i) b (li_SelfLinked i) (li_Completions i).
Definition li_set_SelfLinked i : listed_irp Req Out :=
  mkListed (li_Request i) (li_Cancel i) (li_CancelRoutine i) true (li_Completions i).
Definition li_add_Completion (c : NTSTATUS * Z * option Out) i : listed_irp Req Out :=
  mkListed (li_Request i) (li_Cancel i) (li_CancelRoutine i) (li_SelfLinked i) (c :: li_Completions i).

Definition iq_alter (f : listed_irp Req Out -> listed_irp Req Out) (id : nat) q : irp_queue Req Out :=
  mkQueue (alter f id (iq_Irps q)) (iq_List q) (iq_Broken q).
Definition iq_set_List (l : list nat) q : irp_queue Req Out := mkQueue (iq_Irps q) l (iq_Broken q).

Definition no_irps : irp_queue Req Out := mkQueue [] [] false.
Definition iq_arrive (r : Req) q : irp_queue Req Out :=
  mkQueue (iq_Irps q ++ [mkListed r false false false []]) (iq_List q) (iq_Broken q).

Definition routine_set (id : nat) q : bool :=
  match iq_Irps q !! id with Some i => li_CancelRoutine i | None => false end.
Definition cancelled (id : nat) q : bool :=
  match iq_Irps q !! id with Some i => li_Cancel i | None => false end.

(** IoSetCancelRoutine(Irp, Routine) and (Irp, NULL); the flag is "the routine was
    not NULL". *)
Definition set_routine (id : nat) q : irp_queue Req Out := iq_alter (li_set_Routine true) id q.
Definition take_routine (id : nat) q : bool * irp_queue Req Out :=
  (routine_set id q, iq_alter (li_set_Routine false) id q).

Fixpoint unlink_first (id : nat) (l : list nat) : list nat :=
  match l with
  | [] => []
  | x :: l => if (x =? id)%nat then l else x :: unlink_first id l
  end.

(** RemoveEntryList. *)
Definition unlink (id : nat) q : irp_queue Req Out :=
  if existsb (Nat.eqb id) (iq_List q) then iq_set_List (unlink_first id (iq_List q)) q
  else match iq_Irps q !! id with
       | Some i => if li_SelfLinked i then q else mkQueue (iq_Irps q) (iq_List q) true
       | None => mkQueue (iq_Irps q) (iq_List q) true
       end.

(** InsertTailList. *)
Definition link_tail (id : nat) q : irp_queue Req Out := iq_set_List (iq_List q ++ [id]) q.

(** [Irp->Cancel && IoSetCancelRoutine(Irp, NULL)], then the insertion unless both
    hold; the flag is "inserted". *)
Definition insert_unless_cancelled (id : nat) q : bool * irp_queue Req Out :=
  if cancelled id q && routine_set id q then (false, (take_routine id q).2) else (true, link_tail id q).

(** UacpiNtCompleteIrp. *)
Definition complete_irp (id : nat) (Status : NTSTATUS) (Information : Z) (o : option Out) q : irp_queue Req Out :=
  iq_alter (li_add_Completion (Status, Information, o)) id q.

(** ** Roles *)

(** A thread has a new IRP, has set its cancel routine under the lock, is about to
    take the routine for the I/O manager, runs the routine, or will complete it. *)
Inductive role :=
| Entering (id : nat)
| Deciding (id : nat)
| IoCancelling (id : nat)
| Cancelling (id : nat)
| Holding (id : nat).

Definition one (a b : nat) : nat := if (a =? b)%nat then 1 else 0.
Definition occurs (id : nat) (l : list nat) : nat := list_weight (one id) l.

(** The roles of a thread that answers for the IRP. *)
Definition answering (id : nat) (r : role) : nat :=
  match r with Entering k | Cancelling k | Holding k => one id k | _ => 0 end.
Definition deciding (id : nat) (r : role) : nat := match r with Deciding k => one id k | _ => 0 end.
Definition cancelling (id : nat) (r : role) : nat := match r with Cancelling k => one id k | _ => 0 end.
Definition io_cancelling (id : nat) (r : role) : nat := match r with IoCancelling k => one id k | _ => 0 end.
Definition on_the_way (id : nat) (r : role) : nat := match r with Entering k | Deciding k => one id k | _ => 0 end.
Definition any_deciding (r : role) : nat := match r with Deciding _ => 1 | _ => 0 end.

Definition at_irp (f : listed_irp Req Out -> nat) (id : nat) q : nat :=
  match iq_Irps q !! id with Some i => f i | None => 0 end.

(** The requests that get a cancel routine when they are queued. *)
Context (cancellable : Req -> bool).

(** The IRP waits: it has its cancel routine, or needs none and is in the list. *)
Definition waiting (n : nat) i : nat :=
  Nat.b2n (li_CancelRoutine i) + if cancellable (li_Request i) then 0 else n.

Definition plain i : nat := if cancellable (li_Request i) then 0 else 1.

Definition waits_listed (id : nat) q : nat := at_irp (waiting (occurs id (iq_List q))) id q.
Definition completed (id : nat) q : nat := at_irp (fun i => length (li_Completions i)) id q.
Definition known (id : nat) q : nat := at_irp (fun _ => 1%nat) id q.

Record queue_ok (locked : bool) (rs : list role) q : Prop := {
  qo_answered : forall id, (list_weight (answering id) rs + waits_listed id q + completed id q = known id q)%nat;
  qo_path : forall id, (list_weight (on_the_way id) rs + occurs id (iq_List q) <= known id q)%nat;
  qo_listed : forall id, (at_irp (fun i => Nat.b2n (li_CancelRoutine i)) id q
     <= list_weight (deciding id) rs + occurs id (iq_List q))%nat;
  qo_linked : forall id,
    (at_irp (fun i => Nat.b2n (li_CancelRoutine i)) id q + list_weight (cancelling id) rs
     <= list_weight (deciding id) rs + occurs id (iq_List q)
        + at_irp (fun i => Nat.b2n (li_SelfLinked i)) id q)%nat;
  qo_cancel : forall id,
    (at_irp (fun i => Nat.b2n (li_Cancel i && li_CancelRoutine i)) id q
     <= list_weight (io_cancelling id) rs + list_weight (deciding id) rs)%nat;
  qo_deciding : forall id, (list_weight (deciding id) rs + at_irp plain id q <= 1)%nat;
  qo_locked : list_weight any_deciding rs = Nat.b2n locked;
  qo_intact : iq_Broken q = false
}.

Lemma queue_ok_perm locked rs rs' q : rs ≡ₚ rs' -> queue_ok locked rs q -> queue_ok locked rs' q.
Proof.
  intros Hp [Ha Hpa Hli Hl Hc Hd Hk Hi].
  split; try done; intros; rewrite <- ?(weight_perm _ _ _ Hp); done.
Qed.

Lemma queue_ok_start : queue_ok false [] no_irps.
Proof. split; try done; intros id; unfold at_irp, waits_listed, completed, known, no_irps; simpl; lia. Qed.

(** ** Counting *)

Lemma one_eq a : one a a = 1%nat.
Proof. unfold one. by rewrite Nat.eqb_refl. Qed.
Lemma one_ne a b : a <> b -> one a b = 0%nat.
Proof. unfold one. intros. by rewrite (proj2 (Nat.eqb_neq a b)). Qed.

Lemma occurs_app id l k : occurs id (l ++ k) = (occurs id l + occurs id k)%nat.
Proof. apply weight_app. Qed.
Lemma occurs_one id k : occurs id [k] = one id k.
Proof. unfold occurs, list_weight. simpl. lia. Qed.

Lemma existsb_occurs id l : existsb (Nat.eqb id) l = true <-> (0 < occurs id l)%nat.
Proof.
  unfold occurs. induction l as [|x l IH]; [by simpl; split; [|unfold list_weight; simpl; lia]|].
  rewrite weight_cons. simpl. unfold one at 1. destruct (id =? x)%nat; simpl; [split; [lia|done]|]. rewrite IH. lia.
Qed.

Lemma occurs_unlink id k l : (0 < occurs id l)%nat -> (occurs k (unlink_first id l) + one k id = occurs k l)%nat.
Proof.
  unfold occurs. induction l as [|x l IH]; [unfold list_weight; simpl; lia|]. rewrite !weight_cons. simpl.
  intros H. destruct (x =? id)%nat eqn:E; nat_prop; subst; [lia|].
  rewrite weight_cons. rewrite one_ne in H by done. specialize (IH H). lia.
Qed.

Lemma at_irp_some f id q i : iq_Irps q !! id = Some i -> at_irp f id q = f i.
Proof. unfold at_irp. by intros ->. Qed.
Lemma at_irp_alter_eq f g id q i : iq_Irps q !! id = Some i -> at_irp f id (iq_alter g id q) = f (g i).
Proof. intros H. unfold at_irp. simpl. by rewrite list_lookup_alter_eq, H. Qed.
Lemma at_irp_alter_ne f g id k q : k <> id -> at_irp f k (iq_alter g id q) = at_irp f k q.
Proof. intros H. unfold at_irp. simpl. by rewrite list_lookup_alter_ne. Qed.

Lemma known_some id q : (0 < known id q)%nat <-> exists i, iq_Irps q !! id = Some i.
Proof. unfold known, at_irp. destruct (iq_Irps q !! id); split; [eauto|lia|lia|by intros []]. Qed.

Lemma known_le id q : (known id q <= 1)%nat.
Proof. unfold known, at_irp. destruct (iq_Irps q !! id); lia. Qed.

(** ** What a thread does *)

Lemma deciding_any id rs : (list_weight (deciding id) rs <= list_weight any_deciding rs)%nat.
Proof.
  induction rs as [|r rs IH]; [done|]. rewrite !weight_cons.
  destruct r; simpl; [lia| |lia..]. unfold one. destruct (_ =? _)%nat; lia.
Qed.

Lemma cancelling_answers id rs : (list_weight (cancelling id) rs <= list_weight (answering id) rs)%nat.
Proof. induction rs as [|r rs IH]; [done|]. rewrite !weight_cons. destruct r; simpl; lia. Qed.

Lemma deciding_way id rs : (list_weight (deciding id) rs <= list_weight (on_the_way id) rs)%nat.
Proof. induction rs as [|r rs IH]; [done|]. rewrite !weight_cons. destruct r; simpl; lia. Qed.

Lemma answering_known locked id rs q : queue_ok locked rs q -> (0 < list_weight (answering id) rs)%nat ->
  exists i, iq_Irps q !! id = Some i.
Proof. intros H Hp. apply known_some. pose proof (qo_answered _ _ _ H id). lia. Qed.

Lemma path_known locked id rs q : queue_ok locked rs q ->
  (0 < list_weight (on_the_way id) rs + occurs id (iq_List q))%nat -> exists i, iq_Irps q !! id = Some i.
Proof. intros H Hp. apply known_some. pose proof (qo_path _ _ _ H id). lia. Qed.
End Queue.

(** The counts of IRP [id] and of any other, after the equations of the queue. *)
Lemma list_alter_irp {Req Out} f id (q : irp_queue Req Out) : iq_List (iq_alter f id q) = iq_List q.
Proof. done. Qed.
Lemma at_irp_list {Req Out} f id l (q : irp_queue Req Out) : at_irp f id (iq_set_List l q) = at_irp f id q.
Proof. done. Qed.
Lemma list_set_list {Req Out} l (q : irp_queue Req Out) : iq_List (iq_set_List l q) = l.
Proof. done. Qed.

Lemma alter_set_list {Req Out} f id l (q : irp_queue Req Out) :
  iq_alter f id (iq_set_List l q) = iq_set_List l (iq_alter f id q).
Proof. done. Qed.

Ltac count_roles :=
  rewrite ?weight_cons in *;
  repeat match goal with
  | |- context [?f (Entering ?j)] => progress simpl (f (Entering j)) in *
  end; simpl answering in *; simpl deciding in *; simpl cancelling in *;
  simpl io_cancelling in *; simpl on_the_way in *; simpl any_deciding in *.

Ltac at_any_irp k :=
  repeat match goal with H : forall _ : nat, (_ <= _)%nat |- _ => specialize (H k) end;
  repeat match goal with H : forall _ : nat, _ = _ |- _ => specialize (H k) end.

Ltac irp_cases k id Hi :=
  unfold waits_listed, completed, known in *;
  rewrite ?alter_set_list, ?list_alter_irp, ?list_set_list, ?at_irp_list, ?occurs_app, ?occurs_one in *;
  destruct (decide (k = id)) as [->|];
  [ rewrite ?one_eq in *; rewrite ?(at_irp_alter_eq _ _ _ _ _ Hi); rewrite ?(at_irp_some _ _ _ _ Hi) in *
  | rewrite ?(one_ne id k) in * by congruence; rewrite ?(one_ne k id) in * by congruence;
    rewrite ?at_irp_alter_ne, ?Nat.add_0_r in * by done;
    try match goal with H : occurs k (unlink_first _ _) = _ |- _ => rewrite ?H in * end ].

Lemma unlink_listed {Req Out} id (q : irp_queue Req Out) : (0 < occurs id (iq_List q))%nat ->
  unlink id q = iq_set_List (unlink_first id (iq_List q)) q.
Proof. intros H. unfold unlink. by rewrite (proj2 (existsb_occurs _ _) H). Qed.

Lemma unlink_shorter {Req Out} id (q : irp_queue Req Out) : (length (iq_List (unlink id q)) <= length (iq_List q))%nat.
Proof.
  unfold unlink. destruct (existsb _ _); simpl.
  - induction (iq_List q) as [|x l IH]; simpl; [done|]. destruct (x =? id)%nat; simpl; lia.
  - destruct (iq_Irps q !! id) as [i|]; [by destruct (li_SelfLinked i)|done].
Qed.

(** Closes the counts of one IRP. *)
Ltac irp_count :=
  unfold waiting, plain in *; simpl in *;
  repeat match goal with
  | i : listed_irp _ _ |- _ => destruct i; simpl in *
  | H : context [if ?b then _ else _] |- _ => destruct b; simpl in *
  | |- context [if ?b then _ else _] => destruct b; simpl in *
  | b : bool |- _ => destruct b; simpl in *
  end; try congruence; lia.

Ltac irp_move id Hi :=
  match goal with
  | H : queue_ok _ _ ?rs _ |- queue_ok _ _ _ _ => destruct H; split; try done
  end;
  first
  [ let k := fresh "k" in
    intros k; at_any_irp k;
    match goal with rs : list role |- _ =>
      pose proof (cancelling_answers k rs); pose proof (deciding_way k rs); pose proof (deciding_any k rs)
    end;
    count_roles; irp_cases k id Hi; [irp_count|lia]
  | count_roles; simpl in *; lia
  | idtac ].

Section Moves.
Context {Req Out : Type} (cancellable : Req -> bool).
Implicit Types (q : irp_queue Req Out) (rs : list role).
Local Notation ok := (queue_ok cancellable).

Ltac known_irp H id i Hi :=
  destruct (answering_known _ _ id _ _ H) as [i Hi]; [rewrite weight_cons; simpl; rewrite one_eq; lia|].

Lemma ok_complete locked id rs q st n o : ok locked (Holding id :: rs) q -> ok locked rs (complete_irp id st n o q).
Proof. intros H. known_irp H id i Hi. unfold complete_irp. irp_move id Hi. Qed.

(** A thread keeps the IRP to complete it. *)
Lemma ok_hold locked id rs q : ok locked (Entering id :: rs) q -> ok locked (Holding id :: rs) q.
Proof. intros H. known_irp H id i Hi. irp_move id Hi. Qed.

Lemma ok_set_routine id rs q i : ok false (Entering id :: rs) q -> iq_Irps q !! id = Some i ->
  cancellable (li_Request i) = true -> ok true (Deciding id :: rs) (set_routine id q).
Proof. intros H Hi Hc. unfold set_routine. irp_move id Hi. Qed.

Lemma ok_decide_refuse id rs q : ok true (Deciding id :: rs) q -> routine_set id q = true ->
  ok false (Holding id :: rs) (take_routine id q).2.
Proof.
  unfold routine_set. intros H Hr. destruct (iq_Irps q !! id) as [i|] eqn:Hi; [|done]. simpl. irp_move id Hi.
Qed.

Lemma ok_decide_insert id rs q : ok true (Deciding id :: rs) q -> cancelled id q && routine_set id q = false ->
  ok false rs (link_tail id q).
Proof.
  unfold routine_set, cancelled. intros H Hr.
  destruct (path_known _ _ id _ _ H) as [i Hi]; [rewrite weight_cons; simpl; rewrite one_eq; lia|].
  rewrite Hi in Hr. unfold link_tail. irp_move id Hi.
Qed.

(** An IRP that needs no cancel routine. *)
Lemma ok_insert_plain id rs q i : ok false (Entering id :: rs) q -> iq_Irps q !! id = Some i ->
  cancellable (li_Request i) = false -> ok false rs (link_tail id q).
Proof. intros H Hi Hc. unfold link_tail. irp_move id Hi. Qed.

Lemma ok_io_cancel locked id rs q i : ok locked rs q -> iq_Irps q !! id = Some i ->
  ok locked (IoCancelling id :: rs) (iq_alter li_set_Cancel id q).
Proof. intros H Hi. irp_move id Hi. Qed.

Lemma ok_io_gone locked id rs q : ok locked (IoCancelling id :: rs) q -> routine_set id q = false -> ok locked rs q.
Proof.
  unfold routine_set. intros H Hr. destruct (iq_Irps q !! id) as [i|] eqn:Hi; [irp_move id Hi|].
  destruct H; split; try done; intros k; at_any_irp k; count_roles; try lia.
  unfold at_irp in *. destruct (decide (k = id)) as [->|]; [by rewrite Hi in *; lia|]. rewrite one_ne in * by congruence. lia.
Qed.

Lemma alter_same_irp f id q : (forall i, iq_Irps q !! id = Some i -> f i = i) -> iq_alter f id q = q.
Proof.
  intros H. destruct q as [irps l b]. unfold iq_alter. simpl in *. f_equal.
  apply list_eq. intros k. destruct (decide (k = id)) as [->|].
  - rewrite list_lookup_alter_eq. destruct (irps !! id) eqn:E; simpl; [by rewrite H|done].
  - by rewrite list_lookup_alter_ne.
Qed.

(** A routine that was not set stays so. *)
Lemma take_routine_false id q : routine_set id q = false -> take_routine id q = (false, q).
Proof.
  intros H. unfold take_routine. rewrite H. f_equal. apply alter_same_irp. intros i Hi.
  unfold routine_set in H. rewrite Hi in H. by destruct i; simpl in *; subst.
Qed.

Lemma ok_io_takes locked id rs q : ok locked (IoCancelling id :: rs) q ->
  ok locked ((if routine_set id q then [Cancelling id] else []) ++ rs) (take_routine id q).2.
Proof.
  intros H. destruct (routine_set id q) eqn:Hr.
  - unfold routine_set in Hr. destruct (iq_Irps q !! id) as [i|] eqn:Hi; [|done]. simpl. irp_move id Hi.
  - rewrite take_routine_false by done. simpl. by eapply ok_io_gone.
Qed.

(** The cancel routine finds the entry in the list, or linked to itself. *)
Lemma ok_unlink id rs q : ok false (Cancelling id :: rs) q -> ok false (Holding id :: rs) (unlink id q).
Proof.
  intros H. known_irp H id i Hi. destruct (decide (0 < occurs id (iq_List q))%nat) as [Ho|Ho].
  - rewrite unlink_listed by done. pose proof (fun k => occurs_unlink id k _ Ho) as Hu. irp_move id Hi.
  - assert (unlink id q = q) as ->; [|irp_move id Hi].
    unfold unlink. destruct (existsb _ _) eqn:E; [by apply existsb_occurs in E|]. rewrite Hi.
    pose proof (qo_linked _ _ _ _ H id) as Hl. pose proof (qo_locked _ _ _ _ H) as Hk.
    pose proof (deciding_any id rs). rewrite (at_irp_some _ _ _ _ Hi) in Hl. rewrite (at_irp_some _ _ _ _ Hi) in Hl.
    count_roles. rewrite one_eq in Hl. simpl in *. destruct (li_SelfLinked i); [done|]. simpl in Hl. lia.
Qed.

Lemma routine_some id q : routine_set id q = true -> exists i, iq_Irps q !! id = Some i /\ li_CancelRoutine i = true.
Proof. unfold routine_set. destruct (iq_Irps q !! id); eauto. done. Qed.

(** A thread takes an IRP off the list: its routine was still set, or it has none. *)
Lemma ok_claim locked id rs q : ok locked rs q -> (0 < occurs id (iq_List q))%nat -> routine_set id q = true ->
  ok locked (Holding id :: rs) (unlink id (take_routine id q).2).
Proof.
  intros H Ho (i & Hi & Hr)%routine_some. rewrite unlink_listed by done. simpl.
  pose proof (fun k => occurs_unlink id k _ Ho) as Hu. irp_move id Hi.
Qed.

Lemma ok_claim_plain locked id rs q i : ok locked rs q -> (0 < occurs id (iq_List q))%nat ->
  iq_Irps q !! id = Some i -> cancellable (li_Request i) = false -> ok locked (Holding id :: rs) (unlink id q).
Proof.
  intros H Ho Hi Hc. rewrite unlink_listed by done. pose proof (fun k => occurs_unlink id k _ Ho) as Hu. irp_move id Hi.
Qed.

(** The entry of an IRP whose cancel routine runs is made to point to itself. *)
Lemma ok_self_link locked id rs q i : ok locked rs q -> (0 < occurs id (iq_List q))%nat ->
  iq_Irps q !! id = Some i -> cancellable (li_Request i) = true -> routine_set id q = false ->
  ok locked rs (iq_alter li_set_SelfLinked id (unlink id q)).
Proof.
  intros H Ho Hi Hc Hr. rewrite unlink_listed by done. pose proof (fun k => occurs_unlink id k _ Ho) as Hu.
  unfold routine_set in Hr. rewrite Hi in Hr. irp_move id Hi.
Qed.

Lemma at_irp_arrive f k r q : at_irp f k (iq_arrive r q) =
  if decide (k = length (iq_Irps q)) then f (mkListed r false false false []) else at_irp f k q.
Proof.
  unfold at_irp, iq_arrive. simpl. case_decide as Hk; [subst; by rewrite list_lookup_middle|].
  destruct (decide (k < length (iq_Irps q))%nat); [by rewrite lookup_app_l|].
  rewrite lookup_ge_None_2, (lookup_ge_None_2 (iq_Irps q)); [done|lia|rewrite length_app; simpl; lia].
Qed.

Lemma at_irp_fresh f q : at_irp f (length (iq_Irps q)) q = 0%nat.
Proof. unfold at_irp. by rewrite lookup_ge_None_2. Qed.

Lemma ok_arrive locked r rs q : ok locked rs q -> ok locked (Entering (length (iq_Irps q)) :: rs) (iq_arrive r q).
Proof.
  intros []. split; try done.
  all: intros k; at_any_irp k; pose proof (deciding_way k rs); count_roles;
    unfold waits_listed, completed, known in *; rewrite ?at_irp_arrive;
    change (iq_List (iq_arrive r q)) with (iq_List q).
  all: case_decide; [subst; rewrite ?one_eq, ?at_irp_fresh in *|rewrite ?(one_ne k) by congruence; lia].
  all: unfold waiting, plain; simpl; try destruct (cancellable r); simpl; lia.
Qed.
Lemma ok_decide id rs q inserted q' : ok true (Deciding id :: rs) q -> insert_unless_cancelled id q = (inserted, q') ->
  ok false ((if inserted then [] else [Holding id]) ++ rs) q'.
Proof.
  unfold insert_unless_cancelled. intros H E. destruct (cancelled id q && routine_set id q) eqn:Hc; simplify_eq.
  - apply andb_prop in Hc as [_ Hr]. by apply ok_decide_refuse.
  - by apply ok_decide_insert.
Qed.

(** ** What the books say *)

Lemma ok_at_most_once locked rs q id i : ok locked rs q -> iq_Irps q !! id = Some i ->
  (length (li_Completions i) <= 1)%nat.
Proof.
  intros H Hi. pose proof (qo_answered _ _ _ _ H id) as Ha. unfold completed, known in Ha.
  rewrite !(at_irp_some _ _ _ _ Hi) in Ha. lia.
Qed.

(** No thread is left: an IRP was completed, or waits in the list where it can be
    cancelled, and nobody has cancelled it. *)
Lemma ok_rest q id i : ok false [] q -> iq_Irps q !! id = Some i ->
  length (li_Completions i) = 1%nat \/
  li_Completions i = [] /\ In id (iq_List q) /\
    (cancellable (li_Request i) = true -> li_CancelRoutine i = true /\ li_Cancel i = false).
Proof.
  intros [Ha Hp Hli _ Hc _ _ _] Hi. specialize (Ha id); specialize (Hp id); specialize (Hli id); specialize (Hc id).
  unfold waits_listed, completed, known in *. rewrite !(at_irp_some _ _ _ _ Hi) in *.
  unfold list_weight, waiting in *. simpl in *.
  destruct (li_Completions i) as [|c l] eqn:Ec; [right|left; simpl in *; lia]. split; [done|].
  assert (0 < occurs id (iq_List q) \/ occurs id (iq_List q) = 0)%nat as [Ho|Ho] by lia.
  - split; [apply existsb_occurs, existsb_exists in Ho as (x & Hx & ->%Nat.eqb_eq); done|].
    intros Hcc. rewrite Hcc in Ha. destruct (li_CancelRoutine i), (li_Cancel i); simpl in *; try done; lia.
  - rewrite Ho in *. destruct (cancellable (li_Request i)), (li_CancelRoutine i); simpl in *; lia.
Qed.

(** ** The completions *)

Definition iq_books q : list (list (NTSTATUS * Z * option Out)) := map li_Completions (iq_Irps q).

Lemma books_alter f id q : (forall i, li_Completions (f i) = li_Completions i) -> iq_books (iq_alter f id q) = iq_books q.
Proof.
  intros Hf. unfold iq_books, iq_alter. simpl. generalize (iq_Irps q). intros l. revert id.
  induction l as [|x l IH]; intros [|id]; try done; simpl; f_equal; [by rewrite Hf|apply IH].
Qed.

Lemma books_unlink id q : iq_books (unlink id q) = iq_books q.
Proof. unfold unlink. destruct (existsb _ _); [done|]. destruct (iq_Irps q !! id) as [i|]; [by destruct (li_SelfLinked i)|done]. Qed.

Lemma books_decide id q : iq_books (insert_unless_cancelled id q).2 = iq_books q.
Proof. unfold insert_unless_cancelled. destruct (_ && _); [by apply books_alter|done]. Qed.

Lemma books_arrive r q : iq_books (iq_arrive r q) = iq_books q ++ [ [] ].
Proof. unfold iq_books. simpl. by rewrite map_app. Qed.

Lemma books_complete id st n o q : iq_books (complete_irp id st n o q) = alter (cons (st, n, o)) id (iq_books q).
Proof.
  unfold iq_books, complete_irp, iq_alter. simpl. generalize (iq_Irps q). intros l. revert id.
  induction l as [|x l IH]; intros [|id]; try done. simpl. f_equal. apply IH.
Qed.

(** An IRP that somebody answers for has no completion yet. *)
Lemma ok_uncompleted locked id rs q : ok locked rs q -> (0 < list_weight (answering id) rs)%nat -> iq_books q !! id = Some [].
Proof.
  intros H Hp. destruct (answering_known _ _ _ _ _ H Hp) as [i Hi]. pose proof (qo_answered _ _ _ _ H id) as Ha.
  unfold completed, known in Ha. rewrite !(at_irp_some _ _ _ _ Hi) in Ha.
  unfold iq_books. rewrite list_lookup_fmap, Hi. simpl. f_equal. destruct (li_Completions i); [done|simpl in Ha; lia].
Qed.
End Moves.

#[export] Hint Rewrite @books_unlink @books_decide @books_arrive @books_complete : irp_books.
