(* ===== verification/Button.v ===== *)
(** Buttons and the lid: drivers/button.c.

    First the routines one by one; then the threads that meet at the event queue,
    cut where the lock is taken and released, as in WakeRace.v. *)
From stdpp Require Import base list numbers option strings relations.
From Stdlib Require Import ZArith Lia Permutation.
From S2P Require Import Prelude AcpiEnv PowerRes PowerCaps Wake IrpQueue.

Definition STATUS_DELETE_PENDING : NTSTATUS := 0xC0000056.

(** ** Flags *)

(** The flags and control codes of the Windows kit's poclass.h. *)
Class PoClass := {
  SYS_BUTTON_POWER : Z;
  SYS_BUTTON_SLEEP : Z;
  SYS_BUTTON_LID : Z;
  SYS_BUTTON_WAKE : Z;
  SYS_BUTTON_LID_INITIAL : Z;
  SYS_BUTTON_LID_CHANGED : Z;
  IOCTL_GET_SYS_BUTTON_CAPS : Z;
  IOCTL_GET_SYS_BUTTON_EVENT : Z
}.

Definition button_flags `{PoClass} : list Z :=
  [SYS_BUTTON_POWER; SYS_BUTTON_SLEEP; SYS_BUTTON_LID; SYS_BUTTON_WAKE; SYS_BUTTON_LID_INITIAL; SYS_BUTTON_LID_CHANGED].

(** Each flag is a bit of its own, and the codes differ. *)
Class PoClassLaws `{PoClass} := {
  button_flag_bits : Forall (fun f => exists k, 0 <= k < 32 /\ f = 2 ^ k) button_flags;
  button_flags_differ : NoDup button_flags;
  button_codes_differ : IOCTL_GET_SYS_BUTTON_CAPS <> IOCTL_GET_SYS_BUTTON_EVENT
}.

Definition UACPINT_NOTIFY_BUTTON : Z := 0x80.
Definition UACPINT_NOTIFY_WAKE : Z := 0x02.
Definition PowerActionNone : Z := 0.
Definition PowerActionReserved : Z := 1.

(** ** The button fields of a device *)

Record button := mkButton {
  bt_Node : acpi_node;
  bt_ButtonCaps : Z;
  bt_ButtonEvents : Z;
  bt_ButtonDeferred : Z;
  bt_ButtonIfRegistered : bool;
  bt_LidPowerCallback : bool;
  bt_LidPowerCallbackHandle : bool;
  bt_LidCloseNoAction : bool;
  bt_LidInitialReported : bool;
  bt_Wake : UACPINT_WAKE
}.

Definition bt_set_Caps (c : Z) (b : button) : button :=
  mkButton (bt_Node b) c (bt_ButtonEvents b) (bt_ButtonDeferred b) (bt_ButtonIfRegistered b)
    (bt_LidPowerCallback b) (bt_LidPowerCallbackHandle b) (bt_LidCloseNoAction b) (bt_LidInitialReported b) (bt_Wake b).
Definition bt_set_Events (e : Z) (b : button) : button :=
  mkButton (bt_Node b) (bt_ButtonCaps b) e (bt_ButtonDeferred b) (bt_ButtonIfRegistered b)
    (bt_LidPowerCallback b) (bt_LidPowerCallbackHandle b) (bt_LidCloseNoAction b) (bt_LidInitialReported b) (bt_Wake b).
Definition bt_set_Deferred (d : Z) (b : button) : button :=
  mkButton (bt_Node b) (bt_ButtonCaps b) (bt_ButtonEvents b) d (bt_ButtonIfRegistered b)
    (bt_LidPowerCallback b) (bt_LidPowerCallbackHandle b) (bt_LidCloseNoAction b) (bt_LidInitialReported b) (bt_Wake b).
Definition bt_set_Registered (r : bool) (b : button) : button :=
  mkButton (bt_Node b) (bt_ButtonCaps b) (bt_ButtonEvents b) (bt_ButtonDeferred b) r
    (bt_LidPowerCallback b) (bt_LidPowerCallbackHandle b) (bt_LidCloseNoAction b) (bt_LidInitialReported b) (bt_Wake b).
Definition bt_set_Callback (c h : bool) (b : button) : button :=
  mkButton (bt_Node b) (bt_ButtonCaps b) (bt_ButtonEvents b) (bt_ButtonDeferred b) (bt_ButtonIfRegistered b)
    c h (bt_LidCloseNoAction b) (bt_LidInitialReported b) (bt_Wake b).
Definition bt_set_NoAction (n : bool) (b : button) : button :=
  mkButton (bt_Node b) (bt_ButtonCaps b) (bt_ButtonEvents b) (bt_ButtonDeferred b) (bt_ButtonIfRegistered b)
    (bt_LidPowerCallback b) (bt_LidPowerCallbackHandle b) n (bt_LidInitialReported b) (bt_Wake b).
Definition bt_set_Initial (b : button) : button :=
  mkButton (bt_Node b) (bt_ButtonCaps b) (bt_ButtonEvents b) (bt_ButtonDeferred b) (bt_ButtonIfRegistered b)
    (bt_LidPowerCallback b) (bt_LidPowerCallbackHandle b) (bt_LidCloseNoAction b) true (bt_Wake b).
Definition bt_set_Wake (w : UACPINT_WAKE) (b : button) : button :=
  mkButton (bt_Node b) (bt_ButtonCaps b) (bt_ButtonEvents b) (bt_ButtonDeferred b) (bt_ButtonIfRegistered b)
    (bt_LidPowerCallback b) (bt_LidPowerCallbackHandle b) (bt_LidCloseNoAction b) (bt_LidInitialReported b) w.

Section Routines.
Context {Po : PoClass} {A : Acpi}.

Definition UACPINT_LID_EVENT_OPEN : Z := Z.lor SYS_BUTTON_LID_CHANGED SYS_BUTTON_WAKE.
Definition UACPINT_LID_EVENT_CLOSED : Z := Z.lor SYS_BUTTON_LID_CHANGED SYS_BUTTON_LID.

(** The capabilities of a hardware ID; the flag is "a button". *)
Definition UacpiNtButtonClassify (Hid : string) (b : button) : bool * button :=
  let Caps :=
    if stricmp_equal Hid "PNP0C0C" then Z.lor SYS_BUTTON_WAKE SYS_BUTTON_POWER
    else if stricmp_equal Hid "PNP0C0E" then Z.lor SYS_BUTTON_WAKE SYS_BUTTON_SLEEP
    else if stricmp_equal Hid "PNP0C0D" then SYS_BUTTON_LID
    else 0 in
  (negb (Caps =? 0), bt_set_Caps Caps b).

(** ** The lid's policy *)

(** [Policy]: the lid action ZwPowerInformation gives, [None] when it fails. *)
Definition UacpiNtLidPowerStateCallback (Argument1 : PVOID) (Policy : option Z) (b : button) : button :=
  if negb (Argument1 =? NULL) then b
  else match Policy with
       | None => b
       | Some Action => bt_set_NoAction ((Action =? PowerActionNone) || (Action =? PowerActionReserved)) b
       end.

(** [Created] and [Registered]: what ExCreateCallback and ExRegisterCallback give. *)
Definition UacpiNtLidHookPolicy (Created : NTSTATUS) (Registered : bool) (Policy : option Z) (b : button) : button :=
  if negb (NT_SUCCESS Created) then b
  else UacpiNtLidPowerStateCallback NULL Policy (bt_set_Callback true Registered b).

(** ** Wake *)

(** The system state a WAIT_WAKE is requested for, [None] when none is requested. *)
Definition UacpiNtButtonArmWaitWake (b : button) (h : list acpi_call) : option Z * button * list acpi_call :=
  if bt_ButtonCaps b =? 0 then (None, b, h)
  else if has_flag (bt_ButtonCaps b) SYS_BUTTON_LID && bt_LidCloseNoAction b then (None, b, h)
  else if wk_Node (bt_Wake b) =? NULL then (Some PowerSystemSleeping3, b, h)
  else
    let '(HasPrw, w, h) := UacpiNtWakeHasPrw (bt_Wake b) h in
    let b := bt_set_Wake w b in
    if negb HasPrw then (Some PowerSystemSleeping3, b, h)
    else if wk_SystemWake w =? PowerSystemUnspecified then (None, b, h)
    else (Some (wk_SystemWake w), b, h).

(** [IoStatus]: the status of the WAIT_WAKE, [None] without a block. *)
Definition UacpiNtButtonWaitWakeDone (IoStatus : option NTSTATUS) (b : button) (h : list acpi_call)
  : option Z * button * list acpi_call :=
  match IoStatus with
  | Some Status => if NT_SUCCESS Status then UacpiNtButtonArmWaitWake b h else (None, b, h)
  | None => (None, b, h)
  end.

(** ** Events from notifications *)

Definition UacpiNtLidReadEvent (b : button) (h : list acpi_call) : Z * button * list acpi_call :=
  let '(Lid, h) := if bt_Node b =? NULL then (None, h) else uacpi_eval_simple_integer (bt_Node b) "_LID" h in
  let LidOpen := default 1 Lid in
  let Event := if LidOpen =? 0 then UACPINT_LID_EVENT_CLOSED else UACPINT_LID_EVENT_OPEN in
  if bt_LidInitialReported b then (Event, b, h)
  else (Z.lor Event SYS_BUTTON_LID_INITIAL, bt_set_Initial b, h).

(** The event that is delivered, if any. *)
Definition UacpiNtButtonNotify (NotifyValue : Z) (b : button) (h : list acpi_call)
  : option Z * button * list acpi_call :=
  if bt_ButtonCaps b =? 0 then (None, b, h)
  else if NotifyValue =? UACPINT_NOTIFY_WAKE then (Some SYS_BUTTON_WAKE, b, h)
  else if NotifyValue =? UACPINT_NOTIFY_BUTTON then
    if has_flag (bt_ButtonCaps b) SYS_BUTTON_LID
    then let '(Event, b, h) := UacpiNtLidReadEvent b h in (Some Event, b, h)
    else (Some (Z.ldiff (bt_ButtonCaps b) SYS_BUTTON_WAKE), b, h)
  else (None, b, h).

(** ** Start *)

(** The event delivered and the WAIT_WAKE requested. *)
Definition UacpiNtButtonStart (Interface Created : NTSTATUS) (Registered : bool) (Policy : option Z)
  (b : button) (h : list acpi_call) : option Z * option Z * button * list acpi_call :=
  if (bt_ButtonCaps b =? 0) || bt_ButtonIfRegistered b then (None, None, b, h)
  else if negb (NT_SUCCESS Interface) then (None, None, b, h)
  else
    let b := bt_set_Registered true b in
    let '(Event, b, h) :=
      if has_flag (bt_ButtonCaps b) SYS_BUTTON_LID
      then UacpiNtButtonNotify UACPINT_NOTIFY_BUTTON (UacpiNtLidHookPolicy Created Registered Policy b) h
      else (None, b, h) in
    let '(State, b, h) := UacpiNtButtonArmWaitWake b h in
    (Event, State, b, h).

(** UacpiNtButtonRemove up to the queue. *)
Definition button_withdraw (b : button) : button :=
  let b := if bt_ButtonIfRegistered b then bt_set_Registered false b else b in
  bt_set_Callback false false b.

(** ** The fixed buttons *)

Definition ACPI_PWR_BUTTON : Z := 16.
Definition ACPI_SLP_BUTTON : Z := 32.

Definition UacpiNtFixedButtonCaps (flags : Z) : Z :=
  let Caps := if has_flag flags ACPI_PWR_BUTTON then 0 else SYS_BUTTON_POWER in
  if has_flag flags ACPI_SLP_BUTTON then Caps else Z.lor Caps SYS_BUTTON_SLEEP.

(** UacpiNtFixedButtonCreated, the child list of the root, the buttons whose fixed
    events have a handler. *)
Record fixed_state := mkFixed {
  fx_Created : bool;
  fx_Children : list button;
  fx_Handlers : list Z
}.

Definition fixed_button (Caps : Z) : button :=
  mkButton NULL (Z.lor Caps SYS_BUTTON_WAKE) 0 0 false false false false false (UacpiNtWakeInit NULL zero_wake).

(** [Fadt]: the flags of the table, [None] without one; [Device]: what
    IoCreateDevice gives. *)
Definition UacpiNtFixedButtonInit (Fadt : option Z) (Device : NTSTATUS) (x : fixed_state) : fixed_state :=
  if fx_Created x then x
  else match Fadt with
       | None => x
       | Some flags =>
           let x := mkFixed true (fx_Children x) (fx_Handlers x) in
           let Caps := UacpiNtFixedButtonCaps flags in
           if Caps =? 0 then x
           else if negb (NT_SUCCESS Device) then x
           else mkFixed true (fx_Children x ++ [fixed_button Caps])
                  (fx_Handlers x ++
                     (if has_flag Caps SYS_BUTTON_POWER then [SYS_BUTTON_POWER] else []) ++
                     (if has_flag Caps SYS_BUTTON_SLEEP then [SYS_BUTTON_SLEEP] else []))
       end.

(** ** Control calls *)

Record button_request := mkButtonRequest {
  br_Code : Z;
  br_KernelMode : bool;
  br_OutputLength : Z;
  br_Buffer : bool
}.

(** What goes into the buffer; with an event, the events it stands for. *)
Inductive button_output :=
| OutCaps (Caps : Z)
| OutEvents (Events : Z) (from : list Z).

(** Not handled, completed at once, or UacpiNtButtonWaitForEvent. *)
Inductive button_answer :=
| NotHandled
| Answer (Status : NTSTATUS) (Information : Z) (Output : option button_output)
| WaitForEvent.

Definition UacpiNtButtonDeviceControl (Caps : Z) (r : button_request) : button_answer :=
  if Caps =? 0 then NotHandled
  else if negb (br_Code r =? IOCTL_GET_SYS_BUTTON_CAPS) && negb (br_Code r =? IOCTL_GET_SYS_BUTTON_EVENT) then NotHandled
  else if negb (br_KernelMode r) then Answer STATUS_NOT_IMPLEMENTED 0 None
  else if (br_OutputLength r <? 4) || negb (br_Buffer r) then Answer STATUS_BUFFER_TOO_SMALL 0 None
  else if br_Code r =? IOCTL_GET_SYS_BUTTON_EVENT then WaitForEvent
  else Answer STATUS_SUCCESS 4 (Some (OutCaps Caps)).
End Routines.

Section Wakes.
Context {Po : PoClass} {A : Acpi} (Win8 : bool).

(** A WAIT_WAKE that a button asks for is refused at once when its block has no
    valid _PRW, the fixed button's included: the comment says such buttons are
    skipped, the code asks for S3. *)
Lemma button_without_prw_asks_s3 b w h h' id i s :
  bt_ButtonCaps b <> 0 -> has_flag (bt_ButtonCaps b) SYS_BUTTON_LID = false ->
  UacpiNtWakeParsePrw (bt_Wake b) h = (false, w, h') -> pw_Calls s = h ->
  (UacpiNtButtonArmWaitWake b h).1.1 = Some PowerSystemSleeping3 /\
  (UacpiNtWakeArm Win8 id i (bt_Wake b) s).1.1.1 = STATUS_NOT_SUPPORTED.
Proof.
  intros Hc Hl Hp <-. split.
  - unfold UacpiNtButtonArmWaitWake, UacpiNtWakeHasPrw. rewrite (proj2 (Z.eqb_neq _ _) Hc), Hl. simpl.
    destruct (wk_Node (bt_Wake b) =? NULL); [done|]. by rewrite Hp.
  - unfold UacpiNtWakeArm, arm_check. by rewrite Hp.
Qed.

(** With a valid _PRW the button waits in the state it names, or not at all. *)
Lemma button_with_prw_asks b w h h' :
  bt_ButtonCaps b <> 0 -> has_flag (bt_ButtonCaps b) SYS_BUTTON_LID && bt_LidCloseNoAction b = false ->
  wk_Node (bt_Wake b) <> NULL -> UacpiNtWakeParsePrw (bt_Wake b) h = (true, w, h') ->
  (UacpiNtButtonArmWaitWake b h).1.1 =
    (if wk_SystemWake w =? PowerSystemUnspecified then None else Some (wk_SystemWake w)).
Proof.
  intros Hc Hl Hn Hp. unfold UacpiNtButtonArmWaitWake, UacpiNtWakeHasPrw.
  rewrite (proj2 (Z.eqb_neq _ _) Hc), Hl, (proj2 (Z.eqb_neq _ _) Hn), Hp. simpl. by destruct (_ =? _).
Qed.

(** The first report of the lid, and only the first, is marked as the initial one. *)
Lemma lid_reports_initial_once b h e b' h' : UacpiNtLidReadEvent b h = (e, b', h') ->
  bt_LidInitialReported b' = true /\
  In (if bt_LidInitialReported b then e else Z.ldiff e SYS_BUTTON_LID_INITIAL)
    [Z.ldiff UACPINT_LID_EVENT_OPEN (if bt_LidInitialReported b then 0 else SYS_BUTTON_LID_INITIAL);
     Z.ldiff UACPINT_LID_EVENT_CLOSED (if bt_LidInitialReported b then 0 else SYS_BUTTON_LID_INITIAL)].
Proof.
  unfold UacpiNtLidReadEvent. destruct (if bt_Node b =? NULL then _ else _) as [Lid h1].
  destruct (bt_LidInitialReported b) eqn:Ei; intros E; simplify_eq; (split; [done|]).
  - rewrite !Z.ldiff_0_r. destruct (_ =? 0); [right; by left|by left].
  - assert (forall x y, Z.ldiff (Z.lor x y) y = Z.ldiff x y) as Hd.
    { intros x y. apply Z.bits_inj'. intros n Hn. rewrite !Z.ldiff_spec, Z.lor_spec. by destruct (Z.testbit x n), (Z.testbit y n). }
    rewrite Hd. destruct (_ =? 0); [right; by left|by left].
Qed.
End Wakes.

(** ** The threads *)

(** A press of a fixed button, with whether the resume window was open when its DPC
    looked.  A thread that sends events has a list of them, each with the presses it
    stands for. *)
Definition press : Type := Z * bool.
Definition sending : Type := list (Z * list press).

(** Where a thread is.  A wait has come in, has set its cancel routine under the
    lock, has taken the latched events, or has found its IRP cancelled; another
    control call is about to be answered; the I/O manager is about to take the
    cancel routine, the routine runs, or has unlinked the IRP; a delivery is about
    to take the lock, or has a waiter; a removal is about to take the lock, or
    completes what it took; a fixed event is about to be noted, or its DPC queued;
    the DPC runs, or has taken what was noted. *)
Inductive button_task :=
| BtWait (id : nat)
| BtWaitLocked (id : nat)
| BtLatched (id : nat) (Events : Z) (from : list Z)
| BtRefused (id : nat)
| BtAnswer (id : nat) (Status : NTSTATUS) (Information : Z) (Output : option button_output)
| BtIoCancel (id : nat)
| BtCancel (id : nat)
| BtCancelled (id : nat)
| BtDeliver (Event : Z) (Presses : list press) (next : sending)
| BtDelivered (id : nat) (Event : Z) (next : sending)
| BtRemove
| BtOrphans (ids : list nat)
| BtDefer (Event : Z)
| BtInsertDpc
| BtDpc
| BtDpcPending (Pending : Z) (from : list Z).

Definition button_queue : Type := irp_queue button_request button_output.

(** [bs_Resuming] is UacpiNtSystemResuming.  Not in the code: [bs_LatchedFrom] and
    [bs_DeferredFrom], what the two words stand for, [bs_Sent], the events given to
    UacpiNtButtonDeliverEvent, [bs_Pressed], the fixed events raised, and
    [bs_Served], those that have been sent, each with the event given for it. *)
Record button_system := mkButtons {
  bs_Button : button;
  bs_Calls : list acpi_call;
  bs_Queue : button_queue;
  bs_Locked : bool;
  bs_DpcQueued : bool;
  bs_Resuming : bool;
  bs_Tasks : list button_task;
  bs_LatchedFrom : list Z;
  bs_DeferredFrom : list Z;
  bs_Sent : list Z;
  bs_Pressed : list Z;
  bs_Served : list (press * Z)
}.

Definition bs_set_Queue (q : button_queue) (locked : bool) (y : button_system) : button_system :=
  mkButtons (bs_Button y) (bs_Calls y) q locked (bs_DpcQueued y) (bs_Resuming y) (bs_Tasks y)
    (bs_LatchedFrom y) (bs_DeferredFrom y) (bs_Sent y) (bs_Pressed y) (bs_Served y).
Definition bs_set_Latched (from : list Z) (Events : Z) (y : button_system) : button_system :=
  mkButtons (bt_set_Events Events (bs_Button y)) (bs_Calls y) (bs_Queue y) (bs_Locked y) (bs_DpcQueued y)
    (bs_Resuming y) (bs_Tasks y) from (bs_DeferredFrom y) (bs_Sent y) (bs_Pressed y) (bs_Served y).
Definition bs_set_Noted (from : list Z) (Deferred : Z) (y : button_system) : button_system :=
  mkButtons (bt_set_Deferred Deferred (bs_Button y)) (bs_Calls y) (bs_Queue y) (bs_Locked y) (bs_DpcQueued y)
    (bs_Resuming y) (bs_Tasks y) (bs_LatchedFrom y) from (bs_Sent y) (bs_Pressed y) (bs_Served y).
Definition bs_set_Dpc (d : bool) (y : button_system) : button_system :=
  mkButtons (bs_Button y) (bs_Calls y) (bs_Queue y) (bs_Locked y) d (bs_Resuming y) (bs_Tasks y)
    (bs_LatchedFrom y) (bs_DeferredFrom y) (bs_Sent y) (bs_Pressed y) (bs_Served y).
Definition bs_set_Resuming (r : bool) (y : button_system) : button_system :=
  mkButtons (bs_Button y) (bs_Calls y) (bs_Queue y) (bs_Locked y) (bs_DpcQueued y) r (bs_Tasks y)
    (bs_LatchedFrom y) (bs_DeferredFrom y) (bs_Sent y) (bs_Pressed y) (bs_Served y).
Definition bs_set_Tasks (l : list button_task) (y : button_system) : button_system :=
  mkButtons (bs_Button y) (bs_Calls y) (bs_Queue y) (bs_Locked y) (bs_DpcQueued y) (bs_Resuming y) l
    (bs_LatchedFrom y) (bs_DeferredFrom y) (bs_Sent y) (bs_Pressed y) (bs_Served y).
Definition bs_set_Button (b : button) (h : list acpi_call) (y : button_system) : button_system :=
  mkButtons b h (bs_Queue y) (bs_Locked y) (bs_DpcQueued y) (bs_Resuming y) (bs_Tasks y)
    (bs_LatchedFrom y) (bs_DeferredFrom y) (bs_Sent y) (bs_Pressed y) (bs_Served y).
Definition bs_send (Event : Z) (Presses : list press) (y : button_system) : button_system :=
  mkButtons (bs_Button y) (bs_Calls y) (bs_Queue y) (bs_Locked y) (bs_DpcQueued y) (bs_Resuming y) (bs_Tasks y)
    (bs_LatchedFrom y) (bs_DeferredFrom y) (bs_Sent y ++ [Event]) (bs_Pressed y)
    (bs_Served y ++ map (fun p => (p, Event)) Presses).
Definition bs_press (Event : Z) (y : button_system) : button_system :=
  mkButtons (bs_Button y) (bs_Calls y) (bs_Queue y) (bs_Locked y) (bs_DpcQueued y) (bs_Resuming y) (bs_Tasks y)
    (bs_LatchedFrom y) (bs_DeferredFrom y) (bs_Sent y) (bs_Pressed y ++ [Event]) (bs_Served y).

Definition bs_spawn (l : list button_task) (y : button_system) : button_system := bs_set_Tasks (l ++ bs_Tasks y) y.

Definition send_tasks (l : sending) : list button_task :=
  match l with [] => [] | (Event, Presses) :: next => [BtDeliver Event Presses next] end.

Section Threads.
Context {Po : PoClass} {A : Acpi}.

(** UacpiNtButtonWaitForEvent up to the decision, with the lock taken. *)
Definition wait_enter (id : nat) (y : button_system) : button_system :=
  let Events := bt_ButtonEvents (bs_Button y) in
  if negb (Events =? 0)
  then bs_spawn [BtLatched id Events (bs_LatchedFrom y)] (bs_set_Latched [] 0 y)
  else bs_spawn [BtWaitLocked id] (bs_set_Queue (set_routine id (bs_Queue y)) true y).
Definition wait_decide (id : nat) (y : button_system) : button_system :=
  let '(Inserted, q) := insert_unless_cancelled id (bs_Queue y) in
  bs_spawn (if Inserted then [] else [BtRefused id]) (bs_set_Queue q false y).

(** UacpiNtButtonDeliverEvent under the lock: the waiter, if the head of the list
    still has its cancel routine. *)
Definition take_waiter (q : button_queue) : option nat * button_queue :=
  match iq_List q with
  | [] => (None, q)
  | Head :: _ => let '(Had, q) := take_routine Head q in if Had then (Some Head, unlink Head q) else (None, q)
  end.
Definition deliver_event (Event : Z) (Presses : list press) (next : sending) (y : button_system) : button_system :=
  let y := bs_send Event Presses y in
  let '(Waiter, q) := take_waiter (bs_Queue y) in
  let y := bs_set_Queue q false y in
  match Waiter with
  | Some id => bs_spawn [BtDelivered id Event next] y
  | None => bs_spawn (send_tasks next)
              (bs_set_Latched (bs_LatchedFrom y ++ [Event]) (Z.lor (bt_ButtonEvents (bs_Button y)) Event) y)
  end.

(** The loop of UacpiNtButtonRemove under the lock, over the entries of the list. *)
Fixpoint empty_queue (Entries : list nat) (Orphans : list nat) (q : button_queue) : list nat * button_queue :=
  match Entries with
  | [] => (Orphans, q)
  | Irp :: Entries =>
      let '(Had, q) := take_routine Irp (unlink Irp q) in
      if Had then empty_queue Entries (Orphans ++ [Irp]) q
      else empty_queue Entries Orphans (iq_alter li_set_SelfLinked Irp q)
  end.

(** UacpiNtFixedButtonDpc after the exchange: what is delivered in turn. *)
Definition fixed_events (Resuming : bool) (Pending : Z) (from : list press) : sending :=
  if Resuming then [(SYS_BUTTON_WAKE, from)]
  else (if has_flag Pending SYS_BUTTON_POWER then [(SYS_BUTTON_POWER, filter (fun p => SYS_BUTTON_POWER = p.1) from)] else []) ++
       (if has_flag Pending SYS_BUTTON_SLEEP then [(SYS_BUTTON_SLEEP, filter (fun p => SYS_BUTTON_SLEEP = p.1) from)] else []).

Definition finish (id : nat) (Status : NTSTATUS) (Information : Z) (o : option button_output) (y : button_system)
  : button_system := bs_set_Queue (complete_irp id Status Information o (bs_Queue y)) (bs_Locked y) y.

(** One turn of a thread that has left the list; [None] while it waits for the
    lock. *)
Definition button_turn (t : button_task) (y : button_system) : option button_system :=
  let locking (z : button_system) := if bs_Locked y then None else Some z in
  match t with
  | BtWait id => locking (wait_enter id y)
  | BtWaitLocked id => Some (wait_decide id y)
  | BtLatched id Events from => Some (finish id STATUS_SUCCESS 4 (Some (OutEvents Events from)) y)
  | BtRefused id => Some (finish id STATUS_CANCELLED 0 None y)
  | BtAnswer id st n o => Some (finish id st n o y)
  | BtIoCancel id =>
      let '(Had, q) := take_routine id (bs_Queue y) in
      Some (bs_spawn (if Had then [BtCancel id] else []) (bs_set_Queue q (bs_Locked y) y))
  | BtCancel id => locking (bs_spawn [BtCancelled id] (bs_set_Queue (unlink id (bs_Queue y)) false y))
  | BtCancelled id => Some (finish id STATUS_CANCELLED 0 None y)
  | BtDeliver Event Presses next => locking (deliver_event Event Presses next y)
  | BtDelivered id Event next => Some (bs_spawn (send_tasks next) (finish id STATUS_SUCCESS 4 (Some (OutEvents Event [Event])) y))
  | BtRemove =>
      let '(Orphans, q) := empty_queue (iq_List (bs_Queue y)) [] (bs_Queue y) in
      locking (bs_spawn [BtOrphans Orphans] (bs_set_Queue q false y))
  | BtOrphans [] => Some y
  | BtOrphans (id :: ids) => Some (bs_spawn [BtOrphans ids] (finish id STATUS_DELETE_PENDING 0 None y))
  | BtDefer Event =>
      Some (bs_spawn [BtInsertDpc]
              (bs_set_Noted (bs_DeferredFrom y ++ [Event]) (Z.lor (bt_ButtonDeferred (bs_Button y)) Event) y))
  | BtInsertDpc => Some (bs_set_Dpc true y)
  | BtDpc =>
      let Pending := bt_ButtonDeferred (bs_Button y) in
      let from := bs_DeferredFrom y in
      Some (bs_spawn (if Pending =? 0 then [] else [BtDpcPending Pending from]) (bs_set_Noted [] 0 y))
  | BtDpcPending Pending from =>
      Some (bs_spawn (send_tasks (fixed_events (bs_Resuming y) Pending (map (fun p => (p, bs_Resuming y)) from))) y)
  end.

(** A turn of the driver; the DPC leaves its queue before it runs. *)
Inductive button_event : button_system -> button_system -> Prop :=
| bev_task t rest y y' : bs_Tasks y ≡ₚ t :: rest -> button_turn t (bs_set_Tasks rest y) = Some y' -> button_event y y'
| bev_dpc y : bs_DpcQueued y = true -> button_event y (bs_spawn [BtDpc] (bs_set_Dpc false y)).

(** What comes from outside: a control call, a cancellation, a notification, a
    fixed event, the start's first report, the removal, the resume window.  A
    control call that is not handled leaves nothing here. *)
Definition button_call (r : button_request) (y : button_system) : button_system :=
  let id := length (iq_Irps (bs_Queue y)) in
  let arrive (t : button_task) := bs_spawn [t] (bs_set_Queue (iq_arrive r (bs_Queue y)) (bs_Locked y) y) in
  match UacpiNtButtonDeviceControl (bt_ButtonCaps (bs_Button y)) r with
  | NotHandled => y
  | Answer st n o => arrive (BtAnswer id st n o)
  | WaitForEvent => arrive (BtWait id)
  end.

(** [cancels]: the I/O manager may cancel IRPs. *)
Inductive button_arrival (cancels : bool) : button_system -> button_system -> Prop :=
| bar_call r y : button_arrival cancels y (button_call r y)
| bar_cancel id y : cancels = true -> (id < length (iq_Irps (bs_Queue y)))%nat ->
    button_arrival cancels y
      (bs_spawn [BtIoCancel id] (bs_set_Queue (iq_alter li_set_Cancel id (bs_Queue y)) (bs_Locked y) y))
| bar_notify Value o b h y : UacpiNtButtonNotify Value (bs_Button y) (bs_Calls y) = (o, b, h) ->
    button_arrival cancels y
      (bs_spawn (match o with Some Event => [BtDeliver Event [] []] | None => [] end) (bs_set_Button b h y))
| bar_start Interface Created Registered Policy o s b h y :
    UacpiNtButtonStart Interface Created Registered Policy (bs_Button y) (bs_Calls y) = (o, s, b, h) ->
    button_arrival cancels y
      (bs_spawn (match o with Some Event => [BtDeliver Event [] []] | None => [] end) (bs_set_Button b h y))
| bar_fixed Event y : Event = SYS_BUTTON_POWER \/ Event = SYS_BUTTON_SLEEP ->
    button_arrival cancels y (bs_spawn [BtDefer Event] (bs_press Event y))
| bar_remove y : bt_ButtonCaps (bs_Button y) <> 0 ->
    button_arrival cancels y (bs_spawn [BtRemove] (bs_set_Button (button_withdraw (bs_Button y)) (bs_Calls y) y))
| bar_resume r y : button_arrival cancels y (bs_set_Resuming r y).

Inductive button_run (cancels : bool) : button_system -> button_system -> Prop :=
| brun_start y : button_run cancels y y
| brun_event y y1 y2 : button_run cancels y y1 -> button_event y1 y2 -> button_run cancels y y2
| brun_arrival y y1 y2 : button_run cancels y y1 -> button_arrival cancels y1 y2 -> button_run cancels y y2.

Definition buttons_start (b : button) (h : list acpi_call) : button_system :=
  mkButtons b h no_irps false false false [] [] [] [] [] [].
Definition fresh_button (b : button) : Prop := bt_ButtonEvents b = 0 /\ bt_ButtonDeferred b = 0.
End Threads.

(** ** The IRPs *)

Definition button_roles (t : button_task) : list role :=
  match t with
  | BtWait id => [Entering id]
  | BtWaitLocked id => [Deciding id]
  | BtIoCancel id => [IoCancelling id]
  | BtCancel id => [Cancelling id]
  | BtLatched id _ _ | BtRefused id | BtAnswer id _ _ _ | BtCancelled id | BtDelivered id _ _ => [Holding id]
  | BtOrphans ids => map Holding ids
  | _ => []
  end.

Definition all_roles (ts : list button_task) : list role := flat_map button_roles ts.

(** Every event request can be cancelled. *)
Definition button_queue_ok (y : button_system) : Prop :=
  queue_ok (fun _ => true) (bs_Locked y) (all_roles (bs_Tasks y)) (bs_Queue y).

Section Books.
Context {Po : PoClass} {A : Acpi}.
Local Notation ok := (queue_ok (fun _ : button_request => true)).

Lemma all_roles_app l k : all_roles (l ++ k) = all_roles l ++ all_roles k.
Proof. apply flat_map_app. Qed.

Lemma send_roles l : all_roles (send_tasks l) = [].
Proof. by destruct l as [|[] ]. Qed.

Lemma locking_some (y z y' : button_system) : (if bs_Locked y then None else Some z) = Some y' -> bs_Locked y = false /\ y' = z.
Proof. destruct (bs_Locked y); intros ?; by simplify_eq. Qed.

Lemma unlink_head {Req Out} h l (q : irp_queue Req Out) : iq_List q = h :: l -> unlink h q = iq_set_List l q.
Proof. intros E. unfold unlink. rewrite E. simpl. by rewrite Nat.eqb_refl. Qed.

Lemma empty_queue_ok locked rs Entries : forall Orphans (q : button_queue) O' q',
  iq_List q = Entries -> ok locked (map Holding Orphans ++ rs) q -> empty_queue Entries Orphans q = (O', q') ->
  ok locked (map Holding O' ++ rs) q' /\ iq_List q' = [].
Proof.
  induction Entries as [|h l IH]; intros Orphans q O' q' El H E; simplify_eq/=; [done|].
  assert (0 < occurs h (iq_List q))%nat as Ho by (rewrite El; unfold occurs; rewrite weight_cons, one_eq; lia).
  assert (unlink h q = iq_set_List l q) as Eu by (by apply unlink_head).
  unfold take_routine in E. rewrite Eu in E. change (routine_set h (iq_set_List l q)) with (routine_set h q) in E.
  destruct (routine_set h q) eqn:Hr.
  - apply IH in E; [done|done|]. rewrite map_app, <- app_assoc. simpl.
    apply (ok_claim _ _ _ _ _ H Ho) in Hr. unfold take_routine in Hr. simpl in Hr.
    rewrite (unlink_head h l) in Hr by done. by eapply queue_ok_perm; [apply Permutation_middle|].
  - apply IH in E; [done|done|].
    destruct (path_known _ _ h _ _ H) as [i Hi]; [lia|].
    pose proof (ok_self_link _ _ _ _ _ _ H Ho Hi eq_refl Hr) as Hs. rewrite Eu in Hs.
    rewrite (alter_same_irp (li_set_Routine false)); [done|]. intros j Hj. simpl in Hj.
    unfold routine_set in Hr. rewrite Hj in Hr. by destruct j; simpl in *; subst.
Qed.

Lemma take_waiter_ok locked rs (q : button_queue) o q' : ok locked rs q -> take_waiter q = (o, q') ->
  ok locked ((match o with Some id => [Holding id] | None => [] end) ++ rs) q'.
Proof.
  unfold take_waiter. intros H E. destruct (iq_List q) as [|h l] eqn:El; [by simplify_eq|].
  destruct (routine_set h q) eqn:Hr.
  - simplify_eq. unfold take_routine in E. rewrite Hr in E. simplify_eq. apply (ok_claim _ _ _ _ _ H) in Hr; [done|].
    rewrite El. unfold occurs. rewrite weight_cons, one_eq. lia.
  - rewrite take_routine_false in E by done. by simplify_eq.
Qed.

Lemma button_turn_ok t y y' : ok (bs_Locked y) (button_roles t ++ all_roles (bs_Tasks y)) (bs_Queue y) ->
  button_turn t y = Some y' -> button_queue_ok y'.
Proof.
  unfold button_queue_ok. intros H E.
  destruct t as [id|id|id Events from|id|id st n o|id|id|id|Event Presses next|id Event next| |ids|Event| | |Pending from];
    simpl in H, E; try apply locking_some in E as [El ->]; try rewrite El in H; simplify_eq/=; try done.
  - unfold wait_enter. destruct (negb _); simpl.
    + rewrite El. by apply ok_hold.
    + destruct (answering_known _ _ id _ _ H) as [i Hi]; [rewrite weight_cons; simpl; rewrite one_eq; lia|].
      by eapply ok_set_routine.
  - unfold wait_decide. destruct (insert_unless_cancelled id (bs_Queue y)) as [Inserted q] eqn:Ed.
    assert (bs_Locked y = true) as El.
    { pose proof (qo_locked _ _ _ _ H) as Hk. rewrite weight_cons in Hk. simpl in Hk. by destruct (bs_Locked y). }
    rewrite El in H. apply (ok_decide _ _ _ _ _ _ H) in Ed. simpl. rewrite all_roles_app. by destruct Inserted.
  - by apply ok_complete.
  - by apply ok_complete.
  - by apply ok_complete.
  - apply ok_io_takes in H. destruct (routine_set id (bs_Queue y)); done.
  - by apply ok_unlink.
  - by apply ok_complete.
  - unfold deliver_event. destruct (take_waiter _) as [o q] eqn:Ew. apply (take_waiter_ok _ _ _ _ _ H) in Ew.
    destruct o as [id|]; simpl; [done|]. by rewrite all_roles_app, send_roles.
  - apply (ok_complete _ _ _ _ _ STATUS_SUCCESS 4 (Some (OutEvents Event [Event]))) in H.
    by rewrite all_roles_app, send_roles.
  - destruct (empty_queue _ _ _) as [O q] eqn:Ee. apply locking_some in E as [El ->].
    rewrite El in H. destruct (empty_queue_ok _ _ _ [] _ _ _ eq_refl H Ee) as [Hq _]. done.
  - destruct ids as [|id ids]; simplify_eq/=; [done|]. by apply ok_complete.
  - by destruct (bt_ButtonDeferred _ =? 0).
  - by rewrite all_roles_app, send_roles.
Qed.

Lemma roles_perm ts t rest : ts ≡ₚ t :: rest -> all_roles ts ≡ₚ button_roles t ++ all_roles rest.
Proof. intros H. unfold all_roles. by rewrite H. Qed.

Lemma button_event_ok y y' : button_queue_ok y -> button_event y y' -> button_queue_ok y'.
Proof.
  intros H Ht. destruct Ht as [t rest y y1 Hp E|y Hd]; [|exact H].
  eapply button_turn_ok; [|exact E]. simpl. eapply queue_ok_perm; [by apply roles_perm, Hp|exact H].
Qed.

Lemma spawn_sends (o : option Z) :
  all_roles (match o with Some Event => [BtDeliver Event [] []] | None => [] end) = [].
Proof. by destruct o. Qed.

Lemma button_arrival_ok cancels y y' : button_queue_ok y -> button_arrival cancels y y' -> button_queue_ok y'.
Proof.
  intros H Ha. unfold button_queue_ok in *.
  destruct Ha as [r y|id y Hc Hl|Value o b h y E|Interface Created Registered Policy o s b h y E|Event y He|y Hn|r y];
    simpl; rewrite ?all_roles_app, ?spawn_sends; try done.
  - unfold button_call. pose proof (ok_arrive _ _ r _ _ H) as Hr.
    destruct (UacpiNtButtonDeviceControl _ r); simpl; [done|by apply ok_hold|done].
  - apply lookup_lt_is_Some_2 in Hl as [i Hi]. by eapply ok_io_cancel.
Qed.

Lemma button_run_ok cancels b h y : button_run cancels (buttons_start b h) y -> button_queue_ok y.
Proof.
  intros Hr. remember (buttons_start b h) as y0 eqn:E0. induction Hr as [y|y y1 y2 Hr IH Ht|y y1 y2 Hr IH Ht].
  - subst. apply queue_ok_start.
  - eapply button_event_ok; [by apply IH|done].
  - eapply button_arrival_ok; [by apply IH|done].
Qed.
End Books.

(** ** The events *)

Definition lor_all (l : list Z) : Z := foldr Z.lor 0 l.

Lemma lor_all_app l k : lor_all (l ++ k) = Z.lor (lor_all l) (lor_all k).
Proof. induction l as [|x l IH]; [done|]. simpl. by rewrite IH, Z.lor_assoc. Qed.

Lemma lor_all_one e : lor_all [e] = e.
Proof. apply Z.lor_0_r. Qed.

Lemma lor_all_zero l : Forall (fun x => x <> 0) l -> lor_all l = 0 -> l = [].
Proof. destruct 1 as [|x l Hx _]; [done|]. simpl. by intros [? _]%Z.lor_eq_0_iff. Qed.

(** Events sent and not yet reported or latched. *)
Definition task_events (t : button_task) : list Z :=
  match t with BtLatched _ _ from => from | BtDelivered _ Event _ => [Event] | _ => [] end.
(** Presses noted and not yet sent. *)
Definition sending_presses (l : sending) : list Z := flat_map (fun s => map fst s.2) l.
Definition task_presses (t : button_task) : list Z :=
  match t with
  | BtDefer Event => [Event]
  | BtDpcPending _ from => from
  | BtDeliver _ Presses next => map fst Presses ++ sending_presses next
  | BtDelivered _ _ next => sending_presses next
  | _ => []
  end.
Definition served_presses (l : list (press * Z)) : list Z := map (fun s => s.1.1) l.
(** The events an IRP reported. *)
Definition reported_events (l : list (NTSTATUS * Z * option button_output)) : list Z :=
  flat_map (fun c => match c.2 with Some (OutEvents _ from) => from | _ => [] end) l.

(** A completion with events succeeds, and its word is made of them. *)
Definition exact_report (c : NTSTATUS * Z * option button_output) : Prop :=
  match c with
  | (Status, Information, Some (OutEvents Events from)) =>
      Status = STATUS_SUCCESS /\ Information = 4 /\ Events = lor_all from /\ from <> []
  | _ => True
  end.

Section Events.
Context {Po : PoClass} {A : Acpi} {PL : PoClassLaws}.

Definition fixed_kind (e : Z) : Prop := e = SYS_BUTTON_POWER \/ e = SYS_BUTTON_SLEEP.

(** A press is sent as its own event, or as a wake when the resume window was open. *)
Definition served_as (s : press * Z) : Prop := s.2 = if s.1.2 then SYS_BUTTON_WAKE else s.1.1.
Definition sending_exact (l : sending) : Prop := Forall (fun s => Forall (fun p => served_as (p, s.1)) s.2) l.

Definition exact_task (t : button_task) : Prop :=
  match t with
  | BtDeliver Event Presses next => sending_exact ((Event, Presses) :: next)
  | BtDelivered _ _ next => sending_exact next
  | BtLatched _ Events from => Events = lor_all from /\ from <> []
  | BtAnswer _ _ _ (Some (OutEvents _ _)) => False
  | BtDefer Event => fixed_kind Event
  | BtDpcPending Pending from => Pending = lor_all from /\ Forall fixed_kind from
  | _ => True
  end.

(** A thread that will look at the noted events. *)
Definition looks_at_noted (t : button_task) : Prop := match t with BtInsertDpc | BtDpc => True | _ => False end.

Definition how_many (e : Z) (l : list Z) : nat := count_occ Z.eq_dec l e.

Record button_sound (y : button_system) : Prop := {
  so_latched : bt_ButtonEvents (bs_Button y) = lor_all (bs_LatchedFrom y);
  so_noted : bt_ButtonDeferred (bs_Button y) = lor_all (bs_DeferredFrom y);
  so_kinds : Forall fixed_kind (bs_DeferredFrom y);
  so_tasks : Forall exact_task (bs_Tasks y);
  so_reports : Forall (Forall exact_report) (iq_books (bs_Queue y));
  so_events : forall e, how_many e (bs_Sent y) =
    (how_many e (bs_LatchedFrom y) + list_weight (fun t => how_many e (task_events t)) (bs_Tasks y) +
     list_weight (fun l => how_many e (reported_events l)) (iq_books (bs_Queue y)))%nat;
  so_presses : forall e, how_many e (bs_Pressed y) =
    (how_many e (bs_DeferredFrom y) + list_weight (fun t => how_many e (task_presses t)) (bs_Tasks y) +
     how_many e (served_presses (bs_Served y)))%nat;
  so_dpc : bs_DeferredFrom y <> [] -> bs_DpcQueued y = true \/ Exists looks_at_noted (bs_Tasks y);
  so_served : Forall (fun s => served_as s /\ In s.2 (bs_Sent y)) (bs_Served y)
}.

Lemma many_app e l k : how_many e (l ++ k) = (how_many e l + how_many e k)%nat.
Proof. apply count_occ_app. Qed.

Lemma flags_apart a b : a ∈ button_flags -> b ∈ button_flags -> a <> b -> Z.land a b = 0.
Proof.
  intros Ha Hb Hn. pose proof button_flag_bits as Hf. rewrite Forall_forall in Hf.
  destruct (Hf _ Ha) as (i & Hi & ->), (Hf _ Hb) as (j & Hj & ->).
  apply Z.bits_inj'. intros n Hp. rewrite Z.land_spec, Z.bits_0, !Z.pow2_bits_eqb by lia.
  destruct (i =? n) eqn:E1, (j =? n) eqn:E2; try done. exfalso. apply Hn. f_equal. lia.
Qed.

Lemma flag_nonzero a : a ∈ button_flags -> a <> 0.
Proof.
  intros Ha. pose proof button_flag_bits as Hf. rewrite Forall_forall in Hf.
  destruct (Hf _ Ha) as (i & Hi & ->). pose proof (Z.pow_pos_nonneg 2 i). lia.
Qed.

Lemma power_flag : SYS_BUTTON_POWER ∈ button_flags.
Proof. unfold button_flags. constructor. Qed.
Lemma sleep_flag : SYS_BUTTON_SLEEP ∈ button_flags.
Proof. unfold button_flags. do 2 constructor. Qed.
Lemma power_not_sleep : SYS_BUTTON_POWER <> SYS_BUTTON_SLEEP.
Proof. intros E. pose proof button_flags_differ as H. unfold button_flags in H. rewrite E in H. inversion H as [|? ? Hn]; subst. apply Hn. constructor. Qed.

(** A bit is in the word exactly when its event is among those noted. *)
Lemma noted_bit e l : fixed_kind e -> Forall fixed_kind l -> has_flag (lor_all l) e = true <-> In e l.
Proof.
  assert (forall k, fixed_kind k -> k ∈ button_flags) as Hin.
  { intros k [->| ->]; [apply power_flag|apply sleep_flag]. }
  intros He. induction 1 as [|x l Hx Hl IH]; [unfold has_flag; simpl; by split|].
  unfold has_flag in *. simpl. rewrite Z.land_lor_distr_l. rewrite negb_true_iff in *.
  rewrite Z.eqb_neq in *. destruct (decide (x = e)) as [->|Hn].
  - rewrite Z.land_diag, Z.lor_eq_0_iff. split; [by left|]. intros _ [Hz _]. by apply (flag_nonzero e (Hin e He)).
  - rewrite (flags_apart x e), Z.lor_0_l by auto. rewrite IH. split; [by right|]. by intros [?|?].
Qed.

Lemma filter_presses e (r : bool) from :
  map fst (filter (fun p : press => e = p.1) (map (fun p => (p, r)) from)) = filter (e =.) from.
Proof.
  induction from as [|x l IH]; [done|]. simpl. destruct (decide (e = x)) as [->|Hn].
  - rewrite !filter_cons_True by done. simpl. f_equal. exact IH.
  - rewrite !filter_cons_False by done. exact IH.
Qed.

Lemma many_split from e : Forall fixed_kind from ->
  (how_many e (filter (SYS_BUTTON_POWER =.) from) + how_many e (filter (SYS_BUTTON_SLEEP =.) from))%nat = how_many e from.
Proof.
  unfold how_many. pose proof power_not_sleep as Hn. induction 1 as [|x l [->| ->] Hl IH]; [done|..].
  - rewrite filter_cons_True, filter_cons_False by congruence. simpl. destruct (Z.eq_dec _ e); lia.
  - rewrite filter_cons_False, filter_cons_True by congruence. simpl. destruct (Z.eq_dec _ e); lia.
Qed.

Lemma filter_flag e from : fixed_kind e -> Forall fixed_kind from -> has_flag (lor_all from) e = false ->
  filter (e =.) from = [].
Proof.
  intros He Hk Hf. apply filter_none, Forall_forall. intros x Hx ->. apply list_elem_of_In in Hx.
  apply (noted_bit _ _ He Hk) in Hx. congruence.
Qed.

(** Every press the DPC took is in one of the events it sends, as it should be. *)
Lemma fixed_events_presses r from e : Forall fixed_kind from ->
  how_many e (sending_presses (fixed_events r (lor_all from) (map (fun p => (p, r)) from))) = how_many e from.
Proof.
  intros Hk. unfold fixed_events, sending_presses. destruct r; simpl; [by rewrite app_nil_r, map_map, map_id|].
  rewrite flat_map_app, many_app, <- (many_split from e Hk).
  pose proof (filter_flag SYS_BUTTON_POWER from (or_introl eq_refl) Hk) as Hp.
  pose proof (filter_flag SYS_BUTTON_SLEEP from (or_intror eq_refl) Hk) as Hs.
  destruct (has_flag _ SYS_BUTTON_POWER), (has_flag _ SYS_BUTTON_SLEEP); simpl;
    rewrite ?app_nil_r, ?filter_presses, ?Hp, ?Hs by done; done.
Qed.

Lemma filter_served e from : Forall (fun p => served_as (p, e)) (filter (fun p : press => e = p.1) (map (fun p => (p, false)) from)).
Proof.
  apply Forall_forall. intros p [Hp Hi]%list_elem_of_filter. apply list_elem_of_fmap in Hi as (x & -> & _). exact Hp.
Qed.

Lemma fixed_events_exact r Pending from : sending_exact (fixed_events r Pending (map (fun p => (p, r)) from)).
Proof.
  unfold fixed_events, sending_exact. destruct r.
  - constructor; [|constructor]. apply Forall_map, Forall_forall. by intros x _.
  - apply Forall_app. split; destruct (has_flag _ _); constructor; try apply filter_served; constructor.
Qed.

Lemma send_presses l e : list_weight (fun t => how_many e (task_presses t)) (send_tasks l) = how_many e (sending_presses l).
Proof. destruct l as [|[x p] l]; [done|]. simpl. unfold list_weight. simpl. lia. Qed.
Lemma send_events l e : list_weight (fun t => how_many e (task_events t)) (send_tasks l) = 0%nat.
Proof. by destruct l as [|[] ]. Qed.
Lemma send_exact l : sending_exact l -> Forall exact_task (send_tasks l).
Proof. intros H. destruct l as [|[] ]; [constructor|]. constructor; [exact H|constructor]. Qed.

(** A completion of an IRP that had none. *)
Lemma reports_complete id st n o (q : button_queue) : iq_books q !! id = Some [] -> exact_report (st, n, o) ->
  Forall (Forall exact_report) (iq_books q) ->
  Forall (Forall exact_report) (iq_books (complete_irp id st n o q)) /\
  forall e, list_weight (fun l => how_many e (reported_events l)) (iq_books (complete_irp id st n o q)) =
    (list_weight (fun l => how_many e (reported_events l)) (iq_books q) + how_many e (reported_events [(st, n, o)]))%nat.
Proof.
  intros Hi Hx Hf. rewrite books_complete. split.
  - apply Forall_alter; [done|]. intros x Hl Hx'. by constructor.
  - intros e. pose proof (list_weight_alter (fun l => how_many e (reported_events l)) (cons (st, n, o)) _ _ _ Hi) as Hw.
    cbv beta in Hw. change (how_many e (reported_events [])) with 0%nat in Hw. lia.
Qed.

Lemma reports_same (q q' : button_queue) : iq_books q' = iq_books q -> Forall (Forall exact_report) (iq_books q) ->
  Forall (Forall exact_report) (iq_books q') /\
  forall e, list_weight (fun l => how_many e (reported_events l)) (iq_books q') =
    list_weight (fun l => how_many e (reported_events l)) (iq_books q).
Proof. by intros ->. Qed.

Lemma take_waiter_books (q : button_queue) o q' : take_waiter q = (o, q') -> iq_books q' = iq_books q.
Proof.
  unfold take_waiter, take_routine. destruct (iq_List q) as [|h l]; [by intros; simplify_eq|].
  destruct (routine_set h q); intros; simplify_eq; rewrite ?books_unlink; by apply books_alter.
Qed.

Lemma empty_queue_books Entries : forall Orphans (q : button_queue),
  iq_books (empty_queue Entries Orphans q).2 = iq_books q.
Proof.
  induction Entries as [|h l IH]; intros Orphans q; [done|]. simpl.
  destruct (routine_set h (unlink h q)); rewrite IH, ?books_alter, ?books_unlink; done.
Qed.

(** A thread of which nothing is left to account for. *)
Lemma sound_drop t y : button_sound (bs_set_Tasks (t :: bs_Tasks y) y) ->
  (forall e, how_many e (task_events t) = 0%nat) -> (forall e, how_many e (task_presses t) = 0%nat) ->
  ~ looks_at_noted t -> button_sound y.
Proof.
  intros [] He Hp Hl. split; simpl in *; try done.
  - by inversion so_tasks0.
  - intros e. rewrite so_events0, weight_cons, He. lia.
  - intros e. rewrite so_presses0, weight_cons, Hp. lia.
  - intros Hd. destruct (so_dpc0 Hd) as [?|Hx]; [by left|right]. by inversion Hx.
Qed.

Lemma sound_queue q locked y : button_sound y -> iq_books q = iq_books (bs_Queue y) -> button_sound (bs_set_Queue q locked y).
Proof. intros [] E. split; simpl in *; rewrite ?E; done. Qed.

(** Threads that have nothing to account for. *)
Lemma sound_spawn l y : button_sound y -> Forall exact_task l ->
  (forall e, list_weight (fun t => how_many e (task_events t)) l = 0%nat) ->
  (forall e, list_weight (fun t => how_many e (task_presses t)) l = 0%nat) -> button_sound (bs_spawn l y).
Proof.
  intros [] Hx He Hp. split; simpl in *; try done.
  - by apply Forall_app.
  - intros e. by rewrite so_events0, weight_app, He.
  - intros e. by rewrite so_presses0, weight_app, Hp.
  - intros Hd. destruct (so_dpc0 Hd) as [?|Hn]; [by left|right]. apply Exists_app. by right.
Qed.

(** A completion reports what its thread still had. *)
Lemma sound_finish t id st n o y : button_sound (bs_set_Tasks (t :: bs_Tasks y) y) ->
  iq_books (bs_Queue y) !! id = Some [] -> exact_report (st, n, o) ->
  (forall e, how_many e (task_events t) = how_many e (reported_events [(st, n, o)])) ->
  (forall e, how_many e (task_presses t) = 0%nat) -> ~ looks_at_noted t -> button_sound (finish id st n o y).
Proof.
  intros S Hi Hx He Hp Hl. destruct S as [Sl Sn Sk St Sr Se Sp Sd Sv]. simpl in *.
  destruct (reports_complete _ _ _ _ _ Hi Hx Sr) as [Hr Hw].
  split; simpl; try done.
  - by inversion St.
  - intros e. rewrite Hw, <- He, Se, weight_cons. lia.
  - intros e. rewrite Sp, weight_cons, Hp. lia.
  - intros Hd. destruct (Sd Hd) as [?|Hy]; [by left|right]. by inversion Hy.
Qed.

Lemma sound_latched id y : button_sound (bs_set_Tasks (BtWait id :: bs_Tasks y) y) -> bt_ButtonEvents (bs_Button y) <> 0 ->
  button_sound (bs_spawn [BtLatched id (bt_ButtonEvents (bs_Button y)) (bs_LatchedFrom y)] (bs_set_Latched [] 0 y)).
Proof.
  intros [Sl Sn Sk St Sr Se Sp Sd Sv] Hn. simpl in *. split; simpl; try done.
  - inversion St; subst. constructor; [|done]. split; [done|]. intros E0. rewrite E0 in Sl. by apply Hn.
  - intros Hd. destruct (Sd Hd) as [?|Hy]; [by left|right]. right. by inversion Hy.
Qed.

Lemma sound_deliver Event Presses next y :
  button_sound (bs_set_Tasks (BtDeliver Event Presses next :: bs_Tasks y) y) -> button_sound (deliver_event Event Presses next y).
Proof.
  intros [Sl Sn Sk St Sr Se Sp Sd Sv]. unfold deliver_event. destruct (take_waiter _) as [o q] eqn:Ew.
  apply take_waiter_books in Ew. simpl in Ew, Sl, Sn, Sk, St, Sr, Se, Sp, Sd, Sv.
  apply Forall_cons in St as [Hx St]. apply Forall_cons in Hx as [Hx Hn]. simpl in Hx.
  assert (bs_DeferredFrom y <> [] -> bs_DpcQueued y = true \/ Exists looks_at_noted (bs_Tasks y)) as Sd'.
  { intros Hd. destruct (Sd Hd) as [?|Hy]; [by left|right]. by inversion Hy. }
  assert (Forall (fun s => served_as s /\ In s.2 (bs_Sent y ++ [Event])) (bs_Served y ++ map (fun p => (p, Event)) Presses)) as Sv'.
  { apply Forall_app. split.
    - eapply Forall_impl; [exact Sv|]. intros s [? ?]. split; [done|]. apply in_or_app. by left.
    - apply Forall_map. eapply Forall_impl; [exact Hx|]. intros p Hp. split; [done|]. apply in_or_app. right. by left. }
  assert (forall e, how_many e (served_presses (bs_Served y ++ map (fun p => (p, Event)) Presses)) =
    (how_many e (served_presses (bs_Served y)) + how_many e (map fst Presses))%nat) as Hm.
  { intros e. unfold served_presses. by rewrite map_app, many_app, map_map. }
  destruct o as [id|]; simpl.
  - split; simpl; rewrite ?Ew; try done.
    + by constructor.
    + intros e. rewrite many_app, Se, !weight_cons. simpl. lia.
    + intros e. rewrite Sp, !weight_cons, Hm. simpl. rewrite ?many_app. lia.
    + intros Hd. destruct (Sd' Hd); [by left|right; by right].
  - split; simpl; rewrite ?Ew; try done.
    + by rewrite lor_all_app, lor_all_one, Sl.
    + apply Forall_app. split; [by apply send_exact|done].
    + intros e. rewrite !many_app, Se, weight_cons, weight_app, send_events. simpl. lia.
    + intros e. rewrite Sp, weight_cons, weight_app, send_presses, Hm. simpl. rewrite ?many_app. lia.
    + intros Hd. destruct (Sd' Hd); [by left|right; apply Exists_app; by right].
Qed.

Lemma sound_defer Event y : button_sound (bs_set_Tasks (BtDefer Event :: bs_Tasks y) y) ->
  button_sound (bs_spawn [BtInsertDpc]
    (bs_set_Noted (bs_DeferredFrom y ++ [Event]) (Z.lor (bt_ButtonDeferred (bs_Button y)) Event) y)).
Proof.
  intros [Sl Sn Sk St Sr Se Sp Sd Sv]. simpl in *. apply Forall_cons in St as [Hk St]. split; simpl; try done.
  - by rewrite lor_all_app, lor_all_one, Sn.
  - apply Forall_app. split; [done|by constructor].
  - by constructor.
  - intros e. rewrite Sp, !weight_cons, many_app. simpl. lia.
  - intros _. right. by left.
Qed.

Lemma sound_dpc y : button_sound (bs_set_Tasks (BtDpc :: bs_Tasks y) y) ->
  button_sound (bs_spawn (if bt_ButtonDeferred (bs_Button y) =? 0 then []
                          else [BtDpcPending (bt_ButtonDeferred (bs_Button y)) (bs_DeferredFrom y)]) (bs_set_Noted [] 0 y)).
Proof.
  intros [Sl Sn Sk St Sr Se Sp Sd Sv]. simpl in *. apply Forall_cons in St as [_ St].
  destruct (Z.eqb_spec (bt_ButtonDeferred (bs_Button y)) 0) as [E0|E0].
  - assert (bs_DeferredFrom y = []) as Hn.
    { apply lor_all_zero; [|congruence]. eapply Forall_impl; [exact Sk|].
      intros x [->| ->]; apply flag_nonzero; [apply power_flag|apply sleep_flag]. }
    rewrite Hn in Sp. split; simpl; try done.
  - split; simpl; try done. by constructor.
Qed.

Lemma sound_pending Pending from y : button_sound (bs_set_Tasks (BtDpcPending Pending from :: bs_Tasks y) y) ->
  button_sound (bs_spawn (send_tasks (fixed_events (bs_Resuming y) Pending (map (fun p => (p, bs_Resuming y)) from))) y).
Proof.
  intros [Sl Sn Sk St Sr Se Sp Sd Sv]. simpl in *. apply Forall_cons in St as [ [-> Hk] St]. split; simpl; try done.
  - apply Forall_app. split; [apply send_exact, fixed_events_exact|done].
  - intros e. rewrite Se, weight_cons, weight_app, send_events. simpl. lia.
  - intros e. rewrite Sp, weight_cons, weight_app, send_presses, fixed_events_presses by done. simpl. lia.
  - intros Hd. destruct (Sd Hd) as [?|Hy]; [by left|right]. apply Exists_app. right. by inversion Hy.
Qed.

Lemma sound_delivered id Event next y : button_sound (bs_set_Tasks (BtDelivered id Event next :: bs_Tasks y) y) ->
  iq_books (bs_Queue y) !! id = Some [] ->
  button_sound (bs_spawn (send_tasks next) (finish id STATUS_SUCCESS 4 (Some (OutEvents Event [Event])) y)).
Proof.
  intros [Sl Sn Sk St Sr Se Sp Sd Sv] Hi. simpl in *. apply Forall_cons in St as [Hne St].
  assert (exact_report (STATUS_SUCCESS, 4, Some (OutEvents Event [Event]))) as Hx by (by rewrite <- (lor_all_one Event) at 1).
  destruct (reports_complete _ _ _ _ _ Hi Hx Sr) as [Hr Hw]. split; simpl; try done.
  - apply Forall_app. split; [by apply send_exact|done].
  - intros e. rewrite Hw, Se, weight_cons, weight_app, send_events. simpl. lia.
  - intros e. rewrite Sp, weight_cons, weight_app, send_presses. simpl. lia.
  - intros Hd. destruct (Sd Hd) as [?|Hy]; [by left|right]. apply Exists_app. right. by inversion Hy.
Qed.

Lemma sound_insert y : button_sound (bs_set_Tasks (BtInsertDpc :: bs_Tasks y) y) -> button_sound (bs_set_Dpc true y).
Proof. intros [Sl Sn Sk St Sr Se Sp Sd Sv]. simpl in *. apply Forall_cons in St as [_ St]. split; simpl; auto. Qed.

Lemma button_turn_sound t y y' : button_sound (bs_set_Tasks (t :: bs_Tasks y) y) ->
  queue_ok (fun _ => true) (bs_Locked y) (button_roles t ++ all_roles (bs_Tasks y)) (bs_Queue y) ->
  button_turn t y = Some y' -> button_sound y'.
Proof.
  intros S K E.
  assert (forall id rs, button_roles t = Holding id :: rs -> iq_books (bs_Queue y) !! id = Some []) as Hold.
  { intros id rs Er. eapply ok_uncompleted; [exact K|]. rewrite Er. simpl. rewrite weight_cons. simpl. rewrite one_eq. lia. }
  pose proof (sound_finish t) as Fin. pose proof (so_tasks _ S) as [Hx _]%Forall_cons. pose proof (sound_drop t y S) as Drop.
  destruct t as [id|id|id Events from|id|id st n o|id|id|id|Event Presses next|id Event next| |ids|Event| | |Pending from];
    simpl in E; try apply locking_some in E as [El ->]; simplify_eq/=; try specialize (Hold _ _ eq_refl).
  - unfold wait_enter. destruct (Z.eqb_spec (bt_ButtonEvents (bs_Button y)) 0) as [E0|E0]; simpl; [|by apply sound_latched].
    apply sound_spawn; [|by repeat constructor|done|done]. apply sound_queue; [by apply Drop; auto|by apply books_alter].
  - unfold wait_decide. destruct (insert_unless_cancelled id _) as [b q] eqn:Ed.
    apply sound_spawn; [|by destruct b; repeat constructor|by destruct b|by destruct b].
    apply sound_queue; [by apply Drop; auto|]. pose proof (books_decide id (bs_Queue y)) as Hb. by rewrite Ed in Hb.
  - destruct Hx as [-> Hn]. apply Fin; try done; try tauto. intros e. simpl. by rewrite app_nil_r.
  - apply Fin; try done; tauto.
  - apply Fin; try done; try tauto; by destruct o as [ [|] |].
  - destruct (routine_set id (bs_Queue y));
      (apply sound_spawn; [|by repeat constructor|done|done]); (apply sound_queue; [by apply Drop; auto|by apply books_alter]).
  - apply sound_spawn; [|by repeat constructor|done|done]. apply sound_queue; [by apply Drop; auto|apply books_unlink].
  - apply Fin; try done; tauto.
  - by apply sound_deliver.
  - by apply sound_delivered.
  - destruct (empty_queue _ _ _) as [O q] eqn:Ee. apply locking_some in E as [El ->].
    apply sound_spawn; [|by repeat constructor|done|done]. apply sound_queue; [by apply Drop; auto|].
    pose proof (empty_queue_books (iq_List (bs_Queue y)) [] (bs_Queue y)) as Hb. by rewrite Ee in Hb.
  - destruct ids as [|id ids]; simplify_eq/=; [by apply Drop; auto|].
    apply sound_spawn; [|by repeat constructor|done|done]. apply Fin; try done; try tauto. by eapply Hold.
  - by apply sound_defer.
  - by apply sound_insert.
  - by apply sound_dpc.
  - by apply sound_pending.
Qed.

Lemma sound_perm y l : bs_Tasks y ≡ₚ l -> button_sound y -> button_sound (bs_set_Tasks l y).
Proof.
  intros Hp []. split; simpl; try done.
  - by rewrite <- Hp.
  - intros e. by rewrite so_events0, (weight_perm _ _ _ Hp).
  - intros e. by rewrite so_presses0, (weight_perm _ _ _ Hp).
  - intros Hd. by rewrite <- Hp; auto.
Qed.

Lemma button_event_sound y y' : button_queue_ok y -> button_sound y -> button_event y y' -> button_sound y'.
Proof.
  intros K S Ht. destruct Ht as [t rest y y1 Hp E|y Hd].
  - eapply button_turn_sound; [|simpl|exact E]; [by apply (sound_perm _ _ Hp)|].
    eapply queue_ok_perm; [by apply roles_perm, Hp|exact K].
  - destruct S. split; simpl; try done.
    + by constructor.
    + intros _. right. by left.
Qed.

(** Neither word is touched. *)
Definition keeps_words (b b' : button) : Prop :=
  bt_ButtonEvents b' = bt_ButtonEvents b /\ bt_ButtonDeferred b' = bt_ButtonDeferred b.

Lemma lid_keeps b h e b' h' : UacpiNtLidReadEvent b h = (e, b', h') -> keeps_words b b'.
Proof.
  unfold UacpiNtLidReadEvent. destruct (if bt_Node b =? NULL then _ else _) as [Lid h1].
  destruct (bt_LidInitialReported b); intros; by simplify_eq.
Qed.

Lemma notify_keeps Value b h o b' h' : UacpiNtButtonNotify Value b h = (o, b', h') -> keeps_words b b'.
Proof.
  unfold UacpiNtButtonNotify. destruct (UacpiNtLidReadEvent b h) as [ [e b1] h1] eqn:El. apply lid_keeps in El.
  repeat case_match; intros; by simplify_eq.
Qed.

Lemma arm_keeps b h o b' h' : UacpiNtButtonArmWaitWake b h = (o, b', h') -> keeps_words b b'.
Proof.
  unfold UacpiNtButtonArmWaitWake. intros E.
  repeat match goal with
  | E : (if ?c then _ else _) = _ |- _ => destruct c
  | E : context [let '(_, _) := ?x in _] |- _ => destruct x as [ [? ?] ?]
  end; simplify_eq; done.
Qed.

Lemma hook_keeps Created Registered Policy b : keeps_words b (UacpiNtLidHookPolicy Created Registered Policy b).
Proof. unfold UacpiNtLidHookPolicy. destruct (negb _); [done|]. by destruct Policy. Qed.

Lemma start_keeps Interface Created Registered Policy o s b b' h h' :
  UacpiNtButtonStart Interface Created Registered Policy b h = (o, s, b', h') -> keeps_words b b'.
Proof.
  unfold UacpiNtButtonStart. intros E. destruct (_ || _); [by simplify_eq|]. destruct (negb _); [by simplify_eq|].
  pose proof (hook_keeps Created Registered Policy (bt_set_Registered true b)) as [H1 H2].
  destruct (has_flag _ _); [destruct (UacpiNtButtonNotify _ _ _) as [ [? b1] h1] eqn:En; apply notify_keeps in En as [? ?]|];
    destruct (UacpiNtButtonArmWaitWake _ _) as [ [? b2] h2] eqn:Ea; apply arm_keeps in Ea as [? ?]; simplify_eq/=;
    split; simpl in *; congruence.
Qed.

Lemma sound_button b h y : button_sound y -> keeps_words (bs_Button y) b -> button_sound (bs_set_Button b h y).
Proof. intros [] [E1 E2]. split; simpl; rewrite ?E1, ?E2; done. Qed.

Lemma sound_send o y : button_sound y ->
  button_sound (bs_spawn (match o with Some Event => [BtDeliver Event [] []] | None => [] end) y).
Proof. intros S. apply sound_spawn; [done|by destruct o; repeat constructor|by destruct o|by destruct o]. Qed.

Lemma sound_arrive r y : button_sound y -> button_sound (bs_set_Queue (iq_arrive r (bs_Queue y)) (bs_Locked y) y).
Proof.
  intros []. split; simpl; rewrite ?books_arrive; try done.
  - apply Forall_app. split; [done|by repeat constructor].
  - intros e. rewrite so_events0, (weight_app _ (iq_books _)). unfold list_weight. simpl. lia.
Qed.

Lemma call_exact Caps r st n o : UacpiNtButtonDeviceControl Caps r = Answer st n o ->
  match o with Some (OutEvents _ _) => False | _ => True end.
Proof. unfold UacpiNtButtonDeviceControl. repeat case_match; intros; by simplify_eq. Qed.

Lemma sound_call r y : button_sound y -> button_sound (button_call r y).
Proof.
  intros S. unfold button_call. destruct (UacpiNtButtonDeviceControl _ r) as [|st n o|] eqn:E; [done|..].
  - apply sound_spawn; [by apply sound_arrive| |done|done]. repeat constructor. by eapply call_exact.
  - apply sound_spawn; [by apply sound_arrive|by repeat constructor|done|done].
Qed.

Lemma button_arrival_sound cancels y y' : button_sound y -> button_arrival cancels y y' -> button_sound y'.
Proof.
  intros S Ha.
  destruct Ha as [r y|id y Hc Hl|Value o b h y E|Interface Created Registered Policy o s b h y E|Event y He|y Hn|r y].
  - by apply sound_call.
  - apply sound_spawn; [|by repeat constructor|done|done]. apply sound_queue; [done|]. by apply books_alter.
  - by apply sound_send, sound_button, (notify_keeps _ _ _ _ _ _ E).
  - by apply sound_send, sound_button, (start_keeps _ _ _ _ _ _ _ _ _ _ E).
  - destruct S. split; simpl; try done.
    + by constructor.
    + intros e. rewrite many_app, so_presses0, weight_cons. simpl. unfold how_many. simpl. lia.
    + intros Hd. destruct (so_dpc0 Hd); [by left|right; by right].
  - apply sound_spawn; [|by repeat constructor|done|done]. apply sound_button; [done|].
    unfold button_withdraw. by destruct (bt_ButtonIfRegistered (bs_Button y)).
  - by destruct S.
Qed.

Lemma button_run_sound cancels b h y : fresh_button b -> button_run cancels (buttons_start b h) y ->
  button_queue_ok y /\ button_sound y.
Proof.
  intros [Hb Hd] Hr. remember (buttons_start b h) as y0 eqn:E0. induction Hr as [y|y y1 y2 Hr IH Ht|y y1 y2 Hr IH Ht].
  - subst. split; [apply queue_ok_start|]. by split.
  - destruct (IH E0). split; [by eapply button_event_ok|by eapply button_event_sound].
  - destruct (IH E0). split; [by eapply button_arrival_ok|by eapply button_arrival_sound].
Qed.
End Events.

(** ** What the buttons promise *)
Section Promises.
Context {Po : PoClass} {A : Acpi}.

(** No thread is left and no DPC is queued. *)
Definition buttons_at_rest (y : button_system) : Prop := bs_Tasks y = [] /\ bs_DpcQueued y = false.

(** The IRP waits in the list, where it can be cancelled. *)
Definition button_waits (id : nat) (i : listed_irp button_request button_output) (y : button_system) : Prop :=
  li_Completions i = [] /\ In id (iq_List (bs_Queue y)) /\ li_CancelRoutine i = true /\ li_Cancel i = false.

(** C33.  However control calls, cancellations, deliveries and a removal interleave,
    no IRP is completed twice and no entry is unlinked that is in no list; when
    all threads are done, every IRP was completed, or waits in the list with its
    cancel routine set and nobody has cancelled it. *)
Theorem button_irps_answered cancels b h y : button_run cancels (buttons_start b h) y ->
  iq_Broken (bs_Queue y) = false /\
  forall id i, iq_Irps (bs_Queue y) !! id = Some i ->
    (length (li_Completions i) <= 1)%nat /\
    (bs_Tasks y = [] -> length (li_Completions i) = 1%nat \/ button_waits id i y).
Proof.
  intros Hr. pose proof (button_run_ok _ _ _ _ Hr) as K. unfold button_queue_ok in K. split; [apply (qo_intact _ _ _ _ K)|].
  intros id i Hi. split; [by eapply ok_at_most_once|]. intros Ht.
  assert (bs_Locked y = false) as El.
  { pose proof (qo_locked _ _ _ _ K) as Hk. rewrite Ht in Hk. by destruct (bs_Locked y). }
  rewrite Ht, El in K. destruct (ok_rest _ _ _ _ K Hi) as [?|(Hc & Hl & Hw)]; [by left|right].
  unfold button_waits. specialize (Hw eq_refl). tauto.
Qed.

(** ** Rest *)

Definition sending_work (l : sending) : nat := 2 * length l.

Definition task_work (t : button_task) : nat :=
  match t with
  | BtWait _ => 5
  | BtWaitLocked _ => 4
  | BtIoCancel _ => 3
  | BtCancel _ => 2
  | BtLatched _ _ _ | BtRefused _ | BtAnswer _ _ _ _ | BtCancelled _ => 1
  | BtDeliver _ _ next => 2 + sending_work next
  | BtDelivered _ _ next => 1 + sending_work next
  | BtRemove => 2
  | BtOrphans ids => 1 + length ids
  | BtDefer _ => 9
  | BtInsertDpc => 8
  | BtDpc => 6
  | BtDpcPending _ _ => 5
  end.

(** The turns that are left when nothing more comes from outside. *)
Definition button_work (y : button_system) : nat :=
  list_weight task_work (bs_Tasks y) + length (iq_List (bs_Queue y)) + 7 * Nat.b2n (bs_DpcQueued y).

Lemma send_work l : list_weight task_work (send_tasks l) = sending_work l.
Proof. destruct l as [|[] l]; [done|]. unfold list_weight, sending_work. simpl. unfold sending_work. lia. Qed.

Lemma fixed_work r Pending from : (sending_work (fixed_events r Pending from) <= 4)%nat.
Proof. unfold sending_work, fixed_events. destruct r; [simpl; lia|]. destruct (has_flag Pending _), (has_flag Pending _); simpl; lia. Qed.

Lemma take_waiter_length (q : button_queue) o q' : take_waiter q = (o, q') -> (length (iq_List q') <= length (iq_List q))%nat.
Proof.
  unfold take_waiter, take_routine. destruct (iq_List q) as [|h l] eqn:El; [intros; simplify_eq; by rewrite El|].
  destruct (routine_set h q); intros; simplify_eq.
  - etrans; [apply unlink_shorter|]. simpl. by rewrite El.
  - simpl. by rewrite El.
Qed.

Lemma empty_queue_length Entries : forall Orphans (q : button_queue),
  (length (empty_queue Entries Orphans q).1 <= length Orphans + length Entries)%nat.
Proof.
  induction Entries as [|h l IH]; intros Orphans q; simpl; [lia|].
  destruct (routine_set h (unlink h q)); (etrans; [apply IH|]); rewrite ?length_app; simpl; lia.
Qed.

Lemma empty_queue_list Entries : forall Orphans (q : button_queue), iq_List q = Entries ->
  iq_List (empty_queue Entries Orphans q).2 = [].
Proof.
  induction Entries as [|h l IH]; intros Orphans q El; [done|]. simpl. rewrite (unlink_head h l) by done.
  destruct (routine_set h _); by apply IH.
Qed.

Lemma work_spawn l y : button_work (bs_spawn l y) = (list_weight task_work l + button_work y)%nat.
Proof. unfold button_work. change (bs_Tasks (bs_spawn l y)) with (l ++ bs_Tasks y). rewrite weight_app. simpl. lia. Qed.
Lemma work_queue q b y : (button_work (bs_set_Queue q b y) + length (iq_List (bs_Queue y)) = button_work y + length (iq_List q))%nat.
Proof. unfold button_work. simpl. lia. Qed.
Lemma one_work t : list_weight task_work [t] = task_work t.
Proof. unfold list_weight. simpl. lia. Qed.
Lemma no_work : list_weight task_work [] = 0%nat.
Proof. done. Qed.

(** A turn that puts threads [l] in the place of its own and changes the queue. *)
Lemma work_step l q b y n : (list_weight task_work l + length (iq_List q) < n + length (iq_List (bs_Queue y)))%nat ->
  (button_work (bs_spawn l (bs_set_Queue q b y)) < n + button_work y)%nat.
Proof. rewrite work_spawn. pose proof (work_queue q b y). lia. Qed.

Lemma work_finish id st n o y m : (0 < m)%nat -> (button_work (finish id st n o y) < m + button_work y)%nat.
Proof. intros. pose proof (work_queue (complete_irp id st n o (bs_Queue y)) (bs_Locked y) y) as Hq. unfold finish. simpl in Hq. lia. Qed.

Lemma button_turn_less t y y' : button_turn t y = Some y' -> (button_work y' < task_work t + button_work y)%nat.
Proof.
  intros E.
  destruct t as [id|id|id Events from|id|id st n o|id|id|id|Event Presses next|id Event next| |ids|Event| | |Pending from];
    cbn [button_turn] in E; try apply locking_some in E as [El ->]; simplify_eq; cbn [task_work];
    try (apply work_finish; lia).
  - unfold wait_enter. destruct (negb _); [|apply work_step; rewrite one_work; simpl; lia].
    rewrite work_spawn, one_work. change (button_work (bs_set_Latched [] 0 y)) with (button_work y). simpl. lia.
  - unfold wait_decide, insert_unless_cancelled. destruct (_ && _); apply work_step;
      rewrite ?one_work, ?no_work; simpl; rewrite ?length_app; simpl; lia.
  - unfold take_routine in E. simplify_eq. apply work_step. destruct (routine_set id _); rewrite ?one_work, ?no_work; simpl; lia.
  - apply work_step. rewrite one_work. pose proof (unlink_shorter id (bs_Queue y)). simpl. lia.
  - unfold deliver_event. destruct (take_waiter _) as [o q] eqn:Ew. apply take_waiter_length in Ew.
    destruct o; [|rewrite work_spawn, send_work].
    + pose proof (work_step [BtDelivered n Event next] q false (bs_send Event Presses y) (2 + sending_work next)) as Hw.
      apply Hw. rewrite one_work. simpl in *. lia.
    + pose proof (work_queue q false (bs_send Event Presses y)) as Hq. unfold button_work in *. simpl in *. lia.
  - rewrite work_spawn, send_work.
    pose proof (work_finish id STATUS_SUCCESS 4 (Some (OutEvents Event [Event])) y 1). lia.
  - pose proof (empty_queue_length (iq_List (bs_Queue y)) [] (bs_Queue y)) as Hl.
    pose proof (empty_queue_list (iq_List (bs_Queue y)) [] (bs_Queue y) eq_refl) as He.
    destruct (empty_queue _ _ _) as [O q]. apply locking_some in E as [El ->]. simpl in Hl, He.
    apply work_step. rewrite He, one_work. simpl. lia.
  - destruct ids as [|id ids]; simplify_eq; [simpl; lia|]. rewrite work_spawn, one_work. simpl.
    pose proof (work_finish id STATUS_DELETE_PENDING 0 None y 1). lia.
  - rewrite work_spawn, one_work. unfold button_work. simpl. lia.
  - unfold button_work. destruct (bs_DpcQueued y); simpl; lia.
  - rewrite work_spawn. destruct (_ =? 0); rewrite ?one_work, ?no_work; unfold button_work; simpl; lia.
  - pose proof (fixed_work (bs_Resuming y) Pending (map (fun p => (p, bs_Resuming y)) from)). rewrite work_spawn, send_work. lia.
Qed.

Lemma button_event_less y y' : button_event y y' -> (button_work y' < button_work y)%nat.
Proof.
  intros Ht. destruct Ht as [t rest y y1 Hp E|y Hd].
  - apply button_turn_less in E. unfold button_work in *. simpl in E. rewrite (weight_perm _ _ _ Hp), weight_cons. lia.
  - rewrite work_spawn, one_work. unfold button_work. simpl. rewrite Hd. simpl. lia.
Qed.

Lemma button_events_bounded n : forall y y', nsteps button_event n y y' -> (n <= button_work y)%nat.
Proof.
  induction n as [|n IH]; intros y y' H; [lia|]. inversion H as [|? ? y1 ? H1 H2]; subst.
  apply IH in H2. apply button_event_less in H1. lia.
Qed.

(** Whoever does not wait for the lock can go on. *)
Lemma button_turn_runs t y : bs_Locked y = false \/ (exists id, t = BtWaitLocked id) ->
  exists y', button_turn t y = Some y'.
Proof.
  intros [El|[id ->] ]; [|by eexists].
  destruct t as [| | | | |id| | | | | |ids| | | |]; simpl; rewrite ?El; try by eexists.
  - destruct (empty_queue _ _ _). by eexists.
  - destruct ids; by eexists.
Qed.

Lemma deciding_task ts : (0 < list_weight any_deciding (all_roles ts))%nat -> exists id, In (BtWaitLocked id) ts.
Proof.
  induction ts as [|t ts IH]; unfold all_roles; simpl; [unfold list_weight; simpl; lia|]. rewrite weight_app. intros H.
  assert (list_weight any_deciding (button_roles t) = 0%nat \/ exists id, t = BtWaitLocked id) as [E|[id ->] ].
  { destruct t as [|id| | | | | | | | | |ids| | | |]; eauto. left. simpl. induction ids as [|x l IHl]; [done|]. by rewrite map_cons, weight_cons, IHl. }
  - rewrite E in H. destruct (IH H) as [id Hi]. exists id. by right.
  - exists id. by left.
Qed.

Lemma button_progress y : button_queue_ok y -> buttons_at_rest y \/ exists y', button_event y y'.
Proof.
  intros K. destruct (bs_DpcQueued y) eqn:Hd; [right; eexists; by apply bev_dpc|].
  destruct (bs_Locked y) eqn:El.
  - right. pose proof (qo_locked _ _ _ _ K) as Hk. rewrite El in Hk. simpl in Hk.
    destruct (deciding_task (bs_Tasks y)) as [id Hi]; [lia|].
    apply list_elem_of_In, elem_of_Permutation in Hi as [rest Hp].
    destruct (button_turn_runs (BtWaitLocked id) (bs_set_Tasks rest y)) as [y' E]; [eauto|].
    exists y'. by eapply bev_task.
  - destruct (bs_Tasks y) as [|t rest] eqn:Et; [by left|right].
    destruct (button_turn_runs t (bs_set_Tasks rest y)) as [y' E]; [by left|].
    exists y'. eapply bev_task; [by rewrite Et|done].
Qed.

Lemma many_flat {B} (f : B -> list Z) l e : how_many e (flat_map f l) = list_weight (fun t => how_many e (f t)) l.
Proof. induction l as [|x l IH]; [done|]. simpl. by rewrite many_app, weight_cons, IH. Qed.

Context {PL : PoClassLaws}.

(** Every event that is sent is reported in exactly one completed IRP, or
    latched, or in the hands of a thread; a report succeeds and its word is the union
    of the events it stands for, as is the latched word.  Every press of a fixed
    button is noted, or in the hands of a thread, or was sent once. *)
Theorem button_events_accounted cancels b h y : fresh_button b -> button_run cancels (buttons_start b h) y ->
  bs_Sent y ≡ₚ bs_LatchedFrom y ++ flat_map task_events (bs_Tasks y) ++ flat_map reported_events (iq_books (bs_Queue y)) /\
  bs_Pressed y ≡ₚ bs_DeferredFrom y ++ flat_map task_presses (bs_Tasks y) ++ served_presses (bs_Served y) /\
  bt_ButtonEvents (bs_Button y) = lor_all (bs_LatchedFrom y) /\
  bt_ButtonDeferred (bs_Button y) = lor_all (bs_DeferredFrom y) /\
  Forall (Forall exact_report) (iq_books (bs_Queue y)).
Proof.
  intros Hf Hr. destruct (button_run_sound _ _ _ _ Hf Hr) as [_ []].
  split_and!; try done; apply (Permutation_count_occ Z.eq_dec); intros e;
    rewrite !count_occ_app; fold (how_many e (flat_map task_events (bs_Tasks y)));
    fold (how_many e (flat_map task_presses (bs_Tasks y))); fold (how_many e (flat_map reported_events (iq_books (bs_Queue y))));
    rewrite !many_flat.
  - specialize (so_events0 e). unfold how_many in *. lia.
  - specialize (so_presses0 e). unfold how_many in *. lia.
Qed.

(** Every flag of the event is in the latched word, or in the word that a completed
    IRP gave its caller. *)
Definition carried (y : button_system) (Event : Z) : Prop :=
  Z.land (bt_ButtonEvents (bs_Button y)) Event = Event \/
  exists id l Events from, iq_books (bs_Queue y) !! id = Some l /\
    In (STATUS_SUCCESS, 4, Some (OutEvents Events from)) l /\ Z.land Events Event = Event.

Lemma lor_all_in e l : In e l -> Z.land (lor_all l) e = e.
Proof.
  induction l as [|x l IH]; [intros []|]. simpl. rewrite Z.land_lor_distr_l. intros [->|Hi].
  - rewrite Z.land_diag. apply Z.bits_inj'. intros n Hn. rewrite Z.lor_spec, Z.land_spec.
    destruct (Z.testbit e n); [done|]. by rewrite andb_false_r.
  - rewrite (IH Hi). apply Z.bits_inj'. intros n Hn. rewrite Z.lor_spec, Z.land_spec.
    destruct (Z.testbit e n); [by rewrite orb_true_r|]. by rewrite andb_false_r.
Qed.

Lemma sent_carried y e : button_sound y -> bs_Tasks y = [] -> In e (bs_Sent y) -> carried y e.
Proof.
  intros [Sl _ _ _ Sr Se _ _ _] Ht Hi. specialize (Se e). rewrite Ht in Se. unfold list_weight at 1 in Se. simpl in Se.
  apply (count_occ_In Z.eq_dec) in Hi. fold (how_many e (bs_Sent y)) in Hi.
  destruct (in_dec Z.eq_dec e (bs_LatchedFrom y)) as [Hl|Hl]; [left; rewrite Sl; by apply lor_all_in|right].
  apply (count_occ_not_In Z.eq_dec) in Hl. fold (how_many e (bs_LatchedFrom y)) in Hl.
  assert (0 < how_many e (flat_map reported_events (iq_books (bs_Queue y))))%nat as Hr by (rewrite many_flat; lia).
  unfold how_many in Hr. apply (count_occ_In Z.eq_dec), in_flat_map in Hr as (l & Hl' & Hr).
  apply list_elem_of_In, list_elem_of_lookup in Hl' as (id & Hid). pose proof (Forall_lookup_1 _ _ _ _ Sr Hid) as Hx.
  unfold reported_events in Hr. apply in_flat_map in Hr as ([ [st n] o] & Hc & Hr). rewrite List.Forall_forall in Hx.
  specialize (Hx _ Hc). destruct o as [ [|Events from] |]; simpl in Hr; try done. destruct Hx as (-> & -> & -> & _).
  exists id, l, (lor_all from), from. split_and!; [done|done|by apply lor_all_in].
Qed.

(** C32.  The driver of a button whose words start at 0 always goes on until it is at
    rest, within a bounded number of turns once nothing comes from outside.  At rest
    every press of a fixed button was sent exactly once, as the event of that button,
    or as a wake when its DPC found the resume window open.  Every event sent was
    reported to exactly one wait or is latched, once; the latched word is the union
    of what is latched, and a report succeeds with the union of what it stands for.
    So the flag of every press is in a word that a caller got, or in the latched
    word, for the next wait. *)
Theorem button_presses_served cancels b h y : fresh_button b -> button_run cancels (buttons_start b h) y ->
  (buttons_at_rest y \/ exists y', button_event y y') /\
  (forall n y', nsteps button_event n y y' -> (n <= button_work y)%nat) /\
  (buttons_at_rest y ->
     bs_Pressed y ≡ₚ served_presses (bs_Served y) /\ bt_ButtonDeferred (bs_Button y) = 0 /\
     Forall (fun s : Z * bool * Z => let '(Press, Window, Event) := s in
       Event = (if Window then SYS_BUTTON_WAKE else Press) /\ carried y Event) (bs_Served y) /\
     bs_Sent y ≡ₚ bs_LatchedFrom y ++ flat_map reported_events (iq_books (bs_Queue y)) /\
     bt_ButtonEvents (bs_Button y) = lor_all (bs_LatchedFrom y) /\
     Forall (Forall exact_report) (iq_books (bs_Queue y))).
Proof.
  intros Hf Hr. destruct (button_run_sound _ _ _ _ Hf Hr) as [K S].
  split; [by apply button_progress|]. split; [intros n y'; apply button_events_bounded|].
  intros [Ht Hd]. pose proof (fun e => sent_carried y e S Ht) as Hc. destruct S as [Sl Sn Sk St Sr Se Sp Sd Sv]. rewrite Ht in *.
  assert (bs_DeferredFrom y = []) as Hn.
  { destruct (bs_DeferredFrom y); [done|]. destruct Sd as [?|Hx]; [done|congruence|by inversion Hx]. }
  rewrite Hn in *. split_and!; [| | | |done|done]; try apply (Permutation_count_occ Z.eq_dec).
  - intros e. specialize (Sp e). unfold how_many in Sp. simpl in Sp. unfold list_weight in Sp. simpl in Sp. lia.
  - by rewrite Sn.
  - eapply Forall_impl; [exact Sv|]. intros [ [Press Window] Event] [H1 H2]. split; [exact H1|by apply Hc].
  - intros e. rewrite count_occ_app. fold (how_many e (flat_map reported_events (iq_books (bs_Queue y)))).
    rewrite many_flat. specialize (Se e). unfold how_many in *. unfold list_weight at 1 in Se. simpl in Se. lia.
Qed.
End Promises.

(** ** Without cancellations *)
Section Calm.
Context {Po : PoClass} {A : Acpi}.

Definition no_cancel (t : button_task) : Prop := match t with BtIoCancel _ | BtCancel _ => False | _ => True end.

Record button_calm (y : button_system) : Prop := {
  cl_tasks : Forall no_cancel (bs_Tasks y);
  cl_cancelled : forall id, cancelled id (bs_Queue y) = false;
  cl_deciding : forall id, In (BtWaitLocked id) (bs_Tasks y) -> routine_set id (bs_Queue y) = true;
  cl_listed : forall id, In id (iq_List (bs_Queue y)) -> routine_set id (bs_Queue y) = true;
  cl_prompt : bt_ButtonEvents (bs_Button y) <> 0 -> iq_List (bs_Queue y) = [];
  cl_locked : bs_Locked y = true -> bt_ButtonEvents (bs_Button y) = 0
}.

Lemma routine_alter f id k (q : button_queue) :
  routine_set k (iq_alter f id q) =
    match iq_Irps q !! k with Some i => li_CancelRoutine (if decide (k = id) then f i else i) | None => false end.
Proof.
  unfold routine_set. simpl. case_decide as Hk; [subst; rewrite list_lookup_alter_eq; by destruct (iq_Irps q !! id)|].
  by rewrite list_lookup_alter_ne.
Qed.

Lemma routine_other f id k (q : button_queue) : k <> id -> routine_set k (iq_alter f id q) = routine_set k q.
Proof. intros Hk. unfold routine_set. simpl. by rewrite list_lookup_alter_ne. Qed.

Lemma cancelled_alter f id k (q : button_queue) : (forall i, li_Cancel (f i) = li_Cancel i) ->
  cancelled k (iq_alter f id q) = cancelled k q.
Proof.
  intros Hf. unfold cancelled. simpl. destruct (decide (k = id)) as [->|].
  - rewrite list_lookup_alter_eq. destruct (iq_Irps q !! id); simpl; [by rewrite Hf|done].
  - by rewrite list_lookup_alter_ne.
Qed.

Lemma routine_keeps f id k (q : button_queue) : (forall i, li_CancelRoutine i = true -> li_CancelRoutine (f i) = true) ->
  routine_set k q = true -> routine_set k (iq_alter f id q) = true.
Proof.
  intros Hf. rewrite routine_alter. unfold routine_set. destruct (iq_Irps q !! k); [|done]. case_decide; auto.
Qed.

Lemma unlocked_deciding y ts id : queue_ok (fun _ => true) false (all_roles ts) (bs_Queue y) -> ~ In (BtWaitLocked id) ts.
Proof.
  intros K Hi. pose proof (qo_locked _ _ _ _ K) as Hk. apply in_split in Hi as (l1 & l2 & ->).
  rewrite all_roles_app, weight_app in Hk. simpl in Hk. rewrite weight_cons in Hk. simpl in Hk. lia.
Qed.
Definition plain_task (t : button_task) : Prop := match t with BtIoCancel _ | BtCancel _ | BtWaitLocked _ => False | _ => True end.

Lemma send_plain l : Forall plain_task (send_tasks l).
Proof. destruct l as [|[] ]; by repeat constructor. Qed.

(** A turn that does not touch the list. *)
Lemma calm_frame t l y y' : button_calm (bs_set_Tasks (t :: bs_Tasks y) y) -> bs_Tasks y' = l ++ bs_Tasks y ->
  Forall plain_task l -> iq_List (bs_Queue y') = iq_List (bs_Queue y) ->
  (forall k, routine_set k (bs_Queue y) = true -> routine_set k (bs_Queue y') = true) ->
  (forall k, cancelled k (bs_Queue y') = cancelled k (bs_Queue y)) ->
  bt_ButtonEvents (bs_Button y') = bt_ButtonEvents (bs_Button y) \/ bt_ButtonEvents (bs_Button y') = 0 ->
  bs_Locked y' = bs_Locked y -> button_calm y'.
Proof.
  intros [Ct Cc Cd Cl Cp Ck] Et Hl El Hr Hc He Ek. simpl in *. apply Forall_cons in Ct as [_ Ct].
  split; rewrite ?Et, ?El, ?Ek.
  - apply Forall_app. split; [eapply Forall_impl; [exact Hl|by intros []]|done].
  - intros id. by rewrite Hc.
  - intros id [Hi|Hi]%in_app_or; [|by auto]. rewrite List.Forall_forall in Hl. by apply Hl in Hi.
  - auto.
  - intros Hn. apply Cp. destruct He; congruence.
  - intros Hk. destruct He as [->|]; auto.
Qed.

Lemma calm_finish t l id st n o y : button_calm (bs_set_Tasks (t :: bs_Tasks y) y) -> Forall plain_task l ->
  button_calm (bs_spawn l (finish id st n o y)).
Proof.
  intros C Hl. eapply calm_frame; [exact C|done|done|done| |intros; by apply cancelled_alter|by left|done].
  intros k. by apply routine_keeps.
Qed.

Lemma calm_other t l y y' : button_calm (bs_set_Tasks (t :: bs_Tasks y) y) -> bs_Tasks y' = l ++ bs_Tasks y ->
  Forall plain_task l -> bs_Queue y' = bs_Queue y -> bs_Locked y' = bs_Locked y ->
  bt_ButtonEvents (bs_Button y') = bt_ButtonEvents (bs_Button y) \/ bt_ButtonEvents (bs_Button y') = 0 -> button_calm y'.
Proof. intros C Et Hl Eq Ek He. eapply calm_frame; try done; by rewrite Eq. Qed.

Lemma calm_enter id y : button_calm (bs_set_Tasks (BtWait id :: bs_Tasks y) y) -> bt_ButtonEvents (bs_Button y) = 0 ->
  queue_ok (fun _ => true) false (Entering id :: all_roles (bs_Tasks y)) (bs_Queue y) ->
  button_calm (bs_spawn [BtWaitLocked id] (bs_set_Queue (set_routine id (bs_Queue y)) true y)).
Proof.
  intros [Ct Cc Cd Cl Cp Ck] E0 K. simpl in *. apply Forall_cons in Ct as [_ Ct].
  destruct (answering_known _ _ id _ _ K) as [i Hi]; [rewrite weight_cons; simpl; rewrite one_eq; lia|].
  split; simpl; try done.
  - by constructor.
  - intros k. unfold set_routine. by rewrite cancelled_alter.
  - intros k [Hk|Hk]; [simplify_eq|apply routine_keeps; auto].
    unfold set_routine. rewrite routine_alter, Hi, decide_True by done. done.
  - intros k Hk. apply routine_keeps; auto.
Qed.

Lemma calm_decide id y : button_calm (bs_set_Tasks (BtWaitLocked id :: bs_Tasks y) y) -> bs_Locked y = true ->
  queue_ok (fun _ => true) true (Deciding id :: all_roles (bs_Tasks y)) (bs_Queue y) -> button_calm (wait_decide id y).
Proof.
  intros [Ct Cc Cd Cl Cp Ck] El K. simpl in *. apply Forall_cons in Ct as [_ Ct].
  unfold wait_decide, insert_unless_cancelled. rewrite Cc. simpl. split; simpl; auto.
  - intros k Hk. apply Cd. by right.
  - intros k [Hk|[<-|[] ] ]%in_app_or; [by apply Cl|apply Cd; by left].
  - intros Hn. by destruct (Hn (Ck El)).
Qed.

Lemma head_unlinked h l rs (q : button_queue) k : queue_ok (fun _ => true) false rs q -> iq_List q = h :: l -> In k l -> k <> h.
Proof.
  intros K El Hk ->. pose proof (qo_path _ _ _ _ K h) as Hp. rewrite El in Hp. unfold occurs in Hp.
  rewrite weight_cons, one_eq in Hp. apply in_split in Hk as (l1 & l2 & ->).
  rewrite weight_app, weight_cons, one_eq in Hp. pose proof (known_le h q). lia.
Qed.

Lemma calm_deliver Event Presses next y : button_calm (bs_set_Tasks (BtDeliver Event Presses next :: bs_Tasks y) y) ->
  bs_Locked y = false -> queue_ok (fun _ => true) false (all_roles (bs_Tasks y)) (bs_Queue y) ->
  button_calm (deliver_event Event Presses next y).
Proof.
  intros [Ct Cc Cd Cl Cp Ck] El K. simpl in *. apply Forall_cons in Ct as [_ Ct].
  unfold deliver_event, take_waiter. simpl. destruct (iq_List (bs_Queue y)) as [|h l] eqn:Eq.
  - split; simpl; try done.
    + apply Forall_app. split; [eapply Forall_impl; [apply send_plain|by intros []]|done].
    + intros id [Hi|Hi]%in_app_or; [|by apply Cd; right].
      pose proof (send_plain next) as Hp. rewrite List.Forall_forall in Hp. by apply Hp in Hi.
    + by rewrite Eq.
  - unfold take_routine. rewrite (Cl h) by by left. rewrite (unlink_head h l) by done.
    assert (bt_ButtonEvents (bs_Button y) = 0) as E0.
    { destruct (Z.eq_dec (bt_ButtonEvents (bs_Button y)) 0) as [|Hn]; [done|]. by apply Cp in Hn. }
    split; simpl; try done.
    + by constructor.
    + intros k. change (cancelled k (iq_alter (li_set_Routine false) h (bs_Queue y)) = false). by rewrite cancelled_alter.
    + intros k [?|Hk]; [done|]. exfalso. by eapply unlocked_deciding.
    + intros k Hk. change (routine_set k (iq_alter (li_set_Routine false) h (bs_Queue y)) = true).
      rewrite routine_other by (by eapply head_unlinked). apply Cl. by right.
Qed.
Lemma calm_remove O q y : button_calm (bs_set_Tasks (BtRemove :: bs_Tasks y) y) -> bs_Locked y = false ->
  queue_ok (fun _ => true) false (all_roles (bs_Tasks y)) (bs_Queue y) ->
  empty_queue (iq_List (bs_Queue y)) [] (bs_Queue y) = (O, q) ->
  button_calm (bs_spawn [BtOrphans O] (bs_set_Queue q false y)).
Proof.
  intros [Ct Cc Cd Cl Cp Ck] El K Ee. simpl in *. apply Forall_cons in Ct as [_ Ct].
  pose proof (empty_queue_list (iq_List (bs_Queue y)) [] (bs_Queue y) eq_refl) as He. rewrite Ee in He. simpl in He.
  assert (forall l P q, (forall k, cancelled k q = false) -> forall k, cancelled k (empty_queue l P q).2 = false) as Hc.
  { clear. induction l as [|h l IH]; intros P q H k; [apply H|]. simpl.
    assert (forall k, cancelled k (unlink h q) = false) as Hu.
    { intros k'. rewrite <- (H k'). unfold cancelled, unlink. destruct (existsb _ _); [done|].
      destruct (iq_Irps q !! h) as [i|]; [by destruct (li_SelfLinked i)|done]. }
    destruct (routine_set h _); apply IH; intros k'; rewrite ?cancelled_alter by done; apply Hu. }
  split; simpl; rewrite ?He; try done.
  - by constructor.
  - intros k. specialize (Hc (iq_List (bs_Queue y)) [] _ Cc k). by rewrite Ee in Hc.
  - intros k [?|Hk]; [done|]. exfalso. by eapply unlocked_deciding.
Qed.

Lemma calm_turn t y y' : button_calm (bs_set_Tasks (t :: bs_Tasks y) y) ->
  queue_ok (fun _ => true) (bs_Locked y) (button_roles t ++ all_roles (bs_Tasks y)) (bs_Queue y) ->
  button_turn t y = Some y' -> button_calm y'.
Proof.
  intros C K E. pose proof (cl_tasks _ C) as [Hn _]%Forall_cons.
  pose proof (calm_finish t [] ) as Fin. pose proof (fun l y' => calm_other t l y y' C) as Other.
  destruct t as [id|id|id Events from|id|id st n o|id|id|id|Event Presses next|id Event next| |ids|Event| | |Pending from];
    simpl in E, K; try apply locking_some in E as [El ->]; try rewrite El in K; simplify_eq; try done; try by apply Fin.
  - unfold wait_enter. destruct (Z.eqb_spec (bt_ButtonEvents (bs_Button y)) 0) as [E0|E0]; simpl; [by apply calm_enter|].
    apply (Other [BtLatched id (bt_ButtonEvents (bs_Button y)) (bs_LatchedFrom y)]); try done; [by repeat constructor|by right].
  - apply calm_decide; [done| |]; pose proof (qo_locked _ _ _ _ K) as Hk; rewrite weight_cons in Hk; simpl in Hk;
      destruct (bs_Locked y); done.
  - by apply calm_deliver.
  - apply (calm_finish (BtDelivered id Event next)); [done|apply send_plain].
  - destruct (empty_queue _ _ _) as [O q] eqn:Ee. apply locking_some in E as [El ->]. rewrite El in K. by apply calm_remove.
  - destruct ids as [|id ids]; simplify_eq; [apply (Other []); try done; by left|].
    apply (calm_finish (BtOrphans (id :: ids))); [done|by repeat constructor].
  - apply (Other [BtInsertDpc]); try done; [by repeat constructor|by left].
  - apply (Other []); try done; by left.
  - apply (Other (if bt_ButtonDeferred (bs_Button y) =? 0 then [] else [BtDpcPending (bt_ButtonDeferred (bs_Button y)) (bs_DeferredFrom y)]));
      try done; [destruct (_ =? 0); by repeat constructor|by left].
  - apply (Other (send_tasks (fixed_events (bs_Resuming y) Pending (map (fun p => (p, bs_Resuming y)) from)))); try done; [apply send_plain|by left].
Qed.
Lemma calm_spawn l y : button_calm y -> Forall plain_task l -> button_calm (bs_spawn l y).
Proof.
  intros [] Hl. split; simpl; try done.
  - apply Forall_app. split; [eapply Forall_impl; [exact Hl|by intros []]|done].
  - intros id [Hi|Hi]%in_app_or; [|by auto]. rewrite List.Forall_forall in Hl. by apply Hl in Hi.
Qed.

Lemma calm_button b h y : button_calm y -> keeps_words (bs_Button y) b -> button_calm (bs_set_Button b h y).
Proof. intros [] [E1 E2]. split; simpl; rewrite ?E1; done. Qed.

Lemma calm_arrive r y : button_calm y -> button_calm (bs_set_Queue (iq_arrive r (bs_Queue y)) (bs_Locked y) y).
Proof.
  intros [Ct Cc Cd Cl Cp Ck].
  assert (forall k, routine_set k (bs_Queue y) = true -> routine_set k (iq_arrive r (bs_Queue y)) = true) as Hr.
  { intros k. unfold routine_set. simpl. destruct (iq_Irps (bs_Queue y) !! k) as [i|] eqn:Hi; [|done].
    rewrite lookup_app_l by (by eapply lookup_lt_Some). by rewrite Hi. }
  split; simpl; auto.
  intros k. specialize (Cc k). unfold cancelled in *. simpl.
  destruct (decide (k < length (iq_Irps (bs_Queue y)))%nat); [by rewrite lookup_app_l|].
  rewrite lookup_app_r by lia. by destruct (k - length (iq_Irps (bs_Queue y)))%nat as [|[|] ].
Qed.

Lemma calm_event y y' : button_queue_ok y -> button_calm y -> button_event y y' -> button_calm y'.
Proof.
  intros K C Ht. destruct Ht as [t rest y y1 Hp E|y Hd].
  - eapply calm_turn; [| |exact E]; simpl; [|eapply queue_ok_perm; [by apply roles_perm, Hp|exact K] ].
    destruct C as [Ct Cc Cd Cl Cp Ck]. split; simpl; try done; [by rewrite <- Hp|].
    intros id Hi. apply Cd. apply list_elem_of_In. rewrite Hp. by apply list_elem_of_In.
  - apply (calm_spawn [BtDpc]); [by destruct C|by repeat constructor].
Qed.

Lemma calm_arrival y y' : button_calm y -> button_arrival false y y' -> button_calm y'.
Proof.
  intros C Ha.
  destruct Ha as [r y|id y Hc Hl|Value o b h y E|Interface Created Registered Policy o s b h y E|Event y He|y Hn|r y]; try done.
  - unfold button_call. destruct (UacpiNtButtonDeviceControl _ r); [done|..]; apply calm_spawn;
      try (by repeat constructor); by apply calm_arrive.
  - apply calm_spawn; [|destruct o; by repeat constructor]. by apply calm_button, (notify_keeps _ _ _ _ _ _ E).
  - apply calm_spawn; [|destruct o; by repeat constructor]. by apply calm_button, (start_keeps _ _ _ _ _ _ _ _ _ _ E).
  - apply (calm_spawn [BtDefer Event]); [by destruct C|by repeat constructor].
  - apply (calm_spawn [BtRemove]); [|by repeat constructor]. apply calm_button; [done|].
    unfold button_withdraw. by destruct (bt_ButtonIfRegistered (bs_Button y)).
  - by destruct C.
Qed.

(** While nobody cancels, an event is never kept back from a wait: whenever the
    lock is free, either no event is latched or no IRP waits. *)
Theorem button_prompt b h y : fresh_button b -> button_run false (buttons_start b h) y -> bs_Locked y = false ->
  bt_ButtonEvents (bs_Button y) = 0 \/ iq_List (bs_Queue y) = [].
Proof.
  intros [Hb _] Hr El. assert (button_calm y) as C.
  { clear El. remember (buttons_start b h) as y0 eqn:E0.
    induction Hr as [y|y y1 y2 Hr IH Ht|y y1 y2 Hr IH Ht].
    - subst. by split.
    - subst. eapply calm_event; [by eapply button_run_ok|by apply IH|done].
    - eapply calm_arrival; [by apply IH|done]. }
  destruct (Z.eq_dec (bt_ButtonEvents (bs_Button y)) 0) as [|Hn]; [by left|right]. by apply (cl_prompt _ C).
Qed.
End Calm.

(** ** Scripts

    A run spelled out: which thread of the list takes its turn, or what comes. *)
Inductive button_move :=
| MoveTask (k : nat)
| MoveDpc
| MoveCall (r : button_request)
| MoveCancel (id : nat)
| MoveNotify (Value : Z)
| MovePower
| MoveSleep
| MoveRemove
| MoveResume (r : bool).

Section Scripts.
Context {Po : PoClass} {A : Acpi}.

Definition make_move (cancels : bool) (m : button_move) (y : button_system) : option button_system :=
  match m with
  | MoveTask k =>
      match bs_Tasks y !! k with
      | Some t => button_turn t (bs_set_Tasks (delete k (bs_Tasks y)) y)
      | None => None
      end
  | MoveDpc => if bs_DpcQueued y then Some (bs_spawn [BtDpc] (bs_set_Dpc false y)) else None
  | MoveCall r => Some (button_call r y)
  | MoveCancel id =>
      if cancels && (id <? length (iq_Irps (bs_Queue y)))%nat
      then Some (bs_spawn [BtIoCancel id] (bs_set_Queue (iq_alter li_set_Cancel id (bs_Queue y)) (bs_Locked y) y))
      else None
  | MoveNotify Value =>
      let '(o, b, h) := UacpiNtButtonNotify Value (bs_Button y) (bs_Calls y) in
      Some (bs_spawn (match o with Some Event => [BtDeliver Event [] []] | None => [] end) (bs_set_Button b h y))
  | MovePower => Some (bs_spawn [BtDefer SYS_BUTTON_POWER] (bs_press SYS_BUTTON_POWER y))
  | MoveSleep => Some (bs_spawn [BtDefer SYS_BUTTON_SLEEP] (bs_press SYS_BUTTON_SLEEP y))
  | MoveRemove =>
      if bt_ButtonCaps (bs_Button y) =? 0 then None
      else Some (bs_spawn [BtRemove] (bs_set_Button (button_withdraw (bs_Button y)) (bs_Calls y) y))
  | MoveResume r => Some (bs_set_Resuming r y)
  end.

Fixpoint make_moves (cancels : bool) (ms : list button_move) (y : button_system) : option button_system :=
  match ms with
  | [] => Some y
  | m :: ms => match make_move cancels m y with Some y => make_moves cancels ms y | None => None end
  end.

Lemma move_runs cancels m y y' : make_move cancels m y = Some y' -> button_event y y' \/ button_arrival cancels y y'.
Proof.
  destruct m as [k| |r|id|Value| | | |r]; simpl; intros E.
  - destruct (bs_Tasks y !! k) as [t|] eqn:Et; [|done]. left. eapply bev_task; [|exact E]. by apply delete_Permutation.
  - destruct (bs_DpcQueued y) eqn:Hd; [|done]. simplify_eq. left. by apply bev_dpc.
  - simplify_eq. right. apply bar_call.
  - destruct cancels; [|done]. destruct (id <? _)%nat eqn:Hl; [|done]. simpl in E. simplify_eq. right. apply bar_cancel; [done|by apply Nat.ltb_lt].
  - destruct (UacpiNtButtonNotify _ _ _) as [ [o b] h] eqn:En. simplify_eq. right. by eapply bar_notify.
  - simplify_eq. right. apply bar_fixed. by left.
  - simplify_eq. right. apply bar_fixed. by right.
  - destruct (Z.eqb_spec (bt_ButtonCaps (bs_Button y)) 0); [done|]. simplify_eq. right. by apply bar_remove.
  - simplify_eq. right. apply bar_resume.
Qed.

Lemma moves_run cancels ms : forall y0 y y', button_run cancels y0 y -> make_moves cancels ms y = Some y' -> button_run cancels y0 y'.
Proof.
  induction ms as [|m ms IH]; intros y0 y y' Hr E; simpl in E; [by simplify_eq|].
  destruct (make_move cancels m y) as [y1|] eqn:Em; [|done]. apply move_runs in Em.
  eapply IH; [|exact E]. destruct Em; [by eapply brun_event|by eapply brun_arrival].
Qed.
End Scripts.

(** ** A fixed button on the values of the Windows kit *)

#[export] Instance kit_flags : PoClass := {|
  SYS_BUTTON_POWER := 0x1;
  SYS_BUTTON_SLEEP := 0x2;
  SYS_BUTTON_LID := 0x4;
  SYS_BUTTON_WAKE := 0x80000000;
  SYS_BUTTON_LID_INITIAL := 0x40000;
  SYS_BUTTON_LID_CHANGED := 0x80000;
  IOCTL_GET_SYS_BUTTON_CAPS := 0x294140;
  IOCTL_GET_SYS_BUTTON_EVENT := 0x294144
|}.

#[export] Instance kit_laws : PoClassLaws.
Proof.
  split.
  - unfold button_flags. simpl. repeat constructor; [exists 0|exists 1|exists 2|exists 31|exists 18|exists 19]; lia.
  - unfold button_flags. by eapply bool_decide_unpack; vm_compute.
  - done.
Qed.

Definition bench_button : button := fixed_button (UacpiNtFixedButtonCaps 0).
Definition event_request : button_request := mkButtonRequest IOCTL_GET_SYS_BUTTON_EVENT true 4 true.
Definition no_acpi : Acpi := scripted_acpi [] [] [].

(** Two waits come and stay in the list. *)
Definition two_waits : list button_move :=
  [MoveCall event_request; MoveTask 0; MoveTask 0; MoveCall event_request; MoveTask 0; MoveTask 0].
(** The power button, its DPC, and the delivery up to the lock. *)
Definition power_press : list button_move := [MovePower; MoveTask 0; MoveTask 0; MoveDpc; MoveTask 0; MoveTask 0].

Definition run_moves (ms : list button_move) : button_system :=
  default (buttons_start bench_button []) (make_moves (A := no_acpi) true ms (buttons_start bench_button [])).

Lemma run_moves_run ms : button_run (A := no_acpi) true (buttons_start bench_button []) (run_moves ms).
Proof.
  unfold run_moves. destruct (make_moves _ _ _) as [y|] eqn:E; simpl; [|constructor].
  eapply moves_run; [constructor|exact E].
Qed.

(** A press is delivered while the first waiter's cancel routine is on its way: it
    is latched although the second waiter waits, and stays so until a third wait or
    the next event comes.  The code means to hand an event to a waiter. *)
Definition stranded_press : button_system :=
  run_moves (two_waits ++ power_press ++ [MoveCancel 0; MoveTask 0; MoveTask 1; MoveTask 0; MoveTask 0]).

Lemma press_strands_behind_cancel :
  button_run (A := no_acpi) true (buttons_start bench_button []) stranded_press /\ buttons_at_rest stranded_press /\
  bt_ButtonEvents (bs_Button stranded_press) = SYS_BUTTON_POWER /\ iq_List (bs_Queue stranded_press) = [1%nat] /\
  routine_set 1 (bs_Queue stranded_press) = true.
Proof. split; [apply run_moves_run|]. split; [split; reflexivity|]. split_and!; reflexivity. Qed.

(** A run that uses every path: two waits, a press that serves the first, a
    cancellation of the second, two presses in the resume window with nobody
    waiting, a wait that takes what was latched, and the removal. *)
Definition busy_moves : list button_move :=
  two_waits ++ power_press ++ [MoveTask 0; MoveTask 0; MoveCancel 1; MoveTask 0; MoveTask 0; MoveTask 0; MoveResume true] ++
  [MovePower; MoveTask 0; MoveSleep; MoveTask 0; MoveTask 0; MoveTask 0; MoveDpc; MoveTask 0; MoveTask 0; MoveTask 0] ++
  [MoveCall event_request; MoveTask 0; MoveTask 0; MoveCall event_request; MoveTask 0; MoveTask 0] ++
  [MoveRemove; MoveTask 0; MoveTask 0; MoveTask 0].

Lemma busy_fresh : fresh_button bench_button.
Proof. by split. Qed.

Lemma button_irps_answered_witness :
  buttons_at_rest (run_moves busy_moves) /\
  iq_books (bs_Queue (run_moves busy_moves)) =
    [ [(STATUS_SUCCESS, 4, Some (OutEvents SYS_BUTTON_POWER [SYS_BUTTON_POWER]))]; [(STATUS_CANCELLED, 0, None)];
      [(STATUS_SUCCESS, 4, Some (OutEvents SYS_BUTTON_WAKE [SYS_BUTTON_WAKE]))]; [(STATUS_DELETE_PENDING, 0, None)] ] /\
  iq_Broken (bs_Queue (run_moves busy_moves)) = false.
Proof.
  split; [split; reflexivity|]. split; [reflexivity|].
  apply (button_irps_answered (A := no_acpi) true bench_button [] _ (run_moves_run busy_moves)).
Defined.

Lemma button_events_accounted_witness :
  bs_Sent (run_moves busy_moves) = [SYS_BUTTON_POWER; SYS_BUTTON_WAKE] /\
  bs_Pressed (run_moves busy_moves) ≡ₚ bs_DeferredFrom (run_moves busy_moves) ++
    flat_map task_presses (bs_Tasks (run_moves busy_moves)) ++ served_presses (bs_Served (run_moves busy_moves)).
Proof.
  split; [reflexivity|].
  apply (button_events_accounted (A := no_acpi) true bench_button [] _ busy_fresh (run_moves_run busy_moves)).
Defined.

Lemma button_presses_served_witness :
  bs_Pressed (run_moves busy_moves) = [SYS_BUTTON_POWER; SYS_BUTTON_POWER; SYS_BUTTON_SLEEP] /\
  bs_Served (run_moves busy_moves) = [(SYS_BUTTON_POWER, false, SYS_BUTTON_POWER); (SYS_BUTTON_POWER, true, SYS_BUTTON_WAKE);
    (SYS_BUTTON_SLEEP, true, SYS_BUTTON_WAKE)] /\
  bs_Pressed (run_moves busy_moves) ≡ₚ served_presses (bs_Served (run_moves busy_moves)).
Proof.
  split; [reflexivity|]. split; [reflexivity|].
  apply (button_presses_served (A := no_acpi) true bench_button [] _ busy_fresh (run_moves_run busy_moves)).
  split; reflexivity.
Defined.
