(* ===== verification/Thermal.v ===== *)
(** A thermal zone seen by its worker: drivers/thermal.c, the evaluations.

    The readings, the trip points and what is done with them.  Who asks for them, and
    how the threads that ask meet, is in ThermalZone.v. *)
From stdpp Require Import base list numbers option strings relations.
From Stdlib Require Import ZArith Lia Ascii.
From S2P Require Import Prelude NtEnv AcpiEnv Bytes PowerRes PowerCaps.

(** ** The release the driver is built for *)

(** NTDDI_VERSION: below NTDDI_WIN8, from there, from NTDDI_WIN10. *)
Inductive ntddi := NtVista | NtWin8 | NtWin10.
Definition from_win8 (t : ntddi) : bool := match t with NtVista => false | _ => true end.
Definition from_win10 (t : ntddi) : bool := match t with NtWin10 => true | _ => false end.

Definition MAX_ACTIVE_COOLING_LEVELS : nat := 10.
Definition MAXULONG : Z := 4294967295.
Definition MAXUSHORT : Z := 65535.

(** ** What a zone knows *)

(** The fields of UACPINT_THERMAL_INFO but the stamp, which the lock guards. *)
Record UACPINT_THERMAL_INFO := mkThermalInfo {
  ti_ThermalConstant1 : Z;
  ti_ThermalConstant2 : Z;
  ti_SamplingPeriod : Z;
  ti_CurrentTemperature : Z;
  ti_PassiveTripPoint : Z;
  ti_StandbyTripPoint : Z;
  ti_CriticalTripPoint : Z;
  ti_S4TripPoint : Z;
  ti_ActiveTripPointCount : Z;
  ti_ActiveTripPoint : list Z;
  ti_MinimumThrottle : Z;
  ti_OverThrottleThreshold : Z;
  ti_Processors : Z
}.

(** A UNICODE_STRING with a buffer: its bytes, [Length] and [MaximumLength]. *)
Record unicode_buffer := mkUnicode { us_Buffer : list Z; us_Length : Z; us_MaximumLength : Z }.

(** The fields of UACPINT_THERMAL_ZONE that the worker owns. *)
Record zone_data := mkZoneData {
  zd_DtiArmed : bool;
  zd_TripDelta : Z;
  zd_NotifiedTemperature : Z;
  zd_DsmFunctions : Z;
  zd_Description : option unicode_buffer;
  zd_Info : UACPINT_THERMAL_INFO
}.

Definition zd_set_Info (i : UACPINT_THERMAL_INFO) (z : zone_data) : zone_data :=
  mkZoneData (zd_DtiArmed z) (zd_TripDelta z) (zd_NotifiedTemperature z) (zd_DsmFunctions z) (zd_Description z) i.
Definition ti_set_Temperature (v : Z) (i : UACPINT_THERMAL_INFO) : UACPINT_THERMAL_INFO :=
  mkThermalInfo (ti_ThermalConstant1 i) (ti_ThermalConstant2 i) (ti_SamplingPeriod i) v (ti_PassiveTripPoint i)
    (ti_StandbyTripPoint i) (ti_CriticalTripPoint i) (ti_S4TripPoint i) (ti_ActiveTripPointCount i)
    (ti_ActiveTripPoint i) (ti_MinimumThrottle i) (ti_OverThrottleThreshold i) (ti_Processors i).
Definition ti_set_Throttle (m o : Z) (i : UACPINT_THERMAL_INFO) : UACPINT_THERMAL_INFO :=
  mkThermalInfo (ti_ThermalConstant1 i) (ti_ThermalConstant2 i) (ti_SamplingPeriod i) (ti_CurrentTemperature i)
    (ti_PassiveTripPoint i) (ti_StandbyTripPoint i) (ti_CriticalTripPoint i) (ti_S4TripPoint i)
    (ti_ActiveTripPointCount i) (ti_ActiveTripPoint i) m o (ti_Processors i).

(** The memory of a new device extension. *)
Definition zero_info : UACPINT_THERMAL_INFO :=
  mkThermalInfo 0 0 0 0 0 0 0 0 0 (replicate MAX_ACTIVE_COOLING_LEVELS 0) 0 0 0.
Definition zero_zone : zone_data := mkZoneData false 0 0 0 None zero_info.

(** "_AC" or "_AL" with a digit. *)
Definition level_method (prefix : string) (Count : nat) : string :=
  String.append prefix (String (ascii_of_nat (48 + Count)) EmptyString).

Section Readings.
Context {A : Acpi} (Target : ntddi).

Definition UacpiNtThermalEvalInteger (Node : acpi_node) (Method : string) (h : list acpi_call)
  : option Z * list acpi_call :=
  if Node =? NULL then (None, h)
  else let '(Result, h) := uacpi_eval_simple_integer Node Method h in (option_map u32 Result, h).

Definition UacpiNtThermalEvalDefault (Node : acpi_node) (Method : string) (Default : Z) (h : list acpi_call)
  : Z * list acpi_call :=
  let '(Value, h) := UacpiNtThermalEvalInteger Node Method h in (default Default Value, h).

Definition UacpiNtThermalCallWithInteger (Node : acpi_node) (Method : string) (Argument : Z) (h : list acpi_call)
  : list acpi_call :=
  if (Node =? NULL) || negb (UacpiNtNodeHasChild h Node Method) then h
  else if answer_create h 0 then (uacpi_eval Node Method [UACPI_OBJECT_INTEGER Argument] h).2
  else h.

(** The trip points from [Count] on, with [n] left to look for. *)
Fixpoint read_active (n Count : nat) (Node : acpi_node) (h : list acpi_call) : list Z * list acpi_call :=
  match n with
  | O => ([], h)
  | S n =>
      let '(Value, h) := UacpiNtThermalEvalInteger Node (level_method "_AC" Count) h in
      match Value with
      | None => ([], h)
      | Some v => let '(l, h) := read_active n (S Count) Node h in (v :: l, h)
      end
  end.
(** The array is zero from the count on. *)
Definition UacpiNtThermalReadActiveTrips (Node : acpi_node) (h : list acpi_call) : Z * list Z * list acpi_call :=
  let '(l, h) := read_active MAX_ACTIVE_COOLING_LEVELS 0 Node h in
  (Z.of_nat (length l), l ++ replicate (MAX_ACTIVE_COOLING_LEVELS - length l) 0, h).

(** ** The extensions of Windows 10 *)

(** {14D399CD-7A27-4B18-8FB4-7CB7B9F4E500} in memory. *)
Definition UacpiNtThermalDsmUuid : list Z :=
  [0xcd; 0x99; 0xd3; 0x14; 0x27; 0x7a; 0x18; 0x4b; 0x8f; 0xb4; 0x7c; 0xb7; 0xb9; 0xf4; 0xe5; 0x00].

Definition UacpiNtThermalEvalDsm (Node : acpi_node) (Function : Z) (h : list acpi_call)
  : option uacpi_object * list acpi_call :=
  if negb (UacpiNtNodeHasChild h Node "_DSM") then (None, h)
  else if answer_create h 0 && answer_create h 1 && answer_create h 2 && answer_create h 3 then
    let Arguments := [UACPI_OBJECT_BUFFER UacpiNtThermalDsmUuid; UACPI_OBJECT_INTEGER 0;
                      UACPI_OBJECT_INTEGER Function; UACPI_OBJECT_PACKAGE []] in
    let '(st, Result, h) := uacpi_eval Node "_DSM" Arguments h in
    (if uacpi_likely_success st then Result else None, h)
  else (None, h).

(** [DsmFunctions & (1 << Function)] comes first. *)
Definition UacpiNtThermalDsmPercent (Node : acpi_node) (Functions Function : Z) (h : list acpi_call)
  : option Z * list acpi_call :=
  if negb (has_flag Functions (Z.shiftl 1 Function)) then (None, h)
  else
    let '(Result, h) := UacpiNtThermalEvalDsm Node Function h in
    (option_map (fun Value => if 100 <? Value then 100 else u32 Value) (Result ≫= uacpi_object_get_integer), h).

(** wcslen. *)
Fixpoint wcslen (Text : list Z) : nat :=
  match Text with
  | lo :: hi :: Text => if (lo =? 0) && (hi =? 0) then 0 else S (wcslen Text)
  | _ => 0
  end.

(** The buffer holds whole characters and ends with a NUL. *)
Definition description_valid (View : list Z) : bool :=
  let n := Z.of_nat (length View) in
  (2 <? n) && (n mod 2 =? 0) && (n <=? MAXUSHORT) &&
  (match drop (length View - 2) View with [lo; hi] => (lo =? 0) && (hi =? 0) | _ => false end).

Definition UacpiNtThermalReadDescription (Node : acpi_node) (z : zone_data) (h : list acpi_call) (w : world)
  : zone_data * list acpi_call * world :=
  let '(st, Object, h) := uacpi_eval Node "_STR" [] h in
  match (if uacpi_unlikely_error st then None else Object ≫= uacpi_object_get_buffer) with
  | None => (z, h, w)
  | Some View =>
      if negb (description_valid View) then (z, h, w)
      else
        let '(ok, w) := ExAllocatePoolWithTag (Z.of_nat (length View)) w in
        if negb ok then (z, h, w)
        else
          let Length := u16 (Z.of_nat (wcslen View) * 2) in
          (mkZoneData (zd_DtiArmed z) (zd_TripDelta z) (zd_NotifiedTemperature z) (zd_DsmFunctions z)
             (Some (mkUnicode View Length (u16 (Length + 2)))) (zd_Info z), h, w)
  end.

(** The copy that is handed out, [None] for an empty string. *)
Definition UacpiNtThermalCopyDescription (z : zone_data) (w : world) : option unicode_buffer * world :=
  match zd_Description z with
  | None => (None, w)
  | Some d =>
      let '(ok, w) := ExAllocatePoolWithTag (us_MaximumLength d) w in
      if negb ok then (None, w)
      else (Some (mkUnicode (take (Z.to_nat (us_MaximumLength d)) (us_Buffer d)) (us_Length d) (us_MaximumLength d)), w)
  end.

Definition UacpiNtThermalReadThrottleLimits (Node : acpi_node) (Functions : Z) (i : UACPINT_THERMAL_INFO)
  (h : list acpi_call) : UACPINT_THERMAL_INFO * list acpi_call :=
  let '(Value, h) := UacpiNtThermalEvalInteger Node "_MTL" h in
  let '(Minimum, h) :=
    match Value with
    | Some v => (if 100 <? v then 100 else v, h)
    | None => let '(p, h) := UacpiNtThermalDsmPercent Node Functions 1 h in (default 0 p, h)
    end in
  let '(Over, h) := UacpiNtThermalDsmPercent Node Functions 3 h in
  (ti_set_Throttle Minimum (default 0 Over) i, h).

(** ** The steps of the worker *)

Definition UacpiNtThermalInit (Node : acpi_node) (z : zone_data) (h : list acpi_call) (w : world)
  : zone_data * list acpi_call * world :=
  let unarmed z := mkZoneData false (zd_TripDelta z) (zd_NotifiedTemperature z) (zd_DsmFunctions z) (zd_Description z) (zd_Info z) in
  if negb (from_win10 Target) then (unarmed z, h, w)
  else
    let '(Result, h) := UacpiNtThermalEvalDsm Node 0 h in
    let Functions := match Result ≫= uacpi_object_get_buffer with Some (Mask :: _) => Mask | _ => 0 end in
    let z := mkZoneData (zd_DtiArmed z) (zd_TripDelta z) (zd_NotifiedTemperature z) Functions (zd_Description z) (zd_Info z) in
    match zd_Description z with
    | Some _ => (unarmed z, h, w)
    | None => let '(z, h, w) := UacpiNtThermalReadDescription Node z h w in (unarmed z, h, w)
    end.

(** Whether a listed processor can be found. *)
Definition UacpiNtThermalPassiveProcessors (ActiveProcessors : Z) (Node : acpi_node) (h : list acpi_call)
  : Z * list acpi_call :=
  let '(st, Package, h) := uacpi_eval Node "_PSL" [] h in
  match (if uacpi_unlikely_error st then None else Package ≫= uacpi_object_get_package) with
  | None => (0, h)
  | Some Elements =>
      (if existsb (fun o => match element_target h Node o with Some n => negb (n =? NULL) | None => false end) Elements
       then ActiveProcessors else 0, h)
  end.

(** [ActiveProcessors]: KeQueryActiveProcessors. *)
Definition UacpiNtThermalReadTrips (ActiveProcessors : Z) (Node : acpi_node) (z : zone_data) (h : list acpi_call)
  : zone_data * list acpi_call :=
  let i := zd_Info z in
  let '(Tc1, h) := UacpiNtThermalEvalDefault Node "_TC1" 0 h in
  let '(Tc2, h) := UacpiNtThermalEvalDefault Node "_TC2" 0 h in
  let '(Psv, h) := UacpiNtThermalEvalDefault Node "_PSV" 0 h in
  let '(Crt, h) := UacpiNtThermalEvalDefault Node "_CRT" 0 h in
  let '(Period, h) :=
    if from_win10 Target then
      let '(Tfp, h) := UacpiNtThermalEvalInteger Node "_TFP" h in
      match Tfp with
      | Some v => (v, h)
      | None => let '(Tsp, h) := UacpiNtThermalEvalDefault Node "_TSP" 0 h in (u32 (Tsp * 100), h)
      end
    else UacpiNtThermalEvalDefault Node "_TSP" 0 h in
  let '(Cr3, h) := if from_win10 Target then UacpiNtThermalEvalDefault Node "_CR3" 0 h else (ti_StandbyTripPoint i, h) in
  let '(Hot, h) := if from_win8 Target then UacpiNtThermalEvalDefault Node "_HOT" 0 h else (ti_S4TripPoint i, h) in
  let '(Ntt, h) := if from_win8 Target then UacpiNtThermalEvalDefault Node "_NTT" 0 h else (zd_TripDelta z, h) in
  let '(Count, Active, h) := UacpiNtThermalReadActiveTrips Node h in
  let i := mkThermalInfo Tc1 Tc2 Period (ti_CurrentTemperature i) Psv Cr3 Crt Hot Count Active
             (ti_MinimumThrottle i) (ti_OverThrottleThreshold i) (ti_Processors i) in
  let '(i, h) :=
    match Target with
    | NtWin10 => UacpiNtThermalReadThrottleLimits Node (zd_DsmFunctions z) i h
    | NtWin8 => (i, h)
    | NtVista =>
        let '(p, h) := UacpiNtThermalPassiveProcessors ActiveProcessors Node h in
        (mkThermalInfo Tc1 Tc2 Period (ti_CurrentTemperature i) Psv Cr3 Crt Hot Count Active
           (ti_MinimumThrottle i) (ti_OverThrottleThreshold i) p, h)
    end in
  (mkZoneData (zd_DtiArmed z) Ntt (zd_NotifiedTemperature z) (zd_DsmFunctions z) (zd_Description z) i, h).

(** ** Cooling devices *)

(** The root's devices; UacpiNtFindPdoByNode gives the first with the node. *)
Definition UacpiNtFindPdoByNode (Node : acpi_node) (Pdos : list pdo_power) : option nat :=
  find_index (fun p => pp_Node p =? Node) Pdos.

Definition apply_element (Zone : acpi_node) (State : Z) (o : uacpi_object) (ps : list pdo_power * power_state)
  : list pdo_power * power_state :=
  let '(Pdos, s) := ps in
  match element_target (pw_Calls s) Zone o with
  | None => ps
  | Some Device =>
      if Device =? NULL then ps
      else match UacpiNtFindPdoByNode Device Pdos with
           | None => ps
           | Some k =>
               match Pdos !! k with
               | None => ps
               | Some Cooler =>
                   if negb (pp_DStateKnown Cooler) || negb (pp_CurrentDState Cooler =? State)
                   then let '(_, Cooler, s) := UacpiNtPowerSetDeviceState Cooler State s in (<[k := Cooler]> Pdos, s)
                   else ps
               end
           end
  end.

Definition UacpiNtThermalApplyActiveList (Zone : acpi_node) (Package : list uacpi_object) (State : Z)
  (ps : list pdo_power * power_state) : list pdo_power * power_state :=
  foldl (fun ps o => apply_element Zone State o ps) ps Package.

Fixpoint run_active (n Index : nat) (Zone : acpi_node) (Level : Z) (ps : list pdo_power * power_state)
  : list pdo_power * power_state :=
  match n with
  | O => ps
  | S n =>
      let '(st, Package, h) := uacpi_eval Zone (level_method "_AL" Index) [] (pw_Calls ps.2) in
      let ps := (ps.1, pw_set_Calls h ps.2) in
      match (if uacpi_unlikely_error st then None else Package ≫= uacpi_object_get_package) with
      | None => ps
      | Some Elements =>
          run_active n (S Index) Zone Level
            (UacpiNtThermalApplyActiveList Zone Elements
               (if Level <=? Z.of_nat Index then PowerDeviceD0 else PowerDeviceD3) ps)
      end
  end.
Definition UacpiNtThermalRunActive := run_active MAX_ACTIVE_COOLING_LEVELS 0.

(** ** Notifications of the platform *)

Definition trip_points (i : UACPINT_THERMAL_INFO) : list Z :=
  [ti_PassiveTripPoint i; ti_CriticalTripPoint i; ti_S4TripPoint i] ++
  (if from_win10 Target then [ti_StandbyTripPoint i] else []) ++
  take (Z.to_nat (ti_ActiveTripPointCount i)) (ti_ActiveTripPoint i).

Definition UacpiNtThermalCrossedTrip (i : UACPINT_THERMAL_INFO) (NotifiedTemperature : Z) : bool :=
  let Current := ti_CurrentTemperature i in
  existsb (fun Trip => negb (Trip =? 0) &&
             (((NotifiedTemperature <? Trip) && (Trip <=? Current)) ||
              ((Current <=? Trip) && (Trip <? NotifiedTemperature)))) (trip_points i).

(** The subtraction and the addition are those of ULONG. *)
Definition dti_rearm (z : zone_data) : bool :=
  let Current := ti_CurrentTemperature (zd_Info z) in
  let Notified := zd_NotifiedTemperature z in
  let Delta := zd_TripDelta z in
  let Rearm := negb (zd_DtiArmed z) in
  let Rearm :=
    if negb Rearm && negb (Delta =? 0)
    then ((Delta <? Notified) && (Current <=? u32 (Notified - Delta))) ||
         ((Notified <=? u32 (MAXULONG - Delta)) && (u32 (Notified + Delta) <=? Current))
    else Rearm in
  if Rearm then true else UacpiNtThermalCrossedTrip (zd_Info z) Notified.

Definition UacpiNtThermalCheckDti (Node : acpi_node) (z : zone_data) (h : list acpi_call) : zone_data * list acpi_call :=
  if negb (UacpiNtNodeHasChild h Node "_DTI") then (z, h)
  else if negb (dti_rearm z) then (z, h)
  else
    let Current := ti_CurrentTemperature (zd_Info z) in
    (mkZoneData true (zd_TripDelta z) Current (zd_DsmFunctions z) (zd_Description z) (zd_Info z),
     UacpiNtThermalCallWithInteger Node "_DTI" Current h).

(** UacpiNtThermalReadTemperature after the stamp. *)
Definition read_temperature (Node : acpi_node) (z : zone_data) (h : list acpi_call) : zone_data * list acpi_call :=
  let '(Temperature, h) := UacpiNtThermalEvalInteger Node "_TMP" h in
  let z := match Temperature with
           | Some v => zd_set_Info (ti_set_Temperature v (zd_Info z)) z
           | None => z
           end in
  if from_win8 Target then UacpiNtThermalCheckDti Node z h else (z, h).

(** ** What a query gets *)

(** The bytes of UACPINT_THERMAL_QUERY; below Windows 8, of THERMAL_INFORMATION of
    the Windows kit's poclass.h.  Padding is zero. *)
Definition UacpiNtThermalFillQuery (Stamp : Z) (i : UACPINT_THERMAL_INFO) : list Z :=
  let ulong := le_field 4 in
  let count := [u8 (ti_ActiveTripPointCount i); 0; 0; 0] ++ flat_map ulong (ti_ActiveTripPoint i) in
  match Target with
  | NtWin10 =>
      ulong Stamp ++ ulong (ti_ThermalConstant1 i) ++ ulong (ti_ThermalConstant2 i) ++ ulong (ti_SamplingPeriod i) ++
      ulong (ti_CurrentTemperature i) ++ ulong (ti_PassiveTripPoint i) ++ ulong (ti_StandbyTripPoint i) ++
      ulong (ti_CriticalTripPoint i) ++ count ++ ulong (ti_S4TripPoint i) ++ ulong (ti_MinimumThrottle i) ++
      ulong (ti_OverThrottleThreshold i)
  | NtWin8 =>
      ulong Stamp ++ ulong (ti_ThermalConstant1 i) ++ ulong (ti_ThermalConstant2 i) ++ ulong (ti_SamplingPeriod i) ++
      ulong (ti_CurrentTemperature i) ++ ulong (ti_PassiveTripPoint i) ++ ulong (ti_CriticalTripPoint i) ++ count ++
      ulong (ti_S4TripPoint i)
  | NtVista =>
      ulong Stamp ++ ulong (ti_ThermalConstant1 i) ++ ulong (ti_ThermalConstant2 i) ++ [0; 0; 0; 0] ++
      le_field 8 (ti_Processors i) ++ ulong (ti_SamplingPeriod i) ++ ulong (ti_CurrentTemperature i) ++
      ulong (ti_PassiveTripPoint i) ++ ulong (ti_CriticalTripPoint i) ++ count ++ [0; 0; 0; 0]
  end.

Definition sizeof_query : Z := match Target with NtWin8 => 76 | _ => 88 end.
End Readings.

(** ** Ranges *)
Section Facts.
Context {A : Acpi} (Target : ntddi).

Definition is_ulong (v : Z) : Prop := 0 <= v <= MAXULONG.

Lemma u32_ulong v : is_ulong (u32 v).
Proof. unfold is_ulong, MAXULONG. pose proof (u32_range v). lia. Qed.

Lemma ulong_zero : is_ulong 0.
Proof. unfold is_ulong, MAXULONG. lia. Qed.

(** The trip points found fill the array from its start; the rest is zero. *)
Record info_ok (i : UACPINT_THERMAL_INFO) : Prop := {
  io_values : Forall is_ulong [ti_ThermalConstant1 i; ti_ThermalConstant2 i; ti_SamplingPeriod i; ti_CurrentTemperature i;
    ti_PassiveTripPoint i; ti_StandbyTripPoint i; ti_CriticalTripPoint i; ti_S4TripPoint i;
    ti_MinimumThrottle i; ti_OverThrottleThreshold i];
  io_array : length (ti_ActiveTripPoint i) = MAX_ACTIVE_COOLING_LEVELS;
  io_active : Forall is_ulong (ti_ActiveTripPoint i);
  io_count : 0 <= ti_ActiveTripPointCount i <= 10;
  io_rest : Forall (eq 0) (drop (Z.to_nat (ti_ActiveTripPointCount i)) (ti_ActiveTripPoint i))
}.

Lemma eval_integer_ulong Node Method h v h' : UacpiNtThermalEvalInteger Node Method h = (Some v, h') -> is_ulong v.
Proof.
  unfold UacpiNtThermalEvalInteger. destruct (Node =? NULL); [done|].
  destruct (uacpi_eval_simple_integer Node Method h) as [ [r|] h1]; intros; simplify_eq/=. apply u32_ulong.
Qed.

Lemma eval_default_ulong Node Method h : is_ulong (UacpiNtThermalEvalDefault Node Method 0 h).1.
Proof.
  unfold UacpiNtThermalEvalDefault. destruct (UacpiNtThermalEvalInteger Node Method h) as [ [v|] h'] eqn:E; simpl;
    [by eapply eval_integer_ulong|apply ulong_zero].
Qed.

Lemma read_active_ok n : forall Count Node h l h', read_active n Count Node h = (l, h') ->
  (length l <= n)%nat /\ Forall is_ulong l.
Proof.
  induction n as [|n IH]; intros Count Node h l h' E; simpl in E; [by simplify_eq|].
  destruct (UacpiNtThermalEvalInteger Node _ h) as [ [v|] h1] eqn:Ev; [|simplify_eq; simpl; split; [lia|done]].
  destruct (read_active n (S Count) Node h1) as [l1 h2] eqn:El. simplify_eq. apply IH in El as [Hl Hf].
  split; [simpl; lia|]. constructor; [by eapply eval_integer_ulong|done].
Qed.

Lemma dsm_percent_range Node Functions Function h v h' :
  UacpiNtThermalDsmPercent Node Functions Function h = (Some v, h') -> 0 <= v <= 100.
Proof.
  unfold UacpiNtThermalDsmPercent. destruct (negb _); [done|].
  destruct (UacpiNtThermalEvalDsm Node Function h) as [o h1]. destruct (o ≫= uacpi_object_get_integer) as [x|] eqn:E; [|done].
  simpl. intros. simplify_eq.
  assert (0 <= x) as Hx.
  { destruct o as [ [u| | | | | ] |]; simplify_eq/=. pose proof (u64_range u) as H. unfold is_u64 in H. lia. }
  destruct (100 <? x) eqn:Ex; bool_prop; [lia|]. rewrite u32_small; lia.
Qed.

(** A throttle limit is a percentage. *)
Lemma throttle_limits_percent Node Functions i h i' h' :
  UacpiNtThermalReadThrottleLimits Node Functions i h = (i', h') ->
  exists m o, i' = ti_set_Throttle m o i /\ 0 <= m <= 100 /\ 0 <= o <= 100.
Proof.
  unfold UacpiNtThermalReadThrottleLimits. intros E.
  destruct (UacpiNtThermalEvalInteger Node "_MTL" h) as [ [v|] h1] eqn:Ev.
  - apply eval_integer_ulong in Ev. unfold is_ulong in Ev.
    destruct (UacpiNtThermalDsmPercent Node Functions 3 h1) as [ [o|] h2] eqn:Ed; simplify_eq; eexists _, _; (split; [done|]);
      destruct (100 <? v) eqn:Ex; bool_prop; simpl; try apply dsm_percent_range in Ed; lia.
  - destruct (UacpiNtThermalDsmPercent Node Functions 1 h1) as [ [m|] h2] eqn:E1;
      destruct (UacpiNtThermalDsmPercent Node Functions 3 h2) as [ [o|] h3] eqn:E2; simplify_eq;
      eexists _, _; (split; [done|]); simpl; try apply dsm_percent_range in E1; try apply dsm_percent_range in E2; lia.
Qed.

Lemma active_trips_ok Node h Count l h' : UacpiNtThermalReadActiveTrips Node h = (Count, l, h') ->
  0 <= Count <= 10 /\ length l = MAX_ACTIVE_COOLING_LEVELS /\ Forall is_ulong l /\ Forall (eq 0) (drop (Z.to_nat Count) l).
Proof.
  unfold UacpiNtThermalReadActiveTrips. destruct (read_active _ _ _ _) as [k h1] eqn:E. intros. simplify_eq.
  apply read_active_ok in E as [Hl Hf]. unfold MAX_ACTIVE_COOLING_LEVELS in *. split_and!; [lia|lia| | |].
  - rewrite length_app, length_replicate. lia.
  - apply Forall_app. split; [done|]. apply Forall_replicate, ulong_zero.
  - rewrite Nat2Z.id, drop_app_length. by apply Forall_replicate.
Qed.

Definition zone_ok (z : zone_data) : Prop :=
  info_ok (zd_Info z) /\ is_ulong (zd_TripDelta z) /\ is_ulong (zd_NotifiedTemperature z).

Ltac step_readings E :=
  repeat match type of E with
  | context [let '(_, _) := UacpiNtThermalEvalDefault ?n ?m 0 ?k in _] =>
      pose proof (eval_default_ulong n m k); destruct (UacpiNtThermalEvalDefault n m 0 k) as [? ?]; simpl fst in *
  | context [UacpiNtThermalEvalInteger ?n ?m ?k] =>
      let Ev := fresh "Ev" in
      destruct (UacpiNtThermalEvalInteger n m k) as [ [?|] ?] eqn:Ev; [apply eval_integer_ulong in Ev|]
  | context [UacpiNtThermalReadActiveTrips ?n ?k] =>
      let Ev := fresh "Ev" in
      destruct (UacpiNtThermalReadActiveTrips n k) as [ [? ?] ?] eqn:Ev; apply active_trips_ok in Ev as (? & ? & ? & ?)
  end.

Ltac close_zone :=
  split; [split; [split; simpl; try done; repeat (apply Forall_cons_2; [first [done|apply u32_ulong]|]); apply Forall_nil_2|by split]
         |done].

(** Reading the trip points keeps the zone's data well formed and the temperature. *)
Lemma read_trips_ok ActiveProcessors Node z h z' h' : zone_ok z ->
  UacpiNtThermalReadTrips Target ActiveProcessors Node z h = (z', h') -> zone_ok z' /\
    ti_CurrentTemperature (zd_Info z') = ti_CurrentTemperature (zd_Info z) /\
    zd_NotifiedTemperature z' = zd_NotifiedTemperature z.
Proof.
  intros ([Hv _ _ _ _] & Hd & Hn) E. unfold UacpiNtThermalReadTrips in E.
  repeat (apply Forall_cons in Hv as [? Hv]). destruct Target; cbn [from_win10 from_win8] in E; step_readings E.
  - destruct (UacpiNtThermalPassiveProcessors _ _ _) as [p h1]. simplify_eq. close_zone.
  - simplify_eq. close_zone.
  - destruct (UacpiNtThermalReadThrottleLimits _ _ _ _) as [i h1] eqn:Et.
    apply throttle_limits_percent in Et as (m & o & -> & ? & ?). simplify_eq.
    assert (is_ulong m /\ is_ulong o) as [? ?] by (unfold is_ulong, MAXULONG; lia).
    close_zone.
  - destruct (UacpiNtThermalReadThrottleLimits _ _ _ _) as [i h1] eqn:Et.
    apply throttle_limits_percent in Et as (m & o & -> & ? & ?). simplify_eq.
    assert (is_ulong m /\ is_ulong o) as [? ?] by (unfold is_ulong, MAXULONG; lia).
    close_zone.
Qed.

Lemma zone_ok_start : zone_ok zero_zone.
Proof.
  pose proof ulong_zero as Hz. split; [|by split].
  split; simpl; [..|lia|]; repeat (apply Forall_cons_2; [done|]); done || apply Forall_nil_2.
Qed.

(** ** Notifications *)

(** The temperature has moved by the delta, up or down. *)
Definition moved (Notified Delta Current : Z) : Prop := Delta <= Z.abs (Current - Notified).
(** The fall that the comparison, a strict one, leaves out: from the delta to zero. *)
Definition fell_to_zero (Notified Delta Current : Z) : Prop := Notified = Delta /\ Current = 0.
(** A trip point lies between the two, on the side of the current temperature. *)
Definition crossed (Notified Current : Z) (trips : list Z) : Prop :=
  exists Trip, In Trip trips /\ Trip <> 0 /\ (Notified < Trip <= Current \/ Current <= Trip < Notified).

Lemma crossed_trip_correct i Notified :
  UacpiNtThermalCrossedTrip Target i Notified = true <-> crossed Notified (ti_CurrentTemperature i) (trip_points Target i).
Proof.
  unfold UacpiNtThermalCrossedTrip, crossed. rewrite existsb_exists.
  split; intros (Trip & Hi & H); exists Trip; (split; [done|]).
  - apply andb_prop in H as [H1 H2]. apply orb_prop in H2. bool_prop.
    destruct H2 as [H2|H2]; apply andb_prop in H2 as [? ?]; bool_prop; lia.
  - destruct H as [H1 H2]. apply andb_true_intro. split; [by apply negb_true_iff, Z.eqb_neq|].
    apply orb_true_intro. destruct H2; [left|right]; apply andb_true_intro; lia.
Qed.

(** C31.  From Windows 8 on, a zone with a _DTI rearms the notifications of its
    platform exactly when they were never armed, when there is a delta and the
    temperature has moved by it since, up or down, or when it has crossed a trip
    point; but not for the one move from exactly the delta down to zero, which the
    code's comparison leaves out.  No sum or difference of the comparison wraps.  The
    zone then remembers the current temperature and _DTI is called with it, unless
    there is no memory for the argument, when the zone remembers it all the same;
    otherwise nothing changes. *)
Theorem dti_rearms_exactly Node z h : zone_ok z -> UacpiNtNodeHasChild h Node "_DTI" = true ->
  let Current := ti_CurrentTemperature (zd_Info z) in
  let Notified := zd_NotifiedTemperature z in
  let Delta := zd_TripDelta z in
  let rearmed := zd_DtiArmed z = false \/
    (Delta <> 0 /\ moved Notified Delta Current /\ ~ fell_to_zero Notified Delta Current) \/
    crossed Notified Current (trip_points Target (zd_Info z)) in
  (rearmed -> UacpiNtThermalCheckDti Target Node z h =
     (mkZoneData true Delta Current (zd_DsmFunctions z) (zd_Description z) (zd_Info z),
      if answer_create h 0 then CallEval Node "_DTI" [UACPI_OBJECT_INTEGER Current] :: h else h)) /\
  (~ rearmed -> UacpiNtThermalCheckDti Target Node z h = (z, h)).
Proof.
  intros ([Hv _ _ _ _] & Hd & Hn) Hc Current Notified Delta rearmed.
  assert (is_ulong Current) as HC by (by do 3 apply Forall_cons in Hv as [_ Hv]; apply Forall_cons in Hv as [? _]).
  assert (dti_rearm Target z = true <-> rearmed) as Hr.
  { pose proof (crossed_trip_correct (zd_Info z) Notified) as Hct. fold Current in Hct. unfold rearmed. rewrite <- Hct.
    unfold dti_rearm. fold Current Notified Delta. destruct (zd_DtiArmed z); simpl; [|by split; [left|]].
    destruct (Z.eqb_spec Delta 0) as [E|E]; simpl.
    { split; [intros; by right; right|]. intros [?|[ [? _]|?] ]; done. }
    assert ((Delta <? Notified) && (Current <=? u32 (Notified - Delta)) ||
      (Notified <=? u32 (MAXULONG - Delta)) && (u32 (Notified + Delta) <=? Current) = true <->
      moved Notified Delta Current /\ ~ fell_to_zero Notified Delta Current) as Hm.
    { rewrite orb_true_iff, !andb_true_iff, !Z.ltb_lt, !Z.leb_le. unfold moved, fell_to_zero.
      pose proof (u32_range (Notified - Delta)). pose proof (u32_range (Notified + Delta)).
      pose proof (u32_small (Notified - Delta)). pose proof (u32_small (Notified + Delta)). pose proof (u32_small (MAXULONG - Delta)).
      unfold is_ulong, MAXULONG in *. lia. }
    destruct (_ || _) eqn:Eo; simpl.
    - split; [|done]. intros _. right. left. tauto.
    - split; [intros; by right; right|]. intros [?|[ [_ ?]|?] ]; [done| |done]. apply Hm in H. congruence. }
  unfold UacpiNtThermalCheckDti. rewrite Hc. simpl. split; intros H.
  - rewrite (proj2 Hr H). simpl. unfold UacpiNtThermalCallWithInteger. rewrite Hc.
    assert (Node =? NULL = false) as -> by (by unfold UacpiNtNodeHasChild in Hc; destruct (Node =? NULL)). simpl.
    by destruct (answer_create h 0).
  - destruct (dti_rearm Target z); [|done]. by destruct (H (proj1 Hr eq_refl)).
Qed.

(** Told at exactly the delta, the platform is not told of a fall by the delta. *)
Lemma dti_misses_fall Node z h : zone_ok z -> zd_DtiArmed z = true -> 0 < zd_TripDelta z ->
  fell_to_zero (zd_NotifiedTemperature z) (zd_TripDelta z) (ti_CurrentTemperature (zd_Info z)) ->
  ~ crossed (zd_NotifiedTemperature z) 0 (trip_points Target (zd_Info z)) ->
  moved (zd_NotifiedTemperature z) (zd_TripDelta z) (ti_CurrentTemperature (zd_Info z)) /\
  UacpiNtThermalCheckDti Target Node z h = (z, h).
Proof.
  intros (_ & Hd & _) Ha Hp [En Ec] Hx. rewrite <- Ec in Hx. split; [unfold moved; rewrite En, Ec; lia|].
  assert (dti_rearm Target z = false) as Hf.
  { assert (UacpiNtThermalCrossedTrip Target (zd_Info z) (zd_NotifiedTemperature z) = false) as Ex.
    { apply not_true_iff_false. by rewrite crossed_trip_correct. }
    unfold dti_rearm. rewrite Ex, Ha, En, Ec. rewrite Z.ltb_irrefl, (proj2 (Z.eqb_neq _ _)) by lia. simpl.
    destruct (Z.leb_spec (zd_TripDelta z) (u32 (MAXULONG - zd_TripDelta z))) as [Hl|]; [|done].
    unfold is_ulong, MAXULONG in *. rewrite u32_small in Hl by lia. rewrite u32_small by lia. by rewrite (proj2 (Z.leb_gt _ _)) by lia. }
  unfold UacpiNtThermalCheckDti. destruct (negb _); [done|]. by rewrite Hf.
Qed.

(** ** What a query gets *)

(** Where the fields of the reply are: offset, size, value. *)
Definition query_layout (Stamp : Z) (i : UACPINT_THERMAL_INFO) : list (Z * nat * Z) :=
  let active (o : Z) := imap (fun k v => (o + 4 * Z.of_nat k, 4%nat, v)) (ti_ActiveTripPoint i) in
  let tail (o : Z) := (o, 1%nat, ti_ActiveTripPointCount i) :: active (o + 4) in
  match Target with
  | NtWin10 =>
      [(0, 4%nat, Stamp); (4, 4%nat, ti_ThermalConstant1 i); (8, 4%nat, ti_ThermalConstant2 i);
       (12, 4%nat, ti_SamplingPeriod i); (16, 4%nat, ti_CurrentTemperature i); (20, 4%nat, ti_PassiveTripPoint i);
       (24, 4%nat, ti_StandbyTripPoint i); (28, 4%nat, ti_CriticalTripPoint i)] ++ tail 32 ++
      [(76, 4%nat, ti_S4TripPoint i); (80, 4%nat, ti_MinimumThrottle i); (84, 4%nat, ti_OverThrottleThreshold i)]
  | NtWin8 =>
      [(0, 4%nat, Stamp); (4, 4%nat, ti_ThermalConstant1 i); (8, 4%nat, ti_ThermalConstant2 i);
       (12, 4%nat, ti_SamplingPeriod i); (16, 4%nat, ti_CurrentTemperature i); (20, 4%nat, ti_PassiveTripPoint i);
       (24, 4%nat, ti_CriticalTripPoint i)] ++ tail 28 ++ [(72, 4%nat, ti_S4TripPoint i)]
  | NtVista =>
      [(0, 4%nat, Stamp); (4, 4%nat, ti_ThermalConstant1 i); (8, 4%nat, ti_ThermalConstant2 i);
       (24, 4%nat, ti_SamplingPeriod i); (28, 4%nat, ti_CurrentTemperature i); (32, 4%nat, ti_PassiveTripPoint i);
       (36, 4%nat, ti_CriticalTripPoint i)] ++ tail 40
  end.

Lemma field_reads l n o v : 0 <= o -> (Z.to_nat o + n <= length l)%nat -> take n (drop (Z.to_nat o) l) = le_field n v ->
  0 <= v < 256 ^ Z.of_nat n -> load_le l n o = Done v.
Proof. intros Ho Hl Ht Hv. rewrite load_le_in by done. by rewrite Ht, le_bytes_field. Qed.

Lemma ulong_field v : is_ulong v -> 0 <= v < 256 ^ Z.of_nat 4.
Proof. unfold is_ulong, MAXULONG. intros. simpl. lia. Qed.

Lemma byte_field v : 0 <= v <= 10 -> 0 <= v < 256 ^ Z.of_nat 1 /\ [u8 v] = le_field 1 v.
Proof. intros. split; [simpl; lia|done]. Qed.

(** A reply has the size the release expects, and every field of it reads back at
    its published place, on each of the three layouts. *)
Theorem query_reads_back Stamp i : info_ok i -> is_ulong Stamp ->
  Z.of_nat (length (UacpiNtThermalFillQuery Target Stamp i)) = sizeof_query Target /\
  Forall (fun '(o, n, v) => load_le (UacpiNtThermalFillQuery Target Stamp i) n o = Done v) (query_layout Stamp i).
Proof.
  intros [Hv Hl Ha Hc _] Hs. destruct i as [c1 c2 sp ct pt st cr s4 n l mt ot pr]. simpl in *.
  repeat (apply Forall_cons in Hv as [? Hv]).
  do 10 (destruct l as [|? l]; [done|]). destruct l; [|done]. repeat (apply Forall_cons in Ha as [? Ha]).
  destruct (byte_field n Hc) as [Hn _].
  unfold UacpiNtThermalFillQuery, query_layout. destruct Target; (split; [done|]); simpl imap;
    repeat (apply Forall_cons_2; [apply field_reads; [lia|simpl; lia|reflexivity|first [by apply ulong_field|done] ]|]); apply Forall_nil_2.
Qed.

(** ** The description *)

Lemma wcslen_inside n : forall l, length l = (2 * n + 2)%nat -> drop (2 * n) l = [0; 0] ->
  (wcslen l <= n)%nat /\ take 2 (drop (2 * wcslen l) l) = [0; 0].
Proof.
  induction n as [|n IH]; intros l Hl Hd.
  - rewrite drop_0 in Hd. subst. by vm_compute; split; [constructor|].
  - destruct l as [|lo [|hi l] ]; [done|simpl in Hl; lia|]. replace (2 * S n)%nat with (S (S (2 * n))) in Hd by lia.
    simpl in Hl. destruct (IH l) as [H1 H2]; [lia|done|]. cbn [wcslen]. destruct ((lo =? 0) && (hi =? 0)) eqn:E.
    + apply andb_prop in E as [E1 E2]. bool_prop. subst. split; [lia|done].
    + split; [lia|]. by replace (2 * S (wcslen l))%nat with (S (S (2 * wcslen l))) by lia.
Qed.

(** A description is kept only when it ends with a NUL inside its buffer; the
    copy that is handed out lies inside it, ends with the NUL, and its lengths are
    those of the text. *)
Theorem description_in_bounds Node z h w z' h' w' d : zd_Description z = None ->
  UacpiNtThermalReadDescription Node z h w = (z', h', w') -> zd_Description z' = Some d ->
  us_Length d = 2 * Z.of_nat (wcslen (us_Buffer d)) /\ us_MaximumLength d = us_Length d + 2 /\
  us_MaximumLength d <= Z.of_nat (length (us_Buffer d)) /\ us_MaximumLength d <= MAXUSHORT /\
  forall o w1 w2, UacpiNtThermalCopyDescription z' w1 = (Some o, w2) ->
    us_Buffer o = take (Z.to_nat (us_Length o)) (us_Buffer d) ++ [0; 0] /\
    us_Length o = us_Length d /\ us_MaximumLength o = us_MaximumLength d.
Proof.
  intros Hz E Hd. unfold UacpiNtThermalReadDescription in E.
  destruct (uacpi_eval Node "_STR" [] h) as [ [st Object] h1]. destruct (if uacpi_unlikely_error st then _ else _) as [View|];
    [|simplify_eq; congruence].
  destruct (description_valid View) eqn:Ev; simpl in E; [|simplify_eq; congruence].
  destruct (w_pool w (w_allocs w) (Z.of_nat (length View))); simplify_eq/=.
  unfold description_valid in Ev. apply andb_prop in Ev as [Ev Hlast]. apply andb_prop in Ev as [Ev Hmax].
  apply andb_prop in Ev as [Hmin Heven]. bool_prop.
  destruct (drop (length View - 2) View) as [|lo [|hi [|? ?] ] ] eqn:El; try done.
  apply andb_prop in Hlast as [H1 H2]. bool_prop. subst.
  pose proof (Z.div_mod (Z.of_nat (length View)) 2 ltac:(lia)) as Hdm. rewrite Heven in Hdm.
  set (n := Z.to_nat (Z.of_nat (length View) / 2 - 1)).
  assert (length View = (2 * n + 2)%nat) as Hn by lia.
  replace (length View - 2)%nat with (2 * n)%nat in El by lia.
  destruct (wcslen_inside n View Hn El) as [Hw Ht].
  unfold MAXUSHORT in *. rewrite !u16_small by (rewrite ?u16_small; lia). split_and!; try lia.
  intros o w1 w2 Ec. unfold UacpiNtThermalCopyDescription in Ec. simpl in Ec.
  destruct (w_pool w1 _ _); simplify_eq/=. split_and!; try done.
  replace (Z.to_nat (Z.of_nat (wcslen View) * 2 + 2)) with (2 * wcslen View + 2)%nat by lia.
  replace (Z.to_nat (Z.of_nat (wcslen View) * 2)) with (2 * wcslen View)%nat by lia.
  by rewrite <- Ht, take_take_drop.
Qed.
End Facts.

(** ** Active cooling *)
Section ActiveCooling.
Context {A : Acpi} (Zone : acpi_node).

(** What the zone's lists hold does not depend on what was called before. *)
Context (lists : nat -> option (list uacpi_object)) (target : string -> option acpi_node).
Hypothesis lists_stable : forall h x,
  (let '(st, o) := answer_eval h Zone (level_method "_AL" x) [] in
   if uacpi_unlikely_error st then None else o ≫= uacpi_object_get_package) = lists x.
Hypothesis target_stable : forall h text, answer_resolve h Zone text = target text.

Definition names_node (n : acpi_node) (o : uacpi_object) : bool :=
  match o with UACPI_OBJECT_STRING _ text => bool_decide (target text = Some n) | _ => false end.
Definition lists_node (n : acpi_node) (x : nat) : bool :=
  match lists x with Some l => existsb (names_node n) l | None => false end.

(** The state the device found at [k] is switched to, or as it was. *)
Definition settled (k : nat) (State : option Z) (Pdos Pdos' : list pdo_power) : Prop :=
  map pp_Node Pdos' = map pp_Node Pdos /\
  match State with
  | Some D => exists p, Pdos' !! k = Some p /\ pp_DStateKnown p = true /\ pp_CurrentDState p = D
  | None => Pdos' !! k = Pdos !! k
  end.

Lemma find_same_nodes n (l l' : list pdo_power) : map pp_Node l' = map pp_Node l ->
  UacpiNtFindPdoByNode n l' = UacpiNtFindPdoByNode n l.
Proof.
  unfold UacpiNtFindPdoByNode. revert l'. induction l as [|p l IH]; intros [|p' l'] E; simplify_eq/=; [done|].
  rewrite H. destruct (pp_Node p =? n); [done|]. by rewrite (IH l').
Qed.

Lemma set_state_settles p D s st p' s' : UacpiNtPowerSetDeviceState p D s = (st, p', s') ->
  pp_Node p <> NULL -> device_state_named D = true ->
  pp_Node p' = pp_Node p /\ pp_DStateKnown p' = true /\ pp_CurrentDState p' = D.
Proof.
  unfold UacpiNtPowerSetDeviceState. intros E Hn HD. rewrite (proj2 (Z.eqb_neq _ _) Hn), HD in E. simpl in E.
  destruct (UacpiNtPowerResAcquireForState p D s) as [L s1].
  destruct (UacpiNtPowerEvalMethod _ _ _) as [b h]. unfold UacpiNtPowerResReleaseDelta in E.
  destruct (negb _); simplify_eq/=; done.
Qed.

Lemma settled_trans k a b P0 P1 P2 : settled k a P0 P1 -> settled k b P1 P2 ->
  settled k (match b with Some D => Some D | None => a end) P0 P2.
Proof.
  intros [N1 H1] [N2 H2]. split; [congruence|]. destruct b as [D|]; [done|]. destruct a as [D|]; [|congruence].
  destruct H1 as (p & Hp & ?). exists p. by rewrite H2.
Qed.

Lemma apply_element_settles n k D o (ps : list pdo_power * power_state) : n <> NULL ->
  UacpiNtFindPdoByNode n ps.1 = Some k -> device_state_named D = true ->
  settled k (if names_node n o then Some D else None) ps.1 (apply_element Zone D o ps).1.
Proof.
  intros Hn Hk HD. destruct ps as [Pdos s]. simpl in Hk. unfold apply_element.
  assert (settled k None Pdos Pdos) as Hid by done.
  destruct o as [v|path text|bytes|l|a b|t]; simpl; try done. rewrite target_stable.
  destruct (target text) as [d|] eqn:Et; [|by rewrite bool_decide_eq_false_2].
  destruct (decide (d = n)) as [->|Hd].
  - rewrite bool_decide_eq_true_2 by done. rewrite (proj2 (Z.eqb_neq _ _) Hn), Hk.
    pose proof (find_index_some _ _ _ Hk) as (p & Hp & Hpn). rewrite Hp. bool_prop.
    destruct (negb (pp_DStateKnown p) || negb (pp_CurrentDState p =? D)) eqn:Ed.
    + destruct (UacpiNtPowerSetDeviceState p D s) as [ [st p'] s'] eqn:Es. simpl.
      apply set_state_settles in Es as (H1 & H2 & H3); [|congruence|done].
      split; [|exists p'; rewrite list_lookup_insert_eq by (by eapply lookup_lt_Some); done].
      rewrite list_fmap_insert. apply list_insert_id. rewrite list_lookup_fmap, Hp. simpl. by rewrite H1.
    + apply orb_false_elim in Ed as [E1 E2]. apply negb_false_iff in E1, E2. bool_prop. split; [done|]. by exists p.
  - rewrite bool_decide_eq_false_2 by congruence. destruct (d =? NULL) eqn:En; [done|].
    destruct (UacpiNtFindPdoByNode d Pdos) as [j|] eqn:Ej; [|done].
    pose proof (find_index_some _ _ _ Ej) as (p & Hp & Hpn). rewrite Hp. bool_prop.
    destruct (_ || _); [|done]. destruct (UacpiNtPowerSetDeviceState p D s) as [ [st p'] s'] eqn:Es. simpl.
    apply set_state_settles in Es as (H1 & H2 & H3); [|congruence|done].
    assert (j <> k) as Hjk.
    { intros ->. pose proof (find_index_some _ _ _ Hk) as (p2 & Hp2 & Hn2). bool_prop. congruence. }
    split; [|by rewrite list_lookup_insert_ne].
    rewrite list_fmap_insert. apply list_insert_id. rewrite list_lookup_fmap, Hp. simpl. by rewrite H1.
Qed.

Lemma apply_list_settles n k D l : forall ps : list pdo_power * power_state, n <> NULL ->
  UacpiNtFindPdoByNode n ps.1 = Some k -> device_state_named D = true ->
  settled k (if existsb (names_node n) l then Some D else None) ps.1 (UacpiNtThermalApplyActiveList Zone l D ps).1.
Proof.
  unfold UacpiNtThermalApplyActiveList. induction l as [|o l IH]; intros ps Hn Hk HD; [done|].
  pose proof (apply_element_settles n k D o ps Hn Hk HD) as H1. simpl.
  assert (UacpiNtFindPdoByNode n (apply_element Zone D o ps).1 = Some k) as Hk1 by (by rewrite (find_same_nodes n _ _ (proj1 H1))).
  specialize (IH _ Hn Hk1 HD). pose proof (settled_trans _ _ _ _ _ _ H1 IH) as H2.
  destruct (names_node n o), (existsb (names_node n) l); done.
Qed.

(** The state the lists from [Index] on ask for, the last one that lists the device. *)
Fixpoint wanted_state (m Index : nat) (n : acpi_node) (Level : Z) : option Z :=
  match m with
  | O => None
  | S m =>
      match lists Index with
      | None => None
      | Some _ =>
          match wanted_state m (S Index) n Level with
          | Some D => Some D
          | None => if lists_node n Index then Some (if Level <=? Z.of_nat Index then PowerDeviceD0 else PowerDeviceD3) else None
          end
      end
  end.

Lemma run_active_wanted n k Level m : forall Index (ps : list pdo_power * power_state), n <> NULL ->
  UacpiNtFindPdoByNode n ps.1 = Some k ->
  settled k (wanted_state m Index n Level) ps.1 (run_active m Index Zone Level ps).1.
Proof.
  induction m as [|m IH]; intros Index [Pdos s] Hn Hk; [done|]. simpl in Hk. simpl run_active.
  pose proof (lists_stable (pw_Calls s) Index) as Hl. destruct (answer_eval _ _ _ _) as [st o].
  cbn [wanted_state]. rewrite Hl. destruct (lists Index) as [l|] eqn:El; [|done].
  set (D := if Level <=? Z.of_nat Index then PowerDeviceD0 else PowerDeviceD3).
  assert (device_state_named D = true) as HD by (unfold D; by destruct (_ <=? _)).
  pose proof (apply_list_settles n k D l (Pdos, pw_set_Calls (CallEval Zone (level_method "_AL" Index) [] :: pw_Calls s) s) Hn Hk HD) as H1.
  simpl in H1. eapply settled_trans in IH; [|exact H1|done|]; [|by rewrite (find_same_nodes n _ _ (proj1 H1))].
  simpl. unfold lists_node. rewrite El. exact IH.
Qed.

(** _ALx is one of the lists looked at, and names the device. *)
Definition cools (n : acpi_node) (m Index x : nat) : Prop :=
  (Index <= x < Index + m)%nat /\ (forall y, (Index <= y <= x)%nat -> lists y <> None) /\ lists_node n x = true.

Lemma cools_next n m Index x l : lists Index = Some l ->
  cools n (S m) Index x <-> (x = Index /\ lists_node n Index = true) \/ cools n m (S Index) x.
Proof.
  intros El. unfold cools. split.
  - intros (Hx & Hy & Hn). destruct (decide (x = Index)) as [->|Hne]; [by left|right].
    split; [lia|]. split; [|done]. intros y ?. apply Hy. lia.
  - intros [ [-> Hn]|(Hx & Hy & Hn)]; (split; [lia|]); (split; [|done]); intros y Hr.
    + assert (y = Index) as -> by lia. congruence.
    + destruct (decide (y = Index)) as [->|]; [congruence|]. apply Hy. lia.
Qed.

Lemma wanted_state_spec n Level m : forall Index,
  match wanted_state m Index n Level with
  | Some D => (exists x, cools n m Index x) /\
      (D = PowerDeviceD0 /\ (exists x, cools n m Index x /\ Level <= Z.of_nat x) \/
       D = PowerDeviceD3 /\ forall x, cools n m Index x -> Z.of_nat x < Level)
  | None => forall x, ~ cools n m Index x
  end.
Proof.
  induction m as [|m IH]; intros Index; cbn [wanted_state]; [intros x (? & _); lia|].
  destruct (lists Index) as [l|] eqn:El; [|intros x (Hx & Hy & _); apply (Hy Index); [lia|done] ].
  pose proof (fun x => cools_next n m Index x l El) as Hc. specialize (IH (S Index)).
  destruct (wanted_state m (S Index) n Level) as [D|].
  - destruct IH as [ [x Hx] HD]. split; [exists x; apply Hc; by right|].
    destruct HD as [ [-> (x' & Hx' & Hl)]|[-> Hl] ]; [left|right]; (split; [done|]).
    + exists x'. split; [apply Hc; by right|done].
    + intros y [ [-> _]|Hy]%Hc; [|by apply Hl]. specialize (Hl x Hx). destruct Hx as [? _]. lia.
  - destruct (lists_node n Index) eqn:En.
    + split; [exists Index; apply Hc; by left|]. destruct (Level <=? Z.of_nat Index) eqn:E; bool_prop; [left|right]; (split; [done|]).
      * exists Index. split; [apply Hc; by left|done].
      * intros y [ [-> _]|Hy]%Hc; [done|by apply IH in Hy].
    + intros y [ [_ ?]|Hy]%Hc; [done|by apply IH in Hy].
Qed.

End ActiveCooling.
