(* ===== verification/ThermalRound.v ===== *)
(** The stores of a thermal worker, one by one: drivers/thermal.c.

    The worker writes a zone's readings and its description without the lock, while a
    stop may read both.  Thermal.v has UacpiNtThermalInit and UacpiNtThermalReadTrips
    as they are when nobody looks; here each store that somebody else can see is a
    step of its own, and the steps in sequence are shown to be the routines. *)
From stdpp Require Import base list numbers option strings.
From Stdlib Require Import ZArith Lia.
From S2P Require Import Prelude NtEnv AcpiEnv Bytes PowerRes PowerCaps Thermal.

(** ** The readings word by word

    The words of UACPINT_THERMAL_INFO after the stamp, in the order of the structure;
    each is read and written at once. *)
Definition info_words (i : UACPINT_THERMAL_INFO) : list Z :=
  [ti_ThermalConstant1 i; ti_ThermalConstant2 i; ti_SamplingPeriod i; ti_CurrentTemperature i; ti_PassiveTripPoint i;
   ti_StandbyTripPoint i; ti_CriticalTripPoint i; ti_S4TripPoint i; ti_ActiveTripPointCount i] ++
  ti_ActiveTripPoint i ++ [ti_MinimumThrottle i; ti_OverThrottleThreshold i; ti_Processors i].

Definition info_size : nat := 22.
Definition at_ThermalConstant1 : nat := 0.
Definition at_ThermalConstant2 : nat := 1.
Definition at_SamplingPeriod : nat := 2.
Definition at_PassiveTripPoint : nat := 4.
Definition at_StandbyTripPoint : nat := 5.
Definition at_CriticalTripPoint : nat := 6.
Definition at_S4TripPoint : nat := 7.
Definition at_ActiveTripPointCount : nat := 8.
Definition at_ActiveTripPoint (Count : nat) : nat := 9 + Count.
Definition at_MinimumThrottle : nat := 19.
Definition at_OverThrottleThreshold : nat := 20.
Definition at_Processors : nat := 21.

Definition info_of_words (l : list Z) : UACPINT_THERMAL_INFO :=
  let w n := nth n l 0 in
  mkThermalInfo (w 0%nat) (w 1%nat) (w 2%nat) (w 3%nat) (w 4%nat) (w 5%nat) (w 6%nat) (w 7%nat) (w 8%nat)
    (map (fun x => w (at_ActiveTripPoint x)) (seq 0 MAX_ACTIVE_COOLING_LEVELS)) (w 19%nat) (w 20%nat) (w 21%nat).

Definition ti_store (n : nat) (v : Z) (i : UACPINT_THERMAL_INFO) : UACPINT_THERMAL_INFO :=
  info_of_words (<[n := v]> (info_words i)).
Definition store_word (n : nat) (v : Z) (z : zone_data) : zone_data := zd_set_Info (ti_store n v (zd_Info z)) z.

Definition zd_set_Description (d : option unicode_buffer) (z : zone_data) : zone_data :=
  mkZoneData (zd_DtiArmed z) (zd_TripDelta z) (zd_NotifiedTemperature z) (zd_DsmFunctions z) d (zd_Info z).
Definition zd_set_DsmFunctions (f : Z) (z : zone_data) : zone_data :=
  mkZoneData (zd_DtiArmed z) (zd_TripDelta z) (zd_NotifiedTemperature z) f (zd_Description z) (zd_Info z).
Definition zd_set_TripDelta (v : Z) (z : zone_data) : zone_data :=
  mkZoneData (zd_DtiArmed z) v (zd_NotifiedTemperature z) (zd_DsmFunctions z) (zd_Description z) (zd_Info z).
Definition zd_disarm (z : zone_data) : zone_data :=
  mkZoneData false (zd_TripDelta z) (zd_NotifiedTemperature z) (zd_DsmFunctions z) (zd_Description z) (zd_Info z).

(** ** The steps *)
Section Steps.
Context {A : Acpi} (Target : ntddi) (ActiveProcessors : Z) (Node : acpi_node).

(** A step of UacpiNtThermalInit and the number of the next one.  The buffer of the
    description is stored before its lengths, which were zero. *)
Definition init_step (k : nat) (z : zone_data) (h : list acpi_call) (w : world)
  : zone_data * list acpi_call * world * nat :=
  match k with
  | 0%nat =>
      if negb (from_win10 Target) then (z, h, w, 4%nat)
      else
        let '(Result, h) := UacpiNtThermalEvalDsm Node 0 h in
        let Functions := match Result ≫= uacpi_object_get_buffer with Some (Mask :: _) => Mask | _ => 0 end in
        (zd_set_DsmFunctions Functions z, h, w, 1%nat)
  | 1%nat =>
      match zd_Description z with
      | Some _ => (z, h, w, 4%nat)
      | None =>
          let '(st, Object, h) := uacpi_eval Node "_STR" [] h in
          match (if uacpi_unlikely_error st then None else Object ≫= uacpi_object_get_buffer) with
          | None => (z, h, w, 4%nat)
          | Some View =>
              if negb (description_valid View) then (z, h, w, 4%nat)
              else
                let '(ok, w) := ExAllocatePoolWithTag (Z.of_nat (length View)) w in
                if negb ok then (z, h, w, 4%nat)
                else (zd_set_Description (Some (mkUnicode View 0 0)) z, h, w, 2%nat)
          end
      end
  | 2%nat =>
      (zd_set_Description (option_map (fun d =>
         mkUnicode (us_Buffer d) (u16 (Z.of_nat (wcslen (us_Buffer d)) * 2)) (us_MaximumLength d)) (zd_Description z)) z, h, w, 3%nat)
  | 3%nat =>
      (zd_set_Description (option_map (fun d =>
         mkUnicode (us_Buffer d) (us_Length d) (u16 (us_Length d + 2))) (zd_Description z)) z, h, w, 4%nat)
  | _ => (zd_disarm z, h, w, 5%nat)
  end.
Definition init_steps : nat := 5.

(** A method that is missing reads as 0. *)
Definition store_default (n : nat) (Method : string) (z : zone_data) (h : list acpi_call) : zone_data * list acpi_call :=
  let '(v, h) := UacpiNtThermalEvalDefault Node Method 0 h in (store_word n v z, h).

(** A step of UacpiNtThermalReadTrips: the fields in their order, the ten words of the
    array cleared, the trip points found one by one and counted at the end, and what
    the release adds. *)
Definition trip_step (j : nat) (z : zone_data) (h : list acpi_call) : zone_data * list acpi_call * nat :=
  let next (r : zone_data * list acpi_call) := (r, S j) in
  if (j <? 8)%nat then
    match j with
    | 0%nat => next (store_default at_ThermalConstant1 "_TC1" z h)
    | 1%nat => next (store_default at_ThermalConstant2 "_TC2" z h)
    | 2%nat => next (store_default at_PassiveTripPoint "_PSV" z h)
    | 3%nat => next (store_default at_CriticalTripPoint "_CRT" z h)
    | 4%nat =>
        next (if from_win10 Target then
                let '(Tfp, h) := UacpiNtThermalEvalInteger Node "_TFP" h in
                match Tfp with
                | Some v => (store_word at_SamplingPeriod v z, h)
                | None => let '(Tsp, h) := UacpiNtThermalEvalDefault Node "_TSP" 0 h in
                          (store_word at_SamplingPeriod (u32 (Tsp * 100)) z, h)
                end
              else store_default at_SamplingPeriod "_TSP" z h)
    | 5%nat => next (if from_win10 Target then store_default at_StandbyTripPoint "_CR3" z h else (z, h))
    | 6%nat => next (if from_win8 Target then store_default at_S4TripPoint "_HOT" z h else (z, h))
    | _ => next (if from_win8 Target
                 then let '(Ntt, h) := UacpiNtThermalEvalDefault Node "_NTT" 0 h in (zd_set_TripDelta Ntt z, h)
                 else (z, h))
    end
  else if (j <? 18)%nat then next (store_word (at_ActiveTripPoint (j - 8)) 0 z, h)
  else if (j <? 28)%nat then
    let '(Value, h) := UacpiNtThermalEvalInteger Node (level_method "_AC" (j - 18)) h in
    match Value with
    | Some v => next (store_word (at_ActiveTripPoint (j - 18)) v z, h)
    | None => (store_word at_ActiveTripPointCount (Z.of_nat (j - 18)) z, h, 29%nat)
    end
  else if (j <? 29)%nat then next (store_word at_ActiveTripPointCount (Z.of_nat MAX_ACTIVE_COOLING_LEVELS) z, h)
  else if (j <? 30)%nat then
    match Target with
    | NtWin10 =>
        let '(Value, h) := UacpiNtThermalEvalInteger Node "_MTL" h in
        let '(Minimum, h) :=
          match Value with
          | Some v => (if 100 <? v then 100 else v, h)
          | None => let '(p, h) := UacpiNtThermalDsmPercent Node (zd_DsmFunctions z) 1 h in (default 0 p, h)
          end in
        next (store_word at_MinimumThrottle Minimum z, h)
    | NtWin8 => (z, h, 31%nat)
    | NtVista =>
        let '(p, h) := UacpiNtThermalPassiveProcessors ActiveProcessors Node h in (store_word at_Processors p z, h, 31%nat)
    end
  else
    let '(Over, h) := UacpiNtThermalDsmPercent Node (zd_DsmFunctions z) 3 h in
    (store_word at_OverThrottleThreshold (default 0 Over) z, h, 31%nat).
Definition trip_steps : nat := 31.
End Steps.

(** ** Words and fields *)

Lemma length_info_words i : length (ti_ActiveTripPoint i) = MAX_ACTIVE_COOLING_LEVELS -> length (info_words i) = info_size.
Proof. intros H. unfold info_words. rewrite !length_app, H. done. Qed.

(** The ten trip points as variables. *)
Ltac ten_points i :=
  let l := fresh "l" in
  destruct i as [? ? ? ? ? ? ? ? ? l ? ? ?]; simpl in *;
  do 10 (destruct l as [|? l]; [done|]); destruct l; [|done].

Lemma words_info i : length (ti_ActiveTripPoint i) = MAX_ACTIVE_COOLING_LEVELS -> info_of_words (info_words i) = i.
Proof. intros H. by ten_points i. Qed.

Lemma info_words_of l : length l = info_size -> info_words (info_of_words l) = l.
Proof. intros H. do 22 (destruct l as [|? l]; [done|]). destruct l; [|done]. reflexivity. Qed.

Lemma length_info_of l : length (ti_ActiveTripPoint (info_of_words l)) = MAX_ACTIVE_COOLING_LEVELS.
Proof. done. Qed.

Lemma store_words n v i : length (ti_ActiveTripPoint i) = MAX_ACTIVE_COOLING_LEVELS ->
  info_words (ti_store n v i) = <[n := v]> (info_words i).
Proof. intros H. apply info_words_of. rewrite length_insert. by apply length_info_words. Qed.

Lemma store_active x v i : (x < MAX_ACTIVE_COOLING_LEVELS)%nat -> length (ti_ActiveTripPoint i) = MAX_ACTIVE_COOLING_LEVELS ->
  ti_ActiveTripPoint (ti_store (at_ActiveTripPoint x) v i) = <[x := v]> (ti_ActiveTripPoint i) /\
  ti_ActiveTripPointCount (ti_store (at_ActiveTripPoint x) v i) = ti_ActiveTripPointCount i.
Proof.
  unfold MAX_ACTIVE_COOLING_LEVELS. intros Hx H. ten_points i. do 10 (destruct x as [|x]; [by split|]). lia.
Qed.

(** Every word in its range: an ULONG, the count at most ten; the affinity mask is not
    looked at. *)
Definition word_ok (n : nat) (v : Z) : Prop :=
  (n < at_Processors)%nat -> is_ulong v /\ (n = at_ActiveTripPointCount -> v <= 10).
Definition words_ok (l : list Z) : Prop := forall n v, l !! n = Some v -> word_ok n v.
Definition reading_ok (i : UACPINT_THERMAL_INFO) : Prop :=
  length (ti_ActiveTripPoint i) = MAX_ACTIVE_COOLING_LEVELS /\ words_ok (info_words i).

Lemma reading_of_words l : length l = info_size -> words_ok l -> reading_ok (info_of_words l).
Proof. intros H Hw. split; [done|]. by rewrite info_words_of. Qed.

Lemma store_reading n v i : reading_ok i -> word_ok n v -> reading_ok (ti_store n v i).
Proof.
  intros [Hl Hw] Hv. split; [done|]. rewrite store_words by done. intros m x. rewrite list_lookup_insert_Some.
  intros [(<- & <- & _)|[_ H] ]; [done|by apply Hw].
Qed.

(** A reading in range is well formed when the array is zero from the count on. *)
Lemma info_ok_reading i : info_ok i <->
  reading_ok i /\ Forall (eq 0) (drop (Z.to_nat (ti_ActiveTripPointCount i)) (ti_ActiveTripPoint i)).
Proof.
  split.
  - intros [Hv Hl Ha Hc Hr]. split; [|done]. split; [done|]. clear Hr. ten_points i.
    repeat (apply Forall_cons in Hv as [? Hv]). repeat (apply Forall_cons in Ha as [? Ha]).
    assert (is_ulong ti_ActiveTripPointCount) by (unfold is_ulong, MAXULONG; lia).
    intros n v Hn Hlt. unfold at_Processors in Hlt.
    do 21 (destruct n as [|n]; [simpl in Hn; simplify_eq; split; [done|intros Hx; first [discriminate Hx|lia] ]|]). lia.
  - intros [ [Hl Hw] Hr].
    assert (forall n v, info_words i !! n = Some v -> (n < 21)%nat -> is_ulong v) as Hu by (intros n v H1 H2; by apply (Hw n v)).
    assert (forall v, info_words i !! 8%nat = Some v -> v <= 10) as Hc.
    { intros v H. apply (Hw 8%nat v H); [unfold at_Processors; lia|done]. }
    clear Hw. split; try done.
    + clear Hc Hr. ten_points i.
      repeat (apply Forall_cons_2; [|]); [..|apply Forall_nil_2];
        match goal with |- is_ulong ?v => first
          [exact (Hu 0%nat v eq_refl ltac:(lia))|exact (Hu 1%nat v eq_refl ltac:(lia))|exact (Hu 2%nat v eq_refl ltac:(lia))
          |exact (Hu 3%nat v eq_refl ltac:(lia))|exact (Hu 4%nat v eq_refl ltac:(lia))|exact (Hu 5%nat v eq_refl ltac:(lia))
          |exact (Hu 6%nat v eq_refl ltac:(lia))|exact (Hu 7%nat v eq_refl ltac:(lia))|exact (Hu 19%nat v eq_refl ltac:(lia))
          |exact (Hu 20%nat v eq_refl ltac:(lia))] end.
    + apply Forall_lookup. intros x v Hx. pose proof (lookup_lt_Some _ _ _ Hx) as Hlt.
      apply (Hu (9 + x)%nat v); [|unfold MAX_ACTIVE_COOLING_LEVELS in Hl; lia]. unfold info_words.
      rewrite lookup_app_r by (simpl; lia). rewrite lookup_app_l by (simpl; lia). simpl length.
      by replace (9 + x - 9)%nat with x by lia.
    + pose proof (Hu 8%nat (ti_ActiveTripPointCount i) eq_refl ltac:(lia)) as [? _]. specialize (Hc _ eq_refl). lia.
Qed.

(** ** The steps in sequence are the routines *)

(** The step with a number written out. *)
Ltac known_step :=
  repeat match goal with
  | |- context [(?a <? ?b)%nat] => let r := eval vm_compute in (a <? b)%nat in change (a <? b)%nat with r
  end; cbv beta iota zeta.

Section Alone.
Context {A : Acpi} (Target : ntddi) (ActiveProcessors : Z) (Node : acpi_node).

Fixpoint init_alone (n k : nat) (z : zone_data) (h : list acpi_call) (w : world) : zone_data * list acpi_call * world :=
  match n with
  | O => (z, h, w)
  | S n =>
      if (k <? init_steps)%nat
      then let '(z, h, w, k) := init_step Target Node k z h w in init_alone n k z h w
      else (z, h, w)
  end.

Fixpoint trips_alone (n j : nat) (z : zone_data) (h : list acpi_call) : zone_data * list acpi_call :=
  match n with
  | O => (z, h)
  | S n =>
      if (j <? trip_steps)%nat
      then let '(z, h, j) := trip_step Target ActiveProcessors Node j z h in trips_alone n j z h
      else (z, h)
  end.

Lemma init_alone_routine z h w : init_alone init_steps 0 z h w = UacpiNtThermalInit Target Node z h w.
Proof.
  unfold UacpiNtThermalInit, init_steps. destruct z as [da td nt df [d|] i]; simpl; (destruct (from_win10 Target); [|done]); simpl;
    destruct (UacpiNtThermalEvalDsm Node 0 h) as [Result h1]; simpl; [done|].
  unfold UacpiNtThermalReadDescription. unfold uacpi_eval. destruct (answer_eval h1 Node "_STR" []) as [st Object]. simpl.
  destruct (if uacpi_unlikely_error st then _ else _) as [View|]; [|done]. destruct (description_valid View); [|done]. simpl.
  by destruct (w_pool w _ _).
Qed.

(** The array after [n] of its words were cleared. *)
Lemma clear_alone n : forall m z h, (n <= 10)%nat -> length (ti_ActiveTripPoint (zd_Info z)) = MAX_ACTIVE_COOLING_LEVELS ->
  Forall (eq 0) (take (10 - n) (ti_ActiveTripPoint (zd_Info z))) ->
  exists z', trips_alone (n + m) (18 - n) z h = trips_alone m 18 z' h /\
    zd_Info z' = mkThermalInfo (ti_ThermalConstant1 (zd_Info z)) (ti_ThermalConstant2 (zd_Info z)) (ti_SamplingPeriod (zd_Info z))
      (ti_CurrentTemperature (zd_Info z)) (ti_PassiveTripPoint (zd_Info z)) (ti_StandbyTripPoint (zd_Info z))
      (ti_CriticalTripPoint (zd_Info z)) (ti_S4TripPoint (zd_Info z)) (ti_ActiveTripPointCount (zd_Info z))
      (replicate 10 0) (ti_MinimumThrottle (zd_Info z)) (ti_OverThrottleThreshold (zd_Info z)) (ti_Processors (zd_Info z)) /\
    z' = zd_set_Info (zd_Info z') z.
Proof.
  induction n as [|n IH]; intros m z h Hn Hl Hz.
  - exists z. split; [done|]. rewrite take_ge in Hz by (rewrite Hl; unfold MAX_ACTIVE_COOLING_LEVELS; lia).
    destruct z as [da td nt df de i]. simpl in *. split; [|done].
    ten_points i. repeat (apply Forall_cons in Hz as [<- Hz]). reflexivity.
  - replace (S n + m)%nat with (S (n + m)) by lia. cbn [trips_alone].
    assert ((18 - S n <? trip_steps)%nat = true) as -> by (apply Nat.ltb_lt; unfold trip_steps; lia).
    unfold trip_step at 1. assert ((18 - S n <? 8)%nat = false) as -> by (apply Nat.ltb_ge; lia).
    assert ((18 - S n <? 18)%nat = true) as -> by (apply Nat.ltb_lt; lia).
    replace (S (18 - S n)) with (18 - n)%nat by lia.
    set (x := (18 - S n - 8)%nat). destruct (store_active x 0 (zd_Info z)) as [Ea Ec]; [unfold x, MAX_ACTIVE_COOLING_LEVELS; lia|done|].
    destruct (IH m (store_word (at_ActiveTripPoint x) 0 z) h) as (z' & E & Ei & Ez); [lia|done| |].
    + unfold store_word. cbn [zd_set_Info zd_Info]. rewrite Ea. replace (10 - n)%nat with (S x) by lia.
      rewrite (take_S_r _ _ 0) by (apply list_lookup_insert_eq; rewrite Hl; unfold x, MAX_ACTIVE_COOLING_LEVELS; lia).
      apply Forall_app. split; [|by constructor]. rewrite take_insert_ge by lia. by replace x with (10 - S n)%nat by lia.
    + exists z'. split; [exact E|]. split; [|by rewrite Ez].
      rewrite Ei. simpl. clear - Hl Hn x. assert (x < 10)%nat as Hx by lia. clearbody x. destruct z as [da td nt df de i]. simpl in *.
      ten_points i. do 10 (destruct x as [|x]; [reflexivity|]). lia.
Qed.
Definition ti_set_Active (Count : Z) (l : list Z) (i : UACPINT_THERMAL_INFO) : UACPINT_THERMAL_INFO :=
  mkThermalInfo (ti_ThermalConstant1 i) (ti_ThermalConstant2 i) (ti_SamplingPeriod i) (ti_CurrentTemperature i)
    (ti_PassiveTripPoint i) (ti_StandbyTripPoint i) (ti_CriticalTripPoint i) (ti_S4TripPoint i) Count l
    (ti_MinimumThrottle i) (ti_OverThrottleThreshold i) (ti_Processors i).

Lemma store_count v i : length (ti_ActiveTripPoint i) = MAX_ACTIVE_COOLING_LEVELS ->
  ti_store at_ActiveTripPointCount v i = ti_set_Active v (ti_ActiveTripPoint i) i.
Proof. intros H. by ten_points i. Qed.

Lemma store_active_set x v i : (x < MAX_ACTIVE_COOLING_LEVELS)%nat -> length (ti_ActiveTripPoint i) = MAX_ACTIVE_COOLING_LEVELS ->
  ti_store (at_ActiveTripPoint x) v i = ti_set_Active (ti_ActiveTripPointCount i) (<[x := v]> (ti_ActiveTripPoint i)) i.
Proof. unfold MAX_ACTIVE_COOLING_LEVELS. intros Hx H. ten_points i. do 10 (destruct x as [|x]; [reflexivity|]). lia. Qed.

Lemma alone_step n j z h : (j < trip_steps)%nat ->
  trips_alone (S n) j z h = let '(z, h, j) := trip_step Target ActiveProcessors Node j z h in trips_alone n j z h.
Proof. intros H. cbn [trips_alone]. by rewrite (proj2 (Nat.ltb_lt j trip_steps) H). Qed.

Lemma alone_end n z h : trips_alone n 31 z h = (z, h).
Proof. by destruct n. Qed.

Lemma store_functions n v z : zd_DsmFunctions (store_word n v z) = zd_DsmFunctions z.
Proof. done. Qed.

Lemma store_throttle m o z : length (ti_ActiveTripPoint (zd_Info z)) = MAX_ACTIVE_COOLING_LEVELS ->
  store_word at_OverThrottleThreshold o (store_word at_MinimumThrottle m z) = zd_set_Info (ti_set_Throttle m o (zd_Info z)) z.
Proof. intros H. destruct z as [da td nt df de i]. simpl in H. by ten_points i. Qed.

(** The last steps. *)
Definition trips_tail (z : zone_data) (h : list acpi_call) : zone_data * list acpi_call :=
  let i := zd_Info z in
  let '(i, h) :=
    match Target with
    | NtWin10 => UacpiNtThermalReadThrottleLimits Node (zd_DsmFunctions z) i h
    | NtWin8 => (i, h)
    | NtVista => let '(p, h) := UacpiNtThermalPassiveProcessors ActiveProcessors Node h in (ti_store at_Processors p i, h)
    end in
  (zd_set_Info i z, h).
Lemma tail_alone m z h : length (ti_ActiveTripPoint (zd_Info z)) = MAX_ACTIVE_COOLING_LEVELS -> trips_alone (2 + m) 29 z h =
  trips_tail z h.
Proof.
  intros Hl. assert (forall z, zd_set_Info (zd_Info z) z = z) as Hz by (by intros []).
  cbn [Nat.add]. unfold trips_tail. rewrite alone_step by (unfold trip_steps; lia). unfold trip_step at 1. known_step.
  destruct Target.
  - destruct (UacpiNtThermalPassiveProcessors _ _ _) as [p h1]. by rewrite alone_end.
  - rewrite alone_end. by rewrite Hz.
  - unfold UacpiNtThermalReadThrottleLimits. destruct (UacpiNtThermalEvalInteger Node "_MTL" h) as [v h1].
    destruct (match v with Some _ => _ | None => _ end) as [Minimum h2]. rewrite alone_step by (unfold trip_steps; lia).
    unfold trip_step. known_step. rewrite store_functions.
    destruct (UacpiNtThermalDsmPercent _ _ _ _) as [o h3]. by rewrite alone_end, store_throttle.
Qed.

(** The trip points from where the loop is. *)
Lemma find_alone n : forall x m z h l, (x + n = 10)%nat -> ti_ActiveTripPoint (zd_Info z) = l ++ replicate n 0 -> length l = x ->
  let '(found, h') := read_active n x Node h in
  trips_alone (n + 3 + m) (18 + x) z h =
    trips_tail (zd_set_Info (ti_set_Active (Z.of_nat (length (l ++ found))) (l ++ found ++ replicate (n - length found) 0) (zd_Info z)) z) h'.
Proof.
  induction n as [|n IH]; intros x m z h l Hn Ha Hl; cbn [read_active];
    assert (length (ti_ActiveTripPoint (zd_Info z)) = MAX_ACTIVE_COOLING_LEVELS) as Hlen
      by (rewrite Ha, length_app, length_replicate, Hl; unfold MAX_ACTIVE_COOLING_LEVELS; lia).
  - replace (0 + 3 + m)%nat with (S (2 + m)) by lia. replace (18 + x)%nat with 28%nat by lia.
    rewrite alone_step by (unfold trip_steps; lia). unfold trip_step. known_step. unfold store_word.
    rewrite store_count, tail_alone by done. replace x with 10%nat in Hl by lia. by rewrite Ha, !app_nil_r, Hl.
  - replace (S n + 3 + m)%nat with (S (n + 3 + m)) by lia. rewrite alone_step by (unfold trip_steps; lia). unfold trip_step.
    rewrite (proj2 (Nat.ltb_ge (18 + x) 8)), (proj2 (Nat.ltb_ge (18 + x) 18)), (proj2 (Nat.ltb_lt (18 + x) 28)) by lia.
    replace (18 + x - 18)%nat with x by lia. replace (S (18 + x)) with (18 + S x)%nat by lia.
    destruct (UacpiNtThermalEvalInteger Node (level_method "_AC" x) h) as [ [v|] h1].
    + specialize (IH (S x) m (store_word (at_ActiveTripPoint x) v z) h1 (l ++ [v]) ltac:(lia)).
      destruct (read_active n (S x) Node h1) as [found h2].
      unfold store_word in IH |- *. rewrite store_active_set in IH |- * by (done || (unfold MAX_ACTIVE_COOLING_LEVELS; lia)).
      rewrite IH.
      * cbn [length]. rewrite <- !app_assoc. simpl app. done.
      * simpl. rewrite Ha. rewrite <- Hl, insert_app_r_alt by lia. rewrite Nat.sub_diag. simpl. by rewrite <- app_assoc.
      * rewrite length_app, Hl. simpl. lia.
    + replace (n + 3 + m)%nat with (2 + (n + 1 + m))%nat by lia. unfold store_word.
      rewrite store_count, tail_alone by done. rewrite Ha, app_nil_r, Hl. done.
Qed.

Ltac evaluated :=
  repeat match goal with
  | E : ?x = (_, _) |- context [?x] => rewrite E; cbv beta iota
  | |- context [UacpiNtThermalEvalDefault ?n ?m 0 ?k] => destruct (UacpiNtThermalEvalDefault n m 0 k) as [? ?] eqn:?
  end.

Lemma trips_alone_routine z h : length (ti_ActiveTripPoint (zd_Info z)) = MAX_ACTIVE_COOLING_LEVELS ->
  trips_alone trip_steps 0 z h = UacpiNtThermalReadTrips Target ActiveProcessors Node z h.
Proof.
  intros Hl. unfold UacpiNtThermalReadTrips, trip_steps.
  assert (forall n z h, length (ti_ActiveTripPoint (zd_Info z)) = MAX_ACTIVE_COOLING_LEVELS -> (23 <= n)%nat ->
    trips_alone n 8 z h =
      let '(Count, Active, h) := UacpiNtThermalReadActiveTrips Node h in
      trips_tail (zd_set_Info (ti_set_Active Count Active (zd_Info z)) z) h) as Hactive.
  { clear. intros n z h Hl Hn. replace n with (10 + (n - 10))%nat by lia.
    destruct (clear_alone 10 (n - 10) z h) as (z' & E & Ei & Ez); [lia|done|constructor|].
    change (18 - 10)%nat with 8%nat in E. rewrite E. replace (n - 10)%nat with (10 + 3 + (n - 23))%nat by lia.
    pose proof (find_alone 10 0 (n - 23) z' h [] eq_refl) as Hf. rewrite Ei in Hf. specialize (Hf eq_refl eq_refl).
    unfold UacpiNtThermalReadActiveTrips, MAX_ACTIVE_COOLING_LEVELS. destruct (read_active 10 0 Node h) as [found h1]. change (18 + 0)%nat with 18%nat in Hf. rewrite Hf.
    rewrite Ez, Ei. done. }
  change 31%nat with (8 + 23)%nat. cbn [Nat.add].
  do 4 (rewrite alone_step by (unfold trip_steps; lia); unfold trip_step, store_default at 1; known_step; evaluated).
  rewrite alone_step by (unfold trip_steps; lia). unfold trip_step, store_default at 1. known_step.
  destruct (from_win10 Target) eqn:E10; [destruct (UacpiNtThermalEvalInteger Node "_TFP" _) as [ [v|] ?] eqn:Ep|]; evaluated.
  all: rewrite !alone_step by (unfold trip_steps; lia); unfold trip_step, store_default; known_step; rewrite E10; evaluated.
  all: rewrite !alone_step by (unfold trip_steps; lia); unfold trip_step, store_default; known_step;
    destruct (from_win8 Target) eqn:E8; evaluated;
    rewrite !alone_step by (unfold trip_steps; lia); unfold trip_step, store_default; known_step; rewrite E8; evaluated.
  all: rewrite Hactive by (done || lia); destruct (UacpiNtThermalReadActiveTrips Node _) as [ [Count Active] ?] eqn:Et; unfold trips_tail.
  all: evaluated.
  all: destruct z as [da td nt df de i]; simpl in Hl; clear Hactive; destruct Target; try discriminate.
  all: ten_points i; try reflexivity.
  destruct (UacpiNtThermalPassiveProcessors _ _ _) as [p ?].
  match goal with E : UacpiNtThermalReadActiveTrips _ _ = _ |- _ => apply active_trips_ok in E as (_ & Hn & _) end.
  do 10 (destruct Active as [|? Active]; [done|]). by destruct Active.
Qed.
End Alone.

(** ** What holds between the steps *)

(** Always: every value in its range. *)
Definition data_ok (z : zone_data) : Prop :=
  reading_ok (zd_Info z) /\ is_ulong (zd_TripDelta z) /\ is_ulong (zd_NotifiedTemperature z).

(** A description with its lengths stored. *)
Definition description_done (d : unicode_buffer) : Prop :=
  description_valid (us_Buffer d) = true /\ us_Length d = u16 (Z.of_nat (wcslen (us_Buffer d)) * 2) /\
  us_MaximumLength d = u16 (us_Length d + 2).
Definition description_ok (z : zone_data) : Prop := forall d, zd_Description z = Some d -> description_done d.

(** With no routine on its way. *)
Definition settled (z : zone_data) : Prop := info_ok (zd_Info z) /\ description_ok z.

(** What the worker knows before a step of each routine. *)
Definition init_knows (k : nat) (z : zone_data) : Prop :=
  info_ok (zd_Info z) /\
  match k with
  | 2%nat => forall d, zd_Description z = Some d -> description_valid (us_Buffer d) = true
  | 3%nat => forall d, zd_Description z = Some d ->
      description_valid (us_Buffer d) = true /\ us_Length d = u16 (Z.of_nat (wcslen (us_Buffer d)) * 2)
  | _ => description_ok z
  end.
Definition trip_knows (j : nat) (z : zone_data) : Prop :=
  description_ok z /\ (~ (18 < j <= 28)%nat -> info_ok (zd_Info z)) /\
  ((8 <= j <= 18)%nat -> Forall (eq 0) (take (j - 8) (ti_ActiveTripPoint (zd_Info z)))) /\
  ((18 <= j <= 28)%nat -> Forall (eq 0) (drop (j - 18) (ti_ActiveTripPoint (zd_Info z)))).

Section Knowledge.
Context {A : Acpi} (Target : ntddi) (ActiveProcessors : Z) (Node : acpi_node).

Lemma init_step_next k z h w z' h' w' k' : init_step Target Node k z h w = (z', h', w', k') -> (k < init_steps)%nat ->
  (k < k' <= init_steps)%nat.
Proof.
  unfold init_steps. intros E Hk. destruct k as [|[|[|[|k] ] ] ]; simpl in E; simplify_eq/=; repeat (case_match; simplify_eq/=); lia.
Qed.

Lemma trip_step_next j z h z' h' j' : trip_step Target ActiveProcessors Node j z h = (z', h', j') -> (j < trip_steps)%nat ->
  (j < j' <= trip_steps)%nat.
Proof.
  unfold trip_steps, trip_step. intros E Hj.
  destruct (Nat.ltb_spec j 8); [destruct j as [|[|[|[|[|[|[|j] ] ] ] ] ] ]; by simplify_eq/=; lia|].
  destruct (Nat.ltb_spec j 18); [simplify_eq; lia|]. destruct (Nat.ltb_spec j 28).
  { destruct (UacpiNtThermalEvalInteger _ _ _) as [ [v|] h1]; simplify_eq; lia. }
  destruct (Nat.ltb_spec j 29); [simplify_eq; lia|]. destruct (Nat.ltb_spec j 30); simplify_eq/=; repeat (case_match; simplify_eq/=); lia.
Qed.

Lemma init_step_knows k z h w z' h' w' k' : init_step Target Node k z h w = (z', h', w', k') -> data_ok z -> init_knows k z ->
  data_ok z' /\ init_knows k' z'.
Proof.
  intros E Hd [Hi Hk]. destruct k as [|[|[|[|k] ] ] ]; simpl in E, Hk.
  - simplify_eq/=; repeat (case_match; simplify_eq/=); by (split; [exact Hd|split; [exact Hi|exact Hk] ]).
  - destruct (zd_Description z) as [d|] eqn:Ez; [simplify_eq; by (split; [exact Hd|split; [exact Hi|exact Hk] ])|]. unfold uacpi_eval in E.
    destruct (answer_eval h Node "_STR" []) as [st Object].
    destruct (if uacpi_unlikely_error st then _ else _) as [View|]; [|simplify_eq; by (split; [exact Hd|split; [exact Hi|exact Hk] ])].
    destruct (description_valid View) eqn:Ev; simpl in E; [|simplify_eq; by (split; [exact Hd|split; [exact Hi|exact Hk] ])].
    destruct (w_pool w _ _); simpl in E; simplify_eq; [|by (split; [exact Hd|split; [exact Hi|exact Hk] ])]. split; [done|]. split; [done|]. simpl. intros d ?. by simplify_eq/=.
  - simplify_eq. split; [done|]. split; [done|]. simpl. destruct (zd_Description z) as [d|]; [|done]. intros d' ?. simplify_eq/=.
    split; [by apply Hk|done].
  - simplify_eq. split; [done|]. split; [done|]. simpl. intros d'. simpl. destruct (zd_Description z) as [d|]; [|done]. intros ?. simplify_eq/=.
    destruct (Hk d eq_refl) as [H1 H2]. by split_and!.
  - simplify_eq. by (split; [exact Hd|split; [exact Hi|exact Hk] ]).
Qed.

(** A store outside the array and its count. *)
Lemma store_other n v i : length (ti_ActiveTripPoint i) = MAX_ACTIVE_COOLING_LEVELS -> (n < 8 \/ 18 < n)%nat ->
  ti_ActiveTripPoint (ti_store n v i) = ti_ActiveTripPoint i /\ ti_ActiveTripPointCount (ti_store n v i) = ti_ActiveTripPointCount i.
Proof.
  intros H Hn. ten_points i. do 8 (destruct n as [|n]; [done|]). do 11 (destruct n as [|n]; [lia|]).
  do 3 (destruct n as [|n]; [done|]). done.
Qed.

Lemma store_data n v z : data_ok z -> word_ok n v -> data_ok (store_word n v z).
Proof. intros (Hr & Hd) Hv. split; [|done]. by apply store_reading. Qed.

Lemma store_info n v i : info_ok i -> word_ok n v -> (n < 8 \/ 18 < n)%nat -> info_ok (ti_store n v i).
Proof.
  rewrite !info_ok_reading. intros [Hr Hz] Hv Hn. split; [by apply store_reading|].
  destruct (store_other n v i (proj1 Hr) Hn) as [-> ->]. done.
Qed.

Lemma ulong_word n v : is_ulong v -> n <> at_ActiveTripPointCount -> word_ok n v.
Proof. by intros H Hn _. Qed.

(** A value stored beside the array, before it is touched or after it is counted. *)
Lemma store_knows n v j j' z : data_ok z -> trip_knows j z -> word_ok n v -> (n < 8 \/ 18 < n)%nat ->
  (j < 8)%nat /\ j' = S j \/ (28 < j)%nat /\ (28 < j')%nat ->
  data_ok (store_word n v z) /\ trip_knows j' (store_word n v z).
Proof.
  intros Hd (He & Hi & Hc & Hf) Hv Hn Hj. split; [by apply store_data|]. split; [done|].
  unfold store_word. cbn [zd_set_Info zd_Info].
  split; [intros _; apply store_info; [apply Hi; lia|done|done]|]. split; [|lia].
  intros Hj'. replace (j' - 8)%nat with 0%nat by lia. constructor.
Qed.

Lemma stay_knows j j' z : trip_knows j z -> (j < 8)%nat /\ j' = S j \/ (28 < j)%nat /\ (28 < j')%nat -> trip_knows j' z.
Proof.
  intros (He & Hi & Hc & Hf) Hj. split; [done|]. split; [intros _; apply Hi; lia|]. split; [|lia].
  intros Hj'. replace (j' - 8)%nat with 0%nat by lia. constructor.
Qed.

(** A word of the array cleared. *)
Lemma clear_knows j z : data_ok z -> trip_knows j z -> (8 <= j < 18)%nat ->
  data_ok (store_word (at_ActiveTripPoint (j - 8)) 0 z) /\ trip_knows (S j) (store_word (at_ActiveTripPoint (j - 8)) 0 z).
Proof.
  intros Hd (He & Hi & Hc & Hf) Hj. pose proof Hd as [Hr _].
  assert (word_ok (at_ActiveTripPoint (j - 8)) 0) as Hw.
  { apply ulong_word; [apply ulong_zero|]. unfold at_ActiveTripPoint, at_ActiveTripPointCount. lia. }
  split; [by apply store_data|]. split; [done|]. unfold store_word. cbn [zd_set_Info zd_Info].
  destruct (store_active (j - 8) 0 (zd_Info z)) as [Ea Ec]; [unfold MAX_ACTIVE_COOLING_LEVELS; lia|apply Hr|].
  specialize (Hi ltac:(lia)). specialize (Hc ltac:(lia)). rewrite Ea.
  assert (length (ti_ActiveTripPoint (zd_Info z)) = 10%nat) as Hl by apply Hr.
  split; [|split].
  - intros _. rewrite info_ok_reading. split; [by apply store_reading|]. rewrite Ea, Ec.
    apply info_ok_reading in Hi as [_ Hi]. rewrite Forall_lookup in Hi |- *. intros x y. rewrite !lookup_drop in *.
    rewrite list_lookup_insert_Some. intros [(_ & ? & _)|[_ H] ]; [done|]. apply (Hi x). by rewrite lookup_drop.
  - intros _. replace (S j - 8)%nat with (S (j - 8)) by lia.
    rewrite (take_S_r _ _ 0) by (apply list_lookup_insert_eq; lia). apply Forall_app. split; [|by constructor].
    by rewrite take_insert_ge by lia.
  - intros Hj'. assert (j = 17%nat) as -> by lia. simpl (18 - 18)%nat. rewrite drop_0.
    rewrite <- (take_drop 9 (<[_ := _]> _)). apply Forall_app. split.
    + by rewrite take_insert_ge by lia.
    + rewrite drop_insert_ge by lia. simpl (9 - 9)%nat. destruct (drop 9 (ti_ActiveTripPoint (zd_Info z))) as [|x l] eqn:El; [done|].
      assert (length (drop 9 (ti_ActiveTripPoint (zd_Info z))) = 1%nat) as Hl1 by (rewrite length_drop; lia).
      rewrite El in Hl1. destruct l; [|done]. by repeat constructor.
Qed.

(** A trip point found. *)
Lemma found_knows j v z : data_ok z -> trip_knows j z -> (18 <= j < 28)%nat -> is_ulong v ->
  data_ok (store_word (at_ActiveTripPoint (j - 18)) v z) /\ trip_knows (S j) (store_word (at_ActiveTripPoint (j - 18)) v z).
Proof.
  intros Hd (He & Hi & Hc & Hf) Hj Hv. pose proof Hd as [Hr _].
  assert (word_ok (at_ActiveTripPoint (j - 18)) v) as Hw.
  { apply ulong_word; [done|]. unfold at_ActiveTripPoint, at_ActiveTripPointCount. lia. }
  split; [by apply store_data|]. split; [done|]. unfold store_word. cbn [zd_set_Info zd_Info].
  destruct (store_active (j - 18) v (zd_Info z)) as [Ea Ec]; [unfold MAX_ACTIVE_COOLING_LEVELS; lia|apply Hr|].
  split; [lia|]. split; [lia|]. intros _. rewrite Ea. specialize (Hf ltac:(lia)).
  replace (S j - 18)%nat with (S (j - 18)) by lia. rewrite drop_insert_lt by lia.
  rewrite Forall_lookup in Hf |- *. intros x y. rewrite lookup_drop. intros H. apply (Hf (S x)). rewrite lookup_drop, <- H.
  f_equal. lia.
Qed.

(** The trip points counted. *)
Lemma count_knows j z : data_ok z -> trip_knows j z -> (18 <= j <= 28)%nat ->
  data_ok (store_word at_ActiveTripPointCount (Z.of_nat (j - 18)) z) /\
  trip_knows 29 (store_word at_ActiveTripPointCount (Z.of_nat (j - 18)) z).
Proof.
  intros Hd (He & Hi & Hc & Hf) Hj. pose proof Hd as [Hr _].
  assert (word_ok at_ActiveTripPointCount (Z.of_nat (j - 18))) as Hw by (intros _; unfold is_ulong, MAXULONG; lia).
  split; [by apply store_data|]. split; [done|]. unfold store_word. cbn [zd_set_Info zd_Info]. split; [|lia].
  intros _. rewrite info_ok_reading. split; [by apply store_reading|]. rewrite store_count by apply Hr. simpl.
  rewrite Nat2Z.id. apply Hf. lia.
Qed.
Lemma default_knows n Method j z h z' h' : store_default Node n Method z h = (z', h') -> data_ok z -> trip_knows j z ->
  (j < 8)%nat -> (n < 8)%nat -> data_ok z' /\ trip_knows (S j) z'.
Proof.
  unfold store_default. pose proof (eval_default_ulong Node Method h) as Hv. destruct (UacpiNtThermalEvalDefault Node Method 0 h) as [v h1].
  intros E Hd Hk Hj Hn. simplify_eq. apply (store_knows _ _ j); [done|done| |by left|by left].
  apply ulong_word; [done|]. unfold at_ActiveTripPointCount. lia.
Qed.

Lemma percent_word n p : 0 <= p <= 100 -> (18 < n)%nat -> word_ok n p.
Proof. intros Hp Hn. apply ulong_word; [unfold is_ulong, MAXULONG; lia|]. unfold at_ActiveTripPointCount. lia. Qed.

Lemma dsm_default_percent Functions Function h : 0 <= default 0 (UacpiNtThermalDsmPercent Node Functions Function h).1 <= 100.
Proof.
  destruct (UacpiNtThermalDsmPercent Node Functions Function h) as [ [v|] h1] eqn:E; simpl; [by eapply dsm_percent_range|lia].
Qed.

Lemma trip_step_knows j z h z' h' j' : trip_step Target ActiveProcessors Node j z h = (z', h', j') -> (j < trip_steps)%nat ->
  data_ok z -> trip_knows j z -> data_ok z' /\ trip_knows j' z'.
Proof.
  unfold trip_step, trip_steps. intros E Hlt Hd Hk.
  destruct (Nat.ltb_spec j 8) as [Hj|Hj].
  { assert (forall (z0 : zone_data), data_ok z0 -> trip_knows j z0 -> data_ok z0 /\ trip_knows (S j) z0) as Hstay.
    { intros z0 ? ?. split; [done|]. eapply stay_knows; [done|by left]. }
    destruct j as [|[|[|[|[|[|[|j] ] ] ] ] ] ]; injection E as E <-;
      try (eapply default_knows; [exact E|done|done|lia|unfold at_ThermalConstant1, at_ThermalConstant2, at_PassiveTripPoint, at_CriticalTripPoint; lia]).
    - destruct (from_win10 Target); [|by eapply default_knows; [exact E|..]; unfold at_SamplingPeriod; try lia].
      destruct (UacpiNtThermalEvalInteger Node "_TFP" h) as [ [v|] h1] eqn:Ev.
      + apply eval_integer_ulong in Ev. simplify_eq. apply (store_knows _ _ 4); [done|done|by apply ulong_word|left; unfold at_SamplingPeriod; lia|by left].
      + destruct (UacpiNtThermalEvalDefault Node "_TSP" 0 h1) as [Tsp h2]. simplify_eq.
        apply (store_knows _ _ 4); [done|done|apply ulong_word; [apply u32_ulong|done]|left; unfold at_SamplingPeriod; lia|by left].
    - destruct (from_win10 Target); [by eapply default_knows; [exact E|..]; unfold at_StandbyTripPoint; try lia|]. simplify_eq. by apply Hstay.
    - destruct (from_win8 Target); [by eapply default_knows; [exact E|..]; unfold at_S4TripPoint; try lia|]. simplify_eq. by apply Hstay.
    - destruct (from_win8 Target); [|simplify_eq; by apply Hstay].
      pose proof (eval_default_ulong Node "_NTT" h) as Hv. destruct (UacpiNtThermalEvalDefault Node "_NTT" 0 h) as [Ntt h1]. simplify_eq.
      destruct Hd as (Hr & _ & Hn). apply Hstay; [by split_and!|exact Hk]. }
  destruct (Nat.ltb_spec j 18); [injection E as <- <- <-; by apply clear_knows|].
  destruct (Nat.ltb_spec j 28).
  { destruct (UacpiNtThermalEvalInteger Node _ h) as [ [v|] h1] eqn:Ev; injection E as <- <- <-.
    - apply eval_integer_ulong in Ev. by apply found_knows.
    - apply count_knows; (done || lia). }
  destruct (Nat.ltb_spec j 29); [injection E as <- <- <-; assert (j = 28%nat) as -> by lia; by apply (count_knows 28)|].
  destruct (Nat.ltb_spec j 30).
  - destruct Target.
    + destruct (UacpiNtThermalPassiveProcessors _ _ _) as [p h1]. injection E as <- <- <-.
      apply (store_knows _ _ j); [done|done|unfold word_ok, at_Processors; lia|right; unfold at_Processors; lia|right; lia].
    + injection E as <- <- <-. split; [done|]. eapply stay_knows; [done|right; lia].
    + destruct (UacpiNtThermalEvalInteger Node "_MTL" h) as [ [v|] h1] eqn:Ev.
      * apply eval_integer_ulong in Ev. injection E as <- <- <-.
        apply (store_knows _ _ j); [done|done|apply percent_word; [destruct (100 <? v) eqn:Ex; bool_prop; unfold is_ulong in Ev; lia|unfold at_MinimumThrottle; lia]
          |right; unfold at_MinimumThrottle; lia|right; lia].
      * pose proof (dsm_default_percent (zd_DsmFunctions z) 1 h1) as Hp.
        destruct (UacpiNtThermalDsmPercent Node (zd_DsmFunctions z) 1 h1) as [p h2]. injection E as <- <- <-.
        apply (store_knows _ _ j); [done|done|apply percent_word; [done|unfold at_MinimumThrottle; lia]|right; unfold at_MinimumThrottle; lia|right; lia].
  - pose proof (dsm_default_percent (zd_DsmFunctions z) 3 h) as Hp.
    destruct (UacpiNtThermalDsmPercent Node (zd_DsmFunctions z) 3 h) as [p h2]. injection E as <- <- <-.
    apply (store_knows _ _ j); [done|done|apply percent_word; [done|unfold at_OverThrottleThreshold; lia]|right; unfold at_OverThrottleThreshold; lia|right; lia].
Qed.

(** Where a routine begins and ends. *)
Lemma settled_init z : settled z <-> init_knows 0 z.
Proof. done. Qed.
Lemma settled_init_end z : settled z <-> init_knows init_steps z.
Proof. done. Qed.

Lemma settled_trips z : settled z <-> trip_knows 0 z.
Proof.
  split.
  - intros [Hi He]. split; [done|]. split; [done|]. split; lia.
  - intros (He & Hi & _). split; [apply Hi; lia|done].
Qed.
Lemma settled_trips_end z : trip_knows trip_steps z -> settled z.
Proof. unfold trip_steps. intros (He & Hi & _). split; [apply Hi; lia|done]. Qed.

Lemma zone_start_settled : data_ok zero_zone /\ settled zero_zone.
Proof.
  destruct zone_ok_start as (Hi & Hd & Hn). split; [|by split]. split; [by apply info_ok_reading|done].
Qed.

(** The temperature is one word, and no part of what the routines know. *)
Lemma temperature_knows z h z' h' : read_temperature Target Node z h = (z', h') -> data_ok z -> settled z -> data_ok z' /\ settled z'.
Proof.
  unfold read_temperature. destruct (UacpiNtThermalEvalInteger Node "_TMP" h) as [Temperature h1] eqn:Et. intros E Hd Hs.
  assert (let z1 := match Temperature with Some v => zd_set_Info (ti_set_Temperature v (zd_Info z)) z | None => z end in
    data_ok z1 /\ settled z1) as [Hd1 Hs1].
  { destruct Temperature as [v|]; [|done]. apply eval_integer_ulong in Et. destruct Hs as [Hi He].
    assert (ti_set_Temperature v (zd_Info z) = ti_store 3 v (zd_Info z)) as -> by (destruct Hi as [_ Hl _ _ _]; destruct z as [? ? ? ? ? i]; simpl in *; by ten_points i).
    split; [apply (store_data 3); [done|by apply ulong_word]|]. split; [|done]. apply store_info; [done|by apply ulong_word|left; lia]. }
  destruct (from_win8 Target); [|by simplify_eq]. unfold UacpiNtThermalCheckDti in E.
  destruct (negb _); [by simplify_eq|]. destruct (negb _); [by simplify_eq|]. simplify_eq.
  split; [|done]. destruct Hd1 as (Hr & Hd1 & Hn1). split_and!; [done|done|]. simpl. destruct Hs1 as [ [Hv _ _ _ _] _].
  do 3 apply Forall_cons in Hv as [_ Hv]. by apply Forall_cons in Hv as [? _].
Qed.
End Knowledge.

(** The lengths of a finished description are those of its text, with the NUL. *)
Lemma description_lengths d : description_done d ->
  us_Length d = 2 * Z.of_nat (wcslen (us_Buffer d)) /\ us_MaximumLength d = us_Length d + 2 /\
  us_MaximumLength d <= Z.of_nat (length (us_Buffer d)) /\
  take (Z.to_nat (us_MaximumLength d)) (us_Buffer d) = take (Z.to_nat (us_Length d)) (us_Buffer d) ++ [0; 0].
Proof.
  intros (Ev & El & Em). unfold description_valid in Ev. apply andb_prop in Ev as [Ev Hlast]. apply andb_prop in Ev as [Ev Hmax].
  apply andb_prop in Ev as [Hmin Heven]. bool_prop. set (b := us_Buffer d) in *.
  destruct (drop (length b - 2) b) as [|lo [|hi [|? ?] ] ] eqn:Ed; try done.
  apply andb_prop in Hlast as [H1 H2]. bool_prop. subst.
  pose proof (Z.div_mod (Z.of_nat (length b)) 2 ltac:(lia)) as Hdm. rewrite Heven in Hdm.
  set (n := Z.to_nat (Z.of_nat (length b) / 2 - 1)).
  assert (length b = (2 * n + 2)%nat) as Hn by lia. replace (length b - 2)%nat with (2 * n)%nat in Ed by lia.
  destruct (wcslen_inside n b Hn Ed) as [Hw Ht]. unfold MAXUSHORT in *.
  rewrite u16_small in El by lia. rewrite El in Em. rewrite u16_small in Em by lia. rewrite El, Em. split_and!; try lia.
  replace (Z.to_nat (Z.of_nat (wcslen b) * 2 + 2)) with (2 * wcslen b + 2)%nat by lia.
  replace (Z.to_nat (Z.of_nat (wcslen b) * 2)) with (2 * wcslen b)%nat by lia. by rewrite <- Ht, take_take_drop.
Qed.
