(* ===== verification/ThermalZone.v ===== *)
(** The requests of a thermal zone and the worker that serves them: drivers/thermal.c,
    from the control call to its completion.

    Any thread may ask for work; at most one worker does it.  The threads are cut
    where the zone's lock is taken and released, and wherever a thread reads or
    writes without the lock what another may write or read: at each store of the
    worker (ThermalRound.v), at each word of the readings that a completion copies,
    and at each use of the description's lengths. *)
From stdpp Require Import base list numbers option strings relations.
From Stdlib Require Import ZArith Lia.
From S2P Require Import Prelude NtEnv AcpiEnv PowerRes PowerCaps Wake IrpQueue Thermal ThermalRound.

(** ** Requests *)

(** The control codes and the policy of the Windows kit's poclass.h. *)
Class ThermalCodes := {
  IOCTL_THERMAL_QUERY_INFORMATION : Z;
  IOCTL_THERMAL_SET_COOLING_POLICY : Z;
  IOCTL_RUN_ACTIVE_COOLING_METHOD : Z;
  IOCTL_THERMAL_SET_PASSIVE_LIMIT : Z;
  PASSIVE_COOLING : Z
}.

(** CTL_CODE(FILE_DEVICE_BATTERY, 0x26, METHOD_BUFFERED, FILE_READ_ACCESS). *)
Definition IOCTL_UACPINT_THERMAL_DESCRIPTION : Z := 0x294098.

Definition UACPINT_NOTIFY_TEMPERATURE : Z := 0x80.
Definition UACPINT_NOTIFY_TRIP_POINTS : Z := 0x81.

Definition UACPINT_THERMAL_WORK_INIT : Z := 0x01.
Definition UACPINT_THERMAL_WORK_POLICY : Z := 0x02.
Definition UACPINT_THERMAL_WORK_TRIPS : Z := 0x04.
Definition UACPINT_THERMAL_WORK_ACTIVE : Z := 0x08.
Definition UACPINT_THERMAL_WORK_TEMPERATURE : Z := 0x10.
Definition UACPINT_THERMAL_WORK_COMPLETE : Z := 0x20.
Definition UACPINT_THERMAL_WORK_ALL : Z := 0x3f.

Abbreviation W_COMPLETE := UACPINT_THERMAL_WORK_COMPLETE.
Abbreviation W_TEMPERATURE := UACPINT_THERMAL_WORK_TEMPERATURE.

(** [tr_Ulong]: the first four bytes of the system buffer. *)
Record thermal_request := mkThermalRequest {
  tr_Code : Z;
  tr_KernelMode : bool;
  tr_InputLength : Z;
  tr_OutputLength : Z;
  tr_Buffer : bool;
  tr_Ulong : Z
}.

(** The copy of a description that is handed out: the bytes allocated for it, the
    bytes copied there, and the two lengths. *)
Record description_copy := mkCopy {
  dc_Block : Z;
  dc_Bytes : list Z;
  dc_Length : Z;
  dc_MaximumLength : Z
}.

(** [worker] is whether the worker gave the reply, or a stop did. *)
Inductive thermal_output :=
| OutQuery (worker : bool) (bytes : list Z)
| OutDescription (worker : bool) (d : option description_copy).

(** The fields of UACPINT_THERMAL_ZONE that the lock guards. *)
Record zone_gate := mkGate {
  zg_Work : Z;
  zg_Active : bool;
  zg_Running : bool;
  zg_Delivered : bool;
  zg_CoolingPolicy : Z;
  zg_FanLevel : Z;
  zg_ThrottleLimit : Z;
  zg_ThermalStamp : Z
}.

Definition zg_set_Work (Work : Z) (Running Delivered : bool) (g : zone_gate) : zone_gate :=
  mkGate Work (zg_Active g) Running Delivered (zg_CoolingPolicy g) (zg_FanLevel g) (zg_ThrottleLimit g) (zg_ThermalStamp g).
Definition zg_set_Active (a : bool) (g : zone_gate) : zone_gate :=
  mkGate (zg_Work g) a (zg_Running g) (zg_Delivered g) (zg_CoolingPolicy g) (zg_FanLevel g) (zg_ThrottleLimit g) (zg_ThermalStamp g).
Definition zg_set_Request (p f l : Z) (g : zone_gate) : zone_gate :=
  mkGate (zg_Work g) (zg_Active g) (zg_Running g) (zg_Delivered g) p f l (zg_ThermalStamp g).
Definition zg_set_Stamp (v : Z) (g : zone_gate) : zone_gate :=
  mkGate (zg_Work g) (zg_Active g) (zg_Running g) (zg_Delivered g) (zg_CoolingPolicy g) (zg_FanLevel g) (zg_ThrottleLimit g) v.

Section Requests.
Context {C : ThermalCodes} (Target : ntddi).

(** The sizes of input and output, [None] when the code is not ours. *)
Definition UacpiNtThermalRequestSizes (IoControlCode : Z) : option (Z * Z) :=
  if IoControlCode =? IOCTL_THERMAL_QUERY_INFORMATION then Some (4, sizeof_query Target)
  else if (IoControlCode =? IOCTL_THERMAL_SET_COOLING_POLICY) || (IoControlCode =? IOCTL_RUN_ACTIVE_COOLING_METHOD) ||
          (from_win8 Target && (IoControlCode =? IOCTL_THERMAL_SET_PASSIVE_LIMIT)) then Some (1, 0)
  else if from_win10 Target && (IoControlCode =? IOCTL_UACPINT_THERMAL_DESCRIPTION) then Some (0, 16)
  else None.

(** UacpiNtThermalDeviceControl up to the lock: [None] for a code that is not
    handled, a status that completes the IRP, or a request that goes on. *)
Definition thermal_check (r : thermal_request) : option (option NTSTATUS) :=
  match UacpiNtThermalRequestSizes (tr_Code r) with
  | None => None
  | Some (InputSize, OutputSize) =>
      if negb (tr_KernelMode r) then Some (Some STATUS_NOT_IMPLEMENTED)
      else if (negb (tr_Buffer r) && (negb (InputSize =? 0) || negb (OutputSize =? 0))) ||
              (tr_InputLength r <? InputSize) || (tr_OutputLength r <? OutputSize)
      then Some (Some STATUS_BUFFER_TOO_SMALL)
      else Some None
  end.

Definition is_query (r : thermal_request) : bool := tr_Code r =? IOCTL_THERMAL_QUERY_INFORMATION.

(** The work a request asks for and what it records, with the lock held. *)
Definition request_work (r : thermal_request) (g : zone_gate) : Z * zone_gate :=
  let Byte := u8 (tr_Ulong r) in
  if is_query r then
    (if negb (tr_Ulong r =? zg_ThermalStamp g) then Z.lor W_TEMPERATURE W_COMPLETE
     else if negb (zg_Delivered g) then W_COMPLETE else 0, g)
  else if tr_Code r =? IOCTL_THERMAL_SET_COOLING_POLICY then
    (Z.lor UACPINT_THERMAL_WORK_POLICY (Z.lor UACPINT_THERMAL_WORK_TRIPS W_COMPLETE),
     zg_set_Request Byte (zg_FanLevel g) (zg_ThrottleLimit g) g)
  else if tr_Code r =? IOCTL_RUN_ACTIVE_COOLING_METHOD then
    (Z.lor UACPINT_THERMAL_WORK_ACTIVE W_COMPLETE, zg_set_Request (zg_CoolingPolicy g) Byte (zg_ThrottleLimit g) g)
  else if from_win8 Target && (tr_Code r =? IOCTL_THERMAL_SET_PASSIVE_LIMIT) then
    (Z.lor W_TEMPERATURE W_COMPLETE, zg_set_Request (zg_CoolingPolicy g) (zg_FanLevel g) Byte g)
  else (W_COMPLETE, g).

(** TRUE means that the caller queues the worker. *)
Definition UacpiNtThermalAddWork (Work : Z) (g : zone_gate) : bool * zone_gate :=
  let Delivered := if has_flag Work W_COMPLETE then false else zg_Delivered g in
  let All := Z.lor (zg_Work g) Work in
  if (All =? 0) || zg_Running g then (false, zg_set_Work All (zg_Running g) Delivered g)
  else (true, zg_set_Work All true Delivered g).

(** The work of a notification, [None] for a value that is not ours. *)
Definition UacpiNtThermalNotify (NotifyValue : Z) : option Z :=
  if NotifyValue =? UACPINT_NOTIFY_TEMPERATURE then Some (Z.lor W_TEMPERATURE W_COMPLETE)
  else if NotifyValue =? UACPINT_NOTIFY_TRIP_POINTS
  then Some (Z.lor UACPINT_THERMAL_WORK_TRIPS (Z.lor W_TEMPERATURE W_COMPLETE))
  else None.

(** The work of a round: from Windows 8 on, anything that may move the readings is
    followed by a reading. *)
Definition round_work (Work : Z) : Z :=
  if from_win8 Target &&
     has_flag Work (Z.lor UACPINT_THERMAL_WORK_INIT (Z.lor UACPINT_THERMAL_WORK_TRIPS UACPINT_THERMAL_WORK_ACTIVE))
  then Z.lor Work W_TEMPERATURE else Work.
End Requests.

(** ** The threads *)

(** A request wants the lock, has set its cancel routine under it, or was refused or
    answered; the I/O manager is about to take a cancel routine, the routine runs or
    has unlinked its IRP; a worker must be queued, or could not be; a worker is at
    the top of its loop, at the step with the number, about to bump the stamp, or to
    read the temperature; the queued IRPs are about to be taken; they are taken and
    the readings are being copied with the lock held; taken ones are completed, one
    of them with a copy of the description that is under way; all this by the worker
    ([back]) or by the stop; a notification, the start and the stop want the lock. *)
Inductive zone_task :=
| ThRequest (id : nat)
| ThDecide (id : nat) (Work : Z)
| ThAnswer (id : nat) (Status : NTSTATUS)
| ThIoCancel (id : nat)
| ThCancel (id : nat)
| ThCancelled (id : nat)
| ThQueueWorker
| ThQueueFailed
| ThWorker
| ThStep (k : nat) (Work CoolingPolicy FanLevel : Z)
| ThStamp (Work : Z)
| ThTemperature (Work : Z)
| ThComplete (back : bool)
| ThCopying (back : bool) (ids : list nat) (Stamp : Z) (words : list Z)
| ThCompleting (back : bool) (ids : list nat) (Stamp : Z) (Snapshot : UACPINT_THERMAL_INFO)
| ThDescribing (back : bool) (id : nat) (ids : list nat) (Stamp : Z) (Snapshot : UACPINT_THERMAL_INFO)
    (stage : nat) (Output : description_copy)
| ThKick (Work : Z)
| ThStart
| ThStop.

Definition zone_queue : Type := irp_queue thermal_request thermal_output.

(** [zs_Failed], that a worker could not be queued since one was last asked for, is
    not in the code. *)
Record zone_system := mkZoneSystem {
  zs_Gate : zone_gate;
  zs_Data : zone_data;
  zs_Pdos : list pdo_power;
  zs_Power : power_state;
  zs_World : world;
  zs_Queue : zone_queue;
  zs_Locked : bool;
  zs_Failed : bool;
  zs_Tasks : list zone_task
}.

Definition zs_set_Gate (g : zone_gate) (y : zone_system) : zone_system :=
  mkZoneSystem g (zs_Data y) (zs_Pdos y) (zs_Power y) (zs_World y) (zs_Queue y) (zs_Locked y) (zs_Failed y) (zs_Tasks y).
Definition zs_set_Data (d : zone_data) (h : list acpi_call) (w : world) (y : zone_system) : zone_system :=
  mkZoneSystem (zs_Gate y) d (zs_Pdos y) (pw_set_Calls h (zs_Power y)) w (zs_Queue y) (zs_Locked y) (zs_Failed y) (zs_Tasks y).
Definition zs_set_Power (ps : list pdo_power * power_state) (y : zone_system) : zone_system :=
  mkZoneSystem (zs_Gate y) (zs_Data y) ps.1 ps.2 (zs_World y) (zs_Queue y) (zs_Locked y) (zs_Failed y) (zs_Tasks y).
Definition zs_set_World (w : world) (y : zone_system) : zone_system :=
  mkZoneSystem (zs_Gate y) (zs_Data y) (zs_Pdos y) (zs_Power y) w (zs_Queue y) (zs_Locked y) (zs_Failed y) (zs_Tasks y).
Definition zs_set_Queue (q : zone_queue) (locked : bool) (y : zone_system) : zone_system :=
  mkZoneSystem (zs_Gate y) (zs_Data y) (zs_Pdos y) (zs_Power y) (zs_World y) q locked (zs_Failed y) (zs_Tasks y).
Definition zs_set_Failed (b : bool) (y : zone_system) : zone_system :=
  mkZoneSystem (zs_Gate y) (zs_Data y) (zs_Pdos y) (zs_Power y) (zs_World y) (zs_Queue y) (zs_Locked y) b (zs_Tasks y).
Definition zs_set_Tasks (l : list zone_task) (y : zone_system) : zone_system :=
  mkZoneSystem (zs_Gate y) (zs_Data y) (zs_Pdos y) (zs_Power y) (zs_World y) (zs_Queue y) (zs_Locked y) (zs_Failed y) l.
Definition zs_spawn (l : list zone_task) (y : zone_system) : zone_system := zs_set_Tasks (l ++ zs_Tasks y) y.

Section Zone.
Context {A : Acpi} {C : ThermalCodes} (Target : ntddi) (Node : acpi_node) (ActiveProcessors : Z).

(** Work is added with the lock held; the caller queues the worker afterwards. *)
Definition add_work (Work : Z) (y : zone_system) : zone_system :=
  let '(QueueWorker, g) := UacpiNtThermalAddWork Work (zs_Gate y) in
  let y := zs_set_Gate g y in
  if QueueWorker then zs_spawn [ThQueueWorker] (zs_set_Failed false y) else y.

Definition request_of (id : nat) (q : zone_queue) : thermal_request :=
  match iq_Irps q !! id with Some i => li_Request i | None => mkThermalRequest 0 false 0 0 false 0 end.

(** UacpiNtThermalDeviceControl under the lock. *)
Definition request_enter (id : nat) (y : zone_system) : zone_system :=
  let r := request_of id (zs_Queue y) in
  if negb (zg_Active (zs_Gate y)) then zs_spawn [ThAnswer id STATUS_NO_SUCH_DEVICE] y
  else
    let '(Work, g) := request_work Target r (zs_Gate y) in
    let y := zs_set_Gate g y in
    if is_query r then zs_spawn [ThDecide id Work] (zs_set_Queue (set_routine id (zs_Queue y)) true y)
    else add_work Work (zs_set_Queue (link_tail id (zs_Queue y)) false y).
Definition request_decide (id : nat) (Work : Z) (y : zone_system) : zone_system :=
  let '(Inserted, q) := insert_unless_cancelled id (zs_Queue y) in
  let y := zs_set_Queue q false y in
  if Inserted then add_work Work y else zs_spawn [ThAnswer id STATUS_CANCELLED] y.

(** The loop of UacpiNtThermalCompleteIrps under the lock: what is taken, and
    whether a query was. *)
Fixpoint collect (Entries Completed : list nat) (HadQuery : bool) (q : zone_queue) : list nat * bool * zone_queue :=
  match Entries with
  | [] => (Completed, HadQuery, q)
  | Irp :: Entries =>
      if is_query (request_of Irp q) then
        let '(Had, q) := take_routine Irp q in
        if Had then collect Entries (Completed ++ [Irp]) true (unlink Irp q)
        else collect Entries Completed HadQuery q
      else collect Entries (Completed ++ [Irp]) HadQuery (unlink Irp q)
  end.
Definition complete_irps (back : bool) (y : zone_system) : zone_system :=
  let '(Completed, HadQuery, q) := collect (iq_List (zs_Queue y)) [] false (zs_Queue y) in
  let g := zs_Gate y in
  let y := zs_set_Gate (zg_set_Work (zg_Work g) (zg_Running g) (HadQuery || zg_Delivered g) g) (zs_set_Queue q false y) in
  zs_spawn [ThCopying back Completed (zg_ThermalStamp g) []] y.

(** The readings are copied word by word; after the last one the lock is released. *)
Definition copy_word (back : bool) (ids : list nat) (Stamp : Z) (words : list Z) (y : zone_system) : zone_task :=
  if (length words <? info_size)%nat
  then ThCopying back ids Stamp (words ++ [nth (length words) (info_words (zd_Info (zs_Data y))) 0])
  else ThCompleting back ids Stamp (info_of_words words).

(** One of the IRPs that were taken; what comes next. *)
Definition finish_one (id : nat) (o : option thermal_output) (Information : Z) (y : zone_system) : zone_system :=
  zs_set_Queue (complete_irp id STATUS_SUCCESS Information o (zs_Queue y)) (zs_Locked y) y.
Definition complete_one (back : bool) (id : nat) (ids : list nat) (Stamp : Z) (Snapshot : UACPINT_THERMAL_INFO)
  (y : zone_system) : zone_system :=
  let Code := tr_Code (request_of id (zs_Queue y)) in
  let next := ThCompleting back ids Stamp Snapshot in
  if Code =? IOCTL_THERMAL_QUERY_INFORMATION
  then zs_spawn [next] (finish_one id (Some (OutQuery back (UacpiNtThermalFillQuery Target Stamp Snapshot))) (sizeof_query Target) y)
  else if from_win10 Target && (Code =? IOCTL_UACPINT_THERMAL_DESCRIPTION) then
    let none := finish_one id (Some (OutDescription back None)) 16 in
    match zd_Description (zs_Data y) with
    | None => zs_spawn [next] (none y)
    | Some d =>
        let '(ok, w) := ExAllocatePoolWithTag (us_MaximumLength d) (zs_World y) in
        let y := zs_set_World w y in
        if negb ok then zs_spawn [next] (none y)
        else zs_spawn [ThDescribing back id ids Stamp Snapshot 0 (mkCopy (us_MaximumLength d) [] 0 0)] y
    end
  else zs_spawn [next] (finish_one id None 0 y).

(** UacpiNtThermalCopyDescription after the allocation: the copy and the two lengths,
    each from what the zone has at that time. *)
Definition describe_one (back : bool) (id : nat) (ids : list nat) (Stamp : Z) (Snapshot : UACPINT_THERMAL_INFO)
  (stage : nat) (Output : description_copy) (y : zone_system) : zone_system :=
  let d := default (mkUnicode [] 0 0) (zd_Description (zs_Data y)) in
  let next stage Output := zs_spawn [ThDescribing back id ids Stamp Snapshot stage Output] y in
  match stage with
  | 0%nat => next 1%nat (mkCopy (dc_Block Output) (take (Z.to_nat (us_MaximumLength d)) (us_Buffer d)) (dc_Length Output) (dc_MaximumLength Output))
  | 1%nat => next 2%nat (mkCopy (dc_Block Output) (dc_Bytes Output) (us_Length d) (dc_MaximumLength Output))
  | _ =>
      let Output := mkCopy (dc_Block Output) (dc_Bytes Output) (dc_Length Output) (us_MaximumLength d) in
      zs_spawn [ThCompleting back ids Stamp Snapshot] (finish_one id (Some (OutDescription back (Some Output))) 16 y)
  end.

(** The steps of a round before the reading, and the number of the next one: those of
    UacpiNtThermalInit, _SCP, those of UacpiNtThermalReadTrips, the fans. *)
Definition policy_step : nat := init_steps.
Definition trips_first : nat := S policy_step.
Definition active_step : nat := trips_first + trip_steps.
Definition last_step : nat := S active_step.

Definition zone_step (k : nat) (Work CoolingPolicy FanLevel : Z) (y : zone_system) : zone_system * nat :=
  let h := pw_Calls (zs_Power y) in
  if (k <? init_steps)%nat then
    if has_flag Work UACPINT_THERMAL_WORK_INIT then
      let '(d, h, w, k) := init_step Target Node k (zs_Data y) h (zs_World y) in (zs_set_Data d h w y, k)
    else (y, policy_step)
  else if (k <? trips_first)%nat then
    (if has_flag Work UACPINT_THERMAL_WORK_POLICY
     then zs_set_Data (zs_Data y) (UacpiNtThermalCallWithInteger Node "_SCP" CoolingPolicy h) (zs_World y) y
     else y, trips_first)
  else if (k <? active_step)%nat then
    if has_flag Work UACPINT_THERMAL_WORK_TRIPS then
      let '(d, h, j) := trip_step Target ActiveProcessors Node (k - trips_first) (zs_Data y) h in
      (zs_set_Data d h (zs_World y) y, (trips_first + j)%nat)
    else (y, active_step)
  else
    (if has_flag Work UACPINT_THERMAL_WORK_ACTIVE
     then zs_set_Power (UacpiNtThermalRunActive Node FanLevel (zs_Pdos y, zs_Power y)) y
     else y, last_step).

Definition after_reading (Work : Z) : zone_task := if has_flag Work W_COMPLETE then ThComplete true else ThWorker.
Definition after_step (k : nat) (Work CoolingPolicy FanLevel : Z) : zone_task :=
  if (k <? last_step)%nat then ThStep k Work CoolingPolicy FanLevel
  else if has_flag Work W_TEMPERATURE then ThStamp Work else after_reading Work.

(** The top of the worker's loop. *)
Definition worker_top (y : zone_system) : zone_system :=
  let g := zs_Gate y in
  let Work := zg_Work g in
  if Work =? 0 then zs_set_Gate (zg_set_Work 0 false (zg_Delivered g) g) y
  else zs_spawn [ThStep 0 (round_work Target Work) (zg_CoolingPolicy g) (zg_FanLevel g)]
         (zs_set_Gate (zg_set_Work 0 (zg_Running g) (zg_Delivered g) g) y).

Definition zone_start (y : zone_system) : zone_system :=
  let g := zs_Gate y in
  if zg_Active g then y
  else add_work UACPINT_THERMAL_WORK_ALL (zs_set_Gate (zg_set_Request PASSIVE_COOLING 0 100 (zg_set_Active true g)) y).
Definition zone_stop (y : zone_system) : zone_system :=
  let g := zg_set_Active false (zs_Gate y) in
  zs_spawn [ThComplete false] (zs_set_Gate (zg_set_Work 0 (zg_Running g) (zg_Delivered g) g) y).

(** A thread that holds the lock while it copies. *)
Definition copying (t : zone_task) : bool := match t with ThCopying _ _ _ _ => true | _ => false end.
Definition zone_locked (y : zone_system) : bool := zs_Locked y || existsb copying (zs_Tasks y).

(** One turn of a thread that has left the list; [None] while it waits for the lock.
    [granted]: a work item can be allocated. *)
Definition zone_turn (granted : bool) (t : zone_task) (y : zone_system) : option zone_system :=
  let locking (z : zone_system) := if zone_locked y then None else Some z in
  let g := zs_Gate y in
  match t with
  | ThRequest id => locking (request_enter id y)
  | ThDecide id Work => Some (request_decide id Work y)
  | ThAnswer id st => Some (zs_set_Queue (complete_irp id st 0 None (zs_Queue y)) (zs_Locked y) y)
  | ThIoCancel id =>
      let '(Had, q) := take_routine id (zs_Queue y) in
      Some (zs_spawn (if Had then [ThCancel id] else []) (zs_set_Queue q (zs_Locked y) y))
  | ThCancel id => locking (zs_spawn [ThCancelled id] (zs_set_Queue (unlink id (zs_Queue y)) false y))
  | ThCancelled id => Some (zs_set_Queue (complete_irp id STATUS_CANCELLED 0 None (zs_Queue y)) (zs_Locked y) y)
  | ThQueueWorker => Some (zs_spawn [if granted then ThWorker else ThQueueFailed] y)
  | ThQueueFailed =>
      locking (zs_set_Failed true (zs_set_Gate (zg_set_Work (zg_Work g) false (zg_Delivered g) g) y))
  | ThWorker => locking (worker_top y)
  | ThStep k Work p f => let '(y, k) := zone_step k Work p f y in Some (zs_spawn [after_step k Work p f] y)
  | ThStamp Work => locking (zs_spawn [ThTemperature Work] (zs_set_Gate (zg_set_Stamp (u32 (zg_ThermalStamp g + 1)) g) y))
  | ThTemperature Work =>
      let '(d, h) := read_temperature Target Node (zs_Data y) (pw_Calls (zs_Power y)) in
      Some (zs_spawn [after_reading Work] (zs_set_Data d h (zs_World y) y))
  | ThComplete back => locking (complete_irps back y)
  | ThCopying back ids Stamp words => Some (zs_spawn [copy_word back ids Stamp words y] y)
  | ThCompleting back [] _ _ => Some (zs_spawn (if back then [ThWorker] else []) y)
  | ThCompleting back (id :: ids) Stamp Snapshot => Some (complete_one back id ids Stamp Snapshot y)
  | ThDescribing back id ids Stamp Snapshot stage Output => Some (describe_one back id ids Stamp Snapshot stage Output y)
  | ThKick Work => locking (if zg_Active g then add_work Work y else y)
  | ThStart => locking (zone_start y)
  | ThStop => locking (zone_stop y)
  end.

Inductive zone_event : zone_system -> zone_system -> Prop :=
| zev_task granted t rest y y' : zs_Tasks y ≡ₚ t :: rest -> zone_turn granted t (zs_set_Tasks rest y) = Some y' ->
    zone_event y y'.

(** What comes from outside: a control call, a cancellation, a notification, the
    start, the stop; and other parts of the driver that run methods, switch devices
    or use the pool. *)
Definition zone_call (r : thermal_request) (y : zone_system) : zone_system :=
  let id := length (iq_Irps (zs_Queue y)) in
  let arrive (t : zone_task) := zs_spawn [t] (zs_set_Queue (iq_arrive r (zs_Queue y)) (zs_Locked y) y) in
  match thermal_check Target r with
  | None => y
  | Some (Some st) => arrive (ThAnswer id st)
  | Some None => arrive (ThRequest id)
  end.

Inductive zone_arrival : zone_system -> zone_system -> Prop :=
| zar_call r y : zone_arrival y (zone_call r y)
| zar_cancel id y : (id < length (iq_Irps (zs_Queue y)))%nat ->
    zone_arrival y (zs_spawn [ThIoCancel id] (zs_set_Queue (iq_alter li_set_Cancel id (zs_Queue y)) (zs_Locked y) y))
| zar_notify Value Work y : UacpiNtThermalNotify Value = Some Work -> zone_arrival y (zs_spawn [ThKick Work] y)
| zar_start y : zone_arrival y (zs_spawn [ThStart] y)
| zar_stop y : zone_arrival y (zs_spawn [ThStop] y)
| zar_others ps w y : zone_arrival y (zs_set_World w (zs_set_Power ps y)).

Inductive zone_run : zone_system -> zone_system -> Prop :=
| zrun_start y : zone_run y y
| zrun_event y y1 y2 : zone_run y y1 -> zone_event y1 y2 -> zone_run y y2
| zrun_arrival y y1 y2 : zone_run y y1 -> zone_arrival y1 y2 -> zone_run y y2.

(** The memory of a new device extension. *)
Definition zone_created (ps : list pdo_power) (s : power_state) (w : world) : zone_system :=
  mkZoneSystem (mkGate 0 false false false 0 0 0 0) zero_zone ps s w no_irps false false [].
End Zone.

(** ** The IRPs *)

Definition zone_roles (t : zone_task) : list role :=
  match t with
  | ThRequest id => [Entering id]
  | ThDecide id _ => [Deciding id]
  | ThIoCancel id => [IoCancelling id]
  | ThCancel id => [Cancelling id]
  | ThAnswer id _ | ThCancelled id => [Holding id]
  | ThCopying _ ids _ _ | ThCompleting _ ids _ _ => map Holding ids
  | ThDescribing _ id ids _ _ _ _ => map Holding (id :: ids)
  | _ => []
  end.
Definition roles_of (ts : list zone_task) : list role := flat_map zone_roles ts.

Section Books.
Context {A : Acpi} {C : ThermalCodes} (Target : ntddi) (Node : acpi_node) (ActiveProcessors : Z).
Local Notation ok := (queue_ok is_query).

Definition zone_queue_ok (y : zone_system) : Prop := ok (zs_Locked y) (roles_of (zs_Tasks y)) (zs_Queue y).

Lemma request_of_alter f id k (q : zone_queue) : (forall i, li_Request (f i) = li_Request i) ->
  request_of id (iq_alter f k q) = request_of id q.
Proof.
  intros Hf. unfold request_of. simpl. destruct (decide (id = k)) as [->|].
  - rewrite list_lookup_alter_eq. destruct (iq_Irps q !! k); simpl; [apply Hf|done].
  - by rewrite list_lookup_alter_ne.
Qed.

Lemma routine_alter_ne f id k (q : zone_queue) : id <> k -> routine_set id (iq_alter f k q) = routine_set id q.
Proof. intros H. unfold routine_set. simpl. by rewrite list_lookup_alter_ne. Qed.

(** The cancel routine of the query is on its way. *)
Definition owned_by_cancel (q : zone_queue) (id : nat) : Prop := is_query (request_of id q) = true /\ routine_set id q = false.

Lemma unlink_middle id sk l (q : zone_queue) : iq_List q = sk ++ id :: l -> ~ In id sk -> unlink id q = iq_set_List (sk ++ l) q.
Proof.
  intros El Hn. rewrite unlink_listed; [f_equal|]; rewrite El.
  - clear El. induction sk as [|x sk IH]; simpl; [by rewrite Nat.eqb_refl|].
    destruct (x =? id)%nat eqn:E; [nat_prop; subst; destruct Hn; by left|]. rewrite IH; [done|]. intros ?. apply Hn. by right.
  - rewrite occurs_app. unfold occurs at 2. rewrite weight_cons, one_eq. lia.
Qed.

Lemma listed_once locked rs (q : zone_queue) sk id l : ok locked rs q -> iq_List q = sk ++ id :: l -> ~ In id sk.
Proof.
  intros K El Hi. pose proof (qo_path _ _ _ _ K id) as Hp. rewrite El, occurs_app in Hp. unfold occurs in Hp at 2.
  rewrite weight_cons, one_eq in Hp. pose proof (known_le id q). apply in_split in Hi as (a & b & ->).
  rewrite occurs_app in Hp. unfold occurs in Hp at 2. rewrite weight_cons, one_eq in Hp. lia.
Qed.

Lemma collect_ok locked rs Entries : forall Completed HadQuery (q : zone_queue) sk Completed' HadQuery' q',
  iq_List q = sk ++ Entries -> Forall (owned_by_cancel q) sk -> ok locked (map Holding Completed ++ rs) q ->
  collect Entries Completed HadQuery q = (Completed', HadQuery', q') ->
  ok locked (map Holding Completed' ++ rs) q' /\ Forall (owned_by_cancel q') (iq_List q') /\
  (length Completed' + length (iq_List q') = length Completed + length (iq_List q))%nat.
Proof.
  induction Entries as [|id l IH]; intros Done Had q sk Done' Had' q' El Hs K E.
  - simpl in E. simplify_eq. rewrite app_nil_r in El. by rewrite El.
  - pose proof (listed_once _ _ _ _ _ _ K El) as Hn. simpl in E.
    destruct (path_known _ _ id _ _ K) as [i Hi].
    { rewrite El, occurs_app. unfold occurs at 2. rewrite weight_cons, one_eq. lia. }
    assert (0 < occurs id (iq_List q))%nat as Ho.
    { rewrite El, occurs_app. unfold occurs at 2. rewrite weight_cons, one_eq. lia. }
    assert (request_of id q = li_Request i) as Er by (unfold request_of; by rewrite Hi).
    destruct (is_query (request_of id q)) eqn:Eq.
    + destruct (routine_set id q) eqn:Hr.
      * pose proof (ok_claim _ _ _ _ _ K Ho Hr) as K1. unfold take_routine in K1. simpl in K1.
        rewrite (unlink_middle id sk l) in E, K1 by done.
        apply (IH _ _ _ sk) in E; [|done| |].
        -- simpl in E. rewrite length_app in E. simpl in E. rewrite El, length_app. simpl. rewrite length_app in E.
           destruct E as (? & ? & ?). split_and!; try done. lia.
        -- eapply Forall_impl; [exact Hs|]. intros k Hk. destruct (decide (k = id)) as [->|].
           { destruct Hk as [_ Hk]. congruence. }
           destruct Hk as [H1 H2]. split; [change (is_query (request_of k (iq_alter (li_set_Routine false) id q)) = true); by rewrite request_of_alter|].
           change (routine_set k (iq_alter (li_set_Routine false) id q) = false). by rewrite routine_alter_ne.
        -- rewrite map_app, <- app_assoc. simpl. by eapply queue_ok_perm; [apply Permutation_middle|].
      * assert (iq_alter (li_set_Routine false) id q = q) as Ha
          by (pose proof (take_routine_false id q Hr) as Ht; unfold take_routine in Ht; congruence).
        rewrite Ha in E. apply (IH _ _ _ (sk ++ [id])) in E; [done|by rewrite <- app_assoc| |done].
        apply Forall_app. split; [done|]. by repeat constructor.
    + pose proof (ok_claim_plain _ _ _ _ _ i K Ho Hi) as K1. rewrite <- Er in K1. specialize (K1 Eq).
      rewrite (unlink_middle id sk l) in E, K1 by done. apply (IH _ _ _ sk) in E; [|done|done|].
      * simpl in E. rewrite length_app in E. simpl in E. rewrite El, length_app. simpl. rewrite length_app in E.
        destruct E as (? & ? & ?). split_and!; try done. lia.
      * rewrite map_app, <- app_assoc. simpl. by eapply queue_ok_perm; [apply Permutation_middle|].
Qed.

Lemma roles_of_app l k : roles_of (l ++ k) = roles_of l ++ roles_of k.
Proof. apply flat_map_app. Qed.

Lemma zone_locking (y z y' : zone_system) : (if zone_locked y then None else Some z) = Some y' -> zs_Locked y = false /\ y' = z.
Proof. unfold zone_locked. destruct (zs_Locked y); simpl; [done|]. destruct (existsb _ _); intros ?; by simplify_eq. Qed.

(** Adding work only asks for the worker. *)
Lemma add_work_tasks Work y : exists l, zs_Tasks (add_work Work y) = l ++ zs_Tasks y /\ (l = [] \/ l = [ThQueueWorker]) /\
  zs_Queue (add_work Work y) = zs_Queue y /\ zs_Locked (add_work Work y) = zs_Locked y.
Proof. unfold add_work. destruct (UacpiNtThermalAddWork Work (zs_Gate y)) as [ [|] g]; [exists [ThQueueWorker]|exists []]; simpl; auto. Qed.

Lemma add_work_ok Work y : zone_queue_ok (add_work Work y) <-> zone_queue_ok y.
Proof.
  destruct (add_work_tasks Work y) as (l & Et & Hl & Eq & Ek). unfold zone_queue_ok. rewrite Et, Eq, Ek.
  by destruct Hl as [->| ->].
Qed.

(** A turn that leaves the guarded fields and the queue alone. *)
Definition same_books (y y' : zone_system) : Prop :=
  zs_Queue y' = zs_Queue y /\ zs_Locked y' = zs_Locked y /\ zs_Tasks y' = zs_Tasks y /\ zs_Gate y' = zs_Gate y /\ zs_Failed y' = zs_Failed y.

Lemma zone_step_frame k Work p f y : same_books y (zone_step Target Node ActiveProcessors k Work p f y).1.
Proof.
  unfold zone_step. destruct (_ <? _)%nat.
  { destruct (has_flag Work _); [|done]. by destruct (init_step _ _ _ _ _ _) as [ [ [? ?] ?] ?]. }
  destruct (_ <? _)%nat; [by destruct (has_flag Work _)|]. destruct (_ <? _)%nat; [|by destruct (has_flag Work _)].
  destruct (has_flag Work _); [|done]. by destruct (trip_step _ _ _ _ _ _) as [ [? ?] ?].
Qed.

Lemma zone_step_next k Work p f y : (k < last_step)%nat ->
  (k < (zone_step Target Node ActiveProcessors k Work p f y).2 <= last_step)%nat.
Proof.
  unfold zone_step. intros Hk. assert (last_step = 38 /\ active_step = 37 /\ trips_first = 6 /\ policy_step = 5 /\ init_steps = 5 /\ trip_steps = 31)%nat
    as (E1 & E2 & E3 & E4 & E5 & E6) by done. rewrite E1 in *.
  destruct (Nat.ltb_spec k init_steps).
  { destruct (has_flag Work _); cbn [snd]; [|lia]. destruct (init_step _ _ _ _ _ _) as [ [ [? ?] ?] k'] eqn:E.
    apply init_step_next in E; [cbn [snd]; lia|done]. }
  destruct (Nat.ltb_spec k trips_first); [cbn [snd]; lia|]. destruct (Nat.ltb_spec k active_step); [|cbn [snd]; lia].
  destruct (has_flag Work _); cbn [snd]; [|lia]. destruct (trip_step _ _ _ _ _ _) as [ [? ?] j] eqn:E.
  apply trip_step_next in E; [cbn [snd]; lia|lia].
Qed.

Lemma zone_step_last k Work p f y : (last_step <= k)%nat -> (zone_step Target Node ActiveProcessors k Work p f y).2 = last_step.
Proof.
  unfold zone_step. intros Hk. assert (last_step = 38 /\ active_step = 37 /\ trips_first = 6 /\ init_steps = 5)%nat as (E1 & E2 & E3 & E5) by done.
  rewrite E2, E3, E5. rewrite E1 in *. by rewrite !(proj2 (Nat.ltb_ge k _)) by lia.
Qed.

Lemma after_step_roles k Work p f : zone_roles (after_step k Work p f) = [].
Proof. unfold after_step, after_reading. by repeat case_match. Qed.

Lemma copy_word_roles back ids Stamp words y : zone_roles (copy_word back ids Stamp words y) = map Holding ids.
Proof. unfold copy_word. by destruct (_ <? _)%nat. Qed.

(** A turn of a thread that completes: the IRP is completed, or its description is
    still being copied. *)
Definition completes (back : bool) (id : nat) (ids : list nat) (y y' : zone_system) : Prop :=
  zs_Locked y' = zs_Locked y /\ zs_Gate y' = zs_Gate y /\ zs_Failed y' = zs_Failed y /\ zs_Data y' = zs_Data y /\
  ((exists n o Stamp Snapshot, zs_Queue y' = complete_irp id STATUS_SUCCESS n o (zs_Queue y) /\
      zs_Tasks y' = ThCompleting back ids Stamp Snapshot :: zs_Tasks y) \/
   (exists stage Output Stamp Snapshot, zs_Queue y' = zs_Queue y /\
      zs_Tasks y' = ThDescribing back id ids Stamp Snapshot stage Output :: zs_Tasks y)).

Lemma complete_one_completes back id ids Stamp Snapshot y : completes back id ids y (complete_one Target back id ids Stamp Snapshot y).
Proof.
  unfold completes, complete_one. destruct (_ =? _); [split_and!; try done; left; by eexists _, _, _, _|].
  destruct (_ && _); [|split_and!; try done; left; by eexists _, _, _, _].
  destruct (zd_Description (zs_Data y)) as [d|]; [|split_and!; try done; left; by eexists _, _, _, _].
  destruct (ExAllocatePoolWithTag _ _) as [ok w]. destruct ok; simpl; split_and!; try done; [right|left]; by eexists _, _, _, _.
Qed.

Lemma describe_one_completes back id ids Stamp Snapshot stage Output y :
  completes back id ids y (describe_one back id ids Stamp Snapshot stage Output y).
Proof.
  unfold completes, describe_one. destruct stage as [|[|stage] ]; split_and!; try done; [right|right|left]; by eexists _, _, _, _.
Qed.

Lemma completes_ok back id ids y y' : completes back id ids y y' ->
  ok (zs_Locked y) (map Holding (id :: ids) ++ roles_of (zs_Tasks y)) (zs_Queue y) -> zone_queue_ok y'.
Proof.
  intros (Ek & _ & _ & _ & [(n & o & Stamp & Snap & Eq & Et)|(stage & c & Stamp & Snap & Eq & Et)]) K; unfold zone_queue_ok;
    rewrite Ek, Eq, Et; [by apply ok_complete|exact K].
Qed.

Lemma request_enter_ok id y : ok false (Entering id :: roles_of (zs_Tasks y)) (zs_Queue y) -> zs_Locked y = false ->
  zone_queue_ok (request_enter Target id y).
Proof.
  intros K El. unfold request_enter.
  destruct (answering_known _ _ id _ _ K) as [i Hi]; [rewrite weight_cons; simpl; rewrite one_eq; lia|].
  assert (request_of id (zs_Queue y) = li_Request i) as Er by (unfold request_of; by rewrite Hi).
  destruct (negb (zg_Active (zs_Gate y))).
  { unfold zone_queue_ok. simpl. rewrite El. by apply ok_hold. }
  destruct (request_work Target (request_of id (zs_Queue y)) (zs_Gate y)) as [Work g].
  destruct (is_query (request_of id (zs_Queue y))) eqn:Eq; rewrite Er in Eq.
  - unfold zone_queue_ok. simpl. by eapply ok_set_routine.
  - rewrite add_work_ok. unfold zone_queue_ok. simpl. by eapply ok_insert_plain.
Qed.

Lemma request_decide_ok id Work y : ok true (Deciding id :: roles_of (zs_Tasks y)) (zs_Queue y) ->
  zone_queue_ok (request_decide id Work y).
Proof.
  intros K. unfold request_decide. destruct (insert_unless_cancelled id (zs_Queue y)) as [Inserted q] eqn:Ed.
  apply (ok_decide _ _ _ _ _ _ K) in Ed. destruct Inserted; [by rewrite add_work_ok|done].
Qed.

Lemma zone_turn_ok granted t y y' : ok (zs_Locked y) (zone_roles t ++ roles_of (zs_Tasks y)) (zs_Queue y) ->
  zone_turn Target Node ActiveProcessors granted t y = Some y' -> zone_queue_ok y'.
Proof.
  intros H E.
  destruct t as [id|id Work|id st|id|id|id| | | |k Work p f|Work|Work|back|back ids Stamp words|back ids Stamp Snapshot|back id ids Stamp Snapshot stage Output|Work| |];
    simpl in H, E; try apply zone_locking in E as [El ->]; try rewrite El in H; simplify_eq/=.
  - by apply request_enter_ok.
  - assert (zs_Locked y = true) as El.
    { pose proof (qo_locked _ _ _ _ H) as Hk. rewrite weight_cons in Hk. simpl in Hk. by destruct (zs_Locked y). }
    rewrite El in H. by apply request_decide_ok.
  - by apply ok_complete.
  - apply ok_io_takes in H. unfold zone_queue_ok. by destruct (routine_set id (zs_Queue y)).
  - by apply ok_unlink.
  - by apply ok_complete.
  - unfold zone_queue_ok. by destruct granted.
  - unfold zone_queue_ok. simpl. by rewrite El.
  - unfold worker_top, zone_queue_ok. destruct (_ =? 0); simpl; by rewrite El.
  - destruct (zone_step_frame k Work p f y) as (Eq & Ek & Et & _). destruct (zone_step _ _ _ k Work p f y) as [y1 k1].
    simplify_eq/=. unfold zone_queue_ok. simpl. by rewrite after_step_roles, Eq, Ek, Et.
  - unfold zone_queue_ok. simpl. by rewrite El.
  - destruct (read_temperature _ _ _ _) as [d h]. simplify_eq. unfold zone_queue_ok, after_reading. simpl. by destruct (has_flag _ _).
  - unfold complete_irps. destruct (collect _ _ _ _) as [ [ids Had] q] eqn:Ec.
    destruct (collect_ok false (roles_of (zs_Tasks y)) _ [] _ _ [] _ _ _ eq_refl (Forall_nil_2 _) H Ec) as (K & _). exact K.
  - unfold zone_queue_ok. simpl. by rewrite copy_word_roles.
  - destruct ids as [|id ids]; simplify_eq.
    + unfold zone_queue_ok. by destruct back.
    + exact (completes_ok _ _ _ _ _ (complete_one_completes _ _ _ _ _ _) H).
  - exact (completes_ok _ _ _ _ _ (describe_one_completes _ _ _ _ _ _ _ _) H).
  - destruct (zg_Active (zs_Gate y)); [rewrite add_work_ok|]; unfold zone_queue_ok; simpl; by rewrite El.
  - unfold zone_start. destruct (zg_Active (zs_Gate y)); [|rewrite add_work_ok]; unfold zone_queue_ok; simpl; by rewrite El.
  - unfold zone_queue_ok. simpl. by rewrite El.
Qed.

Lemma zone_roles_perm ts t rest : ts ≡ₚ t :: rest -> roles_of ts ≡ₚ zone_roles t ++ roles_of rest.
Proof. intros H. unfold roles_of. by rewrite H. Qed.

Lemma zone_event_ok y y' : zone_queue_ok y -> zone_event Target Node ActiveProcessors y y' -> zone_queue_ok y'.
Proof.
  intros K Ht. destruct Ht as [granted t rest y y1 Hp E].
  eapply zone_turn_ok; [|exact E]. simpl. eapply queue_ok_perm; [by apply zone_roles_perm, Hp|exact K].
Qed.

Lemma zone_arrival_ok y y' : zone_queue_ok y -> zone_arrival Target y y' -> zone_queue_ok y'.
Proof.
  intros K Ha. unfold zone_queue_ok in *. destruct Ha as [r y|id y Hl|Value Work y E|y|y|ps w y]; simpl; try done.
  - unfold zone_call. pose proof (ok_arrive _ _ r _ _ K) as Hr. destruct (thermal_check Target r) as [ [st|] |]; simpl; [by apply ok_hold|done|done].
  - apply lookup_lt_is_Some_2 in Hl as [i Hi]. by eapply ok_io_cancel.
Qed.
End Books.

(** ** Who serves them *)

(** A thread that is the worker, or is about to become or to give up being it. *)
Definition worker_thread (t : zone_task) : nat :=
  match t with
  | ThQueueWorker | ThQueueFailed | ThWorker | ThStep _ _ _ _ | ThStamp _ | ThTemperature _
  | ThComplete true | ThCopying true _ _ _ | ThCompleting true _ _ _ | ThDescribing true _ _ _ _ _ _ => 1
  | _ => 0
  end.

(** A thread that will still take the queued IRPs. *)
Definition will_complete (t : zone_task) : Prop :=
  match t with ThStep _ _ _ _ | ThStamp _ | ThTemperature _ | ThComplete _ => True | _ => False end.

Section Service.
Context {A : Acpi} {C : ThermalCodes} (Target : ntddi) (Node : acpi_node) (ActiveProcessors : Z).
Local Notation ok := (queue_ok is_query).

(** Every piece of work comes with the completion. *)
Definition whole_work (Work : Z) : Prop := Work <> 0 -> has_flag Work W_COMPLETE = true.
Definition good_task (t : zone_task) : Prop :=
  match t with
  | ThStep _ Work _ _ | ThStamp Work | ThTemperature Work | ThKick Work => has_flag Work W_COMPLETE = true
  | _ => True
  end.

(** The client has seen what the zone knows. *)
Definition up_to_date (g : zone_gate) (q : zone_queue) (id : nat) : Prop :=
  is_query (request_of id q) = true /\ tr_Ulong (request_of id q) = zg_ThermalStamp g /\ zg_Delivered g = true.

Record zone_sound (g : zone_gate) (failed : bool) (q : zone_queue) (ts : list zone_task) : Prop := {
  zo_one : list_weight worker_thread ts = Nat.b2n (zg_Running g);
  zo_work : zg_Work g <> 0 -> zg_Running g = true \/ failed = true;
  zo_whole : whole_work (zg_Work g);
  zo_tasks : Forall good_task ts;
  zo_decide : forall id Work, In (ThDecide id Work) ts ->
    zg_Active g = true /\ is_query (request_of id q) = true /\
    (has_flag Work W_COMPLETE = true \/ Work = 0 /\ up_to_date g q id);
  zo_listed : forall id, In id (iq_List q) -> ~ owned_by_cancel q id ->
    zg_Work g <> 0 \/ Exists will_complete ts \/ up_to_date g q id;
  zo_stopped : zg_Active g = false -> forall id, In id (iq_List q) -> ~ owned_by_cancel q id -> In (ThComplete false) ts
}.

Definition zone_good (y : zone_system) : Prop := zone_sound (zs_Gate y) (zs_Failed y) (zs_Queue y) (zs_Tasks y).

Lemma zone_sound_perm g f q ts ts' : ts ≡ₚ ts' -> zone_sound g f q ts -> zone_sound g f q ts'.
Proof.
  intros Hp []. split; try done.
  - by rewrite <- (weight_perm _ _ _ Hp).
  - by rewrite <- Hp.
  - intros id Work Hi. apply zo_decide0. apply list_elem_of_In. rewrite Hp. by apply list_elem_of_In.
  - intros id Hi Ho. rewrite <- Hp. by apply zo_listed0.
  - intros Ha id Hi Ho. apply list_elem_of_In. rewrite <- Hp. apply list_elem_of_In. by eapply zo_stopped0.
Qed.

(** The entries of [q'] that wait already waited in [q]. *)
Definition fewer_wait (q q' : zone_queue) : Prop :=
  (forall id, request_of id q' = request_of id q) /\
  forall id, In id (iq_List q') -> ~ owned_by_cancel q' id -> In id (iq_List q) /\ ~ owned_by_cancel q id.

(** A turn that leaves the guarded fields alone. *)
Lemma sound_frame t l g f q q' ts : zone_sound g f q (t :: ts) -> fewer_wait q q' ->
  list_weight worker_thread l = worker_thread t -> (will_complete t -> Exists will_complete l) -> Forall good_task l ->
  (forall id Work, ~ In (ThDecide id Work) l) -> t <> ThComplete false -> zone_sound g f q' (l ++ ts).
Proof.
  intros [Z1 Z2 Z3 Z4 Z5 Z6 Z7] [Hr Hw] Hl Hc Hg Hd Ht. split; try done.
  - rewrite weight_app, Hl. by rewrite <- Z1, weight_cons.
  - apply Forall_cons in Z4 as [_ Z4]. by apply Forall_app.
  - intros id Work [Hi|Hi]%in_app_or; [by apply Hd in Hi|]. unfold up_to_date. rewrite Hr. apply Z5. by right.
  - intros id Hi Ho. unfold up_to_date. rewrite Hr. destruct (Hw id Hi Ho) as [Hi' Ho'].
    destruct (Z6 id Hi' Ho') as [?|[He|?] ]; [by left| |by right; right]. right. left. apply Exists_app.
    apply Exists_cons in He as [?|?]; [left; by apply Hc|by right].
  - intros Ha id Hi Ho. destruct (Hw id Hi Ho) as [Hi' Ho']. destruct (Z7 Ha id Hi' Ho') as [?|?]; [done|].
    apply in_or_app. by right.
Qed.

Lemma complete_flag Work Work' : has_flag Work W_COMPLETE = true -> has_flag (Z.lor Work' Work) W_COMPLETE = true.
Proof.
  unfold has_flag, UACPINT_THERMAL_WORK_COMPLETE. rewrite !negb_true_iff, !Z.eqb_neq. intros H E. apply H.
  rewrite Z.land_lor_distr_l in E. by apply Z.lor_eq_0_iff in E as [_ ?].
Qed.

Lemma flag_not_zero Work : has_flag Work W_COMPLETE = true -> Work <> 0.
Proof. intros H ->. done. Qed.

(** Work is added, and [q'] may have one entry more: it is served by the work, or up
    to date. *)
Lemma sound_add Work g f q q' ts b g' : zone_sound g f q ts -> UacpiNtThermalAddWork Work g = (b, g') ->
  whole_work Work -> (forall id W, ~ In (ThDecide id W) ts) -> (forall id, request_of id q' = request_of id q) ->
  (forall id, In id (iq_List q') -> ~ owned_by_cancel q' id ->
     (In id (iq_List q) /\ ~ owned_by_cancel q id) \/ (zg_Active g = true /\ (Work <> 0 \/ up_to_date g q id))) ->
  zone_sound g' (if b then false else f) q' ((if b then [ThQueueWorker] else []) ++ ts).
Proof.
  intros [Z1 Z2 Z3 Z4 Z5 Z6 Z7] E Hw Hd Hr Hn. unfold UacpiNtThermalAddWork in E.
  assert (whole_work (Z.lor (zg_Work g) Work)) as Ha.
  { intros H. destruct (Z.eq_dec Work 0) as [->|Hz]; [rewrite Z.lor_0_r in *; by apply Z3|]. by apply complete_flag, Hw. }
  assert (zg_Work g' = Z.lor (zg_Work g) Work /\ zg_Active g' = zg_Active g /\ zg_ThermalStamp g' = zg_ThermalStamp g /\
    zg_Delivered g' = (if has_flag Work W_COMPLETE then false else zg_Delivered g) /\
    zg_Running g' = b || zg_Running g /\ (b = true -> zg_Running g = false) /\
    (b = false -> Z.lor (zg_Work g) Work <> 0 -> zg_Running g = true)) as (E1 & E2 & E3 & E4 & E5 & E6 & E7).
  { destruct ((Z.lor (zg_Work g) Work =? 0) || zg_Running g) eqn:Eb; simplify_eq/=; (split_and!; try done).
    - intros _ Hz. apply orb_prop in Eb as [?|?]; [bool_prop; done|done].
    - intros _. by apply orb_false_elim in Eb as [_ ?]. }
  assert (forall id, In id (iq_List q') -> ~ owned_by_cancel q' id ->
    zg_Work g' <> 0 \/ Exists will_complete ts \/ up_to_date g' q' id) as Hlisted.
  { intros id Hi Ho. rewrite E1. destruct (Z.eq_dec Work 0) as [->|Hz].
    - assert (forall k, up_to_date g q k -> up_to_date g' q' k) as Hu.
      { intros k (H1 & H2 & H3). unfold up_to_date. rewrite Hr, E3, E4. done. }
      rewrite Z.lor_0_r. destruct (Hn id Hi Ho) as [ [Hi' Ho']|[_ [?|?] ] ]; [|done|by right; right; apply Hu].
      destruct (Z6 id Hi' Ho') as [?|[?|?] ]; [by left|by right; left|right; right; by apply Hu].
    - left. intros Hl. apply Z.lor_eq_0_iff in Hl as [_ ?]. done. }
  split.
  - rewrite weight_app, Z1, E5. destruct b; [rewrite E6 by done|]; done.
  - rewrite E1, E5. intros Hz. destruct b; [by left|]. left. simpl. by apply E7.
  - by rewrite E1.
  - apply Forall_app. split; [by destruct b; repeat constructor|done].
  - intros id W [Hi|Hi]%in_app_or; [destruct b; [destruct Hi as [?|[]]|]; done|by apply Hd in Hi].
  - intros id Hi Ho. destruct (Hlisted id Hi Ho) as [?|[?|?] ]; [by left| |by right; right].
    right. left. apply Exists_app. by right.
  - rewrite E2. intros Hac id Hi Ho. apply in_or_app. right. destruct (Hn id Hi Ho) as [ [Hi' Ho']|[? _] ]; [by eapply Z7|congruence].
Qed.

Lemma fewer_refl q : fewer_wait q q.
Proof. by split. Qed.

Lemma fewer_alter f k (q : zone_queue) : (forall i, li_Request (f i) = li_Request i) ->
  (forall i, li_CancelRoutine (f i) = true -> li_CancelRoutine i = true) -> fewer_wait q (iq_alter f k q).
Proof.
  intros Hq Hf. split; [intros; by apply request_of_alter|]. intros id Hi Ho. split; [done|]. intros [H1 H2]. apply Ho.
  split; [by rewrite request_of_alter|]. unfold routine_set in *. simpl. destruct (decide (id = k)) as [->|].
  - rewrite list_lookup_alter_eq. destruct (iq_Irps q !! k) as [i|]; simpl; [|done].
    destruct (li_CancelRoutine (f i)) eqn:E; [|done]. apply Hf in E. congruence.
  - by rewrite list_lookup_alter_ne.
Qed.

Lemma in_unlink_first k id l : In k (unlink_first id l) -> In k l.
Proof. induction l as [|x l IH]; simpl; [done|]. destruct (x =? id)%nat; [by right|]. intros [?|?]; [by left|right; auto]. Qed.

Lemma fewer_unlink id (q : zone_queue) : fewer_wait q (unlink id q).
Proof.
  assert (forall k, request_of k (unlink id q) = request_of k q /\ routine_set k (unlink id q) = routine_set k q) as H.
  { intros k. unfold unlink. destruct (existsb _ _); [done|]. destruct (iq_Irps q !! id) as [i|]; [by destruct (li_SelfLinked i)|done]. }
  split; [intros k; apply H|]. intros k Hi Ho. destruct (H k) as [H1 H2]. unfold owned_by_cancel in *. rewrite H1, H2 in Ho.
  split; [|done]. unfold unlink in Hi. destruct (existsb _ _); [by apply in_unlink_first in Hi|].
  destruct (iq_Irps q !! id) as [i|]; [by destruct (li_SelfLinked i)|done].
Qed.

Lemma no_decide t (q : zone_queue) ts id W : ok false (zone_roles t ++ roles_of ts) q -> ~ In (ThDecide id W) ts.
Proof.
  intros K Hi. pose proof (qo_locked _ _ _ _ K) as Hk. apply in_split in Hi as (l1 & l2 & ->).
  rewrite weight_app, roles_of_app, weight_app in Hk. simpl in Hk. rewrite weight_cons in Hk. simpl in Hk. lia.
Qed.

(** A thread of which nothing more is expected. *)
Lemma sound_drop_task t g f q ts : zone_sound g f q (t :: ts) -> worker_thread t = 0%nat -> ~ will_complete t -> zone_sound g f q ts.
Proof.
  intros S Hw Hc. apply (sound_frame t [] g f q q ts S); try done; [intros id Work H; exact H|]. intros ->. by apply Hc.
Qed.

Lemma add_work_good Work y q' : zone_sound (zs_Gate y) (zs_Failed y) (zs_Queue y) (zs_Tasks y) -> whole_work Work ->
  (forall id W, ~ In (ThDecide id W) (zs_Tasks y)) -> (forall id, request_of id q' = request_of id (zs_Queue y)) ->
  (forall id, In id (iq_List q') -> ~ owned_by_cancel q' id ->
     (In id (iq_List (zs_Queue y)) /\ ~ owned_by_cancel (zs_Queue y) id) \/
     (zg_Active (zs_Gate y) = true /\ (Work <> 0 \/ up_to_date (zs_Gate y) (zs_Queue y) id))) ->
  zone_good (add_work Work (zs_set_Queue q' false y)).
Proof.
  intros S Hw Hd Hr Hn. unfold add_work, zone_good. destruct (UacpiNtThermalAddWork Work _) as [b g'] eqn:E. simpl in E.
  pose proof (sound_add Work _ _ _ q' _ b g' S E Hw Hd Hr Hn) as H. by destruct b.
Qed.

Lemma request_work_whole r g W g' : request_work Target r g = (W, g') -> whole_work W /\
  zg_Work g' = zg_Work g /\ zg_Active g' = zg_Active g /\ zg_Running g' = zg_Running g /\ zg_Delivered g' = zg_Delivered g /\
  zg_ThermalStamp g' = zg_ThermalStamp g /\
  (if is_query r then g' = g /\ (has_flag W W_COMPLETE = true \/ W = 0 /\ tr_Ulong r = zg_ThermalStamp g /\ zg_Delivered g = true)
   else W <> 0).
Proof.
  unfold request_work. intros E. destruct (is_query r).
  - destruct (Z.eqb_spec (tr_Ulong r) (zg_ThermalStamp g)); simpl in E; [destruct (zg_Delivered g) eqn:Ed; simpl in E|]; simplify_eq;
      split_and!; first [done|by left|by (right; split_and!)|by intros []].
  - repeat case_match; simplify_eq; split_and!; done.
Qed.

Lemma gate_sound g g' f q ts : zg_Work g' = zg_Work g -> zg_Active g' = zg_Active g -> zg_Running g' = zg_Running g ->
  zg_Delivered g' = zg_Delivered g -> zg_ThermalStamp g' = zg_ThermalStamp g -> zone_sound g f q ts -> zone_sound g' f q ts.
Proof.
  intros E1 E2 E3 E4 E5 []. split; unfold up_to_date in *; rewrite ?E1, ?E2, ?E3, ?E4, ?E5; done.
Qed.

Lemma sound_deciding id Work g f q ts : zone_sound g f q ts -> zg_Active g = true -> is_query (request_of id q) = true ->
  (has_flag Work W_COMPLETE = true \/ Work = 0 /\ up_to_date g q id) -> zone_sound g f q (ThDecide id Work :: ts).
Proof.
  intros [] Ha Hq Hw. split; try done.
  - by constructor.
  - intros k W [ [= -> ->]|Hi]; [done|by apply zo_decide0].
  - intros k Hi Ho. destruct (zo_listed0 k Hi Ho) as [?|[?|?] ]; [by left|right; left; by right|by right; right].
  - intros Hn k Hi Ho. right. by eapply zo_stopped0.
Qed.

Lemma fewer_set_routine id rs (q : zone_queue) : ok false (Entering id :: rs) q -> fewer_wait q (set_routine id q).
Proof.
  intros K. split; [intros; by apply request_of_alter|]. intros k Hi Ho. split; [done|].
  assert (k <> id) as Hk.
  { intros ->. pose proof (qo_path _ _ _ _ K id) as Hp. rewrite weight_cons in Hp. simpl in Hp. rewrite one_eq in Hp.
    pose proof (known_le id q). assert (0 < occurs id (iq_List q))%nat; [|lia]. apply existsb_occurs, existsb_exists.
    exists id. split; [done|apply Nat.eqb_refl]. }
  intros [H1 H2]. apply Ho. split; unfold set_routine; [by rewrite request_of_alter|by rewrite routine_alter_ne].
Qed.

Lemma enter_good id y : zone_sound (zs_Gate y) (zs_Failed y) (zs_Queue y) (ThRequest id :: zs_Tasks y) -> zs_Locked y = false ->
  ok false (Entering id :: roles_of (zs_Tasks y)) (zs_Queue y) -> zone_good (request_enter Target id y).
Proof.
  intros S El K. unfold request_enter. destruct (zg_Active (zs_Gate y)) eqn:Ea; simpl.
  2: { unfold zone_good. simpl. eapply (sound_frame _ [_] ); [exact S|apply fewer_refl|done|done|by repeat constructor|by intros ? ? [?|[]]|done]. }
  destruct (request_work Target _ _) as [Work g] eqn:Er. apply request_work_whole in Er as (Hw & E1 & E2 & E3 & E4 & E5 & Hq).
  pose proof (fun k W => no_decide (ThRequest id) _ _ k W K) as Hd.
  destruct (is_query (request_of id (zs_Queue y))) eqn:Eq.
  - destruct Hq as [-> Hq]. unfold zone_good. simpl. pose proof (fewer_set_routine _ _ _ K) as Hf.
    apply sound_deciding; [|done|by rewrite (proj1 Hf)|unfold up_to_date; rewrite (proj1 Hf); tauto].
    apply (sound_frame _ [] _ _ _ _ _ S Hf); try done. intros ? ? H. exact H.
  - pose proof (sound_drop_task _ _ _ _ _ S eq_refl (fun H => H)) as S0. apply add_work_good; simpl; try done.
    + by apply (gate_sound (zs_Gate y)).
    + intros k Hi Ho. destruct (decide (k = id)) as [->|Hk]; [right|left].
      * split; [congruence|]. by left.
      * split; [|done]. by apply in_app_or in Hi as [?|[?|[]] ].
Qed.

Lemma decide_good id Work y : zone_sound (zs_Gate y) (zs_Failed y) (zs_Queue y) (ThDecide id Work :: zs_Tasks y) ->
  ok true (Deciding id :: roles_of (zs_Tasks y)) (zs_Queue y) -> zone_good (request_decide id Work y).
Proof.
  intros S K. unfold request_decide, insert_unless_cancelled.
  destruct (zo_decide _ _ _ _ S id Work) as (Ha & Hq & Hw); [by left|].
  pose proof (sound_drop_task _ _ _ _ _ S eq_refl (fun H => H)) as S0.
  assert (forall k W, ~ In (ThDecide k W) (zs_Tasks y)) as Hd.
  { intros k W Hi. pose proof (qo_locked _ _ _ _ K) as Hk. apply in_split in Hi as (l1 & l2 & E). rewrite E in Hk.
    rewrite weight_cons, roles_of_app, weight_app in Hk. simpl in Hk. rewrite weight_cons in Hk. simpl in Hk. lia. }
  destruct (cancelled id (zs_Queue y) && routine_set id (zs_Queue y)).
  - unfold zone_good. simpl. eapply (sound_frame _ [_] ); [exact S|by apply fewer_alter|done|done|by repeat constructor|by intros ? ? [?|[]]|done].
  - apply add_work_good; simpl; try done.
    + intros Hz. destruct Hw as [?|[? _] ]; done.
    + intros k Hi Ho. destruct (decide (k = id)) as [->|Hk]; [right|left].
      * split; [done|]. destruct Hw as [Hw|[_ Hw] ]; [left; by apply flag_not_zero|by right].
      * split; [|done]. by apply in_app_or in Hi as [?|[?|[]] ].
Qed.

Lemma round_work_whole W : has_flag W W_COMPLETE = true -> has_flag (round_work Target W) W_COMPLETE = true.
Proof. unfold round_work. intros H. destruct (_ && _); [|done]. rewrite Z.lor_comm. by apply complete_flag. Qed.

Lemma worker_good y : zone_sound (zs_Gate y) (zs_Failed y) (zs_Queue y) (ThWorker :: zs_Tasks y) ->
  (forall id W, ~ In (ThDecide id W) (zs_Tasks y)) -> zone_good (worker_top Target y).
Proof.
  intros [Z1 Z2 Z3 Z4 Z5 Z6 Z7] Hd. unfold worker_top, zone_good. rewrite weight_cons in Z1. simpl in Z1. apply Forall_cons in Z4 as [_ Z4].
  assert (zg_Running (zs_Gate y) = true) as Er by (by destruct (zg_Running (zs_Gate y))). rewrite Er in *.
  destruct (Z.eqb_spec (zg_Work (zs_Gate y)) 0) as [E0|E0]; split; simpl; try done.
  - simpl in Z1. lia.
  - by intros ?.
  - intros id W Hi. by apply Hd in Hi.
  - intros id Hi Ho. right. destruct (Z6 id Hi Ho) as [?|[He|?] ]; [done| |by right].
    left. by apply Exists_cons in He as [?|?].
  - intros Ha id Hi Ho. by destruct (Z7 Ha id Hi Ho).
  - by intros ?.
  - constructor; [|done]. simpl. apply round_work_whole. by apply Z3.
  - intros id W [?|Hi]; [done|by apply Hd in Hi].
  - intros id Hi Ho. right. left. by left.
  - intros Ha id Hi Ho. right. by destruct (Z7 Ha id Hi Ho).
Qed.

Lemma complete_good back y : zone_sound (zs_Gate y) (zs_Failed y) (zs_Queue y) (ThComplete back :: zs_Tasks y) ->
  zs_Locked y = false -> ok false (roles_of (zs_Tasks y)) (zs_Queue y) -> zone_good (complete_irps back y).
Proof.
  intros [Z1 Z2 Z3 Z4 Z5 Z6 Z7] El K. unfold complete_irps, zone_good.
  pose proof (fun k W => no_decide (ThComplete back) _ _ k W K) as Hd.
  destruct (collect _ _ _ _) as [ [ids Had] q] eqn:Ec.
  destruct (collect_ok false (roles_of (zs_Tasks y)) _ [] _ _ [] _ _ _ eq_refl (Forall_nil_2 _) K Ec) as (_ & Ho & _).
  apply Forall_cons in Z4 as [_ Z4]. rewrite List.Forall_forall in Ho.
  split; simpl; try done.
  - by constructor.
  - intros id W [?|Hi]; [done|by apply Hd in Hi].
  - intros id Hi Hn. by apply Ho in Hi.
  - intros Ha id Hi Hn. by apply Ho in Hi.
Qed.

Lemma queue_failed_good y : zone_sound (zs_Gate y) (zs_Failed y) (zs_Queue y) (ThQueueFailed :: zs_Tasks y) ->
  (forall id W, ~ In (ThDecide id W) (zs_Tasks y)) ->
  zone_good (zs_set_Failed true (zs_set_Gate (zg_set_Work (zg_Work (zs_Gate y)) false (zg_Delivered (zs_Gate y)) (zs_Gate y)) y)).
Proof.
  intros [Z1 Z2 Z3 Z4 Z5 Z6 Z7] Hd. apply Forall_cons in Z4 as [_ Z4]. rewrite weight_cons in Z1. simpl in Z1.
  split; simpl; try done.
  - destruct (zg_Running (zs_Gate y)); simpl in Z1; lia.
  - by right.
  - intros id W Hi. by apply Hd in Hi.
  - intros id Hi Ho. destruct (Z6 id Hi Ho) as [?|[He|?] ]; [by left| |by right; right].
    right. left. by apply Exists_cons in He as [?|?].
  - intros Ha id Hi Ho. by destruct (Z7 Ha id Hi Ho).
Qed.

Lemma stamp_good Work v y : zone_sound (zs_Gate y) (zs_Failed y) (zs_Queue y) (ThStamp Work :: zs_Tasks y) ->
  (forall id W, ~ In (ThDecide id W) (zs_Tasks y)) ->
  zone_good (zs_spawn [ThTemperature Work] (zs_set_Gate (zg_set_Stamp v (zs_Gate y)) y)).
Proof.
  intros [Z1 Z2 Z3 Z4 Z5 Z6 Z7] Hd. apply Forall_cons in Z4 as [Z4' Z4].
  split; simpl; try done.
  - by constructor.
  - intros id W [?|Hi]; [done|by apply Hd in Hi].
  - intros id Hi Ho. right. left. by left.
  - intros Ha id Hi Ho. right. by destruct (Z7 Ha id Hi Ho).
Qed.

Lemma stop_good y : zone_sound (zs_Gate y) (zs_Failed y) (zs_Queue y) (ThStop :: zs_Tasks y) ->
  (forall id W, ~ In (ThDecide id W) (zs_Tasks y)) -> zone_good (zone_stop y).
Proof.
  intros [Z1 Z2 Z3 Z4 Z5 Z6 Z7] Hd. apply Forall_cons in Z4 as [_ Z4]. split; simpl; try done.
  - by intros ?.
  - by constructor.
  - intros id W [?|Hi]; [done|by apply Hd in Hi].
  - intros id Hi Ho. right. left. by left.
  - intros Ha id Hi Ho. by left.
Qed.

Lemma same_queue y : zs_Locked y = false -> y = zs_set_Queue (zs_Queue y) false y.
Proof. destruct y; simpl. by intros ->. Qed.

(** Work is added by a thread that holds nothing. *)
Lemma plain_work_good Work y : zs_Locked y = false -> zone_good y -> has_flag Work W_COMPLETE = true ->
  (forall id W, ~ In (ThDecide id W) (zs_Tasks y)) -> zone_good (add_work Work y).
Proof. intros El S Hw Hd. rewrite (same_queue y El). apply add_work_good; try done; [by intros ?|]. intros id Hi Ho. by left. Qed.

Lemma start_good y : zs_Locked y = false -> zone_good y -> (forall id W, ~ In (ThDecide id W) (zs_Tasks y)) ->
  zone_good (zone_start y).
Proof.
  intros El S Hd. unfold zone_start. destruct (zg_Active (zs_Gate y)) eqn:Ea; [done|]. apply plain_work_good; try done.
  destruct S as [Z1 Z2 Z3 Z4 Z5 Z6 Z7]. split; simpl; try done.
  intros id W Hi. by apply Hd in Hi.
Qed.

Lemma after_reading_good Work : has_flag Work W_COMPLETE = true -> after_reading Work = ThComplete true.
Proof. unfold after_reading. by intros ->. Qed.

Lemma after_step_good k Work p f : has_flag Work W_COMPLETE = true ->
  worker_thread (after_step k Work p f) = 1%nat /\ will_complete (after_step k Work p f) /\ good_task (after_step k Work p f).
Proof. unfold after_step. intros H. rewrite after_reading_good by done. by destruct (_ <? _)%nat, (has_flag Work W_TEMPERATURE). Qed.

Lemma copy_word_good back ids Stamp words y :
  worker_thread (copy_word back ids Stamp words y) = worker_thread (ThCopying back ids Stamp words) /\
  good_task (copy_word back ids Stamp words y) /\ forall id W, copy_word back ids Stamp words y <> ThDecide id W.
Proof. unfold copy_word. by destruct (_ <? _)%nat. Qed.

Lemma frame_good l t y y' : zone_sound (zs_Gate y) (zs_Failed y) (zs_Queue y) (t :: zs_Tasks y) ->
  zs_Gate y' = zs_Gate y -> zs_Failed y' = zs_Failed y -> zs_Tasks y' = l ++ zs_Tasks y -> fewer_wait (zs_Queue y) (zs_Queue y') ->
  list_weight worker_thread l = worker_thread t -> (will_complete t -> Exists will_complete l) -> Forall good_task l ->
  (forall id Work, ~ In (ThDecide id Work) l) -> t <> ThComplete false -> zone_good y'.
Proof. intros S Eg Ef Et Hf. unfold zone_good. rewrite Eg, Ef, Et. intros. by eapply sound_frame. Qed.

Ltac frame_turn l S :=
  eapply (frame_good l); [exact S|..];
  [done|done|done|first [by apply fewer_alter|apply fewer_unlink|apply fewer_refl|idtac]| | |repeat constructor| |]; try done; try by (intros ? ? [?|[]]).

Lemma completes_good t back id ids y y' : zone_sound (zs_Gate y) (zs_Failed y) (zs_Queue y) (t :: zs_Tasks y) ->
  worker_thread t = Nat.b2n back -> ~ will_complete t -> t <> ThComplete false -> completes back id ids y y' -> zone_good y'.
Proof.
  intros S Hw Hc Ht (_ & Eg & Ef & _ & [(n & o & Stamp & Snap & Eq & Et)|(stage & c & Stamp & Snap & Eq & Et)]);
    (eapply (frame_good [_]); [exact S|done|done|exact Et|rewrite Eq; first [by apply fewer_alter|apply fewer_refl]|rewrite Hw; by destruct back
      |done|by repeat constructor|by intros ? ? [?|[]]|done]).
Qed.

Lemma zone_turn_good granted t y y' : zone_sound (zs_Gate y) (zs_Failed y) (zs_Queue y) (t :: zs_Tasks y) ->
  ok (zs_Locked y) (zone_roles t ++ roles_of (zs_Tasks y)) (zs_Queue y) ->
  zone_turn Target Node ActiveProcessors granted t y = Some y' -> zone_good y'.
Proof.
  intros S K E.
  destruct t as [id|id Work|id st|id|id|id| | | |k Work p f|Work|Work|back|back ids Stamp words|back ids Stamp Snapshot|back id ids Stamp Snapshot stage Output|Work| |];
    simpl in K, E; try apply zone_locking in E as [El ->]; try rewrite El in K; simplify_eq/=;
    try (pose proof (fun k W => no_decide ThWorker _ _ k W K) as Hd).
  - by apply enter_good.
  - assert (zs_Locked y = true) as El.
    { pose proof (qo_locked _ _ _ _ K) as Hk. rewrite weight_cons in Hk. simpl in Hk. by destruct (zs_Locked y). }
    rewrite El in K. by apply decide_good.
  - frame_turn (@nil zone_task) S. intros ? ? [].
  - destruct (routine_set _ _); [frame_turn [ThCancel id] S|frame_turn (@nil zone_task) S; intros ? ? []].
  - frame_turn [ThCancelled id] S.
  - frame_turn (@nil zone_task) S. intros ? ? [].
  - destruct granted; [frame_turn [ThWorker] S|frame_turn [ThQueueFailed] S].
  - by apply queue_failed_good.
  - by apply worker_good.
  - destruct (zone_step_frame Target Node ActiveProcessors k Work p f y) as (Eq & Ek & Et & Eg & Ef).
    destruct (zone_step Target Node ActiveProcessors k Work p f y) as [y1 k1]. simplify_eq/=.
    pose proof (zo_tasks _ _ _ _ S) as Hg. apply Forall_cons in Hg as [Hg _].
    destruct (after_step_good k1 Work p f Hg) as (H1 & H2 & H3). eapply (frame_good [_]); [exact S|..]; simpl.
    + done.
    + done.
    + by rewrite Et.
    + rewrite Eq. apply fewer_refl.
    + by rewrite weight_cons, H1.
    + intros _. by left.
    + by repeat constructor.
    + intros id W [Ha|[]]. by rewrite Ha in H2.
    + done.
  - by apply stamp_good.
  - destruct (read_temperature _ _ _ _) as [d h]. simplify_eq. pose proof (zo_tasks _ _ _ _ S) as Hg.
    apply Forall_cons in Hg as [Hg _]. rewrite after_reading_good by done.
    frame_turn [ThComplete true] S. intros _. by left.
  - by apply complete_good.
  - destruct (copy_word_good back ids Stamp words y) as (H1 & H2 & H3).
    eapply (frame_good [_]); [exact S|done|done|done|apply fewer_refl|by rewrite weight_cons, H1, Nat.add_0_r|done|by repeat constructor| |done].
    intros id W [Ha|[]]. by eapply H3.
  - destruct ids as [|id ids]; simplify_eq.
    + destruct back; [frame_turn [ThWorker] S|frame_turn (@nil zone_task) S; intros ? ? []].
    + by eapply (completes_good _ back id ids); [exact S|destruct back|intros []| |apply complete_one_completes].
  - by eapply (completes_good _ back id ids); [exact S|destruct back|intros []| |apply describe_one_completes].
  - pose proof (zo_tasks _ _ _ _ S) as Hg. apply Forall_cons in Hg as [Hg _].
    pose proof (sound_drop_task _ _ _ _ _ S eq_refl (fun H => H)) as S0.
    destruct (zg_Active (zs_Gate y)); [by apply plain_work_good|done].
  - pose proof (sound_drop_task _ _ _ _ _ S eq_refl (fun H => H)) as S0. by apply start_good.
  - by apply stop_good.
Qed.

(** Threads that come from outside. *)
Lemma sound_more l g f (q q' : zone_queue) ts : zone_sound g f q ts ->
  (forall id, (In id (iq_List q) \/ exists Work, In (ThDecide id Work) ts) -> request_of id q' = request_of id q) ->
  (forall id, In id (iq_List q') -> ~ owned_by_cancel q' id -> In id (iq_List q) /\ ~ owned_by_cancel q id) ->
  list_weight worker_thread l = 0%nat -> Forall good_task l -> (forall id Work, ~ In (ThDecide id Work) l) -> zone_sound g f q' (l ++ ts).
Proof.
  intros [Z1 Z2 Z3 Z4 Z5 Z6 Z7] Hr Hw Hl Hg Hd. split; try done.
  - by rewrite weight_app, Hl.
  - by apply Forall_app.
  - intros id Work [Hi|Hi]%in_app_or; [by apply Hd in Hi|]. unfold up_to_date. rewrite Hr by eauto. by apply Z5.
  - intros id Hi Ho. destruct (Hw id Hi Ho) as [Hi' Ho']. unfold up_to_date. rewrite Hr by eauto.
    destruct (Z6 id Hi' Ho') as [?|[?|?] ]; [by left| |by right; right]. right. left. apply Exists_app. by right.
  - intros Ha id Hi Ho. destruct (Hw id Hi Ho) as [Hi' Ho']. apply in_or_app. right. by eapply Z7.
Qed.

Lemma arrive_lookup r (q : zone_queue) id : (id < length (iq_Irps q))%nat -> iq_Irps (iq_arrive r q) !! id = iq_Irps q !! id.
Proof. intros H. unfold iq_arrive. simpl. by rewrite lookup_app_l. Qed.

Lemma decide_path ts id W : In (ThDecide id W) ts -> (0 < list_weight (on_the_way id) (roles_of ts))%nat.
Proof. intros (l1 & l2 & ->)%in_split. rewrite roles_of_app, weight_app. simpl. rewrite weight_cons. simpl. rewrite one_eq. lia. Qed.

Lemma listed_occurs id l : In id l -> (0 < occurs id l)%nat.
Proof. intros H. apply existsb_occurs, existsb_exists. exists id. split; [done|apply Nat.eqb_refl]. Qed.

Lemma path_length locked rs (q : zone_queue) id : ok locked rs q ->
  (0 < list_weight (on_the_way id) rs + occurs id (iq_List q))%nat -> (id < length (iq_Irps q))%nat.
Proof. intros K [i Hi]%(path_known _ _ id _ _ K). apply lookup_lt_is_Some. eauto. Qed.

Lemma arrive_good r l y : ok (zs_Locked y) (roles_of (zs_Tasks y)) (zs_Queue y) -> zone_good y ->
  list_weight worker_thread l = 0%nat -> Forall good_task l -> (forall id Work, ~ In (ThDecide id Work) l) ->
  zone_good (zs_spawn l (zs_set_Queue (iq_arrive r (zs_Queue y)) (zs_Locked y) y)).
Proof.
  intros K S Hl Hg Hd.
  assert (forall id, In id (iq_List (zs_Queue y)) -> (id < length (iq_Irps (zs_Queue y)))%nat) as Hi.
  { intros id Hi%listed_occurs. apply (path_length _ _ _ _ K). lia. }
  unfold zone_good. simpl. apply (sound_more _ _ _ (zs_Queue y)); try done.
  - intros id H. unfold request_of. rewrite arrive_lookup; [done|]. destruct H as [H|[W H] ]; [by apply Hi|].
    apply decide_path in H. apply (path_length _ _ _ _ K). lia.
  - intros id H Ho. split; [done|]. intros [H1 H2]. apply Ho. unfold owned_by_cancel, request_of, routine_set in *.
    rewrite arrive_lookup; [by split|by apply Hi].
Qed.

Lemma zone_arrival_good y y' : zone_queue_ok y -> zone_good y -> zone_arrival Target y y' -> zone_good y'.
Proof.
  intros K S Ha. destruct Ha as [r y|id y Hl|Value Work y E|y|y|ps w y]; try done.
  - unfold zone_call. destruct (thermal_check Target r) as [ [st|] |]; [| |done]; apply arrive_good; try done;
      try (by repeat constructor); by intros ? ? [?|[]].
  - unfold zone_good. simpl. destruct (fewer_alter li_set_Cancel id (zs_Queue y)) as [Hr Hw]; try done.
    apply (sound_more [_] _ _ (zs_Queue y)); try done; try (by repeat constructor); by intros ? ? [?|[]].
  - apply (sound_more [_] _ _ (zs_Queue y)); try done; [|by intros ? ? [?|[]]]. repeat constructor. simpl.
    unfold UacpiNtThermalNotify in E. by repeat case_match; simplify_eq.
  - apply (sound_more [_] _ _ (zs_Queue y)); try done; try (by repeat constructor); by intros ? ? [?|[]].
  - apply (sound_more [_] _ _ (zs_Queue y)); try done; try (by repeat constructor); by intros ? ? [?|[]].
Qed.

Definition zone_inv (y : zone_system) : Prop := zone_queue_ok y /\ zone_good y.

Lemma zone_event_inv y y' : zone_inv y -> zone_event Target Node ActiveProcessors y y' -> zone_inv y'.
Proof.
  intros [K S] Ht. split; [by eapply zone_event_ok|]. destruct Ht as [granted t rest y y1 Hp E].
  eapply zone_turn_good; [| |exact E]; simpl; [by eapply zone_sound_perm|].
  eapply queue_ok_perm; [by apply zone_roles_perm, Hp|exact K].
Qed.

Lemma zone_run_inv y y' : zone_inv y -> zone_run Target Node ActiveProcessors y y' -> zone_inv y'.
Proof.
  intros H Hr. induction Hr as [y|y y1 y2 Hr IH He|y y1 y2 Hr IH Ha]; [done|exact (zone_event_inv _ _ (IH H) He)|].
  destruct (IH H) as [K S]. split; [by eapply zone_arrival_ok|by eapply zone_arrival_good].
Qed.

Lemma zone_created_inv ps s w : zone_inv (zone_created ps s w).
Proof. split; [apply queue_ok_start|]. split; try done; try (by intros ?); by constructor. Qed.

(** ** What is left to do *)

Definition zone_task_work (t : zone_task) : nat :=
  match t with
  | ThRequest _ => 77
  | ThDecide _ _ => 76
  | ThKick _ | ThStart => 71
  | ThStop => 27
  | ThStep k _ _ _ => 30 + (last_step - k)
  | ThStamp _ => 29
  | ThTemperature _ => 28
  | ThComplete back => 26 + Nat.b2n back
  | ThCopying back ids _ words => 2 + (info_size - length words) + 5 * length ids + Nat.b2n back
  | ThCompleting back ids _ _ => 1 + 5 * length ids + Nat.b2n back
  | ThDescribing back _ ids _ _ stage _ => 2 + (3 - stage) + 5 * length ids + Nat.b2n back
  | ThIoCancel _ => 3
  | ThQueueWorker | ThCancel _ => 2
  | ThWorker | ThQueueFailed | ThAnswer _ _ | ThCancelled _ => 1
  end.

Definition pending_work (g : zone_gate) : nat := if zg_Work g =? 0 then 0 else 68.

(** The turns that are left when nothing more comes from outside. *)
Definition zone_work (y : zone_system) : nat :=
  list_weight zone_task_work (zs_Tasks y) + 5 * length (iq_List (zs_Queue y)) + pending_work (zs_Gate y).

Lemma zone_work_spawn l y : zone_work (zs_spawn l y) = (list_weight zone_task_work l + zone_work y)%nat.
Proof. unfold zone_work. change (zs_Tasks (zs_spawn l y)) with (l ++ zs_Tasks y). rewrite weight_app. simpl. lia. Qed.

Lemma one_task_work t : list_weight zone_task_work [t] = zone_task_work t.
Proof. unfold list_weight. simpl. lia. Qed.

Lemma pending_le g : (pending_work g <= 68)%nat.
Proof. unfold pending_work. destruct (_ =? _); lia. Qed.

Lemma add_work_left Work y : (zone_work (add_work Work y) <= 70 + zone_work y)%nat.
Proof.
  unfold add_work. destruct (UacpiNtThermalAddWork Work (zs_Gate y)) as [b g].
  assert (zone_work (zs_set_Gate g y) <= 68 + zone_work y)%nat as H.
  { unfold zone_work. simpl. pose proof (pending_le g). lia. }
  destruct b; [|lia]. rewrite zone_work_spawn, one_task_work. change (zone_work (zs_set_Failed false (zs_set_Gate g y))) with (zone_work (zs_set_Gate g y)).
  simpl. lia.
Qed.

Lemma add_work_linked Work id b y : (zone_work (add_work Work (zs_set_Queue (link_tail id (zs_Queue y)) b y)) <= 75 + zone_work y)%nat.
Proof.
  etrans; [apply add_work_left|]. unfold zone_work. simpl. rewrite length_app. simpl. lia.
Qed.

(** Only the queue and the threads count. *)
Lemma frame_work l y y' : zs_Tasks y' = l ++ zs_Tasks y -> zs_Gate y' = zs_Gate y ->
  (zone_work y' + 5 * length (iq_List (zs_Queue y)) = list_weight zone_task_work l + zone_work y + 5 * length (iq_List (zs_Queue y')))%nat.
Proof. intros Et Eg. unfold zone_work. rewrite Et, Eg, weight_app. lia. Qed.

Lemma enter_less id y : (zone_work (request_enter Target id y) < 77 + zone_work y)%nat.
Proof.
  unfold request_enter. destruct (negb _); [rewrite zone_work_spawn, one_task_work; simpl; lia|].
  destruct (request_work Target _ _) as [Work g] eqn:Er. apply request_work_whole in Er as (_ & Ew & _).
  assert (zone_work (zs_set_Gate g y) = zone_work y) as Hg by (unfold zone_work, pending_work; simpl; by rewrite Ew).
  destruct (is_query _).
  - rewrite zone_work_spawn, one_task_work. unfold zone_work, pending_work in *. simpl in *. lia.
  - pose proof (add_work_linked Work id false (zs_set_Gate g y)) as H. rewrite Hg in H. lia.
Qed.

Lemma decide_less id Work y : (zone_work (request_decide id Work y) < 76 + zone_work y)%nat.
Proof.
  unfold request_decide, insert_unless_cancelled. destruct (_ && _).
  - rewrite zone_work_spawn, one_task_work. unfold zone_work. simpl. lia.
  - pose proof (add_work_linked Work id false y). lia.
Qed.

Lemma worker_less y : (zone_work (worker_top Target y) < 1 + zone_work y)%nat.
Proof.
  unfold worker_top. destruct (Z.eqb_spec (zg_Work (zs_Gate y)) 0) as [E|E].
  - unfold zone_work, pending_work. simpl. lia.
  - rewrite zone_work_spawn, one_task_work. unfold zone_work, pending_work. simpl.
    rewrite (proj2 (Z.eqb_neq _ _) E). lia.
Qed.

(** An IRP completed or a stage of its description. *)
Lemma finish_work t id o n y : zone_work (zs_spawn [t] (finish_one id o n y)) = (zone_task_work t + zone_work y)%nat.
Proof. by rewrite zone_work_spawn, one_task_work. Qed.

Lemma complete_one_less back id ids Stamp Snapshot y :
  (zone_work (complete_one Target back id ids Stamp Snapshot y) < zone_task_work (ThCompleting back (id :: ids) Stamp Snapshot) + zone_work y)%nat.
Proof.
  unfold complete_one. destruct (_ =? _); [rewrite finish_work; cbn [zone_task_work length]; lia|].
  destruct (_ && _); [|rewrite finish_work; cbn [zone_task_work length]; lia].
  destruct (zd_Description (zs_Data y)) as [d|]; [|rewrite finish_work; cbn [zone_task_work length]; lia].
  destruct (ExAllocatePoolWithTag _ _) as [ok w]. change (zone_work y) with (zone_work (zs_set_World w y)).
  destruct ok; cbn [negb]; rewrite ?finish_work, ?zone_work_spawn, ?one_task_work; cbn [zone_task_work length]; lia.
Qed.

Lemma describe_one_less back id ids Stamp Snapshot stage Output y :
  (zone_work (describe_one back id ids Stamp Snapshot stage Output y) <
   zone_task_work (ThDescribing back id ids Stamp Snapshot stage Output) + zone_work y)%nat.
Proof.
  unfold describe_one. destruct stage as [|[|stage] ]; rewrite ?finish_work, ?zone_work_spawn, ?one_task_work; cbn [zone_task_work]; lia.
Qed.

Lemma zone_turn_less granted t y y' : ok (zs_Locked y) (zone_roles t ++ roles_of (zs_Tasks y)) (zs_Queue y) ->
  zone_turn Target Node ActiveProcessors granted t y = Some y' -> (zone_work y' < zone_task_work t + zone_work y)%nat.
Proof.
  intros K E.
  destruct t as [id|id Work|id st|id|id|id| | | |k Work p f|Work|Work|back|back ids Stamp words|back ids Stamp Snapshot|back id ids Stamp Snapshot stage Output|Work| |];
    simpl in K, E; try apply zone_locking in E as [El ->]; try rewrite El in K; simplify_eq/=.
  - apply enter_less.
  - apply decide_less.
  - pose proof (frame_work [] y (zs_set_Queue (complete_irp id st 0 None (zs_Queue y)) (zs_Locked y) y) eq_refl eq_refl) as H.
    unfold list_weight in H. simpl in H. lia.
  - rewrite zone_work_spawn. destruct (routine_set id _); [rewrite one_task_work|]; unfold zone_work, list_weight; simpl; lia.
  - rewrite zone_work_spawn, one_task_work. pose proof (unlink_shorter id (zs_Queue y)). unfold zone_work. simpl. lia.
  - unfold zone_work. simpl. lia.
  - rewrite zone_work_spawn, one_task_work. destruct granted; simpl; lia.
  - unfold zone_work, pending_work. simpl. lia.
  - apply worker_less.
  - destruct (zone_step_frame Target Node ActiveProcessors k Work p f y) as (Eq & Ek & Et & Eg & Ef).
    pose proof (zone_step_next Target Node ActiveProcessors k Work p f y) as Hn.
    pose proof (zone_step_last Target Node ActiveProcessors k Work p f y) as Hl.
    destruct (zone_step Target Node ActiveProcessors k Work p f y) as [y1 k1]. simplify_eq/=.
    rewrite zone_work_spawn, one_task_work. unfold zone_work. rewrite Eq, Et, Eg. unfold after_step, after_reading.
    destruct (Nat.ltb_spec k1 last_step); [destruct (Nat.ltb_spec k last_step); [cbn [zone_task_work]; lia|exfalso; lia]|].
    destruct (has_flag Work W_TEMPERATURE), (has_flag Work W_COMPLETE); simpl; lia.
  - rewrite zone_work_spawn, one_task_work. unfold zone_work, pending_work. simpl. lia.
  - destruct (read_temperature _ _ _ _) as [d h]. simplify_eq. rewrite zone_work_spawn, one_task_work. unfold zone_work, after_reading.
    destruct (has_flag Work _); simpl; lia.
  - unfold complete_irps. destruct (collect _ _ _ _) as [ [ids Had] q] eqn:Ec.
    destruct (collect_ok false (roles_of (zs_Tasks y)) _ [] _ _ [] _ _ _ eq_refl (Forall_nil_2 _) K Ec) as (_ & _ & Hl).
    rewrite zone_work_spawn, one_task_work. unfold zone_work, pending_work. simpl in *. lia.
  - rewrite zone_work_spawn, one_task_work. unfold copy_word. destruct (Nat.ltb_spec (length words) info_size); cbn [zone_task_work];
      rewrite ?length_app; simpl length; lia.
  - destruct ids as [|id ids]; simplify_eq.
    + rewrite zone_work_spawn. destruct back; unfold list_weight; simpl; lia.
    + apply complete_one_less.
  - apply describe_one_less.
  - destruct (zg_Active (zs_Gate y)); [pose proof (add_work_left Work y)|]; lia.
  - unfold zone_start. destruct (zg_Active (zs_Gate y)); [lia|].
    match goal with |- context [add_work _ ?z] =>
      pose proof (add_work_left UACPINT_THERMAL_WORK_ALL z) as H; change (zone_work z) with (zone_work y) in H
    end. lia.
  - unfold zone_stop. rewrite zone_work_spawn, one_task_work. unfold zone_work, pending_work. simpl. lia.
Qed.
End Service.

(** ** What the zone promises *)

Section Promises.
Context {A : Acpi} {C : ThermalCodes} (Target : ntddi) (Node : acpi_node) (ActiveProcessors : Z).
Local Notation event := (zone_event Target Node ActiveProcessors).
Local Notation run := (zone_run Target Node ActiveProcessors).

Lemma zone_event_less y y' : zone_inv y -> event y y' -> (zone_work y' < zone_work y)%nat.
Proof.
  intros [K _] Ht. destruct Ht as [granted t rest y y1 Hp E]. apply zone_turn_less in E.
  - unfold zone_work in *. simpl in E. rewrite (weight_perm _ _ _ Hp), weight_cons. lia.
  - simpl. eapply queue_ok_perm; [by apply zone_roles_perm, Hp|exact K].
Qed.

Lemma zone_events_bounded n : forall y y', zone_inv y -> nsteps event n y y' -> (n <= zone_work y)%nat.
Proof.
  induction n as [|n IH]; intros y y' Hy H; [lia|]. inversion H as [|? ? y1 ? H1 H2]; subst.
  apply IH in H2; [|by eapply zone_event_inv]. apply zone_event_less in H1; [lia|done].
Qed.

(** Whoever does not wait for the lock can go on. *)
Lemma zone_turn_runs t y : zone_locked y = false \/ (exists id Work, t = ThDecide id Work) \/ copying t = true ->
  exists y', zone_turn Target Node ActiveProcessors true t y = Some y'.
Proof.
  intros [El|[(id & Work & ->)|Ec] ]; [|by eexists|].
  - destruct t as [| | | | | | | | |k Work p f|Work|Work| | |back ids Stamp Snapshot|back id ids Stamp Snapshot stage Output| | |]; simpl; rewrite ?El; try by eexists.
    + destruct (zone_step _ _ _ _ _ _ _ _). by eexists.
    + destruct (read_temperature _ _ _ _). by eexists.
    + destruct ids; by eexists.
  - destruct t; try done. by eexists.
Qed.

Lemma zone_deciding ts : (0 < list_weight any_deciding (roles_of ts))%nat -> exists id Work, In (ThDecide id Work) ts.
Proof.
  induction ts as [|t ts IH]; unfold roles_of; simpl; [unfold list_weight; simpl; lia|]. rewrite weight_app. intros H.
  assert (list_weight any_deciding (zone_roles t) = 0%nat \/ exists id Work, t = ThDecide id Work) as [E|(id & Work & ->)].
  { assert (forall ids, list_weight any_deciding (map Holding ids) = 0%nat) as Hn.
    { intros ids. induction ids as [|x l IHl]; [done|]. by rewrite map_cons, weight_cons, IHl. }
    destruct t; simpl zone_roles; rewrite ?weight_cons, ?Hn; eauto. }
  - rewrite E in H. destruct (IH H) as (id & Work & Hi). exists id, Work. by right.
  - exists id, Work. by left.
Qed.

Lemma zone_progress y : zone_queue_ok y -> zs_Tasks y = [] \/ exists y', event y y'.
Proof.
  intros K.
  assert (forall t, t ∈ zs_Tasks y -> (exists id Work, t = ThDecide id Work) \/ copying t = true -> exists y', event y y') as Hgo.
  { intros t Hi Ht. apply elem_of_Permutation in Hi as [rest Hp].
    destruct (zone_turn_runs t (zs_set_Tasks rest y)) as [y' E]; [by right|]. exists y'. by eapply zev_task. }
  destruct (zs_Locked y) eqn:El.
  - right. pose proof (qo_locked _ _ _ _ K) as Hk. rewrite El in Hk. simpl in Hk.
    destruct (zone_deciding (zs_Tasks y)) as (id & Work & Hi); [lia|]. apply (Hgo (ThDecide id Work)); [by apply list_elem_of_In|eauto].
  - destruct (existsb copying (zs_Tasks y)) eqn:Ec.
    { apply existsb_exists in Ec as (t & Hi & Hc). right. apply (Hgo t); [by apply list_elem_of_In|by right]. }
    destruct (zs_Tasks y) as [|t rest] eqn:Et; [by left|right].
    destruct (zone_turn_runs t (zs_set_Tasks rest y)) as [y' E].
    { left. unfold zone_locked. simpl. simpl in Ec. rewrite El. by apply orb_false_elim in Ec as [_ ?]. }
    exists y'. eapply zev_task; [by rewrite Et|done].
Qed.

(** An IRP that waits with nobody at work: a query of a running zone that nobody has
    cancelled and that knows all there is to know; or no worker could be queued, and
    the work that completes it is still pending. *)
Definition zone_waits (id : nat) (i : listed_irp thermal_request thermal_output) (y : zone_system) : Prop :=
  li_Completions i = [] /\ In id (iq_List (zs_Queue y)) /\ zg_Active (zs_Gate y) = true /\
  (is_query (li_Request i) = true -> li_CancelRoutine i = true /\ li_Cancel i = false) /\
  ((zs_Failed y = true /\ zg_Work (zs_Gate y) <> 0 /\ has_flag (zg_Work (zs_Gate y)) W_COMPLETE = true) \/
   (is_query (li_Request i) = true /\ tr_Ulong (li_Request i) = zg_ThermalStamp (zs_Gate y) /\
    zg_Delivered (zs_Gate y) = true)).

(** C28.  Whatever threads ask a zone for work, stop it, start it again, notify it or
    cancel its queries, in whatever order: at most one worker is queued or runs, and
    one does exactly when [Running] says so; no entry is removed that is in no list;
    and no IRP is completed twice. *)
Theorem thermal_one_worker ps s w y : run (zone_created ps s w) y ->
  list_weight worker_thread (zs_Tasks y) = Nat.b2n (zg_Running (zs_Gate y)) /\ iq_Broken (zs_Queue y) = false /\
  forall id i, iq_Irps (zs_Queue y) !! id = Some i -> (length (li_Completions i) <= 1)%nat.
Proof.
  intros Hr. destruct (zone_run_inv _ _ _ _ _ (zone_created_inv ps s w) Hr) as [K S].
  split_and!; [apply S|by apply (qo_intact _ _ _ _ K)|]. intros id i. by apply (ok_at_most_once is_query _ _ _ _ _ K).
Qed.

(** C27.  When nothing more comes from outside, the threads of a zone always get on and
    are done after a bounded number of turns.  Then every IRP that ever came was
    completed exactly once, except the queries of a zone that still runs that hold
    its present stamp, when the last news was delivered; unless no work item could be
    allocated for the work that is pending, which the zone then keeps. *)
Theorem thermal_requests_answered ps s w y : run (zone_created ps s w) y ->
  (zs_Tasks y = [] \/ exists y', event y y') /\
  (forall n y', nsteps event n y y' -> (n <= zone_work y)%nat) /\
  (zs_Tasks y = [] -> zg_Running (zs_Gate y) = false /\ (zg_Work (zs_Gate y) <> 0 -> zs_Failed y = true) /\
     forall id i, iq_Irps (zs_Queue y) !! id = Some i -> length (li_Completions i) = 1%nat \/ zone_waits id i y).
Proof.
  intros Hr. pose proof (zone_run_inv _ _ _ _ _ (zone_created_inv ps s w) Hr) as [K S].
  split; [by apply zone_progress|]. split; [intros n y' H; by eapply zone_events_bounded|].
  intros Ht. unfold zone_queue_ok, zone_good in *. rewrite Ht in *. destruct S as [Z1 Z2 Z3 Z4 Z5 Z6 Z7].
  assert (zg_Running (zs_Gate y) = false) as Er by (by destruct (zg_Running (zs_Gate y))).
  assert (zg_Work (zs_Gate y) <> 0 -> zs_Failed y = true) as Hw by (intros H; destruct (Z2 H); congruence).
  split_and!; [done..|]. intros id i Hi. pose proof (qo_locked _ _ _ _ K) as Hk. destruct (zs_Locked y); [done|].
  destruct (ok_rest is_query _ _ _ K Hi) as [?|(Hc & Hl & Hq)]; [by left|right].
  assert (request_of id (zs_Queue y) = li_Request i) as Eq by (unfold request_of; by rewrite Hi).
  assert (~ owned_by_cancel (zs_Queue y) id) as Ho.
  { intros [H1 H2]. rewrite Eq in H1. destruct (Hq H1) as [H3 _]. unfold routine_set in H2. rewrite Hi in H2. congruence. }
  split_and!; try done.
  - destruct (zg_Active (zs_Gate y)); [done|]. by destruct (Z7 eq_refl id Hl Ho).
  - destruct (Z6 id Hl Ho) as [Hn|[He|Hu] ]; [left; split_and!; [by apply Hw|done|by apply Z3]|by inversion He|right]. unfold up_to_date in Hu. by rewrite Eq in Hu.
Qed.
End Promises.
