(* ===== verification/ThermalReply.v ===== *)
(** The replies of a thermal zone: what drivers/thermal.c writes to the buffers of its
    callers, over every run of ThermalZone.v; runs spelled out; and what a stop that
    runs beside the worker can hand out. *)
From stdpp Require Import base list numbers option strings relations.
From Stdlib Require Import ZArith Lia.
From S2P Require Import Prelude NtEnv AcpiEnv Bytes PowerRes PowerCaps Wake IrpQueue Thermal ThermalRound ThermalZone.

(** The control codes differ: the driver has them as labels of one switch. *)
Class ThermalCodesLaws (C : ThermalCodes) := {
  thermal_codes_differ : NoDup [IOCTL_THERMAL_QUERY_INFORMATION; IOCTL_THERMAL_SET_COOLING_POLICY;
    IOCTL_RUN_ACTIVE_COOLING_METHOD; IOCTL_THERMAL_SET_PASSIVE_LIMIT; IOCTL_UACPINT_THERMAL_DESCRIPTION]
}.

Section Replies.
Context {A : Acpi} {C : ThermalCodes} {L : ThermalCodesLaws C} (Target : ntddi) (Node : acpi_node) (ActiveProcessors : Z).

(** ** The buffers *)

(** A description handed out whole: in a block of its length, with its NUL. *)
Definition copy_exact (c : description_copy) : Prop :=
  dc_Block c = Z.of_nat (length (dc_Bytes c)) /\ dc_MaximumLength c = dc_Block c /\ dc_Length c + 2 = dc_MaximumLength c /\
  exists text, dc_Bytes c = text ++ [0; 0].

(** What was written to the buffer of the request fits it, is as long as the
    information says, and is what the request asks for.  A reading has every value in
    its range; one that the worker gives is well formed, and its description whole. *)
Definition reply_fits (r : thermal_request) (c : NTSTATUS * Z * option thermal_output) : Prop :=
  let '(Status, Information, o) := c in
  match o with
  | None => Information = 0 /\ (Status = STATUS_SUCCESS -> is_query r = false)
  | Some (OutQuery worker bytes) => Status = STATUS_SUCCESS /\ is_query r = true /\ tr_Buffer r = true /\
      Information = Z.of_nat (length bytes) /\ Information <= tr_OutputLength r /\
      exists Stamp i, reading_ok i /\ (worker = true -> info_ok i) /\ is_ulong Stamp /\ bytes = UacpiNtThermalFillQuery Target Stamp i
  | Some (OutDescription worker d) => Status = STATUS_SUCCESS /\ tr_Code r = IOCTL_UACPINT_THERMAL_DESCRIPTION /\
      from_win10 Target = true /\ tr_Buffer r = true /\ Information = 16 /\ 16 <= tr_OutputLength r /\
      (worker = true -> forall c, d = Some c -> copy_exact c)
  end.

Definition irp_fits (i : listed_irp thermal_request thermal_output) : Prop :=
  Forall (reply_fits (li_Request i)) (li_Completions i).

Definition requests (q : zone_queue) : list thermal_request := map li_Request (iq_Irps q).

(** The IRP has passed the checks that come before the lock. *)
Definition admitted (rs : list thermal_request) (id : nat) : Prop :=
  exists r, rs !! id = Some r /\ thermal_check Target r = Some None.

Definition snapshot_ok (back : bool) (Stamp : Z) (Snapshot : UACPINT_THERMAL_INFO) : Prop :=
  reading_ok Snapshot /\ is_ulong Stamp /\ (back = true -> info_ok Snapshot).

Definition reply_task_ok (rs : list thermal_request) (t : zone_task) : Prop :=
  match t with
  | ThRequest id | ThDecide id _ => admitted rs id
  | ThCopying _ ids Stamp words => Forall (admitted rs) ids /\ is_ulong Stamp /\ words_ok words /\ (length words <= info_size)%nat
  | ThCompleting back ids Stamp Snapshot => Forall (admitted rs) ids /\ snapshot_ok back Stamp Snapshot
  | ThDescribing back id ids Stamp Snapshot _ _ => Forall (admitted rs) (id :: ids) /\ snapshot_ok back Stamp Snapshot /\
      from_win10 Target = true /\ exists r, rs !! id = Some r /\ tr_Code r = IOCTL_UACPINT_THERMAL_DESCRIPTION
  | ThAnswer _ Status => Status <> STATUS_SUCCESS
  | _ => True
  end.

Record replies_ok (y : zone_system) : Prop := {
  rp_data : data_ok (zs_Data y);
  rp_stamp : is_ulong (zg_ThermalStamp (zs_Gate y));
  rp_tasks : Forall (reply_task_ok (requests (zs_Queue y))) (zs_Tasks y);
  rp_list : Forall (admitted (requests (zs_Queue y))) (iq_List (zs_Queue y));
  rp_irps : Forall irp_fits (iq_Irps (zs_Queue y))
}.

(** ** The queue *)

Lemma requests_alter f id (q : zone_queue) : (forall i, li_Request (f i) = li_Request i) -> requests (iq_alter f id q) = requests q.
Proof.
  intros Hf. unfold requests, iq_alter. simpl. generalize (iq_Irps q). intros l. revert id.
  induction l as [|x l IH]; intros [|id]; try done; simpl; f_equal; [by rewrite Hf|apply IH].
Qed.

Lemma fits_alter f id (q : zone_queue) : (forall i, irp_fits i -> irp_fits (f i)) ->
  Forall irp_fits (iq_Irps q) -> Forall irp_fits (iq_Irps (iq_alter f id q)).
Proof. intros Hf H. unfold iq_alter. simpl. apply Forall_alter; auto. Qed.

Lemma unlink_irps id (q : zone_queue) : iq_Irps (unlink id q) = iq_Irps q.
Proof. unfold unlink. destruct (existsb _ _); [done|]. destruct (iq_Irps q !! id) as [i|]; [by destruct (li_SelfLinked i)|done]. Qed.

Lemma unlink_subset (P : nat -> Prop) id (q : zone_queue) : Forall P (iq_List q) -> Forall P (iq_List (unlink id q)).
Proof.
  intros H. unfold unlink. destruct (existsb _ _).
  - simpl. rewrite List.Forall_forall in *. intros x Hx. by apply H, (in_unlink_first _ id).
  - destruct (iq_Irps q !! id) as [i|]; [by destruct (li_SelfLinked i)|done].
Qed.

(** The queue has the same requests, its list fewer, its replies are in order. *)
Definition queue_fits (P : nat -> Prop) (q q' : zone_queue) : Prop :=
  requests q' = requests q /\ Forall P (iq_List q') /\ Forall irp_fits (iq_Irps q').

Lemma take_fits P id (q : zone_queue) : Forall P (iq_List q) -> Forall irp_fits (iq_Irps q) ->
  queue_fits P q (take_routine id q).2.
Proof. intros Hl Hi. split_and!; [by apply requests_alter|done|by apply fits_alter]. Qed.

Lemma unlink_fits P id (q : zone_queue) : Forall P (iq_List q) -> Forall irp_fits (iq_Irps q) -> queue_fits P q (unlink id q).
Proof. intros Hl Hi. unfold queue_fits, requests. rewrite unlink_irps. split_and!; [done|by apply unlink_subset|done]. Qed.

Lemma fits_trans P q1 q2 q3 : queue_fits P q1 q2 -> queue_fits P q2 q3 -> queue_fits P q1 q3.
Proof. intros (E & _) (E' & H). split; [congruence|done]. Qed.

Lemma collect_fits P Entries : forall Completed HadQuery (q : zone_queue) Completed' HadQuery' q',
  Forall P Entries -> Forall P Completed -> Forall P (iq_List q) -> Forall irp_fits (iq_Irps q) ->
  collect Entries Completed HadQuery q = (Completed', HadQuery', q') -> Forall P Completed' /\ queue_fits P q q'.
Proof.
  induction Entries as [|id l IH]; intros Done Had q Done' Had' q' He Hd Hl Hi E; simpl in E; [by simplify_eq|].
  apply Forall_cons in He as [Hp He]. assert (Forall P (Done ++ [id])) as Hd' by (apply Forall_app; by repeat constructor).
  destruct (is_query (request_of id q)).
  - pose proof (take_fits P id q Hl Hi) as Ht. unfold take_routine in Ht. simpl in Ht. destruct Ht as (E1 & Hl1 & Hi1).
    destruct (routine_set id q).
    + destruct (unlink_fits P id _ Hl1 Hi1) as (E2 & Hl2 & Hi2). apply IH in E as [? Hq]; try done. split; [done|].
      eapply fits_trans; [split; [exact E1|by split]|]. eapply fits_trans; [split; [exact E2|by split]|exact Hq].
    + apply IH in E as [? Hq]; try done. split; [done|]. eapply fits_trans; [split; [exact E1|by split]|exact Hq].
  - destruct (unlink_fits P id _ Hl Hi) as (E2 & Hl2 & Hi2). apply IH in E as [? Hq]; try done. split; [done|].
    eapply fits_trans; [split; [exact E2|by split]|exact Hq].
Qed.

Lemma complete_fits P id st n o (q : zone_queue) : (forall r, requests q !! id = Some r -> reply_fits r (st, n, o)) ->
  Forall P (iq_List q) -> Forall irp_fits (iq_Irps q) -> queue_fits P q (complete_irp id st n o q).
Proof.
  intros Hr Hl Hi. split_and!; [by apply requests_alter|done|]. unfold complete_irp, iq_alter. simpl.
  apply Forall_alter; [done|]. intros i Hx Hk. constructor; [|done]. apply Hr. unfold requests. by rewrite list_lookup_fmap, Hx.
Qed.

(** ** The zone's data *)

Lemma fill_query_length Stamp i : reading_ok i -> Z.of_nat (length (UacpiNtThermalFillQuery Target Stamp i)) = sizeof_query Target.
Proof.
  intros [Hl _]. destruct i as [c1 c2 sp ct pt st cr s4 n l mt ot pr]. simpl in *.
  do 10 (destruct l as [|? l]; [done|]). destruct l; [|done]. by destruct Target.
Qed.

(** What the worker knows of the data before each of its steps. *)
Definition step_knows (k : nat) (Work : Z) (z : zone_data) : Prop :=
  if (k <? init_steps)%nat then init_knows k z /\ ((0 < k)%nat -> has_flag Work UACPINT_THERMAL_WORK_INIT = true)
  else if (k <? trips_first)%nat then settled z
  else if (k <? active_step)%nat then
    trip_knows (k - trips_first) z /\ ((trips_first < k)%nat -> has_flag Work UACPINT_THERMAL_WORK_TRIPS = true)
  else settled z.
Definition worker_knows (z : zone_data) (t : zone_task) : Prop :=
  match t with
  | ThStep k Work _ _ => step_knows k Work z
  | ThCopying true _ _ words => settled z /\ words = take (length words) (info_words (zd_Info z))
  | ThDescribing true _ _ _ _ stage c => settled z /\ exists d, zd_Description z = Some d /\ dc_Block c = us_MaximumLength d /\
      ((0 < stage)%nat -> dc_Bytes c = take (Z.to_nat (us_MaximumLength d)) (us_Buffer d)) /\
      ((1 < stage)%nat -> dc_Length c = us_Length d)
  | _ => worker_thread t = 1%nat -> settled z
  end.

Lemma other_knows z t : worker_thread t = 0%nat -> worker_knows z t.
Proof. destruct t as [| | | | | | | | | | | |[|]|[|]|[|]|[|]| | |]; simpl; done. Qed.

Lemma settled_step z k Work : settled z -> (k = 0 \/ k = policy_step \/ k = trips_first \/ active_step <= k)%nat -> step_knows k Work z.
Proof.
  intros H Hk. unfold step_knows.
  assert (active_step = 37 /\ trips_first = 6 /\ policy_step = 5 /\ init_steps = 5)%nat as (E2 & E3 & E4 & E5) by done.
  destruct (Nat.ltb_spec k init_steps); [split; [|lia]; assert (k = 0%nat) as -> by lia; by apply settled_init|].
  destruct (Nat.ltb_spec k trips_first); [done|]. destruct (Nat.ltb_spec k active_step); [|done].
  split; [|lia]. assert (k = trips_first) as -> by lia. rewrite Nat.sub_diag. by apply settled_trips.
Qed.

Lemma zone_step_knows k Work p f y : data_ok (zs_Data y) -> step_knows k Work (zs_Data y) ->
  let '(y', k') := zone_step Target Node ActiveProcessors k Work p f y in data_ok (zs_Data y') /\ step_knows k' Work (zs_Data y').
Proof.
  intros Hd Hk.
  assert (last_step = 38 /\ active_step = 37 /\ trips_first = 6 /\ policy_step = 5 /\ init_steps = 5 /\ trip_steps = 31)%nat
    as (E1 & E2 & E3 & E4 & E5 & E6) by done.
  unfold zone_step. unfold step_knows in Hk.
  destruct (Nat.ltb_spec k init_steps) as [H1|H1].
  { destruct Hk as [Hk Hf]. destruct (has_flag Work UACPINT_THERMAL_WORK_INIT) eqn:Ef.
    - destruct (init_step _ _ _ _ _ _) as [ [ [d h] w] k'] eqn:E. pose proof (init_step_next _ _ _ _ _ _ _ _ _ _ E H1) as Hn.
      apply init_step_knows in E as [Hd' Hk']; [|done|done]. simpl. split; [done|].
      destruct (decide (k' = init_steps)) as [->|Hne]; [apply settled_step; [done|lia]|].
      unfold step_knows. rewrite (proj2 (Nat.ltb_lt k' init_steps)) by lia. by split.
    - split; [done|]. assert (k = 0%nat) as -> by (destruct k; [done|]; by specialize (Hf ltac:(lia))).
      apply settled_step; [by apply settled_init|lia]. }
  destruct (Nat.ltb_spec k trips_first) as [H2|H2].
  { assert (settled (zs_Data y)) as Hs by done. destruct (has_flag Work UACPINT_THERMAL_WORK_POLICY); simpl; (split; [done|apply settled_step; [done|lia] ]). }
  destruct (Nat.ltb_spec k active_step) as [H3|H3].
  { destruct Hk as [Hk Hf]. destruct (has_flag Work UACPINT_THERMAL_WORK_TRIPS) eqn:Ef.
    - destruct (trip_step _ _ _ _ _ _) as [ [d h] j] eqn:E. pose proof (trip_step_next _ _ _ _ _ _ _ _ _ E ltac:(lia)) as Hn.
      apply trip_step_knows in E as [Hd' Hk']; [|lia|done|done]. cbn [zs_Data zs_set_Data fst snd]. split; [done|].
      destruct (decide (j = trip_steps)) as [->|Hne]; [apply settled_step; [by apply settled_trips_end|lia]|].
      unfold step_knows. rewrite (proj2 (Nat.ltb_ge (trips_first + j) init_steps)), (proj2 (Nat.ltb_ge (trips_first + j) trips_first)),
        (proj2 (Nat.ltb_lt (trips_first + j) active_step)) by lia.
      replace (trips_first + j - trips_first)%nat with j by lia. by split.
    - split; [done|]. assert (k = trips_first) as -> by (destruct (decide (k = trips_first)); [done|]; by specialize (Hf ltac:(lia))).
      rewrite Nat.sub_diag in Hk. apply settled_step; [by apply settled_trips|lia]. }
  assert (settled (zs_Data y)) as Hs by done.
  destruct (has_flag Work UACPINT_THERMAL_WORK_ACTIVE); simpl; (split; [done|apply settled_step; [done|lia] ]).
Qed.

Lemma last_step_knows k Work z : step_knows k Work z -> (last_step <= k)%nat -> settled z.
Proof.
  unfold step_knows. intros H Hk. assert (last_step = 38 /\ active_step = 37 /\ trips_first = 6 /\ init_steps = 5)%nat as (E1 & E2 & E3 & E5) by done.
  by rewrite (proj2 (Nat.ltb_ge k init_steps)), (proj2 (Nat.ltb_ge k trips_first)), (proj2 (Nat.ltb_ge k active_step)) in H by lia.
Qed.

Lemma after_step_knows k Work p f z : step_knows k Work z -> worker_knows z (after_step k Work p f).
Proof.
  intros H. unfold after_step. destruct (Nat.ltb_spec k last_step); [done|]. apply last_step_knows in H; [|lia].
  unfold after_reading. destruct (has_flag Work W_TEMPERATURE), (has_flag Work W_COMPLETE); by intros ?.
Qed.

(** *** The data and the threads *)

Definition data_knows (z : zone_data) (ts : list zone_task) : Prop :=
  Forall (worker_knows z) ts /\ (list_weight worker_thread ts = 0%nat -> settled z).

Lemma others_know z ts : list_weight worker_thread ts = 0%nat -> Forall (worker_knows z) ts.
Proof.
  induction ts as [|t ts IH]; [constructor|]. rewrite weight_cons. intros H. constructor; [apply other_knows|apply IH]; lia.
Qed.

(** A turn of the worker, with what comes of it; a turn of another thread. *)
Lemma worker_turn_knows l t g f q y y' : zone_sound g f q (t :: zs_Tasks y) -> worker_thread t = 1%nat ->
  zs_Tasks y' = l ++ zs_Tasks y -> Forall (worker_knows (zs_Data y')) l -> (list_weight worker_thread l = 0%nat -> settled (zs_Data y')) ->
  data_knows (zs_Data y') (zs_Tasks y').
Proof.
  intros S Hw Et Hl Hs. pose proof (zo_one _ _ _ _ S) as H1. rewrite weight_cons, Hw in H1.
  assert (list_weight worker_thread (zs_Tasks y) = 0%nat) as H0 by (destruct (zg_Running g); simpl in H1; lia).
  rewrite Et. split; [apply Forall_app; split; [done|by apply others_know]|]. rewrite weight_app. intros. apply Hs. lia.
Qed.

Lemma other_turn_knows l t y y' : data_knows (zs_Data y) (t :: zs_Tasks y) -> zone_good y' -> worker_thread t = 0%nat ->
  zs_Tasks y' = l ++ zs_Tasks y -> zs_Data y' = zs_Data y ->
  Forall (fun t' => worker_thread t' = 0%nat \/ t' = ThQueueWorker) l -> data_knows (zs_Data y') (zs_Tasks y').
Proof.
  intros [Hk Hs] S Hw Et Ed Hl. pose proof (zo_one _ _ _ _ S) as H1. rewrite Et, weight_app in H1. rewrite Et, Ed.
  apply Forall_cons in Hk as [_ Hk]. rewrite weight_cons, Hw in Hs.
  assert (list_weight worker_thread l <> 0%nat -> settled (zs_Data y)) as Hq.
  { intros Hn. apply Hs. destruct (zg_Running (zs_Gate y')); simpl in H1; lia. }
  split; [apply Forall_app; split; [|done]|].
  - apply List.Forall_forall. intros t' Hi. rewrite List.Forall_forall in Hl. destruct (Hl t' Hi) as [H0| ->]; [by apply other_knows|].
    intros _. apply Hq. apply in_split in Hi as (l1 & l2 & ->). rewrite weight_app, weight_cons. simpl. lia.
  - rewrite weight_app. intros. apply Hs. lia.
Qed.

(** ** The replies *)

Lemma check_sizes r : thermal_check Target r = Some None -> exists Is Os, UacpiNtThermalRequestSizes Target (tr_Code r) = Some (Is, Os) /\
  (Is <> 0 \/ Os <> 0 -> tr_Buffer r = true) /\ Os <= tr_OutputLength r.
Proof.
  unfold thermal_check. intros E. destruct (UacpiNtThermalRequestSizes Target (tr_Code r)) as [ [Is Os]|]; [|done].
  exists Is, Os. split; [done|]. destruct (negb (tr_KernelMode r)); [done|].
  destruct (negb (tr_Buffer r) && _) eqn:Eb; simpl in E; [done|].
  destruct (Z.ltb_spec (tr_InputLength r) Is); simpl in E; [done|]. destruct (Z.ltb_spec (tr_OutputLength r) Os); [done|].
  split; [|lia]. intros Hz. destruct (tr_Buffer r); [done|]. simpl in Eb. apply orb_false_elim in Eb as [E1 E2]. bool_prop. lia.
Qed.

Lemma description_sizes : from_win10 Target = true ->
  UacpiNtThermalRequestSizes Target IOCTL_UACPINT_THERMAL_DESCRIPTION = Some (0, 16).
Proof.
  intros H. unfold UacpiNtThermalRequestSizes. pose proof thermal_codes_differ as Hn.
  repeat rewrite NoDup_cons in Hn. rewrite !not_elem_of_cons in Hn. destruct Hn as (H1 & H2 & H3 & H4 & _).
  destruct H1 as (_ & _ & _ & H1 & _), H2 as (_ & _ & H2 & _), H3 as (_ & H3 & _), H4 as (H4 & _).
  rewrite !(proj2 (Z.eqb_neq _ _)) by congruence. by rewrite H, andb_false_r, Z.eqb_refl.
Qed.

(** The thread that comes of a turn, with the replies in order. *)
Definition turn_fits (y y' : zone_system) : Prop :=
  exists t, zs_Tasks y' = t :: zs_Tasks y /\ reply_task_ok (requests (zs_Queue y)) t /\
    queue_fits (admitted (requests (zs_Queue y))) (zs_Queue y) (zs_Queue y').

Lemma finish_fits id o n t (y : zone_system) : (forall r, requests (zs_Queue y) !! id = Some r -> reply_fits r (STATUS_SUCCESS, n, o)) ->
  reply_task_ok (requests (zs_Queue y)) t -> Forall (admitted (requests (zs_Queue y))) (iq_List (zs_Queue y)) ->
  Forall irp_fits (iq_Irps (zs_Queue y)) -> turn_fits y (zs_spawn [t] (finish_one id o n y)).
Proof. intros Hr Ht Hl Hi. exists t. split_and!; [done|done|by apply complete_fits]. Qed.

(** A request that asks for the description, with room for it. *)
Lemma description_fits r worker d : tr_Code r = IOCTL_UACPINT_THERMAL_DESCRIPTION -> from_win10 Target = true ->
  thermal_check Target r = Some None -> (worker = true -> forall c, d = Some c -> copy_exact c) ->
  reply_fits r (STATUS_SUCCESS, 16, Some (OutDescription worker d)).
Proof.
  intros Ec Hw Hr Hd. apply check_sizes in Hr as (Is & Os & Hz & Hb & Ho). rewrite Ec, description_sizes in Hz by done. simplify_eq.
  split_and!; try done. apply Hb. by right.
Qed.

Lemma request_known id r (q : zone_queue) : requests q !! id = Some r -> request_of id q = r.
Proof. unfold request_of, requests. rewrite list_lookup_fmap. destruct (iq_Irps q !! id); intros; by simplify_eq/=. Qed.

Lemma complete_one_fits back id ids Stamp Snapshot y : Forall (admitted (requests (zs_Queue y))) (id :: ids) ->
  snapshot_ok back Stamp Snapshot -> Forall (admitted (requests (zs_Queue y))) (iq_List (zs_Queue y)) ->
  Forall irp_fits (iq_Irps (zs_Queue y)) -> turn_fits y (complete_one Target back id ids Stamp Snapshot y).
Proof.
  intros Ha (Hi & Hs & Hb) Hl Hq. pose proof Ha as Ha'. apply Forall_cons in Ha' as [ (r & Hr & Hc) Hids].
  assert (reply_task_ok (requests (zs_Queue y)) (ThCompleting back ids Stamp Snapshot)) as Hn by (by split_and!).
  unfold complete_one. rewrite (request_known _ _ _ Hr).
  destruct (Z.eqb_spec (tr_Code r) IOCTL_THERMAL_QUERY_INFORMATION) as [E1|E1].
  - apply finish_fits; try done. intros r' Hr'. simplify_eq. apply check_sizes in Hc as (Is & Os & Hz & Hbuf & Ho).
    unfold UacpiNtThermalRequestSizes in Hz. rewrite E1, Z.eqb_refl in Hz. simplify_eq.
    pose proof (fill_query_length Stamp Snapshot Hi) as Hf. split_and!; try done.
    + unfold is_query. by rewrite E1, Z.eqb_refl.
    + apply Hbuf. by left.
    + by exists Stamp, Snapshot.
  - destruct (from_win10 Target && _) eqn:Ed.
    + apply andb_prop in Ed as [Ew Ed]. bool_prop.
      assert (forall z, turn_fits y (zs_spawn [ThCompleting back ids Stamp Snapshot] (finish_one id (Some (OutDescription back None)) 16 (zs_set_World z y)))) as Hnone.
      { intros z. exists (ThCompleting back ids Stamp Snapshot). split_and!; [done|done|]. apply complete_fits; try done.
        intros r' Hr'. assert (r' = r) as -> by (simpl in Hr'; congruence). by apply description_fits. }
      destruct (zd_Description (zs_Data y)) as [d|]; [|exact (Hnone (zs_World y))].
      destruct (ExAllocatePoolWithTag _ _) as [ok w]. destruct ok; [|exact (Hnone w)].
      eexists. split; [reflexivity|]. split; [|by split_and!]. split_and!; try done. by exists r.
    + apply finish_fits; try done. intros r' Hr'. simplify_eq. split; [done|]. intros _. unfold is_query. by apply Z.eqb_neq.
Qed.

(** The worker's copies, while they are made and when they are done. *)
Lemma copy_word_fits rs back ids Stamp words y : reply_task_ok rs (ThCopying back ids Stamp words) -> data_ok (zs_Data y) ->
  worker_knows (zs_Data y) (ThCopying back ids Stamp words) ->
  reply_task_ok rs (copy_word back ids Stamp words y) /\ worker_knows (zs_Data y) (copy_word back ids Stamp words y).
Proof.
  intros (Ha & Hs & Hw & Hn) [ [Hl Hr] _] Hk. pose proof (length_info_words _ Hl) as Hlen. unfold copy_word.
  destruct (Nat.ltb_spec (length words) info_size) as [Hlt|Hge].
  - destruct (nth_lookup_or_length (info_words (zd_Info (zs_Data y))) (length words) 0) as [Hv|?]; [|lia]. split.
    + split_and!; [done|done| |rewrite length_app; simpl; lia]. intros n v Hx. apply lookup_app_Some in Hx as [Hx|[Hx1 Hx] ]; [by apply Hw|].
      apply list_lookup_singleton_Some in Hx as [Hx <-]. apply Hr. by replace n with (length words) by lia.
    + destruct back; [|done]. destruct Hk as [Hk Hc]. split; [done|]. rewrite length_app. simpl length. rewrite Nat.add_1_r.
      by rewrite (take_S_r _ _ _ Hv), <- Hc.
  - assert (length words = info_size) as Hfull by lia. split.
    + split; [done|]. split; [by apply reading_of_words|]. split; [done|]. intros ->. destruct Hk as [ [Hi _] Hc].
      rewrite Hc, Hfull, take_ge by lia. by rewrite words_info.
    + destruct back; [|done]. intros _. exact (proj1 Hk).
Qed.

Lemma describe_one_fits back id ids Stamp Snapshot stage Output y :
  reply_task_ok (requests (zs_Queue y)) (ThDescribing back id ids Stamp Snapshot stage Output) ->
  worker_knows (zs_Data y) (ThDescribing back id ids Stamp Snapshot stage Output) ->
  Forall (admitted (requests (zs_Queue y))) (iq_List (zs_Queue y)) -> Forall irp_fits (iq_Irps (zs_Queue y)) ->
  turn_fits y (describe_one back id ids Stamp Snapshot stage Output y).
Proof.
  intros (Ha & Hs & Hw & r & Hr & Hc) Hk Hl Hi. pose proof Ha as Ha'. apply Forall_cons in Ha' as [ (r' & Hr' & Hck) Hids]. simplify_eq.
  unfold describe_one. destruct stage as [|[|stage] ]; [by eexists; split_and!; [done|split_and!; try done; by exists r|..]..|].
  apply finish_fits; [|by split_and!|done|done]. intros r' ?. simplify_eq. apply description_fits; try done.
  intros -> c ?. simplify_eq. destruct Hk as ((_ & Hd) & d & Ed & Eb & Hy & Hn). rewrite Ed. simpl.
  destruct (description_lengths d (Hd d Ed)) as (E1 & E2 & E3 & E4). specialize (Hy ltac:(lia)). specialize (Hn ltac:(lia)).
  split_and!; cbn [dc_Block dc_Bytes dc_Length dc_MaximumLength]; [|congruence|lia|].
  - rewrite Hy, length_take. lia.
  - rewrite Hy, E4. by eexists.
Qed.

(** ** Every turn keeps them *)

Lemma replies_frame l t y y' : Forall (reply_task_ok (requests (zs_Queue y))) (t :: zs_Tasks y) ->
  data_ok (zs_Data y') -> is_ulong (zg_ThermalStamp (zs_Gate y')) ->
  queue_fits (admitted (requests (zs_Queue y))) (zs_Queue y) (zs_Queue y') -> zs_Tasks y' = l ++ zs_Tasks y ->
  Forall (reply_task_ok (requests (zs_Queue y))) l -> replies_ok y'.
Proof.
  intros Ht Hd Hs (Er & Hl & Hi) Et Hn. apply Forall_cons in Ht as [_ Ht]. split; [done|done|rewrite Er, Et; by apply Forall_app|by rewrite Er|done].
Qed.

Lemma same_fits (y : zone_system) : Forall (admitted (requests (zs_Queue y))) (iq_List (zs_Queue y)) ->
  Forall irp_fits (iq_Irps (zs_Queue y)) -> queue_fits (admitted (requests (zs_Queue y))) (zs_Queue y) (zs_Queue y).
Proof. intros Hl Hi. by split_and!. Qed.

Lemma add_work_replies Work y : replies_ok y -> replies_ok (add_work Work y).
Proof.
  intros [Hd Hs Ht Hl Hi]. unfold add_work, UacpiNtThermalAddWork. destruct ((_ =? 0) || _); simpl; split; simpl; try done.
  by constructor.
Qed.

Lemma replies_link id (y : zone_system) b : replies_ok y -> admitted (requests (zs_Queue y)) id ->
  replies_ok (zs_set_Queue (link_tail id (zs_Queue y)) b y).
Proof. intros [Hd Hs Ht Hl Hi] Ha. split; simpl; try done. apply Forall_app. by repeat constructor. Qed.

Lemma drop_replies t y : data_ok (zs_Data y) -> is_ulong (zg_ThermalStamp (zs_Gate y)) ->
  Forall (reply_task_ok (requests (zs_Queue y))) (t :: zs_Tasks y) -> Forall (admitted (requests (zs_Queue y))) (iq_List (zs_Queue y)) ->
  Forall irp_fits (iq_Irps (zs_Queue y)) -> replies_ok y.
Proof. intros Hd Hs Ht Hl Hi. apply Forall_cons in Ht as [_ Ht]. by split. Qed.

Lemma enter_replies id y : replies_ok y -> admitted (requests (zs_Queue y)) id -> replies_ok (request_enter Target id y).
Proof.
  intros R Ha. unfold request_enter. destruct (negb _).
  { destruct R as [Hd Hs Ht Hl Hi]. split; simpl; try done. by constructor. }
  destruct (request_work Target _ _) as [Work g] eqn:Er. apply request_work_whole in Er as (_ & _ & _ & _ & _ & Es & _).
  assert (replies_ok (zs_set_Gate g y)) as R' by (destruct R as [Hd Hs Ht Hl Hi]; split; try done; simpl; by rewrite Es).
  destruct (is_query _).
  - destruct R' as [Hd Hs Ht Hl Hi]. split; simpl in *; try done; unfold set_routine; rewrite ?requests_alter by done; try done.
    + by constructor.
    + by apply fits_alter.
  - by apply add_work_replies, replies_link.
Qed.

Lemma decide_replies id Work y : replies_ok y -> admitted (requests (zs_Queue y)) id -> replies_ok (request_decide id Work y).
Proof.
  intros R Ha. unfold request_decide, insert_unless_cancelled. destruct (_ && _); [|by apply add_work_replies, replies_link].
  destruct R as [Hd Hs Ht Hl Hi]. split; simpl in *; rewrite ?requests_alter by done; try done; [by constructor|by apply fits_alter].
Qed.

Lemma zone_turn_replies granted t y y' : data_ok (zs_Data y) -> worker_knows (zs_Data y) t -> is_ulong (zg_ThermalStamp (zs_Gate y)) ->
  Forall (reply_task_ok (requests (zs_Queue y))) (t :: zs_Tasks y) -> Forall (admitted (requests (zs_Queue y))) (iq_List (zs_Queue y)) ->
  Forall irp_fits (iq_Irps (zs_Queue y)) -> zone_turn Target Node ActiveProcessors granted t y = Some y' -> replies_ok y'.
Proof.
  intros Hd Hk Hs Ht Hl Hi E. pose proof (drop_replies t y Hd Hs Ht Hl Hi) as R. pose proof (same_fits y Hl Hi) as Hf.
  pose proof Ht as Hg. apply Forall_cons in Hg as [Hg _].
  destruct t as [id|id Work|id st|id|id|id| | | |k Work p f|Work|Work|back|back ids Stamp words|back ids Stamp Snapshot|back id ids Stamp Snapshot stage Output|Work| |];
    simpl in E, Hg; try apply zone_locking in E as [El ->]; simplify_eq/=.
  - by apply enter_replies.
  - by apply decide_replies.
  - eapply (replies_frame []); [exact Ht|done|done| |done|constructor]. by apply complete_fits.
  - eapply (replies_frame (if routine_set id (zs_Queue y) then [ThCancel id] else [])); [exact Ht|done|done| |done|].
    + exact (take_fits _ id _ Hl Hi).
    + destruct (routine_set _ _); by repeat constructor.
  - eapply (replies_frame [_]); [exact Ht|done|done|by apply unlink_fits|done|by repeat constructor].
  - eapply (replies_frame []); [exact Ht|done|done| |done|constructor]. by apply complete_fits.
  - eapply (replies_frame [_]); [exact Ht|done|done|done|done|]. destruct granted; by repeat constructor.
  - eapply (replies_frame []); [exact Ht|done|done|done|done|constructor].
  - unfold worker_top. destruct (_ =? 0); [by eapply (replies_frame []); [exact Ht|..]|].
    eapply (replies_frame [_]); [exact Ht|done|done|done|done|by repeat constructor].
  - destruct (zone_step_frame Target Node ActiveProcessors k Work p f y) as (Eq & Ek & Et & Eg & _).
    pose proof (zone_step_knows k Work p f y Hd Hk) as Hn. destruct (zone_step Target Node ActiveProcessors k Work p f y) as [y1 k1]. simplify_eq/=.
    eapply (replies_frame [_]); [exact Ht|exact (proj1 Hn)|simpl; by rewrite Eg|simpl; by rewrite Eq|simpl; by rewrite Et|].
    repeat constructor. unfold after_step, after_reading. by repeat case_match.
  - eapply (replies_frame [_]); [exact Ht|done|apply u32_ulong|done|done|by repeat constructor].
  - destruct (read_temperature _ _ _ _) as [d h] eqn:Et. apply temperature_knows in Et as [Hd' _]; [|done|exact (Hk eq_refl)]. simplify_eq.
    eapply (replies_frame [_]); [exact Ht|done|done|done|done|]. repeat constructor. unfold after_reading. by case_match.
  - unfold complete_irps. destruct (collect _ _ _ _) as [ [ids Had] q] eqn:Ec.
    apply (collect_fits (admitted (requests (zs_Queue y)))) in Ec as [Hc Hq]; try done.
    eapply (replies_frame [_]); [exact Ht|done|done|exact Hq|done|]. constructor; [|constructor]. split_and!; [done|done|by intros ? ?|apply Nat.le_0_l].
  - destruct (copy_word_fits _ _ _ _ _ y Hg Hd Hk) as [Hn _].
    eapply (replies_frame [_]); [exact Ht|done|done|done|done|by constructor].
  - destruct Hg as (Hids & Hsn). destruct ids as [|id ids]; simplify_eq.
    + eapply (replies_frame (if back then [ThWorker] else [])); [exact Ht|done|done|done|done|]. destruct back; by repeat constructor.
    + destruct (complete_one_completes Target back id ids Stamp Snapshot y) as (_ & Eg & _ & Ed & _).
      destruct (complete_one_fits back id ids Stamp Snapshot y Hids Hsn Hl Hi) as (t & Et & Hn & Hq).
      eapply (replies_frame [t]); [exact Ht|by rewrite Ed|by rewrite Eg|exact Hq|exact Et|by constructor].
  - destruct (describe_one_completes back id ids Stamp Snapshot stage Output y) as (_ & Eg & _ & Ed & _).
    destruct (describe_one_fits back id ids Stamp Snapshot stage Output y Hg Hk Hl Hi) as (t & Et & Hn & Hq).
    eapply (replies_frame [t]); [exact Ht|by rewrite Ed|by rewrite Eg|exact Hq|exact Et|by constructor].
  - destruct (zg_Active (zs_Gate y)); [by apply add_work_replies|done].
  - unfold zone_start. destruct (zg_Active (zs_Gate y)); [done|]. apply add_work_replies. destruct R. by split.
  - eapply (replies_frame [_]); [exact Ht|done|done|done|done|by repeat constructor].
Qed.

(** *** What the worker knows *)

(** A turn beside the worker: the data stay, and at most the worker is asked for. *)
Definition beside (y y' : zone_system) : Prop :=
  exists l, zs_Tasks y' = l ++ zs_Tasks y /\ zs_Data y' = zs_Data y /\ Forall (fun t => worker_thread t = 0%nat \/ t = ThQueueWorker) l.

Lemma beside_none y y' : zs_Tasks y' = zs_Tasks y -> zs_Data y' = zs_Data y -> beside y y'.
Proof. intros Et Ed. by exists []. Qed.

Lemma beside_one t y y' : zs_Tasks y' = t :: zs_Tasks y -> zs_Data y' = zs_Data y -> worker_thread t = 0%nat -> beside y y'.
Proof. intros Et Ed Hw. exists [t]. split_and!; [done|done|]. constructor; [by left|done]. Qed.

Lemma beside_work Work y y1 : zs_Tasks y1 = zs_Tasks y -> zs_Data y1 = zs_Data y -> beside y (add_work Work y1).
Proof.
  intros Et Ed. unfold beside, add_work. destruct (UacpiNtThermalAddWork Work (zs_Gate y1)) as [b g].
  destruct b; [exists [ThQueueWorker]|exists []]; simpl; rewrite Et; split_and!; try done. constructor; [by right|done].
Qed.

Lemma beside_completes id ids y y' : completes false id ids y y' -> beside y y'.
Proof. intros (_ & _ & _ & Ed & [(n & o & S & I & _ & Et)|(n & o & S & I & _ & Et)]); by eapply beside_one. Qed.

Lemma turn_beside granted t y y' : worker_thread t = 0%nat -> zone_turn Target Node ActiveProcessors granted t y = Some y' -> beside y y'.
Proof.
  intros Hw E.
  destruct t as [id|id Work|id st|id|id|id| | | |k Work p f|Work|Work|back|back ids Stamp words|back ids Stamp Snapshot|back id ids Stamp Snapshot stage Output|Work| |];
    try (destruct back; [discriminate Hw|]); try discriminate Hw;
    cbn [zone_turn] in E; try apply zone_locking in E as [El ->]; try (injection E as <-); try by apply beside_none.
  - unfold request_enter. destruct (negb _); [by eapply beside_one|]. destruct (request_work Target _ _) as [Work g].
    destruct (is_query _); [by eapply beside_one|by apply beside_work].
  - unfold request_decide. destruct (insert_unless_cancelled id (zs_Queue y)) as [b q]. destruct b; [by apply beside_work|by eapply beside_one].
  - destruct (routine_set id (zs_Queue y)); [by eapply beside_one|by apply beside_none].
  - by eapply beside_one.
  - unfold complete_irps. destruct (collect _ _ _ _) as [ [ids Had] q]. by eapply beside_one.
  - eapply beside_one; [done|done|]. unfold copy_word. by destruct (_ <? _)%nat.
  - destruct ids as [|id ids]; injection E as <-; [by apply beside_none|]. eapply beside_completes, complete_one_completes.
  - eapply beside_completes, describe_one_completes.
  - destruct (zg_Active _); [by apply beside_work|by apply beside_none].
  - unfold zone_start. destruct (zg_Active _); [by apply beside_none|by apply beside_work].
  - by eapply beside_one.
Qed.

(** A turn of the worker. *)
Definition carried_on (y y' : zone_system) : Prop :=
  exists l, zs_Tasks y' = l ++ zs_Tasks y /\ Forall (worker_knows (zs_Data y')) l /\
    (list_weight worker_thread l = 0%nat -> settled (zs_Data y')).

Lemma carried_one t y y' : zs_Tasks y' = t :: zs_Tasks y -> worker_knows (zs_Data y') t -> worker_thread t = 1%nat -> carried_on y y'.
Proof.
  intros Et Hk Hw. exists [t]. split_and!; [done|by constructor|]. unfold list_weight. simpl. rewrite Hw. lia.
Qed.

Lemma carried_none y y' : zs_Tasks y' = zs_Tasks y -> settled (zs_Data y') -> carried_on y y'.
Proof. intros Et Hs. by exists []. Qed.

Lemma describe_knows id ids Stamp Snapshot stage Output y : worker_knows (zs_Data y) (ThDescribing true id ids Stamp Snapshot stage Output) ->
  carried_on y (describe_one true id ids Stamp Snapshot stage Output y).
Proof.
  intros (Hs & d & Ed & Eb & Hy & Hn). unfold describe_one. rewrite Ed. destruct stage as [|[|stage] ]; (eapply carried_one; [reflexivity| |done]).
  - split; [done|]. exists d. simpl. split_and!; try done. lia.
  - split; [done|]. exists d. simpl. split_and!; try done. intros _. apply Hy. lia.
  - by intros _.
Qed.

Lemma complete_knows id ids Stamp Snapshot y : settled (zs_Data y) -> carried_on y (complete_one Target true id ids Stamp Snapshot y).
Proof.
  intros Hs. unfold complete_one. destruct (_ =? _); [eapply carried_one; [reflexivity|by intros _|done]|].
  destruct (_ && _); [|eapply carried_one; [reflexivity|by intros _|done] ].
  destruct (zd_Description (zs_Data y)) as [d|] eqn:Ed; [|eapply carried_one; [reflexivity|by intros _|done] ].
  destruct (ExAllocatePoolWithTag _ _) as [ok w]. destruct ok; (eapply carried_one; [reflexivity| |done]); [|by intros _].
  split; [done|]. exists d. simpl. split_and!; try done; lia.
Qed.

Lemma turn_carried granted t y y' : worker_thread t = 1%nat -> data_ok (zs_Data y) -> worker_knows (zs_Data y) t ->
  reply_task_ok (requests (zs_Queue y)) t -> zone_turn Target Node ActiveProcessors granted t y = Some y' -> carried_on y y'.
Proof.
  intros Hw Hd Hk Hg E.
  destruct t as [| | | | | | | | |k Work p f|Work|Work|back|back ids Stamp words|back ids Stamp Snapshot|back id ids Stamp Snapshot stage Output|Work| |];
    try discriminate Hw; try (destruct back; [|discriminate Hw]);
    cbn [zone_turn] in E; try apply zone_locking in E as [El ->]; try (injection E as <-).
  - specialize (Hk eq_refl). destruct granted; by (eapply carried_one; [reflexivity|by intros _|done]).
  - apply carried_none; [done|exact (Hk eq_refl)].
  - specialize (Hk eq_refl). unfold worker_top. destruct (_ =? 0); [by apply carried_none|].
    eapply carried_one; [reflexivity| |done]. apply settled_step; [done|by left].
  - destruct (zone_step_frame Target Node ActiveProcessors k Work p f y) as (_ & _ & Et & _).
    pose proof (zone_step_knows k Work p f y Hd Hk) as Hn. destruct (zone_step Target Node ActiveProcessors k Work p f y) as [y1 k1].
    injection E as <-. eapply carried_one; [simpl; by rewrite <- Et|apply after_step_knows, Hn|].
    unfold after_step, after_reading. by repeat case_match.
  - eapply carried_one; [reflexivity|exact Hk|done].
  - destruct (read_temperature _ _ _ _) as [d h] eqn:Et. apply temperature_knows in Et as [_ Hs]; [|done|exact (Hk eq_refl)].
    injection E as <-. eapply carried_one; [reflexivity| |]; unfold after_reading; [|by case_match]. case_match; by intros _.
  - unfold complete_irps. destruct (collect _ _ _ _) as [ [ids Had] q]. eapply carried_one; [reflexivity| |done].
    split; [exact (Hk eq_refl)|done].
  - destruct (copy_word_fits _ _ _ _ _ y Hg Hd Hk) as [_ Hn]. eapply carried_one; [reflexivity|exact Hn|].
    unfold copy_word. by destruct (_ <? _)%nat.
  - destruct ids as [|id ids]; injection E as <-; [eapply carried_one; [reflexivity|exact Hk|done]|].
    apply complete_knows. exact (Hk eq_refl).
  - by apply describe_knows.
Qed.

Lemma zone_turn_knows granted t y y' : zone_sound (zs_Gate y) (zs_Failed y) (zs_Queue y) (t :: zs_Tasks y) -> zone_good y' ->
  data_ok (zs_Data y) -> data_knows (zs_Data y) (t :: zs_Tasks y) -> Forall (reply_task_ok (requests (zs_Queue y))) (t :: zs_Tasks y) ->
  zone_turn Target Node ActiveProcessors granted t y = Some y' -> data_knows (zs_Data y') (zs_Tasks y').
Proof.
  intros S S' Hd Hk Hg E. pose proof Hk as [Hw _]. apply Forall_cons in Hw as [Hw _]. apply Forall_cons in Hg as [Hg _].
  assert (worker_thread t = 0%nat \/ worker_thread t = 1%nat) as [H0|H1] by (clear; destruct t as [| | | | | | | | | | | |[]|[]|[]|[]| | |]; auto).
  - apply turn_beside in E as (l & Et & Ed & Hl); [|done]. by eapply other_turn_knows.
  - apply turn_carried in E as (l & Et & Hl & Hs); try done. by eapply worker_turn_knows.
Qed.

(** *** Arrivals *)

Lemma admitted_more rs r id : admitted rs id -> admitted (rs ++ [r]) id.
Proof. intros (x & Hx & Hc). exists x. split; [by apply lookup_app_l_Some|done]. Qed.

Lemma task_ok_more rs r t : reply_task_ok rs t -> reply_task_ok (rs ++ [r]) t.
Proof.
  pose proof (admitted_more rs r) as Hm. destruct t; simpl; try done; try apply Hm.
  - intros (H & ?). split; [|done]. by eapply Forall_impl.
  - intros (H & ?). split; [|done]. by eapply Forall_impl.
  - intros (H & ? & ? & x & Hx & ?). split_and!; [|done|done|]; [by eapply Forall_impl|].
    exists x. split; [by apply lookup_app_l_Some|done].
Qed.

Lemma arrive_replies r t y : replies_ok y -> reply_task_ok (requests (zs_Queue y) ++ [r]) t ->
  replies_ok (zs_spawn [t] (zs_set_Queue (iq_arrive r (zs_Queue y)) (zs_Locked y) y)).
Proof.
  intros [Hd Hs Ht Hl Hi] Hn.
  assert (requests (iq_arrive r (zs_Queue y)) = requests (zs_Queue y) ++ [r]) as Er by (unfold requests; simpl; by rewrite map_app).
  split; simpl; rewrite ?Er; try done.
  - constructor; [done|]. eapply Forall_impl; [exact Ht|]. apply task_ok_more.
  - eapply Forall_impl; [exact Hl|]. apply admitted_more.
  - apply Forall_app. split; [done|]. constructor; constructor.
Qed.

Lemma zone_arrival_replies y y' : replies_ok y -> zone_arrival Target y y' -> replies_ok y'.
Proof.
  intros R Ha. destruct Ha as [r y|id y Hl|Value Work y E|y|y|ps w y].
  - unfold zone_call. destruct (thermal_check Target r) as [ [st|] |] eqn:Ec; [| |done]; apply arrive_replies; try done; simpl.
    + unfold thermal_check in Ec. by repeat case_match; simplify_eq.
    + exists r. split; [|done]. rewrite <- (length_map li_Request (iq_Irps (zs_Queue y))). apply list_lookup_middle. done.
  - destruct R as [Hd Hs Ht Hli Hi]. split; simpl; rewrite ?requests_alter by done; try done; [by constructor|by apply fits_alter].
  - destruct R as [Hd Hs Ht Hli Hi]. split; simpl; try done. by constructor.
  - destruct R as [Hd Hs Ht Hli Hi]. split; simpl; try done. by constructor.
  - destruct R as [Hd Hs Ht Hli Hi]. split; simpl; try done. by constructor.
  - by destruct R.
Qed.

(** What comes leaves the data alone and is no worker. *)
Lemma zone_arrival_knows y y' : data_knows (zs_Data y) (zs_Tasks y) -> zone_arrival Target y y' -> data_knows (zs_Data y') (zs_Tasks y').
Proof.
  intros [Hk Hs] Ha.
  assert (forall t, worker_thread t = 0%nat -> data_knows (zs_Data y) (t :: zs_Tasks y)) as Ht.
  { intros t H0. split; [by constructor; [apply other_knows|]|]. rewrite weight_cons, H0. exact Hs. }
  destruct Ha as [r y|id y Hl|Value Work y E|y|y|ps w y]; try (by apply Ht); [|done].
  unfold zone_call. destruct (thermal_check Target r) as [ [st|] |]; [by apply Ht|by apply Ht|done].
Qed.

(** Together with the invariants of ThermalZone.v. *)
Definition reply_inv (y : zone_system) : Prop := zone_inv y /\ replies_ok y /\ data_knows (zs_Data y) (zs_Tasks y).

Lemma zone_event_replies y y' : reply_inv y -> zone_event Target Node ActiveProcessors y y' -> reply_inv y'.
Proof.
  intros ([K S] & [Hd Hs Ht Hl Hi] & Hk) He. pose proof (zone_event_inv _ _ _ _ _ (conj K S) He) as I'.
  split; [exact I'|]. destruct He as [granted t rest y y1 Hp E]. rewrite Hp in Ht.
  assert (data_knows (zs_Data y) (t :: rest)) as Hk'.
  { destruct Hk as [Hk1 Hk2]. split; [by rewrite <- Hp|]. by rewrite <- (weight_perm _ _ _ Hp). }
  split.
  - pose proof Hk' as [Hw _]. apply Forall_cons in Hw as [Hw _]. by eapply (zone_turn_replies granted t (zs_set_Tasks rest y)).
  - eapply (zone_turn_knows granted t (zs_set_Tasks rest y)); [by eapply zone_sound_perm|apply I'|done|done|done|exact E].
Qed.

Lemma zone_run_replies y y' : reply_inv y -> zone_run Target Node ActiveProcessors y y' -> reply_inv y'.
Proof.
  intros I Hr. induction Hr as [y|y y1 y2 Hr IH He|y y1 y2 Hr IH Ha]; [done|by eapply zone_event_replies; [apply IH|]|].
  destruct (IH I) as (I1 & R1 & K1). split; [|split; [by eapply zone_arrival_replies|by eapply zone_arrival_knows] ].
  eapply (zone_run_inv Target Node ActiveProcessors); [exact I1|]. eapply zrun_arrival; [constructor|done].
Qed.

Lemma zone_created_replies ps s w : reply_inv (zone_created ps s w).
Proof.
  split; [apply zone_created_inv|]. destruct zone_start_settled as [Hd Hs]. split.
  - split; try by constructor. exact Hd.
  - split; [constructor|]. intros _. exact Hs.
Qed.

(** C29.  Whatever runs, every value of a zone's readings stays in its range, and every
    reply ever given fits the buffer of the request it answers: a query that succeeds
    gets exactly the bytes of a reading with every value in range, a description its
    UNICODE_STRING, and nothing else is written.  What the worker itself gives is a
    well-formed reading, with no trip points past their count, and a whole
    description, NUL included, in a block of exactly its length.  A stop answers
    beside the worker, which may be in the middle of its stores: what it gives need
    not be one reading, nor its description whole. *)
Theorem thermal_replies_fit ps s w y : zone_run Target Node ActiveProcessors (zone_created ps s w) y ->
  data_ok (zs_Data y) /\ forall id i c, iq_Irps (zs_Queue y) !! id = Some i -> In c (li_Completions i) -> reply_fits (li_Request i) c.
Proof.
  intros Hr. destruct (zone_run_replies _ _ (zone_created_replies ps s w) Hr) as (_ & [Hd _ _ _ Hi] & _).
  split; [done|]. intros id i c Hx Hc. eapply Forall_lookup_1 in Hi; [|exact Hx]. unfold irp_fits in Hi.
  rewrite List.Forall_forall in Hi. by apply Hi.
Qed.
End Replies.

(** ** Scripts

    A run spelled out: which thread of the list takes its turn, and whether a work
    item can be had; or what comes. *)
Inductive zone_move :=
| ZTask (k : nat) (granted : bool)
| ZCall (r : thermal_request)
| ZCancel (id : nat)
| ZNotify (Value : Z)
| ZStart
| ZStop.

Section Scripts.
Context {A : Acpi} {C : ThermalCodes} (Target : ntddi) (Node : acpi_node) (ActiveProcessors : Z).

Definition zone_move_do (m : zone_move) (y : zone_system) : option zone_system :=
  match m with
  | ZTask k granted =>
      zs_Tasks y !! k ≫= fun t => zone_turn Target Node ActiveProcessors granted t (zs_set_Tasks (delete k (zs_Tasks y)) y)
  | ZCall r => Some (zone_call Target r y)
  | ZCancel id =>
      if (id <? length (iq_Irps (zs_Queue y)))%nat
      then Some (zs_spawn [ThIoCancel id] (zs_set_Queue (iq_alter li_set_Cancel id (zs_Queue y)) (zs_Locked y) y))
      else None
  | ZNotify Value => option_map (fun Work => zs_spawn [ThKick Work] y) (UacpiNtThermalNotify Value)
  | ZStart => Some (zs_spawn [ThStart] y)
  | ZStop => Some (zs_spawn [ThStop] y)
  end.

Definition zone_moves (ms : list zone_move) (y : zone_system) : option zone_system :=
  foldl (fun o m => o ≫= zone_move_do m) (Some y) ms.

(** A script that cannot go on stops the whole. *)
Definition zone_played (ms : list zone_move) (y : zone_system) : zone_system := default y (zone_moves ms y).

Lemma zone_move_runs m y y' : zone_move_do m y = Some y' ->
  zone_event Target Node ActiveProcessors y y' \/ zone_arrival Target y y'.
Proof.
  destruct m as [k granted|r|id|Value| |]; simpl; intros E; simplify_eq.
  - destruct (zs_Tasks y !! k) as [t|] eqn:Et; [|done]. left. eapply zev_task; [|exact E]. by apply delete_Permutation.
  - right. apply zar_call.
  - destruct (id <? _)%nat eqn:Hl; [|done]. simplify_eq. right. apply zar_cancel. by apply Nat.ltb_lt.
  - destruct (UacpiNtThermalNotify Value) as [Work|] eqn:En; [|done]. simplify_eq/=. right. by eapply zar_notify.
  - right. apply zar_start.
  - right. apply zar_stop.
Qed.

Lemma moves_stuck ms : foldl (fun o m => o ≫= zone_move_do m) None ms = None.
Proof. by induction ms. Qed.

Lemma zone_moves_run ms : forall y0 y y', zone_run Target Node ActiveProcessors y0 y -> zone_moves ms y = Some y' ->
  zone_run Target Node ActiveProcessors y0 y'.
Proof.
  unfold zone_moves. induction ms as [|m ms IH]; intros y0 y y' Hr E; simpl in E; [by simplify_eq|].
  destruct (zone_move_do m y) as [y1|] eqn:Em; [|by rewrite moves_stuck in E]. apply zone_move_runs in Em.
  eapply IH; [|exact E]. destruct Em; [by eapply zrun_event|by eapply zrun_arrival].
Qed.

Lemma zone_played_run ms y : zone_run Target Node ActiveProcessors y (zone_played ms y).
Proof.
  unfold zone_played. destruct (zone_moves ms y) as [y'|] eqn:E; simpl; [|constructor].
  eapply zone_moves_run; [constructor|exact E].
Qed.
End Scripts.

(** ** A zone on the values of the Windows kit *)

#[export] Instance kit_thermal_codes : ThermalCodes := {|
  IOCTL_THERMAL_QUERY_INFORMATION := 0x294080;
  IOCTL_THERMAL_SET_COOLING_POLICY := 0x298084;
  IOCTL_RUN_ACTIVE_COOLING_METHOD := 0x298088;
  IOCTL_THERMAL_SET_PASSIVE_LIMIT := 0x29808c;
  PASSIVE_COOLING := 1
|}.

#[export] Instance kit_thermal_laws : ThermalCodesLaws kit_thermal_codes.
Proof. split. by eapply bool_decide_unpack; vm_compute. Qed.

(** A zone at node 7 with one fan at node 5 behind its first two lists. *)
Definition zone_script : Acpi := scripted_acpi
  [(7, "_TMP", UACPI_OBJECT_INTEGER 3000); (7, "_PSV", UACPI_OBJECT_INTEGER 3500); (7, "_CRT", UACPI_OBJECT_INTEGER 3732);
   (7, "_AC0", UACPI_OBJECT_INTEGER 3400); (7, "_AC1", UACPI_OBJECT_INTEGER 3300);
   (7, "_AL0", UACPI_OBJECT_PACKAGE [UACPI_OBJECT_STRING true "FAN0"]);
   (7, "_AL1", UACPI_OBJECT_PACKAGE [UACPI_OBJECT_STRING true "FAN0"; UACPI_OBJECT_STRING true "FAN1"]);
   (7, "_STR", UACPI_OBJECT_BUFFER [0x43; 0; 0x50; 0; 0; 0]); (7, "_DTI", UACPI_OBJECT_OTHER 8)]%string
  [("FAN0", 5); ("FAN1", 6)]%string [].
Definition zone_fans : list pdo_power := [mkPdoPower 5 [] PowerDeviceUnspecified false; mkPdoPower 6 [] PowerDeviceUnspecified false].
Definition zone_power : power_state := mkPower true [] [].
Definition zone_world : world := mkWorld (fun _ => 0) (fun _ _ => true) 0 0 0.
Definition new_zone : zone_system := zone_created zone_fans zone_power zone_world.

Definition query_request (Stamp : Z) : thermal_request :=
  mkThermalRequest IOCTL_THERMAL_QUERY_INFORMATION true 4 88 true Stamp.
Definition description_request : thermal_request :=
  mkThermalRequest IOCTL_UACPINT_THERMAL_DESCRIPTION true 0 16 true 0.

(** The first thread of the list, [n] times. *)
Definition first_turns (n : nat) : list zone_move := replicate n (ZTask 0 true).

(** The zone starts; a query with no stamp and a request for the description come
    when the first round is about to complete, which serves both, and the work they
    asked for makes another round; then two queries with the present stamp wait, and
    one is cancelled. *)
Definition zone_day : list zone_move :=
  [ZStart] ++ first_turns 35 ++ [ZCall (query_request 0); ZTask 0 true; ZTask 0 true; ZCall description_request; ZTask 0 true] ++
  first_turns 63 ++ [ZCall (query_request 2)] ++ first_turns 2 ++ [ZCall (query_request 2)] ++ first_turns 2 ++ [ZCancel 3] ++ first_turns 3.
Definition zone_after (ms : list zone_move) : zone_system := zone_played (A := zone_script) NtWin10 7 1 ms new_zone.

Lemma zone_after_run ms : zone_run (A := zone_script) NtWin10 7 1 new_zone (zone_after ms).
Proof. apply zone_played_run. Qed.

(** In the middle of the day a query has arrived and one worker runs. *)
Lemma thermal_one_worker_witness :
  zs_Tasks (zone_after (take 37 zone_day)) = [ThRequest 0; ThComplete true] /\
  list_weight worker_thread (zs_Tasks (zone_after (take 37 zone_day))) = Nat.b2n (zg_Running (zs_Gate (zone_after (take 37 zone_day)))).
Proof.
  split; [vm_compute; reflexivity|].
  apply (thermal_one_worker (A := zone_script) NtWin10 7 1 zone_fans zone_power zone_world _ (zone_after_run (take 37 zone_day))).
Defined.

Lemma thermal_requests_answered_witness :
  map length (iq_books (zs_Queue (zone_after zone_day))) = [1; 1; 0; 1]%nat /\ zs_Failed (zone_after zone_day) = false /\
  exists i, iq_Irps (zs_Queue (zone_after zone_day)) !! 2%nat = Some i /\
    (length (li_Completions i) = 1%nat \/ zone_waits 2 i (zone_after zone_day)).
Proof.
  split; [vm_compute; reflexivity|]. split; [vm_compute; reflexivity|].
  destruct (iq_Irps (zs_Queue (zone_after zone_day)) !! 2%nat) as [i|] eqn:E; [|vm_compute in E; discriminate].
  exists i. split; [reflexivity|].
  apply (thermal_requests_answered (A := zone_script) NtWin10 7 1 zone_fans zone_power zone_world _ (zone_after_run zone_day)); [|exact E].
  vm_compute; reflexivity.
Defined.

Lemma thermal_replies_fit_witness :
  exists i, iq_Irps (zs_Queue (zone_after zone_day)) !! 1%nat = Some i /\
    map (fun c => c.1.2) (li_Completions i) = [16] /\ Forall (reply_fits NtWin10 (li_Request i)) (li_Completions i).
Proof.
  destruct (iq_Irps (zs_Queue (zone_after zone_day)) !! 1%nat) as [i|] eqn:E; [|vm_compute in E; discriminate].
  exists i. split; [reflexivity|]. split; [vm_compute in E; by simplify_eq|]. apply List.Forall_forall. intros c Hc.
  exact (proj2 (thermal_replies_fit (A := zone_script) NtWin10 7 1 zone_fans zone_power zone_world _ (zone_after_run zone_day)) 1%nat i c E Hc).
Defined.

(** ** What a stop can hand out *)

(** A query waits, and the worker has stored _AC0 but not yet the count, when a stop
    takes the query, copies the readings and answers. *)
Definition torn_script : list zone_move :=
  [ZStart] ++ first_turns 28 ++ [ZCall (query_request 0)] ++ first_turns 2 ++ [ZStop] ++ first_turns 26.

(** A request for the description waits, and the worker has stored the buffer but not
    yet the lengths, when a stop takes the request and allocates; the worker stores
    the lengths before the copy. *)
Definition overrun_script : list zone_move :=
  [ZStart] ++ first_turns 5 ++ [ZCall description_request] ++ first_turns 1 ++ [ZStop] ++ first_turns 26 ++
  [ZTask 1 true; ZTask 0 true; ZTask 1 true] ++ first_turns 2.

(** The reading of the reply has a trip point past its count. *)
Lemma stop_reports_torn_reading : exists y i torn,
  zone_run (A := zone_script) NtWin10 7 1 new_zone y /\ iq_Irps (zs_Queue y) !! 0%nat = Some i /\
  li_Completions i = [(STATUS_SUCCESS, 88, Some (OutQuery false (UacpiNtThermalFillQuery NtWin10 0 torn)))] /\
  ti_ActiveTripPointCount torn = 0 /\ head (ti_ActiveTripPoint torn) = Some 3400 /\ ~ info_ok torn.
Proof.
  destruct (iq_Irps (zs_Queue (zone_after torn_script)) !! 0%nat) as [i|] eqn:E; [|vm_compute in E; discriminate].
  exists (zone_after torn_script), i, (mkThermalInfo 0 0 0 0 3500 0 3732 0 0 [3400; 0; 0; 0; 0; 0; 0; 0; 0; 0] 0 0 0).
  split_and!; [apply zone_after_run|exact E|vm_compute in E; by simplify_eq|done|done|].
  intros [_ _ _ _ Hr]. apply Forall_cons in Hr as [H _]. discriminate H.
Qed.

(** Six bytes are copied to a block of none. *)
Lemma stop_copies_past_block : exists y i d,
  zone_run (A := zone_script) NtWin10 7 1 new_zone y /\ iq_Irps (zs_Queue y) !! 0%nat = Some i /\
  li_Completions i = [(STATUS_SUCCESS, 16, Some (OutDescription false (Some d)))] /\
  dc_Block d = 0 /\ length (dc_Bytes d) = 6%nat.
Proof.
  destruct (iq_Irps (zs_Queue (zone_after overrun_script)) !! 0%nat) as [i|] eqn:E; [|vm_compute in E; discriminate].
  exists (zone_after overrun_script), i, (mkCopy 0 [0x43; 0; 0x50; 0; 0; 0] 4 6).
  split_and!; [apply zone_after_run|exact E|vm_compute in E; by simplify_eq|done|done].
Qed.

(** ** The evaluations on that zone *)

Definition bench_info : UACPINT_THERMAL_INFO := mkThermalInfo 1 2 100 3450 3500 0 3732 0 2 [3400; 3300; 0; 0; 0; 0; 0; 0; 0; 0] 0 0 0.
(** Told at 331.0 K with a delta of 10 K; now it is 345.0 K. *)
Definition bench_zone : zone_data := mkZoneData true 100 3310 0 None bench_info.

Lemma bench_info_ok : info_ok bench_info.
Proof. split; simpl; unfold is_ulong, MAXULONG; repeat constructor; lia. Qed.
Lemma bench_zone_ok : zone_ok bench_zone.
Proof. split; [apply bench_info_ok|]. unfold is_ulong, MAXULONG. simpl. lia. Qed.

Lemma dti_rearms_exactly_witness :
  UacpiNtThermalCheckDti (A := zone_script) NtWin10 7 bench_zone [] =
    (mkZoneData true 100 3450 0 None bench_info, [CallEval 7 "_DTI" [UACPI_OBJECT_INTEGER 3450] ]).
Proof.
  apply (dti_rearms_exactly (A := zone_script) NtWin10 7 bench_zone [] bench_zone_ok eq_refl).
  right. left. split; [done|]. split; [by vm_compute|]. intros [H _]. discriminate H.
Defined.

Lemma query_reads_back_witness : load_le (UacpiNtThermalFillQuery NtWin10 5 bench_info) 4 16 = Done 3450.
Proof.
  pose proof (proj2 (query_reads_back NtWin10 5 bench_info bench_info_ok ltac:(unfold is_ulong, MAXULONG; lia))) as H.
  eapply (Forall_lookup_1 _ _ 4) in H; [|reflexivity]. exact H.
Defined.

Lemma description_in_bounds_witness :
  exists z' h' d, UacpiNtThermalReadDescription (A := zone_script) 7 zero_zone [] zone_world = (z', h', mkWorld (fun _ => 0) (fun _ _ => true) 0 1 1) /\
    zd_Description z' = Some d /\ us_MaximumLength d = us_Length d + 2 /\ us_MaximumLength d <= Z.of_nat (length (us_Buffer d)).
Proof.
  destruct (UacpiNtThermalReadDescription (A := zone_script) 7 zero_zone [] zone_world) as [ [z' h'] w'] eqn:E.
  destruct (zd_Description z') as [d|] eqn:Ed; [|vm_compute in E; injection E as <- <- <-; discriminate].
  destruct (description_in_bounds (A := zone_script) 7 zero_zone [] zone_world z' h' w' d eq_refl E Ed) as (_ & H1 & H2 & _).
  exists z', h', d. split_and!; try done. vm_compute in E. by injection E as <- <- <-.
Defined.

Definition zone_lists (x : nat) : option (list uacpi_object) :=
  let '(st, o) := answer_eval (Acpi := zone_script) [] 7 (level_method "_AL" x) [] in
  if uacpi_unlikely_error st then None else o ≫= uacpi_object_get_package.

