(* ===== verification/PdoControl.v ===== *)
(** sys/ioctl.c, the control calls of a device object: UacpiNtPdoDeviceControl asks
    the processor's handler, those of the device classes of drivers/ and the one of
    every ACPI device, in this order.

    The handlers are those of Ioctl.v, Button.v, EcQuery.v and ThermalZone.v; a call
    that waits leaves this file for the queue of Button.v or of ThermalZone.v. *)
From stdpp Require Import base list numbers option strings.
From Stdlib Require Import ZArith Lia.
From S2P Require Import Prelude NtEnv AcpiEnv Bytes EvalWire EvalCall Ioctl EcPort EcQuery IrpQueue Button Thermal ThermalZone ThermalReply.

(** ** A call and the device *)

(** The IRP with the caller's own pointer of a METHOD_NEITHER call, the state of the
    evaluations, and the embedded controller's block. *)
Record pdo_call := mkPdoCall {
  pc_Irp : control_irp;
  pc_State : control_state;
  pc_Ec : option UACPINT_EC;
  pc_Registration : option UACPINT_EC_QUERY_REGISTRATION
}.

Record pdo_class := mkPdoClass {
  pd_Node : acpi_node;
  pd_IsProcessor : bool;
  pd_ButtonCaps : Z;
  pd_IsThermalZone : bool
}.

(** What became of a call: the status that the dispatch returns, or the routine
    that takes the IRP as it is, to complete it later: UacpiNtButtonWaitForEvent,
    or UacpiNtThermalDeviceControl with the zone's lock. *)
Inductive pdo_outcome :=
| Returned (Status : NTSTATUS)
| ButtonWaits
| ZoneTakes.

Definition pc_finish (Status : NTSTATUS) (Information : Z) (Buffer : option (list Z)) (p : pdo_call)
  : option pdo_outcome * pdo_call :=
  let '(Status, i) := complete_control Status Information (cn_set_Buffer Buffer (pc_Irp p)) in
  (Some (Returned Status), mkPdoCall i (pc_State p) (pc_Ec p) (pc_Registration p)).

(** METHOD_BUFFERED is 0 in the low two bits of a code. *)
Definition buffered (Code : Z) : bool := Code mod 4 =? 0.

Section Dispatch.
Context {A : Acpi} {I : AcpiIoct} {S : AcpiSignatures} {C : AcpiControl} {Po : PoClass} {T : ThermalCodes} (Target : ntddi).

Notation pdo_handler := (pdo_call -> run (option pdo_outcome * pdo_call)).

(** A handler of sys/ioctl.c. *)
Definition pdo_lift (h : control_irp -> control_state -> run (option NTSTATUS * control_irp * control_state)) : pdo_handler :=
  fun p =>
    '(Disposition, i, c) ← h (pc_Irp p) (pc_State p);
    Done (option_map Returned Disposition, mkPdoCall i c (pc_Ec p) (pc_Registration p)).

Definition button_request_of (i : control_irp) : button_request :=
  mkButtonRequest (cn_Code i) (cn_KernelMode i) (cn_OutputLength i) (bool_decide (is_Some (cn_Buffer i))).

(** Of what a button answers at once only its capabilities go into the buffer. *)
Definition button_output_bytes (o : option button_output) : list Z :=
  match o with
  | Some (OutCaps Caps) => le_field 4 Caps
  | Some (OutEvents Events _) => le_field 4 Events
  | None => []
  end.

Definition button_control (Caps : Z) : pdo_handler := fun p =>
  match UacpiNtButtonDeviceControl Caps (button_request_of (pc_Irp p)) with
  | NotHandled => Done (None, p)
  | WaitForEvent => Done (Some ButtonWaits, p)
  | Answer Status Information o =>
      match cn_Buffer (pc_Irp p) with
      | Some b => b ← store_bytes b 0 (button_output_bytes o); Done (pc_finish Status Information (Some b) p)
      | None => Done (pc_finish Status Information None p)
      end
  end.

Definition query_irp_of (p : pdo_call) : query_irp :=
  mkQueryIrp (cn_Code (pc_Irp p)) (cn_InputLength (pc_Irp p)) (cn_KernelMode (pc_Irp p)) (pc_Registration p)
    (cn_Completed (pc_Irp p)).

Definition ec_control : pdo_handler := fun p =>
  let '(Status, Handled, q, Ec) := UacpiNtEcDeviceControl (pc_Ec p) (query_irp_of p) in
  let i := pc_Irp p in
  Done (if (Handled : bool) then Some (Returned Status) else None,
        mkPdoCall (mkControl (cn_Code i) (cn_InputLength i) (cn_OutputLength i) (cn_KernelMode i) (cn_Passive i)
                     (cn_Buffer i) (qi_Completed q))
          (pc_State p) Ec (qi_Registration q)).

Definition thermal_request_of (i : control_irp) : thermal_request :=
  mkThermalRequest (cn_Code i) (cn_KernelMode i) (cn_InputLength i) (cn_OutputLength i)
    (bool_decide (is_Some (cn_Buffer i))) (le_bytes (take 4 (default [] (cn_Buffer i)))).

Definition thermal_control : pdo_handler := fun p =>
  match thermal_check Target (thermal_request_of (pc_Irp p)) with
  | None => Done (None, p)
  | Some (Some Status) => Done (pc_finish Status 0 (cn_Buffer (pc_Irp p)) p)
  | Some None => Done (Some ZoneTakes, p)
  end.

(** The handlers are asked in turn; the last word is that the call is unknown. *)
Fixpoint first_handler (l : list (pdo_call -> run (option pdo_outcome * pdo_call))) (p : pdo_call) : run (pdo_outcome * pdo_call) :=
  match l with
  | [] => let '(o, p) := pc_finish STATUS_NOT_SUPPORTED 0 (cn_Buffer (pc_Irp p)) p in
          Done (default (Returned STATUS_NOT_SUPPORTED) o, p)
  | h :: l =>
      '(Handled, p) ← h p;
      match Handled with
      | Some o => Done (o, p)
      | None => first_handler l p
      end
  end.

Definition UacpiNtPdoDeviceControl (Ready : bool) (d : pdo_class) (Madt : option (list Z)) (p : pdo_call)
  : run (pdo_outcome * pdo_call) :=
  first_handler
    ((if pd_IsProcessor d then [pdo_lift (UacpiNtProcessorObjInfo true (pd_Node d) Madt)] else []) ++
     (if pd_ButtonCaps d =? 0 then [] else [button_control (pd_ButtonCaps d)]) ++
     (match pc_Ec p with Some _ => [ec_control] | None => [] end) ++
     (if pd_IsThermalZone d then [thermal_control] else []) ++
     [pdo_lift (UacpiNtAcpiDeviceControl Ready (pd_Node d))]) p.
End Dispatch.

(** ** Every call is answered once *)

(** The codes that the driver takes off the system buffer are METHOD_BUFFERED in
    the headers. *)
Class BufferedCodes `{AcpiControl, PoClass, ThermalCodes} := {
  acpi_codes_buffered : forall n, buffered (CTL_CODE_ACPI n) = true;
  eval_codes_buffered : Forall (fun code => buffered code = true)
    ([IOCTL_ACPI_ENUM_CHILDREN; IOCTL_ACPI_ACQUIRE_GLOBAL_LOCK; IOCTL_ACPI_RELEASE_GLOBAL_LOCK] ++ IOCTL_ACPI_EVAL_METHODS);
  class_codes_buffered : Forall (fun code => buffered code = true)
    [IOCTL_GET_SYS_BUTTON_CAPS; IOCTL_GET_SYS_BUTTON_EVENT; IOCTL_THERMAL_QUERY_INFORMATION;
     IOCTL_THERMAL_SET_COOLING_POLICY; IOCTL_RUN_ACTIVE_COOLING_METHOD; IOCTL_THERMAL_SET_PASSIVE_LIMIT]
}.

Section Answered.
Context {A : Acpi} {I : AcpiIoct} {L : AcpiIoctLaws} {S : AcpiSignatures} {C : AcpiControl} {CL : AcpiControlLaws}
  {Po : PoClass} {T : ThermalCodes} {B : BufferedCodes} (Target : ntddi).

(** An IRP of the I/O manager, not completed yet: the lengths of a buffered call
    are those of its system buffer; of another call nothing is known. *)
Definition from_io_manager (i : control_irp) : Prop :=
  cn_Completed i = [] /\ (buffered (cn_Code i) = true -> call_buffer (cn_Buffer i) (cn_InputLength i) (cn_OutputLength i)).

(** A call that is not buffered is answered without a reply. *)
Definition refused_with (st : NTSTATUS) (i i' : control_irp) : Prop :=
  cn_Completed i' = [(st, 0)] /\ cn_Buffer i' = cn_Buffer i.

(** What the outcome says of the call: it was answered or is queued for a worker that
    answers it; or it waits, untouched, in the queue of the button or of the zone,
    and passed the checks that come before. *)
Definition call_taken (Ready : bool) (d : pdo_class) (o : pdo_outcome) (p p' : pdo_call) : Prop :=
  match o with
  | Returned st =>
      if buffered (cn_Code (pc_Irp p))
      then served st Ready (pd_Node d) (pc_Irp p) (pc_Irp p') (pc_State p) (pc_State p') /\ pc_Ec p' = pc_Ec p
      else refused_with st (pc_Irp p) (pc_Irp p') /\ pc_State p' = pc_State p
  | ButtonWaits =>
      p' = p /\ pd_ButtonCaps d <> 0 /\ cn_Code (pc_Irp p) = IOCTL_GET_SYS_BUTTON_EVENT /\
      cn_KernelMode (pc_Irp p) = true /\ 4 <= cn_OutputLength (pc_Irp p) /\ is_Some (cn_Buffer (pc_Irp p))
  | ZoneTakes =>
      p' = p /\ pd_IsThermalZone d = true /\ cn_KernelMode (pc_Irp p) = true /\
      exists InputSize OutputSize, UacpiNtThermalRequestSizes Target (cn_Code (pc_Irp p)) = Some (InputSize, OutputSize) /\
        InputSize <= cn_InputLength (pc_Irp p) /\ OutputSize <= cn_OutputLength (pc_Irp p) /\
        is_Some (cn_Buffer (pc_Irp p))
  end.

(** A handler takes the call, or leaves it alone for the next one. *)
Definition takes_or_leaves (Ready : bool) (d : pdo_class) (h : pdo_call -> run (option pdo_outcome * pdo_call)) : Prop :=
  forall p, from_io_manager (pc_Irp p) -> exists o p', h p = Done (o, p') /\
    match o with Some o => call_taken Ready d o p p' | None => p' = p end.

Lemma buffered_usable i : from_io_manager i -> buffered (cn_Code i) = true -> usable i.
Proof. intros [H0 Hc] Hb. split; [by apply Hc|done]. Qed.

(** An answer without a reply. *)
Lemma finish_taken Ready d st p : from_io_manager (pc_Irp p) ->
  exists o p', Done (pc_finish st 0 (cn_Buffer (pc_Irp p)) p) = Done (Some o, p') /\ call_taken Ready d o p p'.
Proof.
  intros [H0 Hc]. eexists _, _. split; [done|]. simpl. destruct (buffered (cn_Code (pc_Irp p))) eqn:E.
  - split; [|done]. left. split; [|split; [apply holds_refl|done] ]. exists 0. simpl. rewrite H0.
    split; [done|]. eapply reply_fits_same. by apply Hc.
  - split; [|done]. split; [|done]. simpl. by rewrite H0.
Qed.

Lemma code_buffered i (l : list Z) : Forall (fun code => buffered code = true) l -> cn_Code i ∈ l -> buffered (cn_Code i) = true.
Proof. intros H1 H2. by apply (proj1 (Forall_forall _ _) H1). Qed.

Lemma lift_takes Ready d h :
  (forall i c, usable i -> exists o i' c', h i c = Done (o, i', c') /\
     match o with Some st => served st Ready (pd_Node d) i i' c c' | None => i' = i /\ c' = c end) ->
  (forall i c, buffered (cn_Code i) = false -> h i c = Done (None, i, c)) ->
  takes_or_leaves Ready d (pdo_lift h).
Proof.
  intros Hs Hn p Hp. unfold pdo_lift. destruct (buffered (cn_Code (pc_Irp p))) eqn:E.
  - destruct (Hs (pc_Irp p) (pc_State p) (buffered_usable _ Hp E)) as (o & i' & c' & -> & Ho). cbn [mbind run_bind].
    eexists _, _. split; [done|]. destruct o as [st|]; simpl; [by rewrite E|]. destruct Ho as [-> ->]. by destruct p.
  - rewrite Hn by done. cbn [mbind run_bind]. eexists _, _. split; [done|]. by destruct p.
Qed.

Lemma processor_leaves IsProcessor Node Madt i c : buffered (cn_Code i) = false ->
  UacpiNtProcessorObjInfo IsProcessor Node Madt i c = Done (None, i, c).
Proof.
  intros H. unfold UacpiNtProcessorObjInfo. destruct (Z.eqb_spec (cn_Code i) UACPINT_IOCTL_GET_PROCESSOR_OBJ_INFO) as [E|]; [|done].
  by rewrite E in H.
Qed.

Lemma acpi_leaves Ready Node i c : buffered (cn_Code i) = false -> UacpiNtAcpiDeviceControl Ready Node i c = Done (None, i, c).
Proof.
  intros H. pose proof eval_codes_buffered as He. rewrite Forall_app, !Forall_cons in He. destruct He as ((He1&He2&He3&_)&He).
  assert (forall n, cn_Code i <> CTL_CODE_ACPI n) as Hn by (intros n E; rewrite E, acpi_codes_buffered in H; done).
  unfold UacpiNtAcpiDeviceControl. cbv zeta.
  rewrite !(proj2 (Z.eqb_neq _ _)) by (apply Hn || congruence). simpl orb. cbv iota.
  rewrite !bool_decide_eq_false_2; [done| |].
  - intros Hi. by rewrite (code_buffered i _ He Hi) in H.
  - unfold unsupported_codes. cbn [map]. rewrite !elem_of_cons, elem_of_nil. intros [E|[E|[E|[E|[E|[] ] ] ] ] ]; by eapply Hn.
Qed.

Lemma button_takes Ready d : pd_ButtonCaps d <> 0 -> takes_or_leaves Ready d (button_control (pd_ButtonCaps d)).
Proof.
  intros Hcaps p Hp. unfold button_control, UacpiNtButtonDeviceControl. rewrite (proj2 (Z.eqb_neq _ _) Hcaps). simpl br_Code.
  destruct (negb _ && negb _) eqn:Ec; [by eexists _, _|]. pose proof class_codes_buffered as Hb.
  assert (cn_Code (pc_Irp p) ∈ [IOCTL_GET_SYS_BUTTON_CAPS; IOCTL_GET_SYS_BUTTON_EVENT]) as Hin.
  { rewrite !elem_of_cons. destruct (Z.eqb_spec (cn_Code (pc_Irp p)) IOCTL_GET_SYS_BUTTON_CAPS); [by left|].
    destruct (Z.eqb_spec (cn_Code (pc_Irp p)) IOCTL_GET_SYS_BUTTON_EVENT); [by right; left|done]. }
  assert (buffered (cn_Code (pc_Irp p)) = true) as E
    by (eapply code_buffered; [exact Hb|]; rewrite !elem_of_cons in *; naive_solver).
  assert (forall st, exists o p',
    match cn_Buffer (pc_Irp p) with
    | Some b => b ← store_bytes b 0 (button_output_bytes None); Done (pc_finish st 0 (Some b) p)
    | None => Done (pc_finish st 0 None p)
    end = Done (o, p') /\ match o with Some o => call_taken Ready d o p p' | None => p' = p end) as Hrefuse.
  { intros st. destruct (finish_taken Ready d st p Hp) as (o & p' & E1 & Ht). exists (Some o), p'. split; [|done].
    destruct (cn_Buffer (pc_Irp p)) as [b|]; [|exact E1].
    change (store_bytes b 0 (button_output_bytes None)) with (store_bytes ([] ++ [] ++ b) (Z.of_nat (@length Z [])) []).
    rewrite (store_bytes_at [] [] b) by done. cbn [mbind run_bind]. exact E1. }
  unfold button_request_of. cbn [br_KernelMode br_OutputLength br_Buffer].
  destruct (cn_KernelMode (pc_Irp p)) eqn:Ek; [|apply Hrefuse]. cbn [negb].
  destruct (_ <? 4) eqn:E4; bool_prop; [apply Hrefuse|]. cbn [orb].
  destruct (bool_decide (is_Some (cn_Buffer (pc_Irp p)))) eqn:Es; [|apply Hrefuse]. cbn [negb].
  apply bool_decide_eq_true in Es. destruct (_ =? IOCTL_GET_SYS_BUTTON_EVENT) eqn:Ee; bool_prop.
  { eexists _, _. split; [done|]. simpl. by split_and!. }
  destruct Es as [b Eb]. rewrite Eb. destruct Hp as [H0 Hc]. specialize (Hc E). rewrite Eb in Hc. destruct Hc as (_ & _ & HO & _).
  destruct (store_fits b b (le_field 4 (pd_ButtonCaps d)) 0 (cn_OutputLength (pc_Irp p))) as (b2 & Es & Hl & Hd);
    [lia|rewrite length_le_field; simpl; lia|lia|done..|]. cbn [button_output_bytes]. rewrite Es. cbn [mbind run_bind].
  eexists _, _. split; [done|]. simpl. rewrite E. split; [|done]. left. split; [|split; [apply holds_refl|done] ].
  exists 4. simpl. rewrite H0, Eb. split; [done|]. split; [lia|]. done.
Qed.

Lemma ec_answers Ec q : qi_Code q = IOCTL_UACPINT_EC_REGISTER_QUERY_HANDLER \/ qi_Code q = IOCTL_UACPINT_EC_UNREGISTER_QUERY_HANDLER ->
  exists st r Ec', UacpiNtEcDeviceControl (Some Ec) q = (st, true, complete_query st r q, Ec').
Proof.
  intros H. unfold UacpiNtEcDeviceControl.
  destruct H as [-> | ->]; simpl;
    (destruct (qi_KernelMode q); simpl; [|by eexists _, _, _]; destruct (qi_Registration q) as [r|]; [|by eexists _, _, _];
     destruct (_ <? _); [by eexists _, _, _|]; case_match; simplify_eq; repeat case_match; by eexists _, _, _).
Qed.

Lemma ec_takes Ready d Ec p : pc_Ec p = Some Ec -> from_io_manager (pc_Irp p) ->
  exists o p', ec_control p = Done (o, p') /\ match o with Some o => call_taken Ready d o p p' | None => p' = p end.
Proof.
  intros Ep [H0 _]. unfold ec_control. rewrite Ep.
  destruct (decide (cn_Code (pc_Irp p) = IOCTL_UACPINT_EC_REGISTER_QUERY_HANDLER \/
                    cn_Code (pc_Irp p) = IOCTL_UACPINT_EC_UNREGISTER_QUERY_HANDLER)) as [Hc|Hc].
  - destruct (ec_answers Ec (query_irp_of p) Hc) as (st & r & Ec' & ->). eexists _, _. split; [done|]. simpl.
    assert (buffered (cn_Code (pc_Irp p)) = false) as -> by (by destruct Hc as [-> | ->]).
    split; [|done]. split; [|done]. simpl. by rewrite H0.
  - unfold UacpiNtEcDeviceControl. simpl qi_Code. rewrite !(proj2 (Z.eqb_neq _ _)) by tauto.
    eexists _, _. split; [done|]. destruct p as [ [] ? ? ? ]. simpl in *. by subst.
Qed.

Lemma thermal_takes Ready d : pd_IsThermalZone d = true -> takes_or_leaves Ready d (thermal_control Target).
Proof.
  intros Hz p Hp. unfold thermal_control, thermal_check. simpl tr_Code.
  destruct (UacpiNtThermalRequestSizes Target (cn_Code (pc_Irp p))) as [ [Is Os]|] eqn:Es; [|by eexists _, _].
  assert (forall st, exists o p', Done (pc_finish st 0 (cn_Buffer (pc_Irp p)) p) = Done (o, p') /\
    match o with Some o => call_taken Ready d o p p' | None => p' = p end) as Hrefuse.
  { intros st. destruct (finish_taken Ready d st p Hp) as (o & p' & E1 & Ht). by exists (Some o), p'. }
  simpl tr_KernelMode. destruct (cn_KernelMode (pc_Irp p)) eqn:Ek; [|apply Hrefuse]. simpl negb. cbv iota.
  destruct (_ || _ || _) eqn:E; [apply Hrefuse|]. simpl in E. bool_prop.
  assert (negb (Is =? 0) || negb (Os =? 0) = true) as Hne.
  { unfold UacpiNtThermalRequestSizes in Es. repeat case_hyp Es; by simplify_eq. }
  rewrite Hne, andb_true_r in *. destruct (bool_decide (is_Some (cn_Buffer (pc_Irp p)))) eqn:Eb; [|simpl in *; bool_prop; naive_solver].
  apply bool_decide_eq_true in Eb. eexists _, _. split; [done|]. simpl. split_and!; [done..|]. exists Is, Os. split_and!; (done || lia).
Qed.

Lemma first_handler_takes Ready d l p : from_io_manager (pc_Irp p) ->
  Forall (fun h => exists o p', h p = Done (o, p') /\ match o with Some o => call_taken Ready d o p p' | None => p' = p end) l ->
  exists o p', first_handler l p = Done (o, p') /\ call_taken Ready d o p p'.
Proof.
  intros Hp Hl. induction Hl as [|h l (o & p' & E & Ho) Hl IH].
  - destruct (finish_taken Ready d STATUS_NOT_SUPPORTED p Hp) as (o & p' & E & Ht). injection E as <- <-. by eexists _, _.
  - cbn [first_handler]. rewrite E. cbn [mbind run_bind]. destruct o as [o|]; [by exists o, p'|]. by subst.
Qed.

(** C21.  Every control call to a device of any class - processor, button, embedded
    controller, thermal zone, or none - is taken by exactly one handler and answered
    once, whatever the code, the lengths and the bytes: it is completed on the spot
    with the status that is returned, or a work item is queued that completes it
    whenever it runs, the bytes reported lie in the caller's output buffer, nothing
    behind it changes, and no reference, block or work item stays.  Only a kernel
    caller's wait for a button's event, with room for it, and its checked request to
    a thermal zone leave uncompleted and untouched, for the queues of Button.v and
    ThermalZone.v.
    Evaluation results and the list of a node's children are below 4 GB. *)
Theorem device_calls_answered_once Ready d Madt p :
  results_below_4GB -> children_fit (pd_Node d) -> madt_is_bytes Madt -> from_io_manager (pc_Irp p) ->
  exists o p', UacpiNtPdoDeviceControl Target Ready d Madt p = Done (o, p') /\ call_taken Ready d o p p'.
Proof.
  intros Hr Hfit Hm Hp. apply first_handler_takes; [done|]. rewrite !Forall_app, Forall_singleton. split_and!.
  - destruct (pd_IsProcessor d); [|done]. apply Forall_singleton. apply lift_takes; [|intros; by apply processor_leaves|done].
    intros i c Hu. by apply processor_serves.
  - destruct (pd_ButtonCaps d =? 0) eqn:E; bool_prop; [done|]. apply Forall_singleton. by apply button_takes.
  - destruct (pc_Ec p) as [Ec|] eqn:E; [|done]. apply Forall_singleton. by eapply ec_takes.
  - destruct (pd_IsThermalZone d) eqn:E; [|done]. apply Forall_singleton. by apply thermal_takes.
  - apply lift_takes; [|intros; by apply acpi_leaves|done]. intros i c Hu. by apply acpi_control_serves.
Qed.
End Answered.

(** ** Examples *)

(** A lid that is a thermal zone and an embedded controller too. *)
Lemma control_codes_buffered : @BufferedCodes control_example kit_flags kit_thermal_codes.
Proof.
  split.
  - intros n. unfold buffered. simpl. apply Z.eqb_eq. change 3325952 with (831488 * 4). Z.div_mod_to_equations; lia.
  - by repeat constructor.
  - by repeat constructor.
Qed.

Definition control_ec : UACPINT_EC := mkEc 7 0 0x62 0x66 0 23 true false false (replicate 256 0) (replicate 256 0).
Definition busy_device : pdo_class := mkPdoClass 5 false 4 true.
Definition ask (Code In Out : Z) (b : option (list Z)) : pdo_call :=
  mkPdoCall (mkControl Code In Out true false b []) fresh_control (Some control_ec)
    (Some (mkRegistration 0x20 77 0 0)).

(** An evaluation above PASSIVE_LEVEL passes the handlers of three classes, and the
    worker's evaluation succeeds; the capabilities, a registration and an unknown
    code are answered at once; an event is waited for. *)
Lemma device_calls_answered_once_witness :
  let device := @UacpiNtPdoDeviceControl eval_acpi acpiioct_h acpiioct_signatures control_example
                  kit_flags kit_thermal_codes NtWin10 true busy_device None in
  (exists p', device (mkPdoCall control_call fresh_control (Some control_ec) None) = Done (Returned STATUS_PENDING, p') /\
     cs_Works (pc_State p') = [5]) /\
  (exists p', device (ask 0x294140 0 8 (Some (replicate 8 255))) = Done (Returned STATUS_SUCCESS, p') /\
     cn_Completed (pc_Irp p') = [(STATUS_SUCCESS, 4)] /\ cn_Buffer (pc_Irp p') = Some [4; 0; 0; 0; 255; 255; 255; 255]) /\
  (exists p', device (ask 0x220017 32 0 None) = Done (Returned STATUS_SUCCESS, p') /\
     cn_Completed (pc_Irp p') = [(STATUS_SUCCESS, 0)]) /\
  (exists p', device (ask 0x294144 0 8 (Some (replicate 8 255))) = Done (ButtonWaits, p') /\ cn_Completed (pc_Irp p') = []).
Proof.
  intros device.
  assert (forall p, from_io_manager (pc_Irp p) -> exists o p', device p = Done (o, p')) as H.
  { intros p Hp. destruct (@device_calls_answered_once eval_acpi acpiioct_h acpiioct_laws acpiioct_signatures control_example
      control_example_laws kit_flags kit_thermal_codes control_codes_buffered NtWin10 true busy_device None p)
      as (o & p' & E & _); [exact eval_acpi_results|by vm_compute|done|done|by exists o, p']. }
  split_and!.
  - destruct (H (mkPdoCall control_call fresh_control (Some control_ec) None)) as (o & p' & E).
    + split; [done|]. intros _. split_and!; [by vm_compute..|by apply bytes_check].
    + exists p'. vm_compute in E |- *. by injection E as <- <-.
  - destruct (H (ask 0x294140 0 8 (Some (replicate 8 255)))) as (o & p' & E).
    + split; [done|]. intros _. split_and!; [by vm_compute..|by apply bytes_check].
    + exists p'. vm_compute in E |- *. by injection E as <- <-.
  - destruct (H (ask 0x220017 32 0 None)) as (o & p' & E); [by split|].
    exists p'. vm_compute in E |- *. by injection E as <- <-.
  - destruct (H (ask 0x294144 0 8 (Some (replicate 8 255)))) as (o & p' & E).
    + split; [done|]. intros _. split_and!; [by vm_compute..|by apply bytes_check].
    + exists p'. vm_compute in E |- *. by injection E as <- <-.
Defined.
