(* ===== verification/Enum.v ===== *)
(** The walk over the namespace that makes the device objects: src/sys/enum.c, and the
    list of children a bus query gets. *)
From stdpp Require Import base list numbers option strings.
From Stdlib Require Import ZArith Lia Ascii.
From S2P Require Import Prelude NtEnv AcpiEnv Bytes PowerRes PowerCaps Wake IrpQueue Button.

(** ** The namespace *)

Inductive node_type := DeviceNode | ThermalZoneNode | ProcessorNode.
#[export] Instance node_type_eq : EqDecision node_type.
Proof. solve_decision. Defined.

(** What the interpreter tells of a node: its children of those three types in the
    order of the namespace, its type ([None] when that fails), its name of four
    characters, its absolute path ([None] when the pool is exhausted); after the calls
    [h], its _HID, its _CID list and the processor ID of a Processor object; the two
    scopes that are walked, NULL when they are not there. *)
Class AcpiNames := {
  node_children : acpi_node -> list acpi_node;
  node_type_of : acpi_node -> option node_type;
  node_name : acpi_node -> string;
  node_path : acpi_node -> option string;
  answer_hid : list acpi_call -> acpi_node -> option string;
  answer_cid : list acpi_call -> acpi_node -> option (list string);
  answer_processor : list acpi_call -> acpi_node -> option Z;
  namespace_sb : acpi_node;
  namespace_tz : acpi_node
}.

(** The namespace is a tree of bounded depth: every node but a root is below one. *)
Class AcpiTree (N : AcpiNames) := {
  node_height : acpi_node -> nat;
  height_below : forall p c, In c (node_children p) -> (node_height c < node_height p)%nat;
  child_not_null : forall p c, In c (node_children p) -> c <> NULL;
  one_parent : forall p p' c, In c (node_children p) -> In c (node_children p') -> p = p'
}.

Definition UACPINT_STA_PRESENT : Z := 1.
Definition UACPINT_STA_FUNCTIONING : Z := 8.

(** RtlStringCbCopyA into a buffer of [n] bytes; what does not fit is cut off. *)
Definition cb_copy (n : nat) (s : string) : string := String.substring 0 (n - 1) s.

(** ** Device objects *)

(** The fields of UACPINT_PDO that the walk fills; [ep_Self] is the device object. *)
Record enum_pdo := mkEnumPdo {
  ep_Self : PVOID;
  ep_Node : acpi_node;
  ep_ScopeNode : acpi_node;
  ep_Present : bool;
  ep_Reported : bool;
  ep_IsThermalZone : bool;
  ep_IsProcessor : bool;
  ep_Adr : option Z;
  ep_Hid : string;
  ep_Name : string;
  ep_Instance : string;
  ep_Button : button
}.

Definition ep_set_Present (b : bool) (p : enum_pdo) : enum_pdo :=
  mkEnumPdo (ep_Self p) (ep_Node p) (ep_ScopeNode p) b (ep_Reported p) (ep_IsThermalZone p) (ep_IsProcessor p) (ep_Adr p)
    (ep_Hid p) (ep_Name p) (ep_Instance p) (ep_Button p).
Definition ep_set_Reported (p : enum_pdo) : enum_pdo :=
  mkEnumPdo (ep_Self p) (ep_Node p) (ep_ScopeNode p) (ep_Present p) true (ep_IsThermalZone p) (ep_IsProcessor p) (ep_Adr p)
    (ep_Hid p) (ep_Name p) (ep_Instance p) (ep_Button p).

(** The children of the root, the calls made, and how many devices were asked for. *)
Record enum_state := mkEnum {
  es_Pdos : list enum_pdo;
  es_Calls : list acpi_call;
  es_Created : nat
}.

Definition es_set_Pdos (l : list enum_pdo) (s : enum_state) : enum_state := mkEnum l (es_Calls s) (es_Created s).
Definition es_set_Calls (h : list acpi_call) (s : enum_state) : enum_state := mkEnum (es_Pdos s) h (es_Created s).

Definition find_pdo (Node : acpi_node) (l : list enum_pdo) : option nat := find_index (fun p => ep_Node p =? Node) l.

Section Walk.
Context {Po : PoClass} {A : Acpi} {N : AcpiNames}.
(** [ProcessorString] is UacpiNtProcessorString; the [k]-th IoCreateDevice gives a
    status and a device object. *)
Context (Win8 : bool) (ProcessorString : string) (create_device : nat -> NTSTATUS * PVOID).

(** ** What a node says of itself *)

Definition UacpiNtNodeReadAdr (Node : acpi_node) (h : list acpi_call) : option Z * list acpi_call :=
  uacpi_eval_simple_integer Node "_ADR" h.

(** Into a buffer of [HidSize] bytes; [None] leaves it empty. *)
Definition UacpiNtNodeReadHid (Node : acpi_node) (HidSize : nat) (h : list acpi_call) : option string * list acpi_call :=
  (option_map (cb_copy HidSize) (answer_hid h Node), CallEval Node "_HID" [] :: h).

Definition UacpiNtNodeIsPresent (Node : acpi_node) (h : list acpi_call) : bool * list acpi_call :=
  let '(Sta, h) := uacpi_eval_sta Node h in (has_flag Sta UACPINT_STA_PRESENT, h).

Definition UacpiNtHidIsExcluded (Hid : string) : bool := stricmp_equal Hid "PNP0C0F".
Definition UacpiNtHidIsContainer (Hid : string) : bool := stricmp_equal Hid "ACPI0010".

Definition UacpiNtGetProcessorInfo (Node : acpi_node) (h : list acpi_call) : option Z * list acpi_call :=
  (answer_processor h Node, CallEval Node "" [] :: h).

Definition UacpiNtNodeWillBecomePdo (Node : acpi_node) (h : list acpi_call) : bool * list acpi_call :=
  let '(Present, h) := UacpiNtNodeIsPresent Node h in
  if negb Present then (false, h)
  else
    let '(Hid, h) := UacpiNtNodeReadHid Node 16 h in
    (match Hid with Some Hid => negb (UacpiNtHidIsExcluded Hid) | None => false end, h).

(** ** Instance IDs *)

(** The path without its separators. *)
Fixpoint drop_separators (s : string) : string :=
  match s with
  | EmptyString => EmptyString
  | String c s => if Ascii.eqb c "\" || Ascii.eqb c "." then drop_separators s else String c (drop_separators s)
  end.

Definition digit (d : Z) : ascii := ascii_of_nat (Z.to_nat (if d <? 10 then 48 + d else 87 + d)).

(** The digits of [v] in a base, at most three of them. *)
Fixpoint digits (n : nat) (base v : Z) (rest : string) : string :=
  match n with
  | O => rest
  | S n => let rest := String (digit (v mod base)) rest in if v / base =? 0 then rest else digits n base (v / base) rest
  end.

(** "%2x" from Windows 8 on, "%2d" before; the ID is a byte. *)
Definition processor_instance (Id : Z) : string :=
  let base := if Win8 then 16 else 10 in
  let text := digits 3 base Id "" in
  if Id <? base then String " " text else text.

Definition UacpiNtPdoSetInstance (Node : acpi_node) (Name : string) (IsProcessor : bool) (h : list acpi_call)
  : string * list acpi_call :=
  let Instance := match node_path Node with
                  | Some Path => String.substring 0 63 (drop_separators Path)
                  | None => cb_copy 64 Name
                  end in
  if negb IsProcessor then (Instance, h)
  else
    let '(Info, h) := UacpiNtGetProcessorInfo Node h in
    (match Info with Some Id => processor_instance Id | None => Instance end, h).

(** ** Device objects *)

Definition new_button (Node : acpi_node) : button :=
  mkButton Node 0 0 0 false false false false false (UacpiNtWakeInit Node zero_wake).

(** The fields of a new device, with the calls their values need. *)
Definition new_pdo (Self : PVOID) (Node ScopeNode : acpi_node) (ThermalZone Processor : bool) (h : list acpi_call)
  : enum_pdo * list acpi_call :=
  let Name := node_name Node in
  let '(Instance, h) := UacpiNtPdoSetInstance Node Name Processor h in
  let '(Hid, h) :=
    if ThermalZone then (cb_copy 16 "ThermalZone", h)
    else let '(Hid, h) := UacpiNtNodeReadHid Node 16 h in (default "" Hid, h) in
  let '(Adr, h) := UacpiNtNodeReadAdr Node h in
  let '(_, Button) := UacpiNtButtonClassify Hid (new_button Node) in
  (mkEnumPdo Self Node ScopeNode true false ThermalZone Processor Adr Hid Name Instance Button, h).

(** The place of the device in the list. *)
Definition UacpiNtGetOrCreatePdo (Node ScopeNode : acpi_node) (ThermalZone : bool) (s : enum_state)
  : option nat * enum_state :=
  match find_pdo Node (es_Pdos s) with
  | Some k => (Some k, es_set_Pdos (alter (ep_set_Present true) k (es_Pdos s)) s)
  | None =>
      let Processor := negb ThermalZone && bool_decide (node_type_of Node = Some ProcessorNode) in
      if Processor && String.eqb ProcessorString "" then (None, s)
      else
        let '(Status, Self) := create_device (es_Created s) in
        let s := mkEnum (es_Pdos s) (es_Calls s) (S (es_Created s)) in
        if negb (NT_SUCCESS Status) then (None, s)
        else
          let '(p, h) := new_pdo Self Node ScopeNode ThermalZone Processor (es_Calls s) in
          (Some (length (es_Pdos s)), es_set_Calls h (es_set_Pdos (es_Pdos s ++ [p]) s))
  end.

(** One child; [descend] walks the children of a container. *)
Definition visit_child (descend : acpi_node -> enum_state -> enum_state) (Parent Child : acpi_node) (s : enum_state)
  : enum_state :=
  match node_type_of Child with
  | None => s
  | Some ThermalZoneNode => (UacpiNtGetOrCreatePdo Child Parent true s).2
  | Some Kind =>
      let '(Present, h) := UacpiNtNodeIsPresent Child (es_Calls s) in
      let s := es_set_Calls h s in
      if negb Present then
        match find_pdo Child (es_Pdos s) with
        | Some Stale => es_set_Pdos (alter (ep_set_Present false) Stale (es_Pdos s)) s
        | None => s
        end
      else match Kind with
           | ProcessorNode => (UacpiNtGetOrCreatePdo Child Parent false s).2
           | _ =>
               let '(Hid, h) := UacpiNtNodeReadHid Child 16 (es_Calls s) in
               let s := es_set_Calls h s in
               match Hid with
               | None => s
               | Some Hid =>
                   if UacpiNtHidIsExcluded Hid then s
                   else
                     let s := (UacpiNtGetOrCreatePdo Child Parent false s).2 in
                     if UacpiNtHidIsContainer Hid then descend Child s else s
               end
           end
  end.

(** [n]: how deep containers may nest. *)
Fixpoint UacpiNtBuildChildPdosForNode (n : nat) (Parent : acpi_node) (s : enum_state) : enum_state :=
  match n with
  | O => s
  | S n =>
      if Parent =? NULL then s
      else foldl (fun s Child => visit_child (UacpiNtBuildChildPdosForNode n) Parent Child s) s (node_children Parent)
  end.

Definition UacpiNtEnumerateNamespace (n : nat) (InterpreterReady : bool) (s : enum_state) : NTSTATUS * enum_state :=
  if negb InterpreterReady || (namespace_sb =? NULL) then (STATUS_UNSUCCESSFUL, s)
  else (STATUS_SUCCESS, UacpiNtBuildChildPdosForNode n namespace_tz (UacpiNtBuildChildPdosForNode n namespace_sb s)).
End Walk.

(** ** Relations *)

Definition UacpiNtPdoBelongsTo (Parent SecondParent : acpi_node) (p : enum_pdo) : bool :=
  if negb (ep_Present p) then false
  else (ep_ScopeNode p =? Parent) || (negb (SecondParent =? NULL) && (ep_ScopeNode p =? SecondParent)).

(** Room for [r_Capacity] objects; [r_Objects] are the first [Count]. *)
Record relations := mkRelations { r_Capacity : nat; r_Objects : list PVOID }.

(** The second loop of UacpiNtMergeChildRelations; a write behind the room is a
    fault. *)
Fixpoint append_children (Parent SecondParent : acpi_node) (Existing : list PVOID) (todo : list enum_pdo) (r : relations)
  : run (list enum_pdo * relations) :=
  match todo with
  | [] => Done ([], r)
  | p :: todo =>
      if negb (UacpiNtPdoBelongsTo Parent SecondParent p) || existsb (Z.eqb (ep_Self p)) Existing then
        '(l, r) ← append_children Parent SecondParent Existing todo r; Done (p :: l, r)
      else if (length (r_Objects r) <? r_Capacity r)%nat then
        '(l, r) ← append_children Parent SecondParent Existing todo (mkRelations (r_Capacity r) (r_Objects r ++ [ep_Self p]));
        Done (ep_set_Reported p :: l, r)
      else Fault
  end.

(** The relations the IRP brings ([None] for a NULL pointer) and those it leaves with;
    each one appended has got a reference. *)
Definition UacpiNtMergeChildRelations (Parent SecondParent : acpi_node) (Existing : option (list PVOID)) (s : enum_state)
  (w : world) : run (NTSTATUS * option (list PVOID) * enum_state * world) :=
  let Old := default [] Existing in
  let Added := length (filter (fun p => UacpiNtPdoBelongsTo Parent SecondParent p = true) (es_Pdos s)) in
  let Room := Nat.max 1 (length Old + Added) in
  let '(ok, w) := ExAllocatePoolWithTag (8 + 8 * Z.of_nat Room) w in
  if negb ok then Done (STATUS_INSUFFICIENT_RESOURCES, Existing, s, w)
  else
    '(l, r) ← append_children Parent SecondParent Old (es_Pdos s) (mkRelations Room Old);
    let w := match Existing with Some _ => ExFreePoolWithTag w | None => w end in
    Done (STATUS_SUCCESS, Some (r_Objects r), es_set_Pdos l s, w).

Section Relations.
Context {Po : PoClass} {A : Acpi} {N : AcpiNames} (Win8 : bool) (ProcessorString : string) (create_device : nat -> NTSTATUS * PVOID).

Definition UacpiNtBuildBusRelations (n : nat) (Existing : option (list PVOID)) (s : enum_state) (w : world) :=
  let s := UacpiNtBuildChildPdosForNode Win8 ProcessorString create_device n namespace_sb s in
  let s := UacpiNtBuildChildPdosForNode Win8 ProcessorString create_device n namespace_tz s in
  UacpiNtMergeChildRelations namespace_sb namespace_tz Existing s w.

(** The children of a device, before the filters over foreign devices. *)
Definition UacpiNtPdoBusRelations (n : nat) (Node : acpi_node) (Existing : option (list PVOID)) (s : enum_state) (w : world) :=
  let s := UacpiNtBuildChildPdosForNode Win8 ProcessorString create_device n Node s in
  UacpiNtMergeChildRelations Node NULL Existing s w.
End Relations.

(** ** The walk as a function *)

Section Pass.
Context {Po : PoClass} {A : Acpi} {N : AcpiNames} (Win8 : bool) (ProcessorString : string) (create_device : nat -> NTSTATUS * PVOID).

(** The answers of _STA and _HID from a log on. *)
Definition present_at (h : list acpi_call) (c : acpi_node) : bool := (UacpiNtNodeIsPresent c h).1.
Definition hid_at (h : list acpi_call) (c : acpi_node) : option string := (UacpiNtNodeReadHid c 16 h).1.
Definition stable (h0 : list acpi_call) : Prop :=
  forall h c, present_at (h ++ h0) c = present_at h0 c /\ hid_at (h ++ h0) c = hid_at h0 c.

(** The node's _HID is one a device object is made for. *)
Definition hid_fits (h : list acpi_call) (c : acpi_node) : bool :=
  match hid_at h c with Some Hid => negb (UacpiNtHidIsExcluded Hid) | None => false end.
Definition enters (h : list acpi_call) (c : acpi_node) : bool :=
  bool_decide (node_type_of c = Some DeviceNode) && present_at h c && hid_fits h c &&
  match hid_at h c with Some Hid => UacpiNtHidIsContainer Hid | None => false end.

(** Which nodes get a device object. *)
Definition becomes (h : list acpi_call) (c : acpi_node) : bool :=
  match node_type_of c with
  | None => false
  | Some ThermalZoneNode => true
  | Some ProcessorNode => present_at h c && negb (String.eqb ProcessorString "")
  | Some DeviceNode => present_at h c && hid_fits h c
  end.

(** The nodes the walk looks at, in its order. *)
Fixpoint visits (h : list acpi_call) (n : nat) (Parent : acpi_node) : list acpi_node :=
  match n with
  | O => []
  | S n =>
      if Parent =? NULL then []
      else flat_map (fun c => c :: if enters h c then visits h n c else []) (node_children Parent)
  end.

(** Whether a node has a device object, and a present one. *)
Definition shown (c : acpi_node) (l : list enum_pdo) : option bool :=
  find_pdo c l ≫= fun k => ep_Present <$> l !! k.

(** What looking at a node does to that. *)
Definition settle (h : list acpi_call) (c : acpi_node) (old : option bool) : option bool :=
  match node_type_of c with
  | None => old
  | Some ThermalZoneNode => Some true
  | Some Kind =>
      if negb (present_at h c) then option_map (fun _ => false) old
      else match Kind with
           | ProcessorNode => match old with None => if String.eqb ProcessorString "" then None else Some true | Some _ => Some true end
           | _ => if hid_fits h c then Some true else old
           end
  end.

Lemma settle_idem h c old : settle h c (settle h c old) = settle h c old.
Proof.
  unfold settle. destruct (node_type_of c) as [ [| |]|]; try done; destruct (negb (present_at h c)); try (by destruct old).
  - by destruct (hid_fits h c).
  - destruct old; [done|]. by destruct (String.eqb ProcessorString "").
Qed.

(** ** What every pass keeps *)

(** One device object per node, device objects distinct, strings that fit. *)
Record pdos_ok (created : nat) (l : list enum_pdo) : Prop := {
  po_nodes : forall i j p q, l !! i = Some p -> l !! j = Some q -> ep_Node p = ep_Node q -> ep_Node p <> NULL -> i = j;
  po_devices : NoDup (map ep_Self l);
  po_created : Forall (fun p => ep_Node p = NULL \/ exists k, (k < created)%nat /\ ep_Self p = (create_device k).2) l;
  po_strings : Forall (fun p => String.length (ep_Hid p) <= 15 /\ String.length (ep_Instance p) <= 63)%nat l;
  po_scope : Forall (fun p => ep_Node p = NULL \/ In (ep_Node p) (node_children (ep_ScopeNode p))) l
}.

(** The device objects the system makes are new ones. *)
Definition devices_new (l : list enum_pdo) : Prop :=
  (forall j k, (create_device j).2 = (create_device k).2 -> j = k) /\
  Forall (fun p => ep_Node p = NULL -> forall k, ep_Self p <> (create_device k).2) l.

Lemma substring_length n m s : (String.length (String.substring n m s) <= m)%nat.
Proof.
  revert n m. induction s as [|c s IH]; intros [|n] [|m]; simpl; try lia; [specialize (IH 0%nat m); lia|apply IH|apply IH].
Qed.

Lemma find_pdo_some c l k : find_pdo c l = Some k -> exists p, l !! k = Some p /\ ep_Node p = c.
Proof. intros H. apply find_index_some in H as (p & Hp & He). bool_prop. eauto. Qed.

Lemma find_pdo_none c l : find_pdo c l = None -> Forall (fun p => ep_Node p <> c) l.
Proof. intros H. apply find_index_none in H. eapply Forall_impl; [exact H|]. intros p Hp. simpl in Hp. by apply Z.eqb_neq. Qed.

Lemma alter_insert {B} (f : B -> B) k (l : list B) x : l !! k = Some x -> alter f k l = <[k := f x]> l.
Proof. revert k. induction l as [|y l IH]; intros [|k] H; try done; simpl in *; [by simplify_eq|]. f_equal. by apply IH. Qed.

Lemma find_pdo_alter c f k l : (forall p, ep_Node (f p) = ep_Node p) -> find_pdo c (alter f k l) = find_pdo c l.
Proof.
  intros Hf. destruct (l !! k) as [p|] eqn:E.
  - rewrite (alter_insert _ _ _ _ E). eapply find_index_insert; [exact E|]. by rewrite Hf.
  - f_equal. apply list_eq. intros i. destruct (decide (i = k)) as [->|]; [by rewrite list_lookup_alter_eq, E|by rewrite list_lookup_alter_ne].
Qed.

Lemma shown_present c d b k l : find_pdo d l = Some k ->
  shown c (alter (ep_set_Present b) k l) = if decide (c = d) then Some b else shown c l.
Proof.
  intros Hk. unfold shown. rewrite find_pdo_alter by done. destruct (find_pdo_some _ _ _ Hk) as (p & Hp & Hd).
  case_decide as He.
  - subst. rewrite Hk. simpl. by rewrite list_lookup_alter_eq, Hp.
  - destruct (find_pdo c l) as [j|] eqn:Ej; [|done]. simpl. destruct (find_pdo_some _ _ _ Ej) as (q & Hq & Hc).
    rewrite list_lookup_alter_ne; [done|]. intros ->. simplify_eq.
Qed.

Lemma shown_none c l : find_pdo c l = None -> shown c l = None.
Proof. unfold shown. by intros ->. Qed.

Lemma shown_append c l p : find_pdo (ep_Node p) l = None ->
  shown c (l ++ [p]) = if decide (c = ep_Node p) then Some (ep_Present p) else shown c l.
Proof.
  intros Hn. unfold shown, find_pdo in *. rewrite find_index_app. case_decide as He.
  - subst. rewrite Hn. simpl. rewrite Z.eqb_refl. simpl. by rewrite Nat.add_0_r, list_lookup_middle.
  - destruct (find_index (fun q => ep_Node q =? c) l) as [j|] eqn:Ej; simpl.
    + apply find_index_some in Ej as (q & Hq & _). rewrite Hq. by rewrite (lookup_app_l_Some _ _ _ _ Hq).
    + by rewrite (proj2 (Z.eqb_neq _ _)) by congruence.
Qed.

(** ** One pass *)

Context {T : AcpiTree N}.

Lemma present_log h c : exists k, (UacpiNtNodeIsPresent c h).2 = k ++ h.
Proof.
  unfold UacpiNtNodeIsPresent, uacpi_eval_sta. destruct (uacpi_eval c "_STA" [] h) as [ [st o] h'] eqn:E.
  unfold uacpi_eval in E. simplify_eq/=. by exists [CallEval c "_STA" [] ].
Qed.

Lemma digits_length base v : (String.length (digits 3 base v "") <= 3)%nat.
Proof. simpl. by repeat case_match; simpl; repeat constructor. Qed.

Lemma set_instance_facts c Name Pr h Inst h' : UacpiNtPdoSetInstance Win8 c Name Pr h = (Inst, h') ->
  (exists k, h' = k ++ h) /\ (String.length Inst <= 63)%nat.
Proof.
  unfold UacpiNtPdoSetInstance, UacpiNtGetProcessorInfo, cb_copy. intros E.
  assert (forall Id, String.length (processor_instance Win8 Id) <= 63)%nat as HP.
  { intros Id. unfold processor_instance. pose proof (digits_length (if Win8 then 16 else 10) Id) as Hd.
    set (text := digits 3 _ Id "") in *. destruct (_ <? _); cbn [String.length]; lia. }
  set (Path := match node_path c with Some Path => _ | None => _ end) in E.
  assert (String.length Path <= 63)%nat as HI by (unfold Path; destruct (node_path c); apply substring_length).
  destruct Pr; simpl in E; simplify_eq.
  - split; [by exists [CallEval c "" [] ]|]. destruct (answer_processor h c); [apply HP|done].
  - split; [by exists []|done].
Qed.

Lemma new_pdo_log Self c P Tz Pr h p h' : new_pdo Win8 Self c P Tz Pr h = (p, h') ->
  (exists k, h' = k ++ h) /\ ep_Self p = Self /\ ep_Node p = c /\ ep_ScopeNode p = P /\ ep_Present p = true /\
  (String.length (ep_Hid p) <= 15 /\ String.length (ep_Instance p) <= 63)%nat.
Proof.
  unfold new_pdo. intros E. destruct (UacpiNtPdoSetInstance Win8 c (node_name c) Pr h) as [Inst h1] eqn:Es.
  apply set_instance_facts in Es as [ [k1 ->] HI].
  set (HidCalls := if Tz then _ else _) in E.
  assert ((exists k, HidCalls.2 = k ++ k1 ++ h) /\ String.length HidCalls.1 <= 15)%nat as [ [k2 Hk] HH].
  { unfold HidCalls, UacpiNtNodeReadHid. destruct Tz; simpl; [split; [by exists []|lia]|].
    split; [by exists [CallEval c "_HID" [] ]|]. destruct (answer_hid _ c); simpl; [apply substring_length|lia]. }
  clearbody HidCalls. destruct HidCalls as [Hid h2]. simpl in *. subst.
  unfold UacpiNtNodeReadAdr, uacpi_eval_simple_integer, uacpi_eval in E.
  destruct (answer_eval _ c "_ADR" []) as [st o]. destruct (UacpiNtButtonClassify Hid (new_button c)) as [b Button]. simplify_eq/=.
  split; [exists (CallEval c "_ADR" [] :: k2 ++ k1); simpl; by rewrite <- app_assoc|]. by split_and!.
Qed.

(** A state in the middle of a pass that began with the log [h0]. *)
Definition in_pass (h0 : list acpi_call) (s : enum_state) : Prop :=
  (exists k, es_Calls s = k ++ h0) /\ pdos_ok (es_Created s) (es_Pdos s) /\ devices_new (es_Pdos s).

Lemma pdos_alter created f k l : (forall p, ep_Self (f p) = ep_Self p /\ ep_Node (f p) = ep_Node p /\ ep_ScopeNode (f p) = ep_ScopeNode p /\
    ep_Hid (f p) = ep_Hid p /\ ep_Instance (f p) = ep_Instance p) ->
  pdos_ok created l /\ devices_new l -> pdos_ok created (alter f k l) /\ devices_new (alter f k l).
Proof.
  intros Hf ([H1 H2 H3 H4 H5] & Hn1 & Hn2).
  assert (forall (B : Type) (g : enum_pdo -> B), (forall p, g (f p) = g p) -> map g (alter f k l) = map g l) as Hm.
  { intros B g Hg. clear -Hg. revert k. induction l as [|x l IH]; intros [|k]; simpl; try done; f_equal; [apply Hg|apply IH]. }
  assert (forall P : enum_pdo -> Prop, (forall p, P p -> P (f p)) -> Forall P l -> Forall P (alter f k l)) as Ha.
  { intros P HP HF. by apply Forall_alter; auto. }
  split; [split|split]; try done.
  - intros i j p q Hi Hj He HN.
    assert (forall i p, alter f k l !! i = Some p -> exists p', l !! i = Some p' /\ ep_Node p' = ep_Node p) as Hl.
    { intros m p0 Hp. destruct (decide (m = k)) as [->|]; [|rewrite list_lookup_alter_ne in Hp by done; eauto].
      rewrite list_lookup_alter_eq in Hp. destruct (l !! k) as [p'|] eqn:E; simplify_eq/=. exists p'. split; [done|]. symmetry. apply Hf. }
    apply Hl in Hi as (p' & Hi & Ep). apply Hl in Hj as (q' & Hj & Eq). eapply H1; [exact Hi|exact Hj|congruence|congruence].
  - by rewrite Hm by apply Hf.
  - apply Ha; [|done]. intros p. destruct (Hf p) as (-> & -> & _). done.
  - apply Ha; [|done]. intros p. destruct (Hf p) as (_ & _ & _ & -> & ->). done.
  - apply Ha; [|done]. intros p. destruct (Hf p) as (_ & -> & -> & _). done.
  - apply Ha; [|done]. intros p. destruct (Hf p) as (-> & -> & _). done.
Qed.

Lemma in_pass_present h0 s b k : in_pass h0 s -> in_pass h0 (es_set_Pdos (alter (ep_set_Present b) k (es_Pdos s)) s).
Proof. intros (Hk & Hp & Hd). split; [done|]. by apply pdos_alter. Qed.

Lemma in_pass_calls h0 s k : in_pass h0 s -> in_pass h0 (es_set_Calls (k ++ es_Calls s) s).
Proof. intros ([k' E] & Hp & Hd). split; [|by split]. exists (k ++ k'). simpl. by rewrite E, app_assoc. Qed.

(** A new device. *)
Lemma pdos_append created l p c P : pdos_ok created l -> devices_new l -> find_pdo c l = None -> In c (node_children P) ->
  ep_Self p = (create_device created).2 -> ep_Node p = c -> ep_ScopeNode p = P ->
  (String.length (ep_Hid p) <= 15 /\ String.length (ep_Instance p) <= 63)%nat ->
  pdos_ok (S created) (l ++ [p]) /\ devices_new (l ++ [p]).
Proof.
  intros [H1 H2 H3 H4 H5] [Hn1 Hn2] Hf Hc Es En EP Hst. pose proof (find_pdo_none _ _ Hf) as Hno. rewrite Forall_lookup in Hno.
  pose proof (child_not_null _ _ Hc) as Hcn. split; [split|split].
  - intros i j q r Hi Hj He HN.
    apply lookup_app_Some in Hi as [Hi|[Li Hi] ]; apply lookup_app_Some in Hj as [Hj|[Lj Hj] ].
    + by eapply H1.
    + apply list_lookup_singleton_Some in Hj as [_ <-]. destruct (Hno i q Hi). congruence.
    + apply list_lookup_singleton_Some in Hi as [_ <-]. destruct (Hno j r Hj). congruence.
    + apply list_lookup_singleton_Some in Hi as [Hi _], Hj as [Hj _]. lia.
  - rewrite map_app. apply NoDup_app. split_and!; [done| |apply NoDup_singleton].
    intros x Hx ->%list_elem_of_singleton. apply list_elem_of_fmap in Hx as (q & Eq & Hq).
    rewrite Forall_forall in H3, Hn2. rewrite Es in Eq. destruct (H3 q Hq) as [Hz|(k & Hk & Ek)].
    + by destruct (Hn2 q Hq Hz created).
    + rewrite Ek in Eq. apply Hn1 in Eq. lia.
  - apply Forall_app. split; [|constructor; [|done]; right; exists created; by split; [lia|]].
    eapply Forall_impl; [exact H3|]. intros q [?|(k & ? & ?)]; [by left|right; exists k; split; [lia|done] ].
  - apply Forall_app. split; [done|]. by constructor.
  - apply Forall_app. split; [done|]. constructor; [|done]. right. by rewrite En, EP.
  - done.
  - apply Forall_app. split; [done|]. constructor; [|done]. rewrite En. done.
Qed.

Definition creates_ok : Prop := forall k, NT_SUCCESS (create_device k).1 = true.

(** A node of type Processor needs the ID string. *)
Definition creatable (c : acpi_node) (Tz : bool) : bool :=
  Tz || negb (bool_decide (node_type_of c = Some ProcessorNode)) || negb (String.eqb ProcessorString "").

Lemma get_or_create_pass h0 c P Tz s o s' : in_pass h0 s -> In c (node_children P) ->
  UacpiNtGetOrCreatePdo Win8 ProcessorString create_device c P Tz s = (o, s') ->
  in_pass h0 s' /\
  (creates_ok -> forall d, shown d (es_Pdos s') = if decide (d = c)
     then (if creatable c Tz then Some true else option_map (fun _ => true) (shown c (es_Pdos s))) else shown d (es_Pdos s)).
Proof.
  intros Hs Hc E. unfold UacpiNtGetOrCreatePdo in E. destruct (find_pdo c (es_Pdos s)) as [k|] eqn:Ef.
  { simplify_eq. split; [by apply in_pass_present|]. intros _ d. simpl. rewrite (shown_present d c true k _ Ef).
    destruct (decide (d = c)); [|done]. destruct (creatable c Tz); [done|]. unfold shown. rewrite Ef. simpl.
    destruct (find_pdo_some _ _ _ Ef) as (p & -> & _). done. }
  assert (negb Tz && bool_decide (node_type_of c = Some ProcessorNode) && String.eqb ProcessorString "" = negb (creatable c Tz)) as Ec.
  { unfold creatable. by destruct Tz, (bool_decide _), (String.eqb _ _). }
  rewrite Ec in E. destruct (creatable c Tz) eqn:Ecr; simpl in E.
  2: { simplify_eq. split; [done|]. intros _ d. rewrite (shown_none c) by done. destruct (decide (d = c)); [subst; by apply shown_none|done]. }
  destruct (create_device (es_Created s)) as [st Self] eqn:Ed. destruct Hs as ([k Ek] & Hp & Hn).
  destruct (NT_SUCCESS st) eqn:Est; simpl in E.
  - destruct (new_pdo _ _ _ _ _ _ _) as [p h] eqn:Enp. simplify_eq. apply new_pdo_log in Enp as ([k' ->] & Es & En & EP & Epr & Hst).
    destruct (pdos_append (es_Created s) (es_Pdos s) p c P) as [Hp' Hn']; try done; [by rewrite Es, Ed|].
    split; [split; [exists (k' ++ k); simpl; by rewrite Ek, app_assoc|by split]|].
    intros _ d. simpl. rewrite shown_append by (by rewrite En). by rewrite En, Epr.
  - simplify_eq. split; [|intros Hok; specialize (Hok (es_Created s)); rewrite Ed in Hok; simpl in Hok; congruence].
    split; [by exists k|]. split; [|done]. destruct Hp as [H1 H2 H3 H4 H5]. split; try done. simpl.
    eapply Forall_impl; [exact H3|]. intros q [?|(j & ? & ?)]; [by left|right; exists j; split; [lia|done] ].
Qed.

Lemma present_pass h0 c s b h : in_pass h0 s -> UacpiNtNodeIsPresent c (es_Calls s) = (b, h) ->
  in_pass h0 (es_set_Calls h s) /\ (stable h0 -> b = present_at h0 c).
Proof.
  intros Hs E. pose proof Hs as ([k Ek] & _). destruct (present_log (es_Calls s) c) as [k' Hk]. rewrite E in Hk. simpl in Hk. subst.
  split; [by apply in_pass_calls|]. intros Hst. destruct (Hst k c) as [<- _]. unfold present_at. by rewrite <- Ek, E.
Qed.

Lemma hid_pass h0 c s o h : in_pass h0 s -> UacpiNtNodeReadHid c 16 (es_Calls s) = (o, h) ->
  in_pass h0 (es_set_Calls h s) /\ (stable h0 -> o = hid_at h0 c).
Proof.
  intros Hs E. pose proof Hs as ([k Ek] & _). split.
  - unfold UacpiNtNodeReadHid in E. simplify_eq. by apply (in_pass_calls h0 s [CallEval c "_HID" [] ]).
  - intros Hst. destruct (Hst k c) as [_ <-]. unfold hid_at. by rewrite <- Ek, E.
Qed.

(** What a walk of a subtree does to the devices of the nodes in [l]. *)
Definition settles (h0 : list acpi_call) (l : list acpi_node) (s s' : enum_state) : Prop :=
  forall d, shown d (es_Pdos s') = if decide (d ∈ l) then settle h0 d (shown d (es_Pdos s)) else shown d (es_Pdos s).

Lemma settles_app h0 l k s s1 s2 : settles h0 l s s1 -> settles h0 k s1 s2 -> settles h0 (l ++ k) s s2.
Proof.
  intros H1 H2 d. rewrite (H2 d), (H1 d). destruct (decide (d ∈ l)) as [Hl|Hl], (decide (d ∈ k)) as [Hk|Hk];
    case_decide as H; rewrite elem_of_app in H; try (by destruct H; tauto || (rewrite ?settle_idem; tauto)); try done;
    try (rewrite settle_idem; done); exfalso; tauto.
Qed.

Lemma settles_nil h0 s : settles h0 [] s s.
Proof. intros d. by rewrite decide_False by (by intros ?%elem_of_nil). Qed.

(** Looking at one node, without its children. *)
Lemma settles_one h0 c s s' old' : (forall d, shown d (es_Pdos s') = if decide (d = c) then old' else shown d (es_Pdos s)) ->
  old' = settle h0 c (shown c (es_Pdos s)) -> settles h0 [c] s s'.
Proof.
  intros H -> d. rewrite (H d). destruct (decide (d = c)) as [->|Hd].
  - rewrite decide_True; [done|]. by apply list_elem_of_singleton.
  - rewrite decide_False; [done|]. by rewrite list_elem_of_singleton.
Qed.

Lemma settles_stale h0 c s : find_pdo c (es_Pdos s) = None -> settle h0 c (shown c (es_Pdos s)) = shown c (es_Pdos s) ->
  settles h0 [c] s s.
Proof. intros Hf Hs. apply (settles_one _ _ _ _ (shown c (es_Pdos s))); [|done]. intros d. by destruct (decide (d = c)) as [->|]. Qed.

Lemma visit_pass h0 descend P c s : in_pass h0 s -> In c (node_children P) ->
  (forall s, in_pass h0 s -> in_pass h0 (descend c s)) -> in_pass h0 (visit_child Win8 ProcessorString create_device descend P c s).
Proof.
  intros Hs Hc Hd. unfold visit_child.
  assert (forall Tz s, in_pass h0 s -> in_pass h0 (UacpiNtGetOrCreatePdo Win8 ProcessorString create_device c P Tz s).2) as Hg.
  { intros Tz s1 H1. destruct (UacpiNtGetOrCreatePdo _ _ _ c P Tz s1) as [o s2] eqn:E. by apply (get_or_create_pass h0) in E as [? _]. }
  destruct (node_type_of c) as [k|]; [|done].
  assert (in_pass h0 (es_set_Calls (UacpiNtNodeIsPresent c (es_Calls s)).2 s)) as H1.
  { destruct (UacpiNtNodeIsPresent c (es_Calls s)) as [b h] eqn:Ep. by apply (present_pass h0 c s) in Ep as [? _]. }
  destruct (UacpiNtNodeIsPresent c (es_Calls s)) as [Present h]. simpl in H1.
  assert (in_pass h0 (if negb Present then match find_pdo c (es_Pdos s) with
     Some Stale => es_set_Pdos (alter (ep_set_Present false) Stale (es_Pdos s)) (es_set_Calls h s) | None => es_set_Calls h s end
     else es_set_Calls h s)) as H2.
  { destruct (negb Present); [|done]. destruct (find_pdo c (es_Pdos s)); [|done]. by apply (in_pass_present h0 (es_set_Calls h s)). }
  destruct k; [| |].
  - destruct (negb Present); [exact H2|]. destruct (UacpiNtNodeReadHid c 16 _) as [o h1] eqn:Eh.
    apply (hid_pass h0 c (es_set_Calls h s)) in Eh as [H3 _]; [|done]. destruct o as [Hid|]; [|done].
    destruct (UacpiNtHidIsExcluded Hid); [done|]. destruct (UacpiNtHidIsContainer Hid); [apply Hd|]; by apply Hg.
  - by apply Hg.
  - destruct (negb Present); [exact H2|]. by apply Hg.
Qed.

Lemma build_pass h0 n : forall P s, in_pass h0 s -> in_pass h0 (UacpiNtBuildChildPdosForNode Win8 ProcessorString create_device n P s).
Proof.
  induction n as [|n IH]; intros P s Hs; [done|]. simpl. destruct (P =? NULL); [done|].
  assert (forall l s, (forall c, In c l -> In c (node_children P)) -> in_pass h0 s -> in_pass h0 (foldl (fun s c =>
    visit_child Win8 ProcessorString create_device (UacpiNtBuildChildPdosForNode Win8 ProcessorString create_device n) P c s) s l)) as Hf.
  { induction l as [|c l IHl]; intros s1 Hl H1; [done|]. simpl. apply IHl; [intros; apply Hl; by right|].
    apply visit_pass; [done|apply Hl; by left|]. intros. by apply IH. }
  by apply Hf.
Qed.

Lemma visit_settles h0 descend below P c s : stable h0 -> creates_ok -> in_pass h0 s -> In c (node_children P) ->
  (forall s, in_pass h0 s -> settles h0 below s (descend c s)) ->
  settles h0 (c :: if enters h0 c then below else []) s (visit_child Win8 ProcessorString create_device descend P c s).
Proof.
  intros Hst Hok Hs Hc Hd. unfold visit_child.
  assert (forall Tz s, in_pass h0 s -> settle h0 c (shown c (es_Pdos s)) =
      (if creatable c Tz then Some true else option_map (fun _ => true) (shown c (es_Pdos s))) ->
    in_pass h0 (UacpiNtGetOrCreatePdo Win8 ProcessorString create_device c P Tz s).2 /\
    settles h0 [c] s (UacpiNtGetOrCreatePdo Win8 ProcessorString create_device c P Tz s).2) as Hg.
  { intros Tz s1 H1 H2. destruct (UacpiNtGetOrCreatePdo _ _ _ c P Tz s1) as [o s2] eqn:E.
    apply (get_or_create_pass h0) in E as [? H3]; [|done..]. split; [done|]. by eapply settles_one; [apply H3|]. }
  destruct (node_type_of c) as [k|] eqn:Ek.
  2: { unfold enters. rewrite Ek. simpl. apply (settles_one _ _ _ _ (shown c (es_Pdos s))); [|unfold settle; by rewrite Ek].
       intros d. by destruct (decide (d = c)) as [->|]. }
  destruct (UacpiNtNodeIsPresent c (es_Calls s)) as [Present h] eqn:Ep.
  apply (present_pass h0 c s) in Ep as [H1 Epr]; [|done]. specialize (Epr Hst). subst Present.
  assert (settle h0 c (shown c (es_Pdos s)) = option_map (fun _ => false) (shown c (es_Pdos s)) -> settles h0 [c] s
     (match find_pdo c (es_Pdos s) with
     Some Stale => es_set_Pdos (alter (ep_set_Present false) Stale (es_Pdos s)) (es_set_Calls h s) | None => es_set_Calls h s end)) as Hstale.
  { intros Hse. destruct (find_pdo c (es_Pdos s)) as [k'|] eqn:Ef.
    - eapply settles_one; [intros d; simpl; by apply shown_present|]. rewrite Hse. unfold shown. rewrite Ef. simpl.
      by destruct (find_pdo_some _ _ _ Ef) as (p & -> & _).
    - apply (settles_one _ _ _ _ (shown c (es_Pdos s))); [intros d; by destruct (decide (d = c)) as [->|]|].
      rewrite Hse. by rewrite (shown_none c). }
  destruct k.
  - destruct (present_at h0 c) eqn:Epr; cbn [negb].
    2: { unfold enters. rewrite Epr, andb_false_r. simpl. apply Hstale. unfold settle. by rewrite Ek, Epr. }
    cbn [es_Calls es_set_Calls]. destruct (UacpiNtNodeReadHid c 16 h) as [o h1] eqn:Eh. apply (hid_pass h0 c (es_set_Calls h s)) in Eh as [H3 Eo]; [|done].
    specialize (Eo Hst). subst o. unfold enters, hid_fits. rewrite Ek, Epr, bool_decide_true by done. simpl.
    destruct (hid_at h0 c) as [Hid|] eqn:Eh.
    2: { apply (settles_one _ _ _ _ (shown c (es_Pdos s))); [intros d; by destruct (decide (d = c)) as [->|]|].
         unfold settle, hid_fits. by rewrite Ek, Epr, Eh. }
    destruct (UacpiNtHidIsExcluded Hid) eqn:Ex; simpl.
    { apply (settles_one _ _ _ _ (shown c (es_Pdos s))); [intros d; by destruct (decide (d = c)) as [->|]|].
      unfold settle, hid_fits. by rewrite Ek, Epr, Eh, Ex. }
    destruct (Hg false _ H3) as [H4 H5].
    { unfold settle, hid_fits, creatable. rewrite Ek, Epr, Eh, Ex. by rewrite bool_decide_false. }
    destruct (UacpiNtHidIsContainer Hid); [|exact H5]. apply (settles_app h0 [c] below _ _ _ H5). by apply Hd.
  - destruct (Hg true _ Hs) as [H4 H5]; [by unfold settle; rewrite Ek|].
    unfold enters. by rewrite Ek.
  - destruct (present_at h0 c) eqn:Epr; cbn [negb].
    + destruct (Hg false _ H1) as [H4 H5].
      { unfold settle, creatable. rewrite Ek, Epr. rewrite bool_decide_true by done. simpl.
        destruct (shown c (es_Pdos s)) as [b|], (String.eqb ProcessorString ""); done. }
      unfold enters. by rewrite Ek.
    + unfold enters. rewrite Ek. simpl. apply Hstale. unfold settle. by rewrite Ek, Epr.
Qed.

(** The walk settles exactly the nodes of [visits]. *)
Lemma build_settles h0 n : stable h0 -> creates_ok -> forall P s, in_pass h0 s ->
  settles h0 (visits h0 n P) s (UacpiNtBuildChildPdosForNode Win8 ProcessorString create_device n P s).
Proof.
  intros Hst Hok. induction n as [|n IH]; intros P s Hs; [apply settles_nil|]. simpl. destruct (P =? NULL); [apply settles_nil|].
  assert (forall l s, (forall c, In c l -> In c (node_children P)) -> in_pass h0 s ->
    settles h0 (flat_map (fun c => c :: if enters h0 c then visits h0 n c else []) l) s (foldl (fun s c =>
    visit_child Win8 ProcessorString create_device (UacpiNtBuildChildPdosForNode Win8 ProcessorString create_device n) P c s) s l)) as Hf.
  { induction l as [|c l IHl]; intros s1 Hl H1; [apply settles_nil|]. simpl.
    rewrite app_comm_cons. eapply settles_app.
    - apply (visit_settles h0 (UacpiNtBuildChildPdosForNode Win8 ProcessorString create_device n) (visits h0 n c) P c); try done; [apply Hl; by left|]. intros. by apply IH.
    - apply IHl; [intros; apply Hl; by right|]. apply visit_pass; [done|apply Hl; by left|]. intros. by apply build_pass. }
  by apply Hf.
Qed.
End Pass.
