(* ===== verification/EnumPass.v ===== *)
(** What a pass over the namespace and a bus query of src/sys/enum.c do: every node in
    reach settled, one device object per node, children reported once. *)
From stdpp Require Import base list numbers option strings.
From Stdlib Require Import ZArith Lia Ascii.
From S2P Require Import Prelude NtEnv AcpiEnv Bytes PowerRes PowerCaps Wake IrpQueue Button Enum.

Section Pass.
Context {Po : PoClass} {A : Acpi} {N : AcpiNames} {T : AcpiTree N}.
Context (Win8 : bool) (ProcessorString : string) (create_device : nat -> NTSTATUS * PVOID).

(** ** Nodes in reach *)

(** The children of the scope, and those of the containers among them. *)
Inductive walked (h : list acpi_call) (Scope : acpi_node) : acpi_node -> Prop :=
| walked_child c : Scope <> NULL -> In c (node_children Scope) -> walked h Scope c
| walked_below c d : walked h Scope c -> enters h c = true -> In d (node_children c) -> walked h Scope d.

Lemma walked_trans h Scope c d : walked h Scope c -> enters h c = true -> walked h c d -> walked h Scope d.
Proof. intros Hc He Hd. induction Hd; eauto using walked. Qed.

Lemma visits_walked h n : forall Scope d, d ∈ visits h n Scope -> walked h Scope d.
Proof.
  induction n as [|n IH]; intros Scope d Hd; simpl in Hd; [by apply elem_of_nil in Hd|].
  destruct (Z.eqb_spec Scope NULL) as [|Hs]; [by apply elem_of_nil in Hd|].
  apply list_elem_of_In, in_flat_map in Hd as (c & Hc & Hd).
  assert (walked h Scope c) as Hw by by apply walked_child.
  destruct Hd as [->|Hd]; [done|]. destruct (enters h c) eqn:He; [|done].
  eapply walked_trans; [exact Hw|done|]. apply IH. by apply list_elem_of_In.
Qed.

Lemma visits_child h n Scope c : Scope <> NULL -> In c (node_children Scope) -> c ∈ visits h (S n) Scope.
Proof.
  intros Hs Hc. simpl. rewrite (proj2 (Z.eqb_neq _ _)) by done. apply list_elem_of_In, in_flat_map. exists c. split; [done|by left].
Qed.

Lemma visits_below h n : forall Scope c d, (node_height Scope < n)%nat -> c ∈ visits h n Scope -> enters h c = true ->
  In d (node_children c) -> d ∈ visits h n Scope.
Proof.
  induction n as [|n IH]; intros Scope c d Hn Hc He Hd; [lia|]. pose proof Hc as Hc'. simpl in Hc |- *.
  destruct (Z.eqb_spec Scope NULL) as [|Hs]; [by apply elem_of_nil in Hc|].
  apply list_elem_of_In, in_flat_map in Hc as (b & Hb & Hc). apply list_elem_of_In, in_flat_map. exists b. split; [done|].
  pose proof (height_below _ _ Hb). right. destruct Hc as [->|Hc].
  - rewrite He. destruct n as [|n]; [lia|]. apply list_elem_of_In, visits_child; [by eapply child_not_null|done].
  - destruct (enters h b); [|done]. apply list_elem_of_In. apply list_elem_of_In in Hc. eapply IH; eauto. lia.
Qed.

Lemma elem_of_visits h n Scope d : (node_height Scope < n)%nat -> d ∈ visits h n Scope <-> walked h Scope d.
Proof.
  intros Hn. split; [apply visits_walked|]. induction 1; [|by eapply visits_below].
  destruct n; [lia|]. by apply visits_child.
Qed.

(** ** Enough fuel *)

Lemma visit_child_ext f g P c s : (forall s, f c s = g c s) ->
  visit_child Win8 ProcessorString create_device f P c s = visit_child Win8 ProcessorString create_device g P c s.
Proof. intros H. unfold visit_child. by repeat case_match. Qed.

Lemma foldl_ext_in {B C} (f g : B -> C -> B) l : (forall s c, In c l -> f s c = g s c) -> forall s, foldl f s l = foldl g s l.
Proof.
  induction l as [|c l IH]; intros H s; [done|]. simpl. rewrite (H s c) by by left. apply IH. intros. apply H. by right.
Qed.

(** C8.  The walk ends: with more fuel than the scope is high, the fuel makes no
    difference to what the walk does. *)
Theorem build_terminates n m Scope s : (node_height Scope < n)%nat -> (node_height Scope < m)%nat ->
  UacpiNtBuildChildPdosForNode Win8 ProcessorString create_device n Scope s =
  UacpiNtBuildChildPdosForNode Win8 ProcessorString create_device m Scope s.
Proof.
  revert m Scope s. induction n as [|n IH]; intros [|m] Scope s Hn Hm; try lia. simpl. destruct (Scope =? NULL); [done|].
  apply foldl_ext_in. intros s1 c Hc. pose proof (height_below _ _ Hc). apply visit_child_ext. intros. apply IH; lia.
Qed.

(** ** A whole pass *)

Lemma two_scopes h0 n s : in_pass create_device h0 s ->
  in_pass create_device h0 (UacpiNtBuildChildPdosForNode Win8 ProcessorString create_device n namespace_tz
    (UacpiNtBuildChildPdosForNode Win8 ProcessorString create_device n namespace_sb s)).
Proof. intros Hs. by repeat apply build_pass. Qed.

Lemma two_scopes_settle h0 n s : stable h0 -> creates_ok create_device -> in_pass create_device h0 s ->
  settles ProcessorString h0 (visits h0 n namespace_sb ++ visits h0 n namespace_tz) s
    (UacpiNtBuildChildPdosForNode Win8 ProcessorString create_device n namespace_tz
      (UacpiNtBuildChildPdosForNode Win8 ProcessorString create_device n namespace_sb s)).
Proof. intros Hst Hok Hs. eapply settles_app; apply build_settles; try done. by apply build_pass. Qed.

Definition in_reach (h : list acpi_call) (c : acpi_node) : Prop := walked h namespace_sb c \/ walked h namespace_tz c.

Lemma reach_visits h n c : (node_height namespace_sb < n)%nat -> (node_height namespace_tz < n)%nat ->
  c ∈ visits h n namespace_sb ++ visits h n namespace_tz <-> in_reach h c.
Proof. intros H1 H2. unfold in_reach. by rewrite elem_of_app, !elem_of_visits. Qed.

(** What is asked of the state a pass starts from. *)
Definition ready (s : enum_state) : Prop :=
  pdos_ok create_device (es_Created s) (es_Pdos s) /\ devices_new create_device (es_Pdos s).

Lemma ready_pass s : ready s -> in_pass create_device (es_Calls s) s.
Proof. intros [H1 H2]. split; [by exists []|by split]. Qed.

Lemma pass_ready h0 s : in_pass create_device h0 s -> ready s.
Proof. by intros (_ & H1 & H2). Qed.

(** C38.  While _STA and _HID answer the same throughout and device objects can be
    made, a pass over the namespace settles exactly the nodes in reach - those below
    \_SB and \_TZ and below containers - whatever was there before, and touches no
    other device: a thermal zone gets or keeps a present device, a node whose _STA says
    absent has its device marked gone, a device node with a _HID that is not an
    interrupt link's gets or keeps a present one, and so does a processor, if the
    processor string is known or it had one. *)
Theorem enumeration_exact n s : ready s -> stable (es_Calls s) -> creates_ok create_device ->
  (node_height namespace_sb < n)%nat -> (node_height namespace_tz < n)%nat -> namespace_sb <> NULL ->
  exists s', UacpiNtEnumerateNamespace Win8 ProcessorString create_device n true s = (STATUS_SUCCESS, s') /\ ready s' /\
    forall c, (in_reach (es_Calls s) c -> shown c (es_Pdos s') = settle ProcessorString (es_Calls s) c (shown c (es_Pdos s))) /\
              (~ in_reach (es_Calls s) c -> shown c (es_Pdos s') = shown c (es_Pdos s)).
Proof.
  intros Hr Hst Hok H1 H2 Hsb. unfold UacpiNtEnumerateNamespace. rewrite (proj2 (Z.eqb_neq _ _)) by done. simpl.
  eexists. split; [done|]. pose proof (ready_pass s Hr) as Hp. split; [by eapply pass_ready, two_scopes|].
  intros c. pose proof (two_scopes_settle (es_Calls s) n s Hst Hok Hp c) as Hc. rewrite Hc.
  pose proof (reach_visits (es_Calls s) n c H1 H2) as Hv. split; intros Hw.
  - by rewrite decide_True by by apply Hv.
  - by rewrite decide_False by (intros ?%Hv; done).
Qed.

Lemma settle_fresh h c : settle ProcessorString h c None = if becomes ProcessorString h c then Some true else None.
Proof.
  unfold settle, becomes. destruct (node_type_of c) as [ [| |]|]; [| | |done].
  - by destruct (present_at h c), (hid_fits h c).
  - done.
  - by destruct (present_at h c), (String.eqb ProcessorString "").
Qed.

Lemma shown_true_iff c l : shown c l <> None <-> exists p, p ∈ l /\ ep_Node p = c.
Proof.
  unfold shown. destruct (find_pdo c l) as [k|] eqn:E; simpl.
  - destruct (find_pdo_some _ _ _ E) as (p & Hp & Hc). rewrite Hp. split; [intros _|done]. exists p. split; [|done].
    by eapply list_elem_of_lookup_2.
  - split; [done|]. apply find_pdo_none in E. rewrite Forall_forall in E. intros (p & Hp & Hc). by destruct (E p Hp).
Qed.

(** The first pass makes device objects for exactly the nodes in reach that a
    device is made for, one each, all present, and their device objects differ. *)
Theorem first_enumeration n s : es_Pdos s = [] -> ready s -> stable (es_Calls s) -> creates_ok create_device ->
  (node_height namespace_sb < n)%nat -> (node_height namespace_tz < n)%nat -> namespace_sb <> NULL ->
  let l := es_Pdos (UacpiNtEnumerateNamespace Win8 ProcessorString create_device n true s).2 in
  (forall c, (exists p, p ∈ l /\ ep_Node p = c) <-> in_reach (es_Calls s) c /\ becomes ProcessorString (es_Calls s) c = true) /\
  NoDup (map ep_Self l) /\
  (forall i j p q, l !! i = Some p -> l !! j = Some q -> ep_Node p = ep_Node q -> ep_Node p <> NULL -> i = j).
Proof.
  intros He Hr Hst Hok H1 H2 Hsb. unfold UacpiNtEnumerateNamespace. rewrite (proj2 (Z.eqb_neq _ _)) by done. simpl.
  pose proof (ready_pass s Hr) as Hp. pose proof (two_scopes (es_Calls s) n s Hp) as (_ & Hl & _).
  split; [|destruct Hl; done]. intros c. rewrite <- shown_true_iff, <- (reach_visits _ n) by done.
  rewrite (two_scopes_settle (es_Calls s) n s Hst Hok Hp c), He. unfold shown at 1 2. simpl. rewrite settle_fresh.
  case_decide; [destruct (becomes _ _ _)|]; naive_solver.
Qed.

Lemma will_become_value h c : stable h ->
  (UacpiNtNodeWillBecomePdo c h).1 = present_at h c && hid_fits h c.
Proof.
  intros Hst. unfold UacpiNtNodeWillBecomePdo. destruct (UacpiNtNodeIsPresent c h) as [b h1] eqn:Ep.
  destruct (present_log h c) as [k Hk]. rewrite Ep in Hk. simpl in Hk. subst h1.
  assert (b = present_at h c) as -> by (unfold present_at; by rewrite Ep).
  destruct (Hst k c) as [_ Hh]. unfold hid_at in Hh at 1.
  destruct (UacpiNtNodeReadHid c 16 (k ++ h)) as [o h2] eqn:Eh. simpl in Hh. subst o.
  unfold hid_fits. by destruct (present_at h c).
Qed.

(** UacpiNtNodeWillBecomePdo says of a device node whether the walk makes a
    device object for it; of a present processor without a _HID it says no, and of every
    thermal zone without one, though the walk makes one. *)
Theorem will_become_pdo h c : stable h ->
  match node_type_of c with
  | Some DeviceNode => (UacpiNtNodeWillBecomePdo c h).1 = becomes ProcessorString h c
  | Some ThermalZoneNode => hid_at h c = None -> (UacpiNtNodeWillBecomePdo c h).1 = false /\ becomes ProcessorString h c = true
  | Some ProcessorNode => hid_at h c = None -> present_at h c = true -> ProcessorString <> ""%string ->
      (UacpiNtNodeWillBecomePdo c h).1 = false /\ becomes ProcessorString h c = true
  | None => becomes ProcessorString h c = false
  end.
Proof.
  intros Hst. rewrite will_become_value by done. unfold becomes, hid_fits. destruct (node_type_of c) as [ [| |]|]; [done| |..|done].
  - intros ->. by rewrite andb_false_r.
  - intros -> -> Hs. split; [done|]. simpl. by rewrite (proj2 (String.eqb_neq _ _)).
Qed.

(** ** Relations *)

(** The child is appended. *)
Definition appended (P Q : acpi_node) (Old : list PVOID) (p : enum_pdo) : bool :=
  UacpiNtPdoBelongsTo P Q p && negb (existsb (Z.eqb (ep_Self p)) Old).
Definition reported (P Q : acpi_node) (Old : list PVOID) (p : enum_pdo) : enum_pdo :=
  if appended P Q Old p then ep_set_Reported p else p.

Lemma append_children_ok P Q Old todo : forall r,
  (length (r_Objects r) + length (List.filter (appended P Q Old) todo) <= r_Capacity r)%nat ->
  append_children P Q Old todo r = Done (map (reported P Q Old) todo,
    mkRelations (r_Capacity r) (r_Objects r ++ map ep_Self (List.filter (appended P Q Old) todo))).
Proof.
  induction todo as [|p todo IH]; intros [cap objs] H; simpl in *; [by rewrite app_nil_r|].
  assert (negb (UacpiNtPdoBelongsTo P Q p) || existsb (Z.eqb (ep_Self p)) Old = negb (appended P Q Old p)) as ->.
  { unfold appended. by destruct (UacpiNtPdoBelongsTo P Q p), (existsb _ _). }
  unfold reported at 1. destruct (appended P Q Old p); simpl in *.
  - rewrite (proj2 (Nat.ltb_lt _ _)) by lia. rewrite IH; simpl; [by rewrite <- app_assoc|]. rewrite length_app. simpl. lia.
  - by rewrite IH.
Qed.

Lemma filter_length_le {B} (f g : B -> bool) l : (forall x, f x = true -> g x = true) ->
  (length (List.filter f l) <= length (List.filter g l))%nat.
Proof.
  intros H. induction l as [|x l IH]; simpl; [lia|]. specialize (H x). destruct (f x); [rewrite (H eq_refl); simpl; lia|destruct (g x); simpl; lia].
Qed.

Lemma filter_bool {B} (f : B -> bool) (l : list B) : filter (fun x => f x = true) l = List.filter f l.
Proof.
  induction l as [|x l IH]; [done|]. rewrite filter_cons, IH. simpl. by destruct (f x).
Qed.

Lemma existsb_self d Old : existsb (Z.eqb d) Old = true <-> d ∈ Old.
Proof. rewrite existsb_exists, list_elem_of_In. setoid_rewrite Z.eqb_eq. naive_solver. Qed.

Lemma elem_of_appended P Q Old l d : d ∈ map ep_Self (List.filter (appended P Q Old) l) <->
  exists p, p ∈ l /\ UacpiNtPdoBelongsTo P Q p = true /\ ep_Self p ∉ Old /\ ep_Self p = d.
Proof.
  rewrite <- filter_bool, list_elem_of_fmap. setoid_rewrite list_elem_of_filter. unfold appended.
  setoid_rewrite andb_true_iff. setoid_rewrite negb_true_iff. setoid_rewrite <- not_true_iff_false.
  setoid_rewrite existsb_self. naive_solver.
Qed.

Lemma appended_once P Q Old l : NoDup (map ep_Self l) -> NoDup (map ep_Self (List.filter (appended P Q Old) l)).
Proof. rewrite <- filter_bool. intros H. eapply sublist_NoDup; [exact H|]. apply fmap_sublist, sublist_filter. Qed.

Lemma relations_once P Q Old l : NoDup Old -> NoDup (map ep_Self l) -> NoDup (Old ++ map ep_Self (List.filter (appended P Q Old) l)).
Proof.
  intros Ho Hl. apply NoDup_app. split_and!; [done| |by apply appended_once].
  intros d Hd (p & _ & _ & Hn & <-)%elem_of_appended. done.
Qed.

(** The allocation and the freeing of the old relations. *)
Definition after_merge (Existing : option (list PVOID)) (w : world) : world :=
  match Existing with Some _ => ExFreePoolWithTag w | None => w end.

Lemma merge_value P Q Existing s w : exists size, 16 <= size /\
  UacpiNtMergeChildRelations P Q Existing s w =
  let '(ok, w) := ExAllocatePoolWithTag size w in
  if negb ok then Done (STATUS_INSUFFICIENT_RESOURCES, Existing, s, w)
  else Done (STATUS_SUCCESS, Some (default [] Existing ++ map ep_Self (List.filter (appended P Q (default [] Existing)) (es_Pdos s))),
             es_set_Pdos (map (reported P Q (default [] Existing)) (es_Pdos s)) s, after_merge Existing w).
Proof.
  unfold UacpiNtMergeChildRelations. rewrite filter_bool. set (Old := default [] Existing).
  set (Room := Nat.max 1 _). exists (8 + 8 * Z.of_nat Room). split; [lia|].
  destruct (ExAllocatePoolWithTag _ w) as [ok w1]. destruct (negb ok); [done|].
  rewrite append_children_ok; [done|]. simpl. unfold Room.
  assert (length (List.filter (appended P Q Old) (es_Pdos s)) <= length (List.filter (UacpiNtPdoBelongsTo P Q) (es_Pdos s)))%nat; [|lia].
  apply filter_length_le. unfold appended. intros p. by rewrite andb_true_iff; intros [].
Qed.

(** C25.  Merging children into the relations of a query never writes behind the
    room it has reserved.  What was listed stays, in its place; behind it comes, once
    each, every present child of the scopes that was not listed; only those are marked
    as reported.  Without memory nothing changes.  No block is leaked. *)
Theorem merge_child_relations P Q Existing s w : ready s ->
  exists size w', ExAllocatePoolWithTag size w = (true, w') /\
    (exists l s', UacpiNtMergeChildRelations P Q Existing s w = Done (STATUS_SUCCESS, Some l, s', after_merge Existing w') /\
      (exists new, l = default [] Existing ++ new /\ NoDup new) /\
      (forall d, d ∈ l <-> d ∈ default [] Existing \/ exists p, p ∈ es_Pdos s /\ UacpiNtPdoBelongsTo P Q p = true /\ ep_Self p = d) /\
      (NoDup (default [] Existing) -> NoDup l) /\
      (forall k, es_Pdos s' !! k = reported P Q (default [] Existing) <$> es_Pdos s !! k))
  \/ ExAllocatePoolWithTag size w = (false, w') /\
      UacpiNtMergeChildRelations P Q Existing s w = Done (STATUS_INSUFFICIENT_RESOURCES, Existing, s, w').
Proof.
  intros [ [_ Hnd _ _ _] _]. destruct (merge_value P Q Existing s w) as (size & _ & ->). exists size.
  destruct (ExAllocatePoolWithTag size w) as [ok w']. exists w'. destruct ok; [left|by right]. split; [done|].
  set (Old := default [] Existing). do 2 eexists. split; [done|]. split_and!.
  - eexists. split; [done|]. by apply appended_once.
  - intros d. rewrite elem_of_app, elem_of_appended. split; [naive_solver|].
    intros [?|(p & ? & ? & <-)]; [by left|]. destruct (decide (ep_Self p ∈ Old)); [by left|right; eauto].
  - intros Ho. by apply relations_once.
  - intros k. simpl. apply list_lookup_fmap.
Qed.

Lemma ready_map f s l : (forall p, ep_Self (f p) = ep_Self p /\ ep_Node (f p) = ep_Node p /\ ep_ScopeNode (f p) = ep_ScopeNode p /\
    ep_Hid (f p) = ep_Hid p /\ ep_Instance (f p) = ep_Instance p) ->
  l = es_Pdos s -> ready s -> ready (es_set_Pdos (map f l) s).
Proof.
  intros Hf -> [ [H1 H2 H3 H4 H5] [Hn1 Hn2] ].
  assert (forall P : enum_pdo -> Prop, (forall p, P p -> P (f p)) -> Forall P (es_Pdos s) -> Forall P (map f (es_Pdos s))) as Ha.
  { intros P HP HF. apply Forall_fmap. eapply Forall_impl; [exact HF|]. exact HP. }
  split; [split|split]; simpl; try done.
  - intros i j p q Hi Hj. change (map f (es_Pdos s)) with (f <$> es_Pdos s) in Hi, Hj. rewrite list_lookup_fmap in Hi, Hj.
    apply fmap_Some in Hi as (p' & Hi & ->), Hj as (q' & Hj & ->).
    destruct (Hf p') as (_ & -> & _), (Hf q') as (_ & -> & _). by eapply H1.
  - rewrite map_map. erewrite map_ext; [done|]. intros p. by destruct (Hf p) as (-> & _).
  - apply Ha; [|done]. intros p. by destruct (Hf p) as (-> & -> & _).
  - apply Ha; [|done]. intros p. by destruct (Hf p) as (_ & _ & _ & -> & ->).
  - apply Ha; [|done]. intros p. by destruct (Hf p) as (_ & -> & -> & _).
  - apply Ha; [|done]. intros p. by destruct (Hf p) as (-> & -> & _).
Qed.

Lemma becomes_settle h c old : becomes ProcessorString h c = true -> settle ProcessorString h c old = Some true.
Proof.
  unfold becomes, settle. destruct (node_type_of c) as [ [| |]|]; [|done| |done].
  - intros [-> ->]%andb_true_iff. done.
  - intros [-> Hp]%andb_true_iff. destruct old; [done|]. by destruct (String.eqb ProcessorString "").
Qed.

Lemma shown_pdo c b l : shown c l = Some b <-> exists k p, find_pdo c l = Some k /\ l !! k = Some p /\ ep_Node p = c /\ ep_Present p = b.
Proof.
  unfold shown. destruct (find_pdo c l) as [k|] eqn:E; simpl; [|naive_solver].
  destruct (find_pdo_some _ _ _ E) as (p & Hp & Hc). rewrite Hp. simpl. naive_solver.
Qed.

(** The device of a child of a scope has that scope. *)
Lemma pdo_scope s P c p : ready s -> p ∈ es_Pdos s -> ep_Node p = c -> In c (node_children P) -> ep_ScopeNode p = P.
Proof.
  intros [ [_ _ _ _ H5] _] Hp Hc HP. rewrite Forall_forall in H5. destruct (H5 p Hp) as [Hz|Hs].
  - by destruct (child_not_null _ _ HP); rewrite <- Hc.
  - rewrite Hc in Hs. by eapply one_parent.
Qed.

Lemma belongs_child s P Q c p : ready s -> p ∈ es_Pdos s -> ep_Node p = c -> ep_Present p = true ->
  (In c (node_children P) \/ Q <> NULL /\ In c (node_children Q)) -> UacpiNtPdoBelongsTo P Q p = true.
Proof.
  intros Hr Hp Hc Hpr HPQ. unfold UacpiNtPdoBelongsTo. rewrite Hpr. simpl. destruct HPQ as [HP|[HQ HP] ];
    rewrite (pdo_scope s _ c p Hr Hp Hc HP), Z.eqb_refl; [done|]. rewrite (proj2 (Z.eqb_neq Q NULL) HQ). apply orb_true_r.
Qed.

Lemma walked_parent h Scope c : walked h Scope c -> exists P, In c (node_children P).
Proof. destruct 1; eauto. Qed.

(** With one device per node, the device of a node is the one that is looked up. *)
Lemma shown_device s c p : ready s -> c <> NULL -> p ∈ es_Pdos s -> ep_Node p = c -> shown c (es_Pdos s) = Some (ep_Present p).
Proof.
  intros [ [H1 _ _ _ _] _] Hc [j Hj]%list_elem_of_lookup Hp.
  assert (shown c (es_Pdos s) <> None) as Hs by (apply shown_true_iff; exists p; split; [by eapply list_elem_of_lookup_2|done]).
  destruct (shown c (es_Pdos s)) as [b|] eqn:E; [|done]. apply shown_pdo in E as (k & q & _ & Hk & Hq & <-).
  assert (k = j) as -> by (eapply (H1 k j q p); congruence). by simplify_eq.
Qed.

Lemma reach_not_null h c : in_reach h c -> c <> NULL.
Proof. intros [H|H]; apply walked_parent in H as [P HP]; by eapply child_not_null. Qed.

(** C15.  While _STA and _HID answer the same throughout, device objects can be made
    and there is memory, a bus query of the root lists the device of every child of
    \_SB and \_TZ a device is made for, behind what was listed already and no device
    twice; the device of a node whose _STA says absent is not added. *)
Theorem bus_relations_complete n Existing s w : ready s -> stable (es_Calls s) -> creates_ok create_device ->
  (node_height namespace_sb < n)%nat -> (node_height namespace_tz < n)%nat -> namespace_sb <> NULL ->
  (forall size, w_pool w (w_allocs w) size = true) -> NoDup (default [] Existing) ->
  exists l s' w', UacpiNtBuildBusRelations Win8 ProcessorString create_device n Existing s w = Done (STATUS_SUCCESS, Some l, s', w') /\
    ready s' /\ default [] Existing `prefix_of` l /\ NoDup l /\
    (forall c, In c (node_children namespace_sb) \/ namespace_tz <> NULL /\ In c (node_children namespace_tz) ->
      becomes ProcessorString (es_Calls s) c = true -> exists p, p ∈ es_Pdos s' /\ ep_Node p = c /\ ep_Self p ∈ l) /\
    (forall c p, in_reach (es_Calls s) c -> node_type_of c = Some DeviceNode -> present_at (es_Calls s) c = false ->
      p ∈ es_Pdos s' -> ep_Node p = c -> ep_Self p ∈ l -> ep_Self p ∈ default [] Existing).
Proof.
  intros Hr Hst Hok H1 H2 Hsb Hw Ho. unfold UacpiNtBuildBusRelations.
  pose proof (ready_pass s Hr) as Hp. pose proof (two_scopes_settle (es_Calls s) n s Hst Hok Hp) as Hse.
  pose proof (pass_ready _ _ (two_scopes (es_Calls s) n s Hp)) as Hr1.
  set (s1 := UacpiNtBuildChildPdosForNode Win8 ProcessorString create_device n namespace_tz _) in *.
  destruct (merge_value namespace_sb namespace_tz Existing s1 w) as (size & _ & ->).
  unfold ExAllocatePoolWithTag. rewrite Hw. cbn [negb]. set (Old := default [] Existing) in *.
  do 3 eexists. split; [done|].
  split; [|split; [by eexists|split; [|split] ] ].
  - apply ready_map; [|done|done]. intros p. unfold reported. by destruct (appended _ _ _ p).
  - apply relations_once; [done|]. by destruct Hr1 as [ [] _].
  - intros c Hc Hb. assert (in_reach (es_Calls s) c) as Hrc by (destruct Hc as [?|[] ]; [left|right]; by apply walked_child).
    apply (reach_visits _ n) in Hrc; [|done..]. specialize (Hse c). rewrite decide_True, becomes_settle in Hse by done.
    apply shown_pdo in Hse as (k & p & _ & Hk & Hpc & Hpr). pose proof (list_elem_of_lookup_2 _ _ _ Hk) as Hel.
    pose proof (belongs_child s1 namespace_sb namespace_tz c p Hr1 Hel Hpc Hpr Hc) as Hbel.
    exists (reported namespace_sb namespace_tz Old p). split; [by apply list_elem_of_fmap_2|].
    assert (ep_Node (reported namespace_sb namespace_tz Old p) = c /\ ep_Self (reported namespace_sb namespace_tz Old p) = ep_Self p) as [-> ->].
    { unfold reported. by destruct (appended _ _ _ p). }
    split; [done|]. rewrite elem_of_app, elem_of_appended. destruct (decide (ep_Self p ∈ Old)); [by left|right; eauto].
  - intros c p Hrc Hty Hab Hel Hpc [Hl|Hl]%elem_of_app; [done|].
    apply elem_of_appended in Hl as (q & Hq & Hbel & _ & Es). simpl in Hel. apply list_elem_of_fmap in Hel as (p' & -> & Hp').
    assert (ep_Node p' = c /\ ep_Self q = ep_Self p') as [Hc' Es'].
    { revert Hpc Es. unfold reported. by destruct (appended _ _ _ p'). }
    exfalso. pose proof Hr1 as [ [_ Hnd _ _ _] _].
    pose proof (shown_device s1 c p' Hr1 (reach_not_null _ _ Hrc) Hp' Hc') as Hsh. specialize (Hse c).
    apply (reach_visits _ n) in Hrc; [|done..]. rewrite decide_True, Hsh in Hse by done.
    unfold settle in Hse. rewrite Hty, Hab in Hse. simpl in Hse.
    apply list_elem_of_lookup in Hq as [i Hi], Hp' as [j Hj].
    assert (i = j) as ->. { eapply NoDup_lookup; [exact Hnd|..]; [apply list_lookup_fmap_Some_2; exact Hi|]. rewrite Es'. by apply list_lookup_fmap_Some_2. }
    rewrite Hi in Hj. injection Hj as ->. unfold UacpiNtPdoBelongsTo in Hbel.
    destruct (ep_Present p'), (shown c (es_Pdos s)); done.
Qed.
End Pass.

(** ** A small namespace

    Below \_SB an embedded controller, the processor container with one processor in
    it, a device that is not there, an interrupt link and a node with _ADR alone; below
    \_TZ a thermal zone. *)

Definition bench_names : AcpiNames := {|
  node_children p := if p =? 10 then [11; 12; 13; 14; 16] else if p =? 12 then [15] else if p =? 20 then [21] else [];
  node_type_of c := Some (if c =? 15 then ProcessorNode else if c =? 21 then ThermalZoneNode else DeviceNode);
  node_name c := if c =? 11 then "EC0_" else "DEV_";
  node_path c := if c =? 11 then Some "\_SB_.EC0_"%string else None;
  answer_hid _ c := if c =? 11 then Some "PNP0C09"%string else if c =? 12 then Some "ACPI0010"%string else
                    if c =? 13 then Some "PNP0C0A"%string else if c =? 14 then Some "PNP0C0F"%string else None;
  answer_cid _ _ := None;
  answer_processor _ c := if c =? 15 then Some 1 else None;
  namespace_sb := 10;
  namespace_tz := 20
|}.
Definition bench_acpi : Acpi := scripted_acpi [(13, "_STA"%string, UACPI_OBJECT_INTEGER 0); (16, "_ADR"%string, UACPI_OBJECT_INTEGER 7)] [] [].
Definition bench_create (k : nat) : NTSTATUS * PVOID := (STATUS_SUCCESS, 100 + Z.of_nat k).
Definition bench_empty : enum_state := mkEnum [] [] 0.

Lemma bench_child p c : In c (node_children (AcpiNames := bench_names) p) ->
  (p = 10 /\ In c [11; 12; 13; 14; 16]) \/ (p = 12 /\ c = 15) \/ (p = 20 /\ c = 21).
Proof.
  simpl. repeat case_match; zbool; simpl; intros; [left|right; left|right; right|done]; intuition lia.
Qed.

#[export] Instance bench_tree : AcpiTree bench_names.
Proof.
  refine {| node_height := fun n => if n =? 10 then 2%nat else if (n =? 12) || (n =? 20) then 1%nat else 0%nat |};
    intros *; [|intros H%bench_child; simpl in H; unfold NULL; lia|intros H%bench_child H'%bench_child; simpl in H, H'; lia].
  intros [ [-> H]|[ [-> ->]|[-> ->] ] ]%bench_child; simpl; try lia. simpl in H. by repeat destruct H as [<-|H]; simpl; try lia.
Defined.

Lemma bench_ready : ready (N := bench_names) bench_create bench_empty.
Proof.
  split; [split; simpl; [intros * H; by rewrite lookup_nil in H|apply NoDup_nil_2|constructor..]|split; [|constructor] ].
  unfold bench_create. simpl. intros. lia.
Qed.
Lemma bench_stable h : stable (A := bench_acpi) (N := bench_names) h.
Proof.
  intros k c. split; [|done]. unfold present_at, UacpiNtNodeIsPresent, uacpi_eval_sta, uacpi_eval. cbn -[scripted]. by destruct (scripted _ c "_STA").
Qed.
Lemma bench_creates : creates_ok bench_create.
Proof. by intros k. Qed.

(** What the pass over it makes. *)
Example bench_pass :
  map (fun p => (ep_Node p, ep_ScopeNode p, ep_Hid p, ep_Instance p))
    (es_Pdos (UacpiNtEnumerateNamespace (A := bench_acpi) (N := bench_names) true "GenuineIntel" bench_create 3 true bench_empty).2) =
  [(11, 10, "PNP0C09", "_SB_EC0_"); (12, 10, "ACPI0010", "DEV_"); (15, 12, "", " 1"); (21, 20, "ThermalZone", "DEV_")]%string.
Proof. by vm_compute. Qed.

Lemma build_terminates_witness :
  UacpiNtBuildChildPdosForNode (A := bench_acpi) (N := bench_names) true "GenuineIntel" bench_create 3 10 bench_empty =
  UacpiNtBuildChildPdosForNode (A := bench_acpi) (N := bench_names) true "GenuineIntel" bench_create 9 10 bench_empty.
Proof. apply (build_terminates (A := bench_acpi) true "GenuineIntel" bench_create 3 9 10 bench_empty); simpl; lia. Defined.

Lemma enumeration_exact_witness : exists s',
  UacpiNtEnumerateNamespace (A := bench_acpi) (N := bench_names) true "GenuineIntel" bench_create 3 true bench_empty = (STATUS_SUCCESS, s') /\
  ready (N := bench_names) bench_create s' /\ shown 15 (es_Pdos s') = Some true /\ shown 13 (es_Pdos s') = None.
Proof.
  destruct (enumeration_exact (A := bench_acpi) true "GenuineIntel" bench_create 3 bench_empty bench_ready (bench_stable _) bench_creates)
    as (s' & E & Hr & H); [simpl; lia..|done|]. exists s'. split; [exact E|]. split; [exact Hr|].
  split; [rewrite (proj1 (H 15))|rewrite (proj1 (H 13))]; try done; left.
  - eapply (walked_below _ _ 12); [by apply walked_child; [|right; left]|by vm_compute|by left].
  - apply walked_child; [done|]. simpl. tauto.
Defined.

Lemma first_enumeration_witness :
  exists p, p ∈ es_Pdos (UacpiNtEnumerateNamespace (A := bench_acpi) (N := bench_names) true "GenuineIntel" bench_create 3 true bench_empty).2 /\
    ep_Node p = 21.
Proof.
  apply (first_enumeration (A := bench_acpi) true "GenuineIntel" bench_create 3 bench_empty eq_refl bench_ready (bench_stable _) bench_creates);
    [simpl; lia..|done|]. split; [right; by apply walked_child; [|left]|done].
Defined.

Lemma will_become_pdo_witness :
  (UacpiNtNodeWillBecomePdo (A := bench_acpi) (N := bench_names) 15 []).1 = false /\
  becomes (A := bench_acpi) (N := bench_names) "GenuineIntel" [] 15 = true.
Proof. by apply (will_become_pdo (A := bench_acpi) (N := bench_names) "GenuineIntel" [] 15 (bench_stable _)). Defined.

Definition bench_world (room : bool) : world := mkWorld (fun _ => 0) (fun _ _ => room) 0 0 0.

Lemma merge_child_relations_witness : exists w',
  UacpiNtMergeChildRelations 10 20 (Some [7]) bench_empty (bench_world false) = Done (STATUS_INSUFFICIENT_RESOURCES, Some [7], bench_empty, w').
Proof.
  destruct (merge_child_relations (N := bench_names) bench_create 10 20 (Some [7]) bench_empty (bench_world false) bench_ready)
    as (size & w' & [ [H _]|[_ H] ]); [by vm_compute in H|by exists w'].
Defined.

Lemma bus_relations_complete_witness : exists l s' w',
  UacpiNtBuildBusRelations (A := bench_acpi) (N := bench_names) true "GenuineIntel" bench_create 3 (Some [7]) bench_empty (bench_world true) =
    Done (STATUS_SUCCESS, Some l, s', w') /\ NoDup l /\ [7] `prefix_of` l /\
  exists p, p ∈ es_Pdos s' /\ ep_Node p = 11 /\ ep_Self p ∈ l.
Proof.
  destruct (bus_relations_complete (A := bench_acpi) true "GenuineIntel" bench_create 3 (Some [7]) bench_empty (bench_world true)
    bench_ready (bench_stable _) bench_creates) as (l & s' & w' & E & _ & Hpre & Hn & H & _);
    [simpl; lia..|done|done|apply NoDup_singleton|]. exists l, s', w'. split; [exact E|]. split; [exact Hn|]. split; [exact Hpre|].
  apply H; [left; by left|done].
Defined.
